(* ===== verification/_CoqProject ===== *)
-Q . S2P
Prelude.v
Interleave.v
AdmissionConfig.v
GoHeap.v
AdmissionOwner.v
AdmissionInv.v
AdmissionSteps.v
AdmissionArrive.v
AdmissionPump.v
AdmissionHandle.v
AdmissionFinish.v
AdmissionRun.v
AdmissionScheduler.v
AdmissionFair.v
AdmissionService.v
AdmissionTheorems.v
AdmissionStarvation.v
GoJson.v
JsonGrammar.v
GoIO.v
ContractScan.v
ContractRequest.v
ContractDecode.v
ContractParse.v
ContractResponse.v
GoBufio.v
ContractSSE.v
ContractStream.v
ContractTheorems.v
HttpConfig.v
HttpGate.v
HttpHandler.v
HttpProtocol.v
HttpExchange.v
HttpRelay.v
HttpServe.v
HttpTheorems.v
ServerConfig.v
ServerHandler.v
ServerListener.v
ServerShutdown.v
ServerLifecycle.v
ServerTheorems.v
HttpUpstream.v
AppJson.v
AppDecode.v
AppTyped.v
AppPolicy.v
AppSecrets.v
AppParse.v
AppAccepted.v
AppBuild.v
AppGateway.v
AppCompose.v
AppPolicyFile.v
AppCommand.v
AppRun.v
AppTheorems.v
GoSha256.v
GoMarshal.v
GoText.v
SatWorkload.v
SatSeeded.v
SatOracle.v
SatSchedule.v
SatArrive.v
SatReport.v
SatAudit.v
SatClient.v
SatHarness.v
SatBench.v
SatMain.v
SatUpstream.v
SatTheorems.v
VisEvidence.v
VisRender.v
VisFs.v
VisMain.v
VisPublished.v
VisTheorems.v
