(* ===== verification/Prelude.v ===== *)
(** * ssemaphore: verification development

    A gateway in Go that stands between clients and one Chat Completions server.
    This library models its five packages, the harness that measures them, and the tool
    that publishes its evidence, and proves what makes each of them correct.  Definitions are translated from the source and executable; the
    witnesses evaluate them.

    ** The program, and how its parts interact

    - [internal/app]: [Main] reads a private policy file, decodes and validates it,
      takes the tokens out of the environment, makes the components, opens one
      loopback listener, and supervises the server until a signal ends it.
    - [internal/server]: a listener that bounds the connections, a wrapper that
      counts the requests being served, and the shutdown sequence over both, the
      handler's connections and the scheduler.
    - [internal/httpapi]: [Handler.ServeHTTP] authenticates a request, takes
      pre-dispatch slots, parses the body, acquires a permit of the scheduler,
      calls the upstream client, relays a validated answer or event stream, and
      finishes the permit with an outcome.
    - [internal/admission]: one goroutine owns per-tenant queues, an expiry heap and
      the counters, and serves clients' commands by weighted deficit round robin.
    - [internal/contract]: the strict parsers of requests, responses and event
      streams, which the handler calls.
    - [tools/run_saturation]: a command that makes a seeded workload, predicts by an
      oracle the order in which the scheduler must serve it, runs the gateway
      between its own clients and its own upstream, and reports what it saw with a
      digest of the part that depends on the seed alone.
    - [tools/render_readme_visuals]: a command that runs the harness as a process,
      decodes and validates its report, draws the pictures of the README from it and
      from a loopback demonstration, and checks the files of the repository against
      them, or writes them.

    ** Files

    Shared: [Prelude] (machine integers, the state monad [M] whose outcomes are
    [Done], [Panicked] and [OutOfFuel], its weakest-precondition rules, [result],
    lists), [Interleave] (threads over a shared state, one turn per atomic
    operation of Go, with the induction principle for their invariants), and what
    the source uses of Go's library: [GoHeap] ([container/heap]), [GoJson]
    ([unicode/utf8], [encoding/json]'s token stream), [JsonGrammar] (the
    declarative grammar that the token stream is proved against), [GoIO] (contexts
    and readers), [GoBufio], [GoSha256], [GoMarshal] ([json.Marshal] on the values
    that are marshalled, with the theorem that its text denotes them), [GoText] (raw
    strings, [fmt], [html], [strings], indented JSON, and a matcher of the regular
    expressions that the source has, with what it means to match).

    Admission.  [AdmissionConfig]: [types.go], [config.go].  [AdmissionOwner]:
    [owner.go], [expiry.go]; the owner's state is the record [ownerState], an
    [*entry] is an id, and a method is a definition of the same name in the monad.
    [AdmissionScheduler]: [scheduler.go], the clients' calls, and the whole
    scheduler as a step relation [sys_step] of clients, mailbox, owner and timer.
    [AdmissionInv] states the invariant; [AdmissionSteps], [AdmissionArrive],
    [AdmissionPump], [AdmissionHandle], [AdmissionFinish] and [AdmissionRun] prove it
    of every operation; [AdmissionTheorems] concludes.  [AdmissionFair] (one [pump]) and
    [AdmissionService] (turns and runs) bound what one tenant gets while another
    tenant's head waits; [AdmissionStarvation] concludes.

    Contract.  [ContractScan]: [jsonscan.go].  [ContractRequest],
    [ContractDecode], [ContractParse]: [request.go], [decode.go].
    [ContractResponse]: [response.go].  [ContractSSE], [ContractStream]: [sse.go].
    [ContractTheorems] concludes.

    HTTP.  [HttpConfig], [HttpGate]: [config.go] and the gates of [handler.go], the
    slots also under interleaving.  [HttpHandler]: [handler.go],
    [relay.go], [errors.go], [stream.go], in a monad with defers, panics and a log,
    against an environment that answers each question from the log so far.
    [HttpProtocol] (the automaton over that log and a program logic for it),
    [HttpExchange], [HttpRelay], [HttpServe] (its rules, part by part),
    [HttpUpstream] ([upstream.go], the addresses of [net/netip], and what [net/http]'s client
    does with a request); [HttpTheorems] concludes.

    Server.  [ServerConfig]: [config.go].  [ServerHandler]: [handler.go].
    [ServerListener]: [listener.go].  [ServerShutdown], [ServerLifecycle]:
    [server.go].  [ServerTheorems] concludes.

    App.  [AppJson], [AppDecode], [AppTyped]: [json.go] and its correctness.
    [AppPolicy], [AppParse], [AppAccepted]: [listener.go] and [policy.go].
    [AppSecrets], [AppPolicyFile]: the files of these names.  [AppBuild],
    [AppGateway], [AppCompose]: [build.go], under concurrent calls, and composed
    with the packages it builds from.  [AppCommand], [AppRun]: [signals.go],
    [supervise.go] and [command.go].  [AppTheorems] concludes, also for
    [HttpUpstream], with the policy the repository ships.

    Saturation harness.  [SatWorkload]: [workload.go], the seeded workload and the
    oracle; [SatSeeded] and [SatOracle] prove that every seed has both.
    At its end are the configurations that are measured; [SatSchedule] and [SatArrive]
    run the scheduler of [AdmissionOwner] on them beside the oracle.  [SatReport],
    [SatAudit]: the report of [harness.go], its check, its digest and its text.
    [SatClient]: one client.  [SatHarness]: [exerciseSaturation] and what it waits
    for, a program over a laboratory (class [Lab]) whose answers may depend on all
    that was done; what such a run establishes.  [SatBench]: construction and
    shutdown around it (class [Bench]).  [SatUpstream]: the exchange of
    [upstream.go].  [SatMain]: [main.go].  [SatTheorems] concludes.

    README visuals.  [VisEvidence]: [saturation.go], the run of the harness as a process
    (record [visualMachine]), the decoding of its report into the records of [SatReport],
    and what is accepted.  [VisRender]: the renderers and the guard of [render.go],
    [saturation_render.go], [architecture.go] and [setup.go].  [VisFs]: [visualfs.go]
    and the source digests, in a monad whose calls go to an operating system (class [OS])
    that answers from the log of all calls before; below the definitions, a logic for
    what a piece of code does to that log, whatever the answers are.  [VisMain]:
    [main.go], whose log also has the acts of the machine and the demonstration, and the
    set of artifacts of [render.go].  [VisPublished]: the generated
    files as they are in the repository.  [VisTheorems] concludes.

    ** What the theorems show

    - Admission: counters are exact and within limits in every reachable state,
      no turn of the owner panics or diverges, every request has one answer, the
      owner waits only when nothing can be dispatched, credit is bounded, no tenant
      starves another one's head unless it gives up queued requests (and a run in
      which it does), a configuration is accepted exactly as specified.
    - Contract: the parsers accept exactly the texts of declarative
      specifications, always return, do not take a cancellation for a bad request,
      and give back byte for byte what they accepted.
    - HTTP: whatever the environment answers and wherever it panics, every
      request follows the protocol and owes nothing at its end; the client sees
      only validated data; the upstream sees only admitted requests, each sent once
      and to it alone whatever the network answers; slots and permits are exact.
    - Server: the shutdown sequence ends, in order and in its time budget, and runs
      once under every interleaving; connections and requests are counted exactly.
    - App: the policy text, document, file and secrets are accepted exactly as
      specified; a policy that was accepted makes components without fail; every
      resource is released once; the exit code is success exactly when it should be.
    - Saturation harness: every seed has a valid workload and a complete plan; the
      scheduler that is measured serves the workload in exactly that plan; a run
      ends, leaves nothing open, submits every job once and reports only the plan;
      the published digest is the digest of every run of the published seed; the
      command writes exactly a checked report, or tells its failure.
    - README visuals: of a checked report the tool accepts exactly the published one, and
      draws of it exactly the files of the repository, byte for byte; nothing passes the
      guard that it is to hold back; an artifact is replaced at once or not at all; the
      check finds every difference in a directory that stands still; the command always
      ends, closes what it opened, and with [--check] makes no call of its own that
      changes a file; and the one directory that the run of the harness makes, in the
      repository and also with [--check], is removed unless the machine refuses to.

    ** Integers, fuel and bounds

    Integers are [Z] with the wrap-around of their width written at each operation;
    [int] has 64 bits.  Bytes are [Z]s, strings and slices of bytes lists of them.
    Loops that are not structural take fuel, and each has a theorem that its fuel
    is enough: [scanFuel], [decodeFuel] and [policyFuel] are linear in the text,
    of which every turn consumes a byte; [sliceFuel] is the buffer's size; [pump]
    runs down a measure of queues and credit ([pumpFuel_enough]), and so does the
    oracle, whose bound on visits is the source's own; [relayFuel] is the
    configured number of events and two; heap operations take the number of
    elements, walks to the root directory the length of the path, walks into a source
    tree its bound on depth ([sourceFuel], with [collect_tidy]), writes the length of what
    is written, and the keys of a report twice its length ([visualFuel], with
    [reject_exact]).

    ** Parameters

    Code that is not modelled is a parameter of the definitions that use it:
    the digest [sha256] (in the gateway; the harness and the visuals use the computed
    [sha256_Sum256]), [url.Parse] and [URL.String], [mime.ParseMediaType], the
    network's answers to each attempt of the upstream's transport (with how a [Location] is
    resolved and a redirected request made), the file system, [net.ListenTCP], the clock and the client
    contexts (class [World]: readings that may change at each tick, whose laws are
    that time and cancellations do not go back), and the environments of the
    handler, the shutdown sequence, the supervision, the harness and the visuals, of
    which nothing is assumed but, where it is said, that the context of a run ends, or
    that a directory stands still.

    ** Not modelled

    Response headers other than those the handler decides on, [net/http]'s server
    beyond the values it is given (of its client, [HttpUpstream] has when it tries a request
    again, follows a redirect or goes through a proxy, and the bounds as values), the
    redacting [String] methods, the system clock, and the erasure of secrets in
    memory (only that the references are dropped).  [cmd/ssemaphore] is one call of
    [Main].  Of the harness, the goroutines that run a client or serve the upstream
    (their answers are the laboratory's) and the lengths of its cleanup deadlines.
    Of [tools/render_readme_visuals] the demonstration of [demo.go], which runs the
    gateway as a process between sockets of its own, in a directory outside the repository:
    what it comes to is a parameter, and that it runs an event of the command's log. What
    the processes that the tool runs do on disk is not modelled either.

    ** Further work

    The handler composed with the scheduler's step relation in place of its
    environment, a declarative reading of the surrogate escapes, and the response
    headers. *)

From Stdlib Require Export ZArith Lia.
From stdpp Require Export gmap strings sorting list_numbers prelude.
From stdpp Require Export list.

#[global] Open Scope Z_scope.

(** ** Machine integers

    Go's [uint64], [uint32] and [uint16] are integers [Z]; every operation that
    the source performs at machine width is written with its wrap-around. *)

Definition two64 : Z := 18446744073709551616.
Definition two63 : Z := 9223372036854775808.
Definition two32 : Z := 4294967296.

Definition u64 (z : Z) : Z := z `mod` two64.
Definition u32 (z : Z) : Z := z `mod` two32.
Definition u16 (z : Z) : Z := z `mod` 65536.

(** Conversion to [int64], and the wrap-around of its arithmetic. *)
Definition int64 (z : Z) : Z := if u64 z <? two63 then u64 z else u64 z - two64.

(** Values that a Go variable of the width can hold. *)
Definition is_u64 (z : Z) : Prop := 0 <= z < two64.
Definition is_u32 (z : Z) : Prop := 0 <= z < two32.
Definition is_int64 (z : Z) : Prop := - two63 <= z < two63.

(** [math.MaxInt64] and [math.MaxUint32], [^uint64(0)]. *)
Definition max_int64 : Z := 9223372036854775807.
Definition max_uint32 : Z := 4294967295.
Definition max_uint64 : Z := 18446744073709551615.

(** [bits.Mul64] returns the high and the low word of the product. *)
Definition mul64 (x y : Z) : Z * Z := ((x * y) / two64, u64 (x * y)).

(** [bits.Add64 x y 0] returns the sum and the carry. *)
Definition add64 (x y : Z) : Z * Z := (u64 (x + y), (x + y) / two64).

(** [time.Duration] values are nanoseconds. *)
Definition time_Millisecond : Z := 1000000.
Definition time_Second : Z := 1000000000.
Definition time_Minute : Z := 60000000000.
Definition time_Hour : Z := 3600000000000.

Declare Scope go_scope.
Delimit Scope go_scope with go.
Notation "x +u y" := (u64 (x + y)) (at level 50, left associativity) : go_scope.
Notation "x -u y" := (u64 (x - y)) (at level 50, left associativity) : go_scope.
Notation "x *u y" := (u64 (x * y)) (at level 40, left associativity) : go_scope.
#[global] Open Scope go_scope.

(** ** Bytes and strings

    A byte is an 8-bit [Z]; Go strings and byte slices are lists of bytes. *)

Abbreviation gostring := (list Z) (only parsing).

Definition bs (s : string) : list Z :=
  map (fun a => Z.of_N (Ascii.N_of_ascii a)) (String.list_ascii_of_string s).

(** [strings.Split] at one byte. *)
Fixpoint splitOn (sep : Z) (s : gostring) : list gostring :=
  match s with
  | [] => [[]]
  | c :: s =>
      if c =? sep then [] :: splitOn sep s
      else match splitOn sep s with
           | field :: fields => (c :: field) :: fields
           | [] => [[c]]
           end
  end.

(** ** Fallible and stateful code

    [comp] is what running a piece of Go code can come to: a value, a panic, or
    (of the model only) a loop that used up its fuel.  [M S] threads a state. *)

Inductive comp (A : Type) : Type :=
| Done (a : A)
| Panicked (msg : string)
| OutOfFuel.
Arguments Done {A} a.
Arguments Panicked {A} msg.
Arguments OutOfFuel {A}.

Inductive result (E A : Type) : Type :=
| Ok (a : A)
| Err (e : E).
Arguments Ok {E A} a.
Arguments Err {E A} e.

#[global] Instance result_ret E : MRet (result E) := fun A a => Ok a.
#[global] Instance result_bind E : MBind (result E) := fun A B f r =>
  match r with Ok a => f a | Err e => Err e end.

(** [guard_err b e]: the early return [if b { return e }]. *)
Definition guard_err {E : Type} (b : bool) (e : E) : result E unit :=
  if b then Err e else Ok tt.

Definition M (S A : Type) : Type := S -> comp (A * S).

#[global] Instance M_ret S : MRet (M S) := fun A a s => Done (a, s).
#[global] Instance M_bind S : MBind (M S) := fun A B f m s =>
  match m s with
  | Done (a, s') => f a s'
  | Panicked e => Panicked e
  | OutOfFuel => OutOfFuel
  end.

Definition gets {S A : Type} (f : S -> A) : M S A := fun s => Done (f s, s).
Definition modify {S : Type} (f : S -> S) : M S unit := fun s => Done (tt, f s).
Definition panic {S A : Type} (msg : string) : M S A := fun _ => Panicked msg.
Definition no_fuel {S A : Type} : M S A := fun _ => OutOfFuel.

(** [m] runs from [s] without panicking or running out of fuel, to a value and
    a state that satisfy [Q]. *)
Definition wp {S A : Type} (m : M S A) (Q : A -> S -> Prop) (s : S) : Prop :=
  exists a s', m s = Done (a, s') /\ Q a s'.

(** ** Sums over lists *)

Fixpoint sumZ {A} (f : A -> Z) (l : list A) : Z :=
  match l with [] => 0 | x :: l => f x + sumZ f l end.

Lemma sumZ_alter {A} (f : A -> Z) (g : A -> A) i l x :
  l !! i = Some x -> sumZ f (alter g i l) = sumZ f l + f (g x) - f x.
Proof.
  revert i. induction l as [|y l IH]; intros [|i] Hi; cbn in *; try done.
  - simplify_eq. lia.
  - specialize (IH i Hi). unfold alter in *. cbn in *. lia.
Qed.

Lemma sumZ_nonneg {A} (f : A -> Z) l : Forall (fun x => 0 <= f x) l -> 0 <= sumZ f l.
Proof. induction 1; cbn; lia. Qed.

(** The lists are related element by element. *)
Lemma sumZ_le_sum {A B} (f : A -> Z) (g : B -> nat) l k :
  Forall2 (fun x y => f x <= Z.of_nat (g y)) l k -> sumZ f l <= Z.of_nat (sum_list_with g k).
Proof. induction 1; cbn; lia. Qed.

Lemma sumZ_insert {A} (f : A -> Z) i x y l : l !! i = Some x -> sumZ f (<[i := y]> l) = sumZ f l + f y - f x.
Proof. intros Hi. rewrite list_insert_alter. by apply (sumZ_alter f (fun _ => y)). Qed.

Lemma sumZ_app {A} (f : A -> Z) l k : sumZ f (l ++ k) = sumZ f l + sumZ f k.
Proof. induction l as [|x l IH]; cbn; lia. Qed.

Lemma sumZ_ext {A} (f g : A -> Z) l : (forall x, x ∈ l -> f x = g x) -> sumZ f l = sumZ g l.
Proof.
  induction l as [|x l IH]; cbn; intros Hfg; [done|].
  rewrite (Hfg x), IH; [done| |left]. intros y Hy. apply Hfg. by right.
Qed.

Lemma sumZ_Permutation {A} (f : A -> Z) l k : l ≡ₚ k -> sumZ f l = sumZ f k.
Proof. induction 1; cbn; lia. Qed.

Lemma sumZ_submseteq {A} (f : A -> Z) l k : (forall x, 0 <= f x) -> l ⊆+ k -> sumZ f l <= sumZ f k.
Proof.
  intros Hf [r Hr]%submseteq_Permutation. rewrite (sumZ_Permutation f k _ Hr), sumZ_app.
  assert (0 <= sumZ f r) by (apply sumZ_nonneg, Forall_forall; auto). lia.
Qed.

Lemma sumZ_partition {A} (f : A -> Z) (P : A -> bool) l :
  sumZ f l = sumZ f (List.filter P l) + sumZ f (List.filter (fun x => negb (P x)) l).
Proof. induction l as [|x l IH]; cbn; [done|]. destruct (P x); cbn; lia. Qed.

(** ** Lemmas on machine integers *)

Lemma u64_small z : is_u64 z -> u64 z = z.
Proof. unfold is_u64, u64. apply Z.mod_small. Qed.

Lemma int64_small z : is_int64 z -> int64 z = z.
Proof.
  unfold is_int64, int64, u64. intros Hz.
  pose proof (Z.div_mod z two64 ltac:(discriminate)) as Hd.
  pose proof (Z.mod_pos_bound z two64 eq_refl) as Hm.
  assert (z / two64 = if z <? 0 then -1 else 0) as Hq.
  { destruct (Z.ltb_spec z 0).
    - symmetry. apply (Z.div_unique _ _ _ (z + two64)); unfold two63, two64 in *; lia.
    - apply Z.div_small. unfold two63, two64 in *. lia. }
  rewrite Hq in Hd. destruct (Z.ltb_spec z 0), (Z.ltb_spec (z mod two64) two63);
    unfold two63, two64 in *; lia.
Qed.

Lemma u64_range z : is_u64 (u64 z).
Proof. unfold is_u64, u64. apply Z.mod_pos_bound. reflexivity. Qed.

Lemma u32_small z : is_u32 z -> u32 z = z.
Proof. unfold is_u32, u32. apply Z.mod_small. Qed.

Lemma mul64_spec x y :
  0 <= x -> 0 <= y ->
  (fst (mul64 x y) = 0 -> x * y < two64 /\ snd (mul64 x y) = x * y) /\
  (fst (mul64 x y) <> 0 -> two64 <= x * y).
Proof.
  intros Hx Hy. unfold mul64, u64; cbn [fst snd].
  pose proof (Z.div_mod (x * y) two64 ltac:(discriminate)).
  pose proof (Z.mod_pos_bound (x * y) two64 eq_refl).
  assert (0 <= x * y) by nia.
  assert (0 <= (x * y) / two64) by (apply Z.div_pos; [lia | reflexivity]).
  unfold two64 in *. split; intros; [rewrite H3 in *|]; lia.
Qed.

Lemma mul64_exact x y :
  0 <= x -> 0 <= y -> x * y < two64 -> mul64 x y = (0, x * y).
Proof.
  intros. unfold mul64. rewrite Z.div_small, u64_small; unfold is_u64; first done.
  all: nia.
Qed.

Lemma add64_spec x y :
  0 <= x -> 0 <= y ->
  (snd (add64 x y) = 0 -> x + y < two64 /\ fst (add64 x y) = x + y) /\
  (snd (add64 x y) <> 0 -> two64 <= x + y).
Proof.
  intros Hx Hy. unfold add64, u64; cbn [fst snd].
  pose proof (Z.div_mod (x + y) two64 ltac:(discriminate)).
  pose proof (Z.mod_pos_bound (x + y) two64 eq_refl).
  assert (0 <= (x + y) / two64) by (apply Z.div_pos; [lia | reflexivity]).
  unfold two64 in *. split; intros; [rewrite H2 in *|]; lia.
Qed.

Lemma add64_exact x y :
  0 <= x -> 0 <= y -> x + y < two64 -> add64 x y = (x + y, 0).
Proof.
  intros. unfold add64. rewrite Z.div_small, u64_small; unfold is_u64; first done.
  all: lia.
Qed.

(** ** Lemmas on early returns *)

Lemma guard_err_Ok {E A : Type} (b : bool) (e : E) (k : result E A) (v : A) :
  (_ ← guard_err b e; k) = Ok v <-> b = false /\ k = Ok v.
Proof. destruct b; cbn; split; try done; by intros [? ?]. Qed.

Lemma guard_err_Err {E A : Type} (b : bool) (e e' : E) (k : result E A) :
  (_ ← guard_err b e; k) = Err e' <-> (b = true /\ e = e') \/ (b = false /\ k = Err e').
Proof. destruct b; cbn; split; intuition congruence. Qed.

Lemma result_bind_Ok {E A B : Type} (m : result E A) (f : A -> result E B) (v : B) :
  m ≫= f = Ok v <-> exists a, m = Ok a /\ f a = Ok v.
Proof.
  destruct m as [a|e]; cbn; split; [by exists a | by intros (? & [= ->] & ?) | done |].
  by intros (? & ? & ?).
Qed.

(** ** Lemmas on lists *)

Lemma forallb_elem {A} (f : A -> bool) l : forallb f l = true <-> forall x, x ∈ l -> f x = true.
Proof.
  rewrite forallb_forall. split; intros H x Hx; apply H; [by apply list_elem_of_In|by apply list_elem_of_In].
Qed.

Lemma splitOn_cons sep s : exists field fields, splitOn sep s = field :: fields.
Proof. destruct s as [|c s]; cbn; [by eexists _, _|]. destruct (c =? sep); [by eexists _, _|]. destruct (splitOn sep s); by eexists _, _. Qed.

(** A field has no separator, and fields apart are read back. *)
Lemma splitOn_fields sep s : Forall (fun field => sep ∉ field) (splitOn sep s).
Proof.
  induction s as [|c s IH]; cbn; [repeat constructor; apply not_elem_of_nil|].
  destruct (Z.eqb_spec c sep) as [->|Hc]; [constructor; [apply not_elem_of_nil|done]|].
  destruct (splitOn sep s) as [|field fields]; [by repeat constructor; rewrite list_elem_of_singleton|].
  apply Forall_cons in IH as [Hf Hfs]. constructor; [|done]. by apply not_elem_of_cons.
Qed.

Lemma splitOn_app sep field s : sep ∉ field -> splitOn sep (field ++ sep :: s) = field :: splitOn sep s.
Proof.
  induction field as [|c field IH]; cbn; intros Hn; [by rewrite Z.eqb_refl|]. apply not_elem_of_cons in Hn as [Hc Hn].
  destruct (Z.eqb_spec c sep) as [->|_]; [done|]. by rewrite IH.
Qed.

Lemma splitOn_field sep field : sep ∉ field -> splitOn sep field = [field].
Proof.
  induction field as [|c field IH]; cbn; intros Hn; [done|]. apply not_elem_of_cons in Hn as [Hc Hn].
  destruct (Z.eqb_spec c sep) as [->|_]; [done|]. by rewrite IH.
Qed.

(** ** Rules for the state monad *)

Section wp_rules.
Context {S : Type}.

Lemma wp_ret {A} (a : A) (Q : A -> S -> Prop) s : Q a s -> wp (mret a) Q s.
Proof. intros H. exists a, s. split; [reflexivity | exact H]. Qed.

Lemma wp_bind {A B} (m : M S A) (f : A -> M S B) Q s :
  wp m (fun a s' => wp (f a) Q s') s -> wp (m ≫= f) Q s.
Proof.
  intros (a & s' & Hm & b & s'' & Hf & HQ). exists b, s''. split; last done.
  unfold mbind, M_bind. by rewrite Hm.
Qed.

Lemma wp_mono {A} (m : M S A) (P Q : A -> S -> Prop) s :
  wp m P s -> (forall a s', P a s' -> Q a s') -> wp m Q s.
Proof. intros (a & s' & Hm & HP) HPQ. exists a, s'. eauto. Qed.

Lemma wp_gets {A} (f : S -> A) (Q : A -> S -> Prop) s : Q (f s) s -> wp (gets f) Q s.
Proof. intros H. by exists (f s), s. Qed.

Lemma wp_modify (f : S -> S) (Q : unit -> S -> Prop) s :
  Q tt (f s) -> wp (modify f) Q s.
Proof. intros H. by exists tt, (f s). Qed.

Lemma wp_bind_mono {A B} (m : M S A) (f : A -> M S B) P Q s :
  wp m P s -> (forall a s', P a s' -> wp (f a) Q s') -> wp (m ≫= f) Q s.
Proof. intros Hm Hf. apply wp_bind. eapply wp_mono; eauto. Qed.

Lemma wp_assoc {A B C} (m : M S A) (f : A -> M S B) (g : B -> M S C) Q s :
  wp ((m ≫= f) ≫= g) Q s -> wp (m ≫= (fun a => f a ≫= g)) Q s.
Proof.
  intros (c & t & Hm & HQ). exists c, t. split; [|done].
  revert Hm. unfold mbind, M_bind. destruct (m s) as [[a s1]| |]; done.
Qed.

(** A [wp] fact determines the run. *)
Lemma wp_and {A} (m : M S A) (P Q : A -> S -> Prop) s :
  wp m P s -> wp m Q s -> wp m (fun a s' => P a s' /\ Q a s') s.
Proof. intros (a & s' & Hm & HP) (a' & s2 & Hm' & HQ). rewrite Hm in Hm'. simplify_eq. by exists a', s2. Qed.

Lemma wp_run {A} (m : M S A) Q s a s' : wp m Q s -> m s = Done (a, s') -> Q a s'.
Proof. intros (b & t & Hm & HQ) Hr. rewrite Hm in Hr. by simplify_eq. Qed.

Lemma wp_not_panic {A} (m : M S A) Q s msg : wp m Q s -> m s <> Panicked msg.
Proof. intros (b & t & Hm & HQ). rewrite Hm. discriminate. Qed.

Lemma wp_not_fuel {A} (m : M S A) Q s : wp m Q s -> m s <> OutOfFuel.
Proof. intros (b & t & Hm & HQ). rewrite Hm. discriminate. Qed.

Lemma wp_if {A} (b : bool) (m n : M S A) Q s :
  (b = true -> wp m Q s) -> (b = false -> wp n Q s) -> wp (if b then m else n) Q s.
Proof. destruct b; auto. Qed.
End wp_rules.

(** ** Tactics *)

(** Boolean tests of the code into propositions, in the hypotheses. *)
Ltac breflect :=
  repeat match goal with
  | H : andb _ _ = true |- _ => apply andb_true_iff in H as [? ?]
  | H : andb _ _ = false |- _ => apply andb_false_iff in H
  | H : orb _ _ = false |- _ => apply orb_false_iff in H as [? ?]
  | H : orb _ _ = true |- _ => apply orb_true_iff in H
  | H : negb _ = true |- _ => apply negb_true_iff in H
  | H : negb _ = false |- _ => apply negb_false_iff in H
  | H : Z.eqb _ _ = true |- _ => apply Z.eqb_eq in H
  | H : Z.eqb _ _ = false |- _ => apply Z.eqb_neq in H
  | H : Z.ltb _ _ = true |- _ => apply Z.ltb_lt in H
  | H : Z.ltb _ _ = false |- _ => apply Z.ltb_ge in H
  | H : Z.leb _ _ = true |- _ => apply Z.leb_le in H
  | H : Z.leb _ _ = false |- _ => apply Z.leb_gt in H
  | H : Nat.eqb _ _ = true |- _ => apply Nat.eqb_eq in H
  | H : Nat.eqb _ _ = false |- _ => apply Nat.eqb_neq in H
  | H : bool_decide _ = true |- _ => apply bool_decide_eq_true in H
  | H : bool_decide _ = false |- _ => apply bool_decide_eq_false in H
  end.

(** One step through monadic code under [wp]. *)
Ltac wp_step :=
  lazymatch goal with
  | |- wp (mbind _ _) _ _ => apply wp_bind
  | |- wp (mret _) _ _ => apply wp_ret
  | |- wp (gets _) _ _ => apply wp_gets
  | |- wp (modify _) _ _ => apply wp_modify
  end.
Ltac wp_steps := repeat (wp_step; cbn beta).

(** Case analysis on a test of the code, keeping it as a proposition. *)
Ltac wp_case := apply wp_if; intros ?; breflect.
