(* ===== verification/Interleave.v ===== *)
(** * Threads over a shared state

    The locks, channels and [sync.Once]s of the concurrent parts are modelled as
    threads that take turns: a turn is one operation that Go makes atomic.  Here
    are the step relation, its invariants, and sums over the threads. *)

From S2P Require Import Prelude.

(** ** Sums over the threads *)

Section total.
Context {T : Type}.
Implicit Types (f : T -> Z) (l : list T).

Definition total f l : Z := foldr (fun t acc => f t + acc) 0 l.

Lemma total_nil f : total f [] = 0.
Proof. reflexivity. Qed.

Lemma total_cons f t l : total f (t :: l) = f t + total f l.
Proof. reflexivity. Qed.

Lemma total_app f l1 l2 : total f (l1 ++ l2) = total f l1 + total f l2.
Proof. induction l1 as [|t l1 IH]; cbn; [reflexivity|]. unfold total in *. cbn. lia. Qed.

Lemma total_nonneg f l : (forall t, 0 <= f t) -> 0 <= total f l.
Proof. intros Hf. induction l as [|t l IH]; [done|]. rewrite total_cons. specialize (Hf t). lia. Qed.

(** A thread's share is at most the sum. *)
Lemma total_split f l1 t l2 : (forall t, 0 <= f t) -> f t <= total f (l1 ++ t :: l2).
Proof.
  intros Hf. rewrite total_app, total_cons. pose proof (total_nonneg f l1 Hf).
  pose proof (total_nonneg f l2 Hf). lia.
Qed.

Lemma total_bound f l : (forall t, f t <= 1) -> total f l <= Z.of_nat (length l).
Proof.
  intros Hf. induction l as [|t l IH]; [done|]. rewrite total_cons. specialize (Hf t). cbn [length]. lia.
Qed.

Lemma total_zero f l t : (forall t, 0 <= f t) -> total f l = 0 -> t ∈ l -> f t = 0.
Proof.
  intros Hf Hl (l1 & l2 & ->)%list_elem_of_split. pose proof (total_split f l1 t l2 Hf).
  specialize (Hf t). lia.
Qed.

Lemma total_exchange f l1 t t' l2 sp :
  total f (l1 ++ t' :: l2 ++ sp) = total f (l1 ++ t :: l2) - f t + f t' + total f sp.
Proof. rewrite !total_app, !total_cons, !total_app. lia. Qed.
End total.

(** ** Turns *)

(** Where a turn leads: the thread, the state and the threads it starts. *)
Inductive turned (S T : Type) : Type :=
| Moved (t : T) (s : S) (spawned : list T)
| Blocked.
Arguments Moved {S T} t s spawned.
Arguments Blocked {S T}.

Section interleave.
Context {S T C : Type}.

(** [turn c t s]: the next operation of [t] in [s]; [c] chooses where Go leaves
    a choice.  [fresh] are the threads that may arrive. *)
Context (turn : C -> T -> S -> comp (turned S T)) (fresh : T -> bool).

Inductive interleave_step : S * list T -> S * list T -> Prop :=
| step_turn c s s' l1 t t' l2 sp :
    turn c t s = Done (Moved t' s' sp) -> interleave_step (s, l1 ++ t :: l2) (s', l1 ++ t' :: l2 ++ sp)
| step_arrive s l t : fresh t = true -> interleave_step (s, l) (s, l ++ [t]).

Definition interleaved (s0 : S) (s : S) (l : list T) : Prop := rtc interleave_step (s0, []) (s, l).

(** An invariant of the initial state that turns and arrivals preserve. *)
Lemma interleaved_ind (P : S -> list T -> Prop) s0 :
  P s0 [] ->
  (forall c s l1 t l2 t' s' sp, P s (l1 ++ t :: l2) -> turn c t s = Done (Moved t' s' sp) ->
     P s' (l1 ++ t' :: l2 ++ sp)) ->
  (forall s l t, P s l -> fresh t = true -> P s (l ++ [t])) ->
  forall s l, interleaved s0 s l -> P s l.
Proof.
  intros Hinit Hturn Harrive s l H.
  change (P (s, l).1 (s, l).2). revert H. unfold interleaved. generalize (s, l). clear s l.
  apply rtc_ind_r; [exact Hinit|]. intros [s1 l1] [s2 l2] _ Hstep IH. cbn [fst snd] in *.
  inversion Hstep; subst; eauto.
Qed.

(** ** Schedules *)

Inductive scheduled := Arrive (t : T) | Turn (i : nat) (c : C).

Definition run_item (item : scheduled) (sl : S * list T) : option (S * list T) :=
  let '(s, l) := sl in
  match item with
  | Arrive t => if fresh t then Some (s, l ++ [t]) else None
  | Turn i c =>
      match l !! i with
      | Some t =>
          match turn c t s with
          | Done (Moved t' s' sp) => Some (s', take i l ++ t' :: drop (Datatypes.S i) l ++ sp)
          | _ => None
          end
      | None => None
      end
  end.

Definition run_schedule (items : list scheduled) (s0 : S) : option (S * list T) :=
  foldl (fun sl item => sl ≫= run_item item) (Some (s0, [])) items.

Lemma run_item_step item a b : run_item item a = Some b -> interleave_step a b.
Proof.
  destruct a as [s l], item as [t|i c]; cbn.
  - destruct (fresh t) eqn:Hf; [|done]. intros [= <-]. by constructor.
  - destruct (l !! i) as [t|] eqn:Hi; [|done]. destruct (turn c t s) as [[t' s' sp|]| |] eqn:Ht; try done.
    intros [= <-]. rewrite <- (take_drop_middle l i t Hi) at 1. by econstructor.
Qed.

Lemma run_schedule_interleaved items s0 s l :
  run_schedule items s0 = Some (s, l) -> interleaved s0 s l.
Proof.
  unfold run_schedule, interleaved. revert s l.
  induction items as [|item items IH] using rev_ind; intros s l; [intros [= <- <-]; constructor|].
  rewrite foldl_app. cbn. destruct (foldl _ _ items) as [[s1 l1]|]; [|done]. cbn.
  intros Hrun. eapply rtc_r; [by apply IH|by eapply run_item_step].
Qed.
End interleave.
Arguments Arrive {T C} t.
Arguments Turn {T C} i c.

(** ** [sync.Once]

    [Do] runs its body in the first call; the calls that come meanwhile wait. *)

Inductive onceState := OnceNew | OnceRunning | OnceDone.

#[export] Instance onceState_eq_dec : EqDecision onceState.
Proof. solve_decision. Defined.
