(* ===== verification/AdmissionConfig.v ===== *)
(** * Admission: public types and configuration validation

    Models [internal/admission/types.go] (data) and [internal/admission/config.go].
    A validated configuration is characterised in both directions: by a
    declarative predicate over unbounded integers ([valid_config]) and by the
    facts the scheduler relies on ([wf_config]). *)

From S2P Require Import Prelude.

(** ** Data *)

(** [type TenantID uint32] *)
Abbreviation TenantID := Z (only parsing).

Record QueueLimits := MkQueueLimits { ql_Count : Z; ql_Bytes : Z; ql_Work : Z }.
Record InflightLimits := MkInflightLimits { il_Count : Z; il_Work : Z }.

Record TenantConfig := MkTenantConfig {
  tc_ID : TenantID;
  tc_Weight : Z;
  tc_Queue : QueueLimits;
  tc_Inflight : InflightLimits;
}.

Record Config := MkConfig {
  c_MaxBodyBytes : Z;
  c_MaxRequestUnits : Z;
  c_BaseQuantum : Z;
  c_DeficitCap : Z;
  c_GlobalQueue : QueueLimits;
  c_GlobalInflight : InflightLimits;
  c_Tenants : list TenantConfig;
}.

(** [QueueTimeout] is a [time.Duration], in nanoseconds. *)
Record Admission := MkAdmission {
  a_Tenant : TenantID;
  a_BodyBytes : Z;
  a_WorkUnits : Z;
  a_QueueTimeout : Z;
}.

(** [DecisionNone] is the zero value of the Go type. *)
Inductive DecisionKind :=
| DecisionNone
| DecisionDispatched
| DecisionTenantRejected
| DecisionGlobalRejected
| DecisionQueueExpired
| DecisionCanceledQueued
| DecisionCanceledBeforeStart
| DecisionShutdown
| DecisionDraining
| DecisionInvalid.

Inductive ResourceKind := ResourceNone | ResourceCount | ResourceBytes | ResourceWork.

Record Decision := MkDecision { d_Kind : DecisionKind; d_Resource : ResourceKind }.

#[export] Instance DecisionKind_eq_dec : EqDecision DecisionKind.
Proof. solve_decision. Defined.
#[export] Instance ResourceKind_eq_dec : EqDecision ResourceKind.
Proof. solve_decision. Defined.
#[export] Instance Decision_eq_dec : EqDecision Decision.
Proof. solve_decision. Defined.

Record validatedTenant := MkValidatedTenant {
  vt_id : TenantID;
  vt_quantum : Z;
  vt_queue : QueueLimits;
  vt_inflight : InflightLimits;
}.

Record validatedConfig := MkValidatedConfig {
  vc_maxBodyBytes : Z;
  vc_maxRequestUnits : Z;
  vc_deficitCap : Z;
  vc_globalQueue : QueueLimits;
  vc_globalInflight : InflightLimits;
  vc_tenants : list validatedTenant;
  vc_tenantByID : gmap TenantID nat;
}.

(** One constructor per error the validation returns; the scope is the name
    that [fmt.Errorf] puts in front ([None] for "global"). *)
Inductive config_error :=
| ErrMaxBody
| ErrMaxUnits
| ErrBaseQuantum
| ErrTenantCount
| ErrQueueLimits (scope : option nat)
| ErrGlobalQueuedCount
| ErrInflightLimits (scope : option nat)
| ErrGlobalInflightCount
| ErrTenantZeroID (index : nat)
| ErrTenantRepeatsID (index : nat)
| ErrTenantZeroWeight (index : nat)
| ErrTenantQuantum (index : nat)
| ErrTenantQueueExceeds (index : nat)
| ErrTenantInflightExceeds (index : nat)
| ErrDeficitBoundOverflow
| ErrDeficitCap
| ErrFundingWork.

(** ** Constants *)

Definition absoluteMaxTenants : Z := 1024.
Definition absoluteMaxQueuedRequests : Z := 65536.
Definition absoluteMaxInflightRequests : Z := 4096.
Definition maxFundingVisits : Z := 65536.
Definition MaximumQueueTimeout : Z := time_Hour.

(** ** Operations *)

Definition validateQueueLimits (scope : option nat) (limits : QueueLimits)
    (maxBody maxWork : Z) : result config_error unit :=
  guard_err ((ql_Count limits =? 0) || (ql_Bytes limits <? maxBody) || (ql_Work limits <? maxWork))
    (ErrQueueLimits scope).

Definition validateInflightLimits (scope : option nat) (limits : InflightLimits)
    (maxWork : Z) : result config_error unit :=
  guard_err ((il_Count limits =? 0) || (il_Work limits <? maxWork)) (ErrInflightLimits scope).

Definition divideRoundUp (value divisor : Z) : Z := 1 +u ((value -u 1) / divisor).

Definition checkedMultiply (left right : Z) : Z * bool :=
  let '(hi, low) := mul64 left right in (low, negb (hi =? 0)).

(** What the loop over the configured tenants carries: the tenants and the map
    of the configuration being built, and the largest and smallest quantum. *)
Record tenant_acc := MkTenantAcc {
  ta_tenants : list validatedTenant;
  ta_byID : gmap TenantID nat;
  ta_maximumQuantum : Z;
  ta_minimumQuantum : Z;
}.

Definition validateTenant (config : Config) (index : nat) (tenant : TenantConfig)
    (acc : tenant_acc) : result config_error tenant_acc :=
  _ ← guard_err (tc_ID tenant =? 0) (ErrTenantZeroID index);
  _ ← guard_err (bool_decide (is_Some (ta_byID acc !! tc_ID tenant))) (ErrTenantRepeatsID index);
  _ ← guard_err (tc_Weight tenant =? 0) (ErrTenantZeroWeight index);
  let '(hi, quantum) := mul64 (c_BaseQuantum config) (tc_Weight tenant) in
  _ ← guard_err (negb (hi =? 0) || (quantum =? 0)) (ErrTenantQuantum index);
  _ ← validateQueueLimits (Some index) (tc_Queue tenant)
        (c_MaxBodyBytes config) (c_MaxRequestUnits config);
  _ ← guard_err ((ql_Count (c_GlobalQueue config) <? ql_Count (tc_Queue tenant))
                 || (ql_Bytes (c_GlobalQueue config) <? ql_Bytes (tc_Queue tenant))
                 || (ql_Work (c_GlobalQueue config) <? ql_Work (tc_Queue tenant)))
        (ErrTenantQueueExceeds index);
  _ ← validateInflightLimits (Some index) (tc_Inflight tenant) (c_MaxRequestUnits config);
  _ ← guard_err ((il_Count (c_GlobalInflight config) <? il_Count (tc_Inflight tenant))
                 || (il_Work (c_GlobalInflight config) <? il_Work (tc_Inflight tenant)))
        (ErrTenantInflightExceeds index);
  mret {|
    ta_tenants := ta_tenants acc ++ [MkValidatedTenant (tc_ID tenant) quantum
                                       (tc_Queue tenant) (tc_Inflight tenant)];
    ta_byID := <[tc_ID tenant := index]> (ta_byID acc);
    ta_maximumQuantum := Z.max (ta_maximumQuantum acc) quantum;
    ta_minimumQuantum := Z.min (ta_minimumQuantum acc) quantum;
  |}.

(** [for index, tenant := range config.Tenants] *)
Fixpoint validateTenants (config : Config) (index : nat) (tenants : list TenantConfig)
    (acc : tenant_acc) : result config_error tenant_acc :=
  match tenants with
  | [] => Ok acc
  | tenant :: rest =>
      acc' ← validateTenant config index tenant acc;
      validateTenants config (S index) rest acc'
  end.

(** The checks after the loop: the deficit cap and the CPU bound. *)
Definition validateCredit (config : Config) (acc : tenant_acc) : result config_error unit :=
  let '(requiredCap, carry) := add64 (c_MaxRequestUnits config -u 1) (ta_maximumQuantum acc) in
  _ ← guard_err (negb (carry =? 0)) ErrDeficitBoundOverflow;
  _ ← guard_err (c_DeficitCap config <? requiredCap) ErrDeficitCap;
  let rounds := divideRoundUp (c_MaxRequestUnits config) (ta_minimumQuantum acc) in
  let '(visits, overflow) := checkedMultiply rounds (Z.of_nat (length (c_Tenants config))) in
  let '(visits, overflow) :=
    if overflow then (visits, overflow)
    else checkedMultiply visits (il_Count (c_GlobalInflight config)) in
  guard_err (overflow || (maxFundingVisits <? visits)) ErrFundingWork.

Definition validateConfig (config : Config) : result config_error validatedConfig :=
  _ ← guard_err (c_MaxBodyBytes config =? 0) ErrMaxBody;
  _ ← guard_err (c_MaxRequestUnits config =? 0) ErrMaxUnits;
  _ ← guard_err (c_BaseQuantum config =? 0) ErrBaseQuantum;
  _ ← guard_err ((Z.of_nat (length (c_Tenants config)) =? 0)
                 || (absoluteMaxTenants <? Z.of_nat (length (c_Tenants config)))) ErrTenantCount;
  _ ← validateQueueLimits None (c_GlobalQueue config)
        (c_MaxBodyBytes config) (c_MaxRequestUnits config);
  _ ← guard_err (absoluteMaxQueuedRequests <? ql_Count (c_GlobalQueue config)) ErrGlobalQueuedCount;
  _ ← validateInflightLimits None (c_GlobalInflight config) (c_MaxRequestUnits config);
  _ ← guard_err (absoluteMaxInflightRequests <? il_Count (c_GlobalInflight config))
        ErrGlobalInflightCount;
  acc ← validateTenants config 0 (c_Tenants config) (MkTenantAcc [] ∅ 0 max_uint64);
  _ ← validateCredit config acc;
  mret {|
    vc_maxBodyBytes := c_MaxBodyBytes config;
    vc_maxRequestUnits := c_MaxRequestUnits config;
    vc_deficitCap := c_DeficitCap config;
    vc_globalQueue := c_GlobalQueue config;
    vc_globalInflight := c_GlobalInflight config;
    vc_tenants := ta_tenants acc;
    vc_tenantByID := ta_byID acc;
  |}.

(** [ValidateConfig] keeps only whether validation failed, and how. *)
Definition ValidateConfig (config : Config) : result config_error unit :=
  _ ← validateConfig config; mret tt.

Definition validateAdmission (config : validatedConfig) (admission : Admission) : Decision :=
  if a_Tenant admission =? 0 then MkDecision DecisionInvalid ResourceNone
  else if (a_BodyBytes admission =? 0) || (vc_maxBodyBytes config <? a_BodyBytes admission)
  then MkDecision DecisionInvalid ResourceBytes
  else if (a_WorkUnits admission =? 0) || (vc_maxRequestUnits config <? a_WorkUnits admission)
  then MkDecision DecisionInvalid ResourceWork
  else if (a_QueueTimeout admission <=? 0) || (MaximumQueueTimeout <? a_QueueTimeout admission)
  then MkDecision DecisionInvalid ResourceNone
  else match vc_tenantByID config !! a_Tenant admission with
       | None => MkDecision DecisionInvalid ResourceNone
       | Some _ => MkDecision DecisionNone ResourceNone
       end.

(** ** Specification *)

(** Field values of the machine types of the source. *)
Definition typed_queue (l : QueueLimits) : Prop :=
  is_u64 (ql_Count l) /\ is_u64 (ql_Bytes l) /\ is_u64 (ql_Work l).
Definition typed_inflight (l : InflightLimits) : Prop :=
  is_u64 (il_Count l) /\ is_u64 (il_Work l).
Definition typed_tenant (t : TenantConfig) : Prop :=
  is_u32 (tc_ID t) /\ is_u64 (tc_Weight t) /\ typed_queue (tc_Queue t)
  /\ typed_inflight (tc_Inflight t).
Definition typed_config (c : Config) : Prop :=
  is_u64 (c_MaxBodyBytes c) /\ is_u64 (c_MaxRequestUnits c) /\ is_u64 (c_BaseQuantum c)
  /\ is_u64 (c_DeficitCap c) /\ typed_queue (c_GlobalQueue c)
  /\ typed_inflight (c_GlobalInflight c) /\ Forall typed_tenant (c_Tenants c).

Definition queue_holds (l : QueueLimits) (body work : Z) : Prop :=
  0 < ql_Count l /\ body <= ql_Bytes l /\ work <= ql_Work l.
Definition inflight_holds (l : InflightLimits) (work : Z) : Prop :=
  0 < il_Count l /\ work <= il_Work l.
Definition queue_le (l l' : QueueLimits) : Prop :=
  ql_Count l <= ql_Count l' /\ ql_Bytes l <= ql_Bytes l' /\ ql_Work l <= ql_Work l'.
Definition inflight_le (l l' : InflightLimits) : Prop :=
  il_Count l <= il_Count l' /\ il_Work l <= il_Work l'.

(** Rounded-up quotient, over unbounded integers. *)
Definition ceil_div (m q : Z) : Z := (m + q - 1) / q.

(** The credit a configured tenant receives per visit. *)
Definition quantum_of (c : Config) (t : TenantConfig) : Z := c_BaseQuantum c * tc_Weight t.

Definition valid_tenant (c : Config) (t : TenantConfig) : Prop :=
  tc_ID t <> 0 /\ 0 < tc_Weight t /\ quantum_of c t < two64
  /\ queue_holds (tc_Queue t) (c_MaxBodyBytes c) (c_MaxRequestUnits c)
  /\ queue_le (tc_Queue t) (c_GlobalQueue c)
  /\ inflight_holds (tc_Inflight t) (c_MaxRequestUnits c)
  /\ inflight_le (tc_Inflight t) (c_GlobalInflight c).

(** What a configuration must satisfy as a whole once each tenant is fine. *)
Definition valid_credit (c : Config) (t : TenantConfig) : Prop :=
  c_MaxRequestUnits c - 1 + quantum_of c t <= c_DeficitCap c
  /\ ceil_div (c_MaxRequestUnits c) (quantum_of c t)
     * Z.of_nat (length (c_Tenants c)) * il_Count (c_GlobalInflight c) <= maxFundingVisits.

Record valid_config (c : Config) : Prop := {
  vcf_body : 0 < c_MaxBodyBytes c;
  vcf_units : 0 < c_MaxRequestUnits c;
  vcf_quantum : 0 < c_BaseQuantum c;
  vcf_tenants : 0 < Z.of_nat (length (c_Tenants c)) <= absoluteMaxTenants;
  vcf_queue : queue_holds (c_GlobalQueue c) (c_MaxBodyBytes c) (c_MaxRequestUnits c);
  vcf_queued : ql_Count (c_GlobalQueue c) <= absoluteMaxQueuedRequests;
  vcf_inflight : inflight_holds (c_GlobalInflight c) (c_MaxRequestUnits c);
  vcf_active : il_Count (c_GlobalInflight c) <= absoluteMaxInflightRequests;
  vcf_ids : NoDup (map tc_ID (c_Tenants c));
  vcf_each : Forall (valid_tenant c) (c_Tenants c);
  vcf_credit : Forall (valid_credit c) (c_Tenants c);
}.

(** What the scheduler relies on in a validated configuration. *)
Record wf_config (v : validatedConfig) : Prop := {
  wf_body : 0 < vc_maxBodyBytes v < two64;
  wf_units : 0 < vc_maxRequestUnits v < two64;
  wf_cap : vc_deficitCap v < two64;
  wf_gqueue : typed_queue (vc_globalQueue v);
  wf_ginflight : typed_inflight (vc_globalInflight v);
  wf_tenants : (0 < length (vc_tenants v))%nat;
  wf_gqueue_holds : queue_holds (vc_globalQueue v) (vc_maxBodyBytes v) (vc_maxRequestUnits v);
  wf_ginflight_holds : inflight_holds (vc_globalInflight v) (vc_maxRequestUnits v);
  wf_byID : forall id i, vc_tenantByID v !! id = Some i <->
    exists t, vc_tenants v !! i = Some t /\ vt_id t = id;
  wf_each : forall i t, vc_tenants v !! i = Some t ->
    0 < vt_quantum t /\ vc_maxRequestUnits v - 1 + vt_quantum t <= vc_deficitCap v
    /\ queue_holds (vt_queue t) (vc_maxBodyBytes v) (vc_maxRequestUnits v)
    /\ queue_le (vt_queue t) (vc_globalQueue v)
    /\ inflight_holds (vt_inflight t) (vc_maxRequestUnits v)
    /\ inflight_le (vt_inflight t) (vc_globalInflight v)
    /\ ceil_div (vc_maxRequestUnits v) (vt_quantum t)
       * Z.of_nat (length (vc_tenants v)) * il_Count (vc_globalInflight v) <= maxFundingVisits;
}.

(** ** The loop over the tenants *)

(** The tenant record that validation builds, and one accumulation step. *)
Definition validated_tenant (c : Config) (t : TenantConfig) : validatedTenant :=
  MkValidatedTenant (tc_ID t) (quantum_of c t) (tc_Queue t) (tc_Inflight t).

Definition acc_step (c : Config) (acc : tenant_acc) (t : TenantConfig) : tenant_acc := {|
  ta_tenants := ta_tenants acc ++ [validated_tenant c t];
  ta_byID := <[tc_ID t := length (ta_tenants acc)]> (ta_byID acc);
  ta_maximumQuantum := Z.max (ta_maximumQuantum acc) (quantum_of c t);
  ta_minimumQuantum := Z.min (ta_minimumQuantum acc) (quantum_of c t);
|}.

Definition acc_of (c : Config) (done : list TenantConfig) : tenant_acc :=
  foldl (acc_step c) (MkTenantAcc [] ∅ 0 max_uint64) done.

Lemma acc_of_snoc c done t : acc_of c (done ++ [t]) = acc_step c (acc_of c done) t.
Proof. unfold acc_of. by rewrite foldl_app. Qed.

Lemma acc_of_tenants c done : ta_tenants (acc_of c done) = map (validated_tenant c) done.
Proof.
  induction done as [|t done IH] using rev_ind; [done|].
  rewrite acc_of_snoc, map_app. cbn. by rewrite IH.
Qed.

Lemma acc_of_length c done : length (ta_tenants (acc_of c done)) = length done.
Proof. by rewrite acc_of_tenants, length_map. Qed.

Lemma acc_of_byID c done id i :
  NoDup (map tc_ID done) ->
  ta_byID (acc_of c done) !! id = Some i <-> exists t, done !! i = Some t /\ tc_ID t = id.
Proof.
  revert i. induction done as [|t done IH] using rev_ind; intros i Hnd.
  - cbn. rewrite lookup_empty. split; [done|]. intros (? & ? & _). done.
  - rewrite map_app, list.NoDup_app in Hnd. destruct Hnd as (Hnd & Hfresh & _).
    rewrite acc_of_snoc. cbn. rewrite acc_of_length, lookup_insert.
    case_decide as Heq.
    + split.
      * intros [= <-]. exists t. split; [|done]. by rewrite list_lookup_middle.
      * intros (t' & Hl & Hid).
        destruct (decide (i < length done)%nat) as [Hlt|Hge].
        { rewrite lookup_app_l in Hl by done. exfalso.
          apply (Hfresh id); [|cbn; rewrite Heq; left].
          apply list_elem_of_fmap. exists t'. split; [done|]. by eapply list_elem_of_lookup_2. }
        { apply lookup_lt_Some in Hl. rewrite length_app in Hl. cbn in Hl. f_equal. lia. }
    + rewrite (IH i Hnd). split; intros (t' & Hl & Hid); exists t'; split; try done.
      * apply lookup_app_Some. auto.
      * apply lookup_app_Some in Hl as [Hl|[Hle Hl]]; [done|].
        destruct (i - length done)%nat as [|n]; cbn in Hl; [|done].
        by injection Hl as ->.
Qed.

Lemma acc_of_byID_None c done id :
  NoDup (map tc_ID done) ->
  ta_byID (acc_of c done) !! id = None <-> id ∉ map tc_ID done.
Proof.
  intros Hnd. rewrite <- not_elem_of_dom. split; intros H Hin; apply H; clear H.
  - apply list_elem_of_fmap in Hin as (t & -> & Hin). apply list_elem_of_lookup in Hin as [i Hi].
    apply elem_of_dom. exists i. apply acc_of_byID; eauto.
  - apply elem_of_dom in Hin as [i Hi]. apply acc_of_byID in Hi as (t & Hi & <-); [|done].
    apply list_elem_of_fmap. exists t. split; [done|]. by eapply list_elem_of_lookup_2.
Qed.

Lemma acc_of_quanta c done t :
  t ∈ done ->
  ta_minimumQuantum (acc_of c done) <= quantum_of c t <= ta_maximumQuantum (acc_of c done).
Proof.
  induction done as [|t' done IH] using rev_ind; intros Hin; [by apply elem_of_nil in Hin|].
  rewrite acc_of_snoc; cbn. apply elem_of_app in Hin as [Hin|Hin]; [specialize (IH Hin); lia|].
  apply list_elem_of_singleton in Hin as ->. lia.
Qed.

Lemma acc_of_quanta_attained c done :
  done <> [] -> Forall (fun t => 0 < quantum_of c t < two64) done ->
  (exists t, t ∈ done /\ ta_minimumQuantum (acc_of c done) = quantum_of c t)
  /\ (exists t, t ∈ done /\ ta_maximumQuantum (acc_of c done) = quantum_of c t).
Proof.
  induction done as [|t' done IH] using rev_ind; intros Hne Hall; [done|].
  apply Forall_app in Hall as [Hall Ht']. rewrite Forall_singleton in Ht'.
  destruct (decide (done = [])) as [->|Hdone].
  - unfold acc_of, max_uint64, two64 in *.
    cbn [foldl acc_step ta_minimumQuantum ta_maximumQuantum app].
    split; exists t'; (split; [left|lia]).
  - destruct (IH Hdone Hall) as [(t1 & Hin1 & H1) (t2 & Hin2 & H2)].
    rewrite acc_of_snoc; cbn. rewrite H1, H2. split.
    + destruct (Z.min_spec (quantum_of c t1) (quantum_of c t')) as [[_ ->]|[_ ->]];
        eexists; (split; [apply elem_of_app|reflexivity]); [by left|right; left].
    + destruct (Z.max_spec (quantum_of c t2) (quantum_of c t')) as [[_ ->]|[_ ->]];
        eexists; (split; [apply elem_of_app|reflexivity]); [right; left|by left].
Qed.

Lemma queue_guard scope l body work e :
  is_u64 (ql_Count l) ->
  validateQueueLimits scope l body work = Ok e <-> queue_holds l body work.
Proof.
  intros Hc. unfold validateQueueLimits, guard_err, queue_holds, is_u64 in *. destruct e.
  case_match eqn:E; [split; [done|lia]|split; [lia|done]].
Qed.

Lemma inflight_guard scope l work e :
  is_u64 (il_Count l) ->
  validateInflightLimits scope l work = Ok e <-> inflight_holds l work.
Proof.
  intros Hc. unfold validateInflightLimits, guard_err, inflight_holds, is_u64 in *. destruct e.
  case_match eqn:E; [split; [done|lia]|split; [lia|done]].
Qed.

Lemma mul64_quantum x y :
  is_u64 x -> is_u64 y ->
  (negb (fst (mul64 x y) =? 0) || (snd (mul64 x y) =? 0)) = false <->
  0 < x * y < two64.
Proof.
  unfold is_u64. intros Hx Hy. destruct (mul64_spec x y) as [H1 H2]; [lia..|].
  split.
  - intros H. breflect. destruct H1 as [H1 H1']; [done|]. nia.
  - intros [Hlo Hhi]. rewrite mul64_exact by lia. cbn. apply Z.eqb_neq. lia.
Qed.

Section validate_tenant.
Context (c : Config) (done : list TenantConfig) (t : TenantConfig).
Hypothesis Hbase : is_u64 (c_BaseQuantum c).
Hypothesis Htyped : typed_tenant t.
Hypothesis Hnd : NoDup (map tc_ID done).
Hypothesis Hpos : 0 < c_BaseQuantum c.

Lemma validateTenant_Ok acc' :
  validateTenant c (length done) t (acc_of c done) = Ok acc' <->
  valid_tenant c t /\ (tc_ID t ∉ map tc_ID done) /\ acc' = acc_of c (done ++ [t]).
Proof.
  destruct Htyped as (Hid & Hw & (Hq & _ & _) & (Hi & _)).
  unfold validateTenant. rewrite !guard_err_Ok.
  pose proof (mul64_quantum _ _ Hbase Hw) as Hmul.
  destruct (mul64 (c_BaseQuantum c) (tc_Weight t)) as [hi quantum] eqn:Hm; cbn [fst snd] in Hmul.
  rewrite !guard_err_Ok, result_bind_Ok.
  rewrite Hmul. unfold valid_tenant, quantum_of.
  rewrite bool_decide_eq_false, <- eq_None_not_Some, acc_of_byID_None by done.
  rewrite Z.eqb_neq, Z.eqb_neq.
  assert (Hquantum : 0 < c_BaseQuantum c * tc_Weight t < two64 ->
                     quantum = c_BaseQuantum c * tc_Weight t).
  { intros Hb. unfold is_u64 in Hw. rewrite mul64_exact in Hm by (unfold is_u64 in *; lia).
    congruence. }
  unfold is_u64 in Hw. split.
  - intros (Hid' & Hfresh & Hw' & Hb & u & Hqh & Hrest).
    apply queue_guard in Hqh; [|done].
    apply guard_err_Ok in Hrest as [Hle Hrest].
    apply result_bind_Ok in Hrest as (u' & Hih & Hrest). apply inflight_guard in Hih; [|done].
    apply guard_err_Ok in Hrest as [Hile [= <-]]. breflect.
    rewrite (Hquantum Hb) in *.
    split; [|split; [done|]].
    + split_and!; try done; try lia; unfold queue_le, inflight_le; lia.
    + by rewrite acc_of_snoc; unfold acc_step, quantum_of, validated_tenant; rewrite acc_of_length.
  - intros ((Hid' & Hw' & Hb & Hqh & Hqle & Hih & Hile) & Hfresh & ->).
    assert (Hb' : 0 < c_BaseQuantum c * tc_Weight t < two64) by nia.
    split_and!; try done; try lia. exists tt. split; [by apply queue_guard|].
    apply guard_err_Ok. unfold queue_le, inflight_le in *. split.
    { rewrite !orb_false_iff, !Z.ltb_ge. lia. }
    apply result_bind_Ok. exists tt. split; [by apply inflight_guard|].
    apply guard_err_Ok. split; [rewrite !orb_false_iff, !Z.ltb_ge; lia|].
    rewrite acc_of_snoc. unfold acc_step, validated_tenant. cbn.
    by rewrite (Hquantum Hb'), acc_of_length.
Qed.
End validate_tenant.

Lemma validateTenants_Ok c done rest acc' :
  is_u64 (c_BaseQuantum c) -> 0 < c_BaseQuantum c -> Forall typed_tenant rest ->
  NoDup (map tc_ID done) ->
  validateTenants c (length done) rest (acc_of c done) = Ok acc' <->
  Forall (valid_tenant c) rest /\ NoDup (map tc_ID (done ++ rest)) /\ acc' = acc_of c (done ++ rest).
Proof.
  intros Hb Hpos Hty. revert done. induction rest as [|t rest IH]; intros done Hnd; cbn.
  - rewrite app_nil_r. split; [intros [= <-]; done|]. by intros (_ & _ & ->).
  - inversion Hty as [|? ? Ht Hrest]; subst. rewrite result_bind_Ok.
    assert (Hlen : S (length done) = length (done ++ [t])) by (rewrite length_app; cbn; lia).
    assert (Hsnoc : done ++ t :: rest = (done ++ [t]) ++ rest) by by rewrite <- app_assoc.
    rewrite Hsnoc.
    rewrite Forall_cons. split.
    + intros (acc1 & H1 & H2). apply validateTenant_Ok in H1 as (Hv & Hfresh & ->); try done.
      rewrite Hlen in H2. apply IH in H2 as (Hall & Hnd' & ->); [done|done|].
      rewrite map_app. apply list.NoDup_app. split_and!; [done| |apply NoDup_singleton].
      cbn. intros x Hx ->%list_elem_of_singleton. done.
    + intros ((Hv & Hall) & Hnd' & ->). rewrite map_app in Hnd'.
      apply list.NoDup_app in Hnd' as (Hnd1 & Hdisj & Hnd2).
      exists (acc_of c (done ++ [t])). split.
      * apply validateTenant_Ok; try done. split_and!; try done.
        intros Hin. rewrite map_app in Hnd1. apply list.NoDup_app in Hnd1 as (_ & Hd & _).
        by apply (Hd (tc_ID t)); [|left].
      * rewrite Hlen. apply IH; try done. split_and!; try done.
        rewrite map_app. by apply list.NoDup_app.
Qed.

(** ** Bounds on the funding work *)

Lemma divideRoundUp_spec m q :
  0 < m < two64 -> 0 < q -> divideRoundUp m q = ceil_div m q.
Proof.
  intros Hm Hq. unfold divideRoundUp, ceil_div.
  rewrite (u64_small (m - 1)) by (unfold is_u64; lia).
  replace (m + q - 1) with (m - 1 + 1 * q) by lia. rewrite Z.div_add by lia.
  assert (0 <= (m - 1) / q <= m - 1).
  { split; [apply Z.div_pos; lia|]. apply Z.div_le_upper_bound; nia. }
  rewrite u64_small; unfold is_u64; lia.
Qed.

Lemma ceil_div_bounds m q : 0 < m -> 0 < q -> 1 <= ceil_div m q <= m.
Proof.
  intros Hm Hq. unfold ceil_div. split.
  - apply Z.div_le_lower_bound; lia.
  - apply Z.div_le_upper_bound; nia.
Qed.

Lemma ceil_div_le m q : 0 < m -> 0 < q -> m <= ceil_div m q * q < m + q.
Proof.
  intros Hm Hq. unfold ceil_div.
  pose proof (Z.div_mod (m + q - 1) q ltac:(lia)).
  pose proof (Z.mod_pos_bound (m + q - 1) q Hq). lia.
Qed.

Lemma ceil_div_antitone m q q' : 0 < m -> 0 < q <= q' -> ceil_div m q' <= ceil_div m q.
Proof.
  intros Hm Hq. pose proof (ceil_div_le m q). pose proof (ceil_div_le m q').
  pose proof (ceil_div_bounds m q'). pose proof (ceil_div_bounds m q).
  destruct (decide (ceil_div m q' <= ceil_div m q)); [done|]. nia.
Qed.

(** The two checked multiplications decide the bound on the exact product. *)
Lemma funding_check r n g :
  0 < r < two64 -> 0 < n < two64 -> 0 < g < two64 ->
  (let '(visits, overflow) := checkedMultiply r n in
   let '(visits, overflow) :=
     if (overflow : bool) then (visits, overflow) else checkedMultiply visits g in
   (overflow || (maxFundingVisits <? visits)) = false) <-> r * n * g <= maxFundingVisits.
Proof.
  intros Hr Hn Hg. unfold checkedMultiply.
  destruct (decide (r * n < two64)) as [H1|H1].
  - rewrite (mul64_exact r n) by lia. cbn [Z.eqb negb].
    destruct (decide (r * n * g < two64)) as [H2|H2].
    + rewrite (mul64_exact (r * n) g) by nia. cbn. rewrite Z.ltb_ge. done.
    + destruct (mul64_spec (r * n) g) as [H3 _]; [nia..|].
      destruct (mul64 (r * n) g) as [hi low]; cbn [fst snd] in *.
      destruct (Z.eqb_spec hi 0) as [->|]; [lia|]. cbn.
      unfold maxFundingVisits, two64 in *. split; [done|lia].
  - destruct (mul64_spec r n) as [H3 _]; [lia..|].
    destruct (mul64 r n) as [hi low]; cbn [fst snd] in *.
    destruct (Z.eqb_spec hi 0) as [->|]; [lia|]. cbn.
    unfold maxFundingVisits, two64 in *. split; [done|nia].
Qed.

(** The deficit bound: the checked addition decides the exact inequality. *)
Lemma cap_check m q cap :
  0 < m < two64 -> 0 <= q < two64 -> cap < two64 ->
  (let '(requiredCap, carry) := add64 (m -u 1) q in
   negb (carry =? 0) = false /\ (cap <? requiredCap) = false) <-> m - 1 + q <= cap.
Proof.
  intros Hm Hq Hcap. rewrite (u64_small (m - 1)) by (unfold is_u64; lia).
  destruct (add64_spec (m - 1) q) as [H1 H2]; [lia..|].
  destruct (add64 (m - 1) q) as [sum carry]; cbn [fst snd] in *.
  destruct (Z.eqb_spec carry 0) as [->|]; cbn.
  - destruct (H1 eq_refl) as [_ ->]. rewrite Z.ltb_ge. tauto.
  - specialize (H2 n). split; [by intros [? _]|lia].
Qed.

Section validate_config.
Context (c : Config).
Hypothesis Hty : typed_config c.

(** The configuration that a successful validation returns. *)
Definition validated_of : validatedConfig := {|
  vc_maxBodyBytes := c_MaxBodyBytes c;
  vc_maxRequestUnits := c_MaxRequestUnits c;
  vc_deficitCap := c_DeficitCap c;
  vc_globalQueue := c_GlobalQueue c;
  vc_globalInflight := c_GlobalInflight c;
  vc_tenants := map (validated_tenant c) (c_Tenants c);
  vc_tenantByID := ta_byID (acc_of c (c_Tenants c));
|}.

(** The bounds on the largest and smallest quantum are those on each one. *)
Lemma credit_bounds :
  0 < c_MaxRequestUnits c -> 0 < c_BaseQuantum c -> c_Tenants c <> [] ->
  Forall (valid_tenant c) (c_Tenants c) ->
  let acc := acc_of c (c_Tenants c) in
  Forall (valid_credit c) (c_Tenants c) <->
  c_MaxRequestUnits c - 1 + ta_maximumQuantum acc <= c_DeficitCap c /\
  ceil_div (c_MaxRequestUnits c) (ta_minimumQuantum acc)
    * Z.of_nat (length (c_Tenants c)) * il_Count (c_GlobalInflight c) <= maxFundingVisits.
Proof.
  intros Hm Hb Hne Hall acc.
  assert (Hq : Forall (fun t => 0 < quantum_of c t < two64) (c_Tenants c)).
  { eapply Forall_impl; [exact Hall|]. intros t (_ & Hw & Hq & _).
    unfold quantum_of in *. nia. }
  destruct (acc_of_quanta_attained c _ Hne Hq) as [(t1 & Hin1 & H1) (t2 & Hin2 & H2)].
  assert (Hg : 0 <= il_Count (c_GlobalInflight c)) by (destruct Hty as (_&_&_&_&_&[[? _] _]&_); done).
  rewrite Forall_forall. unfold valid_credit. split.
  - intros H. split.
    + subst acc. rewrite H2. apply (H t2 Hin2).
    + subst acc. rewrite H1. apply (H t1 Hin1).
  - intros [Hcap Hvis] t Hin. pose proof (acc_of_quanta c _ t Hin) as Hbd.
    rewrite Forall_forall in Hq. pose proof (Hq _ Hin). pose proof (Hq _ Hin1).
    fold acc in Hbd, H1. split; [lia|].
    pose proof (ceil_div_antitone (c_MaxRequestUnits c) (ta_minimumQuantum acc) (quantum_of c t)).
    pose proof (ceil_div_bounds (c_MaxRequestUnits c) (quantum_of c t)). nia.
Qed.

Lemma validateCredit_Ok u :
  0 < c_MaxRequestUnits c -> 0 < c_BaseQuantum c ->
  0 < Z.of_nat (length (c_Tenants c)) <= absoluteMaxTenants ->
  0 < il_Count (c_GlobalInflight c) -> Forall (valid_tenant c) (c_Tenants c) ->
  validateCredit c (acc_of c (c_Tenants c)) = Ok u <-> Forall (valid_credit c) (c_Tenants c).
Proof.
  intros Hm Hbq Hn Hg Hall. destruct u.
  destruct Hty as (_ & [_ Hm'] & _ & [_ Hcap] & _ & [[_ Hg'] _] & _).
  assert (Hne : c_Tenants c <> []) by (intros E; rewrite E in Hn; cbn in Hn; lia).
  rewrite credit_bounds by done.
  destruct (acc_of_quanta_attained c (c_Tenants c) Hne) as [(t1 & Hin1 & H1) (t2 & Hin2 & H2)].
  { eapply Forall_impl; [exact Hall|]. intros t (_ & Hw & Hq & _). unfold quantum_of in *. nia. }
  rewrite Forall_forall in Hall.
  destruct (Hall _ Hin1) as (_ & Hw1 & Hq1 & _). destruct (Hall _ Hin2) as (_ & Hw2 & Hq2 & _).
  assert (0 < quantum_of c t1) by (unfold quantum_of; nia).
  assert (0 < quantum_of c t2) by (unfold quantum_of; nia).
  unfold validateCredit. rewrite H1, H2.
  pose proof (ceil_div_bounds (c_MaxRequestUnits c) (quantum_of c t1)).
  rewrite divideRoundUp_spec by lia.
  rewrite <- (cap_check (c_MaxRequestUnits c) (quantum_of c t2) (c_DeficitCap c)) by lia.
  rewrite <- (funding_check (ceil_div (c_MaxRequestUnits c) (quantum_of c t1))
    (Z.of_nat (length (c_Tenants c))) (il_Count (c_GlobalInflight c)))
    by (unfold absoluteMaxTenants, two64 in *; lia).
  destruct (add64 _ _) as [sum carry]. rewrite !guard_err_Ok.
  destruct (checkedMultiply (ceil_div _ _) _) as [v1 o1].
  destruct (if o1 then _ else _) as [v2 o2]. unfold guard_err.
  destruct (o2 || _), (negb (carry =? 0)), (c_DeficitCap c <? sum); cbn; intuition congruence.
Qed.

Lemma validateConfig_Ok v :
  validateConfig c = Ok v <-> valid_config c /\ v = validated_of.
Proof.
  pose proof Hty as (Hb & Hm & Hbq & _ & [Hgq _] & [Hgi _] & Hts). unfold is_u64 in *.
  unfold validateConfig. rewrite !guard_err_Ok, result_bind_Ok.
  split.
  - intros (H1 & H2 & H3 & H4 & u & H5%queue_guard & H6); [|done].
    apply guard_err_Ok in H6 as [H6 H7]. apply result_bind_Ok in H7 as (u' & H7 & H8).
    apply inflight_guard in H7; [|done]. apply guard_err_Ok in H8 as [H8 H9].
    apply result_bind_Ok in H9 as (acc & H9 & H10).
    apply (validateTenants_Ok c []) in H9 as (Hall & Hnd & ->); [|done|lia|done|constructor].
    apply result_bind_Ok in H10 as ([] & H10 & [= <-]). cbn [app] in *.
    apply validateCredit_Ok in H10; [|lia|lia|lia|apply H7|done].
    split; [|unfold validated_of; by rewrite acc_of_tenants]. constructor; try done; lia.
  - intros [[H1 H2 H3 H4 H5 H6 H7 H8 H9 H10 H11] ->]. repeat (split; [lia|]).
    exists tt. split; [by apply queue_guard|]. apply guard_err_Ok. split; [lia|].
    apply result_bind_Ok. exists tt. split; [by apply inflight_guard|].
    apply guard_err_Ok. split; [lia|]. apply result_bind_Ok.
    exists (acc_of c (c_Tenants c)). split.
    { apply (validateTenants_Ok c []); try done; constructor. }
    apply result_bind_Ok. exists tt.
    split; [apply validateCredit_Ok; try done; apply H7|].
    unfold validated_of. by rewrite acc_of_tenants.
Qed.
End validate_config.

Lemma validated_of_tenants c i vt :
  vc_tenants (validated_of c) !! i = Some vt <->
  exists t, c_Tenants c !! i = Some t /\ vt = validated_tenant c t.
Proof.
  cbn. rewrite list_lookup_fmap, fmap_Some. done.
Qed.

(** A validated configuration satisfies what the scheduler relies on. *)
Lemma validateConfig_wf c v : typed_config c -> validateConfig c = Ok v -> wf_config v.
Proof.
  intros Hty Hv. apply validateConfig_Ok in Hv as [Hvalid ->]; [|done].
  destruct Hty as (Hb & Hm & Hbq & Hcap & Hgq & Hgi & Hts), Hvalid. unfold is_u64 in *.
  constructor; try done; cbn; try lia.
  - by rewrite length_map; lia.
  - intros id i. rewrite acc_of_byID by done. split.
    + intros (t & Hl & <-). exists (validated_tenant c t). split; [|done].
      by rewrite list_lookup_fmap, Hl.
    + intros (vt & Hl & <-). apply (validated_of_tenants c) in Hl as (t & Hl & ->). eauto.
  - intros i vt Hl. apply (validated_of_tenants c) in Hl as (t & Hl & ->). cbn.
    apply list_elem_of_lookup_2 in Hl. rewrite Forall_forall in vcf_each0, vcf_credit0.
    destruct (vcf_each0 _ Hl) as (_ & Hw & Hq & Hqh & Hqle & Hih & Hile).
    destruct (vcf_credit0 _ Hl) as [Hc1 Hc2]. rewrite length_map. unfold quantum_of in *.
    split_and!; try done; nia.
Qed.
