(* ===== verification/GoHeap.v ===== *)
(** * container/heap over an interface

    The scheduler keeps its expiry queue in Go's [container/heap].  This file
    writes that package's [up], [down], [Push] and [Remove] over the interface
    it calls ([HeapInterface], the methods of [heap.Interface]) and proves,
    against the laws an implementation promises ([HeapLaws]), that they keep
    the heap order and permute the elements. *)

From S2P Require Import Prelude.

(** ** The interface and the algorithms *)

Class HeapInterface (S X : Type) := {
  h_Len : M S nat;
  h_Less : nat -> nat -> M S bool;
  h_Swap : nat -> nat -> M S unit;
  h_Push : X -> M S unit;
  h_Pop : M S X;
}.

Section algorithms.
Context {S X : Type} `{!HeapInterface S X}.

(** [up(h, j)]: Go's [(j - 1) / 2] truncates, so the root is its own parent. *)
Fixpoint heap_up (fuel : nat) (j : nat) : M S unit :=
  match fuel with
  | O => no_fuel
  | Datatypes.S fuel =>
      let i := ((j - 1) / 2)%nat in
      if (i =? j)%nat then mret tt
      else
        less ← h_Less j i;
        if less : bool then h_Swap i j;; heap_up fuel i else mret tt
  end.

(** [down(h, i0, n)]; the result is whether the element moved. *)
Fixpoint heap_down (fuel : nat) (i0 i n : nat) : M S bool :=
  match fuel with
  | O => no_fuel
  | Datatypes.S fuel =>
      let j1 := (2 * i + 1)%nat in
      if (n <=? j1)%nat then mret (i0 <? i)%nat
      else
        let j2 := (j1 + 1)%nat in
        right ← (if (j2 <? n)%nat then h_Less j2 j1 else mret false);
        let j := if right : bool then j2 else j1 in
        less ← h_Less j i;
        if less : bool then h_Swap i j;; heap_down fuel i0 j n else mret (i0 <? i)%nat
  end.

Definition heap_Push (x : X) : M S unit :=
  h_Push x;;
  n ← h_Len;
  heap_up n (n - 1).

Definition heap_Remove (i : nat) : M S X :=
  len ← h_Len;
  let n := (len - 1)%nat in
  (if (n =? i)%nat then mret tt
   else
     h_Swap i n;;
     moved ← heap_down len i i n;
     if moved : bool then mret tt else heap_up len i);;
  h_Pop.
End algorithms.

(** ** Exchange of two list elements *)

Definition list_swap {A} (i j : nat) (l : list A) : list A :=
  match l !! i, l !! j with
  | Some a, Some b => <[i := b]> (<[j := a]> l)
  | _, _ => l
  end.

(** The position that ends up at [k]. *)
Definition transpose (i j k : nat) : nat :=
  if decide (k = i) then j else if decide (k = j) then i else k.

Section list_swap.
Context {A : Type}.
Implicit Types l : list A.

Lemma list_swap_length i j l : length (list_swap i j l) = length l.
Proof. unfold list_swap. repeat case_match; rewrite ?length_insert; done. Qed.

Lemma list_swap_lookup i j k l :
  (i < length l)%nat -> (j < length l)%nat ->
  list_swap i j l !! k = l !! transpose i j k.
Proof.
  intros Hi Hj. unfold list_swap, transpose.
  destruct (lookup_lt_is_Some_2 l i Hi) as [a Ha].
  destruct (lookup_lt_is_Some_2 l j Hj) as [b Hb]. rewrite Ha, Hb.
  rewrite list_lookup_insert, length_insert. repeat case_decide; subst; try (congruence || lia).
  - rewrite list_lookup_insert_eq; [done|lia].
  - by rewrite list_lookup_insert_ne by done.
Qed.

Lemma transpose_inj i j : Inj (=) (=) (transpose i j).
Proof. intros x y. unfold transpose. repeat case_decide; congruence. Qed.

Lemma list_swap_Permutation i j l : list_swap i j l ≡ₚ l.
Proof.
  destruct (decide (i < length l /\ j < length l)%nat) as [[Hi Hj]|Hn].
  - apply Permutation_inj. split; [apply list_swap_length|].
    exists (transpose i j). split; [apply transpose_inj|]. intros k. by apply list_swap_lookup.
  - unfold list_swap. destruct (l !! i) eqn:Hi, (l !! j) eqn:Hj; try done.
    apply lookup_lt_Some in Hi, Hj. tauto.
Qed.
End list_swap.

(** ** Heap order on lists *)

Section heap_order.
Context {K : Type} (lt : K -> K -> bool).

(** [lt] is a strict weak order. *)
Class StrictWeakOrder : Prop := {
  swo_irrefl : forall a, lt a a = false;
  swo_trans : forall a b c, lt a b = true -> lt b c = true -> lt a c = true;
  swo_total : forall a b c, lt a b = false -> lt b c = false -> lt a c = false;
}.

Context `{Hswo : !StrictWeakOrder}.

Definition kle (a b : K) : Prop := lt b a = false.

Lemma kle_refl a : kle a a.
Proof. apply swo_irrefl. Qed.

Lemma kle_trans a b c : kle a b -> kle b c -> kle a c.
Proof. unfold kle. intros H1 H2. by apply swo_total with b. Qed.

Lemma lt_kle a b : lt a b = true -> kle a b.
Proof.
  unfold kle. intros H. destruct (lt b a) eqn:E; [|done].
  pose proof (swo_trans _ _ _ H E) as Hc. by rewrite swo_irrefl in Hc.
Qed.

Definition parent (k : nat) : nat := ((k - 1) / 2)%nat.

Lemma parent_lt k : (0 < k)%nat -> (parent k < k)%nat.
Proof. intros. apply Nat.Div0.div_lt_upper_bound. lia. Qed.

Lemma parent_iff p k : (0 < k)%nat -> parent k = p <-> (k = 2 * p + 1 \/ k = 2 * p + 2)%nat.
Proof.
  intros Hk. unfold parent. pose proof (Nat.div_mod_eq (k - 1) 2).
  pose proof (Nat.mod_upper_bound (k - 1) 2). split; [|intros [-> | ->]].
  - lia.
  - replace (2 * p + 1 - 1)%nat with (p * 2)%nat by lia. by rewrite Nat.div_mul.
  - replace (2 * p + 2 - 1)%nat with (1 + p * 2)%nat by lia. rewrite Nat.div_add by lia. done.
Qed.

(** Position [k] is not below its parent. *)
Definition heap_at (l : list K) (k : nat) : Prop :=
  forall p x, (0 < k)%nat -> l !! parent k = Some p -> l !! k = Some x -> kle p x.

Definition heap_ordered (l : list K) : Prop := forall k, heap_at l k.

(** The children of [i] are not below the parent of [i]. *)
Definition bridge (l : list K) (n i : nat) : Prop :=
  forall c p x, (0 < c < n)%nat -> parent c = i -> (0 < i)%nat ->
    l !! parent i = Some p -> l !! c = Some x -> kle p x.

Lemma heap_root_min l k r x :
  heap_ordered l -> l !! 0%nat = Some r -> l !! k = Some x -> kle r x.
Proof.
  intros Hl Hr. revert x. induction k as [k IH] using lt_wf_ind. intros x Hx.
  destruct (decide (k = 0)%nat) as [->|Hk]; [simplify_eq; apply kle_refl|].
  pose proof (parent_lt k ltac:(lia)) as Hp.
  destruct (lookup_lt_is_Some_2 l (parent k)) as [p Hlp].
  { apply lookup_lt_Some in Hx. lia. }
  apply kle_trans with p; [by apply (IH (parent k))|]. apply (Hl k); [lia|done..].
Qed.

Lemma heap_ordered_init l x : heap_ordered (l ++ [x]) -> heap_ordered l.
Proof.
  intros H k p y Hk Hp Hy. apply (H k); [done|by apply lookup_app_l_Some..].
Qed.

(** Sifting up in the prefix of length [n]: only [j] may be below its parent. *)
Definition up_inv (l : list K) (n j : nat) : Prop :=
  (forall k, (k < n)%nat -> k <> j -> heap_at l k) /\ bridge l n j.

Lemma heap_prefix l : (forall k, (k < length l)%nat -> heap_at l k) -> heap_ordered l.
Proof. intros H k p x Hk Hp Hx. apply (H k); try done. by eapply lookup_lt_Some. Qed.

Lemma up_inv_push l x : heap_ordered l -> up_inv (l ++ [x]) (length l + 1) (length l).
Proof.
  intros Hl. split.
  - intros k Hkn Hk p y Hpos Hp Hy. pose proof (parent_lt k Hpos).
    rewrite lookup_app_l in Hp, Hy by lia. by apply (Hl k).
  - intros c p y Hc Hpar _ _ _. pose proof (parent_lt c). lia.
Qed.

Lemma up_inv_done l n j x p :
  up_inv l n j -> l !! j = Some x -> l !! parent j = Some p ->
  (j = 0%nat \/ lt x p = false) -> forall k, (k < n)%nat -> heap_at l k.
Proof.
  intros [Hup _] Hx Hp Hor k Hkn. destruct (decide (k = j)) as [->|Hk]; [|by apply Hup].
  intros p' x' Hpos Hp' Hx'. simplify_eq. destruct Hor; [lia|done].
Qed.

Lemma up_inv_swap l n j x p :
  up_inv l n j -> (0 < j < n)%nat -> l !! j = Some x -> l !! parent j = Some p ->
  lt x p = true -> up_inv (list_swap (parent j) j l) n (parent j).
Proof.
  intros [Hup Hbr] [Hj Hjn] Hx Hp Hlt.
  pose proof (parent_lt j Hj) as Hpj. pose proof (lookup_lt_Some _ _ _ Hx) as Hlen.
  assert (Hsw : forall k, list_swap (parent j) j l !! k = l !! transpose (parent j) j k)
    by (intros; apply list_swap_lookup; lia).
  assert (Htj : transpose (parent j) j j = parent j)
    by (unfold transpose; rewrite decide_False, decide_True by lia; done).
  assert (Htp : transpose (parent j) j (parent j) = j)
    by (unfold transpose; rewrite decide_True by done; done).
  assert (Hto : forall k, k <> j -> k <> parent j -> transpose (parent j) j k = k)
    by (intros; unfold transpose; rewrite !decide_False by done; done).
  split.
  - intros k Hkn Hk a b Hpos Ha Hb. rewrite Hsw in Ha, Hb.
    destruct (decide (k = j)) as [->|Hkj].
    { rewrite Htp in Ha. rewrite Htj in Hb. simplify_eq. by apply lt_kle. }
    rewrite (Hto k) in Hb by done.
    destruct (decide (parent k = parent j)) as [Heq|Hpk].
    { rewrite Heq, Htp in Ha. simplify_eq. apply kle_trans with p; [by apply lt_kle|].
      apply (Hup k); [done|done|done|by rewrite Heq|done]. }
    destruct (decide (parent k = j)) as [Heq|Hpk'].
    { rewrite Heq, Htj in Ha. simplify_eq. by apply (Hbr k). }
    rewrite Hto in Ha by done. by apply (Hup k).
  - intros c a b Hc Hpar Hpos Ha Hb. rewrite Hsw in Ha, Hb.
    pose proof (parent_lt (parent j) Hpos).
    rewrite Hto in Ha by lia.
    assert (Hap : kle a p) by (apply (Hup (parent j)); [lia|lia|done..]).
    destruct (decide (c = j)) as [->|Hcj].
    { rewrite Htj in Hb. by simplify_eq. }
    pose proof (parent_lt c). rewrite Hto in Hb by lia.
    apply kle_trans with p; [done|]. apply (Hup c); [lia|done|lia|by rewrite Hpar|done].
Qed.

(** Sifting down from [i] in the prefix of length [n]; [b] says that [i]
    itself is known not to be below its parent. *)
Definition down_inv (l : list K) (n i : nat) (b : bool) : Prop :=
  (forall k, (k < n)%nat -> k <> i -> parent k <> i -> heap_at l k)
  /\ bridge l n i /\ (b = true -> heap_at l i).

(** The least child of [i], as the loop computes it. *)
Definition least_child (l : list K) (n i j : nat) : Prop :=
  (j = 2 * i + 1 \/ j = 2 * i + 2)%nat /\ (j < n)%nat /\
  forall c x y, (0 < c < n)%nat -> parent c = i -> l !! j = Some x -> l !! c = Some y -> kle x y.

Lemma down_inv_done l n i b x :
  down_inv l n i b -> l !! i = Some x -> b = true ->
  (forall c y, (0 < c < n)%nat -> parent c = i -> l !! c = Some y -> kle x y) ->
  forall k, (k < n)%nat -> heap_at l k.
Proof.
  intros (Hd & _ & Hi) Hx Hb Hch k Hk. destruct (decide (k = i)) as [->|Hne]; [by apply Hi|].
  destruct (decide (parent k = i)) as [Hp|Hp]; [|by apply Hd].
  intros p y Hpos Hlp Hly. rewrite Hp in Hlp. simplify_eq. apply (Hch k); done.
Qed.

Lemma down_inv_stay l n i x :
  down_inv l n i false -> l !! i = Some x ->
  (forall c y, (0 < c < n)%nat -> parent c = i -> l !! c = Some y -> kle x y) ->
  forall k, (k < n)%nat -> k <> i -> heap_at l k.
Proof.
  intros (Hd & _ & _) Hx Hch k Hk Hne.
  destruct (decide (parent k = i)) as [Hp|Hp]; [|by apply Hd].
  intros p y Hpos Hlp Hly. rewrite Hp in Hlp. simplify_eq. apply (Hch k); done.
Qed.

(** An element of a heap replaced by the last one: sift from there. *)
Lemma down_inv_replaced l i n :
  heap_ordered l -> (i < n)%nat -> n = (length l - 1)%nat ->
  down_inv (list_swap i n l) n i false.
Proof.
  intros Hh Hi ->. set (n := (length l - 1)%nat) in *.
  assert (Hto : forall k, k <> i -> (k < n)%nat -> list_swap i n l !! k = l !! k).
  { intros k Hk Hkn. rewrite list_swap_lookup by lia. unfold transpose.
    by rewrite !decide_False by lia. }
  split_and!; [| |done].
  - intros k Hk Hki Hpi p x Hpos Hp Hx. pose proof (parent_lt k Hpos).
    rewrite Hto in Hp, Hx by lia. by apply (Hh k).
  - intros c p x Hc Hpar Hpos Hp Hx. pose proof (parent_lt i Hpos). pose proof (parent_lt c).
    rewrite Hto in Hp, Hx by lia.
    destruct (lookup_lt_is_Some_2 l i ltac:(lia)) as [y Hy].
    apply kle_trans with y; [by apply (Hh i)|]. apply (Hh c); [lia|by rewrite Hpar|done].
Qed.

Lemma down_inv_swap l n i j b x y :
  down_inv l n i b -> (n <= length l)%nat -> least_child l n i j ->
  l !! i = Some x -> l !! j = Some y -> lt y x = true ->
  down_inv (list_swap i j l) n j true.
Proof.
  intros (Hd & Hbr & _) Hn (Hj & Hjn & Hmin) Hx Hy Hlt.
  assert (Hpj : parent j = i) by (apply parent_iff; lia).
  assert (Hsw : forall k, list_swap i j l !! k = l !! transpose i j k)
    by (intros; apply list_swap_lookup; lia).
  assert (Hti : transpose i j i = j) by (unfold transpose; by rewrite decide_True by done).
  assert (Htj : transpose i j j = i)
    by (unfold transpose; rewrite decide_False, decide_True by lia; done).
  assert (Hto : forall k, k <> i -> k <> j -> transpose i j k = k)
    by (intros; unfold transpose; rewrite !decide_False by done; done).
  split_and!.
  - intros k Hk Hkj Hpk a c Hpos Ha Hc. rewrite Hsw in Ha, Hc. pose proof (parent_lt k Hpos).
    destruct (decide (k = i)) as [->|Hki].
    { rewrite Hti in Hc. rewrite Hto in Ha by lia. simplify_eq. apply (Hbr j); try done. lia. }
    rewrite (Hto k) in Hc by done.
    destruct (decide (parent k = i)) as [Heq|Hpi].
    { rewrite Heq, Hti in Ha. simplify_eq. apply (Hmin k); done. }
    rewrite Hto in Ha by done. by apply (Hd k).
  - intros c a z Hc Hpar Hpos Ha Hz. rewrite Hsw in Ha, Hz. rewrite Hpj, Hti in Ha.
    simplify_eq. pose proof (parent_lt c). rewrite Hto in Hz by lia.
    apply (Hd c); try done; lia.
  - intros _ a z Hpos Ha Hz. rewrite Hsw in Ha, Hz. rewrite Hpj, Hti in Ha. rewrite Htj in Hz.
    simplify_eq. by apply lt_kle.
Qed.
End heap_order.

(** ** The algorithms keep the heap order *)

(** What an implementation of the interface promises: the state holds a list of
    keys, [Less] compares two of them, [Swap] exchanges two of them; [ok] is a
    representation invariant and [frame] what an exchange leaves alone. *)
Class HeapLaws {S X K : Type} `{!HeapInterface S X} (view : S -> list K)
    (ok : S -> Prop) (frame : S -> S -> Prop) (lt : K -> K -> bool) : Prop := {
  hl_order :: StrictWeakOrder lt;
  hl_frame :: PreOrder frame;
  hl_len : forall s, h_Len s = Done (length (view s), s);
  hl_less : forall s i j a b, ok s -> view s !! i = Some a -> view s !! j = Some b ->
    h_Less i j s = Done (lt a b, s);
  hl_swap : forall s i j, ok s -> (i < length (view s))%nat -> (j < length (view s))%nat ->
    wp (h_Swap i j) (fun _ s' => ok s' /\ frame s s' /\ view s' = list_swap i j (view s)) s;
}.

Section heap_laws.
Context {S X K : Type} `{!HeapInterface S X} {view : S -> list K}
  {ok : S -> Prop} {frame : S -> S -> Prop} {lt : K -> K -> bool}.
Context {Hlaws : HeapLaws view ok frame lt}.

#[local] Instance laws_order : StrictWeakOrder lt.
Proof using Hlaws. apply hl_order. Qed.

(** The state after some exchanges below position [n]. *)
Definition sifted (n : nat) (s s' : S) : Prop :=
  ok s' /\ frame s s' /\ view s' ≡ₚ view s /\
  forall k, (n <= k)%nat -> view s' !! k = view s !! k.

Lemma sifted_refl n s : ok s -> sifted n s s.
Proof using Hlaws. intros. by split_and!. Qed.

Lemma sifted_trans n s1 s2 s3 : sifted n s1 s2 -> sifted n s2 s3 -> sifted n s1 s3.
Proof using Hlaws.
  intros (_ & H1 & P1 & L1) (H2 & H3 & P2 & L2). split_and!; [done|by etrans|by etrans|].
  intros k Hk. by rewrite L2, L1.
Qed.

Lemma swap_spec s i j n :
  ok s -> (i < n)%nat -> (j < n)%nat -> (n <= length (view s))%nat ->
  wp (h_Swap i j) (fun _ s' => sifted n s s' /\ view s' = list_swap i j (view s)) s.
Proof using Hlaws.
  intros Hok Hi Hj Hn. eapply wp_mono; [apply (hl_swap s i j); [done|lia..]|].
  intros [] s' (Hok' & Hfr & Hv). split; [|done]. split_and!; try done; rewrite Hv.
  - apply list_swap_Permutation.
  - intros k Hk. rewrite list_swap_lookup by lia. unfold transpose.
    by rewrite !decide_False by lia.
Qed.

Lemma heap_up_spec fuel s j n :
  ok s -> up_inv lt (view s) n j -> (j < fuel)%nat -> (j < n)%nat -> (n <= length (view s))%nat ->
  wp (heap_up fuel j) (fun _ s' => sifted n s s' /\
    forall k, (k < n)%nat -> heap_at lt (view s') k) s.
Proof using Hlaws.
  revert s j. induction fuel as [|fuel IH]; intros s j Hok Hup Hf Hj Hn; [lia|].
  destruct (lookup_lt_is_Some_2 (view s) j ltac:(lia)) as [x Hx].
  assert (Hpar : (parent j <= j)%nat).
  { destruct (decide (j = 0)%nat) as [->|]; [done|]. pose proof (parent_lt j). lia. }
  destruct (lookup_lt_is_Some_2 (view s) (parent j) ltac:(lia)) as [p Hp].
  cbn [heap_up]. fold (parent j).
  destruct (Nat.eqb_spec (parent j) j) as [He|He].
  { wp_steps. split; [by apply sifted_refl|]. eapply up_inv_done; try done. left.
    destruct (decide (j = 0)%nat); [done|]. pose proof (parent_lt j). lia. }
  wp_step. exists (lt x p), s. split; [by apply hl_less|].
  destruct (lt x p) eqn:Hlt.
  - wp_step. eapply wp_mono; [apply (swap_spec s (parent j) j n); [done|lia..]|].
    cbn beta. intros _ s1 [Hs1 Hv1].
    eapply wp_mono; [apply (IH s1 (parent j)); try lia; [apply Hs1| |]|].
    + rewrite Hv1. eapply (up_inv_swap lt); try done. split; [|done]. apply Nat.neq_0_lt_0. by intros ->.
    + rewrite Hv1, list_swap_length. lia.
    + cbn beta. intros _ s2 [Hs2 Hh]. split; [by eapply sifted_trans|done].
  - wp_steps. split; [by apply sifted_refl|]. eapply up_inv_done; try done. by right.
Qed.

(** The child that the loop compares with [i] is the least one. *)
Lemma least_child_spec s n i j1 :
  ok s -> (n <= length (view s))%nat -> j1 = (2 * i + 1)%nat -> (j1 < n)%nat ->
  wp (if (j1 + 1 <? n)%nat then h_Less (j1 + 1) j1 else mret false)
    (fun right s' => s' = s /\
      least_child lt (view s) n i (if right : bool then j1 + 1 else j1)%nat) s.
Proof using Hlaws.
  intros Hok Hn -> Hj.
  destruct (lookup_lt_is_Some_2 (view s) (2 * i + 1)%nat ltac:(lia)) as [x Hx].
  assert (Hch : forall c, (0 < c)%nat -> parent c = i -> c = (2*i+1)%nat \/ c = (2*i+1+1)%nat).
  { intros c Hc Hp. apply parent_iff in Hp; [lia|done]. }
  destruct (Nat.ltb_spec (2 * i + 1 + 1) n) as [Hlt|Hge].
  - destruct (lookup_lt_is_Some_2 (view s) (2 * i + 1 + 1)%nat ltac:(lia)) as [y Hy].
    exists (lt y x), s. split; [by apply hl_less|]. split; [done|].
    destruct (lt y x) eqn:Hyx; (split; [lia|split; [lia|]]);
      intros c a b Hc Hpar Ha Hb; destruct (Hch c) as [-> | ->]; try done; try lia;
      simplify_eq; solve [apply (kle_refl lt) | done | by apply (lt_kle lt)].
  - wp_steps. split; [done|]. split; [lia|split; [lia|]].
    intros c a b Hc Hpar Ha Hb. destruct (Hch c) as [-> | ->]; try done; try lia.
    simplify_eq. apply (kle_refl lt).
Qed.

Lemma heap_down_spec fuel s i0 i n :
  ok s -> down_inv lt (view s) n i (i0 <? i)%nat -> (n < fuel + i)%nat -> (i0 <= i < n)%nat ->
  (n <= length (view s))%nat ->
  wp (heap_down fuel i0 i n) (fun moved s' => sifted n s s' /\
    (if moved : bool then forall k, (k < n)%nat -> heap_at lt (view s') k
     else i0 = i /\ s' = s /\ forall k, (k < n)%nat -> k <> i -> heap_at lt (view s) k)) s.
Proof using Hlaws.
  revert s i. induction fuel as [|fuel IH]; intros s i Hok Hdn Hf Hi Hn; [lia|].
  destruct (lookup_lt_is_Some_2 (view s) i ltac:(lia)) as [x Hx].
  assert (Hstop : (forall c y, (0 < c < n)%nat -> parent c = i -> view s !! c = Some y -> kle lt x y) ->
    wp (mret (i0 <? i)%nat) (fun moved s' => sifted n s s' /\
      (if moved : bool then forall k, (k < n)%nat -> heap_at lt (view s') k
       else i0 = i /\ s' = s /\ forall k, (k < n)%nat -> k <> i -> heap_at lt (view s) k)) s).
  { intros Hch. wp_steps. split; [by apply sifted_refl|].
    destruct (Nat.ltb_spec i0 i) as [Hlt|Hge].
    - eapply down_inv_done; done.
    - split_and!; [lia|done|]. eapply down_inv_stay; done. }
  cbn [heap_down]. destruct (Nat.leb_spec n (2 * i + 1)) as [Hle|Hgt].
  { apply Hstop. intros c y Hc Hp _. apply parent_iff in Hp; lia. }
  wp_step. eapply wp_mono; [apply (least_child_spec s n i); done|].
  cbn beta. intros right s' [-> Hlc]. set (j := if right then _ else _) in *.
  pose proof Hlc as (Hj & Hjn & Hmin).
  destruct (lookup_lt_is_Some_2 (view s) j ltac:(lia)) as [y Hy].
  wp_step. exists (lt y x), s. split; [by apply hl_less|].
  destruct (lt y x) eqn:Hlt.
  - wp_step. eapply wp_mono; [apply (swap_spec s i j n); [done|lia..]|].
    cbn beta. intros _ s1 [Hs1 Hv1].
    eapply wp_mono; [apply (IH s1 j); try lia; [apply Hs1| |]|].
    + rewrite Hv1. replace (i0 <? j)%nat with true by (symmetry; apply Nat.ltb_lt; lia).
      by eapply (down_inv_swap lt).
    + rewrite Hv1, list_swap_length. lia.
    + cbn beta. intros moved s2 [Hs2 Hm]. split; [by eapply sifted_trans|].
      destruct moved; [done|]. lia.
  - apply Hstop. intros c z Hc Hp Hz. apply (kle_trans lt) with y; [done|]. by eapply Hmin.
Qed.
End heap_laws.

Section heap_operations.
Context {S X K : Type} `{!HeapInterface S X} {view : S -> list K}
  {ok : S -> Prop} {frame : S -> S -> Prop} {lt : K -> K -> bool}.
Context {Hlaws : HeapLaws view ok frame lt}.

(** [heap.Push], given what the implementation's [Push] does. *)
Lemma heap_Push_spec s x k (R : S -> S -> Prop) (Q : unit -> S -> Prop) :
  heap_ordered lt (view s) ->
  wp (h_Push x) (fun _ s' => ok s' /\ R s s' /\ view s' = view s ++ [k]) s ->
  (forall s1 s2, R s s1 -> frame s1 s2 -> ok s2 -> view s2 ≡ₚ k :: view s ->
    heap_ordered lt (view s2) -> Q tt s2) ->
  wp (heap_Push x) Q s.
Proof using Hlaws.
  intros Hh Hpush HQ. unfold heap_Push. wp_step. eapply wp_mono; [exact Hpush|].
  cbn beta. intros [] s1 (Hok & HR & Hv). wp_step.
  exists (length (view s1)), s1. split; [apply hl_len|].
  assert (Hlen : length (view s1) = (length (view s) + 1)%nat) by (rewrite Hv, length_app; done).
  eapply wp_mono; [eapply heap_up_spec with (n := length (view s1)); try done; try lia|].
  - rewrite Hlen, Nat.add_sub, Hv. by apply up_inv_push.
  - cbn beta. intros [] s2 [(Hok2 & Hfr & Hp & _) Hh2]. apply (HQ s1); try done.
    + etrans; [exact Hp|]. rewrite Hv. apply (Permutation_app_comm (view s) [k]).
    + apply heap_prefix. by rewrite (Permutation_length Hp).
Qed.

(** [heap.Remove], given what the implementation's [Pop] does on the last
    element. *)
Lemma heap_Remove_spec s i k (Q : X -> S -> Prop) :
  ok s -> heap_ordered lt (view s) -> view s !! i = Some k ->
  (forall s1 l, frame s s1 -> ok s1 -> view s1 = l ++ [k] -> heap_ordered lt l ->
    view s ≡ₚ k :: l -> wp h_Pop Q s1) ->
  wp (heap_Remove i) Q s.
Proof using Hlaws.
  intros Hok Hh Hk HQ. pose proof (lookup_lt_Some _ _ _ Hk) as Hi.
  unfold heap_Remove. wp_step. exists (length (view s)), s. split; [apply hl_len|].
  set (n := (length (view s) - 1)%nat).
  destruct (Nat.eqb_spec n i) as [<-|Hne].
  { wp_steps. destruct (exists_last (l := view s)) as (l & x & Hl).
    { intros E. rewrite E in Hi. cbn in Hi. lia. }
    assert (Hn : n = length l) by (unfold n; rewrite Hl, length_app; cbn; lia).
    rewrite Hl, Hn, list_lookup_middle in Hk by done. simplify_eq.
    apply (HQ s l); try done.
    - eapply heap_ordered_init. by rewrite <- Hl.
    - rewrite Hl. apply (Permutation_app_comm l [_]). }
  wp_step. wp_step. eapply wp_mono; [apply (hl_swap s i n); [done|unfold n; lia..]|].
  cbn beta. intros [] s1 (Hok1 & Hfr1 & Hv1).
  assert (Hlen : length (view s1) = (n + 1)%nat) by (rewrite Hv1, list_swap_length; unfold n; lia).
  (* what both sifting phases end in *)
  assert (Hfin : forall s2, sifted (view := view) (ok := ok) (frame := frame) n s1 s2 ->
    (forall m, (m < n)%nat -> heap_at lt (view s2) m) -> wp h_Pop Q s2).
  { intros s2 (Hok2 & Hfr2 & Hp2 & Hl2) Hheap.
    destruct (exists_last (l := view s2)) as (l & x & Hl).
    { intros E. apply Permutation_length in Hp2. rewrite E, Hlen in Hp2. cbn in Hp2. lia. }
    assert (Hn : n = length l).
    { apply Permutation_length in Hp2. rewrite Hl, length_app, Hlen in Hp2. cbn in Hp2. lia. }
    assert (x = k) as ->.
    { specialize (Hl2 n ltac:(lia)). rewrite Hl, Hv1, list_swap_lookup in Hl2 by (unfold n; lia).
      unfold transpose in Hl2. rewrite decide_False, decide_True, Hk in Hl2 by done.
      rewrite Hn, list_lookup_middle in Hl2 by done. by simplify_eq. }
    apply (HQ s2 l); try done; [by etrans| |].
    - intros m p y Hm Hp Hy. pose proof (lookup_lt_Some _ _ _ Hy) as Hlt.
      apply (lookup_app_l_Some _ [k]) in Hp, Hy. rewrite <- Hl in Hp, Hy.
      apply (Hheap m); [lia|done..].
    - rewrite <- (list_swap_Permutation i n (view s)), <- Hv1, <- Hp2, Hl.
      apply (Permutation_app_comm l [_]). }
  wp_step. eapply wp_mono; [apply (heap_down_spec (view := view) (ok := ok) (frame := frame) (lt := lt) _ s1 i i n); try done; try lia|].
  - rewrite Nat.ltb_irrefl, Hv1. apply (down_inv_replaced lt); [done|lia|done].
  - cbn beta. intros moved s2 [Hs2 Hm]. destruct moved; [wp_steps; by apply Hfin|].
    destruct Hm as (_ & -> & Hm).
    eapply wp_mono; [apply (heap_up_spec (view := view) (ok := ok) (frame := frame) (lt := lt) _ s1 i n); try done; try lia|].
    + split; [done|]. rewrite Hv1.
      apply (down_inv_replaced lt _ i n); [done|lia|done].
    + cbn beta. intros [] s2 [Hs2' Hm2]. by apply Hfin.
Qed.
End heap_operations.
