(* ===== verification/AdmissionOwner.v ===== *)
(** * Admission: the scheduler's owner

    Models [internal/admission/owner.go] and [internal/admission/expiry.go]:
    the state that one goroutine owns and every operation it runs on it.

    - [*entry] pointers are entry ids; the objects live in [os_entries], which
      is also the map [s.entries] of the source (an object that has left it is
      only reachable from the caller that removed it).
    - [container/list] values are lists of ids; [queueElement] and
      [inflightElement] are an id's membership in them.
    - [item.result], a channel of capacity one that is closed after one send, is
      the entry of the id in [x_results]; a second send is a panic.
    - the clock and the client contexts change while the owner runs, so each
      [clock.Now()] and [Err()] is a separate reading of a [World], at a tick
      that counts the readings made. *)

From S2P Require Import Prelude AdmissionConfig GoHeap.

(** ** The outside world *)

(** What successive readings of the clock and of a client context return. *)
Class World := {
  w_now : nat -> Z;
  w_err : nat -> Z -> bool;
}.

(** A clock does not run backwards and a context stays canceled. *)
Class WorldLaws `{World} : Prop := {
  w_now_mono : forall t t', (t <= t')%nat -> w_now t <= w_now t';
  w_err_mono : forall t t' c, (t <= t')%nat -> w_err t c = true -> w_err t' c = true;
}.

(** ** Data *)

Inductive entryState := entryQueued | entryInflight.
Inductive accountingPhase := accountingQueued | accountingInflight.
Inductive deadlineSource := deadlineQueue | deadlineClient.
Inductive cancelCause := cancelClient | cancelShutdown.
Inductive CancelResult := CancelApplied | CancelAlreadyRequested | CancelAlreadyTerminal.
Inductive ServingOutcome :=
| ServingCompleted | ServingUpstreamFailed | ServingDownstreamFailed | ServingCanceled
| ServingInternalFailure.
Inductive TerminalOutcome :=
| TerminalCompleted | TerminalUpstreamFailed | TerminalDownstreamFailed
| TerminalCanceledInflight | TerminalShutdown | TerminalInternalFailure.

Record TerminalResult := MkTerminalResult {
  tr_Outcome : TerminalOutcome; tr_AccountingReleased : bool }.

#[export] Instance entryState_eq_dec : EqDecision entryState.
Proof. solve_decision. Defined.
#[export] Instance accountingPhase_eq_dec : EqDecision accountingPhase.
Proof. solve_decision. Defined.
#[export] Instance cancelCause_eq_dec : EqDecision cancelCause.
Proof. solve_decision. Defined.

Record Counters := MkCounters {
  QueuedCount : Z; QueuedBytes : Z; QueuedWork : Z; InflightCount : Z; InflightWork : Z }.

Record TenantSnapshot := MkTenantSnapshot {
  tsn_ID : Z; tsn_Deficit : Z; tsn_Counters : Counters }.
Record Snapshot := MkSnapshot {
  sn_Accepting : bool; sn_Global : Counters; sn_Tenants : list TenantSnapshot }.
Record DrainResult := MkDrainResult {
  dr_QueuedShutdownCanceled : Z; dr_InFlightActiveAtStart : Z }.
Record ForceCancelResult := MkForceCancelResult { fc_NewlyShutdownSignaled : Z }.

(** A zero [state], [phase] or [cancelCause] of the source is [None]. *)
Record entry := MkEntry {
  e_id : Z;
  e_sequence : Z;
  e_admission : Admission;
  e_clientCtx : Z;
  e_deadline : Z;
  e_deadlineSource : deadlineSource;
  e_state : option entryState;
  e_phase : option accountingPhase;
  e_tenant : nat;
  e_heapIndex : Z;
  e_cancelCause : option cancelCause;
}.

(** A permit names its entry; its context is a child of the client's. *)
Record Permit := MkPermit { p_entryID : Z; p_ctx : Z }.
Record acquireResult := MkAcquireResult { ar_permit : option Permit; ar_decision : Decision }.

Record tenantState := MkTenantState {
  ts_config : validatedTenant;
  ts_queue : list Z;
  ts_deficit : Z;
  ts_visitOpen : bool;
  ts_counters : Counters;
}.

(** Causes given to a permit's [context.CancelCauseFunc]. *)
Inductive permitCause := errCanceledByClient | errCanceledByDrain | errRequestFinished.

(** What the owner shares with other goroutines: result channels, causes of
    canceled permit contexts, the channels [drained] and [done], the expiry
    timer (the duration it is armed with), and the number of readings made. *)
Record external := MkExternal {
  x_results : gmap Z acquireResult;
  x_causes : gmap Z permitCause;
  x_drained : bool;
  x_done : bool;
  x_timer : option Z;
  x_tick : nat;
}.

Record ownerState := MkOwnerState {
  os_config : validatedConfig;
  os_tenants : list tenantState;
  os_entries : gmap Z entry;
  os_expiry : list Z;
  os_inflight : list Z;
  os_cursor : nat;
  os_sequence : Z;
  os_accepting : bool;
  os_global : Counters;
  os_drainNotified : bool;
  os_ext : external;
}.

Inductive command :=
| admitCommand (item : entry)
| cancelCommand (entryID : Z)
| finishCommand (entryID : Z) (outcome : ServingOutcome)
| snapshotCommand
| drainCommand
| forceCancelCommand
| stopCommand.

(** What the owner sends on a command's response channel. *)
Inductive response :=
| respNone
| respCancel (r : CancelResult)
| respFinish (r : TerminalResult)
| respSnapshot (r : Snapshot)
| respDrain (r : DrainResult)
| respForceCancel (r : ForceCancelResult)
| respStopped.

(** ** Field updates *)

Definition set_sequence e v := MkEntry (e_id e) v (e_admission e) (e_clientCtx e) (e_deadline e)
  (e_deadlineSource e) (e_state e) (e_phase e) (e_tenant e) (e_heapIndex e) (e_cancelCause e).
Definition set_state e v := MkEntry (e_id e) (e_sequence e) (e_admission e) (e_clientCtx e)
  (e_deadline e) (e_deadlineSource e) v (e_phase e) (e_tenant e) (e_heapIndex e) (e_cancelCause e).
Definition set_phase e v := MkEntry (e_id e) (e_sequence e) (e_admission e) (e_clientCtx e)
  (e_deadline e) (e_deadlineSource e) (e_state e) v (e_tenant e) (e_heapIndex e) (e_cancelCause e).
Definition set_tenant e v := MkEntry (e_id e) (e_sequence e) (e_admission e) (e_clientCtx e)
  (e_deadline e) (e_deadlineSource e) (e_state e) (e_phase e) v (e_heapIndex e) (e_cancelCause e).
Definition set_heapIndex e v := MkEntry (e_id e) (e_sequence e) (e_admission e) (e_clientCtx e)
  (e_deadline e) (e_deadlineSource e) (e_state e) (e_phase e) (e_tenant e) v (e_cancelCause e).
Definition set_cancelCause e v := MkEntry (e_id e) (e_sequence e) (e_admission e) (e_clientCtx e)
  (e_deadline e) (e_deadlineSource e) (e_state e) (e_phase e) (e_tenant e) (e_heapIndex e) v.

Definition set_queue t v :=
  MkTenantState (ts_config t) v (ts_deficit t) (ts_visitOpen t) (ts_counters t).
Definition set_deficit v t :=
  MkTenantState (ts_config t) (ts_queue t) v (ts_visitOpen t) (ts_counters t).
Definition set_visitOpen v t :=
  MkTenantState (ts_config t) (ts_queue t) (ts_deficit t) v (ts_counters t).
Definition set_counters t v :=
  MkTenantState (ts_config t) (ts_queue t) (ts_deficit t) (ts_visitOpen t) v.

Definition with_tenants s v := MkOwnerState (os_config s) v (os_entries s) (os_expiry s)
  (os_inflight s) (os_cursor s) (os_sequence s) (os_accepting s) (os_global s)
  (os_drainNotified s) (os_ext s).
Definition with_entries s v := MkOwnerState (os_config s) (os_tenants s) v (os_expiry s)
  (os_inflight s) (os_cursor s) (os_sequence s) (os_accepting s) (os_global s)
  (os_drainNotified s) (os_ext s).
Definition with_expiry s v := MkOwnerState (os_config s) (os_tenants s) (os_entries s) v
  (os_inflight s) (os_cursor s) (os_sequence s) (os_accepting s) (os_global s)
  (os_drainNotified s) (os_ext s).
Definition with_inflight s v := MkOwnerState (os_config s) (os_tenants s) (os_entries s)
  (os_expiry s) v (os_cursor s) (os_sequence s) (os_accepting s) (os_global s)
  (os_drainNotified s) (os_ext s).
Definition with_cursor s v := MkOwnerState (os_config s) (os_tenants s) (os_entries s)
  (os_expiry s) (os_inflight s) v (os_sequence s) (os_accepting s) (os_global s)
  (os_drainNotified s) (os_ext s).
Definition with_sequence s v := MkOwnerState (os_config s) (os_tenants s) (os_entries s)
  (os_expiry s) (os_inflight s) (os_cursor s) v (os_accepting s) (os_global s)
  (os_drainNotified s) (os_ext s).
Definition with_accepting s v := MkOwnerState (os_config s) (os_tenants s) (os_entries s)
  (os_expiry s) (os_inflight s) (os_cursor s) (os_sequence s) v (os_global s)
  (os_drainNotified s) (os_ext s).
Definition with_global s v := MkOwnerState (os_config s) (os_tenants s) (os_entries s)
  (os_expiry s) (os_inflight s) (os_cursor s) (os_sequence s) (os_accepting s) v
  (os_drainNotified s) (os_ext s).
Definition with_drainNotified s v := MkOwnerState (os_config s) (os_tenants s) (os_entries s)
  (os_expiry s) (os_inflight s) (os_cursor s) (os_sequence s) (os_accepting s) (os_global s)
  v (os_ext s).
Definition with_ext s v := MkOwnerState (os_config s) (os_tenants s) (os_entries s)
  (os_expiry s) (os_inflight s) (os_cursor s) (os_sequence s) (os_accepting s) (os_global s)
  (os_drainNotified s) v.

Definition ext_results x v :=
  MkExternal v (x_causes x) (x_drained x) (x_done x) (x_timer x) (x_tick x).
Definition ext_causes x v :=
  MkExternal (x_results x) v (x_drained x) (x_done x) (x_timer x) (x_tick x).
Definition ext_drained x v :=
  MkExternal (x_results x) (x_causes x) v (x_done x) (x_timer x) (x_tick x).
Definition ext_done x v :=
  MkExternal (x_results x) (x_causes x) (x_drained x) v (x_timer x) (x_tick x).
Definition ext_timer x v :=
  MkExternal (x_results x) (x_causes x) (x_drained x) (x_done x) v (x_tick x).
Definition ext_tick x v :=
  MkExternal (x_results x) (x_causes x) (x_drained x) (x_done x) (x_timer x) v.

Abbreviation Owner := (M ownerState).

(** ** Counters and limits *)

Definition fits (current addition limit : Z) : bool :=
  (current <=? limit) && (addition <=? limit -u current).

Definition queueLimitFailure (counters : Counters) (admission : Admission)
    (limits : QueueLimits) : ResourceKind :=
  if negb (fits (QueuedCount counters) 1 (ql_Count limits)) then ResourceCount
  else if negb (fits (QueuedBytes counters) (a_BodyBytes admission) (ql_Bytes limits))
  then ResourceBytes
  else if negb (fits (QueuedWork counters) (a_WorkUnits admission) (ql_Work limits))
  then ResourceWork
  else ResourceNone.

Definition inflightFits (counters : Counters) (admission : Admission)
    (limits : InflightLimits) : bool :=
  fits (InflightCount counters) 1 (il_Count limits)
  && fits (InflightWork counters) (a_WorkUnits admission) (il_Work limits).

Definition boundedAdd (value addition maximum : Z) : Z :=
  if (maximum <=? value) || (maximum -u value <? addition) then maximum
  else value +u addition.

Definition addQueued (c : Counters) (a : Admission) : Counters :=
  MkCounters (QueuedCount c +u 1) (QueuedBytes c +u a_BodyBytes a)
    (QueuedWork c +u a_WorkUnits a) (InflightCount c) (InflightWork c).

(** [None] is the panic "queued accounting underflow". *)
Definition removeQueued_counters (c : Counters) (a : Admission) : option Counters :=
  if (QueuedCount c =? 0) || (QueuedBytes c <? a_BodyBytes a) || (QueuedWork c <? a_WorkUnits a)
  then None
  else Some (MkCounters (QueuedCount c -u 1) (QueuedBytes c -u a_BodyBytes a)
               (QueuedWork c -u a_WorkUnits a) (InflightCount c) (InflightWork c)).

Definition addInflight (c : Counters) (a : Admission) : Counters :=
  MkCounters (QueuedCount c) (QueuedBytes c) (QueuedWork c)
    (InflightCount c +u 1) (InflightWork c +u a_WorkUnits a).

(** [None] is the panic "in-flight accounting underflow". *)
Definition removeInflight (c : Counters) (a : Admission) : option Counters :=
  if (InflightCount c =? 0) || (InflightWork c <? a_WorkUnits a) then None
  else Some (MkCounters (QueuedCount c) (QueuedBytes c) (QueuedWork c)
               (InflightCount c -u 1) (InflightWork c -u a_WorkUnits a)).

Definition terminalOutcome (cause : option cancelCause) (serving : ServingOutcome)
    : TerminalOutcome :=
  match cause with
  | Some cancelShutdown => TerminalShutdown
  | Some cancelClient => TerminalCanceledInflight
  | None =>
      match serving with
      | ServingCompleted => TerminalCompleted
      | ServingUpstreamFailed => TerminalUpstreamFailed
      | ServingDownstreamFailed => TerminalDownstreamFailed
      | ServingCanceled => TerminalCanceledInflight
      | ServingInternalFailure => TerminalInternalFailure
      end
  end.

(** The zero [Counters]. *)
Definition zeroCounters : Counters := MkCounters 0 0 0 0 0.

(** [newOwnerState]; [heap.Init] of an empty queue does nothing. *)
Definition newOwnerState (config : validatedConfig) : ownerState :=
  MkOwnerState config
    (map (fun t => MkTenantState t [] 0 false zeroCounters) (vc_tenants config))
    ∅ [] [] 0 0 true zeroCounters false
    (MkExternal ∅ ∅ false false None 0).

(** ** Access to the state *)

Definition get_tenant (i : nat) : Owner tenantState := fun s =>
  match os_tenants s !! i with
  | Some t => Done (t, s)
  | None => Panicked "index out of range"
  end.

Definition modify_tenant (i : nat) (f : tenantState -> tenantState) : Owner unit :=
  modify (fun s => with_tenants s (alter f i (os_tenants s))).

(** A field of the object that an [*entry] points to. *)
Definition get_entry (id : Z) : Owner entry := fun s =>
  match os_entries s !! id with
  | Some e => Done (e, s)
  | None => Panicked "nil pointer dereference"
  end.

Definition modify_entry (id : Z) (f : entry -> entry) : Owner unit :=
  modify (fun s => with_entries s (alter f id (os_entries s))).

Definition delete_entry (id : Z) : Owner unit :=
  modify (fun s => with_entries s (delete id (os_entries s))).

(** [item.result <- acquireResult{...}; close(item.result)] *)
Definition resolve (id : Z) (permit : option Permit) (decision : Decision) : Owner unit := fun s =>
  match x_results (os_ext s) !! id with
  | Some _ => Panicked "send on closed channel"
  | None =>
      Done (tt, with_ext s (ext_results (os_ext s)
        (<[id := MkAcquireResult permit decision]> (x_results (os_ext s)))))
  end.

(** [item.cancel(cause)]: the first cause of a permit's context stays. *)
Definition cancel_permit (id : Z) (cause : permitCause) : Owner unit :=
  modify (fun s => with_ext s (ext_causes (os_ext s)
    (match x_causes (os_ext s) !! id with
     | Some _ => x_causes (os_ext s)
     | None => <[id := cause]> (x_causes (os_ext s))
     end))).

(** ** The expiry queue *)

(** [Less] of two queue elements. *)
Definition expiry_before (a b : entry) : bool :=
  if e_deadline a =? e_deadline b then e_sequence a <? e_sequence b
  else e_deadline a <? e_deadline b.

#[export] Instance expiryQueue : HeapInterface ownerState Z := {|
  h_Len := gets (fun s => length (os_expiry s));
  h_Less left right := fun s =>
    match os_expiry s !! left, os_expiry s !! right with
    | Some l, Some r =>
        match os_entries s !! l, os_entries s !! r with
        | Some a, Some b => Done (expiry_before a b, s)
        | _, _ => Panicked "nil pointer dereference"
        end
    | _, _ => Panicked "index out of range"
    end;
  h_Swap left right := fun s =>
    match os_expiry s !! left, os_expiry s !! right with
    | Some l, Some r =>
        (modify (fun s => with_expiry s (<[left := r]> (<[right := l]> (os_expiry s))));;
         modify_entry r (fun e => set_heapIndex e (Z.of_nat left));;
         modify_entry l (fun e => set_heapIndex e (Z.of_nat right))) s
    | _, _ => Panicked "index out of range"
    end;
  h_Push id :=
    n ← gets (fun s => length (os_expiry s));
    modify_entry id (fun e => set_heapIndex e (Z.of_nat n));;
    modify (fun s => with_expiry s (os_expiry s ++ [id]));
  h_Pop := fun s =>
    match last (os_expiry s) with
    | Some id =>
        (modify_entry id (fun e => set_heapIndex e (-1));;
         modify (fun s => with_expiry s (removelast (os_expiry s)));;
         mret id) s
    | None => Panicked "index out of range"
    end;
|}.

(** [expiryQueue.remove] *)
Definition expiry_remove (id : Z) : Owner unit :=
  item ← get_entry id;
  if 0 <=? e_heapIndex item
  then heap_Remove (X := Z) (Z.to_nat (e_heapIndex item));; mret tt
  else mret tt.

(** ** Operations of the owner *)

(** [list.Remove] of the element that holds [id]. *)
Definition list_Remove (id : Z) (l : list Z) : list Z := filter (fun x => x <> id) l.

Definition removeQueued (id : Z) : Owner unit :=
  item ← get_entry id;
  if bool_decide (e_phase item <> Some accountingQueued)
  then panic "admission: queued accounting released twice"
  else
    modify_tenant (e_tenant item) (fun t => set_queue t (list_Remove id (ts_queue t)));;
    expiry_remove id;;
    tenant ← get_tenant (e_tenant item);
    match removeQueued_counters (ts_counters tenant) (e_admission item) with
    | None => panic "admission: queued accounting underflow"
    | Some c => modify_tenant (e_tenant item) (fun t => set_counters t c)
    end;;
    global ← gets os_global;
    match removeQueued_counters global (e_admission item) with
    | None => panic "admission: queued accounting underflow"
    | Some c => modify (fun s => with_global s c)
    end;;
    modify_entry id (fun e => set_phase e None);;
    tenant ← get_tenant (e_tenant item);
    match ts_queue tenant with
    | [] => modify_tenant (e_tenant item) (fun t => set_visitOpen false (set_deficit 0 t))
    | _ :: _ => mret tt
    end.

Definition advance : Owner unit :=
  modify (fun s => with_cursor s (S (os_cursor s)));;
  modify (fun s =>
    if (os_cursor s =? length (os_tenants s))%nat then with_cursor s 0%nat else s).

(** [time.Time.Sub], which saturates at the ends of [time.Duration]. *)
Definition time_Sub (t u : Z) : Z := Z.max (-two63) (Z.min max_int64 (t - u)).

(** How a loop inside [pump] ends: the code after it runs, or [pump] returns. *)
Inductive pumpFlow := FlowNext | FlowReturn.

(** Bounds on the rounds of [pump]: after a round that dispatched nothing, the
    visits left before every tenant's deficit covers the largest request shrink;
    a round that dispatched shrinks the queue. *)
Definition fundingVisits (config : validatedConfig) (t : validatedTenant) : nat :=
  Z.to_nat (divideRoundUp (vc_maxRequestUnits config) (vt_quantum t)) + 1.

Definition roundsPerEntry (config : validatedConfig) : nat :=
  S (sum_list_with (fundingVisits config) (vc_tenants config)).

Definition pumpFuel (s : ownerState) : nat :=
  S (S (Z.to_nat (QueuedCount (os_global s))) * roundsPerEntry (os_config s)).

Section owner.
Context `{World}.

(** [s.clock.Now()] and [ctx.Err() != nil], each at the next tick. *)
Definition clock_Now : Owner Z := fun s =>
  Done (w_now (x_tick (os_ext s)),
        with_ext s (ext_tick (os_ext s) (S (x_tick (os_ext s))))).

Definition ctx_Err (c : Z) : Owner bool := fun s =>
  Done (w_err (x_tick (os_ext s)) c,
        with_ext s (ext_tick (os_ext s) (S (x_tick (os_ext s))))).

(** [entry.deadlineDecision]; the disjunction reads the context first. *)
Definition deadlineDecision (item : entry) : Owner Decision :=
  err ← ctx_Err (e_clientCtx item);
  mret (if (err : bool) || (match e_deadlineSource item with
                            | deadlineClient => true | deadlineQueue => false end)
        then MkDecision DecisionCanceledQueued ResourceNone
        else MkDecision DecisionQueueExpired ResourceNone).

Definition expire (id : Z) : Owner unit :=
  item ← get_entry id;
  removeQueued id;;
  delete_entry id;;
  decision ← deadlineDecision item;
  resolve id None decision.

Fixpoint expireReady_loop (fuel : nat) (now : Z) : Owner unit :=
  match fuel with
  | O => no_fuel
  | S fuel =>
      expiry ← gets os_expiry;
      match expiry with
      | [] => mret tt
      | id :: _ =>
          item ← get_entry id;
          if now <? e_deadline item then mret tt
          else expire id;; expireReady_loop fuel now
      end
  end.

(** Every iteration removes one element of the queue. *)
Definition expireReady (now : Z) : Owner unit :=
  n ← gets (fun s => length (os_expiry s));
  expireReady_loop (S n) now.

Definition admitItem (item : entry) (now : Z) : Owner unit :=
  accepting ← gets os_accepting;
  if negb accepting then resolve (e_id item) None (MkDecision DecisionDraining ResourceNone)
  else
    err ← ctx_Err (e_clientCtx item);
    if err : bool then resolve (e_id item) None (MkDecision DecisionCanceledQueued ResourceNone)
    else
      config ← gets os_config;
      match vc_tenantByID config !! a_Tenant (e_admission item) with
      | None => resolve (e_id item) None (MkDecision DecisionInvalid ResourceNone)
      | Some tenantIndex =>
          if negb (now <? e_deadline item)
          then decision ← deadlineDecision item; resolve (e_id item) None decision
          else
            tenant ← get_tenant tenantIndex;
            global ← gets os_global;
            match queueLimitFailure (ts_counters tenant) (e_admission item)
                    (vt_queue (ts_config tenant)) with
            | ResourceNone =>
                match queueLimitFailure global (e_admission item) (vc_globalQueue config) with
                | ResourceNone =>
                    modify (fun s => with_sequence s (os_sequence s +u 1));;
                    sequence ← gets os_sequence;
                    let item := set_tenant (set_phase (set_state (set_sequence item sequence)
                      (Some entryQueued)) (Some accountingQueued)) tenantIndex in
                    modify_tenant tenantIndex (fun t =>
                      set_counters (set_queue t (ts_queue t ++ [e_id item]))
                        (addQueued (ts_counters t) (e_admission item)));;
                    modify (fun s => with_global s (addQueued (os_global s) (e_admission item)));;
                    modify (fun s => with_entries s (<[e_id item := item]> (os_entries s)));;
                    heap_Push (S := ownerState) (e_id item)
                | resource => resolve (e_id item) None (MkDecision DecisionGlobalRejected resource)
                end
            | resource => resolve (e_id item) None (MkDecision DecisionTenantRejected resource)
            end
      end.

Definition cancelEntry (entryID : Z) : Owner CancelResult :=
  found ← gets (fun s => os_entries s !! entryID);
  match found with
  | None => mret CancelAlreadyTerminal
  | Some item =>
      if bool_decide (e_state item = Some entryQueued) then
        removeQueued entryID;;
        delete_entry (e_id item);;
        resolve (e_id item) None (MkDecision DecisionCanceledQueued ResourceNone);;
        mret CancelApplied
      else if bool_decide (e_cancelCause item <> None) then mret CancelAlreadyRequested
      else
        modify_entry entryID (fun e => set_cancelCause e (Some cancelClient));;
        cancel_permit entryID errCanceledByClient;;
        mret CancelApplied
  end.

(** [finishEntry] from line 245 on: the release. *)
Definition releaseEntry (entryID : Z) (outcome : ServingOutcome) : Owner TerminalResult :=
  item ← get_entry entryID;
  let terminal := terminalOutcome (e_cancelCause item) outcome in
  tenant ← get_tenant (e_tenant item);
  match removeInflight (ts_counters tenant) (e_admission item) with
  | None => panic "admission: in-flight accounting underflow"
  | Some c => modify_tenant (e_tenant item) (fun t => set_counters t c)
  end;;
  global ← gets os_global;
  match removeInflight global (e_admission item) with
  | None => panic "admission: in-flight accounting underflow"
  | Some c => modify (fun s => with_global s c)
  end;;
  modify_entry entryID (fun e => set_phase e None);;
  modify (fun s => with_inflight s (list_Remove entryID (os_inflight s)));;
  cancel_permit entryID errRequestFinished;;
  delete_entry (e_id item);;
  mret (MkTerminalResult terminal true).

Definition finishEntry (entryID : Z) (outcome : ServingOutcome) : Owner TerminalResult :=
  found ← gets (fun s => os_entries s !! entryID);
  match found with
  | None => mret (MkTerminalResult TerminalInternalFailure false)
  | Some item =>
      if bool_decide (e_state item <> Some entryInflight)
         || bool_decide (e_phase item <> Some accountingInflight)
      then mret (MkTerminalResult TerminalInternalFailure false)
      else
        (if bool_decide (e_cancelCause item = None) then
           err ← ctx_Err (e_clientCtx item);
           if err : bool
           then modify_entry entryID (fun e => set_cancelCause e (Some cancelClient))
           else mret tt
         else mret tt);;
        releaseEntry entryID outcome
  end.

(** The inner loop of [beginDrain], over one tenant's queue. *)
Fixpoint drainQueue (fuel : nat) (tenantIndex : nat) (canceled : Z) : Owner Z :=
  match fuel with
  | O => no_fuel
  | S fuel =>
      tenant ← get_tenant tenantIndex;
      match ts_queue tenant with
      | [] => mret canceled
      | id :: _ =>
          item ← get_entry id;
          removeQueued id;;
          delete_entry (e_id item);;
          err ← ctx_Err (e_clientCtx item);
          if err : bool then
            resolve id None (MkDecision DecisionCanceledQueued ResourceNone);;
            drainQueue fuel tenantIndex canceled
          else
            resolve id None (MkDecision DecisionShutdown ResourceNone);;
            drainQueue fuel tenantIndex (canceled +u 1)
      end
  end.

(** [for tenantIndex := range s.tenants], [n] tenants from [tenantIndex] on. *)
Fixpoint drainTenants (n : nat) (tenantIndex : nat) (canceled : Z) : Owner Z :=
  match n with
  | O => mret canceled
  | S n =>
      tenant ← get_tenant tenantIndex;
      canceled' ← drainQueue (S (length (ts_queue tenant))) tenantIndex canceled;
      drainTenants n (S tenantIndex) canceled'
  end.

Definition beginDrain : Owner DrainResult :=
  modify (fun s => with_accepting s false);;
  n ← gets (fun s => length (os_tenants s));
  canceled ← drainTenants n 0 0;
  active ← gets (fun s => InflightCount (os_global s));
  mret (MkDrainResult canceled active).

(** The loop of [forceCancelInflight] over the elements of the list. *)
Fixpoint signalInflight (ids : list Z) (signaled : Z) : Owner Z :=
  match ids with
  | [] => mret signaled
  | id :: rest =>
      item ← get_entry id;
      if bool_decide (e_cancelCause item = None) then
        err ← ctx_Err (e_clientCtx item);
        if err : bool then
          modify_entry id (fun e => set_cancelCause e (Some cancelClient));;
          cancel_permit id errCanceledByClient;;
          signalInflight rest signaled
        else
          modify_entry id (fun e => set_cancelCause e (Some cancelShutdown));;
          cancel_permit id errCanceledByDrain;;
          signalInflight rest (signaled +u 1)
      else signalInflight rest signaled
  end.

Definition forceCancelInflight : Owner ForceCancelResult :=
  accepting ← gets os_accepting;
  (if accepting : bool then beginDrain;; mret tt else mret tt);;
  ids ← gets os_inflight;
  signaled ← signalInflight ids 0;
  mret (MkForceCancelResult signaled).

Definition dispatch (id : Z) : Owner unit :=
  item ← get_entry id;
  removeQueued id;;
  modify_tenant (e_tenant item) (fun t =>
    set_counters t (addInflight (ts_counters t) (e_admission item)));;
  modify (fun s => with_global s (addInflight (os_global s) (e_admission item)));;
  modify_entry id (fun e => set_phase (set_state e (Some entryInflight))
                              (Some accountingInflight));;
  modify (fun s => with_inflight s (os_inflight s ++ [id]));;
  resolve id (Some (MkPermit (e_id item) (e_clientCtx item)))
    (MkDecision DecisionDispatched ResourceNone).

(** *** [pump] *)

(** Removal of a queued entry whose context is canceled. *)
Definition cancelHead (id : Z) : Owner unit :=
  removeQueued id;;
  delete_entry id;;
  resolve id None (MkDecision DecisionCanceledQueued ResourceNone).

(** The loop that removes dead heads (lines 311 to 324). *)
Fixpoint dropDead (fuel : nat) (tenantIndex : nat) : Owner unit :=
  match fuel with
  | O => no_fuel
  | S fuel =>
      tenant ← get_tenant tenantIndex;
      match ts_queue tenant with
      | [] => mret tt
      | id :: _ =>
          head ← get_entry id;
          err ← ctx_Err (e_clientCtx head);
          if err : bool then cancelHead id;; dropDead fuel tenantIndex
          else
            now ← clock_Now;
            if negb (now <? e_deadline head)
            then expire id;; dropDead fuel tenantIndex
            else mret tt
      end
  end.

(** Whether the in-flight limit that dispatching compares with is reached. *)
Definition inflightFull (global : Counters) (limits : InflightLimits) : bool :=
  (InflightCount global =? il_Count limits) || (InflightWork global =? il_Work limits).

Definition closeVisit (tenantIndex : nat) : Owner unit :=
  modify_tenant tenantIndex (fun t => set_visitOpen false (set_deficit 0 t)).

(** The loop that dispatches from one tenant's queue (lines 337 to 380), with
    [dispatched] and [needsFunding] of the round.  [FlowNext] is its end,
    [FlowReturn] a return from [pump]. *)
Fixpoint dispatchLoop (fuel : nat) (tenantIndex : nat) (dispatched needsFunding : bool)
    : Owner (pumpFlow * bool * bool) :=
  match fuel with
  | O => no_fuel
  | S fuel =>
      tenant ← get_tenant tenantIndex;
      match ts_queue tenant with
      | [] => mret (FlowNext, dispatched, needsFunding)
      | id :: _ =>
          head ← get_entry id;
          if negb (inflightFits (ts_counters tenant) (e_admission head)
                     (vt_inflight (ts_config tenant)))
          then mret (FlowNext, dispatched, needsFunding)
          else if ts_deficit tenant <? a_WorkUnits (e_admission head) then
            modify_tenant tenantIndex (set_visitOpen false);;
            mret (FlowNext, dispatched, true)
          else
            err ← ctx_Err (e_clientCtx head);
            if err : bool
            then cancelHead id;; dispatchLoop fuel tenantIndex dispatched needsFunding
            else
              now ← clock_Now;
              if negb (now <? e_deadline head)
              then expire id;; dispatchLoop fuel tenantIndex dispatched needsFunding
              else
                global ← gets os_global;
                config ← gets os_config;
                if negb (inflightFits global (e_admission head) (vc_globalInflight config))
                then mret (FlowReturn, dispatched, needsFunding)
                else
                  modify_tenant tenantIndex (fun t =>
                    set_deficit (ts_deficit t -u a_WorkUnits (e_admission head)) t);;
                  dispatch id;;
                  global ← gets os_global;
                  tenant ← get_tenant tenantIndex;
                  if inflightFull global (vc_globalInflight config) then
                    match ts_queue tenant with
                    | [] => closeVisit tenantIndex;; advance
                    | _ :: _ => mret tt
                    end;;
                    mret (FlowReturn, true, needsFunding)
                  else
                    match ts_queue tenant with
                    | [] => closeVisit tenantIndex;; mret (FlowNext, true, needsFunding)
                    | _ :: _ => dispatchLoop fuel tenantIndex true needsFunding
                    end
      end
  end.

(** Lines 332 to 335: the credit of a visit. *)
Definition fundVisit (tenantIndex : nat) : Owner unit :=
  tenant ← get_tenant tenantIndex;
  if negb (ts_visitOpen tenant) then
    config ← gets os_config;
    modify_tenant tenantIndex (fun t => set_visitOpen true (set_deficit
      (boundedAdd (ts_deficit t) (vt_quantum (ts_config t)) (vc_deficitCap config)) t))
  else mret tt.

(** One iteration of [for range len(s.tenants)], at the cursor. *)
Definition visit (dispatched needsFunding : bool) : Owner (pumpFlow * bool * bool) :=
  cursor ← gets os_cursor;
  tenant ← get_tenant cursor;
  dropDead (S (length (ts_queue tenant))) cursor;;
  tenant ← get_tenant cursor;
  match ts_queue tenant with
  | [] => closeVisit cursor;; advance;; mret (FlowNext, dispatched, needsFunding)
  | _ :: _ =>
      fundVisit cursor;;
      '(flow, dispatched, needsFunding) ←
        dispatchLoop (S (length (ts_queue tenant))) cursor dispatched needsFunding;
      match flow with
      | FlowReturn => mret (FlowReturn, dispatched, needsFunding)
      | FlowNext => advance;; mret (FlowNext, dispatched, needsFunding)
      end
  end.

Fixpoint pumpRound (n : nat) (dispatched needsFunding : bool)
    : Owner (pumpFlow * bool * bool) :=
  match n with
  | O => mret (FlowNext, dispatched, needsFunding)
  | S n =>
      '(flow, dispatched, needsFunding) ← visit dispatched needsFunding;
      match flow with
      | FlowReturn => mret (FlowReturn, dispatched, needsFunding)
      | FlowNext => pumpRound n dispatched needsFunding
      end
  end.

Fixpoint pumpLoop (fuel : nat) : Owner unit :=
  match fuel with
  | O => no_fuel
  | S fuel =>
      global ← gets os_global;
      if negb (0 <? QueuedCount global) then mret tt
      else
        n ← gets (fun s => length (os_tenants s));
        '(flow, dispatched, needsFunding) ← pumpRound n false false;
        match flow with
        | FlowReturn => mret tt
        | FlowNext =>
            global ← gets os_global;
            if QueuedCount global =? 0 then modify (fun s => with_cursor s 0%nat)
            else if negb dispatched && negb needsFunding then mret tt
            else pumpLoop fuel
        end
  end.

Definition pump : Owner unit :=
  tenants ← gets os_tenants;
  match tenants with
  | [] => mret tt
  | _ :: _ =>
      global ← gets os_global;
      config ← gets os_config;
      if inflightFull global (vc_globalInflight config) then mret tt
      else
        fuel ← gets pumpFuel;
        pumpLoop fuel
  end.

(** *** Commands and the owner's loop *)

Definition snapshot : Owner Snapshot := gets (fun s =>
  MkSnapshot (os_accepting s) (os_global s)
    (map (fun t => MkTenantSnapshot (vt_id (ts_config t)) (ts_deficit t) (ts_counters t))
       (os_tenants s))).

Definition isDrained (s : ownerState) : bool :=
  (QueuedCount (os_global s) =? 0) && (InflightCount (os_global s) =? 0).

(** [close(s.scheduler.drained)] *)
Definition close_drained : Owner unit := fun s =>
  if x_drained (os_ext s) then Panicked "close of closed channel"
  else Done (tt, with_ext s (ext_drained (os_ext s) true)).

Definition notifyDrained : Owner unit :=
  quiet ← gets (fun s => os_accepting s || negb (isDrained s) || os_drainNotified s);
  if quiet : bool then mret tt
  else
    modify (fun s => with_drainNotified s true);;
    close_drained.

(** [None] stops the timer (and clears the channel the owner selects on). *)
Definition resetExpiryTimer (now : Z) : Owner unit :=
  expiry ← gets os_expiry;
  match expiry with
  | [] => modify (fun s => with_ext s (ext_timer (os_ext s) None))
  | id :: _ =>
      item ← get_entry id;
      let duration := time_Sub (e_deadline item) now in
      let duration := if duration <? 0 then 0 else duration in
      modify (fun s => with_ext s (ext_timer (os_ext s) (Some duration)))
  end.

(** The second component is the value sent on the response channel. *)
Definition handle (rawCommand : command) (now : Z) : Owner (bool * response) :=
  match rawCommand with
  | admitCommand item => admitItem item now;; mret (false, respNone)
  | cancelCommand entryID => r ← cancelEntry entryID; mret (false, respCancel r)
  | finishCommand entryID outcome =>
      r ← finishEntry entryID outcome; mret (false, respFinish r)
  | snapshotCommand => r ← snapshot; mret (false, respSnapshot r)
  | drainCommand => r ← beginDrain; mret (false, respDrain r)
  | forceCancelCommand => r ← forceCancelInflight; mret (false, respForceCancel r)
  | stopCommand =>
      drained ← gets isDrained;
      if negb drained then panic "admission: stop requested before drain"
      else mret (true, respStopped)
  end.

(** What [run] does once its [select] received from the mailbox: the response,
    and whether the loop ended. *)
Definition run_command (rawCommand : command) : Owner (bool * response) :=
  now ← clock_Now;
  expireReady now;;
  '(stopped, resp) ← handle rawCommand now;
  if stopped : bool then
    modify (fun s => with_ext s (ext_done (ext_timer (os_ext s) None) true));;
    mret (true, resp)
  else
    pump;;
    notifyDrained;;
    mret (false, resp).

(** What [run] does once its timer fired. *)
Definition run_timer : Owner unit :=
  now ← clock_Now;
  expireReady now;;
  pump;;
  notifyDrained.

(** The statement at the head of the loop of [run]. *)
Definition run_head : Owner unit :=
  now ← clock_Now;
  resetExpiryTimer now.
End owner.
