(* ===== verification/AdmissionInv.v ===== *)
(** * Admission: the owner's invariant

    What holds between two commands of the owner (model: [AdmissionOwner]): the
    queues, the expiry heap, the in-flight list, the counters and the results
    all tell the same story about the entries.  Preservation by the operations
    on single entries is proved here, by the others in the files that follow it. *)

From S2P Require Import Prelude AdmissionConfig GoHeap AdmissionOwner.

(** ** Sums over the entries *)

(** Addition and subtraction of counters, over unbounded integers. *)
Definition counters_add (c c' : Counters) : Counters :=
  MkCounters (QueuedCount c + QueuedCount c') (QueuedBytes c + QueuedBytes c')
    (QueuedWork c + QueuedWork c') (InflightCount c + InflightCount c')
    (InflightWork c + InflightWork c').
Definition counters_sub (c c' : Counters) : Counters :=
  MkCounters (QueuedCount c - QueuedCount c') (QueuedBytes c - QueuedBytes c')
    (QueuedWork c - QueuedWork c') (InflightCount c - InflightCount c')
    (InflightWork c - InflightWork c').

(** What a request charges while it waits, and while it is served. *)
Definition charge_queued (a : Admission) : Counters :=
  MkCounters 1 (a_BodyBytes a) (a_WorkUnits a) 0 0.
Definition charge_inflight (a : Admission) : Counters := MkCounters 0 0 0 1 (a_WorkUnits a).

Definition charge (e : entry) : Counters :=
  match e_phase e with
  | Some accountingQueued => charge_queued (e_admission e)
  | Some accountingInflight => charge_inflight (e_admission e)
  | None => zeroCounters
  end.

Definition charge_if (P : entry -> bool) (e : entry) : Counters :=
  if P e then charge e else zeroCounters.

(** The counters that the entries selected by [P] add up to. *)
Definition tally (P : entry -> bool) (E : gmap Z entry) : Counters :=
  map_fold (fun _ e c => counters_add (charge_if P e) c) zeroCounters E.

Definition of_tenant (i : nat) (e : entry) : bool := bool_decide (e_tenant e = i).
Definition of_any (_ : entry) : bool := true.

Lemma counters_eq c c' :
  QueuedCount c = QueuedCount c' -> QueuedBytes c = QueuedBytes c' ->
  QueuedWork c = QueuedWork c' -> InflightCount c = InflightCount c' ->
  InflightWork c = InflightWork c' -> c = c'.
Proof. destruct c, c'; cbn; congruence. Qed.

Ltac counters_lia := apply counters_eq; cbn; lia.

Lemma counters_add_sub c c' : counters_sub (counters_add c c') c = c'.
Proof. counters_lia. Qed.

Lemma counters_add_0 c : counters_add zeroCounters c = c.
Proof. counters_lia. Qed.

Lemma tally_empty P : tally P ∅ = zeroCounters.
Proof. apply map_fold_empty. Qed.

Lemma tally_insert P E id e :
  E !! id = None -> tally P (<[id := e]> E) = counters_add (charge_if P e) (tally P E).
Proof.
  intros H. unfold tally.
  rewrite (map_fold_insert_L (M := gmap Z) _ zeroCounters id e E); [done| |done].
  intros. counters_lia.
Qed.

Lemma tally_delete P E id e :
  E !! id = Some e -> tally P E = counters_add (charge_if P e) (tally P (delete id E)).
Proof.
  intros H. rewrite <- (insert_delete_id E id e H) at 1.
  apply tally_insert. apply lookup_delete_eq.
Qed.

Lemma tally_replace P E id e e' :
  E !! id = Some e ->
  tally P (<[id := e']> E)
  = counters_add (charge_if P e') (counters_sub (tally P E) (charge_if P e)).
Proof.
  intros H. rewrite (tally_delete P E id e H), counters_add_sub, <- insert_delete_eq.
  apply tally_insert. apply lookup_delete_eq.
Qed.

Lemma tally_fmap P (f : entry -> entry) E :
  (forall e, charge_if P (f e) = charge_if P e) -> tally P (f <$> E) = tally P E.
Proof.
  intros Hf. induction E as [|id e E Hid IH] using map_ind.
  { by rewrite fmap_empty. }
  rewrite fmap_insert, !tally_insert, Hf, IH; [done..|]. by rewrite lookup_fmap, Hid.
Qed.

(** Charges are never negative, so a sum bounds its terms. *)
Definition counters_le (c c' : Counters) : Prop :=
  QueuedCount c <= QueuedCount c' /\ QueuedBytes c <= QueuedBytes c' /\
  QueuedWork c <= QueuedWork c' /\ InflightCount c <= InflightCount c' /\
  InflightWork c <= InflightWork c'.

Definition fair_admission (a : Admission) : Prop := 0 < a_BodyBytes a /\ 0 < a_WorkUnits a.

Lemma charge_nonneg P e : fair_admission (e_admission e) -> counters_le zeroCounters (charge_if P e).
Proof.
  intros [? ?]. unfold counters_le, charge_if, charge.
  destruct (P e), (e_phase e) as [[]|]; cbn; lia.
Qed.

Lemma tally_nonneg P E :
  map_Forall (fun _ e => fair_admission (e_admission e)) E -> counters_le zeroCounters (tally P E).
Proof.
  induction E as [|id e E Hid IH] using map_ind; intros HE.
  { rewrite tally_empty. unfold counters_le; cbn. lia. }
  apply map_Forall_insert in HE as [He HE]; [|done]. specialize (IH HE).
  rewrite tally_insert by done. pose proof (charge_nonneg P e He).
  unfold counters_le in *; cbn in *. lia.
Qed.

Lemma tally_ge P E id e :
  map_Forall (fun _ e => fair_admission (e_admission e)) E -> E !! id = Some e -> P e = true ->
  counters_le (charge e) (tally P E).
Proof.
  intros HE He HP. rewrite (tally_delete P E id e He).
  assert (HE' : map_Forall (fun _ e => fair_admission (e_admission e)) (delete id E)).
  { by apply map_Forall_delete. }
  pose proof (tally_nonneg P _ HE') as H. unfold charge_if. rewrite HP.
  unfold counters_le in *; cbn in *. lia.
Qed.

(** ** The expiry heap

    Its exchanges touch the queue and the heap indices of the entries, nothing
    else: [erase] forgets the indices. *)

Definition erase (E : gmap Z entry) : gmap Z entry := (fun e => set_heapIndex e 0) <$> E.

Definition heap_frame (s s' : ownerState) : Prop :=
  exists ex en, s' = with_entries (with_expiry s ex) en /\ erase en = erase (os_entries s).

(** The position that each element records is its own. *)
Definition heap_ok (s : ownerState) : Prop :=
  forall k id, os_expiry s !! k = Some id ->
    exists e, os_entries s !! id = Some e /\ e_heapIndex e = Z.of_nat k.

(** An element as the comparison sees it: its id, its deadline, its sequence. *)
Definition expiry_key (E : gmap Z entry) (id : Z) : Z * (Z * Z) :=
  match E !! id with
  | Some e => (id, (e_deadline e, e_sequence e))
  | None => (id, (0, 0))
  end.

Definition expiry_view (s : ownerState) : list (Z * (Z * Z)) :=
  map (expiry_key (os_entries s)) (os_expiry s).

Definition expiry_lt (a b : Z * (Z * Z)) : bool :=
  if fst (snd a) =? fst (snd b) then snd (snd a) <? snd (snd b)
  else fst (snd a) <? fst (snd b).

(** Entries whose heap positions are right and in heap order. *)
Definition heap_fine (s : ownerState) : Prop :=
  heap_ok s /\ heap_ordered expiry_lt (expiry_view s).

#[export] Instance expiry_lt_order : StrictWeakOrder expiry_lt.
Proof.
  split.
  - intros [i [d q]]. unfold expiry_lt; cbn [fst snd]. case_match; lia.
  - intros [? [d q]] [? [d' q']] [? [d'' q'']]. unfold expiry_lt; cbn [fst snd].
    repeat case_match; lia.
  - intros [? [d q]] [? [d' q']] [? [d'' q'']]. unfold expiry_lt; cbn [fst snd].
    repeat case_match; lia.
Qed.

Lemma erase_lookup E id e0 :
  erase E !! id = Some e0 <-> exists e, E !! id = Some e /\ e0 = set_heapIndex e 0.
Proof. unfold erase. rewrite lookup_fmap, fmap_Some. done. Qed.

Lemma erase_inv E E' id e :
  erase E' = erase E -> E !! id = Some e ->
  exists e', E' !! id = Some e' /\ set_heapIndex e' 0 = set_heapIndex e 0.
Proof.
  intros Heq He. assert (H : erase E' !! id = Some (set_heapIndex e 0)).
  { rewrite Heq. apply erase_lookup. eauto. }
  apply erase_lookup in H as (e' & ? & ?). eauto.
Qed.

Lemma erase_alter (f : entry -> entry) E id :
  (forall e, set_heapIndex (f e) 0 = f (set_heapIndex e 0)) ->
  erase (alter f id E) = alter f id (erase E).
Proof.
  intros Hf. apply map_eq. intros j. unfold erase. rewrite lookup_fmap.
  destruct (decide (id = j)) as [->|Hne].
  - rewrite !lookup_alter_eq, lookup_fmap. destruct (E !! j); cbn; [by rewrite Hf|done].
  - by rewrite !lookup_alter_ne, lookup_fmap by done.
Qed.

Lemma erase_heapIndex E id v : erase (alter (fun e => set_heapIndex e v) id E) = erase E.
Proof.
  apply map_eq. intros j. unfold erase. rewrite !lookup_fmap.
  destruct (decide (id = j)) as [->|Hne].
  - rewrite lookup_alter_eq. by destruct (E !! j).
  - by rewrite lookup_alter_ne.
Qed.

Lemma erase_delete E id : erase (delete id E) = delete id (erase E).
Proof. apply fmap_delete. Qed.

Lemma erase_insert E id e : erase (<[id := e]> E) = <[id := set_heapIndex e 0]> (erase E).
Proof. unfold erase. by rewrite fmap_insert. Qed.

Lemma expiry_key_erase E E' id : erase E' = erase E -> expiry_key E' id = expiry_key E id.
Proof.
  intros Heq. unfold expiry_key. destruct (E !! id) as [e|] eqn:He.
  - destruct (erase_inv E E' id e Heq He) as (e' & -> & Hs).
    assert (e_deadline e' = e_deadline e /\ e_sequence e' = e_sequence e) as [-> ->]; [|done].
    destruct e, e'. by injection Hs.
  - destruct (E' !! id) as [e'|] eqn:He'; [|done].
    destruct (erase_inv E' E id e' (eq_sym Heq) He') as (e & ? & _). congruence.
Qed.

#[export] Instance heap_frame_preorder : PreOrder heap_frame.
Proof.
  split.
  - intros s. exists (os_expiry s), (os_entries s). by destruct s.
  - intros s s1 s2 (ex & en & -> & H) (ex' & en' & -> & H'). exists ex', en'.
    split; [done|]. etrans; [exact H'|exact H].
Qed.

Lemma expiry_view_length s : length (expiry_view s) = length (os_expiry s).
Proof. apply length_map. Qed.

Lemma list_swap_map {A B} (f : A -> B) i j l : list_swap i j (map f l) = map f (list_swap i j l).
Proof.
  unfold list_swap.
  change (map f) with (fmap (M := list) f). rewrite !list_lookup_fmap.
  destruct (l !! i), (l !! j); cbn; try done. by rewrite !list_fmap_insert.
Qed.

#[export] Instance expiry_heap_laws : HeapLaws expiry_view heap_ok heap_frame expiry_lt.
Proof.
  split; [apply _|apply _| | |].
  - intros s. cbn. unfold gets. by rewrite expiry_view_length.
  - intros s i j a b Hok Ha Hb. unfold expiry_view in Ha, Hb.
    apply list_lookup_fmap_Some in Ha as (l & -> & Hl), Hb as (r & -> & Hr).
    destruct (Hok _ _ Hl) as (el & El & _), (Hok _ _ Hr) as (er & Er & _).
    cbn. rewrite Hl, Hr, El, Er. unfold expiry_key, expiry_before, expiry_lt.
    by rewrite El, Er.
  - intros s i j Hok Hi Hj. rewrite expiry_view_length in Hi, Hj.
    destruct (lookup_lt_is_Some_2 _ _ Hi) as [l Hl], (lookup_lt_is_Some_2 _ _ Hj) as [r Hr].
    assert (Hex : <[i := r]> (<[j := l]> (os_expiry s)) = list_swap i j (os_expiry s)).
    { unfold list_swap. by rewrite Hl, Hr. }
    set (en := alter (fun e => set_heapIndex e (Z.of_nat j)) l
                 (alter (fun e => set_heapIndex e (Z.of_nat i)) r (os_entries s))).
    assert (Hen : erase en = erase (os_entries s)).
    { unfold en. by rewrite !erase_heapIndex. }
    exists tt, (with_entries (with_expiry s (list_swap i j (os_expiry s))) en).
    split; [|split_and!].
    + cbn. rewrite Hl, Hr. unfold mbind, M_bind, modify; cbn. by rewrite Hex.
    + intros k id Hk. cbn [os_expiry with_entries with_expiry os_entries] in *.
      rewrite list_swap_lookup in Hk by done.
      destruct (Hok _ _ Hk) as (e & He & Hix).
      destruct (Hok _ _ Hl) as (el & Hel & Hlx), (Hok _ _ Hr) as (er & Her & Hrx).
      unfold en. rewrite !lookup_alter.
      assert (Hl' : l = id -> transpose i j k = i) by (intros ->; simplify_eq; lia).
      assert (Hr' : r = id -> transpose i j k = j) by (intros ->; simplify_eq; lia).
      unfold transpose in Hl', Hr'.
      destruct (decide (l = id)) as [->|Hl0], (decide (r = id)) as [->|Hr0];
        try specialize (Hl' eq_refl); try specialize (Hr' eq_refl);
        rewrite ?decide_True, ?He by done; cbn; eexists; (split; [done|]); cbn;
        unfold transpose in Hk, Hix; repeat case_decide; simplify_eq; lia || (exfalso; congruence).
    + by exists (list_swap i j (os_expiry s)), en.
    + unfold expiry_view; cbn. rewrite list_swap_map. apply map_ext.
      intros id. by apply expiry_key_erase.
Qed.

Lemma expiry_view_ids s : map fst (expiry_view s) = os_expiry s.
Proof.
  unfold expiry_view. rewrite map_map. rewrite <- (map_id (os_expiry s)) at 2.
  apply map_ext. intros id. unfold expiry_key. by destruct (_ !! id).
Qed.

Lemma heap_ok_NoDup s : heap_ok s -> NoDup (os_expiry s).
Proof.
  intros Hok. apply NoDup_alt. intros i j id Hi Hj.
  destruct (Hok _ _ Hi) as (e & He & Hix), (Hok _ _ Hj) as (e' & He' & Hjx). simplify_eq. lia.
Qed.

Lemma expiry_remove_spec s id :
  heap_fine s -> id ∈ os_expiry s ->
  wp (expiry_remove id) (fun _ s' => exists ex en, s' = with_entries (with_expiry s ex) en
    /\ erase en = erase (os_entries s) /\ os_expiry s ≡ₚ id :: ex /\ heap_fine s') s.
Proof.
  intros [Hok Hord] Hin. apply list_elem_of_lookup in Hin as [k Hk].
  destruct (Hok _ _ Hk) as (e & He & Hix).
  unfold expiry_remove. wp_step. exists e, s. unfold get_entry. rewrite He. split; [done|].
  wp_case; [|lia]. wp_step. rewrite Hix, Nat2Z.id.
  eapply (heap_Remove_spec (view := expiry_view) (ok := heap_ok) (frame := heap_frame)
            (lt := expiry_lt) s k (expiry_key (os_entries s) id)); [done|done|..].
  { unfold expiry_view. change (map ?f) with (fmap (M := list) f). by rewrite list_lookup_fmap, Hk. }
  intros s1 l (ex1 & en1 & -> & Hen1) Hok1 Hv1 Hl Hp.
  assert (Hid : fst (expiry_key (os_entries s) id) = id).
  { unfold expiry_key. by rewrite He. }
  assert (Hex1 : ex1 = map fst l ++ [id]).
  { pose proof (expiry_view_ids (with_entries (with_expiry s ex1) en1)) as Hids.
    rewrite Hv1, map_app in Hids. cbn in Hids. rewrite Hid in Hids. by rewrite <- Hids. }
  subst ex1. set (ex := map fst l) in *.
  exists id, (with_entries (with_expiry s ex) (alter (fun e => set_heapIndex e (-1)) id en1)).
  split.
  { cbn. rewrite last_snoc. unfold mbind, M_bind, modify, mret, M_ret; cbn.
    by rewrite removelast_last. }
  wp_step. exists ex, (alter (fun e => set_heapIndex e (-1)) id en1).
  split_and!; [done|by rewrite erase_heapIndex| |].
  - rewrite <- (expiry_view_ids s). pose proof (Permutation_map fst Hp) as Hids.
    cbn in Hids. by rewrite Hid in Hids.
  - pose proof (heap_ok_NoDup _ Hok1) as Hnd. cbn in Hnd. split.
    + intros j id' Hj. cbn in *.
      destruct (Hok1 j id') as (e' & He' & Hjx); [cbn; by apply lookup_app_l_Some|]. cbn in He'.
      assert (id <> id').
      { intros <-. apply NoDup_app in Hnd as (_ & Hnd & _). apply (Hnd id); [|left].
        by eapply list_elem_of_lookup_2. }
      exists e'. by rewrite lookup_alter_ne.
    + enough (expiry_view (with_entries (with_expiry s ex) (alter (fun e => set_heapIndex e (-1)) id en1)) = l) as -> by done.
      unfold expiry_view in *. cbn in *. rewrite map_app in Hv1. apply app_inj_2 in Hv1 as [Hv1 _]; [|done].
      rewrite <- Hv1. apply map_ext. intros. apply expiry_key_erase. by rewrite erase_heapIndex.
Qed.

Lemma expiry_push_spec s id e :
  heap_fine s -> os_entries s !! id = Some e -> id ∉ os_expiry s ->
  wp (heap_Push (S := ownerState) id) (fun _ s' => exists ex en,
    s' = with_entries (with_expiry s ex) en /\ erase en = erase (os_entries s)
    /\ ex ≡ₚ id :: os_expiry s /\ heap_fine s') s.
Proof.
  intros [Hok Hord] He Hfresh.
  set (en1 := alter (fun e => set_heapIndex e (Z.of_nat (length (os_expiry s)))) id (os_entries s)).
  set (s1 := with_expiry (with_entries s en1) (os_expiry s ++ [id])).
  assert (Hen1 : erase en1 = erase (os_entries s)) by apply erase_heapIndex.
  eapply (heap_Push_spec (view := expiry_view) (ok := heap_ok) (frame := heap_frame)
            (lt := expiry_lt) s id (expiry_key (os_entries s) id) (fun _ s' => s' = s1)); [done|..].
  - exists tt, s1. split; [done|]. split_and!; [|done|].
    + intros j id' Hj. cbn in Hj. apply lookup_app_Some in Hj as [Hj|[Hle Hj]]; cbn.
      * destruct (Hok _ _ Hj) as (e' & He' & Hjx). exists e'. unfold en1.
        rewrite lookup_alter_ne; [done|]. intros <-. apply Hfresh.
        by eapply list_elem_of_lookup_2.
      * apply list_lookup_singleton_Some in Hj as [Hj <-]. unfold en1.
        rewrite lookup_alter_eq, He. cbn. eexists; split; [done|]. cbn. f_equal. lia.
    + unfold expiry_view; cbn. rewrite map_app; cbn. f_equal; [apply map_ext; intros|f_equal];
        by apply expiry_key_erase.
  - intros ? s2 -> (ex & en & -> & Hen) Hok2 Hp Hord2. exists ex, en.
    split_and!; [done|by rewrite Hen| |done].
    pose proof (Permutation_map fst Hp) as H. rewrite expiry_view_ids in H. cbn in H.
    rewrite expiry_view_ids in H. unfold expiry_key in H. by rewrite He in H.
Qed.

(** ** The invariant *)

Definition within_queue (c : Counters) (l : QueueLimits) : Prop :=
  QueuedCount c <= ql_Count l /\ QueuedBytes c <= ql_Bytes l /\ QueuedWork c <= ql_Work l.
Definition within_inflight (c : Counters) (l : InflightLimits) : Prop :=
  InflightCount c <= il_Count l /\ InflightWork c <= il_Work l.

(** What [validateAdmission] accepts. *)
Definition admissible (v : validatedConfig) (a : Admission) : Prop :=
  0 < a_BodyBytes a <= vc_maxBodyBytes v /\ 0 < a_WorkUnits a <= vc_maxRequestUnits v.

(** The cause that an entry's permit context carries. *)
Definition permit_cause (c : option cancelCause) : option permitCause :=
  match c with
  | None => None
  | Some cancelClient => Some errCanceledByClient
  | Some cancelShutdown => Some errCanceledByDrain
  end.

Definition dispatched_result (id ctx : Z) : acquireResult :=
  MkAcquireResult (Some (MkPermit id ctx)) (MkDecision DecisionDispatched ResourceNone).

(** The credit of a tenant: bounded between visits by what one request can
    leave over, and lost with the last queued request. *)
Definition credit_fine (maxUnits : Z) (t : tenantState) : Prop :=
  0 <= ts_deficit t <= maxUnits - 1 + vt_quantum (ts_config t)
  /\ (ts_visitOpen t = false -> ts_deficit t <= maxUnits - 1)
  /\ (ts_queue t = [] -> ts_deficit t = 0 /\ ts_visitOpen t = false).

Definition waiting (E : gmap Z entry) (id : Z) : Prop :=
  exists e, E !! id = Some e /\ e_phase e = Some accountingQueued.
Definition waiting_at (E : gmap Z entry) (i : nat) (id : Z) : Prop :=
  exists e, E !! id = Some e /\ e_phase e = Some accountingQueued /\ e_tenant e = i.
Definition serving (E : gmap Z entry) (id : Z) : Prop :=
  exists e, E !! id = Some e /\ e_phase e = Some accountingInflight.

Section invariant.
Context `{World}.

(** The owner saw the request alive, then before its deadline. *)
Definition seen_alive (ctx deadline : Z) : Prop :=
  exists k, w_err k ctx = false /\ w_now (S k) < deadline.

Definition phase_fine (x : external) (id : Z) (e : entry) : Prop :=
  match e_phase e with
  | Some accountingQueued =>
      e_state e = Some entryQueued /\ e_cancelCause e = None
      /\ x_results x !! id = None /\ x_causes x !! id = None
  | Some accountingInflight =>
      e_state e = Some entryInflight
      /\ x_results x !! id = Some (dispatched_result id (e_clientCtx e))
      /\ x_causes x !! id = permit_cause (e_cancelCause e)
      /\ seen_alive (e_clientCtx e) (e_deadline e)
  | None => False
  end.

Definition entry_fine (v : validatedConfig) (x : external) (id : Z) (e : entry) : Prop :=
  e_id e = id /\ admissible v (e_admission e)
  /\ vc_tenantByID v !! a_Tenant (e_admission e) = Some (e_tenant e)
  /\ phase_fine x id e.

Definition tenant_fine (v : validatedConfig) (E : gmap Z entry) (i : nat) (t : tenantState)
    : Prop :=
  vc_tenants v !! i = Some (ts_config t)
  /\ NoDup (ts_queue t) /\ (forall id, id ∈ ts_queue t <-> waiting_at E i id)
  /\ ts_counters t = tally (of_tenant i) E
  /\ within_queue (ts_counters t) (vt_queue (ts_config t))
  /\ within_inflight (ts_counters t) (vt_inflight (ts_config t))
  /\ credit_fine (vc_maxRequestUnits v) t.

Record core (s : ownerState) : Prop := {
  co_wf : wf_config (os_config s);
  co_len : length (os_tenants s) = length (vc_tenants (os_config s));
  co_entry : map_Forall (entry_fine (os_config s) (os_ext s)) (os_entries s);
  co_tenant : forall i t, os_tenants s !! i = Some t ->
    tenant_fine (os_config s) (os_entries s) i t;
  co_expiry : forall id, id ∈ os_expiry s <-> waiting (os_entries s) id;
  co_inflight : NoDup (os_inflight s) /\
    forall id, id ∈ os_inflight s <-> serving (os_entries s) id;
  co_global : os_global s = tally of_any (os_entries s);
  co_gqueue : within_queue (os_global s) (vc_globalQueue (os_config s));
  co_ginflight : within_inflight (os_global s) (vc_globalInflight (os_config s));
  co_cursor : (os_cursor s < length (os_tenants s))%nat;
  co_notified : x_drained (os_ext s) = os_drainNotified s;
  co_drained : os_drainNotified s = true -> os_accepting s = false /\ isDrained s = true;
}.

(** The invariant of the owner. *)
Definition Inv (s : ownerState) : Prop := core s /\ heap_fine s.

(** *** Heap indices and the order of the heap do not matter to [core] *)

Lemma erase_field {A} (f : entry -> A) E E' id :
  (forall e, f (set_heapIndex e 0) = f e) -> erase E' = erase E ->
  f <$> E' !! id = f <$> E !! id.
Proof.
  intros Hf Heq. destruct (E !! id) as [e|] eqn:He.
  - destruct (erase_inv E E' id e Heq He) as (e' & -> & Hs). cbn. by rewrite <- Hf, Hs, Hf.
  - destruct (E' !! id) as [e'|] eqn:He'; [|done].
    destruct (erase_inv E' E id e' (eq_sym Heq) He') as (e & ? & _). congruence.
Qed.

Lemma erase_tally P E E' :
  (forall e, P (set_heapIndex e 0) = P e) -> erase E' = erase E -> tally P E' = tally P E.
Proof.
  intros HP Heq. rewrite <- (tally_fmap P (fun e => set_heapIndex e 0) E).
  - rewrite <- (tally_fmap P (fun e => set_heapIndex e 0) E'); [by unfold erase in Heq; rewrite Heq|].
    intros e. unfold charge_if. by rewrite HP.
  - intros e. unfold charge_if. by rewrite HP.
Qed.

Lemma erase_waiting_at E E' i id : erase E' = erase E -> waiting_at E' i id -> waiting_at E i id.
Proof.
  intros Heq (e' & He' & Hp & Ht).
  destruct (erase_inv E' E id e' (eq_sym Heq) He') as (e & He & Hs).
  exists e. destruct e, e'; cbn in *. injection Hs. by intros; subst.
Qed.

Lemma erase_phase E E' id p : erase E' = erase E ->
  (exists e, E' !! id = Some e /\ e_phase e = Some p) ->
  exists e, E !! id = Some e /\ e_phase e = Some p.
Proof.
  intros Heq (e' & He' & Hp).
  destruct (erase_inv E' E id e' (eq_sym Heq) He') as (e & He & Hs).
  exists e. split; [done|]. destruct e, e'; cbn in *. injection Hs. by intros; subst.
Qed.

Lemma core_erase s ex en :
  core s -> erase en = erase (os_entries s) -> ex ≡ₚ os_expiry s ->
  core (with_entries (with_expiry s ex) en).
Proof.
  intros [] Hen Hex. split; cbn; try done.
  - intros id e He. destruct (erase_inv en (os_entries s) id e (eq_sym Hen) He) as (e0 & He0 & Hs).
    specialize (co_entry0 id e0 He0). unfold entry_fine, phase_fine in *.
    destruct e, e0; cbn in *. injection Hs. by intros; subst.
  - intros i t Ht. destruct (co_tenant0 i t Ht) as (H1 & H2 & H3 & H4 & H5 & H6 & H7).
    split_and!; try done.
    + intros id. rewrite H3. split; apply erase_waiting_at; [done|by symmetry].
    + rewrite H4. symmetry. by apply erase_tally.
  - intros id. rewrite Hex, co_expiry0. split; apply erase_phase; [done|by symmetry].
  - destruct co_inflight0 as [Hnd Hin]. split; [done|]. intros id. rewrite Hin.
    split; apply erase_phase; [done|by symmetry].
  - rewrite co_global0. symmetry. by apply erase_tally.
Qed.
End invariant.

(** ** Arithmetic of the counters *)

Lemma fits_spec current addition limit :
  is_u64 limit -> 0 <= current -> 0 <= addition ->
  fits current addition limit = bool_decide (current + addition <= limit).
Proof.
  unfold is_u64, fits. intros Hl Hc Ha. destruct (Z.leb_spec current limit); cbn.
  - rewrite u64_small by (unfold is_u64; lia). case_bool_decide; lia.
  - case_bool_decide; lia.
Qed.

(** Counters whose fields are all values of the machine type. *)
Definition counters_u64 (c : Counters) : Prop :=
  counters_le zeroCounters c /\ QueuedCount c < two64 /\ QueuedBytes c < two64 /\
  QueuedWork c < two64 /\ InflightCount c < two64 /\ InflightWork c < two64.

Lemma within_u64 c q l :
  counters_le zeroCounters c -> within_queue c q -> within_inflight c l ->
  typed_queue q -> typed_inflight l -> counters_u64 c.
Proof.
  unfold counters_u64, counters_le, within_queue, within_inflight, typed_queue, typed_inflight, is_u64.
  cbn. lia.
Qed.

Lemma removeQueued_counters_spec c a :
  counters_u64 c -> counters_le (charge_queued a) c -> fair_admission a ->
  removeQueued_counters c a = Some (counters_sub c (charge_queued a)).
Proof.
  unfold counters_u64, counters_le, removeQueued_counters, counters_sub, fair_admission. cbn.
  intros Hc Hle Ha. rewrite (proj2 (Z.eqb_neq _ 0)), !(proj2 (Z.ltb_ge _ _)) by lia. cbn.
  rewrite !u64_small by (unfold is_u64; lia). by rewrite !Z.sub_0_r.
Qed.

Lemma removeInflight_spec c a :
  counters_u64 c -> counters_le (charge_inflight a) c -> fair_admission a ->
  removeInflight c a = Some (counters_sub c (charge_inflight a)).
Proof.
  unfold counters_u64, counters_le, removeInflight, counters_sub, fair_admission. cbn.
  intros Hc Hle Ha. rewrite (proj2 (Z.eqb_neq _ 0)), !(proj2 (Z.ltb_ge _ _)) by lia. cbn.
  rewrite !u64_small by (unfold is_u64; lia). by rewrite !Z.sub_0_r.
Qed.

Lemma addQueued_spec c a l :
  counters_le zeroCounters c -> fair_admission a -> typed_queue l ->
  within_queue (counters_add (charge_queued a) c) l ->
  addQueued c a = counters_add (charge_queued a) c.
Proof.
  unfold counters_le, fair_admission, typed_queue, within_queue, addQueued, counters_add, is_u64. cbn.
  intros. rewrite !u64_small by (unfold is_u64; lia). counters_lia.
Qed.

Lemma addInflight_spec c a l :
  counters_le zeroCounters c -> fair_admission a -> typed_inflight l ->
  within_inflight (counters_add (charge_inflight a) c) l ->
  addInflight c a = counters_add (charge_inflight a) c.
Proof.
  unfold counters_le, fair_admission, typed_inflight, within_inflight, addInflight, counters_add, is_u64.
  cbn. intros. rewrite !u64_small by (unfold is_u64; lia). counters_lia.
Qed.

(** [queueLimitFailure] and [inflightFits] decide whether one more request
    stays within the limits. *)
Lemma queueLimitFailure_spec c a l :
  counters_le zeroCounters c -> fair_admission a -> typed_queue l ->
  queueLimitFailure c a l = ResourceNone <-> within_queue (counters_add (charge_queued a) c) l.
Proof.
  unfold counters_le, fair_admission, typed_queue, within_queue, queueLimitFailure. cbn.
  intros Hc Ha Hl. rewrite !fits_spec by (unfold is_u64 in *; lia).
  repeat case_bool_decide; cbn; (split; [try done; lia|intros; try done; lia]).
Qed.

Lemma inflightFits_spec c a l :
  counters_le zeroCounters c -> fair_admission a -> typed_inflight l ->
  inflightFits c a l = true <-> within_inflight (counters_add (charge_inflight a) c) l.
Proof.
  unfold counters_le, fair_admission, typed_inflight, within_inflight, inflightFits. cbn.
  intros Hc Ha Hl. rewrite !fits_spec by (unfold is_u64 in *; lia).
  repeat case_bool_decide; cbn; (split; [try done; lia|intros; try done; lia]).
Qed.
