(* ===== verification/AdmissionSteps.v ===== *)
(** * Admission: steps on one entry

    Removing a queued entry, and the three things that happen to one: it is
    resolved without a permit ([dismissed]), it is dispatched, or it is admitted
    in the first place.  Each is described by an exact final state, up to the
    heap's arrangement, and preserves [Inv]. *)

From S2P Require Import Prelude AdmissionConfig GoHeap AdmissionOwner AdmissionInv.

(** ** Rules for the accesses to the state *)

Lemma wp_get_entry id e (Q : entry -> ownerState -> Prop) s :
  os_entries s !! id = Some e -> Q e s -> wp (get_entry id) Q s.
Proof. intros He HQ. exists e, s. unfold get_entry. by rewrite He. Qed.

Lemma wp_get_tenant i t (Q : tenantState -> ownerState -> Prop) s :
  os_tenants s !! i = Some t -> Q t s -> wp (get_tenant i) Q s.
Proof. intros Ht HQ. exists t, s. unfold get_tenant. by rewrite Ht. Qed.

Lemma wp_resolve id permit d (Q : unit -> ownerState -> Prop) s :
  x_results (os_ext s) !! id = None ->
  Q tt (with_ext s (ext_results (os_ext s)
          (<[id := MkAcquireResult permit d]> (x_results (os_ext s))))) ->
  wp (resolve id permit d) Q s.
Proof. intros Hr HQ. eexists _, _. unfold resolve. by rewrite Hr. Qed.

Lemma wp_clock_Now `{World} (Q : Z -> ownerState -> Prop) s :
  Q (w_now (x_tick (os_ext s))) (with_ext s (ext_tick (os_ext s) (S (x_tick (os_ext s))))) ->
  wp clock_Now Q s.
Proof. intros HQ. by eexists _, _. Qed.

Lemma wp_ctx_Err `{World} c (Q : bool -> ownerState -> Prop) s :
  Q (w_err (x_tick (os_ext s)) c) (with_ext s (ext_tick (os_ext s) (S (x_tick (os_ext s))))) ->
  wp (ctx_Err c) Q s.
Proof. intros HQ. by eexists _, _. Qed.

(** Steps through an operation of the owner, up to the next one that needs a
    fact about the state or has a rule of its own. *)
Ltac o_step :=
  lazymatch goal with
  | |- wp (modify_tenant _ _) _ _ => apply wp_modify
  | |- wp (modify_entry _ _) _ _ => apply wp_modify
  | |- wp (delete_entry _) _ _ => apply wp_modify
  | |- wp (cancel_permit _ _) _ _ => apply wp_modify
  | |- wp (get_entry _) _ _ => eapply wp_get_entry; [eassumption|]
  | |- wp (get_tenant _) _ _ => eapply wp_get_tenant; [eassumption|]
  | |- wp clock_Now _ _ => apply wp_clock_Now
  | |- wp (ctx_Err _) _ _ => apply wp_ctx_Err
  | _ => wp_step
  end.
Ltac o_steps := repeat (o_step; cbn beta).

(** Two states are equal field by field. *)
Lemma ownerState_eq s s' :
  os_config s = os_config s' -> os_tenants s = os_tenants s' -> os_entries s = os_entries s' ->
  os_expiry s = os_expiry s' -> os_inflight s = os_inflight s' -> os_cursor s = os_cursor s' ->
  os_sequence s = os_sequence s' -> os_accepting s = os_accepting s' ->
  os_global s = os_global s' -> os_drainNotified s = os_drainNotified s' ->
  os_ext s = os_ext s' -> s = s'.
Proof. destruct s, s'; cbn. intros; subst. done. Qed.

(** Updates of a list at a known element. *)
Lemma list_alter_at {A} (f g : A -> A) i (l : list A) x :
  l !! i = Some x -> f x = g x -> alter f i l = alter g i l.
Proof.
  intros Hx Hfg. apply list_alter_ext; [|done]. intros y Hy. by simplify_eq.
Qed.

(** ** Exact effects *)

Definition tenant_dequeue (id : Z) (a : Admission) (t : tenantState) : tenantState :=
  let queue := list_Remove id (ts_queue t) in
  MkTenantState (ts_config t) queue
    (match queue with [] => 0 | _ :: _ => ts_deficit t end)
    (match queue with [] => false | _ :: _ => ts_visitOpen t end)
    (counters_sub (ts_counters t) (charge_queued a)).

(** The state after [removeQueued], given the heap's new arrangement. *)
Definition removed (s : ownerState) (id : Z) (e : entry) (ex : list Z) (en : gmap Z entry)
    : ownerState :=
  MkOwnerState (os_config s) (alter (tenant_dequeue id (e_admission e)) (e_tenant e) (os_tenants s))
    en ex (os_inflight s) (os_cursor s) (os_sequence s) (os_accepting s)
    (counters_sub (os_global s) (charge_queued (e_admission e))) (os_drainNotified s) (os_ext s).

(** The queued entry [id] is gone, with a decision for its client; the clock and
    contexts were read [ticks] times. *)
Definition dismissed (s : ownerState) (id : Z) (e : entry) (d : Decision) (ticks : nat)
    (ex : list Z) (en : gmap Z entry) : ownerState :=
  with_ext (removed s id e ex en)
    (ext_tick (ext_results (os_ext s) (<[id := MkAcquireResult None d]> (x_results (os_ext s))))
       (ticks + x_tick (os_ext s))).

Lemma heap_fine_ext s s' :
  heap_fine s -> os_expiry s' = os_expiry s ->
  (forall id e, id ∈ os_expiry s -> os_entries s !! id = Some e ->
    exists e', os_entries s' !! id = Some e' /\ e_heapIndex e' = e_heapIndex e
      /\ e_deadline e' = e_deadline e /\ e_sequence e' = e_sequence e) ->
  heap_fine s'.
Proof.
  intros [Hok Hord] Hex Hen.
  assert (Hkey : forall k id, os_expiry s !! k = Some id -> exists e e', os_entries s !! id = Some e
    /\ os_entries s' !! id = Some e' /\ e_heapIndex e = Z.of_nat k /\ e_heapIndex e' = e_heapIndex e
    /\ e_deadline e' = e_deadline e /\ e_sequence e' = e_sequence e).
  { intros k id Hk. destruct (Hok _ _ Hk) as (e & He & Hix). exists e.
    destruct (Hen id e) as (e' & He'); [by eapply list_elem_of_lookup_2|done|]. exists e'. tauto. }
  split.
  - intros k id Hk. rewrite Hex in Hk. destruct (Hkey _ _ Hk) as (e & e' & He & He' & H1 & H2 & _).
    exists e'. split; [done|congruence].
  - enough (expiry_view s' = expiry_view s) as -> by done.
    unfold expiry_view. rewrite Hex. change (map ?f) with (fmap (M := list) f).
    apply list_fmap_ext. intros k id Hk.
    destruct (Hkey _ _ Hk) as (e & e' & He & He' & _ & _ & H1 & H2).
    unfold expiry_key. by rewrite He, He', H1, H2.
Qed.

Lemma erase_heap_data E E' id e :
  erase E' = erase E -> E !! id = Some e -> exists e', E' !! id = Some e'
  /\ e_phase e' = e_phase e /\ e_admission e' = e_admission e /\ e_tenant e' = e_tenant e
  /\ e_deadline e' = e_deadline e /\ e_sequence e' = e_sequence e.
Proof.
  intros Heq He. destruct (erase_inv E E' id e Heq He) as (e' & He' & Hs). exists e'.
  destruct e, e'; cbn in *. injection Hs. intros; subst. done.
Qed.

Section steps.
Context `{World}.

(** *** What [Inv] says of one queued entry *)

Lemma admissible_fair v a : admissible v a -> fair_admission a.
Proof. unfold admissible, fair_admission. lia. Qed.

Lemma entries_fair s : core s -> map_Forall (fun _ e => fair_admission (e_admission e)) (os_entries s).
Proof. intros Hs id e He. destruct (co_entry _ Hs id e He) as (_ & Ha & _). by eapply admissible_fair. Qed.

Lemma entry_tenant s id e :
  core s -> os_entries s !! id = Some e ->
  exists t, os_tenants s !! e_tenant e = Some t.
Proof.
  intros Hs He. destruct (co_entry _ Hs id e He) as (_ & _ & Hid & _).
  apply wf_byID in Hid as (vt & Hvt & _); [|apply Hs]. apply lookup_lt_is_Some_2.
  rewrite (co_len _ Hs). by eapply lookup_lt_Some.
Qed.

Lemma tenant_limits s i t :
  core s -> os_tenants s !! i = Some t ->
  typed_queue (vt_queue (ts_config t)) /\ typed_inflight (vt_inflight (ts_config t))
  /\ counters_le zeroCounters (ts_counters t) /\ counters_u64 (ts_counters t).
Proof.
  intros Hs Ht. destruct (co_tenant _ Hs i t Ht) as (Hc & _ & _ & Htl & Hq & Hi & _).
  pose proof (co_wf _ Hs) as Hwf. destruct (wf_each _ Hwf i _ Hc) as (_ & _ & Hh & Hle & Hih & Hil & _).
  pose proof (wf_gqueue _ Hwf). pose proof (wf_ginflight _ Hwf). pose proof (wf_body _ Hwf).
  pose proof (wf_units _ Hwf).
  assert (Hnn : counters_le zeroCounters (ts_counters t)).
  { rewrite Htl. apply tally_nonneg. by apply entries_fair. }
  assert (typed_queue (vt_queue (ts_config t)) /\ typed_inflight (vt_inflight (ts_config t))) as [??].
  { unfold typed_queue, typed_inflight, queue_le, inflight_le, queue_holds, inflight_holds, is_u64 in *.
    lia. }
  split_and!; try done. by eapply within_u64.
Qed.

Lemma global_limits s :
  core s -> counters_le zeroCounters (os_global s) /\ counters_u64 (os_global s).
Proof.
  intros Hs. pose proof (co_wf _ Hs) as Hwf.
  assert (Hnn : counters_le zeroCounters (os_global s)).
  { rewrite (co_global _ Hs). apply tally_nonneg. by apply entries_fair. }
  split; [done|]. eapply within_u64; try apply Hs; [done|apply Hwf..].
Qed.

Lemma charge_tenant s id e t :
  core s -> os_entries s !! id = Some e -> os_tenants s !! e_tenant e = Some t ->
  counters_le (charge e) (ts_counters t) /\ counters_le (charge e) (os_global s).
Proof.
  intros Hs He Ht. destruct (co_tenant _ Hs _ _ Ht) as (_ & _ & _ & -> & _).
  rewrite (co_global _ Hs). pose proof (entries_fair s Hs).
  split; eapply tally_ge; try done. by apply bool_decide_eq_true.
Qed.

(** *** [removeQueued] *)

Lemma removeQueued_spec s id e :
  Inv s -> os_entries s !! id = Some e -> e_phase e = Some accountingQueued ->
  wp (removeQueued id) (fun _ s' => exists ex en, s' = removed s id e ex en
    /\ erase en = alter (fun e => set_phase e None) id (erase (os_entries s))
    /\ os_expiry s ≡ₚ id :: ex /\ heap_fine s') s.
Proof.
  intros [Hs Hh] He Hp. destruct (entry_tenant s id e Hs He) as [t Ht].
  destruct (tenant_limits s _ t Hs Ht) as (_ & _ & _ & Htu).
  destruct (global_limits s Hs) as [_ Hgu].
  destruct (charge_tenant s id e t Hs He Ht) as [Hct Hcg].
  unfold charge in Hct, Hcg. rewrite Hp in Hct, Hcg.
  assert (Hfair : fair_admission (e_admission e)) by exact (entries_fair s Hs id e He).
  unfold removeQueued. o_steps. wp_case; [congruence|]. o_steps.
  set (s1 := with_tenants s _).
  eapply wp_mono; [apply (expiry_remove_spec s1 id)|].
  { eapply heap_fine_ext; [exact Hh|done|]. intros id' e' _ He'. by exists e'. }
  { apply (co_expiry _ Hs). by exists e. }
  intros [] s2 (ex & en & -> & Hen & Hex & Hh2).
  o_step. eapply wp_get_tenant; [cbn; by rewrite list_lookup_alter_eq, Ht|].
  cbn [set_queue ts_counters]. rewrite (removeQueued_counters_spec _ _ Htu Hct Hfair). o_steps.
  cbn [os_global with_tenants with_entries with_expiry s1].
  rewrite (removeQueued_counters_spec _ _ Hgu Hcg Hfair). o_steps.
  eapply wp_get_tenant; [cbn; by rewrite !list_lookup_alter_eq, Ht|].
  cbn [set_queue set_counters ts_queue].
  set (en' := alter (fun e => set_phase e None) id en).
  assert (Hfin : forall s', os_expiry s' = ex -> os_entries s' = en' -> heap_fine s').
  { intros s' Hx Hn. eapply heap_fine_ext; [exact Hh2|done|]. rewrite Hn. unfold en'. cbn.
    intros id' e' _ He'. destruct (decide (id = id')) as [<-|].
    - rewrite lookup_alter_eq, He'. eexists; split; [done|]. done.
    - rewrite lookup_alter_ne by done. eauto. }
  assert (Hen' : erase en' = alter (fun e => set_phase e None) id (erase (os_entries s))).
  { unfold en'. rewrite erase_alter by done. by rewrite Hen. }
  destruct (list_Remove id (ts_queue t)) as [|x l] eqn:Hq; o_steps;
    exists ex, en'; (split; [|split_and!; [done|done|by apply Hfin]]);
    unfold removed; cbn; unfold with_tenants, with_global, with_entries; cbn; f_equal;
    rewrite ?list_alter_alter_eq; eapply list_alter_at; (done || unfold tenant_dequeue; cbn; by rewrite Hq).
Qed.

(** *** A queued entry leaves *)

Lemma elem_of_list_Remove id id' l : id' ∈ list_Remove id l <-> id' <> id /\ id' ∈ l.
Proof. unfold list_Remove. by rewrite list_elem_of_filter. Qed.

Lemma waiting_at_delete E id i id' :
  waiting_at (delete id E) i id' <-> id' <> id /\ waiting_at E i id'.
Proof.
  unfold waiting_at. setoid_rewrite lookup_delete_Some. split.
  - intros (e & [? ?] & ?). split; [congruence|eauto].
  - intros (? & e & ? & ?). exists e. split_and!; try tauto. congruence.
Qed.

Lemma phase_delete (E : gmap Z entry) (id : Z) p id' :
  (exists e, delete id E !! id' = Some e /\ e_phase e = Some p)
  <-> id' <> id /\ exists e, E !! id' = Some e /\ e_phase e = Some p.
Proof.
  setoid_rewrite lookup_delete_Some. split.
  - intros (e & [? ?] & ?). split; [congruence|eauto].
  - intros (? & e & ? & ?). exists e. split_and!; try tauto. congruence.
Qed.

Lemma tally_deleted P (E : gmap Z entry) (id : Z) e :
  E !! id = Some e -> tally P (delete id E) = counters_sub (tally P E) (charge_if P e).
Proof. intros He. by rewrite (tally_delete P E id e He), counters_add_sub. Qed.

(** Another entry is as fine when the external state agrees on its id. *)
Lemma entry_fine_ext v x x' id e :
  x_results x' !! id = x_results x !! id -> x_causes x' !! id = x_causes x !! id ->
  entry_fine v x id e -> entry_fine v x' id e.
Proof. unfold entry_fine, phase_fine. by intros -> ->. Qed.

Lemma within_sub c a l l' :
  fair_admission a -> within_queue c l -> within_inflight c l' ->
  within_queue (counters_sub c (charge_queued a)) l
  /\ within_inflight (counters_sub c (charge_queued a)) l'.
Proof. unfold fair_admission, within_queue, within_inflight. cbn. lia. Qed.

Lemma credit_dequeue m id a t :
  0 < m -> 0 < vt_quantum (ts_config t) -> credit_fine m t -> credit_fine m (tenant_dequeue id a t).
Proof.
  unfold credit_fine, tenant_dequeue. cbn. destruct (list_Remove id (ts_queue t)) eqn:Hq; cbn.
  - intros. split_and!; try done; lia.
  - intros Hm Hqu (H1 & H2 & H3). split_and!; try done; lia.
Qed.

(** What leaves the tenants fine: each loses [id] from its queue, and the
    entry's own tenant its charge. *)
Lemma tenants_dequeue s id e E' :
  core s -> os_entries s !! id = Some e -> e_phase e = Some accountingQueued ->
  (forall i id', waiting_at E' i id' <-> id' <> id /\ waiting_at (os_entries s) i id') ->
  (forall i, tally (of_tenant i) E'
             = counters_sub (tally (of_tenant i) (os_entries s)) (charge_if (of_tenant i) e)) ->
  forall i t, alter (tenant_dequeue id (e_admission e)) (e_tenant e) (os_tenants s) !! i = Some t ->
    tenant_fine (os_config s) E' i t.
Proof.
  intros Hs He Hp Hw Hta i t Ht. pose proof (entries_fair s Hs id e He) as Hfair.
  pose proof (co_wf _ Hs) as Hwf.
  rewrite list_lookup_alter in Ht. case_decide as Hi.
  - subst i. apply fmap_Some in Ht as (t0 & Ht0 & ->).
    destruct (co_tenant _ Hs _ _ Ht0) as (H1 & H2 & H3 & H4 & H5 & H6 & H7).
    destruct (wf_each _ Hwf _ _ H1) as (Hq & _). pose proof (wf_units _ Hwf).
    destruct (within_sub _ (e_admission e) _ _ Hfair H5 H6).
    split_and!; cbn; try done.
    + by apply NoDup_filter.
    + intros id'. by rewrite elem_of_list_Remove, Hw, H3.
    + rewrite Hta, <- H4. unfold charge_if, of_tenant, charge. rewrite Hp.
      by rewrite bool_decide_true.
    + apply credit_dequeue; [lia|done..].
  - destruct (co_tenant _ Hs _ _ Ht) as (H1 & H2 & H3 & H4 & H5 & H6 & H7).
    split_and!; try done.
    + intros id'. rewrite Hw, H3. split; [|tauto]. intros Hin. split; [|done].
      intros ->. destruct Hin as (e' & He' & _ & Ht'). simplify_eq.
    + rewrite Hta, <- H4. unfold charge_if, of_tenant. rewrite bool_decide_false by done.
      counters_lia.
Qed.

Lemma core_departed s id e ex :
  core s -> os_entries s !! id = Some e -> e_phase e = Some accountingQueued ->
  NoDup (os_expiry s) -> os_expiry s ≡ₚ id :: ex ->
  core (removed s id e ex (delete id (os_entries s))).
Proof.
  intros Hs He Hp Hnd Hex. pose proof (entries_fair s Hs id e He) as Hfair.
  pose proof (co_global _ Hs) as Hg.
  destruct (within_sub _ (e_admission e) _ _ Hfair (co_gqueue _ Hs) (co_ginflight _ Hs)).
  split; cbn; try apply Hs; try done.
  - rewrite length_alter. apply Hs.
  - intros id' e' He'. apply lookup_delete_Some in He' as [Hne He'].
    by apply (co_entry _ Hs).
  - eapply tenants_dequeue; try done; intros.
    + apply waiting_at_delete.
    + by apply tally_deleted.
  - intros id'. unfold waiting. rewrite phase_delete. fold (waiting (os_entries s) id').
    rewrite <- (co_expiry _ Hs), Hex. rewrite Hex in Hnd. apply NoDup_cons in Hnd as [Hnd _].
    rewrite elem_of_cons. split; [|tauto]. intros Hin. split; [|by right]. by intros ->.
  - destruct (co_inflight _ Hs) as [Hni Hin]. split; [done|]. intros id'.
    unfold serving. rewrite phase_delete. fold (serving (os_entries s) id'). rewrite <- Hin.
    split; [|tauto]. intros Hi. split; [|done]. intros ->.
    apply Hin in Hi as (e' & He' & Hp'). by simplify_eq.
  - rewrite (tally_deleted _ _ _ _ He), Hg. unfold charge_if, charge. by rewrite Hp.
  - rewrite length_alter. apply Hs.
  - intros Hn. destruct (co_drained _ Hs Hn) as [Hacc Hd]. split; [done|].
    unfold isDrained in *. cbn. breflect.
    pose proof (tally_ge of_any _ id e (entries_fair s Hs) He eq_refl) as Hge.
    rewrite <- Hg in Hge. unfold charge, counters_le in Hge. rewrite Hp in Hge. cbn in Hge. lia.
Qed.

Lemma heap_fine_same s s' :
  os_expiry s' = os_expiry s -> os_entries s' = os_entries s -> heap_fine s -> heap_fine s'.
Proof. intros H1 H2 H3. eapply heap_fine_ext; [done..|]. rewrite H2. eauto. Qed.

(** The external state may change where no entry looks. *)
Lemma Inv_ext s x :
  Inv s -> x_drained x = x_drained (os_ext s) ->
  (forall id, is_Some (os_entries s !! id) -> x_results x !! id = x_results (os_ext s) !! id
    /\ x_causes x !! id = x_causes (os_ext s) !! id) ->
  Inv (with_ext s x).
Proof.
  intros [Hs Hh] Hd Hx. split; [|by eapply heap_fine_same].
  split; cbn; try apply Hs.
  - intros id e He. destruct (Hx id) as [Hr Hc]; [eauto|].
    eapply entry_fine_ext; [done|done|]. by apply (co_entry _ Hs).
  - rewrite Hd. apply Hs.
Qed.

Lemma Inv_entries s en :
  Inv s -> erase en = erase (os_entries s) -> heap_fine (with_entries s en) -> Inv (with_entries s en).
Proof.
  intros [Hs _] Hen Hh. split; [|done].
  by apply (core_erase s (os_expiry s) en) in Hs.
Qed.

Lemma departed_inv s id e ex en :
  Inv s -> os_entries s !! id = Some e -> e_phase e = Some accountingQueued ->
  erase en = alter (fun e => set_phase e None) id (erase (os_entries s)) ->
  os_expiry s ≡ₚ id :: ex -> heap_fine (removed s id e ex en) ->
  Inv (removed s id e ex (delete id en)).
Proof.
  intros [Hs Hh] He Hp Hen Hex Hh'. pose proof (heap_ok_NoDup _ (proj1 Hh)) as Hnd. split.
  - change (removed s id e ex (delete id en)) with
      (with_entries (with_expiry (removed s id e ex (delete id (os_entries s))) ex)
         (delete id en)).
    apply core_erase; [by apply core_departed| |done].
    cbn. rewrite !erase_delete, Hen. apply map_eq. intros id'.
    destruct (decide (id = id')) as [<-|]; [by rewrite !lookup_delete_eq|].
    by rewrite !lookup_delete_ne, lookup_alter_ne.
  - eapply heap_fine_ext; [exact Hh'|done|]. cbn. intros id' e' Hin He'.
    exists e'. split; [|done]. rewrite Hex in Hnd. apply NoDup_cons in Hnd as [Hnd _].
    rewrite lookup_delete_ne; [done|]. by intros ->.
Qed.

(** The two calls that every departure of a queued entry starts with. *)
Lemma wp_leave {A} (k : Owner A) Q s id e :
  Inv s -> os_entries s !! id = Some e -> e_phase e = Some accountingQueued ->
  (forall ex en, erase en = delete id (erase (os_entries s)) ->
    os_expiry s ≡ₚ id :: ex -> Inv (removed s id e ex en) -> wp k Q (removed s id e ex en)) ->
  wp (removeQueued id;; delete_entry id;; k) Q s.
Proof.
  intros HI He Hp Hk. eapply wp_bind_mono; [by eapply removeQueued_spec|].
  intros [] s' (ex & en & -> & Hen & Hex & Hh). o_steps.
  apply (Hk ex (delete id en)); [|done|by apply departed_inv].
  rewrite erase_delete, Hen. apply map_eq. intros id'.
  destruct (decide (id = id')) as [<-|]; [by rewrite !lookup_delete_eq|].
  by rewrite !lookup_delete_ne, lookup_alter_ne.
Qed.

(** A result for an id that has no entry. *)
Lemma dismissed_inv s id e d ticks ex en :
  Inv (removed s id e ex en) -> en !! id = None -> Inv (dismissed s id e d ticks ex en).
Proof.
  intros HI Hen. apply Inv_ext; [done|done|]. intros id' [e' He']. cbn in *. split; [|done].
  rewrite lookup_insert_ne; [done|]. congruence.
Qed.
End steps.

(** ** What the owner's operations leave alone *)

(** The part of an entry that is settled when it is admitted. *)
Definition same_request (e e' : entry) : Prop :=
  e_id e' = e_id e /\ e_sequence e' = e_sequence e /\ e_admission e' = e_admission e
  /\ e_clientCtx e' = e_clientCtx e /\ e_deadline e' = e_deadline e
  /\ e_deadlineSource e' = e_deadlineSource e /\ e_tenant e' = e_tenant e.

(** No entry appears; one in flight stays so; a queued one stays queued, goes
    in flight or is resolved; no result is lost and no permit canceled; queues shrink as [R]
    says. *)
Record evolves (R : relation (list Z)) (s s' : ownerState) : Prop := {
  ev_config : os_config s' = os_config s;
  ev_flags : os_accepting s' = os_accepting s /\ os_drainNotified s' = os_drainNotified s
    /\ x_drained (os_ext s') = x_drained (os_ext s) /\ x_done (os_ext s') = x_done (os_ext s)
    /\ os_sequence s' = os_sequence s;
  ev_results : x_results (os_ext s) ⊆ x_results (os_ext s');
  ev_causes : x_causes (os_ext s') = x_causes (os_ext s);
  ev_known : forall id, is_Some (x_results (os_ext s') !! id) ->
    is_Some (x_results (os_ext s) !! id) \/ waiting (os_entries s) id;
  ev_tick : (x_tick (os_ext s) <= x_tick (os_ext s'))%nat;
  ev_queue : forall i t', os_tenants s' !! i = Some t' -> exists t, os_tenants s !! i = Some t
    /\ ts_config t' = ts_config t /\ R (ts_queue t') (ts_queue t);
  ev_entry : forall id e', os_entries s' !! id = Some e' ->
    exists e, os_entries s !! id = Some e /\ same_request e e';
  ev_phase : forall id e e', os_entries s !! id = Some e -> os_entries s' !! id = Some e' ->
    e_phase e' = e_phase e \/ e_phase e' = Some accountingInflight;
  ev_serving : forall id, serving (os_entries s) id -> serving (os_entries s') id;
  ev_waiting : forall id, waiting (os_entries s) id ->
    waiting (os_entries s') id \/ is_Some (x_results (os_ext s') !! id);
}.

Lemma same_request_refl e : same_request e e.
Proof. done. Qed.

Lemma same_request_trans e1 e2 e3 : same_request e1 e2 -> same_request e2 e3 -> same_request e1 e3.
Proof. unfold same_request. intuition congruence. Qed.

Lemma same_request_erase E E' id e' :
  erase E' = erase E -> E' !! id = Some e' ->
  exists e, E !! id = Some e /\ same_request e e'.
Proof.
  intros Heq He'. destruct (erase_inv E' E id e' (eq_sym Heq) He') as (e & He & Hs).
  exists e. split; [done|]. destruct e, e'. injection Hs. intros; subst. done.
Qed.

#[export] Instance evolves_preorder R : PreOrder R -> PreOrder (evolves R).
Proof.
  intros HR. split.
  - intros s. split; try done; eauto using same_request_refl.
    + intros i t Ht. exists t. split_and!; [done|done|reflexivity].
    + intros id e e' ??. simplify_eq. by left.
  - intros s1 s2 s3 [] []. split; try (etrans; eassumption); try congruence.
    + intuition congruence.
    + intros id Hr. destruct (ev_known1 id Hr) as [Hr2|Hw]; [auto|].
      right. destruct Hw as (e2 & He2 & Hp2).
      destruct (ev_entry0 _ _ He2) as (e1 & He1 & Hs1). exists e1. split; [done|].
      destruct (ev_phase0 id e1 e2 He1 He2) as [Hp|Hp]; congruence.
    + intros i t' Ht'. destruct (ev_queue1 _ _ Ht') as (t2 & Ht2 & Hc2 & HR2).
      destruct (ev_queue0 _ _ Ht2) as (t1 & Ht1 & Hc1 & HR1). exists t1.
      split_and!; [done|congruence|by etrans].
    + intros id e' He'. destruct (ev_entry1 _ _ He') as (e2 & He2 & Hs2).
      destruct (ev_entry0 _ _ He2) as (e1 & He1 & Hs1). exists e1. split; [done|].
      by eapply same_request_trans.
    + intros id e1 e3 He1 He3. destruct (ev_entry1 _ _ He3) as (e2 & He2 & _).
      destruct (ev_phase1 _ _ _ He2 He3) as [Hp|Hp]; [|by right].
      rewrite Hp. eauto.
    + auto.
    + intros id Hw. destruct (ev_waiting0 id Hw) as [Hw2|Hr].
      * auto.
      * right. destruct Hr as [r Hr]. exists r. by eapply lookup_weaken.
Qed.
