(* ===== verification/AdmissionArrive.v ===== *)
(** * Admission: entries join and leave

    First, the two steps that add an entry to the books of a state in which its id
    has no entry: into a queue, or in flight.  Then the departures from the queues:
    [cancelHead], [expire], [expireReady] and [dispatch] run without a panic, keep
    the invariant, and change nothing but what they are about. *)

From S2P Require Import Prelude AdmissionConfig GoHeap AdmissionOwner AdmissionInv AdmissionSteps.

Definition tenant_enqueue (id : Z) (a : Admission) (t : tenantState) : tenantState :=
  set_counters (set_queue t (ts_queue t ++ [id])) (counters_add (charge_queued a) (ts_counters t)).

Definition tenant_serve (a : Admission) (t : tenantState) : tenantState :=
  set_counters t (counters_add (charge_inflight a) (ts_counters t)).

Definition enqueued (s : ownerState) (id : Z) (e : entry) (ex : list Z) (en : gmap Z entry)
    (sequence : Z) : ownerState :=
  MkOwnerState (os_config s) (alter (tenant_enqueue id (e_admission e)) (e_tenant e) (os_tenants s))
    en ex (os_inflight s) (os_cursor s) sequence (os_accepting s)
    (counters_add (charge_queued (e_admission e)) (os_global s)) (os_drainNotified s) (os_ext s).

Definition started (s : ownerState) (id : Z) (e : entry) (en : gmap Z entry) (x : external)
    : ownerState :=
  MkOwnerState (os_config s) (alter (tenant_serve (e_admission e)) (e_tenant e) (os_tenants s))
    en (os_expiry s) (os_inflight s ++ [id]) (os_cursor s) (os_sequence s) (os_accepting s)
    (counters_add (charge_inflight (e_admission e)) (os_global s)) (os_drainNotified s) x.

Section arrive.
Context `{World}.

Lemma phase_insert (E : gmap Z entry) (id : Z) e p id' :
  E !! id = None ->
  (exists e', <[id := e]> E !! id' = Some e' /\ e_phase e' = Some p)
  <-> (id' = id /\ e_phase e = Some p) \/ (exists e', E !! id' = Some e' /\ e_phase e' = Some p).
Proof.
  intros Hid. destruct (decide (id = id')) as [<-|Hne].
  - rewrite lookup_insert_eq, Hid. split.
    + intros (e' & ? & ?). simplify_eq. by left.
    + intros [[_ ?]|(e' & ? & _)]; [eauto|done].
  - rewrite lookup_insert_ne by done. split; [by right|]. by intros [[-> _]|?].
Qed.

Lemma waiting_at_insert (E : gmap Z entry) (id : Z) e i id' :
  E !! id = None ->
  waiting_at (<[id := e]> E) i id'
  <-> (id' = id /\ e_phase e = Some accountingQueued /\ e_tenant e = i) \/ waiting_at E i id'.
Proof.
  unfold waiting_at. intros Hid. destruct (decide (id = id')) as [<-|Hne].
  - rewrite lookup_insert_eq, Hid. split.
    + intros (e' & ? & ?). simplify_eq. by left.
    + intros [[_ ?]|(e' & ? & _)]; [eauto|done].
  - rewrite lookup_insert_ne by done. split; [by right|]. by intros [[-> _]|?].
Qed.

Lemma not_waiting_at (E : gmap Z entry) i id : E !! id = None -> ~ waiting_at E i id.
Proof. intros Hid (e & He & _). congruence. Qed.

Lemma not_in_phase (E : gmap Z entry) (id : Z) p :
  E !! id = None -> ~ exists e, E !! id = Some e /\ e_phase e = Some p.
Proof. intros Hid (e & He & _). congruence. Qed.

Lemma fine_insert v x x' (E : gmap Z entry) (id : Z) e :
  map_Forall (entry_fine v x) E -> E !! id = None -> entry_fine v x' id e ->
  (forall id', id' <> id -> x_results x' !! id' = x_results x !! id'
                            /\ x_causes x' !! id' = x_causes x !! id') ->
  map_Forall (entry_fine v x') (<[id := e]> E).
Proof.
  intros HE Hid He Hx. apply map_Forall_insert; [done|]. split; [done|].
  intros id' e' He'. destruct (Hx id') as [??]; [congruence|].
  eapply entry_fine_ext; [done|done|]. by apply HE.
Qed.

(** A queued entry joins. *)
Lemma core_enqueued s id e ex q :
  core s -> os_entries s !! id = None -> entry_fine (os_config s) (os_ext s) id e ->
  e_phase e = Some accountingQueued -> ex ≡ₚ id :: os_expiry s -> os_accepting s = true ->
  (forall t, os_tenants s !! e_tenant e = Some t ->
    within_queue (counters_add (charge_queued (e_admission e)) (ts_counters t))
      (vt_queue (ts_config t))) ->
  within_queue (counters_add (charge_queued (e_admission e)) (os_global s))
    (vc_globalQueue (os_config s)) ->
  core (enqueued s id e ex (<[id := e]> (os_entries s)) q).
Proof.
  intros Hs Hid He Hp Hex Hacc Hroom Hgroom.
  split; cbn; try apply Hs; try done.
  - rewrite length_alter. apply Hs.
  - eapply fine_insert; try done. apply Hs.
  - intros i t Ht. rewrite list_lookup_alter in Ht. case_decide as Hi.
    + subst i. apply fmap_Some in Ht as (t0 & Ht0 & ->).
      destruct (co_tenant _ Hs _ _ Ht0) as (H1 & H2 & H3 & H4 & H5 & H6 & H7).
      specialize (Hroom _ Ht0). unfold tenant_enqueue.
      split_and!; cbn [ts_config ts_queue ts_counters set_counters set_queue]; try done.
      * apply NoDup_app. split_and!; [done| |apply NoDup_singleton].
        intros id' Hin Hs'. apply list_elem_of_singleton in Hs' as ->.
        apply H3 in Hin. by apply not_waiting_at in Hin.
      * intros id'. rewrite elem_of_app, list_elem_of_singleton, waiting_at_insert, H3 by done.
        intuition.
      * rewrite tally_insert, <- H4 by done. unfold charge_if, of_tenant, charge.
        by rewrite bool_decide_true, Hp.
      * unfold credit_fine in *. cbn in *. split_and!; try tauto.
        intros Habs. by apply app_eq_nil in Habs as [_ ?].
    + destruct (co_tenant _ Hs _ _ Ht) as (H1 & H2 & H3 & H4 & H5 & H6 & H7).
      split_and!; try done.
      * intros id'. rewrite waiting_at_insert, H3 by done. intuition.
      * rewrite tally_insert, <- H4 by done. unfold charge_if, of_tenant.
        rewrite bool_decide_false by done. by rewrite counters_add_0.
  - intros id'. unfold waiting. rewrite phase_insert, Hex, elem_of_cons by done.
    rewrite (co_expiry _ Hs). unfold waiting. intuition.
  - destruct (co_inflight _ Hs) as [Hni Hin]. split; [done|]. intros id'.
    unfold serving. rewrite phase_insert, Hin, Hp by done. unfold serving.
    split; [by right|]. by intros [[_ ?]|?].
  - rewrite tally_insert, (co_global _ Hs) by done. unfold charge_if, charge. by rewrite Hp.
  - rewrite length_alter. apply Hs.
  - intros Hn. destruct (co_drained _ Hs Hn). congruence.
Qed.

(** An entry goes in flight. *)
Lemma core_started s id e x :
  core s -> os_entries s !! id = None -> entry_fine (os_config s) x id e ->
  e_phase e = Some accountingInflight -> os_drainNotified s = false ->
  x_drained x = x_drained (os_ext s) ->
  (forall id', id' <> id -> x_results x !! id' = x_results (os_ext s) !! id'
                            /\ x_causes x !! id' = x_causes (os_ext s) !! id') ->
  (forall t, os_tenants s !! e_tenant e = Some t ->
    within_inflight (counters_add (charge_inflight (e_admission e)) (ts_counters t))
      (vt_inflight (ts_config t))) ->
  within_inflight (counters_add (charge_inflight (e_admission e)) (os_global s))
    (vc_globalInflight (os_config s)) ->
  core (started s id e (<[id := e]> (os_entries s)) x).
Proof.
  intros Hs Hid He Hp Hnd Hxd Hx Hroom Hgroom.
  split; cbn; try apply Hs; try done.
  - rewrite length_alter. apply Hs.
  - eapply fine_insert; try done. apply Hs.
  - intros i t Ht. rewrite list_lookup_alter in Ht. case_decide as Hi.
    + subst i. apply fmap_Some in Ht as (t0 & Ht0 & ->).
      destruct (co_tenant _ Hs _ _ Ht0) as (H1 & H2 & H3 & H4 & H5 & H6 & H7).
      specialize (Hroom _ Ht0). unfold tenant_serve.
      split_and!; cbn [ts_config ts_queue ts_counters set_counters set_queue]; try done.
      * intros id'. rewrite waiting_at_insert, H3 by done. intuition congruence.
      * rewrite tally_insert, <- H4 by done. unfold charge_if, of_tenant, charge.
        by rewrite bool_decide_true, Hp.
    + destruct (co_tenant _ Hs _ _ Ht) as (H1 & H2 & H3 & H4 & H5 & H6 & H7).
      split_and!; try done.
      * intros id'. rewrite waiting_at_insert, H3 by done. intuition congruence.
      * rewrite tally_insert, <- H4 by done. unfold charge_if, of_tenant.
        rewrite bool_decide_false by done. by rewrite counters_add_0.
  - intros id'. unfold waiting. rewrite phase_insert, (co_expiry _ Hs), Hp by done.
    unfold waiting. split; [by right|]. by intros [[_ ?]|?].
  - destruct (co_inflight _ Hs) as [Hni Hin]. split.
    + apply NoDup_app. split_and!; [done| |apply NoDup_singleton].
      intros id' Hi Hs'. apply list_elem_of_singleton in Hs' as ->.
      apply Hin in Hi. by apply not_in_phase in Hi.
    + intros id'. unfold serving. rewrite phase_insert, elem_of_app, list_elem_of_singleton, Hin by done.
      unfold serving. intuition.
  - rewrite tally_insert, (co_global _ Hs) by done. unfold charge_if, charge. by rewrite Hp.
  - rewrite length_alter. apply Hs.
  - rewrite Hxd. apply Hs.
  - congruence.
Qed.
End arrive.

(** * Admission: departures from the queues *)

(** Orders by which queues may shrink: [R] relates a queue to a longer one. *)
Class QueueOrder (R : relation (list Z)) : Prop := { qo_preorder :: PreOrder R }.

#[export] Instance sublist_order : QueueOrder sublist.
Proof. split. apply _. Qed.
#[export] Instance suffix_order : QueueOrder suffix.
Proof. split. apply _. Qed.

Lemma list_Remove_sublist id l : list_Remove id l `sublist_of` l.
Proof. apply sublist_filter. Qed.

Lemma list_Remove_absent id l : id ∉ l -> list_Remove id l = l.
Proof.
  unfold list_Remove. induction l as [|x l IH]; intros Hid; [done|].
  rewrite elem_of_cons in Hid. rewrite filter_cons_True by (intros ->; tauto).
  f_equal. apply IH. tauto.
Qed.

Lemma list_Remove_head id l : NoDup (id :: l) -> list_Remove id (id :: l) = l.
Proof.
  intros Hnd. apply NoDup_cons in Hnd as [Hid _].
  rewrite <- (list_Remove_absent id l) at 2 by done. unfold list_Remove.
  by rewrite filter_cons_False by tauto.
Qed.

Lemma list_Remove_head_suffix id l : NoDup (id :: l) -> list_Remove id (id :: l) `suffix_of` id :: l.
Proof. intros Hnd. rewrite list_Remove_head by done. by exists [id]. Qed.

(** The entry [id], queued in [s], has been resolved without a permit. *)
Definition leaves (s : ownerState) (id : Z) (e : entry) (d : Decision) (s' : ownerState) : Prop :=
  exists ticks ex en, s' = dismissed s id e d ticks ex en
    /\ erase en = delete id (erase (os_entries s)) /\ os_expiry s ≡ₚ id :: ex.

Section departures.
Context `{World}.

Lemma delete_None en E id : erase en = delete id (erase E) -> en !! id = None.
Proof.
  intros Hen. destruct (en !! id) as [e|] eqn:He; [|done].
  assert (Hl : erase en !! id = Some (set_heapIndex e 0)) by (apply erase_lookup; eauto).
  by rewrite Hen, lookup_delete_eq in Hl.
Qed.

Lemma delete_lookup en E id id' e' :
  erase en = delete id (erase E) -> en !! id' = Some e' ->
  id' <> id /\ exists e, E !! id' = Some e /\ same_request e e' /\ e_phase e' = e_phase e.
Proof.
  intros Hen He'.
  assert (Hl : erase en !! id' = Some (set_heapIndex e' 0)) by (apply erase_lookup; eauto).
  rewrite Hen in Hl. apply lookup_delete_Some in Hl as [Hne Hl].
  apply erase_lookup in Hl as (e & He & Hs). split; [done|]. exists e. split; [done|].
  destruct e, e'. injection Hs. intros; subst. done.
Qed.

Lemma delete_lookup_other en E id id' e :
  erase en = delete id (erase E) -> id' <> id -> E !! id' = Some e ->
  exists e', en !! id' = Some e' /\ e_phase e' = e_phase e.
Proof.
  intros Hen Hne He.
  assert (Hl : erase en !! id' = Some (set_heapIndex e 0)).
  { rewrite Hen, lookup_delete_ne by done. apply erase_lookup. eauto. }
  apply erase_lookup in Hl as (e' & He' & Hs). exists e'. split; [done|].
  destruct e, e'. by injection Hs.
Qed.

Lemma leaves_evolves R `{!QueueOrder R} s id e d s' :
  Inv s -> os_entries s !! id = Some e -> e_phase e = Some accountingQueued ->
  (forall t, os_tenants s !! e_tenant e = Some t -> R (list_Remove id (ts_queue t)) (ts_queue t)) ->
  leaves s id e d s' -> evolves R s s'.
Proof.
  intros [Hs Hh] He Hp HR (ticks & ex & en & -> & Hen & _).
  destruct (co_entry _ Hs id e He) as (_ & _ & _ & Hph). unfold phase_fine in Hph.
  rewrite Hp in Hph. destruct Hph as (_ & _ & Hr & _).
  assert (Hw : waiting (os_entries s) id) by (exists e; done).
  split; cbn; try done.
  - by apply insert_subseteq.
  - intros id'. rewrite lookup_insert. case_decide; [subst; auto|auto].
  - lia.
  - intros i t'. rewrite list_lookup_alter. case_decide as Hi.
    + subst i. intros (t & Ht & ->)%fmap_Some. exists t. split_and!; [done|done|by apply HR].
    + intros Ht'. exists t'. split_and!; [done|done|reflexivity].
  - intros id' e' He'. destruct (delete_lookup _ _ _ _ _ Hen He') as (_ & e0 & ? & ? & _). eauto.
  - intros id' e0 e' He0 He'. destruct (delete_lookup _ _ _ _ _ Hen He') as (_ & e1 & ? & _ & ?).
    simplify_eq. by left.
  - intros id' (e' & He' & Hp'). destruct (decide (id' = id)) as [->|Hne]; [congruence|].
    destruct (delete_lookup_other _ _ _ _ _ Hen Hne He') as (e2 & ? & ?). exists e2. split; [done|congruence].
  - intros id' (e' & He' & Hp'). rewrite lookup_insert.
    case_decide as Heq; [right; eauto|left].
    destruct (delete_lookup_other _ _ _ id' _ Hen ltac:(congruence) He') as (e2 & ? & ?).
    exists e2. split; [done|congruence].
Qed.

Lemma leaves_queue s id e d s' t :
  leaves s id e d s' -> os_tenants s !! e_tenant e = Some t ->
  os_tenants s' !! e_tenant e = Some (tenant_dequeue id (e_admission e) t).
Proof.
  intros (ticks & ex & en & -> & _) Ht. cbn. by rewrite list_lookup_alter_eq, Ht.
Qed.

(** *** [cancelHead] and [expire] *)

Lemma cancelHead_spec s id e :
  Inv s -> os_entries s !! id = Some e -> e_phase e = Some accountingQueued ->
  wp (cancelHead id) (fun _ s' => Inv s' /\
    leaves s id e (MkDecision DecisionCanceledQueued ResourceNone) s') s.
Proof.
  intros HI He Hp. unfold cancelHead. eapply wp_leave; [done..|].
  intros ex en Hen Hex HI'. pose proof (delete_None _ _ _ Hen) as Hno.
  destruct (co_entry _ (proj1 HI) id e He) as (_ & _ & _ & Hph). unfold phase_fine in Hph.
  rewrite Hp in Hph. apply wp_resolve; [apply Hph|]. split.
  - by apply (dismissed_inv s id e _ 0).
  - by exists 0%nat, ex, en.
Qed.

(** The decision for a request whose deadline has passed. *)
Definition expired_decision (canceled : bool) (source : deadlineSource) : Decision :=
  MkDecision (if canceled || match source with deadlineClient => true | deadlineQueue => false end
              then DecisionCanceledQueued else DecisionQueueExpired) ResourceNone.

Lemma expire_spec s id e :
  Inv s -> os_entries s !! id = Some e -> e_phase e = Some accountingQueued ->
  wp (expire id) (fun _ s' => Inv s' /\ leaves s id e
    (expired_decision (w_err (x_tick (os_ext s)) (e_clientCtx e)) (e_deadlineSource e)) s') s.
Proof.
  intros HI He Hp. unfold expire. o_step. o_step.
  eapply wp_leave; [done..|]. intros ex en Hen Hex HI'. pose proof (delete_None _ _ _ Hen) as Hno.
  destruct (co_entry _ (proj1 HI) id e He) as (_ & _ & _ & Hph). unfold phase_fine in Hph.
  rewrite Hp in Hph. unfold deadlineDecision. o_steps. apply wp_resolve; [apply Hph|].
  assert (Hd : (if w_err (x_tick (os_ext s)) (e_clientCtx e)
                   || match e_deadlineSource e with deadlineClient => true | deadlineQueue => false end
                then MkDecision DecisionCanceledQueued ResourceNone
                else MkDecision DecisionQueueExpired ResourceNone)
               = expired_decision (w_err (x_tick (os_ext s)) (e_clientCtx e)) (e_deadlineSource e)).
  { unfold expired_decision. by case_match. }
  cbn [os_ext removed with_ext ext_tick x_tick]. rewrite Hd. split.
  - by apply (dismissed_inv s id e _ 1).
  - by exists 1%nat, ex, en.
Qed.

(** *** [expireReady] *)

Lemma expiry_entry s id : core s -> id ∈ os_expiry s ->
  exists e, os_entries s !! id = Some e /\ e_phase e = Some accountingQueued.
Proof. intros Hs Hin. by apply (co_expiry _ Hs) in Hin. Qed.

(** The first element of the heap has the earliest deadline. *)
Lemma expiry_root s id rest id' e e' :
  heap_fine s -> os_expiry s = id :: rest -> os_entries s !! id = Some e ->
  id' ∈ os_expiry s -> os_entries s !! id' = Some e' -> e_deadline e <= e_deadline e'.
Proof.
  intros [_ Hord] Hex He Hin He'. apply list_elem_of_lookup in Hin as [k Hk].
  assert (Hv : forall j i ei, os_expiry s !! j = Some i -> os_entries s !! i = Some ei ->
    expiry_view s !! j = Some (i, (e_deadline ei, e_sequence ei))).
  { intros j i ei Hj Hi. unfold expiry_view. change (map ?f) with (fmap (M := list) f).
    rewrite list_lookup_fmap, Hj. cbn. unfold expiry_key. by rewrite Hi. }
  assert (Hle : kle expiry_lt (id, (e_deadline e, e_sequence e)) (id', (e_deadline e', e_sequence e'))).
  { eapply (heap_root_min expiry_lt _ k); [exact Hord|apply Hv; [by rewrite Hex|done]|by apply Hv]. }
  unfold kle, expiry_lt in Hle. cbn [fst snd] in Hle. case_match; lia.
Qed.

Definition none_ready (now : Z) (s : ownerState) : Prop :=
  forall id e, os_entries s !! id = Some e -> e_phase e = Some accountingQueued ->
    now < e_deadline e.

(** Requests whose deadline lies ahead keep their place. *)
Definition spares (now : Z) (s s' : ownerState) : Prop :=
  forall id e, os_entries s !! id = Some e -> e_phase e = Some accountingQueued ->
    now < e_deadline e -> waiting (os_entries s') id.

Lemma expireReady_loop_spec fuel now s :
  Inv s -> (length (os_expiry s) < fuel)%nat ->
  wp (expireReady_loop fuel now) (fun _ s' => Inv s' /\ evolves sublist s s'
    /\ none_ready now s' /\ spares now s s') s.
Proof.
  revert s. induction fuel as [|fuel IH]; intros s HI Hf; [lia|]. cbn [expireReady_loop]. o_steps.
  destruct (os_expiry s) as [|id rest] eqn:Hex.
  { wp_step. split_and!; [done|reflexivity| |intros id e He Hp _; by exists e]. intros id e He Hp.
    assert (id ∈ os_expiry s) as Hin by (apply (co_expiry _ (proj1 HI)); by exists e).
    rewrite Hex in Hin. by apply elem_of_nil in Hin. }
  destruct (expiry_entry s id (proj1 HI)) as (e & He & Hp); [rewrite Hex; left|].
  o_steps. wp_case.
  { wp_step. split_and!; [done|reflexivity| |intros ? e' He' Hp' _; by exists e'].
    intros id' e' He' Hp'. enough (e_deadline e <= e_deadline e') by lia.
    eapply expiry_root; [apply HI|done..| |done].
    apply (co_expiry _ (proj1 HI)). by exists e'. }
  eapply wp_bind_mono; [by eapply expire_spec|]. intros [] s1 [HI1 Hl]. cbn beta.
  eapply wp_mono; [apply IH; [done|]|].
  - destruct Hl as (? & ex & en & -> & _ & Hperm). cbn. rewrite Hex in Hperm.
    apply Permutation_length in Hperm. cbn in *. lia.
  - intros [] s2 (HI2 & Hev & Hnr & Hsp). split_and!; [done| |done|].
    + etrans; [|exact Hev]. eapply (leaves_evolves sublist); [done..| |done].
      intros. apply list_Remove_sublist.
    + intros id' e' He' Hp' Hlt. destruct Hl as (ticks & ex & en & -> & Hen & _).
      destruct (delete_lookup_other en (os_entries s) id id' e' Hen) as (e2 & He2 & Hp2);
        [intros ->; simplify_eq; lia|done|].
      destruct (delete_lookup en (os_entries s) id id' e2 Hen He2) as (_ & e3 & He3 & Hs3 & _).
      apply (Hsp id' e2); cbn; [done|congruence|]. simplify_eq.
      destruct Hs3 as (_ & _ & _ & _ & -> & _). done.
Qed.

Lemma expireReady_spec now s :
  Inv s -> wp (expireReady now) (fun _ s' => Inv s' /\ evolves sublist s s'
    /\ none_ready now s' /\ spares now s s') s.
Proof. intros HI. unfold expireReady. o_steps. apply expireReady_loop_spec; [done|lia]. Qed.

(** *** [dispatch] *)

(** The entry [id], queued in [s], is in flight in [s']. *)
Definition dispatches (s : ownerState) (id : Z) (e : entry) (s' : ownerState) : Prop :=
  exists ex en e', s' = started (removed s id e ex (delete id en)) id e' en
      (ext_results (os_ext s) (<[id := dispatched_result id (e_clientCtx e)]> (x_results (os_ext s))))
    /\ en !! id = Some e' /\ same_request e e' /\ e_phase e' = Some accountingInflight
    /\ erase (delete id en) = delete id (erase (os_entries s)) /\ os_expiry s ≡ₚ id :: ex.

Lemma not_drained s id :
  core s -> waiting (os_entries s) id -> os_drainNotified s = false.
Proof.
  intros Hs (e & He & Hp). destruct (os_drainNotified s) eqn:Hn; [|done].
  destruct (co_drained _ Hs Hn) as [_ Hd]. unfold isDrained in Hd. breflect.
  pose proof (tally_ge of_any _ id e (entries_fair s Hs) He eq_refl) as Hge.
  rewrite <- (co_global _ Hs) in Hge. unfold charge, counters_le in Hge. rewrite Hp in Hge.
  cbn in Hge. lia.
Qed.

Lemma within_inflight_sub c a l :
  within_inflight (counters_add (charge_inflight a) c) l ->
  within_inflight (counters_add (charge_inflight a) (counters_sub c (charge_queued a))) l.
Proof. unfold within_inflight. cbn. lia. Qed.

Definition to_inflight (e : entry) : entry :=
  set_phase (set_state e (Some entryInflight)) (Some accountingInflight).

Definition dispatch_ext (x : external) (id ctx : Z) : external :=
  ext_results x (<[id := dispatched_result id ctx]> (x_results x)).

(** The entry that [removeQueued] leaves without a phase. *)
Lemma detached_entry E en0 id e :
  E !! id = Some e -> erase en0 = alter (fun e => set_phase e None) id (erase E) ->
  exists e0, en0 !! id = Some e0 /\ same_request e e0 /\ e_cancelCause e0 = e_cancelCause e.
Proof.
  intros He Hen.
  assert (Hl : erase en0 !! id = Some (set_phase (set_heapIndex e 0) None)).
  { rewrite Hen, lookup_alter_eq, (proj2 (erase_lookup _ _ _)) by eauto. done. }
  apply erase_lookup in Hl as (e0 & He0 & Heq). exists e0. split; [done|].
  destruct e, e0. cbn in *. injection Heq. intros; subst. done.
Qed.

Lemma alter_as_insert (E : gmap Z entry) (id : Z) f e0 :
  E !! id = Some e0 -> alter f id E = <[id := f e0]> (delete id E) /\
  delete id (alter f id E) = delete id E.
Proof.
  intros He0. split; apply map_eq; intros j; (destruct (decide (id = j)) as [<-|]).
  - by rewrite lookup_alter_eq, He0, lookup_insert_eq.
  - by rewrite lookup_alter_ne, lookup_insert_ne, lookup_delete_ne.
  - by rewrite !lookup_delete_eq.
  - by rewrite !lookup_delete_ne, lookup_alter_ne.
Qed.

Lemma started_inv s id e e0 ex en0 t :
  Inv s -> os_entries s !! id = Some e -> e_phase e = Some accountingQueued ->
  os_tenants s !! e_tenant e = Some t ->
  within_inflight (counters_add (charge_inflight (e_admission e)) (ts_counters t))
    (vt_inflight (ts_config t)) ->
  within_inflight (counters_add (charge_inflight (e_admission e)) (os_global s))
    (vc_globalInflight (os_config s)) ->
  seen_alive (e_clientCtx e) (e_deadline e) ->
  Inv (removed s id e ex (delete id en0)) -> heap_fine (removed s id e ex en0) ->
  en0 !! id = Some e0 -> same_request e e0 -> e_cancelCause e0 = None ->
  Inv (started (removed s id e ex (delete id en0)) id (to_inflight e0) (alter to_inflight id en0)
         (dispatch_ext (os_ext s) id (e_clientCtx e))).
Proof.
  intros [Hs _] He Hp Ht Hroom Hgroom Hseen [Hs' Hh'] Hh He0 Hsame Hc0.
  destruct (co_entry _ Hs id e He) as (Heid & Hadm & Hby & Hph).
  unfold phase_fine in Hph. rewrite Hp in Hph. destruct Hph as (Hst & Hcause & Hres & Hcs).
  destruct Hsame as (Hid & Hseq & Had & Hctx & Hdl & Hds & Htn).
  destruct (alter_as_insert en0 id to_inflight e0 He0) as [Hins Hdel]. split.
  - rewrite Hins. apply core_started; cbn; rewrite ?Had, ?Htn; try done.
    + apply lookup_delete_eq.
    + split_and!; cbn; rewrite ?Had, ?Htn, ?Hid; try done. unfold phase_fine. cbn.
      rewrite Hctx, Hc0, Hdl, lookup_insert_eq. by rewrite Hcs.
    + eapply not_drained; [done|]. by exists e.
    + intros id' Hne. by rewrite lookup_insert_ne.
    + intros t'. rewrite list_lookup_alter_eq, Ht. cbn. intros [= <-]. cbn.
      by apply within_inflight_sub.
    + by apply within_inflight_sub.
  - eapply heap_fine_ext; [exact Hh|done|]. cbn. intros id' e' _ He'.
    destruct (decide (id = id')) as [<-|].
    + rewrite lookup_alter_eq, He'. eexists; split; [done|]. done.
    + rewrite lookup_alter_ne by done. eauto.
Qed.

Lemma dispatch_spec s id e t :
  Inv s -> os_entries s !! id = Some e -> e_phase e = Some accountingQueued ->
  os_tenants s !! e_tenant e = Some t ->
  inflightFits (ts_counters t) (e_admission e) (vt_inflight (ts_config t)) = true ->
  inflightFits (os_global s) (e_admission e) (vc_globalInflight (os_config s)) = true ->
  seen_alive (e_clientCtx e) (e_deadline e) ->
  wp (dispatch id) (fun _ s' => Inv s' /\ dispatches s id e s') s.
Proof.
  intros HI He Hp Ht Hroom Hgroom Hseen. pose proof (proj1 HI) as Hs.
  pose proof (entries_fair s Hs id e He) as Hfair.
  destruct (tenant_limits s _ t Hs Ht) as (Htq & Hti & Htn & _).
  destruct (global_limits s Hs) as [Hgn _].
  destruct (charge_tenant s id e t Hs He Ht) as [Hct Hcg]. unfold charge in Hct, Hcg.
  rewrite Hp in Hct, Hcg. pose proof (wf_ginflight _ (co_wf _ Hs)) as Hgi.
  apply inflightFits_spec in Hroom; [|done..]. apply inflightFits_spec in Hgroom; [|done..].
  destruct (co_entry _ Hs id e He) as (Heid & _ & _ & Hph).
  unfold phase_fine in Hph. rewrite Hp in Hph. destruct Hph as (_ & Hcause & Hres & _).
  unfold dispatch. o_steps. eapply wp_mono; [by eapply removeQueued_spec|].
  intros [] s' (ex & en0 & -> & Hen & Hex & Hh). cbn beta. o_steps. apply wp_resolve; [done|].
  destruct (detached_entry _ _ _ _ He Hen) as (e0 & He0 & Hsame & Hc0). rewrite Hcause in Hc0.
  pose proof (departed_inv s id e ex en0 HI He Hp Hen Hex Hh) as HI'.
  pose proof (started_inv s id e e0 ex en0 t HI He Hp Ht Hroom Hgroom Hseen HI' Hh He0 Hsame Hc0) as HIs.
  destruct (alter_as_insert en0 id to_inflight e0 He0) as [_ Hdel].
  match goal with |- Inv ?st /\ _ =>
    assert (Heq : st = started (removed s id e ex (delete id en0)) id (to_inflight e0)
      (alter to_inflight id en0) (dispatch_ext (os_ext s) id (e_clientCtx e))) end.
  { apply within_inflight_sub in Hroom, Hgroom.
    destruct Hsame as (Hid & _ & Had & _ & _ & _ & Hte).
    apply ownerState_eq; try reflexivity; cbn [os_tenants os_global os_ext os_entries started removed
      with_ext with_inflight with_entries with_global with_tenants to_inflight e_admission e_tenant
      set_phase set_state dispatch_ext]; rewrite ?Had, ?Hte, ?Heid; try reflexivity.
    - rewrite !list_alter_alter_eq. eapply list_alter_at; [done|]. unfold tenant_serve. cbn.
      unfold set_counters. cbn. f_equal.
      apply (addInflight_spec _ _ (vt_inflight (ts_config t))); [|done..].
      unfold counters_le, counters_sub in *. cbn in *. lia.
    - apply (addInflight_spec _ _ (vc_globalInflight (os_config s))); [|done..].
      unfold counters_le, counters_sub in *. cbn in *. lia. }
  rewrite Heq. split; [done|]. exists ex, (alter to_inflight id en0), (to_inflight e0).
  rewrite Hdel. split_and!; try done; [by rewrite lookup_alter_eq, He0|].
  rewrite erase_delete, Hen. apply map_eq. intros j. destruct (decide (id = j)) as [<-|].
  - by rewrite !lookup_delete_eq.
  - by rewrite !lookup_delete_ne, lookup_alter_ne.
Qed.
End departures.
