(* ===== verification/AdmissionPump.v ===== *)
(** * Admission: the dispatch pump

    [pump] terminates, never panics, keeps the invariant, removes only heads of
    queues, and stops only when nothing more can be dispatched. *)

From S2P Require Import Prelude AdmissionConfig GoHeap AdmissionOwner AdmissionInv AdmissionSteps.
From S2P Require Import AdmissionArrive.

(** ** The measure

    A round of [pump] that dispatches shortens a queue; one that only finds
    unfunded heads has closed their visits, and a visit is closed at most once
    per quantum that is missing to the largest request. *)

Definition need (m : Z) (t : tenantState) : Z :=
  (if ts_visitOpen t then 1 else 0) + ceil_div (Z.max 0 (m - ts_deficit t)) (vt_quantum (ts_config t)).

Definition needs (s : ownerState) : Z := sumZ (need (vc_maxRequestUnits (os_config s))) (os_tenants s).

Definition mu (s : ownerState) : Z :=
  QueuedCount (os_global s) * Z.of_nat (roundsPerEntry (os_config s)) + needs s.

Lemma ceil_div_nonneg m q : 0 <= m -> 0 < q -> 0 <= ceil_div m q.
Proof. intros. unfold ceil_div. apply Z.div_pos; lia. Qed.

Lemma ceil_div_pred m q : 0 < m -> 0 < q -> ceil_div (Z.max 0 (m - q)) q + 1 <= ceil_div m q.
Proof.
  intros Hm Hq. unfold ceil_div. destruct (Z.le_gt_cases q m).
  - rewrite Z.max_r by lia. replace (m + q - 1) with (m - q + q - 1 + 1 * q) by lia.
    rewrite Z.div_add by lia. lia.
  - rewrite Z.max_l by lia. rewrite (Z.div_small (0 + q - 1)) by lia.
    apply Z.div_le_lower_bound; lia.
Qed.

Lemma ceil_div_mono m m' q : m <= m' -> 0 < q -> ceil_div m q <= ceil_div m' q.
Proof. intros. unfold ceil_div. apply Z.div_le_mono; lia. Qed.

Section measure.
Context `{World}.

Lemma tenant_quantum s i t : core s -> os_tenants s !! i = Some t ->
  0 < vt_quantum (ts_config t)
  /\ vc_maxRequestUnits (os_config s) - 1 + vt_quantum (ts_config t) <= vc_deficitCap (os_config s).
Proof.
  intros Hs Ht. destruct (co_tenant _ Hs i t Ht) as (Hc & _).
  destruct (wf_each _ (co_wf _ Hs) i _ Hc) as (? & ? & _). done.
Qed.

Lemma need_bound s i t : core s -> os_tenants s !! i = Some t ->
  0 <= need (vc_maxRequestUnits (os_config s)) t
    <= Z.of_nat (fundingVisits (os_config s) (ts_config t)).
Proof.
  intros Hs Ht. destruct (tenant_quantum s i t Hs Ht) as [Hq Hcap].
  destruct (co_tenant _ Hs i t Ht) as (_ & _ & _ & _ & _ & _ & Hcr & _).
  pose proof (wf_units _ (co_wf _ Hs)) as Hm. pose proof (wf_cap _ (co_wf _ Hs)) as Hc.
  unfold need, fundingVisits. rewrite divideRoundUp_spec by (unfold is_u64; lia).
  set (m := vc_maxRequestUnits (os_config s)) in *.
  pose proof (ceil_div_nonneg (Z.max 0 (m - ts_deficit t)) _ ltac:(lia) Hq).
  pose proof (ceil_div_mono (Z.max 0 (m - ts_deficit t)) m _ ltac:(lia) Hq).
  destruct (ts_visitOpen t); lia.
Qed.

Lemma needs_bound s : core s -> 0 <= needs s < Z.of_nat (roundsPerEntry (os_config s)).
Proof.
  intros Hs. unfold needs, roundsPerEntry. split.
  - apply sumZ_nonneg. apply Forall_lookup. intros i t Ht. by apply (need_bound s i t).
  - rewrite Nat2Z.inj_succ. apply Z.lt_succ_r. apply sumZ_le_sum.
    apply Forall2_same_length_lookup. split; [apply Hs|]. intros i t vt Ht Hvt.
    destruct (co_tenant _ Hs i t Ht) as (Hc & _). simplify_eq. by apply (need_bound s i t).
Qed.

Lemma mu_nonneg s : core s -> 0 <= mu s.
Proof.
  intros Hs. pose proof (needs_bound s Hs). destruct (global_limits s Hs) as [Hg _].
  unfold counters_le in Hg. cbn in Hg. unfold mu. nia.
Qed.

(** One queued request less outweighs everything else. *)
Lemma mu_shorter s s' :
  core s -> core s' -> os_config s' = os_config s ->
  QueuedCount (os_global s') < QueuedCount (os_global s) -> mu s' < mu s.
Proof.
  intros Hs Hs' Hc Hq. pose proof (needs_bound s Hs). pose proof (needs_bound s' Hs') as Hn.
  unfold mu. rewrite Hc in *. nia.
Qed.

Lemma pumpFuel_enough s : core s -> mu s < Z.of_nat (pumpFuel s).
Proof.
  intros Hs. pose proof (needs_bound s Hs). destruct (global_limits s Hs) as [Hg _].
  unfold counters_le in Hg. cbn [QueuedCount zeroCounters] in Hg. unfold mu, pumpFuel. nia.
Qed.
End measure.

(** ** Steps of a visit *)

Section pump.
Context `{World}.

(** What working on tenant [i]'s queue may do to the state. *)
Record visits (i : nat) (s s' : ownerState) : Prop := {
  vi_inv : Inv s';
  vi_evolves : evolves suffix s s';
  vi_others : forall j, j <> i -> os_tenants s' !! j = os_tenants s !! j;
  vi_own : is_Some (os_tenants s !! i) -> is_Some (os_tenants s' !! i);
  vi_mu : mu s' <= mu s;
}.

Lemma visits_refl i s : Inv s -> visits i s s.
Proof. intros HI. by split. Qed.

Lemma visits_trans i s1 s2 s3 : visits i s1 s2 -> visits i s2 s3 -> visits i s1 s3.
Proof.
  intros [] []. split; try done; try lia; try congruence; auto.
  - by etrans.
  - intros j Hj. rewrite vi_others1, vi_others0; done.
Qed.

(** Reading the clock or a context. *)
Lemma Inv_ticked s n : Inv s -> Inv (with_ext s (ext_tick (os_ext s) n)).
Proof. intros HI. by apply Inv_ext. Qed.

Lemma evolves_ticked R `{!QueueOrder R} s n :
  (x_tick (os_ext s) <= n)%nat -> evolves R s (with_ext s (ext_tick (os_ext s) n)).
Proof.
  intros Hn. split; cbn; try done; eauto using same_request_refl.
  - intros i t Ht. exists t. split_and!; [done|done|reflexivity].
  - intros id e e' ??. simplify_eq. by left.
Qed.

Lemma visits_ticked i s n :
  (x_tick (os_ext s) <= n)%nat -> Inv s -> visits i s (with_ext s (ext_tick (os_ext s) n)).
Proof.
  intros Hn HI. split; try done; [by apply Inv_ticked|by apply (evolves_ticked suffix)].
Qed.

(** Only the head of a queue leaves it here. *)
Lemma head_facts s i t id rest :
  Inv s -> os_tenants s !! i = Some t -> ts_queue t = id :: rest ->
  exists e, os_entries s !! id = Some e /\ e_phase e = Some accountingQueued /\ e_tenant e = i
    /\ list_Remove id (ts_queue t) = rest.
Proof.
  intros [Hs _] Ht Hq. destruct (co_tenant _ Hs i t Ht) as (_ & Hnd & Hin & _).
  assert (id ∈ ts_queue t) as Hi by (rewrite Hq; left).
  apply Hin in Hi as (e & He & Hp & Hti). exists e. split_and!; try done.
  rewrite Hq in *. by apply list_Remove_head.
Qed.

Lemma leaves_visits s i t id rest e d s' :
  Inv s -> os_tenants s !! i = Some t -> ts_queue t = id :: rest ->
  os_entries s !! id = Some e -> e_phase e = Some accountingQueued -> e_tenant e = i ->
  Inv s' -> leaves s id e d s' ->
  visits i s s' /\ mu s' < mu s /\ os_cursor s' = os_cursor s
  /\ os_tenants s' !! i = Some (tenant_dequeue id (e_admission e) t).
Proof.
  intros HI Ht Hq He Hp Hti HI' Hl. subst i.
  destruct (head_facts s _ t id rest HI Ht Hq) as (e0 & He0 & _ & _ & Hrm). simplify_eq.
  assert (Hev : evolves suffix s s').
  { eapply (leaves_evolves suffix); [done..| |done]. intros t0 Ht0. simplify_eq.
    destruct (co_tenant _ (proj1 HI) _ _ Ht) as (_ & Hnd & _). rewrite Hq in *.
    by apply list_Remove_head_suffix. }
  assert (Hmu : mu s' < mu s).
  { apply mu_shorter; [apply HI|apply HI'|apply Hev|].
    destruct Hl as (? & ? & ? & -> & _). cbn. lia. }
  pose proof (leaves_queue s id e d s' t Hl Ht) as Ht'.
  split_and!; [|done|by destruct Hl as (? & ? & ? & -> & _)|done].
  destruct Hl as (? & ? & ? & -> & _). split; try done; try lia; cbn; eauto.
  intros j Hj. by rewrite list_lookup_alter_ne.
Qed.

(** *** Dead heads *)

Lemma dequeue_queue id a t rest :
  list_Remove id (ts_queue t) = rest -> ts_queue (tenant_dequeue id a t) = rest.
Proof. done. Qed.

Lemma dropDead_spec fuel i s t :
  Inv s -> os_tenants s !! i = Some t -> (length (ts_queue t) < fuel)%nat ->
  wp (dropDead fuel i) (fun _ s' => visits i s s' /\ os_cursor s' = os_cursor s) s.
Proof.
  revert s t. induction fuel as [|fuel IH]; intros s t HI Ht Hf; [lia|].
  cbn [dropDead]. o_steps. destruct (ts_queue t) as [|id rest] eqn:Hq.
  { wp_step. split; [by apply visits_refl|done]. }
  destruct (head_facts s i t id rest HI Ht Hq) as (e & He & Hp & Hti & Hrm).
  o_steps. set (s1 := with_ext s _).
  assert (HI1 : Inv s1) by (by apply Inv_ticked).
  assert (Hv1 : visits i s s1) by (by apply visits_ticked; [lia|]).
  (* the recursive call after a departure from a state like [s] *)
  assert (Hrec : forall d s2 s3, Inv s2 -> visits i s s2 -> os_cursor s2 = os_cursor s ->
    os_tenants s2 = os_tenants s -> os_entries s2 = os_entries s ->
    Inv s3 /\ leaves s2 id e d s3 ->
    wp (dropDead fuel i) (fun _ s' => visits i s s' /\ os_cursor s' = os_cursor s) s3).
  { intros d s2 s3 HI2 Hv2 Hc2 Ht2 He2 [HI3 Hl].
    destruct (leaves_visits s2 i t id rest e d s3) as (Hv & _ & Hc & Ht3); try done; try congruence.
    eapply wp_mono; [apply (IH s3 _ HI3 Ht3)|].
    - rewrite (dequeue_queue _ _ _ _ Hrm). cbn in Hf. lia.
    - intros [] s4 [Hv4 Hc4]. split; [|congruence].
      eapply visits_trans; [exact Hv2|]. by eapply visits_trans. }
  wp_case.
  - eapply wp_bind_mono; [by apply (cancelHead_spec s1 id e)|]. intros [] s2. by apply Hrec.
  - o_steps. set (s2 := with_ext s1 _).
    assert (HI2 : Inv s2) by (by apply Inv_ticked).
    assert (Hv2 : visits i s s2).
    { eapply visits_trans; [done|]. apply (visits_ticked i s1); [cbn; lia|done]. }
    wp_case; [|by wp_step].
    eapply wp_bind_mono; [by apply (expire_spec s2 id e)|]. intros [] s3. by apply Hrec.
Qed.

(** *** Credit *)

Lemma Inv_tenant s i f t :
  Inv s -> os_tenants s !! i = Some t -> ts_config (f t) = ts_config t ->
  ts_queue (f t) = ts_queue t -> ts_counters (f t) = ts_counters t ->
  credit_fine (vc_maxRequestUnits (os_config s)) (f t) ->
  Inv (with_tenants s (alter f i (os_tenants s))).
Proof.
  intros [Hs Hh] Ht Hc Hq Hk Hcr. split; [|by eapply heap_fine_same].
  split; cbn; rewrite ?length_alter; try apply Hs. intros j t' Hj.
  rewrite list_lookup_alter in Hj. case_decide as Hij.
  - subst j. rewrite Ht in Hj. cbn in Hj. simplify_eq.
    destruct (co_tenant _ Hs i t Ht) as (H1 & H2 & H3 & H4 & H5 & H6 & _).
    unfold tenant_fine. by rewrite Hc, Hq, Hk.
  - by apply (co_tenant _ Hs).
Qed.

Lemma evolves_tenant R `{!QueueOrder R} s i f :
  (forall t, os_tenants s !! i = Some t -> ts_config (f t) = ts_config t /\ ts_queue (f t) = ts_queue t) ->
  evolves R s (with_tenants s (alter f i (os_tenants s))).
Proof.
  intros Hf. split; cbn; try done; eauto using same_request_refl.
  - intros j t'. rewrite list_lookup_alter. case_decide as Hij.
    + subst j. intros (t & Ht & ->)%fmap_Some. destruct (Hf t Ht) as [-> ->].
      exists t. split_and!; [done|done|reflexivity].
    + intros Ht. exists t'. split_and!; [done|done|reflexivity].
  - intros id e e' ??. simplify_eq. by left.
Qed.

Lemma visits_tenant s i f t :
  Inv s -> os_tenants s !! i = Some t -> ts_config (f t) = ts_config t ->
  ts_queue (f t) = ts_queue t -> ts_counters (f t) = ts_counters t ->
  credit_fine (vc_maxRequestUnits (os_config s)) (f t) ->
  need (vc_maxRequestUnits (os_config s)) (f t) <= need (vc_maxRequestUnits (os_config s)) t ->
  let s' := with_tenants s (alter f i (os_tenants s)) in
  visits i s s' /\ mu s' - mu s = need (vc_maxRequestUnits (os_config s)) (f t)
                                   - need (vc_maxRequestUnits (os_config s)) t.
Proof.
  intros HI Ht Hc Hq Hk Hcr Hn s'.
  assert (Hmu : mu s' - mu s = need (vc_maxRequestUnits (os_config s)) (f t)
                               - need (vc_maxRequestUnits (os_config s)) t).
  { unfold mu, needs, s'. cbn. rewrite (sumZ_alter _ f i _ t Ht). lia. }
  split; [|done]. split; [by apply (Inv_tenant s i f t)| | | |lia].
  - apply (evolves_tenant suffix). intros t0 Ht0. by simplify_eq.
  - intros j Hj. cbn. by rewrite list_lookup_alter_ne.
  - intros _. cbn. by rewrite list_lookup_alter_eq, Ht.
Qed.

(** Funding a closed visit never saturates: the cap leaves room for what one
    request can leave over plus a quantum. *)
Lemma fund_credit m t cap :
  0 < m -> credit_fine m t -> 0 < vt_quantum (ts_config t) ->
  m - 1 + vt_quantum (ts_config t) <= cap -> cap < two64 -> ts_visitOpen t = false ->
  boundedAdd (ts_deficit t) (vt_quantum (ts_config t)) cap = ts_deficit t + vt_quantum (ts_config t).
Proof.
  intros Hm (Hd & Hcl & _) Hq Hcap Hc Hop. specialize (Hcl Hop). unfold boundedAdd.
  rewrite !u64_small by (unfold is_u64; lia).
  destruct (Z.leb_spec cap (ts_deficit t)); [lia|].
  destruct (Z.ltb_spec (cap - ts_deficit t) (vt_quantum (ts_config t))); [lia|done].
Qed.

Definition funded (t : tenantState) : tenantState :=
  if ts_visitOpen t then t
  else set_visitOpen true (set_deficit (ts_deficit t + vt_quantum (ts_config t)) t).

Lemma funded_open t : ts_visitOpen (funded t) = true /\ ts_queue (funded t) = ts_queue t.
Proof. unfold funded. by destruct (ts_visitOpen t) eqn:?. Qed.

Lemma fundVisit_spec i s t :
  Inv s -> os_tenants s !! i = Some t -> ts_queue t <> [] ->
  wp (fundVisit i) (fun _ s' => visits i s s' /\ os_cursor s' = os_cursor s
    /\ os_tenants s' !! i = Some (funded t)) s.
Proof.
  intros HI Ht Hq. unfold fundVisit. o_steps. wp_case.
  2:{ wp_step. split_and!; [by apply visits_refl|done|]. unfold funded. by rewrite H0. }
  o_steps. set (f := fun t => _). destruct (tenant_quantum s i t (proj1 HI) Ht) as [Hqu Hcap].
  pose proof (wf_units _ (co_wf _ (proj1 HI))) as Hm.
  destruct (co_tenant _ (proj1 HI) i t Ht) as (_ & _ & _ & _ & _ & _ & Hcr).
  assert (Hfd : f t = set_visitOpen true (set_deficit (ts_deficit t + vt_quantum (ts_config t)) t)).
  { unfold f. rewrite (fund_credit (vc_maxRequestUnits (os_config s))); try done; [lia|].
    apply (co_wf _ (proj1 HI)). }
  destruct (visits_tenant s i f t) as [Hv _]; rewrite ?Hfd; try done.
  - destruct Hcr as (? & Hcl & _). specialize (Hcl H0). unfold credit_fine. cbn.
    split_and!; try done; lia.
  - destruct Hcr as (? & Hcl & _). specialize (Hcl H0). unfold need. cbn. rewrite H0.
    pose proof (ceil_div_pred (Z.max 0 (vc_maxRequestUnits (os_config s) - ts_deficit t))
                  (vt_quantum (ts_config t)) ltac:(lia) Hqu) as Hce.
    rewrite (Z.max_r 0 (_ - ts_deficit t)) in * by lia.
    replace (vc_maxRequestUnits (os_config s) - (ts_deficit t + vt_quantum (ts_config t)))
      with (vc_maxRequestUnits (os_config s) - ts_deficit t - vt_quantum (ts_config t)) by lia. lia.
  - split_and!; [done|done|]. cbn -[f]. rewrite list_lookup_alter_eq, Ht. cbn -[f].
    unfold funded. by rewrite H0, Hfd.
Qed.

(** *** Dispatch from the head *)

Lemma dispatches_evolves R `{!QueueOrder R} s id e s' :
  Inv s -> os_entries s !! id = Some e -> e_phase e = Some accountingQueued ->
  (forall t, os_tenants s !! e_tenant e = Some t -> R (list_Remove id (ts_queue t)) (ts_queue t)) ->
  dispatches s id e s' -> evolves R s s'.
Proof.
  intros [Hs Hh] He Hp HR (ex & en & e' & -> & He' & Hsame & Hp' & Hen & _).
  destruct (co_entry _ Hs id e He) as (_ & _ & _ & Hph). unfold phase_fine in Hph.
  rewrite Hp in Hph. destruct Hph as (_ & _ & Hr & _).
  assert (Hw : waiting (os_entries s) id) by (exists e; done).
  destruct Hsame as (? & ? & ? & ? & ? & ? & Hte).
  assert (Hback : forall id' e2, id' <> id -> en !! id' = Some e2 ->
    exists e1, os_entries s !! id' = Some e1 /\ same_request e1 e2 /\ e_phase e2 = e_phase e1).
  { intros id' e2 Hne He2. eapply (delete_lookup (delete id en)); [done|].
    by rewrite lookup_delete_ne. }
  assert (Hforth : forall id' e1, id' <> id -> os_entries s !! id' = Some e1 ->
    exists e2, en !! id' = Some e2 /\ e_phase e2 = e_phase e1).
  { intros id' e1 Hne He1. destruct (delete_lookup_other _ _ _ _ _ Hen Hne He1) as (e2 & He2 & ?).
    exists e2. split; [|done]. by rewrite lookup_delete_ne in He2. }
  split; cbn; try done.
  - by apply insert_subseteq.
  - intros id'. rewrite lookup_insert. case_decide; [subst; auto|auto].
  - intros i t'. rewrite Hte, list_alter_alter_eq, list_lookup_alter. case_decide as Hi.
    + subst i. intros (t & Ht & ->)%fmap_Some. exists t. split_and!; [done|done|by apply HR].
    + intros Ht'. exists t'. split_and!; [done|done|reflexivity].
  - intros id' e2 He2. destruct (decide (id' = id)) as [->|Hne].
    + simplify_eq. by exists e.
    + destruct (Hback _ _ Hne He2) as (e1 & ? & ? & _). eauto.
  - intros id' e1 e2 He1 He2. destruct (decide (id' = id)) as [->|Hne].
    + simplify_eq. by right.
    + destruct (Hback _ _ Hne He2) as (e3 & ? & _ & ?). simplify_eq. by left.
  - intros id' (e1 & He1 & Hp1). destruct (decide (id' = id)) as [->|Hne]; [congruence|].
    destruct (Hforth _ _ Hne He1) as (e2 & ? & ?). exists e2. split; [done|congruence].
  - intros id' (e1 & He1 & Hp1). rewrite lookup_insert. case_decide as Heq; [right; eauto|left].
    destruct (Hforth id' e1 ltac:(congruence) He1) as (e2 & ? & ?). exists e2. split; [done|congruence].
Qed.

Lemma dispatches_visits s i t id rest e s' :
  Inv s -> os_tenants s !! i = Some t -> ts_queue t = id :: rest ->
  os_entries s !! id = Some e -> e_phase e = Some accountingQueued -> e_tenant e = i ->
  Inv s' -> dispatches s id e s' ->
  visits i s s' /\ mu s' < mu s /\ os_cursor s' = os_cursor s /\
  os_tenants s' !! i = Some (tenant_serve (e_admission e) (tenant_dequeue id (e_admission e) t)).
Proof.
  intros HI Ht Hq He Hp Hti HI' Hd. subst i.
  assert (Hev : evolves suffix s s').
  { eapply (dispatches_evolves suffix); [done..| |done]. intros t0 Ht0. simplify_eq.
    destruct (co_tenant _ (proj1 HI) _ _ Ht) as (_ & Hnd & _). rewrite Hq in *.
    by apply list_Remove_head_suffix. }
  assert (Hsh : QueuedCount (os_global s') < QueuedCount (os_global s)).
  { destruct Hd as (ex & en & e' & -> & _). cbn. lia. }
  assert (Hmu : mu s' < mu s) by (apply mu_shorter; [apply HI|apply HI'|apply Hev|done]).
  destruct Hd as (ex & en & e' & -> & _ & (_ & _ & Had & _ & _ & _ & Hte) & _).
  assert (Hown : os_tenants (started (removed s id e ex (delete id en)) id e' en
      (ext_results (os_ext s) (<[id:=dispatched_result id (e_clientCtx e)]> (x_results (os_ext s)))))
    !! e_tenant e = Some (tenant_serve (e_admission e) (tenant_dequeue id (e_admission e) t))).
  { cbn. by rewrite Hte, Had, list_alter_alter_eq, list_lookup_alter_eq, Ht. }
  split_and!; [|done|done|done]. split; try done; try lia; cbn; eauto.
  intros j Hj. by rewrite Hte, !list_lookup_alter_ne.
Qed.

(** *** When the pump may stop *)

(** The head of tenant [i]'s queue, if there is one, does not fit its limits. *)
Definition blocked (i : nat) (s : ownerState) : Prop :=
  forall t id rest e, os_tenants s !! i = Some t -> ts_queue t = id :: rest ->
    os_entries s !! id = Some e ->
    inflightFits (ts_counters t) (e_admission e) (vt_inflight (ts_config t)) = false.

(** A funded head waits for global capacity. *)
Definition reserving (s : ownerState) : Prop :=
  exists i t id rest e, os_tenants s !! i = Some t /\ ts_queue t = id :: rest
    /\ os_entries s !! id = Some e /\ a_WorkUnits (e_admission e) <= ts_deficit t
    /\ inflightFits (ts_counters t) (e_admission e) (vt_inflight (ts_config t)) = true
    /\ inflightFits (os_global s) (e_admission e) (vc_globalInflight (os_config s)) = false.

Definition full (s : ownerState) : Prop :=
  inflightFull (os_global s) (vc_globalInflight (os_config s)) = true.

(** The outcome of a loop of [pump] that started with [d] and [n]. *)
Definition loop_post (s0 : ownerState) (d n : bool) (r : pumpFlow * bool * bool) (s' : ownerState)
    : Prop :=
  let '(flow, d', n') := r in
  (n = true -> n' = true) /\
  mu s' <= mu s0 /\ (d' = true -> d = true \/ mu s' < mu s0)
  /\ (n' = true -> n = true \/ mu s' < mu s0)
  /\ (flow = FlowReturn -> full s' \/ reserving s').

Lemma Inv_cursor s c :
  Inv s -> (c < length (os_tenants s))%nat -> Inv (with_cursor s c).
Proof.
  intros [Hs Hh] Hc. split; [|by eapply heap_fine_same]. split; cbn; try apply Hs. done.
Qed.

Definition next_cursor (s : ownerState) : nat :=
  if (S (os_cursor s) =? length (os_tenants s))%nat then 0%nat else S (os_cursor s).

Lemma advance_spec s :
  Inv s -> wp advance (fun _ s' => s' = with_cursor s (next_cursor s) /\ Inv s') s.
Proof.
  intros HI. unfold advance. o_steps. cbn [os_cursor with_cursor os_tenants]. unfold next_cursor.
  pose proof (co_cursor _ (proj1 HI)).
  destruct (Nat.eqb_spec (S (os_cursor s)) (length (os_tenants s))); (split; [done|]).
  - apply (Inv_cursor s 0); [done|lia].
  - apply (Inv_cursor s); [done|lia].
Qed.

(** *** The dispatch loop *)

Definition dispatch_post (i : nat) (s0 : ownerState) (d n : bool) (r : pumpFlow * bool * bool)
    (s' : ownerState) : Prop :=
  visits i s0 s' /\ loop_post s0 d n r s' /\
  (fst (fst r) = FlowNext -> os_cursor s' = os_cursor s0 /\ (blocked i s' \/ snd r = true)).

Lemma dispatch_post_after i s0 s1 d d1 n r s' :
  visits i s0 s1 -> os_cursor s1 = os_cursor s0 -> (d1 = true -> d = true \/ mu s1 < mu s0) ->
  dispatch_post i s1 d1 n r s' -> dispatch_post i s0 d n r s'.
Proof.
  intros Hv Hc Hd (Hv' & Hl & Hn). destruct r as [[flow d'] n'].
  pose proof (vi_mu _ _ _ Hv). pose proof (vi_mu _ _ _ Hv').
  split_and!; [by eapply visits_trans| |].
  - destruct Hl as (H0' & HA & HB & HC & HD). split_and!; [done|lia| | |done].
    + intros Hd'. destruct (HB Hd') as [Hd1|]; [|right; lia].
      destruct (Hd Hd1); [by left|right; lia].
    + intros Hn'. destruct (HC Hn'); [by left|right; lia].
  - intros Hf. destruct (Hn Hf) as [Hcu Hb]. split; [congruence|done].
Qed.

(** A funded head that fits everywhere is charged to the deficit and goes in
    flight. *)
Lemma funded_dispatch s i t id rest e :
  Inv s -> os_tenants s !! i = Some t -> ts_queue t = id :: rest -> ts_visitOpen t = true ->
  os_entries s !! id = Some e -> e_phase e = Some accountingQueued -> e_tenant e = i ->
  inflightFits (ts_counters t) (e_admission e) (vt_inflight (ts_config t)) = true ->
  inflightFits (os_global s) (e_admission e) (vc_globalInflight (os_config s)) = true ->
  a_WorkUnits (e_admission e) <= ts_deficit t -> seen_alive (e_clientCtx e) (e_deadline e) ->
  wp (modify_tenant i (fun t => set_deficit (ts_deficit t -u a_WorkUnits (e_admission e)) t);;
      dispatch id)
    (fun _ s' => visits i s s' /\ mu s' < mu s /\ os_cursor s' = os_cursor s
      /\ os_config s' = os_config s /\ os_inflight s' = os_inflight s ++ [id]
      /\ exists t', os_tenants s' !! i = Some t' /\ ts_queue t' = rest
           /\ (ts_queue t' = [] \/ ts_visitOpen t' = true)
           /\ t' = tenant_serve (e_admission e) (tenant_dequeue id (e_admission e)
                     (set_deficit (ts_deficit t - a_WorkUnits (e_admission e)) t))) s.
Proof.
  intros HI Ht Hq Hop He Hp Hti Hroom Hgroom Hw Hseen. subst i.
  destruct (head_facts s _ t id rest HI Ht Hq) as (e0 & He0 & _ & _ & Hrm).
  replace e0 with e in * by congruence. clear e0 He0.
  destruct (co_tenant _ (proj1 HI) _ t Ht) as (_ & _ & _ & _ & _ & _ & Hcr).
  destruct (co_entry _ (proj1 HI) id e He) as (_ & Hadm & _).
  destruct (tenant_quantum s _ t (proj1 HI) Ht) as [Hqu Hcap].
  pose proof (wf_cap _ (co_wf _ (proj1 HI))) as Hc64.
  o_step. o_step. set (f := fun t => set_deficit (ts_deficit t -u a_WorkUnits (e_admission e)) t).
  set (s1 := with_tenants s _).
  assert (Hft : f t = set_deficit (ts_deficit t - a_WorkUnits (e_admission e)) t).
  { unfold f. destruct Hcr as (? & _). destruct Hadm as [_ ?].
    by rewrite u64_small by (unfold is_u64; lia). }
  assert (HI1 : Inv s1).
  { apply (Inv_tenant s _ f t); rewrite ?Hft; try done.
    destruct Hcr as (? & ? & ?), Hadm as [_ ?]. unfold credit_fine; cbn.
    split_and!; try done; try lia; congruence. }
  assert (Ht1 : os_tenants s1 !! e_tenant e = Some (f t)).
  { cbn. by rewrite list_lookup_alter_eq, Ht. }
  rewrite Hft in Ht1.
  eapply wp_mono; [by eapply (dispatch_spec s1 id e)|].
  intros [] s2 [HI2 Hd].
  destruct (dispatches_visits s1 _ _ id rest e s2 HI1 Ht1) as (Hv & _ & Hcu & Ht2); try done.
  assert (Hev : evolves suffix s s2).
  { etrans; [|apply Hv]. apply (evolves_tenant suffix). intros t0 Ht0. simplify_eq. by rewrite Hft. }
  assert (Hmu : mu s2 < mu s).
  { apply mu_shorter; [apply HI|apply HI2|apply Hev|].
    destruct Hd as (ex & en & e' & -> & _). cbn. lia. }
  split_and!; [|done|done|apply Hev|by destruct Hd as (ex & en & e' & -> & _)|].
  - split; [done|done| |eauto|lia]. intros j Hj. rewrite (vi_others _ _ _ Hv) by done.
    cbn. by rewrite list_lookup_alter_ne.
  - eexists. split; [exact Ht2|]. cbn -[list_Remove]. rewrite Hrm. split; [done|].
    split; [|done]. destruct rest; [by left|by right].
Qed.

(** An unfunded head closes its visit. *)
Lemma close_unfunded s i t id rest e :
  Inv s -> os_tenants s !! i = Some t -> ts_queue t = id :: rest -> ts_visitOpen t = true ->
  os_entries s !! id = Some e -> ts_deficit t < a_WorkUnits (e_admission e) ->
  let s' := with_tenants s (alter (set_visitOpen false) i (os_tenants s)) in
  visits i s s' /\ mu s' < mu s.
Proof.
  intros HI Ht Hq Hop He Hlt s'.
  destruct (co_entry _ (proj1 HI) id e He) as (_ & [_ Hadm] & _).
  destruct (co_tenant _ (proj1 HI) _ t Ht) as (_ & _ & _ & _ & _ & _ & Hcr & Hcl & Hem).
  destruct (visits_tenant s i (set_visitOpen false) t) as [Hv Hmu]; try done.
  - unfold credit_fine; cbn. split_and!; try lia. rewrite Hq. done.
  - unfold need; cbn. rewrite Hop. lia.
  - fold s' in Hv, Hmu. split; [done|]. unfold need in Hmu. cbn in Hmu. rewrite Hop in Hmu. lia.
Qed.

Lemma dequeue_open id a t rest :
  ts_visitOpen t = true -> list_Remove id (ts_queue t) = rest ->
  ts_queue (tenant_dequeue id a t) = [] \/ ts_visitOpen (tenant_dequeue id a t) = true.
Proof.
  unfold tenant_dequeue. cbn. intros Hop ->. destruct rest; [by left|by right].
Qed.

Lemma dispatch_post_next i s d n n' s' :
  visits i s s' -> os_cursor s' = os_cursor s -> (n = true -> n' = true) ->
  (n' = true -> n = true \/ mu s' < mu s) ->
  (blocked i s' \/ n' = true) -> dispatch_post i s d n (FlowNext, d, n') s'.
Proof.
  intros Hv Hc Hn' Hn Hb. split_and!; [done| |done]. pose proof (vi_mu _ _ _ Hv).
  split_and!; [done|lia|by left|done|done].
Qed.

Lemma dispatch_post_return i s d d' n s' :
  visits i s s' -> (d' = true -> d = true \/ mu s' < mu s) -> full s' \/ reserving s' ->
  dispatch_post i s d n (FlowReturn, d', n) s'.
Proof.
  intros Hv Hd Hs. split_and!; [done| |done]. pose proof (vi_mu _ _ _ Hv).
  split_and!; [done|lia|done|by left|done].
Qed.

Lemma blocked_empty i s t : os_tenants s !! i = Some t -> ts_queue t = [] -> blocked i s.
Proof. intros Ht Hq t' id rest e Ht' Hq'. simplify_eq. congruence. Qed.

Lemma closeVisit_spec s i t :
  Inv s -> os_tenants s !! i = Some t -> ts_queue t = [] ->
  wp (closeVisit i) (fun _ s' => s' = s) s.
Proof.
  intros HI Ht Hq. unfold closeVisit. o_steps.
  destruct (co_tenant _ (proj1 HI) _ t Ht) as (_ & _ & _ & _ & _ & _ & _ & _ & Hem).
  destruct (Hem Hq) as [Hd Ho].
  replace (alter (fun t => set_visitOpen false (set_deficit 0 t)) i (os_tenants s)) with (os_tenants s).
  - by destruct s.
  - apply list_eq. intros j. rewrite list_lookup_alter. case_decide as Hj; [|done].
    subst j. rewrite Ht. cbn. f_equal. destruct t; cbn in *. by subst.
Qed.

Lemma evolves_cursor R `{!QueueOrder R} s c : evolves R s (with_cursor s c).
Proof.
  split; cbn; try done; eauto using same_request_refl.
  - intros j t Ht. exists t. split_and!; [done|done|reflexivity].
  - intros id e e' ??. simplify_eq. by left.
Qed.

Lemma visits_cursor i s s' c :
  visits i s s' -> Inv (with_cursor s' c) -> visits i s (with_cursor s' c).
Proof.
  intros [] HI. split; try done. etrans; [exact vi_evolves0|]. apply (evolves_cursor suffix).
Qed.

Lemma dispatchLoop_spec fuel i d n s t :
  Inv s -> os_tenants s !! i = Some t -> (length (ts_queue t) < fuel)%nat ->
  (ts_queue t = [] \/ ts_visitOpen t = true) ->
  wp (dispatchLoop fuel i d n) (dispatch_post i s d n) s.
Proof.
  revert s t d. induction fuel as [|fuel IH]; intros s t d HI Ht Hf Hop; [lia|].
  cbn [dispatchLoop]. o_steps. destruct (ts_queue t) as [|id rest] eqn:Hq.
  { wp_step. apply dispatch_post_next; [by apply visits_refl|done|done|by left|].
    left. by eapply blocked_empty. }
  destruct Hop as [?|Hop]; [done|].
  destruct (head_facts s i t id rest HI Ht Hq) as (e & He & Hp & Hti & Hrm). o_steps. wp_case.
  { wp_step. apply dispatch_post_next; [by apply visits_refl|done|done|by left|left].
    intros t' id' rest' e' Ht' Hq' He'. replace t' with t in * by congruence.
    replace id' with id in * by congruence. by replace e' with e by congruence. }
  wp_case.
  { o_steps. destruct (close_unfunded s i t id rest e) as [Hv Hmu]; try done.
    apply dispatch_post_next; [done|done|done|by right|by right]. }
  o_steps. set (s1 := with_ext s _). assert (HI1 : Inv s1) by (by apply Inv_ticked).
  assert (Hv1 : visits i s s1) by (by apply visits_ticked; [lia|]).
  assert (Hrec : forall dd s2 s3, Inv s2 -> visits i s s2 -> os_cursor s2 = os_cursor s ->
    os_tenants s2 = os_tenants s -> os_entries s2 = os_entries s ->
    Inv s3 /\ leaves s2 id e dd s3 ->
    wp (dispatchLoop fuel i d n) (dispatch_post i s d n) s3).
  { intros dd s2 s3 HI2 Hv2 Hc2 Ht2 He2 [HI3 Hl].
    destruct (leaves_visits s2 i t id rest e dd s3) as (Hv & _ & Hc & Ht3); try done; try congruence.
    eapply wp_mono; [apply (IH s3 _ d HI3 Ht3); [cbn in *; rewrite Hrm; lia|by eapply dequeue_open]|].
    intros r s4. apply dispatch_post_after; [by eapply visits_trans|congruence|by left]. }
  wp_case.
  { eapply wp_bind_mono; [by apply (cancelHead_spec s1 id e)|]. intros [] s2. by apply Hrec. }
  o_steps. set (s2 := with_ext s1 _). assert (HI2 : Inv s2) by (by apply Inv_ticked).
  assert (Hv2 : visits i s s2).
  { eapply visits_trans; [done|]. apply (visits_ticked i s1); [cbn; lia|done]. }
  wp_case.
  { eapply wp_bind_mono; [by apply (expire_spec s2 id e)|]. intros [] s3. by apply Hrec. }
  o_steps. wp_case.
  { wp_step. apply dispatch_post_return; [done|by left|right]. exists i, t, id, rest, e.
    by split_and!. }
  apply wp_assoc. eapply wp_bind_mono.
  { apply (funded_dispatch s2 i t id rest e); try done. by exists (x_tick (os_ext s)). }
  intros [] s3 (Hv3 & Hmu3 & Hc3 & Hcf3 & _ & t3 & Ht3 & Hq3 & Hop3 & _).
  assert (Hv03 : visits i s s3) by (by eapply visits_trans).
  pose proof (vi_mu _ _ _ Hv2) as Hm2. pose proof (vi_inv _ _ _ Hv3) as HI3.
  cbn beta. o_steps. rewrite Hq3. wp_case.
  - assert (Hfull : full s3) by (unfold full; by rewrite Hcf3).
    destruct rest as [|id2 rest2].
    + wp_step. wp_step. eapply wp_mono; [by eapply closeVisit_spec|]. intros [] ? ->. cbn beta.
      eapply wp_mono; [by apply advance_spec|]. intros [] s4 [-> HI4]. wp_step.
      apply dispatch_post_return; [by apply visits_cursor| |by left].
      right. change (mu (with_cursor s3 (next_cursor s3))) with (mu s3). lia.
    + wp_steps. apply dispatch_post_return; [done| |by left]. right. lia.
  - destruct rest as [|id2 rest2].
    + wp_step. eapply wp_mono; [by eapply closeVisit_spec|]. intros [] ? ->. wp_step.
      eapply dispatch_post_after; [exact Hv03|by rewrite Hc3|right; lia|].
      apply dispatch_post_next; [by apply visits_refl|done|done|by left|]. left. by eapply blocked_empty.
    + eapply wp_mono; [apply (IH s3 t3 true HI3 Ht3); [rewrite Hq3; cbn in *; lia|done]|].
      intros r s4. apply dispatch_post_after; [done|by rewrite Hc3|right; lia].
Qed.

(** *** Rounds *)

Definition visit_post (s0 : ownerState) (d n : bool) (r : pumpFlow * bool * bool)
    (s' : ownerState) : Prop :=
  visits (os_cursor s0) s0 s' /\ loop_post s0 d n r s' /\
  (fst (fst r) = FlowNext -> os_cursor s' = next_cursor s0
    /\ (blocked (os_cursor s0) s' \/ snd r = true)).

Lemma evolves_tenants_length R s s' : evolves R s s' -> core s -> core s' ->
  length (os_tenants s') = length (os_tenants s).
Proof. intros Hev Hs Hs'. by rewrite (co_len _ Hs), (co_len _ Hs'), (ev_config _ _ _ Hev). Qed.

Lemma next_cursor_same s s' :
  os_cursor s' = os_cursor s -> length (os_tenants s') = length (os_tenants s) ->
  next_cursor s' = next_cursor s.
Proof. unfold next_cursor. by intros -> ->. Qed.

Lemma visit_spec s d n :
  Inv s -> wp (visit d n) (visit_post s d n) s.
Proof.
  intros HI. set (i := os_cursor s).
  destruct (lookup_lt_is_Some_2 (os_tenants s) i (co_cursor _ (proj1 HI))) as [t Ht].
  unfold visit. o_steps. fold i. o_steps.
  eapply wp_mono; [eapply dropDead_spec; [done..|lia]|]. intros [] s1 [Hv1 Hc1].
  pose proof (vi_inv _ _ _ Hv1) as HI1.
  pose proof (evolves_tenants_length _ _ _ (vi_evolves _ _ _ Hv1) (proj1 HI) (proj1 HI1)) as Hlen1.
  destruct (vi_own _ _ _ Hv1) as [t1 Ht1]; [eauto|]. o_steps.
  destruct (ts_queue t1) as [|id rest] eqn:Hq1.
  { wp_step. eapply wp_mono; [by eapply closeVisit_spec|]. intros [] ? ->. cbn beta. wp_step.
    eapply wp_mono; [by apply advance_spec|]. intros [] s2 [-> HI2]. cbn beta. wp_step.
    pose proof (vi_mu _ _ _ Hv1). split_and!; [by apply visits_cursor| |].
    - split_and!; [done|done|by left|by left|done].
    - intros _. split; [by apply next_cursor_same|]. left. by eapply blocked_empty. }
  wp_step. eapply wp_mono; [eapply fundVisit_spec; [done..|by rewrite Hq1]|].
  intros [] s2 (Hv2 & Hc2 & Ht2). cbn beta. wp_step. destruct (funded_open t1) as [Hop2 Hq2].
  pose proof (vi_inv _ _ _ Hv2) as HI2.
  eapply wp_mono; [eapply (dispatchLoop_spec _ i d n s2 _ HI2 Ht2); [rewrite Hq2, Hq1; cbn; lia|by right]|].
  intros [[flow d'] n'] s3 Hpost3.
  assert (Hpost : dispatch_post i s d n (flow, d', n') s3).
  { eapply dispatch_post_after; [by eapply visits_trans|congruence|by left|done]. }
  destruct Hpost as (Hv & Hl & Hn). cbn beta iota.
  pose proof (vi_inv _ _ _ Hv) as HI3.
  pose proof (evolves_tenants_length _ _ _ (vi_evolves _ _ _ Hv) (proj1 HI) (proj1 HI3)) as Hlen3.
  destruct flow; [|by wp_step].
  destruct (Hn eq_refl) as [Hcur Hb]. wp_step.
  eapply wp_mono; [by apply advance_spec|]. intros [] s4 [-> HI4]. cbn beta. wp_step.
  split_and!; [by apply visits_cursor| |].
  - destruct Hl as (HA & HB & HC & HD & HE). by split_and!.
  - intros _. split; [by apply next_cursor_same|done].
Qed.

Lemma blocked_other s s' i j : visits i s s' -> j <> i -> blocked j s -> blocked j s'.
Proof.
  intros Hv Hne Hb t id rest e Ht Hq He. rewrite (vi_others _ _ _ Hv) in Ht by done.
  destruct (ev_entry _ _ _ (vi_evolves _ _ _ Hv) _ _ He) as (e0 & He0 & (_ & _ & Had & _)).
  rewrite Had. by eapply Hb.
Qed.

(** The tenants that [k] visits from [c] on reach. *)
Definition in_turn (c k len j : nat) : Prop := exists i, (i < k)%nat /\ j = ((c + i) mod len)%nat.

Lemma next_cursor_mod s : (os_cursor s < length (os_tenants s))%nat ->
  next_cursor s = (S (os_cursor s) mod length (os_tenants s))%nat.
Proof.
  intros Hc. unfold next_cursor. destruct (Nat.eqb_spec (S (os_cursor s)) (length (os_tenants s))) as [->|].
  - by rewrite Nat.Div0.mod_same.
  - by rewrite Nat.mod_small by lia.
Qed.

Lemma in_turn_S c k len j :
  (c < len)%nat -> in_turn c (S k) len j -> j = c \/ in_turn (S c mod len) k len j.
Proof.
  intros Hc (i & Hi & ->). destruct i as [|i].
  - left. rewrite Nat.add_0_r. by apply Nat.mod_small.
  - right. exists i. split; [lia|]. rewrite Nat.Div0.add_mod_idemp_l. f_equal. lia.
Qed.

Lemma in_turn_all c len j : (j < len)%nat -> in_turn c len len j.
Proof.
  intros Hj. exists ((j + (len - c mod len)) mod len)%nat.
  pose proof (Nat.mod_upper_bound c len ltac:(lia)). split; [apply Nat.mod_upper_bound; lia|].
  rewrite Nat.Div0.add_mod_idemp_r, <- Nat.Div0.add_mod_idemp_l.
  replace (c mod len + (j + (len - c mod len)))%nat with (j + 1 * len)%nat by lia.
  rewrite Nat.Div0.mod_add. symmetry. by apply Nat.mod_small.
Qed.

Definition round_post (k : nat) (s0 : ownerState) (d n : bool) (r : pumpFlow * bool * bool)
    (s' : ownerState) : Prop :=
  Inv s' /\ evolves suffix s0 s' /\ loop_post s0 d n r s' /\
  (fst (fst r) = FlowNext -> snd r = true \/
    forall j, in_turn (os_cursor s0) k (length (os_tenants s0)) j \/ blocked j s0 -> blocked j s').

Lemma loop_post_trans s0 s1 s2 d n f1 d1 n1 r :
  loop_post s0 d n (f1, d1, n1) s1 -> loop_post s1 d1 n1 r s2 -> loop_post s0 d n r s2.
Proof.
  destruct r as [[f2 d2] n2]. intros (HA & HB & HC & HD & _) (HA' & HB' & HC' & HD' & HE').
  split_and!; [auto|lia| | |done].
  - intros Hd2. destruct (HC' Hd2) as [Hd1|]; [|right; lia]. destruct (HC Hd1); [by left|right; lia].
  - intros Hn2. destruct (HD' Hn2) as [Hn1|]; [|right; lia]. destruct (HD Hn1); [by left|right; lia].
Qed.

Lemma pumpRound_spec k s d n : Inv s -> wp (pumpRound k d n) (round_post k s d n) s.
Proof.
  revert s d n. induction k as [|k IH]; intros s d n HI; cbn [pumpRound].
  { wp_step. split_and!; [done|reflexivity| |].
    - split_and!; [done|lia|by left|by left|done].
    - intros _. right. intros j [(i & Hi & _)|Hb]; [lia|done]. }
  wp_step. eapply wp_mono; [by apply visit_spec|]. intros [[flow d1] n1] s1 (Hv & Hl & Hn).
  pose proof (vi_inv _ _ _ Hv) as HI1. cbn beta iota. destruct flow; [|wp_step; split_and!; try done].
  2: apply (vi_evolves _ _ _ Hv).
  destruct (Hn eq_refl) as [Hcur Hb]. cbn in Hb.
  eapply wp_mono; [by apply IH|]. intros [[f2 d2] n2] s2 (HI2 & Hev2 & Hl2 & Hn2).
  split_and!; [done|etrans; [apply Hv|done]|by eapply loop_post_trans|].
  intros Hf. destruct (Hn2 Hf) as [|Hall]; [by left|]. cbn.
  destruct Hb as [Hb|Hn1]; [right|left; by apply Hl2].
  pose proof (evolves_tenants_length _ _ _ (vi_evolves _ _ _ Hv) (proj1 HI) (proj1 HI1)) as Hlen.
  pose proof (co_cursor _ (proj1 HI)) as Hc.
  intros j Hj. apply Hall. rewrite Hcur, Hlen, next_cursor_mod by done.
  destruct (decide (j = os_cursor s)) as [->|Hne]; [by right|].
  destruct Hj as [Hj|Hj]; [|right; by eapply blocked_other].
  apply in_turn_S in Hj as [->|Hj]; [done|by left|done].
Qed.

(** *** The pump *)

(** Why dispatching stopped. *)
Definition settled (s : ownerState) : Prop :=
  QueuedCount (os_global s) = 0 \/ full s \/ reserving s \/ forall i, blocked i s.

Lemma pumpLoop_spec fuel s :
  Inv s -> mu s < Z.of_nat fuel ->
  wp (pumpLoop fuel) (fun _ s' => Inv s' /\ evolves suffix s s' /\ settled s') s.
Proof.
  revert s. induction fuel as [|fuel IH]; intros s HI Hf.
  { pose proof (mu_nonneg s (proj1 HI)). lia. }
  cbn [pumpLoop]. o_steps. destruct (global_limits s (proj1 HI)) as [Hg _].
  unfold counters_le in Hg. cbn [QueuedCount zeroCounters] in Hg. wp_case.
  { wp_step. split_and!; [done|reflexivity|left; lia]. }
  o_steps. eapply wp_mono; [by apply pumpRound_spec|].
  intros [[flow d] n] s1 (HI1 & Hev & (_ & Hmu & Hd & Hn & Hret) & Hnext). cbn beta iota.
  destruct flow; [|wp_step; split_and!; try done; destruct Hret; [done|right; by left|do 2 right; by left]].
  o_steps. wp_case.
  { wp_step. split_and!.
    - apply Inv_cursor; [done|]. pose proof (co_cursor _ (proj1 HI1)). lia.
    - etrans; [exact Hev|]. eapply (evolves_cursor suffix).
    - by left. }
  wp_case.
  { wp_step. split_and!; [done|done|]. do 3 right. intros j.
    destruct (Hnext eq_refl) as [Hn1|Hall]; [cbn in Hn1; congruence|].
    destruct (decide (j < length (os_tenants s))%nat) as [Hj|Hj].
    - apply Hall. left. by apply in_turn_all.
    - intros t id rest e Ht. apply lookup_lt_Some in Ht.
      rewrite (evolves_tenants_length _ _ _ Hev (proj1 HI) (proj1 HI1)) in Ht. lia. }
  assert (mu s1 < mu s).
  { destruct d; [destruct (Hd eq_refl); done|]. destruct n; [destruct (Hn eq_refl); done|]. by destruct H2. }
  eapply wp_mono; [apply IH; [done|lia]|]. intros [] s2 (HI2 & Hev2 & Hst).
  split_and!; [done|by etrans|done].
Qed.

Lemma pump_spec s :
  Inv s -> wp pump (fun _ s' => Inv s' /\ evolves suffix s s' /\ settled s') s.
Proof.
  intros HI. unfold pump. o_steps. destruct (os_tenants s) as [|t0 ts] eqn:Hts.
  { pose proof (co_cursor _ (proj1 HI)) as Hc. rewrite Hts in Hc. cbn in Hc. lia. }
  o_steps. wp_case.
  { wp_step. split_and!; [done|reflexivity|right; by left]. }
  o_steps. apply pumpLoop_spec; [done|]. by apply pumpFuel_enough, HI.
Qed.
End pump.
