(* ===== verification/AdmissionHandle.v ===== *)
(** * Admission: the owner's commands

    Every command handler keeps the invariant, and says exactly what it does to
    the request it is about; everything else it leaves as [grows] says. *)

From S2P Require Import Prelude AdmissionConfig GoHeap AdmissionOwner AdmissionInv AdmissionSteps.
From S2P Require Import AdmissionArrive AdmissionPump.

(** An id the owner has heard of. *)
Definition known (s : ownerState) (id : Z) : Prop :=
  is_Some (os_entries s !! id) \/ is_Some (x_results (os_ext s) !! id)
  \/ is_Some (x_causes (os_ext s) !! id).

(** Any work of the owner: [A] are the ids it was asked to admit, [F] the ones
    it was asked to finish. *)
Record grows (A F : Z -> Prop) (s s' : ownerState) : Prop := {
  gr_config : os_config s' = os_config s;
  gr_results : x_results (os_ext s) ⊆ x_results (os_ext s');
  gr_causes : x_causes (os_ext s) ⊆ x_causes (os_ext s');
  gr_tick : (x_tick (os_ext s) <= x_tick (os_ext s'))%nat;
  gr_known : forall id, known s' id -> known s id \/ A id;
  gr_entry : forall id e', os_entries s' !! id = Some e' ->
    A id \/ exists e, os_entries s !! id = Some e /\ same_request e e';
  gr_waiting : forall id, waiting (os_entries s) id ->
    waiting (os_entries s') id \/ is_Some (x_results (os_ext s') !! id);
  gr_rewait : forall id, waiting (os_entries s') id ->
    waiting (os_entries s) id \/ (A id /\ os_accepting s = true);
  gr_serving : forall id, serving (os_entries s) id -> serving (os_entries s') id \/ F id;
  gr_accepting : os_accepting s' = true -> os_accepting s = true;
  gr_quiet : os_accepting s = true -> os_accepting s' = false -> forall id, ~ waiting (os_entries s') id;
  gr_flags : (x_drained (os_ext s) = true -> x_drained (os_ext s') = true)
    /\ (x_done (os_ext s) = true -> x_done (os_ext s') = true);
}.

Definition none : Z -> Prop := fun _ => False.

#[export] Instance grows_preorder A F : PreOrder (grows A F).
Proof.
  split.
  - intros s. split; try done; eauto using same_request_refl. intros; congruence.
  - intros s1 s2 s3 [] []. split; try (etrans; eassumption); try congruence; auto.
    + intros id Hk. destruct (gr_known1 id Hk); auto.
    + intros id e3 He3. destruct (gr_entry1 id e3 He3) as [|(e2 & He2 & Hs2)]; [by left|].
      destruct (gr_entry0 id e2 He2) as [|(e1 & He1 & Hs1)]; [by left|right].
      exists e1. split; [done|]. by eapply same_request_trans.
    + intros id Hw. destruct (gr_waiting0 id Hw) as [|[r Hr]]; [auto|].
      right. exists r. by eapply lookup_weaken.
    + intros id Hw. destruct (gr_rewait1 id Hw) as [|[? ?]]; auto.
    + intros id Hw. destruct (gr_serving0 id Hw) as [|]; auto.
    + intros Ha1 Ha3 id Hw. destruct (os_accepting s2) eqn:Ha2; [by apply (gr_quiet1 eq_refl Ha3 id)|].
      destruct (gr_rewait1 id Hw) as [Hw2|[_ ?]]; [|congruence]. by apply (gr_quiet0 Ha1 eq_refl id).
    + destruct gr_flags0, gr_flags1. auto.
Qed.

Lemma grows_weaken (A A' F F' : Z -> Prop) s s' :
  (forall id, A id -> A' id) -> (forall id, F id -> F' id) -> grows A F s s' -> grows A' F' s s'.
Proof.
  intros HA HF []. split; try done.
  - intros id Hk. destruct (gr_known0 id Hk); auto.
  - intros id e' He'. destruct (gr_entry0 id e' He'); auto.
  - intros id Hw. destruct (gr_rewait0 id Hw) as [|[? ?]]; auto.
  - intros id Hw. destruct (gr_serving0 id Hw); auto.
Qed.

Lemma evolves_grows A F R s s' : evolves R s s' -> grows A F s s'.
Proof.
  intros []. destruct ev_flags as (Ha & _ & Hd & Hdo & _). split; try done; auto; try congruence.
  - by rewrite ev_causes.
  - intros id [[e' He']|[Hr|Hc]]; left.
    + destruct (ev_entry _ _ He') as (e & He & _). left. eauto.
    + destruct (ev_known _ Hr) as [|(e & He & _)]; [by right; left|left; eauto].
    + right. right. by rewrite <- ev_causes.
  - intros id (e' & He' & Hp'). left. destruct (ev_entry _ _ He') as (e & He & _). exists e.
    split; [done|]. destruct (ev_phase _ _ _ He He'); congruence.
  - split; congruence.
Qed.

Create HintDb admission.
#[export] Hint Resolve evolves_grows same_request_refl : admission.

(** ** The verdict on a request *)

(** The first limit that one more request would exceed, over unbounded
    integers. *)
Definition exceeded (c : Counters) (a : Admission) (l : QueueLimits) : ResourceKind :=
  if ql_Count l <? QueuedCount c + 1 then ResourceCount
  else if ql_Bytes l <? QueuedBytes c + a_BodyBytes a then ResourceBytes
  else if ql_Work l <? QueuedWork c + a_WorkUnits a then ResourceWork
  else ResourceNone.

Lemma queueLimitFailure_exceeded c a l :
  counters_le zeroCounters c -> fair_admission a -> typed_queue l ->
  queueLimitFailure c a l = exceeded c a l.
Proof.
  unfold counters_le, fair_admission, typed_queue, queueLimitFailure, exceeded. cbn.
  intros Hc Ha Hl. rewrite !fits_spec by (unfold is_u64 in *; lia).
  repeat case_bool_decide; cbn; repeat case_match; try done; lia.
Qed.

(** What [admitItem] decides for a request it reads at [now]; [None] queues it. *)
Definition verdict `{World} (s : ownerState) (item : entry) (now : Z) : option Decision :=
  let tick := x_tick (os_ext s) in
  if negb (os_accepting s) then Some (MkDecision DecisionDraining ResourceNone)
  else if w_err tick (e_clientCtx item) then Some (MkDecision DecisionCanceledQueued ResourceNone)
  else match vc_tenantByID (os_config s) !! a_Tenant (e_admission item) with
  | None => Some (MkDecision DecisionInvalid ResourceNone)
  | Some i =>
      if negb (now <? e_deadline item)
      then Some (expired_decision (w_err (S tick) (e_clientCtx item)) (e_deadlineSource item))
      else
        match os_tenants s !! i with
        | None => None
        | Some t =>
            match exceeded (ts_counters t) (e_admission item) (vt_queue (ts_config t)) with
            | ResourceNone =>
                match exceeded (os_global s) (e_admission item) (vc_globalQueue (os_config s)) with
                | ResourceNone => None
                | r => Some (MkDecision DecisionGlobalRejected r)
                end
            | r => Some (MkDecision DecisionTenantRejected r)
            end
        end
  end.

(** A request as [Acquire] hands it over: fresh, and checked against the
    configuration. *)
Definition fresh_item (s : ownerState) (item : entry) : Prop :=
  ~ known s (e_id item) /\ admissible (os_config s) (e_admission item)
  /\ e_cancelCause item = None.

Section handle.
Context `{World}.

(** A result for an id without an entry. *)
Lemma answered_inv s id r n :
  Inv s -> os_entries s !! id = None ->
  Inv (with_ext s (ext_results (ext_tick (os_ext s) n) (<[id := r]> (x_results (os_ext s))))).
Proof.
  intros HI Hid. apply Inv_ext; [done|done|]. intros id' [e He]. cbn. split; [|done].
  rewrite lookup_insert_ne; [done|]. congruence.
Qed.

Lemma answered_grows s id r n :
  x_results (os_ext s) !! id = None -> (x_tick (os_ext s) <= n)%nat ->
  grows (eq id) none s
    (with_ext s (ext_results (ext_tick (os_ext s) n) (<[id := r]> (x_results (os_ext s))))).
Proof.
  intros Hr Hn. split; cbn; try done; auto; eauto with admission.
  - by apply insert_subseteq.
  - intros id' [He|[Hr'|Hc]]; [by left; left| |by left; right; right].
    cbn in Hr'. rewrite lookup_insert in Hr'. case_decide; [by right|left; right; by left].
  - intros; congruence.
Qed.

(** The state after a request joined its tenant's queue. *)
Definition queues (s : ownerState) (item : entry) (i : nat) (s' : ownerState) : Prop :=
  exists e ex en n, s' = with_ext (enqueued s (e_id item) e ex en (os_sequence s +u 1))
      (ext_tick (os_ext s) n)
    /\ (x_tick (os_ext s) <= n)%nat /\ en !! e_id item = Some e
    /\ e_phase e = Some accountingQueued /\ e_tenant e = i
    /\ e_admission e = e_admission item /\ e_clientCtx e = e_clientCtx item
    /\ e_deadline e = e_deadline item /\ e_deadlineSource e = e_deadlineSource item
    /\ erase (delete (e_id item) en) = erase (os_entries s).

Lemma queues_grows s item i s' :
  ~ known s (e_id item) -> os_accepting s = true -> queues s item i s' -> grows (eq (e_id item)) none s s'.
Proof.
  intros Hk Hacc (e & ex & en & n & -> & Hn & He & Hp & _ & _ & _ & _ & _ & Hen).
  assert (Hid : os_entries s !! e_id item = None).
  { destruct (os_entries s !! e_id item) eqn:E; [|done]. destruct Hk. left. eauto. }
  assert (Hback : forall id' e2, id' <> e_id item -> en !! id' = Some e2 ->
    exists e1, os_entries s !! id' = Some e1 /\ same_request e1 e2).
  { intros id' e2 Hne He2. eapply (same_request_erase _ (delete (e_id item) en)); [done|].
    by rewrite lookup_delete_ne. }
  assert (Hforth : forall id' p, (exists e1, os_entries s !! id' = Some e1 /\ e_phase e1 = Some p) ->
    exists e2, en !! id' = Some e2 /\ e_phase e2 = Some p).
  { intros id' p Hw. assert (id' <> e_id item) by (intros ->; destruct Hw as (? & ? & _); congruence).
    apply (erase_phase (delete (e_id item) en)) in Hw as (e2 & He2 & Hp2); [|by symmetry].
    rewrite lookup_delete_ne in He2 by done. eauto. }
  split; cbn; try done; auto.
  - intros id [[e' He']|Hrc]; [|by left; right].
    destruct (decide (id = e_id item)) as [->|Hne]; [by right|left; left].
    destruct (Hback _ _ Hne He') as (? & ? & _). eauto.
  - intros id e' He'. destruct (decide (id = e_id item)) as [->|Hne]; [by left|right]. auto.
  - intros id Hw. left. by apply Hforth.
  - intros id (e' & He' & Hp'). destruct (decide (id = e_id item)) as [->|Hne]; [by right|left].
    apply (erase_phase _ (delete (e_id item) en)); [done|]. exists e'. by rewrite lookup_delete_ne.
  - intros id Hw. left. by apply Hforth.
  - intros; congruence.
Qed.

Definition to_queued (item : entry) (sequence : Z) (i : nat) : entry :=
  set_tenant (set_phase (set_state (set_sequence item sequence)
    (Some entryQueued)) (Some accountingQueued)) i.

(** The statements of [admitItem] that queue a request. *)
Lemma enqueue_spec s item i t :
  Inv s -> fresh_item s item -> os_accepting s = true ->
  vc_tenantByID (os_config s) !! a_Tenant (e_admission item) = Some i ->
  os_tenants s !! i = Some t ->
  within_queue (counters_add (charge_queued (e_admission item)) (ts_counters t))
    (vt_queue (ts_config t)) ->
  within_queue (counters_add (charge_queued (e_admission item)) (os_global s))
    (vc_globalQueue (os_config s)) ->
  let e := to_queued item (os_sequence s +u 1) i in
  wp (modify_tenant i (fun t => set_counters (set_queue t (ts_queue t ++ [e_id item]))
                                  (addQueued (ts_counters t) (e_admission item)));;
      modify (fun s => with_global s (addQueued (os_global s) (e_admission item)));;
      modify (fun s => with_entries s (<[e_id item := e]> (os_entries s)));;
      heap_Push (S := ownerState) (e_id item))
    (fun _ s' => Inv s' /\ queues s item i s') (with_sequence s (os_sequence s +u 1)).
Proof.
  intros [Hs Hh] (Hk & Hadm & Hcc) Hacc Hby Ht Hroom Hgroom e.
  assert (Hid : os_entries s !! e_id item = None).
  { destruct (os_entries s !! e_id item) eqn:E; [|done]. destruct Hk. left. eauto. }
  assert (Hres : x_results (os_ext s) !! e_id item = None).
  { destruct (x_results (os_ext s) !! e_id item) eqn:E; [|done]. destruct Hk. right. left. eauto. }
  assert (Hcs : x_causes (os_ext s) !! e_id item = None).
  { destruct (x_causes (os_ext s) !! e_id item) eqn:E; [|done]. destruct Hk. right. right. eauto. }
  assert (Hnx : e_id item ∉ os_expiry s).
  { rewrite (co_expiry _ Hs). intros (e' & He' & _). congruence. }
  pose proof (admissible_fair _ _ Hadm) as Hfair.
  destruct (tenant_limits s i t Hs Ht) as (Htq & _ & Htn & _).
  destruct (global_limits s Hs) as [Hgn _]. pose proof (wf_gqueue _ (co_wf _ Hs)) as Hgq.
  o_step. o_step. cbn beta. o_steps.
  match goal with |- wp _ _ ?st => assert (Heq : st = enqueued s (e_id item) e (os_expiry s)
    (<[e_id item := e]> (os_entries s)) (os_sequence s +u 1)) end.
  { unfold enqueued, with_entries, with_global, with_tenants, with_sequence. cbn. f_equal.
    - eapply list_alter_at; [done|]. unfold tenant_enqueue, set_counters, set_queue. cbn. f_equal.
      by apply (addQueued_spec _ _ (vt_queue (ts_config t))).
    - by apply (addQueued_spec _ _ (vc_globalQueue (os_config s))). }
  rewrite Heq. eapply wp_mono; [eapply (expiry_push_spec _ (e_id item) e)|].
  { eapply heap_fine_ext; [exact Hh|done|]. cbn. intros id' e' Hin He'.
    exists e'. rewrite lookup_insert_ne; [done|]. by intros <-. }
  { cbn. apply lookup_insert_eq. }
  { done. }
  intros [] s' (ex & en & -> & Hen & Hex & Hh'). cbn in Hen, Hex. split.
  - split; [|done].
    change (core (with_entries (with_expiry (enqueued s (e_id item) e ex
      (<[e_id item := e]> (os_entries s)) (os_sequence s +u 1)) ex) en)).
    apply core_erase; [|done|done]. apply core_enqueued; try done.
    intros t' Ht'. cbn in Ht'. by simplify_eq.
  - destruct (erase_inv _ en (e_id item) e Hen) as (e' & He' & Hs'); [apply lookup_insert_eq|].
    destruct (erase_heap_data _ en (e_id item) e Hen) as (e2 & He2 & Hd);
      [apply lookup_insert_eq|].
    replace e' with e2 in * by congruence.
    assert (Hctx : e_clientCtx e2 = e_clientCtx e /\ e_deadlineSource e2 = e_deadlineSource e)
      by (destruct e2; unfold e in Hs'; cbn in *; injection Hs'; intros; subst; done).
    destruct Hd as (Hp & Hda & Hte & Hdl & _). destruct Hctx as [Hctx Hds].
    exists e2, ex, en, (x_tick (os_ext s)). rewrite Hp, Hte, Hda, Hctx, Hdl, Hds.
    split_and!; try done.
    + unfold enqueued, with_ext, with_entries, with_expiry. cbn. rewrite Hte, Hda. cbn.
      destruct s as [? ? ? ? ? ? ? ? ? ? []]. done.
    + rewrite erase_delete, Hen, erase_insert.
      rewrite delete_insert_id; [done|]. unfold erase. by rewrite lookup_fmap, Hid.
Qed.

Definition admit_post (s : ownerState) (item : entry) (now : Z) (s' : ownerState) : Prop :=
  Inv s' /\ grows (eq (e_id item)) none s s' /\
  match verdict s item now with
  | Some d => x_results (os_ext s') !! e_id item = Some (MkAcquireResult None d)
              /\ exists x, s' = with_ext s x
  | None => exists i, vc_tenantByID (os_config s) !! a_Tenant (e_admission item) = Some i
              /\ queues s item i s'
  end.

(** A request is turned away after [n - tick] readings. *)
Lemma refuse_spec s item now d n :
  Inv s -> fresh_item s item -> verdict s item now = Some d -> (x_tick (os_ext s) <= n)%nat ->
  wp (resolve (e_id item) None d) (fun _ s' => admit_post s item now s')
    (with_ext s (ext_tick (os_ext s) n)).
Proof.
  intros HI (Hk & _) Hv Hn.
  assert (Hres : x_results (os_ext s) !! e_id item = None).
  { destruct (x_results (os_ext s) !! e_id item) eqn:E; [|done]. destruct Hk. right. left. eauto. }
  assert (Hid : os_entries s !! e_id item = None).
  { destruct (os_entries s !! e_id item) eqn:E; [|done]. destruct Hk. left. eauto. }
  apply wp_resolve; [done|]. unfold admit_post. rewrite Hv. split_and!.
  - by apply (answered_inv s (e_id item) _ n).
  - by apply (answered_grows s (e_id item) _ n).
  - cbn. apply lookup_insert_eq.
  - by eexists.
Qed.

Lemma queues_ticked s item i n s' :
  (x_tick (os_ext s) <= n)%nat ->
  queues (with_ext s (ext_tick (os_ext s) n)) item i s' -> queues s item i s'.
Proof.
  intros Hn (e & ex & en & n' & -> & Hn' & Hrest). exists e, ex, en, n'.
  cbn in *. split; [done|]. split; [lia|done].
Qed.

Lemma with_ext_self s : with_ext s (ext_tick (os_ext s) (x_tick (os_ext s))) = s.
Proof. by destruct s as [? ? ? ? ? ? ? ? ? ? []]. Qed.

Lemma exceeded_room c a l :
  counters_le zeroCounters c -> fair_admission a -> typed_queue l ->
  exceeded c a l = ResourceNone -> within_queue (counters_add (charge_queued a) c) l.
Proof. intros Hc Ha Hl He. apply queueLimitFailure_spec; [done..|]. by rewrite queueLimitFailure_exceeded. Qed.

Lemma admit_spec s item now :
  Inv s -> fresh_item s item -> wp (admitItem item now) (fun _ s' => admit_post s item now s') s.
Proof.
  intros HI Hfr. destruct Hfr as (Hk & Hadm & Hcc). pose proof (admissible_fair _ _ Hadm) as Hfair.
  assert (Hfr : fresh_item s item) by done. unfold admitItem. o_steps. wp_case.
  { pose proof (refuse_spec s item now (MkDecision DecisionDraining ResourceNone)
      (x_tick (os_ext s)) HI Hfr) as Hw. rewrite with_ext_self in Hw. apply Hw; [|done].
    unfold verdict. by rewrite H0. }
  o_steps. wp_case.
  { apply refuse_spec; try done; [|lia]. unfold verdict. by rewrite H0, H1. }
  o_steps. cbn [os_config with_ext os_tenants].
  destruct (vc_tenantByID (os_config s) !! a_Tenant (e_admission item)) as [i|] eqn:Hby.
  2:{ apply refuse_spec; try done; [|lia]. unfold verdict. by rewrite H0, H1, Hby. }
  wp_case.
  { unfold deadlineDecision. o_steps. cbn [with_ext os_ext ext_tick x_tick].
    change (with_ext (with_ext s _) _) with (with_ext s (ext_tick (os_ext s) (S (S (x_tick (os_ext s)))))).
    apply refuse_spec; try done; [|lia]. unfold verdict. rewrite H0, H1, Hby.
    destruct (Z.ltb_spec now (e_deadline item)); [lia|]. cbn. f_equal.
    unfold expired_decision. by repeat case_match. }
  assert (exists t, os_tenants s !! i = Some t) as [t Ht].
  { apply wf_byID in Hby as (vt & Hvt & _); [|apply HI]. apply lookup_lt_is_Some_2.
    rewrite (co_len _ (proj1 HI)). by eapply lookup_lt_Some. }
  destruct (tenant_limits s i t (proj1 HI) Ht) as (Htq & _ & Htn & _).
  destruct (global_limits s (proj1 HI)) as [Hgn _].
  pose proof (wf_gqueue _ (co_wf _ (proj1 HI))) as Hgq.
  o_steps. cbn [os_global with_ext]. rewrite !queueLimitFailure_exceeded by done.
  assert (Hv : verdict s item now =
    match exceeded (ts_counters t) (e_admission item) (vt_queue (ts_config t)) with
    | ResourceNone =>
        match exceeded (os_global s) (e_admission item) (vc_globalQueue (os_config s)) with
        | ResourceNone => None | r => Some (MkDecision DecisionGlobalRejected r) end
    | r => Some (MkDecision DecisionTenantRejected r) end).
  { unfold verdict. rewrite H0, H1, Hby, Ht. by destruct (Z.ltb_spec now (e_deadline item)); [|lia]. }
  destruct (exceeded (ts_counters t) _ _) eqn:Hex; [|apply refuse_spec; try done; lia..].
  destruct (exceeded (os_global s) _ _) eqn:Hgex; [|apply refuse_spec; try done; lia..].
  o_step. apply wp_modify. o_steps. set (s1 := with_ext s _).
  eapply wp_mono; [eapply (enqueue_spec s1 item i t); try done|].
  - by apply Inv_ticked.
  - by apply exceeded_room.
  - by apply exceeded_room.
  - intros [] s' [HI' Hq]. apply queues_ticked in Hq; [|lia].
    split_and!; [done|by eapply queues_grows|]. rewrite Hv. by exists i.
Qed.
End handle.
