(* ===== verification/AdmissionFinish.v ===== *)
(** * Admission: cancellation, release and drain

    [cancelEntry], [finishEntry], [beginDrain] and [forceCancelInflight]. *)

From S2P Require Import Prelude AdmissionConfig GoHeap AdmissionOwner AdmissionInv AdmissionSteps.
From S2P Require Import AdmissionArrive AdmissionPump AdmissionHandle.

(** The permit of [id] is canceled for [c]. *)
Definition caused (s : ownerState) (id : Z) (c : cancelCause) (pc : permitCause) (n : nat)
    : ownerState :=
  with_ext (with_entries s (alter (fun e => set_cancelCause e (Some c)) id (os_entries s)))
    (ext_tick (ext_causes (os_ext s) (<[id := pc]> (x_causes (os_ext s)))) n).

Definition tenant_release (a : Admission) (t : tenantState) : tenantState :=
  set_counters t (counters_sub (ts_counters t) (charge_inflight a)).

(** The entry [id] of a finished request is gone. *)
Definition finished (s : ownerState) (id : Z) (e : entry) (x : external) : ownerState :=
  MkOwnerState (os_config s) (alter (tenant_release (e_admission e)) (e_tenant e) (os_tenants s))
    (delete id (os_entries s)) (os_expiry s) (list_Remove id (os_inflight s)) (os_cursor s)
    (os_sequence s) (os_accepting s) (counters_sub (os_global s) (charge_inflight (e_admission e)))
    (os_drainNotified s) x.

Section finish.
Context `{World}.

Lemma state_phase s id e : core s -> os_entries s !! id = Some e ->
  (e_state e = Some entryQueued /\ e_phase e = Some accountingQueued) \/
  (e_state e = Some entryInflight /\ e_phase e = Some accountingInflight).
Proof.
  intros Hs He. destruct (co_entry _ Hs id e He) as (_ & _ & _ & Hp). unfold phase_fine in Hp.
  destruct (e_phase e) as [[]|]; [left|right|done]; tauto.
Qed.

Lemma not_drained_serving s id : core s -> serving (os_entries s) id -> os_drainNotified s = false.
Proof.
  intros Hs (e & He & Hp). destruct (os_drainNotified s) eqn:Hn; [|done].
  destruct (co_drained _ Hs Hn) as [_ Hd]. unfold isDrained in Hd. breflect.
  pose proof (tally_ge of_any _ id e (entries_fair s Hs) He eq_refl) as Hge.
  rewrite <- (co_global _ Hs) in Hge. unfold charge, counters_le in Hge. rewrite Hp in Hge.
  cbn in Hge. lia.
Qed.

(** *** Canceling a permit *)

Lemma core_caused s id e c pc n :
  core s -> os_entries s !! id = Some e -> e_phase e = Some accountingInflight ->
  permit_cause (Some c) = Some pc -> core (caused s id c pc n).
Proof.
  intros Hs He Hp Hpc.
  assert (Hl : forall id' e', alter (fun e => set_cancelCause e (Some c)) id (os_entries s) !! id' = Some e' ->
    exists e0, os_entries s !! id' = Some e0 /\ e' = if decide (id = id') then set_cancelCause e0 (Some c) else e0).
  { intros id' e'. rewrite lookup_alter. case_decide; [subst; intros (e0 & ? & ->)%fmap_Some|]; eauto. }
  assert (Hph : forall id' p, (exists e', alter (fun e => set_cancelCause e (Some c)) id (os_entries s) !! id' = Some e'
      /\ e_phase e' = Some p) <-> exists e', os_entries s !! id' = Some e' /\ e_phase e' = Some p).
  { intros id' p. split.
    - intros (e' & (e0 & He0 & ->)%Hl & Hp'). exists e0. split; [done|]. by case_decide.
    - intros (e0 & He0 & Hp0). rewrite lookup_alter. case_decide; [subst|eauto].
      rewrite He0. cbn. eauto. }
  assert (Hta : forall P, (forall e, P (set_cancelCause e (Some c)) = P e) ->
    tally P (alter (fun e => set_cancelCause e (Some c)) id (os_entries s)) = tally P (os_entries s)).
  { intros P HP. destruct (alter_as_insert (os_entries s) id (fun e => set_cancelCause e (Some c)) e He) as [-> _].
    rewrite tally_insert by apply lookup_delete_eq. rewrite (tally_delete P _ id e He). f_equal.
    unfold charge_if, charge. by rewrite HP. }
  split; cbn; try apply Hs.
  - intros id' e' (e0 & He0 & ->)%Hl. pose proof (co_entry _ Hs id' e0 He0) as Hf.
    case_decide as Hid.
    + subst id'. simplify_eq. destruct Hf as (H1 & H2 & H3 & H4). split_and!; try done.
      unfold phase_fine in *. cbn. rewrite Hp in *. destruct H4 as (? & ? & ? & ?).
      split_and!; try done. cbn. by rewrite lookup_insert_eq.
    + eapply (entry_fine_ext _ (os_ext s)); [done| |exact Hf]. cbn. by rewrite lookup_insert_ne.
  - intros i t Ht. destruct (co_tenant _ Hs i t Ht) as (H1 & H2 & H3 & H4 & H5 & H6 & H7).
    split_and!; try done.
    + intros id'. rewrite H3. unfold waiting_at. split.
      * intros (e0 & He0 & Hw). rewrite lookup_alter. case_decide; [subst|eauto].
        rewrite He0. cbn. eauto.
      * intros (e' & (e0 & He0 & ->)%Hl & Hw). exists e0. split; [done|]. by case_decide.
    + rewrite H4. symmetry. by apply Hta.
  - intros id'. unfold waiting. rewrite Hph. apply (co_expiry _ Hs).
  - destruct (co_inflight _ Hs) as [Hnd Hin]. split; [done|]. intros id'. unfold serving.
    rewrite Hph. apply Hin.
  - rewrite (co_global _ Hs). symmetry. by apply Hta.
Qed.

Lemma caused_inv s id e c pc n :
  Inv s -> os_entries s !! id = Some e -> e_phase e = Some accountingInflight ->
  permit_cause (Some c) = Some pc -> Inv (caused s id c pc n).
Proof.
  intros [Hs Hh] He Hp Hpc. split; [by eapply core_caused|].
  eapply heap_fine_ext; [exact Hh|done|]. cbn. intros id' e' _ He'. rewrite lookup_alter.
  case_decide; [subst; rewrite He'; cbn; eauto|eauto].
Qed.

Lemma caused_grows s id e c pc n :
  os_entries s !! id = Some e -> x_causes (os_ext s) !! id = None ->
  (x_tick (os_ext s) <= n)%nat -> grows none none s (caused s id c pc n).
Proof.
  intros He Hc Hn.
  assert (Hph : forall id' p, (exists e', os_entries s !! id' = Some e' /\ e_phase e' = Some p) ->
    exists e', alter (fun e => set_cancelCause e (Some c)) id (os_entries s) !! id' = Some e' /\ e_phase e' = Some p).
  { intros id' p (e0 & He0 & Hp0). rewrite lookup_alter. case_decide; [subst|eauto].
    rewrite He0. cbn. eauto. }
  split; cbn; try done; auto.
  - by apply insert_subseteq.
  - intros id' [Hk|[Hk|Hk]]; left; cbn in Hk.
    + left. by apply lookup_alter_is_Some in Hk.
    + by right; left.
    + rewrite lookup_insert in Hk. case_decide; [subst; left; eauto|by right; right].
  - intros id' e' He'. right. apply lookup_alter_Some in He' as [(-> & e0 & He0 & ->)|[_ He0]]; eauto with admission.
    exists e0. by split.
  - intros id' Hw. left. by apply Hph.
  - intros id' (e' & He' & Hp'). left.
    apply lookup_alter_Some in He' as [(-> & e0 & He0 & ->)|[_ He0]]; [exists e0|exists e']; done.
  - intros id' Hw. left. by apply Hph.
  - intros; congruence.
Qed.

(** *** [cancelEntry] *)

Definition cancel_post (s : ownerState) (id : Z) (r : CancelResult) (s' : ownerState) : Prop :=
  match os_entries s !! id with
  | None => r = CancelAlreadyTerminal /\ s' = s
  | Some e =>
      match e_phase e, e_cancelCause e with
      | Some accountingInflight, Some _ => r = CancelAlreadyRequested /\ s' = s
      | Some accountingInflight, None =>
          r = CancelApplied /\ s' = caused s id cancelClient errCanceledByClient (x_tick (os_ext s))
      | _, _ => r = CancelApplied
          /\ leaves s id e (MkDecision DecisionCanceledQueued ResourceNone) s'
      end
  end.

Lemma cancel_permit_None s id pc Q :
  x_causes (os_ext s) !! id = None ->
  Q tt (with_ext s (ext_causes (os_ext s) (<[id := pc]> (x_causes (os_ext s))))) ->
  wp (cancel_permit id pc) Q s.
Proof. intros Hc HQ. unfold cancel_permit. apply wp_modify. by rewrite Hc. Qed.

Lemma cancelEntry_spec s id :
  Inv s -> wp (cancelEntry id) (fun r s' => Inv s' /\ grows none none s s' /\ cancel_post s id r s') s.
Proof.
  intros HI. unfold cancelEntry, cancel_post. wp_steps. destruct (os_entries s !! id) as [e|] eqn:He.
  2:{ wp_step. by split_and!. }
  destruct (co_entry _ (proj1 HI) id e He) as (Heid & _ & _ & Hph). unfold phase_fine in Hph.
  destruct (state_phase s id e (proj1 HI) He) as [[Hst Hp]|[Hst Hp]]; rewrite Hst, Hp in *; cbn.
  - wp_case; [|done]. rewrite Heid. apply wp_leave with e; [done..|].
    intros ex en Hen Hex HI'. pose proof (delete_None _ _ _ Hen) as Hno. wp_step.
    apply wp_resolve; [apply Hph|]. wp_step.
    assert (Hl : leaves s id e (MkDecision DecisionCanceledQueued ResourceNone)
      (dismissed s id e (MkDecision DecisionCanceledQueued ResourceNone) 0 ex en)) by (by exists 0%nat, ex, en).
    split_and!; [by apply (dismissed_inv s id e _ 0)| |done|done].
    eapply evolves_grows, (leaves_evolves sublist); [done..| |exact Hl].
    intros. apply list_Remove_sublist.
  - destruct Hph as (_ & _ & Hcs & _). wp_case; [done|]. destruct (e_cancelCause e) as [cc|] eqn:Hcc.
    + wp_case; [|by destruct H1]. wp_step. by split_and!.
    + wp_case; [by destruct H1|]. o_step. o_step. cbn beta. o_step. apply cancel_permit_None; [done|]. wp_step.
      match goal with |- Inv ?st /\ _ =>
        replace st with (caused s id cancelClient errCanceledByClient (x_tick (os_ext s))) by
          (destruct s as [? ? ? ? ? ? ? ? ? ? []]; done) end.
      split_and!; [by eapply caused_inv|by eapply caused_grows|done|done].
Qed.

(** *** [finishEntry] *)

Lemma core_finished s id e x :
  core s -> os_entries s !! id = Some e -> e_phase e = Some accountingInflight ->
  x_results x = x_results (os_ext s) -> x_drained x = x_drained (os_ext s) ->
  (forall id', id' <> id -> x_causes x !! id' = x_causes (os_ext s) !! id') ->
  core (finished s id e x).
Proof.
  intros Hs He Hp Hr Hd Hc. pose proof (entries_fair s Hs id e He) as Hfair.
  assert (Hw : forall i id', waiting_at (delete id (os_entries s)) i id' <-> waiting_at (os_entries s) i id').
  { intros i id'. rewrite waiting_at_delete. split; [tauto|]. intros Hw. split; [|done]. intros ->.
    destruct Hw as (e' & He' & Hp' & _). simplify_eq. }
  split; cbn; try apply Hs.
  - rewrite length_alter. apply Hs.
  - intros id' e' He'. apply lookup_delete_Some in He' as [Hne He'].
    eapply (entry_fine_ext _ (os_ext s)); [by rewrite Hr|by apply Hc|]. by apply (co_entry _ Hs).
  - intros i t Ht. rewrite list_lookup_alter in Ht. case_decide as Hi.
    + subst i. apply fmap_Some in Ht as (t0 & Ht0 & ->).
      destruct (co_tenant _ Hs _ _ Ht0) as (H1 & H2 & H3 & H4 & H5 & H6 & H7).
      split_and!; cbn; try done.
      * intros id'. by rewrite Hw.
      * rewrite (tally_deleted _ _ _ _ He), <- H4. unfold charge_if, of_tenant, charge.
        by rewrite bool_decide_true, Hp.
      * unfold within_queue in *. cbn. lia.
      * destruct Hfair. unfold within_inflight in *. cbn. lia.
    + destruct (co_tenant _ Hs _ _ Ht) as (H1 & H2 & H3 & H4 & H5 & H6 & H7).
      split_and!; try done.
      * intros id'. by rewrite Hw.
      * rewrite (tally_deleted _ _ _ _ He), <- H4. unfold charge_if, of_tenant.
        rewrite bool_decide_false by done. counters_lia.
  - intros id'. unfold waiting. rewrite phase_delete, (co_expiry _ Hs). unfold waiting.
    split; [|tauto]. intros Hx. split; [|done]. intros ->. destruct Hx as (e' & He' & Hp'). congruence.
  - destruct (co_inflight _ Hs) as [Hnd Hin]. split; [by apply NoDup_filter|]. intros id'.
    unfold serving. rewrite phase_delete, elem_of_list_Remove, Hin. done.
  - rewrite (tally_deleted _ _ _ _ He), (co_global _ Hs). unfold charge_if, charge. by rewrite Hp.
  - pose proof (co_gqueue _ Hs). unfold within_queue in *. cbn. lia.
  - pose proof (co_ginflight _ Hs). destruct Hfair. unfold within_inflight in *. cbn. lia.
  - rewrite length_alter. apply Hs.
  - rewrite Hd. apply Hs.
  - intros Hn. rewrite (not_drained_serving s id Hs) in Hn; [done|]. by exists e.
Qed.

Definition final_cause (s : ownerState) (e : entry) : option cancelCause :=
  match e_cancelCause e with
  | None => if w_err (x_tick (os_ext s)) (e_clientCtx e) then Some cancelClient else None
  | c => c
  end.

(** The permit context ends, with the cause it already had if any. *)
Definition finish_ext (x : external) (id : Z) (n : nat) : external :=
  ext_tick (ext_causes x (match x_causes x !! id with
                          | Some _ => x_causes x
                          | None => <[id := errRequestFinished]> (x_causes x) end)) n.

Definition finish_post (s : ownerState) (id : Z) (outcome : ServingOutcome) (r : TerminalResult)
    (s' : ownerState) : Prop :=
  match os_entries s !! id with
  | Some e =>
      match e_phase e with
      | Some accountingInflight =>
          r = MkTerminalResult (terminalOutcome (final_cause s e) outcome) true
          /\ exists n, (x_tick (os_ext s) <= n)%nat /\ s' = finished s id e (finish_ext (os_ext s) id n)
      | _ => r = MkTerminalResult TerminalInternalFailure false /\ s' = s
      end
  | None => r = MkTerminalResult TerminalInternalFailure false /\ s' = s
  end.

Lemma finished_inv s id e n :
  Inv s -> os_entries s !! id = Some e -> e_phase e = Some accountingInflight ->
  Inv (finished s id e (finish_ext (os_ext s) id n)).
Proof.
  intros [Hs Hh] He Hp. split.
  - apply core_finished; try done. intros id' Hne. cbn. case_match; [done|]. by rewrite lookup_insert_ne.
  - eapply heap_fine_ext; [exact Hh|done|]. cbn. intros id' e' Hin He'.
    apply (co_expiry _ Hs) in Hin as (e2 & He2 & Hp2). exists e'. split; [|done].
    rewrite lookup_delete_ne; [done|]. congruence.
Qed.

Lemma finished_grows s id e n :
  os_entries s !! id = Some e -> e_phase e = Some accountingInflight -> (x_tick (os_ext s) <= n)%nat ->
  grows none (eq id) s (finished s id e (finish_ext (os_ext s) id n)).
Proof.
  intros He Hp Hn. split; cbn; try done.
  - case_match; [done|]. by apply insert_subseteq.
  - intros id' [Hk|[Hk|Hk]]; cbn in Hk; left.
    + left. by apply lookup_delete_is_Some in Hk as [_ ?].
    + by right; left.
    + case_match; [by right; right|]. rewrite lookup_insert in Hk.
      case_decide; [subst; left; eauto|by right; right].
  - intros id' e' He'. right. apply lookup_delete_Some in He' as [_ He']. eauto with admission.
  - intros id' Hw. left. apply phase_delete. split; [|done]. intros ->.
    destruct Hw as (e' & He' & Hp'). congruence.
  - intros id' Hw. left. by apply phase_delete in Hw as [_ ?].
  - intros id' Hw. destruct (decide (id = id')) as [->|]; [by right|left]. apply phase_delete. done.
  - intros; congruence.
Qed.

(** The release, from a state that differs from [s] in the entry's cause and
    the readings made. *)
Lemma releaseEntry_spec s id e outcome n e1 E1 :
  Inv s -> os_entries s !! id = Some e -> e_phase e = Some accountingInflight ->
  (x_tick (os_ext s) <= n)%nat -> E1 !! id = Some e1 -> e_tenant e1 = e_tenant e ->
  e_admission e1 = e_admission e -> e_id e1 = id -> delete id E1 = delete id (os_entries s) ->
  wp (releaseEntry id outcome) (fun r s' => Inv s' /\ grows none (eq id) s s'
    /\ r = MkTerminalResult (terminalOutcome (e_cancelCause e1) outcome) true
    /\ exists n, (x_tick (os_ext s) <= n)%nat /\ s' = finished s id e (finish_ext (os_ext s) id n))
    (with_ext (with_entries s E1) (ext_tick (os_ext s) n)).
Proof.
  intros HI He Hp Hn He1 Hte Had Hid1 Hdel.
  destruct (entry_tenant s id e (proj1 HI) He) as [t Ht].
  destruct (tenant_limits s _ t (proj1 HI) Ht) as (_ & _ & _ & Htu).
  destruct (global_limits s (proj1 HI)) as [_ Hgu].
  destruct (charge_tenant s id e t (proj1 HI) He Ht) as [Hct Hcg].
  unfold charge in Hct, Hcg. rewrite Hp in Hct, Hcg.
  pose proof (entries_fair s (proj1 HI) id e He) as Hfair.
  unfold releaseEntry. wp_step. apply wp_get_entry with e1; [done|].
  cbn beta zeta. wp_step. rewrite Hte. apply wp_get_tenant with t; [done|]. cbn beta. rewrite Had.
  rewrite (removeInflight_spec _ _ Htu Hct Hfair). o_steps.
  cbn [os_global with_tenants with_ext with_entries].
  rewrite (removeInflight_spec _ _ Hgu Hcg Hfair). o_steps.
  match goal with |- Inv ?st /\ _ =>
    assert (Heq : st = finished s id e (finish_ext (os_ext s) id n)) end.
  { apply ownerState_eq; try reflexivity; cbn [os_tenants os_entries finished with_ext with_entries
      with_inflight with_global with_tenants]; rewrite ?Hid1.
    - by eapply list_alter_at.
    - by rewrite <- Hdel, (proj2 (alter_as_insert E1 id _ e1 He1)). }
  rewrite Heq. split_and!; [by apply finished_inv|by apply finished_grows|done|by exists n].
Qed.

Lemma finishEntry_spec s id outcome :
  Inv s -> wp (finishEntry id outcome) (fun r s' => Inv s' /\ grows none (eq id) s s'
    /\ finish_post s id outcome r s') s.
Proof.
  intros HI. unfold finishEntry, finish_post. wp_steps.
  destruct (os_entries s !! id) as [e|] eqn:He; [|wp_step; by split_and!].
  destruct (co_entry _ (proj1 HI) id e He) as (Heid & _).
  destruct (state_phase s id e (proj1 HI) He) as [[Hst Hp]|[Hst Hp]]; rewrite Hst, Hp in *.
  { wp_case; [|by destruct H0]. wp_step. by split_and!. }
  wp_case; [by destruct H0|]. unfold final_cause. wp_step.
  destruct (e_cancelCause e) as [cc|] eqn:Hcc; wp_case; try done.
  - wp_step. pose proof (releaseEntry_spec s id e outcome (x_tick (os_ext s)) e (os_entries s)) as Hr.
    rewrite Hcc in Hr. replace (with_entries s (os_entries s)) with s in Hr by (by destruct s).
    rewrite with_ext_self in Hr. by apply Hr.
  - o_steps. destruct (w_err (x_tick (os_ext s)) (e_clientCtx e)) eqn:Herr; cbn iota.
    + o_steps.
      change (with_entries (with_ext s (ext_tick (os_ext s) (S (x_tick (os_ext s))))) ?E)
        with (with_ext (with_entries s E) (ext_tick (os_ext s) (S (x_tick (os_ext s))))).
      eapply wp_mono; [apply (releaseEntry_spec s id e outcome (S (x_tick (os_ext s)))
        (set_cancelCause e (Some cancelClient))
        (alter (fun e => set_cancelCause e (Some cancelClient)) id (os_entries s))); try done; [lia| |]|].
      * by rewrite lookup_alter_eq, He.
      * by apply (alter_as_insert _ _ _ e).
      * done.
    + wp_step. eapply wp_mono; [apply (releaseEntry_spec s id e outcome (S (x_tick (os_ext s))) e
        (os_entries s)); try done; lia|]. by rewrite Hcc.
Qed.
End finish.
