(* ===== verification/AdmissionRun.v ===== *)
(** * Admission: draining, and one turn of the owner's loop

    [beginDrain] empties every queue and answers each of its requests;
    [forceCancelInflight] leaves no permit without a cause.  Then what [run] does
    between two receptions: expire, handle, pump, notify; and the timer it arms
    before it waits again. *)

From S2P Require Import Prelude AdmissionConfig GoHeap AdmissionOwner AdmissionInv AdmissionSteps AdmissionArrive AdmissionPump.
From S2P Require Import AdmissionHandle AdmissionFinish.

Lemma u64_add_l a b : u64 (u64 a + b) = u64 (a + b).
Proof. unfold u64. by rewrite Zplus_mod_idemp_l. Qed.

(** The ids in the queues of the tenants. *)
Definition all_queued (s : ownerState) : list Z := mjoin (map ts_queue (os_tenants s)).

(** Requests that the drain told about the shutdown, and requests that it found
    canceled by their clients. *)
Definition told (s : ownerState) (shut canc : list Z) : Prop :=
  (forall id, id ∈ shut -> x_results (os_ext s) !! id
     = Some (MkAcquireResult None (MkDecision DecisionShutdown ResourceNone)))
  /\ (forall id, id ∈ canc -> x_results (os_ext s) !! id
     = Some (MkAcquireResult None (MkDecision DecisionCanceledQueued ResourceNone))).

Lemma told_later s s' shut canc :
  x_results (os_ext s) ⊆ x_results (os_ext s') -> told s shut canc -> told s' shut canc.
Proof. intros Hsub [Hs Hc]. split; intros id Hid; eapply lookup_weaken; eauto. Qed.

Lemma told_app s shut canc shut' canc' :
  told s shut canc -> told s shut' canc' -> told s (shut ++ shut') (canc ++ canc').
Proof. intros [H1 H2] [H3 H4]. split; intros id [?|?]%elem_of_app; auto. Qed.

Section drain.
Context `{World}.

Lemma leaves_told s id e d s' : leaves s id e d s' ->
  x_results (os_ext s') !! id = Some (MkAcquireResult None d).
Proof. intros (ticks & ex & en & -> & _). cbn. apply lookup_insert_eq. Qed.

Lemma leaves_others s id e d s' j : leaves s id e d s' -> j <> e_tenant e ->
  os_tenants s' !! j = os_tenants s !! j.
Proof. intros (ticks & ex & en & -> & _) Hj. cbn. by rewrite list_lookup_alter_ne. Qed.

Definition drain_post (i : nat) (queue : list Z) (canceled : Z) (s : ownerState) (r : Z)
    (s' : ownerState) : Prop :=
  Inv s' /\ evolves sublist s s'
  /\ (forall j, j <> i -> os_tenants s' !! j = os_tenants s !! j)
  /\ (exists t', os_tenants s' !! i = Some t' /\ ts_queue t' = [])
  /\ exists shut canc, queue ≡ₚ shut ++ canc /\ told s' shut canc
       /\ u64 r = u64 (canceled + Z.of_nat (length shut)).

Lemma drain_post_cons i id rest c c' s s1 r s' e d :
  leaves s id e d s1 -> evolves sublist s s1 ->
  (forall j, j <> i -> os_tenants s1 !! j = os_tenants s !! j) ->
  (d = MkDecision DecisionShutdown ResourceNone /\ c' = c +u 1 \/
   d = MkDecision DecisionCanceledQueued ResourceNone /\ c' = c) ->
  drain_post i rest c' s1 r s' -> drain_post i (id :: rest) c s r s'.
Proof.
  intros Hl Hev Ho Hd (HI & Hev' & Ho' & Ht & shut & canc & Hp & Htold & Hr).
  pose proof (leaves_told _ _ _ _ _ Hl) as Hres.
  assert (Hlater : x_results (os_ext s') !! id = Some (MkAcquireResult None d)).
  { eapply lookup_weaken; [exact Hres|]. apply Hev'. }
  split_and!; [done|by etrans| |done|].
  - intros j Hj. by rewrite Ho', Ho.
  - destruct Hd as [[-> ->]|[-> ->]].
    + exists (id :: shut), canc. split_and!; [by rewrite Hp| |].
      * destruct Htold as [H1 H2]. split; [|done]. intros id' [->|?]%elem_of_cons; auto.
      * rewrite Hr, u64_add_l. f_equal. cbn [length]. lia.
    + exists shut, (id :: canc). split_and!; [|split|done].
      * rewrite Hp. by rewrite Permutation_middle.
      * apply Htold.
      * intros id' [->|?]%elem_of_cons; [done|]. by apply Htold.
Qed.

Lemma drainQueue_spec fuel i c s t :
  Inv s -> os_tenants s !! i = Some t -> (length (ts_queue t) < fuel)%nat ->
  wp (drainQueue fuel i c) (drain_post i (ts_queue t) c s) s.
Proof.
  revert s t c. induction fuel as [|fuel IH]; intros s t c HI Ht Hf; [lia|].
  cbn [drainQueue]. o_steps. destruct (ts_queue t) as [|id rest] eqn:Hq.
  { wp_step. split_and!; [done|reflexivity|done|eauto|]. exists [], [].
    split_and!; [done|split; intros ? []%elem_of_nil|]. f_equal. cbn. lia. }
  destruct (head_facts s i t id rest HI Ht Hq) as (e & He & Hp & Hti & Hrm).
  o_step. o_step. cbn beta. destruct (co_entry _ (proj1 HI) id e He) as (Heid & _ & _ & Hph). unfold phase_fine in Hph.
  rewrite Hp in Hph. rewrite Heid. apply wp_leave with e; [done..|].
  intros ex en Hen Hex HI'. pose proof (delete_None _ _ _ Hen) as Hno. o_steps.
  assert (Hstep : forall d, let s1 := dismissed s id e d 1 ex en in
    Inv s1 /\ leaves s id e d s1 /\ evolves sublist s s1 /\
    (forall j, j <> i -> os_tenants s1 !! j = os_tenants s !! j) /\
    os_tenants s1 !! i = Some (tenant_dequeue id (e_admission e) t)).
  { intros d s1. assert (Hl : leaves s id e d s1) by (by exists 1%nat, ex, en).
    split_and!; [by apply dismissed_inv|done| | |subst i; by eapply leaves_queue].
    - eapply (leaves_evolves sublist); [done..| |done]. intros. apply list_Remove_sublist.
    - intros j Hj. eapply leaves_others; [done|congruence]. }
  wp_case; wp_step; (apply wp_resolve; [apply Hph|]); cbn beta.
  - destruct (Hstep (MkDecision DecisionCanceledQueued ResourceNone)) as (HI1 & Hl & Hev & Ho & Ht1).
    eapply wp_mono; [apply (IH _ _ c HI1 Ht1); cbn -[list_Remove] in *; rewrite Hrm; lia|].
    intros r s2. cbn -[list_Remove drain_post]. rewrite Hrm. eapply drain_post_cons; eauto.
  - destruct (Hstep (MkDecision DecisionShutdown ResourceNone)) as (HI1 & Hl & Hev & Ho & Ht1).
    eapply wp_mono; [apply (IH _ _ (c +u 1) HI1 Ht1); cbn -[list_Remove] in *; rewrite Hrm; lia|].
    intros r s2. cbn -[list_Remove drain_post]. rewrite Hrm. eapply drain_post_cons; eauto.
Qed.

(** Draining the tenants from [i] on. *)
Lemma drainTenants_spec n i c s :
  Inv s -> (i + n = length (os_tenants s))%nat ->
  wp (drainTenants n i c) (fun r s' => Inv s' /\ evolves sublist s s'
    /\ (forall j, (j < i)%nat -> os_tenants s' !! j = os_tenants s !! j)
    /\ (forall j t', (i <= j)%nat -> os_tenants s' !! j = Some t' -> ts_queue t' = [])
    /\ exists shut canc, mjoin (map ts_queue (drop i (os_tenants s))) ≡ₚ shut ++ canc
         /\ told s' shut canc /\ u64 r = u64 (c + Z.of_nat (length shut))) s.
Proof.
  revert i c s. induction n as [|n IH]; intros i c s HI Hlen; cbn [drainTenants].
  { wp_step. split_and!; [done|reflexivity|done| |].
    - intros j t' Hj Ht'. apply lookup_lt_Some in Ht'. lia.
    - exists [], []. rewrite drop_ge by lia.
      split_and!; [done|split; intros ? []%elem_of_nil|]. f_equal. cbn. lia. }
  destruct (lookup_lt_is_Some_2 (os_tenants s) i ltac:(lia)) as [t Ht]. o_steps.
  eapply wp_mono; [eapply drainQueue_spec; [done..|lia]|].
  intros c1 s1 (HI1 & Hev1 & Ho1 & (t1 & Ht1 & Hq1) & shut1 & canc1 & Hp1 & Htold1 & Hr1). cbn beta.
  pose proof (evolves_tenants_length _ _ _ Hev1 (proj1 HI) (proj1 HI1)) as Hlen1.
  eapply wp_mono; [apply IH; [done|lia]|].
  intros r s2 (HI2 & Hev2 & Hl2 & Hq2 & shut2 & canc2 & Hp2 & Htold2 & Hr2).
  split_and!; [done|by etrans| | |].
  - intros j Hj. rewrite Hl2, Ho1 by lia. done.
  - intros j t' Hj Ht'. destruct (decide (j = i)) as [->|]; [|apply (Hq2 j); [lia|done]].
    rewrite Hl2 in Ht' by lia. congruence.
  - exists (shut1 ++ shut2), (canc1 ++ canc2). split_and!.
    + rewrite (drop_S _ t i Ht). cbn. rewrite Hp1.
      assert (Hd : drop (S i) (os_tenants s1) = drop (S i) (os_tenants s)).
      { apply list_eq. intros j. rewrite !lookup_drop. apply Ho1. lia. }
      rewrite Hd in Hp2. rewrite Hp2. solve_Permutation.
    + apply told_app; [|done]. eapply told_later; [apply Hev2|done].
    + rewrite Hr2, <- u64_add_l, Hr1, u64_add_l, length_app. f_equal. lia.
Qed.

(** *** Counting queued ids *)

Lemma tally_count_ge (l : list Z) (E : gmap Z entry) :
  map_Forall (fun _ e => fair_admission (e_admission e)) E -> NoDup l ->
  (forall id, id ∈ l -> waiting E id) -> Z.of_nat (length l) <= QueuedCount (tally of_any E).
Proof.
  revert E. induction l as [|id l IH]; intros E HE Hnd Hw.
  { pose proof (tally_nonneg of_any E HE) as Hn. unfold counters_le in Hn. cbn in *. lia. }
  apply NoDup_cons in Hnd as [Hid Hnd]. destruct (Hw id) as (e & He & Hp); [left|].
  rewrite (tally_delete of_any E id e He). unfold charge_if, charge. rewrite Hp. cbn.
  enough (Z.of_nat (length l) <= QueuedCount (tally of_any (delete id E))) by lia.
  apply IH; [by apply map_Forall_delete|done|]. intros id' Hin. apply phase_delete.
  split; [by intros ->|]. apply Hw. by right.
Qed.

Lemma all_queued_NoDup s : core s -> NoDup (all_queued s).
Proof.
  intros Hs. unfold all_queued.
  assert (Hgen : forall k l, (forall j t, l !! j = Some t -> os_tenants s !! (k + j)%nat = Some t) ->
    NoDup (mjoin (map ts_queue l))).
  2:{ apply (Hgen 0%nat). done. }
  intros k l. revert k. induction l as [|t l IH]; intros k Hl; cbn; [constructor|].
  pose proof (Hl 0%nat t eq_refl) as Ht. rewrite Nat.add_0_r in Ht.
  destruct (co_tenant _ Hs k t Ht) as (_ & Hnd & Hin & _).
  apply NoDup_app. split_and!; [done| |].
  - intros id Hid (q & Hq & (t' & -> & Ht')%list_elem_of_fmap)%list_elem_of_join.
    apply list_elem_of_lookup in Ht' as [j Hj].
    destruct (co_tenant _ Hs _ t' (Hl (S j) t' Hj)) as (_ & _ & Hin' & _).
    destruct (proj1 (Hin id) Hid) as (e & He & _ & Hte).
    destruct (proj1 (Hin' id) Hq) as (e' & He' & _ & Hte').
    assert (e' = e) by congruence. subst e'. lia.
  - apply (IH (S k)). intros j t' Hj. rewrite <- (Hl (S j) t' Hj). f_equal. lia.
Qed.

Lemma all_queued_waiting s id : core s -> id ∈ all_queued s <-> waiting (os_entries s) id.
Proof.
  intros Hs. unfold all_queued. split.
  - intros (q & Hq & (t & -> & Ht)%list_elem_of_fmap)%list_elem_of_join.
    apply list_elem_of_lookup in Ht as [j Hj].
    destruct (co_tenant _ Hs _ t Hj) as (_ & _ & Hin & _).
    destruct (proj1 (Hin id) Hq) as (e & He & Hp & _). by exists e.
  - intros (e & He & Hp). destruct (entry_tenant s id e Hs He) as [t Ht].
    destruct (co_tenant _ Hs _ t Ht) as (_ & _ & Hin & _).
    apply list_elem_of_join. exists (ts_queue t). split; [apply Hin; by exists e|].
    apply list_elem_of_fmap. exists t. split; [done|]. by eapply list_elem_of_lookup_2.
Qed.

Lemma all_queued_bound s : core s -> Z.of_nat (length (all_queued s)) < two64.
Proof.
  intros Hs. destruct (global_limits s Hs) as (_ & _ & Hc & _).
  pose proof (tally_count_ge (all_queued s) (os_entries s) (entries_fair s Hs)
    (all_queued_NoDup s Hs) (fun id => proj1 (all_queued_waiting s id Hs))) as Hge.
  rewrite <- (co_global _ Hs) in Hge. lia.
Qed.

(** *** [beginDrain] *)

Lemma Inv_accepting s : Inv s -> Inv (with_accepting s false).
Proof.
  intros [Hs Hh]. split; [|by eapply heap_fine_same]. split; cbn; try apply Hs.
  intros Hn. split; [done|]. by apply (co_drained _ Hs).
Qed.

Lemma drain_grows R s s' :
  evolves R (with_accepting s false) s' -> (forall id, ~ waiting (os_entries s') id) ->
  grows none none s s'.
Proof.
  intros Hev Hno. pose proof (evolves_grows none none R _ _ Hev) as [].
  split; try done.
  - intros id Hw. by destruct (Hno id).
  - intros Ha. by apply gr_accepting in Ha.
Qed.

Definition begin_drain_post (s : ownerState) (r : DrainResult) (s' : ownerState) : Prop :=
  os_accepting s' = false /\ (forall id, ~ waiting (os_entries s') id)
  /\ x_causes (os_ext s') = x_causes (os_ext s)
  /\ (forall id, serving (os_entries s) id -> serving (os_entries s') id)
  /\ dr_InFlightActiveAtStart r = InflightCount (os_global s')
  /\ exists shut canc, all_queued s ≡ₚ shut ++ canc /\ told s' shut canc
       /\ dr_QueuedShutdownCanceled r = Z.of_nat (length shut).

Lemma u64_idem z : u64 (u64 z) = u64 z.
Proof. apply u64_small, u64_range. Qed.

Lemma drainQueue_u64 fuel i c s r s' :
  is_u64 c -> drainQueue fuel i c s = Done (r, s') -> is_u64 r.
Proof.
  revert c s. induction fuel as [|fuel IH]; intros c s Hc; [done|]. cbn.
  unfold mbind, M_bind. destruct (get_tenant i s) as [[t s1]| |]; [|done..].
  destruct (ts_queue t) as [|id rest].
  { intros [= <- <-]. done. }
  destruct (get_entry id s1) as [[e s2]| |]; [|done..].
  destruct (removeQueued id s2) as [[[] s3]| |]; [|done..].
  destruct (delete_entry _ s3) as [[[] s4]| |]; [|done..].
  destruct (ctx_Err _ s4) as [[[] s5]| |]; [| |done..];
    (destruct (resolve _ _ _ s5) as [[[] s6]| |]; [|done..]); apply IH; [done|apply u64_range].
Qed.

Lemma drainTenants_u64 n i c s r s' :
  is_u64 c -> drainTenants n i c s = Done (r, s') -> is_u64 r.
Proof.
  revert i c s. induction n as [|n IH]; intros i c s Hc.
  { intros [= <- <-]. done. }
  cbn [drainTenants]. unfold mbind, M_bind. destruct (get_tenant i s) as [[t s1]| |]; [|done..].
  destruct (drainQueue _ i c s1) as [[c' s2]| |] eqn:Hd; [|done..].
  apply drainQueue_u64 in Hd; [|done]. by apply IH.
Qed.

Lemma beginDrain_spec s :
  Inv s -> wp beginDrain (fun r s' => Inv s' /\ grows none none s s' /\ begin_drain_post s r s') s.
Proof.
  intros HI. unfold beginDrain. o_steps. set (s0 := with_accepting s false).
  assert (HI0 : Inv s0) by (by apply Inv_accepting).
  destruct (drainTenants_spec (length (os_tenants s)) 0 0 s0 HI0 eq_refl)
    as (c & s1 & Hrun & HI1 & Hev & _ & Hem & shut & canc & Hp & Htold & Hc).
  exists c, s1. split; [exact Hrun|]. o_steps.
  apply drainTenants_u64 in Hrun; [|done]. rewrite u64_small in Hc by done.
  pose proof (all_queued_bound s (proj1 HI)) as Hb.
  assert (Hlen : length (all_queued s) = length (shut ++ canc)) by (by apply Permutation_length).
  rewrite length_app in Hlen. rewrite Z.add_0_l, u64_small in Hc by (unfold is_u64; lia).
  assert (Hno : forall id, ~ waiting (os_entries s1) id).
  { intros id (e & He & Hpe). destruct (entry_tenant s1 id e (proj1 HI1) He) as [t Ht].
    destruct (co_tenant _ (proj1 HI1) _ t Ht) as (_ & _ & Hin & _).
    assert (id ∈ ts_queue t) as Hq by (apply Hin; by exists e).
    rewrite (Hem _ t ltac:(lia) Ht) in Hq. by apply elem_of_nil in Hq. }
  split_and!; [done|by eapply drain_grows|].
  - split_and!; cbn; [apply Hev|done|apply Hev| |done|by exists shut, canc].
    intros id Hsv. by apply (ev_serving _ _ _ Hev).
Qed.

(** *** [forceCancelInflight] *)

(** The permits in [shut] got their cause from the drain. *)
Definition signaled (s s' : ownerState) (ids shut : list Z) : Prop :=
  NoDup shut /\ (forall id, id ∈ shut -> id ∈ ids /\ x_causes (os_ext s) !! id = None
                   /\ x_causes (os_ext s') !! id = Some errCanceledByDrain)
  /\ (forall id, id ∈ ids -> id ∉ shut -> x_causes (os_ext s) !! id = None ->
        x_causes (os_ext s') !! id = Some errCanceledByClient).

(** What forced cancellation leaves as it is. *)
Definition same_books (s s' : ownerState) : Prop :=
  os_tenants s' = os_tenants s /\ os_global s' = os_global s /\ os_inflight s' = os_inflight s
  /\ x_results (os_ext s') = x_results (os_ext s) /\ os_accepting s' = os_accepting s
  /\ forall id, waiting (os_entries s') id <-> waiting (os_entries s) id.

Lemma caused_books s id c pc n : same_books s (caused s id c pc n).
Proof.
  split_and!; try done. intros id'. unfold waiting. cbn. split.
  - intros (e & He & Hp). apply lookup_alter_Some in He as [(-> & e0 & He0 & ->)|[_ He0]]; eauto.
  - intros (e & He & Hp). rewrite lookup_alter. case_decide; [subst|eauto]. rewrite He. cbn. eauto.
Qed.

Lemma same_books_trans s1 s2 s3 : same_books s1 s2 -> same_books s2 s3 -> same_books s1 s3.
Proof.
  intros (A & B & C & D & E & F) (A' & B' & C' & D' & E' & F').
  split_and!; try congruence. intros id. by rewrite F'.
Qed.

Lemma signaled_cons s s1 s' id rest shut d pc :
  id ∉ rest -> x_causes (os_ext s) !! id = None ->
  x_causes (os_ext s1) = <[id := pc]> (x_causes (os_ext s)) ->
  x_causes (os_ext s1) ⊆ x_causes (os_ext s') ->
  (if d : bool then pc = errCanceledByDrain else pc = errCanceledByClient) ->
  signaled s1 s' rest shut ->
  signaled s s' (id :: rest) (if d then id :: shut else shut).
Proof.
  intros Hid Hc Hc1 Hsub Hd (Hnd & Hsh & Hot).
  assert (Hpc : x_causes (os_ext s') !! id = Some pc).
  { eapply lookup_weaken; [|exact Hsub]. rewrite Hc1. apply lookup_insert_eq. }
  assert (Hne : forall id', id' ∈ rest -> x_causes (os_ext s1) !! id' = x_causes (os_ext s) !! id').
  { intros id' Hin. rewrite Hc1, lookup_insert_ne; [done|]. by intros ->. }
  assert (Hsh' : id ∉ shut) by (intros Hin; by apply Hsh in Hin as [? _]).
  destruct d; split_and!.
  - by apply NoDup_cons.
  - intros id' [->|Hin]%elem_of_cons; [split_and!; [left|done|by rewrite Hpc, Hd]|].
    destruct (Hsh id' Hin) as (Hr & Hn & Hs). rewrite Hne in Hn by done. split_and!; [by right|done|done].
  - intros id' [->|Hin]%elem_of_cons Hni Hn; [by destruct Hni; left|].
    apply Hot; [done| |by rewrite Hne]. intros ?. apply Hni. by right.
  - done.
  - intros id' Hin. destruct (Hsh id' Hin) as (Hr & Hn & Hs). rewrite Hne in Hn by done.
    split_and!; [by right|done|done].
  - intros id' [->|Hin]%elem_of_cons Hni Hn; [by rewrite Hpc, Hd|]. apply Hot; [done|done|by rewrite Hne].
Qed.

Lemma signalInflight_spec ids c s :
  Inv s -> NoDup ids -> (forall id, id ∈ ids -> serving (os_entries s) id) ->
  wp (signalInflight ids c) (fun r s' => Inv s' /\ grows none none s s' /\ same_books s s'
    /\ exists shut, signaled s s' ids shut /\ u64 r = u64 (c + Z.of_nat (length shut))
         /\ (is_u64 c -> is_u64 r)) s.
Proof.
  revert c s. induction ids as [|id rest IH]; intros c s HI Hnd Hsv; cbn [signalInflight].
  { wp_step. split_and!; try done. exists []. split_and!; [|f_equal; cbn; lia|done].
    split_and!; [constructor|intros ? []%elem_of_nil|intros ? []%elem_of_nil]. }
  apply NoDup_cons in Hnd as [Hid Hnd]. destruct (Hsv id) as (e & He & Hp); [left|]. o_steps.
  destruct (co_entry _ (proj1 HI) id e He) as (_ & _ & _ & Hph). unfold phase_fine in Hph.
  rewrite Hp in Hph. destruct Hph as (_ & _ & Hcs & _). wp_case.
  2:{ eapply wp_mono; [apply IH; [done|done|]|].
      - intros id' Hin. apply Hsv. by right.
      - intros r s' (HI' & Hg & Hb & shut & (Hs1 & Hs2 & Hs3) & Hr). split_and!; try done.
        exists shut. split; [|done]. split_and!; [done| |].
        + intros id' Hin. destruct (Hs2 id' Hin) as (? & ?). split; [by right|done].
        + intros id' [->|Hin]%elem_of_cons Hni Hn; [|by apply Hs3].
          rewrite Hcs in Hn. by destruct (e_cancelCause e) as [[]|]. }
  rewrite H0 in Hcs. cbn in Hcs. o_steps. set (n := S (x_tick (os_ext s))).
  (* both branches cancel the permit and go on *)
  assert (Hgo : forall (d : bool) cc pc c1, permit_cause (Some cc) = Some pc ->
    (if d then pc = errCanceledByDrain else pc = errCanceledByClient) ->
    c1 = (if d then c +u 1 else c) ->
    wp (signalInflight rest c1) (fun r s' => Inv s' /\ grows none none s s' /\ same_books s s'
      /\ exists shut, signaled s s' (id :: rest) shut /\ u64 r = u64 (c + Z.of_nat (length shut))
           /\ (is_u64 c -> is_u64 r)) (caused s id cc pc n)).
  { intros d cc pc c1 Hpc Hd ->. eapply wp_mono; [apply IH; [by eapply caused_inv|done|]|].
    - intros id' Hin. destruct (Hsv id') as (e' & He' & Hp'); [by right|]. exists e'. cbn.
      rewrite lookup_alter_ne; [done|]. by intros ->.
    - intros r s' (HI' & Hg & Hb & shut & Hs & Hr & Hu). split_and!; [done| | |].
      + etrans; [eapply caused_grows; [done|done|apply Nat.le_succ_diag_r]|done].
      + eapply same_books_trans; [apply caused_books|done].
      + exists (if d then id :: shut else shut). split_and!.
        * eapply (signaled_cons s (caused s id cc pc n)); [done|done|done|apply Hg|done|done].
        * rewrite Hr. destruct d; [rewrite u64_add_l|]; f_equal; cbn [length]; lia.
        * intros Hc. apply Hu. destruct d; [apply u64_range|done]. }
  wp_case; o_step; o_step; cbn beta; o_step; (apply cancel_permit_None; [done|]).
  - by apply (Hgo false cancelClient errCanceledByClient c).
  - by apply (Hgo true cancelShutdown errCanceledByDrain (c +u 1)).
Qed.

Definition force_post (s : ownerState) (r : ForceCancelResult) (s' : ownerState) : Prop :=
  os_accepting s' = false
  /\ (forall id, serving (os_entries s) id -> serving (os_entries s') id)
  /\ (forall id, serving (os_entries s') id -> is_Some (x_causes (os_ext s') !! id))
  /\ exists shut, NoDup shut /\ fc_NewlyShutdownSignaled r = Z.of_nat (length shut)
       /\ forall id, id ∈ shut <-> serving (os_entries s') id
            /\ x_causes (os_ext s) !! id = None
            /\ x_causes (os_ext s') !! id = Some errCanceledByDrain.

Lemma serving_shut_bound (s : ownerState) (l : list Z) :
  core s -> NoDup l -> (forall id, id ∈ l -> serving (os_entries s) id) -> Z.of_nat (length l) < two64.
Proof.
  intros Hs Hnd Hl. destruct (global_limits s Hs) as (_ & _ & _ & _ & _ & Hc & _).
  enough (Z.of_nat (length l) <= InflightCount (tally of_any (os_entries s))) as Hge.
  { rewrite <- (co_global _ Hs) in Hge. lia. }
  pose proof (entries_fair s Hs) as HE. revert HE Hl. generalize (os_entries s). clear Hc Hs.
  induction Hnd as [|id l Hid Hnd IH]; intros E HE Hl.
  { pose proof (tally_nonneg of_any E HE) as Hn. unfold counters_le in Hn. cbn in *. lia. }
  destruct (Hl id) as (e & He & Hp); [left|].
  rewrite (tally_delete of_any E id e He). unfold charge_if, charge. rewrite Hp. cbn.
  enough (Z.of_nat (length l) <= InflightCount (tally of_any (delete id E))) by lia.
  apply IH; [by apply map_Forall_delete|]. intros id' Hin. apply phase_delete.
  split; [by intros ->|]. apply Hl. by right.
Qed.

Lemma forceCancelInflight_spec s :
  Inv s -> wp forceCancelInflight (fun r s' => Inv s' /\ grows none none s s' /\ force_post s r s') s.
Proof.
  intros HI. unfold forceCancelInflight. o_steps.
  (* the drain that comes first if it has not begun *)
  assert (Hfirst : wp (if os_accepting s then beginDrain;; mret tt else mret tt)
    (fun _ s1 => Inv s1 /\ grows none none s s1 /\ os_accepting s1 = false
      /\ x_causes (os_ext s1) = x_causes (os_ext s)
      /\ forall id, serving (os_entries s) id -> serving (os_entries s1) id) s).
  { wp_case; [|wp_step; by split_and!]. eapply wp_bind_mono; [by apply beginDrain_spec|].
    intros r s1 (HI1 & Hg & Hacc & _ & Hc & Hsv & _). wp_step. by split_and!. }
  eapply wp_mono; [exact Hfirst|]. intros [] s1 (HI1 & Hg1 & Hacc & Hc1 & Hsv1). o_steps.
  destruct (co_inflight _ (proj1 HI1)) as [Hnd Hin].
  eapply wp_mono; [apply signalInflight_spec; [done|done|intros id; apply Hin]|].
  intros r s2 (HI2 & Hg2 & (_ & _ & Hinf & _ & Hacc2 & _) & shut & (Hsnd & Hsh & Hot) & Hr & Hu).
  wp_step. split_and!; [done|by etrans|]. destruct (co_inflight _ (proj1 HI2)) as [_ Hin2].
  assert (Hsv : forall id, serving (os_entries s2) id <-> serving (os_entries s1) id).
  { intros id. by rewrite <- Hin, <- Hin2, Hinf. }
  assert (Hdec : forall id, serving (os_entries s1) id -> id ∈ shut \/ x_causes (os_ext s1) !! id <> None
    \/ x_causes (os_ext s2) !! id = Some errCanceledByClient).
  { intros id Hs. destruct (decide (id ∈ shut)); [by left|right].
    destruct (decide (x_causes (os_ext s1) !! id = None)); [right|by left]. apply Hot; [|done|done]. by apply Hin. }
  split_and!; [congruence| | |].
  - intros id Hs. by apply Hsv, Hsv1.
  - intros id Hs%Hsv. destruct (Hdec id Hs) as [Hi|[Hi|Hi]].
    + apply Hsh in Hi as (_ & _ & ->). eauto.
    + destruct (x_causes (os_ext s1) !! id) as [pc|] eqn:E; [|done]. exists pc.
      eapply lookup_weaken; [exact E|apply Hg2].
    + rewrite Hi. eauto.
  - exists shut. split_and!; [done| |].
    + specialize (Hu ltac:(done)). cbn. rewrite u64_small in Hr by done. rewrite Hr, Z.add_0_l.
      apply u64_small. split; [lia|]. apply (serving_shut_bound s1); [apply HI1|done|].
      intros id Hi. apply Hin. by apply Hsh.
    + intros id. rewrite <- Hc1. split.
      * intros Hi. destruct (Hsh id Hi) as (Hs & ? & ?). apply Hin, Hsv in Hs. done.
      * intros (Hs%Hsv & Hn & Hd). destruct (Hdec id Hs) as [|[|]]; [done|done|congruence].
Qed.
End drain.

(** * Admission: one turn of the owner's loop *)

Definition admits (c : command) (id : Z) : Prop :=
  match c with admitCommand item => id = e_id item | _ => False end.
Definition finishes (c : command) (id : Z) : Prop :=
  match c with finishCommand entryID _ => id = entryID | _ => False end.

(** What a sender guarantees about the command it puts in the mailbox. *)
Definition command_fine (s : ownerState) (c : command) : Prop :=
  match c with
  | admitCommand item => fresh_item s item
  | stopCommand => x_drained (os_ext s) = true
  | _ => True
  end.

(** Once admission has stopped, nothing is queued. *)
Definition drain_quiet (s : ownerState) : Prop :=
  os_accepting s = false -> forall id, ~ waiting (os_entries s) id.

Section run.
Context `{World}.

Lemma drain_quiet_grows A F s s' : grows A F s s' -> drain_quiet s -> drain_quiet s'.
Proof.
  intros Hg Hq Ha' id Hw. destruct (os_accepting s) eqn:Ha.
  - by apply (gr_quiet _ _ _ _ Hg Ha Ha' id).
  - destruct (gr_rewait _ _ _ _ Hg id Hw) as [Hw'|[_ Hacc]]; [|congruence]. by apply (Hq Ha id).
Qed.

Lemma fresh_item_grows A F s s' item :
  grows A F s s' -> ~ A (e_id item) -> fresh_item s item -> fresh_item s' item.
Proof.
  intros Hg HA (Hk & Hadm & Hcc). split_and!; [|by rewrite (gr_config _ _ _ _ Hg)|done].
  intros Hk'. by destruct (gr_known _ _ _ _ Hg _ Hk').
Qed.

(** *** [notifyDrained] *)

Definition notified (s : ownerState) : Prop :=
  os_accepting s = false -> isDrained s = true -> x_drained (os_ext s) = true.

Definition only_flags (s s' : ownerState) : Prop :=
  os_config s' = os_config s /\ os_tenants s' = os_tenants s /\ os_entries s' = os_entries s
  /\ os_expiry s' = os_expiry s /\ os_inflight s' = os_inflight s /\ os_cursor s' = os_cursor s
  /\ os_sequence s' = os_sequence s /\ os_accepting s' = os_accepting s
  /\ os_global s' = os_global s /\ x_results (os_ext s') = x_results (os_ext s)
  /\ x_causes (os_ext s') = x_causes (os_ext s) /\ x_done (os_ext s') = x_done (os_ext s)
  /\ x_tick (os_ext s') = x_tick (os_ext s).

Lemma notifyDrained_spec s :
  Inv s -> wp notifyDrained (fun _ s' => Inv s' /\ only_flags s s' /\ notified s'
    /\ (x_drained (os_ext s) = true -> x_drained (os_ext s') = true)) s.
Proof.
  intros [Hs Hh]. unfold notifyDrained. o_steps.
  destruct (os_accepting s) eqn:Ha; cbn [orb].
  { wp_step. split_and!; try done. intros ?; congruence. }
  destruct (isDrained s) eqn:Hd; cbn [negb orb].
  2:{ wp_step. split_and!; try done. intros _ ?; congruence. }
  destruct (os_drainNotified s) eqn:Hn; cbn iota.
  { wp_step. split_and!; try done. intros _ _. by rewrite (co_notified _ Hs). }
  o_steps. eexists _, _. unfold close_drained. cbn [os_ext with_drainNotified].
  rewrite (co_notified _ Hs), Hn. split; [done|]. split_and!; try done.
  split; [|by eapply heap_fine_same]. split; cbn; try apply Hs; done.
Qed.

Lemma only_flags_grows A F s s' :
  only_flags s s' -> (x_drained (os_ext s) = true -> x_drained (os_ext s') = true) -> grows A F s s'.
Proof.
  intros (H1 & H2 & H3 & H4 & H5 & H6 & H7 & H8 & H9 & H10 & H11 & H12 & H13) Hd.
  split; unfold known; rewrite ?H3, ?H10, ?H11, ?H12, ?H13, ?H8; try done; auto; eauto with admission.
  intros; congruence.
Qed.

(** *** [handle] *)

Definition handle_post (s : ownerState) (c : command) (now : Z) (r : bool * response)
    (s' : ownerState) : Prop :=
  match c with
  | admitCommand item => r = (false, respNone) /\ admit_post s item now s'
  | cancelCommand id => exists cr, r = (false, respCancel cr) /\ cancel_post s id cr s'
  | finishCommand id outcome => exists fr, r = (false, respFinish fr) /\ finish_post s id outcome fr s'
  | snapshotCommand => s' = s /\ r = (false, respSnapshot (MkSnapshot (os_accepting s) (os_global s)
      (map (fun t => MkTenantSnapshot (vt_id (ts_config t)) (ts_deficit t) (ts_counters t)) (os_tenants s))))
  | drainCommand => exists dr, r = (false, respDrain dr) /\ begin_drain_post s dr s'
  | forceCancelCommand => exists fr, r = (false, respForceCancel fr) /\ force_post s fr s'
  | stopCommand => s' = s /\ r = (true, respStopped)
  end.

Lemma handle_spec s c now :
  Inv s -> command_fine s c ->
  wp (handle c now) (fun r s' => Inv s' /\ grows (admits c) (finishes c) s s'
    /\ handle_post s c now r s') s.
Proof.
  intros HI Hc. unfold handle. destruct c; cbn [command_fine handle_post] in *.
  - eapply wp_bind_mono; [by apply admit_spec|]. intros [] s' (HI' & Hg & Hp). wp_step.
    split_and!; try done. eapply grows_weaken; [| |exact Hg]; [by intros ? <-|done].
  - eapply wp_bind_mono; [by apply cancelEntry_spec|]. intros r s' (HI' & Hg & Hp). wp_step.
    split_and!; [done| |by exists r]. by eapply grows_weaken.
  - eapply wp_bind_mono; [by apply finishEntry_spec|]. intros r s' (HI' & Hg & Hp). wp_step.
    split_and!; [done| |by exists r]. eapply grows_weaken; [| |exact Hg]; [done|by intros ? <-].
  - unfold snapshot. wp_steps. by split_and!.
  - eapply wp_bind_mono; [by apply beginDrain_spec|]. intros r s' (HI' & Hg & Hp). wp_step.
    split_and!; [done| |by exists r]. by eapply grows_weaken.
  - eapply wp_bind_mono; [by apply forceCancelInflight_spec|]. intros r s' (HI' & Hg & Hp). wp_step.
    split_and!; [done| |by exists r]. by eapply grows_weaken.
  - wp_steps. destruct (co_drained _ (proj1 HI)) as [_ ->]; [by rewrite <- (co_notified _ (proj1 HI))|].
    cbn. wp_step. by split_and!.
Qed.


(** *** A turn *)

Lemma settled_flags s s' : only_flags s s' -> settled s -> settled s'.
Proof.
  intros (H1 & H2 & H3 & _ & _ & _ & _ & _ & H9 & _). unfold settled, full, reserving, blocked.
  by rewrite H1, H2, H3, H9.
Qed.

(** The states a turn goes through when it handles [c], read at [now]. *)
Definition turn (s : ownerState) (c : command) (r : bool * response) (s' : ownerState) : Prop :=
  exists now s1 s2 s3, evolves sublist s s1 /\ none_ready now s1 /\ handle_post s1 c now r s2
    /\ grows (admits c) (finishes c) s1 s2 /\ evolves suffix s2 s3 /\ only_flags s3 s'.

Lemma expire_first s Q (k : Z -> Owner (bool * response)) :
  Inv s -> (forall now s1, now = w_now (x_tick (os_ext s)) -> Inv s1 -> evolves sublist s s1 ->
    none_ready now s1 -> wp (k now) Q s1) ->
  wp (now ← clock_Now; expireReady now;; k now) Q s.
Proof.
  intros HI Hk. o_steps. set (s0 := with_ext s _). assert (HI0 : Inv s0) by (by apply Inv_ticked).
  eapply wp_mono; [by apply expireReady_spec|]. intros [] s1 (HI1 & Hev & Hnr & _).
  apply Hk; [done|done| |done]. etrans; [|exact Hev]. apply (evolves_ticked sublist). lia.
Qed.

Lemma pump_notify_spec s :
  Inv s -> wp (pump;; notifyDrained) (fun _ s' => Inv s' /\ settled s' /\ notified s'
    /\ exists s3, evolves suffix s s3 /\ only_flags s3 s'
         /\ (x_drained (os_ext s3) = true -> x_drained (os_ext s') = true)) s.
Proof.
  intros HI. wp_step. eapply wp_mono; [by apply pump_spec|]. intros [] s3 (HI3 & Hev & Hst).
  eapply wp_mono; [by apply notifyDrained_spec|]. intros [] s4 (HI4 & Hfl & Hno & Hdr).
  split_and!; [done|by eapply settled_flags|done|]. by exists s3.
Qed.

Lemma run_command_spec s c :
  Inv s -> drain_quiet s -> command_fine s c -> c <> stopCommand ->
  wp (run_command c) (fun r s' => Inv s' /\ drain_quiet s' /\ grows (admits c) (finishes c) s s'
    /\ settled s' /\ notified s' /\ fst r = false /\ turn s c r s') s.
Proof.
  intros HI Hq Hc Hns. unfold run_command. apply expire_first; [done|].
  intros now s1 _ HI1 Hev1 Hnr.
  assert (Hg1 : grows none none s s1) by (by eapply evolves_grows).
  assert (Hc1 : command_fine s1 c).
  { destruct c; try done. eapply fresh_item_grows; [exact Hg1|intros []|done]. }
  wp_step. eapply wp_mono; [by apply handle_spec|]. intros [stopped resp] s2 (HI2 & Hg2 & Hp).
  assert (stopped = false) as ->.
  { destruct c; cbn in Hp; try done; destruct_and?; try congruence;
      try (destruct Hp as (? & Hp & _); congruence). }
  cbn beta iota. apply wp_assoc. wp_step. eapply wp_mono; [by apply pump_notify_spec|].
  intros [] s4 (HI4 & Hst & Hno & s3 & Hev3 & Hfl & Hdr). wp_step.
  assert (Hg : grows (admits c) (finishes c) s s4).
  { etrans; [eapply (grows_weaken none _ none); [done|done|exact Hg1]|]. etrans; [exact Hg2|].
    etrans; [eapply evolves_grows; exact Hev3|by eapply only_flags_grows]. }
  split_and!; try done; [by eapply drain_quiet_grows|]. exists now, s1, s2, s3. by split_and!.
Qed.

Lemma run_stop_spec s :
  Inv s -> x_drained (os_ext s) = true ->
  wp (run_command stopCommand) (fun r s' => r = (true, respStopped) /\ Inv s'
    /\ grows none none s s' /\ x_done (os_ext s') = true) s.
Proof.
  intros HI Hd. unfold run_command. apply expire_first; [done|]. intros now s1 _ HI1 Hev1 _.
  wp_step. eapply wp_mono; [apply (handle_spec s1 stopCommand now HI1)|].
  { cbn. destruct (ev_flags _ _ _ Hev1) as (_ & _ & -> & _). done. }
  intros r s2 (HI2 & _ & -> & ->). cbn beta iota. wp_steps. split_and!; try done.
  - by apply Inv_ext.
  - etrans; [eapply evolves_grows; exact Hev1|]. split; cbn; try done; auto; eauto with admission.
    intros; congruence.
Qed.

Lemma run_timer_spec s :
  Inv s -> drain_quiet s ->
  wp run_timer (fun _ s' => Inv s' /\ drain_quiet s' /\ grows none none s s'
    /\ settled s' /\ notified s') s.
Proof.
  intros HI Hq. unfold run_timer. o_steps. set (s0 := with_ext s _).
  assert (HI0 : Inv s0) by (by apply Inv_ticked).
  eapply wp_mono; [by apply expireReady_spec|]. intros [] s1 (HI1 & Hev & _). cbn beta.
  eapply wp_mono; [by apply pump_notify_spec|].
  intros [] s4 (HI4 & Hst & Hno & s3 & Hev3 & Hfl & Hdr).
  assert (Hg : grows none none s s4).
  { trans s0; [apply (evolves_grows _ _ sublist), (evolves_ticked sublist); lia|].
    etrans; [eapply evolves_grows; exact Hev|].
    etrans; [eapply evolves_grows; exact Hev3|by eapply only_flags_grows]. }
  split_and!; try done. by eapply drain_quiet_grows.
Qed.

(** *** The expiry timer *)

(** The timer is armed for the earliest deadline of the queued requests. *)
Definition armed (s : ownerState) (now : Z) (timer : option Z) : Prop :=
  match timer with
  | None => forall id, ~ waiting (os_entries s) id
  | Some d => exists id e, os_entries s !! id = Some e /\ e_phase e = Some accountingQueued
      /\ d = Z.max 0 (time_Sub (e_deadline e) now)
      /\ forall id' e', os_entries s !! id' = Some e' -> e_phase e' = Some accountingQueued ->
            e_deadline e <= e_deadline e'
  end.

Lemma run_head_spec s :
  Inv s -> wp run_head (fun _ s' => Inv s' /\ grows none none s s'
    /\ os_tenants s' = os_tenants s /\ os_entries s' = os_entries s
    /\ os_global s' = os_global s /\ os_config s' = os_config s /\ os_accepting s' = os_accepting s
    /\ x_drained (os_ext s') = x_drained (os_ext s)
    /\ armed s (w_now (x_tick (os_ext s))) (x_timer (os_ext s'))) s.
Proof.
  intros HI. unfold run_head. o_steps. set (s0 := with_ext s _).
  assert (HI0 : Inv s0) by (by apply Inv_ticked).
  unfold resetExpiryTimer. o_steps.
  assert (Hgr : forall v, grows none none s (with_ext s0 (ext_timer (os_ext s0) v))).
  { intros v. split; cbn; try done; auto; eauto with admission; try lia. intros; congruence. }
  change (os_expiry s0) with (os_expiry s). destruct (os_expiry s) as [|id rest] eqn:Hex.
  - o_steps. split_and!; try done; [by apply Inv_ext|]. intros id Hw.
    apply (co_expiry _ (proj1 HI)) in Hw. rewrite Hex in Hw. by apply elem_of_nil in Hw.
  - destruct (expiry_entry s id (proj1 HI)) as (e & He & Hp); [rewrite Hex; left|].
    wp_step. apply wp_get_entry with e; [done|]. o_steps. split_and!; try done; [by apply Inv_ext|].
    exists id, e. split_and!; try done.
    + cbn. destruct (Z.ltb_spec (time_Sub (e_deadline e) (w_now (x_tick (os_ext s)))) 0); lia.
    + intros id' e' He' Hp'. eapply expiry_root; [apply HI|done|done| |done].
      apply (co_expiry _ (proj1 HI)). by exists e'.
Qed.
End run.
