(* ===== verification/AdmissionScheduler.v ===== *)
(** * Admission: the scheduler

    Models [internal/admission/scheduler.go]: the calls that clients make, as
    what they put into the owner's mailbox and what they return, and the whole
    scheduler as a transition system of clients, mailbox, owner and timer. *)

From S2P Require Import Prelude AdmissionConfig GoHeap AdmissionOwner AdmissionInv AdmissionSteps.
From S2P Require Import AdmissionArrive AdmissionPump AdmissionHandle.
From S2P Require Import AdmissionFinish AdmissionRun.

(** ** Accessors of the configuration *)

Definition MaxBodyBytes (v : validatedConfig) : Z := vc_maxBodyBytes v.
Definition MaxRequestUnits (v : validatedConfig) : Z := vc_maxRequestUnits v.
Definition GlobalQueueLimits (v : validatedConfig) : QueueLimits := vc_globalQueue v.

(** [QueueLimits{}, false] for a tenant that is not configured; the index that
    the map holds is in range. *)
Definition TenantQueueLimits (v : validatedConfig) (id : TenantID) : QueueLimits * bool :=
  match vc_tenantByID v !! id with
  | None => (MkQueueLimits 0 0 0, false)
  | Some index =>
      match vc_tenants v !! index with
      | Some t => (vt_queue t, true)
      | None => (MkQueueLimits 0 0 0, true)
      end
  end.

Definition HasTenant (v : validatedConfig) (id : TenantID) : bool :=
  bool_decide (is_Some (vc_tenantByID v !! id)).

(** ** [Acquire] *)

(** Lines 76 to 98, given what [ctx] and the clock answer: the decision that
    [Acquire] returns at once, or the deadline of the request. *)
Definition acquireCheck (config : validatedConfig) (ctxNil : bool) (admission : Admission)
    (ctxErr : bool) (now : Z) (clientDeadline : option Z) : result Decision (Z * deadlineSource) :=
  _ ← guard_err ctxNil (MkDecision DecisionInvalid ResourceNone);
  let decision := validateAdmission config admission in
  _ ← guard_err (bool_decide (d_Kind decision <> DecisionNone)) decision;
  _ ← guard_err ctxErr (MkDecision DecisionCanceledQueued ResourceNone);
  let deadline := now + a_QueueTimeout admission in
  let '(deadline, source) :=
    match clientDeadline with
    | Some c => if negb (deadline <? c) then (c, deadlineClient) else (deadline, deadlineQueue)
    | None => (deadline, deadlineQueue)
    end in
  _ ← guard_err (negb (now <? deadline))
        (match source with
         | deadlineClient => MkDecision DecisionCanceledQueued ResourceNone
         | deadlineQueue => MkDecision DecisionQueueExpired ResourceNone
         end);
  mret (deadline, source).

(** The entry that [Acquire] builds (lines 100 to 108). *)
Definition newEntry (id : Z) (admission : Admission) (ctx deadline : Z) (source : deadlineSource)
    : entry :=
  MkEntry id 0 admission ctx deadline source None None 0 (-1) None.

(** How the first [select] of [Acquire] ends (lines 110 to 116): the command is
    in the mailbox, or [Acquire] returns. *)
Inductive sendArm := SendAccepted | SendCtxDone | SendDone.

Definition acquireSend (arm : sendArm) : option Decision :=
  match arm with
  | SendAccepted => None
  | SendCtxDone => Some (MkDecision DecisionCanceledQueued ResourceNone)
  | SendDone => Some (MkDecision DecisionDraining ResourceNone)
  end.

(** What the rest of [Acquire] observes (lines 118 to 154): the arm that fired,
    what it received there and in the selects nested in it. *)
Inductive waitArm :=
| WaitResult (r : acquireResult) (ctxErr : bool)
| WaitCtxResult (r : acquireResult)
| WaitCtxDoneResult (r : acquireResult)
| WaitCtxDoneNone
| WaitDoneResult (r : acquireResult)
| WaitDoneNone.

(** The returned permit and decision, and the calls made on the way, as the
    commands they send: [s.cancel(item.id)] and [permit.Finish]. *)
Definition acquireWait (id : Z) (arm : waitArm) : (option Permit * Decision) * list command :=
  let beforeStart := (None, MkDecision DecisionCanceledBeforeStart ResourceNone) in
  match arm with
  | WaitResult r ctxErr =>
      match ar_permit r, ctxErr with
      | Some p, true => (beforeStart, [cancelCommand id; finishCommand (p_entryID p) ServingCanceled])
      | _, _ => ((ar_permit r, ar_decision r), [])
      end
  | WaitCtxResult r | WaitCtxDoneResult r =>
      match ar_permit r with
      | Some p => (beforeStart, [cancelCommand id; finishCommand (p_entryID p) ServingCanceled])
      | None => ((None, ar_decision r), [cancelCommand id])
      end
  | WaitCtxDoneNone => ((None, MkDecision DecisionCanceledQueued ResourceNone), [cancelCommand id])
  | WaitDoneResult r => ((ar_permit r, ar_decision r), [])
  | WaitDoneNone => ((None, MkDecision DecisionDraining ResourceNone), [])
  end.

(** ** Requests with a response *)

Inductive sched_error := errSchedulerClosed | errContextNil | errContext.

(** [sendMutating]: what its three selects observe. *)
Definition sendMutating (ctxNil doneFirst ctxErr : bool) (arm : sendArm)
    : result sched_error unit :=
  _ ← guard_err ctxNil errContextNil;
  _ ← guard_err doneFirst errSchedulerClosed;
  _ ← guard_err ctxErr errContext;
  match arm with
  | SendAccepted => Ok tt
  | SendCtxDone => Err errContext
  | SendDone => Err errSchedulerClosed
  end.

Definition send (ctxNil : bool) (arm : sendArm) : result sched_error unit :=
  _ ← guard_err ctxNil errContextNil;
  match arm with
  | SendAccepted => Ok tt
  | SendCtxDone => Err errContext
  | SendDone => Err errSchedulerClosed
  end.

(** The wait for a response: received, or the owner ended and the response is
    in the channel ([Some]) or not. *)
Inductive respArm (A : Type) := RespReceived (a : A) | RespCtxDone | RespDone (a : option A).
Arguments RespReceived {A} a.
Arguments RespCtxDone {A}.
Arguments RespDone {A} a.

Definition await {A} (arm : respArm A) : result sched_error A :=
  match arm with
  | RespReceived a => Ok a
  | RespCtxDone => Err errContext
  | RespDone (Some a) => Ok a
  | RespDone None => Err errSchedulerClosed
  end.

(** [BeginDrain] and [ForceCancelInflight] do not select on [ctx] once the owner
    has the command. *)
Definition mutate {A} (sent : result sched_error unit) (arm : respArm A) : result sched_error A :=
  _ ← sent; await arm.

(** [Close], given what each of its calls and selects observes. *)
Definition Close (doneAtStart : bool) (drained : result sched_error DrainResult)
    (doneAfterDrain : bool) (waited : result sched_error unit)
    (stopSent : result sched_error unit) : result sched_error unit :=
  if doneAtStart then Ok tt
  else
    _ ← match drained with
        | Err errSchedulerClosed => Ok tt
        | Err e => Err e
        | Ok _ => Ok tt
        end;
    if doneAfterDrain then Ok tt
    else
      _ ← waited;
      match stopSent with
      | Err errSchedulerClosed => Ok tt
      | Err e => Err e
      | Ok _ => Ok tt
      end.

(** [WaitDrained], given what its selects observe: [drained] closed at first,
    and then the arm that fired; [ctx.Done] looks at [drained] once more. *)
Inductive drainedArm := DrainedClosed | DrainedCtxDone (closed : bool) | DrainedDone.

Definition WaitDrained (ctxNil closedFirst : bool) (arm : drainedArm) : result sched_error unit :=
  _ ← guard_err ctxNil errContextNil;
  if closedFirst then Ok tt
  else match arm with
       | DrainedClosed | DrainedDone => Ok tt
       | DrainedCtxDone closed => if closed then Ok tt else Err errContext
       end.

(** [cancel] and [finish]: the response, or the value for a scheduler that has
    ended. *)
Definition cancelResult (sent : bool) (arm : respArm CancelResult) : CancelResult :=
  if negb sent then CancelAlreadyTerminal
  else match await arm with Ok r => r | Err _ => CancelAlreadyTerminal end.

Definition finishResult (sent : bool) (arm : respArm TerminalResult) : TerminalResult :=
  if negb sent then MkTerminalResult TerminalInternalFailure false
  else match await arm with Ok r => r | Err _ => MkTerminalResult TerminalInternalFailure false end.

(** ** [Permit.Finish]

    [sync.Once] runs the body for the first caller; the others get the cached
    result.  The model is the sequence of completed calls on one permit. *)

Record finishState := MkFinishState { fs_result : option TerminalResult; fs_sent : list command }.

Definition Permit_Finish (entryID : Z) (outcome : ServingOutcome) (fromOwner : TerminalResult)
    (fs : finishState) : TerminalResult * finishState :=
  match fs_result fs with
  | Some r => (r, fs)
  | None => (fromOwner, MkFinishState (Some fromOwner)
               (fs_sent fs ++ [finishCommand entryID outcome]))
  end.

(** ** The whole scheduler *)

Definition mailboxCapacity : nat := 64.

Record system := MkSystem {
  sy_owner : ownerState;
  sy_mailbox : list command;
  sy_pending : list entry;
  sy_nextID : Z;
  sy_running : bool;
}.

(** Commands that any holder of the scheduler may send at any time. *)
Definition free_command (c : command) : Prop :=
  match c with admitCommand _ | stopCommand => False | _ => True end.

#[export] Instance command_stop_dec (c : command) : base.Decision (c = stopCommand).
Proof. destruct c; (by left) || (by right). Defined.

Section system.
Context `{World}.

(** An iteration of [run] up to the next reception; the flag says whether the
    owner goes on. *)
Definition owner_turn (c : command) : Owner bool :=
  '(stopped, _) ← run_command c;
  if stopped : bool then mret false else run_head;; mret true.

Definition timer_turn : Owner unit := run_timer;; run_head.

(** [newScheduler] and the first statement of [run]'s loop. *)
Definition newScheduler (config : Config) : option system :=
  match validateConfig config with
  | Err _ => None
  | Ok v =>
      match run_head (newOwnerState v) with
      | Done (_, o) => Some (MkSystem o [] [] 0 true)
      | _ => None
      end
  end.

(** The interleavings of clients, owner and timer.  Ids are drawn from a
    64-bit counter; the rule for drawing one stops short of its wrap-around. *)
Inductive sys_step : system -> system -> Prop :=
| step_create o mb pend next run admission ctxErr now cd ctx deadline source :
    acquireCheck (os_config o) false admission ctxErr now cd = Ok (deadline, source) ->
    is_u64 (a_BodyBytes admission) -> is_u64 (a_WorkUnits admission) -> next + 1 < two64 ->
    sys_step (MkSystem o mb pend next run)
      (MkSystem o mb (newEntry (next +u 1) admission ctx deadline source :: pend) (next +u 1) run)
| step_send o mb pend1 item pend2 next run :
    (length mb < mailboxCapacity)%nat ->
    sys_step (MkSystem o mb (pend1 ++ item :: pend2) next run)
      (MkSystem o (mb ++ [admitCommand item]) (pend1 ++ pend2) next run)
| step_abandon o mb pend1 item pend2 next run :
    sys_step (MkSystem o mb (pend1 ++ item :: pend2) next run)
      (MkSystem o mb (pend1 ++ pend2) next run)
| step_request o mb pend next run c :
    free_command c -> (length mb < mailboxCapacity)%nat ->
    sys_step (MkSystem o mb pend next run) (MkSystem o (mb ++ [c]) pend next run)
| step_stop o mb pend next run :
    x_drained (os_ext o) = true -> (length mb < mailboxCapacity)%nat ->
    sys_step (MkSystem o mb pend next run) (MkSystem o (mb ++ [stopCommand]) pend next run)
| step_turn o c mb pend next on o' :
    owner_turn c o = Done (on, o') ->
    sys_step (MkSystem o (c :: mb) pend next true) (MkSystem o' mb pend next on)
| step_timer o mb pend next d o' :
    x_timer (os_ext o) = Some d -> timer_turn o = Done (tt, o') ->
    sys_step (MkSystem o mb pend next true) (MkSystem o' mb pend next true).

Inductive reachable (config : Config) : system -> Prop :=
| reach_init sy : newScheduler config = Some sy -> reachable config sy
| reach_step sy sy' : reachable config sy -> sys_step sy sy' -> reachable config sy'.

(** *** The invariant of the system *)

Definition items (c : command) : list entry := match c with admitCommand item => [item] | _ => [] end.

(** Requests that have an id and are not known to the owner yet. *)
Definition unborn (sy : system) : list entry := mjoin (map items (sy_mailbox sy)) ++ sy_pending sy.

Record sys_inv (sy : system) : Prop := {
  si_inv : Inv (sy_owner sy);
  si_quiet : drain_quiet (sy_owner sy);
  si_notified : sy_running sy = true -> notified (sy_owner sy);
  si_stop : stopCommand ∈ sy_mailbox sy -> x_drained (os_ext (sy_owner sy)) = true;
  si_next : 0 <= sy_nextID sy < two64;
  si_known : forall id, known (sy_owner sy) id -> 0 < id <= sy_nextID sy;
  si_unborn : forall item, item ∈ unborn sy -> 0 < e_id item <= sy_nextID sy
    /\ fresh_item (sy_owner sy) item;
  si_distinct : NoDup (map e_id (unborn sy));
  si_armed : sy_running sy = true -> exists now, armed (sy_owner sy) now (x_timer (os_ext (sy_owner sy)));
  si_settled : sy_running sy = true -> settled (sy_owner sy);
}.

(** *** The initial state *)

Lemma newOwnerState_inv v : wf_config v -> Inv (newOwnerState v).
Proof.
  intros Hwf. pose proof (wf_gqueue _ Hwf) as Hgq. pose proof (wf_ginflight _ Hwf) as Hgi.
  pose proof (wf_units _ Hwf) as Hu.
  split.
  - split; cbn; try done.
    + by rewrite length_map.
    + intros i t Ht. apply list_lookup_fmap_Some in Ht as (vt & -> & Hvt).
      destruct (wf_each _ Hwf i vt Hvt) as (Hq & _ & (Hc & Hb & Hw) & _ & (Hic & Hiw) & _).
      pose proof (wf_body _ Hwf). split_and!; cbn; try done.
      * constructor.
      * intros id. split; [by intros ?%elem_of_nil|]. by intros (e & He & _).
      * unfold within_queue; cbn. lia.
      * unfold within_inflight; cbn. lia.
      * unfold credit_fine; cbn. split_and!; [lia|lia|lia|done].
    + intros id. split; [by intros ?%elem_of_nil|]. by intros (e & He & _).
    + split; [constructor|]. intros id. split; [by intros ?%elem_of_nil|]. by intros (e & He & _).
    + unfold within_queue, typed_queue, is_u64 in *; cbn. lia.
    + unfold within_inflight, typed_inflight, is_u64 in *; cbn. lia.
    + rewrite length_map. apply Hwf.
  - split; [done|]. intros k p x _ Hp. done.
Qed.

Lemma newScheduler_inv config sy :
  typed_config config -> newScheduler config = Some sy -> sys_inv sy /\ exists v,
    validateConfig config = Ok v /\ os_config (sy_owner sy) = v.
Proof.
  intros Hty. unfold newScheduler. destruct (validateConfig config) as [v|] eqn:Hv; [|done].
  pose proof (newOwnerState_inv v (validateConfig_wf _ _ Hty Hv)) as HI.
  destruct (run_head_spec _ HI) as (u & o & Hrun & HI' & Hg & Ht & He & Hgl & Hcf & Hacc & Hdr & Har).
  rewrite Hrun. intros [= <-]. cbn. split; [|exists v; by rewrite Hcf].
  split; cbn; try done.
  - by eapply drain_quiet_grows.
  - intros _ Ha. by rewrite Hacc in Ha.
  - by intros ?%elem_of_nil.
  - intros id Hk. destruct (gr_known _ _ _ _ Hg id Hk) as [[[? ?]|[[? ?]|[? ?]]]|[]]; done.
  - by intros item ?%elem_of_nil.
  - constructor.
  - intros _. exists (w_now 0). unfold armed in *. rewrite He. exact Har.
  - intros _. left. by rewrite Hgl.
Qed.

(** *** Turns *)

(** What every turn of the owner gives. *)
Definition turn_post (A F : Z -> Prop) (o : ownerState) (on : bool) (o' : ownerState) : Prop :=
  Inv o' /\ drain_quiet o' /\ grows A F o o'
  /\ (on = true -> notified o' /\ settled o' /\ exists now, armed o' now (x_timer (os_ext o'))).

Lemma head_after A F o o1 :
  Inv o1 -> drain_quiet o1 -> grows A F o o1 -> notified o1 -> settled o1 ->
  wp run_head (fun _ o' => turn_post A F o true o') o1.
Proof.
  intros HI Hq Hg Hn Hst. eapply wp_mono; [by apply run_head_spec|].
  intros [] o2 (HI2 & Hg2 & Ht & He & Hgl & Hcf & Hacc & Hdr & Har).
  split_and!; [done|by eapply drain_quiet_grows| |intros _; split_and!].
  - etrans; [exact Hg|]. eapply grows_weaken; [| |exact Hg2]; by intros ? [].
  - intros Ha Hd. rewrite Hdr. apply Hn; [congruence|]. unfold isDrained in *. by rewrite Hgl in Hd.
  - unfold settled, full, reserving, blocked in *. by rewrite Hcf, Ht, He, Hgl.
  - eexists. unfold armed in *. rewrite He. exact Har.
Qed.

Lemma owner_turn_spec o c :
  Inv o -> drain_quiet o -> command_fine o c ->
  wp (owner_turn c) (fun on o' => turn_post (admits c) (finishes c) o on o') o.
Proof.
  intros HI Hq Hc. unfold owner_turn. destruct (decide (c = stopCommand)) as [->|Hns].
  - eapply wp_bind_mono; [by apply run_stop_spec|]. intros r o1 (-> & HI1 & Hg & _). cbn beta iota.
    wp_step. split_and!; [done|by eapply drain_quiet_grows| |done].
    eapply grows_weaken; [| |exact Hg]; by intros ? [].
  - eapply wp_bind_mono; [by apply run_command_spec|].
    intros [stopped resp] o1 (HI1 & Hq1 & Hg & Hst & Hn & Hf & _). cbn in Hf. subst stopped.
    cbn beta iota. eapply wp_bind_mono; [by apply head_after|]. intros [] o2 Hp. by wp_step.
Qed.

Lemma timer_turn_spec o :
  Inv o -> drain_quiet o -> wp timer_turn (fun _ o' => turn_post none none o true o') o.
Proof.
  intros HI Hq. unfold timer_turn. eapply wp_bind_mono; [by apply run_timer_spec|].
  intros [] o1 (HI1 & Hq1 & Hg & Hst & Hn). by apply head_after.
Qed.

(** *** Steps keep the invariant *)

Lemma validateAdmission_admissible v a :
  is_u64 (a_BodyBytes a) -> is_u64 (a_WorkUnits a) ->
  d_Kind (validateAdmission v a) = DecisionNone -> admissible v a.
Proof.
  unfold validateAdmission, is_u64, admissible. intros Hb Hw.
  destruct (a_Tenant a =? 0); [done|].
  destruct (_ || _) eqn:E1; [done|]. destruct (_ || _) eqn:E2 in |- *; [done|]. intros _. lia.
Qed.

Lemma acquireCheck_Ok v a err now cd d src :
  acquireCheck v false a err now cd = Ok (d, src) ->
  d_Kind (validateAdmission v a) = DecisionNone /\ err = false /\ now < d <= now + a_QueueTimeout a
  /\ (src = deadlineClient <-> cd = Some d).
Proof.
  unfold acquireCheck. rewrite guard_err_Ok. intros [_ Hc]. rewrite !guard_err_Ok in Hc.
  destruct Hc as (Hk & He & Hc). apply bool_decide_eq_false in Hk.
  assert (Hn : d_Kind (validateAdmission v a) = DecisionNone).
  { destruct (d_Kind (validateAdmission v a)) eqn:E; try done; by destruct Hk. }
  split; [done|]. split; [done|].
  destruct cd as [c|]; [destruct (Z.ltb_spec (now + a_QueueTimeout a) c)|]; cbn in Hc;
    apply guard_err_Ok in Hc as [Hlt Hr]; breflect; injection Hr as <- <-;
    (split; [lia|]); split; intros Heq; try done; simplify_eq; lia.
Qed.

Lemma sys_inv_owner o o' mb mb' pend next on A F :
  sys_inv (MkSystem o mb pend next true) -> turn_post A F o on o' ->
  (forall id, A id -> 0 < id <= next) ->
  (forall c, c ∈ mb' -> c ∈ mb) ->
  NoDup (map e_id (mjoin (map items mb') ++ pend)) ->
  (forall item, item ∈ mjoin (map items mb') ++ pend ->
    item ∈ mjoin (map items mb) ++ pend /\ ~ A (e_id item)) ->
  sys_inv (MkSystem o' mb' pend next on).
Proof.
  intros [] (HI' & Hq' & Hg & Hon) HA Hmb Hnd Hun. cbn in *. split; cbn; try done.
  - intros ->. by apply Hon.
  - intros Hst. apply (gr_flags _ _ _ _ Hg). auto.
  - intros id Hk. destruct (gr_known _ _ _ _ Hg id Hk) as [Hk'|Ha]; auto.
  - intros item Hin. destruct (Hun item Hin) as [Hin' Ha]. destruct (si_unborn0 item Hin') as [Hid Hfr].
    split; [done|]. by eapply fresh_item_grows.
  - intros ->. by apply Hon.
  - intros ->. by apply Hon.
Qed.

Lemma sys_inv_clients o mb mb' pend pend' next run :
  sys_inv (MkSystem o mb pend next run) ->
  (stopCommand ∈ mb' -> x_drained (os_ext o) = true) ->
  mjoin (map items mb') ++ pend' ⊆+ mjoin (map items mb) ++ pend ->
  sys_inv (MkSystem o mb' pend' next run).
Proof.
  intros [] Hst Hsub. cbn in *. split; cbn; try done.
  - intros item Hin. apply si_unborn0. by eapply elem_of_submseteq.
  - apply submseteq_Permutation in Hsub as [k Hk]. unfold unborn in *. cbn in *.
    rewrite Hk, map_app in si_distinct0. by apply NoDup_app in si_distinct0 as [? _].
Qed.

Lemma create_inv o mb pend next run a ctxErr now cd ctx d src :
  sys_inv (MkSystem o mb pend next run) ->
  acquireCheck (os_config o) false a ctxErr now cd = Ok (d, src) ->
  is_u64 (a_BodyBytes a) -> is_u64 (a_WorkUnits a) -> next + 1 < two64 ->
  sys_inv (MkSystem o mb (newEntry (next +u 1) a ctx d src :: pend) (next +u 1) run).
Proof.
  intros [] Hck Hb Hw Hn. cbn in *. rewrite u64_small by (unfold is_u64; lia).
  set (item := newEntry (next + 1) a ctx d src).
  assert (Hperm : mjoin (map items mb) ++ item :: pend ≡ₚ item :: mjoin (map items mb) ++ pend).
  { by rewrite Permutation_middle. }
  split; cbn; try done; try lia.
  - intros id Hk. specialize (si_known0 id Hk). lia.
  - intros it Hin. rewrite Hperm in Hin. apply elem_of_cons in Hin as [->|Hin].
    + cbn. split; [lia|]. split_and!; [| |done].
      * intros Hk. specialize (si_known0 _ Hk). cbn in si_known0. lia.
      * apply acquireCheck_Ok in Hck as [Hck _]. by apply validateAdmission_admissible.
    + destruct (si_unborn0 it Hin) as [? ?]. split; [lia|done].
  - rewrite Hperm. cbn. apply NoDup_cons. split; [|done].
    intros (it & Hid & Hin)%list_elem_of_fmap. destruct (si_unborn0 it Hin) as [? _]. cbn in Hid. lia.
Qed.

(** The command that the owner receives next is as its sender left it. *)
Lemma head_command_fine o c mb pend next run :
  sys_inv (MkSystem o (c :: mb) pend next run) -> command_fine o c.
Proof.
  intros Hsi. destruct c; try done; cbn.
  - apply (si_unborn _ Hsi). unfold unborn; cbn. by left.
  - apply (si_stop _ Hsi). by left.
Qed.

Lemma sys_step_inv sy sy' : sys_inv sy -> sys_step sy sy' -> sys_inv sy'.
Proof.
  intros Hsi Hst. destruct Hst.
  - by eapply create_inv.
  - eapply sys_inv_clients; [exact Hsi| |].
    + intros [Hin|Hin]%elem_of_app; [by apply (si_stop _ Hsi)|]. by apply list_elem_of_singleton in Hin.
    + rewrite map_app, join_app. cbn. rewrite ?app_nil_r. apply Permutation_submseteq. solve_Permutation.
  - eapply sys_inv_clients; [exact Hsi|apply (si_stop _ Hsi)|].
    apply submseteq_app; [done|]. apply submseteq_app; [done|]. by constructor.
  - eapply sys_inv_clients; [exact Hsi| |].
    + intros [Hin|Hin]%elem_of_app; [by apply (si_stop _ Hsi)|].
      apply list_elem_of_singleton in Hin. by subst c.
    + rewrite map_app, join_app. cbn. destruct c; try done; cbn; by rewrite ?app_nil_r.
  - eapply sys_inv_clients; [exact Hsi|done|]. rewrite map_app, join_app. cbn. by rewrite ?app_nil_r.
  - pose proof (head_command_fine _ _ _ _ _ _ Hsi) as Hfine.
    eapply sys_inv_owner; [exact Hsi|eapply wp_run; [apply owner_turn_spec|done]; [apply Hsi|apply Hsi|done]|..].
    + intros id Ha. destruct c; try done. cbn in Ha. subst id. apply (si_unborn _ Hsi). cbn. by left.
    + intros c' Hc'. by right.
    + pose proof (si_distinct _ Hsi) as Hnd. unfold unborn in Hnd. cbn in Hnd.
      rewrite <- app_assoc, map_app in Hnd. by apply NoDup_app in Hnd as (_ & _ & ?).
    + intros it Hin. split.
      * cbn. rewrite <- app_assoc. apply elem_of_app. by right.
      * destruct c; try by intros []. cbn. intros Heq. pose proof (si_distinct _ Hsi) as Hnd.
        unfold unborn in Hnd. cbn in Hnd. apply NoDup_cons in Hnd as [Hnd _]. apply Hnd.
        apply list_elem_of_fmap. by exists it.
  - pose proof (wp_run _ _ _ _ _ (timer_turn_spec o (si_inv _ Hsi) (si_quiet _ Hsi)) H1) as Hp.
    eapply sys_inv_owner; [exact Hsi|exact Hp|..].
    + by intros ? [].
    + done.
    + apply (si_distinct _ Hsi).
    + intros it Hin. split; [done|by intros []].
Qed.

Lemma reachable_inv config sy : typed_config config -> reachable config sy -> sys_inv sy.
Proof.
  intros Hty. induction 1 as [sy Hn|sy sy' _ IH Hst]; [by apply (newScheduler_inv config)|].
  by eapply sys_step_inv.
Qed.
End system.
