(* ===== verification/AdmissionFair.v ===== *)
(** * Admission: no starvation

    While a request waits at the head of its queue and fits its tenant's limits,
    each other tenant can be served so much and no more: what [pump] gives it is
    paid for by an allowance that only an unanswered request of its own renews. *)

From S2P Require Import Prelude AdmissionConfig GoHeap AdmissionOwner AdmissionInv AdmissionSteps.
From S2P Require Import AdmissionArrive AdmissionPump AdmissionHandle.
From S2P Require Import AdmissionFinish AdmissionRun AdmissionScheduler.

(** ** The allowance *)

(** The visits that end without a tenant's head, of [w] units, being funded. *)
Definition visitsNeeded (w : Z) (t : tenantState) : Z :=
  ceil_div (Z.max 0 (w - ts_deficit t)) (vt_quantum (ts_config t))
  + (if ts_visitOpen t && (ts_deficit t <? w) then 1 else 0).

(** The order in which [pump] comes to the tenants, from the cursor on. *)
Definition place (s : ownerState) (k : nat) : nat :=
  if (k <? os_cursor s)%nat then (k + length (os_tenants s))%nat else k.

(** A visit to tenant [j] that will be funded before tenant [i] is visited. *)
Definition ahead (i j : nat) (s : ownerState) (t : tenantState) : Z :=
  if (place s j <? place s i)%nat
  then if (j =? os_cursor s)%nat && ts_visitOpen t then 0 else 1
  else 0.

(** What tenant [j] can be served before tenant [i]'s head, of [w] units, is
    funded: its deficit, and a quantum for each funded visit. *)
Definition allowance (i j : nat) (w : Z) (s : ownerState) : Z :=
  match os_tenants s !! i, os_tenants s !! j with
  | Some ti, Some tj =>
      ts_deficit tj + vt_quantum (ts_config tj) * (visitsNeeded w ti + ahead i j s tj)
  | _, _ => 0
  end.

(** The work of tenant [j] in flight. *)
Definition busy (j : nat) (s : ownerState) : Z :=
  match os_tenants s !! j with Some t => InflightWork (ts_counters t) | None => 0 end.

(** The request [h], of [w] units, is the head of tenant [i]'s queue and fits the
    tenant's limits. *)
Definition held (i : nat) (h w : Z) (s : ownerState) : Prop :=
  exists t rest e, os_tenants s !! i = Some t /\ ts_queue t = h :: rest
    /\ os_entries s !! h = Some e /\ a_WorkUnits (e_admission e) = w
    /\ inflightFits (ts_counters t) (e_admission e) (vt_inflight (ts_config t)) = true.

(** The request [id] was answered without a permit. *)
Definition refused (s : ownerState) (id : Z) : bool :=
  match x_results (os_ext s) !! id with Some r => bool_decide (ar_permit r = None) | None => false end.

(** The requests queued by tenant [j] in [s] that were refused by [s']. *)
Definition lost (j : nat) (s s' : ownerState) : Z :=
  match os_tenants s !! j with
  | Some t => Z.of_nat (length (List.filter (refused s') (ts_queue t)))
  | None => 0
  end.

(** The work of tenant [j] that went in flight between [s] and [s']. *)
Definition units_of (j : nat) (E : gmap Z entry) (id : Z) : Z :=
  match E !! id with
  | Some e => if bool_decide (e_tenant e = j) then a_WorkUnits (e_admission e) else 0
  | None => 0
  end.
Definition served (j : nat) (s s' : ownerState) : Z :=
  sumZ (units_of j (os_entries s'))
    (List.filter (fun id => bool_decide (id ∉ os_inflight s)) (os_inflight s')).

(** ** Tenants *)

(** Requests of a tenant have left its queue; the last one takes the credit with it. *)
Definition thinned (t t' : tenantState) : Prop :=
  ts_config t' = ts_config t
  /\ (InflightCount (ts_counters t') = InflightCount (ts_counters t)
      /\ InflightWork (ts_counters t') = InflightWork (ts_counters t))
  /\ ts_queue t' `sublist_of` ts_queue t
  /\ (ts_deficit t' = ts_deficit t /\ ts_visitOpen t' = ts_visitOpen t
      \/ ts_queue t' = [] /\ ts_deficit t' = 0 /\ ts_visitOpen t' = false).

#[export] Instance thinned_preorder : PreOrder thinned.
Proof.
  split.
  - intros t. split_and!; [done|done|done|done|by left].
  - intros t1 t2 t3 (H1 & [H2 H5] & H3 & H4) (H1' & [H2' H5'] & H3' & H4').
    split_and!; [congruence..|by etrans|].
    destruct H4' as [[-> ->]|]; [|by right]. destruct H4 as [|(Hq & Hd & Ho)]; [by left|right].
    rewrite Hq in H3'. split_and!; [|done|done]. by apply sublist_nil_r in H3'.
Qed.

Lemma thinned_dequeue id a t : thinned t (tenant_dequeue id a t).
Proof.
  unfold tenant_dequeue. split_and!; cbn; [done|lia|lia|apply list_Remove_sublist|].
  destruct (list_Remove id (ts_queue t)); [by right|by left].
Qed.

(** Work in flight and the credit to put more there. *)
Definition pay (t : tenantState) : Z := InflightWork (ts_counters t) + ts_deficit t.

Lemma thinned_pay t t' : 0 <= ts_deficit t -> thinned t t' -> pay t' <= pay t.
Proof. intros Hd (_ & [_ Hw] & _ & [[? _]|(_ & ? & _)]); unfold pay; lia. Qed.

Lemma serve_pay id a t w : a_WorkUnits a = w -> 0 <= ts_deficit t - w ->
  pay (tenant_serve a (tenant_dequeue id a (set_deficit (ts_deficit t - w) t))) <= pay t.
Proof.
  intros <- Hd. unfold pay, tenant_serve, tenant_dequeue. cbn -[list_Remove].
  destruct (list_Remove id (ts_queue t)); cbn; lia.
Qed.

Lemma visitsNeeded_nonneg w t : 0 < vt_quantum (ts_config t) -> 0 <= visitsNeeded w t.
Proof.
  intros Hq. unfold visitsNeeded. pose proof (ceil_div_nonneg (Z.max 0 (w - ts_deficit t)) _ ltac:(lia) Hq).
  destruct (_ && _); lia.
Qed.

(** A visit to a head that is not funded takes one off; a funded head needs none. *)
Lemma visitsNeeded_unfunded w t :
  0 < vt_quantum (ts_config t) -> ts_deficit (funded t) < w ->
  visitsNeeded w (set_visitOpen false (funded t)) + 1 <= visitsNeeded w t.
Proof.
  intros Hq. unfold visitsNeeded, funded. destruct (ts_visitOpen t) eqn:Ho; cbn; intros Hlt.
  - rewrite (proj2 (Z.ltb_lt _ _) Hlt). lia.
  - pose proof (ceil_div_pred (w - ts_deficit t) (vt_quantum (ts_config t)) ltac:(lia) Hq).
    replace (w - (ts_deficit t + vt_quantum (ts_config t))) with (w - ts_deficit t - vt_quantum (ts_config t)) by lia.
    rewrite (Z.max_r 0 (w - ts_deficit t)) by lia. lia.
Qed.

Lemma visitsNeeded_funded w t : 0 < vt_quantum (ts_config t) -> w <= ts_deficit t -> visitsNeeded w t = 0.
Proof.
  intros Hq Hle. unfold visitsNeeded. rewrite (proj2 (Z.ltb_ge _ _) Hle), andb_false_r, Z.max_l by lia.
  unfold ceil_div. rewrite Z.div_small by lia. lia.
Qed.

Lemma funded_pay t :
  pay (funded t) = pay t + (if ts_visitOpen t then 0 else vt_quantum (ts_config t)).
Proof. unfold pay, funded. destruct (ts_visitOpen t); cbn; lia. Qed.

(** ** One visit *)

Section visits.
Context `{World}.

Lemma evolves_rewait R s s' id : evolves R s s' -> waiting (os_entries s') id -> waiting (os_entries s) id.
Proof.
  intros Hev Hw. destruct (gr_rewait _ _ _ _ (evolves_grows none none R s s' Hev) id Hw) as [|[[] _]]. done.
Qed.

(** A head that has left the queue does not wait any more. *)
Lemma departed_head s i t h rest s1 t1 s' :
  Inv s -> os_tenants s !! i = Some t -> ts_queue t = h :: rest ->
  evolves suffix s s1 -> os_tenants s1 !! i = Some t1 -> ts_queue t1 = rest ->
  Inv s' -> evolves suffix s1 s' -> ~ waiting (os_entries s') h.
Proof.
  intros HI Ht Hq Hev1 Ht1 Hq1 HI' Hev' (e' & He' & Hp').
  destruct (head_facts s i t h rest HI Ht Hq) as (e & He & Hp & Hti & _).
  destruct (ev_entry _ _ _ (transitivity Hev1 Hev') h e' He') as (e0 & He0 & (_ & _ & _ & _ & _ & _ & Hte)).
  replace e0 with e in * by congruence. subst i. destruct (co_tenant _ (proj1 HI) _ t Ht) as (_ & Hnd & _). rewrite Hq in Hnd.
  apply NoDup_cons in Hnd as [Hnin _]. apply Hnin.
  destruct (lookup_lt_is_Some_2 (os_tenants s') (e_tenant e)) as [t' Ht'].
  { rewrite (evolves_tenants_length _ _ _ (transitivity Hev1 Hev') (proj1 HI) (proj1 HI')).
    by eapply lookup_lt_Some. }
  destruct (ev_queue _ _ _ Hev' _ t' Ht') as (t2 & Ht2 & _ & [k Hk]).
  destruct (co_tenant _ (proj1 HI') _ t' Ht') as (_ & _ & Hin & _).
  assert (h ∈ ts_queue t') as Hh by (apply Hin; by exists e').
  replace t2 with t1 in * by congruence. rewrite <- Hq1, Hk. apply elem_of_app. by right.
Qed.

Lemma leaves_thinned s id e d s' : leaves s id e d s' ->
  forall k t, os_tenants s !! k = Some t -> exists t', os_tenants s' !! k = Some t' /\ thinned t t'.
Proof.
  intros (ticks & ex & en & -> & _) k t Ht. cbn. rewrite list_lookup_alter. case_decide as Hk.
  - subst k. rewrite Ht. eexists. split; [done|apply thinned_dequeue].
  - exists t. by split.
Qed.

Definition thins (k : nat) (s s' : ownerState) : Prop :=
  forall t, os_tenants s !! k = Some t -> exists t', os_tenants s' !! k = Some t' /\ thinned t t'.

#[export] Instance thins_preorder k : PreOrder (thins k).
Proof.
  split.
  - intros s t Ht. by exists t.
  - intros s1 s2 s3 H1 H2 t1 Ht1. destruct (H1 t1 Ht1) as (t2 & Ht2 & H12).
    destruct (H2 t2 Ht2) as (t3 & Ht3 & H23). exists t3. split; [done|by etrans].
Qed.

Lemma thins_same k s s' : os_tenants s' = os_tenants s -> thins k s s'.
Proof. intros He t Ht. exists t. by rewrite He. Qed.

Lemma dropDead_thins fuel i s t :
  Inv s -> os_tenants s !! i = Some t -> (length (ts_queue t) < fuel)%nat ->
  wp (dropDead fuel i) (fun _ s' => thins i s s') s.
Proof.
  revert s t. induction fuel as [|fuel IH]; intros s t HI Ht Hf; [lia|].
  cbn [dropDead]. o_steps. destruct (ts_queue t) as [|id rest] eqn:Hq; [by wp_step|].
  destruct (head_facts s i t id rest HI Ht Hq) as (e & He & Hp & Hti & Hrm). o_steps.
  assert (Hrec : forall d s2 s3, os_tenants s2 = os_tenants s -> Inv s3 /\ leaves s2 id e d s3 ->
    wp (dropDead fuel i) (fun _ s' => thins i s s') s3).
  { intros d s2 s3 Ht2 [HI3 Hl]. rewrite <- Ht2 in Ht. subst i.
    pose proof (leaves_queue _ _ _ _ _ _ Hl Ht) as Ht3.
    eapply wp_mono; [apply (IH s3 _ HI3 Ht3); cbn -[list_Remove]; rewrite Hrm; cbn in Hf; lia|].
    intros [] s4 H4. etrans; [|exact H4]. etrans; [by apply thins_same|]. intros t' Ht'.
    by eapply leaves_thinned. }
  wp_case.
  - eapply wp_bind_mono; [by eapply cancelHead_spec; [apply Inv_ticked|..]|]. intros [] s2. by apply Hrec.
  - o_steps. wp_case; [|wp_step; by apply thins_same].
    eapply wp_bind_mono; [by eapply expire_spec; [apply Inv_ticked, Inv_ticked|..]|]. intros [] s3. by apply Hrec.
Qed.

(** A head that still waits was not touched. *)
Lemma dropDead_head fuel i s t h rest :
  Inv s -> os_tenants s !! i = Some t -> ts_queue t = h :: rest -> (length (ts_queue t) < fuel)%nat ->
  wp (dropDead fuel i) (fun _ s' => waiting (os_entries s') h -> os_tenants s' !! i = Some t) s.
Proof.
  intros HI Ht Hq Hf. destruct fuel as [|fuel]; [lia|]. cbn [dropDead]. o_steps. rewrite Hq.
  destruct (head_facts s i t h rest HI Ht Hq) as (e & He & Hp & Hti & Hrm). o_steps.
  assert (Hgone : forall d n s3, let s2 := with_ext s (ext_tick (os_ext s) n) in (x_tick (os_ext s) <= n)%nat ->
    Inv s3 /\ leaves s2 h e d s3 ->
    wp (dropDead fuel i) (fun _ s' => waiting (os_entries s') h -> os_tenants s' !! i = Some t) s3).
  { intros d n s3 s2 Hn [HI3 Hl]. assert (HI2 : Inv s2) by (by apply Inv_ticked).
    destruct (leaves_visits s2 i t h rest e d s3 HI2 Ht Hq He Hp Hti HI3 Hl) as (Hv & _ & _ & Ht3).
    eapply wp_mono; [eapply (dropDead_spec _ i s3 _ HI3 Ht3); cbn -[list_Remove]; rewrite Hrm, Hq in *; cbn in *; lia|].
    intros [] s4 [Hv4 _] Hw. exfalso. revert Hw.
    eapply (departed_head s2 i t h rest s3 _ s4 HI2 Ht Hq); [apply Hv|exact Ht3|done|apply Hv4|apply Hv4]. }
  wp_case.
  - eapply wp_bind_mono; [by eapply cancelHead_spec; [apply Inv_ticked|..]|]. intros [] s2. apply Hgone; lia.
  - o_steps. wp_case; [|by wp_step].
    eapply wp_bind_mono; [by eapply expire_spec; [apply Inv_ticked, Inv_ticked|..]|]. intros [] s3.
    apply (Hgone _ (S (S (x_tick (os_ext s))))). lia.
Qed.

(** What [dispatchLoop] puts in flight is paid for, and a loop that stops the pump
    leaves its visit open or the cursor behind it. *)
Definition loop_account (i : nat) (s : ownerState) (r : pumpFlow * bool * bool) (s' : ownerState) : Prop :=
  forall t, os_tenants s !! i = Some t ->
    exists t', os_tenants s' !! i = Some t' /\ ts_config t' = ts_config t /\ pay t' <= pay t
      /\ (os_cursor s' = os_cursor s /\ (fst (fst r) = FlowReturn -> ts_visitOpen t' = true)
          \/ os_cursor s' = next_cursor s /\ fst (fst r) = FlowReturn).

Lemma loop_account_after i s s1 r s' t t1 :
  os_tenants s !! i = Some t -> os_tenants s1 !! i = Some t1 -> ts_config t1 = ts_config t ->
  pay t1 <= pay t -> os_cursor s1 = os_cursor s -> length (os_tenants s1) = length (os_tenants s) ->
  loop_account i s1 r s' -> loop_account i s r s'.
Proof.
  intros Ht Ht1 Hc Hp Hcu Hlen Ha t0 Ht0. destruct (Ha t1 Ht1) as (t' & Ht' & Hc' & Hp' & Ho).
  rewrite (next_cursor_same s s1 Hcu Hlen), Hcu in Ho. replace t0 with t in * by congruence.
  exists t'. split_and!; [done|congruence|lia|done].
Qed.

Lemma loop_account_stay i s r t : os_tenants s !! i = Some t ->
  (fst (fst r) = FlowReturn -> ts_visitOpen t = true) -> loop_account i s r s.
Proof.
  intros Ht Ho t0 Ht0. replace t0 with t in * by congruence. exists t. split_and!; [done|done|lia|auto].
Qed.

Lemma dispatchLoop_account fuel i d n s t :
  Inv s -> os_tenants s !! i = Some t -> (length (ts_queue t) < fuel)%nat ->
  (ts_queue t = [] \/ ts_visitOpen t = true) ->
  wp (dispatchLoop fuel i d n) (loop_account i s) s.
Proof.
  revert s t d. induction fuel as [|fuel IH]; intros s t d HI Ht Hf Hop; [lia|].
  cbn [dispatchLoop]. o_steps. destruct (ts_queue t) as [|id rest] eqn:Hq.
  { wp_step. by eapply loop_account_stay. }
  destruct Hop as [?|Hop]; [done|].
  destruct (co_tenant _ (proj1 HI) i t Ht) as (_ & _ & _ & _ & _ & _ & [Hd _] & _).
  destruct (head_facts s i t id rest HI Ht Hq) as (e & He & Hp & Hti & Hrm). o_steps. wp_case.
  { wp_step. by eapply loop_account_stay. }
  wp_case.
  { o_steps. intros t0 Ht0. replace t0 with t in * by congruence. cbn. rewrite list_lookup_alter_eq, Ht.
    eexists. split; [done|]. split_and!; [done|unfold pay; cbn; lia|by left]. }
  o_steps.
  assert (Hrec : forall dd m s3, let s2 := with_ext s (ext_tick (os_ext s) m) in (x_tick (os_ext s) <= m)%nat ->
    Inv s3 /\ leaves s2 id e dd s3 -> wp (dispatchLoop fuel i d n) (loop_account i s) s3).
  { intros dd m s3 s2 Hm [HI3 Hl]. assert (HI2 : Inv s2) by (by apply Inv_ticked).
    destruct (leaves_visits s2 i t id rest e dd s3 HI2 Ht Hq He Hp Hti HI3 Hl) as (Hv & _ & Hc & Ht3).
    eapply wp_mono; [apply (IH s3 _ d HI3 Ht3); [cbn -[list_Remove] in *; rewrite Hrm; lia|by eapply dequeue_open]|].
    intros r s4. eapply (loop_account_after i s s3); [done|exact Ht3|done|apply thinned_pay; [done|apply thinned_dequeue]|done|].
    apply (evolves_tenants_length _ _ _ (vi_evolves _ _ _ Hv) (proj1 HI2) (proj1 HI3)). }
  wp_case.
  { eapply wp_bind_mono; [by eapply cancelHead_spec; [apply Inv_ticked|..]|]. intros [] s2. apply Hrec; lia. }
  o_steps. match goal with |- wp _ _ ?st => set (s2 := st) end. assert (HI2 : Inv s2) by (by apply Inv_ticked, Inv_ticked). wp_case.
  { eapply wp_bind_mono; [by apply (expire_spec s2 id e)|]. intros [] s3. apply (Hrec _ (S (S (x_tick (os_ext s))))). lia. }
  o_steps. wp_case.
  { wp_step. intros t0 Ht0. replace t0 with t in * by congruence. exists t. split_and!; [done|done|lia|by left]. }
  apply wp_assoc. eapply wp_bind_mono.
  { apply (funded_dispatch s2 i t id rest e); try done. by exists (x_tick (os_ext s)). }
  intros [] s3 (Hv3 & Hmu3 & Hc3 & Hcf3 & _ & t3 & Ht3 & Hq3 & Hop3 & Et3).
  pose proof (vi_inv _ _ _ Hv3) as HI3.
  pose proof (evolves_tenants_length _ _ _ (vi_evolves _ _ _ Hv3) (proj1 HI2) (proj1 HI3)) as Hlen3.
  assert (Hafter : forall r s', loop_account i s3 r s' -> loop_account i s r s').
  { intros r s'. eapply (loop_account_after i s s3); [done|exact Ht3|by rewrite Et3| |done|done].
    rewrite Et3. apply serve_pay; [done|lia]. }
  cbn beta. o_steps. rewrite Hq3. wp_case; destruct rest as [|id2 rest2].
  - wp_step. wp_step. eapply wp_mono; [by eapply closeVisit_spec|]. intros [] ? ->. cbn beta.
    eapply wp_mono; [by apply advance_spec|]. intros [] s4 [-> HI4]. wp_step. apply Hafter.
    intros t0 Ht0. exists t0. split_and!; [done|done|lia|by right].
  - wp_steps. apply Hafter. eapply loop_account_stay; [done|]. destruct Hop3; [congruence|done].
  - wp_step. eapply wp_mono; [by eapply closeVisit_spec|]. intros [] ? ->. wp_step. apply Hafter.
    by eapply loop_account_stay.
  - eapply wp_mono; [apply (IH s3 t3 true HI3 Ht3); [rewrite Hq3; cbn in *; lia|done]|].
    intros r s4. apply Hafter.
Qed.

(** A head that fits its tenant's limits and still waits is not funded, and its
    visit is closed, or it is funded and stops the pump. *)
Definition head_account (i : nat) (h w : Z) (s : ownerState) (t : tenantState) (r : pumpFlow * bool * bool)
    (s' : ownerState) : Prop :=
  waiting (os_entries s') h ->
  match fst (fst r) with
  | FlowNext => ts_deficit t < w /\ os_tenants s' !! i = Some (set_visitOpen false t)
  | FlowReturn => w <= ts_deficit t /\ os_tenants s' !! i = Some t /\ os_cursor s' = os_cursor s
  end.

Lemma dispatchLoop_head fuel i d n s t h rest e :
  Inv s -> os_tenants s !! i = Some t -> (length (ts_queue t) < fuel)%nat ->
  ts_queue t = h :: rest -> ts_visitOpen t = true -> os_entries s !! h = Some e ->
  inflightFits (ts_counters t) (e_admission e) (vt_inflight (ts_config t)) = true ->
  wp (dispatchLoop fuel i d n) (head_account i h (a_WorkUnits (e_admission e)) s t) s.
Proof.
  intros HI Ht Hf Hq Hop He Hfit. destruct fuel as [|fuel]; [lia|].
  destruct (head_facts s i t h rest HI Ht Hq) as (e0 & He0 & Hp & Hti & Hrm).
  replace e0 with e in * by congruence. clear e0 He0.
  (* the rest of the loop, once the head has left *)
  assert (Hgone : forall dd s3 t3, Inv s3 -> evolves suffix s s3 -> os_tenants s3 !! i = Some t3 ->
    ts_queue t3 = rest -> (ts_queue t3 = [] \/ ts_visitOpen t3 = true) ->
    wp (dispatchLoop fuel i dd n) (head_account i h (a_WorkUnits (e_admission e)) s t) s3).
  { intros dd s3 t3 HI3 Hev3 Ht3 Hq3 Hop3.
    eapply wp_mono; [apply (dispatchLoop_spec fuel i dd n s3 t3 HI3 Ht3); [rewrite Hq3, Hq in *; cbn in *; lia|done]|].
    intros r s4 (Hv4 & _) Hw. exfalso. revert Hw.
    eapply (departed_head s i t h rest s3 t3 s4); [done..|apply Hv4|apply Hv4]. }
  assert (Hleft : forall dd m s3, let s2 := with_ext s (ext_tick (os_ext s) m) in (x_tick (os_ext s) <= m)%nat ->
    Inv s3 /\ leaves s2 h e dd s3 ->
    wp (dispatchLoop fuel i d n) (head_account i h (a_WorkUnits (e_admission e)) s t) s3).
  { intros dd m s3 s2 Hm [HI3 Hl]. assert (HI2 : Inv s2) by (by apply Inv_ticked).
    destruct (leaves_visits s2 i t h rest e dd s3 HI2 Ht Hq He Hp Hti HI3 Hl) as (Hv & _ & Hc & Ht3).
    eapply (Hgone d s3); [done| |exact Ht3|done|by eapply dequeue_open].
    etrans; [by apply (evolves_ticked suffix s m)|apply Hv]. }
  cbn [dispatchLoop]. o_steps. rewrite Hq. o_steps. rewrite Hfit. cbn [negb]. cbn iota. wp_case.
  { o_steps. intros _. split; [done|]. cbn. by rewrite list_lookup_alter_eq, Ht. }
  o_steps. wp_case.
  { eapply wp_bind_mono; [by eapply cancelHead_spec; [apply Inv_ticked|..]|]. intros [] s2. apply Hleft; lia. }
  o_steps. match goal with |- wp _ _ ?st => set (s2 := st) end.
  assert (HI2 : Inv s2) by (by apply Inv_ticked, Inv_ticked). wp_case.
  { eapply wp_bind_mono; [by apply (expire_spec s2 h e)|]. intros [] s3. apply (Hleft _ (S (S (x_tick (os_ext s))))). lia. }
  o_steps. wp_case; [wp_step; by intros _|].
  apply wp_assoc. eapply wp_bind_mono.
  { apply (funded_dispatch s2 i t h rest e); try done. by exists (x_tick (os_ext s)). }
  intros [] s3 (Hv3 & _ & _ & _ & _ & t3 & Ht3 & Hq3 & Hop3 & _). pose proof (vi_inv _ _ _ Hv3) as HI3.
  assert (Hev3 : evolves suffix s s3).
  { etrans; [apply (evolves_ticked suffix s (S (S (x_tick (os_ext s))))); lia|apply Hv3]. }
  assert (Hno : forall s', Inv s' -> evolves suffix s3 s' -> ~ waiting (os_entries s') h).
  { intros s' HI' Hev'. by eapply (departed_head s i t h rest s3 t3 s'). }
  cbn beta. o_steps. rewrite Hq3. wp_case; destruct rest as [|id2 rest2].
  - wp_step. wp_step. eapply wp_mono; [by eapply closeVisit_spec|]. intros [] ? ->. cbn beta.
    eapply wp_mono; [by apply advance_spec|]. intros [] s4 [-> HI4]. wp_step. intros Hw. exfalso. revert Hw.
    apply Hno; [done|apply (evolves_cursor suffix)].
  - wp_steps. intros Hw. exfalso. revert Hw. by apply Hno.
  - wp_step. eapply wp_mono; [by eapply closeVisit_spec|]. intros [] ? ->. wp_step.
    intros Hw. exfalso. revert Hw. by apply Hno.
  - by apply (Hgone true s3 t3).
Qed.

(** *** A whole visit *)

Lemma evolves_fit s s' h e e' : evolves suffix s s' -> os_entries s !! h = Some e ->
  os_entries s' !! h = Some e' -> e_admission e' = e_admission e.
Proof.
  intros Hev He He'. destruct (ev_entry _ _ _ Hev h e' He') as (e0 & He0 & (_ & _ & Had & _)). congruence.
Qed.

(** The dispatch loop of a visit, for whatever head it finds. *)
Lemma dispatchLoop_accounts fuel i d n s t h rest :
  Inv s -> os_tenants s !! i = Some t -> (length (ts_queue t) < fuel)%nat ->
  ts_queue t = h :: rest -> ts_visitOpen t = true ->
  wp (dispatchLoop fuel i d n) (fun r s' => (dispatch_post i s d n r s' /\ loop_account i s r s') /\
    forall e, os_entries s !! h = Some e ->
      inflightFits (ts_counters t) (e_admission e) (vt_inflight (ts_config t)) = true ->
      head_account i h (a_WorkUnits (e_admission e)) s t r s') s.
Proof.
  intros HI Ht Hf Hq Hop. destruct (head_facts s i t h rest HI Ht Hq) as (e & He & _).
  apply wp_and; [apply wp_and; [apply (dispatchLoop_spec fuel i d n s t)|apply (dispatchLoop_account fuel i d n s t)]; by auto|].
  destruct (inflightFits (ts_counters t) (e_admission e) (vt_inflight (ts_config t))) eqn:Hfit.
  - eapply wp_mono; [by eapply dispatchLoop_head|]. intros r s' Hh e' He' _. by replace e' with e by congruence.
  - eapply wp_mono; [by apply (dispatchLoop_spec fuel i d n s t); auto|]. intros r s' _ e' He' Hfit'. congruence.
Qed.

Definition fundable (t : tenantState) : Z := if ts_visitOpen t then 0 else vt_quantum (ts_config t).

(** What a visit to the tenant at the cursor does for it. *)
Definition visit_account (s : ownerState) (t : tenantState) (s' : ownerState) : Prop :=
  exists t', os_tenants s' !! os_cursor s = Some t' /\ ts_config t' = ts_config t
    /\ pay t' <= pay t + fundable t
    /\ (os_cursor s' = next_cursor s \/ os_cursor s' = os_cursor s /\ ts_visitOpen t' = true)
    /\ forall h rest e, ts_queue t = h :: rest -> os_entries s !! h = Some e ->
         inflightFits (ts_counters t) (e_admission e) (vt_inflight (ts_config t)) = true ->
         waiting (os_entries s') h ->
         os_cursor s' = next_cursor s /\ ts_deficit (funded t) < a_WorkUnits (e_admission e)
           /\ t' = set_visitOpen false (funded t)
         \/ os_cursor s' = os_cursor s /\ a_WorkUnits (e_admission e) <= ts_deficit (funded t) /\ t' = funded t.

(** What [dropDead] leaves of the tenant and of its head. *)
Lemma dropDead_accounts i s t : Inv s -> os_tenants s !! i = Some t ->
  wp (dropDead (S (length (ts_queue t))) i) (fun _ s' =>
    (visits i s s' /\ os_cursor s' = os_cursor s) /\ thins i s s'
    /\ forall h rest, ts_queue t = h :: rest -> waiting (os_entries s') h -> os_tenants s' !! i = Some t) s.
Proof.
  intros HI Ht. apply wp_and; [eapply dropDead_spec; [done|done|lia]|].
  apply wp_and; [eapply dropDead_thins; [done|done|lia]|].
  destruct (ts_queue t) as [|h rest] eqn:Hq; rewrite <- Hq.
  - eapply wp_mono; [apply (dropDead_spec _ i s t HI Ht); lia|]. intros [] s1 _ h rest Heq. congruence.
  - eapply wp_mono; [apply (dropDead_head _ i s t h rest HI Ht Hq); lia|]. intros [] s1 Hs1 h' rest' Heq.
    by replace h' with h by congruence.
Qed.

(** The account of the dispatch loop for a head that was there from the start. *)
Lemma visit_head_account i s s1 s2 s3 t t1 id rest1 r :
  visits i s s1 -> visits i s1 s2 -> visits i s2 s3 ->
  (forall h rest, ts_queue t = h :: rest -> waiting (os_entries s1) h -> os_tenants s1 !! i = Some t) ->
  os_tenants s1 !! i = Some t1 -> ts_queue t1 = id :: rest1 ->
  (forall e, os_entries s2 !! id = Some e ->
     inflightFits (ts_counters (funded t1)) (e_admission e) (vt_inflight (ts_config (funded t1))) = true ->
     head_account i id (a_WorkUnits (e_admission e)) s2 (funded t1) r s3) ->
  forall h rest e, ts_queue t = h :: rest -> os_entries s !! h = Some e ->
    inflightFits (ts_counters t) (e_admission e) (vt_inflight (ts_config t)) = true -> waiting (os_entries s3) h ->
    t1 = t /\ head_account i h (a_WorkUnits (e_admission e)) s2 (funded t) r s3.
Proof.
  intros Hv1 Hv2 Hv3 Hkeep Ht1 Hq1 Hh h rest e Hq He Hfit Hw.
  pose proof (evolves_rewait _ _ _ h (vi_evolves _ _ _ Hv3) Hw) as Hw2.
  pose proof (evolves_rewait _ _ _ h (vi_evolves _ _ _ Hv2) Hw2) as Hw1. destruct Hw2 as (e2 & He2 & _).
  assert (t1 = t) as -> by (pose proof (Hkeep h rest Hq Hw1); congruence). split; [done|].
  pose proof (evolves_fit _ _ _ _ _ (transitivity (vi_evolves _ _ _ Hv1) (vi_evolves _ _ _ Hv2)) He He2) as Had.
  replace id with h in * by congruence. specialize (Hh e2 He2). rewrite Had in Hh. apply Hh.
  unfold funded. by destruct (ts_visitOpen t).
Qed.

Lemma visit_accounts s t d n :
  Inv s -> os_tenants s !! os_cursor s = Some t -> wp (visit d n) (fun _ s' => visit_account s t s') s.
Proof.
  intros HI Ht. unfold visit. o_steps. set (i := os_cursor s) in *. o_steps.
  destruct (co_tenant _ (proj1 HI) i t Ht) as (_ & _ & _ & _ & _ & _ & [Hd _] & _).
  eapply wp_mono; [by apply dropDead_accounts|].
  intros [] s1 ([Hv1 Hc1] & Hthin & Hkeep). pose proof (vi_inv _ _ _ Hv1) as HI1.
  destruct (Hthin t Ht) as (t1 & Ht1 & Hth). o_steps.
  pose proof (thinned_pay t t1 Hd Hth) as Hpay. pose proof (proj1 Hth) as Hcf1.
  pose proof (evolves_tenants_length _ _ _ (vi_evolves _ _ _ Hv1) (proj1 HI) (proj1 HI1)) as Hlen1.
  destruct (ts_queue t1) as [|id rest1] eqn:Hq1.
  { wp_step. eapply wp_mono; [by eapply closeVisit_spec|]. intros [] ? ->. cbn beta. wp_step.
    eapply wp_mono; [by apply advance_spec|]. intros [] s2 [-> HI2]. cbn beta. wp_step.
    exists t1. split_and!; [done|done|unfold fundable; pose proof (tenant_quantum s i t (proj1 HI) Ht); destruct (ts_visitOpen t); lia|left; by apply next_cursor_same|].
    intros h rest e Hq _ _ Hw. pose proof (Hkeep h rest Hq Hw). congruence. }
  wp_step. eapply wp_mono; [eapply fundVisit_spec; [done..|by rewrite Hq1]|].
  intros [] s2 (Hv2 & Hc2 & Ht2). cbn beta. wp_step. destruct (funded_open t1) as [Hop2 Hq2].
  pose proof (vi_inv _ _ _ Hv2) as HI2. rewrite Hq1 in Hq2.
  eapply wp_mono; [eapply (dispatchLoop_accounts _ i d n s2 _ id rest1 HI2 Ht2); [rewrite Hq2; cbn; lia|done|done]|].
  intros [[flow d'] n'] s3 [[(Hv3 & _ & Hcur3) Hacc] Hh]. destruct (Hacc _ Ht2) as (t' & Ht' & Hcf' & Hp' & Hstop).
  pose proof (vi_inv _ _ _ Hv3) as HI3. pose proof (visits_trans _ _ _ _ Hv1 (visits_trans _ _ _ _ Hv2 Hv3)) as Hv.
  pose proof (evolves_tenants_length _ _ _ (vi_evolves _ _ _ Hv) (proj1 HI) (proj1 HI3)) as Hlen3.
  assert (Hbound : pay t' <= pay t + fundable t).
  { rewrite funded_pay in Hp'. unfold fundable. destruct Hth as (_ & _ & _ & [[_ <-]|[Hnil _]]); [|congruence].
    rewrite <- Hcf1. lia. }
  assert (Hcfg : ts_config t' = ts_config t) by (rewrite Hcf', <- Hcf1; unfold funded; by destruct (ts_visitOpen t1)).
  pose proof (visit_head_account i s s1 s2 s3 t t1 id rest1 _ Hv1 Hv2 Hv3 Hkeep Ht1 Hq1 Hh) as Hheads.
  cbn beta iota. destruct flow.
  - destruct (Hcur3 eq_refl) as [Hc3 _]. wp_step. eapply wp_mono; [by apply advance_spec|]. intros [] s4 [-> HI4].
    cbn beta. wp_step. assert (Hnx : next_cursor s3 = next_cursor s) by (apply next_cursor_same; congruence).
    exists t'. split_and!; [done|done|done|by left|]. intros h rest e Hq He Hfit Hw. left.
    destruct (Hheads h rest e Hq He Hfit Hw) as [-> Hha]. destruct (Hha Hw) as [Hlt Hset].
    split_and!; [done|done|congruence].
  - wp_step. exists t'. split_and!; [done|done|done| |].
    + destruct Hstop as [[Hc3 Ho]|[Hc3 _]]; [right; split; [congruence|by apply Ho]|left].
      rewrite Hc3. apply next_cursor_same; [congruence|].
      by rewrite (evolves_tenants_length _ _ _ (vi_evolves _ _ _ (visits_trans _ _ _ _ Hv1 Hv2)) (proj1 HI) (proj1 HI2)).
    + intros h rest e Hq He Hfit Hw. right. destruct (Hheads h rest e Hq He Hfit Hw) as [-> Hha].
      destruct (Hha Hw) as (Hle & Hset & Hc3). split_and!; [congruence|done|congruence].
Qed.
End visits.

(** ** The order of the visits *)

Section order.
Context (i j : nat).

Ltac places :=
  repeat match goal with
  | |- context [if (?a <? ?b)%nat then _ else _] => destruct (Nat.ltb_spec a b)
  end; lia.

Lemma ahead_bounds s t : 0 <= ahead i j s t <= 1.
Proof. unfold ahead. repeat case_match; lia. Qed.

Lemma ahead_here s t : os_cursor s = i -> (i < length (os_tenants s))%nat -> ahead i j s t = 0.
Proof.
  intros Hc Hj. unfold ahead, place. rewrite Hc, (proj2 (Nat.ltb_ge i i)) by lia.
  destruct (Nat.ltb_spec j i); [rewrite (proj2 (Nat.ltb_ge _ _)) by lia|]; [done|].
  rewrite (proj2 (Nat.ltb_ge _ _)) by lia. done.
Qed.

Lemma ahead_turn s t : i <> j -> os_cursor s = j -> (j < length (os_tenants s))%nat ->
  ahead i j s t = if ts_visitOpen t then 0 else 1.
Proof.
  intros Hij Hc Hi. unfold ahead, place. rewrite Hc, (proj2 (Nat.ltb_ge j j)), Nat.eqb_refl by lia.
  rewrite (proj2 (Nat.ltb_lt _ _)); [done|]. destruct (Nat.ltb_spec i j); lia.
Qed.

Lemma ahead_past s s' t : os_cursor s = j -> os_cursor s' = next_cursor s ->
  length (os_tenants s') = length (os_tenants s) ->
  (i < length (os_tenants s))%nat -> (j < length (os_tenants s))%nat -> ahead i j s' t = 0.
Proof.
  intros Hc Hn Hl Hi Hj. unfold ahead, place, next_cursor in *. rewrite Hl, Hn, Hc in *.
  rewrite (proj2 (Nat.ltb_ge _ _)); [done|].
  destruct (Nat.eqb_spec (S j) (length (os_tenants s))); places.
Qed.

Lemma ahead_other s s' t : os_cursor s <> i -> os_cursor s <> j ->
  os_cursor s' = next_cursor s \/ os_cursor s' = os_cursor s ->
  length (os_tenants s') = length (os_tenants s) ->
  (i < length (os_tenants s))%nat -> (j < length (os_tenants s))%nat ->
  (os_cursor s < length (os_tenants s))%nat -> ahead i j s' t <= ahead i j s t.
Proof.
  intros Hci Hcj Hn Hl Hi Hj Hc.
  assert (place s' j < place s' i -> place s j < place s i)%nat as Hmono.
  { unfold place, next_cursor in *. rewrite Hl.
    destruct Hn as [-> | ->]; [|done]. destruct (Nat.eqb_spec (S (os_cursor s)) (length (os_tenants s))); places. }
  unfold ahead. rewrite (proj2 (Nat.eqb_neq j (os_cursor s))) by lia. cbn [andb].
  destruct (Nat.ltb_spec (place s' j) (place s' i)) as [Hlt|_].
  - rewrite (proj2 (Nat.ltb_lt _ _)) by auto. case_match; lia.
  - case_match; lia.
Qed.
End order.

(** ** The pump *)

Section kept.
Context `{World} (i j : nat) (h w : Z) (Hij : i <> j).

(** While [h] waits, what tenant [j] gets is taken from its allowance. *)
Definition kept (s s' : ownerState) : Prop :=
  (waiting (os_entries s') h -> waiting (os_entries s) h) /\
  (waiting (os_entries s') h -> held i h w s ->
     held i h w s' /\ busy j s' + allowance i j w s' <= busy j s + allowance i j w s).

#[local] Instance kept_preorder : PreOrder kept.
Proof.
  split.
  - intros s. by split.
  - intros s1 s2 s3 [H1 H2] [H3 H4]. split; [auto|]. intros Hw Hh.
    destruct (H2 (H3 Hw) Hh) as [Hh2 ?]. destruct (H4 Hw Hh2) as [Hh3 ?]. split; [done|lia].
Qed.

(** The waiting head in a later state. *)
Lemma held_later s s' t t' : evolves suffix s s' -> waiting (os_entries s') h ->
  os_tenants s !! i = Some t -> os_tenants s' !! i = Some t' ->
  ts_queue t' = ts_queue t -> ts_counters t' = ts_counters t -> ts_config t' = ts_config t ->
  held i h w s -> held i h w s'.
Proof.
  intros Hev (e' & He' & _) Ht Ht' Hq Hc Hcf (t0 & rest & e & Ht0 & Hq0 & He & Hw & Hfit).
  replace t0 with t in * by congruence. exists t', rest, e'.
  rewrite (evolves_fit _ _ _ _ _ Hev He He'), Hq, Hc, Hcf. by split_and!.
Qed.

Lemma tenant_there s s' k t : evolves suffix s s' -> core s -> core s' -> os_tenants s !! k = Some t ->
  exists t', os_tenants s' !! k = Some t'.
Proof.
  intros Hev Hs Hs' Ht. apply lookup_lt_is_Some_2. rewrite (evolves_tenants_length _ _ _ Hev Hs Hs').
  by eapply lookup_lt_Some.
Qed.

(** What tenant [j] has and may still get. *)
Definition claim (ti tj : tenantState) (a : Z) : Z :=
  pay tj + vt_quantum (ts_config tj) * (visitsNeeded w ti + a).

Lemma claim_kept s s' : is_Some (os_tenants s !! i) -> length (os_tenants s') = length (os_tenants s) ->
  (forall ti tj ti' tj', os_tenants s !! i = Some ti -> os_tenants s !! j = Some tj ->
     os_tenants s' !! i = Some ti' -> os_tenants s' !! j = Some tj' ->
     claim ti' tj' (ahead i j s' tj') <= claim ti tj (ahead i j s tj)) ->
  busy j s' + allowance i j w s' <= busy j s + allowance i j w s.
Proof.
  intros [ti Hi] Hlen Hle. unfold busy, allowance, claim, pay in *.
  assert (Hn : forall k, os_tenants s' !! k = None <-> os_tenants s !! k = None)
    by (intros k; by rewrite !lookup_ge_None, Hlen).
  rewrite Hi in *. destruct (os_tenants s' !! i) as [ti'|] eqn:Hi', (os_tenants s !! j) as [tj|] eqn:Hj, (os_tenants s' !! j) as [tj'|] eqn:Hj';
    try (apply Hn in Hi'; congruence); try (apply Hn in Hj; congruence);
    try (apply Hn in Hj'; congruence); try lia.
  - specialize (Hle ti tj ti' tj' eq_refl eq_refl eq_refl eq_refl). lia.
Qed.

Lemma visit_head s s' ti ti' rest e :
  visits (os_cursor s) s s' -> (forall t, os_tenants s !! os_cursor s = Some t -> visit_account s t s') ->
  os_tenants s !! i = Some ti -> os_tenants s' !! i = Some ti' ->
  ts_queue ti = h :: rest -> os_entries s !! h = Some e ->
  inflightFits (ts_counters ti) (e_admission e) (vt_inflight (ts_config ti)) = true ->
  waiting (os_entries s') h ->
  ts_queue ti' = ts_queue ti /\ ts_counters ti' = ts_counters ti /\ ts_config ti' = ts_config ti.
Proof.
  intros Hv Hacc Hti Hti' Hq He Hfit Hw. destruct (decide (os_cursor s = i)) as [Ec|Hci].
  - rewrite <- Ec in Hti. destruct (Hacc ti Hti) as (t' & Ht' & _ & _ & _ & Hhead).
    rewrite Ec in Ht'. replace t' with ti' in * by congruence.
    destruct (Hhead h rest e Hq He Hfit Hw) as [(_ & _ & ->)|(_ & _ & ->)];
      unfold funded; by destruct (ts_visitOpen ti).
  - rewrite (vi_others _ _ _ Hv) in Hti' by congruence. by replace ti' with ti by congruence.
Qed.

Lemma visit_claim s s' ti tj ti' tj' rest e :
  Inv s -> visits (os_cursor s) s s' -> Inv s' ->
  (forall t, os_tenants s !! os_cursor s = Some t -> visit_account s t s') ->
  os_tenants s !! i = Some ti -> os_tenants s !! j = Some tj ->
  os_tenants s' !! i = Some ti' -> os_tenants s' !! j = Some tj' ->
  ts_queue ti = h :: rest -> os_entries s !! h = Some e -> a_WorkUnits (e_admission e) = w ->
  inflightFits (ts_counters ti) (e_admission e) (vt_inflight (ts_config ti)) = true ->
  waiting (os_entries s') h ->
  claim ti' tj' (ahead i j s' tj') <= claim ti tj (ahead i j s tj).
Proof.
  intros HI Hv HI' Hacc Hti Htj Hti' Htj' Hq He Hwe Hfit Hw.
  pose proof (evolves_tenants_length _ _ _ (vi_evolves _ _ _ Hv) (proj1 HI) (proj1 HI')) as Hlen.
  pose proof (lookup_lt_Some _ _ _ Hti) as Hi. pose proof (lookup_lt_Some _ _ _ Htj) as Hj.
  destruct (tenant_quantum s i ti (proj1 HI) Hti) as [Hqi _]. destruct (tenant_quantum s j tj (proj1 HI) Htj) as [Hqj _].
  pose proof (ahead_bounds i j s' tj') as Hab'. pose proof (ahead_bounds i j s tj) as Hab.
  unfold claim. destruct (decide (os_cursor s = i)) as [Ec|Hci]; [|destruct (decide (os_cursor s = j)) as [Ec|Hcj]].
  - (* the visit to the head's tenant *)
    assert (tj' = tj) as -> by (rewrite (vi_others _ _ _ Hv) in Htj' by congruence; congruence).
    rewrite <- Ec in Hti. destruct (Hacc ti Hti) as (t' & Ht' & _ & _ & _ & Hhead).
    rewrite Ec in Ht'. replace t' with ti' in * by congruence. subst w.
    rewrite (ahead_here i j s) by (rewrite <- ?Ec in *; try done; lia).
    destruct (Hhead h rest e Hq He Hfit Hw) as [(Hc' & Hlt & ->)|(Hc' & Hle & ->)].
    + pose proof (visitsNeeded_unfunded _ ti Hqi Hlt). cbn. nia.
    + rewrite (visitsNeeded_funded _ (funded ti)) by (unfold funded in *; by destruct (ts_visitOpen ti)).
      pose proof (visitsNeeded_nonneg (a_WorkUnits (e_admission e)) ti Hqi).
      rewrite (ahead_here i j s') by (rewrite ?Hc', ?Hlen; done).
      nia.
  - (* the visit to tenant [j] *)
    assert (ti' = ti) as -> by (rewrite (vi_others _ _ _ Hv) in Hti' by congruence; congruence).
    rewrite <- Ec in Htj. destruct (Hacc tj Htj) as (t' & Ht' & Hcf & Hpay & Hcur & _).
    rewrite Ec in Ht'. replace t' with tj' in * by congruence. rewrite Hcf.
    rewrite (ahead_turn i j s tj) by (rewrite <- ?Ec in *; done).
    assert (ahead i j s' tj' = 0) as ->.
    { destruct Hcur as [Hn|[Hc' Ho]]; [by apply (ahead_past i j s)|].
      rewrite (ahead_turn i j s') by congruence. by rewrite Ho. }
    unfold fundable in Hpay. destruct (ts_visitOpen tj); nia.
  - (* another visit *)
    assert (ti' = ti) as -> by (rewrite (vi_others _ _ _ Hv) in Hti' by congruence; congruence).
    assert (tj' = tj) as -> by (rewrite (vi_others _ _ _ Hv) in Htj' by congruence; congruence).
    destruct (lookup_lt_is_Some_2 (os_tenants s) (os_cursor s) (co_cursor _ (proj1 HI))) as [tc Htc].
    destruct (Hacc tc Htc) as (tc' & _ & _ & _ & Hcur & _).
    assert (ahead i j s' tj <= ahead i j s tj).
    { apply ahead_other; try done; [|apply HI]. destruct Hcur as [|[? _]]; auto. }
    nia.
Qed.

Lemma visit_kept s d n : Inv s ->
  wp (visit d n) (fun _ s' => visits (os_cursor s) s s' /\ kept s s') s.
Proof.
  intros HI. destruct (lookup_lt_is_Some_2 (os_tenants s) (os_cursor s) (co_cursor _ (proj1 HI))) as [tc Htc].
  eapply wp_mono; [apply wp_and; [by apply visit_spec|by apply visit_accounts]|].
  intros r s' [(Hv & _) Hacc]. split; [exact Hv|].
  pose proof (vi_evolves _ _ _ Hv) as Hev. pose proof (vi_inv _ _ _ Hv) as HI'.
  split; [by apply evolves_rewait with suffix|].
  intros Hw Hheld. pose proof Hheld as (ti & rest & e & Hti & Hq & He & Hwe & Hfit).
  destruct (tenant_there s s' i ti Hev (proj1 HI) (proj1 HI') Hti) as [ti' Hti'].
  assert (Hacc' : forall t, os_tenants s !! os_cursor s = Some t -> visit_account s t s')
    by (intros t Ht; by replace t with tc by congruence).
  split.
  - destruct (visit_head s s' ti ti' rest e) as (H1 & H2 & H3); try done. by eapply (held_later s s' ti ti').
  - apply claim_kept; [by exists ti|by eapply evolves_tenants_length; [..|apply HI|apply HI']|].
    intros ti0 tj ti0' tj' Hti0 Htj Hti0' Htj'. replace ti0 with ti by congruence.
    by eapply (visit_claim s s' ti tj ti0' tj').
Qed.

Definition keeps_on (s s' : ownerState) : Prop := Inv s' /\ evolves suffix s s' /\ kept s s'.

Lemma keeps_on_trans s1 s2 s3 : keeps_on s1 s2 -> keeps_on s2 s3 -> keeps_on s1 s3.
Proof. intros (H1 & H2 & H3) (H4 & H5 & H6). split_and!; [done|by etrans|by etrans]. Qed.

Lemma pumpRound_kept k s d n : Inv s -> wp (pumpRound k d n) (fun _ s' => keeps_on s s') s.
Proof.
  revert s d n. induction k as [|k IH]; intros s d n HI; cbn [pumpRound].
  { wp_step. split_and!; [done|reflexivity|reflexivity]. }
  wp_step. eapply wp_mono; [by apply visit_kept|]. intros [[flow d1] n1] s1 (Hv & Hk).
  assert (H1 : keeps_on s s1) by (split_and!; [apply Hv|apply Hv|done]). cbn beta iota.
  destruct flow; [|by wp_step]. eapply wp_mono; [by apply IH, Hv|]. intros r s2 H2. by eapply keeps_on_trans.
Qed.

Lemma waiting_counted s id : Inv s -> waiting (os_entries s) id -> 0 < QueuedCount (os_global s).
Proof.
  intros [Hs _] (e & He & Hp). rewrite (co_global _ Hs).
  pose proof (tally_ge of_any _ id e (entries_fair s Hs) He eq_refl) as Hge.
  unfold charge, counters_le in Hge. rewrite Hp in Hge. cbn in Hge. lia.
Qed.

Lemma pumpLoop_kept fuel s : Inv s -> mu s < Z.of_nat fuel -> wp (pumpLoop fuel) (fun _ s' => keeps_on s s') s.
Proof.
  revert s. induction fuel as [|fuel IH]; intros s HI Hf.
  { pose proof (mu_nonneg s (proj1 HI)). lia. }
  cbn [pumpLoop]. o_steps. wp_case.
  { wp_step. split_and!; [done|reflexivity|reflexivity]. }
  o_steps. eapply wp_mono; [apply wp_and; [by apply pumpRound_spec|by apply pumpRound_kept]|].
  intros [[flow d] n] s1 [(HI1 & Hev & (_ & Hmu & Hd & Hn & _) & _) H1]. cbn beta iota.
  destruct flow; [|by wp_step]. o_steps. wp_case.
  { wp_step. assert (HI2 : Inv (with_cursor s1 0)).
    { apply Inv_cursor; [done|]. pose proof (co_cursor _ (proj1 HI1)). lia. }
    eapply keeps_on_trans; [exact H1|]. split_and!; [done|apply (evolves_cursor suffix)|].
    split; [done|]. intros Hw _. pose proof (waiting_counted s1 h HI1 Hw). lia. }
  wp_case; [by wp_step|]. assert (mu s1 < mu s).
  { destruct d; [destruct (Hd eq_refl); done|]. destruct n; [destruct (Hn eq_refl); done|]. by destruct H3. }
  eapply wp_mono; [apply IH; [done|lia]|]. intros [] s2 Hs2. by eapply keeps_on_trans.
Qed.

Lemma pump_kept s : Inv s -> wp pump (fun _ s' => keeps_on s s') s.
Proof.
  intros HI. unfold pump. o_steps. destruct (os_tenants s) as [|t0 ts] eqn:Hts.
  { wp_step. split_and!; [done|reflexivity|reflexivity]. }
  o_steps. wp_case.
  { wp_step. split_and!; [done|reflexivity|reflexivity]. }
  o_steps. apply pumpLoop_kept; [done|]. by apply pumpFuel_enough, HI.
Qed.
End kept.

(** ** Work in flight *)

Lemma tally_idle P E : (forall id, ~ serving E id) -> InflightWork (tally P E) = 0.
Proof.
  induction E as [|id e E Hid IH] using map_ind; intros Hno; [by rewrite tally_empty|].
  rewrite tally_insert by done. cbn. rewrite IH.
  - unfold charge_if, charge. destruct (P e); [|done]. destruct (e_phase e) as [[]|] eqn:Hp; [done| |done].
    exfalso. apply (Hno id). exists e. by rewrite lookup_insert_eq.
  - intros id' (e' & He' & Hp'). apply (Hno id'). exists e'. rewrite lookup_insert_ne by congruence. done.
Qed.

Lemma tally_inflight j l E : NoDup l -> (forall id, id ∈ l <-> serving E id) ->
  InflightWork (tally (of_tenant j) E) = sumZ (units_of j E) l.
Proof.
  intros Hnd. revert E. induction Hnd as [|id l Hid Hnd IH]; intros E Hl.
  { cbn. apply tally_idle. intros id Hs. by apply Hl, not_elem_of_nil in Hs. }
  destruct (proj1 (Hl id) ltac:(left)) as (e & He & Hp). rewrite (tally_delete _ E id e He). cbn.
  rewrite (IH (delete id E)).
  - rewrite (sumZ_ext (units_of j (delete id E)) (units_of j E)).
    + unfold units_of at 2. rewrite He. unfold charge_if, charge, of_tenant. rewrite Hp.
      case_bool_decide; cbn; lia.
    + intros id' Hid'. unfold units_of. rewrite lookup_delete_ne; [done|]. by intros ->.
  - intros id'. unfold serving. split.
    + intros Hin. destruct (proj1 (Hl id') ltac:(by right)) as (e' & He' & Hp'). exists e'.
      rewrite lookup_delete_ne; [done|]. by intros ->.
    + intros (e' & He' & Hp'). apply lookup_delete_Some in He' as [Hne He'].
      assert (id' ∈ id :: l) as Hin by (apply Hl; by exists e').
      apply elem_of_cons in Hin as [?|?]; [congruence|done].
Qed.

