(* ===== verification/AdmissionService.v ===== *)
(** * Admission: service while a head waits

    The allowance of [AdmissionFair] across whole turns of the owner: expiry,
    the command, [pump], the signal and the timer; and along any run of the
    scheduler. *)

From S2P Require Import Prelude AdmissionConfig GoHeap AdmissionOwner AdmissionInv AdmissionSteps.
From S2P Require Import AdmissionArrive AdmissionPump AdmissionHandle.
From S2P Require Import AdmissionFinish AdmissionRun AdmissionScheduler AdmissionFair.

(** ** Before the pump *)

Section before.
Context `{World}.

Lemma refused_later s s' id : x_results (os_ext s) ⊆ x_results (os_ext s') -> refused s id = true -> refused s' id = true.
Proof.
  unfold refused. intros Hsub. destruct (x_results (os_ext s) !! id) as [r|] eqn:Hr; [|done].
  by rewrite (lookup_weaken _ _ _ _ Hr Hsub).
Qed.

Lemma waiting_not_refused s id : Inv s -> waiting (os_entries s) id -> refused s id = false.
Proof.
  intros [Hs _] (e & He & Hp). destruct (co_entry _ Hs id e He) as (_ & _ & _ & Hph). unfold phase_fine in Hph.
  rewrite Hp in Hph. unfold refused. by destruct Hph as (_ & _ & -> & _).
Qed.

(** Requests have left the queues unserved, and nothing else has changed that the
    pump looks at. *)
Record thinning (s s' : ownerState) : Prop := {
  th_cursor : os_cursor s' = os_cursor s;
  th_length : length (os_tenants s') = length (os_tenants s);
  th_inflight : os_inflight s' = os_inflight s;
  th_results : x_results (os_ext s) ⊆ x_results (os_ext s');
  th_tenants : forall k, thins k s s';
  th_left : forall k t t' id, os_tenants s !! k = Some t -> os_tenants s' !! k = Some t' ->
    id ∈ ts_queue t -> id ∈ ts_queue t' \/ refused s' id = true;
}.

#[export] Instance thinning_preorder : PreOrder thinning.
Proof.
  split.
  - intros s. split; try done. intros k t t' id Ht Ht' Hid. left. by replace t' with t by congruence.
  - intros s1 s2 s3 [] []. split; try congruence; try (by etrans).
    + intros k. etrans; [apply th_tenants0|apply th_tenants1].
    + intros k t1 t3 id Ht1 Ht3 Hid. destruct (th_tenants0 k t1 Ht1) as (t2 & Ht2 & _).
      destruct (th_left0 k t1 t2 id Ht1 Ht2 Hid) as [Hid2|Hr]; [by eapply th_left1|right].
      by eapply refused_later.
Qed.

Lemma leaves_thinning s id e d s' : Inv s -> os_entries s !! id = Some e -> e_phase e = Some accountingQueued ->
  leaves s id e d s' -> thinning s s'.
Proof.
  intros HI He Hp Hl. pose proof Hl as (ticks & ex & en & -> & _). split; cbn; try done.
  - by rewrite length_alter.
  - destruct (co_entry _ (proj1 HI) id e He) as (_ & _ & _ & Hph). unfold phase_fine in Hph.
    rewrite Hp in Hph. apply insert_subseteq, Hph.
  - intros k t Ht. by eapply leaves_thinned.
  - intros k t t' id' Ht Ht' Hid'. rewrite list_lookup_alter in Ht'. case_decide as Hk.
    + subst k. rewrite Ht in Ht'. injection Ht' as <-. cbn -[list_Remove].
      destruct (decide (id' = id)) as [->|Hne]; [right|left].
      * unfold refused. cbn. by rewrite lookup_insert_eq.
      * by apply elem_of_list_Remove.
    + left. by replace t' with t by congruence.
Qed.

Lemma thinning_ticked s n : thinning s (with_ext s (ext_tick (os_ext s) n)).
Proof.
  split; try done.
  - intros k. by apply thins_same.
  - intros k t t' id Ht Ht' Hid. left. cbn in Ht'. by replace t' with t by congruence.
Qed.

Lemma expireReady_thinning now s : Inv s -> wp (expireReady now) (fun _ s' => thinning s s') s.
Proof.
  intros HI. unfold expireReady. o_steps.
  assert (Hf : (length (os_expiry s) < S (length (os_expiry s)))%nat) by lia. revert Hf.
  generalize (S (length (os_expiry s))) as fuel. intros fuel. revert s HI.
  induction fuel as [|fuel IH]; intros s HI Hf; [lia|]. cbn [expireReady_loop]. o_steps.
  destruct (os_expiry s) as [|id rest] eqn:Hex; [by wp_step|].
  destruct (expiry_entry s id (proj1 HI)) as (e & He & Hp); [rewrite Hex; left|].
  o_steps. wp_case; [by wp_step|].
  eapply wp_bind_mono; [by eapply expire_spec|]. intros [] s1 [HI1 Hl]. cbn beta.
  eapply wp_mono; [apply IH; [done|]|].
  - destruct Hl as (? & ex & en & -> & _ & Hperm). cbn. rewrite Hex in Hperm.
    apply Permutation_length in Hperm. cbn in *. lia.
  - intros [] s2 H2. etrans; [|exact H2]. by eapply leaves_thinning.
Qed.

(** Requests have joined queues, or work has left its tenants, and nothing else has
    changed that the pump looks at. *)
Record steady (s s' : ownerState) : Prop := {
  sd_cursor : os_cursor s' = os_cursor s;
  sd_length : length (os_tenants s') = length (os_tenants s);
  sd_inflight : forall id, id ∈ os_inflight s' -> id ∈ os_inflight s;
  sd_tenants : forall k t, os_tenants s !! k = Some t -> exists t', os_tenants s' !! k = Some t'
    /\ ts_config t' = ts_config t /\ ts_deficit t' = ts_deficit t /\ ts_visitOpen t' = ts_visitOpen t
    /\ ts_queue t `prefix_of` ts_queue t'
    /\ InflightCount (ts_counters t') <= InflightCount (ts_counters t)
    /\ InflightWork (ts_counters t') <= InflightWork (ts_counters t);
}.

Lemma steady_tenants s s' (f : tenantState -> tenantState) k :
  os_cursor s' = os_cursor s -> os_tenants s' = alter f k (os_tenants s) ->
  (forall id, id ∈ os_inflight s' -> id ∈ os_inflight s) ->
  (forall t, os_tenants s !! k = Some t ->
    ts_config (f t) = ts_config t /\ ts_deficit (f t) = ts_deficit t /\ ts_visitOpen (f t) = ts_visitOpen t
    /\ ts_queue t `prefix_of` ts_queue (f t)
    /\ InflightCount (ts_counters (f t)) <= InflightCount (ts_counters t)
    /\ InflightWork (ts_counters (f t)) <= InflightWork (ts_counters t)) -> steady s s'.
Proof.
  intros Hc Ht Hi Hf. split; rewrite ?Ht, ?length_alter; try done.
  intros k' t Ht'. rewrite list_lookup_alter. case_decide as Hk; [subst k'; rewrite Ht'|].
  - exists (f t). split; [done|]. by apply Hf.
  - exists t. by split_and!.
Qed.

Lemma steady_same s s' : os_cursor s' = os_cursor s -> os_tenants s' = os_tenants s ->
  os_inflight s' = os_inflight s -> steady s s'.
Proof.
  intros Hc Ht Hi. apply (steady_tenants s s' id 0); rewrite ?Ht, ?Hi; try done.
  - symmetry. by apply list_alter_id.
Qed.

Lemma handle_effect s c now r s' :
  Inv s -> handle_post s c now r s' -> thinning s s' \/ steady s s' \/ os_accepting s' = false.
Proof.
  intros HI Hp. destruct c as [item|id|id outcome| | | |]; cbn in Hp.
  - destruct Hp as (_ & _ & _ & Hv). right. left. destruct (verdict s item now).
    + destruct Hv as (_ & x & ->). by apply steady_same.
    + destruct Hv as (i & _ & e & ex & en & n & -> & _).
      eapply (steady_tenants _ _ (tenant_enqueue (e_id item) (e_admission e)) (e_tenant e)); try done.
      intros t Ht. unfold tenant_enqueue. cbn.
      split_and!; try done; try lia. by apply prefix_app_r.
  - destruct Hp as (cr & _ & Hp). unfold cancel_post in Hp. destruct (os_entries s !! id) as [e|] eqn:He.
    2:{ destruct Hp as [_ ->]. right. left. by apply steady_same. }
    destruct (e_phase e) as [[]|] eqn:Hph.
    + left. by eapply leaves_thinning; [..|apply Hp].
    + right. left. destruct (e_cancelCause e); destruct Hp as [_ ->]; by apply steady_same.
    + destruct (co_entry _ (proj1 HI) id e He) as (_ & _ & _ & Hf). unfold phase_fine in Hf. by rewrite Hph in Hf.
  - destruct Hp as (fr & _ & Hp). right. left. unfold finish_post in Hp. destruct (os_entries s !! id) as [e|] eqn:He.
    2:{ destruct Hp as [_ ->]. by apply steady_same. }
    destruct (e_phase e) as [[]|] eqn:Hph; [by destruct Hp as [_ ->]; apply steady_same| |by destruct Hp as [_ ->]; apply steady_same].
    destruct Hp as (_ & n & _ & ->). eapply (steady_tenants _ _ (tenant_release (e_admission e)) (e_tenant e)); try done.
    + intros id' Hid'. cbn -[list_Remove] in Hid'. by apply elem_of_list_Remove in Hid' as [_ ?].
    + intros t Ht. destruct (entries_fair s (proj1 HI) id e He). unfold tenant_release. cbn. split_and!; try done; lia.
  - destruct Hp as [-> _]. right. left. by apply steady_same.
  - destruct Hp as (dr & _ & Ha & _). by right; right.
  - destruct Hp as (fr & _ & Ha & _). by right; right.
  - destruct Hp as [-> _]. right. left. by apply steady_same.
Qed.
End before.

(** ** A turn *)

Definition quantum_at (j : nat) (s : ownerState) : Z :=
  match vc_tenants (os_config s) !! j with Some vt => vt_quantum vt | None => 0 end.

Section turns.
Context `{World} (i j : nat) (h w : Z).

Lemma quantum_at_tenant s t : Inv s -> os_tenants s !! j = Some t ->
  quantum_at j s = vt_quantum (ts_config t) /\ 0 < quantum_at j s.
Proof.
  intros HI Ht. destruct (tenant_quantum s j t (proj1 HI) Ht) as [Hq _].
  destruct (co_tenant _ (proj1 HI) j t Ht) as (Hc & _). unfold quantum_at. by rewrite Hc.
Qed.

Lemma lost_nonneg s s' : 0 <= lost j s s'.
Proof. unfold lost. case_match; lia. Qed.

Lemma lost_some s s' t id : os_tenants s !! j = Some t -> id ∈ ts_queue t -> refused s' id = true -> 1 <= lost j s s'.
Proof.
  intros Ht Hid Hr. unfold lost. rewrite Ht.
  assert (id ∈ List.filter (refused s') (ts_queue t)) as Hin.
  { apply list_elem_of_In, List.filter_In. split; [by apply list_elem_of_In|done]. }
  destruct (List.filter (refused s') (ts_queue t)); [by apply not_elem_of_nil in Hin|cbn; lia].
Qed.

(** The head and the allowance from one state to another. *)
Definition carried (extra : Z) (s s' : ownerState) : Prop :=
  held i h w s' /\ allowance i j w s' <= allowance i j w s + extra.

Lemma allowance_of s ti tj : os_tenants s !! i = Some ti -> os_tenants s !! j = Some tj ->
  allowance i j w s = ts_deficit tj + vt_quantum (ts_config tj) * (visitsNeeded w ti + ahead i j s tj).
Proof. intros Hi Hj. unfold allowance. by rewrite Hi, Hj. Qed.

Lemma visitsNeeded_bound t : 0 <= w -> 0 < vt_quantum (ts_config t) -> 0 <= ts_deficit t ->
  visitsNeeded w t <= ceil_div w (vt_quantum (ts_config t)) + 1.
Proof.
  intros Hw Hq Hd. unfold visitsNeeded.
  pose proof (ceil_div_mono (Z.max 0 (w - ts_deficit t)) w _ ltac:(lia) Hq). destruct (_ && _); lia.
Qed.

(** The allowance in terms of the head's size and the two quanta alone. *)
Lemma allowance_bound s ti tj : Inv s -> os_tenants s !! i = Some ti -> os_tenants s !! j = Some tj -> 0 <= w ->
  0 <= allowance i j w s <=
    ts_deficit tj + vt_quantum (ts_config tj) * (ceil_div w (vt_quantum (ts_config ti)) + 2).
Proof.
  intros HI Hti Htj Hw. rewrite (allowance_of s ti tj) by done.
  destruct (tenant_quantum s i ti (proj1 HI) Hti) as [Hqi _], (tenant_quantum s j tj (proj1 HI) Htj) as [Hqj _].
  destruct (co_tenant _ (proj1 HI) i ti Hti) as (_ & _ & _ & _ & _ & _ & [Hdi _] & _).
  destruct (co_tenant _ (proj1 HI) j tj Htj) as (_ & _ & _ & _ & _ & _ & [Hdj _] & _).
  pose proof (visitsNeeded_bound ti Hw Hqi). pose proof (visitsNeeded_nonneg w ti Hqi).
  pose proof (ahead_bounds i j s tj). nia.
Qed.

Lemma held_units s : Inv s -> held i h w s -> 0 <= w.
Proof.
  intros HI (t & rest & e & _ & _ & He & <- & _). destruct (entries_fair s (proj1 HI) h e He). lia.
Qed.
Lemma ahead_same s s' t t' : os_cursor s' = os_cursor s -> length (os_tenants s') = length (os_tenants s) ->
  ts_visitOpen t' = ts_visitOpen t -> ahead i j s' t' = ahead i j s t.
Proof. unfold ahead, place. by intros -> -> ->. Qed.

Lemma thinning_account s s' A F tj : Inv s -> Inv s' -> thinning s s' -> grows A F s s' -> ~ A h ->
  os_tenants s !! j = Some tj -> held i h w s -> waiting (os_entries s') h ->
  carried (quantum_at j s * lost j s s') s s'.
Proof.
  intros HI HI' Hth Hg HA Htj (ti & rest & e & Hti & Hq & He & Hwe & Hfit) (e' & He' & Hp').
  destruct (gr_entry _ _ _ _ Hg h e' He') as [?|(e0 & He0 & (_ & _ & Had & _ & _ & _ & Hte))]; [done|].
  replace e0 with e in * by congruence. clear e0 He0.
  destruct (head_facts s i ti h rest HI Hti Hq) as (e1 & He1 & _ & Htn & _). replace e1 with e in * by congruence.
  destruct (th_tenants _ _ Hth i ti Hti) as (ti' & Hti' & Hcf & [Hic Hiw] & Hsub & Hdo).
  destruct (th_tenants _ _ Hth j tj Htj) as (tj' & Htj' & Hcfj & _ & _ & Hdoj).
  assert (h ∈ ts_queue ti') as Hin.
  { destruct (co_tenant _ (proj1 HI') i ti' Hti') as (_ & _ & Hin & _). apply Hin. exists e'. split_and!; congruence. }
  assert (exists rest', ts_queue ti' = h :: rest') as [rest' Hq'].
  { destruct (co_tenant _ (proj1 HI) i ti Hti) as (_ & Hnd & _). rewrite Hq in *. apply NoDup_cons in Hnd as [Hnd _].
    apply sublist_cons_r in Hsub as [Hsub|(l & -> & _)]; [|by exists l].
    exfalso. apply Hnd. by eapply elem_of_sublist. }
  destruct Hdo as [[Hd Ho]|[Hnil _]]; [|congruence]. split.
  - exists ti', rest', e'. rewrite Had, Hcf. unfold inflightFits in *. rewrite Hic, Hiw. by split_and!.
  - rewrite (allowance_of s' ti' tj'), (allowance_of s ti tj) by done. rewrite Hcfj.
    destruct (quantum_at_tenant s tj HI Htj) as [-> Hqp]. pose proof (lost_nonneg s s') as Hl.
    assert (visitsNeeded w ti' = visitsNeeded w ti) as -> by (unfold visitsNeeded; by rewrite Hd, Ho, Hcf).
    destruct (co_tenant _ (proj1 HI) j tj Htj) as (_ & _ & _ & _ & _ & _ & [Hdj _] & _ & Hem).
    destruct Hdoj as [[Hdj' Hoj']|(Hnilj & Hdj' & Hoj')].
    + rewrite (ahead_same s s' tj tj') by (done || apply Hth). nia.
    + pose proof (ahead_bounds i j s tj). pose proof (ahead_bounds i j s' tj').
      destruct (ts_queue tj) as [|id qj] eqn:Hqj.
      * destruct (Hem eq_refl) as [Hd0 Ho0]. rewrite (ahead_same s s' tj tj') by (congruence || apply Hth). nia.
      * destruct (th_left _ _ Hth j tj tj' id Htj Htj') as [Hid|Hr]; [rewrite Hqj; left| |].
        -- rewrite Hnilj in Hid. by apply not_elem_of_nil in Hid.
        -- pose proof (lost_some s s' tj id Htj ltac:(rewrite Hqj; left) Hr). nia.
Qed.

Lemma fits_less c c' a l : counters_le zeroCounters c -> counters_le zeroCounters c' -> fair_admission a -> typed_inflight l ->
  InflightCount c' <= InflightCount c -> InflightWork c' <= InflightWork c ->
  inflightFits c a l = true -> inflightFits c' a l = true.
Proof.
  intros Hc Hc' Ha Hl Hn Hw. rewrite !inflightFits_spec by done. unfold within_inflight. cbn. lia.
Qed.

Lemma steady_account s s' A F tj : Inv s -> Inv s' -> steady s s' -> grows A F s s' -> ~ A h ->
  os_tenants s !! j = Some tj -> held i h w s -> waiting (os_entries s') h -> carried 0 s s'.
Proof.
  intros HI HI' Hst Hg HA Htj (ti & rest & e & Hti & Hq & He & Hwe & Hfit) (e' & He' & Hp').
  destruct (gr_entry _ _ _ _ Hg h e' He') as [?|(e0 & He0 & (_ & _ & Had & _))]; [done|].
  replace e0 with e in * by congruence.
  destruct (sd_tenants _ _ Hst i ti Hti) as (ti' & Hti' & Hcf & Hd & Ho & [k Hk] & Hic & Hiw).
  destruct (sd_tenants _ _ Hst j tj Htj) as (tj' & Htj' & Hcfj & Hdj & Hoj & _). split.
  - exists ti', (rest ++ k), e'. rewrite Had, Hcf. split_and!; try done; [by rewrite Hk, Hq|].
    destruct (tenant_limits s i ti (proj1 HI) Hti) as (_ & Hty & Hn & _).
    destruct (tenant_limits s' i ti' (proj1 HI') Hti') as (_ & _ & Hn' & _).
    eapply fits_less; [exact Hn|exact Hn'| |exact Hty|done|done|exact Hfit].
    by apply (entries_fair s (proj1 HI) h).
  - rewrite (allowance_of s' ti' tj'), (allowance_of s ti tj) by done. rewrite Hcfj, Hdj.
    rewrite (ahead_same s s' tj tj') by (done || apply Hst). unfold visitsNeeded. rewrite Hd, Ho, Hcf. lia.
Qed.

Lemma carried_trans x y s1 s2 s3 : carried x s1 s2 -> carried y s2 s3 -> carried (x + y) s1 s3.
Proof. intros [_ H1] [? H2]. split; [done|lia]. Qed.

Lemma lost_later s s1 s2 : x_results (os_ext s1) ⊆ x_results (os_ext s2) -> lost j s s1 <= lost j s s2.
Proof.
  intros Hsub. unfold lost. destruct (os_tenants s !! j) as [t|]; [|done].
  induction (ts_queue t) as [|id q IH]; cbn; [done|].
  destruct (refused s1 id) eqn:Hr.
  - rewrite (refused_later s1 s2 id Hsub Hr). cbn. lia.
  - destruct (refused s2 id); cbn; lia.
Qed.

Lemma carried_weaken x y s s' : x <= y -> carried x s s' -> carried y s s'.
Proof. intros Hxy [? ?]. split; [done|lia]. Qed.

(** *** From the reception of a command to the pump *)

(** Expiry first, then the command. *)
Record prelude_of (A F : Z -> Prop) (s s1 s2 : ownerState) : Prop := {
  po_inv1 : Inv s1;
  po_thin : thinning s s1;
  po_expired : evolves sublist s s1;
  po_inv2 : Inv s2;
  po_grows : grows A F s1 s2;
  po_effect : thinning s1 s2 \/ steady s1 s2 \/ os_accepting s2 = false;
}.

Lemma prelude_grows A F s s1 s2 : prelude_of A F s s1 s2 -> grows A F s s2.
Proof.
  intros []. etrans; [|exact po_grows0]. eapply (grows_weaken none _ none); [by intros ? []..|].
  by eapply evolves_grows.
Qed.

Lemma prelude_inflight A F s s1 s2 : prelude_of A F s s1 s2 -> drain_quiet s -> waiting (os_entries s2) h ->
  forall id, id ∈ os_inflight s2 -> id ∈ os_inflight s.
Proof.
  intros Hp Hq Hw id. pose proof (prelude_grows _ _ _ _ _ Hp) as Hg. destruct Hp.
  rewrite <- (th_inflight _ _ po_thin0).
  destruct po_effect0 as [Ht|[Ht|Ha]]; [by rewrite (th_inflight _ _ Ht)|apply Ht|].
  by destruct (drain_quiet_grows _ _ _ _ Hg Hq Ha h).
Qed.

Lemma prelude_account A F s s1 s2 tj : Inv s -> drain_quiet s -> prelude_of A F s s1 s2 -> ~ A h ->
  os_tenants s !! j = Some tj -> held i h w s -> waiting (os_entries s2) h ->
  carried (quantum_at j s * lost j s s2) s s2.
Proof.
  intros HI Hq Hp HA Htj Hh Hw. pose proof (prelude_grows _ _ _ _ _ Hp) as Hg. destruct Hp.
  destruct (quantum_at_tenant s tj HI Htj) as [_ Hqp].
  destruct po_effect0 as [Ht|[Hst|Ha]].
  - eapply thinning_account; try done. by etrans.
  - assert (Hw1 : waiting (os_entries s1) h).
    { by destruct (gr_rewait _ _ _ _ po_grows0 h Hw) as [|[? _]]. }
    assert (Hc1 : carried (quantum_at j s * lost j s s1) s s1).
    { eapply (thinning_account s s1 none none); try done; [by eapply evolves_grows|by intros []]. }
    destruct (th_tenants _ _ po_thin0 j tj Htj) as (tj1 & Htj1 & _).
    eapply (carried_weaken (quantum_at j s * lost j s s1 + 0)).
    { pose proof (lost_later s s1 s2 (gr_results _ _ _ _ po_grows0)). nia. }
    eapply carried_trans; [exact Hc1|]. eapply steady_account; try done. apply Hc1.
  - by destruct (drain_quiet_grows _ _ _ _ Hg Hq Ha h).
Qed.

(** *** The pump *)

Lemma units_of_kept s s' id : evolves suffix s s' -> serving (os_entries s) id ->
  units_of j (os_entries s') id = units_of j (os_entries s) id.
Proof.
  intros Hev Hs. pose proof (ev_serving _ _ _ Hev id Hs) as (e' & He' & _). destruct Hs as (e & He & _).
  destruct (ev_entry _ _ _ Hev id e' He') as (e0 & He0 & (_ & _ & Had & _ & _ & _ & Hte)).
  replace e0 with e in * by congruence. unfold units_of. by rewrite He, He', Had, Hte.
Qed.

Lemma busy_inflight s : Inv s -> is_Some (os_tenants s !! j) ->
  busy j s = sumZ (units_of j (os_entries s)) (os_inflight s).
Proof.
  intros [Hs _] [t Ht]. unfold busy. rewrite Ht. destruct (co_tenant _ Hs j t Ht) as (_ & _ & _ & -> & _).
  destruct (co_inflight _ Hs). by apply tally_inflight.
Qed.

Lemma units_of_nonneg s id : Inv s -> 0 <= units_of j (os_entries s) id.
Proof.
  intros HI. unfold units_of. destruct (os_entries s !! id) as [e|] eqn:He; [|done].
  destruct (entries_fair s (proj1 HI) id e He). case_bool_decide; lia.
Qed.

(** What [pump] put in flight since [s], of which nothing in flight in [s2] is a part. *)
Lemma served_busy s s2 s3 : Inv s2 -> Inv s3 -> evolves suffix s2 s3 -> is_Some (os_tenants s2 !! j) ->
  (forall id, id ∈ os_inflight s2 -> id ∈ os_inflight s) -> served j s s3 <= busy j s3 - busy j s2.
Proof.
  intros HI2 HI3 Hev [t2 Ht2] Hin.
  assert (is_Some (os_tenants s3 !! j)) as Hj3.
  { destruct (tenant_there s2 s3 j t2 Hev (proj1 HI2) (proj1 HI3) Ht2); eauto. }
  rewrite !busy_inflight by eauto. unfold served.
  rewrite (sumZ_partition _ (fun id => bool_decide (id ∉ os_inflight s)) (os_inflight s3)).
  destruct (co_inflight _ (proj1 HI2)) as [Hnd2 Hs2], (co_inflight _ (proj1 HI3)) as [Hnd3 Hs3].
  enough (sumZ (units_of j (os_entries s2)) (os_inflight s2) <=
    sumZ (units_of j (os_entries s3)) (List.filter (fun id => negb (bool_decide (id ∉ os_inflight s))) (os_inflight s3)))
    by lia.
  rewrite (sumZ_ext _ (units_of j (os_entries s3))).
  - apply sumZ_submseteq; [intros id; by apply units_of_nonneg|]. apply NoDup_submseteq; [done|].
    intros id Hid. apply list_elem_of_In, List.filter_In. split.
    + apply list_elem_of_In, Hs3, (ev_serving _ _ _ Hev), Hs2, Hid.
    + rewrite bool_decide_eq_false_2; [done|]. intros Hn. by apply Hn, Hin.
  - intros id Hid. symmetry. by apply units_of_kept, Hs2.
Qed.

(** *** The signal and the timer *)

(** Nothing that the requests and their service are made of has changed. *)
Definition idle (s s' : ownerState) : Prop :=
  os_config s' = os_config s /\ os_tenants s' = os_tenants s /\ os_entries s' = os_entries s
  /\ os_inflight s' = os_inflight s /\ os_cursor s' = os_cursor s
  /\ x_results (os_ext s') = x_results (os_ext s).

#[local] Instance idle_preorder : PreOrder idle.
Proof. unfold idle. split; [done|]. intros s1 s2 s3; intuition congruence. Qed.

Lemma only_flags_idle s s' : only_flags s s' -> idle s s'.
Proof. unfold only_flags, idle. intuition. Qed.

Lemma idle_allowance s s' : idle s s' -> allowance i j w s' = allowance i j w s.
Proof. intros (_ & Ht & _ & _ & Hc & _). unfold allowance, ahead, place. by rewrite Ht, Hc. Qed.

Lemma idle_served s s3 s' : idle s3 s' -> served j s s' = served j s s3.
Proof. intros (_ & _ & He & Hi & _). unfold served. by rewrite He, Hi. Qed.

Lemma idle_held s s' : idle s s' -> held i h w s -> held i h w s'.
Proof. intros (_ & Ht & He & _). unfold held. by rewrite Ht, He. Qed.

Context (Hij : i <> j).

(** *** A whole turn *)

(** What a turn gives tenant [j] while [h] waits is paid from the allowance, which
    a request of its own that leaves unserved may renew. *)
Definition accounted (s s' : ownerState) : Prop :=
  held i h w s' /\
  served j s s' + allowance i j w s' <= allowance i j w s + quantum_at j s * lost j s s'.

Lemma turn_account A F s s1 s2 s3 s' tj : Inv s -> drain_quiet s -> prelude_of A F s s1 s2 -> ~ A h ->
  keeps_on i j h w s2 s3 -> idle s3 s' -> os_tenants s !! j = Some tj -> held i h w s ->
  waiting (os_entries s') h -> accounted s s'.
Proof.
  intros HI Hq Hp HA (HI3 & Hev & Hk & Hkeep) Hid Htj Hh Hw.
  assert (waiting (os_entries s3) h) as Hw3 by (destruct Hid as (_ & _ & <- & _); done).
  pose proof (Hk Hw3) as Hw2. pose proof (prelude_inflight _ _ _ _ _ Hp Hq Hw2) as Hin.
  destruct (prelude_account A F s s1 s2 tj) as [Hh2 Ha2]; [done..|].
  destruct (Hkeep Hw3 Hh2) as [Hh3 Hb3]. split; [by eapply idle_held|].
  rewrite (idle_served s s3 s'), (idle_allowance s3 s') by done.
  assert (is_Some (os_tenants s2 !! j)) as Hj2.
  { apply lookup_lt_is_Some_2. rewrite (co_len _ (proj1 (po_inv2 _ _ _ _ _ Hp))).
    rewrite (gr_config _ _ _ _ (prelude_grows _ _ _ _ _ Hp)), <- (co_len _ (proj1 HI)). by eapply lookup_lt_Some. }
  pose proof (served_busy s s2 s3 (po_inv2 _ _ _ _ _ Hp) HI3 Hev Hj2 Hin).
  destruct (quantum_at_tenant s tj HI Htj) as [_ Hqp].
  assert (lost j s s2 <= lost j s s').
  { apply lost_later. destruct Hid as (_ & _ & _ & _ & _ & ->). apply Hev. }
  nia.
Qed.

Lemma expire_thins s Q (k : Z -> Owner (bool * response)) :
  Inv s -> (forall now s1, Inv s1 -> evolves sublist s s1 -> thinning s s1 -> wp (k now) Q s1) ->
  wp (now ← clock_Now; expireReady now;; k now) Q s.
Proof.
  intros HI Hk. o_steps. set (s0 := with_ext s _). assert (HI0 : Inv s0) by (by apply Inv_ticked).
  eapply wp_mono; [apply wp_and; [by apply expireReady_spec|by apply expireReady_thinning]|].
  intros [] s1 [(HI1 & Hev & _) Hth]. apply Hk; [done| |].
  - etrans; [|exact Hev]. apply (evolves_ticked sublist). lia.
  - etrans; [|exact Hth]. apply thinning_ticked.
Qed.

Lemma run_head_idle s : Inv s -> wp run_head (fun _ s' => idle s s') s.
Proof.
  intros HI. unfold run_head. o_steps. unfold resetExpiryTimer. o_steps. cbn [os_expiry with_ext].
  destruct (os_expiry s) as [|id rest] eqn:Hex; [by o_steps|].
  destruct (expiry_entry s id (proj1 HI)) as (e & He & Hp); [rewrite Hex; left|].
  wp_step. apply wp_get_entry with e; [done|]. by o_steps.
Qed.

Lemma pump_then_idle s : Inv s ->
  wp (pump;; notifyDrained) (fun _ s' => Inv s' /\ exists s3, keeps_on i j h w s s3 /\ idle s3 s') s.
Proof.
  intros HI. wp_step. eapply wp_mono; [by apply pump_kept|]. intros [] s3 H3.
  eapply wp_mono; [by apply notifyDrained_spec, H3|]. intros [] s4 (HI4 & Hfl & _).
  split; [done|]. exists s3. split; [done|by apply only_flags_idle].
Qed.

Lemma run_command_accounted s c tj : Inv s -> drain_quiet s -> command_fine s c -> c <> stopCommand ->
  ~ admits c h -> os_tenants s !! j = Some tj -> held i h w s ->
  wp (run_command c) (fun r s' => Inv s' /\ fst r = false
    /\ forall s4, idle s' s4 -> waiting (os_entries s4) h -> accounted s s4) s.
Proof.
  intros HI Hq Hc Hns HA Htj Hh. unfold run_command. apply expire_thins; [done|].
  intros now s1 HI1 Hev1 Hth1. assert (Hc1 : command_fine s1 c).
  { destruct c; try done. eapply fresh_item_grows; [exact (evolves_grows none none sublist _ _ Hev1)|intros []|done]. }
  wp_step. eapply wp_mono; [by apply handle_spec|]. intros [stopped resp] s2 (HI2 & Hg2 & Hp).
  pose proof (handle_effect s1 c now _ s2 HI1 Hp) as Heff.
  assert (stopped = false) as ->.
  { destruct c; cbn in Hp; try done; destruct_and?; try congruence;
      try (destruct Hp as (? & Hp & _); congruence). }
  cbn beta iota. apply wp_assoc. wp_step. eapply wp_mono; [by apply pump_then_idle|].
  intros [] s' (HI' & s3 & H3 & Hid). wp_step. split_and!; [done|done|]. intros s4 Hid4 Hw.
  eapply (turn_account (admits c) (finishes c) s s1 s2 s3); try done. by etrans.
Qed.

Lemma owner_turn_accounted s c tj : Inv s -> drain_quiet s -> command_fine s c ->
  ~ admits c h -> os_tenants s !! j = Some tj -> held i h w s ->
  wp (owner_turn c) (fun _ s' => waiting (os_entries s') h -> accounted s s') s.
Proof.
  intros HI Hq Hc HA Htj Hh. unfold owner_turn. destruct (decide (c = stopCommand)) as [->|Hns].
  - exfalso. cbn in Hc. rewrite (co_notified _ (proj1 HI)) in Hc.
    destruct (co_drained _ (proj1 HI) Hc) as [Ha _]. destruct Hh as (ti & rest & e & Hti & Hqi & _).
    apply (Hq Ha h). destruct (head_facts s i ti h rest HI Hti Hqi) as (e' & He' & Hp' & _). by exists e'.
  - eapply wp_bind_mono; [by apply (run_command_accounted s c tj)|]. intros [stopped resp] s1 (HI1 & Hst & Hacc).
    cbn in Hst. subst stopped. cbn beta iota. eapply wp_bind_mono; [by apply run_head_idle|].
    intros [] s2 Hid. wp_step. by apply Hacc.
Qed.

Lemma run_timer_accounted s tj : Inv s -> drain_quiet s -> os_tenants s !! j = Some tj -> held i h w s ->
  wp run_timer (fun _ s' => Inv s' /\ forall s4, idle s' s4 -> waiting (os_entries s4) h -> accounted s s4) s.
Proof.
  intros HI Hq Htj Hh. unfold run_timer. o_steps.
  set (s0 := with_ext s _). assert (HI0 : Inv s0) by (by apply Inv_ticked).
  eapply wp_mono; [apply wp_and; [by apply expireReady_spec|by apply expireReady_thinning]|].
  intros [] s1 [(HI1 & Hev & _) Hth]. cbn beta. eapply wp_mono; [by apply pump_then_idle|].
  intros [] s2 (HI2 & s3 & H3 & Hid). split; [done|]. intros s4 Hid4 Hw.
  eapply (turn_account none none s s1 s1 s3); try done; [|by intros []|by etrans].
  split; try done; [etrans; [apply thinning_ticked|exact Hth]| |by left].
  etrans; [|exact Hev]. apply (evolves_ticked sublist). lia.
Qed.

Lemma timer_turn_accounted s tj : Inv s -> drain_quiet s -> os_tenants s !! j = Some tj -> held i h w s ->
  wp timer_turn (fun _ s' => waiting (os_entries s') h -> accounted s s') s.
Proof.
  intros HI Hq Htj Hh. unfold timer_turn. eapply wp_bind_mono; [by apply (run_timer_accounted s tj)|].
  intros [] s1 [HI1 Hacc]. eapply wp_mono; [by apply run_head_idle|]. intros [] s2 Hid. by apply Hacc.
Qed.

(** ** Runs *)

Lemma served_self s : served j s s = 0.
Proof.
  unfold served. rewrite (filter_ext_in _ (fun _ => false)); [by rewrite filter_false|].
  intros id Hid. apply bool_decide_eq_false_2. intros Hn. by apply Hn, list_elem_of_In.
Qed.

Lemma accounted_refl s : Inv s -> held i h w s -> accounted s s.
Proof.
  intros HI Hh. split; [done|]. rewrite served_self. pose proof (lost_nonneg s s).
  enough (0 <= quantum_at j s) by nia. unfold quantum_at.
  destruct (vc_tenants (os_config s) !! j) as [vt|] eqn:Hvt; [|done].
  destruct (lookup_lt_is_Some_2 (os_tenants s) j) as [t Ht].
  { rewrite (co_len _ (proj1 HI)). by eapply lookup_lt_Some. }
  destruct (co_tenant _ (proj1 HI) j t Ht) as (Hc & _). pose proof (tenant_quantum s j t (proj1 HI) Ht). by simplify_eq; lia.
Qed.

(** A step of the scheduler after which [h] still waits. *)
Lemma sys_step_accounted sy sy' tj : sys_inv sy -> sys_step sy sy' ->
  os_tenants (sy_owner sy) !! j = Some tj -> held i h w (sy_owner sy) ->
  waiting (os_entries (sy_owner sy')) h -> accounted (sy_owner sy) (sy_owner sy').
Proof.
  intros Hsi Hst Htj Hh Hw. pose proof (si_inv _ Hsi) as HI. pose proof (si_quiet _ Hsi) as Hq.
  destruct Hst; try by apply accounted_refl.
  - pose proof (head_command_fine _ _ _ _ _ _ Hsi) as Hfine.
    assert (HA : ~ admits c h); [|by apply (wp_run _ _ _ _ _ (owner_turn_accounted o c tj HI Hq Hfine HA Htj Hh) H0)].
    destruct c; try by intros []. cbn. intros ->. destruct Hfine as [Hk _]. apply Hk. left.
    destruct Hh as (ti & rest & e & _ & _ & He & _). by exists e.
  - by apply (wp_run _ _ _ _ _ (timer_turn_accounted o tj HI Hq Htj Hh) H1).
Qed.

(** A run in which [h] waits after every step: the work of tenant [j] that went in
    flight, and the number of its queued requests that were refused. *)
Inductive awaits : Z -> Z -> system -> system -> Prop :=
| awaits_refl sy : awaits 0 0 sy sy
| awaits_step work n sy sy1 sy2 :
    awaits work n sy sy1 -> sys_step sy1 sy2 -> waiting (os_entries (sy_owner sy2)) h ->
    awaits (work + served j (sy_owner sy1) (sy_owner sy2)) (n + lost j (sy_owner sy1) (sy_owner sy2)) sy sy2.

Lemma sys_step_config sy sy' : sys_inv sy -> sys_step sy sy' ->
  os_config (sy_owner sy') = os_config (sy_owner sy).
Proof.
  intros Hsi Hst. destruct Hst; try done.
  - pose proof (head_command_fine _ _ _ _ _ _ Hsi) as Hfine.
    by apply (wp_run _ _ _ _ _ (owner_turn_spec o c (si_inv _ Hsi) (si_quiet _ Hsi) Hfine) H0).
  - by apply (wp_run _ _ _ _ _ (timer_turn_spec o (si_inv _ Hsi) (si_quiet _ Hsi)) H1).
Qed.

Lemma config_tenant s s' t : Inv s -> Inv s' -> os_config s' = os_config s -> os_tenants s !! j = Some t ->
  exists t', os_tenants s' !! j = Some t' /\ ts_config t' = ts_config t.
Proof.
  intros HI HI' Hc Ht. destruct (lookup_lt_is_Some_2 (os_tenants s') j) as [t' Ht'].
  { rewrite (co_len _ (proj1 HI')), Hc, <- (co_len _ (proj1 HI)). by eapply lookup_lt_Some. }
  exists t'. split; [done|]. destruct (co_tenant _ (proj1 HI) j t Ht) as [H1 _], (co_tenant _ (proj1 HI') j t' Ht') as [H2 _].
  congruence.
Qed.

Lemma awaits_account work n sy sy' tj : sys_inv sy -> awaits work n sy sy' ->
  os_tenants (sy_owner sy) !! j = Some tj -> held i h w (sy_owner sy) ->
  sys_inv sy' /\ os_config (sy_owner sy') = os_config (sy_owner sy) /\ held i h w (sy_owner sy')
  /\ work + allowance i j w (sy_owner sy') <= allowance i j w (sy_owner sy) + quantum_at j (sy_owner sy) * n.
Proof.
  intros Hsi Ha Htj Hh. induction Ha as [sy|work n sy sy1 sy2 Ha IH Hst Hw].
  { split_and!; try done. lia. }
  destruct (IH Hsi Htj Hh) as (Hsi1 & Hc1 & Hh1 & Hle).
  destruct (config_tenant _ _ tj (si_inv _ Hsi) (si_inv _ Hsi1) Hc1 Htj) as (tj1 & Htj1 & _).
  destruct (sys_step_accounted sy1 sy2 tj1) as [Hh2 Hle2]; try done.
  split_and!; [by eapply sys_step_inv|by rewrite (sys_step_config sy1 sy2)|done|].
  assert (quantum_at j (sy_owner sy1) = quantum_at j (sy_owner sy)) as Hq by (unfold quantum_at; by rewrite Hc1).
  rewrite Hq in Hle2. lia.
Qed.

End turns.
