(* ===== verification/AdmissionTheorems.v ===== *)
(** * Admission: theorems

    The properties of the scheduler, each with a concrete instance: a system of
    two tenants in which one request has been dispatched and one waits. *)

From S2P Require Import Prelude AdmissionConfig GoHeap AdmissionOwner AdmissionInv AdmissionSteps.
From S2P Require Import AdmissionArrive AdmissionPump AdmissionHandle.
From S2P Require Import AdmissionFinish AdmissionRun AdmissionScheduler.

(** ** A concrete scheduler *)

#[local] Instance demo_world : World := {|
  w_now := fun t => Z.of_nat t;
  w_err := fun _ _ => false;
|}.

Definition demo_config : Config :=
  MkConfig 100 10 4 20 (MkQueueLimits 4 400 40) (MkInflightLimits 2 20)
    [MkTenantConfig 1 1 (MkQueueLimits 2 200 20) (MkInflightLimits 1 10);
     MkTenantConfig 2 2 (MkQueueLimits 4 400 40) (MkInflightLimits 2 20)].

Lemma demo_typed : typed_config demo_config.
Proof.
  unfold typed_config, typed_queue, typed_inflight, is_u64, two64. cbn.
  split_and!; try lia. repeat constructor; cbn; lia.
Qed.

Definition demo_admission (tenant work : Z) : Admission := MkAdmission tenant 50 work time_Second.

Definition demo_item (id tenant work : Z) : entry :=
  newEntry id (demo_admission tenant work) 7 (5 + time_Second) deadlineQueue.

Definition demo_empty : ownerState :=
  newOwnerState (match validateConfig demo_config with
                 | Ok v => v
                 | Err _ => MkValidatedConfig 0 0 0 (MkQueueLimits 0 0 0) (MkInflightLimits 0 0) [] ∅ end).

Definition done_or {S A : Type} (d : S) (c : comp (A * S)) : S :=
  match c with Done (_, s) => s | _ => d end.

Definition demo_start : ownerState := done_or demo_empty (run_head demo_empty).
Definition demo_first : ownerState :=
  done_or demo_start (owner_turn (admitCommand (demo_item 1 1 5)) demo_start).
Definition demo_second : ownerState :=
  done_or demo_first (owner_turn (admitCommand (demo_item 2 1 10)) demo_first).

(** The scheduler once it has admitted both requests. *)
Definition demo_system : system := MkSystem demo_second [] [] 2 true.

Lemma demo_turn item o o' mb pend next :
  owner_turn (admitCommand item) o = Done (true, o') ->
  (length mb < mailboxCapacity)%nat -> mb = [] -> pend = [] ->
  rtc sys_step (MkSystem o mb (item :: pend) next true) (MkSystem o' mb pend next true).
Proof.
  intros Ho Hlen -> ->. eapply rtc_l; [apply (step_send o [] [] item []); done|].
  eapply rtc_once. by apply step_turn.
Qed.

Lemma reachable_rtc config sy sy' : reachable config sy -> rtc sys_step sy sy' -> reachable config sy'.
Proof. intros Hr. induction 1 as [|sy1 sy2 sy3 Hst _ IH]; [done|]. apply IH. by eapply reach_step. Qed.

Lemma demo_reachable : reachable demo_config demo_system.
Proof.
  assert (H0 : reachable demo_config (MkSystem demo_start [] [] 0 true)).
  { apply reach_init. vm_compute. reflexivity. }
  assert (H1 : reachable demo_config (MkSystem demo_first [] [] 1 true)).
  { eapply reachable_rtc; [eapply reach_step; [exact H0|]|].
    - apply (step_create demo_start [] [] 0 true (demo_admission 1 5) false 5 None 7
        (5 + time_Second) deadlineQueue); by vm_compute.
    - apply demo_turn; [vm_compute; reflexivity|unfold mailboxCapacity; cbn; lia|done|done]. }
  eapply reachable_rtc; [eapply reach_step; [exact H1|]|].
  - apply (step_create demo_first [] [] 1 true (demo_admission 1 10) false 5 None 7
      (5 + time_Second) deadlineQueue); by vm_compute.
  - apply demo_turn; [vm_compute; reflexivity|unfold mailboxCapacity; cbn; lia|done|done].
Qed.

Lemma demo_inv : sys_inv demo_system.
Proof. eapply reachable_inv; [exact demo_typed|exact demo_reachable]. Qed.

(** ** Accounting *)

(** C1: In every state the scheduler can reach, the global counters are exactly
    the sums of what the queued and in-flight entries charge, each tenant's
    counters are those sums over its own entries, and both stay within the
    configured queue and in-flight limits. *)
Theorem sched_accounting `{World} config sy :
  typed_config config -> reachable config sy ->
  let o := sy_owner sy in
  os_global o = tally of_any (os_entries o)
  /\ within_queue (os_global o) (vc_globalQueue (os_config o))
  /\ within_inflight (os_global o) (vc_globalInflight (os_config o))
  /\ forall i t, os_tenants o !! i = Some t ->
       ts_counters t = tally (of_tenant i) (os_entries o)
       /\ within_queue (ts_counters t) (vt_queue (ts_config t))
       /\ within_inflight (ts_counters t) (vt_inflight (ts_config t)).
Proof.
  intros Hty Hr o. destruct (si_inv _ (reachable_inv _ _ Hty Hr)) as [Hs _].
  split_and!; [apply Hs..|]. intros i t Ht. by destruct (co_tenant _ Hs i t Ht) as (_ & _ & _ & ? & ? & ? & _).
Qed.

Lemma sched_accounting_witness :
  os_global (sy_owner demo_system) = MkCounters 1 50 10 1 5
  /\ os_global (sy_owner demo_system) = tally of_any (os_entries (sy_owner demo_system)).
Proof.
  split; [vm_compute; reflexivity|].
  exact (proj1 (sched_accounting demo_config demo_system demo_typed demo_reachable)).
Defined.

(** C2: The owner never panics and never loops forever: from every reachable
    state, a turn on the next command of the mailbox and a turn on the timer
    run to their end. *)
Theorem sched_no_panic `{World} config sy :
  typed_config config -> reachable config sy ->
  (forall c rest, sy_mailbox sy = c :: rest -> exists on o', owner_turn c (sy_owner sy) = Done (on, o'))
  /\ exists o', timer_turn (sy_owner sy) = Done (tt, o').
Proof.
  intros Hty Hr. pose proof (reachable_inv _ _ Hty Hr) as Hsi. split.
  - intros c rest Hmb. destruct (owner_turn_spec (sy_owner sy) c) as (on & o' & Hrun & _); eauto;
      [apply Hsi|apply Hsi|]. destruct c; try done; cbn.
    + apply (si_unborn _ Hsi). unfold unborn. rewrite Hmb. by left.
    + apply (si_stop _ Hsi). rewrite Hmb. by left.
  - destruct (timer_turn_spec (sy_owner sy)) as ([] & o' & Hrun & _); eauto; apply Hsi.
Qed.

Lemma sched_no_panic_witness : exists o', timer_turn (sy_owner demo_system) = Done (tt, o').
Proof. exact (proj2 (sched_no_panic demo_config demo_system demo_typed demo_reachable)). Defined.

(** What a step does to the owner's state. *)
Lemma sys_step_grows `{World} sy sy' :
  sys_inv sy -> sys_step sy sy' ->
  exists A F, grows A F (sy_owner sy) (sy_owner sy')
    /\ forall id, F id -> exists outcome rest, sy_mailbox sy = finishCommand id outcome :: rest.
Proof.
  intros Hsi Hst. pose proof (sys_step_inv _ _ Hsi Hst) as Hsi'. destruct Hst; cbn.
  1-5: exists none, none; split; [reflexivity|by intros ? []].
  - pose proof (head_command_fine _ _ _ _ _ _ Hsi) as Hfine.
    pose proof (wp_run _ _ _ _ _ (owner_turn_spec o c (si_inv _ Hsi) (si_quiet _ Hsi) Hfine) H0)
      as (_ & _ & Hg & _).
    exists (admits c), (finishes c). split; [done|]. intros id Hf. destruct c; try done.
    cbn in Hf. subst id. eauto.
  - pose proof (wp_run _ _ _ _ _ (timer_turn_spec o (si_inv _ Hsi) (si_quiet _ Hsi)) H1)
      as (_ & _ & Hg & _).
    exists none, none. split; [done|by intros ? []].
Qed.

(** C9: A request is answered exactly once: in every reachable state a request
    the owner holds is either queued, with nothing sent on its result channel,
    or in flight, with its permit sent there; and no step ever changes or
    drops a result, or drops a queued request without one. *)
Theorem sched_answers_once `{World} config sy sy' :
  typed_config config -> reachable config sy -> sys_step sy sy' ->
  (forall id e, os_entries (sy_owner sy) !! id = Some e ->
     (e_phase e = Some accountingQueued /\ x_results (os_ext (sy_owner sy)) !! id = None)
     \/ (e_phase e = Some accountingInflight
         /\ x_results (os_ext (sy_owner sy)) !! id = Some (dispatched_result id (e_clientCtx e))))
  /\ x_results (os_ext (sy_owner sy)) ⊆ x_results (os_ext (sy_owner sy'))
  /\ forall id, waiting (os_entries (sy_owner sy)) id ->
       waiting (os_entries (sy_owner sy')) id \/ is_Some (x_results (os_ext (sy_owner sy')) !! id).
Proof.
  intros Hty Hr Hst. pose proof (reachable_inv _ _ Hty Hr) as Hsi.
  destruct (sys_step_grows _ _ Hsi Hst) as (A & F & Hg & _).
  split_and!; [|apply Hg|apply Hg]. intros id e He. destruct (si_inv _ Hsi) as [Hs _].
  destruct (co_entry _ Hs id e He) as (_ & _ & _ & Hp). unfold phase_fine in Hp.
  destruct (e_phase e) as [[]|]; [left|right|done]; tauto.
Qed.

Lemma demo_step : sys_step demo_system (MkSystem demo_second [drainCommand] [] 2 true).
Proof. apply (step_request demo_second [] [] 2 true drainCommand); [done|unfold mailboxCapacity; cbn; lia]. Qed.

Lemma sched_answers_once_witness :
  waiting (os_entries (sy_owner demo_system)) 2
  /\ x_results (os_ext (sy_owner demo_system)) ⊆ x_results (os_ext demo_second).
Proof.
  split; [by eexists; split; [vm_compute; reflexivity|]|].
  exact (proj1 (proj2 (sched_answers_once demo_config demo_system _ demo_typed demo_reachable demo_step))).
Defined.

(** No dead request is dispatched: for every request in flight in a reachable
    state the owner read its client context uncanceled and then the clock
    before its deadline, one reading after the other. *)
Theorem sched_dispatches_live `{World} config sy id e :
  typed_config config -> reachable config sy ->
  os_entries (sy_owner sy) !! id = Some e -> e_phase e = Some accountingInflight ->
  exists k, w_err k (e_clientCtx e) = false /\ w_now (S k) < e_deadline e.
Proof.
  intros Hty Hr He Hp. destruct (si_inv _ (reachable_inv _ _ Hty Hr)) as [Hs _].
  destruct (co_entry _ Hs id e He) as (_ & _ & _ & Hf). unfold phase_fine in Hf. rewrite Hp in Hf. apply Hf.
Qed.

Lemma sched_dispatches_live_witness :
  exists k, w_err k 7 = false /\ w_now (S k) < 5 + time_Second.
Proof.
  pose (e := set_heapIndex (set_phase (set_state (set_sequence (demo_item 1 1 5) 1)
    (Some entryInflight)) (Some accountingInflight)) (-1)).
  exact (sched_dispatches_live demo_config demo_system 1 e demo_typed demo_reachable
    ltac:(vm_compute; reflexivity) eq_refl).
Defined.

(** Capacity is held until the worker finishes: a request in flight stays in
    flight in every step but the owner's turn on a [finishCommand] for it. *)
Theorem sched_holds_capacity `{World} config sy sy' id :
  typed_config config -> reachable config sy -> sys_step sy sy' ->
  serving (os_entries (sy_owner sy)) id ->
  serving (os_entries (sy_owner sy')) id
  \/ exists outcome rest, sy_mailbox sy = finishCommand id outcome :: rest.
Proof.
  intros Hty Hr Hst Hs. pose proof (reachable_inv _ _ Hty Hr) as Hsi.
  destruct (sys_step_grows _ _ Hsi Hst) as (A & F & Hg & HF).
  destruct (gr_serving _ _ _ _ Hg id Hs) as [|Hf]; [by left|right; auto].
Qed.

Lemma sched_holds_capacity_witness :
  serving (os_entries demo_second) 1
  \/ exists outcome rest, sy_mailbox demo_system = finishCommand 1 outcome :: rest.
Proof.
  apply (sched_holds_capacity demo_config demo_system (MkSystem demo_second [drainCommand] [] 2 true) 1
    demo_typed demo_reachable demo_step).
  eexists. split; [vm_compute; reflexivity|reflexivity].
Defined.

(** ** Scheduling *)

(** C20: The scheduler is work conserving: whenever the owner waits for its next
    command, nothing more could be dispatched.  Either no request is queued, or
    the global in-flight limit is reached, or a funded head holds the remaining
    capacity in reserve, or every tenant's head exceeds its tenant's limits. *)
Theorem sched_work_conserving `{World} config sy :
  typed_config config -> reachable config sy -> sy_running sy = true ->
  let o := sy_owner sy in
  QueuedCount (os_global o) = 0
  \/ inflightFull (os_global o) (vc_globalInflight (os_config o)) = true
  \/ (exists i t id rest e, os_tenants o !! i = Some t /\ ts_queue t = id :: rest
        /\ os_entries o !! id = Some e /\ a_WorkUnits (e_admission e) <= ts_deficit t
        /\ inflightFits (ts_counters t) (e_admission e) (vt_inflight (ts_config t)) = true
        /\ inflightFits (os_global o) (e_admission e) (vc_globalInflight (os_config o)) = false)
  \/ forall i t id rest e, os_tenants o !! i = Some t -> ts_queue t = id :: rest ->
       os_entries o !! id = Some e ->
       inflightFits (ts_counters t) (e_admission e) (vt_inflight (ts_config t)) = false.
Proof. intros Hty Hr Hrun. exact (si_settled _ (reachable_inv _ _ Hty Hr) Hrun). Qed.

Lemma sched_work_conserving_witness :
  sy_running demo_system = true /\ settled (sy_owner demo_system).
Proof.
  split; [reflexivity|].
  exact (sched_work_conserving demo_config demo_system demo_typed demo_reachable eq_refl).
Defined.

(** [pump] terminates, keeps the invariant and is FIFO within each tenant: what
    is left of a queue is a suffix of it, so a request is dispatched, canceled
    or expired by [pump] only after everything queued before it has left. *)
Theorem pump_fifo `{World} s :
  Inv s -> exists s', pump s = Done (tt, s') /\ Inv s' /\
    forall i t t', os_tenants s !! i = Some t -> os_tenants s' !! i = Some t' ->
      ts_queue t' `suffix_of` ts_queue t.
Proof.
  intros HI. destruct (pump_spec s HI) as ([] & s' & Hrun & HI' & Hev & _). exists s'.
  split_and!; [done|done|]. intros i t t' Ht Ht'.
  destruct (ev_queue _ _ _ Hev i t' Ht') as (t0 & Ht0 & _ & Hs). by simplify_eq.
Qed.

Lemma pump_fifo_witness : exists s', pump demo_second = Done (tt, s') /\ Inv s'.
Proof.
  destruct (pump_fifo demo_second (si_inv _ demo_inv)) as (s' & Hrun & HI & _).
  exists s'. split; [exact Hrun|exact HI].
Defined.

(** Credit is bounded and not hoarded: in every reachable state a tenant's
    deficit is at most one short of the largest request plus its quantum, and
    below the configured cap; between visits it is below the largest request;
    and a tenant with an empty queue has none. *)
Theorem sched_credit_bounded `{World} config sy i t :
  typed_config config -> reachable config sy -> os_tenants (sy_owner sy) !! i = Some t ->
  let v := os_config (sy_owner sy) in
  0 <= ts_deficit t <= vc_maxRequestUnits v - 1 + vt_quantum (ts_config t)
  /\ ts_deficit t <= vc_deficitCap v
  /\ (ts_visitOpen t = false -> ts_deficit t < vc_maxRequestUnits v)
  /\ (ts_queue t = [] -> ts_deficit t = 0 /\ ts_visitOpen t = false).
Proof.
  intros Hty Hr Ht v. destruct (si_inv _ (reachable_inv _ _ Hty Hr)) as [Hs _].
  destruct (co_tenant _ Hs i t Ht) as (_ & _ & _ & _ & _ & _ & Hd & Hc & He).
  destruct (tenant_quantum _ i t Hs Ht) as [_ Hcap].
  unfold v. split_and!; [lia|lia|lia|intros Ho; specialize (Hc Ho); lia|exact He].
Qed.

Lemma sched_credit_bounded_witness :
  exists t, os_tenants (sy_owner demo_system) !! 0%nat = Some t /\ 0 <= ts_deficit t.
Proof.
  eexists. split; [vm_compute; reflexivity|].
  exact (proj1 (proj1 (sched_credit_bounded demo_config demo_system 0 _ demo_typed demo_reachable
    ltac:(vm_compute; reflexivity)))).
Defined.

(** [expireReady] removes exactly the requests whose deadline has come: after
    it every queued request's deadline lies ahead of [now], and every request
    queued before whose deadline lies ahead is still queued. *)
Theorem expireReady_exact `{World} s now :
  Inv s -> exists s', expireReady now s = Done (tt, s') /\ Inv s'
    /\ (forall id e, os_entries s' !! id = Some e -> e_phase e = Some accountingQueued ->
          now < e_deadline e)
    /\ (forall id e, os_entries s !! id = Some e -> e_phase e = Some accountingQueued ->
          now < e_deadline e -> waiting (os_entries s') id)
    /\ (forall id e, os_entries s !! id = Some e -> e_phase e = Some accountingQueued ->
          e_deadline e <= now -> is_Some (x_results (os_ext s') !! id)).
Proof.
  intros HI. destruct (expireReady_spec now s HI) as ([] & s' & Hrun & HI' & Hev & Hnr & Hsp).
  exists s'. split_and!; [done|done|exact Hnr|exact Hsp|]. intros id e He Hp Hd.
  destruct (ev_waiting _ _ _ Hev id) as [(e' & He' & Hp')|]; [by exists e| |done].
  destruct (ev_entry _ _ _ Hev id e' He') as (e0 & He0 & (_ & _ & _ & _ & Hde & _)).
  pose proof (Hnr id e' He' Hp'). simplify_eq. lia.
Qed.

Lemma expireReady_exact_witness :
  exists s', expireReady (6 + time_Second) demo_second = Done (tt, s')
    /\ is_Some (x_results (os_ext s') !! 2).
Proof.
  destruct (expireReady_exact demo_second (6 + time_Second) (si_inv _ demo_inv))
    as (s' & Hrun & _ & _ & _ & Hres).
  exists s'. split; [exact Hrun|]. eapply Hres; [vm_compute; reflexivity|reflexivity|].
  cbn [e_deadline]. unfold time_Second. lia.
Defined.

(** While the owner waits, its timer is armed for the earliest deadline among
    the queued requests, or stopped when none is queued. *)
Theorem sched_timer_armed `{World} config sy :
  typed_config config -> reachable config sy -> sy_running sy = true ->
  exists now, armed (sy_owner sy) now (x_timer (os_ext (sy_owner sy))).
Proof. intros Hty Hr. apply (si_armed _ (reachable_inv _ _ Hty Hr)). Qed.

Lemma sched_timer_armed_witness :
  exists now, armed demo_second now (x_timer (os_ext demo_second)).
Proof. exact (sched_timer_armed demo_config demo_system demo_typed demo_reachable eq_refl). Defined.

(** ** Commands *)

(** [admit] gives every fresh request the verdict of the specification, in its
    order of checks: draining, canceled, unknown tenant, deadline passed, the
    first tenant limit exceeded, the first global limit exceeded; otherwise the
    request joins the end of its tenant's queue. *)
Theorem admit_verdict `{World} s item now :
  Inv s -> fresh_item s item ->
  exists s', admitItem item now s = Done (tt, s') /\ Inv s' /\
    match verdict s item now with
    | Some d => x_results (os_ext s') !! e_id item = Some (MkAcquireResult None d)
                /\ os_entries s' = os_entries s
    | None => exists i t t', vc_tenantByID (os_config s) !! a_Tenant (e_admission item) = Some i
                /\ os_tenants s !! i = Some t /\ os_tenants s' !! i = Some t'
                /\ ts_queue t' = ts_queue t ++ [e_id item] /\ waiting (os_entries s') (e_id item)
    end.
Proof.
  intros HI Hf. destruct (admit_spec s item now HI Hf) as ([] & s' & Hrun & HI' & _ & Hv).
  exists s'. split_and!; [done|done|].
  destruct (verdict s item now) as [d|]; [by destruct Hv as (? & ? & ->)|].
  destruct Hv as (i & Hby & Hq). destruct Hq as (e & ex & en & n & -> & _ & He & Hp & Hte & _).
  assert (exists t, os_tenants s !! i = Some t) as [t Ht].
  { apply wf_byID in Hby as (vt & Hvt & _); [|apply HI]. apply lookup_lt_is_Some_2.
    rewrite (co_len _ (proj1 HI)). by eapply lookup_lt_Some. }
  exists i, t, (tenant_enqueue (e_id item) (e_admission e) t).
  split_and!; [done|done|cbn; by rewrite Hte, list_lookup_alter_eq, Ht|done|by exists e].
Qed.

Lemma demo_fresh : fresh_item demo_second (demo_item 3 2 8).
Proof.
  split_and!; [|split; split; vm_compute; (reflexivity || discriminate)|reflexivity].
  intros [[x Hx]|[[x Hx]|[x Hx]]]; vm_compute in Hx; discriminate.
Qed.

Lemma admit_verdict_witness :
  verdict demo_second (demo_item 3 2 8) 5 = None
  /\ exists s', admitItem (demo_item 3 2 8) 5 demo_second = Done (tt, s') /\ Inv s'.
Proof.
  split; [vm_compute; reflexivity|].
  destruct (admit_verdict demo_second (demo_item 3 2 8) 5 (si_inv _ demo_inv) demo_fresh)
    as (s' & Hrun & HI & _).
  exists s'. split; [exact Hrun|exact HI].
Defined.

(** A permit is released exactly once: finishing an entry in flight subtracts
    its own charge from its tenant's and the global counters, removes the entry
    and reports the release; any later [finishEntry] for the id reports no
    release and changes nothing. *)
Theorem finish_releases_once `{World} s id e t outcome outcome' :
  Inv s -> os_entries s !! id = Some e -> e_phase e = Some accountingInflight ->
  os_tenants s !! e_tenant e = Some t ->
  exists r s', finishEntry id outcome s = Done (r, s') /\ Inv s' /\ tr_AccountingReleased r = true
    /\ os_global s' = counters_sub (os_global s) (charge_inflight (e_admission e))
    /\ os_tenants s' !! e_tenant e = Some (tenant_release (e_admission e) t)
    /\ os_entries s' = delete id (os_entries s) /\ is_Some (x_causes (os_ext s') !! id)
    /\ finishEntry id outcome' s' = Done (MkTerminalResult TerminalInternalFailure false, s').
Proof.
  intros HI He Hp Ht. destruct (finishEntry_spec s id outcome HI) as (r & s' & Hrun & HI' & _ & Hpost).
  unfold finish_post in Hpost. rewrite He, Hp in Hpost. destruct Hpost as (-> & n & _ & ->).
  eexists _, _. split; [exact Hrun|]. split_and!; try done.
  - cbn. by rewrite list_lookup_alter_eq, Ht.
  - cbn. destruct (x_causes (os_ext s) !! id) eqn:Hc; [by rewrite Hc|by rewrite lookup_insert_eq].
  - unfold finishEntry. cbv beta delta [mbind M_bind gets]. cbn. by rewrite lookup_delete_eq.
Qed.

Lemma finish_releases_once_witness :
  exists r s', finishEntry 1 ServingCompleted demo_second = Done (r, s')
    /\ os_global s' = MkCounters 1 50 10 0 0 /\ tr_AccountingReleased r = true.
Proof.
  destruct (finish_releases_once demo_second 1 _ _ ServingCompleted ServingCompleted (si_inv _ demo_inv)
    ltac:(vm_compute; reflexivity) eq_refl ltac:(vm_compute; reflexivity))
    as (r & s' & Hrun & _ & Hrel & Hg & _).
  exists r, s'. split; [exact Hrun|]. split; [rewrite Hg; vm_compute; reflexivity|exact Hrel].
Defined.

(** [beginDrain] closes admission and leaves no request queued: every queued
    request is answered, either as shut down or as canceled by its client; the
    reported count is the number of the former; requests in flight stay in
    flight and none of their permits is canceled. *)
Theorem drain_answers_all `{World} s :
  Inv s -> exists r s', beginDrain s = Done (r, s') /\ Inv s' /\ os_accepting s' = false
    /\ (forall id, ~ waiting (os_entries s') id)
    /\ (forall id, serving (os_entries s) id -> serving (os_entries s') id)
    /\ x_causes (os_ext s') = x_causes (os_ext s)
    /\ dr_InFlightActiveAtStart r = InflightCount (os_global s')
    /\ exists shut canc, all_queued s ≡ₚ shut ++ canc
         /\ dr_QueuedShutdownCanceled r = Z.of_nat (length shut)
         /\ (forall id, id ∈ shut -> x_results (os_ext s') !! id
              = Some (MkAcquireResult None (MkDecision DecisionShutdown ResourceNone)))
         /\ (forall id, id ∈ canc -> x_results (os_ext s') !! id
              = Some (MkAcquireResult None (MkDecision DecisionCanceledQueued ResourceNone))).
Proof.
  intros HI. destruct (beginDrain_spec s HI)
    as (r & s' & Hrun & HI' & _ & Ha & Hw & Hc & Hs & Hact & shut & canc & Hp & [Ht1 Ht2] & Hn).
  exists r, s'. split_and!; try done. exists shut, canc. by split_and!.
Qed.

Lemma drain_answers_all_witness :
  exists r s', beginDrain demo_second = Done (r, s') /\ os_accepting s' = false
    /\ forall id, ~ waiting (os_entries s') id.
Proof.
  destruct (drain_answers_all demo_second (si_inv _ demo_inv)) as (r & s' & Hrun & _ & Ha & Hw & _).
  exists r, s'. split; [exact Hrun|]. split; [exact Ha|exact Hw].
Defined.

(** [forceCancelInflight] signals every permit without releasing any: after it
    admission is closed, every request in flight is still in flight and its
    permit context is canceled, and the reported count is the number of permits
    that had no cause before and now carry the drain's. *)
Theorem force_signals_all `{World} s :
  Inv s -> exists r s', forceCancelInflight s = Done (r, s') /\ Inv s' /\ os_accepting s' = false
    /\ (forall id, serving (os_entries s) id -> serving (os_entries s') id)
    /\ (forall id, serving (os_entries s') id -> is_Some (x_causes (os_ext s') !! id))
    /\ x_causes (os_ext s) ⊆ x_causes (os_ext s')
    /\ exists shut, NoDup shut /\ fc_NewlyShutdownSignaled r = Z.of_nat (length shut)
         /\ forall id, id ∈ shut <-> serving (os_entries s') id
              /\ x_causes (os_ext s) !! id = None
              /\ x_causes (os_ext s') !! id = Some errCanceledByDrain.
Proof.
  intros HI. destruct (forceCancelInflight_spec s HI) as (r & s' & Hrun & HI' & Hg & Hp).
  exists r, s'. destruct Hp as (Ha & Hs & Hc & Hsh). split_and!; try done. apply Hg.
Qed.

Lemma force_signals_all_witness :
  exists r s', forceCancelInflight demo_second = Done (r, s') /\ os_accepting s' = false.
Proof.
  destruct (force_signals_all demo_second (si_inv _ demo_inv)) as (r & s' & Hrun & _ & Ha & _).
  exists r, s'. split; [exact Hrun|exact Ha].
Defined.

(** The drain signal is exact: while the owner runs, [drained] is closed if
    and only if admission is closed and nothing is queued or in flight; and
    once admission is closed nothing is queued. *)
Theorem sched_drained_exact `{World} config sy :
  typed_config config -> reachable config sy -> sy_running sy = true ->
  (x_drained (os_ext (sy_owner sy)) = true <->
     os_accepting (sy_owner sy) = false /\ isDrained (sy_owner sy) = true)
  /\ (os_accepting (sy_owner sy) = false -> forall id, ~ waiting (os_entries (sy_owner sy)) id).
Proof.
  intros Hty Hr Hrun. pose proof (reachable_inv _ _ Hty Hr) as Hsi.
  destruct (si_inv _ Hsi) as [Hs _]. split; [split|apply (si_quiet _ Hsi)].
  - rewrite (co_notified _ Hs). apply (co_drained _ Hs).
  - intros [Ha Hd]. by apply (si_notified _ Hsi).
Qed.

Lemma sched_drained_exact_witness :
  x_drained (os_ext demo_second) = false /\
  (x_drained (os_ext demo_second) = true <->
     os_accepting demo_second = false /\ isDrained demo_second = true).
Proof.
  split; [vm_compute; reflexivity|].
  exact (proj1 (sched_drained_exact demo_config demo_system demo_typed demo_reachable eq_refl)).
Defined.

(** ** Clients *)

(** [Acquire] leaks no permit: whatever arm of its selects fires, a permit it
    received is either returned or finished as canceled, and never both; a
    returned permit comes with the owner's decision. *)
Theorem acquire_no_leak id arm p :
  (match arm with
   | WaitResult r _ | WaitCtxResult r | WaitCtxDoneResult r | WaitDoneResult r => ar_permit r = Some p
   | WaitCtxDoneNone | WaitDoneNone => False
   end) ->
  let '((permit, decision), sent) := acquireWait id arm in
  (permit = Some p /\ sent = []) \/
  (permit = None /\ decision = MkDecision DecisionCanceledBeforeStart ResourceNone
   /\ sent = [cancelCommand id; finishCommand (p_entryID p) ServingCanceled]).
Proof.
  destruct arm as [r [] | r | r | | r |]; cbn; try done; intros Hp; rewrite ?Hp; auto.
Qed.

Lemma acquire_no_leak_witness :
  acquireWait 4 (WaitResult (dispatched_result 4 7) true)
  = ((None, MkDecision DecisionCanceledBeforeStart ResourceNone),
     [cancelCommand 4; finishCommand 4 ServingCanceled]).
Proof.
  destruct (acquire_no_leak 4 (WaitResult (dispatched_result 4 7) true) (MkPermit 4 7) eq_refl)
    as [[H _]|[_ [_ _]]]; [discriminate H|reflexivity].
Defined.

(** [Acquire] sends a request to the owner only with a deadline that lies
    ahead and within the requested queue timeout, taken from the client's
    context exactly when that is not later; and the request's tenant, size and
    work are valid for the configuration. *)
Theorem acquire_deadline v a err now cd d src :
  is_u64 (a_BodyBytes a) -> is_u64 (a_WorkUnits a) ->
  acquireCheck v false a err now cd = Ok (d, src) ->
  err = false /\ now < d <= now + a_QueueTimeout a /\ 0 < a_QueueTimeout a <= MaximumQueueTimeout
  /\ (src = deadlineClient <-> cd = Some d) /\ admissible v a
  /\ HasTenant v (a_Tenant a) = true.
Proof.
  intros Hb Hw Hck. apply acquireCheck_Ok in Hck as (Hk & He & Hd & Hs).
  pose proof (validateAdmission_admissible v a Hb Hw Hk) as Hadm.
  unfold validateAdmission in Hk. destruct (a_Tenant a =? 0); [done|].
  destruct ((a_BodyBytes a =? 0) || _); [done|].
  destruct ((a_WorkUnits a =? 0) || _); [done|].
  destruct ((a_QueueTimeout a <=? 0) || _) eqn:E; [done|].
  destruct (vc_tenantByID v !! a_Tenant a) eqn:Ht; [|done].
  split_and!; try done; try lia. unfold HasTenant. rewrite Ht. by apply bool_decide_eq_true.
Qed.

Definition demo_validated : validatedConfig := Eval vm_compute in os_config demo_second.

Lemma acquire_deadline_witness :
  acquireCheck demo_validated false (demo_admission 2 8) false 5 (Some 100) = Ok (100, deadlineClient)
  /\ HasTenant demo_validated 2 = true.
Proof.
  assert (H : acquireCheck demo_validated false (demo_admission 2 8) false 5 (Some 100)
              = Ok (100, deadlineClient)) by (vm_compute; reflexivity).
  split; [exact H|].
  destruct (acquire_deadline demo_validated (demo_admission 2 8) false 5 (Some 100) 100 deadlineClient
    ltac:(by vm_compute) ltac:(by vm_compute) H) as (_ & _ & _ & _ & _ & Ht).
  exact Ht.
Defined.

(** [Permit.Finish] is exactly-once: however often a permit is finished, the
    owner is sent one [finishCommand], the first caller's, and every caller
    gets the owner's answer to it. *)
Theorem permit_finish_once entryID calls outcome r :
  let run := foldl (fun '(rs, fs) '(o, ans) =>
    let '(res, fs') := Permit_Finish entryID o ans fs in (rs ++ [res], fs')) in
  run ([], MkFinishState None []) ((outcome, r) :: calls)
  = (replicate (S (length calls)) r, MkFinishState (Some r) [finishCommand entryID outcome]).
Proof.
  cbn. enough (Hgen : forall acc, foldl (fun '(rs, fs) '(o, ans) =>
    let '(res, fs') := Permit_Finish entryID o ans fs in (rs ++ [res], fs'))
    (acc, MkFinishState (Some r) [finishCommand entryID outcome]) calls
    = (acc ++ replicate (length calls) r, MkFinishState (Some r) [finishCommand entryID outcome])).
  { rewrite (Hgen [r]). done. }
  induction calls as [|[o ans] calls IH]; intros acc; cbn; [by rewrite app_nil_r|].
  rewrite IH, <- app_assoc. done.
Qed.

(** ** Configuration *)

(** [validateConfig] accepts a configuration exactly when it satisfies the
    declarative specification over unbounded integers (limits that hold the
    largest request, tenants within the global limits, distinct ids, quanta and
    deficit cap without overflow, bounded funding work), and then returns the
    derived configuration. *)
Theorem validateConfig_exact c v :
  typed_config c -> validateConfig c = Ok v <-> valid_config c /\ v = validated_of c.
Proof. intros Hty. by apply validateConfig_Ok. Qed.

Lemma validateConfig_exact_witness : valid_config demo_config.
Proof.
  exact (proj1 (proj1 (validateConfig_exact demo_config (validated_of demo_config) demo_typed)
    ltac:(vm_compute; reflexivity))).
Defined.
