(* ===== verification/AdmissionStarvation.v ===== *)
(** * Admission: no starvation, and what it costs to give up a place

    Runs of the scheduler that a list of client actions drives, the bound on what
    one tenant gets while another tenant's head waits, and the run that renews its
    credit by canceling. *)

From S2P Require Import Prelude AdmissionConfig GoHeap AdmissionOwner AdmissionInv AdmissionSteps.
From S2P Require Import AdmissionArrive AdmissionPump AdmissionHandle.
From S2P Require Import AdmissionFinish AdmissionRun AdmissionScheduler.
From S2P Require Import AdmissionFair AdmissionService.

(** ** Runs from client actions *)

(** A client calls [Acquire], or sends another command, and the owner takes it up
    at once. *)
Inductive action := Arrive (admission : Admission) (ctx : Z) | Call (c : command).

Section play.
Context `{World}.

Definition free_commandb (c : command) : bool :=
  match c with admitCommand _ | stopCommand => false | _ => true end.

Definition turn_on (c : command) (o : ownerState) (next : Z) : option (ownerState * Z) :=
  match owner_turn c o with Done (true, o') => Some (o', next) | _ => None end.

Definition play1 (x : action) (st : ownerState * Z) : option (ownerState * Z) :=
  let '(o, next) := st in
  match x with
  | Arrive a ctx =>
      match acquireCheck (os_config o) false a false (w_now (x_tick (os_ext o))) None with
      | Ok (deadline, source) =>
          if (0 <=? a_BodyBytes a) && (a_BodyBytes a <? two64) && (0 <=? a_WorkUnits a)
             && (a_WorkUnits a <? two64) && (next + 1 <? two64)
          then turn_on (admitCommand (newEntry (next +u 1) a ctx deadline source)) o (next +u 1)
          else None
      | Err _ => None
      end
  | Call c => if free_commandb c then turn_on c o next else None
  end.

Fixpoint play (xs : list action) (st : ownerState * Z) : option (ownerState * Z) :=
  match xs with
  | [] => Some st
  | x :: xs => st' ← play1 x st; play xs st'
  end.

(** The system between two actions: nothing in the mailbox, nobody on the way. *)
Definition at_rest (st : ownerState * Z) : system := MkSystem (fst st) [] [] (snd st) true.

(** Steps of clients, which leave the owner alone, and then a turn of the owner. *)
Definition call_step (sy sy' : system) : Prop :=
  exists sy1, rtc (fun a b => sys_step a b /\ sy_owner b = sy_owner a) sy sy1 /\ sys_step sy1 sy'.

Lemma turn_on_step c o mb pend next o' next' :
  turn_on c o next = Some (o', next') ->
  next' = next /\ sys_step (MkSystem o (c :: mb) pend next true) (MkSystem o' mb pend next true).
Proof.
  unfold turn_on. destruct (owner_turn c o) as [[[] o1]| |] eqn:Ht; try done. intros [= <- <-].
  split; [done|]. by apply step_turn.
Qed.

Lemma play1_steps x st st' : play1 x st = Some st' -> call_step (at_rest st) (at_rest st').
Proof.
  destruct st as [o next], st' as [o' next']. unfold play1, at_rest. cbn [fst snd]. destruct x as [a ctx|c].
  - destruct (acquireCheck _ _ _ _ _ _) as [[d src]|] eqn:Hck; [|done]. case_match eqn:Hb; [|done].
    intros Ht. destruct (turn_on_step _ _ [] [] _ _ _ Ht) as [-> Hst]. eexists. split; [|exact Hst].
    eapply rtc_l.
    { split; [apply (step_create o [] [] next true a false _ None ctx d src Hck); unfold is_u64; lia|done]. }
    apply rtc_once. split; [apply (step_send o [] [] _ [] _ true); unfold mailboxCapacity; cbn; lia|done].
  - destruct (free_commandb c) eqn:Hf; [|done]. intros Ht.
    destruct (turn_on_step _ _ [] [] _ _ _ Ht) as [-> Hst]. eexists. split; [|exact Hst].
    apply rtc_once. split; [|done]. apply (step_request o [] []); [by destruct c|unfold mailboxCapacity; cbn; lia].
Qed.

Lemma call_step_reachable config sy sy' : reachable config sy -> call_step sy sy' -> reachable config sy'.
Proof.
  intros Hr (sy1 & Hcl & Hst). eapply reach_step; [|exact Hst]. clear Hst sy'.
  induction Hcl as [|a b c [Hab _] _ IH]; [done|]. apply IH. by eapply reach_step.
Qed.

Lemma play_reachable config xs st st' : reachable config (at_rest st) -> play xs st = Some st' ->
  reachable config (at_rest st').
Proof.
  revert st. induction xs as [|x xs IH]; intros st Hr; cbn; [by intros [= <-]|].
  destruct (play1 x st) as [st1|] eqn:H1; [|done]. apply IH. eapply (call_step_reachable _ _ _ Hr). by eapply play1_steps.
Qed.

(** *** What a head sees of it *)

Definition waitingb (o : ownerState) (id : Z) : bool :=
  match os_entries o !! id with
  | Some e => match e_phase e with Some accountingQueued => true | _ => false end
  | None => false
  end.

Lemma waitingb_true o id : waitingb o id = true <-> waiting (os_entries o) id.
Proof.
  unfold waitingb, waiting. split.
  - destruct (os_entries o !! id) as [e|]; [|done]. destruct (e_phase e) as [[]|] eqn:Hp; try done. by exists e.
  - intros (e & -> & ->). done.
Qed.

(** The run, as long as [h] waits, with what it gave tenant [j] and what it refused it. *)
Fixpoint watch (j : nat) (h : Z) (xs : list action) (st : ownerState * Z) : option (Z * Z * (ownerState * Z)) :=
  match xs with
  | [] => Some (0, 0, st)
  | x :: xs =>
      st1 ← play1 x st;
      if waitingb (fst st) h && waitingb (fst st1) h then
        '(work, n, st') ← watch j h xs st1;
        Some (served j (fst st) (fst st1) + work, lost j (fst st) (fst st1) + n, st')
      else None
  end.

Lemma lost_self j s : Inv s -> lost j s s = 0.
Proof.
  intros HI. unfold lost. destruct (os_tenants s !! j) as [t|] eqn:Ht; [|done].
  rewrite (filter_ext_in _ (fun _ => false)); [by rewrite filter_false|]. intros id Hid.
  apply waiting_not_refused; [done|]. destruct (co_tenant _ (proj1 HI) j t Ht) as (_ & _ & Hq & _).
  destruct (proj1 (Hq id)) as (e & He & Hp & _); [by apply list_elem_of_In|]. by exists e.
Qed.

Lemma awaits_cons j h sy sy1 sy2 work n :
  sys_step sy sy1 -> waiting (os_entries (sy_owner sy1)) h -> awaits j h work n sy1 sy2 ->
  awaits j h (served j (sy_owner sy) (sy_owner sy1) + work) (lost j (sy_owner sy) (sy_owner sy1) + n) sy sy2.
Proof.
  intros Hst Hw. induction 1 as [sy1|work n sy1 sy2 sy3 Ha IH Hst' Hw'].
  - rewrite (Z.add_comm (served _ _ _)), (Z.add_comm (lost _ _ _)). apply awaits_step; [apply awaits_refl|done|done].
  - rewrite !Z.add_assoc. apply awaits_step; [by apply IH|done|done].
Qed.

Lemma call_step_awaits j h sy sy1 sy2 work n : sys_inv sy ->
  call_step sy sy1 -> waiting (os_entries (sy_owner sy)) h -> waiting (os_entries (sy_owner sy1)) h ->
  awaits j h work n sy1 sy2 ->
  awaits j h (served j (sy_owner sy) (sy_owner sy1) + work) (lost j (sy_owner sy) (sy_owner sy1) + n) sy sy2.
Proof.
  intros Hsi (sy0 & Hcl & Hst) Hw Hw1 Ha.
  assert (Hbase : awaits j h (served j (sy_owner sy0) (sy_owner sy1) + work)
                    (lost j (sy_owner sy0) (sy_owner sy1) + n) sy0 sy2) by (by apply awaits_cons).
  revert Hsi Hw Hbase. clear Hst Ha. induction Hcl as [|a b c [Hab Heq] _ IH]; intros Hsi Hw Hbase; [done|].
  assert (Hsib : sys_inv b) by (by eapply sys_step_inv).
  assert (Hwb : waiting (os_entries (sy_owner b)) h) by (by rewrite Heq).
  pose proof (awaits_cons j h a b sy2 _ _ Hab Hwb (IH Hsib Hwb Hbase)) as Hcons.
  rewrite Heq, served_self, (lost_self j _ (si_inv _ Hsi)), !Z.add_0_l in Hcons. exact Hcons.
Qed.

Lemma watch_awaits j h xs st work n st' : sys_inv (at_rest st) -> watch j h xs st = Some (work, n, st') ->
  awaits j h work n (at_rest st) (at_rest st').
Proof.
  revert st work n. induction xs as [|x xs IH]; intros st work n Hsi; cbn [watch].
  { intros [= <- <- <-]. apply awaits_refl. }
  destruct (play1 x st) as [st1|] eqn:H1; [|done]. cbn [mbind option_bind].
  destruct (_ && _) eqn:Hw; [|done]. apply andb_true_iff in Hw as [Hw Hw1].
  apply waitingb_true in Hw, Hw1. pose proof (play1_steps _ _ _ H1) as Hst.
  assert (Hsi1 : sys_inv (at_rest st1)).
  { destruct Hst as (sy1 & Hcl & Hst). eapply sys_step_inv; [|exact Hst].
    clear Hst. revert Hsi. induction Hcl as [|a b c [Hab _] _ IHc]; [done|]. intros Ha. apply IHc. by eapply sys_step_inv. }
  destruct (watch j h xs st1) as [[[work' n'] st2]|] eqn:Hx; [|done]. intros [= <- <- <-].
  eapply (call_step_awaits j h (at_rest st) (at_rest st1)); try done. by apply IH.
Qed.
End play.

(** ** A concrete scheduler *)

(** Two tenants of the same weight, and one request in flight at a time. *)
#[local] Instance rota_world : World := {|
  w_now := fun t => Z.of_nat t;
  w_err := fun _ _ => false;
|}.

Definition rota_config : Config :=
  MkConfig 100 1 1 1 (MkQueueLimits 8 800 8) (MkInflightLimits 1 1)
    [MkTenantConfig 1 1 (MkQueueLimits 4 400 4) (MkInflightLimits 1 1);
     MkTenantConfig 2 1 (MkQueueLimits 4 400 4) (MkInflightLimits 1 1)].

Lemma rota_typed : typed_config rota_config.
Proof.
  unfold typed_config, typed_queue, typed_inflight, is_u64, two64. cbn.
  split_and!; try lia. repeat constructor; cbn; lia.
Qed.

Definition rota_arrive (tenant : Z) : action := Arrive (MkAdmission tenant 50 1 time_Second) 7.
Definition rota_finish (id : Z) : action := Call (finishCommand id ServingCompleted).

(** Tenant 2 is served; meanwhile tenant 1 queues two requests and tenant 2 queues
    one, number 4, which waits at the head of its queue. *)
Definition rota_before : list action :=
  [rota_arrive 2; rota_arrive 1; rota_arrive 1; rota_arrive 2; rota_finish 1].

(** Tenant 1 cancels the request it has queued, queues two more and is served
    again: requests [served], [queued] and the two that come in the place of both. *)
Definition rota_round (k : Z) : list action :=
  let '(served, queued) := if k =? 0 then (2, 3) else (2 * k + 3, 2 * k + 4) in
  [Call (cancelCommand queued); rota_arrive 1; rota_arrive 1; rota_finish served].

Definition rota_rounds (n : nat) : list action := flat_map (fun k => rota_round (Z.of_nat k)) (seq 0 n).

Definition rota_empty : ownerState :=
  newOwnerState (match validateConfig rota_config with
                 | Ok v => v
                 | Err _ => MkValidatedConfig 0 0 0 (MkQueueLimits 0 0 0) (MkInflightLimits 0 0) [] ∅ end).

Definition rota_start : ownerState * Z :=
  match newScheduler rota_config with Some sy => (sy_owner sy, 0) | None => (rota_empty, 0) end.

(** The state in which request 4 has become the head of tenant 2's queue. *)
Definition rota_waiting : ownerState * Z :=
  match play rota_before rota_start with Some st => st | None => rota_start end.

Lemma rota_reachable : reachable rota_config (at_rest rota_waiting).
Proof.
  apply (play_reachable rota_config rota_before rota_start); [|vm_compute; reflexivity].
  apply reach_init. vm_compute. reflexivity.
Qed.

Lemma rota_held : held 1 4 1 (fst rota_waiting).
Proof.
  eexists _, _, _. split; [vm_compute; reflexivity|]. split; [reflexivity|].
  split; [vm_compute; reflexivity|]. split; [reflexivity|]. vm_compute; reflexivity.
Qed.

(** The run of [n] rounds, and what it gave tenant 1. *)
Definition rota_run (n : nat) : option (Z * Z * (ownerState * Z)) := watch 0 4 (rota_rounds n) rota_waiting.

Lemma rota_awaits n work lost st : rota_run n = Some (work, lost, st) ->
  awaits 0 4 work lost (at_rest rota_waiting) (at_rest st).
Proof.
  apply watch_awaits. exact (reachable_inv _ _ rota_typed rota_reachable).
Qed.

Definition rota_after (n : nat) : ownerState * Z :=
  match rota_run n with Some (_, _, st) => st | None => rota_waiting end.

(** ** No starvation *)

(** C4: No starvation: while a request of [w] units waits at the head of its
    queue and fits its tenant's own limits, in any run of the scheduler, whatever
    clients and timers do, every other tenant is put in flight at most its credit
    and [ceil (w / quantum) + 2] of its quanta, and one quantum more for each of its
    own queued requests that is refused (canceled, expired or shut down) meanwhile. *)
Theorem sched_no_starvation `{World} config sy sy' i j h w ti tj work n :
  typed_config config -> reachable config sy -> i <> j ->
  os_tenants (sy_owner sy) !! i = Some ti -> os_tenants (sy_owner sy) !! j = Some tj ->
  held i h w (sy_owner sy) -> awaits j h work n sy sy' ->
  held i h w (sy_owner sy')
  /\ work <= ts_deficit tj
       + vt_quantum (ts_config tj) * (ceil_div w (vt_quantum (ts_config ti)) + 2 + n).
Proof.
  intros Hty Hr Hij Hti Htj Hh Ha. pose proof (reachable_inv _ _ Hty Hr) as Hsi.
  destruct (awaits_account i j h w Hij work n sy sy' tj) as (Hsi' & Hc & Hh' & Hle); [done..|].
  split; [done|]. pose proof (held_units i h w _ (si_inv _ Hsi) Hh) as Hw.
  destruct (config_tenant j _ _ tj (si_inv _ Hsi) (si_inv _ Hsi') Hc Htj) as (tj' & Htj' & _).
  destruct (config_tenant i _ _ ti (si_inv _ Hsi) (si_inv _ Hsi') Hc Hti) as (ti' & Hti' & _).
  pose proof (allowance_bound i j w _ ti tj (si_inv _ Hsi) Hti Htj Hw).
  pose proof (allowance_bound i j w _ ti' tj' (si_inv _ Hsi') Hti' Htj' Hw).
  destruct (quantum_at_tenant j _ tj (si_inv _ Hsi) Htj) as [Hq _]. rewrite Hq in Hle. lia.
Qed.

Lemma sched_no_starvation_witness :
  rota_run 2 = Some (2, 2, rota_after 2) /\ held 1 4 1 (fst (rota_after 2)).
Proof.
  assert (Hrun : rota_run 2 = Some (2, 2, rota_after 2)) by (vm_compute; reflexivity).
  split; [exact Hrun|].
  refine (proj1 (sched_no_starvation rota_config (at_rest rota_waiting) (at_rest (rota_after 2)) 1 0 4 1 _ _ 2 2
    rota_typed rota_reachable _ _ _ rota_held (rota_awaits 2 2 2 _ Hrun)));
    [discriminate|vm_compute; reflexivity..].
Defined.

(** C40: the last term of that bound is needed: a tenant that cancels the request
    it has queued, and queues another one, while the global in-flight limit holds
    [pump] back keeps the cursor and gets a new quantum for the same place in the
    rota.  In this run tenant 1, with a quantum of 1, is served twenty times in a row while a request
    of one unit of tenant 2 waits at the head of its queue. *)
Theorem cancel_renews_credit :
  exists sy sy' ti tj, reachable rota_config sy
    /\ os_tenants (sy_owner sy) !! 1%nat = Some ti /\ os_tenants (sy_owner sy) !! 0%nat = Some tj
    /\ held 1 4 1 (sy_owner sy) /\ awaits 0 4 20 20 sy sy' /\ held 1 4 1 (sy_owner sy')
    /\ ts_deficit tj + vt_quantum (ts_config tj) * (ceil_div 1 (vt_quantum (ts_config ti)) + 2) = 3.
Proof.
  assert (Hrun : rota_run 20 = Some (20, 20, rota_after 20)) by (vm_compute; reflexivity).
  exists (at_rest rota_waiting), (at_rest (rota_after 20)). do 2 eexists.
  split; [exact rota_reachable|]. split; [vm_compute; reflexivity|]. split; [vm_compute; reflexivity|].
  split; [exact rota_held|]. split; [exact (rota_awaits 20 20 20 _ Hrun)|]. split; [|reflexivity].
  eexists _, _, _. split; [vm_compute; reflexivity|]. split; [reflexivity|].
  split; [vm_compute; reflexivity|]. split; [reflexivity|]. vm_compute; reflexivity.
Qed.
