(* ===== verification/GoJson.v ===== *)
(** * The standard library's text handling

    What the contract and policy packages use of Go's standard library:
    [unicode/utf8] (validity, encoding and decoding of runes), [strconv.ParseUint]
    and the token stream of [encoding/json]'s [Decoder] over a byte slice with
    [UseNumber] set: its token state machine, its byte scanner for scalar
    values, and the unquoting of strings. *)

From S2P Require Import Prelude.

(** ** Characters *)

Abbreviation c_tab := 9 (only parsing).
Abbreviation c_lf := 10 (only parsing).
Abbreviation c_cr := 13 (only parsing).
Abbreviation c_space := 32 (only parsing).
Abbreviation c_quote := 34 (only parsing).
Abbreviation c_comma := 44 (only parsing).
Abbreviation c_minus := 45 (only parsing).
Abbreviation c_colon := 58 (only parsing).
Abbreviation c_lbracket := 91 (only parsing).
Abbreviation c_backslash := 92 (only parsing).
Abbreviation c_rbracket := 93 (only parsing).
Abbreviation c_u := 117 (only parsing).
Abbreviation c_lbrace := 123 (only parsing).
Abbreviation c_rbrace := 125 (only parsing).

(** Text with apostrophes for quotation marks. *)
Definition quoted (s : string) : list Z := map (fun c => if c =? 39 then c_quote else c) (bs s).

Definition between (lo hi c : Z) : bool := (lo <=? c) && (c <=? hi).

(** [json.isSpace] *)
Definition isSpace (c : Z) : bool :=
  (c =? c_space) || (c =? c_tab) || (c =? c_cr) || (c =? c_lf).

Definition is_digit (c : Z) : bool := between 48 57 c.

Definition is_hex (c : Z) : bool :=
  between 48 57 c || between 97 102 c || between 65 70 c.

Definition hex_value (c : Z) : Z :=
  if between 48 57 c then c - 48
  else if between 97 102 c then c - 97 + 10 else c - 65 + 10.

(** ** UTF-8 *)

Definition cont (c : Z) : bool := between 128 191 c.

(** The well-formed sequences of two, three and four bytes. *)
Definition utf8_2 (a b : Z) : bool := between 194 223 a && cont b.

Definition utf8_3 (a b c : Z) : bool :=
  cont c &&
  ((a =? 224) && between 160 191 b
   || between 225 236 a && cont b
   || (a =? 237) && between 128 159 b
   || between 238 239 a && cont b).

Definition utf8_4 (a b c d : Z) : bool :=
  cont c && cont d &&
  ((a =? 240) && between 144 191 b
   || between 241 243 a && cont b
   || (a =? 244) && between 128 143 b).

Definition rune2 (a b : Z) : Z := (a - 192) * 64 + (b - 128).
Definition rune3 (a b c : Z) : Z := (a - 224) * 4096 + (b - 128) * 64 + (c - 128).
Definition rune4 (a b c d : Z) : Z :=
  (a - 240) * 262144 + (b - 128) * 4096 + (c - 128) * 64 + (d - 128).

(** [utf8.Valid] *)
Fixpoint utf8_valid (l : list Z) : bool :=
  match l with
  | [] => true
  | a :: l1 =>
      if a <? 128 then utf8_valid l1 else
      match l1 with
      | [] => false
      | b :: l2 =>
          if utf8_2 a b then utf8_valid l2 else
          match l2 with
          | [] => false
          | c :: l3 =>
              if utf8_3 a b c then utf8_valid l3 else
              match l3 with
              | [] => false
              | d :: l4 => if utf8_4 a b c d then utf8_valid l4 else false
              end
          end
      end
  end.

Definition RuneError : Z := 65533.

(** The runes of [for _, r := range s]: an ill-formed byte yields [RuneError]
    and advances by one byte. *)
Fixpoint runes (l : list Z) : list Z :=
  match l with
  | [] => []
  | a :: l1 =>
      if a <? 128 then a :: runes l1 else
      match l1 with
      | [] => [RuneError]
      | b :: l2 =>
          if utf8_2 a b then rune2 a b :: runes l2 else
          match l2 with
          | [] => RuneError :: runes l1
          | c :: l3 =>
              if utf8_3 a b c then rune3 a b c :: runes l3 else
              match l3 with
              | [] => RuneError :: runes l1
              | d :: l4 =>
                  if utf8_4 a b c d then rune4 a b c d :: runes l4
                  else RuneError :: runes l1
              end
          end
      end
  end.

(** [utf8.AppendRune]; an invalid rune is encoded as [RuneError]. *)
Definition encodeRune (r : Z) : list Z :=
  if between 0 127 r then [r]
  else if between 128 2047 r then [192 + r / 64; 128 + r mod 64]
  else if (1114111 <? r) || (r <? 0) || between 55296 57343 r then [239; 191; 189]
  else if r <=? 65535 then [224 + r / 4096; 128 + (r / 64) mod 64; 128 + r mod 64]
  else [240 + r / 262144; 128 + (r / 4096) mod 64; 128 + (r / 64) mod 64; 128 + r mod 64].

(** [utf8.RuneLen]; -1 when the rune cannot be encoded. *)
Definition runeLen (r : Z) : Z :=
  if r <? 0 then -1
  else if r <=? 127 then 1
  else if r <=? 2047 then 2
  else if between 55296 57343 r then -1
  else if r <=? 65535 then 3
  else if r <=? 1114111 then 4
  else -1.

(** ** [strconv.ParseUint(text, 10, 64)]

    On a text of decimal digits: the value, or [None] when it does not fit. *)
Fixpoint parse_digits (acc : Z) (text : list Z) : option Z :=
  match text with
  | [] => Some acc
  | d :: rest =>
      let acc' := acc * 10 + (d - 48) in
      if acc' <? two64 then parse_digits acc' rest else None
  end.

Definition parseUint (text : list Z) : option Z :=
  match text with
  | [] => None
  | _ => if forallb is_digit text then parse_digits 0 text else None
  end.

(** ** Unquoting *)

Definition hex4 (a b c d : Z) : Z :=
  hex_value a * 4096 + hex_value b * 256 + hex_value c * 16 + hex_value d.

(** [utf16.IsSurrogate] and the two halves of a pair. *)
Definition high_surrogate (r : Z) : bool := between 55296 56319 r.
Definition low_surrogate (r : Z) : bool := between 56320 57343 r.
Definition surrogate_pair (hi lo : Z) : Z := (hi - 55296) * 1024 + (lo - 56320) + 65536.

(** The byte an escape other than [\u] stands for. *)
Definition simple_escape (e : Z) : option Z :=
  if e =? 98 then Some 8 else if e =? 102 then Some 12 else if e =? 110 then Some 10
  else if e =? 114 then Some 13 else if e =? 116 then Some 9
  else if (e =? c_quote) || (e =? c_backslash) || (e =? 47) || (e =? 39) then Some e
  else None.

(** [json.unquote] on what is between the quotation marks; lone surrogates and
    ill-formed UTF-8 become the replacement character. *)
Fixpoint unquote (s : list Z) : option (list Z) :=
  match s with
  | [] => Some []
  | c :: s1 =>
      if c =? c_backslash then
        match s1 with
        | [] => None
        | e :: s2 =>
            if e =? c_u then
              match s2 with
              | h1 :: h2 :: h3 :: h4 :: s6 =>
                  if is_hex h1 && is_hex h2 && is_hex h3 && is_hex h4 then
                    let rr := hex4 h1 h2 h3 h4 in
                    if high_surrogate rr then
                      match s6 with
                      | b :: v :: l1 :: l2 :: l3 :: l4 :: s12 =>
                          if (b =? c_backslash) && (v =? c_u)
                             && (is_hex l1 && is_hex l2 && is_hex l3 && is_hex l4)
                             && low_surrogate (hex4 l1 l2 l3 l4)
                          then app (encodeRune (surrogate_pair rr (hex4 l1 l2 l3 l4)))
                                 <$> unquote s12
                          else app (encodeRune RuneError) <$> unquote s6
                      | _ => app (encodeRune RuneError) <$> unquote s6
                      end
                    else if low_surrogate rr
                    then app (encodeRune RuneError) <$> unquote s6
                    else app (encodeRune rr) <$> unquote s6
                  else None
              | _ => None
              end
            else
              match simple_escape e with
              | Some b => cons b <$> unquote s2
              | None => None
              end
        end
      else if (c =? c_quote) || (c <? 32) then None
      else if c <? 128 then cons c <$> unquote s1
      else
        match s1 with
        | [] => Some (encodeRune RuneError)
        | b :: s2 =>
            if utf8_2 c b then app [c; b] <$> unquote s2 else
            match s2 with
            | [] => app (encodeRune RuneError) <$> unquote s1
            | d :: s3 =>
                if utf8_3 c b d then app [c; b; d] <$> unquote s3 else
                match s3 with
                | [] => app (encodeRune RuneError) <$> unquote s1
                | e :: s4 =>
                    if utf8_4 c b d e then app [c; b; d; e] <$> unquote s4
                    else app (encodeRune RuneError) <$> unquote s1
                end
            end
        end
  end.

(** ** The scanner

    The states of [encoding/json]'s scanner that a scalar value passes
    through; objects and arrays are opened by [Token] itself. *)

Inductive scanState :=
| stateBeginValue
| stateInString | stateInStringEsc
| stateInStringEscU | stateInStringEscU1 | stateInStringEscU12 | stateInStringEscU123
| stateNeg | state1 | state0 | stateDot | stateDot0 | stateE | stateESign | stateE0
| stateT | stateTr | stateTru
| stateF | stateFa | stateFal | stateFals
| stateN | stateNu | stateNul
| stateEndValue.

Inductive scanOp :=
| scanContinue (next : scanState)
| scanEnd
| scanError.

Definition expect (c want : Z) (next : scanState) : scanOp :=
  if c =? want then scanContinue next else scanError.

Definition step0 (c : Z) : scanOp :=
  if c =? 46 then scanContinue stateDot
  else if (c =? 101) || (c =? 69) then scanContinue stateE
  else scanEnd.

Definition stepESign (c : Z) : scanOp :=
  if is_digit c then scanContinue stateE0 else scanError.

Definition step (s : scanState) (c : Z) : scanOp :=
  match s with
  | stateBeginValue =>
      if c =? c_quote then scanContinue stateInString
      else if c =? c_minus then scanContinue stateNeg
      else if c =? 48 then scanContinue state0
      else if c =? 116 then scanContinue stateT
      else if c =? 102 then scanContinue stateF
      else if c =? 110 then scanContinue stateN
      else if between 49 57 c then scanContinue state1
      else scanError
  | stateInString =>
      if c =? c_quote then scanContinue stateEndValue
      else if c =? c_backslash then scanContinue stateInStringEsc
      else if c <? 32 then scanError
      else scanContinue stateInString
  | stateInStringEsc =>
      if (c =? 98) || (c =? 102) || (c =? 110) || (c =? 114) || (c =? 116)
         || (c =? c_backslash) || (c =? 47) || (c =? c_quote)
      then scanContinue stateInString
      else if c =? c_u then scanContinue stateInStringEscU
      else scanError
  | stateInStringEscU => if is_hex c then scanContinue stateInStringEscU1 else scanError
  | stateInStringEscU1 => if is_hex c then scanContinue stateInStringEscU12 else scanError
  | stateInStringEscU12 => if is_hex c then scanContinue stateInStringEscU123 else scanError
  | stateInStringEscU123 => if is_hex c then scanContinue stateInString else scanError
  | stateNeg =>
      if c =? 48 then scanContinue state0
      else if between 49 57 c then scanContinue state1 else scanError
  | state1 => if is_digit c then scanContinue state1 else step0 c
  | state0 => step0 c
  | stateDot => if is_digit c then scanContinue stateDot0 else scanError
  | stateDot0 =>
      if is_digit c then scanContinue stateDot0
      else if (c =? 101) || (c =? 69) then scanContinue stateE
      else scanEnd
  | stateE => if (c =? 43) || (c =? c_minus) then scanContinue stateESign else stepESign c
  | stateESign => stepESign c
  | stateE0 => if is_digit c then scanContinue stateE0 else scanEnd
  | stateT => expect c 114 stateTr
  | stateTr => expect c 117 stateTru
  | stateTru => expect c 101 stateEndValue
  | stateF => expect c 97 stateFa
  | stateFa => expect c 108 stateFal
  | stateFal => expect c 115 stateFals
  | stateFals => expect c 101 stateEndValue
  | stateN => expect c 117 stateNu
  | stateNu => expect c 108 stateNul
  | stateNul => expect c 108 stateEndValue
  | stateEndValue => scanEnd
  end.

(** [Decoder.readValue]: the bytes of the value at the front of the buffer and
    the bytes after it; the end of the input counts as a space. *)
Fixpoint readValue (s : scanState) (buf : list Z) : option (list Z * list Z) :=
  match buf with
  | [] => match step s c_space with scanEnd => Some ([], []) | _ => None end
  | c :: tl =>
      match step s c with
      | scanContinue s' =>
          match readValue s' tl with
          | Some (text, rest) => Some (c :: text, rest)
          | None => None
          end
      | scanEnd => Some ([], c :: tl)
      | scanError => None
      end
  end.

(** ** Tokens *)

Inductive token :=
| TDelim (c : Z)
| TString (s : list Z)
| TNumber (text : list Z)
| TBool (b : bool)
| TNull.

#[global] Instance token_eq_dec : EqDecision token.
Proof. solve_decision. Defined.

(** [d.literalInterface] on the text of one scalar value. *)
Definition literal (text : list Z) : option token :=
  match text with
  | [] => None
  | c :: body =>
      if c =? 110 then Some TNull
      else if c =? 116 then Some (TBool true)
      else if c =? 102 then Some (TBool false)
      else if c =? c_quote then TString <$> unquote (removelast body)
      else Some (TNumber text)
  end.

Inductive tokenState :=
| tokenTopValue
| tokenArrayStart | tokenArrayValue | tokenArrayComma
| tokenObjectStart | tokenObjectKey | tokenObjectColon | tokenObjectValue
| tokenObjectComma.

#[global] Instance tokenState_eq_dec : EqDecision tokenState.
Proof. solve_decision. Defined.

(** Errors of [Token]: the end of the input, or anything else. *)
Inductive jsonError := jsonEOF | jsonSyntax.

(** [json.Decoder] over a byte slice; [dec_err] is its sticky scan error. *)
Record Decoder := mkDecoder {
  dec_buf : list Z;
  dec_state : tokenState;
  dec_stack : list tokenState;
  dec_err : bool;
}.

(** [json.NewDecoder(bytes.NewReader(body))] *)
Definition newDecoder (body : list Z) : Decoder :=
  mkDecoder body tokenTopValue [] false.

Definition tokenValueAllowed (s : tokenState) : bool :=
  match s with
  | tokenTopValue | tokenArrayStart | tokenArrayValue | tokenObjectValue => true
  | _ => false
  end.

Definition tokenValueEnd (s : tokenState) : tokenState :=
  match s with
  | tokenArrayStart | tokenArrayValue => tokenArrayComma
  | tokenObjectValue => tokenObjectComma
  | s => s
  end.

(** [Decoder.Decode] of one scalar into an [any] (or a [string]), from a state
    in which a value may start. *)
Definition decodeScalar (d : Decoder) : result jsonError token * Decoder :=
  if dec_err d then (Err jsonSyntax, d) else
  match readValue stateBeginValue (dec_buf d) with
  | None => (Err jsonSyntax, mkDecoder (dec_buf d) (dec_state d) (dec_stack d) true)
  | Some (text, rest) =>
      let d' := mkDecoder rest (tokenValueEnd (dec_state d)) (dec_stack d) false in
      match literal text with
      | Some t => (Ok t, d')
      | None => (Err jsonSyntax, d')
      end
  end.

Definition openDelim (c : Z) (inner : tokenState) (tl : list Z) (d : Decoder)
  : result jsonError token * Decoder :=
  if tokenValueAllowed (dec_state d)
  then (Ok (TDelim c), mkDecoder tl inner (dec_state d :: dec_stack d) (dec_err d))
  else (Err jsonSyntax, d).

Definition closeDelim (c : Z) (start comma : tokenState) (tl : list Z) (d : Decoder)
  : result jsonError token * Decoder :=
  if bool_decide (dec_state d = start) || bool_decide (dec_state d = comma) then
    match dec_stack d with
    | outer :: stack => (Ok (TDelim c), mkDecoder tl (tokenValueEnd outer) stack (dec_err d))
    | [] => (Err jsonSyntax, d)
    end
  else (Err jsonSyntax, d).

(** [Decoder.Token]: the loop skips spaces, and commas and colons where the
    state allows them. *)
Fixpoint tokenFrom (buf : list Z) (st : tokenState) (stack : list tokenState) (err : bool)
  : result jsonError token * Decoder :=
  let d := mkDecoder buf st stack err in
  match buf with
  | [] => (Err jsonEOF, d)
  | c :: tl =>
      if isSpace c then tokenFrom tl st stack err
      else if c =? c_lbracket then openDelim c tokenArrayStart tl d
      else if c =? c_rbracket then closeDelim c tokenArrayStart tokenArrayComma tl d
      else if c =? c_lbrace then openDelim c tokenObjectStart tl d
      else if c =? c_rbrace then closeDelim c tokenObjectStart tokenObjectComma tl d
      else if c =? c_colon then
        if bool_decide (st = tokenObjectColon)
        then tokenFrom tl tokenObjectValue stack err
        else (Err jsonSyntax, d)
      else if c =? c_comma then
        if bool_decide (st = tokenArrayComma) then tokenFrom tl tokenArrayValue stack err
        else if bool_decide (st = tokenObjectComma) then tokenFrom tl tokenObjectKey stack err
        else (Err jsonSyntax, d)
      else if (c =? c_quote) && (bool_decide (st = tokenObjectStart) || bool_decide (st = tokenObjectKey))
      then
        match decodeScalar (mkDecoder buf tokenTopValue stack err) with
        | (Ok t, d') => (Ok t, mkDecoder (dec_buf d') tokenObjectColon stack (dec_err d'))
        | (Err e, d') => (Err e, mkDecoder (dec_buf d') st stack (dec_err d'))
        end
      else if tokenValueAllowed st then decodeScalar d
      else (Err jsonSyntax, d)
  end.

Definition Token (d : Decoder) : result jsonError token * Decoder :=
  tokenFrom (dec_buf d) (dec_state d) (dec_stack d) (dec_err d).

(** [Decoder.More] *)
Fixpoint skipSpace (buf : list Z) : list Z :=
  match buf with
  | c :: tl => if isSpace c then skipSpace tl else buf
  | [] => []
  end.

Definition More (d : Decoder) : bool :=
  match skipSpace (dec_buf d) with
  | [] => false
  | c :: _ => negb (c =? c_rbracket) && negb (c =? c_rbrace)
  end.
