(* ===== verification/JsonGrammar.v ===== *)
(** * The JSON grammar and the token stream

    A declarative grammar of JSON texts: trees ([jtree]), the texts that denote
    them ([value_text], [document_text]), and which tokens a [Decoder] yields
    where ([token_event]).  [Token_spec] shows that [Token] yields exactly the
    events of the relation, so that the clients of the decoder reason by
    inversion on events and never on the token state machine. *)

From S2P Require Import Prelude.
From S2P Require Import GoJson.

(** ** Texts *)

Definition ws (w : list Z) : Prop := Forall (fun c => isSpace c = true) w.

(** The text of one scalar value, as the scanner delimits it. *)
Definition scalar_text (t : token) (text : list Z) : Prop :=
  readValue stateBeginValue text = Some (text, []) /\ literal text = Some t.

(** What may follow a value: the end, a space, or a structural character. *)
Definition delimiter (c : Z) : bool :=
  isSpace c || (c =? c_comma) || (c =? c_colon) || (c =? c_rbracket) || (c =? c_rbrace).

Definition delimited (rest : list Z) : Prop :=
  match rest with [] => True | c :: _ => delimiter c = true end.

#[warnings="-register-all"]
Inductive jtree :=
| JScalar (t : token)
| JArr (l : list jtree)
| JObj (l : list (list Z * jtree)).

(** Around a separator, and before an element (the first one has none). *)
Definition around (sep : Z) (pre : list Z) : Prop :=
  exists w1 w2, ws w1 /\ ws w2 /\ pre = w1 ++ sep :: w2.

Definition item_lead (first : bool) (pre : list Z) : Prop :=
  if first then ws pre else around c_comma pre.

Inductive value_text : jtree -> list Z -> Prop :=
| VScalar t text : scalar_text t text -> value_text (JScalar t) text
| VArr l text : arr_text true l text -> value_text (JArr l) (c_lbracket :: text)
| VObj l text : obj_text true l text -> value_text (JObj l) (c_lbrace :: text)
with arr_text : bool -> list jtree -> list Z -> Prop :=
| ANil first w : ws w -> arr_text first [] (w ++ [c_rbracket])
| ACons first pre t text l rest :
    item_lead first pre -> value_text t text -> arr_text false l rest ->
    arr_text first (t :: l) (pre ++ text ++ rest)
with obj_text : bool -> list (list Z * jtree) -> list Z -> Prop :=
| ONil first w : ws w -> obj_text first [] (w ++ [c_rbrace])
| OCons first pre key ktext colon t text l rest :
    item_lead first pre -> scalar_text (TString key) ktext -> around c_colon colon ->
    value_text t text -> obj_text false l rest ->
    obj_text first ((key, t) :: l) (pre ++ ktext ++ colon ++ text ++ rest).

Scheme value_text_mut := Minimality for value_text Sort Prop
  with arr_text_mut := Minimality for arr_text Sort Prop
  with obj_text_mut := Minimality for obj_text Sort Prop.
Combined Scheme json_text_ind from value_text_mut, arr_text_mut, obj_text_mut.

(** A document is one value between spaces. *)
Definition document_text (t : jtree) (body : list Z) : Prop :=
  exists w1 text w2, ws w1 /\ value_text t text /\ ws w2 /\ body = w1 ++ text ++ w2.

Fixpoint jtree_nested_ind (P : jtree -> Prop) (Hs : forall t, P (JScalar t))
    (Ha : forall l, Forall P l -> P (JArr l)) (Ho : forall l, Forall (fun kv => P (snd kv)) l -> P (JObj l))
    (t : jtree) : P t :=
  match t with
  | JScalar t => Hs t
  | JArr l => Ha l ((fix go l : Forall P l := match l with
      | [] => Forall_nil_2 _
      | t :: l => Forall_cons_2 _ _ _ (jtree_nested_ind P Hs Ha Ho t) (go l)
      end) l)
  | JObj l => Ho l ((fix go l : Forall (fun kv => P (snd kv)) l := match l with
      | [] => Forall_nil_2 _
      | kv :: l => Forall_cons_2 _ _ _ (jtree_nested_ind P Hs Ha Ho (snd kv)) (go l)
      end) l)
  end.

(** Nesting at most [maximum], the value itself being at [depth], and no object
    with a repeated key. *)
Fixpoint tree_ok (maximum depth : Z) (t : jtree) : bool :=
  (depth <=? maximum) &&
  match t with
  | JScalar _ => true
  | JArr l => forallb (tree_ok maximum (depth + 1)) l
  | JObj l =>
      bool_decide (NoDup (map fst l)) &&
      forallb (fun kv => tree_ok maximum (depth + 1) (snd kv)) l
  end.

(** ** Numbers *)

Lemma parse_digits_u64 text : forall acc n,
  is_u64 acc -> forallb is_digit text = true -> parse_digits acc text = Some n -> is_u64 n.
Proof.
  induction text as [|d text IH]; cbn; intros acc n Hacc Hd; [by intros [= <-]|].
  apply andb_true_iff in Hd as [Hd1 Hd2]. destruct (_ <? two64) eqn:Hlt; [|done]. apply Z.ltb_lt in Hlt.
  apply IH; [|done]. unfold is_digit, between in Hd1. breflect. unfold is_u64 in *. lia.
Qed.

Lemma parseUint_u64 text n : parseUint text = Some n -> is_u64 n.
Proof.
  unfold parseUint. destruct text as [|d text]; [done|]. destruct (forallb is_digit _) eqn:Hd; [|done].
  intros Hp. eapply parse_digits_u64; [|exact Hd|exact Hp]. unfold is_u64, two64. lia.
Qed.

(** ** Token events *)

(** What is skipped before a value: spaces, and the separator the state asks
    for; the state the value is then read in. *)
Inductive value_lead : tokenState -> list Z -> tokenState -> Prop :=
| lead_here st w : tokenValueAllowed st = true -> ws w -> value_lead st w st
| lead_comma pre : around c_comma pre -> value_lead tokenArrayComma pre tokenArrayValue
| lead_colon pre : around c_colon pre -> value_lead tokenObjectColon pre tokenObjectValue.

Inductive key_lead : tokenState -> list Z -> Prop :=
| key_first st w : st = tokenObjectStart \/ st = tokenObjectKey -> ws w -> key_lead st w
| key_comma pre : around c_comma pre -> key_lead tokenObjectComma pre.

Inductive token_event : Decoder -> token -> Decoder -> Prop :=
| ev_open st pre st' stack c inner rest :
    value_lead st pre st' ->
    c = c_lbracket /\ inner = tokenArrayStart \/ c = c_lbrace /\ inner = tokenObjectStart ->
    token_event (mkDecoder (pre ++ c :: rest) st stack false) (TDelim c)
      (mkDecoder rest inner (st' :: stack) false)
| ev_close st w outer stack c rest :
    ws w ->
    c = c_rbracket /\ (st = tokenArrayStart \/ st = tokenArrayComma) \/
    c = c_rbrace /\ (st = tokenObjectStart \/ st = tokenObjectComma) ->
    token_event (mkDecoder (w ++ c :: rest) st (outer :: stack) false) (TDelim c)
      (mkDecoder rest (tokenValueEnd outer) stack false)
| ev_key st pre stack text key rest :
    key_lead st pre -> readValue stateBeginValue (text ++ rest) = Some (text, rest) ->
    literal text = Some (TString key) ->
    token_event (mkDecoder (pre ++ text ++ rest) st stack false) (TString key)
      (mkDecoder rest tokenObjectColon stack false)
| ev_scalar st pre st' stack text t rest :
    value_lead st pre st' -> readValue stateBeginValue (text ++ rest) = Some (text, rest) ->
    literal text = Some t ->
    token_event (mkDecoder (pre ++ text ++ rest) st stack false) t
      (mkDecoder rest (tokenValueEnd st') stack false).

(** ** The scanner *)

Lemma readValue_split s buf text rest :
  readValue s buf = Some (text, rest) -> buf = text ++ rest.
Proof.
  revert s text rest. induction buf as [|c tl IH]; intros s text rest; cbn.
  - destruct (step s c_space); intros [= <- <-]; done.
  - destruct (step s c) as [s'| |]; [| intros [= <- <-]; done | done].
    destruct (readValue s' tl) as [[t r]|] eqn:Hr; [|done].
    intros [= <- <-]. cbn. by rewrite (IH _ _ _ Hr).
Qed.

(** Ending a value does not depend on which delimiter ends it. *)
Lemma step_end_space s c : step s c = scanEnd -> step s c_space = scanEnd.
Proof.
  destruct s; cbn; unfold expect, stepESign, step0;
    repeat case_match; congruence || done.
Qed.

Lemma step_space_end s c :
  step s c_space = scanEnd -> delimiter c = true -> step s c = scanEnd.
Proof.
  intros Hs Hc. assert (c = 32 \/ c = 9 \/ c = 13 \/ c = 10 \/ c = 44 \/ c = 58 \/ c = 93 \/ c = 125)
    as Hd by (unfold delimiter, isSpace in Hc; breflect; lia).
  destruct s; cbn in Hs |- *; try discriminate Hs; try done.
  all: destruct Hd as [->|[->|[->|[->|[->|[->|[->| ->]]]]]]]; reflexivity.
Qed.

Lemma readValue_alone s text rest :
  readValue s (text ++ rest) = Some (text, rest) -> readValue s text = Some (text, []).
Proof.
  revert s. induction text as [|c tl IH]; intros s; cbn.
  - destruct rest as [|c tl]; cbn; [done|].
    destruct (step s c) eqn:Hs; [| by rewrite (step_end_space _ _ Hs) | done].
    destruct (readValue next tl) as [[t r]|]; [|done]. intros [=].
  - destruct (step s c) as [s'| |]; [| done | done].
    destruct (readValue s' (tl ++ rest)) as [[t r]|] eqn:Hr; [|done].
    intros [= -> ->]. by rewrite (IH _ Hr).
Qed.

Lemma readValue_followed s text rest :
  readValue s text = Some (text, []) -> delimited rest ->
  readValue s (text ++ rest) = Some (text, rest).
Proof.
  intros Ht Hrest. revert s Ht. induction text as [|c tl IH]; intros s; cbn.
  - destruct (step s c_space) eqn:Hs; try done. intros _.
    destruct rest as [|c tl]; cbn; [by rewrite Hs|].
    by rewrite (step_space_end _ _ Hs Hrest).
  - destruct (step s c) as [s'| |]; [| done | done].
    destruct (readValue s' tl) as [[t r]|] eqn:Hr; [|done].
    intros [= -> ->]. by rewrite (IH _ Hr).
Qed.

(** The first byte of a scalar is none of the characters [Token] treats itself. *)
Lemma scalar_first text rest t :
  readValue stateBeginValue (text ++ rest) = Some (text, rest) -> literal text = Some t ->
  exists c tl, text = c :: tl /\ isSpace c = false /\
    (c =? c_lbracket) = false /\ (c =? c_rbracket) = false /\ (c =? c_lbrace) = false /\
    (c =? c_rbrace) = false /\ (c =? c_colon) = false /\ (c =? c_comma) = false.
Proof.
  destruct text as [|c tl]; [done|]. intros Hr Hl. exists c, tl. split; [done|].
  cbn -[between] in Hr.
  assert (is_Some (match step stateBeginValue c with scanContinue s => Some s | _ => None end))
    as [s Hs] by (cbn -[between]; repeat case_match; eauto; congruence).
  assert (c = 34 \/ c = 45 \/ 48 <= c <= 57 \/ c = 116 \/ c = 102 \/ c = 110) as Hc.
  { cbn -[between] in Hs. unfold between in Hs. repeat case_match; breflect; try congruence; lia. }
  unfold isSpace. repeat split; lia.
Qed.

Lemma literal_quote tl t : literal (c_quote :: tl) = Some t -> exists s, t = TString s.
Proof. cbn. destruct (unquote (removelast tl)); cbn; [|done]. intros [= <-]. eauto. Qed.

Lemma literal_string c tl s : literal (c :: tl) = Some (TString s) -> c = c_quote.
Proof.
  cbn. repeat case_match; try done; breflect; try done.
Qed.

(** ** Spaces *)

Lemma isSpace_false_neq c : isSpace c = false -> c <> 32 /\ c <> 9 /\ c <> 13 /\ c <> 10.
Proof. unfold isSpace. intros; breflect; lia. Qed.

Lemma tokenFrom_ws w buf st stack err :
  ws w -> tokenFrom (w ++ buf) st stack err = tokenFrom buf st stack err.
Proof. induction 1 as [|c w Hc _ IH]; [done|]. cbn -[isSpace]. by rewrite Hc. Qed.

Lemma skipSpace_ws w buf : ws w -> skipSpace (w ++ buf) = skipSpace buf.
Proof. induction 1 as [|c w Hc _ IH]; [done|]. cbn -[isSpace]. by rewrite Hc. Qed.

Lemma ws_app w1 w2 : ws w1 -> ws w2 -> ws (w1 ++ w2).
Proof. apply Forall_app_2. Qed.

Lemma ws_nil : ws [].
Proof. constructor. Qed.

Lemma ws_cons c w : isSpace c = true -> ws w -> ws (c :: w).
Proof. by constructor. Qed.

Create HintDb json.
#[export] Hint Resolve ws_nil ws_cons ws_app : json.
#[export] Hint Constructors value_text arr_text obj_text value_lead key_lead token_event : json.

Lemma around_cons c sep pre : isSpace c = true -> around sep pre -> around sep (c :: pre).
Proof. intros Hc (w1 & w2 & ? & ? & ->). exists (c :: w1), w2. auto with json. Qed.

Lemma around_sep sep w : ws w -> around sep (sep :: w).
Proof. intros. exists [], w. auto with json. Qed.

#[export] Hint Resolve around_cons around_sep : json.

(** A separator is skipped in the state that asks for it. *)
Lemma tokenFrom_around sep pre buf st st' stack err :
  around sep pre ->
  sep = c_comma /\ st = tokenArrayComma /\ st' = tokenArrayValue \/
  sep = c_comma /\ st = tokenObjectComma /\ st' = tokenObjectKey \/
  sep = c_colon /\ st = tokenObjectColon /\ st' = tokenObjectValue ->
  tokenFrom (pre ++ buf) st stack err = tokenFrom buf st' stack err.
Proof.
  intros (w1 & w2 & Hw1 & Hw2 & ->) Hst.
  rewrite <- app_assoc, tokenFrom_ws by done. cbn [app].
  rewrite <- (tokenFrom_ws w2 buf) by done.
  destruct Hst as [(-> & -> & ->)|[(-> & -> & ->)|(-> & -> & ->)]]; reflexivity.
Qed.

Lemma tokenFrom_lead st pre st' buf stack err :
  value_lead st pre st' -> tokenFrom (pre ++ buf) st stack err = tokenFrom buf st' stack err.
Proof.
  intros Hl. destruct Hl.
  - by apply tokenFrom_ws.
  - eapply tokenFrom_around; [done|]. auto 6.
  - eapply tokenFrom_around; [done|]. auto 6.
Qed.

Lemma value_lead_allowed st pre st' : value_lead st pre st' -> tokenValueAllowed st' = true.
Proof. by destruct 1. Qed.

(** ** [Token] yields exactly the events *)

Lemma decodeScalar_lexeme text rest st stack t :
  readValue stateBeginValue (text ++ rest) = Some (text, rest) -> literal text = Some t ->
  decodeScalar (mkDecoder (text ++ rest) st stack false) =
    (Ok t, mkDecoder rest (tokenValueEnd st) stack false).
Proof. intros Hr Hl. unfold decodeScalar. cbn [dec_err dec_buf dec_state dec_stack]. by rewrite Hr, Hl. Qed.

(** One iteration of the loop on the first byte of a scalar. *)
Lemma tokenFrom_scalar_byte c tl st stack err :
  isSpace c = false -> (c =? c_lbracket) = false -> (c =? c_rbracket) = false ->
  (c =? c_lbrace) = false -> (c =? c_rbrace) = false -> (c =? c_colon) = false ->
  (c =? c_comma) = false ->
  tokenFrom (c :: tl) st stack err =
  let d := mkDecoder (c :: tl) st stack err in
  if (c =? c_quote) && (bool_decide (st = tokenObjectStart) || bool_decide (st = tokenObjectKey))
  then match decodeScalar (mkDecoder (c :: tl) tokenTopValue stack err) with
       | (Ok t, d') => (Ok t, mkDecoder (dec_buf d') tokenObjectColon stack (dec_err d'))
       | (Err e, d') => (Err e, mkDecoder (dec_buf d') st stack (dec_err d'))
       end
  else if tokenValueAllowed st then decodeScalar d else (Err jsonSyntax, d).
Proof. intros H1 H2 H3 H4 H5 H6 H7. cbn [tokenFrom]. by rewrite H1, H2, H3, H4, H5, H6, H7. Qed.

Lemma Token_key text rest st stack key :
  st = tokenObjectStart \/ st = tokenObjectKey ->
  readValue stateBeginValue (text ++ rest) = Some (text, rest) ->
  literal text = Some (TString key) ->
  tokenFrom (text ++ rest) st stack false = (Ok (TString key), mkDecoder rest tokenObjectColon stack false).
Proof.
  intros Hst Hr Hl. destruct (scalar_first _ _ _ Hr Hl) as (c & tl & -> & ? & ? & ? & ? & ? & ? & ?).
  pose proof (literal_string _ _ _ Hl) as Hc. cbn [app] in *.
  rewrite tokenFrom_scalar_byte by done.
  rewrite Hc. replace (bool_decide (st = tokenObjectStart) || bool_decide (st = tokenObjectKey)) with true
    by (destruct Hst as [-> | ->]; reflexivity).
  cbn [Z.eqb Pos.eqb andb]. rewrite Hc in Hr, Hl.
  pose proof (decodeScalar_lexeme (34 :: tl) rest tokenTopValue stack _ Hr Hl) as Hd. cbn [app] in Hd.
  by rewrite Hd.
Qed.

Lemma Token_scalar text rest st stack t :
  tokenValueAllowed st = true ->
  readValue stateBeginValue (text ++ rest) = Some (text, rest) -> literal text = Some t ->
  tokenFrom (text ++ rest) st stack false = (Ok t, mkDecoder rest (tokenValueEnd st) stack false).
Proof.
  intros Hst Hr Hl. destruct (scalar_first _ _ _ Hr Hl) as (c & tl & -> & ? & ? & ? & ? & ? & ? & ?).
  cbn [app] in *. rewrite tokenFrom_scalar_byte by done.
  replace (bool_decide (st = tokenObjectStart) || bool_decide (st = tokenObjectKey)) with false
    by (by destruct st).
  rewrite andb_false_r, Hst. by apply (decodeScalar_lexeme (c :: tl)).
Qed.

Lemma Token_complete d t d' : token_event d t d' -> Token d = (Ok t, d').
Proof.
  destruct 1 as [st pre st' stack c inner rest Hl Hc|st w outer stack c rest Hw Hc
                |st pre stack text key rest Hl Hr Ht|st pre st' stack text t rest Hl Hr Ht];
    unfold Token; cbn [dec_buf dec_state dec_stack dec_err].
  - rewrite (tokenFrom_lead _ _ _ _ _ _ Hl). pose proof (value_lead_allowed _ _ _ Hl) as Ha.
    destruct Hc as [[-> ->]|[-> ->]]; cbn; unfold openDelim; cbn; by rewrite Ha.
  - rewrite tokenFrom_ws by done.
    destruct Hc as [[-> [-> | ->]]|[-> [-> | ->]]]; reflexivity.
  - destruct Hl as [st w Hst Hw|pre Hp].
    + rewrite tokenFrom_ws by done. by apply Token_key.
    + rewrite (tokenFrom_around c_comma pre _ tokenObjectComma tokenObjectKey) by auto.
      apply Token_key; auto.
  - rewrite (tokenFrom_lead _ _ _ _ _ _ Hl). apply Token_scalar; try done.
    by eapply value_lead_allowed.
Qed.

(** A skipped space belongs to what is skipped. *)
Lemma token_event_space c d t d' :
  isSpace c = true -> token_event d t d' ->
  token_event (mkDecoder (c :: dec_buf d) (dec_state d) (dec_stack d) false) t d'.
Proof.
  intros Hc Hev. destruct Hev as [st pre st' stack b inner rest Hl Hb|st w outer stack b rest Hw Hb
    |st pre stack text key rest Hl Hr Ht|st pre st' stack text t rest Hl Hr Ht];
    cbn [dec_buf dec_state dec_stack].
  - apply (ev_open st (c :: pre)); [|done]. destruct Hl; auto with json.
  - apply (ev_close st (c :: w)); auto with json.
  - apply (ev_key st (c :: pre)); [|done|done]. destruct Hl; auto with json.
  - apply (ev_scalar st (c :: pre)); [|done|done]. destruct Hl; auto with json.
Qed.

Lemma token_event_colon tl stack t d' :
  token_event (mkDecoder tl tokenObjectValue stack false) t d' ->
  token_event (mkDecoder (c_colon :: tl) tokenObjectColon stack false) t d'.
Proof.
  intros Hev. inversion Hev as [st pre st' stk c inner rest Hl Hc|st w outer stk c rest Hw Hc
    |st pre stk text key rest Hl Hr Ht|st pre st' stk text t' rest Hl Hr Ht]; subst.
  - inversion Hl; subst. apply (ev_open _ (c_colon :: pre)); auto with json.
  - destruct Hc as [[_ [|]]|[_ [|]]]; discriminate.
  - inversion Hl as [? ? [|]|]; subst; discriminate.
  - inversion Hl; subst. apply (ev_scalar _ (c_colon :: pre)); auto with json.
Qed.

Lemma token_event_comma_array tl stack t d' :
  token_event (mkDecoder tl tokenArrayValue stack false) t d' ->
  token_event (mkDecoder (c_comma :: tl) tokenArrayComma stack false) t d'.
Proof.
  intros Hev. inversion Hev as [st pre st' stk c inner rest Hl Hc|st w outer stk c rest Hw Hc
    |st pre stk text key rest Hl Hr Ht|st pre st' stk text t' rest Hl Hr Ht]; subst.
  - inversion Hl; subst. apply (ev_open _ (c_comma :: pre)); auto with json.
  - destruct Hc as [[_ [|]]|[_ [|]]]; discriminate.
  - inversion Hl as [? ? [|]|]; subst; discriminate.
  - inversion Hl; subst. apply (ev_scalar _ (c_comma :: pre)); auto with json.
Qed.

Lemma token_event_comma_object tl stack t d' :
  token_event (mkDecoder tl tokenObjectKey stack false) t d' ->
  token_event (mkDecoder (c_comma :: tl) tokenObjectComma stack false) t d'.
Proof.
  intros Hev. inversion Hev as [st pre st' stk c inner rest Hl Hc|st w outer stk c rest Hw Hc
    |st pre stk text key rest Hl Hr Ht|st pre st' stk text t' rest Hl Hr Ht]; subst.
  - inversion Hl; subst; discriminate.
  - destruct Hc as [[_ [|]]|[_ [|]]]; discriminate.
  - inversion Hl; subst. apply (ev_key _ (c_comma :: pre)); auto with json.
  - inversion Hl; subst; discriminate.
Qed.

Lemma decodeScalar_inv buf st stack t d' :
  decodeScalar (mkDecoder buf st stack false) = (Ok t, d') ->
  exists text rest, buf = text ++ rest /\ d' = mkDecoder rest (tokenValueEnd st) stack false /\
    readValue stateBeginValue (text ++ rest) = Some (text, rest) /\ literal text = Some t.
Proof.
  unfold decodeScalar. cbn [dec_err dec_buf dec_state dec_stack].
  destruct (readValue _ buf) as [[text rest]|] eqn:Hr; [|done].
  pose proof (readValue_split _ _ _ _ Hr) as ->.
  destruct (literal text) as [t'|] eqn:Hl; [|done]. intros [= <- <-]. eauto 8.
Qed.

Lemma Token_sound buf st stack t d' :
  tokenFrom buf st stack false = (Ok t, d') -> token_event (mkDecoder buf st stack false) t d'.
Proof.
  revert st. induction buf as [|c tl IH]; intros st; [done|].
  destruct (isSpace c) eqn:Hsp.
  { cbn [tokenFrom]. rewrite Hsp. intros Ht%IH.
    exact (token_event_space c _ _ _ Hsp Ht). }
  cbn [tokenFrom]. rewrite Hsp.
  destruct (c =? c_lbracket) eqn:E1; breflect.
  { unfold openDelim. cbn [dec_state dec_stack dec_err].
    destruct (tokenValueAllowed st) eqn:Ha; [|done]. intros [= <- <-].
    eapply (ev_open st []); auto with json. }
  destruct (c =? c_rbracket) eqn:E2; breflect.
  { unfold closeDelim. cbn [dec_state dec_stack dec_err].
    destruct (_ || _) eqn:Ha; [|done]. destruct stack as [|outer stack]; [done|]. intros [= <- <-].
    apply (ev_close st []); [auto with json|]. left. split; [done|]. breflect. destruct Ha; breflect; auto. }
  destruct (c =? c_lbrace) eqn:E3; breflect.
  { unfold openDelim. cbn [dec_state dec_stack dec_err].
    destruct (tokenValueAllowed st) eqn:Ha; [|done]. intros [= <- <-].
    eapply (ev_open st []); auto with json. }
  destruct (c =? c_rbrace) eqn:E4; breflect.
  { unfold closeDelim. cbn [dec_state dec_stack dec_err].
    destruct (_ || _) eqn:Ha; [|done]. destruct stack as [|outer stack]; [done|]. intros [= <- <-].
    apply (ev_close st []); [auto with json|]. right. split; [done|]. breflect. destruct Ha; breflect; auto. }
  destruct (c =? c_colon) eqn:E5; breflect.
  { case_bool_decide as Hst; [|done]. intros Ht%IH. subst. by apply token_event_colon. }
  destruct (c =? c_comma) eqn:E6; breflect.
  { case_bool_decide as Hst; [intros Ht%IH; subst; by apply token_event_comma_array|].
    case_bool_decide as Hst'; [intros Ht%IH; subst; by apply token_event_comma_object|done]. }
  destruct (_ && _) eqn:Hk.
  { destruct (decodeScalar _) as [[t'|] d''] eqn:Hs; [|done]. intros [= -> <-].
    apply decodeScalar_inv in Hs as (text & rest & Hb & -> & Hr & Hl). rewrite Hb.
    destruct text as [|b text]; [done|]. cbn [app] in Hb. breflect. simplify_eq.
    destruct (literal_quote _ _ Hl) as [key ->].
    apply (ev_key st [] stack (c_quote :: text) key rest); [|done|done]. apply key_first; [|auto with json].
    match goal with H : _ \/ _ |- _ => destruct H; breflect; auto end. }
  destruct (tokenValueAllowed st) eqn:Ha; [|done]. intros Hs.
  apply decodeScalar_inv in Hs as (text & rest & -> & -> & Hr & Hl).
  apply (ev_scalar st []); auto with json.
Qed.

Lemma Token_spec d t d' : dec_err d = false -> Token d = (Ok t, d') <-> token_event d t d'.
Proof.
  intros He. split; [|apply Token_complete]. destruct d; cbn in He; subst. apply Token_sound.
Qed.
