(* ===== verification/GoIO.v ===== *)
(** * Contexts and readers

    [context.Context] as its users observe it (how often [Err] still returns
    nil), [io.Reader] as the script of the reads it will answer, and what the
    program uses of package [io]: [LimitReader] and [ReadAll]. *)

From S2P Require Import Prelude.

(** ** Contexts *)

Inductive ctxError := Canceled | DeadlineExceeded.

#[global] Instance ctxError_eq_dec : EqDecision ctxError.
Proof. solve_decision. Defined.

(** [Err] returns nil a number of times and the same error ever after;
    [ctx_polls = None] is a context that is never canceled. *)
Record Context := mkContext { ctx_polls : option nat; ctx_cause : ctxError }.

Definition background : Context := mkContext None Canceled.

Definition ctxErr (c : Context) : option ctxError * Context :=
  match ctx_polls c with
  | None => (None, c)
  | Some O => (Some (ctx_cause c), c)
  | Some (S n) => (None, mkContext (Some n) (ctx_cause c))
  end.

Definition canceled (c : Context) : bool :=
  match ctx_polls c with Some O => true | _ => false end.

(** ** Readers *)

Inductive readErr := ioEOF | ioCtx (e : ctxError) | ioNoProgress | ioBufferFull | ioOther (code : nat).

#[global] Instance readErr_eq_dec : EqDecision readErr.
Proof. solve_decision. Defined.

Abbreviation readResult := (list Z * option readErr)%type (only parsing).

(** The answers of a reader: bytes, and an error that comes with the last of
    them; after the script every read is at the end of the input. *)
Abbreviation script := (list (list Z * option readErr)) (only parsing).

Definition scriptRead (k : nat) : M script readResult := fun s =>
  match s with
  | [] => Done (([], Some ioEOF), [])
  | (b, e) :: s' =>
      if (length b <=? k)%nat then Done ((b, e), s')
      else Done ((take k b, None), (drop k b, e) :: s')
  end.

(** The bytes a reader delivers up to its first error, and that error. *)
Fixpoint script_data (s : script) : list Z :=
  match s with
  | [] => []
  | (b, None) :: s' => b ++ script_data s'
  | (b, Some _) :: _ => b
  end.

Fixpoint script_err (s : script) : option readErr :=
  match s with
  | [] => None
  | (_, None) :: s' => script_err s'
  | (_, Some ioEOF) :: _ => None
  | (_, Some e) :: _ => Some e
  end.

Section Readers.
Context {S : Type}.

(** [io.LimitedReader.Read]; the state is the bytes that remain and that of the
    underlying reader. *)
Definition limitRead (read : nat -> M S readResult) (k : nat) : M (Z * S) readResult := fun ns =>
  let '(n, s) := ns in
  if n <=? 0 then Done (([], Some ioEOF), (n, s)) else
  match read (if n <? Z.of_nat k then Z.to_nat n else k) s with
  | Done ((b, e), s') => Done ((b, e), (n - Z.of_nat (length b), s'))
  | Panicked m => Panicked m
  | OutOfFuel => OutOfFuel
  end.

(** [io.ReadAll]; [room] is how many bytes the buffer offers to the next read
    when it holds that many (the growth policy of [append]). *)
Fixpoint ReadAll (fuel : nat) (room : nat -> nat) (read : nat -> M S readResult) (b : list Z)
  : M S readResult :=
  match fuel with
  | O => no_fuel
  | Datatypes.S fuel' =>
      '(got, err) ← read (room (length b));
      let b' := b ++ got in
      match err with
      | Some ioEOF => mret (b', None)
      | Some e => mret (b', Some e)
      | None => ReadAll fuel' room read b'
      end
  end.
End Readers.

(** Reads that are enough to get to the end of a script. *)
Definition script_size (s : script) : nat :=
  (length s + sum_list_with (fun be => length (fst be)) s)%nat.

(** ** Contexts never recover *)

Lemma ctxErr_nil c c' : ctxErr c = (None, c') -> canceled c = false.
Proof. destruct c as [[[|n]|] cause]; cbn; congruence. Qed.

Lemma ctxErr_some c e c' : ctxErr c = (Some e, c') -> canceled c = true /\ c' = c /\ e = ctx_cause c.
Proof. destruct c as [[[|n]|] cause]; cbn; intros [=]; subst; done. Qed.

Lemma ctxErr_canceled c : canceled c = true -> ctxErr c = (Some (ctx_cause c), c).
Proof. by destruct c as [[[|n]|] cause]. Qed.

(** ** What a read takes from a script *)

Lemma scriptRead_spec k s b e s' :
  (0 < k)%nat -> scriptRead k s = Done ((b, e), s') ->
  (length b <= k)%nat /\
  match e with
  | None => script_data s = b ++ script_data s' /\ script_err s = script_err s' /\
            (script_size s' < script_size s)%nat
  | Some ioEOF => script_data s = b /\ script_err s = None
  | Some e => script_data s = b /\ script_err s = Some e
  end.
Proof.
  intros Hk. destruct s as [|[c ec] s]; cbn [scriptRead].
  - intros [= <- <- <-]. cbn. split; [lia | done].
  - destruct (length c <=? k)%nat eqn:Hlen.
    + apply Nat.leb_le in Hlen. intros [= <- <- <-]. split; [done|].
      destruct ec as [[]|]; cbn; try done. repeat split. unfold script_size. cbn. lia.
    + apply Nat.leb_gt in Hlen. intros [= <- <- <-]. split; [rewrite length_take; lia|].
      repeat split.
      * destruct ec; cbn; rewrite ?app_assoc, take_drop; done.
      * unfold script_size. cbn. rewrite length_drop. lia.
Qed.

Lemma scriptRead_total k s : exists r, scriptRead k s = Done r.
Proof. destruct s as [|[c ec] s]; cbn; eauto. case_match; eauto. Qed.

(** ** Code that watches a context

    [HasCtx S]: states that carry a context.  [obeys m]: once the context is
    canceled it stays so (and [background] stays [background]), and a run of [m] after which it is not yet canceled is
    the run under a context that never is.  Code that polls the context between
    its steps obeys it, whatever the polls decide. *)

Class HasCtx (S : Type) := {
  getCtx : S -> Context;
  toBg : S -> S;
  getCtx_toBg s : getCtx (toBg s) = background;
}.

#[global] Program Instance HasCtx_self : HasCtx Context :=
  {| getCtx c := c; toBg _ := background |}.
Next Obligation. done. Qed.

#[global] Program Instance HasCtx_pair S `{HasCtx S} A : HasCtx (S * A) :=
  {| getCtx s := getCtx (fst s); toBg s := (toBg (fst s), snd s) |}.
Next Obligation. intros. cbn. apply getCtx_toBg. Qed.

#[global] Program Instance HasCtx_limited S `{HasCtx S} : HasCtx (Z * S) | 10 :=
  {| getCtx s := getCtx (snd s); toBg s := (fst s, toBg (snd s)) |}.
Next Obligation. intros. cbn. apply getCtx_toBg. Qed.

Definition obeys {S A} `{HasCtx S} (m : M S A) : Prop := forall s a s',
  m s = Done (a, s') ->
  (canceled (getCtx s) = true -> canceled (getCtx s') = true) /\
  (getCtx s = background -> getCtx s' = background) /\
  (canceled (getCtx s') = true \/ m (toBg s) = Done (a, toBg s')).

Section Obeys.
Context {S : Type} `{HasCtx S}.

Lemma obeys_ret {A} (a : A) : obeys (S := S) (mret a).
Proof. intros s b s' [= <- <-]. split; [done|]. split; [done | by right]. Qed.

Lemma obeys_no_fuel {A} : obeys (S := S) (A := A) no_fuel.
Proof. intros s b s' [=]. Qed.

Lemma obeys_bind {A B} (m : M S A) (f : A -> M S B) :
  obeys m -> (forall a, obeys (f a)) -> obeys (m ≫= f).
Proof.
  intros Hm Hf s b s'. unfold mbind, M_bind.
  destruct (m s) as [[a s1]| |] eqn:E1; try done. intros E2.
  destruct (Hm _ _ _ E1) as (H1 & B1 & H1'). destruct (Hf a _ _ _ E2) as (H2 & B2 & H2').
  split; [auto|]. split; [auto|]. destruct H1' as [?|E1']; [by left; auto|].
  destruct H2' as [?|E2']; [by left|]. right. by rewrite E1'.
Qed.

Lemma obeys_gets {A} (f : S -> A) : (forall s, f (toBg s) = f s) -> obeys (gets f).
Proof. intros Hf s a s' [= <- <-]. split; [done|]. split; [done|]. right. unfold gets. by rewrite Hf. Qed.

Lemma obeys_if {A} (b : bool) (m n : M S A) : obeys m -> obeys n -> obeys (if b then m else n).
Proof. by destruct b. Qed.
End Obeys.

Create HintDb ctx.
#[export] Hint Resolve obeys_ret obeys_no_fuel obeys_bind obeys_if : ctx.

(** Goes through the structure of a program down to its primitive steps. *)
Ltac obeys_step :=
  lazymatch goal with
  | |- obeys (mbind _ _) => apply obeys_bind; [|intros ?]
  | |- obeys (if ?b then _ else _) => destruct b
  | |- obeys (match ?x with _ => _ end) => destruct x
  end.
Ltac obeys_auto := repeat first [obeys_step | solve [auto with ctx]].

(** A poll that reports nothing rules out a cancellation. *)
Definition pollSelf : M Context (option ctxError) := fun c => Done (ctxErr c).

Lemma obeys_pollSelf : obeys pollSelf.
Proof.
  intros c a c'. unfold pollSelf. intros [= E]. split; [|split].
  - cbn. intros Hc. rewrite ctxErr_canceled in E by done. by injection E as <- <-.
  - cbn. intros ->. by injection E as <- <-.
  - cbn. destruct a as [e|]; [left; by destruct (ctxErr_some _ _ _ E) as (? & -> & _)|].
    right. by destruct c as [[[|n]|] cause]; cbn in E; simplify_eq.
Qed.
#[export] Hint Resolve obeys_pollSelf : ctx.
