(* ===== verification/ContractScan.v ===== *)
(** * The strict JSON scan

    Package [contract], [jsonscan.go]: the context-aware token decoder, the
    recursive scan that bounds nesting and rejects repeated keys, the check of
    whole documents, and the check of Unicode escapes.  The reasons are those of
    [request.go].  Then its correctness: the scan obeys its context, terminates
    within its fuel, and accepts exactly the documents of the grammar whose tree is
    shallow enough and repeats no key. *)

From S2P Require Import Prelude GoJson JsonGrammar GoIO.

(** ** Reasons ([request.go]); [None] stands for the zero value *)

Inductive Reason :=
| ReasonBodyBytesLimit | ReasonBodyReadFailure | ReasonInvalidUTF8
| ReasonInvalidUnicodeEscape | ReasonMalformedJSON | ReasonTrailingJSON
| ReasonDuplicateKey | ReasonNestingLimit | ReasonRootNotObject
| ReasonUnknownField | ReasonMissingField | ReasonWrongType
| ReasonUnsupportedValue | ReasonMessageCountLimit | ReasonMessageBytesLimit
| ReasonCompletionLimit | ReasonReservationOverflow | ReasonReservationLimit.

#[global] Instance Reason_eq_dec : EqDecision Reason.
Proof. solve_decision. Defined.

Definition maxJSONDepth : Z := 32.

(** ** [contextDecoder] *)

Record contextDecoder := mkContextDecoder { cd_ctx : Context; cd_dec : Decoder }.

Definition newContextDecoder (ctx : Context) (body : list Z) : contextDecoder :=
  mkContextDecoder ctx (newDecoder body).

Inductive tokenError := tokenCtx (e : ctxError) | tokenJson (e : jsonError).

Definition cd_Err : M contextDecoder (option ctxError) := fun s =>
  let '(e, c) := ctxErr (cd_ctx s) in Done (e, mkContextDecoder c (cd_dec s)).

Definition cd_inner : M contextDecoder (result jsonError token) := fun s =>
  let '(r, d) := Token (cd_dec s) in Done (r, mkContextDecoder (cd_ctx s) d).

(** [contextDecoder.Token] *)
Definition cd_Token : M contextDecoder (result tokenError token) :=
  err ← cd_Err;
  match err with
  | Some e => mret (Err (tokenCtx e))
  | None =>
      r ← cd_inner;
      match r with
      | Err e => mret (Err (tokenJson e))
      | Ok t =>
          contextErr ← cd_Err;
          match contextErr with
          | Some e => mret (Err (tokenCtx e))
          | None => mret (Ok t)
          end
      end
  end.

(** [contextDecoder.More] *)
Definition cd_More : M contextDecoder bool :=
  err ← cd_Err;
  match err with
  | Some _ => mret false
  | None => gets (fun s => More (cd_dec s))
  end.

(** The closing token of an object or array. *)
Definition scanClosing (c : Z) : M contextDecoder (option Reason) :=
  closing ← cd_Token;
  match closing with
  | Ok (TDelim d) => mret (if d =? c then None else Some ReasonMalformedJSON)
  | _ => mret (Some ReasonMalformedJSON)
  end.

(** ** [scanJSONValue] and its two loops *)

Fixpoint scanJSONValue (fuel : nat) (depth maximumDepth : Z) : M contextDecoder (option Reason) :=
  match fuel with
  | O => no_fuel
  | S fuel' =>
      if maximumDepth <? depth then mret (Some ReasonNestingLimit) else
      token ← cd_Token;
      match token with
      | Err _ => mret (Some ReasonMalformedJSON)
      | Ok (TDelim delimiter) =>
          if delimiter =? c_lbrace then scanObject fuel' depth maximumDepth ∅
          else if delimiter =? c_lbracket then scanArray fuel' depth maximumDepth
          else mret (Some ReasonMalformedJSON)
      | Ok _ => mret None
      end
  end
with scanObject (fuel : nat) (depth maximumDepth : Z) (keys : gset (list Z))
  : M contextDecoder (option Reason) :=
  match fuel with
  | O => no_fuel
  | S fuel' =>
      more ← cd_More;
      if (more : bool) then
        keyToken ← cd_Token;
        match keyToken with
        | Ok (TString key) =>
            if bool_decide (key ∈ keys) then mret (Some ReasonDuplicateKey) else
            reason ← scanJSONValue fuel' (depth + 1) maximumDepth;
            match reason with
            | Some r => mret (Some r)
            | None => scanObject fuel' depth maximumDepth ({[key]} ∪ keys)
            end
        | _ => mret (Some ReasonMalformedJSON)
        end
      else scanClosing c_rbrace
  end
with scanArray (fuel : nat) (depth maximumDepth : Z) : M contextDecoder (option Reason) :=
  match fuel with
  | O => no_fuel
  | S fuel' =>
      more ← cd_More;
      if (more : bool) then
        reason ← scanJSONValue fuel' (depth + 1) maximumDepth;
        match reason with
        | Some r => mret (Some r)
        | None => scanArray fuel' depth maximumDepth
        end
      else scanClosing c_rbracket
  end.

(** Every call of the scan and every two turns of a loop consume a byte. *)
Definition scanFuel (body : list Z) : nat := (2 * length body + 3)%nat.

(** [validateJSONDocument]; the decoder is fresh, so only the context is left
    of its state. *)
Definition validateDecoder (fuel : nat) (maximumDepth : Z) : M contextDecoder (option Reason) :=
  reason ← scanJSONValue fuel 1 maximumDepth;
  match reason with
  | Some r => mret (Some r)
  | None =>
      last ← cd_Token;
      match last with
      | Err (tokenJson jsonEOF) => mret None
      | Ok _ => mret (Some ReasonTrailingJSON)
      | Err _ => mret (Some ReasonMalformedJSON)
      end
  end.

(** A function that makes a decoder of its own over [body]. *)
Definition withDecoder {A} (body : list Z) (m : M contextDecoder A) : M Context A := fun ctx =>
  match m (newContextDecoder ctx body) with
  | Done (a, s) => Done (a, cd_ctx s)
  | Panicked msg => Panicked msg
  | OutOfFuel => OutOfFuel
  end.

Definition validateJSONDocument (body : list Z) (maximumDepth : Z) : M Context (option Reason) :=
  withDecoder body (validateDecoder (scanFuel body) maximumDepth).

(** ** Unicode escapes *)

(** One digit of [decodeHexQuad]: [value <<= 4; value |= digit], at 16 bits. *)
Definition hexDigit (value digit : Z) : option Z :=
  if between 48 57 digit then Some (Z.lor (u16 (Z.shiftl value 4)) (digit - 48))
  else if between 97 102 digit then Some (Z.lor (u16 (Z.shiftl value 4)) (digit - 97 + 10))
  else if between 65 70 digit then Some (Z.lor (u16 (Z.shiftl value 4)) (digit - 65 + 10))
  else None.

(** [decodeHexQuad(body, start)] on [body[start:]] *)
Definition decodeHexQuad (body : list Z) : option Z :=
  match body with
  | d1 :: d2 :: d3 :: d4 :: _ =>
      v1 ← hexDigit 0 d1; v2 ← hexDigit v1 d2; v3 ← hexDigit v2 d3; hexDigit v3 d4
  | _ => None
  end.

(** The loop of [validUnicodeEscapes] from [index] on; [body] is what is left. *)
Fixpoint escapesFrom (index : Z) (inString : bool) (body : list Z) : M Context bool :=
  match body with
  | [] => mret true
  | c :: tl =>
      err ← (if Z.land index 1023 =? 0 then pollSelf else mret None);
      match err with
      | Some _ => mret false
      | None =>
          if c =? c_quote then escapesFrom (index + 1) (negb inString) tl
          else if c =? c_backslash then
            if negb inString then escapesFrom (index + 1) inString tl else
            match tl with
            | [] => mret true
            | e :: tl2 =>
                if negb (e =? c_u) then escapesFrom (index + 2) inString tl2 else
                match decodeHexQuad tl2 with
                | None => mret true
                | Some value =>
                    match tl2 with
                    | _ :: _ :: _ :: _ :: tl6 =>
                        if (56320 <=? value) && (value <=? 57343) then mret false
                        else if (55296 <=? value) && (value <=? 56319) then
                          match tl6 with
                          | b :: v :: l1 :: l2 :: l3 :: l4 :: tl12 =>
                              if negb (b =? c_backslash) || negb (v =? c_u) then mret false else
                              match decodeHexQuad [l1; l2; l3; l4] with
                              | Some low =>
                                  if (low <? 56320) || (57343 <? low) then mret false
                                  else escapesFrom (index + 12) inString tl12
                              | None => mret false
                              end
                          | _ => mret false
                          end
                        else escapesFrom (index + 6) inString tl6
                    | _ => mret true
                    end
                end
            end
          else escapesFrom (index + 1) inString tl
      end
  end.

Definition validUnicodeEscapes (body : list Z) : M Context bool := escapesFrom 0 false body.

(** * Correctness of the strict JSON scan *)

(** ** Cancellation *)

#[global] Program Instance HasCtx_contextDecoder : HasCtx contextDecoder :=
  {| getCtx := cd_ctx; toBg s := mkContextDecoder background (cd_dec s) |}.
Next Obligation. done. Qed.

Lemma obeys_cd_Err : obeys cd_Err.
Proof.
  intros [c d] a s'. unfold cd_Err. cbn. destruct (ctxErr c) as [e c'] eqn:E. intros [= <- <-].
  destruct (obeys_pollSelf c e c') as (H1 & B & H2); [unfold pollSelf; by rewrite E|]. cbn in *.
  split; [done|]. split; [done|]. destruct H2 as [?|[= <-]]; [by left|]. by right.
Qed.

Lemma obeys_cd_inner : obeys cd_inner.
Proof.
  intros [c d] a s'. unfold cd_inner. cbn. destruct (Token d) as [r d']. intros [= <- <-].
  split; [done|]. split; [done|]. by right.
Qed.
#[export] Hint Resolve obeys_cd_Err obeys_cd_inner : ctx.

Lemma obeys_cd_Token : obeys cd_Token.
Proof. unfold cd_Token. obeys_auto. Qed.

Lemma obeys_cd_More : obeys cd_More.
Proof. unfold cd_More. obeys_auto. by apply obeys_gets. Qed.
#[export] Hint Resolve obeys_cd_Token obeys_cd_More : ctx.

Lemma obeys_scanClosing c : obeys (scanClosing c).
Proof. unfold scanClosing. obeys_auto. Qed.
#[export] Hint Resolve obeys_scanClosing : ctx.

Lemma obeys_scan fuel :
  (forall depth maximum, obeys (scanJSONValue fuel depth maximum)) /\
  (forall depth maximum keys, obeys (scanObject fuel depth maximum keys)) /\
  (forall depth maximum, obeys (scanArray fuel depth maximum)).
Proof.
  induction fuel as [|fuel (IHv & IHo & IHa)]; [split; [|split]; intros; apply obeys_no_fuel|].
  split; [|split]; intros; cbn [scanJSONValue scanObject scanArray]; obeys_auto.
Qed.

Lemma obeys_scanJSONValue fuel depth maximum : obeys (scanJSONValue fuel depth maximum).
Proof. apply obeys_scan. Qed.
#[export] Hint Resolve obeys_scanJSONValue : ctx.

Lemma obeys_validateDecoder fuel maximum : obeys (validateDecoder fuel maximum).
Proof. unfold validateDecoder. obeys_auto. Qed.

Lemma obeys_withDecoder {A} body (m : M contextDecoder A) : obeys m -> obeys (withDecoder body m).
Proof.
  intros Hm c a c'. unfold withDecoder.
  destruct (m (newContextDecoder c body)) as [[b s]| |] eqn:E; try done. intros [= <- <-].
  destruct (Hm _ _ _ E) as (H1 & B & H2). split; [done|]. split; [done|].
  destruct H2 as [?|H2]; [by left|].
  right. cbn in *. unfold newContextDecoder in *. cbn in H2. by rewrite H2.
Qed.

Lemma obeys_validateJSONDocument body maximum : obeys (validateJSONDocument body maximum).
Proof. apply obeys_withDecoder, obeys_validateDecoder. Qed.

Lemma escapesFrom_cons index inString c tl :
  escapesFrom index inString (c :: tl) =
  err ← (if Z.land index 1023 =? 0 then pollSelf else mret None);
      match err with
      | Some _ => mret false
      | None =>
          if c =? c_quote then escapesFrom (index + 1) (negb inString) tl
          else if c =? c_backslash then
            if negb inString then escapesFrom (index + 1) inString tl else
            match tl with
            | [] => mret true
            | e :: tl2 =>
                if negb (e =? c_u) then escapesFrom (index + 2) inString tl2 else
                match decodeHexQuad tl2 with
                | None => mret true
                | Some value =>
                    match tl2 with
                    | _ :: _ :: _ :: _ :: tl6 =>
                        if (56320 <=? value) && (value <=? 57343) then mret false
                        else if (55296 <=? value) && (value <=? 56319) then
                          match tl6 with
                          | b :: v :: l1 :: l2 :: l3 :: l4 :: tl12 =>
                              if negb (b =? c_backslash) || negb (v =? c_u) then mret false else
                              match decodeHexQuad [l1; l2; l3; l4] with
                              | Some low =>
                                  if (low <? 56320) || (57343 <? low) then mret false
                                  else escapesFrom (index + 12) inString tl12
                              | None => mret false
                              end
                          | _ => mret false
                          end
                        else escapesFrom (index + 6) inString tl6
                    | _ => mret true
                    end
                end
            end
          else escapesFrom (index + 1) inString tl
      end.
Proof. reflexivity. Qed.

Lemma obeys_escapesFrom body : forall index inString, obeys (escapesFrom index inString body).
Proof.
  induction body as [body IH] using (induction_ltof1 _ (@length Z)). unfold ltof in IH.
  intros index inString. destruct body as [|c tl]; [apply obeys_ret|].
  rewrite escapesFrom_cons.
  repeat first [obeys_step | solve [auto with ctx] | solve [apply IH; cbn; lia]].
Qed.

(** ** Termination *)

Lemma token_event_shorter d t d' :
  token_event d t d' -> dec_err d' = false /\ (length (dec_buf d') < length (dec_buf d))%nat.
Proof.
  destruct 1 as [| |? ? ? text ? ? ? Hr Hl|? ? ? ? text ? ? ? Hr Hl]; cbn; (split; [done|]);
    rewrite ?length_app; cbn; try lia.
  all: destruct (scalar_first _ _ _ Hr Hl) as (c & tl & -> & _); cbn; lia.
Qed.

Lemma wp_cd_Err s (Q : option ctxError -> contextDecoder -> Prop) :
  (forall e c, Q e (mkContextDecoder c (cd_dec s))) -> wp cd_Err Q s.
Proof.
  intros HQ. unfold wp, cd_Err. destruct (ctxErr (cd_ctx s)) as [e c]. eauto.
Qed.

Lemma wp_cd_Token s (Q : result tokenError token -> contextDecoder -> Prop) :
  dec_err (cd_dec s) = false ->
  (forall t s', token_event (cd_dec s) t (cd_dec s') -> Q (Ok t) s') ->
  (forall e s', Q (Err e) s') -> wp cd_Token Q s.
Proof.
  intros He Hok Herr. unfold cd_Token. apply wp_bind, wp_cd_Err. intros [e|] c; [by apply wp_ret|].
  apply wp_bind. unfold wp at 1, cd_inner. cbn [cd_dec cd_ctx].
  destruct (Token (cd_dec s)) as [r d'] eqn:Ht. eexists _, _. split; [done|].
  destruct r as [t|e]; [|by apply wp_ret].
  apply wp_bind, wp_cd_Err. intros [e|] c'; apply wp_ret; [done|].
  apply Hok. cbn. by apply Token_spec.
Qed.

Lemma wp_cd_More s (Q : bool -> contextDecoder -> Prop) :
  (forall b c, Q b (mkContextDecoder c (cd_dec s))) -> wp cd_More Q s.
Proof.
  intros HQ. unfold cd_More. apply wp_bind, wp_cd_Err. intros [e|] c; [apply wp_ret, HQ|].
  apply wp_gets, HQ.
Qed.

(** The outcome of a scan: on success the decoder has moved. *)
Definition scan_post (d : Decoder) (r : option Reason) (s : contextDecoder) : Prop :=
  r = None -> dec_err (cd_dec s) = false /\ (length (dec_buf (cd_dec s)) < length (dec_buf d))%nat.

Lemma scanClosing_total c s :
  dec_err (cd_dec s) = false -> wp (scanClosing c) (scan_post (cd_dec s)) s.
Proof.
  intros He. unfold scanClosing. apply wp_bind, wp_cd_Token; [done| |intros; by apply wp_ret].
  intros t s' Hev. destruct t; try (by apply wp_ret). apply wp_ret.
  case_match; [|done]. intros _. by apply token_event_shorter in Hev.
Qed.

Lemma scan_total fuel :
  (forall depth maximum s, dec_err (cd_dec s) = false ->
     (2 * length (dec_buf (cd_dec s)) + 1 <= fuel)%nat ->
     wp (scanJSONValue fuel depth maximum) (scan_post (cd_dec s)) s) /\
  (forall depth maximum keys s, dec_err (cd_dec s) = false ->
     (2 * length (dec_buf (cd_dec s)) + 2 <= fuel)%nat ->
     wp (scanObject fuel depth maximum keys) (scan_post (cd_dec s)) s) /\
  (forall depth maximum s, dec_err (cd_dec s) = false ->
     (2 * length (dec_buf (cd_dec s)) + 2 <= fuel)%nat ->
     wp (scanArray fuel depth maximum) (scan_post (cd_dec s)) s).
Proof.
  induction fuel as [|fuel (IHv & IHo & IHa)]; [split; [|split]; intros; lia|].
  assert (forall d s r s', scan_post (cd_dec s) r s' ->
    (length (dec_buf (cd_dec s)) <= length (dec_buf d))%nat -> scan_post d r s') as Hweak.
  { intros d s r s' Hp Hle Hr. destruct (Hp Hr). split; [done|lia]. }
  split; [|split]; intros; cbn [scanJSONValue scanObject scanArray].
  - apply wp_if; intros; [by apply wp_ret|].
    apply wp_bind, wp_cd_Token; [done| |intros; by apply wp_ret].
    intros t s' Hev. destruct (token_event_shorter _ _ _ Hev).
    assert (scan_post (cd_dec s) None s') by done.
    destruct t; try (by apply wp_ret).
    repeat (apply wp_if; intros); try (by apply wp_ret).
    + eapply wp_mono; [apply IHo; [done|lia]|]. intros; eapply Hweak; [done|lia].
    + eapply wp_mono; [apply IHa; [done|lia]|]. intros; eapply Hweak; [done|lia].
  - apply wp_bind, wp_cd_More. intros more c. apply wp_if; intros;
      [|by apply (scanClosing_total _ (mkContextDecoder c (cd_dec s)))].
    apply wp_bind, wp_cd_Token; [done| |intros; by apply wp_ret].
    cbn [cd_dec]. intros t s' Hev. destruct (token_event_shorter _ _ _ Hev).
    destruct t; try (by apply wp_ret). apply wp_if; intros; [by apply wp_ret|].
    eapply wp_bind_mono; [apply IHv; [done|lia]|]. intros [r|] s2 Hp; [by apply wp_ret|].
    destruct (Hp eq_refl). eapply wp_mono; [apply IHo; [done|lia]|].
    intros; eapply Hweak; [done|lia].
  - apply wp_bind, wp_cd_More. intros more c. apply wp_if; intros;
      [|by apply (scanClosing_total _ (mkContextDecoder c (cd_dec s)))].
    eapply wp_bind_mono; [apply IHv; cbn [cd_dec]; [done|lia]|].
    intros [r|] s2 Hp; [by apply wp_ret|].
    destruct (Hp eq_refl). cbn [cd_dec] in *. eapply wp_mono; [apply IHa; [done|lia]|].
    intros; eapply Hweak; [done|lia].
Qed.

Lemma validateDecoder_total fuel maximum s :
  dec_err (cd_dec s) = false -> (2 * length (dec_buf (cd_dec s)) + 1 <= fuel)%nat ->
  wp (validateDecoder fuel maximum) (fun _ _ => True) s.
Proof.
  intros He Hf. unfold validateDecoder.
  eapply wp_bind_mono; [by apply scan_total|]. intros [r|] s1 Hp; [by apply wp_ret|].
  destruct (Hp eq_refl). apply wp_bind, wp_cd_Token; [done|intros; by apply wp_ret|].
  intros [e|[]] s2; by apply wp_ret.
Qed.

Lemma validateJSONDocument_total body maximum ctx :
  exists r ctx', validateJSONDocument body maximum ctx = Done (r, ctx').
Proof.
  destruct (validateDecoder_total (scanFuel body) maximum (newContextDecoder ctx body))
    as (r & s & Hr & _); [done|unfold scanFuel; cbn; lia|].
  unfold validateJSONDocument, withDecoder. rewrite Hr. eauto.
Qed.

Lemma escapesFrom_total body : forall index inString ctx,
  exists r ctx', escapesFrom index inString body ctx = Done (r, ctx').
Proof.
  induction body as [body IH] using (induction_ltof1 _ (@length Z)). unfold ltof in IH.
  intros index inString ctx. destruct body as [|c tl]; [by eexists _, _|].
  rewrite escapesFrom_cons. unfold mbind, M_bind.
  assert (exists e c', (if Z.land index 1023 =? 0 then pollSelf else mret None) ctx = Done (e, c'))
    as (e & c' & ->).
  { case_match; [|by eexists _, _]. unfold pollSelf. destruct (ctxErr ctx). by eexists _, _. }
  repeat first [case_match | solve [apply IH; subst; cbn; lia] | solve [by eexists _, _]].
Qed.

(** ** Runs under a context that is never canceled *)

Definition bgd (d : Decoder) : contextDecoder := mkContextDecoder background d.

Lemma cd_Token_ok d t d' : token_event d t d' -> cd_Token (bgd d) = Done (Ok t, bgd d').
Proof.
  intros Ht%Token_complete. unfold cd_Token, mbind, M_bind, cd_Err, cd_inner. cbn -[Token].
  by rewrite Ht.
Qed.

Lemma cd_Token_err d e d' : Token d = (Err e, d') -> cd_Token (bgd d) = Done (Err (tokenJson e), bgd d').
Proof.
  intros Ht. unfold cd_Token, mbind, M_bind, cd_Err, cd_inner. cbn -[Token]. by rewrite Ht.
Qed.

Lemma cd_Token_inv d r s :
  dec_err d = false -> cd_Token (bgd d) = Done (r, s) ->
  exists d', s = bgd d' /\
    match r with
    | Ok t => token_event d t d'
    | Err (tokenJson e) => Token d = (Err e, d')
    | Err (tokenCtx _) => False
    end.
Proof.
  intros He. destruct (Token d) as [[t|e] d'] eqn:Ht.
  - pose proof Ht as Hev. apply Token_spec in Hev; [|done].
    rewrite (cd_Token_ok _ _ _ Hev). intros [= <- <-]. eauto.
  - rewrite (cd_Token_err _ _ _ Ht). intros [= <- <-]. eauto.
Qed.

Lemma cd_More_bg d : cd_More (bgd d) = Done (More d, bgd d).
Proof. reflexivity. Qed.

(** [More] and [Token] runs are replaced by what they come to. *)
Ltac run_bind H :=
  unfold mbind at 1, M_bind at 1 in H;
  match type of H with
  | match ?m ?s with _ => _ end = _ => destruct (m s) as [[? ?]| |] eqn:?; [|done|done]
  end.

(** The loops start in one of two states. *)
Definition arrayState (first : bool) : tokenState :=
  if first then tokenArrayStart else tokenArrayComma.
Definition objectState (first : bool) : tokenState :=
  if first then tokenObjectStart else tokenObjectComma.

Definition value_pos (st : tokenState) : Prop :=
  match st with
  | tokenTopValue | tokenArrayStart | tokenArrayComma | tokenObjectColon => True
  | _ => False
  end.

Lemma value_pos_not_key st pre : value_pos st -> key_lead st pre -> False.
Proof. intros Hv Hk. destruct Hk as [st w [-> | ->]|]; done. Qed.

Lemma literal_not_delim text c : literal text = Some (TDelim c) -> False.
Proof.
  destruct text as [|b text]; cbn; [done|]. repeat case_match; try done.
  all: by destruct (unquote _).
Qed.

Lemma scanClosing_inv c d s :
  dec_err d = false -> scanClosing c (bgd d) = Done (None, s) ->
  exists d', s = bgd d' /\ token_event d (TDelim c) d'.
Proof.
  intros He H. unfold scanClosing in H. run_bind H.
  destruct (cd_Token_inv _ _ _ He Heqc0) as (d' & -> & Hr).
  destruct r as [[b| | | |]|]; try done. unfold mret, M_ret in H.
  destruct (b =? c) eqn:Hb; [|done]. breflect. injection H as <-. subst. eauto.
Qed.

(** What a successful closing token says, by the state it is read in. *)
Lemma close_event_inv buf st outer stack c d' :
  c = c_rbracket \/ c = c_rbrace ->
  token_event (mkDecoder buf st (outer :: stack) false) (TDelim c) d' ->
  exists w rest, ws w /\ buf = w ++ c :: rest /\ d' = mkDecoder rest (tokenValueEnd outer) stack false.
Proof.
  intros Hc Hev. inversion Hev as [? ? ? ? ? ? ? ? Hcc|? w ? ? ? rest Hw|
    |? ? ? ? ? ? ? ? ? Hl]; subst.
  - destruct Hcc as [[-> _]|[-> _]], Hc; discriminate.
  - eauto.
  - by destruct (literal_not_delim _ _ Hl).
Qed.

Definition scan_sound_at (fuel : nat) (maximum : Z) : Prop :=
  forall depth buf st stack s, value_pos st ->
    scanJSONValue fuel depth maximum (bgd (mkDecoder buf st stack false)) = Done (None, s) ->
    exists pre st' t text rest,
      value_lead st pre st' /\ value_text t text /\ buf = pre ++ text ++ rest /\
      s = bgd (mkDecoder rest (tokenValueEnd st') stack false) /\ tree_ok maximum depth t = true.

Definition object_sound_at (fuel : nat) (maximum : Z) : Prop :=
  forall depth buf first outer stack keys s,
    scanObject fuel depth maximum keys
      (bgd (mkDecoder buf (objectState first) (outer :: stack) false)) = Done (None, s) ->
    exists l text rest,
      obj_text first l text /\ buf = text ++ rest /\
      s = bgd (mkDecoder rest (tokenValueEnd outer) stack false) /\
      NoDup (map fst l) /\ (forall k, k ∈ map fst l -> k ∉ keys) /\
      forallb (fun kv => tree_ok maximum (depth + 1) (snd kv)) l = true.

Definition array_sound_at (fuel : nat) (maximum : Z) : Prop :=
  forall depth buf first outer stack s,
    scanArray fuel depth maximum
      (bgd (mkDecoder buf (arrayState first) (outer :: stack) false)) = Done (None, s) ->
    exists l text rest,
      arr_text first l text /\ buf = text ++ rest /\
      s = bgd (mkDecoder rest (tokenValueEnd outer) stack false) /\
      forallb (tree_ok maximum (depth + 1)) l = true.

Lemma scan_sound_step fuel maximum :
  object_sound_at fuel maximum -> array_sound_at fuel maximum -> scan_sound_at (S fuel) maximum.
Proof.
  intros IHo IHa depth buf st stack s Hpos H. cbn [scanJSONValue] in H.
  destruct (maximum <? depth) eqn:Hd; [done|]. breflect.
  assert ((depth <=? maximum) = true) as Hle by lia. run_bind H.
  apply cd_Token_inv in Heqc as (d' & -> & Hr); [|done].
  destruct r as [t|]; [|done].
  inversion Hr as [? pre st' ? c inner rest Hl Hc|? w outer stk c rest Hw Hc
    |? pre ? text key rest Hl|? pre st' ? text ? rest Hl Hrv Hlit]; subst.
  - destruct Hc as [[-> ->]|[-> ->]]; cbn [Z.eqb Pos.eqb] in H.
    + destruct (IHa depth rest true _ _ _ H) as (l & text & rest' & Hat & -> & -> & Hall).
      exists pre, st', (JArr l), (c_lbracket :: text), rest'. cbn. rewrite Hle. auto with json.
    + destruct (IHo depth rest true _ _ _ _ H) as (l & text & rest' & Hat & -> & -> & Hnd & _ & Hall).
      exists pre, st', (JObj l), (c_lbrace :: text), rest'.
      cbn [tree_ok]. rewrite bool_decide_true, Hle by done. auto with json.
  - destruct Hc as [[-> _]|[-> _]]; discriminate.
  - by destruct (value_pos_not_key _ _ Hpos Hl).
  - assert (scalar_text t text) by (split; [by eapply readValue_alone | done]).
    exists pre, st', (JScalar t), text, rest. cbn [tree_ok]. rewrite Hle.
    split; [done|]. split; [auto with json|]. split; [done|]. split; [|done].
    destruct t; try (by injection H as <-). by destruct (literal_not_delim _ _ Hlit).
Qed.

Lemma array_sound_step fuel maximum :
  scan_sound_at fuel maximum -> array_sound_at fuel maximum -> array_sound_at (S fuel) maximum.
Proof.
  intros IHv IHa depth buf first outer stack s H. cbn [scanArray] in H. run_bind H.
  rewrite cd_More_bg in Heqc. injection Heqc as <- <-.
  destruct (More _) eqn:Hm.
  - run_bind H. destruct o as [r|]; [done|].
    apply IHv in Heqc as (pre & st' & t & text & rest & Hl & Ht & -> & -> & Hok);
      [|by destruct first].
    assert (st' = if first then tokenArrayStart else tokenArrayValue) as ->
      by (destruct first; by inversion Hl).
    assert (item_lead first pre) by (destruct first; by inversion Hl).
    replace (tokenValueEnd _) with (arrayState false) in H by (by destruct first).
    apply IHa in H as (l & text' & rest' & Hat & -> & -> & Hall).
    exists (t :: l), (pre ++ text ++ text'), rest'. cbn [forallb]. rewrite Hok, <- !app_assoc.
    auto with json.
  - apply scanClosing_inv in H as (d' & -> & Hev); [|done].
    apply close_event_inv in Hev as (w & rest & Hw & -> & ->); [|by auto].
    exists [], (w ++ [c_rbracket]), rest. rewrite <- app_assoc. auto with json.
Qed.

Lemma object_sound_step fuel maximum :
  scan_sound_at fuel maximum -> object_sound_at fuel maximum -> object_sound_at (S fuel) maximum.
Proof.
  intros IHv IHo depth buf first outer stack keys s H. cbn [scanObject] in H. run_bind H.
  rewrite cd_More_bg in Heqc. injection Heqc as <- <-.
  destruct (More _) eqn:Hm.
  - run_bind H. apply cd_Token_inv in Heqc as (d' & -> & Hr); [|done].
    destruct r as [[]|]; try done.
    case_bool_decide as Hdup; [done|].
    inversion Hr as [|?|? pre ? ktext ? krest Hk Hrv Hlit|? pre st' ? text ? rest Hl]; subst;
      [|by destruct first; inversion Hl].
    assert (scalar_text (TString s0) ktext) by (split; [by eapply readValue_alone | done]).
    assert (item_lead first pre) by (destruct first; inversion Hk as [? ? [|]|]; done).
    run_bind H. destruct o as [r|]; [done|].
    apply IHv in Heqc as (colon & st' & t & text & rest & Hl & Ht & -> & -> & Hok); [|done].
    inversion Hl as [| |? Hcolon]; subst; [done|]. cbn [tokenValueEnd] in H.
    apply (IHo depth rest false) in H as (l & text' & rest' & Hat & -> & -> & Hnd & Hfresh & Hall).
    exists ((s0, t) :: l), (pre ++ ktext ++ colon ++ text ++ text'), rest'.
    rewrite <- !app_assoc. split; [by eauto with json|]. split; [done|]. split; [done|].
    split; [|split].
    + cbn. apply NoDup_cons. split; [|done]. intros Hin. specialize (Hfresh _ Hin). clear -Hfresh. set_solver.
    + cbn. intros k [->|Hin]%elem_of_cons; [done|]. specialize (Hfresh _ Hin). clear -Hfresh. set_solver.
    + cbn. by rewrite Hok.
  - apply scanClosing_inv in H as (d' & -> & Hev); [|done].
    apply close_event_inv in Hev as (w & rest & Hw & -> & ->); [|by auto].
    exists [], (w ++ [c_rbrace]), rest. rewrite <- app_assoc.
    split; [auto with json|]. repeat split; try done; [constructor|]. cbn. set_solver.
Qed.

Lemma scan_sound fuel maximum :
  scan_sound_at fuel maximum /\ object_sound_at fuel maximum /\ array_sound_at fuel maximum.
Proof.
  induction fuel as [|fuel (IHv & IHo & IHa)]; [done|].
  auto using scan_sound_step, object_sound_step, array_sound_step.
Qed.

(** ** Every text of the grammar is scanned *)

Lemma delimited_ws w rest : ws w -> delimited rest -> delimited (w ++ rest).
Proof.
  intros Hw Hr. destruct Hw as [|c w Hc Hw]; [done|]. cbn. unfold delimiter. by rewrite Hc.
Qed.

Lemma delimited_around sep pre rest :
  sep = c_comma \/ sep = c_colon -> around sep pre -> delimited (pre ++ rest).
Proof.
  intros Hs (w1 & w2 & Hw1 & Hw2 & ->). rewrite <- app_assoc. apply delimited_ws; [done|].
  destruct Hs as [-> | ->]; done.
Qed.

Lemma arr_text_delimited l text rest : arr_text false l text -> delimited (text ++ rest).
Proof.
  intros Ht. inversion Ht as [|? ? ? ? ? ? Hlead]; subst; rewrite <- app_assoc.
  - by apply delimited_ws.
  - by eapply delimited_around; [by left|].
Qed.

Lemma obj_text_delimited l text rest : obj_text false l text -> delimited (text ++ rest).
Proof.
  intros Ht. inversion Ht as [|? ? ? ? ? ? ? ? ? Hlead]; subst; rewrite <- app_assoc.
  - by apply delimited_ws.
  - by eapply delimited_around; [by left|].
Qed.

Lemma scalar_text_lexeme t text rest :
  scalar_text t text -> delimited rest ->
  readValue stateBeginValue (text ++ rest) = Some (text, rest) /\ literal text = Some t.
Proof. intros [Hr Hl] Hd. split; [by apply readValue_followed | done]. Qed.

(** The first byte of a value is no space and closes nothing. *)
Definition opens_value (buf : list Z) : Prop :=
  match buf with
  | [] => False
  | c :: _ => isSpace c = false /\ (c =? c_rbracket) = false /\ (c =? c_rbrace) = false
  end.

Lemma value_text_opens t text rest : value_text t text -> opens_value (text ++ rest).
Proof.
  destruct 1 as [t text [Hr Hl]|? ? _|? ? _]; [|done|done].
  rewrite <- (app_nil_r text) in Hr at 1.
  destruct (scalar_first _ _ _ Hr Hl) as (c & tl & -> & ? & ? & ? & ? & ? & ? & ?). done.
Qed.

Lemma scalar_text_opens t text rest : scalar_text t text -> opens_value (text ++ rest).
Proof. intros Ht. exact (value_text_opens (JScalar t) text rest (VScalar t text Ht)). Qed.

Lemma More_opens w buf st stack err :
  ws w -> opens_value buf -> More (mkDecoder (w ++ buf) st stack err) = true.
Proof.
  intros Hw Ho. unfold More. cbn [dec_buf]. rewrite skipSpace_ws by done.
  destruct buf as [|c tl]; [done|]. destruct Ho as (H1 & H2 & H3). cbn -[isSpace].
  by rewrite H1, H2, H3.
Qed.

Lemma More_item first pre buf st stack err :
  item_lead first pre -> opens_value buf -> More (mkDecoder (pre ++ buf) st stack err) = true.
Proof.
  destruct first; [apply More_opens|]. intros (w1 & w2 & ? & ? & ->) _.
  rewrite <- app_assoc. by apply More_opens.
Qed.

Lemma More_closing w c rest st stack err :
  ws w -> c = c_rbracket \/ c = c_rbrace -> More (mkDecoder (w ++ c :: rest) st stack err) = false.
Proof.
  intros Hw Hc. unfold More. cbn [dec_buf]. rewrite skipSpace_ws by done. by destruct Hc as [-> | ->].
Qed.

Lemma item_lead_array first pre :
  item_lead first pre ->
  exists st', value_lead (arrayState first) pre st' /\ tokenValueEnd st' = tokenArrayComma.
Proof. destruct first; intros Hl; eexists; split; eauto with json; done. Qed.

Lemma item_lead_key first pre : item_lead first pre -> key_lead (objectState first) pre.
Proof. destruct first; intros Hl; auto with json. Qed.

Lemma run_bind_done {S A B} (m : M S A) (f : A -> M S B) s a s' :
  m s = Done (a, s') -> (m ≫= f) s = f a s'.
Proof. intros Hm. unfold mbind, M_bind. by rewrite Hm. Qed.

(** The events of an object's members, in the order the loops read them. *)
Lemma key_event first pre key ktext colon st outer stack rest :
  st = objectState first -> item_lead first pre -> scalar_text (TString key) ktext ->
  around c_colon colon ->
  cd_Token (bgd (mkDecoder (pre ++ ktext ++ colon ++ rest) st (outer :: stack) false)) =
    Done (Ok (TString key), bgd (mkDecoder (colon ++ rest) tokenObjectColon (outer :: stack) false)).
Proof.
  intros -> Hl Hk Hc. apply cd_Token_ok.
  destruct (scalar_text_lexeme _ _ (colon ++ rest) Hk) as [Hr Hlit];
    [by eapply delimited_around; [by right|]|].
  apply ev_key; auto using item_lead_key.
Qed.

Lemma close_event_array w outer stack first rest :
  ws w ->
  cd_Token (bgd (mkDecoder (w ++ c_rbracket :: rest) (arrayState first) (outer :: stack) false)) =
    Done (Ok (TDelim c_rbracket), bgd (mkDecoder rest (tokenValueEnd outer) stack false)).
Proof. intros Hw. apply cd_Token_ok, ev_close; [done|]. destruct first; auto. Qed.

Lemma close_event_object w outer stack first rest :
  ws w ->
  cd_Token (bgd (mkDecoder (w ++ c_rbrace :: rest) (objectState first) (outer :: stack) false)) =
    Done (Ok (TDelim c_rbrace), bgd (mkDecoder rest (tokenValueEnd outer) stack false)).
Proof. intros Hw. apply cd_Token_ok, ev_close; [done|]. destruct first; auto. Qed.

Lemma scan_complete maximum :
  (forall t text, value_text t text ->
    forall fuel depth st pre st' stack rest,
    (2 * length text + 1 <= fuel)%nat ->
    value_lead st pre st' -> delimited rest -> tree_ok maximum depth t = true ->
    scanJSONValue fuel depth maximum (bgd (mkDecoder (pre ++ text ++ rest) st stack false)) =
      Done (None, bgd (mkDecoder rest (tokenValueEnd st') stack false))) /\
  (forall first l text, arr_text first l text ->
    forall fuel depth outer stack rest,
    (2 * length text + 2 <= fuel)%nat -> forallb (tree_ok maximum (depth + 1)) l = true ->
    scanArray fuel depth maximum
      (bgd (mkDecoder (text ++ rest) (arrayState first) (outer :: stack) false)) =
      Done (None, bgd (mkDecoder rest (tokenValueEnd outer) stack false))) /\
  (forall first l text, obj_text first l text ->
    forall fuel depth keys outer stack rest,
    (2 * length text + 2 <= fuel)%nat ->
    forallb (fun kv => tree_ok maximum (depth + 1) (snd kv)) l = true ->
    NoDup (map fst l) -> (forall k, k ∈ map fst l -> k ∉ keys) ->
    scanObject fuel depth maximum keys
      (bgd (mkDecoder (text ++ rest) (objectState first) (outer :: stack) false)) =
      Done (None, bgd (mkDecoder rest (tokenValueEnd outer) stack false))).
Proof.
  apply json_text_ind.
  - intros t text Ht fuel depth st pre st' stack rest Hf Hl Hd Hok.
    destruct fuel as [|fuel]; [lia|]. cbn [scanJSONValue].
    cbn in Hok. rewrite andb_true_r in Hok. replace (maximum <? depth) with false by lia.
    destruct (scalar_text_lexeme _ _ _ Ht Hd) as [Hr Hlit].
    erewrite run_bind_done by (apply cd_Token_ok; by apply ev_scalar).
    destruct t; try done. by destruct (literal_not_delim _ _ Hlit).
  - intros l text _ IH fuel depth st pre st' stack rest Hf Hl Hd Hok.
    destruct fuel as [|fuel]; [lia|]. cbn [scanJSONValue]. cbn [tree_ok] in Hok. breflect.
    replace (maximum <? depth) with false by lia. cbn [app length] in *.
    erewrite run_bind_done by (apply cd_Token_ok; eapply ev_open; [exact Hl|by left]).
    cbn iota.
    cbn [Z.eqb Pos.eqb]. apply (IH fuel depth st' stack rest); [lia|done].
  - intros l text _ IH fuel depth st pre st' stack rest Hf Hl Hd Hok.
    destruct fuel as [|fuel]; [lia|]. cbn [scanJSONValue]. cbn [tree_ok] in Hok. breflect.
    replace (maximum <? depth) with false by lia. cbn [app length] in *.
    erewrite run_bind_done by (apply cd_Token_ok; eapply ev_open; [exact Hl|by right]).
    cbn iota.
    cbn [Z.eqb Pos.eqb]. apply (IH fuel depth ∅ st' stack rest); [lia|done|done|set_solver].
  - intros first w Hw fuel depth outer stack rest Hf _. destruct fuel as [|fuel]; [lia|].
    cbn [scanArray]. rewrite <- app_assoc. cbn [app].
    erewrite run_bind_done by apply cd_More_bg. rewrite More_closing by auto.
    unfold scanClosing. by erewrite run_bind_done by (by apply close_event_array).
  - intros first pre t text l rest Hl Ht IHt Har IHr fuel depth outer stack rest' Hf Hok.
    destruct fuel as [|fuel]; [lia|]. cbn [scanArray]. cbn [forallb] in Hok. breflect.
    rewrite !length_app in Hf. rewrite <- !app_assoc.
    assert (opens_value (text ++ rest ++ rest')) by by eapply value_text_opens.
    assert (0 < length text)%nat
      by (pose proof (value_text_opens _ _ [] Ht); destruct text; [done|cbn; lia]).
    erewrite run_bind_done by apply cd_More_bg. rewrite (More_item first) by done.
    destruct (item_lead_array _ _ Hl) as (st' & Hl' & Hend).
    erewrite run_bind_done.
    2: { apply IHt; [lia|exact Hl'|by eapply arr_text_delimited|done]. }
    cbn iota. rewrite Hend. apply (IHr fuel depth outer stack rest'); [lia|done].
  - intros first w Hw fuel depth keys outer stack rest Hf _ _ _. destruct fuel as [|fuel]; [lia|].
    cbn [scanObject]. rewrite <- app_assoc. cbn [app].
    erewrite run_bind_done by apply cd_More_bg. rewrite More_closing by auto.
    unfold scanClosing. by erewrite run_bind_done by (by apply close_event_object).
  - intros first pre key ktext colon t text l rest Hl Hk Hc Ht IHt Hor IHr
      fuel depth keys outer stack rest' Hf Hok Hnd Hfresh.
    destruct fuel as [|fuel]; [lia|]. cbn [scanObject]. cbn [forallb map fst snd] in Hok, Hnd, Hfresh.
    apply andb_true_iff in Hok as [Hok1 Hok2].
    apply NoDup_cons in Hnd as [Hnin Hnd]. rewrite !length_app in Hf. rewrite <- !app_assoc.
    assert (opens_value (ktext ++ colon ++ text ++ rest ++ rest')) by by eapply scalar_text_opens.
    assert (0 < length text)%nat
      by (pose proof (value_text_opens _ _ [] Ht); destruct text; [done|cbn; lia]).
    erewrite run_bind_done by apply cd_More_bg. rewrite (More_item first) by done.
    erewrite run_bind_done by (by eapply key_event). cbn iota.
    rewrite bool_decide_false by (apply Hfresh; set_solver).
    erewrite run_bind_done.
    2: { apply IHt; [lia|by apply lead_colon|by eapply obj_text_delimited|done]. }
    cbn iota. apply (IHr fuel depth _ outer stack rest'); [lia|done|done|].
    intros k Hin. rewrite elem_of_union, elem_of_singleton. intros [->|Hks]; [done|]. apply (Hfresh k); [by right|done].
Qed.

Lemma scan_value_complete maximum t text fuel depth st pre st' stack rest :
  value_text t text -> (2 * length text + 1 <= fuel)%nat ->
  value_lead st pre st' -> delimited rest -> tree_ok maximum depth t = true ->
  scanJSONValue fuel depth maximum (bgd (mkDecoder (pre ++ text ++ rest) st stack false)) =
    Done (None, bgd (mkDecoder rest (tokenValueEnd st') stack false)).
Proof. intros. by eapply (proj1 (scan_complete maximum)). Qed.

(** ** Whole documents *)

Lemma tokenFrom_EOF buf stack d :
  tokenFrom buf tokenTopValue stack false = (Err jsonEOF, d) <-> ws buf /\ d = mkDecoder [] tokenTopValue stack false.
Proof.
  split.
  - induction buf as [|c tl IH]; cbn [tokenFrom]; [intros [= <-]; auto with json|].
    destruct (isSpace c) eqn:Hc; [intros [? ->]%IH; auto with json|].
    unfold openDelim, closeDelim, decodeScalar. repeat case_match; try congruence; discriminate.
  - intros [Hw ->]. rewrite <- (app_nil_r buf). by rewrite tokenFrom_ws.
Qed.

Lemma delimited_of_ws w : ws w -> delimited w.
Proof. intros Hw. rewrite <- (app_nil_r w). by apply delimited_ws. Qed.

Lemma validateJSONDocument_complete maximum t body :
  document_text t body -> tree_ok maximum 1 t = true ->
  validateJSONDocument body maximum background = Done (None, background).
Proof.
  intros (w1 & text & w2 & Hw1 & Ht & Hw2 & ->) Hok.
  unfold validateJSONDocument, withDecoder, validateDecoder, newContextDecoder, newDecoder.
  fold (bgd (mkDecoder (w1 ++ text ++ w2) tokenTopValue [] false)).
  erewrite run_bind_done.
  2: { eapply scan_value_complete; [done| |by apply lead_here|by apply delimited_of_ws|done].
       unfold scanFuel. rewrite !length_app. lia. }
  cbn iota. erewrite run_bind_done.
  2: { eapply cd_Token_err. unfold Token. by apply tokenFrom_EOF. }
  reflexivity.
Qed.

Lemma validateJSONDocument_sound maximum body ctx :
  validateJSONDocument body maximum background = Done (None, ctx) ->
  exists t, document_text t body /\ tree_ok maximum 1 t = true.
Proof.
  unfold validateJSONDocument, withDecoder, validateDecoder, newContextDecoder, newDecoder.
  fold (bgd (mkDecoder body tokenTopValue [] false)). intros H.
  match type of H with match ?m with _ => _ end = _ => destruct m as [[r s]| |] eqn:Hrun end; try done.
  injection H as -> Hctx. run_bind Hrun.
  destruct o as [r|]; [done|].
  apply scan_sound in Heqc as (pre & st' & t & text & rest & Hl & Ht & -> & -> & Hok); [|done].
  inversion Hl as [? ? _ Hw| |]; subst. exists t. split; [|done]. cbn [tokenValueEnd] in Hrun.
  run_bind Hrun. apply cd_Token_inv in Heqc as (d' & -> & Hr); [|done].
  destruct r as [|[|[]]]; try done. unfold Token in Hr. cbn in Hr.
  apply tokenFrom_EOF in Hr as [Hw2 _]. exists pre, text, rest. auto.
Qed.
