(* ===== verification/ContractRequest.v ===== *)
(** * Requests

    Package [contract], [request.go] and [decode.go]: the parser's limits and
    their validation, the closed decoding of a Chat Completions request from the
    token stream, the reservation arithmetic, and [Parser.Parse]. *)

From S2P Require Import Prelude.
From S2P Require Import GoJson.
From S2P Require Import GoIO.
From S2P Require Import ContractScan.

Definition AbsoluteMaxBodyBytes : Z := 16777216.
Definition absoluteMaxModelBytes : Z := 1024.

Record Limits := mkLimits {
  lim_MaxBodyBytes : Z;
  lim_MaxMessageCount : Z;
  lim_MaxMessageTextBytes : Z;
  lim_MaxCompletionTokens : Z;
  lim_CompletionWeight : Z;
  lim_MaxRequestUnits : Z;
}.

Record Parser := mkParser { publicModel : list Z; limits : Limits }.

Inductive ErrorClass :=
| ErrorClassInvalidRequest | ErrorClassRequestTooLarge | ErrorClassBodyReadFailure.

#[global] Instance ErrorClass_eq_dec : EqDecision ErrorClass.
Proof. solve_decision. Defined.

(** [ParseError], or the error of the context. *)
Inductive parseFailure :=
| ParseError (class : ErrorClass) (reason : Reason)
| ParseContext (e : ctxError).

#[global] Instance parseFailure_eq_dec : EqDecision parseFailure.
Proof. solve_decision. Defined.

(** The message of a reason; no data of the caller is in it. *)
Definition ParseError_Error (reason : Reason) : string :=
  match reason with
  | ReasonBodyBytesLimit => "request body exceeds its configured limit"
  | ReasonBodyReadFailure => "request body could not be read"
  | ReasonInvalidUTF8 => "request body is not valid UTF-8"
  | ReasonInvalidUnicodeEscape => "request contains an unpaired Unicode surrogate"
  | ReasonMalformedJSON => "request body is not one valid JSON value"
  | ReasonTrailingJSON => "request body contains a trailing JSON value"
  | ReasonDuplicateKey => "request contains a duplicate object key"
  | ReasonNestingLimit => "request exceeds the JSON nesting limit"
  | ReasonRootNotObject => "request root must be an object"
  | ReasonUnknownField => "request contains an unsupported field"
  | ReasonMissingField => "request is missing a required field"
  | ReasonWrongType => "request field has the wrong JSON type"
  | ReasonUnsupportedValue => "request field has an unsupported value"
  | ReasonMessageCountLimit => "request exceeds the configured message-count limit"
  | ReasonMessageBytesLimit => "request exceeds the configured message-text limit"
  | ReasonCompletionLimit => "request exceeds the configured completion limit"
  | ReasonReservationOverflow => "request reservation arithmetic overflowed"
  | ReasonReservationLimit => "request exceeds the configured reservation limit"
  end.

(** ** Roles, messages, requests; [RoleUnset] is the zero value *)

Inductive Role := RoleUnset | RoleDeveloper | RoleSystem | RoleUser | RoleAssistant.

#[global] Instance Role_eq_dec : EqDecision Role.
Proof. solve_decision. Defined.

Definition Role_String (r : Role) : list Z :=
  match r with
  | RoleDeveloper => bs "developer"
  | RoleSystem => bs "system"
  | RoleUser => bs "user"
  | RoleAssistant => bs "assistant"
  | RoleUnset => bs "unknown"
  end.

Record Message := mkMessage { msg_Role : Role; msg_Content : list Z }.

Inductive RequestMode := RequestModeNonStreaming | RequestModeStreaming.

#[global] Instance RequestMode_eq_dec : EqDecision RequestMode.
Proof. solve_decision. Defined.

Definition RequestMode_String (m : RequestMode) : list Z :=
  match m with
  | RequestModeNonStreaming => bs "non_streaming"
  | RequestModeStreaming => bs "streaming"
  end.

Record Request := mkRequest {
  req_model : list Z;
  req_messages : list Message;
  req_mode : RequestMode;
  req_maxCompletionTokens : Z;
  req_bodyBytes : Z;
  req_messageTextBytes : Z;
  req_reservationUnits : Z;
  req_body : list Z;
}.

(** ** Reservations *)

Definition reservationUnits (bodyBytes completionTokens completionWeight maximum : Z)
  : result Reason Z :=
  let '(hi, completionUnits) := mul64 completionWeight completionTokens in
  if negb (hi =? 0) then Err ReasonReservationOverflow else
  let '(units, carry) := add64 bodyBytes completionUnits in
  if negb (carry =? 0) || (units =? 0) then Err ReasonReservationOverflow else
  if maximum <? units then Err ReasonReservationLimit else Ok units.

(** ** [NewParser] *)

Definition maxInt : Z := max_int64.

(** Bytes one rune takes in the shortest JSON string. *)
Definition minimumRuneBytes (r : Z) : Z :=
  if (r =? 34) || (r =? 92) || (r =? 8) || (r =? 12) || (r =? 10) || (r =? 13) || (r =? 9) then 2
  else if between 0 31 r then 6
  else u64 (runeLen r).

Definition minimumJSONStringBytes (value : list Z) : Z :=
  foldl (fun length r => length +u minimumRuneBytes r) 2 (runes value).

(** The smallest request around its model; its length is what counts, and the
    quotation marks are written as apostrophes. *)
Definition minimumRequest : string :=
  "{'model':,'messages':[{'role':'user','content':''}],'max_completion_tokens':1}".

Definition NewParser (model : list Z) (l : Limits) : result string Parser :=
  _ ← guard_err (bool_decide (model = [])) "public model must not be empty";
  _ ← guard_err (negb (utf8_valid model)) "public model must be valid UTF-8";
  _ ← guard_err (absoluteMaxModelBytes <? Z.of_nat (length model))
        "public model exceeds its hard safety limit";
  _ ← guard_err (lim_MaxBodyBytes l =? 0) "maximum body bytes must be positive";
  _ ← guard_err (AbsoluteMaxBodyBytes <? lim_MaxBodyBytes l)
        "maximum body bytes exceeds the hard safety limit";
  _ ← guard_err (maxInt <=? lim_MaxBodyBytes l) "maximum body bytes must fit a bounded reader";
  _ ← guard_err (lim_MaxMessageCount l =? 0) "maximum message count must be positive";
  _ ← guard_err (maxInt <? lim_MaxMessageCount l) "maximum message count must fit an allocation";
  _ ← guard_err (lim_MaxMessageTextBytes l =? 0) "maximum message text bytes must be positive";
  _ ← guard_err (lim_MaxCompletionTokens l =? 0) "maximum completion tokens must be positive";
  _ ← guard_err (lim_CompletionWeight l =? 0) "completion weight must be positive";
  _ ← guard_err (lim_MaxRequestUnits l =? 0) "maximum request units must be positive";
  let '(hi, maximumCompletionUnits) := mul64 (lim_CompletionWeight l) (lim_MaxCompletionTokens l) in
  _ ← guard_err (negb (hi =? 0)) "configured completion reservation can overflow";
  let '(_, carry) := add64 (lim_MaxBodyBytes l) maximumCompletionUnits in
  _ ← guard_err (negb (carry =? 0)) "configured maximum reservation can overflow";
  let minimumBodyBytes :=
    minimumJSONStringBytes model +u Z.of_nat (String.length minimumRequest) in
  _ ← guard_err (lim_MaxBodyBytes l <? minimumBodyBytes)
        "maximum body bytes cannot fit the smallest valid request";
  match reservationUnits minimumBodyBytes 1 (lim_CompletionWeight l) (lim_MaxRequestUnits l) with
  | Err _ => Err "maximum request units cannot fit the smallest valid request"
  | Ok _ => Ok (mkParser model l)
  end.

(** ** [decode.go] *)

Definition parseRole (value : list Z) : option Role :=
  if bool_decide (value = bs "developer") then Some RoleDeveloper
  else if bool_decide (value = bs "system") then Some RoleSystem
  else if bool_decide (value = bs "user") then Some RoleUser
  else if bool_decide (value = bs "assistant") then Some RoleAssistant
  else None.

Definition readString : M contextDecoder (result Reason (list Z)) :=
  token ← cd_Token;
  match token with
  | Err _ => mret (Err ReasonMalformedJSON)
  | Ok (TString value) => mret (Ok value)
  | Ok _ => mret (Err ReasonWrongType)
  end.

Definition readBoolean : M contextDecoder (result Reason bool) :=
  token ← cd_Token;
  match token with
  | Err _ => mret (Err ReasonMalformedJSON)
  | Ok (TBool value) => mret (Ok value)
  | Ok _ => mret (Err ReasonWrongType)
  end.

(** The checks of [readUnsignedInteger] on the text of a number. *)
Definition unsignedInteger (text : list Z) : result Reason Z :=
  if bool_decide (text = []) then Err ReasonWrongType
  else if negb (forallb is_digit text) then Err ReasonWrongType
  else match parseUint text with Some value => Ok value | None => Err ReasonWrongType end.

Definition readUnsignedInteger : M contextDecoder (result Reason Z) :=
  token ← cd_Token;
  match token with
  | Err _ => mret (Err ReasonMalformedJSON)
  | Ok (TNumber text) => mret (unsignedInteger text)
  | Ok _ => mret (Err ReasonWrongType)
  end.

(** The token is the delimiter [c]. *)
Definition isDelim (c : Z) (r : result tokenError token) : bool :=
  match r with Ok (TDelim d) => d =? c | _ => false end.

(** [key, ok := keyToken.(string)] after the error check. *)
Definition keyOf (r : result tokenError token) : option (list Z) :=
  match r with Ok (TString key) => Some key | _ => None end.

Fixpoint readMessageLoop (fuel : nat) (message : Message) (roleSet contentSet : bool)
  : M contextDecoder (result Reason Message) :=
  match fuel with
  | O => no_fuel
  | S fuel' =>
      more ← cd_More;
      if (more : bool) then
        keyToken ← cd_Token;
        match keyOf keyToken with
        | None => mret (Err ReasonMalformedJSON)
        | Some key =>
            if bool_decide (key = bs "role") then
              text ← readString;
              match text with
              | Err reason => mret (Err reason)
              | Ok roleText =>
                  match parseRole roleText with
                  | None => mret (Err ReasonUnsupportedValue)
                  | Some role =>
                      readMessageLoop fuel' (mkMessage role (msg_Content message)) true contentSet
                  end
              end
            else if bool_decide (key = bs "content") then
              text ← readString;
              match text with
              | Err reason => mret (Err reason)
              | Ok content =>
                  readMessageLoop fuel' (mkMessage (msg_Role message) content) roleSet true
              end
            else mret (Err ReasonUnknownField)
        end
      else
        closing ← cd_Token;
        if negb (isDelim c_rbrace closing) then mret (Err ReasonMalformedJSON)
        else if negb roleSet || negb contentSet then mret (Err ReasonMissingField)
        else mret (Ok message)
  end.

Definition readMessage (fuel : nat) : M contextDecoder (result Reason Message) :=
  opening ← cd_Token;
  if negb (isDelim c_lbrace opening) then mret (Err ReasonWrongType)
  else readMessageLoop fuel (mkMessage RoleUnset []) false false.

Fixpoint readMessagesLoop (fuel : nat) (l : Limits) (messages : list Message) (textBytes : Z)
  : M contextDecoder (result Reason (list Message * Z)) :=
  match fuel with
  | O => no_fuel
  | S fuel' =>
      more ← cd_More;
      if (more : bool) then
        if lim_MaxMessageCount l <=? Z.of_nat (length messages)
        then mret (Err ReasonMessageCountLimit) else
        read ← readMessage fuel';
        match read with
        | Err reason => mret (Err reason)
        | Ok message =>
            let '(updated, carry) := add64 textBytes (Z.of_nat (length (msg_Content message))) in
            if negb (carry =? 0) || (lim_MaxMessageTextBytes l <? updated)
            then mret (Err ReasonMessageBytesLimit)
            else readMessagesLoop fuel' l (messages ++ [message]) updated
        end
      else
        closing ← cd_Token;
        if negb (isDelim c_rbracket closing) then mret (Err ReasonMalformedJSON)
        else if bool_decide (messages = []) then mret (Err ReasonUnsupportedValue)
        else mret (Ok (messages, textBytes))
  end.

Definition readMessages (fuel : nat) (l : Limits) : M contextDecoder (result Reason (list Message * Z)) :=
  opening ← cd_Token;
  if negb (isDelim c_lbracket opening) then mret (Err ReasonWrongType)
  else readMessagesLoop fuel l [] 0.

(** What [decodeRequest] has gathered so far. *)
Record decoding := mkDecoding {
  dg_request : Request;
  dg_modelSet : bool;
  dg_messagesSet : bool;
  dg_completionSet : bool;
}.

Definition emptyRequest : Request := mkRequest [] [] RequestModeNonStreaming 0 0 0 0 [].

Definition set_model (g : decoding) (model : list Z) : decoding :=
  let r := dg_request g in
  mkDecoding (mkRequest model (req_messages r) (req_mode r) (req_maxCompletionTokens r)
                (req_bodyBytes r) (req_messageTextBytes r) (req_reservationUnits r) (req_body r))
    true (dg_messagesSet g) (dg_completionSet g).

Definition set_messages (g : decoding) (messages : list Message) (textBytes : Z) : decoding :=
  let r := dg_request g in
  mkDecoding (mkRequest (req_model r) messages (req_mode r) (req_maxCompletionTokens r)
                (req_bodyBytes r) textBytes (req_reservationUnits r) (req_body r))
    (dg_modelSet g) true (dg_completionSet g).

Definition set_completion (g : decoding) (value : Z) : decoding :=
  let r := dg_request g in
  mkDecoding (mkRequest (req_model r) (req_messages r) (req_mode r) value
                (req_bodyBytes r) (req_messageTextBytes r) (req_reservationUnits r) (req_body r))
    (dg_modelSet g) (dg_messagesSet g) true.

Definition set_stream (g : decoding) (stream : bool) : decoding :=
  let r := dg_request g in
  mkDecoding (mkRequest (req_model r) (req_messages r)
                (if stream then RequestModeStreaming else req_mode r) (req_maxCompletionTokens r)
                (req_bodyBytes r) (req_messageTextBytes r) (req_reservationUnits r) (req_body r))
    (dg_modelSet g) (dg_messagesSet g) (dg_completionSet g).

Fixpoint decodeLoop (fuel : nat) (p : Parser) (g : decoding) : M contextDecoder (result Reason Request) :=
  match fuel with
  | O => no_fuel
  | S fuel' =>
      more ← cd_More;
      if (more : bool) then
        keyToken ← cd_Token;
        match keyOf keyToken with
        | None => mret (Err ReasonMalformedJSON)
        | Some key =>
            if bool_decide (key = bs "model") then
              read ← readString;
              match read with
              | Err reason => mret (Err reason)
              | Ok model =>
                  if negb (bool_decide (model = publicModel p)) then mret (Err ReasonUnsupportedValue)
                  else decodeLoop fuel' p (set_model g model)
              end
            else if bool_decide (key = bs "messages") then
              read ← readMessages fuel' (limits p);
              match read with
              | Err reason => mret (Err reason)
              | Ok (messages, textBytes) => decodeLoop fuel' p (set_messages g messages textBytes)
              end
            else if bool_decide (key = bs "max_completion_tokens") then
              read ← readUnsignedInteger;
              match read with
              | Err reason => mret (Err reason)
              | Ok value =>
                  if (value =? 0) || (lim_MaxCompletionTokens (limits p) <? value)
                  then mret (Err ReasonCompletionLimit)
                  else decodeLoop fuel' p (set_completion g value)
              end
            else if bool_decide (key = bs "stream") then
              read ← readBoolean;
              match read with
              | Err reason => mret (Err reason)
              | Ok stream => decodeLoop fuel' p (set_stream g stream)
              end
            else if bool_decide (key = bs "stream_options") then mret (Err ReasonUnsupportedValue)
            else if bool_decide (key = bs "n") then
              read ← readUnsignedInteger;
              match read with
              | Err reason => mret (Err reason)
              | Ok value =>
                  if negb (value =? 1) then mret (Err ReasonUnsupportedValue)
                  else decodeLoop fuel' p g
              end
            else mret (Err ReasonUnknownField)
        end
      else
        closing ← cd_Token;
        if negb (isDelim c_rbrace closing) then mret (Err ReasonMalformedJSON)
        else if negb (dg_modelSet g) || negb (dg_messagesSet g) || negb (dg_completionSet g)
        then mret (Err ReasonMissingField)
        else mret (Ok (dg_request g))
  end.

Definition decodeDecoder (fuel : nat) (p : Parser) : M contextDecoder (result Reason Request) :=
  opening ← cd_Token;
  if negb (isDelim c_lbrace opening) then mret (Err ReasonRootNotObject)
  else decodeLoop fuel p (mkDecoding emptyRequest false false false).

(** Every turn of every loop consumes a byte. *)
Definition decodeFuel (body : list Z) : nat := (length body + 3)%nat.

Definition decodeRequest (p : Parser) (body : list Z) : M Context (result Reason Request) :=
  withDecoder body (decodeDecoder (decodeFuel body) p).

(** ** [Parser.Parse] *)

(** [contextReader.Read]; the state is the context and the reader under it. *)
Definition contextReader_Read (k : nat) : M (Context * script) readResult := fun s =>
  let '(ctx, rd) := s in
  match ctxErr ctx with
  | (Some e, ctx') => Done (([], Some (ioCtx e)), (ctx', rd))
  | (None, ctx1) =>
      match scriptRead k rd with
      | Done ((b, Some e), rd') => Done ((b, Some e), (ctx1, rd'))
      | Done ((b, None), rd') =>
          match ctxErr ctx1 with
          | (Some e, ctx2) => Done ((b, Some (ioCtx e)), (ctx2, rd'))
          | (None, ctx2) => Done ((b, None), (ctx2, rd'))
          end
      | Panicked m => Panicked m
      | OutOfFuel => OutOfFuel
      end
  end.

(** [io.ReadAll(io.LimitReader(contextReader{ctx, r}, limit))] *)
Definition readBody (room : nat -> nat) (limit : Z) : M (Context * script) readResult := fun s =>
  match ReadAll (S (script_size (snd s))) room (limitRead contextReader_Read) [] (limit, s) with
  | Done (r, (_, s')) => Done (r, s')
  | Panicked m => Panicked m
  | OutOfFuel => OutOfFuel
  end.

(** [if err := ctx.Err(); err != nil { return Request{}, err }], then [k] *)
Definition checkCtx {E A} (failed : ctxError -> E) (k : M Context (result E A))
  : M Context (result E A) :=
  err ← pollSelf;
  match err with Some e => mret (Err (failed e)) | None => k end.

(** A step of the parse that only watches the context. *)
Definition onCtx {A X} (m : M Context A) : M (Context * X) A := fun s =>
  match m (fst s) with
  | Done (a, ctx') => Done (a, (ctx', snd s))
  | Panicked msg => Panicked msg
  | OutOfFuel => OutOfFuel
  end.

Definition invalid {A} (reason : Reason) : M Context (result parseFailure A) :=
  mret (Err (ParseError ErrorClassInvalidRequest reason)).

Definition decodeClass (reason : Reason) : ErrorClass :=
  if bool_decide (reason = ReasonMessageCountLimit) || bool_decide (reason = ReasonMessageBytesLimit)
  then ErrorClassRequestTooLarge else ErrorClassInvalidRequest.

Definition withBody (r : Request) (body : list Z) (units : Z) : Request :=
  mkRequest (req_model r) (req_messages r) (req_mode r) (req_maxCompletionTokens r)
    (Z.of_nat (length body)) (req_messageTextBytes r) units body.

(** [Parse] from the decoded request on. *)
Definition parseReserve (p : Parser) (body : list Z) (request : Request)
  : M Context (result parseFailure Request) :=
  match reservationUnits (Z.of_nat (length body)) (req_maxCompletionTokens request)
          (lim_CompletionWeight (limits p)) (lim_MaxRequestUnits (limits p)) with
  | Err reason => invalid reason
  | Ok units => checkCtx ParseContext (mret (Ok (withBody request body units)))
  end.

(** [Parse] once the body is read. *)
Definition parseBody (p : Parser) (body : list Z) : M Context (result parseFailure Request) :=
  if negb (utf8_valid body) then invalid ReasonInvalidUTF8 else
  checkCtx ParseContext (
    valid ← validUnicodeEscapes body;
    if negb valid then checkCtx ParseContext (invalid ReasonInvalidUnicodeEscape) else
    checkCtx ParseContext (
      reason ← validateJSONDocument body maxJSONDepth;
      match reason with
      | Some r => checkCtx ParseContext (invalid r)
      | None =>
          checkCtx ParseContext (
            decoded ← decodeRequest p body;
            checkCtx ParseContext
              match decoded with
              | Err r => mret (Err (ParseError (decodeClass r) r))
              | Ok request => parseReserve p body request
              end)
      end)).

Definition Parse (p : Parser) (room : nat -> nat) : M (Context * script) (result parseFailure Request) :=
  '(body, readErr) ← readBody room (int64 (lim_MaxBodyBytes (limits p) +u 1));
  if lim_MaxBodyBytes (limits p) <? Z.of_nat (length body)
  then mret (Err (ParseError ErrorClassRequestTooLarge ReasonBodyBytesLimit))
  else
    onCtx (checkCtx ParseContext
      match readErr with
      | Some _ => mret (Err (ParseError ErrorClassBodyReadFailure ReasonBodyReadFailure))
      | None => parseBody p body
      end).

(** ** [requestBodyReader] *)

Record requestBodyReader := mkRequestBodyReader { rbr_body : list Z; rbr_offset : nat }.

Definition BodyReader (r : Request) : requestBodyReader := mkRequestBodyReader (req_body r) 0.

(** [Read] into a destination of [k] bytes. *)
Definition requestBodyReader_Read (k : nat) : M requestBodyReader readResult := fun r =>
  if (length (rbr_body r) <=? rbr_offset r)%nat then Done (([], Some ioEOF), r) else
  let copied := take k (drop (rbr_offset r) (rbr_body r)) in
  Done ((copied, None), mkRequestBodyReader (rbr_body r) (rbr_offset r + length copied)).
