(* ===== verification/ContractDecode.v ===== *)
(** * Decoding refines the tree

    [requestOf] is what a request means as a JSON tree, with no tokens and no
    decoder.  On the text of any tree, [decodeRequest] comes to exactly that,
    errors included. *)

From S2P Require Import Prelude.
From S2P Require Import GoJson.
From S2P Require Import JsonGrammar.
From S2P Require Import GoIO.
From S2P Require Import ContractScan.
From S2P Require Import ContractRequest.

(** ** The meaning of a request's tree *)

Definition stringOf (t : jtree) : result Reason (list Z) :=
  match t with JScalar (TString s) => Ok s | _ => Err ReasonWrongType end.
Definition booleanOf (t : jtree) : result Reason bool :=
  match t with JScalar (TBool b) => Ok b | _ => Err ReasonWrongType end.
Definition unsignedOf (t : jtree) : result Reason Z :=
  match t with JScalar (TNumber text) => unsignedInteger text | _ => Err ReasonWrongType end.

Fixpoint messageFields (m : Message) (roleSet contentSet : bool) (l : list (list Z * jtree))
  : result Reason Message :=
  match l with
  | [] => if negb roleSet || negb contentSet then Err ReasonMissingField else Ok m
  | (key, v) :: l' =>
      if bool_decide (key = bs "role") then
        text ← stringOf v;
        match parseRole text with
        | None => Err ReasonUnsupportedValue
        | Some role => messageFields (mkMessage role (msg_Content m)) true contentSet l'
        end
      else if bool_decide (key = bs "content") then
        content ← stringOf v;
        messageFields (mkMessage (msg_Role m) content) roleSet true l'
      else Err ReasonUnknownField
  end.

Definition messageOf (t : jtree) : result Reason Message :=
  match t with
  | JObj l => messageFields (mkMessage RoleUnset []) false false l
  | _ => Err ReasonWrongType
  end.

Fixpoint messageItems (lim : Limits) (messages : list Message) (textBytes : Z) (l : list jtree)
  : result Reason (list Message * Z) :=
  match l with
  | [] => if bool_decide (messages = []) then Err ReasonUnsupportedValue else Ok (messages, textBytes)
  | t :: l' =>
      if lim_MaxMessageCount lim <=? Z.of_nat (length messages) then Err ReasonMessageCountLimit else
      m ← messageOf t;
      let '(updated, carry) := add64 textBytes (Z.of_nat (length (msg_Content m))) in
      if negb (carry =? 0) || (lim_MaxMessageTextBytes lim <? updated)
      then Err ReasonMessageBytesLimit
      else messageItems lim (messages ++ [m]) updated l'
  end.

Definition messagesOf (lim : Limits) (t : jtree) : result Reason (list Message * Z) :=
  match t with JArr l => messageItems lim [] 0 l | _ => Err ReasonWrongType end.

Definition requestField (p : Parser) (g : decoding) (key : list Z) (v : jtree)
  : result Reason decoding :=
  if bool_decide (key = bs "model") then
    model ← stringOf v;
    if negb (bool_decide (model = publicModel p)) then Err ReasonUnsupportedValue
    else Ok (set_model g model)
  else if bool_decide (key = bs "messages") then
    mt ← messagesOf (limits p) v; Ok (set_messages g (fst mt) (snd mt))
  else if bool_decide (key = bs "max_completion_tokens") then
    value ← unsignedOf v;
    if (value =? 0) || (lim_MaxCompletionTokens (limits p) <? value) then Err ReasonCompletionLimit
    else Ok (set_completion g value)
  else if bool_decide (key = bs "stream") then
    stream ← booleanOf v; Ok (set_stream g stream)
  else if bool_decide (key = bs "stream_options") then Err ReasonUnsupportedValue
  else if bool_decide (key = bs "n") then
    value ← unsignedOf v;
    if negb (value =? 1) then Err ReasonUnsupportedValue else Ok g
  else Err ReasonUnknownField.

Fixpoint requestFields (p : Parser) (g : decoding) (l : list (list Z * jtree)) : result Reason Request :=
  match l with
  | [] =>
      if negb (dg_modelSet g) || negb (dg_messagesSet g) || negb (dg_completionSet g)
      then Err ReasonMissingField else Ok (dg_request g)
  | (key, v) :: l' => g' ← requestField p g key v; requestFields p g' l'
  end.

Definition requestOf (p : Parser) (t : jtree) : result Reason Request :=
  match t with
  | JObj l => requestFields p (mkDecoding emptyRequest false false false) l
  | _ => Err ReasonRootNotObject
  end.

(** ** Reading one value *)

(** [m] comes to [r] from [d]; on success the decoder has moved to [d']. *)
Definition reads {A} (m : M contextDecoder (result Reason A)) (d : Decoder)
    (r : result Reason A) (d' : Decoder) : Prop :=
  exists s', m (bgd d) = Done (r, s') /\ match r with Ok _ => s' = bgd d' | Err _ => True end.

Lemma reads_ret {A} (r : result Reason A) d : reads (mret r) d r d.
Proof. exists (bgd d). split; [done|]. by destruct r. Qed.

Lemma reads_err {A} reason d d' : reads (A := A) (mret (Err reason)) d (Err reason) d'.
Proof. by exists (bgd d). Qed.

Lemma reads_token {A} (f : result tokenError token -> M contextDecoder (result Reason A)) d t d1 r d' :
  token_event d t d1 -> reads (f (Ok t)) d1 r d' -> reads (token ← cd_Token; f token) d r d'.
Proof.
  intros Ht (s' & Hf & Hr). exists s'. split; [|done].
  by erewrite run_bind_done by (by apply cd_Token_ok).
Qed.

Lemma reads_more {A} (f : bool -> M contextDecoder (result Reason A)) d r d' :
  reads (f (More d)) d r d' -> reads (more ← cd_More; f more) d r d'.
Proof.
  intros (s' & Hf & Hr). exists s'. split; [|done]. by erewrite run_bind_done by apply cd_More_bg.
Qed.

Lemma reads_bind {A B} (m : M contextDecoder (result Reason A)) f d r d1 (k : A -> result Reason B) d' :
  reads m d r d1 ->
  (forall reason, f (Err reason) = mret (Err reason)) ->
  (forall a, r = Ok a -> reads (f (Ok a)) d1 (k a) d') ->
  reads (m ≫= f) d (a ← r; k a) d'.
Proof.
  intros (s' & Hm & Hs) Herr Hk. destruct r as [a|reason].
  - subst s'. destruct (Hk a eq_refl) as (s2 & Hf & Hr). exists s2.
    erewrite run_bind_done by exact Hm. done.
  - exists s'. erewrite run_bind_done by exact Hm. by rewrite Herr.
Qed.

Lemma reads_eq {A} (m : M contextDecoder (result Reason A)) d r r' d' :
  reads m d r d' -> r = r' -> reads m d r' d'.
Proof. by intros ? <-. Qed.

(** The position of a value in a text, and where the decoder stands after it. *)
Record at_value (t : jtree) (text rest : list Z) (d d' : Decoder) : Prop := {
  av_text : value_text t text;
  av_delim : delimited rest;
  av_pos : exists st pre st' stack,
    value_lead st pre st' /\ d = mkDecoder (pre ++ text ++ rest) st stack false /\
    d' = mkDecoder rest (tokenValueEnd st') stack false;
}.

(** The first token of the value [t]. *)
Definition head_token (t : jtree) : token :=
  match t with JScalar tok => tok | JArr _ => TDelim c_lbracket | JObj _ => TDelim c_lbrace end.

Lemma at_value_head t text rest d d' :
  at_value t text rest d d' -> exists d1, token_event d (head_token t) d1 /\
    match t with JScalar _ => d1 = d' | _ => True end.
Proof.
  intros [Ht Hd (st & pre & st' & stack & Hl & -> & ->)].
  destruct Ht as [t text Ht|l text Ht|l text Ht].
  - destruct (scalar_text_lexeme _ _ _ Ht Hd). eexists. split; [by apply ev_scalar|done].
  - eexists. split; [|done]. eapply ev_open; [done|by left].
  - eexists. split; [|done]. eapply ev_open; [done|by right].
Qed.

Lemma readString_reads t text rest d d' :
  at_value t text rest d d' -> reads readString d (stringOf t) d'.
Proof.
  intros Hat. destruct (at_value_head _ _ _ _ _ Hat) as (d1 & Hev & Hd). unfold readString.
  eapply reads_token; [exact Hev|]. destruct t as [[]| |]; cbn in *; subst; apply reads_err || apply reads_ret.
Qed.

Lemma readBoolean_reads t text rest d d' :
  at_value t text rest d d' -> reads readBoolean d (booleanOf t) d'.
Proof.
  intros Hat. destruct (at_value_head _ _ _ _ _ Hat) as (d1 & Hev & Hd). unfold readBoolean.
  eapply reads_token; [exact Hev|]. destruct t as [[]| |]; cbn in *; subst; apply reads_err || apply reads_ret.
Qed.

Lemma readUnsignedInteger_reads t text rest d d' :
  at_value t text rest d d' -> reads readUnsignedInteger d (unsignedOf t) d'.
Proof.
  intros Hat. destruct (at_value_head _ _ _ _ _ Hat) as (d1 & Hev & Hd). unfold readUnsignedInteger.
  eapply reads_token; [exact Hev|]. destruct t as [[]| |]; cbn in *; subst; apply reads_err || apply reads_ret.
Qed.

(** ** The members of an object, the items of an array *)

Definition objectAt (first : bool) (text : list Z) (outer : tokenState) (stack : list tokenState) : Decoder :=
  mkDecoder text (objectState first) (outer :: stack) false.
Definition arrayAt (first : bool) (text : list Z) (outer : tokenState) (stack : list tokenState) : Decoder :=
  mkDecoder text (arrayState first) (outer :: stack) false.

(** One turn of a loop over an object: the closing token, or a key and a value. *)
Lemma reads_object_nil {A} first text outer stack rest m1 m2 (r : result Reason A) :
  obj_text first [] text ->
  reads (m2 (Ok (TDelim c_rbrace))) (mkDecoder rest (tokenValueEnd outer) stack false) r
    (mkDecoder rest (tokenValueEnd outer) stack false) ->
  reads (more ← cd_More; if (more : bool) then m1 else (closing ← cd_Token; m2 closing))
    (objectAt first (text ++ rest) outer stack) r (mkDecoder rest (tokenValueEnd outer) stack false).
Proof.
  intros Ht Hm. inversion Ht as [? w Hw|]; subst. rewrite <- app_assoc. cbn [app].
  apply reads_more. unfold objectAt. rewrite More_closing by auto.
  eapply reads_token; [|exact Hm]. apply ev_close; [done|]. destruct first; auto.
Qed.

Lemma reads_object_cons {A} first key v l text outer stack rest m1 m2 (r : result Reason A) d' :
  obj_text first ((key, v) :: l) text ->
  (forall vtext ltext d1, obj_text false l ltext -> (length vtext + length ltext < length text)%nat ->
     at_value v vtext (ltext ++ rest) d1 (objectAt false (ltext ++ rest) outer stack) ->
     reads (m1 (Ok (TString key))) d1 r d') ->
  reads (more ← cd_More; if (more : bool) then (keyToken ← cd_Token; m1 keyToken) else m2)
    (objectAt first (text ++ rest) outer stack) r d'.
Proof.
  intros Ht Hm. inversion Ht as [|? pre ? ktext colon ? vtext ? ltext Hl Hk Hc Hv Hlt]; subst.
  rewrite <- !app_assoc. apply reads_more. unfold objectAt.
  rewrite (More_item first) by (done || by eapply scalar_text_opens).
  assert (delimited (ltext ++ rest)) by by eapply obj_text_delimited.
  destruct (scalar_text_lexeme _ _ (colon ++ vtext ++ ltext ++ rest) Hk) as [Hr Hlit];
    [by eapply delimited_around; [by right|]|].
  assert (0 < length ktext)%nat by (destruct ktext; [done|cbn; lia]).
  eapply reads_token; [by apply ev_key; [apply item_lead_key|..]|].
  apply (Hm vtext ltext); [exact Hlt|rewrite !length_app; lia|]. split; [exact Hv|done|].
  eexists _, colon, _, _. split; [by apply lead_colon|]. done.
Qed.

Lemma reads_array_nil {A} first text outer stack rest m1 m2 (r : result Reason A) :
  arr_text first [] text ->
  reads (m2 (Ok (TDelim c_rbracket))) (mkDecoder rest (tokenValueEnd outer) stack false) r
    (mkDecoder rest (tokenValueEnd outer) stack false) ->
  reads (more ← cd_More; if (more : bool) then m1 else (closing ← cd_Token; m2 closing))
    (arrayAt first (text ++ rest) outer stack) r (mkDecoder rest (tokenValueEnd outer) stack false).
Proof.
  intros Ht Hm. inversion Ht as [? w Hw|]; subst. rewrite <- app_assoc. cbn [app].
  apply reads_more. unfold arrayAt. rewrite More_closing by auto.
  eapply reads_token; [|exact Hm]. apply ev_close; [done|]. destruct first; auto.
Qed.

Lemma reads_array_cons {A} first v l text outer stack rest m1 m2 (r : result Reason A) d' :
  arr_text first (v :: l) text ->
  (forall vtext ltext d1, arr_text false l ltext -> (length vtext + length ltext <= length text)%nat ->
     (0 < length vtext)%nat ->
     at_value v vtext (ltext ++ rest) d1 (arrayAt false (ltext ++ rest) outer stack) ->
     reads m1 d1 r d') ->
  reads (more ← cd_More; if (more : bool) then m1 else m2)
    (arrayAt first (text ++ rest) outer stack) r d'.
Proof.
  intros Ht Hm. inversion Ht as [|? pre ? vtext ? ltext Hl Hv Hlt]; subst.
  rewrite <- !app_assoc. apply reads_more. unfold arrayAt.
  rewrite (More_item first) by (done || by eapply value_text_opens).
  assert (delimited (ltext ++ rest)) by by eapply arr_text_delimited.
  destruct (item_lead_array _ _ Hl) as (st' & Hlead & Hend).
  apply (Hm vtext ltext); [exact Hlt|rewrite !length_app; lia| |].
  - pose proof (value_text_opens _ _ [] Hv). destruct vtext; [done|cbn; lia].
  - split; [exact Hv|done|]. eexists _, pre, _, _. split; [exact Hlead|]. split; [done|].
    unfold arrayAt. by rewrite Hend.
Qed.

Lemma obj_text_nonempty first l text : obj_text first l text -> (0 < length text)%nat.
Proof. destruct 1; rewrite !length_app; cbn; [lia|]. destruct H0 as [_ Hl]. destruct ktext; [done|cbn; lia]. Qed.

Lemma arr_text_nonempty first l text : arr_text first l text -> (0 < length text)%nat.
Proof.
  destruct 1 as [|? ? ? text ? ? _ Hv]; rewrite !length_app; cbn; [lia|].
  pose proof (value_text_opens _ _ [] Hv). destruct text; [done|cbn; lia].
Qed.

(** ** Messages *)

Lemma readMessageLoop_reads l : forall fuel first text outer stack rest m roleSet contentSet,
  (length text <= fuel)%nat -> obj_text first l text ->
  reads (readMessageLoop fuel m roleSet contentSet) (objectAt first (text ++ rest) outer stack)
    (messageFields m roleSet contentSet l) (mkDecoder rest (tokenValueEnd outer) stack false).
Proof.
  induction l as [|[key v] l IH]; intros fuel first text outer stack rest m roleSet contentSet Hf Ht.
  - destruct fuel as [|fuel].
    { inversion Ht; subst. rewrite length_app in Hf. cbn in Hf. lia. }
    cbn [readMessageLoop]. eapply reads_object_nil; [done|]. cbn [isDelim Z.eqb Pos.eqb negb messageFields].
    case_match; [apply reads_err | apply reads_ret].
  - assert (0 < length text)%nat by by eapply obj_text_nonempty.
    destruct fuel as [|fuel]; [lia|].
    cbn [readMessageLoop]. eapply reads_object_cons; [done|].
    intros vtext ltext d1 Hlt Hlen Hat. cbn [keyOf messageFields].
    case_bool_decide; [|case_bool_decide; [|apply reads_err]].
    + eapply reads_bind; [by eapply readString_reads|done|]. intros a _. cbn iota.
      destruct (parseRole a); [|apply reads_err]. apply IH; [lia|done].
    + eapply reads_bind; [by eapply readString_reads|done|]. intros a _. cbn iota. apply IH; [lia|done].
Qed.

(** A composite value opens into its members. *)
Lemma at_object l text rest d d' :
  at_value (JObj l) text rest d d' ->
  exists otext outer stack, obj_text true l otext /\ length text = S (length otext) /\
    token_event d (TDelim c_lbrace) (objectAt true (otext ++ rest) outer stack) /\
    d' = mkDecoder rest (tokenValueEnd outer) stack false.
Proof.
  intros [Ht _ (st & pre & st' & stack & Hl & -> & ->)]. inversion Ht as [| |? otext Ho]; subst.
  exists otext, st', stack. split; [done|]. split; [done|]. split; [|done]. cbn [app].
  eapply ev_open; [done|by right].
Qed.

Lemma at_array l text rest d d' :
  at_value (JArr l) text rest d d' ->
  exists atext outer stack, arr_text true l atext /\ length text = S (length atext) /\
    token_event d (TDelim c_lbracket) (arrayAt true (atext ++ rest) outer stack) /\
    d' = mkDecoder rest (tokenValueEnd outer) stack false.
Proof.
  intros [Ht _ (st & pre & st' & stack & Hl & -> & ->)]. inversion Ht as [|? atext Ha|]; subst.
  exists atext, st', stack. split; [done|]. split; [done|]. split; [|done]. cbn [app].
  eapply ev_open; [done|by left].
Qed.

(** The token of a scalar is not a delimiter. *)
Lemma at_value_isDelim t text rest d d' c :
  at_value t text rest d d' -> c = c_lbracket \/ c = c_lbrace ->
  isDelim c (Ok (head_token t)) =
    match t with JObj _ => c =? c_lbrace | JArr _ => c =? c_lbracket | _ => false end.
Proof.
  intros [Ht _ _] Hc. destruct Ht as [t text [_ Hl]| |]; cbn.
  - destruct t; try done. by destruct (literal_not_delim _ _ Hl).
  - by destruct Hc as [-> | ->].
  - by destruct Hc as [-> | ->].
Qed.

Lemma readMessage_reads fuel t text rest d d' :
  (length text <= fuel)%nat -> at_value t text rest d d' ->
  reads (readMessage fuel) d (messageOf t) d'.
Proof.
  intros Hf Hat. unfold readMessage, messageOf. destruct t as [tok|l|l].
  - destruct (at_value_head _ _ _ _ _ Hat) as (d1 & Hev & _).
    eapply reads_token; [exact Hev|].
    rewrite (at_value_isDelim _ _ _ _ _ c_lbrace Hat) by auto. apply reads_err.
  - destruct (at_value_head _ _ _ _ _ Hat) as (d1 & Hev & _).
    eapply reads_token; [exact Hev|]. apply reads_err.
  - destruct (at_object _ _ _ _ _ Hat) as (otext & outer & stack & Ho & Hlen & Hev & ->).
    eapply reads_token; [exact Hev|]. apply readMessageLoop_reads; [lia|done].
Qed.

Lemma readMessagesLoop_reads lim l : forall fuel first text outer stack rest messages textBytes,
  (length text <= fuel)%nat -> arr_text first l text ->
  reads (readMessagesLoop fuel lim messages textBytes) (arrayAt first (text ++ rest) outer stack)
    (messageItems lim messages textBytes l) (mkDecoder rest (tokenValueEnd outer) stack false).
Proof.
  induction l as [|v l IH]; intros fuel first text outer stack rest messages textBytes Hf Ht;
    (destruct fuel as [|fuel]; [apply arr_text_nonempty in Ht; lia|]); cbn [readMessagesLoop].
  - eapply reads_array_nil; [done|]. cbn [isDelim Z.eqb Pos.eqb negb messageItems].
    case_match; [apply reads_err | apply reads_ret].
  - eapply reads_array_cons; [done|]. intros vtext ltext d1 Hlt Hlen Hpos Hat.
    cbn [messageItems]. case_match; [apply reads_err|].
    pose proof (arr_text_nonempty _ _ _ Hlt).
    eapply reads_bind; [eapply readMessage_reads; [|exact Hat]; lia|done|].
    intros m _. cbn iota. destruct (add64 _ _) as [updated carry].
    case_match; [apply reads_err|]. apply IH; [lia|done].
Qed.

Lemma readMessages_reads fuel lim t text rest d d' :
  (length text <= fuel)%nat -> at_value t text rest d d' ->
  reads (readMessages fuel lim) d (messagesOf lim t) d'.
Proof.
  intros Hf Hat. unfold readMessages, messagesOf. destruct t as [tok|l|l].
  - destruct (at_value_head _ _ _ _ _ Hat) as (d1 & Hev & _).
    eapply reads_token; [exact Hev|].
    rewrite (at_value_isDelim _ _ _ _ _ c_lbracket Hat) by auto. apply reads_err.
  - destruct (at_array _ _ _ _ _ Hat) as (otext & outer & stack & Ho & Hlen & Hev & ->).
    eapply reads_token; [exact Hev|]. apply readMessagesLoop_reads; [lia|done].
  - destruct (at_value_head _ _ _ _ _ Hat) as (d1 & Hev & _).
    eapply reads_token; [exact Hev|]. apply reads_err.
Qed.

(** ** Requests *)

Lemma decodeLoop_reads p l : forall fuel first text outer stack rest g,
  (length text <= fuel)%nat -> obj_text first l text ->
  reads (decodeLoop fuel p g) (objectAt first (text ++ rest) outer stack)
    (requestFields p g l) (mkDecoder rest (tokenValueEnd outer) stack false).
Proof.
  induction l as [|[key v] l IH]; intros fuel first text outer stack rest g Hf Ht;
    (destruct fuel as [|fuel]; [apply obj_text_nonempty in Ht; lia|]); cbn [decodeLoop].
  - eapply reads_object_nil; [done|]. cbn [isDelim Z.eqb Pos.eqb negb requestFields].
    case_match; [apply reads_err | apply reads_ret].
  - eapply reads_object_cons; [done|]. intros vtext ltext d1 Hlt Hlen Hat.
    cbn [keyOf requestFields]. unfold requestField.
    repeat (case_bool_decide; [|]).
    + eapply reads_eq; [eapply reads_bind; [by eapply readString_reads|done|]|].
      * intros a _. cbn iota. instantiate (1 := fun a => if negb (bool_decide (a = publicModel p)) then Err ReasonUnsupportedValue else requestFields p (set_model g a) l).
        cbn beta. case_match; [apply reads_err|]. apply IH; [lia|done].
      * destruct (stringOf v); [|done]. cbn. by case_match.
    + eapply reads_eq; [eapply reads_bind; [eapply readMessages_reads; [|exact Hat]; lia|done|]|].
      * intros [a b] _. cbn iota. instantiate (1 := fun mt => requestFields p (set_messages g (fst mt) (snd mt)) l).
        apply IH; [lia|done].
      * by destruct (messagesOf _ v).
    + eapply reads_eq; [eapply reads_bind; [by eapply readUnsignedInteger_reads|done|]|].
      * intros a _. cbn iota. instantiate (1 := fun a => if (a =? 0) || (lim_MaxCompletionTokens (limits p) <? a) then Err ReasonCompletionLimit else requestFields p (set_completion g a) l).
        cbn beta. case_match; [apply reads_err|]. apply IH; [lia|done].
      * destruct (unsignedOf v); [|done]. cbn. by case_match.
    + eapply reads_eq; [eapply reads_bind; [by eapply readBoolean_reads|done|]|].
      * intros a _. cbn iota. instantiate (1 := fun a => requestFields p (set_stream g a) l).
        apply IH; [lia|done].
      * by destruct (booleanOf v).
    + apply reads_err.
    + eapply reads_eq; [eapply reads_bind; [by eapply readUnsignedInteger_reads|done|]|].
      * intros a _. cbn iota. instantiate (1 := fun a => if negb (a =? 1) then Err ReasonUnsupportedValue else requestFields p g l).
        cbn beta. case_match; [apply reads_err|]. apply IH; [lia|done].
      * destruct (unsignedOf v); [|done]. cbn. by case_match.
    + apply reads_err.
Qed.

Lemma document_at t body :
  document_text t body ->
  exists text rest, at_value t text rest (newDecoder body) (mkDecoder rest tokenTopValue [] false) /\
    (length text <= length body)%nat.
Proof.
  intros (w1 & text & w2 & Hw1 & Ht & Hw2 & ->). exists text, w2. split; [|rewrite !length_app; lia].
  split; [done|by apply delimited_of_ws|]. eexists tokenTopValue, w1, tokenTopValue, [].
  split; [by apply lead_here|]. done.
Qed.

(** ** The loops obey their context *)

Lemma obeys_readString : obeys readString.
Proof. unfold readString. obeys_auto. Qed.
Lemma obeys_readBoolean : obeys readBoolean.
Proof. unfold readBoolean. obeys_auto. Qed.
Lemma obeys_readUnsignedInteger : obeys readUnsignedInteger.
Proof. unfold readUnsignedInteger. obeys_auto. Qed.
#[export] Hint Resolve obeys_readString obeys_readBoolean obeys_readUnsignedInteger : ctx.

Lemma obeys_readMessageLoop fuel : forall m a b, obeys (readMessageLoop fuel m a b).
Proof. induction fuel; intros; cbn [readMessageLoop]; obeys_auto. Qed.
#[export] Hint Resolve obeys_readMessageLoop : ctx.

Lemma obeys_readMessage fuel : obeys (readMessage fuel).
Proof. unfold readMessage. obeys_auto. Qed.
#[export] Hint Resolve obeys_readMessage : ctx.

Lemma obeys_readMessagesLoop fuel l : forall ms tb, obeys (readMessagesLoop fuel l ms tb).
Proof. induction fuel; intros; cbn [readMessagesLoop]; obeys_auto. Qed.
#[export] Hint Resolve obeys_readMessagesLoop : ctx.

Lemma obeys_readMessages fuel l : obeys (readMessages fuel l).
Proof. unfold readMessages. obeys_auto. Qed.
#[export] Hint Resolve obeys_readMessages : ctx.

Lemma obeys_decodeLoop fuel p : forall g, obeys (decodeLoop fuel p g).
Proof. induction fuel; intros; cbn [decodeLoop]; obeys_auto. Qed.
#[export] Hint Resolve obeys_decodeLoop : ctx.

Lemma obeys_decodeRequest p body : obeys (decodeRequest p body).
Proof. apply obeys_withDecoder. unfold decodeDecoder. obeys_auto. Qed.

(** ** [decodeRequest] on the text of a tree *)

Lemma decodeDecoder_reads p t body :
  document_text t body ->
  exists d', reads (decodeDecoder (decodeFuel body) p) (newDecoder body) (requestOf p t) d'.
Proof.
  intros Hdoc. destruct (document_at _ _ Hdoc) as (text & rest & Hat & Hlen).
  exists (mkDecoder rest tokenTopValue [] false).
  unfold decodeDecoder, requestOf. destruct t as [tok|l|l].
  - destruct (at_value_head _ _ _ _ _ Hat) as (d1 & Hev & _).
    eapply reads_token; [exact Hev|].
    rewrite (at_value_isDelim _ _ _ _ _ c_lbrace Hat) by auto. apply reads_err.
  - destruct (at_value_head _ _ _ _ _ Hat) as (d1 & Hev & _).
    eapply reads_token; [exact Hev|]. apply reads_err.
  - destruct (at_object _ _ _ _ _ Hat) as (otext & outer & stack & Ho & Hl & Hev & Heq).
    eapply reads_token; [exact Hev|]. rewrite Heq. apply decodeLoop_reads; [|done].
    unfold decodeFuel. lia.
Qed.

(** Under [background] the context is what it was. *)
Lemma withDecoder_reads {A} body (m : M contextDecoder (result Reason A)) r d' :
  obeys m -> reads m (newDecoder body) r d' -> withDecoder body m background = Done (r, background).
Proof.
  intros Hm (s' & Hrun & _). pose proof (Hm _ _ _ Hrun) as (_ & Hbg & _).
  unfold withDecoder, newContextDecoder. fold (bgd (newDecoder body)). rewrite Hrun.
  by rewrite (Hbg eq_refl : cd_ctx s' = background).
Qed.

Lemma decodeRequest_tree p t body :
  document_text t body -> decodeRequest p body background = Done (requestOf p t, background).
Proof.
  intros Hdoc. destruct (decodeDecoder_reads p _ _ Hdoc) as (d' & Hr).
  eapply withDecoder_reads; [|exact Hr]. unfold decodeDecoder. obeys_auto.
Qed.
