(* ===== verification/ContractParse.v ===== *)
(** * [Parser.Parse]

    What the bounded read delivers, that a cancellation is never mistaken for a
    bad request, and what an accepted request is. *)

From S2P Require Import Prelude.
From S2P Require Import GoJson.
From S2P Require Import JsonGrammar.
From S2P Require Import GoIO.
From S2P Require Import ContractScan.
From S2P Require Import ContractRequest.
From S2P Require Import ContractDecode.

(** ** The bounded read *)

Lemma obeys_contextReader k : obeys (contextReader_Read k).
Proof.
  intros [ctx rd] a [ctx' rd']. unfold contextReader_Read. cbn.
  destruct (ctxErr ctx) as [[e|] ctx1] eqn:E1.
  - destruct (ctxErr_some _ _ _ E1) as (Hc & -> & _). intros [= <- <- <-]. auto.
  - pose proof (ctxErr_nil _ _ E1) as Hc.
    assert (ctx = background -> ctx1 = background) as Hbg by (intros ->; by injection E1).
    destruct (scriptRead k rd) as [[[b [e|]] rd1]| |]; try done.
    + intros [= <- <- <-]. split; [congruence|]. split; [done|]. by right.
    + destruct (ctxErr ctx1) as [[e|] ctx2] eqn:E2.
      * destruct (ctxErr_some _ _ _ E2) as (Hc2 & -> & _). intros [= <- <- <-]. auto.
      * intros [= <- <- <-]. split; [congruence|]. split; [|by right].
        intros Hb. rewrite (Hbg Hb) in E2. by injection E2.
Qed.

Lemma obeys_limitRead {S} `{HasCtx S} (read : nat -> M S readResult) k :
  (forall k, obeys (read k)) -> obeys (limitRead read k).
Proof.
  intros Hr [n s] a [n' s']. unfold limitRead. cbn. destruct (n <=? 0) eqn:En.
  { intros [= <- <- <-]. split; [done|]. split; [done|]. by right. }
  destruct (read _ s) as [[[b e] s1]| |] eqn:E; try done. intros [= <- <- <-].
  destruct (Hr _ _ _ _ E) as (H1 & H2 & [H3|H3]); [by auto|].
  split; [done|]. split; [done|]. right. by rewrite H3.
Qed.

Lemma obeys_ReadAll {S} `{HasCtx S} fuel room (read : nat -> M S readResult) :
  (forall k, obeys (read k)) -> forall b, obeys (ReadAll fuel room read b).
Proof. intros Hr. induction fuel as [|fuel IH]; intros b; cbn [ReadAll]; obeys_auto. Qed.

Lemma obeys_readBody room limit : obeys (readBody room limit).
Proof.
  intros [ctx rd] a [ctx' rd']. unfold readBody.
  destruct (ReadAll _ _ _ _ _) as [[r [n s']]| |] eqn:E; try done. intros [= <- ->].
  destruct (obeys_ReadAll _ room (limitRead contextReader_Read)
    (fun k => obeys_limitRead _ k obeys_contextReader) [] _ _ _ E) as (H1 & H2 & H3). cbn in *.
  split; [done|]. split; [done|]. destruct H3 as [H3|H3]; [by left|]. right. by rewrite H3.
Qed.

Section ReadBody.
Context (room : nat -> nat) (Hroom : forall n, (0 < room n)%nat).

(** What one bounded, context-aware read delivers of the reader's data: the
    context was canceled, or the read is the reader's own. *)
Lemma contextRead_cases n ctx rd k :
  0 < n -> (0 < k)%nat ->
  exists b e ctx' rd',
    limitRead contextReader_Read k (n, (ctx, rd)) = Done ((b, e), (n - Z.of_nat (length b), (ctx', rd'))) /\
    Z.of_nat (length b) <= n /\
    (canceled ctx' = true /\ b `prefix_of` script_data rd /\ (exists ce, e = Some (ioCtx ce)) \/
     match e with
     | None => script_data rd = b ++ script_data rd' /\ script_err rd = script_err rd' /\
               (script_size rd' < script_size rd)%nat
     | Some ioEOF => script_data rd = b /\ script_err rd = None
     | Some e => script_data rd = b /\ script_err rd = Some e
     end).
Proof.
  intros Hn Hk. unfold limitRead. replace (n <=? 0) with false by lia.
  set (k' := if n <? Z.of_nat k then Z.to_nat n else k).
  assert (0 < k')%nat by (unfold k'; case_match; breflect; lia).
  assert (Z.of_nat k' <= n) by (unfold k'; case_match; breflect; lia).
  unfold contextReader_Read. destruct (ctxErr ctx) as [[ce|] ctx1] eqn:E1.
  { destruct (ctxErr_some _ _ _ E1) as (Hc & -> & _). eexists [], _, _, _. split; [done|].
    cbn. split; [lia|]. left. split; [done|]. split; [apply prefix_nil|eauto]. }
  destruct (scriptRead_total k' rd) as [[[b e] rd'] Hrd]. rewrite Hrd.
  destruct (scriptRead_spec _ _ _ _ _ ltac:(done) Hrd) as [Hlen He].
  destruct e as [e|].
  { eexists b, _, _, _. split; [done|]. split; [lia|]. by right. }
  destruct (ctxErr ctx1) as [[ce|] ctx2] eqn:E2.
  - destruct (ctxErr_some _ _ _ E2) as (Hc & -> & _). eexists b, _, _, _. split; [done|].
    split; [lia|]. left. split; [done|]. split; [|eauto].
    destruct He as (-> & _). by apply prefix_app_r.
  - eexists b, _, _, _. split; [done|]. split; [lia|]. by right.
Qed.

Lemma readAll_cases fuel : forall n ctx rd acc,
  (S (script_size rd) <= fuel)%nat -> 0 <= n ->
  exists b e n' ctx' rd',
    ReadAll fuel room (limitRead contextReader_Read) acc (n, (ctx, rd)) =
      Done ((acc ++ b, e), (n', (ctx', rd'))) /\
    (canceled ctx' = true /\ b `prefix_of` take (Z.to_nat n) (script_data rd) \/
     b = take (Z.to_nat n) (script_data rd) /\
     (Z.of_nat (length (script_data rd)) < n -> e = script_err rd)).
Proof.
  induction fuel as [|fuel IH]; intros n ctx rd acc Hf Hn; [lia|]. cbn [ReadAll].
  destruct (decide (n = 0)) as [->|Hn0].
  { exists [], None, 0, ctx, rd. unfold mbind, M_bind. cbn. split; [done|]. right. split; [done|lia]. }
  destruct (contextRead_cases n ctx rd (room (length acc))) as
    (b & e & ctx1 & rd1 & Hread & Hb & Hcase); [lia|apply Hroom|].
  erewrite run_bind_done by exact Hread. cbn iota beta.
  destruct Hcase as [(Hc & Hp & ce & ->)|Hcase].
  { eexists b, _, _, _, _. split; [done|]. left. split; [done|].
    destruct Hp as [z ->]. rewrite take_app_ge by lia. by apply prefix_app_r. }
  destruct e as [e|].
  - assert (script_data rd = b) as Hdata by (by destruct e; destruct Hcase).
    exists b, (match e with ioEOF => None | e => Some e end), (n - Z.of_nat (length b)), ctx1, rd1.
    split; [by destruct e|]. right. rewrite Hdata. split; [by rewrite take_ge by lia|].
    intros _. by destruct e; destruct Hcase as [_ ->].
  - destruct Hcase as (Hd & He & Hsz).
    destruct (IH (n - Z.of_nat (length b)) ctx1 rd1 (acc ++ b)) as
      (b2 & e2 & n2 & ctx2 & rd2 & Hrun & Hpost); [lia|lia|].
    exists (b ++ b2), e2, n2, ctx2, rd2. split; [by rewrite Hrun, <- app_assoc|].
    rewrite Hd, take_app_ge by lia.
    replace (Z.to_nat n - length b)%nat with (Z.to_nat (n - Z.of_nat (length b))) by lia.
    destruct Hpost as [[Hc Hp]|[-> Herr]]; [left; split; [done|by apply prefix_app]|].
    right. split; [done|]. rewrite length_app, He. intros. apply Herr. lia.
Qed.

Lemma readBody_cases limit ctx rd :
  0 <= limit ->
  exists b e ctx' rd',
    readBody room limit (ctx, rd) = Done ((b, e), (ctx', rd')) /\
    (canceled ctx' = true /\ b `prefix_of` take (Z.to_nat limit) (script_data rd) \/
     b = take (Z.to_nat limit) (script_data rd) /\
     (Z.of_nat (length (script_data rd)) < limit -> e = script_err rd)).
Proof.
  intros Hl. destruct (readAll_cases (S (script_size rd)) limit ctx rd []) as
    (b & e & n & ctx' & rd' & Hrun & Hpost); [done|done|].
  exists b, e, ctx', rd'. split; [|done]. unfold readBody. cbn [snd]. by rewrite Hrun.
Qed.

Lemma readBody_bg limit rd :
  0 <= limit ->
  exists e rd', readBody room limit (background, rd) =
      Done ((take (Z.to_nat limit) (script_data rd), e), (background, rd')) /\
    (Z.of_nat (length (script_data rd)) < limit -> e = script_err rd).
Proof.
  intros Hl. destruct (readBody_cases limit background rd Hl) as (b & e & ctx' & rd' & Hrun & Hpost).
  destruct (obeys_readBody _ _ _ _ _ Hrun) as (_ & Hbg & _). cbn in Hbg.
  rewrite (Hbg eq_refl) in *. destruct Hpost as [[? _]|[-> ?]]; [done|]. eauto.
Qed.
End ReadBody.

(** ** Cancellation *)

(** A run reports the context's error, or is the run under [background]. *)
Definition ctx_safe {E A} (failed : ctxError -> E) (m : M Context (result E A)) : Prop :=
  forall c r c', m c = Done (r, c') ->
    (exists e, r = Err (failed e)) \/ m background = Done (r, background).

Lemma ctx_safe_ret {E A} failed (r : result E A) : ctx_safe failed (mret r).
Proof. intros c r' c' [= <- <-]. by right. Qed.

Lemma checkCtx_bg {E A} (failed : ctxError -> E) (k : M Context (result E A)) :
  checkCtx failed k background = k background.
Proof. reflexivity. Qed.

Lemma ctx_safe_check {E A} failed (k : M Context (result E A)) :
  ctx_safe failed k -> ctx_safe failed (checkCtx failed k).
Proof.
  intros Hk c r c'. unfold checkCtx, mbind, M_bind, pollSelf.
  destruct (ctxErr c) as [[e|] c1]; [intros [= <- <-]; eauto|]. apply Hk.
Qed.

(** A step that obeys the context, whose outcome is used after a check. *)
Lemma ctx_safe_bind {E A B} failed (m : M Context A) (f : A -> M Context (result E B)) :
  obeys m -> (forall a, exists k, f a = checkCtx failed k /\ ctx_safe failed k) ->
  ctx_safe failed (m ≫= f).
Proof.
  intros Hm Hf c r c'. unfold mbind at 1, M_bind at 1.
  destruct (m c) as [[a c1]| |] eqn:E1; try done. destruct (Hf a) as (k & Hfa & Hk).
  destruct (Hm _ _ _ E1) as (_ & _ & [Hc|Hbg]).
  - rewrite Hfa. unfold checkCtx, mbind, M_bind, pollSelf. rewrite ctxErr_canceled by done.
    intros [= <- <-]. eauto.
  - intros Hr. assert (ctx_safe failed (f a)) as Hs by (rewrite Hfa; by apply ctx_safe_check).
    destruct (Hs _ _ _ Hr) as [?|Hb]; [by left|]. right.
    by erewrite run_bind_done by exact Hbg.
Qed.

Lemma parseReserve_safe p body r : ctx_safe ParseContext (parseReserve p body r).
Proof.
  unfold parseReserve. case_match; [|apply ctx_safe_ret]. apply ctx_safe_check, ctx_safe_ret.
Qed.

Lemma parseBody_safe p body : ctx_safe ParseContext (parseBody p body).
Proof.
  unfold parseBody. case_match; [apply ctx_safe_ret|]. apply ctx_safe_check, ctx_safe_bind.
  { apply obeys_escapesFrom. }
  intros [|]; cbn [negb]; eexists; (split; [reflexivity|]); [|apply ctx_safe_ret].
  apply ctx_safe_bind; [apply obeys_validateJSONDocument|].
  intros [r|]; eexists; (split; [reflexivity|]); [apply ctx_safe_ret|].
  apply ctx_safe_bind; [apply obeys_decodeRequest|].
  intros [r|r]; eexists; (split; [reflexivity|]); [|apply ctx_safe_ret].
  apply parseReserve_safe.
Qed.

(** ** Termination *)

(** From [s], [m] comes to an outcome, and on success has consumed input. *)
Definition progress {A} (m : M contextDecoder (result Reason A)) (s : contextDecoder) : Prop :=
  wp m (fun r s' => match r with
    | Ok _ => dec_err (cd_dec s') = false /\
              (length (dec_buf (cd_dec s')) < length (dec_buf (cd_dec s)))%nat
    | Err _ => True end) s.

Lemma progress_read {A} (f : result tokenError token -> result Reason A) s :
  dec_err (cd_dec s) = false -> (forall e, exists r, f (Err e) = Err r) ->
  progress (token ← cd_Token; mret (f token)) s.
Proof.
  intros He Herr. apply wp_bind, wp_cd_Token; [done| |].
  - intros t s' Hev%token_event_shorter. apply wp_ret. by case_match.
  - intros e s'. apply wp_ret. by destruct (Herr e) as [r ->].
Qed.

Lemma progress_readString s : dec_err (cd_dec s) = false -> progress readString s.
Proof.
  intros He. unfold readString. apply wp_bind, wp_cd_Token; [done| |intros; by apply wp_ret].
  intros t s' Hev%token_event_shorter. by destruct t; apply wp_ret.
Qed.

Lemma progress_readBoolean s : dec_err (cd_dec s) = false -> progress readBoolean s.
Proof.
  intros He. unfold readBoolean. apply wp_bind, wp_cd_Token; [done| |intros; by apply wp_ret].
  intros t s' Hev%token_event_shorter. by destruct t; apply wp_ret.
Qed.

Lemma progress_readUnsignedInteger s : dec_err (cd_dec s) = false -> progress readUnsignedInteger s.
Proof.
  intros He. unfold readUnsignedInteger. apply wp_bind, wp_cd_Token; [done| |intros; by apply wp_ret].
  intros t s' Hev%token_event_shorter. destruct t; apply wp_ret; try done. by case_match.
Qed.

(** A loop of the decoder: each turn reads a key or an item and goes on from a
    shorter input. *)
Lemma progress_bind {A B} (m : M contextDecoder (result Reason A)) f s
    (Q : B -> contextDecoder -> Prop) :
  progress m s ->
  (forall a s', dec_err (cd_dec s') = false ->
     (length (dec_buf (cd_dec s')) < length (dec_buf (cd_dec s)))%nat -> wp (f (Ok a)) Q s') ->
  (forall e s', wp (f (Err e)) Q s') ->
  wp (m ≫= f) Q s.
Proof.
  intros Hm Hok Herr. eapply wp_bind_mono; [exact Hm|]. intros [a|e] s' Hr; [|apply Herr].
  by destruct Hr; apply Hok.
Qed.

Definition shorter {A} (d : Decoder) (r : result Reason A) (s' : contextDecoder) : Prop :=
  match r with
  | Ok _ => dec_err (cd_dec s') = false /\ (length (dec_buf (cd_dec s')) < length (dec_buf d))%nat
  | Err _ => True
  end.

Lemma shorter_weaken {A} d d' (r : result Reason A) s' :
  shorter d r s' -> (length (dec_buf d) <= length (dec_buf d'))%nat -> shorter d' r s'.
Proof. destruct r; cbn; [|done]. intros [? ?] ?. split; [done|lia]. Qed.

(** The end of a loop: a closing token, then a pure verdict. *)
Lemma progress_closing {A} (f : result tokenError token -> result Reason A) d s :
  cd_dec s = d -> dec_err d = false -> (forall e, exists r, f (Err e) = Err r) ->
  wp (closing ← cd_Token; mret (f closing)) (shorter d) s.
Proof. intros <- He Hf. by apply progress_read. Qed.

Lemma readMessageLoop_total fuel : forall m a b s,
  dec_err (cd_dec s) = false -> (length (dec_buf (cd_dec s)) < fuel)%nat ->
  wp (readMessageLoop fuel m a b) (shorter (cd_dec s)) s.
Proof.
  induction fuel as [|fuel IH]; intros m a b s He Hf; [lia|]. cbn [readMessageLoop].
  apply wp_bind, wp_cd_More. intros more c. apply wp_if; intros _.
  - apply wp_bind, wp_cd_Token; [done| |intros; by apply wp_ret].
    cbn [cd_dec]. intros t s1 Hev. apply token_event_shorter in Hev as [He1 Hl1].
    destruct t; try (by apply wp_ret). cbn [keyOf].
    apply wp_if; intros _; [|apply wp_if; intros _; [|by apply wp_ret]].
    + apply progress_bind; [by apply progress_readString| |intros; by apply wp_ret].
      intros text s2 He2 Hl2. destruct (parseRole text); [|by apply wp_ret].
      eapply wp_mono; [apply IH; [done|lia]|]. intros; eapply shorter_weaken; [done|lia].
    + apply progress_bind; [by apply progress_readString| |intros; by apply wp_ret].
      intros text s2 He2 Hl2.
      eapply wp_mono; [apply IH; [done|lia]|]. intros; eapply shorter_weaken; [done|lia].
  - apply wp_bind, wp_cd_Token; [done| |intros; by apply wp_ret].
    intros t s1 Hev%token_event_shorter.
    apply wp_if; intros _; [by apply wp_ret|]. apply wp_if; intros _; by apply wp_ret.
Qed.

Lemma progress_readMessage fuel s :
  dec_err (cd_dec s) = false -> (length (dec_buf (cd_dec s)) <= fuel)%nat ->
  progress (readMessage fuel) s.
Proof.
  intros He Hf. unfold readMessage. apply wp_bind, wp_cd_Token; [done| |intros; by apply wp_ret].
  intros t s1 Hev. apply token_event_shorter in Hev as [He1 Hl1]. apply wp_if; intros _; [by apply wp_ret|].
  eapply wp_mono; [apply readMessageLoop_total; [done|lia]|].
  intros r s' Hr. apply (shorter_weaken _ (cd_dec s)) in Hr; [exact Hr|lia].
Qed.

Lemma readMessagesLoop_total fuel lim : forall ms tb s,
  dec_err (cd_dec s) = false -> (length (dec_buf (cd_dec s)) < fuel)%nat ->
  wp (readMessagesLoop fuel lim ms tb) (shorter (cd_dec s)) s.
Proof.
  induction fuel as [|fuel IH]; intros ms tb s He Hf; [lia|]. cbn [readMessagesLoop].
  apply wp_bind, wp_cd_More. intros more c. apply wp_if; intros _.
  - apply wp_if; intros _; [by apply wp_ret|].
    apply progress_bind; [apply progress_readMessage; cbn; [done|lia]| |intros; by apply wp_ret].
    cbn [cd_dec]. intros m s2 He2 Hl2. destruct (add64 _ _) as [u carry].
    apply wp_if; intros _; [by apply wp_ret|].
    eapply wp_mono; [apply IH; [done|lia]|]. intros; eapply shorter_weaken; [done|lia].
  - apply wp_bind, wp_cd_Token; [done| |intros; by apply wp_ret].
    intros t s1 Hev%token_event_shorter.
    apply wp_if; intros _; [by apply wp_ret|]. apply wp_if; intros _; by apply wp_ret.
Qed.

Lemma progress_readMessages fuel lim s :
  dec_err (cd_dec s) = false -> (length (dec_buf (cd_dec s)) <= fuel)%nat ->
  progress (readMessages fuel lim) s.
Proof.
  intros He Hf. unfold readMessages. apply wp_bind, wp_cd_Token; [done| |intros; by apply wp_ret].
  intros t s1 Hev. apply token_event_shorter in Hev as [He1 Hl1]. apply wp_if; intros _; [by apply wp_ret|].
  eapply wp_mono; [apply readMessagesLoop_total; [done|lia]|].
  intros r s' Hr. apply (shorter_weaken _ (cd_dec s)) in Hr; [exact Hr|lia].
Qed.

Lemma decodeLoop_total fuel p : forall g s,
  dec_err (cd_dec s) = false -> (length (dec_buf (cd_dec s)) < fuel)%nat ->
  wp (decodeLoop fuel p g) (fun _ _ => True) s.
Proof.
  induction fuel as [|fuel IH]; intros g s He Hf; [lia|]. cbn [decodeLoop].
  apply wp_bind, wp_cd_More. intros more c. apply wp_if; intros _.
  - apply wp_bind, wp_cd_Token; [done| |intros; by apply wp_ret].
    cbn [cd_dec]. intros t s1 Hev. apply token_event_shorter in Hev as [He1 Hl1].
    destruct t; try (by apply wp_ret). cbn [keyOf].
    assert (forall g' s2, dec_err (cd_dec s2) = false ->
      (length (dec_buf (cd_dec s2)) < length (dec_buf (cd_dec s1)))%nat ->
      wp (decodeLoop fuel p g') (fun _ _ => True) s2) as IH' by (intros; apply IH; [done|lia]).
    repeat (apply wp_if; intros _; [|]); try (by apply wp_ret).
    + apply progress_bind; [by apply progress_readString| |intros; by apply wp_ret].
      intros model s2 He2 Hl2. apply wp_if; intros _; [by apply wp_ret|auto].
    + apply progress_bind; [apply progress_readMessages; [done|lia]| |intros; by apply wp_ret].
      intros [ms tb] s2 He2 Hl2. auto.
    + apply progress_bind; [by apply progress_readUnsignedInteger| |intros; by apply wp_ret].
      intros v s2 He2 Hl2. apply wp_if; intros _; [by apply wp_ret|auto].
    + apply progress_bind; [by apply progress_readBoolean| |intros; by apply wp_ret].
      intros v s2 He2 Hl2. auto.
    + apply progress_bind; [by apply progress_readUnsignedInteger| |intros; by apply wp_ret].
      intros v s2 He2 Hl2. apply wp_if; intros _; [by apply wp_ret|auto].
  - apply wp_bind, wp_cd_Token; [done| |intros; by apply wp_ret].
    intros t s1 Hev. repeat (apply wp_if; intros _; [by apply wp_ret|]). by apply wp_ret.
Qed.

Lemma decodeRequest_total p body ctx : exists r ctx', decodeRequest p body ctx = Done (r, ctx').
Proof.
  assert (wp (decodeDecoder (decodeFuel body) p) (fun _ _ => True) (newContextDecoder ctx body))
    as (r & s & Hr & _).
  { unfold decodeDecoder. apply wp_bind, wp_cd_Token; [done| |intros; by apply wp_ret].
    intros t s Hev%token_event_shorter. apply wp_if; intros _; [by apply wp_ret|].
    destruct Hev as [He Hl]. apply decodeLoop_total; [done|]. cbn in Hl. unfold decodeFuel. lia. }
  unfold decodeRequest, withDecoder. rewrite Hr. eauto.
Qed.

Lemma checkCtx_total {E A} (failed : ctxError -> E) (k : M Context (result E A)) ctx :
  (forall c, exists r c', k c = Done (r, c')) -> exists r c', checkCtx failed k ctx = Done (r, c').
Proof.
  intros Hk. unfold checkCtx, mbind, M_bind, pollSelf. destruct (ctxErr ctx) as [[e|] c]; [|auto].
  by eexists _, _.
Qed.

Lemma bind_total {A B} (m : M Context A) (f : A -> M Context B) ctx :
  (forall c, exists r c', m c = Done (r, c')) ->
  (forall a c, exists r c', f a c = Done (r, c')) -> exists r c', (m ≫= f) ctx = Done (r, c').
Proof.
  intros Hm Hf. destruct (Hm ctx) as (a & c & Ha). erewrite run_bind_done by exact Ha. apply Hf.
Qed.

Lemma parseBody_total p body : forall ctx, exists r c', parseBody p body ctx = Done (r, c').
Proof.
  assert (forall A (a : A) c, exists r c', mret (M := M Context) a c = Done (r, c')) as Hret
    by (intros; by eexists _, _).
  intros ctx. unfold parseBody, invalid. case_match; [apply Hret|].
  apply checkCtx_total. intros. apply bind_total; [intros; apply escapesFrom_total|].
  intros [|] c1; cbn [negb]; apply checkCtx_total; intros; [|apply Hret].
  apply bind_total; [intros; apply validateJSONDocument_total|].
  intros [r|] c3; apply checkCtx_total; intros; [apply Hret|].
  apply bind_total; [intros; apply decodeRequest_total|].
  intros r c4. apply checkCtx_total; intros. destruct r; [|apply Hret].
  unfold parseReserve, invalid. case_match; [|apply Hret]. by apply checkCtx_total.
Qed.

(** ** What [NewParser] guarantees *)

Record limits_u64 (l : Limits) : Prop := {
  lu_body : is_u64 (lim_MaxBodyBytes l);
  lu_count : is_u64 (lim_MaxMessageCount l);
  lu_text : is_u64 (lim_MaxMessageTextBytes l);
  lu_tokens : is_u64 (lim_MaxCompletionTokens l);
  lu_weight : is_u64 (lim_CompletionWeight l);
  lu_units : is_u64 (lim_MaxRequestUnits l);
}.

(** A parser the program can hold: made by [NewParser] of [uint64] limits. *)
Definition made_by_NewParser (p : Parser) : Prop :=
  limits_u64 (limits p) /\ NewParser (publicModel p) (limits p) = Ok p.

Lemma NewParser_facts p :
  made_by_NewParser p ->
  publicModel p <> [] /\ 0 < lim_MaxBodyBytes (limits p) <= AbsoluteMaxBodyBytes /\
  0 < lim_MaxMessageCount (limits p) /\
  0 < lim_CompletionWeight (limits p) /\ 0 < lim_MaxCompletionTokens (limits p) /\
  lim_MaxBodyBytes (limits p) + lim_CompletionWeight (limits p) * lim_MaxCompletionTokens (limits p)
    < two64.
Proof.
  intros [[U1 U2 U3 U4 U5 U6] H]. unfold is_u64 in *. unfold NewParser in H.
  do 12 (apply guard_err_Ok in H as [? H]).
  destruct (mul64 _ _) as [hi units] eqn:Hmul. apply guard_err_Ok in H as [Hhi H].
  destruct (add64 _ _) as [sum carry] eqn:Hadd. apply guard_err_Ok in H as [Hcarry H].
  destruct (mul64_spec (lim_CompletionWeight (limits p)) (lim_MaxCompletionTokens (limits p)))
    as [Hm _]; [lia|lia|]. rewrite Hmul in Hm. cbn in Hm.
  destruct Hm as [Hm1 ->]; [lia|].
  destruct (add64_spec (lim_MaxBodyBytes (limits p))
    (lim_CompletionWeight (limits p) * lim_MaxCompletionTokens (limits p))) as [Ha _]; [lia|nia|].
  rewrite Hadd in Ha. cbn in Ha. destruct Ha as [Ha _]; [lia|]. breflect.
  split; [done|]. repeat split; lia.
Qed.

Lemma int64_limit p :
  made_by_NewParser p -> int64 (lim_MaxBodyBytes (limits p) +u 1) = lim_MaxBodyBytes (limits p) + 1.
Proof.
  intros Hp. destruct (NewParser_facts p Hp) as (_ & Hb & _). unfold AbsoluteMaxBodyBytes in Hb.
  rewrite (u64_small (_ + 1)) by (unfold is_u64, two64; lia).
  apply int64_small. unfold is_int64, two63. lia.
Qed.

(** The reservation of a request within the limits does not overflow. *)
Lemma reservationUnits_within p body tokens :
  made_by_NewParser p -> 0 < body <= lim_MaxBodyBytes (limits p) ->
  0 < tokens <= lim_MaxCompletionTokens (limits p) ->
  let units := body + lim_CompletionWeight (limits p) * tokens in
  reservationUnits body tokens (lim_CompletionWeight (limits p)) (lim_MaxRequestUnits (limits p)) =
    if lim_MaxRequestUnits (limits p) <? units then Err ReasonReservationLimit else Ok units.
Proof.
  intros Hp Hb Ht units. destruct (NewParser_facts p Hp) as (_ & Hbody & _ & Hw & _ & Hsum).
  assert (lim_CompletionWeight (limits p) * tokens <=
          lim_CompletionWeight (limits p) * lim_MaxCompletionTokens (limits p)) by nia.
  unfold reservationUnits.
  rewrite mul64_exact by nia. cbn [Z.eqb negb]. rewrite add64_exact by nia. cbn [Z.eqb negb orb].
  fold units. replace (units =? 0) with false by (unfold units; nia). done.
Qed.

(** ** What an accepted request holds *)

Definition text_bytes (ms : list Message) : Z := Z.of_nat (sum_list_with (fun m => length (msg_Content m)) ms).

Record messages_ok (lim : Limits) (ms : list Message) (tb : Z) : Prop := {
  mo_bytes : tb = text_bytes ms;
  mo_limit : tb <= lim_MaxMessageTextBytes lim;
  mo_count : Z.of_nat (length ms) <= lim_MaxMessageCount lim;
  mo_roles : Forall (fun m => msg_Role m <> RoleUnset) ms;
}.

Lemma parseRole_set text r : parseRole text = Some r -> r <> RoleUnset.
Proof. unfold parseRole. repeat case_match; congruence. Qed.

Lemma messageFields_role l : forall m rs cs m',
  messageFields m rs cs l = Ok m' -> (rs = true -> msg_Role m <> RoleUnset) -> msg_Role m' <> RoleUnset.
Proof.
  induction l as [|[key v] l IH]; intros m rs cs m'; cbn [messageFields].
  - destruct rs; cbn; [|done]. case_match; [done|]. intros [= <-]. auto.
  - case_bool_decide; [|case_bool_decide; [|done]].
    + destruct (stringOf v); [|done]. cbn. destruct (parseRole a) eqn:Hr; [|done].
      intros Hm _. eapply IH; [exact Hm|]. intros _. cbn. by eapply parseRole_set.
    + destruct (stringOf v); [|done]. cbn. intros Hm Hrs. by eapply IH.
Qed.

Lemma messageOf_role t m : messageOf t = Ok m -> msg_Role m <> RoleUnset.
Proof. destruct t; try done. intros Hm. by eapply messageFields_role. Qed.

Lemma text_bytes_app ms m : text_bytes (ms ++ [m]) = text_bytes ms + Z.of_nat (length (msg_Content m)).
Proof. unfold text_bytes. rewrite sum_list_with_app. cbn. lia. Qed.

Lemma messageItems_ok lim l : forall ms tb ms' tb',
  messages_ok lim ms tb -> messageItems lim ms tb l = Ok (ms', tb') ->
  messages_ok lim ms' tb' /\ ms' <> [] /\ exists new, ms' = ms ++ new /\ Forall2 (fun t m => messageOf t = Ok m) l new.
Proof.
  induction l as [|t l IH]; intros ms tb ms' tb' Hok; cbn [messageItems].
  - case_bool_decide; [done|]. intros [= <- <-]. split; [done|]. split; [done|].
    exists []. by rewrite app_nil_r.
  - case_match eqn:Hcount; [done|]. destruct (messageOf t) as [m|] eqn:Hm; [|done]. cbn [mbind result_bind].
    destruct (add64 tb _) as [u carry] eqn:Hadd. case_match eqn:Hlim; [done|]. intros Hrun.
    breflect. destruct Hok as [Htb Hl Hc Hr].
    assert (0 <= tb) by (rewrite Htb; unfold text_bytes; lia).
    destruct (add64_spec tb (Z.of_nat (length (msg_Content m)))) as [Ha _]; [lia|lia|].
    rewrite Hadd in Ha. cbn in Ha. destruct Ha as [_ Hu]; [lia|].
    assert (messages_ok lim (ms ++ [m]) u) as Hnext.
    { split; [rewrite text_bytes_app; lia|lia|rewrite length_app; cbn; lia|].
      apply Forall_app_2; [done|]. constructor; [by eapply messageOf_role|constructor]. }
    destruct (IH _ _ _ _ Hnext Hrun) as (Hok' & Hne & new & -> & Hnew).
    split; [done|]. split; [done|]. exists (m :: new). rewrite <- app_assoc. split; [done|]. by constructor.
Qed.

Lemma messagesOf_ok lim t ms tb :
  messagesOf lim t = Ok (ms, tb) -> messages_ok lim ms tb /\ ms <> [].
Proof.
  destruct t as [|l|]; try done. cbn [messagesOf]. intros Hm.
  destruct l as [|v l]; [done|].
  cbn [messageItems length] in Hm. case_match eqn:Hc; [done|]. breflect.
  destruct (messageOf v) as [m|] eqn:Hv; [|done]. cbn [mbind result_bind] in Hm.
  destruct (add64 0 _) as [u carry] eqn:Hadd. case_match eqn:Hlim; [done|]. breflect.
  destruct (add64_spec 0 (Z.of_nat (length (msg_Content m)))) as [Ha _]; [lia|lia|].
  rewrite Hadd in Ha. cbn in Ha. destruct Ha as [_ Hu]; [lia|].
  destruct (messageItems_ok lim l [m] u ms tb) as (? & ? & _); [|exact Hm|done].
  split; [unfold text_bytes; cbn; lia|lia|cbn; lia|].
  constructor; [by eapply messageOf_role|constructor].
Qed.

(** What [decodeRequest] has established of the fields it has seen. *)
Record decoding_ok (p : Parser) (g : decoding) : Prop := {
  do_model : dg_modelSet g = true -> req_model (dg_request g) = publicModel p;
  do_messages : dg_messagesSet g = true ->
    messages_ok (limits p) (req_messages (dg_request g)) (req_messageTextBytes (dg_request g)) /\
    req_messages (dg_request g) <> [];
  do_completion : dg_completionSet g = true ->
    0 < req_maxCompletionTokens (dg_request g) <= lim_MaxCompletionTokens (limits p);
}.

Lemma parse_digits_nonneg text : forall acc v,
  0 <= acc -> forallb is_digit text = true -> parse_digits acc text = Some v -> 0 <= v.
Proof.
  induction text as [|d text IH]; intros acc v Ha Hd; cbn in *; [congruence|].
  case_match; [|done]. breflect. unfold is_digit, between in *. breflect. apply IH; [lia|done].
Qed.

Lemma unsignedOf_nonneg t v : unsignedOf t = Ok v -> 0 <= v.
Proof.
  destruct t as [[]| |]; try done. cbn. unfold unsignedInteger.
  case_bool_decide; [done|]. destruct (forallb is_digit text) eqn:Hd; [|done]. cbn [negb].
  destruct (parseUint text) eqn:Hp; [|done]. intros [= <-].
  unfold parseUint in Hp. destruct text; [done|]. rewrite Hd in Hp.
  by eapply parse_digits_nonneg in Hp.
Qed.

Lemma requestField_ok p g key v g' :
  decoding_ok p g -> requestField p g key v = Ok g' -> decoding_ok p g'.
Proof.
  intros [Hm Hms Hc]. unfold requestField. repeat case_bool_decide.
  - destruct (stringOf v); [|done]. cbn. case_bool_decide; [|done]. intros [= <-]. by split.
  - destruct (messagesOf _ v) as [[ms tb]|] eqn:E; [|done]. cbn. intros [= <-].
    split; cbn; [done| |done]. intros _. by eapply messagesOf_ok.
  - destruct (unsignedOf v) eqn:E; [|done]. cbn. case_match eqn:E2; [done|]. intros [= <-].
    apply unsignedOf_nonneg in E. breflect. split; cbn; [done|done|]. lia.
  - destruct (booleanOf v); [|done]. cbn. intros [= <-]. by split.
  - done.
  - destruct (unsignedOf v); [|done]. cbn. case_match; [done|]. intros [= <-]. by split.
  - done.
Qed.

Lemma requestFields_ok p l : forall g r,
  decoding_ok p g -> requestFields p g l = Ok r ->
  req_model r = publicModel p /\ req_messages r <> [] /\
  messages_ok (limits p) (req_messages r) (req_messageTextBytes r) /\
  0 < req_maxCompletionTokens r <= lim_MaxCompletionTokens (limits p).
Proof.
  induction l as [|[key v] l IH]; intros g r Hg; cbn [requestFields].
  - case_match eqn:E; [done|]. intros [= <-]. breflect. destruct Hg as [Hm Hms Hc].
    destruct (Hms ltac:(done)). auto.
  - destruct (requestField p g key v) as [g'|] eqn:E; [|done]. cbn. apply IH.
    by eapply requestField_ok.
Qed.

Lemma requestOf_ok p t r :
  requestOf p t = Ok r ->
  req_model r = publicModel p /\ req_messages r <> [] /\
  messages_ok (limits p) (req_messages r) (req_messageTextBytes r) /\
  0 < req_maxCompletionTokens r <= lim_MaxCompletionTokens (limits p).
Proof. destruct t as [| |l]; try done. apply requestFields_ok. by split. Qed.

(** ** [Parse] under a context that is never canceled *)

Lemma onCtx_run {A X} (m : M Context A) ctx (x : X) a ctx' :
  m ctx = Done (a, ctx') -> onCtx m (ctx, x) = Done (a, (ctx', x)).
Proof. intros Hm. unfold onCtx. cbn. by rewrite Hm. Qed.

Lemma validUnicodeEscapes_bg body :
  exists b, validUnicodeEscapes body background = Done (b, background).
Proof.
  destruct (escapesFrom_total body 0 false background) as (b & c & Hb). exists b.
  destruct (obeys_escapesFrom body _ _ _ _ _ Hb) as (_ & Hbg & _).
  unfold validUnicodeEscapes. rewrite Hb. by rewrite (Hbg eq_refl : c = background).
Qed.

Lemma validateJSONDocument_bg body maximum :
  exists r, validateJSONDocument body maximum background = Done (r, background).
Proof.
  destruct (validateJSONDocument_total body maximum background) as (r & c & Hr). exists r.
  destruct (obeys_validateJSONDocument body maximum _ _ _ Hr) as (_ & Hbg & _).
  rewrite Hr. by rewrite (Hbg eq_refl : c = background).
Qed.

(** The body of an accepted request. *)
Definition body_accepted (p : Parser) (body : list Z) (req : Request) : Prop :=
  utf8_valid body = true /\ validUnicodeEscapes body background = Done (true, background) /\
  exists t r units, document_text t body /\ tree_ok maxJSONDepth 1 t = true /\
    requestOf p t = Ok r /\
    reservationUnits (Z.of_nat (length body)) (req_maxCompletionTokens r)
      (lim_CompletionWeight (limits p)) (lim_MaxRequestUnits (limits p)) = Ok units /\
    req = withBody r body units.

Lemma parseBody_accepts p body req c :
  parseBody p body background = Done (Ok req, c) <-> body_accepted p body req /\ c = background.
Proof.
  unfold parseBody, body_accepted, parseReserve, invalid.
  destruct (utf8_valid body); cbn [negb]; [|split; [discriminate | by intros [[? _] _]]].
  rewrite checkCtx_bg. destruct (validUnicodeEscapes_bg body) as [valid Hv].
  erewrite run_bind_done by exact Hv.
  destruct valid; cbn [negb]; [|split; [discriminate | intros [(_ & ? & _) _]; congruence]].
  rewrite checkCtx_bg. destruct (validateJSONDocument_bg body maxJSONDepth) as [r Hr].
  erewrite run_bind_done by exact Hr. destruct r as [r|]; rewrite checkCtx_bg.
  { split; [discriminate|]. intros [(_ & _ & t & ? & ? & Ht & Hok & _) _].
    rewrite (validateJSONDocument_complete _ _ _ Ht Hok) in Hr. discriminate. }
  destruct (validateJSONDocument_sound _ _ _ Hr) as (t & Ht & Hok).
  erewrite run_bind_done by (by apply decodeRequest_tree). rewrite checkCtx_bg. split.
  - destruct (requestOf p t) as [r0|] eqn:Hreq; [|discriminate].
    destruct (reservationUnits _ _ _ _) as [units|] eqn:Hu; [|discriminate].
    rewrite checkCtx_bg. intros [= <- <-]. split; [|done]. split; [done|]. split; [done|].
    exists t, r0, units. auto.
  - intros [(_ & _ & t' & r0 & units & Ht' & _ & Hreq & Hu & ->) ->].
    assert (requestOf p t = requestOf p t') as ->.
    { pose proof (decodeRequest_tree p _ _ Ht). pose proof (decodeRequest_tree p _ _ Ht'). congruence. }
    rewrite Hreq, Hu. reflexivity.
Qed.

(** ** Reasons that only the reservation gives *)

(** Every outcome of [m] satisfies [Q]. *)
Definition yields {S A} (m : M S A) (Q : A -> Prop) : Prop :=
  forall s a s', m s = Done (a, s') -> Q a.

Lemma yields_ret {S A} (a : A) (Q : A -> Prop) : Q a -> yields (S := S) (mret a) Q.
Proof. by intros HQ s b s' [= <- _]. Qed.

Lemma yields_bind {S A B} (m : M S A) (f : A -> M S B) P Q :
  yields m P -> (forall a, P a -> yields (f a) Q) -> yields (m ≫= f) Q.
Proof.
  intros Hm Hf s b s'. unfold mbind, M_bind. destruct (m s) as [[a s1]| |] eqn:E; try done.
  apply Hf. by eapply Hm.
Qed.

Lemma yields_any {S A B} (m : M S A) (f : A -> M S B) Q :
  (forall a, yields (f a) Q) -> yields (m ≫= f) Q.
Proof. intros Hf. by apply (yields_bind m f (fun _ => True)). Qed.

Definition not_reservation (r : option Reason) : Prop := r <> Some ReasonReservationOverflow.

Ltac yields_auto :=
  repeat match goal with
  | |- yields (mret _) _ => apply yields_ret; try done
  | |- not_reservation (if ?b then _ else _) => destruct b; try done
  | |- yields (if ?b then _ else _) _ => destruct b
  | |- yields (match ?x with _ => _ end) _ => destruct x
  | |- yields (mbind _ cd_Token) _ => apply yields_any; intros ?
  | |- yields (mbind _ cd_More) _ => apply yields_any; intros ?
  end.

Lemma scan_reason fuel :
  (forall depth maximum, yields (scanJSONValue fuel depth maximum) not_reservation) /\
  (forall depth maximum keys, yields (scanObject fuel depth maximum keys) not_reservation) /\
  (forall depth maximum, yields (scanArray fuel depth maximum) not_reservation).
Proof.
  assert (forall c, yields (scanClosing c) not_reservation) as Hclose.
  { intros c. unfold scanClosing. yields_auto. }
  induction fuel as [|fuel (IHv & IHo & IHa)]; [done|].
  split; [|split]; intros; cbn [scanJSONValue scanObject scanArray]; yields_auto;
    try done; (eapply yields_bind; [apply IHv|]); intros ? Hr; cbn beta in Hr; yields_auto; try done.
Qed.

Lemma validateJSONDocument_reason body maximum c r :
  validateJSONDocument body maximum background = Done (Some r, c) -> r <> ReasonReservationOverflow.
Proof.
  assert (yields (validateDecoder (scanFuel body) maximum) not_reservation) as Hy.
  { unfold validateDecoder. eapply yields_bind; [apply scan_reason|]. intros ? Hr; cbn beta in Hr. yields_auto. }
  unfold validateJSONDocument, withDecoder.
  destruct (validateDecoder _ _ _) as [[r' s]| |] eqn:E; try done. intros [= -> _].
  apply Hy in E. unfold not_reservation in E. congruence.
Qed.

Lemma unsignedOf_reason t e : unsignedOf t = Err e -> e = ReasonWrongType.
Proof.
  destruct t as [[]| |]; cbn; try (by intros [= <-]). unfold unsignedInteger.
  repeat case_match; congruence.
Qed.

Lemma requestOf_reason p t : requestOf p t <> Err ReasonReservationOverflow.
Proof.
  assert (forall m rs cs l, messageFields m rs cs l <> Err ReasonReservationOverflow) as Hf.
  { intros m rs cs l. revert m rs cs. induction l as [|[k v] l IH]; intros; cbn [messageFields].
    - by case_match.
    - case_bool_decide; [|case_bool_decide; [|done]].
      + destruct v as [[]| |]; cbn; try done. case_match; [apply IH|done].
      + destruct v as [[]| |]; cbn; first [done | apply IH]. }
  assert (forall lim ms tb l, messageItems lim ms tb l <> Err ReasonReservationOverflow) as Hi.
  { intros lim ms tb l. revert ms tb. induction l as [|v l IH]; intros; cbn [messageItems].
    - by case_match.
    - case_match; [done|]. destruct (messageOf v) as [m|e] eqn:E; cbn.
      + case_match; [done|]. apply IH.
      + intros [= ->]. destruct v; cbn in E; [done|done|]. by apply Hf in E. }
  destruct t as [| |l]; try done. cbn [requestOf].
  generalize (mkDecoding emptyRequest false false false).
  induction l as [|[k v] l IH]; intros g; cbn [requestFields]; [by case_match|].
  destruct (requestField p g k v) as [g'|e] eqn:E; cbn; [apply IH|]. intros [= ->].
  unfold requestField in E. repeat case_bool_decide; try done.
  - destruct v as [[]| |]; cbn in E; try done. by case_match.
  - unfold messagesOf in E. destruct v as [|l'|]; try done.
    destruct (messageItems _ _ _ l') as [[]|] eqn:E2; cbn in E; [done|].
    injection E as ->. by apply Hi in E2.
  - destruct (unsignedOf v) as [n|e] eqn:Eu; cbn in E; [by case_match|].
    apply unsignedOf_reason in Eu. congruence.
  - destruct v as [[]| |]; cbn in E; done.
  - destruct (unsignedOf v) as [n|e] eqn:Eu; cbn in E; [by case_match|].
    apply unsignedOf_reason in Eu. congruence.
Qed.

(** ** Facts about whole runs of [Parse] *)

Lemma document_nonempty t body : document_text t body -> 0 < Z.of_nat (length body).
Proof.
  intros (w1 & text & w2 & _ & Ht & _ & ->). pose proof (value_text_opens _ _ [] Ht).
  rewrite !length_app. destruct text; [done|cbn; lia].
Qed.

Section Runs.
Context (p : Parser) (room : nat -> nat).
Context (Hp : made_by_NewParser p) (Hroom : forall n, (0 < room n)%nat).

(** [Parse] once [readBody] has returned. *)
Definition afterRead (be : readResult) : M (Context * script) (result parseFailure Request) :=
  let '(body, readErr) := be in
  if lim_MaxBodyBytes (limits p) <? Z.of_nat (length body)
  then mret (Err (ParseError ErrorClassRequestTooLarge ReasonBodyBytesLimit))
  else
    onCtx (checkCtx ParseContext
      match readErr with
      | Some _ => mret (Err (ParseError ErrorClassBodyReadFailure ReasonBodyReadFailure))
      | None => parseBody p body
      end).

Lemma Parse_unfold s :
  Parse p room s = (be ← readBody room (lim_MaxBodyBytes (limits p) + 1); afterRead be) s.
Proof.
  unfold Parse. rewrite int64_limit by done. unfold mbind, M_bind.
  destruct (readBody _ _ s) as [[[b e] s1]| |]; done.
Qed.

Lemma afterRead_runs be ctx rd : exists r s', afterRead be (ctx, rd) = Done (r, s').
Proof.
  destruct be as [body e]. cbn. case_match; [by eexists _, _|].
  set (k := match e with Some _ => _ | None => _ end).
  destruct (checkCtx_total ParseContext k ctx) as (r & c & Hr); [|eexists _, _; by apply onCtx_run, Hr].
  intros c. unfold k. destruct e; [by eexists _, _|]. apply parseBody_total.
Qed.

Lemma parse_runs ctx rd : exists r s', Parse p room (ctx, rd) = Done (r, s').
Proof.
  destruct (NewParser_facts p Hp) as (_ & Hb & _). rewrite Parse_unfold.
  destruct (readBody_cases room Hroom (lim_MaxBodyBytes (limits p) + 1) ctx rd) as
    (b & e & ctx' & rd' & Hrun & _); [lia|].
  erewrite run_bind_done by exact Hrun. apply afterRead_runs.
Qed.

Lemma afterRead_safe body e ctx rd r s' :
  afterRead (body, e) (ctx, rd) = Done (r, s') ->
  (exists e, r = Err (ParseContext e)) \/
  forall rd', exists s'', afterRead (body, e) (background, rd') = Done (r, s'').
Proof.
  cbn. case_match; [intros [= <- <-]; right; intros; by eexists|]. unfold onCtx at 1. cbn [fst snd].
  destruct (checkCtx _ _ ctx) as [[r' c]| |] eqn:E; try done. intros [= <- <-].
  apply ctx_safe_check in E as [?|E]; [by left| |].
  - right. intros rd'. eexists. by apply onCtx_run.
  - destruct e; [apply ctx_safe_ret|apply parseBody_safe].
Qed.

Lemma parse_ctx_cases ctx rd r s' :
  Parse p room (ctx, rd) = Done (r, s') ->
  (exists e, r = Err (ParseContext e)) \/
  exists s'', Parse p room (background, rd) = Done (r, s'').
Proof.
  destruct (NewParser_facts p Hp) as (_ & Hb & _). set (limit := lim_MaxBodyBytes (limits p) + 1).
  rewrite !Parse_unfold. fold limit.
  destruct (readBody_cases room Hroom limit ctx rd) as (b & e & ctx' & rd' & Hrun & Hpost); [lia|].
  destruct (readBody_bg room Hroom limit rd) as (e0 & rd0 & Hrun0 & _); [lia|].
  destruct (obeys_readBody _ _ _ _ _ Hrun) as (_ & _ & Hsame). cbn in Hsame.
  erewrite !run_bind_done by eassumption. intros Hr.
  destruct (canceled ctx') eqn:Hc.
  - destruct (decide (lim_MaxBodyBytes (limits p) < Z.of_nat (length b))) as [Hlong|Hshort].
    + right. assert (b `prefix_of` take (Z.to_nat limit) (script_data rd)) as Hpre
        by (destruct Hpost as [[_ ?]|[-> _]]; done).
      apply prefix_length in Hpre. cbn in Hr |- *.
      replace (_ <? _) with true in Hr by lia. replace (_ <? _) with true by lia.
      injection Hr as <- <-. by eexists.
    + left. cbn in Hr. replace (_ <? _) with false in Hr by lia. unfold onCtx in Hr. cbn [fst] in Hr.
      unfold checkCtx, mbind, M_bind, pollSelf in Hr. rewrite ctxErr_canceled in Hr by done.
      injection Hr as <- <-. eauto.
  - destruct Hsame as [?|Hsame]; [done|].
    apply afterRead_safe in Hr as [?|Hr]; [by left|]. right. destruct (Hr rd0) as [s'' Hs].
    exists s''. rewrite Hrun0 in Hsame. by injection Hsame as -> -> _.
Qed.

Lemma parse_read_ok rd req s' :
  Parse p room (background, rd) = Done (Ok req, s') ->
  Z.of_nat (length (script_data rd)) <= lim_MaxBodyBytes (limits p) /\
  script_err rd = None /\ body_accepted p (script_data rd) req.
Proof.
  destruct (NewParser_facts p Hp) as (_ & Hb & _). rewrite Parse_unfold.
  destruct (readBody_bg room Hroom (lim_MaxBodyBytes (limits p) + 1) rd) as (e & rd' & Hrun & He); [lia|].
  erewrite run_bind_done by exact Hrun. cbn. rewrite length_take.
  case_match eqn:Hlen; [done|]. breflect.
  assert (Z.of_nat (length (script_data rd)) <= lim_MaxBodyBytes (limits p)) as Hle by lia.
  rewrite take_ge by lia. rewrite He by lia. unfold onCtx. rewrite checkCtx_bg. cbn [fst snd].
  destruct (script_err rd); [discriminate|].
  destruct (parseBody p _ background) as [[r c]| |] eqn:Hpb; try done. intros [= -> _].
  apply parseBody_accepts in Hpb as [? _]. auto.
Qed.

Lemma parse_accepts_bg rd req :
  Z.of_nat (length (script_data rd)) <= lim_MaxBodyBytes (limits p) ->
  script_err rd = None -> body_accepted p (script_data rd) req ->
  exists s', Parse p room (background, rd) = Done (Ok req, s').
Proof.
  intros Hle Herr Hacc. rewrite Parse_unfold.
  destruct (readBody_bg room Hroom (lim_MaxBodyBytes (limits p) + 1) rd) as (e & rd' & Hrun & He); [lia|].
  erewrite run_bind_done by exact Hrun. cbn. rewrite take_ge by lia.
  replace (_ <? _) with false by lia. rewrite He, Herr by lia. eexists.
  apply onCtx_run. rewrite checkCtx_bg. by apply parseBody_accepts.
Qed.

Lemma parseBody_no_overflow body class c :
  0 < Z.of_nat (length body) <= lim_MaxBodyBytes (limits p) \/ body = [] ->
  parseBody p body background <> Done (Err (ParseError class ReasonReservationOverflow), c).
Proof.
  intros Hlen. unfold parseBody, parseReserve, invalid.
  destruct (utf8_valid body); cbn [negb]; [|discriminate]. rewrite checkCtx_bg.
  destruct (validUnicodeEscapes_bg body) as [valid Hv]. erewrite run_bind_done by exact Hv.
  destruct valid; cbn [negb]; [|discriminate]. rewrite checkCtx_bg.
  destruct (validateJSONDocument_bg body maxJSONDepth) as [r Hr].
  erewrite run_bind_done by exact Hr. destruct r as [r|]; rewrite checkCtx_bg.
  { pose proof (validateJSONDocument_reason _ _ _ _ Hr). intros [=]. congruence. }
  destruct (validateJSONDocument_sound _ _ _ Hr) as (t & Ht & _).
  pose proof (document_nonempty _ _ Ht).
  erewrite run_bind_done by (by apply decodeRequest_tree). rewrite checkCtx_bg.
  destruct (requestOf p t) as [r0|r0] eqn:Hreq.
  - destruct (requestOf_ok _ _ _ Hreq) as (_ & _ & _ & Htok).
    rewrite (reservationUnits_within p) by (done || (destruct Hlen; subst; cbn in *; lia)).
    cbn zeta. destruct (_ <? _); [intros [=]|]. rewrite checkCtx_bg. intros [=].
  - intros [= _ -> _]. by apply requestOf_reason in Hreq.
Qed.

Lemma parse_no_overflow_bg rd class s' :
  Parse p room (background, rd) <> Done (Err (ParseError class ReasonReservationOverflow), s').
Proof.
  destruct (NewParser_facts p Hp) as (_ & Hb & _). rewrite Parse_unfold.
  destruct (readBody_bg room Hroom (lim_MaxBodyBytes (limits p) + 1) rd) as (e & rd' & Hrun & _); [lia|].
  erewrite run_bind_done by exact Hrun. cbn. case_match eqn:Hlen; [discriminate|]. breflect.
  unfold onCtx. rewrite checkCtx_bg. cbn [fst snd]. destruct e; [discriminate|].
  destruct (parseBody p _ background) as [[r c]| |] eqn:Hpb; try done. intros [= -> _].
  revert Hpb. apply parseBody_no_overflow.
  destruct (take _ _) eqn:Ht; [by right|left]. cbn [length] in *. lia.
Qed.
End Runs.
