(* ===== verification/ContractResponse.v ===== *)
(** * Upstream responses

    Package [contract], [response.go]: the limits of the response validator, the
    bounded read and validation of one non-streaming Chat Completions response,
    and the reader of its exact body.  The check of the root object is shared
    with the event stream ([sse.go]), which differs in its constant and its
    reasons only. *)

From S2P Require Import Prelude.
From S2P Require Import GoJson.
From S2P Require Import JsonGrammar.
From S2P Require Import GoIO.
From S2P Require Import ContractScan.
From S2P Require Import ContractRequest.
From S2P Require Import ContractDecode.
From S2P Require Import ContractParse.

(** ** The object field of a validated document *)

(** The reasons a caller gives for the faults of the root object. *)
Record objectReasons (R : Type) := mkObjectReasons {
  or_malformed : R;
  or_rootNotObject : R;
  or_missingObject : R;
  or_wrongObjectType : R;
  or_unsupportedObject : R;
  or_json : Reason -> R;
}.
Arguments mkObjectReasons {R} _ _ _ _ _ _.
Arguments or_malformed {R} _.
Arguments or_rootNotObject {R} _.
Arguments or_missingObject {R} _.
Arguments or_wrongObjectType {R} _.
Arguments or_unsupportedObject {R} _.
Arguments or_json {R} _ _.

Section ObjectCheck.
Context {R : Type} (reasons : objectReasons R) (want : list Z).

Fixpoint objectLoop (fuel : nat) (objectSet : bool) : M contextDecoder (option R) :=
  match fuel with
  | O => no_fuel
  | S fuel' =>
      more ← cd_More;
      if (more : bool) then
        keyToken ← cd_Token;
        match keyOf keyToken with
        | None => mret (Some (or_malformed reasons))
        | Some key =>
            if bool_decide (key = bs "object") then
              value ← readString;
              match value with
              | Err reason =>
                  mret (Some (if bool_decide (reason = ReasonWrongType)
                              then or_wrongObjectType reasons else or_malformed reasons))
              | Ok text =>
                  if negb (bool_decide (text = want)) then mret (Some (or_unsupportedObject reasons))
                  else objectLoop fuel' true
              end
            else
              reason ← scanJSONValue fuel' 2 maxJSONDepth;
              match reason with
              | Some r => mret (Some (or_json reasons r))
              | None => objectLoop fuel' objectSet
              end
        end
      else
        closing ← cd_Token;
        if negb (isDelim c_rbrace closing) then mret (Some (or_malformed reasons))
        else if negb objectSet then mret (Some (or_missingObject reasons))
        else mret None
  end.

Definition objectDecoder (fuel : nat) : M contextDecoder (option R) :=
  opening ← cd_Token;
  match opening with
  | Err _ => mret (Some (or_malformed reasons))
  | Ok t =>
      if negb (isDelim c_lbrace (Ok t)) then mret (Some (or_rootNotObject reasons))
      else objectLoop fuel false
  end.

Definition validateObject (body : list Z) : M Context (option R) :=
  withDecoder body (objectDecoder (scanFuel body)).
End ObjectCheck.

(** ** [response.go] *)

Definition AbsoluteMaxResponseBodyBytes : Z := 16777216.
Definition chatCompletionObject : list Z := bs "chat.completion".

Inductive ResponseReason :=
| ResponseReasonBodyBytesLimit | ResponseReasonBodyReadFailure | ResponseReasonInvalidUTF8
| ResponseReasonInvalidUnicodeEscape | ResponseReasonMalformedJSON | ResponseReasonTrailingJSON
| ResponseReasonDuplicateKey | ResponseReasonNestingLimit | ResponseReasonRootNotObject
| ResponseReasonMissingObject | ResponseReasonWrongObjectType | ResponseReasonUnsupportedObject.

Inductive responseFailure :=
| ResponseError (reason : ResponseReason)
| ResponseContext (e : ctxError).

(** The message of a reason; no data of the caller is in it. *)
Definition ResponseError_Error (reason : ResponseReason) : string :=
  match reason with
  | ResponseReasonBodyBytesLimit => "upstream response body exceeds its configured limit"
  | ResponseReasonBodyReadFailure => "upstream response body could not be read"
  | ResponseReasonInvalidUTF8 => "upstream response body is not valid UTF-8"
  | ResponseReasonInvalidUnicodeEscape => "upstream response contains an unpaired Unicode surrogate"
  | ResponseReasonMalformedJSON => "upstream response body is not one valid JSON value"
  | ResponseReasonTrailingJSON => "upstream response body contains a trailing JSON value"
  | ResponseReasonDuplicateKey => "upstream response contains a duplicate object key"
  | ResponseReasonNestingLimit => "upstream response exceeds the JSON nesting limit"
  | ResponseReasonRootNotObject => "upstream response root must be an object"
  | ResponseReasonMissingObject => "upstream response is missing its object field"
  | ResponseReasonWrongObjectType => "upstream response object field has the wrong JSON type"
  | ResponseReasonUnsupportedObject => "upstream response object field has an unsupported value"
  end.

(** [ResponseValidator], and the validated response: its exact body. *)
Record ResponseValidator := mkResponseValidator { rv_maxBodyBytes : Z }.
Record ValidatedResponse := mkValidatedResponse { vr_body : list Z }.

Definition NewResponseValidator (maxBodyBytes : Z) : result string ResponseValidator :=
  _ ← guard_err (maxBodyBytes =? 0) "maximum response body bytes must be positive";
  _ ← guard_err (AbsoluteMaxResponseBodyBytes <? maxBodyBytes)
        "maximum response body bytes exceeds the hard safety limit";
  Ok (mkResponseValidator maxBodyBytes).

Definition responseReasonFromJSON (reason : Reason) : ResponseReason :=
  match reason with
  | ReasonTrailingJSON => ResponseReasonTrailingJSON
  | ReasonDuplicateKey => ResponseReasonDuplicateKey
  | ReasonNestingLimit => ResponseReasonNestingLimit
  | _ => ResponseReasonMalformedJSON
  end.

Definition responseReasons : objectReasons ResponseReason :=
  mkObjectReasons ResponseReasonMalformedJSON ResponseReasonRootNotObject
    ResponseReasonMissingObject ResponseReasonWrongObjectType ResponseReasonUnsupportedObject
    responseReasonFromJSON.

Definition validateChatCompletionObject (body : list Z) : M Context (option ResponseReason) :=
  validateObject responseReasons chatCompletionObject body.

Definition refuse {A} (reason : ResponseReason) : M Context (result responseFailure A) :=
  mret (Err (ResponseError reason)).

(** [ResponseValidator.Parse] once the body is read. *)
Definition responseBody (body : list Z) : M Context (result responseFailure ValidatedResponse) :=
  if negb (utf8_valid body) then refuse ResponseReasonInvalidUTF8 else
  checkCtx ResponseContext (
    valid ← validUnicodeEscapes body;
    if negb valid then checkCtx ResponseContext (refuse ResponseReasonInvalidUnicodeEscape) else
    checkCtx ResponseContext (
      reason ← validateJSONDocument body maxJSONDepth;
      match reason with
      | Some r => checkCtx ResponseContext (refuse (responseReasonFromJSON r))
      | None =>
          checkCtx ResponseContext (
            reason ← validateChatCompletionObject body;
            match reason with
            | Some r => checkCtx ResponseContext (refuse r)
            | None => checkCtx ResponseContext (mret (Ok (mkValidatedResponse body)))
            end)
      end)).

Definition response_Parse (v : ResponseValidator) (room : nat -> nat)
  : M (Context * script) (result responseFailure ValidatedResponse) :=
  '(body, readErr) ← readBody room (int64 (rv_maxBodyBytes v +u 1));
  if rv_maxBodyBytes v <? Z.of_nat (length body)
  then mret (Err (ResponseError ResponseReasonBodyBytesLimit))
  else
    onCtx (checkCtx ResponseContext
      match readErr with
      | Some _ => mret (Err (ResponseError ResponseReasonBodyReadFailure))
      | None => responseBody body
      end).

(** ** [responseBodyReader] *)

Record responseBodyReader := mkResponseBodyReader { rsp_body : list Z; rsp_offset : nat }.

Definition response_BodyReader (r : ValidatedResponse) : responseBodyReader :=
  mkResponseBodyReader (vr_body r) 0.

Definition responseBodyReader_Read (k : nat) : M responseBodyReader readResult := fun r =>
  if (length (rsp_body r) <=? rsp_offset r)%nat then Done (([], Some ioEOF), r) else
  let copied := take k (drop (rsp_offset r) (rsp_body r)) in
  Done ((copied, None), mkResponseBodyReader (rsp_body r) (rsp_offset r + length copied)).

(** ** The root object *)

(** The verdict on the members of the root object. *)
Fixpoint objectFields {R} (reasons : objectReasons R) (want : list Z) (objectSet : bool)
    (l : list (list Z * jtree)) : option R :=
  match l with
  | [] => if negb objectSet then Some (or_missingObject reasons) else None
  | (key, v) :: l' =>
      if bool_decide (key = bs "object") then
        match stringOf v with
        | Err _ => Some (or_wrongObjectType reasons)
        | Ok text =>
            if negb (bool_decide (text = want)) then Some (or_unsupportedObject reasons)
            else objectFields reasons want true l'
        end
      else objectFields reasons want objectSet l'
  end.

Definition objectOf {R} (reasons : objectReasons R) (want : list Z) (t : jtree) : option R :=
  match t with
  | JObj l => objectFields reasons want false l
  | _ => Some (or_rootNotObject reasons)
  end.

Lemma objectFields_accepts {R} (reasons : objectReasons R) want l : forall objectSet,
  NoDup (map fst l) ->
  objectFields reasons want objectSet l = None <->
  (forall v, (bs "object", v) ∈ l -> v = JScalar (TString want)) /\
  (objectSet = true \/ exists v, (bs "object", v) ∈ l).
Proof.
  induction l as [|[key v] l IH]; intros objectSet Hnd.
  - cbn [objectFields]. destruct objectSet; cbn.
    + split; [|done]. intros _. split; [|by left]. intros v Hv. inversion Hv.
    + split; [done|]. intros [_ [?|[v Hv]]]; [done|inversion Hv].
  - cbn [objectFields map fst] in *. apply NoDup_cons in Hnd as [Hnin Hnd].
    case_bool_decide as Hk.
    + assert (forall w, (bs "object", w) ∉ l) as Hno.
      { intros w Hw. apply Hnin. rewrite Hk. by apply (list_elem_of_fmap_2 fst) in Hw. }
      destruct (stringOf v) as [text|e] eqn:Hs.
      * assert (v = JScalar (TString text)) as -> by (destruct v as [[]| |]; cbn in Hs; congruence).
        case_bool_decide as Ht; cbn [negb].
        -- subst text. rewrite IH by done. split.
           ++ intros [H1 _]. split; [|right; exists (JScalar (TString want)); subst key; by left].
              intros w [[= _ ->]|Hw]%elem_of_cons; auto.
           ++ intros [H1 _]. split; [|by left]. intros w Hw. by apply Hno in Hw.
        -- split; [done|]. intros [H1 _]. specialize (H1 (JScalar (TString text))).
           subst key. destruct Ht. assert (JScalar (TString text) = JScalar (TString want)) as [= ->];
             [apply H1; by left | done].
      * split; [done|]. intros [H1 _]. specialize (H1 v). subst key.
        rewrite H1 in Hs by (by left). done.
    + rewrite IH by done. split; intros [H1 H2]; (split; [|destruct H2 as [?|[w Hw]]; [by left|right; exists w]]).
      * intros w [[= <- _]|Hw]%elem_of_cons; [done|auto].
      * by right.
      * intros w Hw. apply H1. by right.
      * apply elem_of_cons in Hw as [[= <- _]|Hw]; done.
Qed.

(** ** [validateObject] on the text of a tree *)

(** [m] comes to the verdict [r] from [d]. *)
Definition decides {A} (m : M contextDecoder A) (d : Decoder) (r : A) : Prop :=
  exists s', m (bgd d) = Done (r, s').

Lemma decides_ret {A} (r : A) d : decides (mret r) d r.
Proof. by exists (bgd d). Qed.

Lemma decides_token {A} (f : result tokenError token -> M contextDecoder A) d t d1 r :
  token_event d t d1 -> decides (f (Ok t)) d1 r -> decides (token ← cd_Token; f token) d r.
Proof.
  intros Ht (s' & Hf). exists s'. by erewrite run_bind_done by (by apply cd_Token_ok).
Qed.

Lemma decides_more {A} (f : bool -> M contextDecoder A) d r :
  decides (f (More d)) d r -> decides (more ← cd_More; f more) d r.
Proof. intros (s' & Hf). exists s'. by erewrite run_bind_done by apply cd_More_bg. Qed.

Lemma decides_run {A B} (m : M contextDecoder B) (f : B -> M contextDecoder A) d b d1 r :
  m (bgd d) = Done (b, bgd d1) -> decides (f b) d1 r -> decides (m ≫= f) d r.
Proof. intros Hm (s' & Hf). exists s'. by erewrite run_bind_done by exact Hm. Qed.

Section ObjectSpec.
Context {R : Type} (reasons : objectReasons R) (want : list Z).

Lemma objectLoop_decides l : forall fuel first text outer stack rest objectSet,
  (2 * length text + 2 <= fuel)%nat -> obj_text first l text ->
  forallb (fun kv => tree_ok maxJSONDepth 2 (snd kv)) l = true ->
  decides (objectLoop reasons want fuel objectSet) (objectAt first (text ++ rest) outer stack)
    (objectFields reasons want objectSet l).
Proof.
  induction l as [|[key v] l IH]; intros fuel first text outer stack rest objectSet Hf Ht Hok;
    (destruct fuel as [|fuel]; [lia|]); cbn [objectLoop]; apply decides_more; unfold objectAt.
  - inversion Ht as [? w Hw|]; subst. rewrite <- app_assoc. cbn [app].
    rewrite More_closing by auto.
    eapply decides_token; [apply ev_close; [done|destruct first; auto]|].
    cbn [isDelim Z.eqb Pos.eqb negb objectFields]. case_match; apply decides_ret.
  - inversion Ht as [|? pre ? ktext colon ? vtext ? ltext Hl Hk Hc Hv Hlt]; subst.
    cbn [forallb snd] in Hok. apply andb_true_iff in Hok as [Hok1 Hok2].
    rewrite !length_app in Hf. rewrite <- !app_assoc.
    rewrite (More_item first) by (done || by eapply scalar_text_opens).
    assert (delimited (ltext ++ rest)) by by eapply obj_text_delimited.
    destruct (scalar_text_lexeme _ _ (colon ++ vtext ++ ltext ++ rest) Hk) as [Hr Hlit];
      [by eapply delimited_around; [by right|]|].
    assert (0 < length ktext)%nat by (destruct ktext; [done|cbn; lia]).
    eapply decides_token; [by apply ev_key; [apply item_lead_key|..]|]. cbn [keyOf objectFields].
    case_bool_decide.
    + assert (at_value v vtext (ltext ++ rest)
        (mkDecoder (colon ++ vtext ++ ltext ++ rest) tokenObjectColon (outer :: stack) false)
        (objectAt false (ltext ++ rest) outer stack)) as Hat.
      { split; [done|done|]. eexists _, colon, _, _. split; [by apply lead_colon|]. done. }
      destruct (readString_reads _ _ _ _ _ Hat) as (s' & Hs & Hpost). unfold decides.
      erewrite run_bind_done by exact Hs. destruct (stringOf v) as [text|e] eqn:Hsv.
      * subst s'. case_match; [by eexists|]. apply IH; [lia|done|done].
      * assert (e = ReasonWrongType) as -> by (destruct v as [[]| |]; cbn in Hsv; congruence).
        rewrite bool_decide_true by done. by eexists.
    + eapply decides_run.
      { eapply scan_value_complete; [exact Hv|lia|by apply lead_colon|done|exact Hok1]. }
      apply (IH fuel false ltext outer stack rest); [lia|done|done].
Qed.

Lemma validateObject_decides t body :
  document_text t body -> tree_ok maxJSONDepth 1 t = true ->
  decides (objectDecoder reasons want (scanFuel body)) (newDecoder body) (objectOf reasons want t).
Proof.
  intros Hdoc Hok. destruct (document_at _ _ Hdoc) as (text & rest & Hat & Hlen).
  unfold objectDecoder, objectOf. destruct t as [tok|l|l].
  - destruct (at_value_head _ _ _ _ _ Hat) as (d1 & Hev & _).
    eapply decides_token; [exact Hev|].
    rewrite (at_value_isDelim _ _ _ _ _ c_lbrace Hat) by auto. apply decides_ret.
  - destruct (at_value_head _ _ _ _ _ Hat) as (d1 & Hev & _).
    eapply decides_token; [exact Hev|]. apply decides_ret.
  - destruct (at_object _ _ _ _ _ Hat) as (otext & outer & stack & Ho & Hl & Hev & Heq).
    eapply decides_token; [exact Hev|]. cbn [isDelim Z.eqb Pos.eqb negb].
    apply objectLoop_decides; [unfold scanFuel; lia|done|].
    cbn [tree_ok] in Hok. by apply andb_true_iff in Hok as [_ [_ ?]%andb_true_iff].
Qed.

Lemma obeys_objectLoop fuel : forall b, obeys (objectLoop reasons want fuel b).
Proof. induction fuel; intros; cbn [objectLoop]; obeys_auto. Qed.

Lemma obeys_validateObject body : obeys (validateObject reasons want body).
Proof.
  apply obeys_withDecoder. unfold objectDecoder. pose proof obeys_objectLoop. obeys_auto.
Qed.

Lemma validateObject_tree t body :
  document_text t body -> tree_ok maxJSONDepth 1 t = true ->
  validateObject reasons want body background = Done (objectOf reasons want t, background).
Proof.
  intros Hdoc Hok. destruct (validateObject_decides _ _ Hdoc Hok) as (s' & Hrun).
  assert (validateObject reasons want body background = Done (objectOf reasons want t, cd_ctx s')) as Hv.
  { unfold validateObject, withDecoder, newContextDecoder. fold (bgd (newDecoder body)). by rewrite Hrun. }
  destruct (obeys_validateObject body _ _ _ Hv) as (_ & Hbg & _). rewrite Hv.
  by rewrite (Hbg eq_refl : cd_ctx s' = background).
Qed.

Lemma objectLoop_total fuel : forall b s,
  dec_err (cd_dec s) = false -> (2 * length (dec_buf (cd_dec s)) + 2 <= fuel)%nat ->
  wp (objectLoop reasons want fuel b) (fun _ _ => True) s.
Proof.
  induction fuel as [|fuel IH]; intros b s He Hf; [lia|]. cbn [objectLoop].
  apply wp_bind, wp_cd_More. intros more c. apply wp_if; intros _.
  - apply wp_bind, wp_cd_Token; [done| |intros; by apply wp_ret].
    cbn [cd_dec]. intros t s1 Hev. apply token_event_shorter in Hev as [He1 Hl1].
    destruct t; try (by apply wp_ret). cbn [keyOf]. apply wp_if; intros _.
    + apply progress_bind; [by apply progress_readString| |intros; by apply wp_ret].
      intros text s2 He2 Hl2. apply wp_if; intros _; [by apply wp_ret|]. apply IH; [done|lia].
    + eapply wp_bind_mono; [apply scan_total; [done|lia]|].
      intros [r|] s2 Hp; [by apply wp_ret|]. destruct (Hp eq_refl). apply IH; [done|lia].
  - apply wp_bind, wp_cd_Token; [done| |intros; by apply wp_ret].
    intros t s1 _. repeat (apply wp_if; intros _; [by apply wp_ret|]). by apply wp_ret.
Qed.

Lemma validateObject_total body ctx : exists r c, validateObject reasons want body ctx = Done (r, c).
Proof.
  assert (wp (objectDecoder reasons want (scanFuel body)) (fun _ _ => True) (newContextDecoder ctx body))
    as (r & s & Hr & _).
  { unfold objectDecoder. apply wp_bind, wp_cd_Token; [done| |intros; by apply wp_ret].
    intros t s Hev%token_event_shorter. apply wp_if; intros _; [by apply wp_ret|].
    destruct Hev as [He Hl]. apply objectLoop_total; [done|]. cbn in Hl. unfold scanFuel. lia. }
  unfold validateObject, withDecoder. rewrite Hr. eauto.
Qed.
End ObjectSpec.

(** A body whose root object has the wanted object field. *)
Definition object_body (want body : list Z) : Prop :=
  utf8_valid body = true /\ validUnicodeEscapes body background = Done (true, background) /\
  exists l, document_text (JObj l) body /\ tree_ok maxJSONDepth 1 (JObj l) = true /\
    (bs "object", JScalar (TString want)) ∈ l.

(** With unique keys the check of the root object is a membership. *)
Lemma objectOf_accepts {R} (reasons : objectReasons R) want t :
  tree_ok maxJSONDepth 1 t = true ->
  objectOf reasons want t = None <->
  exists l, t = JObj l /\ (bs "object", JScalar (TString want)) ∈ l.
Proof.
  intros Hok. destruct t as [tok|l|l]; cbn [objectOf].
  1,2: split; [done | by intros (? & ? & _)].
  cbn [tree_ok] in Hok. apply andb_true_iff in Hok as [_ [Hnd _]%andb_true_iff].
  apply bool_decide_eq_true in Hnd. rewrite objectFields_accepts by done. split.
  - intros [H1 [?|[v Hv]]]; [done|]. exists l. split; [done|]. by rewrite <- (H1 v Hv).
  - intros (l' & [= <-] & Hin). split; [|right; eauto]. intros v Hv.
    apply list_elem_of_lookup in Hv as [i Hi], Hin as [j Hj].
    assert (i = j) as ->; [|congruence].
    eapply (NoDup_lookup (map fst l)); [done|rewrite list_lookup_fmap, Hi; done|].
    by rewrite list_lookup_fmap, Hj.
Qed.

(** ** [ResponseValidator.Parse] *)

Lemma responseBody_accepts body r c :
  responseBody body background = Done (Ok r, c) <->
  object_body chatCompletionObject body /\ r = mkValidatedResponse body /\ c = background.
Proof.
  unfold responseBody, object_body, refuse.
  destruct (utf8_valid body); cbn [negb]; [|split; [discriminate | by intros [[? _] _]]].
  rewrite checkCtx_bg. destruct (validUnicodeEscapes_bg body) as [valid Hv].
  erewrite run_bind_done by exact Hv.
  destruct valid; cbn [negb]; [|split; [discriminate | intros [(_ & ? & _) _]; congruence]].
  rewrite checkCtx_bg. destruct (validateJSONDocument_bg body maxJSONDepth) as [reason Hr].
  erewrite run_bind_done by exact Hr. destruct reason as [reason|]; rewrite checkCtx_bg.
  { split; [discriminate|]. intros [(_ & _ & l & Ht & Hok & _) _].
    rewrite (validateJSONDocument_complete _ _ _ Ht Hok) in Hr. discriminate. }
  destruct (validateJSONDocument_sound _ _ _ Hr) as (t & Ht & Hok).
  erewrite run_bind_done by (by apply validateObject_tree).
  destruct (objectOf _ _ t) as [reason|] eqn:Ho; rewrite checkCtx_bg.
  - split; [discriminate|]. intros [(_ & _ & l & Ht' & Hok' & Hin) _].
    pose proof (validateObject_tree responseReasons chatCompletionObject _ _ Ht Hok) as H1.
    pose proof (validateObject_tree responseReasons chatCompletionObject _ _ Ht' Hok') as H2.
    assert (objectOf responseReasons chatCompletionObject (JObj l) = None) as H3
      by (apply objectOf_accepts; eauto). congruence.
  - apply objectOf_accepts in Ho as (l & -> & Hin); [|done]. split; [intros [= <- <-]; eauto 10|].
    by intros (_ & -> & ->).
Qed.

Lemma responseBody_safe body : ctx_safe ResponseContext (responseBody body).
Proof.
  unfold responseBody. case_match; [apply ctx_safe_ret|]. apply ctx_safe_check, ctx_safe_bind.
  { apply obeys_escapesFrom. }
  intros [|]; cbn [negb]; eexists; (split; [reflexivity|]); [|apply ctx_safe_ret].
  apply ctx_safe_bind; [apply obeys_validateJSONDocument|].
  intros [r|]; eexists; (split; [reflexivity|]); [apply ctx_safe_ret|].
  apply ctx_safe_bind; [apply obeys_validateObject|].
  intros [r|]; eexists; (split; [reflexivity|]); apply ctx_safe_ret.
Qed.

(** A validator the program can hold. *)
Definition made_by_NewResponseValidator (v : ResponseValidator) : Prop :=
  is_u64 (rv_maxBodyBytes v) /\ NewResponseValidator (rv_maxBodyBytes v) = Ok v.

Lemma response_limit v :
  made_by_NewResponseValidator v ->
  0 < rv_maxBodyBytes v <= AbsoluteMaxResponseBodyBytes /\
  int64 (rv_maxBodyBytes v +u 1) = rv_maxBodyBytes v + 1.
Proof.
  intros [Hu H]. unfold NewResponseValidator in H. do 2 (apply guard_err_Ok in H as [? H]).
  assert (0 < rv_maxBodyBytes v <= AbsoluteMaxResponseBodyBytes) as Hb
    by (unfold is_u64 in Hu; breflect; lia).
  unfold AbsoluteMaxResponseBodyBytes in *. split; [lia|].
  unfold int64. rewrite (u64_small (_ + 1)) by (unfold is_u64, two64; lia).
  rewrite u64_small by (unfold is_u64, two64; lia).
  unfold two63. case_match; breflect; [done|lia].
Qed.

Lemma response_accepts v room rd r :
  made_by_NewResponseValidator v -> (forall n, (0 < room n)%nat) ->
  (exists s', response_Parse v room (background, rd) = Done (Ok r, s')) <->
  Z.of_nat (length (script_data rd)) <= rv_maxBodyBytes v /\ script_err rd = None /\
  object_body chatCompletionObject (script_data rd) /\ r = mkValidatedResponse (script_data rd).
Proof.
  intros Hv Hroom. destruct (response_limit v Hv) as [Hb Hlim]. unfold response_Parse. rewrite Hlim.
  destruct (readBody_bg room Hroom (rv_maxBodyBytes v + 1) rd) as (e & rd' & Hrun & He); [lia|].
  erewrite run_bind_done by exact Hrun. cbn iota beta.
  destruct (decide (Z.of_nat (length (script_data rd)) <= rv_maxBodyBytes v)) as [Hle|Hgt].
  - rewrite take_ge by lia. replace (_ <? _) with false by lia. rewrite He by lia. split.
    + intros [s' Hs]. unfold onCtx in Hs. rewrite checkCtx_bg in Hs. cbn [fst snd] in Hs.
      destruct (script_err rd); [discriminate|].
      destruct (responseBody _ background) as [[r' c]| |] eqn:Hpb; try done. injection Hs as -> _.
      apply responseBody_accepts in Hpb as (? & ? & _). auto.
    + intros (_ & -> & Hacc & ->). eexists. apply onCtx_run. rewrite checkCtx_bg.
      by apply responseBody_accepts.
  - rewrite length_take. case_match eqn:Hlong; breflect; [|lia]. split; [by intros [? [=]]|lia].
Qed.

(** ** Under a context that may be canceled *)

Lemma responseBody_total body ctx : exists r c, responseBody body ctx = Done (r, c).
Proof.
  assert (forall r ctx, exists r' c, checkCtx ResponseContext (refuse (A := ValidatedResponse) r) ctx = Done (r', c))
    as Hr by (intros; apply checkCtx_total; intros; by eexists _, _).
  unfold responseBody. case_match; [by eexists _, _|]. apply checkCtx_total. intros c1.
  apply bind_total; [intros; apply escapesFrom_total|]. intros [|] c2; cbn [negb]; [|apply Hr].
  apply checkCtx_total. intros c3. apply bind_total; [intros; apply validateJSONDocument_total|].
  intros [r|] c4; [apply Hr|]. apply checkCtx_total. intros c5.
  apply bind_total; [intros; apply validateObject_total|]. intros [r|] c6; [apply Hr|].
  apply checkCtx_total. intros; by eexists _, _.
Qed.

Section Runs.
Context (v : ResponseValidator) (room : nat -> nat).
Context (Hv : made_by_NewResponseValidator v) (Hroom : forall n, (0 < room n)%nat).

Definition response_afterRead (be : readResult)
  : M (Context * script) (result responseFailure ValidatedResponse) :=
  let '(body, readErr) := be in
  if rv_maxBodyBytes v <? Z.of_nat (length body)
  then mret (Err (ResponseError ResponseReasonBodyBytesLimit))
  else
    onCtx (checkCtx ResponseContext
      match readErr with
      | Some _ => mret (Err (ResponseError ResponseReasonBodyReadFailure))
      | None => responseBody body
      end).

Lemma response_Parse_unfold s :
  response_Parse v room s = (be ← readBody room (rv_maxBodyBytes v + 1); response_afterRead be) s.
Proof.
  unfold response_Parse. rewrite (proj2 (response_limit v Hv)). unfold mbind, M_bind.
  destruct (readBody _ _ s) as [[[b e] s1]| |]; done.
Qed.

Lemma response_runs ctx rd : exists r s', response_Parse v room (ctx, rd) = Done (r, s').
Proof.
  destruct (response_limit v Hv) as [Hb _]. rewrite response_Parse_unfold.
  destruct (readBody_cases room Hroom (rv_maxBodyBytes v + 1) ctx rd) as
    (b & e & ctx' & rd' & Hrun & _); [lia|].
  erewrite run_bind_done by exact Hrun. cbn. case_match; [by eexists _, _|].
  set (k := match e with Some _ => _ | None => _ end).
  destruct (checkCtx_total ResponseContext k ctx') as (r & c & Hr); [|eexists _, _; by apply onCtx_run, Hr].
  intros c. unfold k. destruct e; [by eexists _, _|]. apply responseBody_total.
Qed.

(** A body accepted under any context is accepted. *)
Lemma response_ctx_ok ctx rd r s' :
  response_Parse v room (ctx, rd) = Done (Ok r, s') ->
  exists s'', response_Parse v room (background, rd) = Done (Ok r, s'').
Proof.
  destruct (response_limit v Hv) as [Hb _]. set (limit := rv_maxBodyBytes v + 1).
  rewrite !response_Parse_unfold. fold limit.
  destruct (readBody_cases room Hroom limit ctx rd) as (b & e & ctx' & rd' & Hrun & _); [lia|].
  destruct (readBody_bg room Hroom limit rd) as (e0 & rd0 & Hrun0 & _); [lia|].
  destruct (obeys_readBody _ _ _ _ _ Hrun) as (_ & _ & Hsame). cbn in Hsame.
  erewrite !run_bind_done by eassumption. intros Hr. cbn in Hr.
  destruct (rv_maxBodyBytes v <? _) eqn:Hlen; [done|]. unfold onCtx in Hr. cbn [fst snd] in Hr.
  destruct (canceled ctx') eqn:Hc.
  - unfold checkCtx, mbind, M_bind, pollSelf in Hr. rewrite ctxErr_canceled in Hr by done. done.
  - destruct Hsame as [?|Hsame]; [done|]. rewrite Hrun0 in Hsame. injection Hsame as -> -> _.
    destruct (checkCtx _ _ ctx') as [[r' c]| |] eqn:E; try done. injection Hr as -> _.
    apply ctx_safe_check in E as [[? [=]]|E].
    + cbn. rewrite Hlen. eexists. by apply onCtx_run.
    + destruct e; [apply ctx_safe_ret|apply responseBody_safe].
Qed.
End Runs.

(** ** Reading a body back *)

(** Both body readers deliver what is left of the body, in any chunks. *)
Lemma ReadAll_cursor {S} (read : nat -> M S readResult) (left : S -> list Z) room :
  (forall n, (0 < room n)%nat) ->
  (forall k s, (0 < k)%nat -> left s = [] -> read k s = Done (([], Some ioEOF), s)) ->
  (forall k s, (0 < k)%nat -> left s <> [] ->
     exists s', read k s = Done ((take k (left s), None), s') /\ left s' = drop k (left s)) ->
  forall fuel s b, (length (left s) < fuel)%nat ->
    exists s', ReadAll fuel room read b s = Done ((b ++ left s, None), s').
Proof.
  intros Hroom Hend Hnext fuel. induction fuel as [|fuel IH]; intros s b Hf; [lia|]. cbn [ReadAll].
  destruct (decide (left s = [])) as [Hl|Hl].
  - erewrite run_bind_done by (by apply Hend). rewrite Hl. by eexists.
  - destruct (Hnext (room (length b)) s (Hroom _) Hl) as (s1 & Hr & Hl1).
    erewrite run_bind_done by exact Hr. cbn iota beta.
    pose proof (Hroom (length b)).
    assert (0 < length (left s))%nat by (destruct (left s); [done|cbn; lia]).
    destruct (IH s1 (b ++ take (room (length b)) (left s))) as [s' Hs'].
    { rewrite Hl1, length_drop. lia. }
    exists s'. rewrite Hs', Hl1, <- app_assoc. by rewrite take_drop.
Qed.

Definition rbr_left (r : requestBodyReader) : list Z := drop (rbr_offset r) (rbr_body r).
Definition rsp_left (r : responseBodyReader) : list Z := drop (rsp_offset r) (rsp_body r).

Lemma cursor_left (body : list Z) (offset k : nat) :
  (0 < k)%nat ->
  drop (offset + length (take k (drop offset body))) body = drop k (drop offset body).
Proof.
  intros Hk. rewrite drop_drop, length_take, length_drop.
  destruct (decide (k <= length body - offset)%nat); [f_equal; lia|].
  rewrite !drop_ge by lia. done.
Qed.

Lemma request_body_reads room fuel r :
  (forall n, (0 < room n)%nat) -> (length (req_body r) < fuel)%nat ->
  exists s', ReadAll fuel room requestBodyReader_Read [] (BodyReader r) = Done ((req_body r, None), s').
Proof.
  intros Hroom Hf. apply (ReadAll_cursor requestBodyReader_Read rbr_left room Hroom); [| |exact Hf].
  - intros k s _ Hl. apply (f_equal length) in Hl. unfold rbr_left in Hl. rewrite length_drop in Hl. cbn in Hl.
    unfold requestBodyReader_Read. replace (_ <=? _)%nat with true; [done|]. symmetry. apply Nat.leb_le. lia.
  - intros k s Hk Hl. unfold requestBodyReader_Read. replace (_ <=? _)%nat with false.
    + eexists. split; [done|]. unfold rbr_left. cbn. by apply cursor_left.
    + symmetry. apply Nat.leb_gt. destruct (decide (rbr_offset s < length (rbr_body s))%nat); [done|].
      destruct Hl. unfold rbr_left. apply drop_ge. lia.
Qed.

Lemma response_body_reads room fuel r :
  (forall n, (0 < room n)%nat) -> (length (vr_body r) < fuel)%nat ->
  exists s', ReadAll fuel room responseBodyReader_Read [] (response_BodyReader r) = Done ((vr_body r, None), s').
Proof.
  intros Hroom Hf. apply (ReadAll_cursor responseBodyReader_Read rsp_left room Hroom); [| |exact Hf].
  - intros k s _ Hl. apply (f_equal length) in Hl. unfold rsp_left in Hl. rewrite length_drop in Hl. cbn in Hl.
    unfold responseBodyReader_Read. replace (_ <=? _)%nat with true; [done|]. symmetry. apply Nat.leb_le. lia.
  - intros k s Hk Hl. unfold responseBodyReader_Read. replace (_ <=? _)%nat with false.
    + eexists. split; [done|]. unfold rsp_left. cbn. by apply cursor_left.
    + symmetry. apply Nat.leb_gt. destruct (decide (rsp_offset s < length (rsp_body s))%nat); [done|].
      destruct Hl. unfold rsp_left. apply drop_ge. lia.
Qed.
