(* ===== verification/GoBufio.v ===== *)
(** * Buffered reading

    What the program uses of package [bufio]: a [Reader] over a limited reader
    ([io.LimitReader]), [ReadSlice] and [ReadByte].  [pending] is the wire as the
    reader's user has yet to see it, however the source chunks it. *)

From S2P Require Import Prelude.
From S2P Require Import GoIO.

(** [br_buf] is the unread part of the buffer, [br_size] the buffer's length. *)
Record bufioReader := mkBufio {
  br_buf : list Z;
  br_err : option readErr;
  br_size : nat;
  br_limit : Z;
  br_src : script;
}.

Definition minReadBufferSize : nat := 16.

(** [bufio.NewReaderSize(io.LimitReader(reader, limit), size)] *)
Definition newReaderSize (src : script) (limit : Z) (size : nat) : bufioReader :=
  mkBufio [] None (Nat.max size minReadBufferSize) limit src.

(** One read of the limited source into the free space of the buffer. *)
Definition limitedRead (k : nat) (b : bufioReader) : readResult * bufioReader :=
  if br_limit b <=? 0 then (([], Some ioEOF), b) else
  let k' := if br_limit b <? Z.of_nat k then Z.to_nat (br_limit b) else k in
  match scriptRead k' (br_src b) with
  | Done ((got, e), src') =>
      ((got, e), mkBufio (br_buf b) (br_err b) (br_size b) (br_limit b - Z.of_nat (length got)) src')
  | _ => (([], None), b)
  end.

Definition maxConsecutiveEmptyReads : nat := 100.

(** [Reader.fill] *)
Fixpoint fillLoop (i : nat) (b : bufioReader) : bufioReader :=
  match i with
  | O => mkBufio (br_buf b) (Some ioNoProgress) (br_size b) (br_limit b) (br_src b)
  | S i' =>
      let '((got, e), b1) := limitedRead (br_size b - length (br_buf b)) b in
      let b2 := mkBufio (br_buf b1 ++ got) (br_err b1) (br_size b1) (br_limit b1) (br_src b1) in
      match e with
      | Some e => mkBufio (br_buf b2) (Some e) (br_size b2) (br_limit b2) (br_src b2)
      | None => if (0 <? length got)%nat then b2 else fillLoop i' b2
      end
  end.

Definition fill (b : bufioReader) : bufioReader := fillLoop maxConsecutiveEmptyReads b.

(** The bytes up to and including the first [delim], and the rest. *)
Fixpoint cutAt (delim : Z) (l : list Z) : option (list Z * list Z) :=
  match l with
  | [] => None
  | c :: tl =>
      if c =? delim then Some ([c], tl)
      else match cutAt delim tl with Some (a, r) => Some (c :: a, r) | None => None end
  end.

Definition withBuf (b : bufioReader) (buf : list Z) (err : option readErr) : bufioReader :=
  mkBufio buf err (br_size b) (br_limit b) (br_src b).

(** [Reader.ReadSlice] *)
Fixpoint ReadSlice (fuel : nat) (delim : Z) : M bufioReader readResult := fun b =>
  match fuel with
  | O => OutOfFuel
  | S fuel' =>
      match cutAt delim (br_buf b) with
      | Some (line, rest) => Done ((line, None), withBuf b rest (br_err b))
      | None =>
          match br_err b with
          | Some e => Done ((br_buf b, Some e), withBuf b [] None)
          | None =>
              if (br_size b <=? length (br_buf b))%nat
              then Done ((br_buf b, Some ioBufferFull), withBuf b [] (br_err b))
              else ReadSlice fuel' delim (fill b)
          end
      end
  end.

(** Every fill adds a byte to the buffer or records an error. *)
Definition sliceFuel (b : bufioReader) : nat := (br_size b + 3)%nat.

Definition readSlice (delim : Z) : M bufioReader readResult := fun b =>
  ReadSlice (sliceFuel b) delim b.

(** [Reader.ReadByte] *)
Fixpoint ReadByte_loop (fuel : nat) : M bufioReader (result readErr Z) := fun b =>
  match fuel with
  | O => OutOfFuel
  | S fuel' =>
      match br_buf b with
      | c :: rest => Done (Ok c, withBuf b rest (br_err b))
      | [] =>
          match br_err b with
          | Some e => Done (Err e, withBuf b [] None)
          | None => ReadByte_loop fuel' (fill b)
          end
      end
  end.

Definition ReadByte : M bufioReader (result readErr Z) := ReadByte_loop 3.

(** [Reader.ReadString]: slices up to the delimiter, past full buffers. *)
Fixpoint ReadString (fuel : nat) (delim : Z) (text : list Z) : M bufioReader readResult :=
  match fuel with
  | O => no_fuel
  | S fuel' =>
      '(fragment, err) ← readSlice delim;
      match err with
      | Some ioBufferFull => ReadString fuel' delim (text ++ fragment)
      | err => mret (text ++ fragment, err)
      end
  end.

(** [Reader.Read] into [k] bytes: at most one read of the source. *)
Definition bufio_Read (k : nat) : M bufioReader readResult := fun b =>
  match br_buf b with
  | _ :: _ => Done ((take k (br_buf b), None), withBuf b (drop k (br_buf b)) (br_err b))
  | [] =>
      if (k =? 0)%nat then Done (([], br_err b), withBuf b [] None)
      else
        match br_err b with
        | Some e => Done (([], Some e), withBuf b [] None)
        | None =>
            if (br_size b <=? k)%nat then let '(r, b) := limitedRead k b in Done (r, b)
            else
              let '((got, e), b) := limitedRead (br_size b) b in
              match got with
              | [] => Done (([], e), withBuf b [] None)
              | _ :: _ => Done ((take k got, None), withBuf b (drop k got) e)
              end
        end
  end.

(** ** The wire *)

(** What the limited source still has, and how it ends. *)
Definition source_data (b : bufioReader) : list Z := take (Z.to_nat (br_limit b)) (script_data (br_src b)).

(** The source ends before the limit. *)
Definition source_short (b : bufioReader) : Prop :=
  Z.of_nat (length (script_data (br_src b))) < br_limit b.

Definition clean_end (e : readErr) : option readErr :=
  match e with ioEOF => None | e => Some e end.

Definition pending (b : bufioReader) : list Z :=
  match br_err b with
  | None => br_buf b ++ source_data b
  | Some _ => br_buf b
  end.

Definition br_measure (b : bufioReader) : nat := (length (br_buf b) + script_size (br_src b))%nat.

Definition bufio_wf (b : bufioReader) : Prop :=
  (0 < br_size b)%nat /\ (length (br_buf b) <= br_size b)%nat /\ 0 <= br_limit b /\
  br_err b <> Some ioBufferFull.

(** No source reports bufio's own error. *)
Fixpoint script_plain (s : script) : Prop :=
  match s with
  | [] => True
  | (_, e) :: s' => e <> Some ioBufferFull /\ script_plain s'
  end.

Lemma cutAt_Some delim l a r :
  cutAt delim l = Some (a, r) -> l = a ++ r /\ exists a', a = a' ++ [delim] /\ delim ∉ a'.
Proof.
  revert a r. induction l as [|c tl IH]; intros a r; cbn; [done|].
  destruct (c =? delim) eqn:E; breflect.
  - intros [= <- <-]. subst. split; [done|]. exists []. split; [done|]. by apply not_elem_of_nil.
  - destruct (cutAt delim tl) as [[a0 r0]|]; [|done]. intros [= <- <-].
    destruct (IH _ _ eq_refl) as (-> & a' & -> & Hn). split; [done|].
    exists (c :: a'). split; [done|]. rewrite not_elem_of_cons. auto.
Qed.

Lemma cutAt_None delim l : cutAt delim l = None <-> delim ∉ l.
Proof.
  induction l as [|c tl IH]; cbn; [split; [intros _; by apply not_elem_of_nil|done]|].
  rewrite not_elem_of_cons. destruct (c =? delim) eqn:E; breflect.
  - split; [done|]. intros [? _]. congruence.
  - destruct (cutAt delim tl) as [[a r]|]; rewrite <- ?IH; split; try done.
    by intros [_ ?].
Qed.

Lemma cutAt_app delim a r : delim ∉ a -> cutAt delim (a ++ delim :: r) = Some (a ++ [delim], r).
Proof.
  induction a as [|c a IH]; cbn; [by rewrite Z.eqb_refl|]. rewrite not_elem_of_cons. intros [? ?].
  replace (c =? delim) with false by lia. by rewrite IH.
Qed.

(** One read moves bytes from the source to the reader. *)
Definition read_post (b : bufioReader) (got : list Z) (e : option readErr) (b' : bufioReader) : Prop :=
  match e with
  | None => source_data b = got ++ source_data b' /\ (source_short b <-> source_short b') /\
            script_err (br_src b) = script_err (br_src b') /\
            (script_size (br_src b') < script_size (br_src b))%nat
  | Some e => source_data b = got /\ e <> ioBufferFull /\
              (source_short b -> script_err (br_src b) = clean_end e)
  end.

Lemma scriptRead_plain k s r s' : script_plain s -> scriptRead k s = Done (r, s') ->
  script_plain s' /\ snd r <> Some ioBufferFull /\
  (length (fst r) + script_size s' <= script_size s)%nat.
Proof.
  destruct s as [|[c e] s]; cbn; [by intros _ [= <- <-]|]. intros [He Hs].
  case_match; intros [= <- <-]; unfold script_size; cbn; rewrite ?length_take, ?length_drop;
    (split; [done|split; [done|lia]]).
Qed.

Lemma limitedRead_spec k b got e b' :
  (0 < k)%nat -> 0 <= br_limit b -> script_plain (br_src b) -> limitedRead k b = ((got, e), b') ->
  br_buf b' = br_buf b /\ br_err b' = br_err b /\ br_size b' = br_size b /\
  br_limit b' = br_limit b - Z.of_nat (length got) /\ 0 <= br_limit b' /\
  script_plain (br_src b') /\ (length got <= k)%nat /\
  (length got + script_size (br_src b') <= script_size (br_src b))%nat /\ read_post b got e b'.
Proof.
  intros Hk Hl Hp. unfold limitedRead, read_post, source_data, source_short.
  destruct (br_limit b <=? 0) eqn:E0; breflect.
  { intros [= <- <- <-]. cbn. repeat split; try done; try lia.
    by replace (br_limit b) with 0 by lia. }
  set (k' := if br_limit b <? Z.of_nat k then Z.to_nat (br_limit b) else k).
  assert (0 < k')%nat by (unfold k'; case_match; breflect; lia).
  assert (Z.of_nat k' <= br_limit b) by (unfold k'; case_match; breflect; lia).
  assert (k' <= k)%nat by (unfold k'; case_match; breflect; lia).
  destruct (scriptRead_total k' (br_src b)) as [[[c ec] src'] Hr]. rewrite Hr.
  destruct (scriptRead_spec _ _ _ _ _ ltac:(done) Hr) as [Hlen Hpost].
  destruct (scriptRead_plain _ _ _ _ Hp Hr) as (Hp' & Hec & Hsize). cbn in Hec, Hsize.
  intros [= <- <- <-]. cbn [br_buf br_err br_size br_limit br_src].
  split_and!; try done; try lia. destruct ec as [ec|].
  - assert (script_data (br_src b) = c) as -> by (by destruct ec; destruct Hpost).
    split; [apply take_ge; lia|]. split; [by intros ->|]. intros _.
    by destruct ec; destruct Hpost as [_ ->].
  - destruct Hpost as (-> & He & Hsz). rewrite take_app_ge, length_app by lia.
    split; [do 2 f_equal; lia|]. split; [lia|]. done.
Qed.

(** ** [fill] *)

Definition fill_post (b b' : bufioReader) : Prop :=
  bufio_wf b' /\ script_plain (br_src b') /\ br_size b' = br_size b /\
  pending b' `prefix_of` pending b /\
  Z.of_nat (length (br_buf b')) + br_limit b' = Z.of_nat (length (br_buf b)) + br_limit b /\
  (length (br_buf b) <= length (br_buf b'))%nat /\
  (br_err b' = None -> (length (br_buf b) < length (br_buf b'))%nat) /\
  (br_measure b' <= br_measure b)%nat /\
  (br_err b' <> Some ioNoProgress ->
     pending b' = pending b /\
     match br_err b' with
     | None => (source_short b <-> source_short b') /\ script_err (br_src b) = script_err (br_src b')
     | Some e => source_short b -> script_err (br_src b) = clean_end e
     end).

Lemma fill_post_from b b2 b' :
  pending b = pending b2 -> br_size b2 = br_size b -> br_buf b2 = br_buf b ->
  br_limit b2 = br_limit b -> (script_size (br_src b2) <= script_size (br_src b))%nat ->
  (source_short b <-> source_short b2) -> script_err (br_src b) = script_err (br_src b2) ->
  fill_post b2 b' -> fill_post b b'.
Proof.
  intros Hp Hs Hb Hl Hsz Hshort Herr (Hwf & Hpl & H1 & H2 & H3 & H4 & H5 & H6 & H7).
  unfold fill_post, br_measure in *. rewrite Hb, Hs, Hl in *. rewrite Hp, Herr.
  split_and!; try done; try lia. intros Hn. destruct (H7 Hn) as [H8 H9]. split; [done|].
  destruct (br_err b'); [intros Hss; by apply H9, Hshort|]. by rewrite Hshort.
Qed.

Lemma fillLoop_spec i : forall b,
  bufio_wf b -> script_plain (br_src b) -> br_err b = None ->
  (length (br_buf b) < br_size b)%nat -> fill_post b (fillLoop i b).
Proof.
  induction i as [|i IH]; intros b (Hs & Hlen & Hlim & _) Hp He Hroom; cbn [fillLoop].
  { unfold fill_post, bufio_wf, pending, br_measure. cbn. rewrite He.
    split_and!; try done; try lia. by apply prefix_app_r. }
  destruct (limitedRead _ b) as [[got e] b1] eqn:Hr.
  destruct (limitedRead_spec (br_size b - length (br_buf b)) _ _ _ _ ltac:(lia) Hlim Hp Hr) as
    (Hb & He1 & Hs1 & Hl1 & Hl0 & Hp1 & Hg & Hsz & Hpost).
  cbn [br_buf br_err br_size br_limit br_src].
  assert (pending b = br_buf b ++ source_data b) as Hpend by (unfold pending; by rewrite He).
  destruct e as [e|]; [|destruct (0 <? length got)%nat eqn:Hgot].
  - destruct Hpost as (Hd & Hne & Hshort). unfold fill_post, bufio_wf, br_measure.
    rewrite Hpend, Hd. unfold pending. cbn [br_buf br_err br_size br_limit br_src]. rewrite Hb, Hs1, length_app.
    split_and!; try done; try lia. congruence.
  - apply Nat.ltb_lt in Hgot. destruct Hpost as (Hd & Hshort & Herr & Hsz').
    unfold fill_post, bufio_wf, br_measure.
    rewrite Hpend, Hd. unfold pending. cbn [br_buf br_err br_size br_limit br_src]. rewrite He1, He, Hb, Hs1, length_app.
    assert (br_buf b ++ got ++ source_data b1 =
      (br_buf b ++ got) ++ source_data (mkBufio (br_buf b ++ got) None (br_size b) (br_limit b1) (br_src b1)))
      as Heq by (rewrite <- app_assoc; done).
    split_and!; try done; try lia. by rewrite Heq.
  - apply Nat.ltb_ge in Hgot. destruct got; [|cbn in Hgot; lia].
    destruct Hpost as (Hd & Hshort & Herr & Hsz'). cbn in Hd. rewrite app_nil_r.
    set (b2 := mkBufio _ _ _ _ _).
    assert (pending b = pending b2) as Hpb.
    { rewrite Hpend. unfold pending, b2. cbn. rewrite He1, He, Hb, Hd. done. }
    apply (fill_post_from b b2); unfold b2; cbn [br_buf br_err br_size br_limit br_src]; try done;
      try (cbn in Hl1; lia).
    apply IH; cbn [br_buf br_err br_size br_limit br_src]; [|done|congruence|by rewrite Hb, Hs1].
    unfold bufio_wf. cbn [br_buf br_err br_size br_limit br_src]. rewrite Hb, Hs1, He1, He. done.
Qed.

Lemma fill_spec b :
  bufio_wf b -> script_plain (br_src b) -> br_err b = None ->
  (length (br_buf b) < br_size b)%nat -> fill_post b (fill b).
Proof. apply fillLoop_spec. Qed.

(** ** The invariant of a reader

    [bufio_inv s0 L0 consumed b]: [b] was made over [s0] with the limit [L0], and
    its user has been given [consumed] so far. *)

Definition wire (s0 : script) (L0 : Z) : list Z := take (Z.to_nat L0) (script_data s0).

(** Given the whole wire, the error [e] is how the source ended. *)
Definition ends_with (s0 : script) (L0 : Z) (e : readErr) : Prop :=
  Z.of_nat (length (script_data s0)) < L0 -> script_err s0 = clean_end e.

Record bufio_inv (s0 : script) (L0 : Z) (consumed : list Z) (b : bufioReader) : Prop := {
  bi_wf : bufio_wf b;
  bi_plain : script_plain (br_src b);
  bi_limit : Z.of_nat (length consumed) + Z.of_nat (length (br_buf b)) + br_limit b = L0;
  bi_prefix : (consumed ++ pending b) `prefix_of` wire s0 L0;
  bi_open : br_err b = None ->
    consumed ++ pending b = wire s0 L0 /\
    (Z.of_nat (length (script_data s0)) < L0 <-> source_short b) /\
    script_err (br_src b) = script_err s0;
  bi_end : forall e, br_err b = Some e -> e <> ioNoProgress ->
    consumed ++ pending b = wire s0 L0 /\ ends_with s0 L0 e;
}.

Lemma newReaderSize_inv s0 L0 size :
  0 <= L0 -> script_plain s0 -> bufio_inv s0 L0 [] (newReaderSize s0 L0 size).
Proof.
  intros HL Hp. unfold newReaderSize, minReadBufferSize.
  split; unfold bufio_wf, pending, source_data, source_short, wire;
    cbn [br_buf br_err br_size br_limit br_src app length]; try done; try lia.
  split_and!; done || lia.
Qed.

Lemma fill_inv s0 L0 consumed b :
  bufio_inv s0 L0 consumed b -> br_err b = None -> (length (br_buf b) < br_size b)%nat ->
  bufio_inv s0 L0 consumed (fill b).
Proof.
  intros [Hwf Hp Hl Hpre Hopen Hend] He Hroom.
  destruct (fill_spec b Hwf Hp He Hroom) as (Hwf' & Hp' & _ & Hpre' & Hsum & _ & _ & _ & Hrest).
  destruct (Hopen He) as (Hw & Hs & Herr).
  split; [done|done|lia| | |].
  - transitivity (consumed ++ pending b); [by apply prefix_app|done].
  - intros He'. rewrite He' in Hrest. destruct (Hrest ltac:(done)) as (-> & Hs' & He2).
    split; [done|]. split; [by rewrite Hs|congruence].
  - intros e He' Hne. rewrite He' in Hrest. destruct (Hrest ltac:(by intros [= ->])) as (-> & He2).
    split; [done|]. intros Hlt. rewrite <- Herr. by apply He2, Hs.
Qed.

(** ** [ReadSlice] and [ReadByte] *)

Definition read_slice_post (s0 : script) (L0 : Z) (consumed : list Z) (b : bufioReader)
    (delim : Z) (r : readResult) (b' : bufioReader) : Prop :=
  let '(line, e) := r in
  br_size b' = br_size b /\ (length line + br_measure b' <= br_measure b)%nat /\
  (consumed ++ line) `prefix_of` wire s0 L0 /\
  match e with
  | None => bufio_inv s0 L0 (consumed ++ line) b' /\ exists l, line = l ++ [delim] /\ delim ∉ l
  | Some ioBufferFull =>
      bufio_inv s0 L0 (consumed ++ line) b' /\ (delim ∉ line) /\ (0 < length line)%nat
  | Some ioNoProgress => delim ∉ line
  | Some e => (delim ∉ line) /\ consumed ++ line = wire s0 L0 /\ ends_with s0 L0 e
  end.

(** Taking the front of the buffer. *)
Lemma take_inv s0 L0 consumed b line rest :
  bufio_inv s0 L0 consumed b -> br_buf b = line ++ rest ->
  bufio_inv s0 L0 (consumed ++ line) (withBuf b rest (br_err b)).
Proof.
  intros [Hwf Hp Hl Hpre Hopen Hend] Hb.
  assert ((consumed ++ line) ++ pending (withBuf b rest (br_err b)) = consumed ++ pending b) as Hpend.
  { unfold pending. cbn. rewrite Hb. by destruct (br_err b); rewrite <- !app_assoc. }
  rewrite Hb, length_app in Hl. destruct Hwf as (H1 & H2 & H3 & H4).
  rewrite Hb, length_app in H2.
  split; cbn; [|done| | | |].
  - unfold bufio_wf. cbn. repeat split; try done; lia.
  - rewrite length_app. lia.
  - by rewrite Hpend.
  - intros He. rewrite Hpend. by apply Hopen.
  - intros e He Hne. rewrite Hpend. by apply Hend.
Qed.

Lemma pending_buf_prefix s0 L0 consumed b line rest :
  bufio_inv s0 L0 consumed b -> br_buf b = line ++ rest -> (consumed ++ line) `prefix_of` wire s0 L0.
Proof.
  intros [_ _ _ Hpre _ _] Hb. etransitivity; [|exact Hpre]. apply prefix_app.
  unfold pending. rewrite Hb. destruct (br_err b); rewrite <- ?app_assoc; by apply prefix_app_r.
Qed.

Lemma ReadSlice_spec s0 L0 consumed delim fuel : forall b,
  bufio_inv s0 L0 consumed b -> (0 < fuel)%nat ->
  (br_err b = None -> (br_size b + 2 <= fuel + length (br_buf b))%nat) ->
  exists r b', ReadSlice fuel delim b = Done (r, b') /\ read_slice_post s0 L0 consumed b delim r b'.
Proof.
  induction fuel as [|fuel IH]; intros b Hinv Hf0 Hf; [lia|]. cbn [ReadSlice].
  destruct (cutAt delim (br_buf b)) as [[line rest]|] eqn:Hc.
  { apply cutAt_Some in Hc as (Hb & l & -> & Hn). eexists _, _. split; [done|].
    unfold read_slice_post. split; [done|]. split; [unfold br_measure, withBuf; cbn [br_buf br_src]; rewrite Hb, !length_app; lia|].
    split; [by eapply pending_buf_prefix|]. split; [by apply take_inv|eauto]. }
  apply cutAt_None in Hc. pose proof Hinv as [Hwf Hp Hl Hpre Hopen Hend].
  assert (br_buf b = br_buf b ++ []) as Hnil by by rewrite app_nil_r.
  destruct (br_err b) as [e|] eqn:He.
  { eexists _, _. split; [done|]. unfold read_slice_post. split; [done|]. split; [unfold br_measure, withBuf; cbn [br_buf br_src length]; lia|].
    split; [by eapply pending_buf_prefix|].
    assert (e <> ioBufferFull) by (destruct Hwf as (_ & _ & _ & ?); congruence).
    unfold pending in Hend. rewrite He in Hend.
    destruct e; try done; (split; [done|]); by apply Hend. }
  destruct (br_size b <=? length (br_buf b))%nat eqn:Hfull.
  { apply Nat.leb_le in Hfull. eexists _, _. split; [done|]. unfold read_slice_post. split; [done|].
    split; [unfold br_measure, withBuf; cbn [br_buf br_src length]; lia|]. split; [by eapply pending_buf_prefix|].
    split; [|split; [done|destruct Hwf; lia]].
    rewrite <- He. by apply take_inv. }
  apply Nat.leb_gt in Hfull.
  destruct (fill_spec b Hwf Hp He Hfull) as (_ & _ & Hsize & _ & _ & Hle & Hlt & Hm & _).
  specialize (Hf eq_refl).
  destruct (IH (fill b)) as (r & b' & Hrun & Hpost); [by apply fill_inv|lia|intros Hn; specialize (Hlt Hn); lia|].
  exists r, b'. split; [done|]. destruct r as [line e]. destruct Hpost as (H1 & H2 & H3).
  split; [congruence|]. split; [lia|done].
Qed.

Lemma readSlice_spec s0 L0 consumed delim b :
  bufio_inv s0 L0 consumed b ->
  exists r b', readSlice delim b = Done (r, b') /\ read_slice_post s0 L0 consumed b delim r b'.
Proof. intros Hinv. apply ReadSlice_spec; [done|unfold sliceFuel; lia|unfold sliceFuel; lia]. Qed.

Definition read_byte_post (s0 : script) (L0 : Z) (consumed : list Z) (r : result readErr Z)
    (b' : bufioReader) : Prop :=
  match r with
  | Ok c => bufio_inv s0 L0 (consumed ++ [c]) b'
  | Err ioNoProgress => True
  | Err e => consumed = wire s0 L0 /\ ends_with s0 L0 e
  end.

Lemma ReadByte_now s0 L0 consumed fuel b :
  bufio_inv s0 L0 consumed b -> (0 < fuel)%nat -> br_buf b <> [] \/ br_err b <> None ->
  exists r b', ReadByte_loop fuel b = Done (r, b') /\ read_byte_post s0 L0 consumed r b'.
Proof.
  intros Hinv Hf Hor. destruct fuel as [|fuel]; [lia|]. cbn [ReadByte_loop].
  destruct (br_buf b) as [|c rest] eqn:Hb.
  - destruct (br_err b) as [e|] eqn:He; [|by destruct Hor]. eexists _, _. split; [done|].
    destruct (decide (e = ioNoProgress)) as [->|Hne]; [done|].
    destruct (bi_end _ _ _ _ Hinv e He Hne) as [H1 H2].
    unfold pending in H1. rewrite He, Hb, app_nil_r in H1. by destruct e.
  - eexists _, _. split; [done|]. cbn. by apply take_inv.
Qed.

Lemma ReadByte_spec s0 L0 consumed b :
  bufio_inv s0 L0 consumed b ->
  exists r b', ReadByte b = Done (r, b') /\ read_byte_post s0 L0 consumed r b'.
Proof.
  intros Hinv. unfold ReadByte.
  destruct (br_buf b) as [|c rest] eqn:Hb; [|apply ReadByte_now; [done|lia|left; congruence]].
  destruct (br_err b) as [e|] eqn:He; [apply ReadByte_now; [done|lia|right; congruence]|].
  change (ReadByte_loop 3 b) with
    (match br_buf b with
     | c :: rest => Done (Ok c, withBuf b rest (br_err b))
     | [] => match br_err b with
             | Some e => Done (Err e, withBuf b [] None)
             | None => ReadByte_loop 2 (fill b)
             end
     end). rewrite Hb, He.
  assert (length (br_buf b) < br_size b)%nat as Hroom
    by (rewrite Hb; destruct (bi_wf _ _ _ _ Hinv); cbn; lia).
  apply ReadByte_now; [by apply fill_inv|lia|].
  destruct (fill_spec b (bi_wf _ _ _ _ Hinv) (bi_plain _ _ _ _ Hinv) He Hroom)
    as (_ & _ & _ & _ & _ & _ & Hlt & _).
  destruct (br_err (fill b)); [by right|left]. specialize (Hlt eq_refl).
  destruct (br_buf (fill b)); [cbn in Hlt; lia|done].
Qed.
