(* ===== verification/ContractSSE.v ===== *)
(** * Event streams

    Package [contract], [sse.go]: limits, the decoder of one strict event stream
    ([Next], [VerifyEOF]) over a buffered reader, the byte accounting, and the
    validation of one chunk. *)

From S2P Require Import Prelude.
From S2P Require Import GoJson.
From S2P Require Import GoIO.
From S2P Require Import GoBufio.
From S2P Require Import ContractScan.
From S2P Require Import ContractRequest.
From S2P Require Import ContractResponse.

Definition AbsoluteMaxSSETotalBytes : Z := 1073741824.
Definition AbsoluteMaxSSEEventBytes : Z := AbsoluteMaxResponseBodyBytes.
Definition AbsoluteMaxSSEEvents : Z := 1048576.
Definition chatCompletionChunkObject : list Z := bs "chat.completion.chunk".
Definition sseReadBufferBytes : Z := 4096.

(** The lengths of [minimumSSEChunkEvent] and [minimumSSEDoneEvent]; the
    quotation marks and line feeds are written as other characters. *)
Definition minimumSSEChunkEvent : string := "data: {'object':'chat.completion.chunk'}nn".
Definition minimumSSEDoneEvent : string := "data: [DONE]nn".

Record SSELimits := mkSSELimits {
  sse_MaxTotalBytes : Z;
  sse_MaxEventBytes : Z;
  sse_MaxEvents : Z;
}.

Inductive SSEEventKind := SSEEventKindChunk | SSEEventKindDone.

Inductive SSEReason :=
| SSEReasonTotalBytesLimit | SSEReasonEventBytesLimit | SSEReasonEventCountLimit
| SSEReasonBodyReadFailure | SSEReasonInvalidUTF8 | SSEReasonInvalidLineEnding
| SSEReasonEmptyEvent | SSEReasonUnsupportedField | SSEReasonMultipleFields
| SSEReasonEmptyData | SSEReasonInvalidUnicodeEscape | SSEReasonMalformedJSON
| SSEReasonTrailingJSON | SSEReasonDuplicateKey | SSEReasonNestingLimit
| SSEReasonRootNotObject | SSEReasonMissingObject | SSEReasonWrongObjectType
| SSEReasonUnsupportedObject | SSEReasonDoneBeforeChunk | SSEReasonTruncatedEvent
| SSEReasonMissingDone | SSEReasonTrailingData.

(** The message of a reason; no data of the caller is in it. *)
Definition SSEError_Error (reason : SSEReason) : string :=
  match reason with
  | SSEReasonTotalBytesLimit => "upstream SSE stream exceeds its configured byte limit"
  | SSEReasonEventBytesLimit => "upstream SSE event exceeds its configured byte limit"
  | SSEReasonEventCountLimit => "upstream SSE stream exceeds its configured event limit"
  | SSEReasonBodyReadFailure => "upstream SSE stream could not be read"
  | SSEReasonInvalidUTF8 => "upstream SSE event is not valid UTF-8"
  | SSEReasonInvalidLineEnding => "upstream SSE event has an unsupported line ending"
  | SSEReasonEmptyEvent => "upstream SSE stream contains an empty event"
  | SSEReasonUnsupportedField => "upstream SSE event contains an unsupported field"
  | SSEReasonMultipleFields => "upstream SSE event contains more than one field"
  | SSEReasonEmptyData => "upstream SSE event contains empty data"
  | SSEReasonInvalidUnicodeEscape => "upstream SSE event contains an unpaired Unicode surrogate"
  | SSEReasonMalformedJSON => "upstream SSE event data is not one valid JSON value"
  | SSEReasonTrailingJSON => "upstream SSE event data contains a trailing JSON value"
  | SSEReasonDuplicateKey => "upstream SSE event data contains a duplicate object key"
  | SSEReasonNestingLimit => "upstream SSE event data exceeds the JSON nesting limit"
  | SSEReasonRootNotObject => "upstream SSE event data root must be an object"
  | SSEReasonMissingObject => "upstream SSE event data is missing its object field"
  | SSEReasonWrongObjectType => "upstream SSE event object field has the wrong JSON type"
  | SSEReasonUnsupportedObject => "upstream SSE event object field has an unsupported value"
  | SSEReasonDoneBeforeChunk => "upstream SSE stream ended before a completion chunk"
  | SSEReasonTruncatedEvent => "upstream SSE stream ended inside an event"
  | SSEReasonMissingDone => "upstream SSE stream ended before its terminal marker"
  | SSEReasonTrailingData => "upstream SSE stream contains data after its terminal marker"
  end.

(** What [Next] and [VerifyEOF] fail with. *)
Inductive sseFailure :=
| SSEError (reason : SSEReason)
| SSEContext (e : ctxError)
| errSSEVerifyEOFRequired
| sseEOF.

Record ValidatedSSEEvent := mkSSEEvent { ev_kind : SSEEventKind; ev_body : list Z }.

Inductive sseDecoderState :=
| sseDecoderOpen | sseDecoderDoneReturned | sseDecoderVerified | sseDecoderFailed.

#[global] Instance sseDecoderState_eq_dec : EqDecision sseDecoderState.
Proof. solve_decision. Defined.

Record SSEDecoder := mkSSEDecoder {
  sd_reader : bufioReader;
  sd_limits : SSELimits;
  sd_state : sseDecoderState;
  sd_totalBytes : Z;
  sd_events : Z;
  sd_chunks : Z;
  sd_failure : option sseFailure;
}.

Definition ValidateSSELimits (l : SSELimits) : result string unit :=
  _ ← guard_err (sse_MaxTotalBytes l =? 0) "maximum SSE total bytes must be positive";
  _ ← guard_err ((AbsoluteMaxSSETotalBytes <? sse_MaxTotalBytes l) || (maxInt <=? sse_MaxTotalBytes l))
        "maximum SSE total bytes exceeds its hard safety limit";
  _ ← guard_err (sse_MaxEventBytes l =? 0) "maximum SSE event bytes must be positive";
  _ ← guard_err ((AbsoluteMaxSSEEventBytes <? sse_MaxEventBytes l) || (maxInt <=? sse_MaxEventBytes l))
        "maximum SSE event bytes exceeds its hard safety limit";
  _ ← guard_err (sse_MaxTotalBytes l <? sse_MaxEventBytes l)
        "maximum SSE event bytes exceeds the total byte limit";
  _ ← guard_err (sse_MaxEvents l <? 2) "maximum SSE events must fit a chunk and terminal event";
  _ ← guard_err ((AbsoluteMaxSSEEvents <? sse_MaxEvents l) || (maxInt <? sse_MaxEvents l))
        "maximum SSE events exceeds its hard safety limit";
  let minimumEventBytes :=
    Z.of_nat (Nat.max (String.length minimumSSEChunkEvent) (String.length minimumSSEDoneEvent)) in
  _ ← guard_err (sse_MaxEventBytes l <? minimumEventBytes)
        "maximum SSE event bytes cannot fit the smallest valid event";
  let minimumTotalBytes :=
    Z.of_nat (String.length minimumSSEChunkEvent + String.length minimumSSEDoneEvent) in
  guard_err (sse_MaxTotalBytes l <? minimumTotalBytes)
    "maximum SSE total bytes cannot fit the smallest valid stream".

Definition NewSSEDecoder (src : script) (l : SSELimits) : result string SSEDecoder :=
  _ ← ValidateSSELimits l;
  let readBufferBytes :=
    Z.min sseReadBufferBytes
      (Z.min (int64 (sse_MaxEventBytes l +u 1)) (int64 (sse_MaxTotalBytes l +u 1))) in
  Ok (mkSSEDecoder
        (newReaderSize src (int64 (sse_MaxTotalBytes l +u 1)) (Z.to_nat readBufferBytes))
        l sseDecoderOpen 0 0 0 None).

(** ** State passing *)

Abbreviation sseM A := (M (Context * SSEDecoder) A) (only parsing).

Definition sse_Err : sseM (option ctxError) := fun s =>
  let '(e, c) := ctxErr (fst s) in Done (e, (c, snd s)).

Definition setReader (d : SSEDecoder) (r : bufioReader) : SSEDecoder :=
  mkSSEDecoder r (sd_limits d) (sd_state d) (sd_totalBytes d) (sd_events d) (sd_chunks d) (sd_failure d).

Definition setTotal (total : Z) (d : SSEDecoder) : SSEDecoder :=
  mkSSEDecoder (sd_reader d) (sd_limits d) (sd_state d) total (sd_events d) (sd_chunks d) (sd_failure d).

Definition onReader {A} (m : M bufioReader A) : sseM A := fun s =>
  match m (sd_reader (snd s)) with
  | Done (a, r) => Done (a, (fst s, setReader (snd s) r))
  | Panicked e => Panicked e
  | OutOfFuel => OutOfFuel
  end.

(** A step that leaves the context alone. *)
Definition onDecoder (f : SSEDecoder -> SSEDecoder) : sseM unit := modify (fun s => (fst s, f (snd s))).
Definition decoder {A} (f : SSEDecoder -> A) : sseM A := gets (fun s => f (snd s)).

(** [d.fail(err)], returned as an error *)
Definition fail {A} (e : sseFailure) : sseM (result sseFailure A) :=
  _ ← onDecoder (fun d => mkSSEDecoder (sd_reader d) (sd_limits d) sseDecoderFailed
                    (sd_totalBytes d) (sd_events d) (sd_chunks d) (Some e));
  mret (Err e).

(** ** Accounting *)

(** [accountBytes(count, eventBytes)]; [None] is the nil pointer.  On success
    the event's bytes are returned. *)
Definition accountBytes (count : Z) (eventBytes : option Z) : sseM (result SSEReason Z) :=
  totalBytes ← decoder sd_totalBytes;
  lim ← decoder sd_limits;
  let '(total, carry) := add64 totalBytes count in
  if negb (carry =? 0) || (sse_MaxTotalBytes lim <? total) then mret (Err SSEReasonTotalBytesLimit) else
  match eventBytes with
  | None => _ ← onDecoder (setTotal total); mret (Ok 0)
  | Some bytes =>
      let '(event, eventCarry) := add64 bytes count in
      if negb (eventCarry =? 0) || (sse_MaxEventBytes lim <? event)
      then mret (Err SSEReasonEventBytesLimit)
      else _ ← onDecoder (setTotal total); mret (Ok event)
  end.

(** The event's bytes so far and the capacity of the slice that holds them. *)
Record sseRaw := mkSSERaw { raw_bytes : list Z; raw_cap : Z }.

Definition appendSSEBytes (destination : sseRaw) (source : list Z) (maximum : Z) : sseRaw :=
  let needed := Z.of_nat (length (raw_bytes destination)) + Z.of_nat (length source) in
  let cap :=
    if raw_cap destination <? needed
    then Z.min (Z.max (raw_cap destination * 2) needed) maximum
    else raw_cap destination in
  mkSSERaw (raw_bytes destination ++ source) cap.

(** ** Lines *)

Record sseLine := mkSSELine { line_content : list Z; line_invalidEnding : bool }.

(** Errors of [readSSELine]: the end of the input, or a failure. *)
Inductive lineError := lineEOF | lineFailure (e : sseFailure).

Definition byteIn (c : Z) (l : list Z) : bool := existsb (fun b => b =? c) l.

(** The line without its ending: [text] is the bytes from its start, the line
    feed included. *)
Definition lineContent (text : list Z) : list Z :=
  let body := removelast text in
  match last body with
  | Some c => if c =? c_cr then removelast body else body
  | None => body
  end.

Fixpoint readSSELine_loop (fuel : nat) (start : nat) (raw : sseRaw) (eventBytes : Z)
  : sseM (result lineError (sseLine * sseRaw * Z)) :=
  match fuel with
  | O => no_fuel
  | S fuel' =>
      err ← sse_Err;
      match err with
      | Some e => mret (Err (lineFailure (SSEContext e)))
      | None =>
          '(fragment, readErr) ← onReader (readSlice c_lf);
          accounted ← accountBytes (Z.of_nat (length fragment)) (Some eventBytes);
          match accounted with
          | Err reason => mret (Err (lineFailure (SSEError reason)))
          | Ok event =>
              err ← sse_Err;
              match err with
              | Some e => mret (Err (lineFailure (SSEContext e)))
              | None =>
                  lim ← decoder sd_limits;
                  let raw' := appendSSEBytes raw fragment (sse_MaxEventBytes lim) in
                  let text := drop start (raw_bytes raw') in
                  match readErr with
                  | None =>
                      let content := lineContent text in
                      mret (Ok (mkSSELine content (byteIn c_cr content), raw', event))
                  | Some ioBufferFull => readSSELine_loop fuel' start raw' event
                  | Some ioEOF =>
                      if bool_decide (text = []) then mret (Err lineEOF)
                      else if byteIn c_cr text
                      then mret (Err (lineFailure (SSEError SSEReasonInvalidLineEnding)))
                      else mret (Err (lineFailure (SSEError SSEReasonTruncatedEvent)))
                  | Some _ => mret (Err (lineFailure (SSEError SSEReasonBodyReadFailure)))
                  end
              end
          end
      end
  end.

(** Every fragment but the last consumes a full buffer. *)
Definition readSSELine (raw : sseRaw) (eventBytes : Z)
  : sseM (result lineError (sseLine * sseRaw * Z)) := fun s =>
  readSSELine_loop (S (br_measure (sd_reader (snd s)))) (length (raw_bytes raw)) raw eventBytes s.

(** [bytes.Cut(line, ":")] and the optional space. *)
Definition sseDataValue (line : list Z) : option (list Z) :=
  match cutAt c_colon line with
  | None => None
  | Some (field, value) =>
      if negb (bool_decide (removelast field = bs "data")) then None else
      match value with
      | c :: rest => if c =? c_space then Some rest else Some value
      | [] => Some []
      end
  end.

(** ** Chunks *)

Definition sseReasonFromJSON (reason : Reason) : SSEReason :=
  match reason with
  | ReasonTrailingJSON => SSEReasonTrailingJSON
  | ReasonDuplicateKey => SSEReasonDuplicateKey
  | ReasonNestingLimit => SSEReasonNestingLimit
  | _ => SSEReasonMalformedJSON
  end.

Definition sseReasons : objectReasons SSEReason :=
  mkObjectReasons SSEReasonMalformedJSON SSEReasonRootNotObject SSEReasonMissingObject
    SSEReasonWrongObjectType SSEReasonUnsupportedObject sseReasonFromJSON.

Definition validateSSEChunkObject (body : list Z) : M Context (option SSEReason) :=
  validateObject sseReasons chatCompletionChunkObject body.

(** [if ctx.Err() != nil { return 0 }] before a reason is returned *)
Definition unlessCanceled (reason : SSEReason) : M Context (option SSEReason) :=
  err ← pollSelf;
  mret (match err with Some _ => None | None => Some reason end).

Definition validateSSEChunk (body : list Z) : M Context (option SSEReason) :=
  if negb (utf8_valid body) then mret (Some SSEReasonInvalidUTF8) else
  valid ← validUnicodeEscapes body;
  if negb valid then unlessCanceled SSEReasonInvalidUnicodeEscape else
  reason ← validateJSONDocument body maxJSONDepth;
  match reason with
  | Some r => unlessCanceled (sseReasonFromJSON r)
  | None => validateSSEChunkObject body
  end.

(** ** [Next] *)

Definition countEvent (d : SSEDecoder) : SSEDecoder :=
  mkSSEDecoder (sd_reader d) (sd_limits d) (sd_state d) (sd_totalBytes d)
    (sd_events d +u 1) (sd_chunks d) (sd_failure d).

Definition countChunk (d : SSEDecoder) : SSEDecoder :=
  mkSSEDecoder (sd_reader d) (sd_limits d) (sd_state d) (sd_totalBytes d)
    (sd_events d) (sd_chunks d +u 1) (sd_failure d).

Definition setState (st : sseDecoderState) (d : SSEDecoder) : SSEDecoder :=
  mkSSEDecoder (sd_reader d) (sd_limits d) st (sd_totalBytes d)
    (sd_events d) (sd_chunks d) (sd_failure d).

Definition doneMarker : list Z := bs "[DONE]".

(** The checks of [Next] on one line; [eof] is what the end of the input means. *)
Definition nextLine (raw : sseRaw) (eventBytes : Z) (eof : SSEReason)
  : sseM (result sseFailure (sseLine * sseRaw * Z)) :=
  read ← readSSELine raw eventBytes;
  match read with
  | Err lineEOF => fail (SSEError eof)
  | Err (lineFailure e) => fail e
  | Ok (line, raw', event) =>
      if negb (utf8_valid (raw_bytes raw')) then fail (SSEError SSEReasonInvalidUTF8)
      else if line_invalidEnding line then fail (SSEError SSEReasonInvalidLineEnding)
      else mret (Ok (line, raw', event))
  end.

(** [Next] once the event's lines are read. *)
Definition nextEvent (payload body : list Z) : sseM (result sseFailure ValidatedSSEEvent) :=
  _ ← onDecoder countEvent;
  if bool_decide (payload = doneMarker) then
    chunks ← decoder sd_chunks;
    if chunks =? 0 then fail (SSEError SSEReasonDoneBeforeChunk) else
    _ ← onDecoder (setState sseDecoderDoneReturned);
    mret (Ok (mkSSEEvent SSEEventKindDone body))
  else
    reason ← onCtx (validateSSEChunk payload);
    match reason with
    | Some r =>
        err ← sse_Err;
        match err with
        | Some e => fail (SSEContext e)
        | None => fail (SSEError r)
        end
    | None =>
        err ← sse_Err;
        match err with
        | Some e => fail (SSEContext e)
        | None =>
            _ ← onDecoder countChunk;
            mret (Ok (mkSSEEvent SSEEventKindChunk body))
        end
    end.

(** [Next] from an open decoder. *)
Definition nextOpen : sseM (result sseFailure ValidatedSSEEvent) :=
  err ← sse_Err;
  match err with
  | Some e => fail (SSEContext e)
  | None =>
      events ← decoder sd_events;
      lim ← decoder sd_limits;
      if sse_MaxEvents lim <=? events then fail (SSEError SSEReasonEventCountLimit) else
      let raw := mkSSERaw [] (Z.min (sse_MaxEventBytes lim) sseReadBufferBytes) in
      first ← nextLine raw 0 SSEReasonMissingDone;
      match first with
      | Err e => mret (Err e)
      | Ok (first, raw, eventBytes) =>
          if bool_decide (line_content first = []) then fail (SSEError SSEReasonEmptyEvent) else
          match sseDataValue (line_content first) with
          | None => fail (SSEError SSEReasonUnsupportedField)
          | Some payload =>
              second ← nextLine raw eventBytes SSEReasonTruncatedEvent;
              match second with
              | Err e => mret (Err e)
              | Ok (second, raw, _) =>
                  if negb (bool_decide (line_content second = []))
                  then fail (SSEError SSEReasonMultipleFields)
                  else if bool_decide (payload = []) then fail (SSEError SSEReasonEmptyData)
                  else nextEvent payload (raw_bytes raw)
              end
          end
      end
  end.

Definition Next : sseM (result sseFailure ValidatedSSEEvent) :=
  st ← decoder sd_state;
  match st with
  | sseDecoderDoneReturned => mret (Err errSSEVerifyEOFRequired)
  | sseDecoderVerified => mret (Err sseEOF)
  | sseDecoderFailed =>
      failure ← decoder sd_failure;
      mret (Err (default sseEOF failure))
  | sseDecoderOpen => nextOpen
  end.

(** ** [VerifyEOF] *)

Definition verifyDone : sseM (result sseFailure unit) :=
  err ← sse_Err;
  match err with
  | Some e => fail (SSEContext e)
  | None =>
      byte ← onReader ReadByte;
      match byte with
      | Ok _ =>
          accounted ← accountBytes 1 None;
          match accounted with
          | Err reason => fail (SSEError reason)
          | Ok _ =>
              err ← sse_Err;
              match err with
              | Some e => fail (SSEContext e)
              | None => fail (SSEError SSEReasonTrailingData)
              end
          end
      | Err readErr =>
          err ← sse_Err;
          match err with
          | Some e => fail (SSEContext e)
          | None =>
              if negb (bool_decide (readErr = ioEOF)) then fail (SSEError SSEReasonBodyReadFailure)
              else _ ← onDecoder (setState sseDecoderVerified); mret (Ok tt)
          end
      end
  end.

Definition VerifyEOF : sseM (result sseFailure unit) :=
  st ← decoder sd_state;
  match st with
  | sseDecoderVerified => mret (Ok tt)
  | sseDecoderFailed =>
      failure ← decoder sd_failure;
      match failure with Some e => mret (Err e) | None => mret (Ok tt) end
  | sseDecoderOpen => fail (SSEError SSEReasonMissingDone)
  | sseDecoderDoneReturned => verifyDone
  end.
