(* ===== verification/ContractStream.v ===== *)
(** * Correctness of the event-stream decoder

    The invariant that ties a decoder to the wire it was made over and to the
    events it has returned, and that [Next] and [VerifyEOF] always return and
    preserve it. *)

From S2P Require Import Prelude.
From S2P Require Import GoJson.
From S2P Require Import JsonGrammar.
From S2P Require Import GoIO.
From S2P Require Import GoBufio.
From S2P Require Import ContractScan.
From S2P Require Import ContractRequest.
From S2P Require Import ContractDecode.
From S2P Require Import ContractParse.
From S2P Require Import ContractResponse.
From S2P Require Import ContractSSE.

(** ** Limits *)

Record sse_limits_ok (l : SSELimits) : Prop := {
  sl_total : 0 < sse_MaxTotalBytes l <= AbsoluteMaxSSETotalBytes;
  sl_event : 0 < sse_MaxEventBytes l <= sse_MaxTotalBytes l;
  sl_events : 2 <= sse_MaxEvents l <= AbsoluteMaxSSEEvents;
}.

Lemma ValidateSSELimits_ok l :
  is_u64 (sse_MaxTotalBytes l) -> is_u64 (sse_MaxEventBytes l) ->
  ValidateSSELimits l = Ok tt -> sse_limits_ok l.
Proof.
  intros Hu1 Hu2 H. unfold ValidateSSELimits in H. unfold is_u64 in *.
  do 7 (apply guard_err_Ok in H as [? H]). breflect. split; lia.
Qed.

Lemma sse_int64 l : sse_limits_ok l ->
  int64 (sse_MaxTotalBytes l +u 1) = sse_MaxTotalBytes l + 1.
Proof.
  intros [Ht _ _]. unfold AbsoluteMaxSSETotalBytes in Ht. unfold int64.
  rewrite (u64_small (_ + 1)) by (unfold is_u64, two64; lia).
  rewrite u64_small by (unfold is_u64, two64; lia).
  unfold two63. case_match; breflect; [done|lia].
Qed.

(** ** A live decoder *)

(** [d] has handed over [consumed] of the wire of [s0] and accounted for it. *)
Record live (s0 : script) (lim : SSELimits) (consumed : list Z) (d : SSEDecoder) : Prop := {
  lv_limits : sd_limits d = lim;
  lv_reader : bufio_inv s0 (sse_MaxTotalBytes lim + 1) consumed (sd_reader d);
  lv_total : sd_totalBytes d = Z.of_nat (length consumed);
  lv_bound : Z.of_nat (length consumed) <= sse_MaxTotalBytes lim;
}.

(** What a step on the reader leaves alone. *)
Definition same_counts (d d' : SSEDecoder) : Prop :=
  sd_state d' = sd_state d /\ sd_events d' = sd_events d /\ sd_chunks d' = sd_chunks d /\
  sd_limits d' = sd_limits d.

Lemma same_counts_refl d : same_counts d d.
Proof. done. Qed.
Lemma same_counts_trans d1 d2 d3 : same_counts d1 d2 -> same_counts d2 d3 -> same_counts d1 d3.
Proof. unfold same_counts. intros (? & ? & ? & ?) (? & ? & ? & ?). split_and!; congruence. Qed.

Lemma wp_sse_Err s (Q : option ctxError -> Context * SSEDecoder -> Prop) :
  (forall e c, (e = None -> canceled (fst s) = false) -> Q e (c, snd s)) -> wp sse_Err Q s.
Proof.
  intros HQ. unfold wp, sse_Err. destruct (ctxErr (fst s)) as [e c] eqn:E.
  eexists _, _. split; [done|]. apply HQ. intros ->. by eapply ctxErr_nil.
Qed.

Lemma wp_decoder {A} (f : SSEDecoder -> A) s (Q : A -> Context * SSEDecoder -> Prop) :
  Q (f (snd s)) s -> wp (decoder f) Q s.
Proof. intros HQ. by apply wp_gets. Qed.

Lemma wp_onDecoder f s (Q : unit -> Context * SSEDecoder -> Prop) :
  Q tt (fst s, f (snd s)) -> wp (onDecoder f) Q s.
Proof. intros HQ. by apply wp_modify. Qed.

Lemma wp_fail {A} e s (Q : result sseFailure A -> Context * SSEDecoder -> Prop) :
  (forall d', sd_state d' = sseDecoderFailed -> sd_failure d' = Some e ->
     sd_limits d' = sd_limits (snd s) -> Q (Err e) (fst s, d')) -> wp (fail e) Q s.
Proof. intros HQ. unfold fail. apply wp_bind, wp_onDecoder, wp_ret. by apply HQ. Qed.

(** [accountBytes] on a live decoder that has just read [count] more bytes. *)
Lemma wp_accountBytes count eventBytes s (Q : result SSEReason Z -> Context * SSEDecoder -> Prop) :
  0 <= sd_totalBytes (snd s) <= sse_MaxTotalBytes (sd_limits (snd s)) -> 0 <= count ->
  sse_limits_ok (sd_limits (snd s)) ->
  (forall reason, Q (Err reason) s) ->
  (sd_totalBytes (snd s) + count <= sse_MaxTotalBytes (sd_limits (snd s)) ->
   match eventBytes with
   | None => Q (Ok 0) (fst s, setTotal (sd_totalBytes (snd s) + count) (snd s))
   | Some bytes =>
       bytes + count <= sse_MaxEventBytes (sd_limits (snd s)) -> 0 <= bytes ->
       Q (Ok (bytes + count)) (fst s, setTotal (sd_totalBytes (snd s) + count) (snd s))
   end) ->
  (forall bytes, eventBytes = Some bytes -> 0 <= bytes) ->
  wp (accountBytes count eventBytes) Q s.
Proof.
  intros Ht Hc [[_ Hmax] [_ Hev] _] Herr Hok Hb. unfold accountBytes, AbsoluteMaxSSETotalBytes in *.
  apply wp_bind, wp_decoder, wp_bind, wp_decoder.
  destruct (add64 _ count) as [total carry] eqn:Hadd.
  destruct (add64_spec (sd_totalBytes (snd s)) count) as [Ha _]; [lia|lia|].
  rewrite Hadd in Ha. cbn [fst snd] in Ha.
  apply wp_if; intros Hlim; breflect; [by apply wp_ret|]. destruct Ha as [_ ->]; [lia|].
  specialize (Hok ltac:(lia)). destruct eventBytes as [bytes|].
  - specialize (Hb bytes eq_refl). destruct (add64 bytes count) as [event carry2] eqn:Hadd2.
    destruct (add64_spec bytes count) as [Ha _]; [lia|lia|]. rewrite Hadd2 in Ha. cbn [fst snd] in Ha.
    apply wp_if; intros Hlim2; breflect; [by apply wp_ret|]. destruct Ha as [_ ->]; [lia|].
    apply wp_bind, wp_onDecoder, wp_ret. apply Hok; lia.
  - apply wp_bind, wp_onDecoder, wp_ret. done.
Qed.

(** ** Lines *)

(** A line's text: its content, no line feed inside, and one line feed. *)
Definition line_post (lim : SSELimits) (s0 : script) (consumed : list Z) (raw : sseRaw)
    (eventBytes : Z) (d : SSEDecoder)
    (r : result lineError (sseLine * sseRaw * Z)) (s' : Context * SSEDecoder) : Prop :=
  same_counts d (snd s') /\
  match r with
  | Err _ => True
  | Ok (line, raw', event') =>
      exists l, live s0 lim (consumed ++ l ++ [c_lf]) (snd s') /\ (c_lf ∉ l) /\
        raw_bytes raw' = raw_bytes raw ++ l ++ [c_lf] /\
        line_content line = lineContent (l ++ [c_lf]) /\
        line_invalidEnding line = byteIn c_cr (line_content line) /\
        event' = eventBytes + Z.of_nat (length (l ++ [c_lf])) /\
        event' <= sse_MaxEventBytes lim /\
        raw_cap raw' <= sse_MaxEventBytes lim
  end.

Lemma appendSSEBytes_cap raw source maximum :
  raw_cap raw <= maximum -> raw_cap (appendSSEBytes raw source maximum) <= maximum.
Proof. intros Hc. unfold appendSSEBytes. cbn. case_match; lia. Qed.

Lemma wp_readSlice s0 lim consumed c d (Q : readResult -> Context * SSEDecoder -> Prop) :
  bufio_inv s0 (sse_MaxTotalBytes lim + 1) consumed (sd_reader d) ->
  (forall r b', read_slice_post s0 (sse_MaxTotalBytes lim + 1) consumed (sd_reader d) c_lf r b' ->
     Q r (c, setReader d b')) ->
  wp (onReader (readSlice c_lf)) Q (c, d).
Proof.
  intros Hinv HQ. destruct (readSlice_spec _ _ _ c_lf _ Hinv) as (r & b' & Hr & Hpost).
  unfold wp, onReader. cbn [fst snd]. rewrite Hr. eauto.
Qed.

Lemma readSSELine_loop_spec lim s0 consumed raw0 fuel :
  sse_limits_ok lim -> forall sofar raw event c d,
  (br_measure (sd_reader d) < fuel)%nat ->
  live s0 lim (consumed ++ sofar) d -> (c_lf ∉ sofar) ->
  raw_bytes raw = raw_bytes raw0 ++ sofar -> 0 <= event -> raw_cap raw <= sse_MaxEventBytes lim ->
  wp (readSSELine_loop fuel (length (raw_bytes raw0)) raw event)
    (line_post lim s0 consumed raw0 (event - Z.of_nat (length sofar)) d) (c, d).
Proof.
  intros Hlim. induction fuel as [|fuel IH]; intros sofar raw event c d Hf Hlive Hsofar Hraw Hev Hcap; [lia|].
  cbn [readSSELine_loop]. apply wp_bind, wp_sse_Err. intros [e|] c1 _; [by apply wp_ret|]. cbn [snd].
  pose proof Hlive as [Hl Hr Ht Hb].
  apply wp_bind. eapply wp_readSlice; [exact Hr|]. intros [fragment re] b' (Hsize & Hm & Hpre & Hpost).
  apply wp_bind, wp_accountBytes; cbn [snd setReader sd_totalBytes sd_limits]; try (rewrite ?Hl; done || lia).
  { intros reason. by apply wp_ret. }
  2: { intros ? [= <-]. lia. }
  rewrite Hl, Ht. intros Htot Hevent _. cbn [fst snd].
  apply wp_bind, wp_sse_Err. intros [e|] c2 _; [by apply wp_ret|].
  apply wp_bind, wp_decoder. cbn [snd setTotal setReader sd_limits]. rewrite Hl.
  assert (drop (length (raw_bytes raw0)) (raw_bytes (appendSSEBytes raw fragment (sse_MaxEventBytes lim)))
    = sofar ++ fragment) as Htext.
  { cbn. rewrite Hraw, <- app_assoc. by rewrite drop_app_length. }
  rewrite Htext. set (d' := setTotal _ _).
  assert (same_counts d d') by (unfold d', same_counts; cbn; done).
  assert (bufio_inv s0 (sse_MaxTotalBytes lim + 1) ((consumed ++ sofar) ++ fragment) b' ->
    live s0 lim (consumed ++ sofar ++ fragment) d') as Hlive'.
  { intros Hinv. rewrite app_assoc. rewrite length_app in Htot.
    split; cbn; [done|done| |]; rewrite !length_app; lia. }
  destruct re as [re|].
  - destruct re; try (by apply wp_ret).
    + repeat (apply wp_if; intros _; [by apply wp_ret|]). by apply wp_ret.
    + destruct Hpost as (Hinv & Hn & Hpos).
      replace (event - Z.of_nat (length sofar)) with
        (event + Z.of_nat (length fragment) - Z.of_nat (length (sofar ++ fragment)))
        by (rewrite length_app; lia).
      eapply wp_mono; [apply (IH (sofar ++ fragment))|].
      * unfold d'. cbn. lia.
      * by apply Hlive'.
      * rewrite elem_of_app. by intros [?|?].
      * cbn. by rewrite Hraw, <- app_assoc.
      * lia.
      * by apply appendSSEBytes_cap.
      * intros r s' [Hs Hr']. split; [by eapply same_counts_trans|done].
  - destruct Hpost as (Hinv & l & -> & Hn). apply wp_ret. split; [done|].
    exists (sofar ++ l). cbn [snd line_content line_invalidEnding]. rewrite <- !app_assoc.
    split; [by apply Hlive'|]. split; [rewrite elem_of_app; by intros [?|?]|].
    split; [cbn; by rewrite Hraw, <- app_assoc|]. split; [done|]. split; [done|].
    rewrite !length_app in *. cbn [length] in *. split; [lia|]. split; [lia|].
    by apply appendSSEBytes_cap.
Qed.

Lemma readSSELine_spec lim s0 consumed raw event c d :
  sse_limits_ok lim -> live s0 lim consumed d -> 0 <= event -> raw_cap raw <= sse_MaxEventBytes lim ->
  wp (readSSELine raw event) (line_post lim s0 consumed raw event d) (c, d).
Proof.
  intros Hlim Hlive Hev Hcap.
  pose proof (readSSELine_loop_spec lim s0 consumed raw (S (br_measure (sd_reader d))) Hlim
    [] raw event c d) as H. cbn [length] in H. rewrite Z.sub_0_r in H.
  apply H; rewrite ?app_nil_r; try done; [lia|by apply not_elem_of_nil].
Qed.

(** ** Events on the wire *)

Definition line_ending (nl : list Z) : Prop := nl = [c_lf] \/ nl = [c_cr; c_lf].

(** One data field and one empty line, with their endings as received. *)
Definition event_wire (payload body : list Z) : Prop :=
  exists sp nl1 nl2, (sp = [] \/ sp = [c_space]) /\ line_ending nl1 /\ line_ending nl2 /\
    body = bs "data" ++ [c_colon] ++ sp ++ payload ++ nl1 ++ nl2 /\
    payload <> [] /\ (c_lf ∉ payload) /\ (c_cr ∉ payload).

Definition chunk_event (e : ValidatedSSEEvent) : Prop :=
  ev_kind e = SSEEventKindChunk /\ exists payload,
    event_wire payload (ev_body e) /\ object_body chatCompletionChunkObject payload.

Definition done_event (e : ValidatedSSEEvent) : Prop :=
  ev_kind e = SSEEventKindDone /\ event_wire doneMarker (ev_body e).

Definition event_ok (lim : SSELimits) (e : ValidatedSSEEvent) : Prop :=
  (chunk_event e \/ done_event e) /\ utf8_valid (ev_body e) = true /\
  Z.of_nat (length (ev_body e)) <= sse_MaxEventBytes lim.

Definition bodies (evs : list ValidatedSSEEvent) : list Z := concat (map ev_body evs).

(** At least one chunk, then the terminal marker. *)
Definition complete_stream (evs : list ValidatedSSEEvent) : Prop :=
  exists chunks last, evs = chunks ++ [last] /\ chunks <> [] /\ Forall chunk_event chunks /\ done_event last.

(** The decoder [d] over [s0] has returned [evs]. *)
Definition stream_inv (s0 : script) (lim : SSELimits) (evs : list ValidatedSSEEvent) (d : SSEDecoder) : Prop :=
  sd_limits d = lim /\ Forall (event_ok lim) evs /\ bodies evs `prefix_of` script_data s0 /\
  Z.of_nat (length evs) <= sse_MaxEvents lim /\ Z.of_nat (length (bodies evs)) <= sse_MaxTotalBytes lim /\
  match sd_state d with
  | sseDecoderOpen =>
      live s0 lim (bodies evs) d /\ Forall chunk_event evs /\
      sd_chunks d = Z.of_nat (length evs) /\ sd_events d = Z.of_nat (length evs)
  | sseDecoderDoneReturned => live s0 lim (bodies evs) d /\ complete_stream evs
  | sseDecoderVerified =>
      complete_stream evs /\ script_data s0 = bodies evs /\ script_err s0 = None
  | sseDecoderFailed => is_Some (sd_failure d)
  end.

Lemma bodies_app evs e : bodies (evs ++ [e]) = bodies evs ++ ev_body e.
Proof. unfold bodies. rewrite map_app, concat_app. cbn. by rewrite app_nil_r. Qed.

Lemma byteIn_false c l : byteIn c l = false -> c ∉ l.
Proof.
  induction l as [|b l IH]; cbn; [intros _; apply not_elem_of_nil|].
  intros [Hb Hl]%orb_false_iff. breflect. rewrite not_elem_of_cons. auto.
Qed.

Lemma lineContent_cases l :
  lineContent (l ++ [c_lf]) = l \/ l = lineContent (l ++ [c_lf]) ++ [c_cr].
Proof.
  unfold lineContent. rewrite removelast_last. destruct (last l) as [c|] eqn:Hl; [|by left].
  destruct (c =? c_cr) eqn:Hc; [|by left]. breflect. right.
  apply last_Some in Hl as [l' ->]. rewrite removelast_last. by subst c.
Qed.

(** A line is its content and a line ending. *)
Lemma line_split l :
  byteIn c_cr (lineContent (l ++ [c_lf])) = false ->
  exists nl, l ++ [c_lf] = lineContent (l ++ [c_lf]) ++ nl /\ line_ending nl.
Proof.
  intros _. destruct (lineContent_cases l) as [->|Hl]; [exists [c_lf]; split; [done|by left]|].
  exists [c_cr; c_lf]. split; [|by right]. rewrite Hl at 1. by rewrite <- app_assoc.
Qed.

Lemma lineContent_no_lf l : c_lf ∉ l -> c_lf ∉ lineContent (l ++ [c_lf]).
Proof.
  intros Hn. destruct (lineContent_cases l) as [->|Hl]; [done|].
  rewrite Hl in Hn. intros Hin. apply Hn. apply elem_of_app. by left.
Qed.

Lemma sseDataValue_Some content payload :
  sseDataValue content = Some payload ->
  exists sp, (sp = [] \/ sp = [c_space]) /\ content = bs "data" ++ [c_colon] ++ sp ++ payload.
Proof.
  unfold sseDataValue. destruct (cutAt c_colon content) as [[field value]|] eqn:Hc; [|done].
  apply cutAt_Some in Hc as (-> & a & -> & _). rewrite removelast_last.
  case_bool_decide as Ha; cbn [negb]; [|done]. subst a. rewrite <- app_assoc.
  destruct value as [|c rest]; [intros [= <-]; exists []; auto|].
  destruct (c =? c_space) eqn:Hsp; intros [= <-]; breflect.
  - subst c. exists [c_space]. auto.
  - exists []. auto.
Qed.

(** ** Chunks *)

Lemma obeys_unlessCanceled r : obeys (unlessCanceled r).
Proof. unfold unlessCanceled. obeys_auto. Qed.
#[export] Hint Resolve obeys_unlessCanceled : ctx.

Lemma obeys_validateSSEChunk body : obeys (validateSSEChunk body).
Proof.
  pose proof (obeys_escapesFrom body 0 false). pose proof (obeys_validateJSONDocument body maxJSONDepth).
  pose proof (obeys_validateObject sseReasons chatCompletionChunkObject body).
  unfold validateSSEChunk, validUnicodeEscapes, validateSSEChunkObject. obeys_auto.
Qed.

Lemma validateSSEChunk_total body ctx : exists r c, validateSSEChunk body ctx = Done (r, c).
Proof.
  assert (forall r c, exists o c', unlessCanceled r c = Done (o, c')) as Hu.
  { intros r c. unfold unlessCanceled, mbind, M_bind, pollSelf. destruct (ctxErr c). by eexists _, _. }
  unfold validateSSEChunk. case_match; [by eexists _, _|].
  apply bind_total; [intros; apply escapesFrom_total|]. intros [|] c; cbn [negb]; [|apply Hu].
  apply bind_total; [intros; apply validateJSONDocument_total|]. intros [r|] c1; [apply Hu|].
  apply validateObject_total.
Qed.

Lemma validateSSEChunk_accepts body c :
  validateSSEChunk body background = Done (None, c) ->
  object_body chatCompletionChunkObject body.
Proof.
  unfold validateSSEChunk, object_body.
  destruct (utf8_valid body); cbn [negb]; [|discriminate].
  destruct (validUnicodeEscapes_bg body) as [valid Hv]. erewrite run_bind_done by exact Hv.
  destruct valid; cbn [negb]; [|discriminate].
  destruct (validateJSONDocument_bg body maxJSONDepth) as [reason Hr].
  erewrite run_bind_done by exact Hr. destruct reason as [reason|]; [discriminate|].
  destruct (validateJSONDocument_sound _ _ _ Hr) as (t & Ht & Hok).
  unfold validateSSEChunkObject. rewrite (validateObject_tree _ _ t) by done.
  intros [= Ho _]. apply objectOf_accepts in Ho as (l & -> & Hin); [|done]. eauto 8.
Qed.

Lemma wp_validateSSEChunk payload c d (Q : option SSEReason -> Context * SSEDecoder -> Prop) :
  (forall r c', (r = None -> canceled c' = false -> object_body chatCompletionChunkObject payload) ->
     Q r (c', d)) ->
  wp (onCtx (validateSSEChunk payload)) Q (c, d).
Proof.
  intros HQ. destruct (validateSSEChunk_total payload c) as (r & c' & Hr).
  unfold wp, onCtx. cbn [fst snd]. rewrite Hr. eexists _, _. split; [done|].
  apply HQ. intros -> Hc. destruct (obeys_validateSSEChunk _ _ _ _ Hr) as (_ & _ & [Hc'|Hbg]).
  - cbn in Hc'. congruence.
  - by eapply validateSSEChunk_accepts.
Qed.

(** ** [Next] *)

Section Next.
Context (s0 : script) (lim : SSELimits) (Hlim : sse_limits_ok lim).

(** What does not change while [Next] reads: the limits and the events. *)
Definition next_frame (evs : list ValidatedSSEEvent) : Prop :=
  Forall (event_ok lim) evs /\ bodies evs `prefix_of` script_data s0 /\
  Z.of_nat (length evs) <= sse_MaxEvents lim /\ Z.of_nat (length (bodies evs)) <= sse_MaxTotalBytes lim.

Definition next_post (evs : list ValidatedSSEEvent) (r : result sseFailure ValidatedSSEEvent)
    (s' : Context * SSEDecoder) : Prop :=
  match r with
  | Ok ev => stream_inv s0 lim (evs ++ [ev]) (snd s')
  | Err _ => stream_inv s0 lim evs (snd s')
  end.

Lemma failed_inv evs d e :
  next_frame evs -> sd_limits d = lim -> sd_state d = sseDecoderFailed -> sd_failure d = Some e ->
  stream_inv s0 lim evs d.
Proof. intros (? & ? & ? & ?) Hl Hs Hf. unfold stream_inv. rewrite Hs, Hf. eauto 10. Qed.

Lemma wp_fail_next {A} evs e s (Q : result sseFailure A -> Context * SSEDecoder -> Prop) :
  next_frame evs -> sd_limits (snd s) = lim ->
  (forall s', stream_inv s0 lim evs (snd s') -> Q (Err e) s') -> wp (fail e) Q s.
Proof.
  intros Hf Hl HQ. apply wp_fail. intros d' Hs Hfail Hlim'. apply HQ. cbn [snd].
  apply (failed_inv evs d' e); congruence || done.
Qed.

Definition next_line_post (evs : list ValidatedSSEEvent) (consumed : list Z) (raw : sseRaw)
    (eventBytes : Z) (d : SSEDecoder)
    (r : result sseFailure (sseLine * sseRaw * Z)) (s' : Context * SSEDecoder) : Prop :=
  match r with
  | Err _ => stream_inv s0 lim evs (snd s')
  | Ok (line, raw', event') =>
      same_counts d (snd s') /\ utf8_valid (raw_bytes raw') = true /\
      exists nl, live s0 lim (consumed ++ line_content line ++ nl) (snd s') /\ line_ending nl /\
        raw_bytes raw' = raw_bytes raw ++ line_content line ++ nl /\
        (c_lf ∉ line_content line) /\ (c_cr ∉ line_content line) /\
        event' = eventBytes + Z.of_nat (length (line_content line ++ nl)) /\
        event' <= sse_MaxEventBytes lim /\ raw_cap raw' <= sse_MaxEventBytes lim
  end.

Lemma wp_nextLine evs consumed raw event eof c d :
  next_frame evs -> live s0 lim consumed d -> 0 <= event -> raw_cap raw <= sse_MaxEventBytes lim ->
  wp (nextLine raw event eof) (next_line_post evs consumed raw event d) (c, d).
Proof.
  intros Hframe Hlive Hev Hcap. unfold nextLine.
  eapply wp_bind_mono; [by apply readSSELine_spec|]. intros [[[line raw'] event']|e] s1 (Hsame & Hpost).
  - assert (sd_limits (snd s1) = lim) as Hl1
      by (destruct Hsame as (_ & _ & _ & ->); by destruct Hlive).
    destruct Hpost as (l & Hlive' & Hn & Hraw & Hcontent & Hinv & Hevent & Hmax & Hcap').
    apply wp_if; intros Hu; [apply (wp_fail_next evs); done|]. breflect.
    apply wp_if; intros Hi; [apply (wp_fail_next evs); done|]. apply wp_ret.
    split; [done|]. split; [done|]. rewrite Hinv, Hcontent in Hi.
    destruct (line_split l Hi) as (nl & Hnl & Hend). exists nl. rewrite Hcontent, <- Hnl.
    split; [done|]. split; [done|]. split; [done|].
    split; [by apply lineContent_no_lf|]. split; [by apply byteIn_false|]. auto.
  - assert (sd_limits (snd s1) = lim) as Hl1
      by (destruct Hsame as (_ & _ & _ & ->); by destruct Hlive).
    destruct e; apply (wp_fail_next evs); done.
Qed.

Lemma bodies_wire evs d : live s0 lim (bodies evs) d -> bodies evs `prefix_of` script_data s0.
Proof.
  intros [_ Hr _ _]. destruct (bi_prefix _ _ _ _ Hr) as [z Hz]. unfold wire in Hz.
  etransitivity; [|apply prefix_take with (n := Z.to_nat (sse_MaxTotalBytes lim + 1))].
  rewrite Hz. rewrite <- app_assoc. by apply prefix_app_r.
Qed.

(** The open decoder after both lines of an event were read. *)
Lemma wp_nextEvent evs payload body c d :
  next_frame evs -> Forall chunk_event evs -> Z.of_nat (length evs) < sse_MaxEvents lim ->
  live s0 lim (bodies evs ++ body) d -> sd_state d = sseDecoderOpen ->
  sd_chunks d = Z.of_nat (length evs) -> sd_events d = Z.of_nat (length evs) ->
  event_wire payload body -> utf8_valid body = true ->
  Z.of_nat (length body) <= sse_MaxEventBytes lim ->
  wp (nextEvent payload body) (next_post evs) (c, d).
Proof.
  intros Hframe Hchunks Hcount Hlive Hopen Hch Hevn Hwire Hutf Hmax. unfold nextEvent.
  pose proof Hframe as (Hok & Hpre & Hle & Hbytes). destruct Hlim as [_ _ [_ Hme]].
  unfold AbsoluteMaxSSEEvents in Hme.
  assert (Z.of_nat (length (evs ++ [mkSSEEvent SSEEventKindChunk body])) = Z.of_nat (length evs) + 1) as Hlen
    by (rewrite length_app; cbn; lia).
  assert (forall k, bodies (evs ++ [mkSSEEvent k body]) = bodies evs ++ body) as Hb
    by (intros; by rewrite bodies_app).
  assert (forall k, chunk_event (mkSSEEvent k body) \/ done_event (mkSSEEvent k body) ->
    next_frame (evs ++ [mkSSEEvent k body])) as Hframe'.
  { intros k Hk. unfold next_frame. rewrite Hb. split_and!.
    - apply Forall_app_2; [done|]. constructor; [|constructor]. by split.
    - rewrite <- (Hb k). eapply bodies_wire. rewrite Hb. exact Hlive.
    - rewrite length_app. cbn. lia.
    - by destruct Hlive. }
  assert (u64 (Z.of_nat (length evs) + 1) = Z.of_nat (length evs) + 1) as Hu
    by (apply u64_small; unfold is_u64, two64; lia).
  apply wp_bind, wp_onDecoder. cbn [fst snd]. apply wp_if; intros Hdone; breflect.
  - apply wp_bind, wp_decoder. cbn [snd countEvent sd_chunks].
    apply wp_if; intros Hz; breflect; [apply (wp_fail_next evs); [done|by destruct Hlive|done]|].
    apply wp_bind, wp_onDecoder, wp_ret. cbn [fst snd].
    assert (done_event (mkSSEEvent SSEEventKindDone body)) as Hd by (split; [done|by subst]).
    destruct (Hframe' SSEEventKindDone ltac:(auto)) as (H1 & H2 & H3 & H4).
    unfold next_post, stream_inv. cbn [snd]. split; [by destruct Hlive|].
    split; [done|]. split; [done|]. split; [done|]. split; [done|]. cbn [sd_state setState].
    rewrite Hb. split; [by destruct Hlive; split|].
    exists evs, (mkSSEEvent SSEEventKindDone body). split; [done|]. split; [|done].
    intros ->. cbn in Hch. lia.
  - apply wp_bind, wp_validateSSEChunk. intros [r|] c1 Hchunk.
    + apply wp_bind, wp_sse_Err. intros [e|] c2 _; (apply (wp_fail_next evs); [done|by destruct Hlive|done]).
    + apply wp_bind, wp_sse_Err. intros [e|] c2 Hc;
        [apply (wp_fail_next evs); [done|by destruct Hlive|done]|].
      specialize (Hchunk eq_refl (Hc eq_refl)). cbn [fst snd] in *.
      apply wp_bind, wp_onDecoder, wp_ret. cbn [fst snd].
      assert (chunk_event (mkSSEEvent SSEEventKindChunk body)) as Hce by (split; [done|eauto]).
      destruct (Hframe' SSEEventKindChunk ltac:(auto)) as (H1 & H2 & H3 & H4).
      unfold next_post, stream_inv. cbn [snd]. split; [by destruct Hlive|].
      split; [done|]. split; [done|]. split; [done|]. split; [done|].
      cbn [sd_state countChunk countEvent]. rewrite Hopen, Hb.
      split; [by destruct Hlive; split|]. split; [by apply Forall_app_2; [|constructor]|].
      cbn [sd_chunks sd_events countChunk countEvent]. rewrite Hch, Hevn, Hu, Hlen. done.
Qed.

Lemma wp_nextOpen evs c d :
  stream_inv s0 lim evs d -> sd_state d = sseDecoderOpen ->
  wp nextOpen (next_post evs) (c, d).
Proof.
  intros (Hl & Hok & Hpre & Hle & Hbytes & Hst) Hopen. rewrite Hopen in Hst.
  destruct Hst as (Hlive & Hchunks & Hch & Hevn).
  assert (next_frame evs) as Hframe by done. unfold nextOpen.
  apply wp_bind, wp_sse_Err. intros [e|] c1 _; [by apply (wp_fail_next evs)|]. cbn [snd].
  apply wp_bind, wp_decoder, wp_bind, wp_decoder. cbn [snd]. rewrite Hl, Hevn.
  apply wp_if; intros Hcount; breflect; [by apply (wp_fail_next evs)|].
  destruct Hlim as [_ [Hmax1 _] _].
  eapply wp_bind_mono; [apply (wp_nextLine evs (bodies evs)); [done|done|lia|cbn; lia]|].
  intros [[[first raw1] event1]|e] s1 Hfirst; [|by apply wp_ret].
  destruct s1 as [c2 d1]. destruct Hfirst as (Hsame1 & _ & nl1 & Hlive1 & Hnl1 & Hraw1 & Hnlf & Hncr & Hev1 & Hmax & Hcap).
  cbn [snd] in *. cbn [raw_bytes app] in Hraw1.
  assert (sd_limits d1 = lim) as Hl1 by by destruct Hlive1.
  apply wp_if; intros Hempty; breflect; [by apply (wp_fail_next evs)|].
  destruct (sseDataValue (line_content first)) as [payload|] eqn:Hdata; [|by apply (wp_fail_next evs)].
  destruct (sseDataValue_Some _ _ Hdata) as (sp & Hsp & Hcontent).
  eapply wp_bind_mono.
  { apply (wp_nextLine evs); [done|exact Hlive1|lia|done]. }
  intros [[[second raw2] event2]|e] s2 Hsecond; [|by apply wp_ret].
  destruct s2 as [c3 d2]. destruct Hsecond as (Hsame2 & Hutf & nl2 & Hlive2 & Hnl2 & Hraw2 & _ & _ & Hev2 & Hmax2 & _).
  cbn [snd] in *. assert (sd_limits d2 = lim) as Hl2 by by destruct Hlive2.
  apply wp_if; intros Hsec; breflect; [by apply (wp_fail_next evs)|].
  apply wp_if; intros Hpay; breflect; [by apply (wp_fail_next evs)|].
  rewrite Hsec in *. cbn [app] in Hraw2, Hlive2, Hev2.
  destruct Hsame1 as (Hs1 & He1 & Hc1 & _), Hsame2 as (Hs2 & He2 & Hc2 & _).
  rewrite Hraw1 in Hraw2. rewrite <- app_assoc in Hlive2.
  rewrite <- ?app_assoc in Hraw2, Hlive2. rewrite <- Hraw2 in Hlive2.
  apply wp_nextEvent; try done; try congruence.
  - exists sp, nl1, nl2. split; [done|]. split; [done|]. split; [done|].
    rewrite Hraw2, Hcontent, <- !app_assoc. split; [done|]. split; [done|].
    rewrite Hcontent in Hnlf, Hncr. rewrite !not_elem_of_app in Hnlf, Hncr.
    by destruct Hnlf as (_ & _ & _ & ?), Hncr as (_ & _ & _ & ?).
  - rewrite Hraw2, !length_app in *. lia.
Qed.

Lemma wp_Next evs c d :
  stream_inv s0 lim evs d -> wp Next (next_post evs) (c, d).
Proof.
  intros Hinv. unfold Next. apply wp_bind, wp_decoder. cbn [snd].
  destruct (sd_state d) eqn:Hst; [by apply wp_nextOpen|by apply wp_ret|by apply wp_ret|].
  apply wp_bind, wp_decoder, wp_ret. done.
Qed.

(** ** [VerifyEOF] *)

Lemma complete_live_end evs d e :
  live s0 lim (bodies evs) d -> bodies evs = wire s0 (sse_MaxTotalBytes lim + 1) ->
  ends_with s0 (sse_MaxTotalBytes lim + 1) e -> e = ioEOF ->
  script_data s0 = bodies evs /\ script_err s0 = None.
Proof.
  intros [_ _ _ Hb] Hw He ->. unfold wire in Hw.
  assert (Z.of_nat (length (script_data s0)) < sse_MaxTotalBytes lim + 1) as Hlt.
  { rewrite Hw, length_take in Hb. lia. }
  split; [rewrite Hw; symmetry; apply take_ge; lia|]. by apply He.
Qed.

Definition verify_post (evs : list ValidatedSSEEvent) (r : result sseFailure unit)
    (s' : Context * SSEDecoder) : Prop :=
  stream_inv s0 lim evs (snd s') /\ (r = Ok tt -> sd_state (snd s') = sseDecoderVerified).

Lemma wp_fail_verify evs e s :
  next_frame evs -> sd_limits (snd s) = lim -> wp (fail e) (verify_post evs) s.
Proof. intros Hf Hl. by apply (wp_fail_next evs); [..|split]. Qed.

Lemma wp_VerifyEOF evs c d :
  stream_inv s0 lim evs d -> wp VerifyEOF (verify_post evs) (c, d).
Proof.
  intros Hinv. unfold VerifyEOF. apply wp_bind, wp_decoder. cbn [snd].
  pose proof Hinv as (Hl & Hok & Hpre & Hle & Hbytes & Hst).
  assert (next_frame evs) as Hframe by done.
  destruct (sd_state d) eqn:Hstate.
  - by apply wp_fail_verify.
  - destruct Hst as (Hlive & Hcomplete). unfold verifyDone.
    apply wp_bind, wp_sse_Err. intros [e|] c1 _; [by apply wp_fail_verify|]. cbn [snd].
    destruct (ReadByte_spec _ _ _ _ (lv_reader _ _ _ _ Hlive)) as (r & b' & Hread & Hpost).
    apply wp_bind. unfold wp at 1, onReader. cbn [fst snd]. rewrite Hread.
    eexists _, _. split; [done|]. destruct r as [byte|readErr].
    + pose proof Hlive as [_ _ Ht Hb].
      apply wp_bind, wp_accountBytes; cbn [snd setReader sd_totalBytes sd_limits];
        try (rewrite ?Hl; done || lia).
      * intros reason. by apply wp_fail_verify.
      * intros _. apply wp_bind, wp_sse_Err. intros [e|] c2 _; by apply wp_fail_verify.
    + apply wp_bind, wp_sse_Err. intros [e|] c2 _; [by apply wp_fail_verify|]. cbn [snd].
      apply wp_if; intros He; breflect; [by apply wp_fail_verify|].
      apply wp_bind, wp_onDecoder, wp_ret. cbn [fst snd]. subst readErr. destruct Hpost as [Hw Hend].
      destruct (complete_live_end evs d ioEOF Hlive Hw Hend eq_refl) as [Hd Herr].
      split; [|done]. unfold stream_inv. cbn [snd sd_limits sd_state setState setReader]. auto 10.
  - by apply wp_ret.
  - apply wp_bind, wp_decoder. cbn [snd]. destruct (sd_failure d); by apply wp_ret.
Qed.
End Next.

(** ** Whole streams *)

(** The calls a caller may make on a decoder over [s0], and the events they
    returned; every call has a context of its own. *)
Inductive sse_calls (s0 : script) (lim : SSELimits) : list ValidatedSSEEvent -> SSEDecoder -> Prop :=
| calls_new d : NewSSEDecoder s0 lim = Ok d -> sse_calls s0 lim [] d
| calls_event evs d c ev c' d' :
    sse_calls s0 lim evs d -> Next (c, d) = Done (Ok ev, (c', d')) -> sse_calls s0 lim (evs ++ [ev]) d'
| calls_error evs d c e c' d' :
    sse_calls s0 lim evs d -> Next (c, d) = Done (Err e, (c', d')) -> sse_calls s0 lim evs d'
| calls_verify evs d c r c' d' :
    sse_calls s0 lim evs d -> VerifyEOF (c, d) = Done (r, (c', d')) -> sse_calls s0 lim evs d'.

Definition sse_limits_u64 (l : SSELimits) : Prop :=
  is_u64 (sse_MaxTotalBytes l) /\ is_u64 (sse_MaxEventBytes l) /\ is_u64 (sse_MaxEvents l).

Lemma NewSSEDecoder_inv s0 lim d :
  sse_limits_u64 lim -> script_plain s0 -> NewSSEDecoder s0 lim = Ok d ->
  sse_limits_ok lim /\ stream_inv s0 lim [] d.
Proof.
  intros (Hu1 & Hu2 & _) Hp H. unfold NewSSEDecoder in H.
  apply result_bind_Ok in H as ([] & Hv & H). apply ValidateSSELimits_ok in Hv; [|done|done].
  split; [done|]. rewrite !sse_int64 in H by done. injection H as <-.
  pose proof Hv as [[Ht _] _ [He _]].
  unfold stream_inv, bodies. cbn [sd_limits map concat length sd_state].
  split; [done|]. split; [done|]. split; [apply prefix_nil|]. split; [lia|]. split; [lia|].
  split; [|done]. split; cbn [sd_limits sd_reader sd_totalBytes length]; [done| |done|lia].
  apply newReaderSize_inv; [lia|done].
Qed.

Lemma sse_calls_inv s0 lim evs d :
  sse_limits_u64 lim -> script_plain s0 -> sse_calls s0 lim evs d ->
  sse_limits_ok lim /\ stream_inv s0 lim evs d.
Proof.
  intros Hu Hp Hcalls. induction Hcalls as [d Hnew|evs d c ev c' d' _ [Hl IH] Hn
    |evs d c e c' d' _ [Hl IH] Hn|evs d c r c' d' _ [Hl IH] Hv].
  - by apply NewSSEDecoder_inv.
  - split; [done|]. exact (wp_run _ _ _ _ _ (wp_Next s0 lim Hl evs c d IH) Hn).
  - split; [done|]. exact (wp_run _ _ _ _ _ (wp_Next s0 lim Hl evs c d IH) Hn).
  - split; [done|]. exact (proj1 (wp_run _ _ _ _ _ (wp_VerifyEOF s0 lim Hl evs c d IH) Hv)).
Qed.
