(* ===== verification/ContractTheorems.v ===== *)
(** * The contract package: its properties

    Strict JSON documents, request parsing, upstream responses and event streams
    ([jsonscan.go], [decode.go], [request.go], [response.go], [sse.go]); each property with a witness at a concrete input. *)

From S2P Require Import Prelude.
From S2P Require Import GoJson.
From S2P Require Import JsonGrammar.
From S2P Require Import GoIO.
From S2P Require Import ContractScan.
From S2P Require Import ContractRequest.
From S2P Require Import ContractDecode.
From S2P Require Import ContractParse.
From S2P Require Import ContractResponse.
From S2P Require Import GoBufio.
From S2P Require Import ContractSSE.
From S2P Require Import ContractStream.

(** ** Inputs of the witnesses *)

Definition demo_limits : Limits := mkLimits 1024 4 256 64 2 4096.
Definition demo_parser : Parser := mkParser (bs "m") demo_limits.
Definition demo_room (_ : nat) : nat := 512.

Definition demo_body : list Z :=
  quoted "{'model':'m','messages':[{'role':'user','content':'hi'}], 'max_completion_tokens': 8}".

(** The body in two chunks. *)
Definition demo_script : script := [(take 20 demo_body, None); (drop 20 demo_body, Some ioEOF)].

Lemma demo_parser_made : made_by_NewParser demo_parser.
Proof. split; [split; vm_compute; split; congruence || reflexivity | vm_compute; reflexivity]. Qed.

Lemma demo_room_pos n : (0 < demo_room n)%nat.
Proof. unfold demo_room. lia. Qed.

Lemma demo_parse_runs :
  exists req s', Parse demo_parser demo_room (background, demo_script) = Done (Ok req, s').
Proof. eexists _, _. vm_compute. reflexivity. Qed.

(** ** JSON documents *)

(** C27: with a context that is not canceled, [validateJSONDocument] reports no
    reason exactly for the texts of the JSON grammar whose tree is nested at
    most [maximumDepth] deep and has no object with a repeated key. *)
Theorem validateJSONDocument_exact body maximumDepth :
  validateJSONDocument body maximumDepth background = Done (None, background) <->
  exists t, document_text t body /\ tree_ok maximumDepth 1 t = true.
Proof.
  split; [apply validateJSONDocument_sound|].
  intros (t & Ht & Hok). by eapply validateJSONDocument_complete.
Qed.

(** ** Requests *)

(** C19: on the text of any JSON tree, [decodeRequest] comes to what the tree
    means as a request ([requestOf]): the same request, or the same reason for
    refusing it, whatever the layout of the text. *)
Theorem decodeRequest_refines p t body :
  document_text t body -> decodeRequest p body background = Done (requestOf p t, background).
Proof. apply decodeRequest_tree. Qed.

Lemma decodeRequest_refines_witness :
  exists t, document_text t demo_body /\
    decodeRequest demo_parser demo_body background = Done (requestOf demo_parser t, background).
Proof.
  assert (validateJSONDocument demo_body 32 background = Done (None, background)) as Hv
    by (vm_compute; reflexivity).
  destruct (validateJSONDocument_sound 32 demo_body background Hv) as (t & Ht & _).
  exists t. split; [exact Ht|]. exact (decodeRequest_refines demo_parser t demo_body Ht).
Defined.

(** C11: [Parse], under a context that is not canceled, accepts a body exactly when
    the reader ends without an error within [MaxBodyBytes], the body is UTF-8 with
    paired escapes and the text of a shallow, duplicate-free tree that means a
    request, and the reservation fits; the request holds the exact body. *)
Theorem parse_accepts_exactly p room rd req :
  made_by_NewParser p -> (forall n, (0 < room n)%nat) ->
  (exists s', Parse p room (background, rd) = Done (Ok req, s')) <->
  Z.of_nat (length (script_data rd)) <= lim_MaxBodyBytes (limits p) /\
  script_err rd = None /\ body_accepted p (script_data rd) req.
Proof.
  intros Hp Hroom. split.
  - intros [s' Hs]. by eapply parse_read_ok.
  - intros (Hle & Herr & Hacc). by eapply parse_accepts_bg.
Qed.

Lemma parse_accepts_exactly_witness :
  (exists req s', Parse demo_parser demo_room (background, demo_script) = Done (Ok req, s')) /\
  (exists req, body_accepted demo_parser (script_data demo_script) req).
Proof.
  split; [exact demo_parse_runs|]. destruct demo_parse_runs as (req & s' & Hrun). exists req.
  exact (proj2 (proj2 (proj1 (parse_accepts_exactly demo_parser demo_room demo_script req
    demo_parser_made demo_room_pos) (ex_intro _ s' Hrun)))).
Defined.

(** Every accepted request is within the parser's limits: its model is the
    public one, it has between one and [MaxMessageCount] messages with valid
    roles, the accounted text bytes are those of the contents and within their
    limit, and its reservation is the mathematical body bytes plus weight times
    tokens, positive and at most [MaxRequestUnits]. *)
Theorem parse_request_bounds p room rd req s' :
  made_by_NewParser p -> (forall n, (0 < room n)%nat) ->
  Parse p room (background, rd) = Done (Ok req, s') ->
  req_model req = publicModel p /\
  req_messages req <> [] /\
  messages_ok (limits p) (req_messages req) (req_messageTextBytes req) /\
  0 < req_maxCompletionTokens req <= lim_MaxCompletionTokens (limits p) /\
  req_body req = script_data rd /\
  req_bodyBytes req = Z.of_nat (length (req_body req)) /\
  req_bodyBytes req <= lim_MaxBodyBytes (limits p) /\
  req_reservationUnits req =
    req_bodyBytes req + lim_CompletionWeight (limits p) * req_maxCompletionTokens req /\
  0 < req_reservationUnits req <= lim_MaxRequestUnits (limits p).
Proof.
  intros Hp Hroom Hrun. destruct (parse_read_ok p room Hp Hroom rd req s' Hrun) as (Hle & _ & Hacc).
  destruct Hacc as (_ & _ & t & r & units & Ht & _ & Hreq & Hu & ->). cbn.
  destruct (requestOf_ok _ _ _ Hreq) as (Hm & Hne & Hms & Htok).
  pose proof (document_nonempty _ _ Ht). destruct (NewParser_facts p Hp) as (_ & _ & _ & Hw & _).
  rewrite (reservationUnits_within p) in Hu by (done || lia). cbn zeta in Hu.
  destruct (_ <? _) eqn:Hlim; [done|]. injection Hu as <-. breflect.
  destruct Htok. assert (0 < lim_CompletionWeight (limits p) * req_maxCompletionTokens r)
    by (apply Z.mul_pos_pos; lia).
  split_and!; done || lia.
Qed.

Lemma parse_request_bounds_witness :
  exists req s', Parse demo_parser demo_room (background, demo_script) = Done (Ok req, s') /\
    req_reservationUnits req = req_bodyBytes req + 2 * req_maxCompletionTokens req.
Proof.
  destruct demo_parse_runs as (req & s' & Hrun). exists req, s'. split; [exact Hrun|].
  exact (proj1 (proj2 (proj2 (proj2 (proj2 (proj2 (proj2 (proj2
    (parse_request_bounds demo_parser demo_room demo_script req s' demo_parser_made
       demo_room_pos Hrun))))))))).
Defined.

(** [Parse] always returns, whatever the reader and whenever the context is
    canceled, and never reports [ReasonReservationOverflow]: [NewParser] refused
    every configuration in which the reservation could overflow. *)
Theorem parse_total_no_overflow p room ctx rd :
  made_by_NewParser p -> (forall n, (0 < room n)%nat) ->
  exists r s', Parse p room (ctx, rd) = Done (r, s') /\
    forall class, r <> Err (ParseError class ReasonReservationOverflow).
Proof.
  intros Hp Hroom. destruct (parse_runs p room Hp Hroom ctx rd) as (r & s' & Hrun).
  exists r, s'. split; [done|]. intros class ->.
  destruct (parse_ctx_cases p room Hp Hroom ctx rd _ s' Hrun) as [[e [=]]|(s'' & Hbg)].
  by eapply parse_no_overflow_bg.
Qed.

Lemma parse_total_no_overflow_witness :
  exists r s', Parse demo_parser demo_room (mkContext (Some 40%nat) Canceled, demo_script) = Done (r, s') /\
    forall class, r <> Err (ParseError class ReasonReservationOverflow).
Proof.
  exact (parse_total_no_overflow demo_parser demo_room (mkContext (Some 40%nat) Canceled) demo_script
    demo_parser_made demo_room_pos).
Defined.

(** A cancellation, at whichever poll it is seen, is never reported as a
    fault of the request: [Parse] returns the context's error, or exactly what
    it returns when the context is never canceled. *)
Theorem parse_cancellation_transparent p room ctx rd r s' :
  made_by_NewParser p -> (forall n, (0 < room n)%nat) ->
  Parse p room (ctx, rd) = Done (r, s') ->
  (exists e, r = Err (ParseContext e)) \/
  exists s'', Parse p room (background, rd) = Done (r, s'').
Proof. intros Hp Hroom. by apply parse_ctx_cases. Qed.

Lemma parse_cancellation_transparent_witness :
  exists r s', Parse demo_parser demo_room (mkContext (Some 9%nat) DeadlineExceeded, demo_script) = Done (r, s') /\
    ((exists e, r = Err (ParseContext e)) \/
     exists s'', Parse demo_parser demo_room (background, demo_script) = Done (r, s'')).
Proof.
  destruct (parse_runs demo_parser demo_room demo_parser_made demo_room_pos
    (mkContext (Some 9%nat) DeadlineExceeded) demo_script) as (r & s' & Hrun).
  exists r, s'. split; [exact Hrun|].
  exact (parse_cancellation_transparent demo_parser demo_room _ demo_script r s'
    demo_parser_made demo_room_pos Hrun).
Defined.

(** The body of an accepted request, read back through [BodyReader] in
    chunks of any size, is byte for byte what the client sent. *)
Theorem request_body_roundtrip p room room' rd req s' fuel :
  made_by_NewParser p -> (forall n, (0 < room n)%nat) -> (forall n, (0 < room' n)%nat) ->
  Parse p room (background, rd) = Done (Ok req, s') ->
  (length (script_data rd) < fuel)%nat ->
  exists rest, ReadAll fuel room' requestBodyReader_Read [] (BodyReader req) =
    Done ((script_data rd, None), rest).
Proof.
  intros Hp Hroom Hroom' Hrun Hf.
  destruct (parse_read_ok p room Hp Hroom rd req s' Hrun) as (_ & _ & Hacc).
  destruct Hacc as (_ & _ & t & r & units & _ & _ & _ & _ & ->).
  by apply (request_body_reads room' fuel (withBody r (script_data rd) units)).
Qed.

Lemma request_body_roundtrip_witness :
  exists req rest, ReadAll 200 (fun _ => 7%nat) requestBodyReader_Read [] (BodyReader req) =
    Done ((script_data demo_script, None), rest).
Proof.
  destruct demo_parse_runs as (req & s' & Hrun). exists req.
  apply (request_body_roundtrip demo_parser demo_room (fun _ => 7%nat) demo_script req s' 200
    demo_parser_made demo_room_pos); [intros; lia|exact Hrun|apply Nat.ltb_lt; vm_compute; reflexivity].
Defined.

(** ** Responses *)

Definition demo_validator : ResponseValidator := mkResponseValidator 256.
Definition demo_response : script := [(quoted "{'id':7,'object':'chat.completion'}", Some ioEOF)].

Lemma demo_validator_made : made_by_NewResponseValidator demo_validator.
Proof. split; [vm_compute; split; congruence || reflexivity | vm_compute; reflexivity]. Qed.

(** The response validator accepts a body exactly when the upstream ends
    without an error within the limit and the body is UTF-8 with paired escapes
    and the text of a shallow, duplicate-free object whose object member is the
    string [chat.completion]; what it returns holds the exact body. *)
Theorem response_accepts_exactly v room rd r :
  made_by_NewResponseValidator v -> (forall n, (0 < room n)%nat) ->
  (exists s', response_Parse v room (background, rd) = Done (Ok r, s')) <->
  Z.of_nat (length (script_data rd)) <= rv_maxBodyBytes v /\ script_err rd = None /\
  object_body chatCompletionObject (script_data rd) /\ r = mkValidatedResponse (script_data rd).
Proof. apply response_accepts. Qed.

Lemma response_accepts_exactly_witness :
  object_body chatCompletionObject (script_data demo_response).
Proof.
  apply (proj1 (response_accepts_exactly demo_validator demo_room demo_response
    (mkValidatedResponse (script_data demo_response)) demo_validator_made demo_room_pos)).
  eexists. vm_compute. reflexivity.
Defined.

(** ** Event streams *)

Definition demo_sse_limits : SSELimits := mkSSELimits 4096 256 8.

(** A byte 126 stands for a line feed. *)
Definition lines (s : string) : list Z := map (fun c => if c =? 126 then c_lf else c) (quoted s).

Definition demo_stream : script :=
  [(lines "data: {'object':'chat.comp", None);
   (lines "letion.chunk'}~~data: [DO", None); (lines "NE]~~", None)].

Lemma demo_sse_u64 : sse_limits_u64 demo_sse_limits.
Proof. unfold sse_limits_u64, is_u64. vm_compute. repeat split; congruence. Qed.

Lemma demo_stream_plain : script_plain demo_stream.
Proof. repeat split; discriminate. Qed.

(** The decoder, and the state and event after each call. *)
Definition demo_d0 : SSEDecoder :=
  match NewSSEDecoder demo_stream demo_sse_limits with
  | Ok d => d
  | Err _ => mkSSEDecoder (newReaderSize [] 0 0) demo_sse_limits sseDecoderFailed 0 0 0 None
  end.
Definition demo_next (d : SSEDecoder) : ValidatedSSEEvent * SSEDecoder :=
  match Next (background, d) with
  | Done (Ok ev, (_, d')) => (ev, d')
  | _ => (mkSSEEvent SSEEventKindDone [], d)
  end.
Definition demo_d1 : SSEDecoder := snd (demo_next demo_d0).
Definition demo_d2 : SSEDecoder := snd (demo_next demo_d1).
Definition demo_d3 : SSEDecoder :=
  match VerifyEOF (background, demo_d2) with Done (_, (_, d)) => d | _ => demo_d2 end.
Definition demo_events : list ValidatedSSEEvent :=
  ([] ++ [fst (demo_next demo_d0)]) ++ [fst (demo_next demo_d1)].

(** Two events, then the verified end. *)
Lemma demo_stream_runs : sse_calls demo_stream demo_sse_limits demo_events demo_d3.
Proof.
  apply (calls_verify _ _ _ demo_d2 background (Ok tt) background); [|vm_compute; reflexivity].
  apply (calls_event _ _ _ demo_d1 background _ background); [|vm_compute; reflexivity].
  apply (calls_event _ _ _ demo_d0 background _ background); [|vm_compute; reflexivity].
  apply calls_new. vm_compute. reflexivity.
Qed.

(** C10: a stream that was read to the terminal event and verified is, byte for
    byte, the events the decoder returned: at least one valid chunk, then the
    [DONE] event, then a clean end of the input, within every limit.  This holds
    for any chunking of the input and any contexts of the calls. *)
Theorem sse_stream_exact s0 lim evs d :
  sse_limits_u64 lim -> script_plain s0 -> sse_calls s0 lim evs d ->
  sd_state d = sseDecoderVerified ->
  script_data s0 = bodies evs /\ script_err s0 = None /\ complete_stream evs /\
  Forall (event_ok lim) evs /\ Z.of_nat (length evs) <= sse_MaxEvents lim /\
  Z.of_nat (length (script_data s0)) <= sse_MaxTotalBytes lim.
Proof.
  intros Hu Hp Hcalls Hst. destruct (sse_calls_inv _ _ _ _ Hu Hp Hcalls) as [_ Hinv].
  destruct Hinv as (_ & Hok & _ & Hle & Hb & Hcase). rewrite Hst in Hcase.
  destruct Hcase as (Hc & Hd & He). rewrite Hd. split_and!; done.
Qed.

Lemma sse_stream_exact_witness :
  script_data demo_stream = bodies demo_events /\ length demo_events = 2%nat.
Proof.
  split; [|reflexivity].
  refine (proj1 (sse_stream_exact demo_stream demo_sse_limits demo_events demo_d3 demo_sse_u64
    demo_stream_plain demo_stream_runs _)). vm_compute. reflexivity.
Defined.

(** Whatever was called before, [Next] and [VerifyEOF] return; the bodies of
    the events returned so far are a prefix of the input, each event is valid
    and within [MaxEventBytes], and there are at most [MaxEvents] of them. *)
Theorem sse_progress_prefix s0 lim evs d ctx :
  sse_limits_u64 lim -> script_plain s0 -> sse_calls s0 lim evs d ->
  bodies evs `prefix_of` script_data s0 /\ Forall (event_ok lim) evs /\
  Z.of_nat (length evs) <= sse_MaxEvents lim /\
  (exists r s', Next (ctx, d) = Done (r, s')) /\ (exists r s', VerifyEOF (ctx, d) = Done (r, s')).
Proof.
  intros Hu Hp Hcalls. destruct (sse_calls_inv _ _ _ _ Hu Hp Hcalls) as [Hl Hinv].
  pose proof Hinv as (_ & Hok & Hpre & Hle & _).
  destruct (wp_Next s0 lim Hl evs ctx d Hinv) as (r & s' & Hn & _).
  destruct (wp_VerifyEOF s0 lim Hl evs ctx d Hinv) as (r' & s'' & Hv & _). eauto 12.
Qed.

Lemma sse_progress_prefix_witness :
  exists r s', Next (mkContext (Some 3%nat) Canceled, demo_d3) = Done (r, s').
Proof.
  exact (proj1 (proj2 (proj2 (proj2 (sse_progress_prefix demo_stream demo_sse_limits demo_events demo_d3
    (mkContext (Some 3%nat) Canceled) demo_sse_u64 demo_stream_plain demo_stream_runs))))).
Defined.

(** Outcomes are final: after a failure, after the terminal event and after
    the verified end, [Next] reads nothing, changes nothing and returns the
    recorded failure, the demand for verification, and the end of the stream. *)
Theorem sse_terminal_sticky s0 lim evs d ctx :
  sse_limits_u64 lim -> script_plain s0 -> sse_calls s0 lim evs d -> sd_state d <> sseDecoderOpen ->
  exists e, Next (ctx, d) = Done (Err e, (ctx, d)) /\
    match sd_state d with
    | sseDecoderFailed => sd_failure d = Some e
    | sseDecoderDoneReturned => e = errSSEVerifyEOFRequired
    | _ => e = sseEOF
    end.
Proof.
  intros Hu Hp Hcalls Hst. destruct (sse_calls_inv _ _ _ _ Hu Hp Hcalls) as [_ Hinv].
  destruct Hinv as (_ & _ & _ & _ & _ & Hcase). unfold Next, mbind, M_bind, decoder, gets. cbn [snd].
  destruct (sd_state d); try done.
  - by eexists.
  - by eexists.
  - destruct Hcase as [e He]. exists e. split; [|exact He]. cbn. by rewrite He.
Qed.

Lemma sse_terminal_sticky_witness :
  exists e, Next (background, demo_d3) = Done (Err e, (background, demo_d3)).
Proof.
  destruct (sse_terminal_sticky demo_stream demo_sse_limits demo_events demo_d3 background demo_sse_u64
    demo_stream_plain demo_stream_runs) as (e & Hn & _); [vm_compute; discriminate|].
  exists e. exact Hn.
Defined.
