(* ===== verification/HttpConfig.v ===== *)
(** * The HTTP policy and the gates before admission

    Package [httpapi]: the validation of the handler's configuration
    ([config.go]), and of [handler.go] what stands before the scheduler:
    authentication, the queue timeout header, and the pre-dispatch slots. *)

From S2P Require Import Prelude.
From S2P Require Import GoJson.
From S2P Require Import AdmissionConfig.
From S2P Require Import AdmissionScheduler.
From S2P Require Import ContractRequest.
From S2P Require Import ContractResponse.
From S2P Require Import ContractSSE.

Definition absoluteMaxCredentials : Z := 4096.
Definition absoluteMaxCredentialBytes : Z := 4096.
Definition absoluteMaxPreDispatchTenants : Z := 1024.
Definition absoluteMaxPreDispatchCount : Z := 4096.
Definition absoluteMaxPolicyTimeout : Z := time_Hour.

Record Credential := mkCredential { cr_Tenant : TenantID; cr_Token : list Z }.
Record TenantPreDispatchLimit := mkTenantLimit { tl_Tenant : TenantID; tl_Count : Z }.

(** [httpapi.Config]; durations are nanoseconds. *)
Record HttpConfig := mkHttpConfig {
  hc_DefaultQueueTimeout : Z;
  hc_BodyReadTimeout : Z;
  hc_UpstreamTimeout : Z;
  hc_StreamReadTimeout : Z;
  hc_StreamEventTimeout : Z;
  hc_MaxResponseBodyBytes : Z;
  hc_MaxStreamEventBytes : Z;
  hc_MaxStreamEvents : Z;
  hc_GlobalPreDispatchLimit : Z;
  hc_TenantPreDispatch : list TenantPreDispatchLimit;
  hc_Credentials : list Credential;
}.

Record storedCredential := mkStored { sc_tenant : TenantID; sc_digest : list Z }.

(** A slot channel is its capacity here; how full it is belongs to the state. *)
Record validatedHandlerConfig := mkValidatedHandler {
  vh_defaultQueueTimeout : Z;
  vh_bodyReadTimeout : Z;
  vh_upstreamTimeout : Z;
  vh_streamReadTimeout : Z;
  vh_streamEventTimeout : Z;
  vh_responseValidator : ResponseValidator;
  vh_sseLimits : SSELimits;
  vh_globalSlots : Z;
  vh_tenantSlots : gmap TenantID Z;
  vh_credentials : list storedCredential;
}.

(** [schedulerPolicy]: what the validation asks of a scheduler. *)
Record schedulerPolicy := mkSchedulerPolicy {
  sp_MaxBodyBytes : Z;
  sp_MaxRequestUnits : Z;
  sp_GlobalQueueLimits : QueueLimits;
  sp_TenantQueueLimits : TenantID -> QueueLimits * bool;
}.

(** One constructor per error; the index is the element at fault. *)
Inductive handlerConfigError :=
| HEBodyLimits | HEWorkLimits
| HETimeout (name : string) | HEStreamReadOrder | HEStreamEventOrder
| HEResponseLimits (e : string) | HESSELimits (e : string)
| HEGlobalCount | HETenantCount | HECredentialCount
| HEEnvelopeCount (scope : option nat) | HEEnvelopeBytes (scope : option nat)
| HEEnvelopeWork (scope : option nat)
| HETenantZero (i : nat) | HETenantBounds (i : nat) | HETenantRepeated (i : nat)
| HETenantUnknown (i : nat)
| HECredentialTenant (i : nat) | HECredentialToken (i : nat) | HECredentialRepeated (i : nat)
| HETenantNoCredential (i : nat).

(** ** Helpers *)

Definition multiply (left right : Z) : Z * bool :=
  let '(hi, low) := mul64 left right in (low, negb (hi =? 0)).

Definition validatePolicyTimeout (name : string) (value maximum : Z) : result handlerConfigError unit :=
  guard_err ((value <=? 0) || (maximum <? value)) (HETimeout name).

Definition validatePreDispatchEnvelope (scope : option nat) (count : Z) (queue : QueueLimits)
    (maxBodyBytes maxRequestUnits : Z) : result handlerConfigError unit :=
  _ ← guard_err (ql_Count queue <? count) (HEEnvelopeCount scope);
  let '(bodyBytes, bodyOverflow) := multiply count maxBodyBytes in
  _ ← guard_err (bodyOverflow || (ql_Bytes queue <? bodyBytes)) (HEEnvelopeBytes scope);
  let '(workUnits, workOverflow) := multiply count maxRequestUnits in
  guard_err (workOverflow || (ql_Work queue <? workUnits)) (HEEnvelopeWork scope).

Definition bearerTokenCharacter (c : Z) : bool :=
  between 97 122 c || between 65 90 c || between 48 57 c
  || (c =? 45) || (c =? 46) || (c =? 95) || (c =? 126) || (c =? 43) || (c =? 47).

(** The loop of [validBearerToken]; [61] is the padding. *)
Fixpoint bearerLoop (padding nonPadding : bool) (token : list Z) : bool :=
  match token with
  | [] => nonPadding
  | c :: rest =>
      if c =? 61 then bearerLoop true nonPadding rest
      else if padding || negb (bearerTokenCharacter c) then false
      else bearerLoop padding true rest
  end.

Definition validBearerToken (token : list Z) : bool :=
  if bool_decide (token = []) || (absoluteMaxCredentialBytes <? Z.of_nat (length token)) then false
  else bearerLoop false false token.

(** ** [validateHandlerConfig]

    [sha256] is the digest of a token: a function of [crypto/sha256] of which
    nothing is assumed. *)

Section Handler.
Context (sha256 : list Z -> list Z).

(** The loop over the tenant limits. *)
Fixpoint validateTenantLimits (config : HttpConfig) (p : Parser) (policy : schedulerPolicy) (index : nat)
    (limits : list TenantPreDispatchLimit) (slots : gmap TenantID Z)
  : result handlerConfigError (gmap TenantID Z) :=
  match limits with
  | [] => Ok slots
  | limit :: rest =>
      _ ← guard_err (tl_Tenant limit =? 0) (HETenantZero index);
      _ ← guard_err ((tl_Count limit =? 0) || (hc_GlobalPreDispatchLimit config <? tl_Count limit)
                     || (absoluteMaxPreDispatchCount <? tl_Count limit)) (HETenantBounds index);
      _ ← guard_err (bool_decide (is_Some (slots !! tl_Tenant limit))) (HETenantRepeated index);
      let '(queue, exists_) := sp_TenantQueueLimits policy (tl_Tenant limit) in
      _ ← guard_err (negb exists_) (HETenantUnknown index);
      _ ← validatePreDispatchEnvelope (Some index) (tl_Count limit) queue
            (lim_MaxBodyBytes (ContractRequest.limits p)) (lim_MaxRequestUnits (ContractRequest.limits p));
      validateTenantLimits config p policy (S index) rest (<[tl_Tenant limit := tl_Count limit]> slots)
  end.

(** The loop over the credentials; what it gathers. *)
Record credentialAcc := mkCredentialAcc {
  ca_credentials : list storedCredential;
  ca_tenants : gset TenantID;
  ca_digests : gset (list Z);
}.

Fixpoint validateCredentials (slots : gmap TenantID Z) (index : nat) (credentials : list Credential)
    (acc : credentialAcc) : result handlerConfigError credentialAcc :=
  match credentials with
  | [] => Ok acc
  | credential :: rest =>
      _ ← guard_err (negb (bool_decide (is_Some (slots !! cr_Tenant credential)))) (HECredentialTenant index);
      _ ← guard_err (negb (validBearerToken (cr_Token credential))) (HECredentialToken index);
      let digest := sha256 (cr_Token credential) in
      _ ← guard_err (bool_decide (digest ∈ ca_digests acc)) (HECredentialRepeated index);
      validateCredentials slots (S index) rest
        (mkCredentialAcc (ca_credentials acc ++ [mkStored (cr_Tenant credential) digest])
           ({[cr_Tenant credential]} ∪ ca_tenants acc) ({[digest]} ∪ ca_digests acc))
  end.

(** Every tenant limit has a credential. *)
Fixpoint validateCovered (tenants : gset TenantID) (index : nat) (limits : list TenantPreDispatchLimit)
  : result handlerConfigError unit :=
  match limits with
  | [] => Ok tt
  | limit :: rest =>
      _ ← guard_err (negb (bool_decide (tl_Tenant limit ∈ tenants))) (HETenantNoCredential index);
      validateCovered tenants (S index) rest
  end.

Definition wrapErr {E F A} (f : E -> F) (r : result E A) : result F A :=
  match r with Ok a => Ok a | Err e => Err (f e) end.

Definition validateHandlerConfig (config : HttpConfig) (p : Parser) (policy : schedulerPolicy)
  : result handlerConfigError validatedHandlerConfig :=
  let maxBody := lim_MaxBodyBytes (ContractRequest.limits p) in
  let maxUnits := lim_MaxRequestUnits (ContractRequest.limits p) in
  _ ← guard_err (negb (maxBody =? sp_MaxBodyBytes policy)) HEBodyLimits;
  _ ← guard_err (negb (maxUnits =? sp_MaxRequestUnits policy)) HEWorkLimits;
  _ ← validatePolicyTimeout "default queue" (hc_DefaultQueueTimeout config) MaximumQueueTimeout;
  _ ← validatePolicyTimeout "body read" (hc_BodyReadTimeout config) absoluteMaxPolicyTimeout;
  _ ← validatePolicyTimeout "upstream" (hc_UpstreamTimeout config) absoluteMaxPolicyTimeout;
  _ ← validatePolicyTimeout "stream read" (hc_StreamReadTimeout config) absoluteMaxPolicyTimeout;
  _ ← validatePolicyTimeout "stream event" (hc_StreamEventTimeout config) absoluteMaxPolicyTimeout;
  _ ← guard_err (hc_StreamEventTimeout config <? hc_StreamReadTimeout config) HEStreamReadOrder;
  _ ← guard_err (hc_UpstreamTimeout config <? hc_StreamEventTimeout config) HEStreamEventOrder;
  responseValidator ← wrapErr HEResponseLimits (NewResponseValidator (hc_MaxResponseBodyBytes config));
  let sseLimits := mkSSELimits (hc_MaxResponseBodyBytes config) (hc_MaxStreamEventBytes config)
                     (hc_MaxStreamEvents config) in
  _ ← wrapErr HESSELimits (ValidateSSELimits sseLimits);
  _ ← guard_err ((hc_GlobalPreDispatchLimit config =? 0)
                 || (absoluteMaxPreDispatchCount <? hc_GlobalPreDispatchLimit config)) HEGlobalCount;
  _ ← guard_err ((Z.of_nat (length (hc_TenantPreDispatch config)) =? 0)
                 || (absoluteMaxPreDispatchTenants <? Z.of_nat (length (hc_TenantPreDispatch config))))
        HETenantCount;
  _ ← guard_err ((Z.of_nat (length (hc_Credentials config)) =? 0)
                 || (absoluteMaxCredentials <? Z.of_nat (length (hc_Credentials config)))) HECredentialCount;
  _ ← validatePreDispatchEnvelope None (hc_GlobalPreDispatchLimit config)
        (sp_GlobalQueueLimits policy) maxBody maxUnits;
  tenantSlots ← validateTenantLimits config p policy 0 (hc_TenantPreDispatch config) ∅;
  acc ← validateCredentials tenantSlots 0 (hc_Credentials config) (mkCredentialAcc [] ∅ ∅);
  _ ← validateCovered (ca_tenants acc) 0 (hc_TenantPreDispatch config);
  Ok (mkValidatedHandler (hc_DefaultQueueTimeout config) (hc_BodyReadTimeout config)
        (hc_UpstreamTimeout config) (hc_StreamReadTimeout config) (hc_StreamEventTimeout config)
        responseValidator sseLimits (hc_GlobalPreDispatchLimit config) tenantSlots (ca_credentials acc)).

(** [configuredSchedulerPolicy] of [ValidateConfig], and the live scheduler's. *)
Definition configuredSchedulerPolicy (c : AdmissionConfig.Config) : schedulerPolicy :=
  let tenantQueues :=
    foldl (fun m t => <[tc_ID t := tc_Queue t]> m) (∅ : gmap TenantID QueueLimits) (c_Tenants c) in
  mkSchedulerPolicy (c_MaxBodyBytes c) (c_MaxRequestUnits c) (c_GlobalQueue c)
    (fun id => match tenantQueues !! id with
               | Some q => (q, true)
               | None => (MkQueueLimits 0 0 0, false)
               end).

Definition schedulerPolicyOf (v : validatedConfig) : schedulerPolicy :=
  mkSchedulerPolicy (vc_maxBodyBytes v) (vc_maxRequestUnits v) (GlobalQueueLimits v) (TenantQueueLimits v).

(** [httpapi.ValidateConfig] *)
Definition http_ValidateConfig (config : HttpConfig) (p : Parser) (c : AdmissionConfig.Config)
  : result (option handlerConfigError) unit :=
  match AdmissionConfig.ValidateConfig c with
  | Err _ => Err None
  | Ok _ =>
      match validateHandlerConfig config p (configuredSchedulerPolicy c) with
      | Ok _ => Ok tt
      | Err e => Err (Some e)
      end
  end.

(** ** [authenticate] *)

(** [strings.EqualFold(text, ascii)] for an ASCII second argument: the letters of
    either case are equal, and two characters outside ASCII fold to ASCII
    letters, the Kelvin sign (E2 84 AA) to k and the long s (C5 BF) to s. *)
Definition lower (c : Z) : Z := if between 65 90 c then c + 32 else c.

Fixpoint foldText (text : list Z) : list Z :=
  match text with
  | 226 :: 132 :: 170 :: rest => 107 :: foldText rest
  | 197 :: 191 :: rest => 115 :: foldText rest
  | c :: rest => lower c :: foldText rest
  | [] => []
  end.

Definition equalFold (text ascii : list Z) : bool := bool_decide (foldText text = map lower ascii).

(** [subtle.ConstantTimeCompare] as 0 or 1. *)
Definition constantTimeCompare (a b : list Z) : Z := if bool_decide (a = b) then 1 else 0.

(** One turn of the loop, on [uint32] values. *)
Definition matchCredential (digest : list Z) (acc : Z * Z) (c : storedCredential) : Z * Z :=
  let '(tenant, matched) := acc in
  let equal := constantTimeCompare digest (sc_digest c) in
  let mask := u32 (0 - equal) in
  (Z.lor (Z.ldiff tenant mask) (Z.land (sc_tenant c) mask), Z.lor matched equal).

Definition authenticate (credentials : list storedCredential) (values : list (list Z)) : TenantID * bool :=
  match values with
  | [value] =>
      if (Z.of_nat (length value) <? 8) || negb (equalFold (take 6 value) (bs "Bearer"))
         || negb (bool_decide (value !! 6%nat = Some c_space))
      then (0, false) else
      let token := drop 7 value in
      if negb (validBearerToken token) then (0, false) else
      let '(tenant, matched) := foldl (matchCredential (sha256 token)) (0, 0) credentials in
      (tenant, matched =? 1)
  | _ => (0, false)
  end.
End Handler.

(** ** [queueTimeout] *)

(** [strconv.ParseInt(text, 10, 64)] on at most ten decimal digits. *)
Definition parseInt (text : list Z) : option Z :=
  match parseUint text with
  | Some v => if v <=? max_int64 then Some v else None
  | None => None
  end.

Definition queueTimeout (defaultQueueTimeout : Z) (values : list (list Z)) : Z * bool :=
  match values with
  | [] => (defaultQueueTimeout, true)
  | [value] =>
      if bool_decide (value = []) || (10 <? Z.of_nat (length value)) then (0, false)
      else if negb (forallb is_digit value) then (0, false)
      else
        match parseInt value with
        | None => (0, false)
        | Some milliseconds =>
            if milliseconds <=? 0 then (0, false)
            else if Z.quot defaultQueueTimeout time_Millisecond <? milliseconds then (0, false)
            else (int64 (milliseconds * time_Millisecond), true)
        end
  | _ => (0, false)
  end.

(** ** The pre-dispatch slots *)

(** How many slots of each channel are taken, under their capacities. *)
Record slotState := mkSlotState { ss_global : Z; ss_tenant : gmap TenantID Z }.

(** A lease: whether it still holds its tenant's and the global channel, and
    whether [once] has run. *)
Record preDispatchLease := mkLease {
  le_tenant : option TenantID;
  le_global : bool;
  le_tenantFull : bool;
  le_once : bool;
}.

Definition taken (s : slotState) (t : TenantID) : Z := default 0 (ss_tenant s !! t).

(** Sends and receives on the slot channels that do not block. *)
Definition takeTenant (t : TenantID) (s : slotState) : slotState :=
  mkSlotState (ss_global s) (<[t := taken s t + 1]> (ss_tenant s)).
Definition takeGlobal (s : slotState) : slotState := mkSlotState (ss_global s + 1) (ss_tenant s).
Definition giveTenant (t : TenantID) (s : slotState) : slotState :=
  mkSlotState (ss_global s) (<[t := taken s t - 1]> (ss_tenant s)).
Definition giveGlobal (s : slotState) : slotState := mkSlotState (ss_global s - 1) (ss_tenant s).

(** A nil channel (an unknown tenant) never accepts a send. *)
Definition acquirePreDispatch (v : validatedHandlerConfig) (t : TenantID)
  : M slotState (preDispatchLease * bool) := fun s =>
  match vh_tenantSlots v !! t with
  | Some capacity =>
      if taken s t <? capacity then
        let s1 := takeTenant t s in
        if ss_global s1 <? vh_globalSlots v
        then Done ((mkLease (Some t) true false false, true), takeGlobal s1)
        else
          (* the tenant's slot is received back *)
          if 0 <? taken s1 t
          then Done ((mkLease None true false false, false), giveTenant t s1)
          else Panicked "receive from an empty slot channel"
      else Done ((mkLease (Some t) true true false, false), s)
  | None => Done ((mkLease None true true false, false), s)
  end.

(** [release]; a receive from an empty channel would block for ever. *)
Definition release (l : preDispatchLease) : M slotState preDispatchLease := fun s =>
  if le_once l then Done (l, s) else
  let l' := mkLease (le_tenant l) (le_global l) (le_tenantFull l) true in
  let receiveTenant (s : slotState) :=
    match le_tenant l with
    | None => Done (l', s)
    | Some t => if 0 <? taken s t then Done (l', giveTenant t s)
                else Panicked "receive from an empty slot channel"
    end in
  if le_global l then
    if 0 <? ss_global s then receiveTenant (giveGlobal s)
    else Panicked "receive from an empty slot channel"
  else receiveTenant s.
