(* ===== verification/HttpGate.v ===== *)
(** * The gates before admission

    What the validation of the HTTP policy guarantees about credentials and slots,
    the search for a credential, and the accounting of the slots.  Then the slots
    under interleaving: [acquirePreDispatch] and [release] ([handler.go]) cut at
    their channel operations, where each request is a goroutine whose next operation
    may run at any time between those of the others. *)

From S2P Require Import Prelude Interleave AdmissionConfig AdmissionOwner AdmissionInv AdmissionHandle AdmissionScheduler.
From S2P Require Import GoJson ContractRequest ContractResponse ContractSSE HttpConfig.

(** ** The validated configuration *)

Section Validated.
Context (sha256 : list Z -> list Z).

Definition stored (c : Credential) : storedCredential := mkStored (cr_Tenant c) (sha256 (cr_Token c)).

(** What the loop over the credentials has gathered. *)
Record gathered (done : list Credential) (acc : credentialAcc) : Prop := {
  ga_credentials : ca_credentials acc = map stored done;
  ga_digests : ca_digests acc = list_to_set (map sc_digest (map stored done));
  ga_nodup : NoDup (map sc_digest (map stored done));
}.

Lemma validateCredentials_Ok slots rest : forall index done acc acc',
  gathered done acc -> validateCredentials sha256 slots index rest acc = Ok acc' ->
  gathered (done ++ rest) acc' /\
  Forall (fun c => is_Some (slots !! cr_Tenant c) /\ validBearerToken (cr_Token c) = true) rest.
Proof.
  induction rest as [|c rest IH]; intros index done acc acc' Hg H; cbn in H.
  { injection H as <-. by rewrite app_nil_r. }
  apply guard_err_Ok in H as [Hslot H]. apply guard_err_Ok in H as [Htok H].
  apply guard_err_Ok in H as [Hnew H]. breflect. destruct Hg as [Hc Hd Hn].
  rewrite Hd, elem_of_list_to_set in Hnew.
  eapply (IH _ (done ++ [c])) in H as [Hg' Hall].
  - rewrite <- app_assoc in Hg'. split; [done|]. by constructor.
  - assert (map sc_digest (map stored (done ++ [c])) = map sc_digest (map stored done) ++ [sha256 (cr_Token c)])
      as Heq by (by rewrite !map_app).
    split; cbn.
    + by rewrite Hc, map_app.
    + rewrite Heq, Hd, list_to_set_app_L. cbn. by rewrite union_empty_r_L, union_comm_L.
    + rewrite Heq. apply list.NoDup_app. split_and!; [done| |apply NoDup_singleton].
      intros x Hx ->%list_elem_of_singleton. done.
Qed.

(** The tenants with slots are the ones with a limit, none of them zero, and
    each limit passed its envelope. *)
Definition slot_ok (c : HttpConfig) (p : Parser) (policy : schedulerPolicy) (t : TenantID) (n : Z) : Prop :=
  t <> 0 /\ 0 <> n /\ n <= hc_GlobalPreDispatchLimit c /\
  exists queue index, sp_TenantQueueLimits policy t = (queue, true) /\
    validatePreDispatchEnvelope (Some index) n queue (lim_MaxBodyBytes (ContractRequest.limits p))
      (lim_MaxRequestUnits (ContractRequest.limits p)) = Ok tt.

Lemma validateTenantLimits_Ok c p policy rest : forall index slots slots',
  map_Forall (slot_ok c p policy) slots ->
  validateTenantLimits c p policy index rest slots = Ok slots' -> map_Forall (slot_ok c p policy) slots'.
Proof.
  induction rest as [|limit rest IH]; intros index slots slots' Hs H; cbn in H; [by injection H as <-|].
  apply guard_err_Ok in H as [Hz H]. apply guard_err_Ok in H as [Hb H]. apply guard_err_Ok in H as [Hr H].
  destruct (sp_TenantQueueLimits policy (tl_Tenant limit)) as [queue known] eqn:Hq.
  apply guard_err_Ok in H as [Hk H]. apply result_bind_Ok in H as ([] & He & H). breflect.
  eapply IH; [|exact H]. apply map_Forall_insert_2; [|done]. subst known.
  split; [done|]. split; [congruence|]. split; [done|]. eauto.
Qed.

(** A validated configuration and what it was made from. *)
Record handler_of (c : HttpConfig) (p : Parser) (policy : schedulerPolicy) (v : validatedHandlerConfig) : Prop := {
  ho_bodies : lim_MaxBodyBytes (ContractRequest.limits p) = sp_MaxBodyBytes policy;
  ho_units : lim_MaxRequestUnits (ContractRequest.limits p) = sp_MaxRequestUnits policy;
  ho_queueTimeout : vh_defaultQueueTimeout v = hc_DefaultQueueTimeout c;
  ho_bodyTimeout : vh_bodyReadTimeout v = hc_BodyReadTimeout c;
  ho_upstreamTimeout : vh_upstreamTimeout v = hc_UpstreamTimeout c;
  ho_timeout : 0 < hc_DefaultQueueTimeout c <= MaximumQueueTimeout;
  ho_global : vh_globalSlots v = hc_GlobalPreDispatchLimit c;
  ho_globalPositive : hc_GlobalPreDispatchLimit c <> 0;
  ho_envelope : validatePreDispatchEnvelope None (hc_GlobalPreDispatchLimit c) (sp_GlobalQueueLimits policy)
    (lim_MaxBodyBytes (ContractRequest.limits p)) (lim_MaxRequestUnits (ContractRequest.limits p)) = Ok tt;
  ho_slots : map_Forall (slot_ok c p policy) (vh_tenantSlots v);
  ho_credentials : vh_credentials v = map stored (hc_Credentials c);
  ho_nodup : NoDup (map sc_digest (map stored (hc_Credentials c)));
  ho_each : Forall (fun cr => is_Some (vh_tenantSlots v !! cr_Tenant cr) /\ validBearerToken (cr_Token cr) = true)
    (hc_Credentials c);
}.

Lemma validateHandlerConfig_Ok c p policy v :
  validateHandlerConfig sha256 c p policy = Ok v -> handler_of c p policy v.
Proof.
  intros H. unfold validateHandlerConfig in H.
  apply guard_err_Ok in H as [Hb H]. apply guard_err_Ok in H as [Hu H].
  apply result_bind_Ok in H as ([] & Hq & H).
  do 6 (apply result_bind_Ok in H as ([] & _ & H)).
  apply result_bind_Ok in H as (rv & _ & H). apply result_bind_Ok in H as ([] & _ & H).
  apply guard_err_Ok in H as [Hg H]. do 2 apply guard_err_Ok in H as [_ H].
  apply result_bind_Ok in H as ([] & He & H).
  apply result_bind_Ok in H as (slots & Hs & H). apply result_bind_Ok in H as (acc & Hc & H).
  apply result_bind_Ok in H as ([] & _ & H). injection H as <-.
  unfold validatePolicyTimeout, guard_err in Hq. destruct (_ || _) eqn:Ht in Hq; [done|]. breflect.
  eapply (validateCredentials_Ok slots _ _ []) in Hc as [[Hcr _ Hnd] Hall]; [|by split; [..|constructor]].
  eapply validateTenantLimits_Ok in Hs; [|apply map_Forall_empty].
  split; cbn; try done.
Qed.
End Validated.

(** ** The search for a credential *)

Lemma ldiff_ones32 t : is_u32 t -> Z.ldiff t (u32 (0 - 1)) = 0.
Proof.
  intros Ht. replace (u32 (0 - 1)) with (Z.ones 32) by reflexivity.
  rewrite Z.ldiff_ones_r by lia. rewrite Z.shiftr_div_pow2 by lia. unfold is_u32, two32 in Ht.
  rewrite Z.div_small by lia. apply Z.shiftl_0_l.
Qed.

Lemma land_ones32 t : is_u32 t -> Z.land t (u32 (0 - 1)) = t.
Proof.
  intros Ht. replace (u32 (0 - 1)) with (Z.ones 32) by reflexivity.
  rewrite Z.land_ones by lia. apply Z.mod_small. exact Ht.
Qed.

(** One turn of the constant-time loop selects, or keeps. *)
Lemma matchCredential_hit digest t m c :
  is_u32 t -> is_u32 (sc_tenant c) -> sc_digest c = digest ->
  matchCredential digest (t, m) c = (sc_tenant c, Z.lor m 1).
Proof.
  intros Ht Hc Hd. unfold matchCredential, constantTimeCompare.
  rewrite bool_decide_eq_true_2 by done. by rewrite ldiff_ones32, land_ones32.
Qed.

Lemma matchCredential_miss digest t m c :
  sc_digest c <> digest -> matchCredential digest (t, m) c = (t, m).
Proof.
  intros Hd. unfold matchCredential, constantTimeCompare. rewrite bool_decide_eq_false_2 by congruence.
  replace (u32 (0 - 0)) with 0 by reflexivity. by rewrite Z.ldiff_0_r, Z.land_0_r, !Z.lor_0_r.
Qed.

Lemma matchCredential_misses digest t m l :
  digest ∉ map sc_digest l -> foldl (matchCredential digest) (t, m) l = (t, m).
Proof.
  induction l as [|c l IH]; intros Hn; [done|]. cbn [map] in Hn. apply not_elem_of_cons in Hn as [H1 H2].
  cbn [foldl]. rewrite matchCredential_miss by congruence. auto.
Qed.

(** With distinct digests the loop is a search. *)
Lemma matchCredential_search digest l :
  Forall (fun c => is_u32 (sc_tenant c)) l -> NoDup (map sc_digest l) ->
  forall t, is_u32 t ->
  (exists c, (c ∈ l) /\ sc_digest c = digest /\ foldl (matchCredential digest) (t, 0) l = (sc_tenant c, 1)) \/
  (digest ∉ map sc_digest l) /\ foldl (matchCredential digest) (t, 0) l = (t, 0).
Proof.
  induction l as [|c l IH]; intros Hu Hn t Ht; [right; split; [apply not_elem_of_nil|done]|].
  apply Forall_cons in Hu as [Hc Hu]. cbn [map] in Hn. apply NoDup_cons in Hn as [Hnin Hn].
  destruct (decide (sc_digest c = digest)) as [Hd|Hd].
  - left. exists c. split; [left|]. split; [done|]. cbn [foldl]. rewrite matchCredential_hit by done.
    apply matchCredential_misses. by rewrite <- Hd.
  - destruct (IH Hu Hn t Ht) as [(c' & Hin & Hd' & Hf)|[Hnin' Hf]].
    + left. exists c'. split; [by right|]. split; [done|]. cbn [foldl]. by rewrite matchCredential_miss.
    + right. split; [cbn; apply not_elem_of_cons; split; [congruence|done]|].
      cbn [foldl]. by rewrite matchCredential_miss.
Qed.

(** ** The envelope of the slots *)

(** The slots' requests fit in the queue all together. *)
Definition envelope (n : Z) (queue : QueueLimits) (maxBody maxUnits : Z) : Prop :=
  n <= ql_Count queue /\ n * maxBody <= ql_Bytes queue /\ n * maxUnits <= ql_Work queue.

Lemma multiply_fits l r limit :
  0 <= l -> 0 <= r -> (let '(low, over) := multiply l r in over || (limit <? low)) = false -> l * r <= limit.
Proof.
  intros Hl Hr H. destruct (mul64_spec l r Hl Hr) as [Hfit _]. unfold multiply in H.
  destruct (mul64 l r) as [hi low]. cbn [fst snd] in Hfit. breflect. destruct (Hfit H). lia.
Qed.

Lemma validatePreDispatchEnvelope_Ok scope n queue maxBody maxUnits :
  0 <= n -> 0 <= maxBody -> 0 <= maxUnits ->
  validatePreDispatchEnvelope scope n queue maxBody maxUnits = Ok tt -> envelope n queue maxBody maxUnits.
Proof.
  intros Hn Hb Hu H. unfold validatePreDispatchEnvelope in H. apply guard_err_Ok in H as [Hc H].
  pose proof (multiply_fits n maxBody (ql_Bytes queue) Hn Hb) as H1.
  pose proof (multiply_fits n maxUnits (ql_Work queue) Hn Hu) as H2.
  destruct (multiply n maxBody) as [bytes o1]. apply guard_err_Ok in H as [Hb' H].
  destruct (multiply n maxUnits) as [work o2]. unfold guard_err in H.
  destruct (o2 || _) eqn:Hw; [done|].
  apply Z.ltb_ge in Hc. split; [lia|]. auto.
Qed.

(** What the entries of a queue charge is bounded by how many there are. *)
Lemma tally_bounded v P E :
  map_Forall (fun _ e => admissible v (e_admission e)) E ->
  0 <= QueuedCount (tally P E) /\
  QueuedBytes (tally P E) <= QueuedCount (tally P E) * vc_maxBodyBytes v /\
  QueuedWork (tally P E) <= QueuedCount (tally P E) * vc_maxRequestUnits v.
Proof.
  induction E as [|id e E Hid IH] using map_ind; intros HE; [rewrite tally_empty; cbn; lia|].
  apply map_Forall_insert in HE as [[Hb Hw] HE]; [|done]. destruct (IH HE) as (H0 & H1 & H2).
  rewrite tally_insert by done. unfold charge_if, charge.
  destruct (P e), (e_phase e) as [[]|]; cbn; lia.
Qed.

(** With a slot to spare the queue has room for one more. *)
Lemma envelope_room c a n queue maxBody maxUnits :
  envelope n queue maxBody maxUnits -> 0 <= QueuedCount c < n ->
  QueuedBytes c <= QueuedCount c * maxBody -> QueuedWork c <= QueuedCount c * maxUnits ->
  0 < a_BodyBytes a <= maxBody -> 0 < a_WorkUnits a <= maxUnits ->
  exceeded c a queue = ResourceNone.
Proof.
  intros (Hn & Hb & Hw) Hc Hcb Hcw Hab Haw. unfold exceeded.
  assert ((QueuedCount c + 1) * maxBody <= n * maxBody) by (apply Z.mul_le_mono_nonneg_r; lia).
  assert ((QueuedCount c + 1) * maxUnits <= n * maxUnits) by (apply Z.mul_le_mono_nonneg_r; lia).
  repeat (case_match eqn:E; breflect; [exfalso; nia|clear E]). done.
Qed.

(** ** The queue timeout header *)

(** The number that decimal digits write. *)
Definition decimal (text : list Z) : Z := foldl (fun acc d => acc * 10 + (d - 48)) 0 text.

Lemma is_digit_range d : is_digit d = true -> 0 <= d - 48 <= 9.
Proof. unfold is_digit, between. intros H. breflect. lia. Qed.

Lemma decimal_bound text : forall acc, 0 <= acc -> forallb is_digit text = true ->
  0 <= foldl (fun acc d => acc * 10 + (d - 48)) acc text < (acc + 1) * 10 ^ Z.of_nat (length text).
Proof.
  induction text as [|d text IH]; intros acc Ha Hd; [cbn; lia|].
  cbn [forallb] in Hd. breflect. pose proof (is_digit_range d H). cbn [foldl length].
  rewrite Nat2Z.inj_succ, Z.pow_succ_r by lia.
  destruct (IH (acc * 10 + (d - 48)) ltac:(lia) H0) as [H2 H3]. split; [done|].
  eapply Z.lt_le_trans; [exact H3|]. rewrite Z.mul_assoc. apply Z.mul_le_mono_nonneg_r; lia.
Qed.

Lemma parse_digits_foldl text : forall acc, 0 <= acc -> forallb is_digit text = true ->
  (acc + 1) * 10 ^ Z.of_nat (length text) <= two64 ->
  parse_digits acc text = Some (foldl (fun acc d => acc * 10 + (d - 48)) acc text).
Proof.
  induction text as [|d text IH]; intros acc Ha Hd Hb; [done|].
  cbn [forallb] in Hd. breflect. pose proof (is_digit_range d H). cbn [foldl parse_digits length] in *.
  rewrite Nat2Z.inj_succ, Z.pow_succ_r in Hb by lia.
  assert (1 <= 10 ^ Z.of_nat (length text)) by (apply Z.lt_pred_le; cbn; apply Z.pow_pos_nonneg; lia).
  assert ((acc * 10 + (d - 48) + 1) * 10 ^ Z.of_nat (length text) <= two64) as Hb'.
  { etransitivity; [|exact Hb]. rewrite Z.mul_assoc. apply Z.mul_le_mono_nonneg_r; lia. }
  replace (_ <? two64) with true; [by apply IH; [lia|..]|]. symmetry. apply Z.ltb_lt. nia.
Qed.

Lemma parseInt_decimal text :
  text <> [] -> Z.of_nat (length text) <= 10 -> forallb is_digit text = true ->
  parseInt text = Some (decimal text) /\ 0 <= decimal text < 10 ^ 10.
Proof.
  intros Hne Hlen Hd. destruct (decimal_bound text 0) as [H0 H1]; [lia|done|].
  assert (10 ^ Z.of_nat (length text) <= 10 ^ 10) as Hp by (apply Z.pow_le_mono_r; lia).
  fold (decimal text) in *. rewrite Z.mul_1_l in H1. split; [|lia].
  unfold parseInt, parseUint. destruct text as [|d text]; [done|]. rewrite Hd.
  rewrite parse_digits_foldl by (done || (rewrite Z.mul_1_l; unfold two64; lia)).
  fold (decimal (d :: text)). replace (_ <=? max_int64) with true; [done|].
  symmetry. apply Z.leb_le. unfold max_int64. lia.
Qed.

(** ** The configured policy and the live one *)

Lemma queues_lookup ts id q :
  NoDup (map tc_ID ts) ->
  foldl (fun m t => <[tc_ID t := tc_Queue t]> m) (∅ : gmap TenantID QueueLimits) ts !! id = Some q <->
  exists i t, ts !! i = Some t /\ tc_ID t = id /\ tc_Queue t = q.
Proof.
  induction ts as [|t ts IH] using rev_ind; intros Hn.
  - cbn. rewrite lookup_empty. split; [done|]. by intros (i & t & Ht & _).
  - rewrite map_app, list.NoDup_app in Hn. destruct Hn as (Hn & Hfresh & _).
    rewrite foldl_app. cbn [foldl]. rewrite lookup_insert. case_decide as Hid.
    + split; [intros [= <-]; exists (length ts), t; by rewrite list_lookup_middle|].
      intros (i & t' & Hi & Ht' & Hq). apply lookup_app_Some in Hi as [Hi|[_ Hi]].
      * exfalso. apply (Hfresh id); [|cbn; rewrite Hid; left].
        apply list_elem_of_fmap. exists t'. split; [done|]. by eapply list_elem_of_lookup_2.
      * apply list_lookup_singleton_Some in Hi as [_ ->]. by rewrite Hq.
    + rewrite IH by done. split; intros (i & t' & Hi & Ht' & Hq); exists i, t'; (split; [|done]).
      * by apply lookup_app_l_Some.
      * apply lookup_app_Some in Hi as [Hi|[_ Hi]]; [done|].
        apply list_lookup_singleton_Some in Hi as [_ ->]. done.
Qed.

Lemma policies_agree c id :
  NoDup (map tc_ID (c_Tenants c)) ->
  sp_TenantQueueLimits (configuredSchedulerPolicy c) id =
  sp_TenantQueueLimits (schedulerPolicyOf (validated_of c)) id.
Proof.
  intros Hn. cbn -[foldl]. unfold TenantQueueLimits.
  set (queues := foldl _ _ _). pose proof (fun q => queues_lookup (c_Tenants c) id q Hn) as Hq.
  fold queues in Hq. destruct (vc_tenantByID (validated_of c) !! id) as [i|] eqn:Hby; cbn in Hby.
  - apply acc_of_byID in Hby as (t & Ht & Hid); [|done].
    assert (vc_tenants (validated_of c) !! i = Some (validated_tenant c t)) as ->
      by (apply validated_of_tenants; eauto).
    by rewrite (proj2 (Hq (tc_Queue t))) by eauto.
  - destruct (queues !! id) as [q|]; [|done].
    destruct (proj1 (Hq q) eq_refl) as (i & t & Ht & Hid & _).
    apply acc_of_byID_None in Hby; [|done]. exfalso. apply Hby. apply list_elem_of_fmap.
    exists t. split; [done|]. by eapply list_elem_of_lookup_2.
Qed.

(** The validation looks at a policy only through its four methods. *)
Lemma validateTenantLimits_ext c p P1 P2 rest :
  (forall id, sp_TenantQueueLimits P1 id = sp_TenantQueueLimits P2 id) -> forall index slots,
  validateTenantLimits c p P1 index rest slots = validateTenantLimits c p P2 index rest slots.
Proof.
  intros HP. induction rest as [|limit rest IH]; intros index slots; [done|]. cbn. rewrite HP.
  destruct (sp_TenantQueueLimits P2 _) as [queue known].
  do 4 (destruct (guard_err _ _) as [[]|e]; [cbn|done]).
  destruct (validatePreDispatchEnvelope _ _ _ _ _) as [[]|e]; [cbn|done]. apply IH.
Qed.

Lemma validateHandlerConfig_ext sha256 c p P1 P2 :
  sp_MaxBodyBytes P1 = sp_MaxBodyBytes P2 -> sp_MaxRequestUnits P1 = sp_MaxRequestUnits P2 ->
  sp_GlobalQueueLimits P1 = sp_GlobalQueueLimits P2 ->
  (forall id, sp_TenantQueueLimits P1 id = sp_TenantQueueLimits P2 id) ->
  validateHandlerConfig sha256 c p P1 = validateHandlerConfig sha256 c p P2.
Proof.
  intros H1 H2 H3 H4. unfold validateHandlerConfig. rewrite H1, H2, H3.
  by rewrite (validateTenantLimits_ext c p P1 P2 _ H4 0 ∅).
Qed.

(** Checking a policy against the scheduler's configuration and building the
    handler against the live scheduler come to the same. *)
Lemma http_ValidateConfig_live sha256 config p c :
  typed_config c ->
  http_ValidateConfig sha256 config p c =
    match validateConfig c with
    | Err _ => Err None
    | Ok v =>
        match validateHandlerConfig sha256 config p (schedulerPolicyOf v) with
        | Ok _ => Ok tt
        | Err e => Err (Some e)
        end
    end.
Proof.
  intros Hty. unfold http_ValidateConfig, ValidateConfig.
  destruct (validateConfig c) as [v|e] eqn:Hv; [|done]. cbn.
  apply validateConfig_Ok in Hv as [Hvalid ->]; [|done].
  rewrite (validateHandlerConfig_ext sha256 config p _ (schedulerPolicyOf (validated_of c))); try done.
  intros id. apply policies_agree. by destruct Hvalid.
Qed.

(** * The pre-dispatch slots under interleaving *)

(** Where a request stands: before its sends, holding the tenant's slot, about
    to give it back, holding both, having given the global one back, finished. *)
Inductive slotPhase :=
| SpStart (t : TenantID)
| SpTenant (t : TenantID)
| SpGiveBack (t : TenantID)
| SpHeld (t : TenantID)
| SpReleasing (t : TenantID)
| SpDone (t : TenantID) (served : bool).

(** The next channel operation; [None] when it would block. *)
Definition slot_next (v : validatedHandlerConfig) (ph : slotPhase) (s : slotState)
  : option (slotPhase * slotState) :=
  match ph with
  | SpStart t =>
      match vh_tenantSlots v !! t with
      | Some capacity =>
          if taken s t <? capacity then Some (SpTenant t, takeTenant t s) else Some (SpDone t false, s)
      | None => Some (SpDone t false, s)
      end
  | SpTenant t => if ss_global s <? vh_globalSlots v then Some (SpHeld t, takeGlobal s) else Some (SpGiveBack t, s)
  | SpGiveBack t => if 0 <? taken s t then Some (SpDone t false, giveTenant t s) else None
  | SpHeld t => if 0 <? ss_global s then Some (SpReleasing t, giveGlobal s) else None
  | SpReleasing t => if 0 <? taken s t then Some (SpDone t true, giveTenant t s) else None
  | SpDone t served => Some (SpDone t served, s)
  end.

Definition noSlots : slotState := mkSlotState 0 ∅.

(** A request's next operation as a turn; any tenant's requests may arrive. *)
Definition slot_turn (v : validatedHandlerConfig) (_ : unit) (ph : slotPhase) (s : slotState)
  : comp (turned slotState slotPhase) :=
  match slot_next v ph s with
  | Some (ph', s') => Done (Moved ph' s' [])
  | None => Done Blocked
  end.
Definition slot_request (ph : slotPhase) : bool := match ph with SpStart _ => true | _ => false end.

Definition slots_reachable (v : validatedHandlerConfig) (s : slotState) (l : list slotPhase) : Prop :=
  interleaved (slot_turn v) slot_request noSlots s l.

(** ** The sequential composition *)

(** Without interruption the operations are [acquirePreDispatch] and [release]. *)
Lemma acquire_by_operations v t s :
  acquirePreDispatch v t s =
  match slot_next v (SpStart t) s with
  | Some (SpTenant _, s1) =>
      match slot_next v (SpTenant t) s1 with
      | Some (SpHeld _, s2) => Done ((mkLease (Some t) true false false, true), s2)
      | _ =>
          match slot_next v (SpGiveBack t) s1 with
          | Some (_, s2) => Done ((mkLease None true false false, false), s2)
          | None => Panicked "receive from an empty slot channel"
          end
      end
  | _ => Done ((mkLease (vh_tenantSlots v !! t ≫= fun _ => Some t) true true false, false), s)
  end.
Proof.
  unfold acquirePreDispatch, slot_next. destruct (vh_tenantSlots v !! t); [|done].
  destruct (taken s t <? _); [|done]. cbn zeta. destruct (ss_global _ <? _); [done|].
  by destruct (0 <? _).
Qed.

Lemma release_by_operations v t s :
  release (mkLease (Some t) true false false) s =
  match slot_next v (SpHeld t) s with
  | Some (_, s1) =>
      match slot_next v (SpReleasing t) s1 with
      | Some (_, s2) => Done (mkLease (Some t) true false true, s2)
      | None => Panicked "receive from an empty slot channel"
      end
  | None => Panicked "receive from an empty slot channel"
  end.
Proof.
  unfold release, slot_next. cbn. destruct (0 <? ss_global s); [|done].
  by destruct (0 <? taken (giveGlobal s) t).
Qed.

(** ** Accounting *)

Definition holds_global (ph : slotPhase) : Z := match ph with SpHeld _ => 1 | _ => 0 end.

Definition holds_tenant (t : TenantID) (ph : slotPhase) : Z :=
  match ph with
  | SpTenant t' | SpGiveBack t' | SpHeld t' | SpReleasing t' => if bool_decide (t' = t) then 1 else 0
  | SpStart _ | SpDone _ _ => 0
  end.

Lemma holds_global_nonneg ph : 0 <= holds_global ph.
Proof. destruct ph; cbn; lia. Qed.
Lemma holds_tenant_nonneg t ph : 0 <= holds_tenant t ph.
Proof. destruct ph; cbn; try case_bool_decide; lia. Qed.

(** The channels hold exactly the slots the requests hold, within capacity. *)
Record slots_fine (v : validatedHandlerConfig) (s : slotState) (l : list slotPhase) : Prop := {
  sf_global : ss_global s = total holds_global l;
  sf_tenant : forall t, taken s t = total (holds_tenant t) l;
  sf_globalBound : ss_global s <= Z.max 0 (vh_globalSlots v);
  sf_tenantBound : forall t, taken s t <= Z.max 0 (default 0 (vh_tenantSlots v !! t));
}.

Lemma taken_takeTenant t t' s :
  taken (takeTenant t s) t' = taken s t' + (if bool_decide (t = t') then 1 else 0).
Proof.
  unfold taken, takeTenant. cbn. rewrite lookup_insert. case_decide as H.
  - subst. rewrite bool_decide_eq_true_2 by done. done.
  - rewrite bool_decide_eq_false_2 by done. lia.
Qed.

Lemma taken_giveTenant t t' s :
  taken (giveTenant t s) t' = taken s t' - (if bool_decide (t = t') then 1 else 0).
Proof.
  unfold taken, giveTenant. cbn. rewrite lookup_insert. case_decide as H.
  - subst. rewrite bool_decide_eq_true_2 by done. done.
  - rewrite bool_decide_eq_false_2 by done. lia.
Qed.

Lemma slots_fine_turn v s s' l1 ph ph' l2 :
  slots_fine v s (l1 ++ ph :: l2) -> slot_next v ph s = Some (ph', s') -> slots_fine v s' (l1 ++ ph' :: l2).
Proof.
  intros [Hg Ht Hgb Htb] Hn. rewrite total_app, total_cons in Hg.
  assert (forall t, taken s t = total (holds_tenant t) l1 + (holds_tenant t ph + total (holds_tenant t) l2))
    as Ht' by (intros t; rewrite Ht, total_app, total_cons; done).
  enough (ss_global s' = ss_global s - holds_global ph + holds_global ph' /\
    (forall t, taken s' t = taken s t - holds_tenant t ph + holds_tenant t ph') /\
    ss_global s' <= Z.max 0 (vh_globalSlots v) /\
    (forall t, taken s' t <= Z.max 0 (default 0 (vh_tenantSlots v !! t)))) as (H1 & H2 & H3 & H4).
  { split; [rewrite total_app, total_cons; lia| |done|done].
    intros t. rewrite total_app, total_cons, H2, Ht'. lia. }
  destruct ph as [t|t|t|t|t|t served]; cbn in Hn; repeat case_match; simplify_eq; breflect;
    cbn [holds_global holds_tenant ss_global takeTenant takeGlobal giveTenant giveGlobal];
    split_and!; try lia; intros t'; rewrite ?taken_takeTenant, ?taken_giveTenant; specialize (Htb t');
    try (change (taken (takeGlobal s) t') with (taken s t'));
    try (change (taken (giveGlobal s) t') with (taken s t')); try case_bool_decide; subst; try lia.
  rewrite H in *. cbn. lia.
Qed.

Lemma slots_reachable_fine v s l : slots_reachable v s l -> slots_fine v s l.
Proof.
  unfold slots_reachable. apply interleaved_ind; clear s l.
  - split; intros; try (unfold taken; cbn; rewrite lookup_empty); cbn; lia.
  - intros [] s l1 ph l2 ph' s' sp IH Hturn. unfold slot_turn in Hturn.
    destruct (slot_next v ph s) as [[]|] eqn:Hn; [|done]. injection Hturn as -> -> <-.
    rewrite app_nil_r. by eapply slots_fine_turn.
  - intros s l ph [Hg Ht Hgb Htb] Hph. destruct ph; try done.
    split; try done; intros; rewrite total_app; cbn; [lia|rewrite Ht; lia].
Qed.

(** A slot that is held can be received from its channel. *)
Lemma slots_fine_runs v s l1 ph l2 :
  slots_fine v s (l1 ++ ph :: l2) -> is_Some (slot_next v ph s).
Proof.
  intros [Hg Ht _ _].
  pose proof (total_split holds_global l1 ph l2 holds_global_nonneg) as H1. rewrite <- Hg in H1.
  assert (forall t, holds_tenant t ph <= taken s t) as H2
    by (intros t; rewrite Ht; apply total_split, holds_tenant_nonneg).
  destruct ph as [t|t|t|t|t|t served]; cbn in *;
    try (specialize (H2 t); rewrite bool_decide_eq_true_2 in H2 by done);
    repeat case_match; breflect; try lia; eauto.
Qed.

(** Nothing is held by requests that are finished. *)
Definition finished (ph : slotPhase) : bool := match ph with SpDone _ _ => true | _ => false end.

Lemma total_finished f l :
  (forall t served, f (SpDone t served) = 0) -> forallb finished l = true -> total f l = 0.
Proof.
  intros Hf. induction l as [|ph l IH]; [done|]. cbn [forallb]. intros [H1 H2]%andb_true_iff.
  rewrite total_cons, IH by done. destruct ph; try done. by rewrite Hf.
Qed.
