(* ===== verification/HttpHandler.v ===== *)
(** * The HTTP handler

    Package [httpapi]: the public errors and the response sink ([errors.go]),
    the lifecycle of one request ([handler.go]) and the event-stream relay
    ([relay.go]).

    The environment of a request (clients, contexts, the scheduler's answers, the
    upstream, the response writer) is a record of functions of the log of what
    has happened so far, so it may change its mind at every step; nothing is
    assumed of it. *)

From S2P Require Import Prelude.
From S2P Require Import GoJson.
From S2P Require Import GoIO.
From S2P Require Import AdmissionConfig.
From S2P Require Import AdmissionOwner.
From S2P Require Import ContractScan.
From S2P Require Import ContractRequest.
From S2P Require Import ContractResponse.
From S2P Require Import ContractSSE.
From S2P Require Import HttpConfig.

(** ** Public errors *)

Record publicError := mkPublicError { pe_status : Z; pe_code : string; pe_message : string }.

Definition errUnsupportedPath := mkPublicError 404 "unsupported_path" "The requested endpoint is not available.".
Definition errUnsupportedMethod := mkPublicError 405 "unsupported_method" "Only POST is supported for this endpoint.".
Definition errInvalidCredential := mkPublicError 401 "invalid_tenant_credential" "A valid tenant bearer credential is required.".
Definition errUnsupportedMedia := mkPublicError 415 "unsupported_media_type" "The request must contain unencoded application/json.".
Definition errInvalidRequest := mkPublicError 400 "invalid_request" "The request does not match the supported contract.".
Definition errRequestTooLarge := mkPublicError 413 "request_too_large" "The request exceeds a configured safety limit.".
Definition errTenantCapacity := mkPublicError 429 "tenant_capacity_exhausted" "The tenant has no request capacity available.".
Definition errOverloaded := mkPublicError 503 "overloaded" "The service has no global request capacity available.".
Definition errQueueDeadline := mkPublicError 503 "queue_deadline_exceeded" "The request could not be admitted before its queue deadline.".
Definition errDraining := mkPublicError 503 "draining" "The service is draining and cannot serve this request.".
Definition errUpstreamTimeout := mkPublicError 504 "upstream_timeout" "The upstream did not complete before its deadline.".
Definition errBadUpstream := mkPublicError 502 "invalid_upstream_response" "The upstream response could not be safely relayed.".
Definition errInternal := mkPublicError 500 "internal_error" "The request could not be completed safely.".

Definition inQuotes (l : list Z) : list Z := c_quote :: l ++ [c_quote].

(** The body that [writeError] builds. *)
Definition errorBody (failure : publicError) : list Z :=
  bs "{" ++ inQuotes (bs "error") ++ bs ":{" ++ inQuotes (bs "code") ++ bs ":"
  ++ inQuotes (bs (pe_code failure)) ++ bs "," ++ inQuotes (bs "message") ++ bs ":"
  ++ inQuotes (bs (pe_message failure)) ++ bs "}}" ++ [c_lf].

(** ** Requests and responses as the handler sees them *)

Record URL := mkURL {
  url_isAbs : bool; url_Opaque : list Z; url_RawPath : list Z; url_RawQuery : list Z;
  url_ForceQuery : bool; url_Path : list Z;
}.

Record httpRequest := mkHttpRequest {
  hr_URL : option URL;
  hr_Method : list Z;
  hr_Authorization : list (list Z);
  hr_ContentEncoding : list (list Z);
  hr_ContentType : list (list Z);
  hr_QueueTimeout : list (list Z);
  hr_ContentLength : Z;
  hr_hasBody : bool;
}.

Record UpstreamResponse := mkUpstreamResponse {
  ur_StatusCode : Z;
  ur_ContentEncoding : list (list Z);
  ur_ContentType : list (list Z);
  ur_Body : option script;
}.

(** Errors of [Upstream.Complete], as far as the handler tells them apart. *)
Inductive upstreamError := ErrUpstreamTimeout | ErrUpstreamOther.

(** ** The log *)

Inductive event :=
| EvObserve
| EvTakeSlots | EvGiveSlots
| EvRead (body : script)
| EvAcquire (a : Admission) (permit : bool) (kind : DecisionKind)
| EvFinish (outcome : ServingOutcome)
| EvComplete (r : Request) (response : UpstreamResponse) (err : option upstreamError)
| EvCommit (status : Z) (streaming : bool)
| EvWrite (body : list Z)
| EvCloseUpstream
| EvCloseRequest.

Abbreviation log := (list event) (only parsing).

(** What a write to the downstream does: it may fail or panic after some bytes. *)
Inductive writeAnswer := WriteOk | WriteFails (n : nat) | WritePanics (n : nat).

(** What a [Close] does. *)
Inductive closeAnswer := CloseOk | CloseFails | ClosePanics.

Record Env := mkEnv {
  e_requestErr : log -> bool;
  e_requestID : log -> option (list Z);
  e_slots : log -> slotState;
  e_body : log -> Context * script;
  e_flushes : bool;
  (* whether there is a permit, and the decision; [None] is a panic *)
  e_acquire : log -> option (bool * DecisionKind);
  e_permitContextNil : log -> bool;
  e_permitErr : log -> bool;
  e_upstreamDeadline : log -> bool;
  (* [None] is a panic *)
  e_complete : log -> option (UpstreamResponse * option upstreamError);
  e_readContext : log -> Context;
  e_callContext : log -> Context;
  e_stopClose : log -> bool;
  e_eventTimedOut : log -> bool;
  e_idleTimedOut : log -> bool;
  e_close : log -> closeAnswer;
  e_closeRequest : log -> closeAnswer;
  e_write : log -> writeAnswer;
}.

(** ** Code that may panic

    [w_outcome] is the handler's variable, [w_committed] and [w_streaming] the
    fields of the response sink, [w_released], [w_closed] and [w_bodyClosed] the
    [sync.Once] of the lease, of the upstream body (with the error it remembers)
    and of the request's body. *)

Record world := mkWorld {
  w_log : log;
  w_committed : bool;
  w_streaming : bool;
  w_outcome : ServingOutcome;
  w_released : bool;
  w_closed : option bool;
  w_bodyClosed : bool;
}.

Definition newWorld : world := mkWorld [] false false ServingInternalFailure false None false.

Inductive hres (A : Type) := HReturn (a : A) | HPanic | HFuel.
Arguments HReturn {A} a.
Arguments HPanic {A}.
Arguments HFuel {A}.

Definition H (A : Type) : Type := world -> hres A * world.

#[global] Instance H_ret : MRet H := fun A a w => (HReturn a, w).
#[global] Instance H_bind : MBind H := fun A B f m w =>
  let '(r, w1) := m w in
  match r with
  | HReturn a => f a w1
  | HPanic => (HPanic, w1)
  | HFuel => (HFuel, w1)
  end.

Definition hpanic {A} : H A := fun w => (HPanic, w).

(** [defer cleanup()]: it runs however [m] ends. *)
Definition deferred {A} (m : H A) (cleanup : H unit) : H A := fun w =>
  let '(r, w1) := m w in
  let '(c, w2) := cleanup w1 in
  (match c with HReturn _ => r | HPanic => HPanic | HFuel => HFuel end, w2).

Definition logEvent (ev : event) : H unit := fun w =>
  (HReturn tt, mkWorld (w_log w ++ [ev]) (w_committed w) (w_streaming w) (w_outcome w)
                 (w_released w) (w_closed w) (w_bodyClosed w)).

(** Asks the environment; the question itself is part of the history. *)
Definition ask {A} (q : log -> A) : H A := fun w =>
  (HReturn (q (w_log w)),
   mkWorld (w_log w ++ [EvObserve]) (w_committed w) (w_streaming w) (w_outcome w)
     (w_released w) (w_closed w) (w_bodyClosed w)).

Definition setOutcome (o : ServingOutcome) : H unit := fun w =>
  (HReturn tt, mkWorld (w_log w) (w_committed w) (w_streaming w) o (w_released w) (w_closed w)
                 (w_bodyClosed w)).

Definition committed : H bool := fun w => (HReturn (w_committed w), w).
Definition streaming : H bool := fun w => (HReturn (w_streaming w), w).

(** [s.committed = true; s.writer.WriteHeader(status)] *)
Definition commit (status : Z) (stream : bool) : H unit := fun w =>
  (HReturn tt, mkWorld (w_log w ++ [EvCommit status stream]) true (w_streaming w || stream)
                 (w_outcome w) (w_released w) (w_closed w) (w_bodyClosed w)).

Section Request.
Context (env : Env) (sha256 : list Z -> list Z).
(** [mime.ParseMediaType]: the type and its parameters. *)
Context (parseMediaType : list Z -> option (list Z * list (list Z * list Z))).
Context (parser : Parser) (room : nat -> nat).
Context (config : validatedHandlerConfig) (request : httpRequest).

(** ** The response sink *)

(** [io.CopyN] of a whole body to the writer: true when it failed. *)
Definition copyBody (body : list Z) : H bool :=
  answer ← ask (e_write env);
  match answer with
  | WriteOk => _ ← logEvent (EvWrite body); mret false
  | WriteFails n => _ ← logEvent (EvWrite (take n body)); mret true
  | WritePanics n => _ ← logEvent (EvWrite (take n body)); hpanic
  end.

(** [writeJSONReader]: true when an error is returned. *)
Definition writeJSON (status : Z) (body : list Z) : H bool :=
  done ← committed;
  if (done : bool) then mret true else
  _ ← commit status false;
  copyBody body.

Definition writeError (failure : publicError) : H bool :=
  writeJSON (pe_status failure) (errorBody failure).

(** [_ = sink.writeError(failure)] *)
Definition writeError_ (failure : publicError) : H unit :=
  _ ← writeError failure; mret tt.

(** [writeSSEEvent]; the flush is part of the write's answer. *)
Definition writeSSEEvent (body : list Z) : H bool :=
  if bool_decide (body = []) then mret true else
  isCommitted ← committed;
  isStreaming ← streaming;
  if isCommitted && negb isStreaming then mret true
  else if negb (e_flushes env) then mret true
  else
    _ ← (if negb isCommitted then commit 200 true else mret tt);
    copyBody body.

(** ** Metadata *)

Definition utf8Charset (parameters : list (list Z * list Z)) : bool :=
  forallb (fun nv => equalFold (fst nv) (bs "charset") && equalFold (snd nv) (bs "utf-8")) parameters.

(** The checks of [validJSONMediaType] and [validStreamingUpstreamMetadata]. *)
Definition validMediaType (want : list Z) (encodings types : list (list Z)) : bool :=
  if negb (bool_decide (encodings = [])) then false else
  match types with
  | [value] =>
      match parseMediaType value with
      | None => false
      | Some (mediaType, parameters) => equalFold mediaType want && utf8Charset parameters
      end
  | _ => false
  end.

Definition validJSONMediaType (encodings types : list (list Z)) : bool :=
  validMediaType (bs "application/json") encodings types.

Definition hasBody (response : UpstreamResponse) : bool :=
  match ur_Body response with Some _ => true | None => false end.

Definition validStreamingUpstreamMetadata (response : UpstreamResponse) : bool :=
  if negb (ur_StatusCode response =? 200) || negb (hasBody response) then false
  else validMediaType (bs "text/event-stream") (ur_ContentEncoding response) (ur_ContentType response).

Definition validUpstreamMetadata (response : UpstreamResponse) (mode : RequestMode) : bool :=
  if bool_decide (mode = RequestModeStreaming) then validStreamingUpstreamMetadata response
  else (ur_StatusCode response =? 200) && hasBody response
       && validJSONMediaType (ur_ContentEncoding response) (ur_ContentType response).

Definition chatCompletionsPath : list Z := bs "/v1/chat/completions".

Definition exactChatCompletionsPath (u : option URL) : bool :=
  match u with
  | None => false
  | Some u =>
      if url_isAbs u || negb (bool_decide (url_Opaque u = [])) || negb (bool_decide (url_RawPath u = []))
         || negb (bool_decide (url_RawQuery u = [])) || url_ForceQuery u
      then false
      else bool_decide (url_Path u = chatCompletionsPath)
  end.

Definition validRequestID (value : list Z) : bool :=
  (Z.of_nat (length value) =? 32) && forallb (fun c => between 48 57 c || between 97 102 c) value.

(** ** Contexts *)

Definition requestErr : H bool := ask (e_requestErr env).

(** [handleUpstreamContext]: an outcome when the request is already decided. *)
Definition handleUpstreamContext : H (option ServingOutcome) :=
  gone ← requestErr;
  if (gone : bool) then mret (Some ServingCanceled) else
  revoked ← ask (e_permitErr env);
  if (revoked : bool) then
    gone ← requestErr;
    if (gone : bool) then mret (Some ServingCanceled) else
    done ← committed;
    _ ← (if negb done then writeError_ errDraining else mret tt);
    mret (Some ServingCanceled)
  else
  late ← ask (e_upstreamDeadline env);
  if (late : bool) then
    gone ← requestErr;
    if (gone : bool) then mret (Some ServingCanceled) else
    revoked ← ask (e_permitErr env);
    if (revoked : bool) then
      gone ← requestErr;
      if (gone : bool) then mret (Some ServingCanceled) else
      done ← committed;
      _ ← (if negb done then writeError_ errDraining else mret tt);
      mret (Some ServingCanceled)
    else
    done ← committed;
    if (done : bool) then mret (Some ServingUpstreamFailed) else
    failed ← writeError errUpstreamTimeout;
    mret (Some (if (failed : bool) then ServingDownstreamFailed else ServingUpstreamFailed))
  else mret None.

Definition writeAdmissionDecision (kind : DecisionKind) : H unit :=
  gone ← requestErr;
  if (gone : bool) then mret tt else
  match kind with
  | DecisionTenantRejected => writeError_ errTenantCapacity
  | DecisionGlobalRejected => writeError_ errOverloaded
  | DecisionQueueExpired => writeError_ errQueueDeadline
  | DecisionShutdown | DecisionDraining => writeError_ errDraining
  | DecisionCanceledQueued | DecisionCanceledBeforeStart => mret tt
  | _ => writeError_ errInternal
  end.

(** ** Slots, permits, the upstream body *)

(** [slots.release()]: once. *)
Definition releaseSlots : H unit := fun w =>
  if w_released w then (HReturn tt, w) else
  (HReturn tt, mkWorld (w_log w ++ [EvGiveSlots]) (w_committed w) (w_streaming w) (w_outcome w)
                 true (w_closed w) (w_bodyClosed w)).

Definition finishPermit (o : ServingOutcome) : H unit := logEvent (EvFinish o).

(** [defer func() { permit.Finish(outcome) }()] *)
Definition finishOutcome : H unit := fun w => finishPermit (w_outcome w) w.

(** [onceReadCloser.Close] of the upstream body: true when it failed. *)
Definition closeUpstream : H bool := fun w =>
  match w_closed w with
  | Some failed => (HReturn failed, w)
  | None =>
      let answer := e_close env (w_log w) in
      let failed := match answer with CloseFails => true | _ => false end in
      (match answer with ClosePanics => HPanic | _ => HReturn failed end,
       mkWorld (w_log w ++ [EvCloseUpstream]) (w_committed w) (w_streaming w)
         (w_outcome w) (w_released w) (Some failed) (w_bodyClosed w))
  end.

(** [onceReadCloser.Close] of the request's body. *)
Definition closeRequest : H unit := fun w =>
  if w_bodyClosed w then (HReturn tt, w) else
  (match e_closeRequest env (w_log w) with ClosePanics => HPanic | _ => HReturn tt end,
   mkWorld (w_log w ++ [EvCloseRequest]) (w_committed w) (w_streaming w)
     (w_outcome w) (w_released w) (w_closed w) true).

(** ** The relay *)

Definition finishSSEFailure (timedOut : bool) : H ServingOutcome :=
  handled ← handleUpstreamContext;
  match handled with
  | Some outcome => mret outcome
  | None =>
      done ← committed;
      if (done : bool) then mret ServingUpstreamFailed else
      failed ← writeError (if timedOut then errUpstreamTimeout else errBadUpstream);
      mret (if (failed : bool) then ServingDownstreamFailed else ServingUpstreamFailed)
  end.

(** [nextSSEEvent] and [verifySSEEOF]: the call under a context of its own; a
    callback that has already fired turns success into an error. *)
Definition boundedCall {A} (call : M (Context * SSEDecoder) (result sseFailure A)) (d : SSEDecoder)
  : H (option A * bool * SSEDecoder) :=
  ctx ← ask (e_callContext env);
  match call (ctx, d) with
  | Done (r, (_, d')) =>
      stopped ← ask (e_stopClose env);
      timedOut ← ask (e_eventTimedOut env);
      let ok := match r with Ok a => if (stopped : bool) then Some a else None | Err _ => None end in
      mret (ok, timedOut, d')
  | Panicked _ => hpanic
  | OutOfFuel => fun w => (HFuel, w)
  end.

Fixpoint relayLoop (fuel : nat) (d : SSEDecoder) : H ServingOutcome :=
  match fuel with
  | O => fun w => (HFuel, w)
  | S fuel' =>
      '(read, eventTimedOut, d1) ← boundedCall Next d;
      match read with
      | None =>
          idle ← ask (e_idleTimedOut env);
          finishSSEFailure (eventTimedOut || idle)
      | Some event =>
          idle ← ask (e_idleTimedOut env);
          if (idle : bool) then finishSSEFailure true else
          handled ← handleUpstreamContext;
          match handled with
          | Some outcome => mret outcome
          | None =>
              match ev_kind event with
              | SSEEventKindDone =>
                  '(verified, verifyTimedOut, _) ← boundedCall VerifyEOF d1;
                  match verified with
                  | None =>
                      idle ← ask (e_idleTimedOut env);
                      finishSSEFailure (verifyTimedOut || idle)
                  | Some _ =>
                      idle ← ask (e_idleTimedOut env);
                      if (idle : bool) then finishSSEFailure true else
                      closeFailed ← closeUpstream;
                      if (closeFailed : bool) then finishSSEFailure false else
                      handled ← handleUpstreamContext;
                      match handled with
                      | Some outcome => mret outcome
                      | None =>
                          failed ← writeSSEEvent (ev_body event);
                          mret (if (failed : bool) then ServingDownstreamFailed else ServingCompleted)
                      end
                  end
              | SSEEventKindChunk =>
                  failed ← writeSSEEvent (ev_body event);
                  if (failed : bool) then mret ServingDownstreamFailed else relayLoop fuel' d1
              end
          end
      end
  end.

(** At most [MaxEvents] events are returned, and then the decoder fails. *)
Definition relayFuel : nat := S (S (Z.to_nat (sse_MaxEvents (vh_sseLimits config)))).

Definition relaySSE (body : script) : H ServingOutcome :=
  match NewSSEDecoder body (vh_sseLimits config) with
  | Err _ =>
      failed ← writeError errInternal;
      mret (if (failed : bool) then ServingDownstreamFailed else ServingInternalFailure)
  | Ok d => relayLoop relayFuel d
  end.

(** ** [serve] *)

(** [outcome = ServingUpstreamFailed; if sink.writeError(failure) != nil {...}] *)
Definition failUpstream (failure : publicError) : H unit :=
  _ ← setOutcome ServingUpstreamFailed;
  failed ← writeError failure;
  if (failed : bool) then setOutcome ServingDownstreamFailed else mret tt.

(** The non-streaming response. *)
Definition relayJSON (body : script) : H unit :=
  ctx ← ask (e_readContext env);
  match response_Parse (vh_responseValidator config) room (ctx, body) with
  | Done (Err _, _) =>
      handled ← handleUpstreamContext;
      match handled with
      | Some o => setOutcome o
      | None => failUpstream errBadUpstream
      end
  | Done (Ok validated, _) =>
      closeFailed ← closeUpstream;
      if (closeFailed : bool) then
        handled ← handleUpstreamContext;
        match handled with
        | Some o => setOutcome o
        | None => failUpstream errBadUpstream
        end
      else
      handled ← handleUpstreamContext;
      match handled with
      | Some o => setOutcome o
      | None =>
          _ ← setOutcome ServingDownstreamFailed;
          failed ← writeJSON 200 (vr_body validated);
          if (failed : bool) then mret tt else setOutcome ServingCompleted
      end
  | Panicked _ => hpanic
  | OutOfFuel => fun w => (HFuel, w)
  end.

(** From the upstream's answer on. *)
Definition relayResponse (parsed : Request) (response : UpstreamResponse) (err : option upstreamError)
  : H unit :=
  handled ← handleUpstreamContext;
  match handled with
  | Some o => setOutcome o
  | None =>
      if bool_decide (is_Some err) && match err with Some ErrUpstreamTimeout => true | _ => false end
      then failUpstream errUpstreamTimeout
      else if bool_decide (is_Some err) || negb (validUpstreamMetadata response (req_mode parsed))
      then failUpstream errBadUpstream
      else
        match ur_Body response with
        | None => hpanic
        | Some body =>
            if bool_decide (req_mode parsed = RequestModeStreaming)
            then o ← relaySSE body; setOutcome o
            else relayJSON body
        end
  end.

(** With a permit in hand. *)
Definition servePermit (parsed : Request) : H unit :=
  gone ← requestErr;
  if (gone : bool) then setOutcome ServingCanceled else
  noContext ← ask (e_permitContextNil env);
  if (noContext : bool) then writeError_ errInternal else
  handled ← handleUpstreamContext;
  match handled with
  | Some o => setOutcome o
  | None =>
      answer ← ask (e_complete env);
      match answer with
      | None => hpanic
      | Some (response, err) =>
          _ ← logEvent (EvComplete parsed response err);
          if hasBody response
          then deferred (relayResponse parsed response err) (_ ← closeUpstream; mret tt)
          else relayResponse parsed response err
      end
  end.

(** [parseRequest] *)
Definition parseRequest : H (result parseFailure Request) :=
  if negb (hr_hasBody request)
  then mret (Err (ParseError ErrorClassInvalidRequest ReasonBodyReadFailure)) else
  deferred
    (body ← ask (e_body env);
     _ ← logEvent (EvRead (snd body));
     match Parse parser room body with
     | Done (r, _) => mret r
     | Panicked _ => hpanic
     | OutOfFuel => fun w => (HFuel, w)
     end)
    closeRequest.

(** With the slots taken. *)
Definition serveSlots (tenant : TenantID) (timeout : Z) : H unit :=
  parsed ← parseRequest;
  match parsed with
  | Err failure =>
      gone ← requestErr;
      if (gone : bool) then mret tt else
      match failure with
      | ParseError ErrorClassRequestTooLarge _ => writeError_ errRequestTooLarge
      | _ => writeError_ errInvalidRequest
      end
  | Ok parsed =>
      if bool_decide (req_mode parsed = RequestModeStreaming) && negb (e_flushes env)
      then writeError_ errInternal else
      let admission := MkAdmission tenant (req_bodyBytes parsed) (req_reservationUnits parsed) timeout in
      answer ← ask (e_acquire env);
      match answer with
      | None => hpanic
      | Some (permit, kind) =>
          _ ← logEvent (EvAcquire admission permit kind);
          _ ← releaseSlots;
          if negb (bool_decide (kind = DecisionDispatched)) then
            if (permit : bool)
            then _ ← finishPermit ServingInternalFailure; writeAdmissionDecision DecisionInvalid
            else writeAdmissionDecision kind
          else if negb permit then writeAdmissionDecision DecisionInvalid
          else
            _ ← setOutcome ServingInternalFailure;
            deferred (servePermit parsed) finishOutcome
      end
  end.

Definition serve : H unit :=
  gone ← requestErr;
  if (gone : bool) then mret tt else
  id ← ask (e_requestID env);
  if negb (match id with Some id => validRequestID id | None => false end)
  then writeError_ errInternal else
  if negb (exactChatCompletionsPath (hr_URL request)) then writeError_ errUnsupportedPath else
  if negb (bool_decide (hr_Method request = bs "POST")) then writeError_ errUnsupportedMethod else
  let '(tenant, authenticated) := authenticate sha256 (vh_credentials config) (hr_Authorization request) in
  if negb authenticated then writeError_ errInvalidCredential else
  if negb (validJSONMediaType (hr_ContentEncoding request) (hr_ContentType request))
  then writeError_ errUnsupportedMedia else
  let '(timeout, valid) := queueTimeout (vh_defaultQueueTimeout config) (hr_QueueTimeout request) in
  if negb valid then writeError_ errInvalidRequest else
  if hr_ContentLength request <? -1 then writeError_ errInvalidRequest else
  if int64 (lim_MaxBodyBytes (limits parser)) <? hr_ContentLength request
  then writeError_ errRequestTooLarge else
  slots ← ask (e_slots env);
  match acquirePreDispatch config tenant slots with
  | Done ((lease, false), _) =>
      if le_tenantFull lease then writeError_ errTenantCapacity else writeError_ errOverloaded
  | Done ((lease, true), _) =>
      _ ← logEvent EvTakeSlots;
      deferred (serveSlots tenant timeout) releaseSlots
  | Panicked _ => hpanic
  | OutOfFuel => fun w => (HFuel, w)
  end.

(** ** [ServeHTTP] *)

(** The deferred [recover]. *)
Definition recovered (m : H unit) : H unit := fun w =>
  let '(r, w1) := m w in
  match r with
  | HReturn _ => (HReturn tt, w1)
  | HFuel => (HFuel, w1)
  | HPanic =>
      (if w_committed w1 then mret tt
       else gone ← requestErr; if (gone : bool) then mret tt else writeError_ errInternal) w1
  end.

Definition ServeHTTP : H unit :=
  recovered
    (if hr_hasBody request
     then deferred serve closeRequest
     else serve).
End Request.
