(* ===== verification/HttpProtocol.v ===== *)
(** * The protocol of one HTTP exchange

    What the handler promises about a request, as an automaton over the log of
    [HttpHandler.v]: slots, permit, upstream body and request body are taken and
    given back in order, and one response is committed at most.  [replay] runs
    the automaton; [does] is the logic in which the handler's code is shown to
    follow it, whatever the environment answers and wherever it panics. *)

From S2P Require Import Prelude.
From S2P Require Import GoJson.
From S2P Require Import GoIO.
From S2P Require Import AdmissionConfig.
From S2P Require Import AdmissionOwner.
From S2P Require Import ContractRequest.
From S2P Require Import HttpConfig.
From S2P Require Import HttpHandler.

(** ** The automaton *)

Inductive leasePhase := LeaseNone | LeaseHeld | LeaseReturned.
Inductive permitPhase := PermitNone | PermitHeld | PermitFinished (o : ServingOutcome).

#[global] Instance leasePhase_eq_dec : EqDecision leasePhase.
Proof. solve_decision. Defined.

Definition call : Type := Request * UpstreamResponse * option upstreamError.

Record exchange := mkExchange {
  x_bodyClosed : bool;
  x_lease : leasePhase;
  x_read : option script;
  x_admission : option (Admission * bool * DecisionKind);
  x_permit : permitPhase;
  x_upstream : option call;
  x_upstreamClosed : bool;
  x_status : option (Z * bool);
  x_written : list Z;
}.

Definition exchange0 : exchange := mkExchange false LeaseNone None None PermitNone None false None [].

Definition with_bodyClosed (x : exchange) : exchange :=
  mkExchange true (x_lease x) (x_read x) (x_admission x) (x_permit x) (x_upstream x) (x_upstreamClosed x)
    (x_status x) (x_written x).
Definition with_lease (p : leasePhase) (x : exchange) : exchange :=
  mkExchange (x_bodyClosed x) p (x_read x) (x_admission x) (x_permit x) (x_upstream x) (x_upstreamClosed x)
    (x_status x) (x_written x).
Definition with_read (body : script) (x : exchange) : exchange :=
  mkExchange (x_bodyClosed x) (x_lease x) (Some body) (x_admission x) (x_permit x) (x_upstream x)
    (x_upstreamClosed x) (x_status x) (x_written x).
Definition with_admission (a : Admission) (permit : bool) (kind : DecisionKind) (x : exchange) : exchange :=
  mkExchange (x_bodyClosed x) (x_lease x) (x_read x) (Some (a, permit, kind))
    (if permit then PermitHeld else PermitNone) (x_upstream x) (x_upstreamClosed x)
    (x_status x) (x_written x).
Definition with_permit (p : permitPhase) (x : exchange) : exchange :=
  mkExchange (x_bodyClosed x) (x_lease x) (x_read x) (x_admission x) p (x_upstream x) (x_upstreamClosed x)
    (x_status x) (x_written x).
Definition with_call (c : call) (x : exchange) : exchange :=
  mkExchange (x_bodyClosed x) (x_lease x) (x_read x) (x_admission x) (x_permit x) (Some c) (x_upstreamClosed x)
    (x_status x) (x_written x).
Definition with_upstreamClosed (x : exchange) : exchange :=
  mkExchange (x_bodyClosed x) (x_lease x) (x_read x) (x_admission x) (x_permit x) (x_upstream x) true
    (x_status x) (x_written x).
Definition with_reply (status : option (Z * bool)) (body : list Z) (x : exchange) : exchange :=
  mkExchange (x_bodyClosed x) (x_lease x) (x_read x) (x_admission x) (x_permit x) (x_upstream x) (x_upstreamClosed x)
    status (x_written x ++ body).

(** The upstream answered with a body that is still open. *)
Definition upstream_open (x : exchange) : bool :=
  match x_upstream x with
  | Some (_, response, _) => hasBody response && negb (x_upstreamClosed x)
  | None => false
  end.

Definition permit_held (x : exchange) : bool :=
  match x_permit x with PermitHeld => true | _ => false end.

Definition uncommitted (x : exchange) : bool :=
  match x_status x with None => true | Some _ => false end.

Definition allow (b : bool) (x : exchange) : option exchange := if b then Some x else None.

Definition exchange_step (x : exchange) (ev : event) : option exchange :=
  match ev with
  | EvObserve => Some x
  | EvTakeSlots => allow (bool_decide (x_lease x = LeaseNone) && uncommitted x) (with_lease LeaseHeld x)
  | EvGiveSlots => allow (bool_decide (x_lease x = LeaseHeld)) (with_lease LeaseReturned x)
  | EvRead body =>
      (* under the slots, and once *)
      allow (bool_decide (x_lease x = LeaseHeld) && negb (x_bodyClosed x)
             && match x_read x with None => true | Some _ => false end)
        (with_read body x)
  | EvAcquire a permit kind =>
      (* after the whole body was read and closed, while the slots are held *)
      allow (bool_decide (x_lease x = LeaseHeld) && x_bodyClosed x && uncommitted x
             && match x_read x with None => false | Some _ => true end
             && match x_admission x with None => true | Some _ => false end)
        (with_admission a permit kind x)
  | EvComplete r response err =>
      (* under a permit, once, with the slots given back and nothing answered *)
      allow (permit_held x && bool_decide (x_lease x = LeaseReturned) && uncommitted x
             && match x_upstream x with None => true | Some _ => false end)
        (with_call (r, response, err) x)
  | EvCloseUpstream => allow (upstream_open x) (with_upstreamClosed x)
  | EvCloseRequest => allow (negb (x_bodyClosed x)) (with_bodyClosed x)
  | EvFinish o => allow (permit_held x && negb (upstream_open x)) (with_permit (PermitFinished o) x)
  | EvCommit status streaming =>
      allow (uncommitted x && (negb streaming || permit_held x)) (with_reply (Some (status, streaming)) [] x)
  | EvWrite body => allow (negb (uncommitted x)) (with_reply (x_status x) body x)
  end.

Definition replay (l : list event) : option exchange :=
  foldl (fun o ev => o ≫= fun x => exchange_step x ev) (Some exchange0) l.

#[global] Arguments replay : simpl never.

(** Nothing is left to give back. *)
Definition settled (x : exchange) : bool :=
  negb (bool_decide (x_lease x = LeaseHeld)) && negb (permit_held x) && negb (upstream_open x).

Lemma replay_snoc l ev : replay (l ++ [ev]) = replay l ≫= fun x => exchange_step x ev.
Proof. unfold replay. by rewrite foldl_app. Qed.

(** ** The logic *)

(** The handler's variables agree with the log. *)
Record tracks (w : world) (x : exchange) : Prop := {
  tr_log : replay (w_log w) = Some x;
  tr_committed : w_committed w = negb (uncommitted x);
  tr_streaming : w_streaming w = match x_status x with Some (_, s) => s | None => false end;
  tr_released : w_released w = bool_decide (x_lease x = LeaseReturned);
  tr_closed : bool_decide (is_Some (w_closed w)) = x_upstreamClosed x;
  tr_body : w_bodyClosed w = x_bodyClosed x;
}.

(** From a world that [x] describes, [m] ends in a world that some exchange
    describes, and [Q] holds of how it ended, that exchange and the outcome
    variable. *)
Definition does {A} (m : H A) (x : exchange) (o : ServingOutcome)
    (Q : hres A -> exchange -> ServingOutcome -> Prop) : Prop :=
  forall w, tracks w x -> w_outcome w = o ->
  exists x', tracks (snd (m w)) x' /\ Q (fst (m w)) x' (w_outcome (snd (m w))).

Section Rules.
Context {A B : Type}.
Implicit Types (x : exchange) (o : ServingOutcome).

Lemma does_ret (a : A) x o (Q : hres A -> exchange -> ServingOutcome -> Prop) :
  Q (HReturn a) x o -> does (mret a) x o Q.
Proof. intros HQ w Hw <-. eexists. by split. Qed.

Lemma does_panic x o (Q : hres A -> exchange -> ServingOutcome -> Prop) :
  Q HPanic x o -> does hpanic x o Q.
Proof. intros HQ w Hw <-. eexists. by split. Qed.

Lemma does_mono (m : H A) x o (P Q : hres A -> exchange -> ServingOutcome -> Prop) :
  does m x o P -> (forall r x' o', P r x' o' -> Q r x' o') -> does m x o Q.
Proof. intros Hm HPQ w Hw Ho. destruct (Hm w Hw Ho) as (x' & ? & ?). eauto. Qed.

Lemma does_bind (m : H A) (f : A -> H B) x o (Q : hres B -> exchange -> ServingOutcome -> Prop) :
  does m x o (fun r x' o' =>
    match r with
    | HReturn a => does (f a) x' o' Q
    | HPanic => Q HPanic x' o'
    | HFuel => False
    end) ->
  does (m ≫= f) x o Q.
Proof.
  intros Hm w Hw Ho. destruct (Hm w Hw Ho) as (x' & Hw' & HP).
  unfold mbind, H_bind. destruct (m w) as [[a| |] w'] eqn:E; cbn [fst snd] in *; [|eauto|done].
  by apply HP.
Qed.

Lemma does_deferred (m : H A) cleanup x o (Q : hres A -> exchange -> ServingOutcome -> Prop) :
  does m x o (fun r x' o' => does cleanup x' o' (fun c x'' o'' =>
     Q (match c with HReturn _ => r | HPanic => HPanic | HFuel => HFuel end) x'' o'')) ->
  does (deferred m cleanup) x o Q.
Proof.
  intros Hm w Hw Ho. destruct (Hm w Hw Ho) as (x' & Hw' & HP). unfold deferred.
  destruct (m w) as [r w'] eqn:E. cbn [fst snd] in *.
  specialize (HP w' Hw' eq_refl).
  destruct (cleanup w') as [c w''] eqn:Ec. cbn [fst snd] in *. exact HP.
Qed.

Lemma does_ask (q : list event -> A) (f : A -> H B) x o Q :
  (forall l, replay l = Some x -> does (f (q l)) x o Q) -> does (a ← ask q; f a) x o Q.
Proof.
  intros Hf w Hw Ho. unfold mbind, H_bind, ask. apply (Hf (w_log w)); [by destruct Hw| |done].
  destruct Hw as [Hl ? ? ? ? ?]. split; cbn; try done. by rewrite replay_snoc, Hl.
Qed.

Lemma does_committed (f : bool -> H B) x o Q :
  does (f (negb (uncommitted x))) x o Q -> does (b ← committed; f b) x o Q.
Proof.
  intros Hf w Hw Ho. unfold mbind, H_bind, committed. rewrite (tr_committed _ _ Hw). by apply Hf.
Qed.

Lemma does_streaming (f : bool -> H B) x o Q :
  does (f (match x_status x with Some (_, s) => s | None => false end)) x o Q ->
  does (b ← streaming; f b) x o Q.
Proof.
  intros Hf w Hw Ho. unfold mbind, H_bind, streaming. rewrite (tr_streaming _ _ Hw). by apply Hf.
Qed.

Lemma does_if (b : bool) (m n : H A) x o Q :
  (b = true -> does m x o Q) -> (b = false -> does n x o Q) -> does (if b then m else n) x o Q.
Proof. destruct b; auto. Qed.
End Rules.

(** An event that touches none of the handler's variables. *)
Lemma does_event ev x o x' (Q : hres unit -> exchange -> ServingOutcome -> Prop) :
  exchange_step x ev = Some x' ->
  x_status x' = x_status x \/ (exists body, ev = EvWrite body) ->
  x_lease x' = LeaseReturned <-> x_lease x = LeaseReturned ->
  x_upstreamClosed x' = x_upstreamClosed x -> x_bodyClosed x' = x_bodyClosed x ->
  Q (HReturn tt) x' o -> does (logEvent ev) x o Q.
Proof.
  intros Hstep Hs Hl Hu Hb HQ w [Hlog Hc Hst Hr Hcl Hbc] <-. exists x'. split; [|done].
  assert (x_status x' = x_status x) as Hs'.
  { destruct Hs as [?|[body ->]]; [done|]. cbn in Hstep. destruct (negb (uncommitted x)); [|done]. by injection Hstep as <-. }
  split; cbn [w_log w_committed w_streaming w_released w_closed w_bodyClosed logEvent snd].
  - by rewrite replay_snoc, Hlog.
  - rewrite Hc. unfold uncommitted. by rewrite Hs'.
  - by rewrite Hst, Hs'.
  - rewrite Hr. by apply bool_decide_ext.
  - congruence.
  - congruence.
Qed.

Lemma does_setOutcome o' x o (Q : hres unit -> exchange -> ServingOutcome -> Prop) :
  Q (HReturn tt) x o' -> does (setOutcome o') x o Q.
Proof. intros HQ w [] <-. exists x. by split. Qed.

Lemma does_commit status stream x o (Q : hres unit -> exchange -> ServingOutcome -> Prop) :
  uncommitted x = true -> negb stream || permit_held x = true ->
  Q (HReturn tt) (with_reply (Some (status, stream)) [] x) o -> does (commit status stream) x o Q.
Proof.
  intros Hu Hp HQ w [Hlog Hc Hst Hr Hcl Hb] <-. eexists. split; [|exact HQ].
  split; cbn [w_log w_committed w_streaming w_released w_closed w_bodyClosed commit snd]; try done.
  - rewrite replay_snoc, Hlog. cbn. by rewrite Hu, Hp.
  - rewrite Hst. unfold uncommitted in Hu. by destruct (x_status x).
Qed.

Lemma does_releaseSlots x o (Q : hres unit -> exchange -> ServingOutcome -> Prop) :
  x_lease x <> LeaseNone -> Q (HReturn tt) (with_lease LeaseReturned x) o -> does releaseSlots x o Q.
Proof.
  intros Hl HQ w [Hlog Hc Hst Hr Hcl Hb] <-. unfold releaseSlots. rewrite Hr.
  destruct (x_lease x) eqn:E; [done| |].
  - rewrite bool_decide_eq_false_2 by done. eexists. split; [|exact HQ].
    split; cbn; try done.  rewrite replay_snoc, Hlog. cbn. by rewrite E.
  - rewrite bool_decide_eq_true_2 by done. eexists. split; [|exact HQ].
    replace (with_lease LeaseReturned x) with x; [by split; rewrite ?E|].
    destruct x. cbn in E |- *. by subst.
Qed.

Lemma does_closeUpstream env x o (Q : hres bool -> exchange -> ServingOutcome -> Prop) c :
  x_upstream x = Some c -> hasBody (snd (fst c)) = true ->
  (forall r, r <> HFuel -> Q r (with_upstreamClosed x) o) -> does (closeUpstream env) x o Q.
Proof.
  intros Hu Hb HQ w [Hlog Hc Hst Hr Hcl Hbc] <-. unfold closeUpstream.
  destruct (w_closed w) eqn:E; cbn [fst snd].
  - exists (with_upstreamClosed x). split; [|by apply HQ].
    replace (with_upstreamClosed x) with x; [split; rewrite ?E; done|].
    destruct x. cbn in *. by subst.
  - exists (with_upstreamClosed x). split; [|apply HQ; by destruct (e_close env _)].
    split; cbn; try done. rewrite replay_snoc, Hlog. cbn. unfold upstream_open. rewrite Hu.
    destruct c as [[? ?] ?]. cbn in Hb. rewrite Hb. by rewrite <- Hcl.
Qed.

Lemma does_closeRequest env x o (Q : hres unit -> exchange -> ServingOutcome -> Prop) :
  (forall r, r <> HFuel -> Q r (with_bodyClosed x) o) -> does (closeRequest env) x o Q.
Proof.
  intros HQ w [Hlog Hc Hst Hr Hcl Hbc] <-. unfold closeRequest. rewrite Hbc.
  exists (with_bodyClosed x). destruct (x_bodyClosed x) eqn:E; cbn [fst snd].
  - split; [|by apply HQ]. replace (with_bodyClosed x) with x; [by split; rewrite ?E|].
    destruct x. cbn in *. by subst.
  - split; [|apply HQ; by destruct (e_closeRequest env _)]. split; cbn; try done.
    rewrite replay_snoc, Hlog. cbn. by rewrite E.
Qed.

Create HintDb does discriminated.

(** One step through the handler's code under [does]. *)
Ltac does_step :=
  lazymatch goal with
  | |- does (mbind _ (ask _)) _ _ _ => apply does_ask; let l := fresh "l" in let H := fresh "Hl" in intros l H
  | |- does (mbind _ (requestErr _)) _ _ _ => apply does_ask; let l := fresh "l" in let H := fresh "Hl" in intros l H
  | |- does (mbind _ committed) _ _ _ => apply does_committed
  | |- does (mbind _ streaming) _ _ _ => apply does_streaming
  | |- does (mbind _ _) _ _ _ => apply does_bind
  | |- does (if _ then _ else _) _ _ _ => apply does_if; intros ?; breflect
  | |- does (mret _) _ _ _ => apply does_ret
  | |- does hpanic _ _ _ => apply does_panic
  | |- does (setOutcome _) _ _ _ => apply does_setOutcome
  end.

(** ** What the log says of its exchange *)

(** A permit is held or finished only after an answer of the scheduler. *)
Definition permit_known (x : exchange) : Prop := x_permit x <> PermitNone -> x_admission x <> None.

Ltac step_cases H :=
  cbn [exchange_step] in H; unfold allow in H;
  try match type of H with
      | (if ?b then _ else _) = _ => let E := fresh "E" in destruct b eqn:E; [breflect|discriminate H]
      end;
  injection H as <-.

Lemma replay_app_inv l ev x : replay (l ++ [ev]) = Some x ->
  exists x0, replay l = Some x0 /\ exchange_step x0 ev = Some x.
Proof. rewrite replay_snoc. destruct (replay l) as [x0|]; [eauto|done]. Qed.

Lemma replay_known l : forall x, replay l = Some x -> permit_known x.
Proof.
  induction l as [|ev l IH] using rev_ind; intros x H; [injection H as <-; by intros []|].
  apply replay_app_inv in H as (x0 & H0 & H). specialize (IH x0 H0). unfold permit_known in *.
  destruct ev; step_cases H; cbn; try done; intros _; apply IH; unfold permit_held in *; by case_match.
Qed.

Lemma replay_finish l o : forall x, replay l = Some x -> EvFinish o ∈ l -> x_permit x = PermitFinished o.
Proof.
  induction l as [|ev l IH] using rev_ind; intros x H Hin; [by apply elem_of_nil in Hin|].
  apply replay_app_inv in H as (x0 & H0 & H). specialize (IH x0 H0). pose proof (replay_known l x0 H0) as Hk.
  apply elem_of_app in Hin as [Hin|Hin%list_elem_of_singleton]; [|subst ev; by step_cases H].
  specialize (IH Hin). unfold permit_known in Hk. rewrite IH in Hk.
  assert (permit_held x0 = false) as Hp by (unfold permit_held; by rewrite IH).
  destruct ev; step_cases H; cbn; try done; try congruence.
  exfalso. destruct (x_admission x0); [done|]. by apply Hk.
Qed.

Lemma replay_complete l r response err : forall x, replay l = Some x ->
  EvComplete r response err ∈ l -> x_upstream x = Some (r, response, err).
Proof.
  induction l as [|ev l IH] using rev_ind; intros x H Hin; [by apply elem_of_nil in Hin|].
  apply replay_app_inv in H as (x0 & H0 & H). specialize (IH x0 H0).
  apply elem_of_app in Hin as [Hin|Hin%list_elem_of_singleton]; [|subst ev; by step_cases H].
  specialize (IH Hin). destruct ev; step_cases H; cbn; try done. by rewrite IH in *.
Qed.

Lemma replay_admission l : forall x a permit kind, replay l = Some x ->
  x_admission x = Some (a, permit, kind) -> EvAcquire a permit kind ∈ l.
Proof.
  induction l as [|ev l IH] using rev_ind; intros x a permit kind H Ha; [by injection H as <-|].
  apply replay_app_inv in H as (x0 & H0 & H). apply elem_of_app.
  destruct ev; step_cases H; cbn in *; try (left; by eapply IH). right. injection Ha as <- <- <-. left.
Qed.

Lemma replay_read l : forall x body, replay l = Some x -> x_read x = Some body -> EvRead body ∈ l.
Proof.
  induction l as [|ev l IH] using rev_ind; intros x body H Hb; [by injection H as <-|].
  apply replay_app_inv in H as (x0 & H0 & H). apply elem_of_app.
  destruct ev; step_cases H; cbn in *; try (left; by eapply IH). right. injection Hb as <-. left.
Qed.
