(* ===== verification/HttpExchange.v ===== *)
(** * What the client of one HTTP exchange can see

    The four views a client can have of an exchange (nothing, a public error, a
    validated JSON response, a validated event stream), and the rules for the
    parts of the handler that answer: the response sink and the check of the
    upstream contexts. *)

From S2P Require Import Prelude.
From S2P Require Import GoJson.
From S2P Require Import GoIO.
From S2P Require Import AdmissionConfig.
From S2P Require Import AdmissionOwner.
From S2P Require Import ContractRequest.
From S2P Require Import ContractParse.
From S2P Require Import ContractResponse.
From S2P Require Import GoBufio.
From S2P Require Import ContractSSE.
From S2P Require Import ContractStream.
From S2P Require Import HttpConfig.
From S2P Require Import HttpHandler.
From S2P Require Import HttpProtocol.

Definition publicErrors : list publicError :=
  [errUnsupportedPath; errUnsupportedMethod; errInvalidCredential; errUnsupportedMedia;
   errInvalidRequest; errRequestTooLarge; errTenantCapacity; errOverloaded; errQueueDeadline;
   errDraining; errUpstreamTimeout; errBadUpstream; errInternal].

Ltac public := by repeat econstructor.

(** ** Views *)

Section Views.
Context (parseMediaType : list Z -> option (list Z * list (list Z * list Z))).
Context (config : validatedHandlerConfig).

(** The upstream answered a request of this mode properly, with this body. *)
Definition answered (mode : RequestMode) (body : script) (x : exchange) : Prop :=
  exists r response, x_upstream x = Some (r, response, None) /\ req_mode r = mode /\
    validUpstreamMetadata parseMediaType response mode = true /\ ur_Body response = Some body.

Definition silent (x : exchange) : Prop := x_status x = None /\ x_written x = [].

Lemma silent_uncommitted x : silent x -> uncommitted x = true.
Proof. unfold uncommitted. by intros [-> _]. Qed.

(** One of the fixed error bodies, or a part of it if the client went away. *)
Definition error_view (x : exchange) : Prop :=
  exists f n, f ∈ publicErrors /\ x_status x = Some (pe_status f, false) /\
    x_written x = take n (errorBody f).

(** Bytes of an upstream body that was read to its end, is a chat completion
    and was closed without an error. *)
Definition json_view (full : Prop) (x : exchange) : Prop :=
  exists body n, answered RequestModeNonStreaming body x /\ x_status x = Some (200, false) /\
    object_body chatCompletionObject (script_data body) /\ script_err body = None /\
    Z.of_nat (length (script_data body)) <= rv_maxBodyBytes (vh_responseValidator config) /\
    x_upstreamClosed x = true /\
    x_written x = take n (script_data body) /\ (full -> x_written x = script_data body).

(** Valid events, each as the upstream sent it and in its order; the last may
    have been cut short. *)
Definition stream_view (full : Prop) (x : exchange) : Prop :=
  exists body evs ev n, answered RequestModeStreaming body x /\ x_status x = Some (200, true) /\
    Forall (event_ok (vh_sseLimits config)) (evs ++ [ev]) /\
    bodies (evs ++ [ev]) `prefix_of` script_data body /\
    x_written x = bodies evs ++ take n (ev_body ev) /\
    (full -> x_written x = script_data body /\ script_err body = None /\
       complete_stream (evs ++ [ev]) /\ x_upstreamClosed x = true).

Definition client_view (x : exchange) : Prop :=
  silent x \/ error_view x \/ json_view False x \/ stream_view False x.

Definition completed_view (x : exchange) : Prop := json_view True x \/ stream_view True x.

Lemma json_view_weaken (full : Prop) x : json_view full x -> json_view False x.
Proof. intros (b & n & ? & ? & ? & ? & ? & ? & ? & _). exists b, n. by split_and!. Qed.
Lemma stream_view_weaken (full : Prop) x : stream_view full x -> stream_view False x.
Proof. intros (b & evs & ev & n & ? & ? & ? & ? & ? & _). exists b, evs, ev, n. by split_and!. Qed.

Lemma completed_client x : completed_view x -> client_view x.
Proof.
  intros [H|H]; right; right; [left|right]; [by eapply json_view_weaken|by eapply stream_view_weaken].
Qed.

Lemma completed_committed x : completed_view x -> uncommitted x = false.
Proof.
  unfold uncommitted. intros [(? & ? & _ & -> & _)|(? & ? & ? & ? & _ & -> & _)]; done.
Qed.

(** An exchange that shows the client the same, through the same call. *)
Definition same_view (x x' : exchange) : Prop :=
  x_upstream x' = x_upstream x /\ x_status x' = x_status x /\ x_written x' = x_written x /\
  (x_upstreamClosed x = true -> x_upstreamClosed x' = true).

Lemma same_view_closed x : same_view x (with_upstreamClosed x).
Proof. by split_and!. Qed.

Lemma client_view_same x x' : same_view x x' -> client_view x -> client_view x'.
Proof.
  unfold same_view, client_view, silent, error_view, json_view, stream_view, answered.
  intros (-> & -> & -> & Hc). intros [?|[?|[H|H]]]; [auto|auto| |].
  - destruct H as (b & n & ? & ? & ? & ? & ? & ? & ? & _). right. right. left. exists b, n. split_and!; auto; done.
  - destruct H as (b & evs & ev & n & ? & ? & ? & ? & ? & _). right. right. right.
    exists b, evs, ev, n. by split_and!.
Qed.

Lemma completed_view_same x x' : same_view x x' -> completed_view x -> completed_view x'.
Proof.
  unfold same_view, completed_view, json_view, stream_view, answered.
  intros (-> & -> & -> & Hc). intros [H|H]; [left|right].
  - destruct H as (b & n & ? & ? & ? & ? & ? & ? & ? & ?). exists b, n. split_and!; auto.
  - destruct H as (b & evs & ev & n & ? & ? & ? & ? & ? & Hf). exists b, evs, ev, n.
    split_and!; auto. intros HT. destruct (Hf HT) as (? & ? & ? & ?). auto.
Qed.
End Views.

(** ** Refusals *)

(** From [x], nothing, or a public error if nothing was answered yet. *)
Definition refusal (x x' : exchange) : Prop :=
  x' = x \/ uncommitted x = true /\ exists f n, f ∈ publicErrors /\
    x' = with_reply (Some (pe_status f, false)) (take n (errorBody f)) x.

Lemma refusal_refl x : refusal x x.
Proof. by left. Qed.

Lemma refusal_trans x1 x2 x3 : refusal x1 x2 -> refusal x2 x3 -> refusal x1 x3.
Proof.
  intros [->|(Hu & f & n & Hf & ->)] H2; [done|].
  destruct H2 as [->|(Hu2 & _)]; [|by cbn in Hu2]. right. eauto.
Qed.

Lemma refusal_client pmt config x x' :
  refusal x x' -> client_view pmt config x -> client_view pmt config x'.
Proof.
  intros [->|(Hu & f & n & Hf & ->)] Hv; [done|]. right. left. exists f, n.
  assert (x_written x = []) as Hw.
  { unfold uncommitted in Hu. destruct Hv as [[_ ?]|[H|[H|H]]]; [done| | |].
    - destruct H as (? & ? & _ & E & _). by rewrite E in Hu.
    - destruct H as (? & ? & _ & E & _). by rewrite E in Hu.
    - destruct H as (? & ? & ? & ? & _ & E & _). by rewrite E in Hu. }
  cbn. by rewrite Hw.
Qed.

Lemma refusal_completed pmt config x x' :
  refusal x x' -> completed_view pmt config x -> completed_view pmt config x'.
Proof.
  intros [->|(Hu & _)] Hv; [done|]. apply completed_committed in Hv. congruence.
Qed.

(** What answering leaves alone. *)
Record frame (x x' : exchange) : Prop := {
  fr_bodyClosed : x_bodyClosed x' = x_bodyClosed x;
  fr_lease : x_lease x' = x_lease x;
  fr_read : x_read x' = x_read x;
  fr_admission : x_admission x' = x_admission x;
  fr_permit : x_permit x' = x_permit x;
  fr_upstream : x_upstream x' = x_upstream x;
  fr_closed : x_upstreamClosed x = true -> x_upstreamClosed x' = true;
}.

Lemma frame_refl x : frame x x.
Proof. by split. Qed.
Lemma frame_trans x1 x2 x3 : frame x1 x2 -> frame x2 x3 -> frame x1 x3.
Proof. intros [] []. split; try congruence. auto. Qed.
Lemma frame_reply status body x : frame x (with_reply status body x).
Proof. by split. Qed.
Lemma frame_closed x : frame x (with_upstreamClosed x).
Proof. by split. Qed.
Lemma refusal_frame x x' : refusal x x' -> frame x x'.
Proof. intros [->|(_ & f & n & _ & ->)]; [apply frame_refl|apply frame_reply]. Qed.

#[export] Hint Resolve refusal_refl refusal_trans frame_refl frame_trans frame_reply frame_closed
  refusal_frame : does.

(** ** The response sink *)

Section Sink.
Context (env : Env).
Implicit Types (x : exchange) (o : ServingOutcome).

Lemma with_reply_twice s b1 b2 x : with_reply s b2 (with_reply s b1 x) = with_reply s (b1 ++ b2) x.
Proof. unfold with_reply. cbn. by rewrite app_assoc. Qed.

Lemma does_copyBody body x o (Q : hres bool -> exchange -> ServingOutcome -> Prop) :
  uncommitted x = false ->
  Q (HReturn false) (with_reply (x_status x) body x) o ->
  (forall r n, r = HReturn true \/ r = HPanic -> Q r (with_reply (x_status x) (take n body) x) o) ->
  does (copyBody env body) x o Q.
Proof.
  intros Hu Hok Hfail. unfold copyBody. does_step.
  assert (forall b Q', Q' (HReturn tt) (with_reply (x_status x) b x) o ->
    does (logEvent (EvWrite b)) x o Q') as Hev.
  { intros b Q' HQ. eapply does_event; [cbn; by rewrite Hu|by left| | | |exact HQ]; done. }
  destruct (e_write env l) as [|n|n]; does_step; apply Hev; does_step; auto.
Qed.

(** A response that is written at once. *)
Lemma does_writeJSON status body x o (Q : hres bool -> exchange -> ServingOutcome -> Prop) :
  (uncommitted x = false -> Q (HReturn true) x o) ->
  (uncommitted x = true -> Q (HReturn false) (with_reply (Some (status, false)) body x) o) ->
  (uncommitted x = true -> forall r n, r = HReturn true \/ r = HPanic ->
     Q r (with_reply (Some (status, false)) (take n body) x) o) ->
  does (writeJSON env status body) x o Q.
Proof.
  intros Hdone Hok Hfail. unfold writeJSON. does_step.
  destruct (uncommitted x) eqn:Hu; cbn [negb]; [|does_step; auto].
  does_step. apply does_commit; [done|done|].
  apply does_copyBody; [done| |]; cbn [x_status with_reply]; intros; rewrite with_reply_twice; cbn [app]; auto.
Qed.

Lemma does_writeError f x o (Q : hres bool -> exchange -> ServingOutcome -> Prop) :
  f ∈ publicErrors -> (forall r x', r <> HFuel -> refusal x x' -> Q r x' o) ->
  does (writeError env f) x o Q.
Proof.
  intros Hf HQ. apply does_writeJSON; intros Hu.
  - by apply HQ; [|apply refusal_refl].
  - apply HQ; [done|]. right. split; [done|]. exists f, (length (errorBody f)). split; [done|].
    by rewrite take_ge.
  - intros r n Hr. apply HQ; [by destruct Hr as [-> | ->]|]. right. eauto.
Qed.

Lemma does_writeError_ f x o (Q : hres unit -> exchange -> ServingOutcome -> Prop) :
  f ∈ publicErrors -> (forall r x', r <> HFuel -> refusal x x' -> Q r x' o) ->
  does (writeError_ env f) x o Q.
Proof.
  intros Hf HQ. unfold writeError_. does_step. apply does_writeError; [done|]. intros [a| |] x' Hr Hx; [|by apply HQ|done].
  does_step. by apply HQ.
Qed.

(** [failUpstream] leaves an outcome that is not a completion. *)
Lemma does_failUpstream f x o (Q : hres unit -> exchange -> ServingOutcome -> Prop) :
  f ∈ publicErrors ->
  (forall r x' o', r <> HFuel -> refusal x x' -> o' <> ServingCompleted -> Q r x' o') ->
  does (failUpstream env f) x o Q.
Proof.
  intros Hf HQ. unfold failUpstream. does_step. does_step. does_step.
  apply does_writeError; [done|]. intros [a| |] x' Hr Hx; [|by apply HQ|done].
  does_step; does_step; by apply HQ.
Qed.
End Sink.

(** ** The check of the contexts *)

Section Contexts.
Context (env : Env).

(** It goes on, or it ends the request with at most a public error and an
    outcome that is not a completion. *)
Lemma does_handleUpstreamContext x o (Q : hres (option ServingOutcome) -> exchange -> ServingOutcome -> Prop) :
  Q (HReturn None) x o ->
  (forall r x', r <> HFuel -> refusal x x' -> r <> HReturn None -> r <> HReturn (Some ServingCompleted) ->
     Q r x' o) ->
  does (handleUpstreamContext env) x o Q.
Proof.
  intros Hon Hend.
  assert (forall x' v, refusal x x' -> v <> ServingCompleted -> Q (HReturn (Some v)) x' o) as Hstop
    by (intros; apply Hend; congruence).
  assert (forall w, w <> ServingCompleted -> does (mret (Some w)) x o Q) as Hret
    by (intros; does_step; auto using refusal_refl).
  assert (does (done ← committed; _ ← (if negb done then writeError_ env errDraining else mret tt);
    mret (Some ServingCanceled)) x o Q) as Hdrain.
  { does_step. does_step. does_step.
    - apply does_writeError_; [public|]. intros [v| |] x' Hr Hx; [|by apply Hend|done].
      does_step. by apply Hstop.
    - does_step. by apply Hret. }
  unfold handleUpstreamContext.
  repeat first [ exact Hon | exact Hdrain | apply Hret; discriminate | does_step ].
  apply does_writeError; [public|]. intros [[]| |] x' Hr Hx; try done; try does_step;
    first [by apply Hstop | by apply Hend].
Qed.
End Contexts.
