(* ===== verification/HttpRelay.v ===== *)
(** * The relay of an upstream answer

    That the relay of an event stream ([relay.go]) and the buffered path of
    [serve] show the client only what the upstream sent and the contract
    accepted, and report a completion only when all of it was written. *)

From S2P Require Import Prelude.
From S2P Require Import GoJson.
From S2P Require Import GoIO.
From S2P Require Import AdmissionConfig.
From S2P Require Import AdmissionOwner.
From S2P Require Import ContractRequest.
From S2P Require Import ContractParse.
From S2P Require Import ContractResponse.
From S2P Require Import GoBufio.
From S2P Require Import ContractSSE.
From S2P Require Import ContractStream.
From S2P Require Import HttpConfig.
From S2P Require Import HttpHandler.
From S2P Require Import HttpProtocol.
From S2P Require Import HttpExchange.

Section Relay.
Context (env : Env) (parseMediaType : list Z -> option (list Z * list (list Z * list Z))).
Context (room : nat -> nat) (config : validatedHandlerConfig).
Context (Hroom : forall n, (0 < room n)%nat).
Context (Hsse : sse_limits_u64 (vh_sseLimits config)).
Context (Hsse_ok : ValidateSSELimits (vh_sseLimits config) = Ok tt).
Context (Hval : made_by_NewResponseValidator (vh_responseValidator config)).
Implicit Types (x : exchange) (o : ServingOutcome).

Abbreviation client := (client_view parseMediaType config).
Abbreviation completed := (completed_view parseMediaType config).
Abbreviation answered := (answered parseMediaType).
Abbreviation lim := (vh_sseLimits config).

(** How a relay from [x] may end. *)
Definition relayed x (r : hres ServingOutcome) x' : Prop :=
  r <> HFuel /\ frame x x' /\ client x' /\ (r = HReturn ServingCompleted -> completed x').

Lemma relayed_refusal x x1 x' r :
  frame x x1 -> client x1 -> refusal x1 x' -> r <> HFuel -> r <> HReturn ServingCompleted -> relayed x r x'.
Proof.
  intros Hf Hc Hr Hn Hne. split; [done|]. split; [eauto with does|].
  split; [by eapply refusal_client|done].
Qed.

(** ** Event streams *)

(** The events of [evs] have been written, and nothing else. *)
Definition streamed (evs : list ValidatedSSEEvent) x : Prop :=
  match evs with
  | [] => silent x
  | _ => x_status x = Some (200, true) /\ x_written x = bodies evs
  end.

Lemma streamed_written evs x : streamed evs x -> x_written x = bodies evs.
Proof. by destruct evs; intros [_ ?]. Qed.

Lemma streamed_client s0 evs d x :
  answered RequestModeStreaming s0 x -> stream_inv s0 lim evs d -> streamed evs x -> client x.
Proof.
  intros Ha (_ & Hok & Hpre & _) Hs. destruct (decide (evs = [])) as [->|Hne]; [by left|].
  right. right. right. destruct (exists_last Hne) as (evs' & ev & ->).
  assert (x_status x = Some (200, true) /\ x_written x = bodies (evs' ++ [ev])) as [? Hw]
    by (destruct evs'; exact Hs).
  exists s0, evs', ev, (length (ev_body ev)). split_and!; try done.
  rewrite Hw, bodies_app. by rewrite take_ge.
Qed.

(** A next event cut short, or written in full. *)
Lemma streamed_more s0 evs ev d x n :
  answered RequestModeStreaming s0 x -> stream_inv s0 lim (evs ++ [ev]) d -> streamed evs x ->
  client (with_reply (Some (200, true)) (take n (ev_body ev)) x).
Proof.
  intros Ha (_ & Hok & Hpre & _) Hs. right. right. right.
  exists s0, evs, ev, n. split_and!; try done.
  cbn. by rewrite (streamed_written evs).
Qed.

Lemma streamed_snoc evs ev x :
  streamed evs x -> streamed (evs ++ [ev]) (with_reply (Some (200, true)) (ev_body ev) x).
Proof.
  intros Hs. pose proof (streamed_written _ _ Hs) as Hw.
  assert (x_written x ++ ev_body ev = bodies (evs ++ [ev])) as Hb by (by rewrite bodies_app, Hw).
  by destruct evs.
Qed.

Lemma event_body_nonempty e : event_ok lim e -> ev_body e <> [].
Proof.
  intros [[[_ (p & Hw & _)]|[_ Hw]] _]; destruct Hw as (? & ? & ? & _ & _ & _ & -> & _); discriminate.
Qed.

Lemma stream_inv_last s0 evs ev d : stream_inv s0 lim (evs ++ [ev]) d -> event_ok lim ev.
Proof. intros (_ & Hok & _). apply Forall_app in Hok as [_ Hok]. by inversion Hok. Qed.

Lemma does_writeSSEEvent evs body x o (Q : hres bool -> exchange -> ServingOutcome -> Prop) :
  body <> [] -> permit_held x = true -> streamed evs x ->
  Q (HReturn true) x o ->
  Q (HReturn false) (with_reply (Some (200, true)) body x) o ->
  (forall r n, r = HReturn true \/ r = HPanic -> Q r (with_reply (Some (200, true)) (take n body) x) o) ->
  does (writeSSEEvent env body) x o Q.
Proof.
  intros Hne Hp Hs Hstay Hok Hfail. unfold writeSSEEvent. rewrite bool_decide_eq_false_2 by done.
  does_step. does_step.
  assert (uncommitted x = true \/ x_status x = Some (200, true)) as Hst.
  { unfold uncommitted. destruct evs; [destruct Hs as [-> _]; by left|destruct Hs as [-> _]; by right]. }
  assert (negb (uncommitted x) && negb (match x_status x with Some (_, s) => s | None => false end) = false)
    as -> by (destruct Hst as [-> | ->]; [done|by rewrite andb_false_r]).
  does_step; [does_step; exact Hstay|]. does_step.
  destruct Hst as [Hu|Hst].
  - rewrite Hu. cbn [negb]. apply does_commit; [done|by rewrite Hp|].
    apply does_copyBody; [done| |]; cbn [x_status with_reply]; intros; rewrite with_reply_twice; cbn [app]; auto.
  - assert (uncommitted x = false) as Hu by (unfold uncommitted; by rewrite Hst).
    rewrite Hu. cbn [negb]. does_step. apply does_copyBody; [done| |]; rewrite Hst; auto.
Qed.

Lemma does_finishSSEFailure t x1 x o (Q : hres ServingOutcome -> exchange -> ServingOutcome -> Prop) :
  frame x x1 -> client x1 -> (forall r x', relayed x r x' -> Q r x' o) ->
  does (finishSSEFailure env t) x1 o Q.
Proof.
  intros Hf Hc HQ. unfold finishSSEFailure. does_step.
  apply does_handleUpstreamContext.
  - does_step. does_step.
    + does_step. apply HQ. eapply relayed_refusal; eauto with does; done.
    + does_step. apply does_writeError; [destruct t; public|]. intros [b| |] x' Hr Hx; [|apply HQ|done].
      * does_step. apply HQ. eapply relayed_refusal; eauto; by destruct b.
      * by eapply relayed_refusal; eauto.
  - intros [[v|]| |] x' Hr Hx Hn Hne; try done.
    + does_step. apply HQ. eapply relayed_refusal; eauto. congruence.
    + apply HQ. by eapply relayed_refusal; eauto.
Qed.

(** A call of the decoder under a context of its own. *)
Lemma does_boundedCall {A} (call : M (Context * SSEDecoder) (result sseFailure A)) d x o P
    (Q : hres (option A * bool * SSEDecoder) -> exchange -> ServingOutcome -> Prop) :
  (forall c, wp call P (c, d)) ->
  (forall t d', Q (HReturn (None, t, d')) x o) ->
  (forall a t c d', P (Ok a) (c, d') -> Q (HReturn (Some a, t, d')) x o) ->
  does (boundedCall env call d) x o Q.
Proof.
  intros Hcall Hnone Hsome. unfold boundedCall. does_step.
  destruct (Hcall (e_callContext env l)) as (r & [c d'] & -> & HP).
  does_step. does_step. does_step. destruct r as [a|e]; [|apply Hnone]. case_match; [by eapply Hsome|apply Hnone].
Qed.

Lemma does_finish s0 evs t d x1 x o (Q : hres ServingOutcome -> exchange -> ServingOutcome -> Prop) :
  frame x x1 -> answered RequestModeStreaming s0 x1 -> stream_inv s0 lim evs d -> streamed evs x1 ->
  (forall r x', relayed x r x' -> Q r x' o) -> does (finishSSEFailure env t) x1 o Q.
Proof. intros. eapply does_finishSSEFailure; eauto using streamed_client. Qed.

Lemma answered_frame mode body x x' : frame x x' -> answered mode body x -> answered mode body x'.
Proof. intros [_ _ _ _ _ Hu _]. unfold HttpExchange.answered. by rewrite Hu. Qed.

Lemma permit_frame x x' : frame x x' -> permit_held x' = permit_held x.
Proof. intros [_ _ _ _ Hp _ _]. unfold permit_held. by rewrite Hp. Qed.

Lemma answered_open mode body x : answered mode body x ->
  exists c, x_upstream x = Some c /\ hasBody (snd (fst c)) = true.
Proof.
  intros (r & response & Hu & _ & _ & Hb). eexists. split; [done|]. cbn. unfold hasBody. by rewrite Hb.
Qed.

(** The handler's check of the contexts between two steps of a relay. *)
Lemma does_between x0 x o (f : H ServingOutcome) (Q : hres ServingOutcome -> exchange -> ServingOutcome -> Prop) :
  frame x0 x -> client x -> (forall r x', relayed x0 r x' -> Q r x' o) -> does f x o Q ->
  does (handled ← handleUpstreamContext env;
        match handled with Some outcome => mret outcome | None => f end) x o Q.
Proof.
  intros Hf Hc HQ Hon. does_step. apply does_handleUpstreamContext; [exact Hon|].
  intros [[v|]| |] x' Hr Hx Hn Hne; try done.
  - does_step. apply HQ. eapply relayed_refusal; eauto. congruence.
  - apply HQ. by eapply relayed_refusal; eauto.
Qed.

(** The terminal marker: held back until the end of the body is verified and
    the body closed. *)
Lemma does_marker s0 evs ev d x0 x o (Q : hres ServingOutcome -> exchange -> ServingOutcome -> Prop) :
  sse_limits_ok lim ->
  answered RequestModeStreaming s0 x -> permit_held x = true -> frame x0 x ->
  stream_inv s0 lim (evs ++ [ev]) d -> streamed evs x -> client x ->
  (forall r x', relayed x0 r x' -> Q r x' o) ->
  does ('(verified, verifyTimedOut, _) ← boundedCall env VerifyEOF d;
        match verified with
        | None =>
            idle ← ask (e_idleTimedOut env);
            finishSSEFailure env (verifyTimedOut || idle)
        | Some _ =>
            idle ← ask (e_idleTimedOut env);
            if (idle : bool) then finishSSEFailure env true else
            closeFailed ← closeUpstream env;
            if (closeFailed : bool) then finishSSEFailure env false else
            handled ← handleUpstreamContext env;
            match handled with
            | Some outcome => mret outcome
            | None =>
                failed ← writeSSEEvent env (ev_body ev);
                mret (if (failed : bool) then ServingDownstreamFailed else ServingCompleted)
            end
        end) x o Q.
Proof.
  intros Hlim Ha Hp Hf Hinv Hs Hc HQ. does_step.
  apply (does_boundedCall _ _ _ _ (verify_post s0 lim (evs ++ [ev]))); [intros c; by apply wp_VerifyEOF| |].
  { intros t d'. does_step. by eapply does_finishSSEFailure. }
  intros [] t c d' [Hinv' Hv]. specialize (Hv eq_refl). cbn [snd] in *.
  pose proof Hinv' as (_ & Hok & Hpre & _ & _ & Hst). rewrite Hv in Hst. destruct Hst as (Hcomp & Hd & He).
  does_step. does_step; [by eapply does_finishSSEFailure|]. does_step.
  destruct (answered_open _ _ _ Ha) as (call & Hu & Hb).
  eapply does_closeUpstream; [exact Hu|exact Hb|]. set (x1 := with_upstreamClosed x).
  assert (frame x0 x1) as Hf1 by (eapply frame_trans; [exact Hf|apply frame_closed]).
  assert (client x1) as Hc1 by (exact (client_view_same _ _ _ _ (same_view_closed x) Hc)).
  intros [closeFailed| |] Hn; [|apply HQ; by split|done].
  does_step; [by eapply does_finishSSEFailure|]. apply (does_between x0); [exact Hf1|exact Hc1|exact HQ|]. does_step.
  pose proof (stream_inv_last _ _ _ _ Hinv') as Hev.
  assert (forall n, client (with_reply (Some (200, true)) (take n (ev_body ev)) x1)) as Hcut.
  { intros n. by eapply (streamed_more s0 evs ev d'). }
  apply (does_writeSSEEvent evs); [by eapply event_body_nonempty|done|done| | |].
  - does_step. apply HQ. by split.
  - does_step. apply HQ. split; [done|]. split; [eauto with does|].
    assert (completed (with_reply (Some (200, true)) (ev_body ev) x1)) as Hcv.
    { right. exists s0, evs, ev, (length (ev_body ev)). split_and!; try done.
      - cbn. by rewrite (streamed_written evs), take_ge.
      - intros _. split; [|done]. cbn. by rewrite (streamed_written evs), Hd, bodies_app. }
    split; [by apply completed_client|done].
  - intros r n [-> | ->]; [does_step|]; apply HQ; (split; [done|]); split; eauto with does; done.
Qed.

(** The loop never needs more than [MaxEvents] turns, and one for the marker. *)
Lemma does_relayLoop s0 : forall fuel evs d x0 x o (Q : hres ServingOutcome -> exchange -> ServingOutcome -> Prop),
  sse_MaxEvents lim < Z.of_nat fuel + Z.of_nat (length evs) ->
  answered RequestModeStreaming s0 x -> permit_held x = true -> frame x0 x ->
  stream_inv s0 lim evs d -> streamed evs x ->
  (forall r x', relayed x0 r x' -> Q r x' o) -> does (relayLoop env fuel d) x o Q.
Proof.
  pose proof (ValidateSSELimits_ok lim (proj1 Hsse) (proj1 (proj2 Hsse)) Hsse_ok) as Hlim.
  induction fuel as [|fuel IH]; intros evs d x0 x o Q Hfuel Ha Hp Hf Hinv Hs HQ.
  { destruct Hinv as (_ & _ & _ & Hle & _). lia. }
  pose proof (streamed_client _ _ _ _ Ha Hinv Hs) as Hc.
  cbn [relayLoop]. does_step.
  apply (does_boundedCall _ _ _ _ (next_post s0 lim evs)); [intros c; by apply wp_Next| |].
  { intros t d'. does_step. by eapply does_finishSSEFailure. }
  intros ev t c d' Hinv'. cbn [next_post snd] in Hinv'.
  does_step. does_step; [by eapply does_finishSSEFailure|]. apply (does_between x0); [exact Hf|exact Hc|exact HQ|].
  pose proof (stream_inv_last _ _ _ _ Hinv') as Hev.
  destruct (ev_kind ev); [|by eapply does_marker].
  does_step. apply (does_writeSSEEvent evs); [by eapply event_body_nonempty|done|done| | |].
  - does_step. apply HQ. by split.
  - eapply (IH (evs ++ [ev]) d' x0); try done.
    + rewrite length_app. cbn [length]. lia.
    + eauto with does.
    + by apply streamed_snoc.
  - assert (forall n, client (with_reply (Some (200, true)) (take n (ev_body ev)) x))
      by (intros n; by eapply (streamed_more s0 evs ev d')).
    intros r n [-> | ->]; [does_step|]; apply HQ; (split; [done|]); split; eauto with does; done.
Qed.

Lemma does_relaySSE s0 x o (Q : hres ServingOutcome -> exchange -> ServingOutcome -> Prop) :
  script_plain s0 -> answered RequestModeStreaming s0 x -> permit_held x = true -> silent x ->
  (forall r x', relayed x r x' -> Q r x' o) -> does (relaySSE env config s0) x o Q.
Proof.
  intros Hplain Ha Hp Hs HQ. unfold relaySSE.
  destruct (NewSSEDecoder s0 lim) as [d|e] eqn:Hnew.
  - destruct (NewSSEDecoder_inv _ _ _ Hsse Hplain Hnew) as [_ Hinv].
    eapply (does_relayLoop s0 _ [] d x x); try done.
    unfold relayFuel. cbn [length]. lia.
  - exfalso. unfold NewSSEDecoder in Hnew. by rewrite Hsse_ok in Hnew.
Qed.

(** ** Buffered responses *)

(** How [serve] may leave an exchange it started from [x], and its outcome. *)
Definition served x (r : hres unit) x' o' : Prop :=
  r <> HFuel /\ frame x x' /\ client x' /\ (o' = ServingCompleted -> completed x').

(** The check of the contexts, and what [serve] does when it goes on. *)
Lemma does_checked x0 x o (f : H unit) (Q : hres unit -> exchange -> ServingOutcome -> Prop) :
  frame x0 x -> client x -> o <> ServingCompleted ->
  (forall r x' o', served x0 r x' o' -> Q r x' o') -> does f x o Q ->
  does (handled ← handleUpstreamContext env;
        match handled with Some v => setOutcome v | None => f end) x o Q.
Proof.
  intros Hf Hc Ho HQ Hon. does_step. apply does_handleUpstreamContext; [exact Hon|].
  intros [[v|]| |] x' Hr Hx Hn Hne; try done.
  - does_step. apply HQ. split; [done|]. split; [eauto with does|].
    split; [by eapply refusal_client|congruence].
  - apply HQ. split; [done|]. split; [eauto with does|]. split; [by eapply refusal_client|done].
Qed.

Lemma does_failed x0 x o f (Q : hres unit -> exchange -> ServingOutcome -> Prop) :
  f ∈ publicErrors -> frame x0 x -> client x ->
  (forall r x' o', served x0 r x' o' -> Q r x' o') -> does (failUpstream env f) x o Q.
Proof.
  intros Hf Hfr Hc HQ. apply does_failUpstream; [done|]. intros r x' o' Hr Hx Ho. apply HQ.
  split; [done|]. split; [eauto with does|]. split; [by eapply refusal_client|done].
Qed.

Lemma does_relayJSON s0 x o (Q : hres unit -> exchange -> ServingOutcome -> Prop) :
  answered RequestModeNonStreaming s0 x -> silent x -> o <> ServingCompleted ->
  (forall r x' o', served x r x' o' -> Q r x' o') -> does (relayJSON env room config s0) x o Q.
Proof.
  intros Ha Hs Ho HQ. assert (client x) as Hc by (by left). unfold relayJSON. does_step.
  destruct (response_runs _ room Hval Hroom (e_readContext env l) s0) as ([validated|e] & s' & Hrun);
    rewrite Hrun; cbn iota beta.
  2: { apply (does_checked x); try done. apply (does_failed x); try done. public. }
  apply response_ctx_ok in Hrun as Hbg; [|done|done].
  apply response_accepts in Hbg as (Hlen & Herr & Hobj & ->); [|done|done].
  destruct (answered_open _ _ _ Ha) as (c & Hu & Hb).
  does_step. eapply does_closeUpstream; [exact Hu|exact Hb|]. set (x1 := with_upstreamClosed x).
  assert (frame x x1) as Hf1 by apply frame_closed.
  assert (client x1) as Hc1 by (exact (client_view_same _ _ _ _ (same_view_closed x) Hc)).
  intros [closeFailed| |] Hn; [|by apply HQ|done].
  does_step; apply (does_checked x); try done; [by apply (does_failed x); try done; public|].
  destruct Hs as [Hst Hw].
  assert (uncommitted x1 = true) as Hunc by (unfold uncommitted; cbn; by rewrite Hst).
  assert (forall full n, (full -> (length (script_data s0) <= n)%nat) ->
    json_view parseMediaType config full (with_reply (Some (200, false)) (take n (script_data s0)) x1)) as Hview.
  { intros full n Hn'. exists s0, n. split_and!; try done.
    - cbn. by rewrite Hw.
    - intros Hfull. cbn. rewrite Hw. by rewrite take_ge by auto. }
  does_step. does_step. does_step. cbn [vr_body]. apply does_writeJSON; [congruence| |]; intros _.
  - does_step. apply HQ. split; [done|]. split; [eauto with does|].
    assert (completed (with_reply (Some (200, false)) (script_data s0) x1)) as Hcv.
    { left. specialize (Hview True (length (script_data s0))). rewrite take_ge in Hview by done. auto. }
    split; [by apply completed_client|done].
  - assert (forall n, client (with_reply (Some (200, false)) (take n (script_data s0)) x1)) as Hcut
      by (intros n; right; right; left; by apply Hview).
    intros r n [-> | ->]; [does_step|]; apply HQ; (split; [done|]); split; eauto with does; done.
Qed.

(** From the upstream's answer on. *)
Lemma does_relayResponse parsed response err x o (Q : hres unit -> exchange -> ServingOutcome -> Prop) :
  (forall body, ur_Body response = Some body -> script_plain body) ->
  x_upstream x = Some (parsed, response, err) -> permit_held x = true -> silent x ->
  o <> ServingCompleted ->
  (forall r x' o', served x r x' o' -> Q r x' o') ->
  does (relayResponse env parseMediaType room config parsed response err) x o Q.
Proof.
  intros Hplain Hu Hp Hs Ho HQ. assert (client x) as Hc by (by left). unfold relayResponse.
  apply (does_checked x); try done.
  assert (forall f, f ∈ publicErrors -> does (failUpstream env f) x o Q) as Hfail
    by (intros; apply (does_failed x); auto using frame_refl).
  does_step; [apply Hfail; public|]. apply does_if; intros Htest; [apply Hfail; public|].
  apply orb_false_iff in Htest as [Herr Hmeta]. apply negb_false_iff in Hmeta.
  apply bool_decide_eq_false in Herr. destruct err as [e|]; [by destruct Herr; eauto|].
  destruct (ur_Body response) as [body|] eqn:Hb.
  2: { does_step. apply HQ. split; [done|]. split; [apply frame_refl|]. split; [done|congruence]. }
  assert (answered (req_mode parsed) body x) as Ha by (exists parsed, response; auto).
  does_step.
  - does_step. eapply does_relaySSE; [by eauto|congruence|done|done|].
    intros [v| |] x' (Hn & Hf & Hc' & Hv); [|apply HQ|done].
    + does_step. apply HQ. split; [done|]. split; [done|]. split; [done|]. intros ->. auto.
    + split; [done|]. split; [done|]. by split.
  - apply does_relayJSON; try done. destruct (req_mode parsed); congruence.
Qed.
End Relay.
