(* ===== verification/HttpServe.v ===== *)
(** * One request from arrival to answer

    The rules for the rest of [serve] and for [ServeHTTP] ([handler.go]): from
    them the log of every request follows the protocol of [HttpProtocol.v], ends
    with nothing left to give back, and shows the client one of the views of
    [HttpExchange.v]. *)

From S2P Require Import Prelude.
From S2P Require Import GoJson.
From S2P Require Import GoIO.
From S2P Require Import AdmissionConfig.
From S2P Require Import AdmissionOwner.
From S2P Require Import ContractRequest.
From S2P Require Import ContractParse.
From S2P Require Import ContractResponse.
From S2P Require Import GoBufio.
From S2P Require Import ContractSSE.
From S2P Require Import ContractStream.
From S2P Require Import HttpConfig.
From S2P Require Import HttpHandler.
From S2P Require Import HttpProtocol.
From S2P Require Import HttpExchange.
From S2P Require Import HttpRelay.

(** The upstream's bodies are readers: they do not return [bufio]'s own error. *)
Definition upstream_plain (env : Env) : Prop :=
  forall l response err body, e_complete env l = Some (response, err) ->
    ur_Body response = Some body -> script_plain body.

Section Serve.
Context (env : Env) (sha256 : list Z -> list Z).
Context (parseMediaType : list Z -> option (list Z * list (list Z * list Z))).
Context (parser : Parser) (room : nat -> nat).
Context (config : validatedHandlerConfig) (request : httpRequest).
Context (Hparser : made_by_NewParser parser) (Hroom : forall n, (0 < room n)%nat).
Context (Hsse : sse_limits_u64 (vh_sseLimits config)).
Context (Hsse_ok : ValidateSSELimits (vh_sseLimits config) = Ok tt).
Context (Hval : made_by_NewResponseValidator (vh_responseValidator config)).
Context (Hplain : upstream_plain env).
Implicit Types (x : exchange) (o : ServingOutcome).

Abbreviation client := (client_view parseMediaType config).
Abbreviation completed := (completed_view parseMediaType config).

(** What the upstream was asked is the request the client sent, accepted by the
    parser, under a permit that the scheduler granted for exactly its tenant,
    body bytes, reservation and queue timeout. *)
Definition admitted x : Prop :=
  forall r response err, x_upstream x = Some (r, response, err) ->
  exists body tenant timeout,
    x_read x = Some body /\ body_accepted parser (script_data body) r /\
    authenticate sha256 (vh_credentials config) (hr_Authorization request) = (tenant, true) /\
    queueTimeout (vh_defaultQueueTimeout config) (hr_QueueTimeout request) = (timeout, true) /\
    x_admission x = Some (MkAdmission tenant (req_bodyBytes r) (req_reservationUnits r) timeout,
                          true, DecisionDispatched).

(** What holds whenever control returns to the net/http server. *)
Record good x : Prop := {
  gd_view : client x;
  gd_completed : x_permit x = PermitFinished ServingCompleted -> completed x;
  gd_admitted : admitted x;
  gd_permit : permit_held x = false;
  gd_upstream : upstream_open x = false;
}.

(** The states before the upstream is asked. *)
Definition before_call x : Prop := silent x /\ x_upstream x = None.

Lemma good_same x x' :
  good x -> same_view x x' -> x_read x' = x_read x -> x_admission x' = x_admission x -> x_permit x' = x_permit x -> good x'.
Proof.
  intros [Hv Hc Ha Hp Hu] Hs Hread Hadm Hperm. pose proof Hs as (Eu & _ & _ & Ecl). split.
  - by eapply client_view_same.
  - rewrite Hperm. intros H. eapply completed_view_same; eauto.
  - unfold admitted in *. by rewrite Eu, Hread, Hadm.
  - unfold permit_held in *. by rewrite Hperm.
  - unfold upstream_open in *. rewrite Eu. destruct (x_upstream x) as [[[? ?] ?]|]; [|done].
    destruct (hasBody _); [|done]. cbn in *. by rewrite Ecl by (by apply negb_false_iff).
Qed.

Lemma good_refusal x x' : good x -> refusal x x' -> good x'.
Proof.
  intros Hg Hr. pose proof (refusal_frame _ _ Hr) as [_ _ Hread Hadm Hperm Eu _].
  destruct Hg as [Hv Hc Ha Hp Hu]. split.
  - by eapply refusal_client.
  - rewrite Hperm. intros H. eapply refusal_completed; eauto.
  - unfold admitted in *. by rewrite Eu, Hread, Hadm.
  - unfold permit_held in *. by rewrite Hperm.
  - destruct Hr as [->|(_ & f & n & _ & ->)]; done.
Qed.

Lemma before_good x : before_call x -> permit_held x = false -> x_permit x <> PermitFinished ServingCompleted -> good x.
Proof.
  intros [Hs Hu] Hp Hne. split; [by left|done| |done|].
  - unfold admitted. by rewrite Hu.
  - unfold upstream_open. by rewrite Hu.
Qed.

Lemma before_refusal x x' : before_call x -> permit_held x = false ->
  x_permit x <> PermitFinished ServingCompleted -> refusal x x' -> good x'.
Proof. intros. eapply good_refusal; [by apply before_good|done]. Qed.

(** ** Under a permit *)

(** Nothing of the exchange moved but the upstream call and the answer. *)
Definition under_permit parsed x r x' o' : Prop :=
  r <> HFuel (A := unit) /\ x_bodyClosed x' = x_bodyClosed x /\ x_lease x' = x_lease x /\
  x_read x' = x_read x /\
  x_admission x' = x_admission x /\ x_permit x' = x_permit x /\ upstream_open x' = false /\
  client x' /\ (o' = ServingCompleted -> completed x') /\
  (forall c, x_upstream x' = Some c -> fst (fst c) = parsed).

Lemma does_servePermit parsed x o (Q : hres unit -> exchange -> ServingOutcome -> Prop) :
  permit_held x = true -> x_lease x = LeaseReturned -> before_call x -> x_upstreamClosed x = false ->
  o <> ServingCompleted -> (forall r x' o', under_permit parsed x r x' o' -> Q r x' o') ->
  does (servePermit env parseMediaType room config parsed) x o Q.
Proof.
  intros Hp Hl [Hs Hu] Hcl Ho HQ. assert (client x) as Hc by (by left).
  assert (upstream_open x = false) as Hopen by (unfold upstream_open; by rewrite Hu).
  assert (forall r x' o', r <> HFuel -> refusal x x' -> o' <> ServingCompleted -> Q r x' o') as Hearly.
  { intros r x' o' Hn Hr Ho'. pose proof (refusal_frame _ _ Hr) as []. apply HQ. split_and!; try done.
    - destruct Hr as [->|(_ & f & n & _ & ->)]; done.
    - by eapply refusal_client.
    - intros c Hc1. congruence. }
  unfold servePermit. does_step.
  does_step; [does_step; apply Hearly; eauto with does; done|]. does_step.
  does_step; [apply does_writeError_; [public|]; eauto|]. does_step.
  apply does_handleUpstreamContext.
  2: { intros [[v|]| |] x' Hn Hr Hne Hnc; try done; [does_step|]; apply Hearly; congruence. }
  does_step. destruct (e_complete env l1) as [[response err]|] eqn:Hcall.
  2: { does_step. apply Hearly; eauto with does; done. }
  set (x1 := with_call (parsed, response, err) x).
  does_step. eapply (does_event _ _ _ x1); try done.
  { cbn. rewrite Hp, bool_decide_eq_true_2, silent_uncommitted, Hu by done. done. }
  { by left. }
  assert (forall body, ur_Body response = Some body -> script_plain body) as Hpl
    by (intros; by eapply Hplain).
  does_step.
  - apply does_deferred. eapply does_relayResponse; try done. intros r x' o' (Hn & Hf & Hc' & Hcomp).
    pose proof Hf as [Hb1 Hl1' Hr1 Ha1 Hp1 Hu1 _]. cbn in Hb1, Hl1', Hr1, Ha1, Hp1, Hu1.
    does_step. eapply does_closeUpstream; [exact Hu1|done|].
    assert (forall r', r' <> HFuel -> Q r' (with_upstreamClosed x') o') as Hend.
    { intros r' Hn'. apply HQ. split; [done|]. split_and!; try done.
      - unfold upstream_open. cbn. rewrite Hu1. by rewrite andb_false_r.
      - by eapply client_view_same; [apply same_view_closed|].
      - intros Hoc. by eapply completed_view_same; [apply same_view_closed|auto].
      - cbn. rewrite Hu1. by intros c [= <-]. }
    intros [v| |] Hn'; [|by apply Hend|done]. does_step. by apply Hend.
  - eapply does_relayResponse; try done. intros r x' o' (Hn & Hf & Hc' & Hcomp).
    pose proof Hf as [Hb1 Hl1' Hr1 Ha1 Hp1 Hu1 _]. cbn in Hb1, Hl1', Hr1, Ha1, Hp1, Hu1.
    apply HQ. split_and!; try done.
    + unfold upstream_open. rewrite Hu1. by replace (hasBody response) with false.
    + rewrite Hu1. by intros c [= <-].
Qed.

(** The deferred [Finish] of the permit. *)
Lemma does_finishPermit p x o (Q : hres unit -> exchange -> ServingOutcome -> Prop) :
  permit_held x = true -> upstream_open x = false ->
  Q (HReturn tt) (with_permit (PermitFinished p) x) o -> does (finishPermit p) x o Q.
Proof.
  intros Hp Hu HQ. eapply does_event; [cbn; by rewrite Hp, Hu|by left|done|done|done|exact HQ].
Qed.

Lemma does_finishOutcome x o (Q : hres unit -> exchange -> ServingOutcome -> Prop) :
  permit_held x = true -> upstream_open x = false ->
  Q (HReturn tt) (with_permit (PermitFinished o) x) o -> does finishOutcome x o Q.
Proof.
  intros Hp Hu HQ w Hw Ho. unfold finishOutcome. rewrite Ho. by apply (does_finishPermit o x o Q).
Qed.

(** ** With the slots taken *)

Lemma does_parseRequest x o (Q : hres (result parseFailure Request) -> exchange -> ServingOutcome -> Prop) :
  x_lease x = LeaseHeld -> x_bodyClosed x = false -> x_read x = None ->
  (forall e, Q (HReturn (Err e)) x o) ->
  (forall body r, (forall parsed, r = HReturn (Ok parsed) -> body_accepted parser (script_data body) parsed) ->
     r <> HFuel -> Q r (with_bodyClosed (with_read body x)) o) ->
  does (parseRequest env parser room request) x o Q.
Proof.
  intros Hl Hb Hrd Herr Hend. unfold parseRequest.
  does_step; [does_step; by apply Herr|]. apply does_deferred. does_step.
  destruct (e_body env l) as [c rd]. cbn [snd]. does_step.
  eapply (does_event _ _ _ (with_read rd x)); [cbn; by rewrite Hl, Hb, Hrd|by left|done|done|done|].
  destruct (parse_runs parser room Hparser Hroom c rd) as (r & s' & Hrun). rewrite Hrun.
  does_step. apply does_closeRequest. intros [v| |] Hn; [|by apply Hend|done].
  apply Hend; [|done]. intros parsed [= ->].
  destruct (parse_ctx_cases parser room Hparser Hroom _ _ _ _ Hrun) as [[? [=]]|[s'' Hbg]].
  by apply (parse_read_ok parser room Hparser Hroom rd parsed s'').
Qed.

Lemma does_writeAdmissionDecision kind x o (Q : hres unit -> exchange -> ServingOutcome -> Prop) :
  (forall r x', r <> HFuel -> refusal x x' -> Q r x' o) ->
  does (writeAdmissionDecision env kind) x o Q.
Proof.
  intros HQ. unfold writeAdmissionDecision. does_step.
  does_step; [does_step; apply HQ; eauto with does; done|].
  destruct kind; try (apply does_writeError_; [public|exact HQ]); does_step; apply HQ; eauto with does; done.
Qed.

(** The start of the work under the slots. *)
Record leased x : Prop := {
  ls_lease : x_lease x = LeaseHeld;
  ls_admission : x_admission x = None;
  ls_permit : x_permit x = PermitNone;
  ls_before : before_call x;
  ls_closed : x_upstreamClosed x = false;
}.

Definition slots_done (r : hres unit) x' : Prop := r <> HFuel /\ good x' /\ x_lease x' <> LeaseNone.

Lemma leased_refusal x x' (r : hres unit) : leased x -> refusal x x' -> r <> HFuel -> slots_done r x'.
Proof.
  intros [Hl Ha Hp Hb Hc] Hr Hn. split; [done|]. split.
  - eapply before_refusal; [exact Hb| | |exact Hr]; [unfold permit_held|]; by rewrite Hp.
  - destruct (refusal_frame _ _ Hr) as [_ -> _ _ _ _ _]. by rewrite Hl.
Qed.

Lemma leased_read body x : leased x -> leased (with_bodyClosed (with_read body x)).
Proof. by intros [? ? ? [? ?] ?]. Qed.

(** The scheduler's answer, from the call of [Acquire] on. *)
Lemma does_decided body tenant timeout parsed permit kind x o (Q : hres unit -> exchange -> ServingOutcome -> Prop) :
  let admission := MkAdmission tenant (req_bodyBytes parsed) (req_reservationUnits parsed) timeout in
  body_accepted parser (script_data body) parsed -> x_read x = Some body ->
  authenticate sha256 (vh_credentials config) (hr_Authorization request) = (tenant, true) ->
  queueTimeout (vh_defaultQueueTimeout config) (hr_QueueTimeout request) = (timeout, true) ->
  leased x -> x_bodyClosed x = true ->
  (forall r x' o', slots_done r x' -> Q r x' o') ->
  does (_ ← logEvent (EvAcquire admission permit kind);
        _ ← releaseSlots;
        if negb (bool_decide (kind = DecisionDispatched)) then
          if (permit : bool)
          then _ ← finishPermit ServingInternalFailure; writeAdmissionDecision env DecisionInvalid
          else writeAdmissionDecision env kind
        else if negb permit then writeAdmissionDecision env DecisionInvalid
        else
          _ ← setOutcome ServingInternalFailure;
          deferred (servePermit env parseMediaType room config parsed) finishOutcome) x o Q.
Proof.
  intros admission Hacc Hread Hauth Htime [Hl Ha Hp [Hs Hu] Hc] Hbody HQ. does_step.
  set (x1 := with_admission admission permit kind x).
  eapply (does_event _ _ _ x1); try done.
  { cbn. by rewrite Hl, Hbody, Hread, silent_uncommitted, Ha by done. }
  { by left. }
  does_step. apply does_releaseSlots; [cbn; by rewrite Hl|]. set (x2 := with_lease LeaseReturned x1).
  assert (before_call x2) as Hb2 by done.
  assert (forall x3, refusal x2 x3 -> permit = false -> good x3 /\ x_lease x3 <> LeaseNone) as Hno.
  { intros x3 Hr ->. split; [by eapply before_refusal; [exact Hb2| | |exact Hr]|].
    by destruct (refusal_frame _ _ Hr) as [_ -> _ _ _ _ _]. }
  does_step; [does_step|does_step].
  - subst permit. does_step. apply does_finishPermit; [done|unfold upstream_open; cbn; by rewrite Hu|].
    apply does_writeAdmissionDecision. intros r x3 Hn Hr. apply HQ. split; [done|].
    split; [by eapply before_refusal; [|..|exact Hr]|]. by destruct (refusal_frame _ _ Hr) as [_ -> _ _ _ _ _].
  - apply does_writeAdmissionDecision. intros r x3 Hn Hr. apply HQ. split; [done|]. by apply Hno.
  - apply does_writeAdmissionDecision. intros r x3 Hn Hr. apply HQ. split; [done|]. by apply Hno.
  - subst permit kind. does_step. does_step. apply does_deferred.
    apply (does_servePermit parsed); try done.
    intros r x3 o3 (Hn & Hb3 & Hl3 & Hr3 & Ha3 & Hp3 & Hu3 & Hc3 & Hcomp & Hcall).
    assert (permit_held x3 = true) as Hheld by (unfold permit_held; by rewrite Hp3).
    apply does_finishOutcome; [done|done|]. apply HQ. split; [done|]. split; [|cbn; by rewrite Hl3].
    split; try done.
    + cbn. intros [= ->]. by eapply completed_view_same; [|by apply Hcomp].
    + intros r0 response err Hc0. exists body, tenant, timeout. cbn in Hc0 |- *.
      specialize (Hcall _ Hc0). cbn in Hcall. subst r0. by rewrite Hr3, Ha3.
Qed.

Lemma does_serveSlots tenant timeout x o (Q : hres unit -> exchange -> ServingOutcome -> Prop) :
  authenticate sha256 (vh_credentials config) (hr_Authorization request) = (tenant, true) ->
  queueTimeout (vh_defaultQueueTimeout config) (hr_QueueTimeout request) = (timeout, true) ->
  leased x -> x_bodyClosed x = false -> x_read x = None ->
  (forall r x' o', slots_done r x' -> Q r x' o') ->
  does (serveSlots env parseMediaType parser room config request tenant timeout) x o Q.
Proof.
  intros Hauth Htime Hx Hb Hrd HQ.
  assert (forall x' r o', leased x' -> r <> HFuel -> Q r x' o') as Hstop
    by (intros; apply HQ; by eapply leased_refusal; [|apply refusal_refl|]).
  assert (forall x' f, leased x' -> f ∈ publicErrors -> does (writeError_ env f) x' o Q) as Herr.
  { intros x' f Hx' Hf. apply does_writeError_; [done|]. intros r x2 Hn Hr. apply HQ. by apply (leased_refusal x'). }
  assert (forall e x', leased x' -> does (
    gone ← requestErr env; if (gone : bool) then mret tt else
    match e with
    | ParseError ErrorClassRequestTooLarge _ => writeError_ env errRequestTooLarge
    | _ => writeError_ env errInvalidRequest
    end) x' o Q) as Hrefuse.
  { intros e x' Hx'. does_step. does_step; [does_step; by apply Hstop|].
    destruct e as [[]|]; apply Herr; try done; public. }
  unfold serveSlots. does_step. apply does_parseRequest; [by destruct Hx|done|done| |].
  - intros e. by apply Hrefuse.
  - intros body r Hacc Hn. apply (leased_read body) in Hx.
    destruct r as [[parsed|e]| |]; [|by apply Hrefuse|by apply Hstop|done].
    specialize (Hacc parsed eq_refl). does_step; [apply Herr; [done|public]|].
    does_step. destruct (e_acquire env l) as [[permit kind]|].
    + by eapply does_decided.
    + does_step. by apply Hstop.
Qed.

(** ** The whole request *)

(** Nothing has happened but what the client sees nothing of. *)
Record fresh x : Prop := {
  fs_lease : x_lease x = LeaseNone;
  fs_open : x_bodyClosed x = false;
  fs_read : x_read x = None;
  fs_admission : x_admission x = None;
  fs_permit : x_permit x = PermitNone;
  fs_before : before_call x;
  fs_closed : x_upstreamClosed x = false;
}.

Definition ended (r : hres unit) x' : Prop := r <> HFuel /\ good x' /\ x_lease x' <> LeaseHeld.

Lemma fresh_refusal x x' (r : hres unit) : fresh x -> refusal x x' -> r <> HFuel -> ended r x'.
Proof.
  intros [Hl _ _ Ha Hp Hb Hc] Hr Hn. split; [done|]. split.
  - eapply before_refusal; [exact Hb| | |exact Hr]; [unfold permit_held|]; by rewrite Hp.
  - destruct (refusal_frame _ _ Hr) as [_ -> _ _ _ _ _]. by rewrite Hl.
Qed.

Lemma does_serve x o (Q : hres unit -> exchange -> ServingOutcome -> Prop) :
  fresh x -> (forall r x' o', ended r x' -> Q r x' o') ->
  does (serve env sha256 parseMediaType parser room config request) x o Q.
Proof.
  intros Hx HQ.
  assert (forall f, f ∈ publicErrors -> does (writeError_ env f) x o Q) as Herr.
  { intros f Hf. apply does_writeError_; [done|]. intros r x2 Hn Hr. apply HQ. by apply (fresh_refusal x). }
  unfold serve. does_step.
  does_step; [does_step; apply HQ; by apply (fresh_refusal x); [|apply refusal_refl|]|]. does_step.
  do 3 (does_step; [apply Herr; public|]).
  destruct (authenticate _ _ _) as [tenant authenticated] eqn:Hauth.
  do 2 (does_step; [apply Herr; public|]).
  destruct (queueTimeout _ _) as [timeout valid] eqn:Htime.
  do 3 (does_step; [apply Herr; public|]).
  does_step. destruct (acquirePreDispatch config tenant _) as [[[lease [|]] s']| |] eqn:Hacq.
  - does_step. set (x1 := with_lease LeaseHeld x). pose proof Hx as [Hlz Hopen Hread Ha Hp [Hs Hu] Hc].
    eapply (does_event _ _ _ x1); try done.
    { cbn. by rewrite Hlz, silent_uncommitted by done. }
    { by left. }
    { cbn. by rewrite Hlz. }
    apply does_deferred. eapply does_serveSlots; [by subst authenticated|by subst valid|by split|done|done|].
    intros r x2 o2 (Hn & Hg & Hl2). apply does_releaseSlots; [done|]. apply HQ. split; [done|].
    split; [by eapply good_same|done].
  - destruct (le_tenantFull lease); apply Herr; public.
  - does_step. apply HQ. by apply (fresh_refusal x); [|apply refusal_refl|].
  - exfalso. revert Hacq. unfold acquirePreDispatch. repeat case_match; done.
Qed.

(** The recovery from a panic answers at most one public error more. *)
Lemma does_recovered (m : H unit) x o (Q : hres unit -> exchange -> ServingOutcome -> Prop) :
  does m x o (fun r x' o' =>
    match r with
    | HReturn _ => Q (HReturn tt) x' o'
    | HPanic => forall r' x2, r' <> HFuel -> refusal x' x2 -> Q r' x2 o'
    | HFuel => False
    end) ->
  does (recovered env m) x o Q.
Proof.
  intros Hm w Hw Ho. destruct (Hm w Hw Ho) as (x' & Hx & HP). unfold recovered.
  destruct (m w) as [[a| |] w1]; cbn [fst snd] in *; [by exists x'| |done].
  assert (does (if w_committed w1 then mret tt
    else gone ← requestErr env; if (gone : bool) then mret tt else writeError_ env errInternal)
    x' (w_outcome w1) Q) as Hrec; [|by apply Hrec].
  does_step; [does_step; apply HP; eauto with does; done|]. does_step.
  does_step; [does_step; apply HP; eauto with does; done|].
  apply does_writeError_; [public|exact HP].
Qed.

Definition answered_request (r : hres unit) x : Prop :=
  ended r x /\ (hr_hasBody request = true -> x_bodyClosed x = true).

Lemma answered_refusal x x' (r r' : hres unit) :
  answered_request r x -> refusal x x' -> r' <> HFuel -> answered_request r' x'.
Proof.
  intros [(_ & Hg & Hl) Hb] Hr Hn. pose proof (refusal_frame _ _ Hr) as [Eb El _ _ _ _ _].
  split; [|by rewrite Eb]. split; [done|]. split; [by eapply good_refusal|congruence].
Qed.

Lemma does_ServeHTTP :
  does (ServeHTTP env sha256 parseMediaType parser room config request) exchange0 ServingInternalFailure
    (fun r x _ => answered_request r x).
Proof.
  assert (fresh exchange0) as Hfresh by done. unfold ServeHTTP. apply does_recovered.
  apply does_mono with (P := fun r x _ => answered_request r x).
  2: { intros [[]| |] x o Ha; [done|intros; by eapply answered_refusal|by destruct Ha as [[? _] _]]. }
  destruct (hr_hasBody request) eqn:Hbody.
  - apply does_deferred. apply does_serve; [done|]. intros r x o (Hn & Hg & Hl).
    apply does_closeRequest. intros c Hc. split; [|done].
    split; [by destruct c|]. split; [by eapply good_same|done].
  - apply does_serve; [done|]. intros r x o He. split; [exact He|]. congruence.
Qed.
End Serve.

(** ** A configuration the handler can hold *)

Record http_config_u64 (c : HttpConfig) : Prop := {
  hu_response : is_u64 (hc_MaxResponseBodyBytes c);
  hu_event : is_u64 (hc_MaxStreamEventBytes c);
  hu_events : is_u64 (hc_MaxStreamEvents c);
}.

Definition made_by_validate (sha256 : list Z -> list Z) (p : Parser) (v : validatedHandlerConfig) : Prop :=
  exists c policy, http_config_u64 c /\ validateHandlerConfig sha256 c p policy = Ok v.

Lemma wrapErr_Ok {E F A} (f : E -> F) (r : result E A) a : wrapErr f r = Ok a -> r = Ok a.
Proof. by destruct r; [intros [= ->]|]. Qed.

(** What the upstream's answers are checked with was checked itself. *)
Lemma validated_limits sha256 p v :
  made_by_validate sha256 p v ->
  sse_limits_u64 (vh_sseLimits v) /\ ValidateSSELimits (vh_sseLimits v) = Ok tt /\
  made_by_NewResponseValidator (vh_responseValidator v).
Proof.
  intros (c & policy & [Hu1 Hu2 Hu3] & H). unfold validateHandlerConfig in H.
  do 9 (apply result_bind_Ok in H as ([] & _ & H)).
  apply result_bind_Ok in H as (rv & Hrv & H). apply wrapErr_Ok in Hrv.
  apply result_bind_Ok in H as ([] & Hsse & H). apply wrapErr_Ok in Hsse.
  do 4 (apply result_bind_Ok in H as ([] & _ & H)).
  apply result_bind_Ok in H as (slots & _ & H). apply result_bind_Ok in H as (acc & _ & H).
  apply result_bind_Ok in H as ([] & _ & H). injection H as <-. cbn.
  split; [done|]. split; [done|].
  assert (rv_maxBodyBytes rv = hc_MaxResponseBodyBytes c) as Hmax.
  { unfold NewResponseValidator in Hrv. do 2 apply guard_err_Ok in Hrv as [_ Hrv]. by injection Hrv as <-. }
  split; by rewrite Hmax.
Qed.

Lemma tracks_new : tracks newWorld exchange0.
Proof. by split. Qed.

(** Every request of a handler that [NewHandler] could have built. *)
Lemma exchange_ends env sha256 parseMediaType parser room config request :
  made_by_NewParser parser -> (forall n, (0 < room n)%nat) -> made_by_validate sha256 parser config ->
  upstream_plain env ->
  let '(r, w) := ServeHTTP env sha256 parseMediaType parser room config request newWorld in
  exists x, replay (w_log w) = Some x /\
    answered_request sha256 parseMediaType parser config request r x.
Proof.
  intros Hp Hroom Hv Hplain. destruct (validated_limits _ _ _ Hv) as (Hu & Hok & Hval).
  destruct (does_ServeHTTP env sha256 parseMediaType parser room config request Hp Hroom Hu Hok Hval Hplain
    newWorld tracks_new eq_refl) as (x & Hx & HQ).
  destruct (ServeHTTP _ _ _ _ _ _ _ _) as [r w]. exists x. split; [by destruct Hx|exact HQ].
Qed.
