(* ===== verification/HttpTheorems.v ===== *)
(** * The HTTP handler: its properties

    Authentication, the gates before the scheduler, and the life of a request
    ([config.go], [handler.go], [relay.go], [errors.go]); each property with a
    witness at a concrete input. *)

From S2P Require Import Prelude.
From S2P Require Import Interleave.
From S2P Require Import GoJson.
From S2P Require Import JsonGrammar.
From S2P Require Import GoIO.
From S2P Require Import AdmissionConfig.
From S2P Require Import AdmissionOwner.
From S2P Require Import AdmissionInv.
From S2P Require Import AdmissionArrive.
From S2P Require Import AdmissionHandle.
From S2P Require Import AdmissionRun.
From S2P Require Import AdmissionScheduler.
From S2P Require Import AdmissionTheorems.
From S2P Require Import ContractScan.
From S2P Require Import ContractRequest.
From S2P Require Import ContractParse.
From S2P Require Import ContractResponse.
From S2P Require Import GoBufio.
From S2P Require Import ContractSSE.
From S2P Require Import ContractStream.
From S2P Require Import ContractTheorems.
From S2P Require Import HttpConfig.
From S2P Require Import HttpGate.
From S2P Require Import HttpHandler.
From S2P Require Import HttpProtocol.
From S2P Require Import HttpExchange.
From S2P Require Import HttpServe.

(** ** A concrete handler *)

Definition demo_sha256 (token : list Z) : list Z := rev token.
Definition demo_policy : schedulerPolicy :=
  mkSchedulerPolicy 1024 4096 (MkQueueLimits 8 8192 32768)
    (fun t => if t =? 7 then (MkQueueLimits 4 4096 16384, true) else (MkQueueLimits 0 0 0, false)).
Definition demo_http : HttpConfig :=
  mkHttpConfig time_Second time_Second time_Second time_Second time_Second 4096 256 8 4
    [mkTenantLimit 7 2] [mkCredential 7 (bs "secret-token=")].

(** The validated configuration, or a default that is not used. *)
Definition validated_or (r : result handlerConfigError validatedHandlerConfig) : validatedHandlerConfig :=
  match r with
  | Ok v => v
  | Err _ => mkValidatedHandler 0 0 0 0 0 (mkResponseValidator 0) (mkSSELimits 0 0 0) 0 ∅ []
  end.
Definition demo_handler : validatedHandlerConfig :=
  validated_or (validateHandlerConfig demo_sha256 demo_http demo_parser demo_policy).

Lemma demo_handler_valid :
  validateHandlerConfig demo_sha256 demo_http demo_parser demo_policy = Ok demo_handler.
Proof. vm_compute. reflexivity. Qed.

Lemma demo_handler_made : made_by_validate demo_sha256 demo_parser demo_handler.
Proof.
  exists demo_http, demo_policy. split; [|exact demo_handler_valid].
  split; unfold is_u64; vm_compute; split; congruence || reflexivity.
Qed.

(** ** Credentials *)

(** The values carry a credential of [t]: one value, the scheme [Bearer] in any
    case, one space, and a valid token with the digest of the credential's. *)
Definition authorised (sha256 : list Z -> list Z) (credentials : list Credential)
    (values : list (list Z)) (t : TenantID) : Prop :=
  exists scheme token cr, values = [scheme ++ c_space :: token] /\ length scheme = 6%nat /\
    equalFold scheme (bs "Bearer") = true /\ validBearerToken token = true /\
    (cr ∈ credentials) /\ sha256 (cr_Token cr) = sha256 token /\ cr_Tenant cr = t.

(** The header's text is split where the code splits it. *)
Lemma authenticate_split sha256 creds values :
  (exists scheme token, values = [scheme ++ c_space :: token] /\ length scheme = 6%nat /\
     equalFold scheme (bs "Bearer") = true /\ validBearerToken token = true /\
     authenticate sha256 creds values =
       (let '(tenant, matched) := foldl (matchCredential (sha256 token)) (0, 0) creds in (tenant, matched =? 1))) \/
  authenticate sha256 creds values = (0, false) /\ forall c t, ~ authorised sha256 c values t.
Proof.
  destruct values as [|value [|]];
    [right; split; [done|by intros ? ? (? & ? & ? & ? & _)]| |right; split; [done|by intros ? ? (? & ? & ? & ? & _)]].
  assert (forall scheme token, length scheme = 6%nat -> value = scheme ++ c_space :: token ->
    take 6 value = scheme /\ drop 7 value = token /\ value !! 6%nat = Some c_space) as Hparts.
  { intros scheme token Hl ->. rewrite take_app_length' by done. rewrite drop_app_ge, lookup_app_r by lia.
    by rewrite Hl. }
  cbn [authenticate]. destruct (_ || _) eqn:Hform.
  - right. split; [done|]. intros c t (scheme & token & cr & [= Hv] & Hl & Hf & Htok & _).
    destruct (Hparts _ _ Hl Hv) as (Ht & Hd & Hs). rewrite Ht, Hf, bool_decide_eq_true_2 in Hform by done.
    subst value. rewrite length_app, Hl in Hform. cbn [length] in Hform. destruct token; [done|].
    cbn [length] in Hform. cbn [negb] in Hform. rewrite !orb_false_r in Hform. breflect. lia.
  - apply orb_false_iff in Hform as [[Hlen Hfold]%orb_false_iff Hsp]. breflect.
    assert (value = take 6 value ++ c_space :: drop 7 value) as Hv
      by (by rewrite <- (drop_S value c_space 6), take_drop by done).
    destruct (validBearerToken (drop 7 value)) eqn:Htok; cbn [negb].
    + left. exists (take 6 value), (drop 7 value). split; [by rewrite <- Hv|].
      split; [rewrite length_take; lia|]. done.
    + right. split; [done|]. intros c t (scheme & token & cr & [= Hv'] & Hl & _ & Htok' & _).
      destruct (Hparts _ _ Hl Hv') as (_ & Hd & _). congruence.
Qed.

(** [authenticate] answers a tenant exactly when the request carries one of
    its credentials, and then the tenant is not zero and has slots; otherwise it
    answers zero and false.  The constant-time loop is a search. *)
Theorem authenticate_exact sha256 c p policy v values :
  validateHandlerConfig sha256 c p policy = Ok v ->
  Forall (fun cr => is_u32 (cr_Tenant cr)) (hc_Credentials c) ->
  match authenticate sha256 (vh_credentials v) values with
  | (t, true) => authorised sha256 (hc_Credentials c) values t /\ t <> 0 /\ is_Some (vh_tenantSlots v !! t)
  | (t, false) => t = 0 /\ forall t', ~ authorised sha256 (hc_Credentials c) values t'
  end.
Proof.
  intros Hv Hu. apply validateHandlerConfig_Ok in Hv as []. rewrite ho_credentials.
  destruct (authenticate_split sha256 (map (stored sha256) (hc_Credentials c)) values)
    as [(scheme & token & -> & Hl & Hf & Htok & ->)|[-> Hno]]; [|by split].
  assert (Forall (fun s => is_u32 (sc_tenant s)) (map (stored sha256) (hc_Credentials c))) as Hu'
    by (by apply Forall_fmap).
  destruct (matchCredential_search (sha256 token) _ Hu' ho_nodup 0 ltac:(by vm_compute))
    as [(s & Hin & Hd & ->)|[Hnin ->]]; cbn.
  - apply list_elem_of_fmap in Hin as (cr & -> & Hin).
    rewrite Forall_forall in ho_each. destruct (ho_each _ Hin) as [Hs _].
    split; [by exists scheme, token, cr|]. split; [|done].
    destruct Hs as [n Hn]. by destruct (ho_slots _ _ Hn).
  - split; [done|]. intros t (scheme' & token' & cr & [= Heq] & Hl' & _ & _ & Hin & Hd & _).
    apply app_inj_1 in Heq as [_ [= ->]]; [|congruence]. apply Hnin.
    apply list_elem_of_fmap. exists (stored sha256 cr). split; [done|]. by apply list_elem_of_fmap; exists cr.
Qed.

Lemma authenticate_exact_witness :
  authorised demo_sha256 (hc_Credentials demo_http) [bs "bEaReR secret-token="] 7.
Proof.
  assert (Forall (fun cr => is_u32 (cr_Tenant cr)) (hc_Credentials demo_http)) as Hu
    by (repeat constructor; vm_compute; congruence).
  exact (proj1 (authenticate_exact demo_sha256 demo_http demo_parser demo_policy demo_handler
    [bs "bEaReR secret-token="] demo_handler_valid Hu)).
Defined.

(** ** The queue timeout *)

(** [queueTimeout] answers the default when the header is absent, and
    otherwise the milliseconds that at most ten decimal digits write, exactly,
    when they are positive and not above the default; nothing else is accepted
    and nothing overflows. *)
Theorem queueTimeout_exact d values t :
  0 < d <= MaximumQueueTimeout ->
  queueTimeout d values = (t, true) <->
  values = [] /\ t = d \/
  exists text, values = [text] /\ text <> [] /\ Z.of_nat (length text) <= 10 /\
    forallb is_digit text = true /\ 0 < decimal text /\ t = decimal text * time_Millisecond /\ t <= d.
Proof.
  intros Hd. unfold queueTimeout. destruct values as [|text [|]].
  - split; [intros [= ->]; by left|]. by intros [[_ ->]|(? & ? & _)].
  - destruct (bool_decide (text = []) || (10 <? Z.of_nat (length text))) eqn:Hform.
    { split; [done|]. intros [[? _]|(text' & [= <-] & Hne & Hlen & _)]; [done|].
      apply orb_true_iff in Hform as [?%bool_decide_eq_true|?]; [done|lia]. }
    breflect. destruct (forallb is_digit text) eqn:Hdig; cbn [negb].
    2: { split; [done|]. intros [[? _]|(text' & [= <-] & _ & _ & Hdig' & _)]; [done|congruence]. }
    destruct (parseInt_decimal text) as [-> Hbound]; [done|lia|done|].
    assert (Z.quot d time_Millisecond = d / time_Millisecond) as -> by (apply Z.quot_div_nonneg; [lia|done]).
    assert (int64 (decimal text * time_Millisecond) = decimal text * time_Millisecond) as Hint.
    { unfold int64, time_Millisecond. rewrite u64_small by (unfold is_u64, two64; lia).
      unfold two63. case_match; breflect; lia. }
    unfold MaximumQueueTimeout, time_Hour in Hd.
    destruct (decimal text <=? 0) eqn:Hpos; [|destruct (_ <? decimal text) eqn:Hmax]; breflect.
    + split; [done|]. intros [[? _]|(text' & [= <-] & _ & _ & _ & ? & _)]; [done|lia].
    + split; [done|]. intros [[? _]|(text' & [= <-] & _ & _ & _ & _ & -> & Hle)]; [done|].
      assert (decimal text <= d / time_Millisecond) by (apply Z.div_le_lower_bound; [done|lia]). lia.
    + rewrite Hint. split.
      * intros [= <-]. right. exists text. split_and!; try done; try lia.
        apply Z.le_trans with (time_Millisecond * (d / time_Millisecond)); [|by apply Z.mul_div_le].
        rewrite Z.mul_comm. apply Z.mul_le_mono_nonneg_l; [done|lia].
      * intros [[? _]|(text' & [= <-] & _ & _ & _ & _ & -> & _)]; done.
  - split; [done|]. intros [[? _]|(? & ? & _)]; done.
Qed.

Lemma queueTimeout_exact_witness : queueTimeout time_Second [bs "0250"] = (250 * time_Millisecond, true).
Proof.
  apply (queueTimeout_exact time_Second); [vm_compute; split; congruence|]. right. exists (bs "0250").
  split; [reflexivity|]. split; [discriminate|]. vm_compute. repeat split; congruence.
Defined.

(** ** Slots *)

(** C31: under every interleaving of any number of requests the slot channels hold
    exactly the slots that the requests hold, never more than their capacity;
    no request ever blocks, its next operation can always run; and when every
    request is finished all the slots are free again. *)
Theorem slots_accounting v s l :
  slots_reachable v s l ->
  slots_fine v s l /\
  (forall l1 ph l2, l = l1 ++ ph :: l2 -> is_Some (slot_next v ph s)) /\
  (forallb finished l = true -> ss_global s = 0 /\ forall t, taken s t = 0).
Proof.
  intros Hr. pose proof (slots_reachable_fine v s l Hr) as Hf. split; [done|]. split.
  - intros l1 ph l2 ->. by eapply slots_fine_runs.
  - intros Hfin. destruct Hf as [Hg Ht _ _]. rewrite Hg. split; [by apply total_finished|].
    intros t. rewrite Ht. by apply total_finished.
Qed.

(** Two requests of the tenant at once, and a third that is turned away. *)
Lemma slots_accounting_witness :
  exists s, slots_reachable demo_handler s [SpHeld 7; SpHeld 7; SpDone 7 false] /\
    ss_global s = 2 /\ taken s 7 = 2.
Proof.
  assert (slots_reachable demo_handler (mkSlotState 2 {[7 := 2]}) [SpHeld 7; SpHeld 7; SpDone 7 false]) as Hr.
  { apply (run_schedule_interleaved (slot_turn demo_handler) slot_request
      [Arrive (SpStart 7); Arrive (SpStart 7); Arrive (SpStart 7); Turn 0 (); Turn 1 (); Turn 2 ();
       Turn 0 (); Turn 1 ()]). vm_compute. reflexivity. }
  eexists. split; [exact Hr|].
  destruct (proj1 (slots_accounting _ _ _ Hr)) as [Hg Ht _ _]. split; [exact Hg|exact (Ht 7)].
Defined.

(** A request that holds a slot is never refused for want of queue capacity.
    In every reachable state of the scheduler the handler was validated against,
    while fewer requests are queued than there are slots, globally and for the
    tenant, no verdict on an admissible request of that tenant is a rejection. *)
Theorem slot_holder_not_rejected `{World} sha256 config sy c p v item now i t n d :
  typed_config config -> reachable config sy ->
  validateHandlerConfig sha256 c p (schedulerPolicyOf (os_config (sy_owner sy))) = Ok v ->
  admissible (os_config (sy_owner sy)) (e_admission item) ->
  vc_tenantByID (os_config (sy_owner sy)) !! a_Tenant (e_admission item) = Some i ->
  os_tenants (sy_owner sy) !! i = Some t ->
  vh_tenantSlots v !! a_Tenant (e_admission item) = Some n ->
  QueuedCount (ts_counters t) < n -> QueuedCount (os_global (sy_owner sy)) < vh_globalSlots v ->
  verdict (sy_owner sy) item now = Some d ->
  d_Kind d <> DecisionTenantRejected /\ d_Kind d <> DecisionGlobalRejected.
Proof.
  intros Hty Hr Hv [Hb Hw] Hby Ht Hn Hcount Hglobal Hd.
  set (o := sy_owner sy) in *. destruct (si_inv _ (reachable_inv _ _ Hty Hr)) as [Hcore _]. fold o in Hcore.
  apply validateHandlerConfig_Ok in Hv as []. cbn in ho_bodies, ho_units, ho_envelope.
  rewrite ho_bodies, ho_units in ho_envelope.
  pose proof (wf_body _ (co_wf _ Hcore)) as Hmb. pose proof (wf_units _ (co_wf _ Hcore)) as Hmu.
  assert (map_Forall (fun _ e => admissible (os_config o) (e_admission e)) (os_entries o)) as Hadm
    by (intros id e He; by destruct (co_entry _ Hcore id e He) as (_ & ? & _)).
  destruct (co_tenant _ Hcore i t Ht) as (Hvt & _ & _ & Htally & _).
  destruct (tally_bounded _ of_any _ Hadm) as (G0 & G1 & G2). rewrite <- (co_global _ Hcore) in G0, G1, G2.
  destruct (tally_bounded _ (of_tenant i) _ Hadm) as (T0 & T1 & T2). rewrite <- Htally in T0, T1, T2.
  destruct (ho_slots _ _ Hn) as (_ & _ & _ & queue & index & Hq & Henv). rewrite ho_bodies, ho_units in Henv.
  cbn in Hq. unfold TenantQueueLimits in Hq. rewrite Hby, Hvt in Hq. injection Hq as <-.
  apply validatePreDispatchEnvelope_Ok in Henv; [|lia..].
  apply validatePreDispatchEnvelope_Ok in ho_envelope; [|lia..]. rewrite ho_global in Hglobal.
  pose proof (envelope_room _ (e_admission item) _ _ _ _ Henv (conj T0 Hcount) T1 T2 Hb Hw) as Rt.
  pose proof (envelope_room _ (e_admission item) _ _ _ _ ho_envelope (conj G0 Hglobal) G1 G2 Hb Hw) as Rg.
  change (GlobalQueueLimits (os_config o)) with (vc_globalQueue (os_config o)) in Rg.
  unfold verdict in Hd. rewrite Hby, Ht, Rt, Rg in Hd.
  destruct (os_accepting o); [|by injection Hd as <-]. cbn [negb] in Hd.
  destruct (w_err _ _); [by injection Hd as <-|]. destruct (negb _); [|done].
  injection Hd as <-. unfold expired_decision. by destruct (w_err _ _), (e_deadlineSource item).
Qed.

(** The scheduler of the admission examples, where one request of tenant 1 is in
    flight and one waits, under a handler that gives the tenant two slots. *)
Definition demo_small_http : HttpConfig :=
  mkHttpConfig time_Second time_Second time_Second time_Second time_Second 4096 256 8 4
    [mkTenantLimit 1 2] [mkCredential 1 (bs "small")].
Definition demo_small_parser : Parser := mkParser (bs "m") (mkLimits 100 4 64 8 2 10).
Definition demo_small_handler : validatedHandlerConfig :=
  validated_or (validateHandlerConfig demo_sha256 demo_small_http demo_small_parser
    (schedulerPolicyOf (os_config (sy_owner demo_system)))).

#[local] Existing Instance demo_world.

Lemma slot_holder_not_rejected_witness :
  exists d, verdict (sy_owner demo_system) (demo_item 3 1 8) (5 + time_Second) = Some d /\
    d_Kind d <> DecisionTenantRejected.
Proof.
  eexists. split; [vm_compute; reflexivity|].
  refine (proj1 (slot_holder_not_rejected demo_sha256 demo_config demo_system demo_small_http demo_small_parser
    demo_small_handler (demo_item 3 1 8) (5 + time_Second) 0%nat _ 2 _ demo_typed demo_reachable _ _ _ _ _ _ _ _));
    vm_compute; try reflexivity; repeat split; congruence.
Defined.

(** ** The life of a request *)

Section Lives.
Context (sha256 : list Z -> list Z).
Context (parseMediaType : list Z -> option (list Z * list (list Z * list Z))).
Context (parser : Parser) (room : nat -> nat) (config : validatedHandlerConfig).

(** What the code is run with: a parser and a handler that were validated, a
    buffer that grows, and readers. *)
Record handler_setting (env : Env) : Prop := {
  hs_parser : made_by_NewParser parser;
  hs_room : forall n, (0 < room n)%nat;
  hs_config : made_by_validate sha256 parser config;
  hs_plain : upstream_plain env;
}.

(** C3: whatever the clients, the contexts, the scheduler, the upstream and the
    response writer do, and wherever they panic, [ServeHTTP] returns or panics
    within the relay's bound of turns, its events follow the protocol
    [exchange_step], and at the end it owes nothing: slots and permit given
    back, the upstream's body and the request's body closed. *)
Theorem request_follows_protocol env request :
  handler_setting env ->
  let '(r, w) := ServeHTTP env sha256 parseMediaType parser room config request newWorld in
  r <> HFuel /\
  exists x, replay (w_log w) = Some x /\ settled x = true /\
    (hr_hasBody request = true -> x_bodyClosed x = true).
Proof.
  intros [Hp Hroom Hc Hplain].
  pose proof (exchange_ends env sha256 parseMediaType parser room config request Hp Hroom Hc Hplain) as H.
  destruct (ServeHTTP _ _ _ _ _ _ _ _) as [r w].
  destruct H as (x & Hx & (Hn & [] & Hl) & Hb). split; [done|]. exists x. split; [done|]. split; [|done].
  unfold settled. by rewrite gd_permit, gd_upstream, bool_decide_eq_false_2.
Qed.

(** C5: at every moment at which the handler has returned, the client has seen
    nothing, or one of the fixed public errors, or an upstream body that was
    read to its end, is a chat completion and was closed, or a prefix of
    validated events as the upstream sent them; a write that failed may have cut
    any of these short, and nothing else of an upstream answer is ever shown. *)
Theorem client_sees_validated env request x :
  handler_setting env ->
  let '(r, w) := ServeHTTP env sha256 parseMediaType parser room config request newWorld in
  replay (w_log w) = Some x -> client_view parseMediaType config x.
Proof.
  intros [Hp Hroom Hc Hplain].
  pose proof (exchange_ends env sha256 parseMediaType parser room config request Hp Hroom Hc Hplain) as H.
  destruct (ServeHTTP _ _ _ _ _ _ _ _) as [r w].
  destruct H as (x' & Hx & (_ & [] & _) & _). intros Hx'. congruence.
Qed.

(** C15: a request that is reported to the scheduler as completed was answered in
    full: the client got the whole validated body, or every event of a complete
    stream whose end was verified and whose body was closed without an error. *)
Theorem completed_was_delivered env request x :
  handler_setting env ->
  let '(r, w) := ServeHTTP env sha256 parseMediaType parser room config request newWorld in
  replay (w_log w) = Some x -> EvFinish ServingCompleted ∈ w_log w ->
  completed_view parseMediaType config x.
Proof.
  intros [Hp Hroom Hc Hplain].
  pose proof (exchange_ends env sha256 parseMediaType parser room config request Hp Hroom Hc Hplain) as H.
  destruct (ServeHTTP _ _ _ _ _ _ _ _) as [r w].
  destruct H as (x' & Hx & (_ & [] & _) & _). intros Hx' Hin. replace x with x' by congruence.
  apply gd_completed. by eapply replay_finish.
Qed.

(** C21: the upstream is only asked what was admitted: the request it gets is the
    one the parser made of the client's body, the client presented a credential
    of the tenant, and the scheduler granted a permit for exactly that tenant,
    body size, reservation and queue timeout. *)
Theorem upstream_gets_admitted env request parsed response err :
  handler_setting env ->
  let '(r, w) := ServeHTTP env sha256 parseMediaType parser room config request newWorld in
  EvComplete parsed response err ∈ w_log w ->
  exists body tenant timeout,
    (EvRead body ∈ w_log w) /\ body_accepted parser (script_data body) parsed /\
    authenticate sha256 (vh_credentials config) (hr_Authorization request) = (tenant, true) /\
    queueTimeout (vh_defaultQueueTimeout config) (hr_QueueTimeout request) = (timeout, true) /\
    EvAcquire (MkAdmission tenant (req_bodyBytes parsed) (req_reservationUnits parsed) timeout)
      true DecisionDispatched ∈ w_log w.
Proof.
  intros [Hp Hroom Hc Hplain].
  pose proof (exchange_ends env sha256 parseMediaType parser room config request Hp Hroom Hc Hplain) as H.
  destruct (ServeHTTP _ _ _ _ _ _ _ _) as [r w].
  destruct H as (x & Hx & (_ & [] & _) & _). intros Hin. eapply replay_complete in Hin; [|exact Hx].
  destruct (gd_admitted _ _ _ Hin) as (body & tenant & timeout & Hread & Hacc & Hauth & Htime & Hadm).
  exists body, tenant, timeout. split; [by eapply replay_read|]. split; [done|]. split; [done|].
  split; [done|]. by eapply replay_admission.
Qed.
End Lives.

(** ** A request that completes *)

Definition demo_upstream : UpstreamResponse :=
  mkUpstreamResponse 200 [] [bs "application/json"] (Some demo_response).
Definition demo_env : Env :=
  mkEnv (fun _ => false) (fun _ => Some (bs "0123456789abcdef0123456789abcdef")) (fun _ => noSlots)
    (fun _ => (background, demo_script)) true (fun _ => Some (true, DecisionDispatched))
    (fun _ => false) (fun _ => false) (fun _ => false) (fun _ => Some (demo_upstream, None))
    (fun _ => background) (fun _ => background) (fun _ => true) (fun _ => false) (fun _ => false)
    (fun _ => CloseOk) (fun _ => CloseOk) (fun _ => WriteOk).
Definition demo_parseMediaType (value : list Z) : option (list Z * list (list Z * list Z)) := Some (value, []).
Definition demo_request : httpRequest :=
  mkHttpRequest (Some (mkURL false [] [] [] false (bs "/v1/chat/completions"))) (bs "POST")
    [bs "Bearer secret-token="] [] [bs "application/json"] [] (-1) true.

Definition demo_served : hres unit * world :=
  ServeHTTP demo_env demo_sha256 demo_parseMediaType demo_parser demo_room demo_handler demo_request newWorld.
Definition demo_log : list event := w_log (snd demo_served).
Definition demo_exchange : exchange := default exchange0 (replay demo_log).

Lemma demo_replay : replay demo_log = Some demo_exchange.
Proof. vm_compute. reflexivity. Qed.

Lemma demo_setting : handler_setting demo_sha256 demo_parser demo_room demo_handler demo_env.
Proof.
  split; [exact demo_parser_made|exact demo_room_pos|exact demo_handler_made|].
  intros l response err body [= <- <-] [= <-]. repeat split; discriminate.
Qed.

Lemma demo_settled :
  demo_served = (HReturn tt, snd demo_served) /\ settled demo_exchange = true.
Proof. vm_compute. split; reflexivity. Qed.

Lemma request_follows_protocol_witness : exists x, replay demo_log = Some x /\ settled x = true.
Proof.
  pose proof (request_follows_protocol demo_sha256 demo_parseMediaType demo_parser demo_room demo_handler
    demo_env demo_request demo_setting) as H.
  fold demo_served in H. change (w_log (snd demo_served)) with demo_log in H. unfold demo_log.
  destruct demo_served as [r w]. destruct H as (_ & x & Hx & Hs & _). exists x. split; [exact Hx|exact Hs].
Defined.

Lemma client_sees_validated_witness : client_view demo_parseMediaType demo_handler demo_exchange.
Proof.
  pose proof (client_sees_validated demo_sha256 demo_parseMediaType demo_parser demo_room demo_handler
    demo_env demo_request demo_exchange demo_setting) as H.
  fold demo_served in H. pose proof demo_replay as Hr. unfold demo_log in Hr.
  destruct demo_served as [r w]. exact (H Hr).
Defined.

Lemma completed_was_delivered_witness : completed_view demo_parseMediaType demo_handler demo_exchange.
Proof.
  assert (EvFinish ServingCompleted ∈ demo_log) as Hin
    by (apply (list_elem_of_lookup_2 _ 28); vm_compute; reflexivity).
  pose proof (completed_was_delivered demo_sha256 demo_parseMediaType demo_parser demo_room demo_handler
    demo_env demo_request demo_exchange demo_setting) as H.
  fold demo_served in H. pose proof demo_replay as Hr. unfold demo_log in Hr, Hin.
  destruct demo_served as [r w]. exact (H Hr Hin).
Defined.

Lemma demo_called : exists parsed, EvComplete parsed demo_upstream None ∈ demo_log.
Proof. eexists. apply (list_elem_of_lookup_2 _ 16). vm_compute. reflexivity. Qed.

Lemma upstream_gets_admitted_witness :
  exists parsed body, (EvRead body ∈ demo_log) /\ body_accepted demo_parser (script_data body) parsed.
Proof.
  destruct demo_called as [parsed Hin]. exists parsed.
  pose proof (upstream_gets_admitted demo_sha256 demo_parseMediaType demo_parser demo_room demo_handler
    demo_env demo_request parsed demo_upstream None demo_setting) as H.
  fold demo_served in H. unfold demo_log in *. destruct demo_served as [r w].
  destruct (H Hin) as (body & tenant & timeout & Hread & Hacc & _). exists body. split; [exact Hread|exact Hacc].
Defined.
