(* ===== verification/ServerConfig.v ===== *)
(** * The server's configuration

    Package [server], [config.go]: the bounds on the inbound server, and the
    deadlines derived from them and from the handler's timeout policy. *)

From S2P Require Import Prelude.
From S2P Require Import HttpConfig.

Definition netHTTPHeaderReadSlopBytes : Z := 4096.
Definition absoluteMinHeaderReadEnvelopeBytes : Z := 8192.
Definition absoluteMaxHeaderReadEnvelopeBytes : Z := 65536.
Definition absoluteMaxConnections : Z := 1024.
Definition absoluteMaxHeaderReadReservation : Z := 67108864.
Definition absoluteMaxServerTimeout : Z := time_Hour.
Definition absoluteMaxForceTimeout : Z := time_Minute.

(** [httpapi.TimeoutPolicy] and [Handler.TimeoutPolicy]. *)
Record TimeoutPolicy := mkTimeoutPolicy {
  tp_DefaultQueueTimeout : Z;
  tp_BodyReadTimeout : Z;
  tp_UpstreamTimeout : Z;
}.

Definition Handler_TimeoutPolicy (h : validatedHandlerConfig) : TimeoutPolicy :=
  mkTimeoutPolicy (vh_defaultQueueTimeout h) (vh_bodyReadTimeout h) (vh_upstreamTimeout h).

(** [server.Config]; durations are nanoseconds. *)
Record ServerConfig := mkServerConfig {
  sc_HeaderReadTimeout : Z;
  sc_ResponseWriteTimeout : Z;
  sc_IdleTimeout : Z;
  sc_GraceTimeout : Z;
  sc_ForceTimeout : Z;
  sc_HeaderReadEnvelopeBytes : Z;
  sc_MaxConnections : Z;
}.

Record validatedServerConfig := mkValidatedServer {
  vs_headerReadTimeout : Z;
  vs_readTimeout : Z;
  vs_writeTimeout : Z;
  vs_idleTimeout : Z;
  vs_graceTimeout : Z;
  vs_forceTimeout : Z;
  vs_headerReadEnvelope : Z;
  vs_netHTTPMaxHeaderBytes : Z;
  vs_maxConnections : Z;
}.

Inductive serverConfigError :=
| SETimeout (name : string)
| SEHeaderEnvelope | SEConnectionCount | SECombinedBound
| SEReadOverflow | SEWriteOverflow | SEAdjustedHeader.

(** ** Operations *)

Definition validateTimeout (name : string) (value maximum : Z) : result serverConfigError unit :=
  guard_err ((value <=? 0) || (maximum <? value)) (SETimeout name).

(** The loop of [addDurations], on [int64] values. *)
Fixpoint addDurationsFrom (total : Z) (values : list Z) : Z * bool :=
  match values with
  | [] => (total, true)
  | value :: rest =>
      if (value <=? 0) || (int64 (max_int64 - total) <? value) then (0, false)
      else addDurationsFrom (int64 (total + value)) rest
  end.

Definition addDurations (values : list Z) : Z * bool := addDurationsFrom 0 values.

Definition server_validateConfig (config : ServerConfig) (policy : TimeoutPolicy)
  : result serverConfigError validatedServerConfig :=
  _ ← validateTimeout "header read" (sc_HeaderReadTimeout config) absoluteMaxServerTimeout;
  _ ← validateTimeout "response write" (sc_ResponseWriteTimeout config) absoluteMaxServerTimeout;
  _ ← validateTimeout "idle" (sc_IdleTimeout config) absoluteMaxServerTimeout;
  _ ← validateTimeout "grace" (sc_GraceTimeout config) absoluteMaxServerTimeout;
  _ ← validateTimeout "force" (sc_ForceTimeout config) absoluteMaxForceTimeout;
  _ ← validateTimeout "handler default queue" (tp_DefaultQueueTimeout policy) absoluteMaxServerTimeout;
  _ ← validateTimeout "handler body read" (tp_BodyReadTimeout policy) absoluteMaxServerTimeout;
  _ ← validateTimeout "handler upstream" (tp_UpstreamTimeout policy) absoluteMaxServerTimeout;
  _ ← guard_err ((sc_HeaderReadEnvelopeBytes config <? absoluteMinHeaderReadEnvelopeBytes)
                 || (absoluteMaxHeaderReadEnvelopeBytes <? sc_HeaderReadEnvelopeBytes config))
        SEHeaderEnvelope;
  _ ← guard_err ((sc_MaxConnections config =? 0) || (absoluteMaxConnections <? sc_MaxConnections config))
        SEConnectionCount;
  _ ← guard_err (absoluteMaxHeaderReadReservation / sc_MaxConnections config
                 <? sc_HeaderReadEnvelopeBytes config) SECombinedBound;
  let '(readTimeout, ok) := addDurations [sc_HeaderReadTimeout config; tp_BodyReadTimeout policy] in
  _ ← guard_err (negb ok) SEReadOverflow;
  let '(writeTimeout, ok) :=
    addDurations [tp_BodyReadTimeout policy; tp_DefaultQueueTimeout policy;
                  tp_UpstreamTimeout policy; sc_ResponseWriteTimeout config] in
  _ ← guard_err (negb ok) SEWriteOverflow;
  let adjustedHeaderBytes := sc_HeaderReadEnvelopeBytes config -u netHTTPHeaderReadSlopBytes in
  _ ← guard_err (max_int64 <? adjustedHeaderBytes) SEAdjustedHeader;
  Ok (mkValidatedServer (sc_HeaderReadTimeout config) readTimeout writeTimeout (sc_IdleTimeout config)
        (sc_GraceTimeout config) (sc_ForceTimeout config) (sc_HeaderReadEnvelopeBytes config)
        (int64 adjustedHeaderBytes) (int64 (sc_MaxConnections config))).

(** [server.ValidateConfig] *)
Definition server_ValidateConfig (config : ServerConfig) (policy : TimeoutPolicy)
  : result serverConfigError unit :=
  _ ← server_validateConfig config policy; mret tt.

(** ** Specification *)

(** Field values of the machine types of the source. *)
Definition typed_server (c : ServerConfig) : Prop :=
  is_int64 (sc_HeaderReadTimeout c) /\ is_int64 (sc_ResponseWriteTimeout c) /\ is_int64 (sc_IdleTimeout c)
  /\ is_int64 (sc_GraceTimeout c) /\ is_int64 (sc_ForceTimeout c)
  /\ is_u64 (sc_HeaderReadEnvelopeBytes c) /\ is_u64 (sc_MaxConnections c).

Definition timely (maximum value : Z) : Prop := 0 < value <= maximum.

Record server_bounds (c : ServerConfig) (p : TimeoutPolicy) : Prop := {
  sb_timeouts : Forall (timely time_Hour)
    [sc_HeaderReadTimeout c; sc_ResponseWriteTimeout c; sc_IdleTimeout c; sc_GraceTimeout c;
     tp_DefaultQueueTimeout p; tp_BodyReadTimeout p; tp_UpstreamTimeout p];
  sb_force : timely time_Minute (sc_ForceTimeout c);
  sb_envelope : 8192 <= sc_HeaderReadEnvelopeBytes c <= 65536;
  sb_connections : 1 <= sc_MaxConnections c <= 1024;
  sb_reservation : sc_HeaderReadEnvelopeBytes c * sc_MaxConnections c <= 67108864;
}.

(** The derived deadlines as unbounded sums. *)
Definition server_of (c : ServerConfig) (p : TimeoutPolicy) : validatedServerConfig :=
  mkValidatedServer (sc_HeaderReadTimeout c) (sc_HeaderReadTimeout c + tp_BodyReadTimeout p)
    (tp_BodyReadTimeout p + tp_DefaultQueueTimeout p + tp_UpstreamTimeout p + sc_ResponseWriteTimeout c)
    (sc_IdleTimeout c) (sc_GraceTimeout c) (sc_ForceTimeout c) (sc_HeaderReadEnvelopeBytes c)
    (sc_HeaderReadEnvelopeBytes c - 4096) (sc_MaxConnections c).

(** ** Lemmas *)

Lemma validateTimeout_Ok {A} name value maximum (k : result serverConfigError A) v :
  (_ ← validateTimeout name value maximum; k) = Ok v <-> timely maximum value /\ k = Ok v.
Proof.
  unfold validateTimeout, timely. rewrite guard_err_Ok, orb_false_iff, Z.leb_gt, Z.ltb_ge. done.
Qed.

(** Sums of positive durations that fit are exact. *)
Lemma addDurationsFrom_exact values : forall total,
  0 <= total -> Forall (fun v => 0 < v) values -> foldl Z.add total values <= max_int64 ->
  addDurationsFrom total values = (foldl Z.add total values, true).
Proof.
  induction values as [|v values IH]; intros total Ht Hpos Hsum; [done|]. cbn [addDurationsFrom foldl] in *.
  apply Forall_cons in Hpos as [Hv Hpos].
  assert (forall l a, Forall (fun v => 0 < v) l -> a <= foldl Z.add a l) as Hmono.
  { clear. induction l as [|x l IH]; intros a Hl; [done|]. apply Forall_cons in Hl as [Hx Hl].
    cbn. specialize (IH (a + x) Hl). lia. }
  specialize (Hmono values (total + v) Hpos). unfold max_int64 in *.
  rewrite !int64_small by (unfold is_int64, two63; lia).
  replace (v <=? 0) with false by lia. replace (_ <? v) with false by lia. apply IH; [lia|done|done].
Qed.

Lemma reservation_fits envelope connections :
  0 < connections -> 0 <= envelope ->
  envelope <= absoluteMaxHeaderReadReservation / connections <->
  envelope * connections <= 67108864.
Proof.
  intros Hc He. unfold absoluteMaxHeaderReadReservation. split; intros H.
  - pose proof (Z.mul_div_le 67108864 connections Hc). nia.
  - apply Z.div_le_lower_bound; lia.
Qed.

(** Within the bounds the derived values are those of [server_of]. *)
Lemma server_sums c p :
  server_bounds c p ->
  addDurations [sc_HeaderReadTimeout c; tp_BodyReadTimeout p] =
    (sc_HeaderReadTimeout c + tp_BodyReadTimeout p, true) /\
  addDurations [tp_BodyReadTimeout p; tp_DefaultQueueTimeout p; tp_UpstreamTimeout p;
                sc_ResponseWriteTimeout c] =
    (tp_BodyReadTimeout p + tp_DefaultQueueTimeout p + tp_UpstreamTimeout p + sc_ResponseWriteTimeout c, true).
Proof.
  intros [Ht _ _ _ _]. repeat (apply Forall_cons in Ht as [[? ?] Ht]). unfold time_Hour in *.
  unfold addDurations. split; rewrite addDurationsFrom_exact; repeat constructor; cbn;
    unfold max_int64; try done; lia.
Qed.

Lemma server_slop c p :
  server_bounds c p ->
  sc_HeaderReadEnvelopeBytes c -u netHTTPHeaderReadSlopBytes = sc_HeaderReadEnvelopeBytes c - 4096.
Proof.
  intros [_ _ Hb _ _]. unfold netHTTPHeaderReadSlopBytes. rewrite u64_small; [done|].
  unfold is_u64, two64. lia.
Qed.

(** Every test of the validation up to the sums passes exactly within the bounds. *)
Definition server_tests (c : ServerConfig) (p : TimeoutPolicy) {A} (k : result serverConfigError A)
  : result serverConfigError A :=
  _ ← validateTimeout "header read" (sc_HeaderReadTimeout c) time_Hour;
  _ ← validateTimeout "response write" (sc_ResponseWriteTimeout c) time_Hour;
  _ ← validateTimeout "idle" (sc_IdleTimeout c) time_Hour;
  _ ← validateTimeout "grace" (sc_GraceTimeout c) time_Hour;
  _ ← validateTimeout "force" (sc_ForceTimeout c) time_Minute;
  _ ← validateTimeout "handler default queue" (tp_DefaultQueueTimeout p) time_Hour;
  _ ← validateTimeout "handler body read" (tp_BodyReadTimeout p) time_Hour;
  _ ← validateTimeout "handler upstream" (tp_UpstreamTimeout p) time_Hour;
  _ ← guard_err ((sc_HeaderReadEnvelopeBytes c <? 8192) || (65536 <? sc_HeaderReadEnvelopeBytes c)) SEHeaderEnvelope;
  _ ← guard_err ((sc_MaxConnections c =? 0) || (1024 <? sc_MaxConnections c)) SEConnectionCount;
  _ ← guard_err (67108864 / sc_MaxConnections c <? sc_HeaderReadEnvelopeBytes c) SECombinedBound;
  k.

Lemma server_tests_Ok {A} c p (k : result serverConfigError A) v :
  typed_server c -> server_tests c p k = Ok v <-> server_bounds c p /\ k = Ok v.
Proof.
  intros (_ & _ & _ & _ & _ & [He _] & [Hn _]). unfold server_tests.
  rewrite !validateTimeout_Ok, !guard_err_Ok, !orb_false_iff, !Z.ltb_ge, Z.eqb_neq. split.
  - intros (Ht1 & Ht2 & Ht3 & Ht4 & Hf & Ht5 & Ht6 & Ht7 & Hb & Hc & Hr & H). split; [|exact H].
    split; [|exact Hf|lia|lia|].
    + repeat (apply Forall_cons_2; [assumption|]). apply Forall_nil_2.
    + apply reservation_fits; [lia|lia|exact Hr].
  - intros [[Ht Hf Hb Hc Hr] H]. repeat (apply Forall_cons in Ht as [? Ht]).
    split_and!; try done; try lia. apply reservation_fits; lia.
Qed.

Lemma server_tests_Err {A} c p (k : result serverConfigError A) e :
  server_tests c p k = Err e ->
  (server_tests c p (Ok tt) = Ok tt /\ k = Err e) \/
  (e <> SEReadOverflow /\ e <> SEWriteOverflow /\ e <> SEAdjustedHeader).
Proof.
  unfold server_tests, validateTimeout. intros H.
  repeat (apply guard_err_Err in H as [[_ <-]|[Hb H]];
    [right; split_and!; discriminate|rewrite Hb; clear Hb]). by left.
Qed.

(** What follows the tests. *)
Lemma server_validateConfig_tests c p :
  exists k, server_validateConfig c p = server_tests c p k /\
    (server_bounds c p -> k = Ok (server_of c p)).
Proof.
  eexists. split; [reflexivity|]. intros Hok.
  destruct (server_sums c p Hok) as [-> ->]. rewrite (server_slop c p Hok).
  destruct Hok as [_ _ Hb Hc _]. cbn [negb guard_err mbind result_bind].
  unfold max_int64. replace (_ <? _) with false by lia. cbn [guard_err mbind result_bind].
  unfold server_of. by rewrite !int64_small by (unfold is_int64, two63; lia).
Qed.

Lemma server_validateConfig_Ok c p v :
  typed_server c -> server_validateConfig c p = Ok v <-> server_bounds c p /\ v = server_of c p.
Proof.
  intros Ht. destruct (server_validateConfig_tests c p) as (k & -> & Hk).
  rewrite (server_tests_Ok c p k v Ht). split.
  - intros [Hb Hv]. split; [exact Hb|]. rewrite (Hk Hb) in Hv. by injection Hv as <-.
  - intros [Hb ->]. split; [exact Hb|]. exact (Hk Hb).
Qed.

(** Within the bounds nothing overflows: the errors that say so are never returned. *)
Lemma server_validateConfig_Err c p e :
  typed_server c -> server_validateConfig c p = Err e ->
  ~ server_bounds c p /\ e <> SEReadOverflow /\ e <> SEWriteOverflow /\ e <> SEAdjustedHeader.
Proof.
  intros Ht He.
  assert (~ server_bounds c p) as Hb.
  { intros Hb. assert (server_validateConfig c p = Ok (server_of c p)) as Hv
      by (by apply server_validateConfig_Ok). congruence. }
  split; [exact Hb|]. destruct (server_validateConfig_tests c p) as (k & Hk & _). rewrite Hk in He.
  apply server_tests_Err in He as [[He _]|He]; [|exact He].
  destruct Hb. by apply (server_tests_Ok c p (Ok tt) tt Ht) in He as [Hb _].
Qed.
