(* ===== verification/ServerHandler.v ===== *)
(** * The tracked handler under interleaving

    Package [server], [handler.go]: the wrapper that counts the requests being
    served, refuses new ones once sealed, and tells waiters when the last one
    has returned. Its operations hold the mutex, so each is one turn. *)

From S2P Require Import Prelude.
From S2P Require Import Interleave.

(** [accepting], [active] and whether the channel [drained] is closed. *)
Record trackedHandler := mkTracked {
  th_accepting : bool;
  th_active : Z;
  th_drained : bool;
}.

Definition newTrackedHandler : trackedHandler := mkTracked true 0 false.

(** ** Operations *)

Definition closeDrained : M trackedHandler unit := fun h =>
  if th_drained h then Panicked "close of closed channel"
  else Done (tt, mkTracked (th_accepting h) (th_active h) true).

Definition tracked_begin : M trackedHandler bool := fun h =>
  if negb (th_accepting h) then Done (false, h)
  else Done (true, mkTracked (th_accepting h) (th_active h +u 1) (th_drained h)).

Definition tracked_finish : M trackedHandler unit := fun h =>
  if th_active h =? 0 then Panicked "server: active handler count underflow" else
  let h' := mkTracked (th_accepting h) (th_active h -u 1) (th_drained h) in
  if negb (th_accepting h') && (th_active h' =? 0) then closeDrained h' else Done (tt, h').

Definition tracked_seal : M trackedHandler unit := fun h =>
  if negb (th_accepting h) then Done (tt, h) else
  let h' := mkTracked false (th_active h) (th_drained h) in
  if th_active h' =? 0 then closeDrained h' else Done (tt, h').

(** ** Threads *)

(** How [ServeHTTP] ends: 505 for another protocol, 503 once sealed, or the inner
    handler's answer, [finish] being deferred also when that one panics. *)
Inductive servedAnswer := AnswerVersion | AnswerUnavailable | AnswerInner (panicked : bool).

Inductive waitErr := errHandlerWaitContextNil | WaitContext.

(** Calls of [ServeHTTP], [seal] and [wait], by what they do next. *)
Inductive handlerThread :=
| HtRequest (protoMajor : Z)
| HtInner
| HtServed (answer : servedAnswer)
| HtSeal
| HtSealed
| HtWait (ctxNil : bool)
| HtSelect
| HtExpired
| HtWaited (err : option waitErr).

#[export] Instance waitErr_eq_dec : EqDecision waitErr.
Proof. solve_decision. Defined.
#[export] Instance servedAnswer_eq_dec : EqDecision servedAnswer.
Proof. solve_decision. Defined.
#[export] Instance handlerThread_eq_dec : EqDecision handlerThread.
Proof. solve_decision. Defined.

(** The rest of a call after an operation under the lock. *)
Definition moves {A} (m : M trackedHandler A) (h : trackedHandler) (k : A -> handlerThread)
  : comp (turned trackedHandler handlerThread) :=
  match m h with
  | Done (a, h') => Done (Moved (k a) h' [])
  | Panicked e => Panicked e
  | OutOfFuel => OutOfFuel
  end.

(** [c] says whether the inner handler panics, and which arm of [wait]'s second
    [select] is taken: the context's ([true]) or that of [drained]. *)
Definition handler_turn (c : bool) (t : handlerThread) (h : trackedHandler)
  : comp (turned trackedHandler handlerThread) :=
  match t with
  | HtRequest protoMajor =>
      if negb (protoMajor =? 1) then Done (Moved (HtServed AnswerVersion) h [])
      else moves tracked_begin h (fun ok => if ok then HtInner else HtServed AnswerUnavailable)
  | HtInner => moves tracked_finish h (fun _ => HtServed (AnswerInner c))
  | HtSeal => moves tracked_seal h (fun _ => HtSealed)
  | HtWait true => Done (Moved (HtWaited (Some errHandlerWaitContextNil)) h [])
  | HtWait false => Done (Moved (if th_drained h then HtWaited None else HtSelect) h [])
  | HtSelect =>
      if c then Done (Moved HtExpired h [])
      else if th_drained h then Done (Moved (HtWaited None) h []) else Done Blocked
  | HtExpired =>
      Done (Moved (if th_drained h then HtWaited None else HtWaited (Some WaitContext)) h [])
  | HtServed _ | HtSealed | HtWaited _ => Done Blocked
  end.

(** The calls that may be made. *)
Definition handler_call (t : handlerThread) : bool :=
  match t with HtRequest _ | HtSeal | HtWait _ => true | _ => false end.

Definition handlers_reachable (h : trackedHandler) (l : list handlerThread) : Prop :=
  interleaved handler_turn handler_call newTrackedHandler h l.

(** ** The operations, with [n] requests running *)

Definition counts (n : Z) (h : trackedHandler) : Prop :=
  th_active h = n /\ th_drained h = negb (th_accepting h) && (n =? 0).

(** Sealing and draining are for good. *)
Definition later (h h' : trackedHandler) : Prop :=
  (th_accepting h = false -> th_accepting h' = false) /\ (th_drained h = true -> th_drained h' = true).

Lemma later_refl h : later h h.
Proof. done. Qed.

Lemma tracked_begin_spec n h :
  counts n h -> 0 <= n -> n + 1 < two64 ->
  wp tracked_begin (fun ok h' => ok = th_accepting h /\ later h h' /\ counts (n + if ok then 1 else 0) h') h.
Proof.
  destruct h as [accepting active drained]. intros [Hn Hd] H0 Hn1. cbn in *. subst active drained.
  unfold tracked_begin, wp. cbn. destruct accepting; cbn; eexists _, _; (split; [reflexivity|]); split_and!; try done.
  - split; cbn; [apply u64_small; unfold is_u64; lia|done].
  - split; cbn; [lia|by replace (n + 0) with n by lia].
Qed.

Lemma tracked_finish_spec n h :
  counts n h -> 0 < n < two64 ->
  wp tracked_finish (fun _ h' => later h h' /\ counts (n - 1) h') h.
Proof.
  destruct h as [accepting active drained]. intros [Hn Hd] H0. cbn in *. subst active drained.
  unfold tracked_finish, closeDrained, wp. cbn. replace (n =? 0) with false by lia.
  rewrite u64_small by (unfold is_u64; lia). destruct accepting; cbn; [by eexists _, _|].
  destruct (n - 1 =? 0) eqn:Hz; eexists _, _; (split; [reflexivity|]); repeat split; cbn; congruence.
Qed.

Lemma tracked_seal_spec n h :
  counts n h -> wp tracked_seal (fun _ h' => later h h' /\ counts n h' /\ th_accepting h' = false) h.
Proof.
  destruct h as [accepting active drained]. intros [Hn Hd]. cbn in *. subst active drained.
  unfold tracked_seal, closeDrained, wp. cbn. destruct accepting; cbn; [|by eexists _, _].
  destruct (n =? 0) eqn:Hz; eexists _, _; (split; [reflexivity|]); repeat split; cbn; congruence.
Qed.

(** ** The invariant *)

Definition running (t : handlerThread) : Z := match t with HtInner => 1 | _ => 0 end.

Lemma running_range t : 0 <= running t <= 1.
Proof. destruct t; cbn; lia. Qed.

Lemma total_running_zero l : total running l = 0 <-> HtInner ∉ l.
Proof.
  split.
  - intros Hz Hin. pose proof (total_zero running l HtInner (fun t => proj1 (running_range t)) Hz Hin). done.
  - induction l as [|t l IH]; [done|]. rewrite not_elem_of_cons, total_cons. intros [Ht Hl].
    rewrite IH by exact Hl. by destruct t.
Qed.

(** What an ended call has witnessed of the state. *)
Definition vouches (h : trackedHandler) (t : handlerThread) : Prop :=
  match t with
  | HtSealed => th_accepting h = false
  | HtWaited None => th_drained h = true
  | _ => True
  end.

Definition handlers_fine (h : trackedHandler) (l : list handlerThread) : Prop :=
  counts (total running l) h /\ Forall (vouches h) l.

Lemma vouches_later h h' t : later h h' -> vouches h t -> vouches h' t.
Proof. intros [Ha Hd]. destruct t as [| | | | | | | |[]]; cbn; auto. Qed.

(** A thread's turn is right when, with [n] others running, it runs, keeps the
    count, and leaves a state that vouches for what the thread says. *)
Definition right_turn (n : Z) (t : handlerThread) (h : trackedHandler)
    (r : comp (turned trackedHandler handlerThread)) : Prop :=
  match r with
  | Done (Moved t' h' sp) => sp = [] /\ later h h' /\ counts (n + running t') h' /\ vouches h' t'
  | Done Blocked => True
  | _ => False
  end.

Lemma moves_right {A} n t (m : M trackedHandler A) h k :
  wp m (fun a h' => later h h' /\ counts (n + running (k a)) h' /\ vouches h' (k a)) h ->
  right_turn n t h (moves m h k).
Proof. intros (a & h' & Hm & H). unfold moves. rewrite Hm. by split. Qed.

Lemma handler_turn_right c n t h :
  counts (n + running t) h -> 0 <= n -> n + 1 < two64 -> right_turn n t h (handler_turn c t h).
Proof.
  intros Hc H0 Hn. unfold handler_turn. destruct t as [major| |answer| | |[]| | |err]; cbn [running] in Hc.
  - destruct (negb (major =? 1)); [done|]. replace (n + 0) with n in Hc by lia. apply moves_right.
    eapply wp_mono; [by apply (tracked_begin_spec n)|].
    intros ok h' (_ & Hl & Hok). destruct ok; done.
  - apply moves_right. eapply wp_mono; [apply (tracked_finish_spec (n + 1)); [exact Hc|lia]|].
    intros _ h' [Hl Hok]. cbn. replace (n + 0) with (n + 1 - 1) by lia. done.
  - done.
  - apply moves_right. eapply wp_mono; [by apply tracked_seal_spec|]. intros _ h' (Hl & Hok & Ha). done.
  - done.
  - done.
  - by destruct (th_drained h) eqn:Hd.
  - destruct c; [done|]. by destruct (th_drained h) eqn:Hd.
  - by destruct (th_drained h) eqn:Hd.
  - done.
Qed.

Lemma handlers_fine_turn c h l1 t l2 :
  handlers_fine h (l1 ++ t :: l2) -> Z.of_nat (length (l1 ++ t :: l2)) < two64 ->
  right_turn (total running l1 + total running l2) t h (handler_turn c t h).
Proof.
  intros [Hc _] Hlen. rewrite length_app in Hlen. cbn [length] in Hlen.
  assert (forall l, 0 <= total running l <= Z.of_nat (length l)) as Hb.
  { intros l. split; [apply total_nonneg|apply total_bound]; intros t'; pose proof (running_range t'); lia. }
  pose proof (Hb l1). pose proof (Hb l2). apply handler_turn_right; [|lia|lia].
  rewrite total_app, total_cons in Hc. by replace (_ + _ + running t)
    with (total running l1 + (running t + total running l2)) by lia.
Qed.

Lemma handlers_reachable_fine h l :
  handlers_reachable h l -> Z.of_nat (length l) < two64 -> handlers_fine h l.
Proof.
  unfold handlers_reachable. apply (interleaved_ind _ _
    (fun h l => Z.of_nat (length l) < two64 -> handlers_fine h l)); clear h l.
  - by repeat constructor.
  - intros c h l1 t l2 t' h' sp IH Hturn Hlen.
    assert (Z.of_nat (length (l1 ++ t :: l2)) < two64) as Hlen'.
    { rewrite !length_app in *. cbn [length] in *. rewrite length_app in Hlen. lia. }
    specialize (IH Hlen'). pose proof (handlers_fine_turn c h l1 t l2 IH Hlen') as H.
    rewrite Hturn in H. destruct H as (-> & Hl & Hc & Hv). destruct IH as [_ Hvs]. split.
    + rewrite (total_exchange running l1 t t'), total_nil, total_app, total_cons.
      by replace (_ + _) with (total running l1 + total running l2 + running t') by lia.
    + rewrite app_nil_r. apply Forall_app in Hvs as [Hv1 Hv2]. apply Forall_cons in Hv2 as [_ Hv2].
      apply Forall_app. split; [|apply Forall_cons; split; [exact Hv|]];
        eapply Forall_impl; eauto using vouches_later.
  - intros h l t IH Ht Hlen. rewrite length_app in Hlen. cbn in Hlen.
    destruct IH as [Hc Hv]; [lia|]. split.
    + rewrite total_app. destruct t; try done; cbn; by rewrite Z.add_0_r.
    + apply Forall_app. split; [exact Hv|]. apply Forall_cons. split; [|by apply Forall_nil_2]. by destruct t.
Qed.
