(* ===== verification/ServerListener.v ===== *)
(** * The bounded listener under interleaving

    Package [server], [listener.go]: the listener that hands out at most so many
    connections at once, the connections that give their slot back when they are
    closed, and the check of the listener a server is given. Every channel
    operation, and every call of the wrapped listener or connection, is a turn. *)

From S2P Require Import Prelude.
From S2P Require Import GoJson.
From S2P Require Import Interleave.

(** [net.ErrClosed], or any other error of the network. *)
Inductive netError := ErrClosed | NetOther (code : nat).

(** The listener: how full [slots] is and its capacity, whether the channel
    [closed] is, and [closeOnce] with [closeErr]. *)
Record boundedListener := mkBounded {
  bl_maximum : Z;
  bl_slots : Z;
  bl_closed : bool;
  bl_closeOnce : onceState;
  bl_closeErr : option netError;
}.

Definition newBoundedListener (maximum : Z) : boundedListener := mkBounded maximum 0 false OnceNew None.

(** ** Operations on the channels *)

(** The two arms of [Accept]'s [select]; [None] when the arm is not ready. *)
Definition sendSlot (l : boundedListener) : option boundedListener :=
  if bl_slots l <? bl_maximum l
  then Some (mkBounded (bl_maximum l) (bl_slots l + 1) (bl_closed l) (bl_closeOnce l) (bl_closeErr l))
  else None.

Definition listener_release : M boundedListener unit := fun l =>
  if 0 <? bl_slots l
  then Done (tt, mkBounded (bl_maximum l) (bl_slots l - 1) (bl_closed l) (bl_closeOnce l) (bl_closeErr l))
  else Panicked "server: connection slot released twice".

Definition closeClosed : M boundedListener unit := fun l =>
  if bl_closed l then Panicked "close of closed channel"
  else Done (tt, mkBounded (bl_maximum l) (bl_slots l) true (bl_closeOnce l) (bl_closeErr l)).

Definition withOnce (o : onceState) (l : boundedListener) : boundedListener :=
  mkBounded (bl_maximum l) (bl_slots l) (bl_closed l) o (bl_closeErr l).
Definition withCloseErr (err : option netError) (l : boundedListener) : boundedListener :=
  mkBounded (bl_maximum l) (bl_slots l) (bl_closed l) (bl_closeOnce l) err.

(** ** Threads

    [Accept]: before its [select]; in the wrapped [Accept]; about to release
    after its error; at the second [select] with the connection; closing a
    connection that came too late; about to release after that; returned.
    A connection that was handed out: open; in the wrapped [Close]; about to
    release; closed, when further calls of [Close] only return [closeErr].
    The listener's [Close]: called; in [closeOnce] before the channel is closed;
    in the wrapped [Close]; returned. *)
Inductive connThread :=
| CtAccept
| CtInner
| CtFailed (err : netError)
| CtCheck
| CtLate
| CtLateRelease
| CtRefused (err : netError)
| CtOpen
| CtConnClose
| CtConnRelease (err : option netError)
| CtConnClosed (err : option netError)
| CtClose
| CtCloseChannel
| CtCloseInner
| CtCloseReturned (err : option netError).

#[export] Instance netError_eq_dec : EqDecision netError.
Proof. solve_decision. Defined.
#[export] Instance connThread_eq_dec : EqDecision connThread.
Proof. solve_decision. Defined.

Definition conn_moves (m : M boundedListener unit) (l : boundedListener) (t : connThread)
  : comp (turned boundedListener connThread) :=
  match m l with
  | Done (_, l') => Done (Moved t l' [])
  | Panicked e => Panicked e
  | OutOfFuel => OutOfFuel
  end.

(** [c] chooses the arm of the first [select] ([true]: the send), and what the
    wrapped listener or connection answers. *)
Definition conn_turn (c : bool * option netError) (t : connThread) (l : boundedListener)
  : comp (turned boundedListener connThread) :=
  let '(arm, answer) := c in
  match t with
  | CtAccept =>
      if arm then
        match sendSlot l with
        | Some l' => Done (Moved CtInner l' [])
        | None => Done Blocked
        end
      else if bl_closed l then Done (Moved (CtRefused ErrClosed) l []) else Done Blocked
  | CtInner =>
      match answer with
      | Some err => Done (Moved (CtFailed err) l [])
      | None => Done (Moved CtCheck l [])
      end
  | CtFailed err => conn_moves listener_release l (CtRefused err)
  | CtCheck => Done (Moved (if bl_closed l then CtLate else CtOpen) l [])
  | CtLate => Done (Moved CtLateRelease l [])
  | CtLateRelease => conn_moves listener_release l (CtRefused ErrClosed)
  | CtOpen => Done (Moved CtConnClose l [])
  | CtConnClose => Done (Moved (CtConnRelease answer) l [])
  | CtConnRelease err => conn_moves listener_release l (CtConnClosed err)
  | CtClose =>
      match bl_closeOnce l with
      | OnceNew => Done (Moved CtCloseChannel (withOnce OnceRunning l) [])
      | OnceRunning => Done Blocked
      | OnceDone => Done (Moved (CtCloseReturned (bl_closeErr l)) l [])
      end
  | CtCloseChannel => conn_moves closeClosed l CtCloseInner
  | CtCloseInner => Done (Moved (CtCloseReturned answer) (withOnce OnceDone (withCloseErr answer l)) [])
  | CtRefused _ | CtConnClosed _ | CtCloseReturned _ => Done Blocked
  end.

Definition conn_call (t : connThread) : bool :=
  match t with CtAccept | CtClose => true | _ => false end.

Definition conns_reachable (maximum : Z) (l : boundedListener) (ts : list connThread) : Prop :=
  interleaved conn_turn conn_call (newBoundedListener maximum) l ts.

(** ** The invariant *)

Definition holds_slot (t : connThread) : Z :=
  match t with
  | CtInner | CtFailed _ | CtCheck | CtLate | CtLateRelease | CtOpen | CtConnClose | CtConnRelease _ => 1
  | _ => 0
  end.

(** Connections the caller has and has not closed. *)
Definition is_open (t : connThread) : Z :=
  match t with CtOpen | CtConnClose => 1 | _ => 0 end.

(** Calls inside [closeOnce], and those before the channel is closed. *)
Definition closing (t : connThread) : Z := match t with CtCloseChannel | CtCloseInner => 1 | _ => 0 end.
Definition unclosed (t : connThread) : Z := match t with CtCloseChannel => 1 | _ => 0 end.

Lemma holds_slot_nonneg t : 0 <= holds_slot t.
Proof. destruct t; cbn; lia. Qed.
Lemma closing_nonneg t : 0 <= closing t.
Proof. destruct t; cbn; lia. Qed.
Lemma unclosed_nonneg t : 0 <= unclosed t.
Proof. destruct t; cbn; lia. Qed.

(** A call of [Close] returned what [closeOnce] keeps. *)
Definition close_agrees (l : boundedListener) (t : connThread) : Prop :=
  match t with
  | CtCloseReturned err => bl_closeOnce l = OnceDone /\ bl_closeErr l = err
  | _ => True
  end.

(** The listener with [holding] slots out, [inside] calls in [closeOnce] and
    [before] of them before the channel is closed. *)
Record counted (maximum : Z) (l : boundedListener) (holding inside before : Z) : Prop := {
  ct_maximum : bl_maximum l = maximum;
  ct_slots : bl_slots l = holding;
  ct_bound : bl_slots l <= Z.max 0 maximum;
  ct_inside : inside = match bl_closeOnce l with OnceRunning => 1 | _ => 0 end;
  ct_closed : bl_closed l = match bl_closeOnce l with
                            | OnceNew => false
                            | OnceRunning => before =? 0
                            | OnceDone => true
                            end;
}.

Lemma counted_eq maximum l h i b h' i' b' :
  counted maximum l h i b -> h = h' -> i = i' -> b = b' -> counted maximum l h' i' b'.
Proof. congruence. Qed.

Definition conns_fine (maximum : Z) (l : boundedListener) (ts : list connThread) : Prop :=
  counted maximum l (total holds_slot ts) (total closing ts) (total unclosed ts) /\
  Forall (close_agrees l) ts.

(** A turn among threads that have [h], [i] and [b] of these between them. *)
Definition right_conn_turn (maximum h i b : Z) (t : connThread) (l : boundedListener)
    (r : comp (turned boundedListener connThread)) : Prop :=
  match r with
  | Done (Moved t' l' sp) =>
      sp = [] /\ counted maximum l' (h + holds_slot t') (i + closing t') (b + unclosed t') /\
      close_agrees l' t' /\ (forall t, close_agrees l t -> close_agrees l' t)
  | Done Blocked => holds_slot t = 0
  | _ => False
  end.

Lemma close_agrees_same l l' :
  bl_closeOnce l' = bl_closeOnce l -> bl_closeErr l' = bl_closeErr l ->
  forall t, close_agrees l t -> close_agrees l' t.
Proof. intros Ho He []; cbn; try done. by rewrite Ho, He. Qed.

Lemma release_right maximum h i b l :
  counted maximum l (h + 1) i b -> 0 <= h ->
  wp listener_release (fun _ l' => counted maximum l' h i b /\
    (forall t, close_agrees l t -> close_agrees l' t)) l.
Proof.
  intros [Hm Hs Hb Hi Hc] Hh. unfold listener_release, wp. replace (0 <? bl_slots l) with true by lia.
  eexists _, _. split; [reflexivity|]. split; [|by apply close_agrees_same].
  split; cbn; try done; lia.
Qed.

Lemma conn_moves_right maximum h i b t (m : M boundedListener unit) l t' :
  wp m (fun _ l' => counted maximum l' (h + holds_slot t') (i + closing t') (b + unclosed t') /\
    close_agrees l' t' /\ (forall t, close_agrees l t -> close_agrees l' t)) l ->
  right_conn_turn maximum h i b t l (conn_moves m l t').
Proof. intros ([] & l' & Hm & H). unfold conn_moves. rewrite Hm. by split. Qed.

(** The turns of the listener's [Close]. *)
Lemma close_turn_right maximum c t l h i b :
  counted maximum l (h + holds_slot t) (i + closing t) (b + unclosed t) ->
  0 <= b <= i -> t = CtClose \/ t = CtCloseChannel \/ t = CtCloseInner ->
  right_conn_turn maximum h i b t l (conn_turn c t l).
Proof.
  intros [Hm Hs Hb Hi Hcl] Hib Ht. destruct c as [arm answer].
  destruct Ht as [-> | [-> | ->]]; cbn [conn_turn holds_slot closing unclosed] in *.
  - destruct (bl_closeOnce l) eqn:Ho; [|done|]; (split; [done|]); split_and!; cbn; try done.
    + split; cbn; try done; try lia. rewrite Hcl. lia.
    + intros []; cbn; try done. rewrite Ho. by intros [].
    + split; cbn; rewrite ?Ho; try done; lia.
  - apply conn_moves_right. destruct (bl_closeOnce l) eqn:Ho; try lia.
    replace (b + 1 =? 0) with false in Hcl by lia. unfold closeClosed, wp. rewrite Hcl.
    eexists _, _. split; [reflexivity|]. split_and!; [|done|by apply close_agrees_same].
    split; cbn; rewrite ?Ho; try done; try lia.
  - destruct (bl_closeOnce l) eqn:Ho; try lia. split; [done|]. split_and!; cbn; try done.
    + split; cbn; try done; try lia. rewrite Hcl. lia.
    + intros []; cbn; try done. rewrite Ho. by intros [].
Qed.

Lemma conn_turn_right maximum c t l h i b :
  counted maximum l (h + holds_slot t) (i + closing t) (b + unclosed t) ->
  0 <= h -> 0 <= b <= i -> close_agrees l t ->
  right_conn_turn maximum h i b t l (conn_turn c t l).
Proof.
  intros Hc Hh Hib Ha. destruct c as [arm answer].
  assert (forall t', holds_slot t' = holds_slot t -> closing t' = closing t -> unclosed t' = unclosed t ->
    close_agrees l t' -> right_conn_turn maximum h i b t l (Done (Moved t' l []))) as Hstay.
  { intros t' H1 H2 H3 Ht'. cbn. rewrite H1, H2, H3. done. }
  assert (forall t', holds_slot t = 1 -> holds_slot t' = 0 -> closing t' = closing t -> unclosed t' = unclosed t ->
    (forall l', close_agrees l' t') ->
    right_conn_turn maximum h i b t l (conn_moves listener_release l t')) as Hrelease.
  { intros t' H1 H2 H3 H4 Ht'. apply conn_moves_right. rewrite H1 in Hc.
    eapply wp_mono; [by apply (release_right maximum h (i + closing t) (b + unclosed t))|].
    intros _ l' [Hl' Hagree]. rewrite H2, H3, H4, Z.add_0_r. split_and!; auto. }
  destruct t; cbn [conn_turn]; try (by apply Hstay); try (by apply Hrelease); try done.
  - destruct arm; [|destruct (bl_closed l); [by apply Hstay|done]]. unfold sendSlot.
    destruct (bl_slots l <? bl_maximum l) eqn:Hlt; [|done]. cbn in Hc. destruct Hc as [Hm Hs Hb Hi Hcl]. breflect.
    cbn. split; [done|]. split; [|split; [done|by apply close_agrees_same]]. split; cbn; try done; lia.
  - destruct answer; by apply Hstay.
  - destruct (bl_closed l); by apply Hstay.
  - exact (close_turn_right maximum (arm, answer) CtClose l h i b Hc Hib ltac:(auto)).
  - exact (close_turn_right maximum (arm, answer) CtCloseChannel l h i b Hc Hib ltac:(auto)).
  - exact (close_turn_right maximum (arm, answer) CtCloseInner l h i b Hc Hib ltac:(auto)).
Qed.

Lemma unclosed_closing ts : 0 <= total unclosed ts <= total closing ts.
Proof. induction ts as [|[] ts IH]; rewrite ?total_cons; cbn [closing unclosed]; try lia. done. Qed.

Lemma conn_turn_fine maximum c l l1 t l2 :
  conns_fine maximum l (l1 ++ t :: l2) ->
  right_conn_turn maximum (total holds_slot l1 + total holds_slot l2) (total closing l1 + total closing l2)
    (total unclosed l1 + total unclosed l2) t l (conn_turn c t l).
Proof.
  intros [Hc Hv]. apply Forall_app in Hv as [_ Hv2]. apply Forall_cons in Hv2 as [Ht _].
  pose proof (unclosed_closing l1). pose proof (unclosed_closing l2).
  pose proof (total_nonneg holds_slot l1 holds_slot_nonneg).
  pose proof (total_nonneg holds_slot l2 holds_slot_nonneg).
  rewrite !total_app, !total_cons in Hc.
  apply conn_turn_right; [|lia|lia|exact Ht]. eapply counted_eq; [exact Hc|lia..].
Qed.

Lemma conns_reachable_fine maximum l ts : conns_reachable maximum l ts -> conns_fine maximum l ts.
Proof.
  unfold conns_reachable. apply interleaved_ind; clear l ts.
  - split; [|constructor]. split; cbn; try done. lia.
  - intros c l l1 t l2 t' l' sp Hf Hturn. pose proof (conn_turn_fine maximum c l l1 t l2 Hf) as H.
    rewrite Hturn in H. destruct H as (-> & Hc' & Ht' & Hlater). destruct Hf as [_ Hv].
    apply Forall_app in Hv as [Hv1 Hv2]. apply Forall_cons in Hv2 as [_ Hv2]. split.
    + rewrite !(total_exchange _ l1 t t'), !total_nil, !total_app, !total_cons.
      eapply counted_eq; [exact Hc'|lia..].
    + rewrite app_nil_r. apply Forall_app. split; [|apply Forall_cons; split; [exact Ht'|]];
        eapply Forall_impl; eauto.
  - intros l ts t [Hc Hv] Ht. split.
    + rewrite !total_app. destruct t; try done; cbn; by rewrite !Z.add_0_r.
    + apply Forall_app. split; [exact Hv|]. apply Forall_cons. split; [|by apply Forall_nil_2]. by destruct t.
Qed.

(** ** [validateListener] *)

(** What the concrete listeners answer for [Addr]; [None] is a nil pointer. *)
Inductive netAddr :=
| TCPAddr (addr : option (list Z * Z * list Z))
| UnixAddr (addr : option (list Z * list Z))
| OtherAddr.

(** A listener by its dynamic type; [None] is a nil pointer of that type. *)
Inductive netListener :=
| TCPListener (bound : option netAddr)
| UnixListener (bound : option netAddr)
| OtherListener.

Inductive listenerError := LETCPNil | LETCPAddress | LEUnixNil | LEUnixAddress | LEKind.

(** [net.IP.To4] and [net.IP.IsLoopback]. *)
Definition IP_To4 (ip : list Z) : option (list Z) :=
  if Nat.eqb (length ip) 4 then Some ip
  else if Nat.eqb (length ip) 16 && bool_decide (take 10 ip = repeat 0 10)
          && bool_decide (take 2 (drop 10 ip) = [255; 255])
  then Some (drop 12 ip) else None.

Definition IPv6loopback : list Z := repeat 0 15 ++ [1].

Definition IP_IsLoopback (ip : list Z) : bool :=
  match IP_To4 ip with
  | Some ip4 => bool_decide (ip4 !! 0%nat = Some 127)
  | None => bool_decide (ip = IPv6loopback)
  end.

Definition validateListener (listener : netListener) : result listenerError unit :=
  match listener with
  | TCPListener None => Err LETCPNil
  | TCPListener (Some address) =>
      match address with
      | TCPAddr (Some (ip, port, zone)) =>
          guard_err (bool_decide (ip = []) || negb (IP_IsLoopback ip) || negb (bool_decide (zone = []))
                     || (port <=? 0) || (65535 <? port)) LETCPAddress
      | _ => Err LETCPAddress
      end
  | UnixListener None => Err LEUnixNil
  | UnixListener (Some address) =>
      match address with
      | UnixAddr (Some (name, network)) =>
          guard_err (bool_decide (name = []) || negb (bool_decide (network = bs "unix"))) LEUnixAddress
      | _ => Err LEUnixAddress
      end
  | OtherListener => Err LEKind
  end.
