(* ===== verification/ServerShutdown.v ===== *)
(** * The shutdown sequence

    Package [server], [server.go]: [runShutdown] and [runGraceful], the steps
    that lead a server from serving to its end. The other parts answer as an
    environment says, from what happened before; each step is an event of the
    log with its answer. *)

From S2P Require Import Prelude.
From S2P Require Import AdmissionOwner.

(** The contexts that the sequence makes, each with a deadline of its own. *)
Inductive shutdownContext := CtxGrace | CtxForce | CtxFinal | CtxClose.

(** What closing a server or a listener answers. *)
Inductive closeError := CloseNil | CloseNetClosed | CloseServerClosed | CloseOther.

Inductive shutdownEvent :=
| EvWithTimeout (ctx : shutdownContext) (timeout : Z)
| EvCancel (ctx : shutdownContext)
| EvBeginDrain (ctx : shutdownContext) (answer : option DrainResult)
| EvForceCancel (ctx : shutdownContext) (answer : option ForceCancelResult)
| EvWaitDrained (ctx : shutdownContext) (ok : bool)
| EvSchedulerClose (ctx : shutdownContext) (ok : bool)
| EvHttpShutdown (ctx : shutdownContext) (ok : bool)
| EvHttpClose (err : closeError)
| EvListenerClose (err : closeError)
| EvHandlersWait (ctx : shutdownContext) (ok : bool)
| EvSeal
| EvBaseCancel
| EvCloseIdle.

Abbreviation shutdownLog := (list shutdownEvent) (only parsing).

(** What the scheduler, the HTTP server, the listener and the handlers answer. *)
Record shutdownEnv := mkShutdownEnv {
  se_BeginDrain : shutdownLog -> option DrainResult;
  se_ForceCancelInflight : shutdownLog -> option ForceCancelResult;
  se_WaitDrained : shutdownLog -> bool;
  se_SchedulerClose : shutdownLog -> bool;
  se_HttpShutdown : shutdownLog -> bool;
  se_HttpClose : shutdownLog -> closeError;
  se_ListenerClose : shutdownLog -> closeError;
  se_HandlersWait : shutdownLog -> bool;
}.

Record ShutdownResult := mkShutdownResult {
  sr_Drain : DrainResult;
  sr_Forced : bool;
  sr_Force : ForceCancelResult;
}.

(** [ErrShutdownIncomplete] is the only error of the sequence. *)
Inductive shutdownError := ErrShutdownIncomplete.

Definition cleanCloseError (err : closeError) : bool :=
  match err with CloseNil | CloseNetClosed | CloseServerClosed => true | CloseOther => false end.

(** ** The sequence *)

Section Shutdown.
Context (env : shutdownEnv) (graceTimeout forceTimeout : Z).

(** A call that the environment answers, and one without an answer. *)
Definition step_ask {A} (answer : shutdownLog -> A) (event : A -> shutdownEvent) : M shutdownLog A :=
  fun log => Done (answer log, log ++ [event (answer log)]).
Definition step_do (event : shutdownEvent) : M shutdownLog unit := fun log => Done (tt, log ++ [event]).

Definition BeginDrain ctx := step_ask (se_BeginDrain env) (EvBeginDrain ctx).
Definition ForceCancelInflight ctx := step_ask (se_ForceCancelInflight env) (EvForceCancel ctx).
Definition scheduler_WaitDrained ctx := step_ask (se_WaitDrained env) (EvWaitDrained ctx).
Definition scheduler_Close ctx := step_ask (se_SchedulerClose env) (EvSchedulerClose ctx).
Definition http_Shutdown ctx := step_ask (se_HttpShutdown env) (EvHttpShutdown ctx).
Definition http_Close := step_ask (se_HttpClose env) EvHttpClose.
Definition listener_Close := step_ask (se_ListenerClose env) EvListenerClose.
Definition handlers_wait ctx := step_ask (se_HandlersWait env) (EvHandlersWait ctx).

(** [runGraceful]: whether it got through, whether the drain was started, and
    the result it writes through its pointer. *)
Definition runGraceful (ctx : shutdownContext) (result : ShutdownResult)
  : M shutdownLog (bool * bool * ShutdownResult) :=
  drained ← BeginDrain ctx;
  match drained with
  | None => mret (false, false, result)
  | Some drainResult =>
      let result := mkShutdownResult drainResult (sr_Forced result) (sr_Force result) in
      _ ← step_do EvCloseIdle;
      down ← http_Shutdown ctx;
      if negb down then mret (false, true, result) else
      err ← listener_Close;
      if negb (cleanCloseError err) then mret (false, true, result) else
      _ ← step_do EvSeal;
      waited ← handlers_wait ctx;
      if negb waited then mret (false, true, result) else
      finished ← scheduler_WaitDrained ctx;
      if negb finished then mret (false, true, result) else
      mret (true, true, result)
  end.

(** The end of [runShutdown] after a graceful phase that got through. *)
Definition finishGraceful (result : ShutdownResult)
  : M shutdownLog (ShutdownResult * option shutdownError) :=
  _ ← step_do EvSeal;
  _ ← step_do EvBaseCancel;
  _ ← step_do (EvWithTimeout CtxFinal forceTimeout);
  closed ← scheduler_Close CtxFinal;
  _ ← step_do EvCloseIdle;
  _ ← step_do (EvCancel CtxFinal);
  mret (result, if (closed : bool) then None else Some ErrShutdownIncomplete).

(** The scheduler's closing in the forced phase: on a deadline of its own when
    the scheduler is drained. *)
Definition closeScheduler (schedulerDrained : bool) : M shutdownLog bool :=
  if schedulerDrained then
    _ ← step_do (EvWithTimeout CtxClose forceTimeout);
    closed ← scheduler_Close CtxClose;
    _ ← step_do (EvCancel CtxClose);
    mret closed
  else scheduler_Close CtxForce.

(** The forced phase of [runShutdown]. *)
Definition runForced (drainStarted : bool) (result : ShutdownResult)
  : M shutdownLog (ShutdownResult * option shutdownError) :=
  let result := mkShutdownResult (sr_Drain result) true (sr_Force result) in
  _ ← step_do EvSeal;
  _ ← step_do (EvWithTimeout CtxForce forceTimeout);
  '(complete, result) ←
    (if drainStarted then mret (true, result) else
     drained ← BeginDrain CtxForce;
     mret match drained with
          | None => (false, result)
          | Some drainResult => (true, mkShutdownResult drainResult (sr_Forced result) (sr_Force result))
          end);
  forced ← ForceCancelInflight CtxForce;
  let '(complete, result) :=
    match forced with
    | None => (false, result)
    | Some forceResult => (complete, mkShutdownResult (sr_Drain result) (sr_Forced result) forceResult)
    end in
  _ ← step_do EvBaseCancel;
  httpErr ← http_Close;
  listenerErr ← listener_Close;
  _ ← step_do EvCloseIdle;
  handlersDrained ← handlers_wait CtxForce;
  schedulerDrained ← scheduler_WaitDrained CtxForce;
  closed ← closeScheduler schedulerDrained;
  _ ← step_do EvCloseIdle;
  _ ← step_do (EvCancel CtxForce);
  mret (result,
    if (complete : bool) && cleanCloseError httpErr && cleanCloseError listenerErr
       && handlersDrained && schedulerDrained && closed
    then None else Some ErrShutdownIncomplete).

Definition zeroResult : ShutdownResult :=
  mkShutdownResult (MkDrainResult 0 0) false (MkForceCancelResult 0).

Definition runShutdown : M shutdownLog (ShutdownResult * option shutdownError) :=
  _ ← step_do (EvWithTimeout CtxGrace graceTimeout);
  '(graceful, drainStarted, result) ← runGraceful CtxGrace zeroResult;
  _ ← step_do (EvCancel CtxGrace);
  if (graceful : bool) then finishGraceful result else runForced drainStarted result.
End Shutdown.

(** ** What the log says *)

Definition happened (p : shutdownEvent -> bool) (log : shutdownLog) : bool := existsb p log.

Definition is_seal (e : shutdownEvent) : bool := match e with EvSeal => true | _ => false end.
Definition is_base (e : shutdownEvent) : bool := match e with EvBaseCancel => true | _ => false end.
Definition is_attempted (e : shutdownEvent) : bool := match e with EvForceCancel _ _ => true | _ => false end.
Definition is_closed (e : shutdownEvent) : bool := match e with EvSchedulerClose _ _ => true | _ => false end.
Definition started_drain (e : shutdownEvent) : bool :=
  match e with EvBeginDrain _ (Some _) => true | _ => false end.
Definition tried_drain (e : shutdownEvent) : bool :=
  match e with EvBeginDrain _ _ => true | _ => false end.
Definition saw_drained (e : shutdownEvent) : bool :=
  match e with EvWaitDrained _ true => true | _ => false end.

#[export] Instance shutdownContext_eq_dec : EqDecision shutdownContext.
Proof. solve_decision. Defined.

(** A context is live from its making to its cancellation. *)
Definition live (ctx : shutdownContext) (log : shutdownLog) : bool :=
  happened (fun e => match e with EvWithTimeout c _ => bool_decide (c = ctx) | _ => false end) log
  && negb (happened (fun e => match e with EvCancel c => bool_decide (c = ctx) | _ => false end) log).

(** The events that may follow a log: the order the sequence promises. *)
Definition in_order (log : shutdownLog) (e : shutdownEvent) : bool :=
  match e with
  | EvWithTimeout ctx _ =>
      negb (happened (fun e => match e with EvWithTimeout c _ => bool_decide (c = ctx) | _ => false end) log)
  | EvCancel ctx => live ctx log
  | EvBeginDrain ctx _ => live ctx log && negb (happened started_drain log)
  | EvForceCancel ctx _ => live ctx log && happened tried_drain log && happened is_seal log
  | EvHttpShutdown ctx _ => live ctx log && happened started_drain log
  | EvHandlersWait ctx _ => live ctx log && happened is_seal log
  | EvWaitDrained ctx _ => live ctx log && happened tried_drain log
  | EvBaseCancel =>
      (* the scheduler is drained, or was told to attribute what runs *)
      negb (happened is_base log) && happened is_seal log
      && (happened saw_drained log || happened is_attempted log)
  | EvHttpClose _ => happened is_base log
  | EvListenerClose _ => happened started_drain log || happened is_base log
  | EvSchedulerClose ctx _ =>
      live ctx log && happened is_base log && negb (happened is_closed log)
      && (happened saw_drained log || happened is_attempted log)
  | EvSeal => happened tried_drain log
  | EvCloseIdle => happened tried_drain log
  end.

Fixpoint orderly (past rest : shutdownLog) : bool :=
  match rest with
  | [] => true
  | e :: rest => in_order past e && orderly (past ++ [e]) rest
  end.

(** Whether a step did what it was to do. *)
Definition succeeded (e : shutdownEvent) : bool :=
  match e with
  | EvBeginDrain _ answer => bool_decide (is_Some answer)
  | EvForceCancel _ answer => bool_decide (is_Some answer)
  | EvWaitDrained _ ok | EvSchedulerClose _ ok | EvHttpShutdown _ ok | EvHandlersWait _ ok => ok
  | EvHttpClose err | EvListenerClose err => cleanCloseError err
  | EvWithTimeout _ _ | EvCancel _ | EvSeal | EvBaseCancel | EvCloseIdle => true
  end.

(** The log up to the end of the graceful phase, and after it. *)
Definition ends_grace (e : shutdownEvent) : bool :=
  match e with EvCancel CtxGrace => true | _ => false end.

Fixpoint grace_part (log : shutdownLog) : shutdownLog :=
  match log with
  | [] => []
  | e :: log => if ends_grace e then [] else e :: grace_part log
  end.
Fixpoint final_part (log : shutdownLog) : shutdownLog :=
  match log with
  | [] => []
  | e :: log => if ends_grace e then log else final_part log
  end.

(** The last answers of the scheduler, zero when there is none. *)
Definition drain_of (log : shutdownLog) : DrainResult :=
  foldl (fun acc e => match e with EvBeginDrain _ (Some r) => r | _ => acc end) (MkDrainResult 0 0) log.
Definition force_of (log : shutdownLog) : ForceCancelResult :=
  foldl (fun acc e => match e with EvForceCancel _ (Some r) => r | _ => acc end) (MkForceCancelResult 0) log.

(** What a sequence that reports no error has achieved. *)
Definition achieved (log : shutdownLog) : bool :=
  happened started_drain log && happened saw_drained log
  && happened (fun e => match e with EvHandlersWait _ true => true | _ => false end) log
  && happened (fun e => match e with EvListenerClose err => cleanCloseError err | _ => false end) log
  && happened (fun e => match e with EvSchedulerClose _ true => true | _ => false end) log.

(** Every context made is cancelled. *)
Definition no_context_left (log : shutdownLog) : bool :=
  forallb (fun ctx => negb (live ctx log)) [CtxGrace; CtxForce; CtxFinal; CtxClose].

(** The deadlines of all the contexts, one after the other. *)
Definition time_allowed (log : shutdownLog) : Z :=
  foldr (fun e acc => match e with EvWithTimeout _ timeout => timeout + acc | _ => acc end) 0 log.

(** How a sequence must end. *)
Definition ends_well (grace force : Z) (log : shutdownLog) (r : ShutdownResult * option shutdownError) : Prop :=
  time_allowed log <= grace + 2 * force /\
  orderly [] log = true /\ no_context_left log = true /\
  happened is_base log = true /\ happened is_closed log = true /\
  fst r = mkShutdownResult (drain_of log) (negb (forallb succeeded (grace_part log))) (force_of log) /\
  (snd r = None <-> forallb succeeded (final_part log) = true) /\
  (snd r = None -> achieved log = true).

(** ** Every path *)

Lemma wp_step_ask {A} (answer : shutdownLog -> A) event (Q : A -> shutdownLog -> Prop) log :
  (forall a, Q a (log ++ [event a])) -> wp (step_ask answer event) Q log.
Proof. intros H. exists (answer log), (log ++ [event (answer log)]). split; [reflexivity|apply H]. Qed.

Lemma wp_step_do event (Q : unit -> shutdownLog -> Prop) log :
  Q tt (log ++ [event]) -> wp (step_do event) Q log.
Proof. intros H. by exists tt, (log ++ [event]). Qed.

Lemma wp_close_ask answer event (Q : closeError -> shutdownLog -> Prop) log :
  (forall err, cleanCloseError err = true -> Q err (log ++ [event err])) ->
  (forall err, cleanCloseError err = false -> Q err (log ++ [event err])) ->
  wp (step_ask answer event) Q log.
Proof. intros Ht Hf. apply wp_step_ask. intros err. destruct (cleanCloseError err) eqn:H; auto. Qed.

(** One step of the sequence, with a case for an answer that it tests. *)
Ltac shutdown_step :=
  lazymatch goal with
  | |- wp (mbind _ _) _ _ => apply wp_bind
  | |- wp (mret _) _ _ => apply wp_ret
  | |- wp (step_do _) _ _ => apply wp_step_do
  | |- wp (BeginDrain _ _) _ _ => apply wp_step_ask; intros [?|]
  | |- wp (ForceCancelInflight _ _) _ _ => apply wp_step_ask; intros [?|]
  | |- wp (http_Close _) _ _ => apply wp_close_ask; intros ? ?
  | |- wp (listener_Close _) _ _ => apply wp_close_ask; intros ? ?
  | |- wp (_ _) _ _ => apply wp_step_ask; intros []
  end.

Ltac rewrite_clean :=
  repeat match goal with H : cleanCloseError ?e = _ |- context[cleanCloseError ?e] => rewrite H end.

Lemma runShutdown_ends env grace force :
  0 <= force -> wp (runShutdown env grace force) (fun r log => ends_well grace force log r) [].
Proof.
  intros Hforce. unfold runShutdown, runGraceful, runForced, finishGraceful, closeScheduler.
  repeat (shutdown_step; cbn [negb andb app]; rewrite_clean; cbn [negb andb]).
  all: unfold ends_well; cbv -[cleanCloseError iff Z.add Z.mul Z.le]; rewrite_clean.
  all: split; [lia|repeat split; congruence].
Qed.
