(* ===== verification/ServerLifecycle.v ===== *)
(** * Serve and Shutdown under interleaving

    Package [server], [server.go]: [Serve], [Shutdown] and [startShutdown], which
    any number of goroutines may call, and the goroutine that runs the shutdown
    sequence; and what [New] checks before it takes ownership. *)

From S2P Require Import Prelude.
From S2P Require Import Interleave.
From S2P Require Import AdmissionOwner.
From S2P Require Import HttpConfig.
From S2P Require Import ServerConfig.
From S2P Require Import ServerHandler.
From S2P Require Import ServerListener.
From S2P Require Import ServerShutdown.

Abbreviation shutdownOutcome := (ShutdownResult * option shutdownError)%type (only parsing).

(** [serveOnce], [shutdownStarted], [shutdownOnce], the fields [shutdownResult]
    and [shutdownErr], and whether [shutdownDone] is closed. *)
Record serverState := mkServerState {
  ss_serveOnce : bool;
  ss_shutdownStarted : bool;
  ss_shutdownOnce : onceState;
  ss_outcome : option shutdownOutcome;
  ss_shutdownDone : bool;
}.

Definition newServerState : serverState := mkServerState false false OnceNew None false.

Inductive serveError := ErrServeAlreadyStarted | ErrServeFailed.

(** What [Shutdown] returns: an error of its context, or the outcome. *)
Inductive shutdownAnswer :=
| SaContextNil
| SaContext
| SaOutcome (outcome : option shutdownOutcome).

(** Who called [startShutdown]. *)
Inductive starter := BySERVE | BySHUTDOWN.

(** [Serve]: called; in [http.Serve]; returned from it, with [ErrServerClosed] or
    not; ended.  [startShutdown], for either caller: at the [Once]; about to
    store; about to start the goroutine; about to leave the [Once].  [Shutdown]:
    called; at the context's check; waiting; its context expired; ended.  The
    goroutine: in [runShutdown]; about to write the fields; about to close the
    channel; ended. *)
Inductive serverThread :=
| SvServe
| SvServing
| SvReturned (closed : bool)
| SvServed (err : option serveError)
| SvOnce (by_ : starter)
| SvStore (by_ : starter)
| SvSpawn (by_ : starter)
| SvOnceEnd (by_ : starter)
| SvShutdown (ctxNil : bool)
| SvCtxErr
| SvAwait
| SvExpired
| SvAnswered (answer : shutdownAnswer)
| SvRun
| SvPublish (outcome : shutdownOutcome)
| SvFinish
| SvRunEnded.

(** Choices: an arm of a [select] or the answer of a call, and what the shutdown
    sequence comes to. *)
Record serverChoice := mkServerChoice { sh_arm : bool; sh_outcome : shutdownOutcome }.

Definition withServeOnce (s : serverState) : serverState :=
  mkServerState true (ss_shutdownStarted s) (ss_shutdownOnce s) (ss_outcome s) (ss_shutdownDone s).
Definition withStarted (s : serverState) : serverState :=
  mkServerState (ss_serveOnce s) true (ss_shutdownOnce s) (ss_outcome s) (ss_shutdownDone s).
Definition withShutdownOnce (o : onceState) (s : serverState) : serverState :=
  mkServerState (ss_serveOnce s) (ss_shutdownStarted s) o (ss_outcome s) (ss_shutdownDone s).
Definition withOutcome (r : shutdownOutcome) (s : serverState) : serverState :=
  mkServerState (ss_serveOnce s) (ss_shutdownStarted s) (ss_shutdownOnce s) (Some r) (ss_shutdownDone s).
Definition withDone (s : serverState) : serverState :=
  mkServerState (ss_serveOnce s) (ss_shutdownStarted s) (ss_shutdownOnce s) (ss_outcome s) true.

(** Where [startShutdown] returns to. *)
Definition after_start (by_ : starter) : serverThread :=
  match by_ with BySERVE => SvServed (Some ErrServeFailed) | BySHUTDOWN => SvAwait end.

Definition server_turn (c : serverChoice) (t : serverThread) (s : serverState)
  : comp (turned serverState serverThread) :=
  let stay t := Done (Moved t s []) in
  let read_ := SvAnswered (SaOutcome (ss_outcome s)) in
  match t with
  | SvServe =>
      if ss_serveOnce s then stay (SvServed (Some ErrServeAlreadyStarted))
      else Done (Moved SvServing (withServeOnce s) [])
  | SvServing => stay (SvReturned (sh_arm c))
  | SvReturned closed =>
      if closed && ss_shutdownStarted s then stay (SvServed None) else stay (SvOnce BySERVE)
  | SvOnce b =>
      match ss_shutdownOnce s with
      | OnceNew => Done (Moved (SvStore b) (withShutdownOnce OnceRunning s) [])
      | OnceRunning => Done Blocked
      | OnceDone => stay (after_start b)
      end
  | SvStore b => Done (Moved (SvSpawn b) (withStarted s) [])
  | SvSpawn b => Done (Moved (SvOnceEnd b) s [SvRun])
  | SvOnceEnd b => Done (Moved (after_start b) (withShutdownOnce OnceDone s) [])
  | SvShutdown true => stay (SvAnswered SaContextNil)
  | SvShutdown false => stay (if ss_shutdownDone s then read_ else SvCtxErr)
  | SvCtxErr => stay (if sh_arm c then SvAnswered SaContext else SvOnce BySHUTDOWN)
  | SvAwait =>
      if sh_arm c then stay SvExpired else if ss_shutdownDone s then stay read_ else Done Blocked
  | SvExpired => stay (if ss_shutdownDone s then read_ else SvAnswered SaContext)
  | SvRun => stay (SvPublish (sh_outcome c))
  | SvPublish r => Done (Moved SvFinish (withOutcome r s) [])
  | SvFinish =>
      if ss_shutdownDone s then Panicked "close of closed channel" else Done (Moved SvRunEnded (withDone s) [])
  | SvServed _ | SvAnswered _ | SvRunEnded => Done Blocked
  end.

Definition server_call (t : serverThread) : bool :=
  match t with SvServe | SvShutdown _ => true | _ => false end.

Definition server_reachable (s : serverState) (l : list serverThread) : Prop :=
  interleaved server_turn server_call newServerState s l.

(** ** The invariant *)

Definition indicator (b : bool) : Z := if b then 1 else 0.

(** Past the compare-and-swap of [Serve]. *)
Definition past_serve (t : serverThread) : Z :=
  match t with
  | SvServing | SvReturned _ | SvServed None | SvServed (Some ErrServeFailed)
  | SvOnce BySERVE | SvStore BySERVE | SvSpawn BySERVE | SvOnceEnd BySERVE => 1
  | _ => 0
  end.
(** Inside the [Once], and before the goroutine is started. *)
Definition in_once (t : serverThread) : Z :=
  match t with SvStore _ | SvSpawn _ | SvOnceEnd _ => 1 | _ => 0 end.
Definition unstarted (t : serverThread) : Z :=
  match t with SvStore _ | SvSpawn _ => 1 | _ => 0 end.
Definition unstored (t : serverThread) : Z :=
  match t with SvStore _ => 1 | _ => 0 end.
(** The goroutine, and before it writes and before it closes the channel. *)
Definition is_runner (t : serverThread) : Z :=
  match t with SvRun | SvPublish _ | SvFinish | SvRunEnded => 1 | _ => 0 end.
Definition unpublished (t : serverThread) : Z :=
  match t with SvRun | SvPublish _ => 1 | _ => 0 end.
Definition unfinished (t : serverThread) : Z :=
  match t with SvRun | SvPublish _ | SvFinish => 1 | _ => 0 end.

(** What a call that ended says of the state. *)
Definition server_vouches (s : serverState) (t : serverThread) : Prop :=
  match t with
  | SvServed None => ss_shutdownStarted s = true
  | SvServed (Some ErrServeFailed) | SvAwait | SvExpired => ss_shutdownOnce s = OnceDone
  | SvAnswered (SaOutcome r) => ss_shutdownDone s = true /\ ss_outcome s = r /\ is_Some r
  | _ => True
  end.

(** The counts of a thread, in the order of the definitions above. *)
Record tally := mkTally {
  ty_serve : Z; ty_once : Z; ty_unstarted : Z; ty_unstored : Z;
  ty_runner : Z; ty_unpublished : Z; ty_unfinished : Z;
}.
Definition tally_add (a b : tally) : tally :=
  mkTally (ty_serve a + ty_serve b) (ty_once a + ty_once b) (ty_unstarted a + ty_unstarted b)
    (ty_unstored a + ty_unstored b) (ty_runner a + ty_runner b) (ty_unpublished a + ty_unpublished b)
    (ty_unfinished a + ty_unfinished b).

Definition tally_of (t : serverThread) : tally :=
  mkTally (past_serve t) (in_once t) (unstarted t) (unstored t) (is_runner t) (unpublished t) (unfinished t).
Definition tally_sum (l : list serverThread) : tally :=
  mkTally (total past_serve l) (total in_once l) (total unstarted l) (total unstored l)
    (total is_runner l) (total unpublished l) (total unfinished l).

Lemma tally_sum_app l1 l2 : tally_sum (l1 ++ l2) = tally_add (tally_sum l1) (tally_sum l2).
Proof. unfold tally_sum, tally_add. cbn. by rewrite !total_app. Qed.

Lemma tally_sum_cons t l : tally_sum (t :: l) = tally_add (tally_of t) (tally_sum l).
Proof. reflexivity. Qed.

Lemma tally_add_comm a b : tally_add a b = tally_add b a.
Proof. unfold tally_add. f_equal; lia. Qed.

Lemma tally_add_assoc a b c : tally_add a (tally_add b c) = tally_add (tally_add a b) c.
Proof. unfold tally_add. cbn. f_equal; lia. Qed.

(** How the counts of any threads stand to each other. *)
Record tally_wf (y : tally) : Prop := {
  tw_serve : 0 <= ty_serve y;
  tw_once : 0 <= ty_unstored y <= ty_unstarted y /\ ty_unstarted y <= ty_once y;
  tw_runner : 0 <= ty_unpublished y <= ty_unfinished y /\ ty_unfinished y <= ty_runner y;
}.

Lemma tally_wf_of t : tally_wf (tally_of t).
Proof. destruct t as [| | |[[]|]|[]|[]|[]|[]| | | | | | | | |]; split; cbn; lia. Qed.

Lemma tally_wf_sum l : tally_wf (tally_sum l).
Proof.
  induction l as [|t l [H1 H2 H3]]; [by split|]. rewrite tally_sum_cons. destruct (tally_wf_of t).
  split; cbn [ty_serve ty_once ty_unstarted ty_unstored ty_runner ty_unpublished ty_unfinished tally_add]; lia.
Qed.

Definition is_once (o : onceState) (s : serverState) : Z :=
  match o, ss_shutdownOnce s with
  | OnceNew, OnceNew | OnceRunning, OnceRunning | OnceDone, OnceDone => 1
  | _, _ => 0
  end.
Definition is_some {A} (o : option A) : bool := match o with Some _ => true | None => false end.

(** What the flags say of the threads. *)
Record accounts (s : serverState) (y : tally) : Prop := {
  ac_serve : ty_serve y = indicator (ss_serveOnce s);
  ac_once : ty_once y = is_once OnceRunning s;
  ac_started : ty_unstored y + indicator (ss_shutdownStarted s) = 1 - is_once OnceNew s;
  ac_runner : ty_runner y + ty_unstarted y = 1 - is_once OnceNew s;
  ac_outcome : ty_runner y - ty_unpublished y = indicator (is_some (ss_outcome s));
  ac_done : ty_runner y - ty_unfinished y = indicator (ss_shutdownDone s);
}.

Definition server_fine (s : serverState) (l : list serverThread) : Prop :=
  accounts s (tally_sum l) /\ Forall (server_vouches s) l.

(** What is said once stays true. *)
Record server_later (s s' : serverState) : Prop := {
  la_started : ss_shutdownStarted s = true -> ss_shutdownStarted s' = true;
  la_once : ss_shutdownOnce s = OnceDone -> ss_shutdownOnce s' = OnceDone;
  la_done : ss_shutdownDone s = true -> ss_shutdownDone s' = true /\ ss_outcome s' = ss_outcome s;
}.

Lemma server_vouches_later s s' t : server_later s s' -> server_vouches s t -> server_vouches s' t.
Proof.
  intros [Hs Ho Hd]. destruct t as [| | |[[]|]| | | | | | | | |[| |r]| | | |]; cbn; auto.
  intros (H1 & H2 & H3). destruct (Hd H1) as [Hd1 Hd2]. by rewrite Hd2.
Qed.

(** A turn beside threads with the counts [y]. *)
Definition right_server_turn (y : tally) (s : serverState) (r : comp (turned serverState serverThread)) : Prop :=
  match r with
  | Done (Moved t' s' sp) =>
      accounts s' (tally_add y (tally_add (tally_of t') (tally_sum sp))) /\
      Forall (server_vouches s') (t' :: sp) /\ server_later s s'
  | Done Blocked => True
  | _ => False
  end.

Lemma right_stay y s t t' :
  accounts s (tally_add y (tally_of t)) -> tally_of t' = tally_of t -> server_vouches s t' ->
  right_server_turn y s (Done (Moved t' s [])).
Proof.
  intros Ha Heq Hv. cbn. rewrite Heq. split_and!.
  - destruct Ha. split; cbn in *; lia.
  - by apply Forall_cons_2; [|apply Forall_nil_2].
  - by split.
Qed.

(** The channel is closed only after the fields are written. *)
Lemma done_outcome s y :
  accounts s y -> tally_wf y -> ss_shutdownDone s = true -> is_Some (ss_outcome s).
Proof.
  intros [_ _ _ _ Ho Hd] [_ _ Hr] Hdone. rewrite Hdone in Hd. cbn in Hd.
  destruct (ss_outcome s); [done|]. cbn in Ho. lia.
Qed.

Lemma tally_wf_add a b : tally_wf a -> tally_wf b -> tally_wf (tally_add a b).
Proof. intros [] []. split; cbn; lia. Qed.

Ltac by_counts := split; cbn [ty_serve ty_once ty_unstarted ty_unstored ty_runner ty_unpublished ty_unfinished
  tally_add tally_of tally_sum total foldr past_serve in_once unstarted unstored is_runner unpublished unfinished
  ss_serveOnce ss_shutdownStarted ss_shutdownOnce ss_outcome ss_shutdownDone
  withServeOnce withStarted withShutdownOnce withOutcome withDone] in *; unfold is_once in *; cbn in *;
  repeat match goal with
  | H : ss_shutdownOnce _ = _ |- _ => rewrite H; clear H
  | H : ss_shutdownDone _ = _ |- _ => rewrite H; clear H
  end; cbn; lia.

(** The turns that change the flags. *)
Definition changes (t : serverThread) (s : serverState) : Prop :=
  match t with
  | SvServe => ss_serveOnce s = false
  | SvOnce _ => ss_shutdownOnce s = OnceNew
  | SvStore _ | SvSpawn _ | SvOnceEnd _ | SvPublish _ | SvFinish => True
  | _ => False
  end.

Ltac use_accounts Ha := destruct Ha as [H1 H2 H3 H4 H5 H6]; unfold is_once in *; cbn in *.

Lemma server_change_right c t s y :
  accounts s (tally_add y (tally_of t)) -> tally_wf y -> changes t s ->
  right_server_turn y s (server_turn c t s).
Proof.
  intros Ha [Hy1 Hy2 Hy3] Hc.
  destruct t as [| |closed|err|b|b|b|b|[]| | | |answer| |r| |]; cbn [server_turn changes] in *; try done.
  - rewrite Hc. split_and!; [|by repeat constructor|by split]. use_accounts Ha. rewrite Hc in *. by_counts.
  - rewrite Hc. split_and!; [|by repeat constructor|split; cbn; intuition congruence].
    use_accounts Ha. rewrite Hc in *. destruct b; by_counts.
  - split_and!; [|by repeat constructor|by split]. use_accounts Ha.
    destruct (ss_shutdownOnce s) eqn:Ho, (ss_shutdownStarted s) eqn:Hst; cbn in *; try lia; destruct b; by_counts.
  - split_and!; [|by repeat constructor|by split]. use_accounts Ha. destruct b; by_counts.
  - use_accounts Ha. destruct (ss_shutdownOnce s) eqn:Ho; cbn in *; try (destruct b; lia).
    split_and!; [|by destruct b; repeat constructor|split; cbn; intuition congruence]. destruct b; by_counts.
  - use_accounts Ha. destruct (ss_shutdownDone s) eqn:Hd; cbn in *; [destruct (ss_shutdownOnce s); lia|].
    destruct (ss_outcome s) eqn:Hr; cbn in *; [destruct (ss_shutdownOnce s); lia|].
    split_and!; [|by repeat constructor|split; cbn; intuition congruence]. by_counts.
  - use_accounts Ha. destruct (ss_shutdownDone s) eqn:Hd; cbn in *; [destruct (ss_shutdownOnce s); lia|].
    split_and!; [|by repeat constructor|split; cbn; intuition congruence]. by_counts.
Qed.

Lemma server_turn_right c t s y :
  accounts s (tally_add y (tally_of t)) -> tally_wf y -> server_vouches s t ->
  right_server_turn y s (server_turn c t s).
Proof.
  intros Ha Hy Hv.
  pose proof (done_outcome s _ Ha (tally_wf_add _ _ Hy (tally_wf_of t))) as Hread.
  pose proof (fun t' => right_stay y s t t' Ha) as Hstay.
  pose proof (server_change_right c t s y Ha Hy) as Hchange.
  destruct t as [| |closed|err|b|b|b|b|[]| | | |answer| |r| |]; try (by apply Hchange); cbn [server_turn changes] in *.
  - destruct (ss_serveOnce s) eqn:Hs; [by apply Hstay|by apply Hchange].
  - by apply Hstay.
  - destruct (closed && ss_shutdownStarted s) eqn:Hc; [|by apply Hstay].
    apply andb_true_iff in Hc as [_ Hc]. by apply Hstay.
  - done.
  - destruct (ss_shutdownOnce s) eqn:Ho; [by apply Hchange|done|]. by destruct b; apply Hstay.
  - by apply Hstay.
  - destruct (ss_shutdownDone s) eqn:Hd; apply Hstay; try done. split_and!; auto.
  - by destruct (sh_arm c); apply Hstay.
  - destruct (sh_arm c); [by apply Hstay|]. destruct (ss_shutdownDone s) eqn:Hd; [|done].
    apply Hstay; try done. split_and!; auto.
  - destruct (ss_shutdownDone s) eqn:Hd; apply Hstay; try done. split_and!; auto.
  - done.
  - by apply Hstay.
  - done.
Qed.

Lemma server_turn_fine c s l1 t l2 :
  server_fine s (l1 ++ t :: l2) ->
  right_server_turn (tally_add (tally_sum l1) (tally_sum l2)) s (server_turn c t s).
Proof.
  intros [Ha Hv]. apply Forall_app in Hv as [_ Hv2]. apply Forall_cons in Hv2 as [Ht _].
  apply server_turn_right; [|by apply tally_wf_add; apply tally_wf_sum|exact Ht].
  rewrite tally_sum_app, tally_sum_cons in Ha.
  by rewrite <- tally_add_assoc, (tally_add_comm (tally_sum l2)).
Qed.

Lemma server_reachable_fine s l : server_reachable s l -> server_fine s l.
Proof.
  unfold server_reachable. apply interleaved_ind; clear s l.
  - by repeat constructor.
  - intros c s l1 t l2 t' s' sp Hf Hturn. pose proof (server_turn_fine c s l1 t l2 Hf) as H.
    rewrite Hturn in H. destruct H as (Ha' & Hv' & Hlater). destruct Hf as [_ Hv].
    apply Forall_app in Hv as [Hv1 Hv2]. apply Forall_cons in Hv2 as [Ht Hv2].
    apply Forall_cons in Hv' as [Ht' Hsp]. split.
    + rewrite tally_sum_app, tally_sum_cons, tally_sum_app.
      rewrite <- tally_add_assoc in Ha'. rewrite (tally_add_comm (tally_sum l2)), <- tally_add_assoc in Ha'.
      by rewrite (tally_add_comm (tally_sum l2)).
    + apply Forall_app. split; [by eapply Forall_impl; eauto using server_vouches_later|].
      apply Forall_cons. split; [exact Ht'|]. apply Forall_app. split; [|exact Hsp].
      by eapply Forall_impl; eauto using server_vouches_later.
  - intros s l t [Ha Hv] Ht. split.
    + rewrite tally_sum_app, tally_sum_cons. destruct Ha. destruct t; try done; split; cbn in *; lia.
    + apply Forall_app. split; [exact Hv|]. apply Forall_cons. split; [by destruct t|by apply Forall_nil_2].
Qed.

(** ** [New] *)

Inductive newServerError :=
| NEHandlerNil | NESchedulerNil | NESchedulerOther
| NEConfig (e : serverConfigError) | NEListener (e : listenerError).

(** A handler with the identity of the scheduler it was made for. *)
Record handlerRef := mkHandlerRef { hr_config : validatedHandlerConfig; hr_scheduler : nat }.

(** [Handler.UsesScheduler] *)
Definition UsesScheduler (h : handlerRef) (scheduler : nat) : bool := Nat.eqb (hr_scheduler h) scheduler.

Record Server := mkServer {
  srv_config : validatedServerConfig;
  srv_listener : boundedListener;
  srv_handlers : trackedHandler;
  srv_state : serverState;
}.

Definition newServer (config : validatedServerConfig) : Server :=
  mkServer config (newBoundedListener (vs_maxConnections config)) newTrackedHandler newServerState.

(** Pointers to the handler and the scheduler; [None] is nil. *)
Definition server_New (config : ServerConfig) (listener : netListener) (handler : option handlerRef)
    (scheduler : option nat) : result newServerError Server :=
  match handler, scheduler with
  | None, _ => Err NEHandlerNil
  | Some _, None => Err NESchedulerNil
  | Some h, Some sch =>
      _ ← guard_err (negb (UsesScheduler h sch)) NESchedulerOther;
      validated ← wrapErr NEConfig (server_validateConfig config (Handler_TimeoutPolicy (hr_config h)));
      _ ← wrapErr NEListener (validateListener listener);
      Ok (newServer validated)
  end.

Lemma server_New_Ok config listener handler scheduler srv :
  server_New config listener handler scheduler = Ok srv ->
  exists h v, handler = Some h /\ scheduler = Some (hr_scheduler h) /\
    server_validateConfig config (Handler_TimeoutPolicy (hr_config h)) = Ok v /\
    validateListener listener = Ok tt /\ srv = newServer v.
Proof.
  unfold server_New. destruct handler as [h|], scheduler as [sch|]; try done.
  rewrite guard_err_Ok. intros [Hu H]. apply negb_false_iff, Nat.eqb_eq in Hu. subst sch.
  destruct (server_validateConfig _ _) as [v|e] eqn:Hv; [|done]. cbn in H.
  destruct (validateListener listener) as [[]|e] eqn:Hl; [|done]. injection H as <-. by exists h, v.
Qed.
