(* ===== verification/ServerTheorems.v ===== *)
(** * The server: its properties

    Configuration, the bounded listener, the tracked handler, the shutdown
    sequence, and Serve and Shutdown under interleaving; each property with a
    witness at a concrete input. *)

From S2P Require Import Prelude.
From S2P Require Import Interleave.
From S2P Require Import GoJson.
From S2P Require Import AdmissionOwner.
From S2P Require Import HttpConfig.
From S2P Require Import HttpTheorems.
From S2P Require Import ServerConfig.
From S2P Require Import ServerHandler.
From S2P Require Import ServerListener.
From S2P Require Import ServerShutdown.
From S2P Require Import ServerLifecycle.

(** ** Configuration *)

Definition demo_server_config : ServerConfig :=
  mkServerConfig time_Second (2 * time_Second) time_Minute (10 * time_Second) (5 * time_Second) 16384 2.
Definition demo_timeouts : TimeoutPolicy := Handler_TimeoutPolicy demo_handler.

Lemma demo_server_typed : typed_server demo_server_config.
Proof. unfold typed_server, is_int64, is_u64. vm_compute. repeat split; congruence. Qed.

(** [validateConfig] accepts exactly the configurations within the safety
    bounds, with a product of header envelope and connections of at most 64 MiB;
    the deadlines it derives are the exact sums, and no error it returns is one
    of overflow, which cannot happen. *)
Theorem server_validateConfig_exact c p :
  typed_server c ->
  (forall v, server_validateConfig c p = Ok v <-> server_bounds c p /\ v = server_of c p) /\
  (forall e, server_validateConfig c p = Err e ->
     ~ server_bounds c p /\ e <> SEReadOverflow /\ e <> SEWriteOverflow /\ e <> SEAdjustedHeader).
Proof.
  intros Ht. split; intros; [by apply server_validateConfig_Ok|by apply server_validateConfig_Err].
Qed.

Lemma server_validateConfig_exact_witness :
  server_validateConfig demo_server_config demo_timeouts = Ok (server_of demo_server_config demo_timeouts) /\
  vs_writeTimeout (server_of demo_server_config demo_timeouts) = 5 * time_Second.
Proof.
  split; [|vm_compute; reflexivity].
  apply (server_validateConfig_exact demo_server_config demo_timeouts demo_server_typed). split; [|reflexivity].
  split; [|vm_compute; split; congruence|vm_compute; split; congruence|vm_compute; split; congruence
    |vm_compute; congruence].
  repeat (apply Forall_cons_2; [vm_compute; split; congruence|]). apply Forall_nil_2.
Defined.

(** ** Connections *)

(** C37: a listener made by [New] hands out at most [maxConnections] connections
    at once, and what they may hold of request headers together stays within
    64 MiB; the slot channel holds a slot for exactly the calls and connections
    that own one, no slot is given back twice and no channel closed twice, every
    owner of a slot can go on; once the listener is closed no connection is
    handed out any more, and all calls of [Close] return the same answer. *)
Theorem connections_bounded config listener handler scheduler srv l ts :
  typed_server config ->
  server_New config listener handler scheduler = Ok srv ->
  conns_reachable (bl_maximum (srv_listener srv)) l ts ->
  total is_open ts <= vs_maxConnections (srv_config srv) <= 1024 /\
  total is_open ts * vs_headerReadEnvelope (srv_config srv) <= 67108864 /\
  bl_slots l = total holds_slot ts /\
  (forall c ts1 t ts2, ts = ts1 ++ t :: ts2 ->
     match conn_turn c t l with
     | Done Blocked => holds_slot t = 0
     | Done (Moved t' l' _) => bl_closed l = true -> t' <> CtOpen
     | _ => False
     end) /\
  (forall e1 e2, CtCloseReturned e1 ∈ ts -> CtCloseReturned e2 ∈ ts -> e1 = e2).
Proof.
  intros Ht Hnew Hr. apply server_New_Ok in Hnew as (h & v & _ & _ & Hv & _ & ->).
  apply server_validateConfig_Ok in Hv as [Hb ->]; [|exact Ht]. destruct Hb as [_ _ He Hn Hres].
  cbn in Hr |- *. apply conns_reachable_fine in Hr as [Hc Ha]. pose proof Hc as [Hm Hs Hmax _ _].
  assert (0 <= total is_open ts <= total holds_slot ts) as Hopen.
  { split; [apply total_nonneg; by intros []|]. clear. induction ts as [|t ts IH]; [done|].
    rewrite !total_cons. destruct t; cbn [is_open holds_slot]; lia. }
  split_and!; try lia; [nia| |].
  - intros c ts1 t ts2 ->. pose proof (conn_turn_fine _ c l ts1 t ts2 (conj Hc Ha)) as H.
    destruct (conn_turn c t l) as [[t' l' sp|]| |] eqn:Hturn; try done.
    intros Hcl ->. destruct c as [arm answer]. destruct t; cbn in Hturn; unfold conn_moves in *; repeat case_match; congruence.
  - intros e1 e2 H1 H2. pose proof (proj1 (Forall_forall _ _) Ha) as Hall.
    destruct (Hall _ H1) as [_ <-]. by destruct (Hall _ H2) as [_ <-].
Qed.

Definition demo_handler_ref : handlerRef := mkHandlerRef demo_handler 1.
Definition demo_listener : netListener := TCPListener (Some (TCPAddr (Some ([127; 0; 0; 1], 8080, [])))).

Definition server_or (r : result newServerError Server) : Server :=
  match r with
  | Ok srv => srv
  | Err _ => newServer (server_of demo_server_config demo_timeouts)
  end.
Definition demo_server : Server :=
  server_or (server_New demo_server_config demo_listener (Some demo_handler_ref) (Some 1%nat)).

Lemma demo_server_made :
  server_New demo_server_config demo_listener (Some demo_handler_ref) (Some 1%nat) = Ok demo_server.
Proof. vm_compute. reflexivity. Qed.

(** Two connections, a third call that waits, and the listener being closed. *)
Lemma connections_bounded_witness :
  exists l, conns_reachable (bl_maximum (srv_listener demo_server)) l
      [CtOpen; CtConnClosed None; CtCheck; CtCloseReturned (Some ErrClosed)] /\
    bl_slots l = 2 /\ bl_closed l = true.
Proof.
  assert (conns_reachable (bl_maximum (srv_listener demo_server))
    (mkBounded 2 2 true OnceDone (Some ErrClosed))
    [CtOpen; CtConnClosed None; CtCheck; CtCloseReturned (Some ErrClosed)]) as Hr.
  { apply (run_schedule_interleaved conn_turn conn_call
      [Arrive CtAccept; Arrive CtAccept; Arrive CtAccept; Arrive CtClose;
       Turn 0 (true, None); Turn 0 (true, None); Turn 0 (true, None);
       Turn 1 (true, None); Turn 1 (true, None); Turn 1 (true, None);
       Turn 1 (true, None); Turn 1 (true, None); Turn 1 (true, None); Turn 2 (true, None);
       Turn 3 (true, None); Turn 3 (true, None); Turn 2 (true, None); Turn 3 (true, Some ErrClosed)]).
    vm_compute. reflexivity. }
  eexists. split; [exact Hr|].
  destruct (connections_bounded demo_server_config demo_listener (Some demo_handler_ref) (Some 1%nat)
    demo_server _ _ demo_server_typed demo_server_made Hr) as (_ & _ & Hs & _).
  split; [exact Hs|reflexivity].
Defined.

(** ** Requests being served *)

(** C32: under every interleaving of fewer than 2^64 calls, [active] counts exactly
    the requests in the inner handler, no call of [finish] underflows and
    [drained] is closed once, exactly when the handler is sealed and no request
    is inside; once a call of [seal] has returned every request is turned away;
    and when a call of [wait] has returned nil, no request is inside or will be. *)
Theorem handlers_drained_exact h l :
  handlers_reachable h l -> Z.of_nat (length l) < two64 ->
  th_active h = total running l /\
  (th_drained h = true <-> th_accepting h = false /\ HtInner ∉ l) /\
  (HtSealed ∈ l -> forall c protoMajor,
     handler_turn c (HtRequest protoMajor) h =
     Done (Moved (HtServed (if protoMajor =? 1 then AnswerUnavailable else AnswerVersion)) h [])) /\
  (HtWaited None ∈ l -> th_accepting h = false /\ HtInner ∉ l) /\
  (forall c l1 t l2, l = l1 ++ t :: l2 -> exists r, handler_turn c t h = Done r).
Proof.
  intros Hr Hlen. pose proof (handlers_reachable_fine h l Hr Hlen) as [[Ha Hd] Hv].
  pose proof (proj1 (Forall_forall _ _) Hv) as Hsays. split; [exact Ha|].
  assert (th_drained h = true <-> th_accepting h = false /\ HtInner ∉ l) as Hdrained.
  { rewrite Hd, andb_true_iff, negb_true_iff, Z.eqb_eq. by rewrite total_running_zero. }
  split; [exact Hdrained|]. split_and!.
  - intros Hs c major. specialize (Hsays _ Hs). cbn in Hsays |- *.
    destruct (major =? 1); cbn; [|done]. unfold moves, tracked_begin. by rewrite Hsays.
  - intros Hw. apply Hdrained. exact (Hsays _ Hw).
  - intros c l1 t l2 ->. pose proof (handlers_fine_turn c h l1 t l2 (conj (conj Ha Hd) Hv) Hlen) as H.
    destruct (handler_turn c t h) as [r| |]; [by exists r|done|done].
Qed.

(** A request that is served while the handler is sealed, and one that comes late. *)
Lemma handlers_drained_exact_witness :
  exists h, handlers_reachable h
      [HtServed (AnswerInner true); HtSealed; HtServed AnswerUnavailable; HtWaited None] /\
    th_accepting h = false.
Proof.
  assert (handlers_reachable (mkTracked false 0 true)
    [HtServed (AnswerInner true); HtSealed; HtServed AnswerUnavailable; HtWaited None]) as Hr.
  { apply (run_schedule_interleaved handler_turn handler_call
      [Arrive (HtRequest 1); Arrive HtSeal; Arrive (HtRequest 1); Arrive (HtWait false);
       Turn 0 true; Turn 1 true; Turn 2 true; Turn 3 true; Turn 3 true; Turn 0 true; Turn 3 true]).
    vm_compute. reflexivity. }
  eexists. split; [exact Hr|].
  refine (proj1 (proj1 (proj2 (proj2 (proj2 (handlers_drained_exact _ _ Hr _)))) _)).
  - reflexivity.
  - apply (list_elem_of_lookup_2 _ 3). reflexivity.
Defined.

(** ** Shutdown *)

(** C12: whatever the scheduler, the HTTP server, the listener and the handlers
    answer, the shutdown sequence comes to an end and keeps its order: the drain
    is tried first, connections are closed under the base context's cancellation
    only once the scheduler is drained or has been told to attribute what runs,
    no wait precedes the seal, the scheduler is closed exactly once after the
    cancellation, and every context is made once, used while it is live and
    cancelled, on deadlines that add up to at most the grace and twice the force
    timeout.  The result tells what the scheduler answered and is forced exactly
    when a graceful step failed; the error is nil exactly when every step of the
    last phase succeeded, and then the drain was started, the scheduler drained
    and closed, the handlers returned and the listener closed. *)
Theorem shutdown_in_order env grace force :
  0 <= force ->
  exists r log, runShutdown env grace force [] = Done (r, log) /\ ends_well grace force log r.
Proof. intros Hf. exact (runShutdown_ends env grace force Hf). Qed.

(** A handler that does not return in the grace period. *)
Definition demo_shutdown_env : shutdownEnv :=
  mkShutdownEnv (fun _ => Some (MkDrainResult 3 1)) (fun _ => Some (MkForceCancelResult 1)) (fun _ => true)
    (fun _ => true) (fun _ => true) (fun _ => CloseNil) (fun _ => CloseNetClosed)
    (fun log => happened is_base log).

Lemma shutdown_in_order_witness :
  exists r log, runShutdown demo_shutdown_env 10 5 [] = Done (r, log) /\ achieved log = true /\
    sr_Forced (fst r) = true.
Proof.
  destruct (shutdown_in_order demo_shutdown_env 10 5 ltac:(discriminate)) as (r & log & Hrun & Hend).
  exists r, log. split; [exact Hrun|]. destruct Hend as (_ & _ & _ & _ & _ & Hr & _ & Ha).
  assert (snd r = None) as Hok by (vm_compute in Hrun; injection Hrun as <- <-; reflexivity).
  split; [exact (Ha Hok)|]. vm_compute in Hrun. by injection Hrun as <- <-.
Defined.

(** However many goroutines call [Serve] and [Shutdown], [http.Serve] is
    entered at most once, at most one goroutine ever runs the shutdown sequence
    and nothing panics; [Serve] returns nil only when a shutdown was started;
    and every [Shutdown] that returns an outcome returns the one outcome of that
    sequence, after it was written. *)
Theorem shutdown_runs_once s l :
  server_reachable s l ->
  total past_serve l <= 1 /\ total is_runner l <= 1 /\
  (forall c l1 t l2, l = l1 ++ t :: l2 -> exists r, server_turn c t s = Done r) /\
  (SvServed None ∈ l -> ss_shutdownStarted s = true) /\
  (forall a b, SvAnswered (SaOutcome a) ∈ l -> SvAnswered (SaOutcome b) ∈ l -> a = b /\ is_Some a).
Proof.
  intros Hr. pose proof (server_reachable_fine s l Hr) as [Ha Hv].
  pose proof (proj1 (Forall_forall _ _) Hv) as Hsays. destruct (tally_wf_sum l) as [_ Ho Hu].
  pose proof Ha as [H1 _ _ H4 _ _]. cbn in *. split_and!.
  - rewrite H1. destruct (ss_serveOnce s); cbn; lia.
  - unfold is_once in H4. destruct (ss_shutdownOnce s); lia.
  - intros c l1 t l2 ->. pose proof (server_turn_fine c s l1 t l2 (conj Ha Hv)) as H.
    destruct (server_turn c t s) as [r| |]; [by exists r|done|done].
  - exact (Hsays _).
  - intros a b Hina Hinb. destruct (Hsays _ Hina) as (_ & <- & Hs). destruct (Hsays _ Hinb) as (_ & <- & _).
    done.
Qed.

Definition demo_outcome : ShutdownResult * option shutdownError := (zeroResult, None).

(** Serve, and two calls of Shutdown, one of which gives up. *)
Lemma shutdown_runs_once_witness :
  exists s, server_reachable s
      [SvServed None; SvAnswered (SaOutcome (Some demo_outcome)); SvAnswered SaContext; SvRunEnded] /\
    ss_shutdownStarted s = true.
Proof.
  assert (server_reachable (mkServerState true true OnceDone (Some demo_outcome) true)
    [SvServed None; SvAnswered (SaOutcome (Some demo_outcome)); SvAnswered SaContext; SvRunEnded]) as Hr.
  { pose (yes := mkServerChoice true demo_outcome). pose (no := mkServerChoice false demo_outcome).
    apply (run_schedule_interleaved server_turn server_call
      [Arrive SvServe; Arrive (SvShutdown false); Arrive (SvShutdown false);
       Turn 0 yes; Turn 1 no; Turn 2 no; Turn 1 no; Turn 2 no; Turn 1 no; Turn 1 no; Turn 1 no; Turn 1 no;
       Turn 2 no; Turn 2 yes; Turn 2 no; Turn 3 no; Turn 0 yes; Turn 0 yes; Turn 3 no; Turn 3 no; Turn 1 no]).
    vm_compute. reflexivity. }
  eexists. split; [exact Hr|].
  refine (proj1 (proj2 (proj2 (proj2 (shutdown_runs_once _ _ Hr)))) _).
  apply (list_elem_of_lookup_2 _ 0). reflexivity.
Defined.
