(* ===== verification/HttpUpstream.v ===== *)
(** * Network addresses and the upstream client

    First, what the program uses of Go's [net/netip]: parsing of textual addresses
    and the predicates on them, and [strings.LastIndexByte] and friends on hosts; an
    address is its family and bytes, with a zone for IPv6.  Then package [httpapi],
    [upstream.go]: the validation of the one destination and the transport bounds,
    the client that is made for it, and one exchange with it.  Between them is what
    [net/http]'s client does with a request: it may try again after a failure, follow
    redirects and go through a proxy, as the client is configured.  [net/url]'s parsing
    and printing of URLs and what the network answers are parameters. *)

From S2P Require Import Prelude GoJson GoIO ContractRequest HttpConfig HttpHandler.

(** [netip.Addr]; the zero Addr is [AddrNone]. *)
Inductive Addr :=
| AddrNone
| Addr4 (ip : list Z)
| Addr6 (ip : list Z) (zone : list Z).

#[export] Instance Addr_eq_dec : EqDecision Addr.
Proof. solve_decision. Defined.

Definition Zone (a : Addr) : list Z := match a with Addr6 _ zone => zone | _ => [] end.
Definition IsValid (a : Addr) : bool := match a with AddrNone => false | _ => true end.
Definition Is4 (a : Addr) : bool := match a with Addr4 _ => true | _ => false end.
Definition AsSlice (a : Addr) : list Z := match a with AddrNone => [] | Addr4 ip | Addr6 ip _ => ip end.

(** An IPv4-mapped IPv6 address. *)
Definition Is4In6 (a : Addr) : bool :=
  match a with Addr6 ip _ => bool_decide (take 12 ip = repeat 0 10 ++ [255; 255]) | _ => false end.

Definition IsLoopback (a : Addr) : bool :=
  match a with
  | AddrNone => false
  | Addr4 ip => bool_decide (ip !! 0%nat = Some 127)
  | Addr6 ip _ =>
      if Is4In6 a then bool_decide (ip !! 12%nat = Some 127)
      else bool_decide (ip = repeat 0 15 ++ [1])
  end.

(** [netip.AddrFromSlice] *)
Definition AddrFromSlice (ip : list Z) : option Addr :=
  if Nat.eqb (length ip) 4 then Some (Addr4 ip)
  else if Nat.eqb (length ip) 16 then Some (Addr6 ip []) else None.

(** ** [netip.ParseAddr] *)

(** [parseIPv4Fields]: the fields so far, the value and the number of digits of
    the one being read, and whether the byte before was no digit. *)
Fixpoint parseIPv4Fields (s : list Z) (fields : list Z) (val : Z) (digLen : nat) : option (list Z) :=
  match s with
  | [] => if Nat.eqb (length fields) 3 && negb (Nat.eqb digLen 0) then Some (fields ++ [val]) else None
  | c :: s =>
      if is_digit c then
        if Nat.eqb digLen 1 && (val =? 0) then None else
        let val := val * 10 + (c - 48) in
        if 255 <? val then None else parseIPv4Fields s fields val (S digLen)
      else if c =? 46 then
        if Nat.eqb digLen 0 || Nat.eqb (length fields) 3 then None
        else parseIPv4Fields s (fields ++ [val]) 0 0
      else None
  end.

Definition parseIPv4 (s : list Z) : option (list Z) := parseIPv4Fields s [] 0 0.

(** The hexadecimal digits at the front: how many, their value, and the rest;
    [None] when there are more than four. *)
Fixpoint hexGroup (s : list Z) (off : nat) (acc : Z) : option (nat * Z * list Z) :=
  match s with
  | c :: s' =>
      if is_hex c then
        if Nat.ltb 3 off then None else hexGroup s' (S off) (acc * 16 + hex_value c)
      else Some (off, acc, s)
  | [] => Some (off, acc, [])
  end.

(** The loop of [parseIPv6] after a leading ellipsis: the bytes so far and where
    the ellipsis stands; answers them and what is left of the text. *)
Fixpoint parseGroups (fuel : nat) (s ip : list Z) (ellipsis : option nat)
  : option (list Z * option nat * list Z) :=
  match fuel with
  | O => None
  | S fuel' =>
      if Nat.leb 16 (length ip) then Some (ip, ellipsis, s) else
      match hexGroup s 0 0 with
      | None => None
      | Some (off, acc, rest) =>
          if Nat.eqb off 0 then None else
          match rest with
          | 46 :: _ =>
              if bool_decide (ellipsis = None) && negb (Nat.eqb (length ip) 12) then None
              else if Nat.ltb 16 (length ip + 4) then None
              else match parseIPv4 s with
                   | Some ip4 => Some (ip ++ ip4, ellipsis, [])
                   | None => None
                   end
          | _ =>
              let ip := ip ++ [acc / 256; acc mod 256] in
              match rest with
              | [] => Some (ip, ellipsis, [])
              | 58 :: [] => None
              | 58 :: 58 :: s' =>
                  if bool_decide (is_Some ellipsis) then None
                  else match s' with
                       | [] => Some (ip, Some (length ip), [])
                       | _ => parseGroups fuel' s' ip (Some (length ip))
                       end
              | 58 :: s' => parseGroups fuel' s' ip ellipsis
              | _ => None
              end
          end
      end
  end.

(** The end of [parseIPv6]: the ellipsis is filled with zeros. *)
Definition expandEllipsis (ip : list Z) (ellipsis : option nat) : option (list Z) :=
  if Nat.ltb (length ip) 16 then
    match ellipsis with
    | None => None
    | Some e => Some (take e ip ++ repeat 0 (16 - length ip) ++ drop e ip)
    end
  else if bool_decide (is_Some ellipsis) then None else Some ip.

(** What is before the first [%], and after it. *)
Fixpoint cutZone (s : list Z) : list Z * option (list Z) :=
  match s with
  | [] => ([], None)
  | c :: s => if c =? 37 then ([], Some s) else let '(a, z) := cutZone s in (c :: a, z)
  end.

Definition parseIPv6 (text : list Z) : option Addr :=
  let '(s, zone) := cutZone text in
  if bool_decide (zone = Some []) then None else
  let zone := default [] zone in
  let '(leading, s) := match s with 58 :: 58 :: s' => (true, s') | _ => (false, s) end in
  if leading && bool_decide (s = []) then Some (Addr6 (repeat 0 16) zone) else
  match parseGroups 9 s [] (if leading then Some 0%nat else None) with
  | Some (ip, ellipsis, []) => (fun ip => Addr6 ip zone) <$> expandEllipsis ip ellipsis
  | _ => None
  end.

(** The first of [.], [:] and [%] decides. *)
Fixpoint ParseAddrFrom (text s : list Z) : option Addr :=
  match s with
  | [] => None
  | c :: s =>
      if c =? 46 then Addr4 <$> parseIPv4 text
      else if c =? 58 then parseIPv6 text
      else if c =? 37 then None
      else ParseAddrFrom text s
  end.

Definition ParseAddr (text : list Z) : option Addr := ParseAddrFrom text text.

Example parse_1 : ParseAddr (bs "127.0.0.1") = Some (Addr4 [127; 0; 0; 1]).
Proof. reflexivity. Qed.
Example parse_2 : ParseAddr (bs "::1") = Some (Addr6 (repeat 0 15 ++ [1]) []).
Proof. reflexivity. Qed.
Example parse_3 : ParseAddr (bs "127.0.0.01") = None.
Proof. reflexivity. Qed.
Example parse_4 : ParseAddr (bs "2001:db8::ffff:1.2.3.4%eth0") =
  Some (Addr6 [32; 1; 13; 184; 0; 0; 0; 0; 0; 0; 255; 255; 1; 2; 3; 4] (bs "eth0")).
Proof. reflexivity. Qed.
Example parse_5 : ParseAddr (bs "1:2:3:4:5:6:7::") = Some (Addr6 [0; 1; 0; 2; 0; 3; 0; 4; 0; 5; 0; 6; 0; 7; 0; 0] []).
Proof. reflexivity. Qed.
Example parse_6 : ParseAddr (bs "1:2:3:4:5:6:7:8:9") = None.
Proof. reflexivity. Qed.

(** * The upstream client *)

Definition absoluteMaxUpstreamEndpointBytes : Z := 4096.
Definition absoluteMaxUpstreamConnections : Z := 4096.
Definition absoluteMaxResponseHeaderBytes : Z := 1048576.
Definition absoluteMaxTransportTimeout : Z := time_Hour.
Definition upstreamUserAgent : list Z := bs "ssemaphore".

Record HTTPUpstreamConfig := mkUpstreamConfig {
  uc_Endpoint : list Z;
  uc_ConnectTimeout : Z;
  uc_TLSHandshakeTimeout : Z;
  uc_ResponseHeaderTimeout : Z;
  uc_IdleConnectionTimeout : Z;
  uc_MaxResponseHeaderBytes : Z;
  uc_MaxConnections : Z;
}.

(** The fields of [url.URL] that the endpoint's validation looks at. *)
Record parsedURL := mkParsedURL {
  pu_Scheme : list Z;
  pu_Opaque : list Z;
  pu_User : bool;
  pu_Host : list Z;
  pu_Path : list Z;
  pu_RawPath : list Z;
  pu_ForceQuery : bool;
  pu_RawQuery : list Z;
  pu_Fragment : list Z;
  pu_RawFragment : list Z;
}.

(** [URL.Hostname] and [URL.Port]: the host is split at its last colon when a
    port of digits follows, and freed of brackets. *)
Definition validOptionalPort (port : list Z) : bool :=
  match port with [] => true | c :: digits => (c =? c_colon) && forallb is_digit digits end.

Fixpoint lastColon (host : list Z) : option (list Z * list Z) :=
  match host with
  | [] => None
  | c :: host =>
      match lastColon host with
      | Some (a, b) => Some (c :: a, b)
      | None => if c =? c_colon then Some ([], c :: host) else None
      end
  end.

Definition splitHostPort (hostPort : list Z) : list Z * list Z :=
  let '(host, port) :=
    match lastColon hostPort with
    | Some (a, b) => if validOptionalPort b then (a, drop 1 b) else (hostPort, [])
    | None => (hostPort, [])
    end in
  match host with
  | 91 :: inner =>
      if bool_decide (last inner = Some 93) then (removelast inner, port) else (host, port)
  | _ => (host, port)
  end.

Definition Hostname (u : parsedURL) : list Z := fst (splitHostPort (pu_Host u)).
Definition Port (u : parsedURL) : list Z := snd (splitHostPort (pu_Host u)).

Inductive upstreamConfigError :=
| UEEndpointBounds | UEEndpointInvalid | UEScheme | UENotAbsolute | UEAuthority | UEComponents | UEPath | UEPlaintext
| UECredential | UETimeout (name : string) | UEHeaderBytes | UEConnections.

Definition asciiAlphaNumeric (value : Z) : bool := between 97 122 value || between 65 90 value || between 48 57 value.

Definition validLabel (label : list Z) : bool :=
  match label with
  | [] => false
  | first :: rest =>
      negb (63 <? Z.of_nat (length label)) && asciiAlphaNumeric first
      && asciiAlphaNumeric (List.last label 0)
      && forallb (fun c => asciiAlphaNumeric c || (c =? c_minus)) (removelast rest)
  end.

Definition validUpstreamHostname (hostname : list Z) : bool :=
  match ParseAddr hostname with
  | Some address => bool_decide (Zone address = [])
  | None =>
      if bool_decide (hostname = []) || (253 <? Z.of_nat (length hostname))
         || bool_decide (last hostname = Some 46)
      then false
      else forallb validLabel (splitOn 46 hostname)
  end.

(** [strconv.ParseUint(port, 10, 16)] *)
Definition parsePort (port : list Z) : option Z :=
  match parseUint port with
  | Some n => if n <? 65536 then Some n else None
  | None => None
  end.

Definition validateTransportTimeout (name : string) (value : Z) : result upstreamConfigError unit :=
  guard_err ((value <=? 0) || (absoluteMaxTransportTimeout <? value)) (UETimeout name).

(** ** [net/http]'s client *)

(** A request; its header is a list of names and values, [ob_GetBody] is whether the body
    can be had again, and [ob_Value] are the values of its context. *)
Record outboundRequest := mkOutbound {
  ob_Method : list Z;
  ob_URL : list Z;
  ob_Header : list (list Z * list Z);
  ob_ContentLength : Z;
  ob_Body : option requestBodyReader;
  ob_GetBody : bool;
  ob_Value : Z -> option Z;
}.

(** [net.Dialer] *)
Record netDialer := mkDialer { nd_Timeout : Z; nd_KeepAlive : Z; nd_FallbackDelay : Z }.

(** [http.Transport]; [ht_Proxy] chooses a proxy for a request. *)
Record httpTransport := mkTransport {
  ht_Proxy : option (outboundRequest -> option (list Z));
  ht_Dialer : netDialer;
  ht_TLSMinVersion : Z;
  ht_TLSHandshakeTimeout : Z;
  ht_DisableCompression : bool;
  ht_MaxIdleConns : Z;
  ht_MaxIdleConnsPerHost : Z;
  ht_MaxConnsPerHost : Z;
  ht_IdleConnTimeout : Z;
  ht_ResponseHeaderTimeout : Z;
  ht_ExpectContinueTimeout : Z;
  ht_MaxResponseHeaderBytes : Z;
  ht_HTTP1 : bool;
  ht_HTTP2 : bool;
}.

(** What [CheckRedirect] says of a next request and those before: to send it, to be
    content with the last response ([http.ErrUseLastResponse]), or another error. *)
Inductive redirectVerdict := redirectFollow | redirectUseLast | redirectRefuse.

(** [http.Client]; it has no cookies and no timeout of its own. *)
Record httpClient := mkClient {
  hc_Transport : httpTransport;
  hc_CheckRedirect : option (outboundRequest -> list outboundRequest -> redirectVerdict);
}.

(** A request that went out, and the proxy that it went to, if not to its own host. *)
Record sentRequest := mkSent { sr_request : outboundRequest; sr_proxy : option (list Z) }.

(** How sending fails: with nothing written, because the server closed the connection,
    with a body that an HTTP/2 server has left unread, or otherwise; whether on a
    connection that was used before, and whether by a timeout. *)
Inductive failureKind := nothingWritten | serverClosed | bodyUnread | otherFailure.
Record attemptFailure := mkFailure { af_reused : bool; af_kind : failureKind; af_timeout : bool }.

(** What comes back: a response with its [Location], or a failure. *)
Inductive attemptAnswer :=
| attemptResponse (response : UpstreamResponse) (location : list Z)
| attemptFailed (f : attemptFailure).

(** [Request.outgoingLength] and [Request.isReplayable] *)
Definition outgoingLength (r : outboundRequest) : Z :=
  match ob_Body r with None => 0 | Some _ => if ob_ContentLength r =? 0 then -1 else ob_ContentLength r end.
Definition isReplayable (r : outboundRequest) : bool :=
  (bool_decide (ob_Body r = None) || ob_GetBody r)
  && (bool_decide (ob_Method r ∈ map bs ["GET"; "HEAD"; "OPTIONS"; "TRACE"])
      || existsb (fun h => bool_decide (fst h = bs "Idempotency-Key") || bool_decide (fst h = bs "X-Idempotency-Key")) (ob_Header r)).

(** [persistConn.shouldRetryRequest], and that of HTTP/2. *)
Definition shouldRetryRequest (transport : httpTransport) (r : outboundRequest) (f : attemptFailure) : bool :=
  match af_kind f with
  | nothingWritten => af_reused f && ((outgoingLength r =? 0) || ob_GetBody r)
  | serverClosed => af_reused f && isReplayable r
  | bodyUnread => ht_HTTP2 transport
  | otherFailure => false
  end.

(** [redirectBehavior]: whether a response redirects, and with which method and whether
    with the body of the first request. *)
Definition redirectBehavior (method : list Z) (status : Z) (first : outboundRequest) : option (list Z * bool) :=
  if (status =? 301) || (status =? 302) || (status =? 303)
  then Some (if bool_decide (method = bs "GET") || bool_decide (method = bs "HEAD") then method else bs "GET", false)
  else if (status =? 307) || (status =? 308)
  then if negb (ob_GetBody first) && negb (outgoingLength first =? 0) then None else Some (method, true)
  else None.

(** [Client.checkRedirect]: ten redirects where the client does not say. *)
Definition checkRedirect (client : httpClient) (next : outboundRequest) (via : list outboundRequest) : redirectVerdict :=
  match hc_CheckRedirect client with
  | Some check => check next via
  | None => if (10 <=? length via)%nat then redirectRefuse else redirectFollow
  end.

(** What [client.Do] answers: a response with or without a body, and an error
    that says whether it is a timeout. *)
Record doAnswer := mkDoAnswer { da_response : option UpstreamResponse; da_err : option bool }.

(** The network answers a request after all that was sent before; [resolve] reads a
    [Location] against the URL of the request, and [redirected] makes the next request of
    the first one, a method, a URL, and whether it has the body. *)
Section exchange.
Context (attempt : list sentRequest -> sentRequest -> attemptAnswer).
Context (resolve : list Z -> list Z -> option (list Z)).
Context (redirected : outboundRequest -> list Z -> list Z -> bool -> outboundRequest).

(** [Transport.roundTrip], with what was sent so far. *)
Fixpoint roundTrip (fuel : nat) (transport : httpTransport) (r : outboundRequest) (sent : list sentRequest)
    : comp (attemptAnswer * list sentRequest) :=
  match fuel with
  | O => OutOfFuel
  | S fuel =>
      let out := mkSent r (match ht_Proxy transport with Some proxy => proxy r | None => None end) in
      match attempt sent out with
      | attemptFailed f =>
          if shouldRetryRequest transport r f then roundTrip fuel transport r (sent ++ [out])
          else Done (attemptFailed f, sent ++ [out])
      | answer => Done (answer, sent ++ [out])
      end
  end.

(** The loop of [Client.do]: [via] are the requests before this one. *)
Fixpoint doLoop (fuel : nat) (client : httpClient) (via : list outboundRequest) (r : outboundRequest) (sent : list sentRequest)
    : comp (doAnswer * list sentRequest) :=
  match fuel with
  | O => OutOfFuel
  | S fuel' =>
      match roundTrip fuel (hc_Transport client) r sent with
      | Panicked msg => Panicked msg
      | OutOfFuel => OutOfFuel
      | Done (attemptFailed f, sent) => Done (mkDoAnswer None (Some (af_timeout f)), sent)
      | Done (attemptResponse response location, sent) =>
          let first := default r (head via) in
          match redirectBehavior (ob_Method r) (ur_StatusCode response) first with
          | None => Done (mkDoAnswer (Some response) None, sent)
          | Some (method, includeBody) =>
              if bool_decide (location = []) then Done (mkDoAnswer (Some response) None, sent) else
              match resolve (ob_URL r) location with
              | None => Done (mkDoAnswer None (Some false), sent)
              | Some url =>
                  let next := redirected first method url includeBody in
                  match checkRedirect client next (via ++ [r]) with
                  | redirectUseLast => Done (mkDoAnswer (Some response) None, sent)
                  | redirectRefuse => Done (mkDoAnswer (Some response) (Some false), sent)
                  | redirectFollow => doLoop fuel' client (via ++ [r]) next sent
                  end
              end
          end
      end
  end.

(** Enough for the ten redirects that a client follows by itself. *)
Definition exchangeFuel : nat := 12.
Definition client_Do (client : httpClient) (r : outboundRequest) : comp (doAnswer * list sentRequest) :=
  doLoop exchangeFuel client [] r [].
End exchange.

(** ** The client *)

Definition tls_VersionTLS12 : Z := 771.

Definition upstreamDialer (config : HTTPUpstreamConfig) : netDialer :=
  mkDialer (uc_ConnectTimeout config) (30 * time_Second) (-1).

Definition upstreamTransport (config : HTTPUpstreamConfig) : httpTransport :=
  let connectionLimit := int64 (uc_MaxConnections config) in
  mkTransport None (upstreamDialer config) tls_VersionTLS12 (uc_TLSHandshakeTimeout config) true
    connectionLimit connectionLimit connectionLimit (uc_IdleConnectionTimeout config)
    (uc_ResponseHeaderTimeout config) time_Second (uc_MaxResponseHeaderBytes config) true false.

Definition upstreamClient (config : HTTPUpstreamConfig) : httpClient :=
  mkClient (upstreamTransport config) (Some (fun _ _ => redirectUseLast)).

(** [HTTPUpstream]; its transport is that of its client. *)
Record HTTPUpstream := mkHTTPUpstream {
  hu_endpoint : list Z;
  hu_authorization : list Z;
  hu_client : httpClient;
  hu_dialer : netDialer;
  hu_transport : httpTransport;
}.

Section Upstream.
Context (urlParse : list Z -> option parsedURL) (urlString : parsedURL -> list Z).

Definition validateUpstreamEndpoint (value : list Z) : result upstreamConfigError (list Z) :=
  _ ← guard_err (bool_decide (value = []) || (absoluteMaxUpstreamEndpointBytes <? Z.of_nat (length value)))
        UEEndpointBounds;
  match urlParse value with
  | None => Err UEEndpointInvalid
  | Some parsed =>
      let parsed := mkParsedURL (map lower (pu_Scheme parsed)) (pu_Opaque parsed) (pu_User parsed) (pu_Host parsed)
        (pu_Path parsed) (pu_RawPath parsed) (pu_ForceQuery parsed) (pu_RawQuery parsed) (pu_Fragment parsed)
        (pu_RawFragment parsed) in
      _ ← guard_err (negb (bool_decide (pu_Scheme parsed = bs "http"))
                     && negb (bool_decide (pu_Scheme parsed = bs "https"))) UEScheme;
      _ ← guard_err (bool_decide (pu_Scheme parsed = []) || negb (bool_decide (pu_Opaque parsed = []))
                     || bool_decide (pu_Host parsed = []) || bool_decide (Hostname parsed = [])) UENotAbsolute;
      _ ← guard_err (negb (validUpstreamHostname (Hostname parsed))
                     || bool_decide (last (pu_Host parsed) = Some c_colon)) UEAuthority;
      _ ← (if bool_decide (Port parsed = []) then Ok tt else
           match parsePort (Port parsed) with
           | None => Err UEAuthority
           | Some portNumber => guard_err (portNumber =? 0) UEAuthority
           end);
      _ ← guard_err (pu_User parsed || negb (bool_decide (pu_RawQuery parsed = [])) || pu_ForceQuery parsed
                     || negb (bool_decide (pu_Fragment parsed = []))
                     || negb (bool_decide (pu_RawFragment parsed = []))) UEComponents;
      _ ← guard_err (negb (bool_decide (pu_RawPath parsed = []))
                     || negb (bool_decide (pu_Path parsed = chatCompletionsPath))) UEPath;
      _ ← (if bool_decide (pu_Scheme parsed = bs "http") then
             match ParseAddr (Hostname parsed) with
             | None => Err UEPlaintext
             | Some address =>
                 guard_err (negb (bool_decide (Zone address = [])) || negb (IsLoopback address)) UEPlaintext
             end
           else Ok tt);
      Ok (urlString parsed)
  end.

Definition NewHTTPUpstream (config : HTTPUpstreamConfig) (bearerToken : list Z)
  : result upstreamConfigError HTTPUpstream :=
  endpoint ← validateUpstreamEndpoint (uc_Endpoint config);
  _ ← guard_err (negb (validBearerToken bearerToken)) UECredential;
  _ ← validateTransportTimeout "connect" (uc_ConnectTimeout config);
  _ ← validateTransportTimeout "TLS handshake" (uc_TLSHandshakeTimeout config);
  _ ← validateTransportTimeout "response header" (uc_ResponseHeaderTimeout config);
  _ ← validateTransportTimeout "idle connection" (uc_IdleConnectionTimeout config);
  _ ← guard_err ((uc_MaxResponseHeaderBytes config <=? 0)
                 || (absoluteMaxResponseHeaderBytes <? uc_MaxResponseHeaderBytes config)) UEHeaderBytes;
  _ ← guard_err ((uc_MaxConnections config =? 0)
                 || (absoluteMaxUpstreamConnections <? uc_MaxConnections config)) UEConnections;
  Ok (mkHTTPUpstream endpoint (bs "Bearer " ++ bearerToken) (upstreamClient config) (upstreamDialer config) (upstreamTransport config)).
End Upstream.

(** ** [Complete] *)

(** What the caller's context says when [Complete] is called, and when its
    transport has failed; whether it has a deadline; and its values. *)
Record completeContext := mkCompleteContext {
  cc_nil : bool;
  cc_errFirst : option ctxError;
  cc_hasDeadline : bool;
  cc_errLast : option ctxError;
  cc_Value : Z -> option Z;
}.

(** [upstreamTransportContext.Value]: the transport sees no value of the caller's context. *)
Definition transportValue (_ : completeContext) (_ : Z) : option Z := None.

Inductive completeError :=
| errUpstreamDeadlineRequired | errUpstreamRequestInvalid | errUpstreamRequestFailed
| CompleteTimeout | CompleteContext (e : ctxError).

Definition classifyUpstreamRequestError (ctxErr : option ctxError) (timeout : bool) : completeError :=
  match ctxErr with
  | Some e => CompleteContext e
  | None => if timeout then CompleteTimeout else errUpstreamRequestFailed
  end.

(** The request that is sent; it has no header but these, and cannot be replayed. *)
Definition outbound_of (u : HTTPUpstream) (ctx : completeContext) (request : Request) : outboundRequest :=
  mkOutbound (bs "POST") (hu_endpoint u)
    [(bs "Accept", match req_mode request with
                   | RequestModeStreaming => bs "text/event-stream"
                   | RequestModeNonStreaming => bs "application/json"
                   end);
     (bs "Authorization", hu_authorization u);
     (bs "Content-Type", bs "application/json");
     (bs "User-Agent", upstreamUserAgent)]
    (int64 (req_bodyBytes request)) (Some (BodyReader request)) false (transportValue ctx).

(** What the handler tells apart of an error: [errors.Is(err, ErrUpstreamTimeout)]. *)
Definition handler_view (e : completeError) : upstreamError :=
  match e with CompleteTimeout => ErrUpstreamTimeout | _ => ErrUpstreamOther end.

(** [newRequest] says whether [http.NewRequestWithContext] takes the request.  Answered are
    the result, the requests that were sent and whether a response body that came with an
    error was closed. *)
Definition Complete (newRequest : list Z -> bool) (attempt : list sentRequest -> sentRequest -> attemptAnswer)
    (resolve : list Z -> list Z -> option (list Z)) (redirected : outboundRequest -> list Z -> list Z -> bool -> outboundRequest)
    (u : HTTPUpstream) (ctx : completeContext) (request : Request)
  : comp (result completeError UpstreamResponse * list sentRequest * bool) :=
  if cc_nil ctx then Done (Err errUpstreamDeadlineRequired, [], false) else
  match cc_errFirst ctx with
  | Some e => Done (Err (CompleteContext e), [], false)
  | None =>
      if negb (cc_hasDeadline ctx) then Done (Err errUpstreamDeadlineRequired, [], false)
      else if req_bodyBytes request =? 0 then Done (Err errUpstreamRequestInvalid, [], false)
      else if negb (newRequest (hu_endpoint u)) then Done (Err errUpstreamRequestInvalid, [], false)
      else
        match client_Do attempt resolve redirected (hu_client u) (outbound_of u ctx request) with
        | Panicked msg => Panicked msg
        | OutOfFuel => OutOfFuel
        | Done (answer, sent) =>
            match da_err answer, da_response answer with
            | Some timeout, response =>
                Done (Err (classifyUpstreamRequestError (cc_errLast ctx) timeout), sent,
                      match response with Some r => hasBody r | None => false end)
            | None, Some response => Done (Ok response, sent, false)
            | None, None => Panicked "nil pointer dereference"
            end
        end
  end.

(** ** Lemmas *)

(** A destination is https, or plain http to a numeric loopback address. *)
Definition safe_endpoint (parsed : parsedURL) : Prop :=
  (map lower (pu_Scheme parsed) = bs "https" \/
   (map lower (pu_Scheme parsed) = bs "http" /\
    exists address, ParseAddr (Hostname parsed) = Some address /\ Zone address = [] /\ IsLoopback address = true)) /\
  validUpstreamHostname (Hostname parsed) = true /\
  pu_Path parsed = chatCompletionsPath /\ pu_RawPath parsed = [] /\ pu_RawQuery parsed = [] /\
  pu_User parsed = false /\ pu_Fragment parsed = [].

(** The client of an upstream, and the bounds that its configuration has passed. *)
Definition made_for (config : HTTPUpstreamConfig) (u : HTTPUpstream) : Prop :=
  hu_client u = upstreamClient config /\ hu_transport u = upstreamTransport config
  /\ (0 < uc_ConnectTimeout config <= absoluteMaxTransportTimeout)
  /\ (0 < uc_TLSHandshakeTimeout config <= absoluteMaxTransportTimeout)
  /\ (0 < uc_ResponseHeaderTimeout config <= absoluteMaxTransportTimeout)
  /\ (0 < uc_IdleConnectionTimeout config <= absoluteMaxTransportTimeout)
  /\ (0 < uc_MaxResponseHeaderBytes config <= absoluteMaxResponseHeaderBytes)
  /\ (uc_MaxConnections config <> 0 /\ uc_MaxConnections config <= absoluteMaxUpstreamConnections).

(** No phase of an exchange is without a bound (to [net/http] a bound of 0 is none), and
    TLS has version 1.2 at least. *)
Definition bounded_client (client : httpClient) : Prop :=
  let transport := hc_Transport client in
  tls_VersionTLS12 <= ht_TLSMinVersion transport
  /\ (0 < nd_Timeout (ht_Dialer transport) <= absoluteMaxTransportTimeout)
  /\ (0 < ht_TLSHandshakeTimeout transport <= absoluteMaxTransportTimeout)
  /\ (0 < ht_ResponseHeaderTimeout transport <= absoluteMaxTransportTimeout)
  /\ (0 < ht_IdleConnTimeout transport <= absoluteMaxTransportTimeout)
  /\ (0 < ht_MaxResponseHeaderBytes transport <= absoluteMaxResponseHeaderBytes)
  /\ (0 < ht_MaxConnsPerHost transport <= absoluteMaxUpstreamConnections)
  /\ (0 < ht_MaxIdleConns transport <= absoluteMaxUpstreamConnections).

Lemma made_bounded config u : 0 <= uc_MaxConnections config -> made_for config u -> bounded_client (hu_client u).
Proof.
  intros Hn (-> & _ & H1 & H2 & H3 & H4 & H5 & H6). unfold bounded_client, upstreamClient, upstreamTransport, upstreamDialer.
  cbn [hc_Transport ht_TLSMinVersion ht_Dialer nd_Timeout ht_TLSHandshakeTimeout ht_ResponseHeaderTimeout ht_IdleConnTimeout
    ht_MaxResponseHeaderBytes ht_MaxConnsPerHost ht_MaxIdleConns].
  assert (Hi : int64 (uc_MaxConnections config) = uc_MaxConnections config).
  { unfold int64, u64, absoluteMaxUpstreamConnections in *. rewrite Z.mod_small by (unfold two64; lia).
    rewrite (proj2 (Z.ltb_lt _ _)) by (unfold two63; lia). reflexivity. }
  rewrite Hi. split_and!; try apply H1; try apply H2; try apply H3; try apply H4; try apply H5; unfold tls_VersionTLS12; lia.
Qed.

Section lemmas.
Context (urlParse : list Z -> option parsedURL) (urlString : parsedURL -> list Z).

Lemma validateUpstreamEndpoint_Ok value endpoint :
  validateUpstreamEndpoint urlParse urlString value = Ok endpoint ->
  exists parsed, urlParse value = Some parsed /\ safe_endpoint parsed.
Proof.
  unfold validateUpstreamEndpoint. rewrite guard_err_Ok. intros [_ H].
  destruct (urlParse value) as [parsed|]; [|done]. exists parsed. split; [done|].
  cbn zeta in H. cbn [pu_Scheme pu_Opaque pu_User pu_Host pu_Path pu_RawPath pu_ForceQuery pu_RawQuery pu_Fragment
    pu_RawFragment] in H.
  rewrite guard_err_Ok in H. destruct H as [Hscheme H]. rewrite guard_err_Ok in H. destruct H as [_ H].
  rewrite guard_err_Ok in H. destruct H as [Hhost H].
  apply result_bind_Ok in H as (_ & _ & H). rewrite guard_err_Ok in H. destruct H as [Hcomp H].
  rewrite guard_err_Ok in H. destruct H as [Hpath H]. apply result_bind_Ok in H as ([] & Hplain & _).
  breflect. unfold Hostname in *. cbn [pu_Host] in *.
  unfold safe_endpoint, Hostname. split_and!; try done.
  destruct Hscheme as [Hs|Hs]; breflect.
  - right. split; [done|]. rewrite Hs, bool_decide_eq_true_2 in Hplain by done.
    destruct (ParseAddr _) as [address|]; [|done]. unfold guard_err in Hplain.
    destruct (negb _ || _) eqn:Ha; [done|]. breflect. by exists address.
  - by left.
Qed.

Lemma NewHTTPUpstream_Ok config token u :
  NewHTTPUpstream urlParse urlString config token = Ok u ->
  exists parsed, urlParse (uc_Endpoint config) = Some parsed /\ safe_endpoint parsed /\
    validBearerToken token = true /\ hu_authorization u = bs "Bearer " ++ token /\ made_for config u /\
    validateUpstreamEndpoint urlParse urlString (uc_Endpoint config) = Ok (hu_endpoint u).
Proof.
  unfold NewHTTPUpstream. intros H. apply result_bind_Ok in H as (endpoint & He & H).
  rewrite guard_err_Ok in H. destruct H as [Ht H]. unfold validateTransportTimeout in H.
  rewrite !guard_err_Ok in H. destruct H as (H1 & H2 & H3 & H4 & H5 & H6 & [= <-]).
  pose proof He as (parsed & Hp & Hs)%validateUpstreamEndpoint_Ok. apply negb_false_iff in Ht.
  exists parsed. split_and!; try done. breflect. by split_and!.
Qed.

(** The credential decides nothing but its own test. *)
Lemma NewHTTPUpstream_token config token token' :
  validBearerToken token' = true ->
  is_Some (match NewHTTPUpstream urlParse urlString config token with Ok u => Some u | Err _ => None end) ->
  exists u, NewHTTPUpstream urlParse urlString config token' = Ok u.
Proof.
  intros Ht'. destruct (NewHTTPUpstream _ _ config token) as [u|e] eqn:H; [|by intros [? ?]]. intros _.
  unfold NewHTTPUpstream in *. apply result_bind_Ok in H as (endpoint & -> & H).
  rewrite guard_err_Ok in H. destruct H as [_ H]. cbn [mbind result_bind]. rewrite Ht'. cbn [negb guard_err mbind result_bind].
  unfold validateTransportTimeout in *. rewrite !guard_err_Ok in H.
  destruct H as (H1 & H2 & H3 & H4 & H5 & H6 & _). eexists. rewrite !guard_err_Ok. eauto 10.
Qed.
End lemmas.

(** ** What one call of [Complete] does *)

Section completes.
Context (attempt : list sentRequest -> sentRequest -> attemptAnswer).
Context (resolve : list Z -> list Z -> option (list Z)).
Context (redirected : outboundRequest -> list Z -> list Z -> bool -> outboundRequest).

(** What comes of the one attempt: a failure, or the response, even one that redirects,
    but for a redirect whose [Location] is no URL. *)
Definition answered_as (ctx : completeContext) (outbound : outboundRequest) (r : result completeError UpstreamResponse) : Prop :=
  match attempt [] (mkSent outbound None) with
  | attemptFailed f => r = Err (classifyUpstreamRequestError (cc_errLast ctx) (af_timeout f))
  | attemptResponse response location =>
      if bool_decide (ur_StatusCode response ∈ [301; 302; 303]) && negb (bool_decide (location = []))
         && bool_decide (resolve (ob_URL outbound) location = None)
      then r = Err (classifyUpstreamRequestError (cc_errLast ctx) false) else r = Ok response
  end.

(** A request with a body that cannot be had again is not retried without HTTP/2. *)
Lemma not_retried transport r f : ht_HTTP2 transport = false -> ob_GetBody r = false -> is_Some (ob_Body r) ->
  shouldRetryRequest transport r f = false.
Proof.
  intros H2 Hg [body Hb]. unfold shouldRetryRequest, isReplayable, outgoingLength. rewrite H2, Hg, Hb.
  destruct (af_kind f); [|by rewrite andb_false_r|done..].
  destruct (Z.eqb_spec (ob_ContentLength r) 0) as [|Hn]; [by rewrite andb_false_r|].
  by rewrite (proj2 (Z.eqb_neq _ _) Hn), andb_false_r.
Qed.

(** The client of the upstream sends such a request once, and directly. *)
Lemma client_once config r : ob_GetBody r = false -> is_Some (ob_Body r) ->
  exists answer, client_Do attempt resolve redirected (upstreamClient config) r = Done (answer, [mkSent r None])
  /\ match attempt [] (mkSent r None) with
     | attemptFailed f => answer = mkDoAnswer None (Some (af_timeout f))
     | attemptResponse response location =>
         if bool_decide (ur_StatusCode response ∈ [301; 302; 303]) && negb (bool_decide (location = []))
            && bool_decide (resolve (ob_URL r) location = None)
         then answer = mkDoAnswer None (Some false) else answer = mkDoAnswer (Some response) None
     end.
Proof.
  intros Hg Hb. unfold client_Do. change exchangeFuel with (S 11). generalize 11%nat as fuel. intros fuel. cbn [doLoop roundTrip]. cbn [upstreamClient upstreamTransport hc_Transport ht_Proxy].
  destruct (attempt [] (mkSent r None)) as [response location|f].
  2: { rewrite not_retried by done. eexists. split; reflexivity. }
  cbn [head default]. unfold redirectBehavior. rewrite Hg. cbn [negb andb].
  assert (Ho : (outgoingLength r =? 0) = false).
  { unfold outgoingLength. destruct Hb as [body ->]. destruct (Z.eqb_spec (ob_ContentLength r) 0); [done|by apply Z.eqb_neq]. }
  rewrite Ho. cbn [negb]. set (status := ur_StatusCode response).
  assert (Hs : (status =? 301) || (status =? 302) || (status =? 303) = bool_decide (status ∈ [301; 302; 303])).
  { apply eq_true_iff_eq. rewrite bool_decide_eq_true, !orb_true_iff, !Z.eqb_eq, !elem_of_cons, elem_of_nil. tauto. }
  rewrite Hs. destruct (bool_decide (status ∈ [301; 302; 303])); cbn [andb].
  2: { destruct ((status =? 307) || (status =? 308)); eexists; split; reflexivity. }
  destruct (bool_decide (location = [])); cbn [negb andb]; [eexists; split; reflexivity|].
  destruct (resolve (ob_URL r) location) as [url|]; [|eexists; split; reflexivity].
  unfold checkRedirect. cbn [upstreamClient hc_CheckRedirect]. eexists. split; reflexivity.
Qed.

Lemma Complete_Done newRequest config u ctx request : hu_client u = upstreamClient config ->
  exists r sent, Complete newRequest attempt resolve redirected u ctx request = Done (r, sent, false)
  /\ (sent = [] /\ (exists e, r = Err e)
      \/ sent = [mkSent (outbound_of u ctx request) None] /\ cc_errFirst ctx = None /\ cc_hasDeadline ctx = true
         /\ req_bodyBytes request <> 0 /\ answered_as ctx (outbound_of u ctx request) r).
Proof.
  intros Hu. unfold Complete, answered_as. destruct (cc_nil ctx); [eexists _, []; eauto|].
  destruct (cc_errFirst ctx) as [e|]; [eexists _, []; eauto|]. destruct (cc_hasDeadline ctx); cbn [negb]; [|eexists _, []; eauto].
  destruct (Z.eqb_spec (req_bodyBytes request) 0) as [|Hn]; [eexists _, []; eauto|].
  destruct (newRequest (hu_endpoint u)); cbn [negb]; [|eexists _, []; eauto]. rewrite Hu.
  destruct (client_once config (outbound_of u ctx request)) as (answer & Hrun & Ha); [done|by eexists|]. rewrite Hrun.
  destruct (attempt [] _) as [response location|f]; [|subst answer; eexists _, _; split; [reflexivity|right; by split_and!]].
  match goal with H : if ?b then _ else _ |- _ => destruct b end; subst answer; (eexists _, _; split; [reflexivity|right; by split_and!]).
Qed.
End completes.
