(* ===== verification/AppJson.v ===== *)
(** * Decoding the policy file

    Package [app], [json.go]: the strict scan of the text, the check that every
    member of an object is, letter for letter, a field of the Go type it is
    decoded into, and the typed decoding. Go types are descriptions
    ([gotype]) that [reflect] and [encoding/json] would read off the structs. *)

From S2P Require Import Prelude.
From S2P Require Import GoJson.
From S2P Require Import JsonGrammar.
From S2P Require Import HttpConfig.

Definition maxPolicyBytes : Z := 1048576.
Definition maxPolicyDepth : Z := 32.

(** ** The scan *)

Definition dec_Token : M Decoder (result jsonError token) := fun d => Done (Token d).

(** The closing token of an object or an array. *)
Definition policyClosing (c : Z) : M Decoder bool :=
  closing ← dec_Token;
  mret match closing with
       | Ok (TDelim d) => d =? c
       | _ => false
       end.

Fixpoint scanPolicyValue (fuel : nat) (depth : Z) : M Decoder bool :=
  match fuel with
  | O => no_fuel
  | S fuel' =>
      if maxPolicyDepth <? depth then mret false else
      token ← dec_Token;
      match token with
      | Err _ => mret false
      | Ok (TDelim delimiter) =>
          if delimiter =? c_lbrace then scanPolicyObject fuel' depth ∅
          else if delimiter =? c_lbracket then scanPolicyArray fuel' depth
          else mret false
      | Ok _ => mret true
      end
  end
with scanPolicyObject (fuel : nat) (depth : Z) (keys : gset (list Z)) : M Decoder bool :=
  match fuel with
  | O => no_fuel
  | S fuel' =>
      if maxPolicyDepth <? depth then mret false else
      more ← gets More;
      if (more : bool) then
        keyToken ← dec_Token;
        match keyToken with
        | Ok (TString key) =>
            if bool_decide (key ∈ keys) then mret false else
            ok ← scanPolicyValue fuel' (depth + 1);
            if negb ok then mret false else scanPolicyObject fuel' depth ({[key]} ∪ keys)
        | _ => mret false
        end
      else policyClosing c_rbrace
  end
with scanPolicyArray (fuel : nat) (depth : Z) : M Decoder bool :=
  match fuel with
  | O => no_fuel
  | S fuel' =>
      if maxPolicyDepth <? depth then mret false else
      more ← gets More;
      if (more : bool) then
        ok ← scanPolicyValue fuel' (depth + 1);
        if negb ok then mret false else scanPolicyArray fuel' depth
      else policyClosing c_rbracket
  end.

(** Every call of the scan and every two turns of a loop consume a byte. *)
Definition policyFuel (data : list Z) : nat := (2 * length data + 2)%nat.

(** The first pass of [decodePolicyJSON]: one object and nothing after it. *)
Definition scanPolicyDocument (data : list Z) : comp bool :=
  match Token (newDecoder data) with
  | (Ok opening, d) =>
      if negb (bool_decide (opening = TDelim c_lbrace)) then Done false else
      match scanPolicyObject (policyFuel data) 1 ∅ d with
      | Done (true, d') => Done match Token d' with (Err jsonEOF, _) => true | _ => false end
      | Done (false, _) => Done false
      | Panicked e => Panicked e
      | OutOfFuel => OutOfFuel
      end
  | (Err _, _) => Done false
  end.

(** ** Unicode escapes, by index *)

Definition policyHexDigit (value digit : Z) : option Z :=
  let value := u16 (Z.shiftl value 4) in
  if between 48 57 digit then Some (Z.lor value (digit - 48))
  else if between 97 102 digit then Some (Z.lor value (digit - 97 + 10))
  else if between 65 70 digit then Some (Z.lor value (digit - 65 + 10))
  else None.

Definition decodePolicyHexQuad (data : list Z) (start : nat) : option Z :=
  if (Nat.ltb (length data) (start + 4)) then None else
  foldl (fun value digit => value ≫= fun v => policyHexDigit v digit) (Some 0) (take 4 (drop start data)).

(** [data[index]] of an index in range. *)
Definition at_ (data : list Z) (index : nat) : Z := default 0 (data !! index).

(** The loop; [index] grows in every turn. *)
Fixpoint policyEscapes (fuel : nat) (data : list Z) (inString : bool) (index : nat) : comp bool :=
  match fuel with
  | O => OutOfFuel
  | S fuel' =>
      if negb (Nat.ltb index (length data)) then Done true else
      let continue := policyEscapes fuel' data in
      if at_ data index =? c_quote then continue (negb inString) (index + 1)%nat
      else if at_ data index =? c_backslash then
        if negb inString then continue inString (index + 1)%nat else
        let index := (index + 1)%nat in
        if negb (Nat.ltb index (length data)) then Done true
        else if negb (at_ data index =? c_u) then continue inString (index + 1)%nat
        else match decodePolicyHexQuad data (index + 1) with
             | None => Done true
             | Some value =>
                 let index := (index + 4)%nat in
                 if (56320 <=? value) && (value <=? 57343) then Done false
                 else if (55296 <=? value) && (value <=? 56319) then
                   if negb (Nat.ltb (index + 6) (length data)) || negb (at_ data (index + 1) =? c_backslash)
                      || negb (at_ data (index + 2) =? c_u)
                   then Done false
                   else match decodePolicyHexQuad data (index + 3) with
                        | None => Done false
                        | Some low =>
                            if (low <? 56320) || (57343 <? low) then Done false
                            else continue inString (index + 7)%nat
                        end
                 else continue inString (index + 1)%nat
             end
      else continue inString (index + 1)%nat
  end.

Definition validPolicyUnicodeEscapes (data : list Z) : comp bool :=
  policyEscapes (S (length data)) data false 0.

(** ** Go types and values *)

(** A struct field: its name, its [json] tag, whether it is exported, whether it
    is embedded, and its type. *)
#[warnings="-register-all"]
Inductive gotype :=
| GString | GUint64 | GUint8 | GBool | GInterface
| GPointer (elem : gotype)
| GSlice (elem : gotype)
| GMap (stringKey : bool) (elem : gotype)
| GStruct (fields : list (list Z * list Z * bool * bool * gotype)).

Abbreviation gofield := (list Z * list Z * bool * bool * gotype)%type (only parsing).

(** An exported field with its tag. *)
Definition tagged (name tag : string) (t : gotype) : gofield := (bs name, bs tag, true, false, t).

Fixpoint stripPointers (t : gotype) : gotype :=
  match t with GPointer elem => stripPointers elem | t => t end.

(** [strings.Cut(tag, ",")]: what is before the first comma. *)
Fixpoint cutComma (tag : list Z) : list Z :=
  match tag with
  | [] => []
  | c :: tag => if c =? c_comma then [] else c :: cutComma tag
  end.

(** The name a field has in JSON, if it has one. *)
Definition jsonName (field : gofield) : option (list Z) :=
  let '(name, tag, exported, anonymous, _) := field in
  if negb exported || anonymous then None else
  let cut := cutComma tag in
  if bool_decide (cut = [45]) then None
  else if bool_decide (cut = []) then Some name else Some cut.

(** The map [fields] of the exact check; a later field replaces an earlier one. *)
Definition fieldTypes (fields : list gofield) : gmap (list Z) gotype :=
  foldl (fun m field => match jsonName field with Some n => <[n := snd field]> m | None => m end) ∅ fields.

Fixpoint exactPolicyJSONFields (value : jtree) (destinationType : gotype) : bool :=
  let t := stripPointers destinationType in
  match value, t with
  | JScalar TNull, _ | _, GInterface => true
  | JObj object, GStruct fields =>
      forallb (fun member =>
        match fieldTypes fields !! fst member with
        | Some fieldType => exactPolicyJSONFields (snd member) fieldType
        | None => false
        end) object
  | JArr _, GSlice GUint8 => true
  | JArr array, GSlice elem => forallb (fun member => exactPolicyJSONFields member elem) array
  | JObj object, GMap true elem => forallb (fun member => exactPolicyJSONFields (snd member) elem) object
  | _, _ => true
  end.

(** ** Decoding *)

(** [Decoder.Decode] into an [any], over the tokens of the value. *)
Fixpoint anyValue (fuel : nat) (d : Decoder) : option (jtree * Decoder) :=
  match fuel with
  | O => None
  | S fuel' =>
      match Token d with
      | (Ok (TDelim c), d) =>
          if c =? c_lbrace then '(object, d) ← anyMembers fuel' d; Some (JObj object, d)
          else if c =? c_lbracket then '(array, d) ← anyElements fuel' d; Some (JArr array, d)
          else None
      | (Ok t, d) => Some (JScalar t, d)
      | (Err _, _) => None
      end
  end
with anyMembers (fuel : nat) (d : Decoder) : option (list (list Z * jtree) * Decoder) :=
  match fuel with
  | O => None
  | S fuel' =>
      if More d then
        match Token d with
        | (Ok (TString key), d) =>
            '(value, d) ← anyValue fuel' d;
            '(object, d) ← anyMembers fuel' d;
            Some ((key, value) :: object, d)
        | _ => None
        end
      else match Token d with (Ok (TDelim 125), d) => Some ([], d) | _ => None end
  end
with anyElements (fuel : nat) (d : Decoder) : option (list jtree * Decoder) :=
  match fuel with
  | O => None
  | S fuel' =>
      if More d then
        '(value, d) ← anyValue fuel' d;
        '(array, d) ← anyElements fuel' d;
        Some (value :: array, d)
      else match Token d with (Ok (TDelim 93), d) => Some ([], d) | _ => None end
  end.

Definition decodeAny (data : list Z) : option (jtree * Decoder) :=
  anyValue (policyFuel data) (newDecoder data).

(** Values of the kinds the policy types are made of; a struct's in the order of
    its fields. *)
#[warnings="-register-all"]
Inductive govalue :=
| VString (s : list Z)
| VUint (n : Z)
| VBool (b : bool)
| VSlice (l : list govalue)
| VStruct (l : list govalue)
| VOther.

Fixpoint zero (t : gotype) : govalue :=
  match t with
  | GString => VString []
  | GUint64 => VUint 0
  | GBool => VBool false
  | GSlice _ => VSlice []
  | GStruct fields => VStruct (map (fun field => zero (snd field)) fields)
  | _ => VOther
  end.

(** The field a key goes to: the one of that very name, or else one whose name
    it matches without regard to case. *)
Definition names (p : list Z -> bool) (field : gofield) : bool :=
  match jsonName field with Some name => p name | None => false end.

Definition fieldIndex (fields : list gofield) (key : list Z) : option (nat * gofield) :=
  match list_find (fun field => names (fun name => bool_decide (key = name)) field = true) fields with
  | Some found => Some found
  | None => list_find (fun field => names (equalFold key) field = true) fields
  end.

(** Decoding a value into a fresh variable, with [DisallowUnknownFields]; the
    kinds that no policy type has are not modelled. *)
Fixpoint decodeTyped (t : gotype) (value : jtree) : option govalue :=
  match value, t with
  | JScalar TNull, t => Some (zero t)
  | JScalar (TString s), GString => Some (VString s)
  | JScalar (TNumber text), GUint64 => VUint <$> parseUint text
  | JScalar (TBool b), GBool => Some (VBool b)
  | JArr array, GSlice elem =>
      VSlice <$> foldr (fun member acc => l ← acc; v ← decodeTyped elem member; Some (v :: l)) (Some []) array
  | JObj object, GStruct fields =>
      VStruct <$> foldl (fun acc member =>
        l ← acc;
        '(i, field) ← fieldIndex fields (fst member);
        v ← decodeTyped (snd field) (snd member);
        Some (<[i := v]> l)) (Some (map (fun field => zero (snd field)) fields)) object
  | _, _ => None
  end.

Definition decodeInto (t : gotype) (data : list Z) : option (govalue * Decoder) :=
  '(value, d) ← decodeAny data;
  v ← decodeTyped t value;
  Some (v, d).

(** ** Decoding over a value

    Without a check of the names before it, one field can be met more than once, under
    keys that match it in different cases: then a value is decoded over the one before.
    A null leaves what is there, but for a pointer and a slice; a struct keeps the fields
    that it is not given; a slice is filled from its start again, each element over the
    one that its array still holds there. *)

(** What a variable holds; of a slice the length and the elements written to its array. *)
#[warnings="-register-all"]
Inductive cell :=
| CString (s : list Z)
| CUint (n : Z)
| CBool (b : bool)
| CPointer (target : option cell)
| CSlice (len : nat) (array : list cell)
| CStruct (fields : list cell)
| COther.

Fixpoint zeroCell (t : gotype) : cell :=
  match t with
  | GString => CString []
  | GUint64 => CUint 0
  | GBool => CBool false
  | GPointer _ => CPointer None
  | GSlice _ => CSlice 0 []
  | GStruct fields => CStruct (map (fun field => zeroCell (snd field)) fields)
  | _ => COther
  end.

(** A value other than null, through the pointers to where it goes. *)
Fixpoint through (base : gotype -> cell -> option cell) (t : gotype) (old : cell) : option cell :=
  match t with
  | GPointer elem =>
      let target := match old with CPointer (Some target) => target | _ => zeroCell elem end in
      (fun target => CPointer (Some target)) <$> through base elem target
  | t => base t old
  end.

Section over.
Context (decode : jtree -> gotype -> cell -> option cell).

(** The elements of an array, from position [i] of the slice on. *)
Fixpoint elementsOver (elem : gotype) (array : list jtree) (i : nat) (cells : list cell) : option cell :=
  match array with
  | [] => Some (CSlice i (if (i =? 0)%nat then [] else cells))
  | value :: array =>
      c ← decode value elem (default (zeroCell elem) (cells !! i));
      elementsOver elem array (S i) (if (i <? length cells)%nat then <[i := c]> cells else cells ++ [c])
  end.

Fixpoint membersOver (fields : list gofield) (object : list (list Z * jtree)) (cells : list cell) : option cell :=
  match object with
  | [] => Some (CStruct cells)
  | member :: object =>
      '(i, field) ← fieldIndex fields (fst member);
      c ← decode (snd member) (snd field) (default (zeroCell (snd field)) (cells !! i));
      membersOver fields object (<[i := c]> cells)
  end.
End over.

Fixpoint decodeOver (value : jtree) (t : gotype) (old : cell) : option cell :=
  match value with
  | JScalar TNull => Some match t with GPointer _ | GSlice _ => zeroCell t | _ => old end
  | JScalar (TString s) => through (fun t _ => match t with GString => Some (CString s) | _ => None end) t old
  | JScalar (TNumber text) => through (fun t _ => match t with GUint64 => CUint <$> parseUint text | _ => None end) t old
  | JScalar (TBool b) => through (fun t _ => match t with GBool => Some (CBool b) | _ => None end) t old
  | JScalar _ => None
  | JArr array =>
      through (fun t old =>
        match t with
        | GSlice elem => elementsOver decodeOver elem array 0 (match old with CSlice _ cells => cells | _ => [] end)
        | _ => None
        end) t old
  | JObj object =>
      through (fun t old =>
        match t with
        | GStruct fields => membersOver decodeOver fields object (match old with CStruct cells => cells | _ => [] end)
        | _ => None
        end) t old
  end.

(** [Decoder.Decode] into a fresh variable, with [DisallowUnknownFields]. *)
Definition decodeFresh (t : gotype) (data : list Z) : option (cell * Decoder) :=
  '(value, d) ← decodeAny data;
  c ← decodeOver value t (zeroCell t);
  Some (c, d).

(** What the reader of a variable gets. *)
Definition cellString (c : cell) : list Z := match c with CString s => s | _ => [] end.
Definition cellUint (c : cell) : Z := match c with CUint n => n | _ => 0 end.
Definition cellBool (c : cell) : bool := match c with CBool b => b | _ => false end.
Definition cellTarget (c : cell) : option cell := match c with CPointer target => target | _ => None end.
Definition cellSlice (c : cell) : list cell := match c with CSlice len array => take len array | _ => [] end.
Definition cellField (i : nat) (c : cell) : cell :=
  match c with CStruct fields => default COther (fields !! i) | _ => COther end.

(** ** Decoding a policy *)

(** [decodePolicyJSON]; [destination] is the type that it points to, [None] for
    nil. Every error is [errPolicyInvalid]. *)
Inductive policyInvalid := errPolicyInvalid.

Definition decodePolicyJSON (data : list Z) (destination : option gotype) : comp (result policyInvalid govalue) :=
  match destination with
  | None => Done (Err errPolicyInvalid)
  | Some t =>
      if bool_decide (data = []) || (maxPolicyBytes <? Z.of_nat (length data)) then Done (Err errPolicyInvalid)
      else if negb (utf8_valid data) then Done (Err errPolicyInvalid)
      else match validPolicyUnicodeEscapes data with
           | Done false => Done (Err errPolicyInvalid)
           | Done true =>
               match scanPolicyDocument data with
               | Done false => Done (Err errPolicyInvalid)
               | Done true =>
                   match decodeAny data with
                   | None => Done (Err errPolicyInvalid)
                   | Some (shape, _) =>
                       if negb (exactPolicyJSONFields shape (GPointer t)) then Done (Err errPolicyInvalid)
                       else match decodeInto t data with
                            | None => Done (Err errPolicyInvalid)
                            | Some (v, d) =>
                                match Token d with
                                | (Err jsonEOF, _) => Done (Ok v)
                                | _ => Done (Err errPolicyInvalid)
                                end
                            end
                   end
               | Panicked e => Panicked e
               | OutOfFuel => OutOfFuel
               end
           | Panicked e => Panicked e
           | OutOfFuel => OutOfFuel
           end
  end.
