(* ===== verification/AppDecode.v ===== *)
(** * Correctness of the policy decoding

    The scan is the contract's under a context that is never canceled, the
    escapes are the contract's, the value that is decoded is the document's
    tree, and what the typed decoding yields is what the tree denotes. *)

From S2P Require Import Prelude.
From S2P Require Import GoJson.
From S2P Require Import JsonGrammar.
From S2P Require Import GoIO.
From S2P Require Import ContractScan.
From S2P Require Import HttpConfig.
From S2P Require Import AppJson.

(** ** The scan *)

Definition is_none {A} (o : option A) : bool := match o with None => true | Some _ => false end.

(** [m] does to the decoder what [n] does under the background context. *)
Definition scans_as (m : M Decoder bool) (n : M contextDecoder (option Reason)) (d : Decoder) : Prop :=
  match n (bgd d) with
  | Done (r, s) => s = bgd (cd_dec s) /\ m d = Done (is_none r, cd_dec s)
  | OutOfFuel => m d = OutOfFuel
  | Panicked _ => False
  end.

Lemma cd_Token_run d :
  cd_Token (bgd d) =
    Done (match fst (Token d) with Ok t => Ok t | Err e => Err (tokenJson e) end, bgd (snd (Token d))).
Proof.
  unfold cd_Token, mbind, M_bind, cd_Err, cd_inner. cbn -[Token]. by destruct (Token d) as [[t|e] d'].
Qed.

Lemma scans_ret b r d : b = is_none r -> scans_as (mret b) (mret r) d.
Proof. by intros ->. Qed.

Lemma scans_bind m n (f : bool -> M Decoder bool) (g : option Reason -> M contextDecoder (option Reason)) d :
  scans_as m n d -> (forall r d, scans_as (f (is_none r)) (g r) d) -> scans_as (m ≫= f) (n ≫= g) d.
Proof.
  unfold scans_as at 1 3. unfold mbind, M_bind. destruct (n (bgd d)) as [[r s]| |]; [|done|by intros ->].
  intros [Hs ->] Hf. specialize (Hf r (cd_dec s)). unfold scans_as in Hf. by rewrite <- Hs in Hf.
Qed.

Lemma scans_Token f g d :
  (forall t d', Token d = (Ok t, d') -> scans_as (f (Ok t)) (g (Ok t)) d') ->
  (forall e d', Token d = (Err e, d') -> scans_as (f (Err e)) (g (Err (tokenJson e))) d') ->
  scans_as (dec_Token ≫= f) (cd_Token ≫= g) d.
Proof.
  intros Hok Herr. unfold scans_as, mbind, M_bind. rewrite cd_Token_run. unfold dec_Token.
  destruct (Token d) as [[t|e] d']; [by apply Hok|by apply Herr].
Qed.

Lemma scans_More f g d :
  scans_as (f (More d)) (g (More d)) d -> scans_as (gets More ≫= f) (cd_More ≫= g) d.
Proof. intros H. unfold scans_as, mbind, M_bind. by rewrite cd_More_bg. Qed.

Lemma scans_closing c d : scans_as (policyClosing c) (scanClosing c) d.
Proof.
  unfold policyClosing, scanClosing. apply scans_Token; intros; [|by apply scans_ret].
  destruct t; try by apply scans_ret. apply scans_ret. by destruct (c0 =? c).
Qed.

Lemma scan_agrees fuel :
  (forall depth d, scans_as (scanPolicyValue fuel depth) (scanJSONValue fuel depth maxPolicyDepth) d) /\
  (forall depth keys d, depth <= maxPolicyDepth ->
     scans_as (scanPolicyObject fuel depth keys) (scanObject fuel depth maxPolicyDepth keys) d) /\
  (forall depth d, depth <= maxPolicyDepth ->
     scans_as (scanPolicyArray fuel depth) (scanArray fuel depth maxPolicyDepth) d).
Proof.
  induction fuel as [|fuel (IHv & IHo & IHa)]; [done|].
  split; [|split]; intros; cbn [scanPolicyValue scanPolicyObject scanPolicyArray scanJSONValue scanObject scanArray].
  - destruct (maxPolicyDepth <? depth) eqn:Hd; breflect; [by apply scans_ret|].
    apply scans_Token; intros; [|by apply scans_ret]. destruct t; try by apply scans_ret.
    destruct (c =? c_lbrace); [by apply IHo|]. destruct (c =? c_lbracket); [by apply IHa|by apply scans_ret].
  - replace (maxPolicyDepth <? depth) with false by lia. apply scans_More.
    destruct (More d); [|apply scans_closing].
    apply scans_Token; intros; [|by apply scans_ret]. destruct t; try by apply scans_ret.
    case_bool_decide; [by apply scans_ret|]. apply scans_bind; [apply IHv|].
    intros [r|] d2; [by apply scans_ret|by apply IHo].
  - replace (maxPolicyDepth <? depth) with false by lia. apply scans_More.
    destruct (More d); [|apply scans_closing]. apply scans_bind; [apply IHv|].
    intros [r|] d2; [by apply scans_ret|by apply IHa].
Qed.

(** ** Documents *)

Lemma Token_open_object t body :
  document_text t body ->
  (exists d, Token (newDecoder body) = (Ok (TDelim c_lbrace), d)) <-> exists l, t = JObj l.
Proof.
  intros (w1 & text & w2 & Hw1 & Ht & Hw2 & ->). unfold newDecoder.
  assert (forall c inner l, text = c :: l -> c = c_lbracket /\ inner = tokenArrayStart \/ c = c_lbrace /\ inner = tokenObjectStart ->
    Token (mkDecoder (w1 ++ text ++ w2) tokenTopValue [] false) =
      (Ok (TDelim c), mkDecoder (l ++ w2) inner [tokenTopValue] false)) as Hopen.
  { intros c inner l -> Hc. apply Token_complete. cbn [app]. apply ev_open; [by apply lead_here|done]. }
  destruct Ht as [t text Hs|l text Hl|l text Hl].
  - split; [|by intros (? & ?)]. intros [d Hd].
    destruct (scalar_text_lexeme t text w2 Hs (delimited_of_ws w2 Hw2)) as [Hr Hlit].
    rewrite (Token_complete _ t _ (ev_scalar _ _ _ _ _ _ _ (lead_here tokenTopValue w1 eq_refl Hw1) Hr Hlit)) in Hd.
    injection Hd as -> _. by destruct (literal_not_delim _ _ Hlit).
  - split; [|by intros (? & ?)]. intros [d Hd]. rewrite (Hopen c_lbracket tokenArrayStart text) in Hd; [done|done|by left].
  - split; [by exists l|]. intros _. eexists. apply (Hopen c_lbrace tokenObjectStart text); [done|by right].
Qed.

(** The first pass is the contract's check of a document that is an object. *)
Lemma scanPolicyDocument_agrees data d :
  Token (newDecoder data) = (Ok (TDelim c_lbrace), d) ->
  match validateJSONDocument data maxPolicyDepth background with
  | Done (r, _) => scanPolicyDocument data = Done (is_none r)
  | Panicked _ => False
  | OutOfFuel => scanPolicyDocument data = OutOfFuel
  end.
Proof.
  intros Ht. unfold scanPolicyDocument, validateJSONDocument, withDecoder, validateDecoder, newContextDecoder.
  fold (bgd (newDecoder data)). rewrite Ht. rewrite bool_decide_eq_true_2 by done. cbn [negb].
  replace (scanFuel data) with (S (policyFuel data)) by (unfold scanFuel, policyFuel; lia).
  assert (scanJSONValue (S (policyFuel data)) 1 maxPolicyDepth (bgd (newDecoder data)) =
    scanObject (policyFuel data) 1 maxPolicyDepth ∅ (bgd d)) as Hobj.
  { cbn [scanJSONValue]. change (maxPolicyDepth <? 1) with false. cbn iota.
    erewrite run_bind_done by (rewrite cd_Token_run, Ht; reflexivity). reflexivity. }
  unfold mbind at 1, M_bind at 1. rewrite Hobj.
  pose proof (proj1 (proj2 (scan_agrees (policyFuel data))) 1 ∅ d ltac:(done)) as H. unfold scans_as in H.
  destruct (scanObject _ _ _ _ _) as [[[r|] s]| |]; [|destruct H as [-> ->]|done|by rewrite H].
  { destruct H as [_ ->]. reflexivity. }
  unfold mbind, M_bind. rewrite cd_Token_run. cbn [is_none bgd cd_dec].
  destruct (Token (cd_dec s)) as [[t|[]] d']; reflexivity.
Qed.

(** [scanPolicyDocument] always comes to an answer: whether the data are the text
    of an object, shallow enough and without a repeated key. *)
Lemma scanPolicyDocument_exact data :
  exists b, scanPolicyDocument data = Done b /\
    (b = true <-> exists l, document_text (JObj l) data /\ tree_ok maxPolicyDepth 1 (JObj l) = true).
Proof.
  destruct (Token (newDecoder data)) as [r d] eqn:Ht.
  assert ((exists b, r = Ok (TDelim c_lbrace) /\ b = true) \/ r <> Ok (TDelim c_lbrace)) as [(_ & -> & _)|Hr].
  { destruct r as [t|e]; [|by right]. destruct (decide (t = TDelim c_lbrace)) as [-> |]; [left; by exists true|].
    right. congruence. }
  - pose proof (scanPolicyDocument_agrees data d Ht) as H.
    destruct (validateJSONDocument_total data maxPolicyDepth background) as (r & ctx & Hrun). rewrite Hrun in H.
    exists (is_none r). split; [exact H|]. split.
    + destruct r as [r|]; [done|]. intros _.
      destruct (validateJSONDocument_sound _ _ _ Hrun) as (t & Hdoc & Hok).
      destruct (proj1 (Token_open_object t data Hdoc) (ex_intro _ d Ht)) as [l ->]. by exists l.
    + intros (l & Hdoc & Hok). rewrite (validateJSONDocument_complete _ _ _ Hdoc Hok) in Hrun.
      by injection Hrun as <- _.
  - exists false. split.
    + unfold scanPolicyDocument. rewrite Ht. destruct r as [t|e]; [|done].
      rewrite bool_decide_eq_false_2 by congruence. reflexivity.
    + split; [done|]. intros (l & Hdoc & _).
      destruct (proj2 (Token_open_object (JObj l) data Hdoc) (ex_intro _ l eq_refl)) as [d' Hd']. congruence.
Qed.

(** ** Unicode escapes *)

(** Reading by index is reading the rest. *)
Lemma at_cons data i c tl :
  drop i data = c :: tl -> at_ data i = c /\ Nat.ltb i (length data) = true /\ drop (i + 1) data = tl.
Proof.
  intros H. assert (i < length data)%nat as Hi.
  { assert (length (drop i data) = S (length tl)) as Hl by by rewrite H. rewrite length_drop in Hl. lia. }
  split; [|split].
  - unfold at_. by rewrite <- (Nat.add_0_r i), <- lookup_drop, H.
  - by apply Nat.ltb_lt.
  - by rewrite <- drop_drop, H.
Qed.

Lemma at_nil (data : list Z) i : drop i data = [] -> Nat.ltb i (length data) = false.
Proof. intros H. apply Nat.ltb_ge. apply (f_equal (@length Z)) in H. rewrite length_drop in H. cbn in H. lia. Qed.

Lemma policyHexDigit_agrees value digit : policyHexDigit value digit = hexDigit value digit.
Proof. reflexivity. Qed.

Lemma decodePolicyHexQuad_agrees data start :
  decodePolicyHexQuad data start = decodeHexQuad (drop start data).
Proof.
  unfold decodePolicyHexQuad. assert (length (drop start data) = length data - start)%nat as Hl by apply length_drop.
  destruct (drop start data) as [|d1 [|d2 [|d3 [|d4 tl]]]]; cbn [length] in Hl;
    try (replace (Nat.ltb _ _) with true by (symmetry; apply Nat.ltb_lt; lia); done).
  replace (Nat.ltb _ _) with false by (symmetry; apply Nat.ltb_ge; lia).
  cbn [take foldl decodeHexQuad mbind option_bind]. 
  change policyHexDigit with hexDigit.
  destruct (hexDigit 0 d1) as [v1|]; cbn; [|done]. destruct (hexDigit v1 d2) as [v2|]; cbn; [|done].
  by destruct (hexDigit v2 d3).
Qed.

(** The polls of a context that is never canceled change nothing. *)
Lemma escapes_polled (P : Z -> M Context bool) (r : comp bool) :
  (exists b, r = Done b /\ forall k, P k background = Done (b, background)) ->
  exists b, r = Done b /\ forall k,
    (err ← (if Z.land k 1023 =? 0 then pollSelf else mret None);
     match err with Some _ => mret false | None => P k end) background = Done (b, background).
Proof.
  intros (b & -> & HP). exists b. split; [done|]. intros k.
  unfold mbind, M_bind. destruct (_ =? 0); cbn; apply HP.
Qed.

(** What follows a high surrogate, [i] being the index of its last digit. *)
Lemma low_surrogate_agrees data i tl6 (next : nat -> comp bool) (next' : Z -> list Z -> M Context bool) :
  drop (i + 1) data = tl6 ->
  (forall j l, (i < j)%nat -> drop j data = l -> exists b, next j = Done b /\
     forall k, next' k l background = Done (b, background)) ->
  exists b,
    (if negb (Nat.ltb (i + 6) (length data)) || negb (at_ data (i + 1) =? c_backslash)
        || negb (at_ data (i + 2) =? c_u)
     then Done false
     else match decodePolicyHexQuad data (i + 3) with
          | None => Done false
          | Some low => if (low <? 56320) || (57343 <? low) then Done false else next (i + 7)%nat
          end) = Done b /\
    forall k : Z,
      match tl6 with
      | b :: v :: l1 :: l2 :: l3 :: l4 :: tl12 =>
          if negb (b =? c_backslash) || negb (v =? c_u) then mret false else
          match decodeHexQuad [l1; l2; l3; l4] with
          | Some low => if (low <? 56320) || (57343 <? low) then mret false else next' (k + 12) tl12
          | None => mret false
          end
      | _ => mret false
      end background = Done (b, background).
Proof.
  intros Hd Hnext. pose proof (f_equal (@length Z) Hd) as Hl. rewrite length_drop in Hl.
  assert (forall l, drop (i + 1) data = l -> (length l < 6)%nat -> Nat.ltb (i + 6) (length data) = false) as Hshort.
  { intros l Hl' Hlen. apply (f_equal (@length Z)) in Hl'. rewrite length_drop in Hl'. apply Nat.ltb_ge. lia. }
  destruct tl6 as [|b [|v [|l1 [|l2 [|l3 [|l4 tl12]]]]]];
    try (rewrite (Hshort _ Hd) by (cbn; lia); by exists false).
  replace (Nat.ltb (i + 6) (length data)) with true by (symmetry; apply Nat.ltb_lt; cbn in Hl; lia).
  destruct (at_cons _ _ _ _ Hd) as (-> & _ & Hd1). replace (i + 2)%nat with (i + 1 + 1)%nat by lia.
  destruct (at_cons _ _ _ _ Hd1) as (-> & _ & Hd2). cbn [negb orb].
  destruct (negb (b =? c_backslash) || negb (v =? c_u)); [by exists false|].
  rewrite decodePolicyHexQuad_agrees. replace (i + 3)%nat with (i + 1 + 1 + 1)%nat by lia. rewrite Hd2.
  change (decodeHexQuad (l1 :: l2 :: l3 :: l4 :: tl12)) with (decodeHexQuad [l1; l2; l3; l4]).
  destruct (decodeHexQuad [l1; l2; l3; l4]) as [low|]; [|by exists false].
  destruct ((low <? 56320) || (57343 <? low)); [by exists false|].
  destruct (Hnext (i + 7)%nat tl12) as (r & Hr & Hk); [lia| |by exists r].
  replace (i + 7)%nat with (i + 1 + 6)%nat by lia. by rewrite <- drop_drop, Hd.
Qed.

Lemma policyEscapes_agrees fuel : forall data inString i,
  (length data - i < fuel)%nat ->
  exists b, policyEscapes fuel data inString i = Done b /\
    forall k, escapesFrom k inString (drop i data) background = Done (b, background).
Proof.
  induction fuel as [|fuel IH]; [lia|]. intros data inString i Hf. cbn [policyEscapes].
  destruct (drop i data) as [|c tl] eqn:Hd.
  { rewrite (at_nil _ _ Hd). by exists true. }
  destruct (at_cons _ _ _ _ Hd) as (-> & Hlt & Hd1). rewrite Hlt. cbn [negb].
  assert (forall j s l (g : Z -> Z), (i < j)%nat -> drop j data = l -> exists b,
    policyEscapes fuel data s j = Done b /\
    forall k, escapesFrom (g k) s l background = Done (b, background)) as Hnext.
  { intros j s l g Hj <-. apply Nat.ltb_lt in Hlt.
    destruct (IH data s j) as (b & Hb & Hk); [lia|]. by exists b. }
  cbn [escapesFrom]. apply escapes_polled.
  destruct (c =? c_quote); [by apply Hnext; [lia|]|].
  destruct (c =? c_backslash); [|by apply Hnext; [lia|]].
  destruct (negb inString); [by apply Hnext; [lia|]|].
  destruct tl as [|e tl2]; [rewrite (at_nil _ _ Hd1); by exists true|].
  destruct (at_cons _ _ _ _ Hd1) as (-> & -> & Hd2). cbn [negb].
  destruct (negb (e =? c_u)); [by apply Hnext; [lia|]|].
  rewrite decodePolicyHexQuad_agrees, Hd2.
  destruct (decodeHexQuad tl2) as [value|] eqn:Hq; [|by exists true].
  destruct tl2 as [|h1 [|h2 [|h3 [|h4 tl6]]]]; try done. clear Hq.
  destruct (at_cons _ _ _ _ Hd2) as (_ & _ & Hd3). destruct (at_cons _ _ _ _ Hd3) as (_ & _ & Hd4).
  destruct (at_cons _ _ _ _ Hd4) as (_ & _ & Hd5). destruct (at_cons _ _ _ _ Hd5) as (_ & _ & Hd6).
  replace (i + 1 + 1 + 1 + 1 + 1 + 1)%nat with (i + 1 + 4 + 1)%nat in Hd6 by lia.
  destruct ((56320 <=? value) && (value <=? 57343)); [by exists false|].
  destruct ((55296 <=? value) && (value <=? 56319)); [|by apply Hnext; [lia|]].
  apply (low_surrogate_agrees data (i + 1 + 4) tl6 (policyEscapes fuel data inString)
    (fun k l => escapesFrom k inString l)); [exact Hd6|].
  intros j l Hj Hl. apply (Hnext j inString l (fun k => k)); [lia|exact Hl].
Qed.

(** The program's two checks of escapes are the same. *)
Lemma validPolicyUnicodeEscapes_agrees data :
  exists b, validPolicyUnicodeEscapes data = Done b /\ validUnicodeEscapes data background = Done (b, background).
Proof.
  destruct (policyEscapes_agrees (S (length data)) data false 0) as (b & Hb & Hk); [lia|].
  exists b. split; [exact Hb|]. exact (Hk 0).
Qed.

(** ** The decoded tree *)

Lemma Token_scalar_event st pre st' stack t text rest :
  value_lead st pre st' -> scalar_text t text -> delimited rest ->
  Token (mkDecoder (pre ++ text ++ rest) st stack false) =
    (Ok t, mkDecoder rest (tokenValueEnd st') stack false).
Proof.
  intros Hl Ht Hd. destruct (scalar_text_lexeme _ _ _ Ht Hd) as [Hr Hlit]. by apply Token_complete, ev_scalar.
Qed.

Lemma Token_opening st pre st' stack c inner rest :
  value_lead st pre st' ->
  c = c_lbracket /\ inner = tokenArrayStart \/ c = c_lbrace /\ inner = tokenObjectStart ->
  Token (mkDecoder (pre ++ c :: rest) st stack false) = (Ok (TDelim c), mkDecoder rest inner (st' :: stack) false).
Proof. intros Hl Hc. by apply Token_complete, ev_open. Qed.

Lemma Token_closing_array w outer stack first rest :
  ws w ->
  Token (mkDecoder (w ++ c_rbracket :: rest) (arrayState first) (outer :: stack) false) =
    (Ok (TDelim c_rbracket), mkDecoder rest (tokenValueEnd outer) stack false).
Proof. intros Hw. apply Token_complete, ev_close; [done|]. destruct first; auto. Qed.

Lemma Token_closing_object w outer stack first rest :
  ws w ->
  Token (mkDecoder (w ++ c_rbrace :: rest) (objectState first) (outer :: stack) false) =
    (Ok (TDelim c_rbrace), mkDecoder rest (tokenValueEnd outer) stack false).
Proof. intros Hw. apply Token_complete, ev_close; [done|]. destruct first; auto. Qed.

Lemma Token_member first pre key ktext colon outer stack rest :
  item_lead first pre -> scalar_text (TString key) ktext -> around c_colon colon ->
  Token (mkDecoder (pre ++ ktext ++ colon ++ rest) (objectState first) (outer :: stack) false) =
    (Ok (TString key), mkDecoder (colon ++ rest) tokenObjectColon (outer :: stack) false).
Proof.
  intros Hl Hk Hc. apply Token_complete.
  destruct (scalar_text_lexeme _ _ (colon ++ rest) Hk) as [Hr Hlit]; [by eapply delimited_around; [by right|]|].
  apply ev_key; auto using item_lead_key.
Qed.

Lemma value_text_length t text : value_text t text -> (0 < length text)%nat.
Proof. intros Ht. pose proof (value_text_opens _ _ [] Ht). destruct text; [done|cbn; lia]. Qed.

Lemma any_complete :
  (forall t text, value_text t text ->
    forall fuel st pre st' stack rest,
    (2 * length text + 1 <= fuel)%nat -> value_lead st pre st' -> delimited rest ->
    anyValue fuel (mkDecoder (pre ++ text ++ rest) st stack false) =
      Some (t, mkDecoder rest (tokenValueEnd st') stack false)) /\
  (forall first l text, arr_text first l text ->
    forall fuel outer stack rest, (2 * length text + 2 <= fuel)%nat ->
    anyElements fuel (mkDecoder (text ++ rest) (arrayState first) (outer :: stack) false) =
      Some (l, mkDecoder rest (tokenValueEnd outer) stack false)) /\
  (forall first l text, obj_text first l text ->
    forall fuel outer stack rest, (2 * length text + 2 <= fuel)%nat ->
    anyMembers fuel (mkDecoder (text ++ rest) (objectState first) (outer :: stack) false) =
      Some (l, mkDecoder rest (tokenValueEnd outer) stack false)).
Proof.
  apply json_text_ind.
  - intros t text Ht fuel st pre st' stack rest Hf Hl Hd. destruct fuel as [|fuel]; [lia|].
    cbn [anyValue]. rewrite (Token_scalar_event st pre st' stack t) by done.
    destruct t; try done. by destruct Ht as [_ Hlit%literal_not_delim].
  - intros l text _ IH fuel st pre st' stack rest Hf Hl Hd. destruct fuel as [|fuel]; [lia|].
    cbn [anyValue app length] in *. rewrite (Token_opening st pre st' stack c_lbracket tokenArrayStart) by auto.
    cbn [Z.eqb Pos.eqb]. pose proof (IH fuel st' stack rest ltac:(lia)) as H. cbn in H |- *. by rewrite H.
  - intros l text _ IH fuel st pre st' stack rest Hf Hl Hd. destruct fuel as [|fuel]; [lia|].
    cbn [anyValue app length] in *. rewrite (Token_opening st pre st' stack c_lbrace tokenObjectStart) by auto.
    cbn [Z.eqb Pos.eqb]. pose proof (IH fuel st' stack rest ltac:(lia)) as H. cbn in H |- *. by rewrite H.
  - intros first w Hw fuel outer stack rest Hf. destruct fuel as [|fuel]; [lia|].
    cbn [anyElements]. rewrite <- app_assoc. cbn [app]. rewrite More_closing by auto.
    by rewrite Token_closing_array.
  - intros first pre t text l rest Hl Ht IHt Har IHr fuel outer stack rest' Hf.
    destruct fuel as [|fuel]; [lia|]. cbn [anyElements]. rewrite !length_app in Hf. rewrite <- !app_assoc.
    pose proof (value_text_length _ _ Ht). rewrite (More_item first) by (done || by eapply value_text_opens).
    destruct (item_lead_array _ _ Hl) as (st' & Hl' & Hend).
    rewrite (IHt fuel (arrayState first) pre st' (outer :: stack) (rest ++ rest'))
      by (lia || done || by eapply arr_text_delimited).
    cbn. rewrite Hend. change tokenArrayComma with (arrayState false).
    by rewrite (IHr fuel outer stack rest' ltac:(lia)).
  - intros first w Hw fuel outer stack rest Hf. destruct fuel as [|fuel]; [lia|].
    cbn [anyMembers]. rewrite <- app_assoc. cbn [app]. rewrite More_closing by auto.
    by rewrite Token_closing_object.
  - intros first pre key ktext colon t text l rest Hl Hk Hc Ht IHt Hor IHr fuel outer stack rest' Hf.
    destruct fuel as [|fuel]; [lia|]. cbn [anyMembers]. rewrite !length_app in Hf. rewrite <- !app_assoc.
    pose proof (value_text_length _ _ Ht). rewrite (More_item first) by (done || by eapply scalar_text_opens).
    rewrite (Token_member first pre key) by done.
    rewrite (IHt fuel tokenObjectColon colon tokenObjectValue (outer :: stack) (rest ++ rest'))
      by (lia || by eapply obj_text_delimited || by apply lead_colon).
    cbn. change tokenObjectComma with (objectState false). by rewrite (IHr fuel outer stack rest' ltac:(lia)).
Qed.

(** [Decode] of a document yields its tree, and nothing is left after it. *)
Lemma decodeAny_complete t data :
  document_text t data -> exists d, decodeAny data = Some (t, d) /\ exists d', Token d = (Err jsonEOF, d').
Proof.
  intros (w1 & text & w2 & Hw1 & Ht & Hw2 & ->). unfold decodeAny, newDecoder.
  eexists. split.
  - apply any_complete; [exact Ht| |by apply lead_here|by apply delimited_of_ws].
    unfold policyFuel. rewrite !length_app. lia.
  - eexists. unfold Token. cbn [dec_buf dec_state dec_stack dec_err tokenValueEnd].
    by apply tokenFrom_EOF.
Qed.
