(* ===== verification/AppTyped.v ===== *)
(** * What a policy text denotes

    The typed decoding against a declarative reading of JSON trees at Go types:
    every member of an object has the name of a field and gives that field's
    value, and the fields without a member are zero. *)

From S2P Require Import Prelude.
From S2P Require Import GoJson.
From S2P Require Import JsonGrammar.
From S2P Require Import GoIO.
From S2P Require Import ContractScan.
From S2P Require Import HttpConfig.
From S2P Require Import AppJson.
From S2P Require Import AppDecode.

(** ** Types and their values *)

(** The kinds the policy types are made of; all fields are named, differently. *)
Fixpoint plain_type (t : gotype) : bool :=
  match t with
  | GString | GUint64 | GBool => true
  | GSlice elem => plain_type elem
  | GStruct fields =>
      bool_decide (NoDup (map jsonName fields)) && forallb (fun field => plain_type (snd field)) fields
  | _ => false
  end.

#[warnings="-register-all"]
Inductive has_type : gotype -> govalue -> Prop :=
| ty_string s : has_type GString (VString s)
| ty_uint n : is_u64 n -> has_type GUint64 (VUint n)
| ty_bool b : has_type GBool (VBool b)
| ty_slice elem l : Forall (has_type elem) l -> has_type (GSlice elem) (VSlice l)
| ty_struct fields l :
    Forall2 (fun field v => has_type (snd field) v) fields l -> has_type (GStruct fields) (VStruct l).

(** The values of a tree at a type. *)
#[warnings="-register-all"]
Inductive denotes : gotype -> jtree -> govalue -> Prop :=
| den_null t : denotes t (JScalar TNull) (zero t)
| den_string s : denotes GString (JScalar (TString s)) (VString s)
| den_uint text n : parseUint text = Some n -> denotes GUint64 (JScalar (TNumber text)) (VUint n)
| den_bool b : denotes GBool (JScalar (TBool b)) (VBool b)
| den_slice elem l vs : Forall2 (denotes elem) l vs -> denotes (GSlice elem) (JArr l) (VSlice vs)
| den_struct fields object vs :
    length vs = length fields ->
    (forall k, k ∈ map fst object -> exists field, field ∈ fields /\ jsonName field = Some k) ->
    (forall i field v k value, fields !! i = Some field -> vs !! i = Some v ->
       jsonName field = Some k -> (k, value) ∈ object -> denotes (snd field) value v) ->
    (forall i field v, fields !! i = Some field -> vs !! i = Some v ->
       (forall k, jsonName field = Some k -> k ∉ map fst object) -> v = zero (snd field)) ->
    denotes (GStruct fields) (JObj object) (VStruct vs).

(** ** Fields by name *)

Section fields.
Implicit Types fields : list gofield.

Lemma fieldTypes_Some fields k t :
  fieldTypes fields !! k = Some t -> exists field, field ∈ fields /\ jsonName field = Some k /\ snd field = t.
Proof.
  induction fields as [|field fields IH] using rev_ind; [done|].
  unfold fieldTypes in *. rewrite foldl_app. cbn [foldl].
  destruct (jsonName field) as [n|] eqn:Hn.
  - destruct (decide (n = k)) as [->|Hk].
    + rewrite lookup_insert_eq. intros [= <-]. exists field. split; [apply elem_of_app; right; by apply list_elem_of_singleton|done].
    + rewrite lookup_insert_ne by done. intros (f & Hf & ?)%IH. exists f. split; [by apply elem_of_app; left|done].
  - intros (f & Hf & ?)%IH. exists f. split; [by apply elem_of_app; left|done].
Qed.

Lemma fieldTypes_named fields field k :
  field ∈ fields -> jsonName field = Some k -> is_Some (fieldTypes fields !! k).
Proof.
  induction fields as [|f fields IH] using rev_ind; [by intros ?%not_elem_of_nil|].
  rewrite elem_of_app, list_elem_of_singleton. unfold fieldTypes in *. rewrite foldl_app. cbn [foldl].
  intros [Hin| ->] Hk.
  - specialize (IH Hin Hk). destruct (jsonName f) as [n|]; [|done].
    destruct (decide (n = k)) as [->|]; [by rewrite lookup_insert_eq|by rewrite lookup_insert_ne].
  - rewrite Hk, lookup_insert_eq. by eexists.
Qed.

Lemma named_unique fields i j f g k :
  NoDup (map jsonName fields) -> fields !! i = Some f -> fields !! j = Some g ->
  jsonName f = Some k -> jsonName g = Some k -> i = j.
Proof.
  intros Hnd Hi Hj Hf Hg. apply (NoDup_lookup (map jsonName fields) i j (Some k)); [done| |];
    by rewrite list_lookup_fmap, ?Hi, ?Hj; cbn; f_equal.
Qed.

(** A key with a field of that very name goes there. *)
Lemma fieldIndex_named fields field k :
  NoDup (map jsonName fields) -> field ∈ fields -> jsonName field = Some k ->
  exists i, fieldIndex fields k = Some (i, field) /\ fields !! i = Some field.
Proof.
  intros Hnd Hin Hk. unfold fieldIndex.
  destruct (list_find_elem_of (fun field => names (fun name => bool_decide (k = name)) field = true) fields field)
    as [[i g] Hg]; [done|unfold names; rewrite Hk; by apply bool_decide_eq_true|].
  rewrite Hg. apply list_find_Some in Hg as (Hi & Hn & _). unfold names in Hn.
  destruct (jsonName g) as [n|] eqn:Hgn; [|done]. apply bool_decide_eq_true in Hn as <-.
  apply list_elem_of_lookup in Hin as [j Hj].
  assert (i = j) as <- by by eapply named_unique. rewrite Hi in Hj. injection Hj as <-. by exists i.
Qed.
End fields.

Lemma zero_typed : forall t, plain_type t = true -> has_type t (zero t).
Proof.
  fix IH 1. intros [| | | | |t|t|b t|fields] Ht; cbn in Ht |- *; try done; try by constructor.
  apply andb_true_iff in Ht as [_ Ht]. apply ty_struct.
  induction fields as [|[f t] fields IHf]; [constructor|]. cbn in Ht. apply andb_true_iff in Ht as [Ht1 Ht2].
  constructor; [exact (IH t Ht1)|exact (IHf Ht2)].
Qed.

(** ** Structs *)

(** The members of an object, set one after the other. *)
Definition setMembers (fields : list gofield) (object : list (list Z * jtree)) (start : list govalue)
  : option (list govalue) :=
  foldl (fun acc member =>
    l ← acc;
    '(i, field) ← fieldIndex fields (fst member);
    v ← decodeTyped (snd field) (snd member);
    Some (<[i := v]> l)) (Some start) object.

(** Every key of [object] is a field of exactly that name. *)
Definition known_keys (fields : list gofield) (object : list (list Z * jtree)) : Prop :=
  forall k, k ∈ map fst object -> exists field, field ∈ fields /\ jsonName field = Some k.

Lemma setMembers_inv fields object start vs :
  NoDup (map jsonName fields) -> known_keys fields object -> NoDup (map fst object) ->
  length start = length fields -> setMembers fields object start = Some vs ->
  length vs = length fields /\
  forall i field v, fields !! i = Some field -> vs !! i = Some v ->
    (forall k value, jsonName field = Some k -> (k, value) ∈ object -> decodeTyped (snd field) value = Some v) /\
    ((forall k, jsonName field = Some k -> k ∉ map fst object) -> start !! i = Some v).
Proof.
  intros Hf. revert vs. induction object as [|[key value] object IH] using rev_ind; intros vs Hk Hnd Hlen.
  { intros [= <-]. split; [done|]. intros i field v _ Hv. split; [by intros ? ? _ ?%not_elem_of_nil|done]. }
  unfold setMembers in *. rewrite foldl_app. cbn [foldl fst snd].
  unfold known_keys in Hk. rewrite map_app in Hk, Hnd. cbn [map fst] in Hk, Hnd.
  apply list.NoDup_app in Hnd as (Hnd & Hfresh & _).
  destruct (foldl _ _ object) as [l|]; [|done]. cbn. destruct (IH l) as [Hl Hall]; [|done..|].
  { intros k Hin. apply Hk. by apply elem_of_app; left. }
  destruct (Hk key) as (field & Hin & Hname); [by apply elem_of_app; right; apply list_elem_of_singleton|].
  destruct (fieldIndex_named fields field key Hf Hin Hname) as (i & -> & Hi). cbn.
  destruct (decodeTyped (snd field) value) as [v|] eqn:Hv; [|done]. cbn. intros [= <-].
  split; [by rewrite length_insert|]. intros j field' v' Hj Hv'. rewrite list_lookup_insert in Hv'.
  destruct (decide _) as [[-> Hlt]|Hne] in Hv'.
  - injection Hv' as <-. assert (field' = field) as -> by congruence. split.
    + intros k value' Hk' Hin'. assert (k = key) as -> by congruence.
      apply elem_of_app in Hin' as [Hin'|Hin']; [|apply list_elem_of_singleton in Hin'; congruence].
      destruct (Hfresh key); [|by apply list_elem_of_singleton].
      apply list_elem_of_fmap. by exists (key, value').
    + intros Hno. destruct (Hno key Hname). rewrite map_app. apply elem_of_app. right. by apply list_elem_of_singleton.
  - assert (i <> j) as Hij.
    { intros ->. apply Hne. split; [done|]. apply lookup_lt_Some in Hi. lia. }
    destruct (Hall j field' v' Hj Hv') as [Hset Hkeep]. split.
    + intros k value' Hk' [Hin'|Hin'%list_elem_of_singleton]%elem_of_app; [by eapply Hset|].
      injection Hin' as -> ->. destruct Hij. by eapply named_unique.
    + intros Hno. apply Hkeep. intros k Hk' Hin'. apply (Hno k Hk'). rewrite map_app. by apply elem_of_app; left.
Qed.

(** They can be set when each can be decoded. *)
Lemma setMembers_total fields object start :
  NoDup (map jsonName fields) -> known_keys fields object ->
  (forall field k value, field ∈ fields -> jsonName field = Some k -> (k, value) ∈ object ->
     is_Some (decodeTyped (snd field) value)) ->
  is_Some (setMembers fields object start).
Proof.
  intros Hf. induction object as [|[key value] object IH] using rev_ind; intros Hk Hall; [by eexists|].
  unfold setMembers in *. rewrite foldl_app. cbn [foldl fst snd].
  destruct IH as [l Hl].
  { intros k Hin. apply Hk. rewrite map_app. by apply elem_of_app; left. }
  { intros field k v Hin Hn Hm. eapply Hall; [done|done|]. by apply elem_of_app; left. }
  rewrite Hl. cbn. destruct (Hk key) as (field & Hin & Hname).
  { rewrite map_app. apply elem_of_app. right. by apply list_elem_of_singleton. }
  destruct (fieldIndex_named fields field key Hf Hin Hname) as (i & -> & _). cbn.
  destruct (Hall field key value Hin Hname) as [v ->]; [|by eexists].
  apply elem_of_app. right. by apply list_elem_of_singleton.
Qed.

(** ** The equivalence *)

Lemma plain_fields fields :
  plain_type (GStruct fields) = true ->
  NoDup (map jsonName fields) /\ forall field, field ∈ fields -> plain_type (snd field) = true.
Proof.
  cbn. intros [Hnd Hall]%andb_true_iff. apply bool_decide_eq_true in Hnd. split; [done|].
  intros field Hin. exact (proj1 (forallb_elem _ _) Hall field Hin).
Qed.

Lemma plain_strip t : plain_type t = true -> stripPointers t = t.
Proof. by destruct t. Qed.

Lemma exact_members fields object :
  exactPolicyJSONFields (JObj object) (GStruct fields) = true <->
  forall k value, (k, value) ∈ object ->
    exists t, fieldTypes fields !! k = Some t /\ exactPolicyJSONFields value t = true.
Proof.
  cbn. rewrite forallb_elem. split.
  - intros H k value Hin. specialize (H _ Hin). cbn in H. destruct (fieldTypes fields !! k) as [t|]; [by exists t|done].
  - intros H [k value] Hin. cbn. by destruct (H k value Hin) as (t & -> & Ht).
Qed.

Lemma exact_known fields object :
  exactPolicyJSONFields (JObj object) (GStruct fields) = true -> known_keys fields object.
Proof.
  rewrite exact_members. intros H k Hk. apply list_elem_of_fmap in Hk as ([k' value] & -> & Hin).
  destruct (H k' value Hin) as (t & Ht & _). apply fieldTypes_Some in Ht as (field & ? & ? & _). by exists field.
Qed.

(** The exact check, with the field itself in place of its name. *)
Lemma exact_member fields object field k value :
  NoDup (map jsonName fields) ->
  exactPolicyJSONFields (JObj object) (GStruct fields) = true -> field ∈ fields -> jsonName field = Some k ->
  (k, value) ∈ object -> exactPolicyJSONFields value (snd field) = true.
Proof.
  intros Hnd Hex Hin Hk Hm. apply (proj1 (exact_members _ _)) with (k := k) (value := value) in Hex as (t & Ht & Hv); [|done].
  apply fieldTypes_Some in Ht as (g & Hg & Hgk & <-).
  apply list_elem_of_lookup in Hin as [i Hi], Hg as [j Hj].
  assert (i = j) as <- by by eapply named_unique. by replace field with g by congruence.
Qed.

Lemma tree_ok_object maximum depth object :
  tree_ok maximum depth (JObj object) = true ->
  NoDup (map fst object) /\ forall k value, (k, value) ∈ object -> tree_ok maximum (depth + 1) value = true.
Proof.
  cbn. intros (_ & [Hnd Hall]%andb_true_iff)%andb_true_iff. apply bool_decide_eq_true in Hnd. split; [done|].
  intros k value Hin. exact (proj1 (forallb_elem _ _) Hall _ Hin).
Qed.

(** The equivalence at one tree. *)
Definition reads_as (value : jtree) : Prop :=
  forall maximum depth t v, plain_type t = true -> tree_ok maximum depth value = true ->
    (exactPolicyJSONFields value t = true /\ decodeTyped t value = Some v) <-> denotes t value v.

Lemma reads_scalar tok : reads_as (JScalar tok).
Proof.
  intros maximum depth t v Ht _. split.
  - intros [_ Hd]. destruct tok; destruct t; cbn in Hd; try done; try (injection Hd as <-; by constructor).
    destruct (parseUint text) as [n|] eqn:Hn; [|done]. injection Hd as <-. by constructor.
  - intros Hd. inversion Hd as [t'| |text n Hn| | |]; subst; cbn; rewrite ?plain_strip by done; try done.
    by rewrite Hn.
Qed.

Lemma reads_array l : Forall reads_as l -> reads_as (JArr l).
Proof.
  intros Hl maximum depth t v Ht Hok. destruct t as [| | | | |t|t|b t|fields]; try done; try (split; [by intros [_ ?]|by inversion 1]).
  cbn [plain_type tree_ok] in Ht, Hok. apply andb_true_iff in Hok as [_ Hok].
  assert (exactPolicyJSONFields (JArr l) (GSlice t) = forallb (fun member => exactPolicyJSONFields member t) l) as ->
    by (cbn; by destruct t).
  cbn [decodeTyped].
  assert (forall vs, (forallb (fun member => exactPolicyJSONFields member t) l = true /\
      foldr (fun member acc => l ← acc; v ← decodeTyped t member; Some (v :: l)) (Some []) l = Some vs) <->
    Forall2 (denotes t) l vs) as Hiff.
  { clear v. induction l as [|value l IH]; intros vs.
    - cbn. split; [intros [_ [= <-]]; constructor|intros H; by apply Forall2_nil_inv_l in H as ->].
    - apply Forall_cons in Hl as [Hv Hl]. cbn [forallb foldr] in Hok |- *. apply andb_true_iff in Hok as [Hok1 Hok2].
      specialize (IH Hl Hok2). specialize (Hv maximum (depth + 1) t). split.
      + intros [[He1 He2]%andb_true_iff Hd]. destruct (foldr _ _ l) as [vs'|]; [|done]. cbn in Hd.
        destruct (decodeTyped t value) as [v|] eqn:Hdv; [|done]. injection Hd as <-.
        constructor; [by apply Hv|by apply IH].
      + intros H. inversion H as [|? v ? vs' H1 H2]; subst. apply Hv in H1 as [-> ->]; [|done..].
        apply IH in H2 as [-> ->]. done. }
  split.
  - intros [He Hd]. destruct (foldr _ _ l) as [vs|] eqn:Hvs; [|done]. injection Hd as <-. constructor. by apply Hiff.
  - intros H. inversion H as [| | | |? ? vs Hvs|]; subst. apply Hiff in Hvs as [-> ->]. done.
Qed.

Lemma known_denoted fields object :
  known_keys fields object -> (forall field k value, field ∈ fields -> jsonName field = Some k ->
    (k, value) ∈ object -> exactPolicyJSONFields value (snd field) = true) ->
  NoDup (map jsonName fields) -> exactPolicyJSONFields (JObj object) (GStruct fields) = true.
Proof.
  intros Hk Hv Hnd. apply exact_members. intros k value Hin.
  destruct (Hk k) as (field & Hf & Hn); [apply list_elem_of_fmap; by exists (k, value)|].
  destruct (fieldTypes_named fields field k Hf Hn) as [t Ht]. exists t. split; [done|].
  pose proof Ht as (g & Hg & Hgn & <-)%fieldTypes_Some. by eapply Hv.
Qed.

(** Lists of field values agree when they do at every field. *)
Lemma values_agree (fields : list gofield) (object : list (list Z * jtree)) (vs vs' : list govalue) :
  length vs = length vs' -> length vs = length fields ->
  (forall i field v v' k value, fields !! i = Some field -> vs !! i = Some v -> vs' !! i = Some v' ->
     jsonName field = Some k -> (k, value) ∈ object -> v = v') ->
  (forall i field v v', fields !! i = Some field -> vs !! i = Some v -> vs' !! i = Some v' ->
     (forall k, jsonName field = Some k -> k ∉ map fst object) -> v = v') ->
  vs = vs'.
Proof.
  intros Hl Hf Hin Hout. apply list_eq_same_length with (length vs); [done|done|].
  intros i v v' Hi Hv Hv'. destruct (lookup_lt_is_Some_2 fields i) as [field Hfield]; [lia|].
  destruct (jsonName field) as [k|] eqn:Hn; [destruct (decide (k ∈ map fst object)) as [Hk|Hk]|].
  - apply list_elem_of_fmap in Hk as ([k' value] & -> & Hk). by eapply Hin.
  - eapply Hout; try done. intros k' Hk'. congruence.
  - eapply Hout; try done. by rewrite Hn.
Qed.

Lemma reads_object object : Forall (fun kv => reads_as (snd kv)) object -> reads_as (JObj object).
Proof.
  intros Hsub maximum depth t v Ht Hok. apply tree_ok_object in Hok as [Hkeys Hok].
  assert (forall t k value v, plain_type t = true -> (k, value) ∈ object ->
    (exactPolicyJSONFields value t = true /\ decodeTyped t value = Some v) <-> denotes t value v) as Hrec.
  { intros t' k value v' Ht' Hin. pose proof (proj1 (Forall_forall _ _) Hsub _ Hin) as Hv.
    exact (Hv maximum (depth + 1) t' v' Ht' (Hok k value Hin)). }
  destruct t as [| | | | |t|t|b t|fields]; try done; try (split; [by intros [_ ?]|by inversion 1]).
  apply plain_fields in Ht as [Hnd Hplain].
  assert (forall i field, fields !! i = Some field -> plain_type (snd field) = true) as Hplain'
    by (intros i f Hi; apply Hplain, list_elem_of_lookup; by exists i).
  change (decodeTyped (GStruct fields) (JObj object)) with
    (VStruct <$> setMembers fields object (map (fun field => zero (snd field)) fields)).
  assert (length (map (fun field : gofield => zero (snd field)) fields) = length fields) as Hlen by apply length_map.
  split.
  - intros [Hex Hd]. destruct (setMembers fields object _) as [vs|] eqn:Hvs; [|done]. injection Hd as <-.
    pose proof (exact_known _ _ Hex) as Hknown.
    destruct (setMembers_inv fields object _ vs Hnd Hknown Hkeys Hlen Hvs) as [Hl Hall].
    constructor; [exact Hl|exact Hknown| |].
    + intros i field v k value Hi Hv Hk Hm. destruct (Hall i field v Hi Hv) as [Hset _].
      apply (Hrec _ k); [by eapply Hplain'|done|]. split; [|by eapply Hset].
      eapply exact_member; try done. apply list_elem_of_lookup. by exists i.
    + intros i field v Hi Hv Hno. destruct (Hall i field v Hi Hv) as [_ Hkeep].
      specialize (Hkeep Hno). rewrite list_lookup_fmap, Hi in Hkeep. by injection Hkeep as <-.
  - inversion 1 as [| | | | |? ? vs Hl Hknown Hset Hzero]; subst.
    assert (forall field k value, field ∈ fields -> jsonName field = Some k -> (k, value) ∈ object ->
      exists i v, fields !! i = Some field /\ vs !! i = Some v /\
        exactPolicyJSONFields value (snd field) = true /\ decodeTyped (snd field) value = Some v) as Hmem.
    { intros field k value Hin Hk Hm. apply list_elem_of_lookup in Hin as [i Hi].
      destruct (lookup_lt_is_Some_2 vs i) as [v Hv]; [rewrite Hl; by eapply lookup_lt_Some|].
      exists i, v. split; [done|]. split; [done|]. apply (Hrec _ k); [by eapply Hplain'|done|]. by eapply Hset. }
    assert (exactPolicyJSONFields (JObj object) (GStruct fields) = true) as Hex.
    { apply known_denoted; [exact Hknown| |exact Hnd]. intros field k value Hin Hk Hm.
      by destruct (Hmem field k value Hin Hk Hm) as (i & v & _ & _ & He & _). }
    split; [exact Hex|].
    destruct (setMembers_total fields object (map (fun field => zero (snd field)) fields) Hnd Hknown) as [vs' Hvs'].
    { intros field k value Hin Hk Hm. destruct (Hmem field k value Hin Hk Hm) as (i & v & _ & _ & _ & Hd). by exists v. }
    rewrite Hvs'. cbn. do 2 f_equal.
    destruct (setMembers_inv fields object _ vs' Hnd Hknown Hkeys Hlen Hvs') as [Hl' Hall].
    apply (values_agree fields object); [congruence|congruence| |].
    + intros i field v' v k value Hi Hv' Hv Hk Hm. destruct (Hall i field v' Hi Hv') as [Hset' _].
      specialize (Hset' k value Hk Hm). specialize (Hset i field v k value Hi Hv Hk Hm).
      apply (Hrec _ k) in Hset as [_ Hset]; [congruence|by eapply Hplain'|done].
    + intros i field v' v Hi Hv' Hv Hno. destruct (Hall i field v' Hi Hv') as [_ Hkeep].
      specialize (Hkeep Hno). rewrite list_lookup_fmap, Hi in Hkeep. injection Hkeep as <-.
      symmetry. by eapply Hzero.
Qed.

(** At a plain type, a tree without repeated keys passes the exact check and is
    decoded to [v] exactly when it denotes [v]. *)
Lemma decodeTyped_exact value : reads_as value.
Proof. apply (jtree_nested_ind reads_as); auto using reads_scalar, reads_array, reads_object. Qed.

(** ** Typing *)

(** What a tree denotes at a plain type is a value of that type. *)
Lemma denotes_typed value : forall t v, plain_type t = true -> denotes t value v -> has_type t v.
Proof.
  induction value as [tok|l IH|object IH] using jtree_nested_ind; intros t v Ht Hd.
  - inversion Hd as [|s|text n Hn|b| |]; subst.
    + by apply zero_typed.
    + apply ty_string.
    + apply ty_uint. by eapply parseUint_u64.
    + apply ty_bool.
  - inversion Hd as [| | | |elem ? vs Hvs|]; subst. apply ty_slice. apply Forall_forall. intros v' Hv'.
    apply list_elem_of_lookup in Hv' as [i Hi]. destruct (Forall2_lookup_r _ _ _ _ _ Hvs Hi) as (x & Hx & Hden).
    apply (proj1 (Forall_forall _ _) IH x); [apply list_elem_of_lookup; by exists i|done|done].
  - inversion Hd as [| | | | |fields ? vs Hl Hk Hset Hzero]; subst. apply plain_fields in Ht as [Hnd Hplain].
    apply ty_struct. apply Forall2_same_length_lookup. split; [congruence|].
    intros i field v Hi Hv. assert (plain_type (snd field) = true) as Hp
      by (apply Hplain, list_elem_of_lookup; by exists i).
    destruct (jsonName field) as [k|] eqn:Hn; [destruct (decide (k ∈ map fst object)) as [Hin|Hin]|].
    + apply list_elem_of_fmap in Hin as ([k' value] & -> & Hin).
      refine (proj1 (Forall_forall _ _) IH _ Hin _ _ Hp _). by eapply Hset.
    + rewrite (Hzero i field v Hi Hv); [by apply zero_typed|]. intros k'. congruence.
    + rewrite (Hzero i field v Hi Hv); [by apply zero_typed|]. by rewrite Hn.
Qed.
