(* ===== verification/AppPolicy.v ===== *)
(** * The gateway's listener and policy

    Package [app].  First [listener.go]: the plan made of the listener policy, and
    the opening of exactly that listener.  Then [policy.go]: the policy document as
    Go types and as records, and its validation, which makes the configurations of
    all the components and tries them out. *)

From S2P Require Import Prelude AdmissionConfig GoJson ContractRequest HttpConfig ServerConfig ServerListener HttpUpstream.
From S2P Require Import AppJson.

Record listenerPolicy := mkListenerPolicy { lp_Type : list Z; lp_Host : list Z; lp_Port : Z }.
Record listenerPlan := mkListenerPlan { pl_address : Addr; pl_port : Z }.

Inductive listenerFailure := errListenerPolicyInvalid | errListenerOpenFailed.

Definition makeListenerPlan (policy : listenerPolicy) : result listenerFailure listenerPlan :=
  if negb (bool_decide (lp_Type policy = bs "tcp")) || (lp_Port policy =? 0) || (65535 <? lp_Port policy)
  then Err errListenerPolicyInvalid
  else match ParseAddr (lp_Host policy) with
       | None => Err errListenerPolicyInvalid
       | Some address =>
           if negb (bool_decide (Zone address = [])) || Is4In6 address || negb (IsLoopback address)
           then Err errListenerPolicyInvalid
           else Ok (mkListenerPlan address (u16 (lp_Port policy)))
       end.

Definition validListenerPlan (plan : listenerPlan) : bool :=
  IsValid (pl_address plan) && bool_decide (Zone (pl_address plan) = []) && negb (Is4In6 (pl_address plan))
  && IsLoopback (pl_address plan) && negb (pl_port plan =? 0).

(** A listener that was opened, by what its [Addr] answers; [None] is a panic. *)
Record tcpListener := mkTcpListener { tcp_id : nat; tcp_Addr : option netAddr }.

Definition validBoundListener (listener : tcpListener) (plan : listenerPlan) : bool :=
  match tcp_Addr listener with
  | Some (TCPAddr (Some (ip, port, zone))) =>
      if bool_decide (ip = []) || negb (bool_decide (zone = [])) || (port <=? 0) || (65535 <? port) then false
      else match AddrFromSlice ip with
           | None => false
           | Some bound =>
               if Is4In6 bound || negb (IsLoopback bound) then false
               else bool_decide (bound = pl_address plan) && (port =? pl_port plan)
           end
  | _ => false
  end.

(** [net.ListenTCP]: network, address and port to a listener, if any, and whether
    there was an error.  [None] is a nil function. *)
Abbreviation listenTCPFunc := (option (list Z -> list Z -> Z -> option tcpListener * bool)) (only parsing).

(** Listeners that were opened and closed. *)
Inductive listenEvent := ListenOpened (listener : tcpListener) | ListenClosed (listener : tcpListener).

Definition listen (plan : listenerPlan) (listenTCP : listenTCPFunc)
  : result listenerFailure tcpListener * list listenEvent :=
  match listenTCP with
  | None => (Err errListenerOpenFailed, [])
  | Some open_ =>
      if negb (validListenerPlan plan) then (Err errListenerOpenFailed, []) else
      let network := if Is4 (pl_address plan) then bs "tcp4" else bs "tcp6" in
      match open_ network (AsSlice (pl_address plan)) (pl_port plan) with
      | (Some listener, true) => (Err errListenerOpenFailed, [ListenOpened listener; ListenClosed listener])
      | (None, _) => (Err errListenerOpenFailed, [])
      | (Some listener, false) =>
          if negb (validBoundListener listener plan)
          then (Err errListenerOpenFailed, [ListenOpened listener; ListenClosed listener])
          else (Ok listener, [ListenOpened listener])
      end
  end.

(** ** Lemmas *)

(** A plan is for a numeric loopback address and a port that is not 0. *)
Definition loopback_plan (policy : listenerPolicy) (plan : listenerPlan) : Prop :=
  ParseAddr (lp_Host policy) = Some (pl_address plan) /\ pl_port plan = lp_Port policy /\
  0 < pl_port plan <= 65535 /\ Zone (pl_address plan) = [] /\ Is4In6 (pl_address plan) = false /\
  IsLoopback (pl_address plan) = true.

Lemma makeListenerPlan_Ok policy plan :
  0 <= lp_Port policy ->
  makeListenerPlan policy = Ok plan <-> lp_Type policy = bs "tcp" /\ loopback_plan policy plan.
Proof.
  intros Hp. unfold makeListenerPlan, loopback_plan. destruct plan as [address port]. cbn [pl_address pl_port]. split.
  - destruct (negb _ || _ || _) eqn:H1; [done|]. breflect.
    destruct (ParseAddr _) as [a|]; [|done]. destruct (negb _ || _ || _) eqn:H4; [done|]. breflect.
    intros [= <- <-]. unfold u16. rewrite Z.mod_small by lia. split_and!; try done; lia.
  - intros (Ht & -> & -> & Hr & Hz & H4 & Hl). rewrite Ht, Hz, H4, Hl. cbn [negb orb].
    rewrite !bool_decide_eq_true_2 by done. cbn [negb orb].
    replace (lp_Port policy =? 0) with false by lia. replace (65535 <? lp_Port policy) with false by lia.
    cbn [negb orb]. unfold u16. rewrite Z.mod_small by lia. done.
Qed.

Lemma loopback_plan_valid policy plan : loopback_plan policy plan -> validListenerPlan plan = true.
Proof.
  intros (_ & _ & Hp & Hz & H4 & Hl). unfold validListenerPlan. rewrite Hz, H4, Hl.
  rewrite bool_decide_eq_true_2 by done. replace (pl_port plan =? 0) with false by lia.
  by destruct (pl_address plan).
Qed.

(** What the check of a bound listener has seen. *)
Lemma validBoundListener_bound listener plan :
  validBoundListener listener plan = true <->
  exists ip port, tcp_Addr listener = Some (TCPAddr (Some (ip, port, []))) /\
    AddrFromSlice ip = Some (pl_address plan) /\ port = pl_port plan /\ 0 < port <= 65535 /\
    Is4In6 (pl_address plan) = false /\ IsLoopback (pl_address plan) = true.
Proof.
  unfold validBoundListener. split.
  - destruct (tcp_Addr listener) as [[[[[ip port] zone]|]| |]|]; try done.
    destruct (bool_decide (ip = []) || _ || _ || _) eqn:H1; [done|]. breflect.
    destruct (AddrFromSlice ip) as [a|] eqn:Ha; [|done]. destruct (Is4In6 a || _) eqn:H4; [done|]. breflect.
    intros [<-%bool_decide_eq_true Hport%Z.eqb_eq]%andb_true_iff. subst zone.
    exists ip, port. split_and!; try done; lia.
  - intros (ip & port & -> & Ha & -> & Hr & H4 & Hl). rewrite Ha, H4, Hl.
    assert (ip <> []) by (by intros ->). rewrite bool_decide_eq_false_2 by done.
    rewrite !bool_decide_eq_true_2 by done. cbn [negb orb andb].
    replace (pl_port plan <=? 0) with false by lia. replace (65535 <? pl_port plan) with false by lia.
    cbn. apply Z.eqb_refl.
Qed.

(** The two packages agree on what is a loopback address. *)
Lemma loopback_agrees ip a :
  AddrFromSlice ip = Some a -> Is4In6 a = false -> IsLoopback a = true -> IP_IsLoopback ip = true.
Proof.
  unfold AddrFromSlice, IP_IsLoopback, IP_To4. destruct (Nat.eqb (length ip) 4).
  - intros [= <-] _ Hl. exact Hl.
  - destruct (Nat.eqb (length ip) 16); [|done]. intros [= <-] H4. cbn [IsLoopback]. rewrite H4. intros Hl.
    apply bool_decide_eq_true in Hl as ->. reflexivity.
Qed.

(** A listener bound as planned is one that a server takes. *)
Lemma planned_listener_taken listener plan :
  validBoundListener listener plan = true -> validateListener (TCPListener (tcp_Addr listener)) = Ok tt.
Proof.
  intros (ip & port & -> & Ha & -> & Hr & H4 & Hl)%validBoundListener_bound. cbn.
  rewrite (loopback_agrees ip (pl_address plan)) by done. assert (ip <> []) by (by intros ->).
  rewrite bool_decide_eq_false_2 by done. cbn [negb orb].
  replace (pl_port plan <=? 0) with false by lia. by replace (65535 <? pl_port plan) with false by lia.
Qed.

(** [listen] opens at most one listener, and keeps it only when it is bound
    exactly as planned. *)
Lemma listen_exact plan f r events :
  listen plan f = (r, events) ->
  match r with
  | Ok l => events = [ListenOpened l] /\ validBoundListener l plan = true
  | Err _ => events = [] \/ exists l, events = [ListenOpened l; ListenClosed l]
  end.
Proof.
  unfold listen. destruct f as [open_|]; [|intros [= <- <-]; by left].
  destruct (negb (validListenerPlan plan)); [intros [= <- <-]; by left|].
  destruct (open_ _ _ _) as [[l|] [|]]; try (intros [= <- <-]; by left).
  - intros [= <- <-]. right. by exists l.
  - destruct (validBoundListener l plan) eqn:Hv; intros [= <- <-]; [done|]. right. by exists l.
Qed.

(** * The gateway policy *)

Definition policySchemaVersion : Z := 2.
Definition maximumPolicyTenants : Z := 1024.
Definition maximumPolicyCredentials : Z := 4096.
Definition maximumPolicyTimeoutMS : Z := 3600000.
Definition maximumForceTimeoutMS : Z := 60000.
Definition maximumEnvironmentNameLen : Z := 128.
Definition shutdownSchedulingMargin : Z := 5 * time_Second.
Definition maximumShutdownWait : Z := 3 * time_Hour.

(** ** The document *)

Record contractPolicy := mkContractPolicy {
  cp_PublicModel : list Z;
  cp_MaxBodyBytes : Z;
  cp_MaxMessageCount : Z;
  cp_MaxMessageTextBytes : Z;
  cp_MaxCompletionTokens : Z;
  cp_CompletionWeight : Z;
  cp_MaxRequestUnits : Z;
}.

Record tenantPolicy := mkTenantPolicy {
  tp_ID : Z;
  tp_Weight : Z;
  tp_Queue : QueueLimits;
  tp_Inflight : InflightLimits;
  tp_PreDispatchCount : Z;
  tp_BearerTokenEnvs : list (list Z);
}.

(** [queuePolicy] and [inflightPolicy] are converted to the limits of package
    [admission], whose fields are the same. *)
Record admissionPolicy := mkAdmissionPolicy {
  ap_BaseQuantum : Z;
  ap_DeficitCap : Z;
  ap_GlobalQueue : QueueLimits;
  ap_GlobalInflight : InflightLimits;
  ap_Tenants : list tenantPolicy;
}.

Record httpPolicy := mkHttpPolicy {
  hp_DefaultQueueTimeoutMS : Z;
  hp_BodyReadTimeoutMS : Z;
  hp_UpstreamTimeoutMS : Z;
  hp_StreamReadTimeoutMS : Z;
  hp_StreamEventTimeoutMS : Z;
  hp_MaxResponseBodyBytes : Z;
  hp_MaxStreamEventBytes : Z;
  hp_MaxStreamEvents : Z;
  hp_GlobalPreDispatchCount : Z;
}.

Record upstreamPolicy := mkUpstreamPolicy {
  us_Endpoint : list Z;
  us_BearerTokenEnv : list Z;
  us_ConnectTimeoutMS : Z;
  us_TLSHandshakeTimeoutMS : Z;
  us_ResponseHeaderTimeoutMS : Z;
  us_IdleConnectionTimeoutMS : Z;
  us_MaxResponseHeaderBytes : Z;
  us_MaxConnections : Z;
}.

Record serverPolicy := mkServerPolicy {
  sv_HeaderReadTimeoutMS : Z;
  sv_ResponseWriteTimeoutMS : Z;
  sv_IdleTimeoutMS : Z;
  sv_GraceTimeoutMS : Z;
  sv_ForceTimeoutMS : Z;
  sv_HeaderReadEnvelopeBytes : Z;
  sv_MaxConnections : Z;
}.

Record policyDocument := mkPolicyDocument {
  pd_SchemaVersion : Z;
  pd_Listener : listenerPolicy;
  pd_Contract : contractPolicy;
  pd_Admission : admissionPolicy;
  pd_HTTP : httpPolicy;
  pd_Upstream : upstreamPolicy;
  pd_Server : serverPolicy;
}.

(** ** The document as a Go type *)

Definition queueType : gotype :=
  GStruct [tagged "Count" "count" GUint64; tagged "Bytes" "bytes" GUint64; tagged "Work" "work" GUint64].
Definition inflightType : gotype := GStruct [tagged "Count" "count" GUint64; tagged "Work" "work" GUint64].

Definition listenerType : gotype :=
  GStruct [tagged "Type" "type" GString; tagged "Host" "host" GString; tagged "Port" "port" GUint64].

Definition contractType : gotype :=
  GStruct [tagged "PublicModel" "public_model" GString;
           tagged "MaxBodyBytes" "max_body_bytes" GUint64;
           tagged "MaxMessageCount" "max_message_count" GUint64;
           tagged "MaxMessageTextBytes" "max_message_text_bytes" GUint64;
           tagged "MaxCompletionTokens" "max_completion_tokens" GUint64;
           tagged "CompletionWeight" "completion_weight" GUint64;
           tagged "MaxRequestUnits" "max_request_units" GUint64].

Definition tenantType : gotype :=
  GStruct [tagged "ID" "id" GUint64;
           tagged "Weight" "weight" GUint64;
           tagged "Queue" "queue" queueType;
           tagged "Inflight" "inflight" inflightType;
           tagged "PreDispatchCount" "pre_dispatch_count" GUint64;
           tagged "BearerTokenEnvs" "bearer_token_envs" (GSlice GString)].

Definition admissionType : gotype :=
  GStruct [tagged "BaseQuantum" "base_quantum" GUint64;
           tagged "DeficitCap" "deficit_cap" GUint64;
           tagged "GlobalQueue" "global_queue" queueType;
           tagged "GlobalInflight" "global_inflight" inflightType;
           tagged "Tenants" "tenants" (GSlice tenantType)].

Definition httpType : gotype :=
  GStruct [tagged "DefaultQueueTimeoutMS" "default_queue_timeout_ms" GUint64;
           tagged "BodyReadTimeoutMS" "body_read_timeout_ms" GUint64;
           tagged "UpstreamTimeoutMS" "upstream_timeout_ms" GUint64;
           tagged "StreamReadTimeoutMS" "stream_read_timeout_ms" GUint64;
           tagged "StreamEventTimeoutMS" "stream_event_timeout_ms" GUint64;
           tagged "MaxResponseBodyBytes" "max_response_body_bytes" GUint64;
           tagged "MaxStreamEventBytes" "max_stream_event_bytes" GUint64;
           tagged "MaxStreamEvents" "max_stream_events" GUint64;
           tagged "GlobalPreDispatchCount" "global_pre_dispatch_count" GUint64].

Definition upstreamType : gotype :=
  GStruct [tagged "Endpoint" "endpoint" GString;
           tagged "BearerTokenEnv" "bearer_token_env" GString;
           tagged "ConnectTimeoutMS" "connect_timeout_ms" GUint64;
           tagged "TLSHandshakeTimeoutMS" "tls_handshake_timeout_ms" GUint64;
           tagged "ResponseHeaderTimeoutMS" "response_header_timeout_ms" GUint64;
           tagged "IdleConnectionTimeoutMS" "idle_connection_timeout_ms" GUint64;
           tagged "MaxResponseHeaderBytes" "max_response_header_bytes" GUint64;
           tagged "MaxConnections" "max_connections" GUint64].

Definition serverType : gotype :=
  GStruct [tagged "HeaderReadTimeoutMS" "header_read_timeout_ms" GUint64;
           tagged "ResponseWriteTimeoutMS" "response_write_timeout_ms" GUint64;
           tagged "IdleTimeoutMS" "idle_timeout_ms" GUint64;
           tagged "GraceTimeoutMS" "grace_timeout_ms" GUint64;
           tagged "ForceTimeoutMS" "force_timeout_ms" GUint64;
           tagged "HeaderReadEnvelopeBytes" "header_read_envelope_bytes" GUint64;
           tagged "MaxConnections" "max_connections" GUint64].

Definition policyType : gotype :=
  GStruct [tagged "SchemaVersion" "schema_version" GUint64;
           tagged "Listener" "listener" listenerType;
           tagged "Contract" "contract" contractType;
           tagged "Admission" "admission" admissionType;
           tagged "HTTP" "http" httpType;
           tagged "Upstream" "upstream" upstreamType;
           tagged "Server" "server" serverType].

(** ** From the decoded value to the records *)

Definition queue_of (v : govalue) : option QueueLimits :=
  match v with VStruct [VUint count; VUint bytes; VUint work] => Some (MkQueueLimits count bytes work) | _ => None end.
Definition inflight_of (v : govalue) : option InflightLimits :=
  match v with VStruct [VUint count; VUint work] => Some (MkInflightLimits count work) | _ => None end.

Definition string_of (v : govalue) : option (list Z) := match v with VString s => Some s | _ => None end.

Definition listener_of (v : govalue) : option listenerPolicy :=
  match v with
  | VStruct [VString type_; VString host; VUint port] => Some (mkListenerPolicy type_ host port)
  | _ => None
  end.

Definition contract_of (v : govalue) : option contractPolicy :=
  match v with
  | VStruct [VString model; VUint a; VUint b; VUint c; VUint d; VUint e; VUint f] =>
      Some (mkContractPolicy model a b c d e f)
  | _ => None
  end.

Definition tenant_of (v : govalue) : option tenantPolicy :=
  match v with
  | VStruct [VUint id; VUint weight; queue; inflight; VUint count; VSlice envs] =>
      queue ← queue_of queue; inflight ← inflight_of inflight; envs ← mapM string_of envs;
      Some (mkTenantPolicy id weight queue inflight count envs)
  | _ => None
  end.

Definition admission_of (v : govalue) : option admissionPolicy :=
  match v with
  | VStruct [VUint quantum; VUint cap; queue; inflight; VSlice tenants] =>
      queue ← queue_of queue; inflight ← inflight_of inflight; tenants ← mapM tenant_of tenants;
      Some (mkAdmissionPolicy quantum cap queue inflight tenants)
  | _ => None
  end.

Definition http_of (v : govalue) : option httpPolicy :=
  match v with
  | VStruct [VUint a; VUint b; VUint c; VUint d; VUint e; VUint f; VUint g; VUint h; VUint i] =>
      Some (mkHttpPolicy a b c d e f g h i)
  | _ => None
  end.

Definition upstream_of (v : govalue) : option upstreamPolicy :=
  match v with
  | VStruct [VString endpoint; VString env; VUint a; VUint b; VUint c; VUint d; VUint e; VUint f] =>
      Some (mkUpstreamPolicy endpoint env a b c d e f)
  | _ => None
  end.

Definition serverPolicy_of (v : govalue) : option serverPolicy :=
  match v with
  | VStruct [VUint a; VUint b; VUint c; VUint d; VUint e; VUint f; VUint g] =>
      Some (mkServerPolicy a b c d e f g)
  | _ => None
  end.

Definition document_of (v : govalue) : option policyDocument :=
  match v with
  | VStruct [VUint version; listener; contract; admission; http; upstream; server] =>
      listener ← listener_of listener; contract ← contract_of contract; admission ← admission_of admission;
      http ← http_of http; upstream ← upstream_of upstream; server ← serverPolicy_of server;
      Some (mkPolicyDocument version listener contract admission http upstream server)
  | _ => None
  end.

(** ** Helpers *)

Definition policyDuration (milliseconds maximum : Z) : Z * bool :=
  if (milliseconds =? 0) || (maximum <? milliseconds) then (0, false)
  else (int64 (int64 milliseconds * time_Millisecond), true).

Definition environmentNameStart (value : Z) : bool := (value =? 95) || between 65 90 value.
Definition environmentNameContinue (value : Z) : bool := environmentNameStart value || between 48 57 value.

Definition validEnvironmentName (name : list Z) : bool :=
  match name with
  | [] => false
  | first :: rest =>
      if maximumEnvironmentNameLen <? Z.of_nat (length name) then false
      else if negb (environmentNameStart first) then false
      else forallb environmentNameContinue rest
  end.

(** ** Validation; every error is [errPolicyRejected] *)

Inductive policyRejected := errPolicyRejected.

Record credentialReference := mkCredentialReference { cf_tenant : TenantID; cf_env : list Z }.

Record validatedPolicy := mkValidatedPolicy {
  vp_listener : listenerPlan;
  vp_parser : Parser;
  vp_admission : AdmissionConfig.Config;
  vp_http : HttpConfig;
  vp_upstream : HTTPUpstreamConfig;
  vp_server : ServerConfig;
  vp_credentials : list credentialReference;
  vp_upstreamTokenEnv : list Z;
  vp_shutdownWait : Z;
}.

(** [value, ok := policyDuration(...); if !ok { return errPolicyRejected }] *)
Definition durationOf (milliseconds maximum : Z) : result policyRejected Z :=
  let '(value, ok) := policyDuration milliseconds maximum in
  if negb ok then Err errPolicyRejected else Ok value.

(** What the loops over the tenants gather. *)
Record admissionAcc := mkAdmissionAcc {
  aa_tenants : list TenantConfig;
  aa_limits : list TenantPreDispatchLimit;
  aa_credentials : list credentialReference;
  aa_names : gset (list Z);
}.

(** The inner loop, over the names of a tenant's tokens. *)
Fixpoint addCredentials (id : TenantID) (names : list (list Z)) (acc : admissionAcc)
  : result policyRejected admissionAcc :=
  match names with
  | [] => Ok acc
  | name :: names =>
      _ ← guard_err (negb (validEnvironmentName name)) errPolicyRejected;
      _ ← guard_err (bool_decide (name ∈ aa_names acc)) errPolicyRejected;
      let credentials := aa_credentials acc ++ [mkCredentialReference id name] in
      _ ← guard_err (maximumPolicyCredentials <? Z.of_nat (length credentials)) errPolicyRejected;
      addCredentials id names
        (mkAdmissionAcc (aa_tenants acc) (aa_limits acc) credentials ({[name]} ∪ aa_names acc))
  end.

Fixpoint addTenants (configured : list tenantPolicy) (acc : admissionAcc) : result policyRejected admissionAcc :=
  match configured with
  | [] => Ok acc
  | t :: configured =>
      _ ← guard_err ((tp_ID t =? 0) || (max_uint32 <? tp_ID t)
                     || (Z.of_nat (length (tp_BearerTokenEnvs t)) =? 0)) errPolicyRejected;
      let id := u32 (tp_ID t) in
      acc ← addCredentials id (tp_BearerTokenEnvs t)
        (mkAdmissionAcc (aa_tenants acc ++ [MkTenantConfig id (tp_Weight t) (tp_Queue t) (tp_Inflight t)])
           (aa_limits acc ++ [mkTenantLimit id (tp_PreDispatchCount t)]) (aa_credentials acc) (aa_names acc));
      addTenants configured acc
  end.

Definition validateAdmissionPolicy (document : policyDocument)
  : result policyRejected (AdmissionConfig.Config * list TenantPreDispatchLimit * list credentialReference) :=
  let tenants := ap_Tenants (pd_Admission document) in
  _ ← guard_err ((Z.of_nat (length tenants) =? 0) || (maximumPolicyTenants <? Z.of_nat (length tenants)))
        errPolicyRejected;
  acc ← addTenants tenants (mkAdmissionAcc [] [] [] ∅);
  Ok (MkConfig (cp_MaxBodyBytes (pd_Contract document)) (cp_MaxRequestUnits (pd_Contract document))
        (ap_BaseQuantum (pd_Admission document)) (ap_DeficitCap (pd_Admission document))
        (ap_GlobalQueue (pd_Admission document)) (ap_GlobalInflight (pd_Admission document)) (aa_tenants acc),
      aa_limits acc, aa_credentials acc).

(** [strconv.Itoa] of an index. *)
Fixpoint itoaFrom (fuel n : nat) (acc : list Z) : list Z :=
  let acc := 48 + Z.of_nat (n mod 10) :: acc in
  match fuel with
  | O => acc
  | S fuel => if Nat.ltb n 10 then acc else itoaFrom fuel (n / 10) acc
  end.
Definition itoa (n : nat) : list Z := itoaFrom n n [].

Definition preflightToken (index : nat) : list Z := bs "policy-preflight-" ++ itoa index.

Definition withCredentials (c : HttpConfig) (credentials : list Credential) : HttpConfig :=
  mkHttpConfig (hc_DefaultQueueTimeout c) (hc_BodyReadTimeout c) (hc_UpstreamTimeout c) (hc_StreamReadTimeout c)
    (hc_StreamEventTimeout c) (hc_MaxResponseBodyBytes c) (hc_MaxStreamEventBytes c) (hc_MaxStreamEvents c)
    (hc_GlobalPreDispatchLimit c) (hc_TenantPreDispatch c) credentials.

(** The errors of a component, reduced to [errPolicyRejected]. *)
Definition rejecting {E A} (r : result E A) : result policyRejected A :=
  match r with Ok a => Ok a | Err _ => Err errPolicyRejected end.

(** ** The parts that depend on the digest and on [net/url] *)

Section Policy.
Context (sha256 : list Z -> list Z).
Context (urlParse : list Z -> option parsedURL) (urlString : parsedURL -> list Z).

Definition validateUpstreamPolicy (configured : upstreamPolicy) : result policyRejected HTTPUpstreamConfig :=
  connectTimeout ← durationOf (us_ConnectTimeoutMS configured) maximumPolicyTimeoutMS;
  tlsTimeout ← durationOf (us_TLSHandshakeTimeoutMS configured) maximumPolicyTimeoutMS;
  headerTimeout ← durationOf (us_ResponseHeaderTimeoutMS configured) maximumPolicyTimeoutMS;
  let '(idleTimeout, ok) := policyDuration (us_IdleConnectionTimeoutMS configured) maximumPolicyTimeoutMS in
  _ ← guard_err (negb ok || (max_int64 <? us_MaxResponseHeaderBytes configured)) errPolicyRejected;
  let config := mkUpstreamConfig (us_Endpoint configured) connectTimeout tlsTimeout headerTimeout idleTimeout
    (int64 (us_MaxResponseHeaderBytes configured)) (us_MaxConnections configured) in
  _ ← rejecting (NewHTTPUpstream urlParse urlString config (bs "policy-preflight"));
  Ok config.

Definition validateServerPolicy (configured : serverPolicy) (timeouts : TimeoutPolicy)
  : result policyRejected (ServerConfig * Z) :=
  headerTimeout ← durationOf (sv_HeaderReadTimeoutMS configured) maximumPolicyTimeoutMS;
  writeTimeout ← durationOf (sv_ResponseWriteTimeoutMS configured) maximumPolicyTimeoutMS;
  idleTimeout ← durationOf (sv_IdleTimeoutMS configured) maximumPolicyTimeoutMS;
  graceTimeout ← durationOf (sv_GraceTimeoutMS configured) maximumPolicyTimeoutMS;
  forceTimeout ← durationOf (sv_ForceTimeoutMS configured) maximumForceTimeoutMS;
  let config := mkServerConfig headerTimeout writeTimeout idleTimeout graceTimeout forceTimeout
    (sv_HeaderReadEnvelopeBytes configured) (sv_MaxConnections configured) in
  _ ← rejecting (server_ValidateConfig config timeouts);
  let shutdownWait := int64 (int64 (graceTimeout + int64 (2 * forceTimeout)) + shutdownSchedulingMargin) in
  _ ← guard_err ((shutdownWait <=? 0) || (maximumShutdownWait <? shutdownWait)) errPolicyRejected;
  Ok (config, shutdownWait).

Definition limitsOf (c : contractPolicy) : Limits :=
  mkLimits (cp_MaxBodyBytes c) (cp_MaxMessageCount c) (cp_MaxMessageTextBytes c)
    (cp_MaxCompletionTokens c) (cp_CompletionWeight c) (cp_MaxRequestUnits c).

(** The preflight credentials, numbered. *)
Definition preflightCredentials (credentials : list credentialReference) : list Credential :=
  imap (fun index c => mkCredential (cf_tenant c) (preflightToken index)) credentials.

Definition validatePolicy (document : policyDocument) : result policyRejected validatedPolicy :=
  _ ← guard_err (negb (pd_SchemaVersion document =? policySchemaVersion)) errPolicyRejected;
  listener ← rejecting (makeListenerPlan (pd_Listener document));
  parser ← rejecting (NewParser (cp_PublicModel (pd_Contract document)) (limitsOf (pd_Contract document)));
  '(admissionConfig, tenantLimits, credentials) ← validateAdmissionPolicy document;
  _ ← rejecting (AdmissionConfig.ValidateConfig admissionConfig);
  defaultQueueTimeout ← durationOf (hp_DefaultQueueTimeoutMS (pd_HTTP document)) maximumPolicyTimeoutMS;
  bodyReadTimeout ← durationOf (hp_BodyReadTimeoutMS (pd_HTTP document)) maximumPolicyTimeoutMS;
  upstreamTimeout ← durationOf (hp_UpstreamTimeoutMS (pd_HTTP document)) maximumPolicyTimeoutMS;
  streamReadTimeout ← durationOf (hp_StreamReadTimeoutMS (pd_HTTP document)) maximumPolicyTimeoutMS;
  streamEventTimeout ← durationOf (hp_StreamEventTimeoutMS (pd_HTTP document)) maximumPolicyTimeoutMS;
  let httpConfig := mkHttpConfig defaultQueueTimeout bodyReadTimeout upstreamTimeout streamReadTimeout
    streamEventTimeout (hp_MaxResponseBodyBytes (pd_HTTP document)) (hp_MaxStreamEventBytes (pd_HTTP document))
    (hp_MaxStreamEvents (pd_HTTP document)) (hp_GlobalPreDispatchCount (pd_HTTP document)) tenantLimits [] in
  let preflightHTTPConfig := withCredentials httpConfig (preflightCredentials credentials) in
  _ ← rejecting (http_ValidateConfig sha256 preflightHTTPConfig parser admissionConfig);
  upstreamConfig ← validateUpstreamPolicy (pd_Upstream document);
  _ ← guard_err (negb (validEnvironmentName (us_BearerTokenEnv (pd_Upstream document)))) errPolicyRejected;
  _ ← guard_err (existsb (fun c => bool_decide (cf_env c = us_BearerTokenEnv (pd_Upstream document))) credentials)
        errPolicyRejected;
  '(serverConfig, shutdownWait) ← validateServerPolicy (pd_Server document)
    (mkTimeoutPolicy defaultQueueTimeout bodyReadTimeout upstreamTimeout);
  Ok (mkValidatedPolicy listener parser admissionConfig httpConfig upstreamConfig serverConfig credentials
        (us_BearerTokenEnv (pd_Upstream document)) shutdownWait).

(** [parsePolicy]; a decoded value that is no document cannot be. *)
Definition parsePolicy (data : list Z) : comp (result policyRejected validatedPolicy) :=
  match decodePolicyJSON data (Some policyType) with
  | Done (Ok v) =>
      match document_of v with
      | Some document => Done (validatePolicy document)
      | None => Panicked "a decoded value of another type"
      end
  | Done (Err _) => Done (Err errPolicyRejected)
  | Panicked e => Panicked e
  | OutOfFuel => OutOfFuel
  end.
End Policy.
