(* ===== verification/AppSecrets.v ===== *)
(** * Secrets

    Package [app], [secrets.go]: the tokens named by the policy are read from
    the environment, removed from it, and checked together. *)

From S2P Require Import Prelude.
From S2P Require Import AdmissionConfig.
From S2P Require Import HttpConfig.
From S2P Require Import AppPolicy.

Definition maximumSecretBytes : Z := 4096.

(** [secretSource]: a lookup that changes nothing, and a removal that may fail. *)
Record secretSource (S : Type) := mkSecretSource {
  LookupEnv : list Z -> S -> option (list Z);
  Unsetenv : list Z -> S -> bool * S;
}.
Arguments mkSecretSource {S} _ _.
Arguments LookupEnv {S} _ _ _.
Arguments Unsetenv {S} _ _ _.

(** The process environment. *)
Abbreviation environ := (gmap (list Z) (list Z)) (only parsing).
Definition systemSecretSource : secretSource environ :=
  mkSecretSource (fun name env => env !! name) (fun name env => (false, delete name env)).

Record resolvedSecrets := mkResolvedSecrets { rs_credentials : list Credential; rs_upstream : list Z }.

(** [clear] *)
Definition clearSecrets (secrets : resolvedSecrets) : resolvedSecrets := mkResolvedSecrets [] [].

Inductive secretError := errSecretResolutionFailed.

Section Secrets.
Context {S : Type} (sha256 : list Z -> list Z).

(** What [consume] captures: the source's state, the digests seen, and [failed]. *)
Record consumeState := mkConsumeState { cs_source : S; cs_seen : gset (list Z); cs_failed : bool }.

Definition consume (source : secretSource S) (name : list Z) : M consumeState (list Z) := fun s =>
  let value := LookupEnv source name (cs_source s) in
  let '(err, env) := Unsetenv source name (cs_source s) in
  let failed := cs_failed s || err in
  match value with
  | Some value =>
      if bool_decide (value = []) || (maximumSecretBytes <? Z.of_nat (length value))
      then Done ([], mkConsumeState env (cs_seen s) true)
      else
        let digest := sha256 value in
        Done (value, mkConsumeState env ({[digest]} ∪ cs_seen s)
                       (failed || bool_decide (digest ∈ cs_seen s)))
  | None => Done ([], mkConsumeState env (cs_seen s) true)
  end.

(** The loop over the references. *)
Fixpoint consumeAll (source : secretSource S) (references : list credentialReference)
  : M consumeState (list Credential) :=
  match references with
  | [] => mret []
  | reference :: references =>
      token ← consume source (cf_env reference);
      credentials ← consumeAll source references;
      mret (mkCredential (cf_tenant reference) token :: credentials)
  end.

(** [resolveSecrets]; [None] is a nil source. *)
Definition resolveSecrets (policy : validatedPolicy) (source : option (secretSource S)) (env : S)
  : comp (result secretError resolvedSecrets * S) :=
  match source with
  | None => Done (Err errSecretResolutionFailed, env)
  | Some source =>
      match (credentials ← consumeAll source (vp_credentials policy);
             upstream ← consume source (vp_upstreamTokenEnv policy);
             mret (mkResolvedSecrets credentials upstream)) (mkConsumeState env ∅ false) with
      | Done (resolved, s) =>
          if cs_failed s then Done (Err errSecretResolutionFailed, cs_source s) else Done (Ok resolved, cs_source s)
      | Panicked e => Panicked e
      | OutOfFuel => OutOfFuel
      end
  end.
End Secrets.
Arguments consumeState : clear implicits.
Arguments mkConsumeState {S} _ _ _.
Arguments cs_source {S} _.
Arguments cs_seen {S} _.
Arguments cs_failed {S} _.

(** Whatever the source, the attempt comes to an answer. *)
Lemma consume_total {S} sha256 (source : secretSource S) name s :
  exists token s', consume sha256 source name s = Done (token, s').
Proof.
  unfold consume. destruct (Unsetenv _ _ _) as [err env], (LookupEnv _ _ _) as [value|]; [destruct (_ || _)|]; by eexists _, _.
Qed.

Lemma consumeAll_total {S} sha256 (source : secretSource S) references : forall s,
  exists credentials s', consumeAll sha256 source references s = Done (credentials, s').
Proof.
  induction references as [|r rs IH]; intros s; [by eexists _, _|]. cbn [consumeAll]. unfold mbind, M_bind.
  destruct (consume_total sha256 source (cf_env r) s) as (t & s1 & ->). destruct (IH s1) as (cs & s2 & ->). by eexists _, _.
Qed.

Lemma resolveSecrets_total {S} sha256 policy (source : option (secretSource S)) env :
  exists r env', resolveSecrets sha256 policy source env = Done (r, env').
Proof.
  unfold resolveSecrets. destruct source as [source|]; [|by eexists _, _]. unfold mbind, M_bind.
  destruct (consumeAll_total sha256 source (vp_credentials policy) (mkConsumeState env ∅ false)) as (cs & s1 & ->).
  destruct (consume_total sha256 source (vp_upstreamTokenEnv policy) s1) as (t & s2 & ->). cbn.
  destruct (cs_failed s2); by eexists _, _.
Qed.

(** ** On the process environment *)

(** Every name that a policy refers to, in the order of resolution. *)
Definition secret_names (policy : validatedPolicy) : list (list Z) :=
  map cf_env (vp_credentials policy) ++ [vp_upstreamTokenEnv policy].

(** What has been removed. *)
Definition without (env : environ) (names : list (list Z)) : environ := foldl (fun e n => delete n e) env names.

Lemma without_lookup names : forall env n,
  without env names !! n = if bool_decide (n ∈ names) then None else env !! n.
Proof.
  induction names as [|m names IH]; intros env n; [done|]. cbn. fold (without (delete m env) names).
  rewrite IH. destruct (decide (n = m)) as [->|Hn].
  - rewrite lookup_delete_eq. rewrite (bool_decide_eq_true_2 (m ∈ m :: names)) by by left.
    by case_bool_decide.
  - rewrite lookup_delete_ne by done. repeat case_bool_decide; try done; rewrite ->elem_of_cons in *; intuition congruence.
Qed.

(** A value that may be used. *)
Definition usable (value : list Z) : Prop := value <> [] /\ Z.of_nat (length value) <= maximumSecretBytes.

(** What is read under other names is there without [name]. *)
Lemma Forall2_names (name : list Z) (env : environ) names values :
  name ∉ names ->
  Forall2 (fun n v => env !! n = Some v /\ usable v) names values ->
  Forall2 (fun n v => delete name env !! n = Some v /\ usable v) names values.
Proof.
  intros Hn. induction 1 as [|n v names values [Hv Hu] _ IH]; [constructor|].
  apply not_elem_of_cons in Hn as [Hn Hns]. constructor; [|by apply IH]. by rewrite lookup_delete_ne.
Qed.

Section System.
Context (sha256 : list Z -> list Z).

(** The environment holds [values] under [names]: each is usable, no name is
    read twice, and the digests differ, also from those of [seen]. *)
Record held (env : environ) (seen : gset (list Z)) (names values : list (list Z)) : Prop := mkHeld {
  held_values : Forall2 (fun name value => env !! name = Some value /\ usable value) names values;
  held_names : NoDup names;
  held_digests : NoDup (map sha256 values);
  held_fresh : forall value, value ∈ values -> sha256 value ∉ seen;
}.

Lemma held_nil env seen values : held env seen [] values <-> values = [].
Proof.
  split; [by intros [H _ _ _]; inversion H|]. intros ->.
  split; [by constructor|constructor|constructor|by intros ? ?%not_elem_of_nil].
Qed.

Lemma held_cons env seen name names values :
  held env seen (name :: names) values <->
  exists v vs, values = v :: vs /\ env !! name = Some v /\ usable v /\ (sha256 v ∉ seen) /\
    held (delete name env) ({[sha256 v]} ∪ seen) names vs.
Proof.
  split.
  - intros [HF [Hn Hnn]%NoDup_cons Hd Hf]. inversion HF as [|? v ? vs [He Hu] HF']; subst.
    apply NoDup_cons in Hd as [Hv Hd]. exists v, vs. split_and!; [done..|by apply Hf; left|].
    split; [|done|done|].
    + eapply (Forall2_names name); [done|exact HF'].
    + intros w Hw. rewrite elem_of_union, elem_of_singleton. intros [E|Hs].
      * apply Hv. rewrite <-E. by apply list_elem_of_fmap_2.
      * by apply (Hf w); [right|].
  - intros (v & vs & -> & He & Hu & Hs & [HF Hn Hd Hf]). split.
    + constructor; [done|]. eapply Forall2_impl; [exact HF|]. cbn. intros m w [Hm ?]. split; [|done].
      by apply lookup_delete_Some in Hm as [_ ?].
    + apply NoDup_cons. split; [|done]. intros Hin.
      apply list_elem_of_lookup in Hin as [i Hi]. destruct (Forall2_lookup_l _ _ _ _ _ HF Hi) as (w & _ & Hw & _).
      by rewrite lookup_delete_eq in Hw.
    + cbn. apply NoDup_cons. split; [|done]. intros (w & E & Hw)%list_elem_of_fmap.
      apply (Hf w Hw). rewrite <-E. apply elem_of_union_l. by apply elem_of_singleton.
    + intros w [->|Hw]%elem_of_cons; [done|]. intros Hs'. apply (Hf w Hw). by apply elem_of_union_r.
Qed.

Abbreviation consume_ := (consume sha256 systemSecretSource).

(** One name: it is always removed, and the attempt fails exactly when no value of
    the environment may be used. *)
Lemma consume_system name env seen failed :
  exists token seen' failed',
    consume_ name (mkConsumeState env seen failed) = Done (token, mkConsumeState (delete name env) seen' failed') /\
    (failed' = false -> seen' = {[sha256 token]} ∪ seen) /\
    (forall v, failed' = false /\ v = token <->
      failed = false /\ env !! name = Some v /\ usable v /\ sha256 v ∉ seen).
Proof.
  unfold consume, systemSecretSource, usable. cbn. rewrite orb_false_r.
  assert (forall A B C : Prop, (C -> False) -> (true = false /\ A <-> B /\ C)) as Hbad
    by (intros A B C HC; split; [by intros [? _]|tauto]).
  destruct (env !! name) as [w|]; [|exists [], seen, true; split_and!; [done..|intros v; apply Hbad; intuition congruence]].
  case_bool_decide as E1; cbn; [exists [], seen, true; split_and!; [done..|intros v; apply Hbad; intuition congruence]|].
  destruct (maximumSecretBytes <? Z.of_nat (length w)) eqn:E2.
  - exists [], seen, true. split_and!; [done..|]. intros v. apply Z.ltb_lt in E2. split; [by intros [? _]|].
    intros (_ & [= ->] & [_ ?] & _). lia.
  - exists w, ({[sha256 w]} ∪ seen), (failed || bool_decide (sha256 w ∈ seen)). apply Z.ltb_ge in E2.
    split_and!; [done..|]. intros v. rewrite orb_false_iff, bool_decide_eq_false. intuition congruence.
Qed.

(** The names alone, in the order of resolution. *)
Fixpoint consumeNames (names : list (list Z)) : M (consumeState environ) (list (list Z)) :=
  match names with
  | [] => mret []
  | name :: names => token ← consume_ name; tokens ← consumeNames names; mret (token :: tokens)
  end.

Lemma consumeNames_system names : forall env seen failed,
  exists tokens seen' failed',
    consumeNames names (mkConsumeState env seen failed) =
      Done (tokens, mkConsumeState (without env names) seen' failed') /\
    length tokens = length names /\
    (forall values, failed' = false /\ values = tokens <-> failed = false /\ held env seen names values).
Proof.
  induction names as [|name names IH]; intros env seen failed.
  { exists [], seen, failed. split_and!; [done..|]. intros values. by rewrite held_nil. }
  destruct (consume_system name env seen failed) as (t & seen1 & f1 & E1 & Hseen & H1).
  destruct (IH (delete name env) seen1 f1) as (ts & seen2 & f2 & E2 & Hl & H2).
  exists (t :: ts), seen2, f2. split_and!.
  - cbn [consumeNames]. unfold mbind, M_bind. rewrite E1. by rewrite E2.
  - cbn. by rewrite Hl.
  - intros values. rewrite held_cons. split.
    + intros [-> ->]. destruct (proj1 (H2 ts)) as [-> Hh]; [done|].
      destruct (proj1 (H1 t)) as (-> & He & Hu & Hs); [done|]. split; [done|]. rewrite Hseen in Hh by done. by exists t, ts.
    + intros (-> & v & vs & -> & He & Hu & Hs & Hh).
      destruct (proj2 (H1 v)) as [-> ->]; [done|]. rewrite Hseen in H2 by done. by destruct (proj2 (H2 vs)) as [-> ->].
Qed.

(** The loop over the references reads their names. *)
Lemma consumeAll_names (references : list credentialReference)
  (k : list Credential -> M (consumeState environ) resolvedSecrets) : forall s : consumeState environ,
  (consumeAll sha256 systemSecretSource references ≫= k) s =
  (consumeNames (map cf_env references) ≫=
    (fun tokens => k (zip_with mkCredential (map cf_tenant references) tokens))) s.
Proof.
  revert k. induction references as [|r rs IH]; intros k s; [done|].
  cbn [consumeAll consumeNames map]. unfold mbind, M_bind in *. destruct (consume_ (cf_env r) s) as [[t s1]| |]; [|done..].
  specialize (IH (fun cs => k (mkCredential (cf_tenant r) t :: cs)) s1). cbn in *.
  destruct (consumeAll _ _ rs s1) as [[cs s2]| |], (consumeNames (map cf_env rs) s1) as [[ts s3]| |]; cbn in *;
    try done.
Qed.

Lemma consumeNames_app names name s :
  consumeNames (names ++ [name]) s =
  (tokens ← consumeNames names; token ← consume_ name; mret (tokens ++ [token])) s.
Proof.
  revert s. induction names as [|n names IH]; intros s; cbn [consumeNames app]; unfold mbind, M_bind, mret, M_ret in *;
    [by destruct (consume_ name s) as [[? ?]| |]|].
  destruct (consume_ n s) as [[t s1]| |]; [|done..].
  rewrite IH. destruct (consumeNames names s1) as [[ts s2]| |]; [|done..].
  by destruct (consume_ name s2) as [[? ?]| |].
Qed.

(** The attempt removes every name, whatever becomes of it, and succeeds with
    exactly the values held. *)
Lemma resolveSecrets_system policy env :
  exists r,
    resolveSecrets sha256 policy (Some systemSecretSource) env = Done (r, without env (secret_names policy)) /\
    forall resolved, r = Ok resolved <->
      map cr_Tenant (rs_credentials resolved) = map cf_tenant (vp_credentials policy) /\
      held env ∅ (secret_names policy) (map cr_Token (rs_credentials resolved) ++ [rs_upstream resolved]).
Proof.
  destruct (consumeNames_system (secret_names policy) env ∅ false) as (tokens & seen & failed & E & Hl & Hex).
  unfold secret_names in E, Hl, Hex. rewrite consumeNames_app in E. rewrite length_app, length_map in Hl. cbn in Hl.
  unfold resolveSecrets. rewrite consumeAll_names. revert E. unfold mbind, M_bind.
  destruct (consumeNames (map cf_env (vp_credentials policy)) _) as [[ts s1]| |]; [|done..].
  destruct (consume_ _ s1) as [[t s2]| |]; [|done..]. cbn. intros [= <- ->]. rewrite length_app in Hl. cbn in Hl.
  cbn [cs_failed cs_source].
  set (refs := vp_credentials policy) in *.
  assert (map cr_Token (zip_with mkCredential (map cf_tenant refs) ts) = ts /\
          map cr_Tenant (zip_with mkCredential (map cf_tenant refs) ts) = map cf_tenant refs) as [Htoken Htenant].
  { assert (length ts = length refs) as El by lia. clear -El. revert ts El.
    induction refs as [|r refs IH]; intros [|t ts]; try done. cbn. intros [= El].
    by destruct (IH ts El) as [-> ->]. }
  exists (if failed then Err errSecretResolutionFailed
          else Ok (mkResolvedSecrets (zip_with mkCredential (map cf_tenant refs) ts) t)).
  split; [by destruct failed|]. intros [cs up]. cbn [rs_credentials rs_upstream]. unfold secret_names. fold refs.
  destruct failed.
  - split; [done|]. intros [_ Hh]. by destruct (proj2 (Hex _) (conj eq_refl Hh)).
  - split.
    + intros [= <- <-]. rewrite Htoken. split; [done|]. by apply Hex.
    + intros [Ht Hh]. destruct (proj2 (Hex _) (conj eq_refl Hh)) as [_ [Ets [= <-]]%app_inj_2]; [|done].
      f_equal. f_equal. rewrite <-Ht, <-Ets. clear. induction cs as [|[] cs IH]; [done|]. cbn. by rewrite IH.
Qed.
End System.
