(* ===== verification/AppParse.v ===== *)
(** * The policy text as a document

    [decodePolicyJSON] at the Go type of the policy against the declarative
    reading, and the typing of what it decodes: every document that comes out of
    it is a record of [uint64] numbers, so [parsePolicy] always comes to an
    answer. *)

From S2P Require Import Prelude.
From S2P Require Import GoJson.
From S2P Require Import JsonGrammar.
From S2P Require Import GoIO.
From S2P Require Import AdmissionConfig.
From S2P Require Import ContractScan.
From S2P Require Import ContractRequest.
From S2P Require Import ContractParse.
From S2P Require Import HttpConfig.
From S2P Require Import HttpUpstream.
From S2P Require Import AppJson.
From S2P Require Import AppDecode.
From S2P Require Import AppTyped.
From S2P Require Import AppPolicy.

(** ** Decoding *)

(** The texts that may be decoded: bounded, UTF-8, with surrogates in pairs. *)
Record policy_text (data : list Z) : Prop := {
  pt_bounds : 0 < Z.of_nat (length data) <= maxPolicyBytes;
  pt_utf8 : utf8_valid data = true;
  pt_escapes : validUnicodeEscapes data background = Done (true, background);
}.

(** What such a text means at a type: the one object that it writes, shallow
    enough and without repeated keys, denotes the value. *)
Definition policy_means (t : gotype) (data : list Z) (v : govalue) : Prop :=
  exists object, document_text (JObj object) data /\ tree_ok maxPolicyDepth 1 (JObj object) = true /\
    denotes t (JObj object) v.

Lemma exactPolicyJSONFields_pointer value t :
  exactPolicyJSONFields value (GPointer t) = exactPolicyJSONFields value t.
Proof. by destruct value. Qed.

Lemma policy_bounds (data : list Z) :
  bool_decide (data = []) || (maxPolicyBytes <? Z.of_nat (length data)) = false <->
  0 < Z.of_nat (length data) <= maxPolicyBytes.
Proof.
  rewrite orb_false_iff, bool_decide_eq_false, Z.ltb_ge. destruct data; cbn [length]; [|intuition (done || lia)].
  split; [by intros []|lia].
Qed.

(** The typed part, on the text of an object. *)
Lemma decodeInto_exact t data object :
  plain_type t = true -> document_text (JObj object) data ->
  tree_ok maxPolicyDepth 1 (JObj object) = true ->
  exists shape d, decodeAny data = Some (shape, d) /\ shape = JObj object /\
    decodeInto t data = (v ← decodeTyped t shape; Some (v, d)) /\ (exists d', Token d = (Err jsonEOF, d')) /\
    forall v, exactPolicyJSONFields shape (GPointer t) = true /\ decodeTyped t shape = Some v <->
      denotes t (JObj object) v.
Proof.
  intros Ht Hdoc Hok. destruct (decodeAny_complete _ _ Hdoc) as (d & Hd & Hend).
  exists (JObj object), d. split_and!; [done|done| |done|].
  - unfold decodeInto. by rewrite Hd.
  - intros v. rewrite exactPolicyJSONFields_pointer. by apply (decodeTyped_exact (JObj object)) with maxPolicyDepth 1.
Qed.

(** [decodePolicyJSON] always comes to an answer, and accepts exactly the texts
    that mean a value. *)
Lemma decodePolicyJSON_exact t data :
  plain_type t = true ->
  exists r, decodePolicyJSON data (Some t) = Done r /\
    forall v, r = Ok v <-> policy_text data /\ policy_means t data v.
Proof.
  intros Ht. unfold decodePolicyJSON.
  destruct (bool_decide (data = []) || _) eqn:Hb.
  { eexists. split; [done|]. intros v. split; [done|]. intros [[Hbounds _ _] _]. apply policy_bounds in Hbounds. congruence. }
  apply policy_bounds in Hb. destruct (utf8_valid data) eqn:Hu; cbn [negb].
  2:{ eexists. split; [done|]. intros v. split; [done|]. intros [[_ Hu' _] _]. congruence. }
  destruct (validPolicyUnicodeEscapes_agrees data) as ([|] & -> & He).
  2:{ eexists. split; [done|]. intros v. split; [done|]. intros [[_ _ He'] _]. congruence. }
  assert (policy_text data) as Htext by by split.
  destruct (scanPolicyDocument_exact data) as ([|] & -> & Hs).
  2:{ eexists. split; [done|]. intros v. split; [done|]. intros [_ (object & Hdoc & Hok & _)].
      assert (false = true) by (apply Hs; by exists object). done. }
  destruct (proj1 Hs eq_refl) as (object & Hdoc & Hok). clear Hs.
  destruct (decodeInto_exact t data object Ht Hdoc Hok) as (shape & d & -> & -> & -> & (d' & Htok) & Hden).
  assert (forall v, policy_means t data v <-> denotes t (JObj object) v) as Hmeans.
  { intros v. split; [|intros Hv; by exists object]. intros (object' & Hdoc' & _ & Hv).
    destruct (decodeAny_complete _ _ Hdoc) as (? & E1 & _), (decodeAny_complete _ _ Hdoc') as (? & E2 & _). congruence. }
  destruct (exactPolicyJSONFields _ _) eqn:Hx; cbn [negb].
  2:{ eexists. split; [done|]. intros v. rewrite Hmeans, <- Hden. by split; [|intros (_ & ? & _)]. }
  destruct (decodeTyped t (JObj object)) as [w|] eqn:Hw; cbn [mbind option_bind].
  2:{ eexists. split; [done|]. intros v. rewrite Hmeans, <- Hden. by split; [|intros (_ & _ & ?)]. }
  rewrite Htok. eexists. split; [done|]. intros v. rewrite Hmeans, <- Hden. split; [by intros [= ->]|by intros (_ & _ & [= ->])].
Qed.

(** ** Typing *)

Definition typed_listener (p : listenerPolicy) : Prop := is_u64 (lp_Port p).
Definition typed_contract (p : contractPolicy) : Prop :=
  Forall is_u64 [cp_MaxBodyBytes p; cp_MaxMessageCount p; cp_MaxMessageTextBytes p; cp_MaxCompletionTokens p;
    cp_CompletionWeight p; cp_MaxRequestUnits p].
Definition typed_tenantPolicy (p : tenantPolicy) : Prop :=
  Forall is_u64 [tp_ID p; tp_Weight p; tp_PreDispatchCount p] /\ typed_queue (tp_Queue p) /\
  typed_inflight (tp_Inflight p).
Definition typed_admission (p : admissionPolicy) : Prop :=
  Forall is_u64 [ap_BaseQuantum p; ap_DeficitCap p] /\ typed_queue (ap_GlobalQueue p) /\
  typed_inflight (ap_GlobalInflight p) /\ Forall typed_tenantPolicy (ap_Tenants p).
Definition typed_http (p : httpPolicy) : Prop :=
  Forall is_u64 [hp_DefaultQueueTimeoutMS p; hp_BodyReadTimeoutMS p; hp_UpstreamTimeoutMS p;
    hp_StreamReadTimeoutMS p; hp_StreamEventTimeoutMS p; hp_MaxResponseBodyBytes p; hp_MaxStreamEventBytes p;
    hp_MaxStreamEvents p; hp_GlobalPreDispatchCount p].
Definition typed_upstream (p : upstreamPolicy) : Prop :=
  Forall is_u64 [us_ConnectTimeoutMS p; us_TLSHandshakeTimeoutMS p; us_ResponseHeaderTimeoutMS p;
    us_IdleConnectionTimeoutMS p; us_MaxResponseHeaderBytes p; us_MaxConnections p].
Definition typed_serverPolicy (p : serverPolicy) : Prop :=
  Forall is_u64 [sv_HeaderReadTimeoutMS p; sv_ResponseWriteTimeoutMS p; sv_IdleTimeoutMS p; sv_GraceTimeoutMS p;
    sv_ForceTimeoutMS p; sv_HeaderReadEnvelopeBytes p; sv_MaxConnections p].

(** Every number of a document is a [uint64]. *)
Record typed_document (d : policyDocument) : Prop := {
  td_version : is_u64 (pd_SchemaVersion d);
  td_listener : typed_listener (pd_Listener d);
  td_contract : typed_contract (pd_Contract d);
  td_admission : typed_admission (pd_Admission d);
  td_http : typed_http (pd_HTTP d);
  td_upstream : typed_upstream (pd_Upstream d);
  td_server : typed_serverPolicy (pd_Server d);
}.

(** Taking a typed struct apart, field by field. *)
Lemma struct_typed fields v :
  has_type (GStruct fields) v -> exists l, v = VStruct l /\ Forall2 (fun f v => has_type (snd f) v) fields l.
Proof. intros H. inversion H; subst. by eexists. Qed.
Lemma fields_typed_nil l : Forall2 (fun (f : gofield) v => has_type (snd f) v) [] l -> l = [].
Proof. by inversion 1. Qed.
Lemma fields_typed_cons f fields l :
  Forall2 (fun (f : gofield) v => has_type (snd f) v) (f :: fields) l ->
  exists v l', l = v :: l' /\ has_type (snd f) v /\ Forall2 (fun f v => has_type (snd f) v) fields l'.
Proof. inversion 1; subst. by eexists _, _. Qed.
Lemma uint_typed v : has_type GUint64 v -> exists n, v = VUint n /\ is_u64 n.
Proof. intros H. inversion H; subst. by eexists. Qed.
Lemma string_typed v : has_type GString v -> exists s, v = VString s.
Proof. intros H. inversion H; subst. by eexists. Qed.
Lemma slice_typed elem v : has_type (GSlice elem) v -> exists l, v = VSlice l /\ Forall (has_type elem) l.
Proof. intros H. inversion H; subst. by eexists. Qed.

(** A slice whose elements are all read is read. *)
Lemma mapM_typed {A} (t : gotype) (f : govalue -> option A) (P : A -> Prop) l :
  (forall v, has_type t v -> exists a, f v = Some a /\ P a) -> Forall (has_type t) l ->
  exists l', mapM f l = Some l' /\ Forall P l'.
Proof.
  intros Hf. induction 1 as [|v l Hv _ (l' & Hl & HP)]; [by exists []|].
  destruct (Hf v Hv) as (a & Ha & Hp). exists (a :: l'). split; [|by constructor]. cbn. by rewrite Ha, Hl.
Qed.

Ltac struct_cases :=
  repeat match goal with
  | H : has_type (GStruct _) ?v |- _ => apply struct_typed in H as (? & -> & H)
  | H : Forall2 _ [] _ |- _ => apply fields_typed_nil in H as ->
  | H : Forall2 _ (_ :: _) _ |- _ => apply fields_typed_cons in H as (? & ? & -> & ? & H); cbn [snd tagged] in *
  | H : has_type GUint64 _ |- _ => apply uint_typed in H as (? & -> & ?)
  | H : has_type GString _ |- _ => apply string_typed in H as (? & ->)
  | H : has_type (GSlice _) _ |- _ => apply slice_typed in H as (? & -> & H)
  end.

Ltac all_numbers := unfold typed_contract, typed_http, typed_upstream, typed_serverPolicy; cbn;
  repeat (apply Forall_cons_2; [assumption|]); apply Forall_nil_2.

Lemma queue_typed v : has_type queueType v -> exists q, queue_of v = Some q /\ typed_queue q.
Proof. unfold queueType. intros H. struct_cases. eexists. by split. Qed.
Lemma inflight_typed v : has_type inflightType v -> exists q, inflight_of v = Some q /\ typed_inflight q.
Proof. unfold inflightType. intros H. struct_cases. eexists. by split. Qed.
Lemma listener_typed v : has_type listenerType v -> exists p, listener_of v = Some p /\ typed_listener p.
Proof. unfold listenerType. intros H. struct_cases. eexists. by split. Qed.
Lemma contract_typed v : has_type contractType v -> exists p, contract_of v = Some p /\ typed_contract p.
Proof. unfold contractType. intros H. struct_cases. eexists. split; [done|all_numbers]. Qed.
Lemma tenant_typed v : has_type tenantType v -> exists p, tenant_of v = Some p /\ typed_tenantPolicy p.
Proof.
  unfold tenantType. intros H. struct_cases. cbn [tenant_of].
  repeat match goal with
  | H : has_type queueType _ |- _ => apply queue_typed in H as (? & -> & ?)
  | H : has_type inflightType _ |- _ => apply inflight_typed in H as (? & -> & ?)
  end.
  destruct (mapM_typed GString string_of (fun _ => True) x0) as (envs & Henvs & _);
    [intros v (s & ->)%string_typed; by exists s|done|].
  cbn. rewrite Henvs. eexists. split; [done|]. split; [all_numbers|by split].
Qed.
Lemma admission_typed v : has_type admissionType v -> exists p, admission_of v = Some p /\ typed_admission p.
Proof.
  unfold admissionType. intros H. struct_cases. cbn [admission_of].
  repeat match goal with
  | H : has_type queueType _ |- _ => apply queue_typed in H as (? & -> & ?)
  | H : has_type inflightType _ |- _ => apply inflight_typed in H as (? & -> & ?)
  end.
  destruct (mapM_typed tenantType tenant_of typed_tenantPolicy x0) as (tenants & Htenants & Hall);
    [exact tenant_typed|done|].
  cbn. rewrite Htenants. eexists. split; [done|]. split; [all_numbers|by split].
Qed.
Lemma http_typed v : has_type httpType v -> exists p, http_of v = Some p /\ typed_http p.
Proof. unfold httpType. intros H. struct_cases. eexists. split; [done|all_numbers]. Qed.
Lemma upstream_typed v : has_type upstreamType v -> exists p, upstream_of v = Some p /\ typed_upstream p.
Proof. unfold upstreamType. intros H. struct_cases. eexists. split; [done|all_numbers]. Qed.
Lemma serverPolicy_typed v : has_type serverType v -> exists p, serverPolicy_of v = Some p /\ typed_serverPolicy p.
Proof. unfold serverType. intros H. struct_cases. eexists. split; [done|all_numbers]. Qed.

(** A value of the policy's type is a document. *)
Lemma document_typed v : has_type policyType v -> exists d, document_of v = Some d /\ typed_document d.
Proof.
  unfold policyType. intros H. struct_cases. cbn [document_of].
  repeat match goal with
  | H : has_type listenerType _ |- _ => apply listener_typed in H as (? & -> & ?)
  | H : has_type contractType _ |- _ => apply contract_typed in H as (? & -> & ?)
  | H : has_type admissionType _ |- _ => apply admission_typed in H as (? & -> & ?)
  | H : has_type httpType _ |- _ => apply http_typed in H as (? & -> & ?)
  | H : has_type upstreamType _ |- _ => apply upstream_typed in H as (? & -> & ?)
  | H : has_type serverType _ |- _ => apply serverPolicy_typed in H as (? & -> & ?)
  end.
  eexists. split; [done|]. by split.
Qed.

Lemma policyType_plain : plain_type policyType = true.
Proof. vm_compute. reflexivity. Qed.

(** Every text that means a value of the policy's type means a typed document. *)
Lemma policy_means_document data v :
  policy_means policyType data v -> has_type policyType v /\ exists d, document_of v = Some d /\ typed_document d.
Proof.
  intros (object & _ & _ & Hd). assert (has_type policyType v) as Hv by (eapply denotes_typed; [exact policyType_plain|exact Hd]).
  split; [exact Hv|by apply document_typed].
Qed.

(** [parsePolicy] always comes to an answer: the validation of the document that
    the text means. *)
Lemma parsePolicy_exact sha256 urlParse urlString data :
  exists r, parsePolicy sha256 urlParse urlString data = Done r /\
    forall p, r = Ok p <->
      policy_text data /\ exists v d, policy_means policyType data v /\ document_of v = Some d /\ typed_document d /\
        validatePolicy sha256 urlParse urlString d = Ok p.
Proof.
  destruct (decodePolicyJSON_exact policyType data policyType_plain) as (r & Hr & Hex). unfold parsePolicy. rewrite Hr.
  destruct r as [v|e].
  - destruct (proj1 (Hex v) eq_refl) as (Htext & Hm). destruct (policy_means_document _ _ Hm) as (_ & d & Hd & Hty).
    rewrite Hd. eexists. split; [done|]. intros p. split; [intros Hp; split; [done|]; by exists v, d|].
    intros (_ & v' & d' & Hm' & Hd' & _ & Hp). assert (Ok v = Ok v' :> result policyInvalid _) as [= <-] by by apply Hex.
    congruence.
  - eexists. split; [done|]. intros p. split; [done|]. intros (Htext & v & d & Hm & _).
    by assert (Err e = Ok v) by by apply Hex.
Qed.
