(* ===== verification/AppAccepted.v ===== *)
(** * What an accepted policy promises

    The loops and the conversions of [policy.go] against a declarative
    reading: which documents are accepted, and what the validated policy then
    is. *)

From S2P Require Import Prelude.
From S2P Require Import GoJson.
From S2P Require Import HttpUpstream.
From S2P Require Import AdmissionConfig.
From S2P Require Import ContractRequest.
From S2P Require Import HttpConfig.
From S2P Require Import HttpGate.
From S2P Require Import ServerConfig.
From S2P Require Import AppJson.
From S2P Require Import AppPolicy.
From S2P Require Import AppParse.

(** ** Durations *)

Definition milliseconds (value : Z) : Z := value * time_Millisecond.

(** A number of milliseconds that the policy takes. *)
Definition within (maximum value : Z) : Prop := 0 < value <= maximum.

Lemma policyDuration_exact value maximum :
  is_u64 value -> maximum <= maximumPolicyTimeoutMS ->
  policyDuration value maximum = (if decide (within maximum value) then (milliseconds value, true) else (0, false)).
Proof.
  intros Hu Hm. unfold policyDuration, milliseconds, within, is_u64, maximumPolicyTimeoutMS, time_Millisecond in *.
  destruct ((value =? 0) || (maximum <? value)) eqn:Hb; breflect.
  - rewrite decide_False by lia. done.
  - rewrite decide_True by lia. by rewrite (int64_small value), int64_small by (unfold is_int64, two63; lia).
Qed.

(** Every timeout is converted exactly, or the policy is rejected. *)
Lemma durationOf_Ok {A} value maximum (k : Z -> result policyRejected A) v :
  is_u64 value -> maximum <= maximumPolicyTimeoutMS ->
  (t ← durationOf value maximum; k t) = Ok v <-> within maximum value /\ k (milliseconds value) = Ok v.
Proof.
  intros Hu Hm. unfold durationOf. rewrite policyDuration_exact by done.
  destruct (decide (within maximum value)); cbn; split; (done || by intros [? ?]).
Qed.

(** ** The tenants *)

(** The references of a tenant, and of all of them. *)
Definition references_of (t : tenantPolicy) : list credentialReference :=
  map (mkCredentialReference (tp_ID t)) (tp_BearerTokenEnvs t).
Definition all_references (d : policyDocument) : list credentialReference :=
  mjoin (map references_of (ap_Tenants (pd_Admission d))).

Definition tenant_config (t : tenantPolicy) : TenantConfig :=
  MkTenantConfig (tp_ID t) (tp_Weight t) (tp_Queue t) (tp_Inflight t).
Definition tenant_limit (t : tenantPolicy) : TenantPreDispatchLimit := mkTenantLimit (tp_ID t) (tp_PreDispatchCount t).

(** The scheduler's configuration that a document describes. *)
Definition admission_config (d : policyDocument) : AdmissionConfig.Config :=
  MkConfig (cp_MaxBodyBytes (pd_Contract d)) (cp_MaxRequestUnits (pd_Contract d))
    (ap_BaseQuantum (pd_Admission d)) (ap_DeficitCap (pd_Admission d))
    (ap_GlobalQueue (pd_Admission d)) (ap_GlobalInflight (pd_Admission d))
    (map tenant_config (ap_Tenants (pd_Admission d))).

(** Its references are in order: valid names, none twice, not too many. *)
Record references_fine (taken : gset (list Z)) (before : Z) (references : list credentialReference) : Prop := {
  rf_names : Forall (fun r => validEnvironmentName (cf_env r) = true) references;
  rf_fresh : Forall (fun r => cf_env r ∉ taken) references;
  rf_distinct : NoDup (map cf_env references);
  rf_count : references = [] \/ before + Z.of_nat (length references) <= maximumPolicyCredentials;
}.

Lemma references_fine_nil taken before : references_fine taken before [].
Proof. by split; [constructor..|left]. Qed.

Lemma references_fine_cons taken before r rs :
  references_fine taken before (r :: rs) <->
  validEnvironmentName (cf_env r) = true /\ (cf_env r ∉ taken) /\ before + 1 <= maximumPolicyCredentials /\
  references_fine ({[cf_env r]} ∪ taken) (before + 1) rs.
Proof.
  split.
  - intros [[Hv Hvs]%Forall_cons [Hf Hfs]%Forall_cons [Hn Hns]%NoDup_cons [|Hc]]; [done|]. cbn [length] in Hc.
    split_and!; [done|done|lia|]. split; [done| |done|right; lia].
    apply Forall_forall. intros r' Hr'. apply not_elem_of_union. split; [|by eapply (proj1 (Forall_forall _ _) Hfs)].
    intros E%elem_of_singleton. apply Hn. rewrite <- E. by apply list_elem_of_fmap_2.
  - intros (Hv & Hf & Hb & [Hvs Hfs Hns Hc]). rewrite Forall_forall in Hfs.
    split; [by constructor| | |right; cbn [length]; destruct Hc as [->|]; cbn; lia].
    + apply Forall_cons_2; [done|]. apply Forall_forall. intros r' Hr'.
      apply Hfs in Hr'. by apply not_elem_of_union in Hr' as [_ ?].
    + cbn. apply NoDup_cons. split; [|done]. intros (r' & E & Hr')%list_elem_of_fmap.
      apply Hfs in Hr'. apply not_elem_of_union in Hr' as [Hr' _]. apply Hr'. by apply elem_of_singleton.
Qed.

Lemma references_fine_app taken before rs1 rs2 :
  references_fine taken before (rs1 ++ rs2) <->
  references_fine taken before rs1 /\
  references_fine (list_to_set (map cf_env rs1) ∪ taken) (before + Z.of_nat (length rs1)) rs2.
Proof.
  revert taken before. induction rs1 as [|r rs1 IH]; intros taken before; cbn [app map list_to_set length].
  - rewrite Z.add_0_r, union_empty_l_L. split; [|by intros [_ ?]]. intros ?. split; [apply references_fine_nil|done].
  - rewrite !references_fine_cons, IH. replace (before + Z.of_nat (S (length rs1))) with (before + 1 + Z.of_nat (length rs1)) by lia.
    rewrite (union_comm_L {[cf_env r]} (list_to_set _)), <- union_assoc_L. tauto.
Qed.

Lemma addCredentials_Ok id names : forall acc acc',
  addCredentials id names acc = Ok acc' <->
  references_fine (aa_names acc) (Z.of_nat (length (aa_credentials acc))) (map (mkCredentialReference id) names) /\
  acc' = mkAdmissionAcc (aa_tenants acc) (aa_limits acc)
    (aa_credentials acc ++ map (mkCredentialReference id) names) (list_to_set names ∪ aa_names acc).
Proof.
  induction names as [|name names IH]; intros [tenants limits credentials taken] acc'; cbn [addCredentials aa_tenants aa_limits aa_credentials aa_names map list_to_set].
  - rewrite app_nil_r, union_empty_l_L. split; [intros [= <-]; by split; [apply references_fine_nil|]|by intros [_ ->]].
  - rewrite !guard_err_Ok, IH, references_fine_cons. cbn [cf_env aa_tenants aa_limits aa_credentials aa_names].
    rewrite negb_false_iff, bool_decide_eq_false, Z.ltb_ge, length_app, <- app_assoc. cbn [length app].
    rewrite (union_comm_L {[name]} (list_to_set names)), <- union_assoc_L.
    replace (Z.of_nat (length credentials + 1)) with (Z.of_nat (length credentials) + 1) by lia. tauto.
Qed.

(** A tenant that may be added, and the whole loop. *)
Definition tenant_fine (t : tenantPolicy) : Prop := 0 < tp_ID t <= max_uint32 /\ tp_BearerTokenEnvs t <> [].

Lemma tenant_fine_guard t :
  is_u64 (tp_ID t) ->
  (tp_ID t =? 0) || (max_uint32 <? tp_ID t) || (Z.of_nat (length (tp_BearerTokenEnvs t)) =? 0) = false <-> tenant_fine t.
Proof.
  intros Hu. unfold tenant_fine, is_u64 in *. rewrite !orb_false_iff, !Z.eqb_neq, Z.ltb_ge.
  destruct (tp_BearerTokenEnvs t); cbn [length]; intuition (done || lia).
Qed.

(** What the accumulator is after more tenants. *)
Definition gather (configured : list tenantPolicy) (acc : admissionAcc) : admissionAcc :=
  let references := mjoin (map references_of configured) in
  mkAdmissionAcc (aa_tenants acc ++ map tenant_config configured)
    (aa_limits acc ++ map tenant_limit configured) (aa_credentials acc ++ references)
    (list_to_set (map cf_env references) ∪ aa_names acc).

Lemma references_names t : map cf_env (references_of t) = tp_BearerTokenEnvs t.
Proof. unfold references_of. rewrite map_map. apply map_id. Qed.

Lemma gather_cons t ts acc :
  gather (t :: ts) acc =
  gather ts (mkAdmissionAcc (aa_tenants acc ++ [tenant_config t]) (aa_limits acc ++ [tenant_limit t])
    (aa_credentials acc ++ references_of t) (list_to_set (tp_BearerTokenEnvs t) ∪ aa_names acc)).
Proof.
  unfold gather. cbn [map mjoin list_join aa_tenants aa_limits aa_credentials aa_names]. rewrite <- !app_assoc. cbn [app].
  rewrite map_app, list_to_set_app_L, references_names.
  by rewrite (union_comm_L (list_to_set (tp_BearerTokenEnvs t))), <- union_assoc_L.
Qed.

Lemma addTenants_Ok configured : forall acc acc',
  Forall (fun t => is_u64 (tp_ID t)) configured ->
  addTenants configured acc = Ok acc' <->
  Forall tenant_fine configured /\
  references_fine (aa_names acc) (Z.of_nat (length (aa_credentials acc))) (mjoin (map references_of configured)) /\
  acc' = gather configured acc.
Proof.
  induction configured as [|t ts IH]; intros acc acc' Hty.
  - unfold gather. cbn. rewrite !app_nil_r, union_empty_l_L. destruct acc as [tenants limits credentials taken].
    cbn. split; [intros [= <-]|by intros (_ & _ & ->)]. split_and!; [constructor|apply references_fine_nil|done].
  - apply Forall_cons in Hty as [Ht Hts]. cbn [addTenants map mjoin list_join].
    rewrite guard_err_Ok, tenant_fine_guard, result_bind_Ok, references_fine_app, references_names, gather_cons, Forall_cons by done.
    assert (tenant_fine t -> u32 (tp_ID t) = tp_ID t) as Hid
      by (intros [H _]; apply Z.mod_small; unfold max_uint32, two32 in *; lia).
    assert (forall n (l1 l2 : list credentialReference), n = Z.of_nat (length l1) -> n + Z.of_nat (length l2) = Z.of_nat (length (l1 ++ l2)))
      as Hlen by (intros n l1 l2 ->; rewrite length_app; lia).
    split.
    + intros (Hf & acc1 & (Hr & ->)%addCredentials_Ok & Hrest). rewrite Hid in * by done.
      apply IH in Hrest as (Hfs & Hrs & ->); [|done]. cbn [aa_tenants aa_limits aa_credentials aa_names] in *.
      erewrite Hlen by done. by split_and!.
    + intros ((Hf & Hfs) & (Hr & Hrs) & ->). split; [done|].
      rewrite Hid by done. eexists. split; [by apply addCredentials_Ok|].
      apply IH; [done|]. cbn [aa_tenants aa_limits aa_credentials aa_names].
      erewrite Hlen in Hrs by done. by split_and!.
Qed.

(** [validateAdmissionPolicy] accepts exactly the documents whose tenants and
    references are in order. *)
Record tenants_fine (d : policyDocument) : Prop := {
  tf_count : 0 < Z.of_nat (length (ap_Tenants (pd_Admission d))) <= maximumPolicyTenants;
  tf_tenants : Forall tenant_fine (ap_Tenants (pd_Admission d));
  tf_references : references_fine ∅ 0 (all_references d);
}.

Lemma validateAdmissionPolicy_Ok d r :
  typed_document d ->
  validateAdmissionPolicy d = Ok r <->
  tenants_fine d /\
  r = (admission_config d, map tenant_limit (ap_Tenants (pd_Admission d)), all_references d).
Proof.
  intros Hd. destruct (td_admission d Hd) as (_ & _ & _ & Hty).
  assert (Forall (fun t => is_u64 (tp_ID t)) (ap_Tenants (pd_Admission d))) as Hids.
  { eapply Forall_impl; [exact Hty|]. intros t [Hn _]. by apply Forall_cons in Hn as [? _]. }
  unfold validateAdmissionPolicy. rewrite guard_err_Ok, result_bind_Ok, orb_false_iff, Z.eqb_neq, Z.ltb_ge.
  setoid_rewrite addTenants_Ok; [|done]. cbn [aa_credentials aa_names length]. split.
  - intros ([Hn Hm] & acc & (Hf & Hr & ->) & [= <-]). split; [split; [lia|done|done]|reflexivity].
  - intros ([Hc Hf Hr] & ->). split; [lia|]. eexists. by split.
Qed.

(** ** The whole policy *)

Lemma rejecting_Ok {E A B} (r : result E A) (k : A -> result policyRejected B) v :
  (a ← rejecting r; k a) = Ok v <-> exists a, r = Ok a /\ k a = Ok v.
Proof. destruct r as [a|e]; cbn; split; [by exists a|by intros (? & [= ->] & ?)|done|by intros (? & ? & ?)]. Qed.

(** The configurations that a document describes. *)
Definition http_config (d : policyDocument) : HttpConfig :=
  let h := pd_HTTP d in
  mkHttpConfig (milliseconds (hp_DefaultQueueTimeoutMS h)) (milliseconds (hp_BodyReadTimeoutMS h))
    (milliseconds (hp_UpstreamTimeoutMS h)) (milliseconds (hp_StreamReadTimeoutMS h))
    (milliseconds (hp_StreamEventTimeoutMS h)) (hp_MaxResponseBodyBytes h) (hp_MaxStreamEventBytes h)
    (hp_MaxStreamEvents h) (hp_GlobalPreDispatchCount h) (map tenant_limit (ap_Tenants (pd_Admission d))) [].

Definition upstream_config (d : policyDocument) : HTTPUpstreamConfig :=
  let u := pd_Upstream d in
  mkUpstreamConfig (us_Endpoint u) (milliseconds (us_ConnectTimeoutMS u)) (milliseconds (us_TLSHandshakeTimeoutMS u))
    (milliseconds (us_ResponseHeaderTimeoutMS u)) (milliseconds (us_IdleConnectionTimeoutMS u))
    (us_MaxResponseHeaderBytes u) (us_MaxConnections u).

Definition server_config (d : policyDocument) : ServerConfig :=
  let s := pd_Server d in
  mkServerConfig (milliseconds (sv_HeaderReadTimeoutMS s)) (milliseconds (sv_ResponseWriteTimeoutMS s))
    (milliseconds (sv_IdleTimeoutMS s)) (milliseconds (sv_GraceTimeoutMS s)) (milliseconds (sv_ForceTimeoutMS s))
    (sv_HeaderReadEnvelopeBytes s) (sv_MaxConnections s).

Definition handler_timeouts (d : policyDocument) : TimeoutPolicy :=
  let h := pd_HTTP d in
  mkTimeoutPolicy (milliseconds (hp_DefaultQueueTimeoutMS h)) (milliseconds (hp_BodyReadTimeoutMS h))
    (milliseconds (hp_UpstreamTimeoutMS h)).

Definition shutdown_wait (d : policyDocument) : Z :=
  milliseconds (sv_GraceTimeoutMS (pd_Server d)) + 2 * milliseconds (sv_ForceTimeoutMS (pd_Server d))
  + shutdownSchedulingMargin.

Section accepted.
Context (sha256 : list Z -> list Z).
Context (urlParse : list Z -> option parsedURL) (urlString : parsedURL -> list Z).

(** The documents that are accepted, with the policy they become. *)
Record accepted (d : policyDocument) (p : validatedPolicy) : Prop := mkAccepted {
  ac_version : pd_SchemaVersion d = policySchemaVersion;
  ac_listener : makeListenerPlan (pd_Listener d) = Ok (vp_listener p);
  ac_parser : NewParser (cp_PublicModel (pd_Contract d)) (limitsOf (pd_Contract d)) = Ok (vp_parser p);
  ac_tenants : tenants_fine d;
  ac_admission : ValidateConfig (admission_config d) = Ok tt;
  ac_httpTimeouts : Forall (within maximumPolicyTimeoutMS)
    [hp_DefaultQueueTimeoutMS (pd_HTTP d); hp_BodyReadTimeoutMS (pd_HTTP d); hp_UpstreamTimeoutMS (pd_HTTP d);
     hp_StreamReadTimeoutMS (pd_HTTP d); hp_StreamEventTimeoutMS (pd_HTTP d)];
  ac_upstreamTimeouts : Forall (within maximumPolicyTimeoutMS)
    [us_ConnectTimeoutMS (pd_Upstream d); us_TLSHandshakeTimeoutMS (pd_Upstream d);
     us_ResponseHeaderTimeoutMS (pd_Upstream d); us_IdleConnectionTimeoutMS (pd_Upstream d)];
  ac_serverTimeouts : Forall (within maximumPolicyTimeoutMS)
    [sv_HeaderReadTimeoutMS (pd_Server d); sv_ResponseWriteTimeoutMS (pd_Server d);
     sv_IdleTimeoutMS (pd_Server d); sv_GraceTimeoutMS (pd_Server d)];
  ac_force : within maximumForceTimeoutMS (sv_ForceTimeoutMS (pd_Server d));
  ac_http : http_ValidateConfig sha256 (withCredentials (http_config d) (preflightCredentials (all_references d)))
    (vp_parser p) (admission_config d) = Ok tt;
  ac_headers : us_MaxResponseHeaderBytes (pd_Upstream d) <= max_int64;
  ac_upstream : exists u, NewHTTPUpstream urlParse urlString (upstream_config d) (bs "policy-preflight") = Ok u;
  ac_token : validEnvironmentName (us_BearerTokenEnv (pd_Upstream d)) = true;
  ac_tokenFresh : us_BearerTokenEnv (pd_Upstream d) ∉ map cf_env (all_references d);
  ac_server : server_ValidateConfig (server_config d) (handler_timeouts d) = Ok tt;
  ac_policy : p = mkValidatedPolicy (vp_listener p) (vp_parser p) (admission_config d) (http_config d)
    (upstream_config d) (server_config d) (all_references d) (us_BearerTokenEnv (pd_Upstream d)) (shutdown_wait d);
}.

Lemma validateUpstreamPolicy_Ok u c :
  typed_upstream u ->
  validateUpstreamPolicy urlParse urlString u = Ok c <->
  Forall (within maximumPolicyTimeoutMS)
    [us_ConnectTimeoutMS u; us_TLSHandshakeTimeoutMS u; us_ResponseHeaderTimeoutMS u; us_IdleConnectionTimeoutMS u] /\
  us_MaxResponseHeaderBytes u <= max_int64 /\
  c = mkUpstreamConfig (us_Endpoint u) (milliseconds (us_ConnectTimeoutMS u))
    (milliseconds (us_TLSHandshakeTimeoutMS u)) (milliseconds (us_ResponseHeaderTimeoutMS u))
    (milliseconds (us_IdleConnectionTimeoutMS u)) (us_MaxResponseHeaderBytes u) (us_MaxConnections u) /\
  exists v, NewHTTPUpstream urlParse urlString c (bs "policy-preflight") = Ok v.
Proof.
  unfold typed_upstream. rewrite !Forall_cons. intros (H1 & H2 & H3 & H4 & H5 & H6 & _).
  unfold validateUpstreamPolicy. do 3 (rewrite durationOf_Ok by done). rewrite policyDuration_exact by done.
  destruct (decide (within _ (us_IdleConnectionTimeoutMS u))) as [Hi|Hi]; cbn [negb orb].
  2:{ rewrite guard_err_Ok. split; [by intros (_ & _ & _ & ? & _)|tauto]. }
  rewrite guard_err_Ok, rejecting_Ok, Z.ltb_ge, Forall_nil.
  split.
  - intros (? & ? & ? & Hm & v & Hv & [= <-]). rewrite int64_small in * by (unfold is_int64, is_u64, two63, max_int64 in *; lia).
    split_and!; try done. by exists v.
  - intros ((? & ? & ? & _) & Hm & -> & v & Hv). split_and!; try done. exists v.
    by rewrite int64_small by (unfold is_int64, is_u64, two63, max_int64 in *; lia).
Qed.

(** The wait for the shutdown is an exact sum within its bounds. *)
Lemma validateServerPolicy_Ok s timeouts r :
  typed_serverPolicy s ->
  validateServerPolicy s timeouts = Ok r <->
  let config := mkServerConfig (milliseconds (sv_HeaderReadTimeoutMS s)) (milliseconds (sv_ResponseWriteTimeoutMS s))
    (milliseconds (sv_IdleTimeoutMS s)) (milliseconds (sv_GraceTimeoutMS s)) (milliseconds (sv_ForceTimeoutMS s))
    (sv_HeaderReadEnvelopeBytes s) (sv_MaxConnections s) in
  Forall (within maximumPolicyTimeoutMS)
    [sv_HeaderReadTimeoutMS s; sv_ResponseWriteTimeoutMS s; sv_IdleTimeoutMS s; sv_GraceTimeoutMS s] /\
  within maximumForceTimeoutMS (sv_ForceTimeoutMS s) /\
  server_ValidateConfig config timeouts = Ok tt /\
  r = (config, milliseconds (sv_GraceTimeoutMS s) + 2 * milliseconds (sv_ForceTimeoutMS s) + shutdownSchedulingMargin).
Proof.
  unfold typed_serverPolicy. rewrite !Forall_cons, !Forall_nil. intros (H1 & H2 & H3 & H4 & H5 & H6 & H7 & _).
  unfold validateServerPolicy. do 5 (rewrite durationOf_Ok by done). rewrite rejecting_Ok.
  cbn zeta. setoid_rewrite guard_err_Ok.
  assert (within maximumPolicyTimeoutMS (sv_GraceTimeoutMS s) -> within maximumForceTimeoutMS (sv_ForceTimeoutMS s) ->
    let wait := milliseconds (sv_GraceTimeoutMS s) + 2 * milliseconds (sv_ForceTimeoutMS s) + shutdownSchedulingMargin in
    int64 (int64 (milliseconds (sv_GraceTimeoutMS s) + int64 (2 * milliseconds (sv_ForceTimeoutMS s)))
      + shutdownSchedulingMargin) = wait /\ (wait <=? 0) || (maximumShutdownWait <? wait) = false) as Hwait.
  { unfold within, maximumPolicyTimeoutMS, maximumForceTimeoutMS, milliseconds, shutdownSchedulingMargin,
      maximumShutdownWait, time_Millisecond, time_Second, time_Hour. intros Hg Hf. cbn zeta.
    rewrite (int64_small (2 * _)) by (unfold is_int64, two63; lia).
    rewrite (int64_small (_ * 1000000 + _)) by (unfold is_int64, two63; lia).
    rewrite int64_small by (unfold is_int64, two63; lia).
    split; [done|]. rewrite orb_false_iff, Z.leb_gt, Z.ltb_ge. lia. }
  split.
  - intros (? & ? & ? & Hg & Hf & [] & Hv & _ & [= <-]). destruct (Hwait Hg Hf) as [-> _]. by split_and!.
  - intros ((? & ? & ? & Hg & _) & Hf & Hv & ->). destruct (Hwait Hg Hf) as [-> ->]. split_and!; try done. by exists tt.
Qed.

Lemma token_fresh (name : list Z) (references : list credentialReference) :
  existsb (fun c => bool_decide (cf_env c = name)) references = false <-> name ∉ map cf_env references.
Proof.
  rewrite <- not_true_iff_false, existsb_exists. apply not_iff_compat. split.
  - intros (c & Hc & <-%bool_decide_eq_true). apply list_elem_of_fmap_2. by apply list_elem_of_In.
  - intros (c & -> & Hc)%list_elem_of_fmap. exists c. split; [by apply list_elem_of_In|by apply bool_decide_eq_true].
Qed.

(** [validatePolicy] accepts exactly these documents. *)
Lemma validatePolicy_Ok d p : typed_document d -> validatePolicy sha256 urlParse urlString d = Ok p <-> accepted d p.
Proof.
  intros Hd. pose proof (td_http d Hd) as Hh. unfold typed_http in Hh. rewrite !Forall_cons in Hh.
  destruct Hh as (Hh1 & Hh2 & Hh3 & Hh4 & Hh5 & _). unfold validatePolicy. rewrite guard_err_Ok, rejecting_Ok. split.
  - intros (Hversion & plan & Hplan & H). apply rejecting_Ok in H as (parser & Hparser & H).
    apply result_bind_Ok in H as (r & (Htenants & ->)%validateAdmissionPolicy_Ok & H); [|done].
    apply rejecting_Ok in H as ([] & Hadmission & H). do 5 (rewrite durationOf_Ok in H by done).
    destruct H as (T1 & T2 & T3 & T4 & T5 & H). apply rejecting_Ok in H as ([] & Hhttp & H).
    apply result_bind_Ok in H as (uc & (TU & Hheaders & -> & Hupstream)%validateUpstreamPolicy_Ok & H); [|by destruct Hd].
    rewrite !guard_err_Ok in H. destruct H as (Htoken & Hfresh & H).
    apply result_bind_Ok in H as (sc & (TS & Hforce & Hserver & ->)%validateServerPolicy_Ok & [= <-]); [|by destruct Hd].
    breflect. apply token_fresh in Hfresh. split; try done. by repeat (apply Forall_cons_2; [done|]).
  - intros [Hv Hl Hp Ht Ha Hht Hut Hst Hf Hhttp Hheaders Hup Htok Hfresh Hserver ->].
    cbn [vp_listener vp_parser] in *. rewrite !Forall_cons in Hht. destruct Hht as (T1 & T2 & T3 & T4 & T5 & _).
    split; [by rewrite Hv|]. eexists. split; [exact Hl|]. rewrite rejecting_Ok. eexists. split; [exact Hp|].
    apply result_bind_Ok. eexists. split; [by apply validateAdmissionPolicy_Ok|].
    rewrite rejecting_Ok. eexists. split; [exact Ha|]. do 5 (rewrite durationOf_Ok by done). split_and!; try done.
    rewrite rejecting_Ok. eexists. split; [exact Hhttp|].
    apply result_bind_Ok. eexists. split; [by apply validateUpstreamPolicy_Ok; [by destruct Hd|]|].
    rewrite !guard_err_Ok, negb_false_iff, token_fresh. split_and!; [done..|].
    apply result_bind_Ok. eexists. split; [by apply validateServerPolicy_Ok; [by destruct Hd|]|]. reflexivity.
Qed.
End accepted.
