(* ===== verification/AppBuild.v ===== *)
(** * Building and starting the gateway

    Package [app], [build.go]: the components made of a policy and its
    secrets, the gateway that waits to be started, and its one-way states under
    concurrent calls.  What is closed and what is handed over is a log. *)

From S2P Require Import Prelude.
From S2P Require Import Interleave.
From S2P Require Import HttpUpstream.
From S2P Require Import AdmissionConfig.
From S2P Require Import ContractRequest.
From S2P Require Import HttpConfig.
From S2P Require Import ServerConfig.
From S2P Require Import ServerListener.
From S2P Require Import ServerLifecycle.
From S2P Require Import AppJson.
From S2P Require Import AppPolicy.
From S2P Require Import AppSecrets.

(** A scheduler by its identity, with the configuration it validated. *)
Record schedulerRef := mkSchedulerRef { sr_id : nat; sr_config : validatedConfig }.

(** [preparedZero] is the state of a zero value. *)
Inductive preparedState := preparedZero | preparedReady | preparedTransferred | preparedClosed.

#[export] Instance preparedState_eq_dec : EqDecision preparedState.
Proof. solve_decision. Defined.

Record preparedGateway := mkPrepared {
  pg_state : preparedState;
  pg_listener : listenerPlan;
  pg_serverConfig : ServerConfig;
  pg_shutdownWait : Z;
  pg_handler : option handlerRef;
  pg_scheduler : option schedulerRef;
  pg_upstream : option HTTPUpstream;
}.

(** What happens to the resources, in order. *)
Inductive buildEvent :=
| EvUpstreamMade (upstream : HTTPUpstream)
| EvSchedulerMade (scheduler : schedulerRef)
| EvListenerOpened (listener : tcpListener)
| EvSchedulerClosed (scheduler : schedulerRef)
| EvIdleClosed (upstream : HTTPUpstream)
| EvListenerClosed (listener : tcpListener)
| EvHandedOver (listener : tcpListener) (server : Server).

Abbreviation buildLog := (list buildEvent) (only parsing).

Definition emit (e : buildEvent) : M buildLog unit := modify (fun log => log ++ [e]).

(** A pointer that is not nil. *)
Definition each {A} (f : A -> buildEvent) (o : option A) : M buildLog unit :=
  match o with Some a => emit (f a) | None => mret tt end.

(** The constructors: a value, if any, and whether there was an error; [None] is a
    nil function. *)
Record gatewayFactories := mkFactories {
  newUpstream : option (HTTPUpstreamConfig -> list Z -> option HTTPUpstream * bool);
  newScheduler : option (AdmissionConfig.Config -> option schedulerRef * bool);
  newHandler : option (HttpConfig -> Parser -> schedulerRef -> HTTPUpstream -> option handlerRef * bool);
  validateServer : option (ServerConfig -> TimeoutPolicy -> bool);
}.

(** ** Cleanup *)

(** [closes] says whether a scheduler drains and stops in time. *)
Definition cleanupPreparedResources (closes : schedulerRef -> bool) (scheduler : option schedulerRef)
    (upstream : option HTTPUpstream) : M buildLog bool :=
  each EvSchedulerClosed scheduler;;
  each EvIdleClosed upstream;;
  mret match scheduler with Some s => closes s | None => true end.

Section Build.
Context {S : Type} (sha256 : list Z -> list Z).

(** ** [prepareGatewayWith] *)

(** The source of the secrets, and the log. *)
Record buildWorld := mkBuildWorld { bw_env : S; bw_log : buildLog }.

Definition logged {A} (m : M buildLog A) : M buildWorld A := fun w =>
  match m (bw_log w) with
  | Done (a, log) => Done (a, mkBuildWorld (bw_env w) log)
  | Panicked e => Panicked e
  | OutOfFuel => OutOfFuel
  end.

Definition onSource {A} (f : S -> comp (A * S)) : M buildWorld A := fun w =>
  match f (bw_env w) with
  | Done (a, env) => Done (a, mkBuildWorld env (bw_log w))
  | Panicked e => Panicked e
  | OutOfFuel => OutOfFuel
  end.

(** [return nil, errGatewayPreparationFailed] after some cleanup. *)
Definition failing (m : M buildLog bool) : M buildWorld (option preparedGateway) := logged (m;; mret None).

Definition prepareGatewayWith (closes : schedulerRef -> bool) (policy : option validatedPolicy)
    (source : option (secretSource S)) (factories : gatewayFactories) : M buildWorld (option preparedGateway) :=
  match policy, newUpstream factories, newScheduler factories, newHandler factories, validateServer factories with
  | Some policy, Some newUpstream, Some newScheduler, Some newHandler, Some validateServer =>
      resolved ← onSource (resolveSecrets sha256 policy source);
      match resolved with
      | Err _ => mret None
      | Ok secrets =>
          let '(upstream, err) := newUpstream (vp_upstream policy) (rs_upstream secrets) in
          logged (each EvUpstreamMade upstream);;
          match upstream, err with
          | _, true => failing (each EvIdleClosed upstream;; mret true)
          | None, false => mret None
          | Some upstream, false =>
              let '(scheduler, err) := newScheduler (vp_admission policy) in
              logged (each EvSchedulerMade scheduler);;
              match scheduler, err with
              | _, true => failing (cleanupPreparedResources closes scheduler (Some upstream))
              | None, false => failing (emit (EvIdleClosed upstream);; mret true)
              | Some scheduler, false =>
                  let httpConfig := withCredentials (vp_http policy) (rs_credentials secrets) in
                  match newHandler httpConfig (vp_parser policy) scheduler upstream with
                  | (_, true) | (None, false) =>
                      failing (cleanupPreparedResources closes (Some scheduler) (Some upstream))
                  | (Some handler, false) =>
                      if validateServer (vp_server policy) (Handler_TimeoutPolicy (hr_config handler))
                      then failing (cleanupPreparedResources closes (Some scheduler) (Some upstream))
                      else mret (Some (mkPrepared preparedReady (vp_listener policy) (vp_server policy)
                             (vp_shutdownWait policy) (Some handler) (Some scheduler) (Some upstream)))
                  end
              end
          end
      end
  | _, _, _, _, _ => mret None
  end.
End Build.
Arguments buildWorld : clear implicits.
Arguments mkBuildWorld {S} _ _.
Arguments bw_env {S} _.
Arguments bw_log {S} _.

(** The program's own constructors. *)
Section Program.
Context (sha256 : list Z -> list Z).
Context (urlParse : list Z -> option parsedURL) (urlString : parsedURL -> list Z).

(** [NewHandler], of a parser, a scheduler and an upstream that are there. *)
Definition NewHandler (config : HttpConfig) (p : Parser) (scheduler : schedulerRef)
  : result handlerConfigError handlerRef :=
  validated ← validateHandlerConfig sha256 config p (schedulerPolicyOf (sr_config scheduler));
  mret (mkHandlerRef validated (sr_id scheduler)).

(** [admission.New], the scheduler being the one with the number [id]. *)
Definition admission_New (id : nat) (config : AdmissionConfig.Config) : result config_error schedulerRef :=
  validated ← validateConfig config; mret (mkSchedulerRef id validated).

(** A result as the pair of Go. *)
Definition pair_of {E A} (r : result E A) : option A * bool :=
  match r with Ok a => (Some a, false) | Err _ => (None, true) end.
Definition fails {E A} (r : result E A) : bool := match r with Ok _ => false | Err _ => true end.

Definition programFactories (id : nat) : gatewayFactories :=
  mkFactories (Some (fun config token => pair_of (NewHTTPUpstream urlParse urlString config token)))
    (Some (fun config => pair_of (admission_New id config)))
    (Some (fun config p scheduler _ => pair_of (NewHandler config p scheduler)))
    (Some (fun config timeouts => fails (server_ValidateConfig config timeouts))).

Definition prepareGateway {S} (closes : schedulerRef -> bool) (id : nat) (policy : option validatedPolicy)
    (source : option (secretSource S)) : M (buildWorld S) (option preparedGateway) :=
  prepareGatewayWith sha256 closes policy source (programFactories id).
End Program.

(** ** [start] and [close]

    Both run under the gateway's mutex until it is unlocked, and then clean up
    what they took out. *)

Record gatewayState := mkGatewayState { gs_prepared : preparedGateway; gs_log : buildLog }.

Definition onLog {A} (m : M buildLog A) : M gatewayState A := fun g =>
  match m (gs_log g) with
  | Done (a, log) => Done (a, mkGatewayState (gs_prepared g) log)
  | Panicked e => Panicked e
  | OutOfFuel => OutOfFuel
  end.

Definition withPrepared (p : preparedGateway) : M gatewayState unit :=
  modify (fun g => mkGatewayState p (gs_log g)).

(** A gateway in a terminal state keeps no resource. *)
Definition emptied (state : preparedState) (p : preparedGateway) : preparedGateway :=
  mkPrepared state (pg_listener p) (pg_serverConfig p) (pg_shutdownWait p) None None None.

Definition consumeForClose : M gatewayState (option schedulerRef * option HTTPUpstream) :=
  prepared ← gets gs_prepared;
  withPrepared (emptied preparedClosed prepared);;
  mret (pg_scheduler prepared, pg_upstream prepared).

(** The locked part of [start]: refused, failed with what is to be cleaned up, or
    a server. *)
Inductive startStep :=
| StartRefused
| StartFailed (scheduler : option schedulerRef) (upstream : option HTTPUpstream)
| StartDone (server : Server).

Definition listenEvent_of (e : listenEvent) : buildEvent :=
  match e with ListenOpened l => EvListenerOpened l | ListenClosed l => EvListenerClosed l end.

Definition startLocked (listenTCP : listenTCPFunc) : M gatewayState startStep :=
  prepared ← gets gs_prepared;
  if negb (bool_decide (pg_state prepared = preparedReady)) then mret StartRefused else
  let '(listener, events) := listen (pg_listener prepared) listenTCP in
  onLog (modify (fun log => log ++ map listenEvent_of events));;
  match listener with
  | Err _ =>
      '(scheduler, upstream) ← consumeForClose;
      mret (StartFailed scheduler upstream)
  | Ok listener =>
      match server_New (pg_serverConfig prepared) (TCPListener (tcp_Addr listener)) (pg_handler prepared)
              (sr_id <$> pg_scheduler prepared) with
      | Err _ =>
          onLog (emit (EvListenerClosed listener));;
          '(scheduler, upstream) ← consumeForClose;
          mret (StartFailed scheduler upstream)
      | Ok server =>
          onLog (emit (EvHandedOver listener server));;
          withPrepared (emptied preparedTransferred prepared);;
          mret (StartDone server)
      end
  end.

(** The locked part of [close]: an answer, or what is to be cleaned up. *)
Inductive closeStep :=
| CloseAnswer (err : bool)
| CloseTaken (scheduler : option schedulerRef) (upstream : option HTTPUpstream).

Definition closeLocked : M gatewayState closeStep :=
  prepared ← gets gs_prepared;
  match pg_state prepared with
  | preparedTransferred | preparedClosed => mret (CloseAnswer false)
  | preparedZero => mret (CloseAnswer true)
  | preparedReady =>
      '(scheduler, upstream) ← consumeForClose;
      mret (CloseTaken scheduler upstream)
  end.

(** The whole calls; [start] answers a server or fails, [close] whether there was
    an error. *)
Definition start (closes : schedulerRef -> bool) (listenTCP : listenTCPFunc) : M gatewayState (option Server) :=
  step ← startLocked listenTCP;
  match step with
  | StartRefused => mret None
  | StartFailed scheduler upstream =>
      onLog (cleanupPreparedResources closes scheduler upstream);; mret None
  | StartDone server => mret (Some server)
  end.

Definition close (closes : schedulerRef -> bool) : M gatewayState bool :=
  step ← closeLocked;
  match step with
  | CloseAnswer err => mret err
  | CloseTaken scheduler upstream =>
      complete ← onLog (cleanupPreparedResources closes scheduler upstream); mret (negb complete)
  end.
