(* ===== verification/AppGateway.v ===== *)
(** * The prepared gateway under concurrent calls

    Calls of [start] and [close] as threads: the locked section is one turn, the
    close of the scheduler and that of the idle connections are one each.  Whoever
    calls, what the gateway was prepared with is released exactly once. *)

From S2P Require Import Prelude.
From S2P Require Import Interleave.
From S2P Require Import HttpUpstream.
From S2P Require Import AdmissionConfig.
From S2P Require Import HttpConfig.
From S2P Require Import ServerConfig.
From S2P Require Import ServerListener.
From S2P Require Import ServerLifecycle.
From S2P Require Import AppPolicy.
From S2P Require Import AppBuild.

(** A call of [start] or of [close] ([starting] tells them apart): called; before
    and after the scheduler's [Close] in the cleanup; returned. *)
Inductive gatewayThread :=
| GtStart
| GtClose
| GtCleanup (starting : bool) (scheduler : option schedulerRef) (upstream : option HTTPUpstream)
| GtIdle (starting complete : bool) (upstream : option HTTPUpstream)
| GtStarted (server : option Server)
| GtClosed (err : bool).

Definition gw_moves {A} (m : M gatewayState A) (next : A -> gatewayThread) (g : gatewayState)
  : comp (turned gatewayState gatewayThread) :=
  match m g with
  | Done (a, g') => Done (Moved (next a) g' [])
  | Panicked e => Panicked e
  | OutOfFuel => OutOfFuel
  end.

(** [c]: the [listenTCP] that the call was given, and whether the scheduler closes
    in time. *)
Definition gateway_turn (c : listenTCPFunc * bool) (t : gatewayThread) (g : gatewayState)
  : comp (turned gatewayState gatewayThread) :=
  match t with
  | GtStart =>
      gw_moves (startLocked (fst c)) (fun step => match step with
        | StartRefused => GtStarted None
        | StartFailed scheduler upstream => GtCleanup true scheduler upstream
        | StartDone server => GtStarted (Some server)
        end) g
  | GtClose =>
      gw_moves closeLocked (fun step => match step with
        | CloseAnswer err => GtClosed err
        | CloseTaken scheduler upstream => GtCleanup false scheduler upstream
        end) g
  | GtCleanup starting scheduler upstream =>
      gw_moves (onLog (each EvSchedulerClosed scheduler)) (fun _ =>
        GtIdle starting (match scheduler with Some _ => snd c | None => true end) upstream) g
  | GtIdle starting complete upstream =>
      gw_moves (onLog (each EvIdleClosed upstream)) (fun _ =>
        if starting then GtStarted None else GtClosed (negb complete)) g
  | GtStarted _ | GtClosed _ => Done Blocked
  end.

Definition gateway_call (t : gatewayThread) : bool := match t with GtStart | GtClose => true | _ => false end.

Definition gateway_reachable (p : preparedGateway) (g : gatewayState) (ts : list gatewayThread) : Prop :=
  interleaved gateway_turn gateway_call (mkGatewayState p []) g ts.

(** ** Who has the resources *)

(** What [prepareGateway] returns. *)
Record ready_gateway (p : preparedGateway) (handler : handlerRef) (scheduler : schedulerRef)
    (upstream : HTTPUpstream) : Prop := {
  rg_state : pg_state p = preparedReady;
  rg_handler : pg_handler p = Some handler;
  rg_scheduler : pg_scheduler p = Some scheduler;
  rg_upstream : pg_upstream p = Some upstream;
}.

(** In the log: closes of the scheduler, of the idle connections, servers, and the
    listeners that are open and nobody's. *)
Definition scheduler_closes (e : buildEvent) : Z := match e with EvSchedulerClosed _ => 1 | _ => 0 end.
Definition idle_closes (e : buildEvent) : Z := match e with EvIdleClosed _ => 1 | _ => 0 end.
Definition handed_over (e : buildEvent) : Z := match e with EvHandedOver _ _ => 1 | _ => 0 end.
Definition listeners_open (e : buildEvent) : Z :=
  match e with EvListenerOpened _ => 1 | EvListenerClosed _ | EvHandedOver _ _ => -1 | _ => 0 end.

(** Among the calls: those that must still close the scheduler, or the idle
    connections, and those that returned a server. *)
Definition owes_scheduler (t : gatewayThread) : Z := match t with GtCleanup _ (Some _) _ => 1 | _ => 0 end.
Definition owes_idle (t : gatewayThread) : Z :=
  match t with GtCleanup _ _ (Some _) | GtIdle _ _ (Some _) => 1 | _ => 0 end.
Definition returned_server (t : gatewayThread) : Z := match t with GtStarted (Some _) => 1 | _ => 0 end.

Definition keeps (g : gatewayState) : Z := if decide (pg_state (gs_prepared g) = preparedReady) then 1 else 0.

(** An event or a call concerns the gateway's own resources. *)
Definition own_event (scheduler : schedulerRef) (upstream : HTTPUpstream) (e : buildEvent) : Prop :=
  match e with
  | EvSchedulerClosed s | EvSchedulerMade s => s = scheduler
  | EvIdleClosed u | EvUpstreamMade u => u = upstream
  | _ => True
  end.
Definition own_thread (scheduler : schedulerRef) (upstream : HTTPUpstream) (t : gatewayThread) : Prop :=
  match t with
  | GtCleanup _ s u => s = Some scheduler /\ u = Some upstream
  | GtIdle _ _ u => u = Some upstream
  | _ => True
  end.

(** The gateway beside [owed] schedulers and [idle] connections that the calls
    must close, and [servers] that they returned. *)
Record gateway_accounts (p : preparedGateway) (handler : handlerRef) (scheduler : schedulerRef) (upstream : HTTPUpstream)
    (g : gatewayState) (owed idle servers : Z) : Prop := {
  ga_ready : gs_prepared g = p \/
    gs_prepared g = emptied preparedTransferred p \/ gs_prepared g = emptied preparedClosed p;
  ga_scheduler : keeps g + owed + total scheduler_closes (gs_log g) + servers = 1;
  ga_idle : keeps g + idle + total idle_closes (gs_log g) + servers = 1;
  ga_servers : total handed_over (gs_log g) = servers;
  ga_listeners : total listeners_open (gs_log g) = 0;
  ga_events : Forall (own_event scheduler upstream) (gs_log g);
}.

(** Calls that had a turn. *)
Definition past (t : gatewayThread) : Prop := gateway_call t = false.

Definition gateway_fine p handler scheduler upstream (g : gatewayState) (ts : list gatewayThread) : Prop :=
  gateway_accounts p handler scheduler upstream g (total owes_scheduler ts) (total owes_idle ts) (total returned_server ts) /\
  Forall (own_thread scheduler upstream) ts /\ (forall t, t ∈ ts -> past t -> keeps g = 0).

Section fine.
Context (p : preparedGateway) (handler : handlerRef) (scheduler : schedulerRef) (upstream : HTTPUpstream).
Context (Hp : ready_gateway p handler scheduler upstream).
Abbreviation accounts_ := (gateway_accounts p handler scheduler upstream).

(** A turn beside calls that owe [a], [b] and returned [n]. *)
Definition right_gateway_turn (a b n : Z) (r : comp (turned gatewayState gatewayThread)) : Prop :=
  match r with
  | Done (Moved t' g' sp) =>
      sp = [] /\ accounts_ g' (a + owes_scheduler t') (b + owes_idle t') (n + returned_server t') /\
      own_thread scheduler upstream t' /\ keeps g' = 0
  | Done Blocked => True
  | _ => False
  end.

Lemma gw_moves_right {A} (m : M gatewayState A) next g a b n :
  wp m (fun r g' => right_gateway_turn a b n (Done (Moved (next r) g' []))) g ->
  right_gateway_turn a b n (gw_moves m next g).
Proof. intros (r & g' & Hm & HQ). unfold gw_moves. by rewrite Hm. Qed.

Lemma scheduler_closes_nonneg e : 0 <= scheduler_closes e.
Proof. destruct e; cbn; lia. Qed.
Lemma idle_closes_nonneg e : 0 <= idle_closes e.
Proof. destruct e; cbn; lia. Qed.
Lemma keeps_nonneg g : 0 <= keeps g.
Proof. unfold keeps. destruct (decide _); lia. Qed.

(** The accounts after more events. *)
Lemma accounts_step g g' events a b n a' b' n' :
  accounts_ g a b n ->
  gs_prepared g' = p \/ gs_prepared g' = emptied preparedTransferred p \/ gs_prepared g' = emptied preparedClosed p ->
  gs_log g' = gs_log g ++ events ->
  keeps g' + a' + total scheduler_closes events + n' = keeps g + a + n ->
  keeps g' + b' + total idle_closes events + n' = keeps g + b + n ->
  n' = n + total handed_over events ->
  total listeners_open events = 0 -> Forall (own_event scheduler upstream) events ->
  accounts_ g' a' b' n'.
Proof.
  intros [Hr Hs Hi Hn Hl He] Hr' Hlog E1 E2 E3 E4 E5.
  split; rewrite ?Hlog, ?total_app; try done; try lia. by apply Forall_app.
Qed.

Lemma keeps_ready g : gs_prepared g = p -> keeps g = 1.
Proof. intros E. unfold keeps. rewrite E, (rg_state _ _ _ _ Hp). by rewrite decide_True. Qed.
Lemma keeps_emptied g state : gs_prepared g = emptied state p -> state <> preparedReady -> keeps g = 0.
Proof. intros E Hne. unfold keeps. rewrite E. by rewrite decide_False. Qed.

(** Not ready is emptied. *)
Lemma accounts_cases g a b n :
  accounts_ g a b n -> gs_prepared g = p \/ exists state, gs_prepared g = emptied state p /\
    (state = preparedTransferred \/ state = preparedClosed).
Proof. intros [[?|[?|?]] _ _ _ _ _]; [by left|right; eexists; split; [done|by left]|right; eexists; split; [done|by right]]. Qed.

(** What [listen] does to listeners: none is left open but the one it returns. *)
Lemma listen_balance plan f r events :
  listen plan f = (r, events) ->
  match r with
  | Ok l => events = [ListenOpened l]
  | Err _ => total listeners_open (map listenEvent_of events) = 0
  end.
Proof. intros H%listen_exact. destruct r as [l|]; [by destruct H as [? _]|]. by destruct H as [-> |[l ->]]. Qed.

(** Listeners concern no other account. *)
Lemma listen_quiet (events : list listenEvent) :
  total scheduler_closes (map listenEvent_of events) = 0 /\ total idle_closes (map listenEvent_of events) = 0 /\
  total handed_over (map listenEvent_of events) = 0 /\ Forall (own_event scheduler upstream) (map listenEvent_of events).
Proof.
  induction events as [|[l|l] events (H1 & H2 & H3 & H4)]; cbn [map listenEvent_of]; rewrite ?total_cons;
    cbn [scheduler_closes idle_closes handed_over]; try done; (split_and!; [lia..|by constructor]).
Qed.

(** What the locked part of [start] comes to on the ready gateway. *)
Lemma startLocked_ready f g :
  gs_prepared g = p ->
  exists step g' events, startLocked f g = Done (step, g') /\ gs_log g' = gs_log g ++ events /\
    total scheduler_closes events = 0 /\ total idle_closes events = 0 /\ total listeners_open events = 0 /\
    Forall (own_event scheduler upstream) events /\
    match step with
    | StartRefused => False
    | StartFailed s u => s = Some scheduler /\ u = Some upstream /\ gs_prepared g' = emptied preparedClosed p /\
        total handed_over events = 0
    | StartDone server => gs_prepared g' = emptied preparedTransferred p /\ total handed_over events = 1
    end.
Proof.
  intros E. unfold startLocked, gets, consumeForClose, withPrepared, onLog, emit, modify, mbind, M_bind, mret, M_ret.
  cbn -[listen server_New]. rewrite E. destruct Hp as [Hstate Hhandler Hscheduler Hupstream]. rewrite Hstate.
  rewrite bool_decide_eq_true_2 by done. cbn -[listen server_New].
  destruct (listen (pg_listener p) f) as [r events] eqn:Hl. apply listen_balance in Hl.
  destruct (listen_quiet events) as (Q1 & Q2 & Q3 & Q4).
  destruct r as [l|]; cbn -[server_New].
  - rewrite Hhandler, Hscheduler. subst events. destruct (server_New _ _ _ _) as [srv|e].
    + eexists _, _, _. split; [reflexivity|]. cbn. rewrite ?E, <- ?app_assoc.
      split_and!; try done. by repeat constructor.
    + eexists _, _, _. split; [reflexivity|]. cbn. rewrite ?E, <- ?app_assoc.
      split_and!; try done. by repeat constructor.
  - eexists _, _, _. split; [reflexivity|]. cbn. rewrite ?E. by split_and!.
Qed.

Lemma start_right f g a b n :
  accounts_ g a b n -> 0 <= a -> 0 <= b -> 0 <= n ->
  right_gateway_turn a b n (gateway_turn f GtStart g).
Proof.
  intros Ha Ha0 Hb0 Hn0. cbn [gateway_turn]. apply gw_moves_right.
  destruct (accounts_cases _ _ _ _ Ha) as [E|(state & E & Hstate)].
  - destruct (startLocked_ready (fst f) g E) as (step & g' & events & Hrun & Hlog & H1 & H2 & H3 & H4 & Hstep).
    exists step, g'. split; [exact Hrun|]. pose proof (keeps_ready _ E) as Hk. destruct step as [|s u|srv]; [done| |].
    + destruct Hstep as (-> & -> & E' & H5). pose proof (keeps_emptied _ _ E') as Hk'.
      split; [done|]; split; [|split; [done|by apply Hk']].
      eapply accounts_step; try done; [by auto|cbn; rewrite ?Hk, ?Hk', ?H1, ?H2, ?H5 by done; lia..].
    + destruct Hstep as (E' & H5). pose proof (keeps_emptied _ _ E') as Hk'.
      split; [done|]; split; [|split; [done|by apply Hk']].
      eapply accounts_step; try done; [by auto|cbn; rewrite ?Hk, ?Hk', ?H1, ?H2, ?H5 by done; lia..].
  - exists StartRefused, g. split.
    + unfold startLocked, gets, mbind, M_bind. rewrite E. cbn [emptied pg_state].
      rewrite bool_decide_eq_false_2; [done|]. by destruct Hstate as [-> | ->].
    + split; [done|]; split; [cbn; by rewrite !Z.add_0_r|]. split; [done|].
      apply (keeps_emptied _ _ E). by destruct Hstate as [-> | ->].
Qed.

Lemma close_right f g a b n :
  accounts_ g a b n -> right_gateway_turn a b n (gateway_turn f GtClose g).
Proof.
  intros Ha. cbn [gateway_turn]. apply gw_moves_right.
  destruct (accounts_cases _ _ _ _ Ha) as [E|(state & E & Hstate)].
  - pose proof (keeps_ready _ E) as Hk. destruct Hp as [Hs _ Hsch Hup].
    exists (CloseTaken (Some scheduler) (Some upstream)), (mkGatewayState (emptied preparedClosed p) (gs_log g)). split.
    + unfold closeLocked, consumeForClose, withPrepared, gets, modify, mbind, M_bind. rewrite E, Hs.
      cbn. by rewrite E, Hsch, Hup.
    + pose proof (keeps_emptied (mkGatewayState (emptied preparedClosed p) (gs_log g)) _ eq_refl) as Hk'.
      split; [done|]; split; [|split; [done|by apply Hk']]. eapply (accounts_step _ _ []); try done; [by auto|by rewrite app_nil_r| |];
        cbn; rewrite ?Hk, ?Hk' by done; lia.
  - exists (CloseAnswer false), g. split.
    + unfold closeLocked, gets, mbind, M_bind. rewrite E. cbn [emptied pg_state]. by destruct Hstate as [-> | ->].
    + split; [done|]; split; [cbn; by rewrite !Z.add_0_r|]. split; [done|].
      apply (keeps_emptied _ _ E). by destruct Hstate as [-> | ->].
Qed.

(** While a cleanup is due the gateway is not ready. *)
Lemma keeps_cleanup g a b n t :
  accounts_ g (a + owes_scheduler t) (b + owes_idle t) (n + returned_server t) -> 0 <= a -> 0 <= b -> 0 <= n ->
  0 < owes_scheduler t + owes_idle t -> keeps g = 0.
Proof.
  intros [_ Hs Hi _ _ _] Ha Hb Hn Ho. pose proof (keeps_nonneg g).
  pose proof (total_nonneg scheduler_closes (gs_log g) scheduler_closes_nonneg).
  pose proof (total_nonneg idle_closes (gs_log g) idle_closes_nonneg).
  destruct t as [| |? [] []|? ? []|[]|]; cbn in *; lia.
Qed.

(** A turn of the cleanup. *)
Lemma cleanup_right f t g a b n :
  accounts_ g (a + owes_scheduler t) (b + owes_idle t) (n + returned_server t) -> own_thread scheduler upstream t ->
  0 <= a -> 0 <= b -> 0 <= n ->
  match t with GtCleanup _ _ _ | GtIdle _ _ _ => True | _ => False end ->
  right_gateway_turn a b n (gateway_turn f t g).
Proof.
  intros Ha Ht Ha0 Hb0 Hn0 Hc. pose proof (keeps_cleanup _ _ _ _ _ Ha Ha0 Hb0 Hn0) as Hk.
  destruct t as [| |starting s u|starting complete u| |]; try done; cbn [gateway_turn]; apply gw_moves_right;
    unfold onLog, each, emit, modify; cbn in Ht.
  - destruct Ht as [-> ->]. specialize (Hk ltac:(cbn; lia)).
    eexists _, _. split; [reflexivity|]. split; [done|]. split; [|by split].
    eapply accounts_step; [exact Ha|by destruct Ha|done|..]; cbn; try done; try (unfold keeps; cbn; lia). by repeat constructor.
  - subst u. specialize (Hk ltac:(cbn; lia)).
    eexists _, _. split; [reflexivity|]. split; [done|]. split; [|split; [by destruct starting|exact Hk]].
    eapply accounts_step; [exact Ha|by destruct Ha|done|..]; destruct starting; cbn; try done; try (unfold keeps; cbn; lia);
      by repeat constructor.
Qed.

Lemma gateway_turn_right f t g a b n :
  accounts_ g (a + owes_scheduler t) (b + owes_idle t) (n + returned_server t) -> own_thread scheduler upstream t ->
  0 <= a -> 0 <= b -> 0 <= n -> right_gateway_turn a b n (gateway_turn f t g).
Proof.
  intros Ha Ht H1 H2 H3. destruct t as [| |starting s u|starting complete u|srv|err].
  - apply start_right; [|done..]. by rewrite !Z.add_0_r in Ha.
  - apply close_right. by rewrite !Z.add_0_r in Ha.
  - by eapply cleanup_right.
  - by eapply cleanup_right.
  - done.
  - done.
Qed.

Lemma owes_scheduler_nonneg t : 0 <= owes_scheduler t.
Proof. destruct t as [| |? [] ?| | |]; cbn; lia. Qed.
Lemma owes_idle_nonneg t : 0 <= owes_idle t.
Proof. destruct t as [| |? ? []|? ? []| |]; cbn; lia. Qed.
Lemma returned_server_nonneg t : 0 <= returned_server t.
Proof. destruct t as [| | | |[]|]; cbn; lia. Qed.

Lemma gateway_turn_fine c g l1 t l2 t' g' sp :
  gateway_fine p handler scheduler upstream g (l1 ++ t :: l2) -> gateway_turn c t g = Done (Moved t' g' sp) ->
  gateway_fine p handler scheduler upstream g' (l1 ++ t' :: l2 ++ sp).
Proof.
  intros (Ha & Ht & _) Hturn. apply Forall_app in Ht as [Ht1 Ht]. apply Forall_cons in Ht as [Ht Ht2].
  pose proof (gateway_turn_right c t g (total owes_scheduler (l1 ++ t :: l2) - owes_scheduler t)
    (total owes_idle (l1 ++ t :: l2) - owes_idle t) (total returned_server (l1 ++ t :: l2) - returned_server t)) as H.
  rewrite !Z.sub_add, Hturn in H. cbn in H.
  pose proof (total_split _ l1 t l2 owes_scheduler_nonneg). pose proof (total_split _ l1 t l2 owes_idle_nonneg).
  pose proof (total_split _ l1 t l2 returned_server_nonneg).
  destruct H as (-> & Ha' & Ht' & Hk); [done|done|lia..|]. split; [|split].
  - by rewrite !(total_exchange _ l1 t t'), !total_nil, !Z.add_0_r.
  - apply Forall_app. split; [done|]. apply Forall_cons. split; [done|]. by rewrite app_nil_r.
  - done.
Qed.

Lemma gateway_reachable_fine g ts : gateway_reachable p g ts -> gateway_fine p handler scheduler upstream g ts.
Proof.
  unfold gateway_reachable. apply interleaved_ind; clear g ts.
  - pose proof (keeps_ready (mkGatewayState p []) eq_refl) as Hk. split; [|split; [constructor|by intros ? ?%not_elem_of_nil]].
    split; cbn; try done; [by left|lia..].
  - intros c g l1 t l2 t' g' sp Hf Hturn. by eapply gateway_turn_fine.
  - intros g ts t (Ha & Ht & Hpast) Hf. split; [|split].
    + rewrite !total_app, !total_cons, !total_nil. by destruct t; try done; cbn; rewrite !Z.add_0_r.
    + apply Forall_app; split; [done|]; by destruct t; repeat constructor.
    + intros t' [Hin| ->%list_elem_of_singleton]%elem_of_app Hp'; [by eapply Hpast|]. by rewrite Hp' in Hf.
Qed.

(** No call is at a cleanup. *)
Definition settled_calls (ts : list gatewayThread) : Prop := total owes_scheduler ts = 0 /\ total owes_idle ts = 0.

(** Once a call has returned and no cleanup is due, the resources went one way. *)
Lemma gateway_settled g ts t :
  gateway_reachable p g ts -> t ∈ ts -> past t -> settled_calls ts ->
  (total handed_over (gs_log g) = 1 /\ total scheduler_closes (gs_log g) = 0 /\ total idle_closes (gs_log g) = 0) \/
  (total handed_over (gs_log g) = 0 /\ total scheduler_closes (gs_log g) = 1 /\ total idle_closes (gs_log g) = 1).
Proof.
  intros (Ha & _ & Hpast)%gateway_reachable_fine Hin Ht [Ho Hi]. specialize (Hpast t Hin Ht).
  destruct Ha as [_ Hs Hd Hn _ _].
  pose proof (total_nonneg scheduler_closes (gs_log g) scheduler_closes_nonneg).
  pose proof (total_nonneg returned_server ts returned_server_nonneg). lia.
Qed.

(** ** One caller *)

(** [close] on the ready gateway. *)
Lemma close_ready closes log :
  exists w, close closes (mkGatewayState p log) = Done (negb (closes scheduler), w) /\
    gs_log w = log ++ [EvSchedulerClosed scheduler; EvIdleClosed upstream].
Proof.
  destruct Hp as [Hs _ Hsch Hup].
  unfold close, closeLocked, consumeForClose, withPrepared, gets, modify, onLog, mbind, M_bind. cbn. rewrite Hs. cbn.
  rewrite Hsch, Hup. cbn. eexists. split; [reflexivity|]. cbn. by rewrite <- app_assoc.
Qed.

(** [start] on the ready gateway: a server that has everything, or everything is
    closed. *)
Lemma start_ready closes f :
  exists r w, start closes f (mkGatewayState p []) = Done (r, w) /\
    match r with
    | Some server => exists l, gs_log w = [EvListenerOpened l; EvHandedOver l server]
    | None => gs_log w = [EvSchedulerClosed scheduler; EvIdleClosed upstream] \/
        exists l, gs_log w = [EvListenerOpened l; EvListenerClosed l; EvSchedulerClosed scheduler; EvIdleClosed upstream]
    end.
Proof.
  destruct Hp as [Hs Hh Hsch Hup].
  unfold start, startLocked, consumeForClose, withPrepared, gets, onLog, mbind, M_bind. cbn -[listen server_New].
  rewrite Hs, bool_decide_eq_true_2 by done. cbn -[listen server_New].
  destruct (listen (pg_listener p) f) as [[l|e] events] eqn:El; apply listen_exact in El; cbn -[server_New].
  - destruct El as [-> _]. destruct (server_New _ _ _ _) as [srv|e]; cbn.
    + eexists (Some srv), _. split; [reflexivity|]. by exists l.
    + rewrite Hsch, Hup. cbn. eexists None, _. split; [reflexivity|]. right. by exists l.
  - rewrite Hsch, Hup. cbn. eexists None, _. split; [reflexivity|]. destruct El as [-> |[l ->]]; [by left|right]. by exists l.
Qed.
End fine.
