(* ===== verification/AppCompose.v ===== *)
(** * From the policy to the components

    An accepted policy was tried out with made-up credentials; here is that
    the components can then be made of the real ones. *)

From S2P Require Import Prelude.
From S2P Require Import GoJson.
From S2P Require Import AdmissionConfig.
From S2P Require Import AdmissionScheduler.
From S2P Require Import ContractRequest.
From S2P Require Import ContractParse.
From S2P Require Import ContractResponse.
From S2P Require Import ContractSSE.
From S2P Require Import HttpConfig.
From S2P Require Import HttpGate.
From S2P Require Import HttpUpstream.
From S2P Require Import ServerConfig.
From S2P Require Import ServerListener.
From S2P Require Import ServerLifecycle.
From S2P Require Import AppJson.
From S2P Require Import AppPolicy.
From S2P Require Import AppParse.
From S2P Require Import AppAccepted.
From S2P Require Import AppSecrets.
From S2P Require Import AppBuild.
From S2P Require Import AppGateway.

(** ** Credentials *)

Section credentials.
Context (sha256 : list Z -> list Z).

(** Tokens that the handler takes: well-formed and of different digests. *)
Definition tokens_fine (tokens : list (list Z)) : Prop :=
  Forall (fun token => validBearerToken token = true) tokens /\ NoDup (map sha256 tokens).

Lemma validateCredentials_complete slots rest : forall index acc,
  Forall (fun c => is_Some (slots !! cr_Tenant c)) rest -> tokens_fine (map cr_Token rest) ->
  Forall (fun c => sha256 (cr_Token c) ∉ ca_digests acc) rest ->
  exists acc', validateCredentials sha256 slots index rest acc = Ok acc' /\
    ca_tenants acc' = list_to_set (map cr_Tenant rest) ∪ ca_tenants acc.
Proof.
  induction rest as [|c rest IH]; intros index acc Hs [Hv Hd] Hf; cbn [map list_to_set].
  { eexists. split; [done|]. by rewrite union_empty_l_L. }
  apply Forall_cons in Hs as [Hs Hss], Hv as [Hv Hvs], Hf as [Hf Hfs]. apply NoDup_cons in Hd as [Hd Hds].
  cbn [validateCredentials]. rewrite (bool_decide_eq_true_2 _ Hs), Hv, (bool_decide_eq_false_2 _ Hf). cbn [negb guard_err mbind result_bind].
  destruct (IH (S index) (mkCredentialAcc (ca_credentials acc ++ [mkStored (cr_Tenant c) (sha256 (cr_Token c))])
    ({[cr_Tenant c]} ∪ ca_tenants acc) ({[sha256 (cr_Token c)]} ∪ ca_digests acc))) as (acc' & Hacc & Ht).
  - done.
  - done.
  - rewrite Forall_forall in Hfs |- *. intros c' Hc'. cbn. apply not_elem_of_union. split; [|by apply Hfs].
    intros E%elem_of_singleton. apply Hd. apply list_elem_of_fmap. exists (cr_Token c').
      split; [done|by apply list_elem_of_fmap_2].
  - eexists. split; [exact Hacc|]. rewrite Ht. cbn. by rewrite union_assoc_L, (union_comm_L (list_to_set _) {[_]}).
Qed.

(** What a successful loop has gathered about the tenants. *)
Lemma validateCredentials_tenants slots credentials acc :
  validateCredentials sha256 slots 0 credentials (mkCredentialAcc [] ∅ ∅) = Ok acc ->
  Forall (fun c => is_Some (slots !! cr_Tenant c)) credentials /\ tokens_fine (map cr_Token credentials) /\
  ca_tenants acc = list_to_set (map cr_Tenant credentials).
Proof.
  intros H. destruct (validateCredentials_Ok sha256 slots credentials 0 [] (mkCredentialAcc [] ∅ ∅) acc) as [[_ _ Hnd] Hall];
    [by split; [..|constructor]|done|]. cbn [app] in Hnd.
  assert (Forall (fun c => is_Some (slots !! cr_Tenant c)) credentials) as Hs
    by (eapply Forall_impl; [exact Hall|by intros c [? _]]).
  assert (tokens_fine (map cr_Token credentials)) as Ht.
  { split; [apply Forall_fmap; eapply Forall_impl; [exact Hall|by intros c [_ ?]]|].
    rewrite !map_map in Hnd |- *. exact Hnd. }
  split_and!; [done..|].
  destruct (validateCredentials_complete slots credentials 0 (mkCredentialAcc [] ∅ ∅)) as (acc' & Hacc' & Htenants);
    [done|done|by apply Forall_forall; intros c _; apply not_elem_of_empty|].
  rewrite H in Hacc'. injection Hacc' as <-. rewrite Htenants. cbn. by rewrite union_empty_r_L.
Qed.

Lemma validateTenantLimits_credentials config credentials p policy limits : forall index slots,
  validateTenantLimits (withCredentials config credentials) p policy index limits slots =
  validateTenantLimits config p policy index limits slots.
Proof.
  induction limits as [|limit limits IH]; intros index slots; [done|]. cbn [validateTenantLimits].
  destruct (sp_TenantQueueLimits policy (tl_Tenant limit)) as [queue known]. by rewrite IH.
Qed.

Lemma tenants_have_slots (slots : gmap TenantID Z) credentials :
  Forall (fun c => is_Some (slots !! cr_Tenant c)) credentials <->
  Forall (fun t => is_Some (slots !! t)) (map cr_Tenant credentials).
Proof. symmetry. apply (Forall_fmap cr_Tenant (fun t => is_Some (slots !! t))). Qed.

(** The verdict on a configuration depends on its credentials only through their
    tenants and through whether the tokens are well-formed and distinct. *)
Lemma validateHandlerConfig_credentials config p policy v credentials :
  validateHandlerConfig sha256 config p policy = Ok v ->
  map cr_Tenant credentials = map cr_Tenant (hc_Credentials config) ->
  tokens_fine (map cr_Token credentials) ->
  exists v', validateHandlerConfig sha256 (withCredentials config credentials) p policy = Ok v'.
Proof.
  intros H Ht Hf. unfold validateHandlerConfig in *. cbn [withCredentials hc_DefaultQueueTimeout hc_BodyReadTimeout
    hc_UpstreamTimeout hc_StreamReadTimeout hc_StreamEventTimeout hc_MaxResponseBodyBytes hc_MaxStreamEventBytes
    hc_MaxStreamEvents hc_GlobalPreDispatchLimit hc_TenantPreDispatch hc_Credentials].
  assert (length credentials = length (hc_Credentials config)) as Hl
    by (apply (f_equal length) in Ht; by rewrite !length_map in Ht).
  rewrite Hl. unfold validatePolicyTimeout in *. rewrite !guard_err_Ok in H.
  destruct H as (-> & -> & -> & -> & -> & -> & -> & -> & -> & H). cbn [guard_err mbind result_bind].
  apply result_bind_Ok in H as (validator & -> & H). apply result_bind_Ok in H as ([] & -> & H). cbn [mbind result_bind].
  rewrite !guard_err_Ok in H. destruct H as (-> & -> & -> & H). cbn [guard_err mbind result_bind].
  apply result_bind_Ok in H as ([] & -> & H). cbn [mbind result_bind].
  rewrite validateTenantLimits_credentials.
  apply result_bind_Ok in H as (slots & -> & H). cbn [mbind result_bind].
  apply result_bind_Ok in H as (acc & (Hs & _ & Hacc)%validateCredentials_tenants & H).
  destruct (validateCredentials_complete slots credentials 0 (mkCredentialAcc [] ∅ ∅)) as (acc' & -> & Hacc');
    [|done|by apply Forall_forall; intros c _; apply not_elem_of_empty|].
  { apply tenants_have_slots. rewrite Ht. by apply tenants_have_slots. }
  cbn [mbind result_bind]. rewrite Hacc', Ht. cbn [ca_tenants]. rewrite union_empty_r_L, <- Hacc.
  apply result_bind_Ok in H as ([] & -> & _). cbn [mbind result_bind]. by eexists.
Qed.
End credentials.

(** ** The configurations of an accepted policy *)

Lemma typed_admission_config d :
  typed_document d -> Forall tenant_fine (ap_Tenants (pd_Admission d)) -> typed_config (admission_config d).
Proof.
  intros Hd Hf. pose proof (td_contract d Hd) as Hc. destruct (td_admission d Hd) as (Hn & Hq & Hi & Ht).
  unfold typed_contract in Hc. rewrite !Forall_cons in Hc. rewrite !Forall_cons in Hn. destruct Hc as (H1 & _ & _ & _ & _ & H6 & _), Hn as (N1 & N2 & _).
  unfold typed_config. cbn. split_and!; try done. apply Forall_fmap. apply Forall_forall. intros t Hin.
  rewrite Forall_forall in Hf, Ht. destruct (Ht t Hin) as (Hnum & Htq & Hti), (Hf t Hin) as [Hid _].
  rewrite !Forall_cons in Hnum. destruct Hnum as (_ & Hw & _ & _).
  split; [unfold is_u32, max_uint32, two32 in *; cbn; lia|]. split; [exact Hw|]. by split.
Qed.

Lemma preflight_tenants references : map cr_Tenant (preflightCredentials references) = map cf_tenant references.
Proof.
  unfold preflightCredentials. apply list_eq. intros i. rewrite !list_lookup_fmap, list_lookup_imap.
  by destruct (references !! i).
Qed.

Section compose.
Context (sha256 : list Z -> list Z).
Context (urlParse : list Z -> option parsedURL) (urlString : parsedURL -> list Z).
Context (d : policyDocument) (p : validatedPolicy).
Context (Hd : typed_document d) (Hp : accepted sha256 urlParse urlString d p).

(** The scheduler can be made. *)
Lemma accepted_scheduler : exists v, validateConfig (vp_admission p) = Ok v.
Proof.
  destruct Hp as [_ _ _ _ Ha _ _ _ _ _ _ _ _ _ _ ->]. cbn [vp_admission]. unfold ValidateConfig in Ha.
  destruct (validateConfig (admission_config d)) as [v|]; [by exists v|done].
Qed.

(** The handler can be made on that scheduler with tokens in order, for the same
    tenants as the references. *)
Lemma accepted_handler v credentials :
  validateConfig (vp_admission p) = Ok v -> map cr_Tenant credentials = map cf_tenant (vp_credentials p) ->
  tokens_fine sha256 (map cr_Token credentials) ->
  exists h, validateHandlerConfig sha256 (withCredentials (vp_http p) credentials) (vp_parser p) (schedulerPolicyOf v) = Ok h.
Proof.
  intros Hv Ht Hf. pose proof (ac_http _ _ _ _ _ Hp) as Hh. pose proof (ac_tenants _ _ _ _ _ Hp) as [_ Hfine _].
  rewrite (ac_policy _ _ _ _ _ Hp) in Hv, Ht |- *. cbn [vp_admission vp_credentials vp_http vp_parser] in *.
  rewrite http_ValidateConfig_live in Hh by by apply typed_admission_config. rewrite Hv in Hh.
  destruct (validateHandlerConfig _ (withCredentials _ _) _ _) as [h|] eqn:E; [|done].
  destruct (validateHandlerConfig_credentials sha256 _ _ _ _ credentials E) as [h' Hh']; [|done|by exists h'].
  cbn [withCredentials hc_Credentials]. by rewrite Ht, preflight_tenants.
Qed.

(** The server takes the timeouts of any such handler. *)
Lemma accepted_server credentials policy h :
  validateHandlerConfig sha256 (withCredentials (vp_http p) credentials) (vp_parser p) policy = Ok h ->
  server_ValidateConfig (vp_server p) (Handler_TimeoutPolicy h) = Ok tt.
Proof.
  intros Hh%validateHandlerConfig_Ok. unfold Handler_TimeoutPolicy.
  rewrite (ho_queueTimeout _ _ _ _ _ Hh), (ho_bodyTimeout _ _ _ _ _ Hh), (ho_upstreamTimeout _ _ _ _ _ Hh).
  pose proof (ac_server _ _ _ _ _ Hp) as Hs. rewrite (ac_policy _ _ _ _ _ Hp). exact Hs.
Qed.

(** The upstream takes exactly the well-formed tokens. *)
Lemma accepted_upstream token :
  match NewHTTPUpstream urlParse urlString (vp_upstream p) token with
  | Ok u => validBearerToken token = true /\ hu_authorization u = bs "Bearer " ++ token
  | Err _ => validBearerToken token = false
  end.
Proof.
  destruct (NewHTTPUpstream _ _ _ token) as [u|e] eqn:E.
  - apply NewHTTPUpstream_Ok in E as (_ & _ & _ & Ht & Ha & _). done.
  - apply not_true_is_false. intros Ht. destruct (ac_upstream _ _ _ _ _ Hp) as [u Hu].
    rewrite (ac_policy _ _ _ _ _ Hp) in E. cbn [vp_upstream] in E.
    destruct (NewHTTPUpstream_token urlParse urlString (upstream_config d) (bs "policy-preflight") token Ht) as [u' Hu'];
      [by rewrite Hu; eexists|congruence].
Qed.
End compose.

(** ** Preparation *)

(** What may be in the log of a preparation that failed: everything that was made
    was closed, once. *)
Definition released_log (log : list buildEvent) : Prop :=
  log = [] \/ (exists u, log = [EvUpstreamMade u; EvIdleClosed u]) \/
  exists u s, log = [EvUpstreamMade u; EvSchedulerMade s; EvSchedulerClosed s; EvIdleClosed u].

Ltac by_released :=
  eexists None, _; split;
  [reflexivity|first [by left | by right; left; eexists | by right; right; eexists _, _]].

Lemma prepareGatewayWith_releases {S} sha256 closes policy (source : option (secretSource S)) factories env :
  exists r w, prepareGatewayWith sha256 closes policy source factories (mkBuildWorld env []) = Done (r, w) /\
    match r with
    | None => released_log (bw_log w)
    | Some g => exists p h s u, policy = Some p /\ pg_shutdownWait g = vp_shutdownWait p /\
        ready_gateway g h s u /\ bw_log w = [EvUpstreamMade u; EvSchedulerMade s]
    end.
Proof.
  unfold prepareGatewayWith. destruct policy as [policy|], factories as [[nu|] [ns|] [nh|] [vs|]];
    cbn [newUpstream newScheduler newHandler validateServer]; try by_released.
  destruct (resolveSecrets_total sha256 policy source env) as (r & env' & E).
  unfold onSource, mbind, M_bind. cbn -[resolveSecrets]. rewrite E.
  destruct r as [secrets|e]; [|by_released].
  destruct (nu (vp_upstream policy) (rs_upstream secrets)) as [[u|] [|]]; cbn; try by_released.
  destruct (ns (vp_admission policy)) as [[s|] [|]]; cbn; try by_released.
  destruct (nh (withCredentials (vp_http policy) (rs_credentials secrets)) (vp_parser policy) s u) as [[h|] [|]]; cbn; try by_released.
  destruct (vs _ _); cbn; [by_released|].
  eexists (Some _), _. split; [reflexivity|]. by eexists policy, h, s, u.
Qed.

(** Values held under the names are tokens for the references. *)
Lemma held_resolved sha256 env seen policy values :
  held sha256 env seen (secret_names policy) values ->
  exists resolved, map cr_Tenant (rs_credentials resolved) = map cf_tenant (vp_credentials policy) /\
    values = map cr_Token (rs_credentials resolved) ++ [rs_upstream resolved].
Proof.
  intros [HF _ _ _]. unfold secret_names in HF. apply Forall2_app_inv_l in HF as (tokens & last & HF & Hlast & ->).
  apply Forall2_cons_inv_l in Hlast as (up & nil & _ & Hnil & ->). apply Forall2_nil_inv_l in Hnil as ->.
  apply Forall2_length in HF. rewrite length_map in HF.
  exists (mkResolvedSecrets (zip_with mkCredential (map cf_tenant (vp_credentials policy)) tokens) up). cbn.
  revert tokens HF. induction (vp_credentials policy) as [|r rs IH]; intros [|t ts]; try done. cbn. intros [= HF].
  destruct (IH ts HF) as [H1 H2]. rewrite H1. split; [done|]. by rewrite <- H2.
Qed.

Section prepare.
Context (sha256 : list Z -> list Z).
Context (urlParse : list Z -> option parsedURL) (urlString : parsedURL -> list Z).
Context (d : policyDocument) (p : validatedPolicy).
Context (Hd : typed_document d) (Hp : accepted sha256 urlParse urlString d p).

(** What the components are made of. *)
Record prepared_with (id : nat) (secrets : resolvedSecrets) (g : preparedGateway) (h : handlerRef) (s : schedulerRef)
    (u : HTTPUpstream) : Prop := {
  pw_ready : ready_gateway g h s u;
  pw_listener : pg_listener g = vp_listener p;
  pw_wait : pg_shutdownWait g = vp_shutdownWait p;
  pw_scheduler : admission_New id (vp_admission p) = Ok s;
  pw_handler : NewHandler sha256 (withCredentials (vp_http p) (rs_credentials secrets)) (vp_parser p) s = Ok h;
  pw_upstream : NewHTTPUpstream urlParse urlString (vp_upstream p) (rs_upstream secrets) = Ok u;
  pw_server : pg_serverConfig g = vp_server p /\
    server_ValidateConfig (vp_server p) (Handler_TimeoutPolicy (hr_config h)) = Ok tt;
}.

(** With the secrets at hand, the components are made exactly when every token is
    well-formed. *)
Lemma prepare_secrets closes id env secrets :
  resolveSecrets sha256 p (Some systemSecretSource) env = Done (Ok secrets, without env (secret_names p)) ->
  map cr_Tenant (rs_credentials secrets) = map cf_tenant (vp_credentials p) ->
  NoDup (map sha256 (map cr_Token (rs_credentials secrets) ++ [rs_upstream secrets])) ->
  exists r log,
    prepareGateway sha256 urlParse urlString closes id (Some p) (Some systemSecretSource) (mkBuildWorld env []) =
      Done (r, mkBuildWorld (without env (secret_names p)) log) /\
    (is_Some r <-> Forall (fun t => validBearerToken t = true) (map cr_Token (rs_credentials secrets) ++ [rs_upstream secrets])) /\
    forall g, r = Some g -> exists h s u, prepared_with id secrets g h s u.
Proof.
  intros Hsec Htenants Hnd. rewrite map_app in Hnd. apply NoDup_app in Hnd as [Hnd _].
  unfold prepareGateway, prepareGatewayWith, programFactories.
  cbn -[resolveSecrets NewHTTPUpstream admission_New NewHandler server_ValidateConfig].
  unfold onSource, mbind, M_bind. cbn -[resolveSecrets NewHTTPUpstream admission_New NewHandler server_ValidateConfig].
  rewrite Hsec. cbn -[NewHTTPUpstream admission_New NewHandler server_ValidateConfig].
  pose proof (accepted_upstream sha256 urlParse urlString d p Hp (rs_upstream secrets)) as Hu.
  destruct (NewHTTPUpstream _ _ _ _) as [u|] eqn:Eu; cbn [pair_of].
  2:{ eexists None, _. split; [reflexivity|]. split; [|done]. split; [by intros [? ?]|].
      rewrite Forall_app, Forall_singleton. intros [_ ?]. congruence. }
  destruct (accepted_scheduler sha256 urlParse urlString d p Hp) as [v Hv].
  unfold admission_New at 1. rewrite Hv. cbn -[NewHandler server_ValidateConfig].
  destruct (NewHandler _ _ _ _) as [h|] eqn:Eh; cbn -[server_ValidateConfig].
  - pose proof Eh as Hh. unfold NewHandler in Hh. apply result_bind_Ok in Hh as (vh & Hvh & [= <-]). cbn [hr_config sr_config] in *.
    pose proof (accepted_server sha256 urlParse urlString d p Hp _ _ _ Hvh) as Hserver. rewrite Hserver. cbn.
    eexists (Some _), _. split; [reflexivity|]. split.
    + split; [|by eexists]. intros _. apply Forall_app. split; [|apply Forall_singleton; tauto].
      apply Forall_fmap. eapply Forall_impl; [exact (ho_each _ _ _ _ _ (validateHandlerConfig_Ok _ _ _ _ _ Hvh))|by intros ? [_ ?]].
    + intros g [= <-]. eexists _, _, u. split; try done. unfold admission_New. by rewrite Hv.
  - eexists None, _. split; [reflexivity|]. split; [|done]. split; [by intros [? ?]|].
    intros [Hv1 _]%Forall_app. destruct (accepted_handler sha256 urlParse urlString d p Hd Hp v _ Hv Htenants) as [vh Hvh]; [by split|].
    unfold NewHandler in Eh. cbn [sr_config] in Eh. by rewrite Hvh in Eh.
Qed.

(** Whether and how an accepted policy becomes a gateway. *)
Lemma prepareGateway_exact closes id env :
  exists r log,
    prepareGateway sha256 urlParse urlString closes id (Some p) (Some systemSecretSource) (mkBuildWorld env []) =
      Done (r, mkBuildWorld (without env (secret_names p)) log) /\
    (is_Some r <-> exists values, held sha256 env ∅ (secret_names p) values /\
       Forall (fun t => validBearerToken t = true) values) /\
    forall g, r = Some g -> exists secrets h s u,
      held sha256 env ∅ (secret_names p) (map cr_Token (rs_credentials secrets) ++ [rs_upstream secrets]) /\
      map cr_Tenant (rs_credentials secrets) = map cf_tenant (vp_credentials p) /\ prepared_with id secrets g h s u.
Proof.
  destruct (resolveSecrets_system sha256 p env) as ([secrets|e] & E & Hex).
  - destruct (proj1 (Hex secrets) eq_refl) as [Htenants Hheld].
    destruct (prepare_secrets closes id env secrets E Htenants (held_digests _ _ _ _ _ Hheld)) as (r & log & Hrun & Hr & Hg).
    exists r, log. split; [exact Hrun|]. split.
    + rewrite Hr. split; [intros Hv; by eexists|]. intros (values & Hvalues & Hv).
      destruct (held_resolved _ _ _ _ _ Hvalues) as (secrets' & Ht' & ->).
      assert (Ok secrets = Ok secrets' :> result secretError _) as [= <-] by by apply Hex. exact Hv.
    + intros g Hgg. destruct (Hg g Hgg) as (h & s & u & Hpw). by exists secrets, h, s, u.
  - exists None, []. split; [|split; [|done]].
    + unfold prepareGateway, prepareGatewayWith, programFactories. cbn -[resolveSecrets].
      unfold onSource, mbind, M_bind. cbn -[resolveSecrets]. by rewrite E.
    + split; [by intros [? ?]|]. intros (values & Hvalues & _).
      destruct (held_resolved _ _ _ _ _ Hvalues) as (secrets' & Ht' & ->).
      by assert (Err e = Ok secrets') by by apply Hex.
Qed.

(** A prepared gateway starts exactly when its listener opens as planned, and the
    server is the one of the policy. *)
Lemma start_prepared closes f id secrets g h s u log :
  prepared_with id secrets g h s u ->
  exists r w, start closes f (mkGatewayState g log) = Done (r, w) /\
    match fst (listen (vp_listener p) f) with
    | Ok l => exists v, server_validateConfig (vp_server p) (Handler_TimeoutPolicy (hr_config h)) = Ok v /\
        r = Some (newServer v)
    | Err _ => r = None
    end.
Proof.
  intros [Hready Hl _ _ Hh _ [Hsc Hserver]]. destruct Hready as [Hstate Hhandler Hscheduler Hupstream].
  unfold start, startLocked, gets, mbind, M_bind. cbn -[listen server_New cleanupPreparedResources].
  rewrite Hstate, Hl, bool_decide_eq_true_2 by done. cbn -[listen server_New cleanupPreparedResources].
  destruct (listen (vp_listener p) f) as [r events] eqn:El. apply listen_exact in El. cbn [fst].
  destruct r as [l|]; cbn -[server_New cleanupPreparedResources].
  - destruct El as [_ Hv]. apply planned_listener_taken in Hv.
    rewrite Hhandler, Hscheduler, Hsc. unfold server_ValidateConfig in Hserver. 
    apply result_bind_Ok in Hserver as (v & Hval & _).
    assert (server_New (vp_server p) (TCPListener (tcp_Addr l)) (Some h) (Some (sr_id s)) = Ok (newServer v)) as Hnew.
    { unfold NewHandler in Hh. apply result_bind_Ok in Hh as (vh & _ & [= <-]). unfold server_New, UsesScheduler. cbn [hr_scheduler hr_config].
      rewrite Nat.eqb_refl. cbn [hr_config] in Hval. cbn [negb guard_err mbind result_bind]. rewrite Hval, Hv. done. }
    cbn [fmap option_map option_fmap]. rewrite Hnew. eexists _, _. split; [reflexivity|]. by exists v.
  - unfold consumeForClose, withPrepared, gets, modify, onLog, mbind, M_bind. cbn. rewrite Hscheduler, Hupstream. cbn.
    by eexists _, _.
Qed.
End prepare.
