(* ===== verification/AppPolicyFile.v ===== *)
(** * Reading the policy file

    Package [app], [policy_file.go]: the path that must be absolute and clean,
    the ancestors that must be safe directories, and the file that must be the
    same private regular file before it is opened, after, and after it is read.
    The file system answers each question as an environment says. *)

From S2P Require Import Prelude.
From S2P Require Import GoJson.
From S2P Require Import AppJson.

Definition maxPolicyPathBytes : Z := 4096.

Definition c_slash : Z := 47.

(** ** [path/filepath] on Unix *)

Definition IsAbs (path : list Z) : bool :=
  match path with c :: _ => c =? c_slash | [] => false end.

(** The loop of [Clean] over the elements; [out] is the stack of those kept. *)
Definition cleanElement (rooted : bool) (out : list (list Z)) (element : list Z) : list (list Z) :=
  if bool_decide (element = []) || bool_decide (element = bs ".") then out
  else if bool_decide (element = bs "..") then
    match last out with
    | Some top => if bool_decide (top = bs "..") then out ++ [element] else removelast out
    | None => if rooted then out else out ++ [element]
    end
  else out ++ [element].

(** Elements, each after a separator. *)
Fixpoint joined (elements : list (list Z)) : list Z :=
  match elements with
  | [] => []
  | element :: elements => c_slash :: element ++ joined elements
  end.

(** The path of some elements under the root. *)
Definition rooted_path (elements : list (list Z)) : list Z :=
  match elements with [] => [c_slash] | _ => joined elements end.

Definition Clean (path : list Z) : list Z :=
  let rooted := IsAbs path in
  let out := foldl (cleanElement rooted) [] (splitOn c_slash path) in
  if rooted then rooted_path out
  else match out with [] => bs "." | _ => drop 1 (joined out) end.

(** [path[:i+1]] for the last separator [i]. *)
Fixpoint throughSlash (path : list Z) : list Z :=
  match path with
  | [] => []
  | c :: path =>
      match throughSlash path with
      | [] => if c =? c_slash then [c] else []
      | prefix => c :: prefix
      end
  end.

Definition Dir (path : list Z) : list Z := Clean (throughSlash path).

(** ** Files *)

(** [os.FileInfo]: its mode as [os.FileMode] with its bits, its size, the owner
    that its [Stat_t] names, if there is one, and the file that it is of. *)
Record fileInfo := mkFileInfo { fi_Mode : Z; fi_Size : Z; fi_Owner : option Z; fi_File : Z }.

Definition ModeDir : Z := Z.shiftl 1 31.
Definition ModeSymlink : Z := Z.shiftl 1 27.
Definition ModeSticky : Z := Z.shiftl 1 20.
Definition ModeType : Z := foldr Z.lor 0 (map (Z.shiftl 1) [31; 27; 26; 25; 24; 21; 19]).
Definition ModePerm : Z := 511.

Definition IsDir (mode : Z) : bool := negb (Z.land mode ModeDir =? 0).
Definition IsRegular (mode : Z) : bool := Z.land mode ModeType =? 0.
Definition SameFile (a b : fileInfo) : bool := fi_File a =? fi_File b.

Definition policyOwner (info : fileInfo) : option Z := fi_Owner info.

Definition safePolicyFileInfo (info : fileInfo) (effectiveUID : Z) : bool :=
  if negb (IsRegular (fi_Mode info)) || negb (fi_Mode info =? 384) then false
  else if (fi_Size info <=? 0) || (maxPolicyBytes <? fi_Size info) then false
  else match policyOwner info with Some owner => owner =? effectiveUID | None => false end.

(** What the loop asks of one ancestor. *)
Definition safeAncestor (info : option fileInfo) (effectiveUID : Z) : bool :=
  match info with
  | None => false
  | Some info =>
      if negb (Z.land (fi_Mode info) ModeSymlink =? 0) || negb (IsDir (fi_Mode info)) then false else
      match policyOwner info with
      | None => false
      | Some owner =>
          if negb (owner =? 0) && negb (owner =? effectiveUID) then false
          else negb (negb (Z.land (Z.land (fi_Mode info) ModePerm) 18 =? 0)
                     && negb ((owner =? 0) && negb (Z.land (fi_Mode info) ModeSticky =? 0)))
      end
  end.

(** The loop from [current] up; [Lstat] answers for each path. *)
Fixpoint ancestorsFrom (fuel : nat) (Lstat : list Z -> option fileInfo) (effectiveUID : Z) (current : list Z)
  : comp bool :=
  match fuel with
  | O => OutOfFuel
  | S fuel =>
      if negb (safeAncestor (Lstat current) effectiveUID) then Done false
      else if bool_decide (Dir current = current) then Done true
      else ancestorsFrom fuel Lstat effectiveUID (Dir current)
  end.

Definition safePolicyAncestors (Lstat : list Z -> option fileInfo) (path : list Z) (effectiveUID : Z) : comp bool :=
  ancestorsFrom (S (length path)) Lstat effectiveUID (Dir path).

Definition validPolicyPath (path : list Z) : bool :=
  negb (bool_decide (path = [])) && (Z.of_nat (length path) <=? maxPolicyPathBytes)
  && negb (bool_decide (0 ∈ path)) && IsAbs path && bool_decide (Clean path = path).

(** What the system answers: the effective user, [Lstat] of the ancestors and of
    the file, whether [Open] gives a descriptor and [NewFile] a file, the two
    [Stat]s, what the file holds and whether reading fails, and [Close]. *)
Record fileEnv := mkFileEnv {
  fe_euid : Z;
  fe_ancestors : list Z -> option fileInfo;
  fe_before : option fileInfo;
  fe_Open : bool;
  fe_NewFile : bool;
  fe_afterOpen : option fileInfo;
  fe_content : list Z;
  fe_readErr : bool;
  fe_afterRead : option fileInfo;
  fe_Close : bool;
}.

Definition readOpenedPolicyFile (env : fileEnv) (before : fileInfo) (effectiveUID : Z) : option (list Z) :=
  match fe_afterOpen env with
  | None => None
  | Some afterOpen =>
      if negb (safePolicyFileInfo afterOpen effectiveUID) || negb (SameFile before afterOpen)
         || negb (fi_Size before =? fi_Size afterOpen)
      then None else
      let data := take (Z.to_nat (maxPolicyBytes + 1)) (fe_content env) in
      if fe_readErr env || bool_decide (data = []) || (maxPolicyBytes <? Z.of_nat (length data)) then None else
      match fe_afterRead env with
      | None => None
      | Some afterRead =>
          if negb (safePolicyFileInfo afterRead effectiveUID) || negb (SameFile afterOpen afterRead)
             || negb (fi_Size afterRead =? fi_Size afterOpen) || negb (fi_Size afterRead =? Z.of_nat (length data))
          then None else Some data
      end
  end.

(** The data, if they are accepted, and how often the descriptor was closed. *)
Definition readPolicyFile (env : fileEnv) (path : list Z) : comp (option (list Z) * nat) :=
  if negb (validPolicyPath path) then Done (None, 0%nat) else
  let effectiveUID := u32 (fe_euid env) in
  match safePolicyAncestors (fe_ancestors env) path effectiveUID with
  | Panicked e => Panicked e
  | OutOfFuel => OutOfFuel
  | Done false => Done (None, 0%nat)
  | Done true =>
      match fe_before env with
      | None => Done (None, 0%nat)
      | Some before =>
          if negb (safePolicyFileInfo before effectiveUID) then Done (None, 0%nat)
          else if negb (fe_Open env) then Done (None, 0%nat)
          else if negb (fe_NewFile env) then Done (None, 1%nat)
          else
            match readOpenedPolicyFile env before effectiveUID with
            | Some data => Done (if fe_Close env then Some data else None, 1%nat)
            | None => Done (None, 1%nat)
            end
      end
  end.

Example clean_1 : Clean (bs "/a/./b//../c/") = bs "/a/c".
Proof. reflexivity. Qed.
Example clean_2 : Clean (bs "/../..") = bs "/".
Proof. reflexivity. Qed.
Example dir_1 : Dir (bs "/etc/gateway/policy.json") = bs "/etc/gateway".
Proof. reflexivity. Qed.
Example dir_2 : Dir (bs "/policy.json") = bs "/" /\ Dir (bs "/") = bs "/".
Proof. split; reflexivity. Qed.

(** ** Paths as lists of elements *)

(** An element that [Clean] leaves alone. *)
Record element_fine (element : list Z) : Prop := {
  ef_nonempty : element <> [];
  ef_here : element <> bs ".";
  ef_up : element <> bs "..";
  ef_slash : c_slash ∉ element;
}.

Lemma cleanElement_fine rooted out element : element_fine element -> cleanElement rooted out element = out ++ [element].
Proof. intros [H1 H2 H3 _]. unfold cleanElement. by rewrite !bool_decide_eq_false_2. Qed.

Lemma clean_elements_fine rooted elements : forall out,
  Forall element_fine elements -> foldl (cleanElement rooted) out elements = out ++ elements.
Proof.
  induction elements as [|e es IH]; intros out Hf; [by rewrite app_nil_r|]. apply Forall_cons in Hf as [He Hes].
  cbn. rewrite cleanElement_fine, IH by done. by rewrite <- app_assoc.
Qed.

(** What [Clean] makes of a rooted path has fine elements only. *)
Lemma clean_makes_fine elements : forall out,
  Forall (fun e => c_slash ∉ e) elements -> Forall element_fine out ->
  Forall element_fine (foldl (cleanElement true) out elements).
Proof.
  induction elements as [|e es IH]; intros out Hs Hf; [done|]. apply Forall_cons in Hs as [He Hes]. cbn. apply IH; [done|].
  unfold cleanElement. destruct (bool_decide (e = []) || bool_decide (e = bs ".")) eqn:E1; [done|]. breflect.
  case_bool_decide as E2.
  - destruct (last out) as [top|] eqn:Hl; [|done]. case_bool_decide as E3.
    + apply last_Some in Hl as [out' ->]. apply Forall_app in Hf as [_ [Ht _]%Forall_cons]. by destruct (ef_up _ Ht).
    + apply last_Some in Hl as [out' ->]. rewrite removelast_last. by apply Forall_app in Hf as [? _].
  - apply Forall_app. split; [done|]. apply Forall_singleton. by split.
Qed.

Lemma splitOn_joined e es :
  element_fine e -> Forall element_fine es -> splitOn c_slash (e ++ joined es) = e :: es.
Proof.
  revert e. induction es as [|f es IH]; intros e He Hes; cbn.
  - rewrite app_nil_r. apply splitOn_field, He.
  - apply Forall_cons in Hes as [Hf Hes]. rewrite splitOn_app by apply He. by rewrite IH.
Qed.

Lemma splitOn_rooted es : Forall element_fine es ->
  splitOn c_slash (rooted_path es) = match es with [] => [[]; []] | _ => [] :: es end.
Proof.
  intros Hes. destruct es as [|e es]; [done|]. apply Forall_cons in Hes as [He Hes].
  cbn [rooted_path joined splitOn]. rewrite Z.eqb_refl. by rewrite splitOn_joined.
Qed.

Lemma rooted_abs es : IsAbs (rooted_path es) = true.
Proof. by destruct es. Qed.

Lemma Clean_rooted es : Forall element_fine es -> Clean (rooted_path es) = rooted_path es.
Proof.
  intros Hes. unfold Clean. rewrite rooted_abs, splitOn_rooted by done. destruct es as [|e es]; [done|].
  change (foldl (cleanElement true) [] ([] :: e :: es)) with (foldl (cleanElement true) [] (e :: es)).
  by rewrite clean_elements_fine.
Qed.

(** The absolute clean paths are those of fine elements. *)
Lemma clean_path path :
  IsAbs path = true -> Clean path = path -> exists es, Forall element_fine es /\ path = rooted_path es.
Proof.
  unfold Clean. intros -> Hc. exists (foldl (cleanElement true) [] (splitOn c_slash path)). split; [|done].
  apply clean_makes_fine; [apply splitOn_fields|constructor].
Qed.

Lemma throughSlash_last (a b : list Z) : c_slash ∉ b -> throughSlash (a ++ c_slash :: b) = a ++ [c_slash].
Proof.
  intros Hb. assert (forall b, c_slash ∉ b -> throughSlash b = []) as Hnone.
  { clear. induction b as [|c b IH]; [done|]. intros [Hc Hb]%not_elem_of_cons. cbn. rewrite IH by done.
    destruct (Z.eqb_spec c c_slash) as [->|]; done. }
  induction a as [|c a IH]; cbn.
  - by rewrite Hnone.
  - rewrite IH. by destruct a.
Qed.

Lemma joined_app es fs : joined (es ++ fs) = joined es ++ joined fs.
Proof. induction es as [|e es IH]; [done|]. cbn. by rewrite IH, <- app_assoc. Qed.

Lemma Dir_root : Dir (rooted_path []) = rooted_path [].
Proof. reflexivity. Qed.

(** [Dir] drops the last element. *)
Lemma Dir_snoc es e : Forall element_fine es -> element_fine e -> Dir (rooted_path (es ++ [e])) = rooted_path es.
Proof.
  intros Hes He. unfold Dir.
  replace (rooted_path (es ++ [e])) with (joined es ++ c_slash :: e) by (destruct es; cbn; rewrite ?joined_app; cbn; rewrite ?app_nil_r, <- ?app_assoc; done).
  rewrite throughSlash_last by apply He. unfold Clean.
  assert (forall e es, element_fine e -> Forall element_fine es ->
    splitOn c_slash (e ++ joined es ++ [c_slash]) = e :: es ++ [[]]) as Hsplit.
  { clear. intros e es. revert e. induction es as [|f es IH]; intros e He Hes; cbn.
    - by rewrite splitOn_app by apply He.
    - apply Forall_cons in Hes as [Hf Hes]. rewrite splitOn_app by apply He. rewrite <- app_assoc. by rewrite IH. }
  destruct es as [|f es]; [done|]. apply Forall_cons in Hes as [Hf Hes]. cbn [joined app IsAbs splitOn]. rewrite Z.eqb_refl.
  rewrite <- app_assoc, Hsplit by done.
  change (foldl (cleanElement true) [] ([] :: f :: es ++ [[]])) with (foldl (cleanElement true) [] ((f :: es) ++ [[]])).
  rewrite foldl_app, (clean_elements_fine true (f :: es)) by (by apply Forall_cons_2). reflexivity.
Qed.

(** ** The loops *)

Lemma joined_length es : Forall element_fine es -> (length es <= length (joined es))%nat.
Proof.
  induction es as [|e es IH]; intros Hes; [done|]. apply Forall_cons in Hes as [_ Hes]. cbn. rewrite length_app.
  specialize (IH Hes). lia.
Qed.

Lemma rooted_length es : Forall element_fine es -> (length es <= length (rooted_path es))%nat.
Proof. intros Hes. destruct es as [|e es]; [cbn; lia|]. by apply joined_length. Qed.

(** The loop ends, and has asked about every ancestor up to the root. *)
Lemma ancestorsFrom_exact Lstat uid es : forall fuel,
  Forall element_fine es -> (length es < fuel)%nat ->
  exists b, ancestorsFrom fuel Lstat uid (rooted_path es) = Done b /\
    (b = true <-> forall n, (n <= length es)%nat -> safeAncestor (Lstat (rooted_path (take n es))) uid = true).
Proof.
  induction es as [|e es IH] using rev_ind; intros fuel Hes Hf; (destruct fuel as [|fuel]; [lia|]); cbn [ancestorsFrom].
  - rewrite Dir_root, (bool_decide_eq_true_2 (rooted_path [] = _)) by done.
    destruct (safeAncestor _ _) eqn:E; cbn [negb]; eexists; (split; [reflexivity|]).
    + split; [|done]. intros _ n _. by rewrite take_nil.
    + split; [done|]. intros H. specialize (H 0%nat ltac:(cbn; lia)). cbn in H, E. congruence.
  - apply Forall_app in Hes as [Hes [He _]%Forall_cons]. rewrite length_app in *. cbn [length] in *.
    rewrite Dir_snoc by done.
    assert (rooted_path es <> rooted_path (es ++ [e])) as Hne.
    { intros E. apply (f_equal length) in E. destruct He as [He _ _ _]. revert E. destruct es as [|f es]; cbn.
      - rewrite app_nil_r. destruct e; [done|]. cbn. lia.
      - rewrite !joined_app, !length_app. cbn. rewrite ?length_app. destruct e; [done|]. cbn. lia. }
    rewrite bool_decide_eq_false_2 by done. destruct (IH fuel Hes) as (b & Hb & Hx); [lia|].
    assert (forall n, (n <= length es)%nat -> take n (es ++ [e]) = take n es) as Htake by (intros n Hn; by rewrite take_app_le).
    destruct (safeAncestor (Lstat (rooted_path (es ++ [e]))) uid) eqn:E; cbn [negb].
    + exists b. split; [exact Hb|]. rewrite Hx. split; intros H n Hn.
      * destruct (decide (n <= length es)%nat) as [Hle|Hgt]; [rewrite Htake by done; by apply H|].
        by rewrite take_ge by (rewrite length_app; cbn; lia).
      * rewrite <- Htake by done. apply H. lia.
    + exists false. split; [done|]. split; [done|]. intros H. specialize (H (length es + 1)%nat ltac:(lia)).
      rewrite take_ge in H by (rewrite length_app; cbn; lia). congruence.
Qed.

(** The directories above a file. *)
Lemma safePolicyAncestors_exact Lstat es uid :
  Forall element_fine es ->
  exists b, safePolicyAncestors Lstat (rooted_path es) uid = Done b /\
    (b = true <-> forall n, (n <= length (removelast es))%nat ->
       safeAncestor (Lstat (rooted_path (take n (removelast es)))) uid = true).
Proof.
  intros Hes. unfold safePolicyAncestors.
  assert (Dir (rooted_path es) = rooted_path (removelast es) /\ Forall element_fine (removelast es) /\
    (length (removelast es) <= length es)%nat) as (-> & Hf & Hl).
  { destruct es as [|e es _] using rev_ind; [done|]. rewrite removelast_last, length_app. apply Forall_app in Hes as [Hes [He _]%Forall_cons].
    split; [by apply Dir_snoc|]. split; [done|]. lia. }
  apply ancestorsFrom_exact; [done|]. pose proof (rooted_length es Hes). lia.
Qed.

(** A private regular file of the user. *)
Definition private_file (uid : Z) (info : fileInfo) : Prop :=
  fi_Mode info = 384 /\ 0 < fi_Size info <= maxPolicyBytes /\ fi_Owner info = Some uid.

Lemma safePolicyFileInfo_private info uid : safePolicyFileInfo info uid = true <-> private_file uid info.
Proof.
  unfold safePolicyFileInfo, private_file, policyOwner. split.
  - destruct (negb _ || _) eqn:E1; [done|]. destruct ((fi_Size info <=? 0) || _) eqn:E2; [done|]. breflect.
    destruct (fi_Owner info) as [owner|]; [|done]. intros ->%Z.eqb_eq. split_and!; try done; lia.
  - intros (Hm & Hs & ->). rewrite Hm. cbn. replace (fi_Size info <=? 0) with false by lia.
    replace (maxPolicyBytes <? fi_Size info) with false by lia. cbn. by apply Z.eqb_refl.
Qed.

(** A directory that nobody else can change: no link, owned by root or the user, and
    not writable by others, unless it is root's and sticky. *)
Definition safe_directory (uid : Z) (info : fileInfo) : Prop :=
  Z.land (fi_Mode info) ModeSymlink = 0 /\ IsDir (fi_Mode info) = true /\
  exists owner, fi_Owner info = Some owner /\ (owner = 0 \/ owner = uid) /\
    (Z.land (Z.land (fi_Mode info) ModePerm) 18 = 0 \/ (owner = 0 /\ Z.land (fi_Mode info) ModeSticky <> 0)).

Lemma safeAncestor_safe info uid :
  safeAncestor info uid = true <-> exists i, info = Some i /\ safe_directory uid i.
Proof.
  unfold safeAncestor, safe_directory, policyOwner. destruct info as [info|]; [|split; [done|by intros (? & ? & _)]]. split.
  - destruct (negb _ || _) eqn:E1; [done|]. destruct (fi_Owner info) as [owner|] eqn:Eo; [|done].
    destruct (negb _ && _) eqn:E2; [done|]. intros E3. exists info. breflect. split; [done|]. split_and!; try done.
    exists owner. split; [done|]. split; [destruct E2; breflect; auto|].
    destruct E3 as [E3|E3]; breflect; auto.
  - intros (i & [= <-] & Hl & Hd & owner & -> & Ho & Hw). rewrite Hl, Hd. cbn [Z.eqb negb orb].
    destruct Ho as [-> | ->]; [|rewrite Z.eqb_refl, andb_false_r]; cbn [Z.eqb negb andb];
      destruct Hw as [-> | [E Hst%Z.eqb_neq]]; try done; try (subst uid); by rewrite Hst, ?andb_false_r.
Qed.

(** A descriptor read: it is of the same private file throughout, and the data are
    all of it. *)
Record same_file (uid : Z) (env : fileEnv) (before : fileInfo) (data : list Z) : Prop := {
  sf_open : exists info, fe_afterOpen env = Some info /\ private_file uid info /\ fi_File info = fi_File before /\
    fi_Size info = fi_Size before;
  sf_read : fe_readErr env = false /\ data = fe_content env;
  sf_size : Z.of_nat (length data) = fi_Size before;
  sf_end : exists info, fe_afterRead env = Some info /\ private_file uid info /\ fi_File info = fi_File before /\
    fi_Size info = fi_Size before;
}.

Lemma readOpenedPolicyFile_exact env before uid data :
  readOpenedPolicyFile env before uid = Some data <-> same_file uid env before data.
Proof.
  unfold readOpenedPolicyFile, SameFile. split.
  - destruct (fe_afterOpen env) as [opened|] eqn:Eo; [|done]. destruct (negb (safePolicyFileInfo opened uid) || _ || _) eqn:E1; [done|].
    destruct (fe_readErr env || _ || _) eqn:E2; [done|]. destruct (fe_afterRead env) as [ended|] eqn:Ee; [|done].
    destruct (negb (safePolicyFileInfo ended uid) || _ || _ || _) eqn:E3; [done|]. intros [= Hd]. breflect.
    repeat match goal with H : safePolicyFileInfo _ _ = true |- _ => apply safePolicyFileInfo_private in H end.
    assert (data = fe_content env) as Hdata.
    { rewrite <- Hd. apply take_ge. rewrite length_take in *. unfold maxPolicyBytes in *. lia. }
    rewrite Hd in *. split.
    + exists opened. split_and!; try done; congruence.
    + done.
    + congruence.
    + exists ended. split_and!; try done; congruence.
  - intros [(opened & -> & Hp & Hf1 & Hs1) [-> ->] Hsize (ended & -> & He & Hf2 & Hs2)].
    destruct (Hp) as (_ & Hr & _). rewrite (proj2 (safePolicyFileInfo_private _ _) Hp), (proj2 (safePolicyFileInfo_private _ _) He).
    rewrite take_ge by (unfold maxPolicyBytes in *; lia). rewrite Hf1, Hs1, Hf2, Hs2, Hsize, !Z.eqb_refl. cbn [negb orb].
    rewrite bool_decide_eq_false_2 by (intros E; rewrite E in Hsize; cbn in Hsize; lia).
    by replace (maxPolicyBytes <? fi_Size before) with false by lia.
Qed.

(** The data of a policy file are accepted exactly when the path is absolute, clean
    and short, every directory above the file is safe, and the file is the same
    private one before it is opened, after, and after all of it was read. *)
Record trusted_file (env : fileEnv) (path data : list Z) : Prop := {
  tf_path : exists es, path = rooted_path es /\ Forall element_fine es /\
    forall n, (n <= length (removelast es))%nat ->
      exists info, fe_ancestors env (rooted_path (take n (removelast es))) = Some info /\
        safe_directory (u32 (fe_euid env)) info;
  tf_bytes : Z.of_nat (length path) <= maxPolicyPathBytes /\ 0 ∉ path;
  tf_file : exists before, fe_before env = Some before /\ private_file (u32 (fe_euid env)) before /\
    same_file (u32 (fe_euid env)) env before data;
  tf_calls : fe_Open env = true /\ fe_NewFile env = true /\ fe_Close env = true;
}.

Lemma validPolicyPath_rooted path :
  validPolicyPath path = true <->
  (exists es, path = rooted_path es /\ Forall element_fine es) /\
  Z.of_nat (length path) <= maxPolicyPathBytes /\ 0 ∉ path.
Proof.
  unfold validPolicyPath. rewrite !andb_true_iff, !negb_true_iff, Z.leb_le, !bool_decide_eq_false, bool_decide_eq_true. split.
  - intros ((((_ & Hl) & H0) & Ha) & Hc). destruct (clean_path path Ha Hc) as (es & Hes & Hp). split_and!; try done. by exists es.
  - intros ((es & -> & Hes) & Hl & H0). split_and!; try done; [by destruct es|apply rooted_abs|by apply Clean_rooted].
Qed.

Lemma rooted_inj es es' :
  Forall element_fine es -> Forall element_fine es' -> rooted_path es = rooted_path es' -> es = es'.
Proof.
  intros Hes Hes' E. apply (f_equal (splitOn c_slash)) in E. rewrite !splitOn_rooted in E by done.
  destruct es as [|e es], es' as [|e' es']; try done.
  - injection E as <- <-. apply Forall_cons in Hes' as [He _]. by destruct (ef_nonempty _ He).
  - injection E as -> ->. apply Forall_cons in Hes as [He _]. by destruct (ef_nonempty _ He).
  - by injection E as -> ->.
Qed.

(** The same, on a path of fine elements whose ancestors were checked. *)
Lemma trusted_file_rooted env es b data :
  Forall element_fine es -> Z.of_nat (length (rooted_path es)) <= maxPolicyPathBytes -> 0 ∉ rooted_path es ->
  (b = true <-> forall n, (n <= length (removelast es))%nat ->
     safeAncestor (fe_ancestors env (rooted_path (take n (removelast es)))) (u32 (fe_euid env)) = true) ->
  trusted_file env (rooted_path es) data <->
  b = true /\ (fe_Open env = true /\ fe_NewFile env = true /\ fe_Close env = true) /\
  exists before, fe_before env = Some before /\ safePolicyFileInfo before (u32 (fe_euid env)) = true /\
    readOpenedPolicyFile env before (u32 (fe_euid env)) = Some data.
Proof.
  intros Hes Hl H0 Hb. rewrite Hb. split.
  - intros [(es' & E & Hes' & Ha) _ (before & -> & Hp & Hs) Hc]. apply rooted_inj in E as <-; [|done..].
    split_and!; try apply Hc.
    + intros n Hn. apply safeAncestor_safe. by apply Ha.
    + exists before. by rewrite safePolicyFileInfo_private, readOpenedPolicyFile_exact.
  - intros (Ha & Hc & before & Hbefore & Hp%safePolicyFileInfo_private & Hr%readOpenedPolicyFile_exact).
    split; [|done| |done]; [|by exists before]. exists es. split_and!; try done. intros n Hn. apply safeAncestor_safe. by apply Ha.
Qed.

Lemma readPolicyFile_exact env path :
  exists r n, readPolicyFile env path = Done (r, n) /\ (n <= 1)%nat /\
    (forall data, r = Some data <-> trusted_file env path data).
Proof.
  unfold readPolicyFile. destruct (validPolicyPath path) eqn:Ev; cbn [negb].
  2:{ exists None, 0%nat. split_and!; [done|lia|]. intros data. split; [done|]. intros [(es & Hp & Hes & _) [Hl H0] _ _].
      assert (validPolicyPath path = true) by (apply validPolicyPath_rooted; split_and!; [by exists es|done..]). congruence. }
  apply validPolicyPath_rooted in Ev as ((es & -> & Hes) & Hl & H0).
  destruct (safePolicyAncestors_exact (fe_ancestors env) es (u32 (fe_euid env)) Hes) as (b & -> & Hb).
  pose proof (fun data => trusted_file_rooted env es b data Hes Hl H0 Hb) as Hx.
  assert (forall k, (k <= 1)%nat -> (forall data, trusted_file env (rooted_path es) data -> False) ->
    exists r n, Done (@None (list Z), k) = Done (r, n) /\ (n <= 1)%nat /\
      (forall data, r = Some data <-> trusted_file env (rooted_path es) data)) as Hnone.
  { intros k Hk Hno. exists None, k. split_and!; [done..|]. intros data. split; [done|]. intros H. by destruct (Hno data). }
  destruct b; [|apply Hnone; [lia|]; intros data (? & _)%Hx; done].
  destruct (fe_before env) as [before|]; [|apply Hnone; [lia|]; intros data (_ & _ & ? & ? & _)%Hx; done].
  destruct (safePolicyFileInfo before _) eqn:Ep; cbn [negb];
    [|apply Hnone; [lia|]; intros data (_ & _ & ? & [= <-] & ? & _)%Hx; congruence].
  destruct (fe_Open env); cbn [negb]; [|apply Hnone; [lia|]; intros data (_ & (? & _) & _)%Hx; done].
  destruct (fe_NewFile env); cbn [negb]; [|apply Hnone; [lia|]; intros data (_ & (_ & ? & _) & _)%Hx; done].
  destruct (readOpenedPolicyFile env before _) as [data|] eqn:Er;
    [|apply Hnone; [lia|]; intros data (_ & _ & ? & [= <-] & _ & ?)%Hx; congruence].
  destruct (fe_Close env); [|apply Hnone; [lia|]; intros data' (_ & (_ & _ & ?) & _)%Hx; done].
  exists (Some data), 1%nat. split_and!; [done..|]. intros data'. rewrite Hx. split.
  - intros [= <-]. split_and!; try done. by exists before.
  - intros (_ & _ & ? & [= <-] & _ & ?). congruence.
Qed.
