(* ===== verification/AppCommand.v ===== *)
(** * Supervision and the command

    Package [app].  First [signals.go] and [supervise.go]: the subscription to the
    termination signals and the one-way passage from serving to shutdown.  Then
    [command.go]: one invocation, from its arguments to its exit code, with
    [loadPolicy] of [policy.go].  Everything that the command does to the outside is
    one log, in order. *)

From S2P Require Import Prelude Interleave GoJson ServerLifecycle HttpUpstream AppPolicy AppSecrets AppBuild AppPolicyFile.

(** ** Signals *)

(** [os.Signal] values: the two that are handled, other [syscall.Signal]s, and
    values of other types. *)
Inductive osSignal := SIGINT | SIGTERM | OtherSyscallSignal (number : Z) | ForeignSignal.

Definition handledSignal (event : osSignal) : bool :=
  match event with SIGINT | SIGTERM => true | _ => false end.

(** [signalAPI]: which of its functions are there. *)
Record signalAPI := mkSignalAPI { sig_notify : bool; sig_stop : bool }.

(** What a subscription is: the channel's capacity, the signals asked for, and
    [once] with the number of calls of [api.stop]. *)
Record subscription := mkSubscription {
  sub_capacity : Z;
  sub_signals : list osSignal;
  sub_once : onceState;
  sub_stops : Z;
}.

Definition subscribeSignals (api : signalAPI) : option subscription :=
  if negb (sig_notify api) || negb (sig_stop api) then None
  else Some (mkSubscription 1 [SIGINT; SIGTERM] OnceNew 0).

(** The returned [stop], called by one goroutine. *)
Definition stopSignals : M subscription unit := fun s =>
  match sub_once s with
  | OnceNew => Done (tt, mkSubscription (sub_capacity s) (sub_signals s) OnceDone (sub_stops s + 1))
  | _ => Done (tt, s)
  end.

(** ** [supervise] *)

Inductive outcome := outcomeFailure | outcomeCleanShutdown.

(** What is called, in order; a subscription says whether it gave a [stop]. *)
Inductive commandCall :=
| CallSubscribe (stop : bool)
| CallServe
| CallStop
| CallShutdown (wait : Z).

(** The first [select]: [Serve] returned, with an error or not, or an event came, or
    the channel is closed. *)
Inductive firstArm := FirstServe (err : bool) | FirstEvent (event : osSignal) (open : bool).

(** The second: [Serve] returned, or the deadline passed, and then what the inner
    [select] finds. *)
Inductive laterArm := LaterServe (err : bool) | LaterDeadline (result : option bool).

Record superviseEnv := mkSuperviseEnv {
  su_first : firstArm;
  su_shutdownErr : bool;
  su_later : laterArm;
}.

(** [runtime], [events] and [stop]: whether they are there. *)
Definition supervise (runtime events stop : bool) (shutdownWait : Z) (env : superviseEnv) : outcome * list commandCall :=
  if negb runtime || negb events || negb stop || (shutdownWait <=? 0) || (maximumShutdownWait <? shutdownWait)
  then (outcomeFailure, [])
  else
    let calls := [CallServe; CallStop; CallShutdown shutdownWait] in
    let '(cleanTrigger, serveErr) :=
      match su_first env with
      | FirstServe err => (false, Some err)
      | FirstEvent event open => (open && handledSignal event, None)
      end in
    let serveErr :=
      match serveErr with
      | Some err => Some err
      | None => match su_later env with LaterServe err => Some err | LaterDeadline result => result end
      end in
    match serveErr with
    | None => (outcomeFailure, calls)
    | Some err =>
        if cleanTrigger && negb err && negb (su_shutdownErr env) then (outcomeCleanShutdown, calls)
        else (outcomeFailure, calls)
    end.

(** ** Lemmas *)

(** An outcome is clean exactly after a handled signal, a clean return of
    [Serve], in time, and a clean shutdown. *)
Definition clean_env (env : superviseEnv) : Prop :=
  (su_first env = FirstEvent SIGINT true \/ su_first env = FirstEvent SIGTERM true) /\
  (su_later env = LaterServe false \/ su_later env = LaterDeadline (Some false)) /\ su_shutdownErr env = false.

Lemma supervise_exact wait env :
  0 < wait <= maximumShutdownWait ->
  snd (supervise true true true wait env) = [CallServe; CallStop; CallShutdown wait] /\
  (fst (supervise true true true wait env) = outcomeCleanShutdown <-> clean_env env).
Proof.
  intros Hw. unfold supervise, clean_env. cbn [negb orb].
  replace (wait <=? 0) with false by lia. replace (maximumShutdownWait <? wait) with false by lia. cbn [orb].
  destruct env as [[err|event open] shutdownErr later]; cbn.
  - split; [done|]. split; [done|]. by intros ([|] & _).
  - destruct later as [[]|[[]|]], open, event, shutdownErr; cbn; (split; [done|]);
      split; intros H; try done; try (by split_and!; eauto); destruct H as ([|] & [|] & ?); congruence.
Qed.

(** * The command *)

Definition exitSuccess : Z := 0.
Definition exitRuntime : Z := 1.
Definition exitUsage : Z := 2.

(** The static messages, by name. *)
Inductive staticMessage :=
| usageText | configurationRejectedMessage | validationFailedMessage | startupFailedMessage
| runtimeFailedMessage | validationSucceededMessage.

Definition messageText (message : staticMessage) : list Z :=
  bs match message with
  | usageText => "Usage:
  ssemaphore validate --config /absolute/path/policy.json
  ssemaphore serve --config /absolute/path/policy.json
"
  | configurationRejectedMessage => "configuration rejected
"
  | validationFailedMessage => "gateway validation failed
"
  | startupFailedMessage => "gateway startup failed
"
  | runtimeFailedMessage => "gateway runtime failed
"
  | validationSucceededMessage => "gateway policy is valid
"
  end.

Inductive stream := Stdout | Stderr.

Inductive commandMode := commandValidate | commandServe.

(** [parseCommand]: its four results. *)
Definition parseCommand (args : list (list Z)) : option commandMode * list Z * bool * bool :=
  match args with
  | [argument] =>
      if bool_decide (argument = bs "--help") || bool_decide (argument = bs "help") then (None, [], true, true)
      else (None, [], false, false)
  | [mode; flag; path] =>
      if negb (bool_decide (flag = bs "--config")) || bool_decide (path = []) then (None, [], false, false)
      else if bool_decide (mode = bs "validate") then (Some commandValidate, path, false, true)
      else if bool_decide (mode = bs "serve") then (Some commandServe, path, false, true)
      else (None, [], false, false)
  | _ => (None, [], false, false)
  end.

(** What a call of [subscribe] answers: the channel, [stop], and an error. *)
Record subscribeAnswer := mkSubscribeAnswer { sa_events : bool; sa_stop : bool; sa_err : bool }.

Record commandDependencies (S : Type) := mkDependencies {
  cd_secrets : option (secretSource S);
  cd_listenTCP : listenTCPFunc;
  cd_subscribe : option subscribeAnswer;
}.
Arguments mkDependencies {S} _ _ _.
Arguments cd_secrets {S} _.
Arguments cd_listenTCP {S} _.
Arguments cd_subscribe {S} _.

(** The log: resources, writes, and calls. *)
Inductive commandEvent :=
| CeBuild (e : buildEvent)
| CeWrite (destination : stream) (text : list Z)
| CeCall (call : commandCall).

(** What the rest of the system answers: the files, whether schedulers close in
    time, and the course of a supervised server. *)
Record commandEnv := mkCommandEnv {
  ce_file : fileEnv;
  ce_closes : schedulerRef -> bool;
  ce_supervise : superviseEnv;
}.

Section Command.
Context {S : Type} (sha256 : list Z -> list Z).
Context (urlParse : list Z -> option parsedURL) (urlString : parsedURL -> list Z).
Context (env : commandEnv).

(** [loadPolicy] *)
Definition loadPolicy (path : list Z) : comp (result policyRejected validatedPolicy) :=
  match readPolicyFile (ce_file env) path with
  | Done (Some data, _) => parsePolicy sha256 urlParse urlString data
  | Done (None, _) => Done (Err errPolicyRejected)
  | Panicked e => Panicked e
  | OutOfFuel => OutOfFuel
  end.

(** The source of the secrets, and the log. *)
Record commandWorld := mkCommandWorld { cw_env : S; cw_log : list commandEvent }.

Definition record_ (events : list commandEvent) : M commandWorld unit :=
  modify (fun w => mkCommandWorld (cw_env w) (cw_log w ++ events)).

Definition writeStatic (destination : stream) (message : staticMessage) : M commandWorld unit :=
  record_ [CeWrite destination (messageText message)].

Definition attempt {A} (c : comp A) : M commandWorld A := fun w =>
  match c with Done a => Done (a, w) | Panicked e => Panicked e | OutOfFuel => OutOfFuel end.

(** Preparation, with its events. *)
Definition building {A} (m : M (buildWorld S) A) : M commandWorld A := fun w =>
  match m (mkBuildWorld (cw_env w) []) with
  | Done (a, b) => Done (a, mkCommandWorld (bw_env b) (cw_log w ++ map CeBuild (bw_log b)))
  | Panicked e => Panicked e
  | OutOfFuel => OutOfFuel
  end.

(** A call of [start] or [close] on the prepared gateway, which no one else has. *)
Definition onGateway {A} (prepared : preparedGateway) (m : M gatewayState A) : M commandWorld A := fun w =>
  match m (mkGatewayState prepared []) with
  | Done (a, g) => Done (a, mkCommandWorld (cw_env w) (cw_log w ++ map CeBuild (gs_log g)))
  | Panicked e => Panicked e
  | OutOfFuel => OutOfFuel
  end.

Definition exitWith (destination : stream) (message : staticMessage) (code : Z) : M commandWorld Z :=
  writeStatic destination message;; mret code.

(** [runCommand]; [commandValidate] and [commandServe] in turn. *)
Definition runValidate (prepared : preparedGateway) : M commandWorld Z :=
  err ← onGateway prepared (close (ce_closes env));
  if (err : bool) then exitWith Stderr runtimeFailedMessage exitRuntime
  else exitWith Stdout validationSucceededMessage exitSuccess.

Definition runServe (prepared : preparedGateway) (dependencies : commandDependencies S) : M commandWorld Z :=
  match cd_listenTCP dependencies, cd_subscribe dependencies with
  | Some listenTCP, Some answer =>
      record_ [CeCall (CallSubscribe (sa_stop answer))];;
      if sa_err answer || negb (sa_events answer) || negb (sa_stop answer) then
        (if sa_stop answer then record_ [CeCall CallStop] else mret tt);;
        onGateway prepared (close (ce_closes env));;
        exitWith Stderr startupFailedMessage exitRuntime
      else
        runtime ← onGateway prepared (start (ce_closes env) (Some listenTCP));
        match runtime with
        | None =>
            record_ [CeCall CallStop];;
            exitWith Stderr startupFailedMessage exitRuntime
        | Some _ =>
            let '(outcome, calls) := supervise true true true (pg_shutdownWait prepared) (ce_supervise env) in
            record_ (map CeCall calls);;
            match outcome with
            | outcomeCleanShutdown => mret exitSuccess
            | outcomeFailure => exitWith Stderr runtimeFailedMessage exitRuntime
            end
        end
  | _, _ =>
      onGateway prepared (close (ce_closes env));;
      exitWith Stderr startupFailedMessage exitRuntime
  end.

Definition runCommand (args : list (list Z)) (dependencies : commandDependencies S) : M commandWorld Z :=
  let '(mode, path, help, valid) := parseCommand args in
  if help then exitWith Stdout usageText exitSuccess
  else if negb valid then exitWith Stderr usageText exitUsage
  else
    loaded ← attempt (loadPolicy path);
    match loaded with
    | Err _ => exitWith Stderr configurationRejectedMessage exitUsage
    | Ok policy =>
        prepared ← building (prepareGateway sha256 urlParse urlString (ce_closes env) 0 (Some policy)
                               (cd_secrets dependencies));
        match prepared with
        | None => exitWith Stderr validationFailedMessage exitUsage
        | Some prepared =>
            match mode with
            | Some commandValidate => runValidate prepared
            | _ => runServe prepared dependencies
            end
        end
    end.
End Command.
Arguments commandWorld : clear implicits.
Arguments mkCommandWorld {S} _ _.
Arguments cw_env {S} _.
Arguments cw_log {S} _.

(** [subscribeTerminationSignals] as an answer of [subscribe]. *)
Definition subscribeTerminationSignals (api : signalAPI) : subscribeAnswer :=
  match subscribeSignals api with
  | Some _ => mkSubscribeAnswer true true false
  | None => mkSubscribeAnswer false false true
  end.

(** [Main]: the program's own dependencies. *)
Definition Main (sha256 : list Z -> list Z) (urlParse : list Z -> option parsedURL) (urlString : parsedURL -> list Z)
    (env : commandEnv) (listenTCP : list Z -> list Z -> Z -> option tcpListener * bool)
    (api : signalAPI) (args : list (list Z)) : M (commandWorld environ) Z :=
  runCommand sha256 urlParse urlString env args
    (mkDependencies (Some systemSecretSource) (Some listenTCP) (Some (subscribeTerminationSignals api))).
