(* ===== verification/AppRun.v ===== *)
(** * What an invocation leaves behind

    The log of [runCommand] on every path: what was made is closed, once, or is
    handed to a server that is shut down, and the signals are given back. *)

From S2P Require Import Prelude.
From S2P Require Import GoJson.
From S2P Require Import Interleave.
From S2P Require Import AdmissionConfig.
From S2P Require Import HttpConfig.
From S2P Require Import HttpUpstream.
From S2P Require Import ServerLifecycle.
From S2P Require Import AppJson.
From S2P Require Import AppPolicy.
From S2P Require Import AppParse.
From S2P Require Import AppAccepted.
From S2P Require Import AppSecrets.
From S2P Require Import AppBuild.
From S2P Require Import AppGateway.
From S2P Require Import AppCompose.
From S2P Require Import AppCommand.
From S2P Require Import AppPolicyFile.

(** ** Balances *)

Definition on_build (f : buildEvent -> Z) (e : commandEvent) : Z := match e with CeBuild b => f b | _ => 0 end.
Definition on_call (f : commandCall -> Z) (e : commandEvent) : Z := match e with CeCall c => f c | _ => 0 end.

(** Made, less closed or handed to a server. *)
Definition scheduler_balance (e : buildEvent) : Z :=
  match e with EvSchedulerMade _ => 1 | EvSchedulerClosed _ | EvHandedOver _ _ => -1 | _ => 0 end.
Definition upstream_balance (e : buildEvent) : Z :=
  match e with EvUpstreamMade _ => 1 | EvIdleClosed _ | EvHandedOver _ _ => -1 | _ => 0 end.

Definition serves (c : commandCall) : Z := match c with CallServe => 1 | _ => 0 end.
Definition shutdowns (c : commandCall) : Z := match c with CallShutdown _ => 1 | _ => 0 end.
(** Subscriptions, less stops. *)
Definition signal_balance (c : commandCall) : Z :=
  match c with CallSubscribe true => 1 | CallStop => -1 | _ => 0 end.

Definition is_write (e : commandEvent) : Z := match e with CeWrite _ _ => 1 | _ => 0 end.

Record owes_nothing (log : list commandEvent) : Prop := {
  on_scheduler : total (on_build scheduler_balance) log = 0;
  on_upstream : total (on_build upstream_balance) log = 0;
  on_listeners : total (on_build listeners_open) log = 0;
  on_servers : total (on_build handed_over) log = total (on_call shutdowns) log /\
    total (on_call serves) log = total (on_call shutdowns) log /\ 0 <= total (on_call shutdowns) log <= 1;
  on_signals : total (on_call signal_balance) log = 0;
  on_writes : total is_write log <= 1;
}.

(** ** The parts *)

Section Run.
Context {S : Type} (sha256 : list Z -> list Z).
Context (urlParse : list Z -> option parsedURL) (urlString : parsedURL -> list Z).
Context (env : commandEnv).

(** A policy that loads is one that a trusted file states, and it can be
    supervised. *)
Lemma loadPolicy_exact path :
  exists r, loadPolicy sha256 urlParse urlString env path = Done r /\
    forall p, r = Ok p <-> exists data v d, trusted_file (ce_file env) path data /\ policy_text data /\
      policy_means policyType data v /\ document_of v = Some d /\ typed_document d /\
      accepted sha256 urlParse urlString d p.
Proof.
  unfold loadPolicy. destruct (readPolicyFile_exact (ce_file env) path) as (r & n & -> & _ & Hr).
  destruct r as [data|].
  - destruct (parsePolicy_exact sha256 urlParse urlString data) as (r & -> & Hex). exists r. split; [done|].
    intros p. rewrite Hex. split.
    + intros (Ht & v & d & Hm & Hd & Hty & Hv%validatePolicy_Ok); [|done]. exists data, v, d. split_and!; try done. by apply Hr.
    + intros (data' & v & d & Hf & Ht & Hm & Hd & Hty & Ha). apply Hr in Hf as [= <-]. split; [done|].
      exists v, d. split_and!; try done. by apply validatePolicy_Ok.
  - eexists. split; [done|]. intros p. split; [done|]. intros (data & v & d & Hf & _). by apply Hr in Hf.
Qed.

Lemma accepted_wait d p : accepted sha256 urlParse urlString d p -> 0 < vp_shutdownWait p <= maximumShutdownWait.
Proof.
  intros Ha. pose proof (ac_serverTimeouts _ _ _ _ _ Ha) as Ht. pose proof (ac_force _ _ _ _ _ Ha) as Hf.
  rewrite (ac_policy _ _ _ _ _ Ha). cbn [vp_shutdownWait]. rewrite !Forall_cons in Ht. destruct Ht as (_ & _ & _ & Hg & _).
  unfold shutdown_wait, milliseconds, within, maximumPolicyTimeoutMS, maximumForceTimeoutMS, shutdownSchedulingMargin,
    maximumShutdownWait, time_Millisecond, time_Second, time_Hour in *. lia.
Qed.

(** The rest of the invocation owes for a gateway that it was given: a scheduler and
    an upstream. *)
Definition prepared_log (s : schedulerRef) (u : HTTPUpstream) : list commandEvent :=
  [CeBuild (EvUpstreamMade u); CeBuild (EvSchedulerMade s)].

(** It ends, with one of the exit codes, and nothing is left. *)
Definition leaves_nothing (m : M (commandWorld S) Z) (w : commandWorld S) : Prop :=
  exists code w', m w = Done (code, w') /\ owes_nothing (cw_log w') /\
    (code = exitSuccess \/ code = exitRuntime \/ code = exitUsage).

Ltac by_owed := eexists _, _; (split; [reflexivity|]); cbn; rewrite <- ?app_assoc; split; [by split|];
  first [by left | by right; left | by right; right].

Lemma runValidate_log g h s u env0 :
  ready_gateway g h s u -> leaves_nothing (runValidate env g) (mkCommandWorld env0 (prepared_log s u)).
Proof.
  intros Hg. unfold leaves_nothing, runValidate, exitWith, writeStatic, record_, onGateway, modify, mbind, M_bind.
  destruct (close_ready g h s u Hg (ce_closes env) []) as (g' & -> & Hlog). rewrite Hlog.
  destruct (ce_closes env s); cbn; by_owed.
Qed.

Lemma runServe_log g h s u dependencies env0 :
  ready_gateway g h s u -> 0 < pg_shutdownWait g <= maximumShutdownWait ->
  leaves_nothing (runServe env g dependencies) (mkCommandWorld env0 (prepared_log s u)).
Proof.
  intros Hg Hw. unfold leaves_nothing, runServe, exitWith, writeStatic, record_, onGateway, modify, mbind, M_bind.
  destruct (close_ready g h s u Hg (ce_closes env) []) as (g' & Hclose & Hlog).
  destruct (cd_listenTCP dependencies) as [f|], (cd_subscribe dependencies) as [[events stop err]|];
    try (rewrite Hclose, Hlog; cbn; by_owed).
  cbn [sa_err sa_events sa_stop]. destruct (err || negb events || negb stop) eqn:Eb.
  - destruct stop; cbn; rewrite Hclose, Hlog; cbn; by_owed.
  - breflect. subst. destruct (start_ready g h s u Hg (ce_closes env) (Some f)) as (r & g2 & -> & Hr). destruct r as [srv|].
    + destruct Hr as [l Hl]. rewrite Hl. destruct (supervise_exact (pg_shutdownWait g) (ce_supervise env) Hw) as [Hcalls _].
      destruct (supervise _ _ _ _ _) as [[] calls]; cbn [snd] in Hcalls; subst calls; cbn; by_owed.
    + destruct Hr as [Hl|[l Hl]]; rewrite Hl; cbn; by_owed.
Qed.

(** The whole invocation. *)
Lemma runCommand_log args dependencies env0 :
  leaves_nothing (runCommand sha256 urlParse urlString env args dependencies) (mkCommandWorld env0 []).
Proof.
  unfold leaves_nothing, runCommand. destruct (parseCommand args) as [[[mode path] help] valid].
  destruct help; [by_owed|]. destruct valid; cbn [negb]; [|by_owed].
  destruct (loadPolicy_exact path) as (r & E & Hr). unfold attempt, mbind, M_bind. rewrite E.
  destruct r as [p|]; [|by_owed].
  destruct (proj1 (Hr p) eq_refl) as (_ & _ & d & _ & _ & _ & _ & _ & Hp). pose proof (accepted_wait d p Hp) as Hwait.
  unfold building, prepareGateway. cbn [cw_env cw_log].
  destruct (prepareGatewayWith_releases sha256 (ce_closes env) (Some p) (cd_secrets dependencies)
    (programFactories sha256 urlParse urlString 0) env0) as (g & b & -> & Hb).
  destruct g as [g|].
  - destruct Hb as (p' & h & s & u & [= <-] & Hw & Hg & ->). rewrite <- Hw in Hwait. cbn [map app]. fold (prepared_log s u).
    destruct mode as [[]|]; [by eapply runValidate_log|by eapply runServe_log..].
  - destruct Hb as [-> |[[u ->]|(u & s & ->)]]; by_owed.
Qed.
End Run.

(** ** Success *)

Definition is_help (args : list (list Z)) : Prop := args = [bs "--help"] \/ args = [bs "help"].
Definition mode_name (mode : commandMode) : list Z :=
  match mode with commandValidate => bs "validate" | commandServe => bs "serve" end.

(** What the arguments say: help, a mode with a path, or nothing. *)
Lemma parseCommand_cases args :
  (is_help args /\ parseCommand args = (None, [], true, true)) \/
  (exists mode path, args = [mode_name mode; bs "--config"; path] /\ path <> [] /\
     parseCommand args = (Some mode, path, false, true)) \/
  (~ is_help args /\ (forall mode path, args = [mode_name mode; bs "--config"; path] -> path = []) /\
     parseCommand args = (None, [], false, false)).
Proof.
  unfold is_help, parseCommand.
  destruct args as [|a [|b [|c [|]]]]; try (right; right; split_and!; [by intros [|]|done|done]).
  - destruct (bool_decide (a = bs "--help") || bool_decide (a = bs "help")) eqn:E.
    + left. split; [|done]. apply orb_true_iff in E as [E|E]; breflect; subst; auto.
    + breflect. right; right. split_and!; [by intros [[= ?]|[= ?]]|done|done].
  - destruct (decide (b = bs "--config")) as [->|Hb].
    2:{ rewrite (bool_decide_eq_false_2 _ Hb). right; right. split_and!; [by intros [|]|by intros ? ? [= _ ?]|done]. }
    rewrite (bool_decide_eq_true_2 (bs "--config" = _)) by done. cbn [negb orb].
    destruct (decide (c = [])) as [->|Hc].
    { rewrite bool_decide_eq_true_2 by done. right; right. split_and!; [by intros [|]|by intros ? ? [= _ <-]|done]. }
    rewrite (bool_decide_eq_false_2 _ Hc).
    destruct (decide (a = bs "validate")) as [->|Hv]; [right; left; by exists commandValidate, c|].
    destruct (decide (a = bs "serve")) as [->|Hs]; [right; left; by exists commandServe, c|].
    rewrite (bool_decide_eq_false_2 _ Hv), (bool_decide_eq_false_2 _ Hs). right; right.
    split_and!; [by intros [|]| |done]. intros mode path [= E _]. by destruct mode.
Qed.

(** The invocation of the program itself. *)
Section Main.
Context (sha256 : list Z -> list Z).
Context (urlParse : list Z -> option parsedURL) (urlString : parsedURL -> list Z).
Context (env : commandEnv) (listenTCP : list Z -> list Z -> Z -> option tcpListener * bool) (api : signalAPI).

(** The policy of a trusted file is accepted, and the environment holds its
    tokens: different ones, and well-formed. *)
Record configured (env0 : environ) (path : list Z) (d : policyDocument) (p : validatedPolicy) : Prop := {
  cf_file : exists data v, trusted_file (ce_file env) path data /\ policy_text data /\
    policy_means policyType data v /\ document_of v = Some d;
  cf_typed : typed_document d;
  cf_accepted : accepted sha256 urlParse urlString d p;
  cf_tokens : exists values, held sha256 env0 ∅ (secret_names p) values /\
    Forall (fun t => validBearerToken t = true) values;
}.

(** When each mode succeeds. *)
Definition validates (p : validatedPolicy) : Prop :=
  exists s, admission_New 0 (vp_admission p) = Ok s /\ ce_closes env s = true.
Definition serves_cleanly (p : validatedPolicy) : Prop :=
  sig_notify api = true /\ sig_stop api = true /\
  (exists l, fst (listen (vp_listener p) (Some listenTCP)) = Ok l) /\ clean_env (ce_supervise env).

(** A policy that loads, and the gateway prepared from it. *)
Definition preparing (p : validatedPolicy) : M (commandWorld environ) (option preparedGateway) :=
  building (prepareGateway sha256 urlParse urlString (ce_closes env) 0 (Some p) (Some systemSecretSource)).

Lemma prepared_configured (env0 : environ) path :
  exists r, loadPolicy sha256 urlParse urlString env path = Done r /\
    match r with
    | Err _ => forall d p, ~ configured env0 path d p
    | Ok p => (forall d' p', configured env0 path d' p' -> p' = p) /\
        exists d g w, preparing p (mkCommandWorld env0 []) = Done (g, w) /\ cw_env w = without env0 (secret_names p) /\
        accepted sha256 urlParse urlString d p /\
        match g with
        | None => forall d p, ~ configured env0 path d p
        | Some g => configured env0 path d p /\
            exists secrets h s u, prepared_with sha256 urlParse urlString p 0%nat secrets g h s u
        end
    end.
Proof.
  destruct (loadPolicy_exact sha256 urlParse urlString env path) as (r & E & Hr). exists r. split; [exact E|].
  assert (forall d p, configured env0 path d p -> r = Ok p) as Hload.
  { intros d p [(data & v & ? & ? & ? & ?) ? ? ?]. apply Hr. by exists data, v, d. }
  destruct r as [p|e]; [|by intros d p Hc%Hload].
  split; [intros d' p' Hc%Hload; congruence|].
  destruct (proj1 (Hr p) eq_refl) as (data & v & d & Hf & Ht & Hm & Hd & Hty & Ha).
  unfold preparing, building. cbn [cw_env]. destruct (prepareGateway_exact sha256 urlParse urlString d p Hty Ha (ce_closes env) 0 env0)
    as (g & log & -> & Hg & Hpw). cbn.
  eexists d, g, _. split; [reflexivity|]. split; [done|]. split; [exact Ha|]. destruct g as [g|].
  - destruct (Hpw g eq_refl) as (secrets & h & s & u & _ & _ & Hw). split; [|by eauto].
    split; [by exists data, v|done|done|]. by apply Hg.
  - intros d' p' Hc. pose proof (Hload _ _ Hc) as [= <-]. destruct (cf_tokens _ _ _ _ Hc) as (values & Hv).
    destruct (proj2 Hg (ex_intro _ values Hv)) as [? ?]. done.
Qed.

(** Serving with the gateway at hand. *)
Lemma runServe_success (d : policyDocument) (p : validatedPolicy) (secrets : resolvedSecrets) (g : preparedGateway)
  (h : handlerRef) (s : schedulerRef) (u : HTTPUpstream) (w : commandWorld environ) :
  accepted sha256 urlParse urlString d p -> prepared_with sha256 urlParse urlString p 0%nat secrets g h s u ->
  exists code w', runServe env g (mkDependencies (Some systemSecretSource) (Some listenTCP)
      (Some (subscribeTerminationSignals api))) w = Done (code, w') /\
    (code = exitSuccess <-> serves_cleanly p) /\ cw_env w' = cw_env w.
Proof.
  intros Ha Hpw. unfold runServe. cbn [cd_listenTCP cd_subscribe].
  unfold serves_cleanly, subscribeTerminationSignals, subscribeSignals.
  destruct (close_ready g h s u (pw_ready _ _ _ _ _ _ _ _ _ _ Hpw) (ce_closes env) []) as (gc & Hclose & _).
  unfold onGateway, exitWith, writeStatic, record_, modify, mbind, M_bind.
  destruct (sig_notify api), (sig_stop api); cbn [negb orb sa_err sa_events sa_stop andb];
    try (cbn; rewrite Hclose; cbn; eexists _, _; split; [reflexivity|]; split; [split; [done|by intros (? & ? & _)]|done]).
  destruct (start_prepared sha256 urlParse urlString p (ce_closes env) (Some listenTCP) 0 secrets g h s u [] Hpw)
    as (r & gs & -> & Hr).
  destruct (fst (listen (vp_listener p) (Some listenTCP))) as [l|e].
  - destruct Hr as (v & _ & ->). pose proof (accepted_wait sha256 urlParse urlString d p Ha) as Hw.
    rewrite (pw_wait _ _ _ _ _ _ _ _ _ _ Hpw).
    destruct (supervise_exact (vp_shutdownWait p) (ce_supervise env) Hw) as [_ Hx].
    destruct (supervise _ _ _ _ _) as [[] calls]; cbn in *; eexists _, _; (split; [reflexivity|]); (split; [|done]).
    + split; [done|]. by intros (_ & _ & _ & ?%Hx).
    + split; [|done]. intros _. split_and!; try done; [by exists l|by apply Hx].
  - subst r. cbn. eexists _, _. split; [reflexivity|]. split; [|done]. split; [done|]. by intros (_ & _ & [? ?] & _).
Qed.

Lemma runValidate_success (p : validatedPolicy) (secrets : resolvedSecrets) (g : preparedGateway) (h : handlerRef)
    (s : schedulerRef) (u : HTTPUpstream) (w : commandWorld environ) :
  prepared_with sha256 urlParse urlString p 0%nat secrets g h s u ->
  exists code w', runValidate env g w = Done (code, w') /\ (code = exitSuccess <-> validates p) /\ cw_env w' = cw_env w.
Proof.
  intros Hpw. destruct (close_ready g h s u (pw_ready _ _ _ _ _ _ _ _ _ _ Hpw) (ce_closes env) []) as (gc & Hclose & _).
  pose proof (pw_scheduler _ _ _ _ _ _ _ _ _ _ Hpw) as Hs.
  unfold runValidate, onGateway, exitWith, writeStatic, record_, modify, mbind, M_bind. rewrite Hclose. unfold validates.
  destruct (ce_closes env s) eqn:Hc; cbn; eexists _, _; (split; [reflexivity|]); (split; [|done]).
  - split; [|done]. intros _. by exists s.
  - split; [done|]. intros (s' & Hs' & Hc'). congruence.
Qed.

(** When an invocation of the program succeeds, and that it leaves no token in the
    environment of a policy that loads. *)
Lemma Main_exact (args : list (list Z)) (env0 : environ) :
  exists code w, Main sha256 urlParse urlString env listenTCP api args (mkCommandWorld env0 []) = Done (code, w) /\
    (code = exitSuccess <-> is_help args \/
     exists mode path d p, args = [mode_name mode; bs "--config"; path] /\ path <> [] /\ configured env0 path d p /\
       match mode with commandValidate => validates p | commandServe => serves_cleanly p end) /\
    forall mode path d p, args = [mode_name mode; bs "--config"; path] -> path <> [] -> configured env0 path d p ->
      cw_env w = without env0 (secret_names p).
Proof.
  unfold Main, runCommand.
  destruct (parseCommand_cases args) as [[Hhelp ->]|[(mode & path & -> & Hpath & ->)|(Hno & Hmode & ->)]].
  - eexists _, _. split; [reflexivity|]. split; [split; [by left|done]|].
    intros mode path d p ->. by destruct Hhelp.
  - assert (~ is_help [mode_name mode; bs "--config"; path]) as Hno by by intros [|].
    assert (forall (mode' : commandMode) path', [mode_name mode; bs "--config"; path] = [mode_name mode'; bs "--config"; path'] ->
      mode = mode' /\ path = path') as Hargs.
    { intros mode' path' [= Hm ->]. split; [|done]. by destruct mode, mode'. }
    destruct (prepared_configured env0 path) as (r & E & Hr). unfold attempt, mbind, M_bind. rewrite E.
    destruct r as [p|e].
    2:{ eexists _, _. split; [reflexivity|]. split.
        - split; [done|]. intros [|(mode' & path' & d & p & [<- <-]%Hargs & _ & Hc & _)]; [done|]. by destruct (Hr d p).
        - intros mode' path' d p [<- <-]%Hargs _ Hc. by destruct (Hr d p). }
    destruct Hr as (Huniq & d & g & w & Hrun & Hw & Ha & Hg). unfold preparing in Hrun. cbn [cd_secrets negb]. cbn beta. rewrite Hrun.
    destruct g as [g|].
    2:{ eexists _, _. split; [reflexivity|]. split.
        - split; [done|]. intros [|(mode' & path' & d' & p' & [<- <-]%Hargs & _ & Hc & _)]; [done|]. by destruct (Hg d' p').
        - intros mode' path' d' p' [<- <-]%Hargs _ Hc. by destruct (Hg d' p'). }
    destruct Hg as (Hconf & secrets & h & s & u & Hpw).
    assert (exists code w', match mode with commandValidate => runValidate env g | commandServe => runServe env g
        (mkDependencies (Some systemSecretSource) (Some listenTCP) (Some (subscribeTerminationSignals api))) end w
        = Done (code, w') /\
      (code = exitSuccess <-> match mode with commandValidate => validates p | commandServe => serves_cleanly p end) /\
      cw_env w' = cw_env w) as (code & w' & Hbody & Hcode & Henv)
      by (destruct mode; [by eapply runValidate_success|by eapply runServe_success]).
    exists code, w'. split; [by destruct mode|]. split.
    + rewrite Hcode. split; [intros H; right; by exists mode, path, d, p|].
      intros [|(mode' & path' & d' & p' & [<- <-]%Hargs & _ & Hc & H)]; [done|]. by rewrite (Huniq _ _ Hc) in H.
    + intros mode' path' d' p' [<- <-]%Hargs _ Hc. by rewrite Henv, (Huniq _ _ Hc).
  - eexists _, _. split; [reflexivity|]. split.
    + split; [done|]. intros [|(mode & path & d & p & E & Hp & _)]; [done|]. by destruct (Hp (Hmode _ _ E)).
    + intros mode path d p E Hp _. by destruct (Hp (Hmode _ _ E)).
Qed.
End Main.
