(* ===== verification/AppTheorems.v ===== *)
(** * The app package: its properties

    From the policy file to the running gateway ([json.go], [policy.go],
    [policy_file.go], [secrets.go], [listener.go], [build.go], [signals.go],
    [supervise.go], [command.go]) and the upstream client of package [httpapi]
    ([upstream.go]).  Before them, what the witnesses are evaluated on: the policy
    that the repository ships ([configs/policy.example.json]), with an environment, a
    system and a course of events that it is run in. *)

From S2P Require Import Prelude Interleave AdmissionConfig GoJson JsonGrammar ContractRequest ContractResponse ContractSSE.
From S2P Require Import HttpConfig HttpHandler ServerConfig ServerListener ServerLifecycle HttpUpstream AppJson AppTyped.
From S2P Require Import AppPolicy AppSecrets AppParse AppAccepted AppBuild AppGateway AppCompose AppPolicyFile AppCommand.
From S2P Require Import AppRun.

Definition example_text : list Z := quoted "{
  'schema_version': 2,
  'listener': {
    'type': 'tcp',
    'host': '127.0.0.1',
    'port': 18080
  },
  'contract': {
    'public_model': 'portfolio-model',
    'max_body_bytes': 1048576,
    'max_message_count': 64,
    'max_message_text_bytes': 262144,
    'max_completion_tokens': 4096,
    'completion_weight': 256,
    'max_request_units': 2097152
  },
  'admission': {
    'base_quantum': 262144,
    'deficit_cap': 2621439,
    'global_queue': {
      'count': 64,
      'bytes': 67108864,
      'work': 134217728
    },
    'global_inflight': {
      'count': 8,
      'work': 16777216
    },
    'tenants': [
      {
        'id': 1,
        'weight': 1,
        'queue': {
          'count': 32,
          'bytes': 33554432,
          'work': 67108864
        },
        'inflight': {
          'count': 4,
          'work': 8388608
        },
        'pre_dispatch_count': 8,
        'bearer_token_envs': [
          'SSEMAPHORE_TENANT_1_TOKEN'
        ]
      },
      {
        'id': 2,
        'weight': 2,
        'queue': {
          'count': 16,
          'bytes': 16777216,
          'work': 33554432
        },
        'inflight': {
          'count': 2,
          'work': 4194304
        },
        'pre_dispatch_count': 4,
        'bearer_token_envs': [
          'SSEMAPHORE_TENANT_2_TOKEN'
        ]
      }
    ]
  },
  'http': {
    'default_queue_timeout_ms': 5000,
    'body_read_timeout_ms': 10000,
    'upstream_timeout_ms': 120000,
    'stream_read_timeout_ms': 15000,
    'stream_event_timeout_ms': 30000,
    'max_response_body_bytes': 8388608,
    'max_stream_event_bytes': 1048576,
    'max_stream_events': 8192,
    'global_pre_dispatch_count': 16
  },
  'upstream': {
    'endpoint': 'https://api.example.com/v1/chat/completions',
    'bearer_token_env': 'SSEMAPHORE_UPSTREAM_BEARER_TOKEN',
    'connect_timeout_ms': 3000,
    'tls_handshake_timeout_ms': 5000,
    'response_header_timeout_ms': 60000,
    'idle_connection_timeout_ms': 30000,
    'max_response_header_bytes': 65536,
    'max_connections': 8
  },
  'server': {
    'header_read_timeout_ms': 2000,
    'response_write_timeout_ms': 15000,
    'idle_timeout_ms': 30000,
    'grace_timeout_ms': 30000,
    'force_timeout_ms': 5000,
    'header_read_envelope_bytes': 16384,
    'max_connections': 64
  }
}
".

(** Stand-ins for the digest and for [net/url]: the reversal, and a parser of the one
    endpoint. *)
Definition example_sha256 (token : list Z) : list Z := rev token.
Definition example_url : parsedURL :=
  mkParsedURL (bs "https") [] false (bs "api.example.com") (bs "/v1/chat/completions") [] false [] [] [].
Definition example_urlParse (value : list Z) : option parsedURL :=
  if bool_decide (value = bs "https://api.example.com/v1/chat/completions") then Some example_url else None.
Definition example_urlString (u : parsedURL) : list Z := pu_Scheme u ++ bs "://" ++ pu_Host u ++ pu_Path u.

Definition ok_or {E A} (default : A) (r : comp (result E A)) : A :=
  match r with Done (Ok a) => a | _ => default end.

Definition example_value : govalue := Eval vm_compute in ok_or VOther (decodePolicyJSON example_text (Some policyType)).

Lemma example_decoded : decodePolicyJSON example_text (Some policyType) = Done (Ok example_value).
Proof. vm_compute. reflexivity. Qed.

Definition example_document : policyDocument :=
  Eval vm_compute in
    match document_of example_value with
    | Some d => d
    | None => mkPolicyDocument 0 (mkListenerPolicy [] [] 0) (mkContractPolicy [] 0 0 0 0 0 0)
                (mkAdmissionPolicy 0 0 (MkQueueLimits 0 0 0) (MkInflightLimits 0 0) [])
                (mkHttpPolicy 0 0 0 0 0 0 0 0 0) (mkUpstreamPolicy [] [] 0 0 0 0 0 0) (mkServerPolicy 0 0 0 0 0 0 0)
    end.

Lemma example_document_of : document_of example_value = Some example_document.
Proof. vm_compute. reflexivity. Qed.

Definition example_policy : validatedPolicy :=
  mkValidatedPolicy (mkListenerPlan (Addr4 [127; 0; 0; 1]) 18080)
    (mkParser (bs "portfolio-model") (limitsOf (pd_Contract example_document)))
    (admission_config example_document) (http_config example_document) (upstream_config example_document)
    (server_config example_document) (all_references example_document)
    (us_BearerTokenEnv (pd_Upstream example_document)) (shutdown_wait example_document).

Lemma example_validated :
  validatePolicy example_sha256 example_urlParse example_urlString example_document = Ok example_policy.
Proof. vm_compute. reflexivity. Qed.

Lemma example_parsed :
  parsePolicy example_sha256 example_urlParse example_urlString example_text = Done (Ok example_policy).
Proof.
  unfold parsePolicy. by rewrite example_decoded, example_document_of, example_validated.
Qed.

(** ** Its surroundings *)

Definition example_tokens : list (list Z) := [bs "tenant-one"; bs "tenant-two"; bs "upstream"].

Definition example_names : list (list Z) := Eval vm_compute in secret_names example_policy.
Lemma example_names_of : secret_names example_policy = example_names.
Proof. vm_compute. reflexivity. Qed.

(** The environment that holds the tokens. *)
Definition example_environ : environ := list_to_map (zip (secret_names example_policy) example_tokens).

Lemma example_held : held example_sha256 example_environ ∅ (secret_names example_policy) example_tokens.
Proof.
  split.
  - rewrite example_names_of. unfold example_names, example_tokens.
    repeat (apply Forall2_cons; split; [split; [vm_compute; reflexivity|split; [done|vm_compute; congruence]]|]). constructor.
  - apply (bool_decide_eq_true_1 _). vm_compute. reflexivity.
  - apply (bool_decide_eq_true_1 _). vm_compute. reflexivity.
  - intros v _. apply not_elem_of_empty.
Qed.

Lemma example_bearer : Forall (fun t => validBearerToken t = true) example_tokens.
Proof. repeat constructor. Qed.

(** A network that binds what it is asked to. *)
Definition example_listenTCP (network ip : list Z) (port : Z) : option tcpListener * bool :=
  (Some (mkTcpListener 1 (Some (TCPAddr (Some (ip, port, []))))), false).

(** The file, in directories of root, and its path. *)
Definition example_path : list Z := bs "/etc/ssemaphore/policy.json".
Definition example_directory : fileInfo := mkFileInfo (ModeDir + 493) 4096 (Some 0) 1.
Definition example_info : fileInfo := mkFileInfo 384 (Z.of_nat (length example_text)) (Some 1000) 7.
Definition example_file : fileEnv :=
  mkFileEnv 1000 (fun _ => Some example_directory) (Some example_info) true true (Some example_info)
    example_text false (Some example_info) true.

(** A server that is told to stop and does. *)
Definition example_supervise : superviseEnv := mkSuperviseEnv (FirstEvent SIGTERM true) false (LaterServe false).
Definition example_command : commandEnv := mkCommandEnv example_file (fun _ => true) example_supervise.
Definition example_api : signalAPI := mkSignalAPI true true.

(** * The app package: its properties *)

(** ** The policy text *)

(** C18: [decodePolicyJSON] always comes to an answer, and decodes a text to a value
    exactly when the text has at most 1 MiB, is UTF-8 with its surrogates in
    pairs, and is a JSON object, at most 32 deep and without a repeated key,
    whose members are, letter for letter, fields of the type and give them
    their values. *)
Theorem policy_decoded_exact t data :
  plain_type t = true ->
  exists r, decodePolicyJSON data (Some t) = Done r /\
    forall v, r = Ok v <-> policy_text data /\ policy_means t data v.
Proof. apply decodePolicyJSON_exact. Qed.

Lemma policy_decoded_exact_witness : policy_text example_text /\ policy_means policyType example_text example_value.
Proof.
  destruct (policy_decoded_exact policyType example_text ltac:(vm_compute; reflexivity)) as (r & Hr & Hex).
  apply Hex. rewrite example_decoded in Hr. by injection Hr as <-.
Defined.

(** What is decoded at the policy's type is a value of that type, so that it is a
    document, and all its numbers are [uint64]s; so [parsePolicy] never panics. *)
Theorem policy_typed data v :
  decodePolicyJSON data (Some policyType) = Done (Ok v) ->
  has_type policyType v /\ (exists d, document_of v = Some d /\ typed_document d) /\
  forall sha256 urlParse urlString, exists r, parsePolicy sha256 urlParse urlString data = Done r.
Proof.
  intros Hv. destruct (decodePolicyJSON_exact policyType data policyType_plain) as (r & Hr & Hex).
  rewrite Hv in Hr. injection Hr as <-. destruct (proj1 (Hex v) eq_refl) as [_ Hm].
  destruct (policy_means_document _ _ Hm) as [Hty Hd]. split_and!; [done|done|]. intros.
  destruct (parsePolicy_exact sha256 urlParse urlString data) as (r & Hp & _). by exists r.
Qed.

Lemma policy_typed_witness : has_type policyType example_value.
Proof. exact (proj1 (policy_typed example_text example_value example_decoded)). Defined.

(** C28: [validatePolicy] accepts exactly the documents that [accepted] describes, and
    then the configurations are the document's: every timeout its milliseconds
    in nanoseconds without overflow, every tenant and credential reference in
    order and of a name of its own, and the wait for the shutdown the grace
    period, twice the forced one and the margin. *)
Theorem policy_accepted_exact sha256 urlParse urlString d p :
  typed_document d ->
  validatePolicy sha256 urlParse urlString d = Ok p <-> accepted sha256 urlParse urlString d p.
Proof. apply validatePolicy_Ok. Qed.

Lemma example_typed : typed_document example_document.
Proof.
  destruct (policy_means_document example_text example_value) as (_ & d & Hd & Hty).
  - destruct (decodePolicyJSON_exact policyType example_text policyType_plain) as (r & Hr & Hex).
    apply Hex. rewrite example_decoded in Hr. by injection Hr as <-.
  - rewrite example_document_of in Hd. by injection Hd as <-.
Qed.

Lemma policy_accepted_exact_witness :
  accepted example_sha256 example_urlParse example_urlString example_document example_policy.
Proof.
  apply (policy_accepted_exact example_sha256 example_urlParse example_urlString example_document example_policy example_typed).
  exact example_validated.
Defined.

(** ** Secrets *)

(** Resolving the secrets removes every name that the policy refers to from the
    environment, whether it succeeds or not, and succeeds exactly with the
    values the environment holds: one for each reference, for its tenant, none
    empty or over 4096 bytes, no name read twice, and all digests different. *)
Theorem secrets_resolved_exact sha256 policy env :
  exists r,
    resolveSecrets sha256 policy (Some systemSecretSource) env = Done (r, without env (secret_names policy)) /\
    (forall name, name ∈ secret_names policy -> without env (secret_names policy) !! name = None) /\
    forall resolved, r = Ok resolved <->
      map cr_Tenant (rs_credentials resolved) = map cf_tenant (vp_credentials policy) /\
      held sha256 env ∅ (secret_names policy) (map cr_Token (rs_credentials resolved) ++ [rs_upstream resolved]).
Proof.
  destruct (resolveSecrets_system sha256 policy env) as (r & Hr & Hex). exists r. split_and!; [exact Hr| |exact Hex].
  intros name Hn. rewrite without_lookup. by rewrite bool_decide_eq_true_2.
Qed.

(** ** The listener *)

(** The listener of a policy is for a numeric loopback address and a port; [listen]
    opens at most one, returns it only when it is bound to exactly that address
    and port, which is one that the server takes, and closes it otherwise. *)
Theorem listener_as_planned policy plan f r events :
  0 <= lp_Port policy -> makeListenerPlan policy = Ok plan -> listen plan f = (r, events) ->
  loopback_plan policy plan /\
  match r with
  | Ok l => events = [ListenOpened l] /\
      (exists ip, tcp_Addr l = Some (TCPAddr (Some (ip, pl_port plan, []))) /\ AddrFromSlice ip = Some (pl_address plan)) /\
      validateListener (TCPListener (tcp_Addr l)) = Ok tt
  | Err _ => events = [] \/ exists l, events = [ListenOpened l; ListenClosed l]
  end.
Proof.
  intros Hport [_ Hplan]%makeListenerPlan_Ok Hl%listen_exact; [|done]. split; [exact Hplan|].
  destruct r as [l|]; [|exact Hl]. destruct Hl as [-> Hv]. split_and!; [done| |by eapply planned_listener_taken].
  apply validBoundListener_bound in Hv as (ip & port & Haddr & Hip & -> & _). by exists ip.
Qed.

Lemma listener_as_planned_witness :
  fst (listen (vp_listener example_policy) (Some example_listenTCP)) =
    Ok (mkTcpListener 1 (Some (TCPAddr (Some ([127; 0; 0; 1], 18080, []))))) /\
  loopback_plan (pd_Listener example_document) (vp_listener example_policy).
Proof.
  split; [vm_compute; reflexivity|].
  refine (proj1 (listener_as_planned (pd_Listener example_document) (vp_listener example_policy)
    (Some example_listenTCP) _ _ _ _ eq_refl)); vm_compute; [congruence|reflexivity].
Defined.

(** ** The upstream *)

(** C39: a client made by [NewHTTPUpstream] goes to https (TLS 1.2 or later), or in plain
    text to a numeric loopback address, and nowhere but to the chat completions path, with
    a positive bound on every phase of an exchange.  A call of [Complete] ends, whatever the
    network answers to what is sent, whether responses redirect or connections fail so that
    [net/http] retries: at most one request goes out.  It goes there itself, through no
    proxy, with the body that was admitted, its length, the four headers with the
    credential, no replay and no value of the caller's context; none goes out without a
    deadline or under a context that has ended.  The caller gets what that one attempt
    gave, the response of a redirect included, or the class of its error. *)
Theorem upstream_request_exact urlParse urlString config token u newRequest attempt resolve redirected ctx request :
  0 <= uc_MaxConnections config ->
  NewHTTPUpstream urlParse urlString config token = Ok u ->
  (exists parsed, urlParse (uc_Endpoint config) = Some parsed /\ safe_endpoint parsed /\
     validateUpstreamEndpoint urlParse urlString (uc_Endpoint config) = Ok (hu_endpoint u)) /\
  bounded_client (hu_client u) /\
  exists r sent, Complete newRequest attempt resolve redirected u ctx request = Done (r, sent, false) /\
  (sent = [] /\ (exists e, r = Err e) \/
   exists outbound, sent = [mkSent outbound None] /\ cc_errFirst ctx = None /\ cc_hasDeadline ctx = true /\
     req_bodyBytes request <> 0 /\
     ob_URL outbound = hu_endpoint u /\ ob_Method outbound = bs "POST" /\ ob_GetBody outbound = false /\
     ob_Body outbound = Some (BodyReader request) /\ ob_ContentLength outbound = int64 (req_bodyBytes request) /\
     map fst (ob_Header outbound) = map bs ["Accept"; "Authorization"; "Content-Type"; "User-Agent"] /\
     (bs "Authorization", bs "Bearer " ++ token) ∈ ob_Header outbound /\
     (forall key, ob_Value outbound key = None) /\
     answered_as attempt resolve ctx outbound r).
Proof.
  intros Hn Hu. apply NewHTTPUpstream_Ok in Hu as (parsed & Hp & Hs & _ & Ha & Hm & He).
  split; [by exists parsed|]. split; [by eapply made_bounded|].
  destruct (Complete_Done attempt resolve redirected newRequest config u ctx request (proj1 Hm))
    as (r & sent & Hc & [H|(-> & Hc1 & Hc2 & Hc3 & H)]); exists r; eexists; (split; [exact Hc|]); [by left|right].
  exists (outbound_of u ctx request). rewrite <- Ha. split_and!; try done. by right; left.
Qed.

(** The network redirects the first request to another host, and fails what comes after. *)
Definition example_redirect : UpstreamResponse := mkUpstreamResponse 302 [] [] None.
Definition example_attempt (sent : list sentRequest) (_ : sentRequest) : attemptAnswer :=
  match sent with
  | [] => attemptResponse example_redirect (bs "https://elsewhere.example.com/")
  | _ => attemptFailed (mkFailure false otherFailure true)
  end.
Definition example_resolve (_ location : list Z) : option (list Z) := Some location.
Definition example_redirected (first : outboundRequest) (method url : list Z) (_ : bool) : outboundRequest :=
  mkOutbound method url (ob_Header first) 0 None false (ob_Value first).

Definition example_request : Request :=
  mkRequest (bs "m") [] RequestModeNonStreaming 8 40 2 56 (bs "{}").
Definition example_context : completeContext := mkCompleteContext false None true None (fun _ => Some 7).
Definition example_upstream : HTTPUpstream :=
  let config := vp_upstream example_policy in
  mkHTTPUpstream (bs "https://api.example.com/v1/chat/completions") (bs "Bearer upstream")
    (upstreamClient config) (upstreamDialer config) (upstreamTransport config).

(** A client that does not say what to do with a redirect sends the credential elsewhere. *)
Example example_followed :
  match client_Do example_attempt example_resolve example_redirected
          (mkClient (hc_Transport (hu_client example_upstream)) None)
          (outbound_of example_upstream example_context example_request) with
  | Done (_, sent) => map (fun s => ob_URL (sr_request s)) sent
  | _ => []
  end = [bs "https://api.example.com/v1/chat/completions"; bs "https://elsewhere.example.com/"].
Proof. vm_compute. reflexivity. Qed.

Lemma upstream_request_exact_witness :
  NewHTTPUpstream example_urlParse example_urlString (vp_upstream example_policy) (bs "upstream") = Ok example_upstream /\
  (exists parsed, example_urlParse (uc_Endpoint (vp_upstream example_policy)) = Some parsed /\ safe_endpoint parsed) /\
  Complete (fun _ => true) example_attempt example_resolve example_redirected example_upstream example_context example_request
    = Done (Ok example_redirect, [mkSent (outbound_of example_upstream example_context example_request) None], false).
Proof.
  split; [vm_compute; reflexivity|].
  destruct (upstream_request_exact example_urlParse example_urlString (vp_upstream example_policy) (bs "upstream")
    example_upstream (fun _ => true) example_attempt example_resolve example_redirected example_context example_request)
    as [(parsed & Hp & Hs & _) _]; [vm_compute; congruence|vm_compute; reflexivity|].
  split; [by exists parsed|vm_compute; reflexivity].
Defined.

(** ** The gateway *)

(** Preparing a gateway ends, whatever its constructors answer; when it fails,
    everything that was made was closed, once, and when it succeeds everything is
    there and nothing was closed. *)
Theorem prepare_owns_everything {S} sha256 closes policy (source : option (secretSource S)) factories env :
  exists r w, prepareGatewayWith sha256 closes policy source factories (mkBuildWorld env []) = Done (r, w) /\
    match r with
    | None => released_log (bw_log w)
    | Some g => exists p h s u, policy = Some p /\ pg_shutdownWait g = vp_shutdownWait p /\
        ready_gateway g h s u /\ bw_log w = [EvUpstreamMade u; EvSchedulerMade s]
    end.
Proof. apply prepareGatewayWith_releases. Qed.

(** C24: however many goroutines call [start] and [close], a prepared gateway's
    scheduler and connections are kept by the gateway, owed by one call's cleanup,
    closed, or handed over with a server: exactly one of these, once, and both
    together; no listener is left open but a server's; and once a call has
    returned and no cleanup is due, they were handed over or closed. *)
Theorem gateway_released_once p h s u g ts :
  ready_gateway p h s u -> gateway_reachable p g ts ->
  keeps g + total owes_scheduler ts + total scheduler_closes (gs_log g) + total handed_over (gs_log g) = 1 /\
  keeps g + total owes_idle ts + total idle_closes (gs_log g) + total handed_over (gs_log g) = 1 /\
  total handed_over (gs_log g) = total returned_server ts /\ total listeners_open (gs_log g) = 0 /\
  Forall (own_event s u) (gs_log g) /\
  forall t, t ∈ ts -> past t -> settled_calls ts ->
    (total handed_over (gs_log g) = 1 /\ total scheduler_closes (gs_log g) = 0 /\ total idle_closes (gs_log g) = 0) \/
    (total handed_over (gs_log g) = 0 /\ total scheduler_closes (gs_log g) = 1 /\ total idle_closes (gs_log g) = 1).
Proof.
  intros Hp Hr. destruct (gateway_reachable_fine p h s u Hp g ts Hr) as ([_ Hs Hi Hn Hl He] & _).
  split_and!; try done; [lia..|]. intros t Hin Ht Hset. by eapply gateway_settled.
Qed.

(** A small gateway that is ready. *)
Definition example_handler : handlerRef :=
  mkHandlerRef (mkValidatedHandler time_Second time_Second time_Second time_Second time_Second
    (mkResponseValidator 64) (mkSSELimits 64 64 2) 1 ∅ []) 0.
Definition example_scheduler : schedulerRef := mkSchedulerRef 0 (validated_of (vp_admission example_policy)).
Definition example_ready : preparedGateway :=
  mkPrepared preparedReady (vp_listener example_policy) (vp_server example_policy) (vp_shutdownWait example_policy)
    (Some example_handler) (Some example_scheduler) (Some example_upstream).

(** Two calls, [close] and [start]: the first wins. *)
Definition example_calls : option (gatewayState * list gatewayThread) :=
  run_schedule gateway_turn gateway_call
    [Arrive GtClose; Arrive GtStart; Turn 0 (None, true); Turn 1 (Some example_listenTCP, true);
     Turn 0 (None, true); Turn 0 (None, true)] (mkGatewayState example_ready []).

Lemma gateway_released_once_witness :
  exists g, example_calls = Some (g, [GtClosed false; GtStarted None]) /\
    total scheduler_closes (gs_log g) + total handed_over (gs_log g) = 1.
Proof.
  eexists. split; [vm_compute; reflexivity|].
  destruct (gateway_released_once example_ready example_handler example_scheduler example_upstream
    (mkGatewayState (emptied preparedClosed example_ready) [EvSchedulerClosed example_scheduler; EvIdleClosed example_upstream])
    [GtClosed false; GtStarted None]) as (H & _).
  - by split.
  - apply (run_schedule_interleaved gateway_turn gateway_call
      [Arrive GtClose; Arrive GtStart; Turn 0 (None, true); Turn 1 (Some example_listenTCP, true);
       Turn 0 (None, true); Turn 0 (None, true)]). vm_compute. reflexivity.
  - exact H.
Defined.

(** C6: from the text to the server. A policy text that parses makes a gateway in an
    environment exactly when the environment holds its tokens, different and
    well-formed; the scheduler, the handler and the upstream are then made
    without fail, the tokens are gone from the environment, and [start] makes a
    server exactly when the listener opens as planned: one whose deadlines were
    validated against the handler's. *)
Theorem accepted_policy_serves (sha256 : list Z -> list Z) (urlParse : list Z -> option parsedURL)
    (urlString : parsedURL -> list Z) (data : list Z) (p : validatedPolicy)
    (closes : schedulerRef -> bool) (id : nat) (env : environ) :
  parsePolicy sha256 urlParse urlString data = Done (Ok p) ->
  exists r log,
    prepareGateway sha256 urlParse urlString closes id (Some p) (Some systemSecretSource) (mkBuildWorld env []) =
      Done (r, mkBuildWorld (without env (secret_names p)) log) /\
    (is_Some r <-> exists values, held sha256 env ∅ (secret_names p) values /\
       Forall (fun t => validBearerToken t = true) values) /\
    forall g f, r = Some g -> exists h server w,
      pg_handler g = Some h /\ start closes f (mkGatewayState g log) = Done (server, w) /\
      match fst (listen (vp_listener p) f) with
      | Ok _ => exists v, server_validateConfig (vp_server p) (Handler_TimeoutPolicy (hr_config h)) = Ok v /\
          server = Some (newServer v)
      | Err _ => server = None
      end.
Proof.
  intros Hp. destruct (parsePolicy_exact sha256 urlParse urlString data) as (r & Hr & Hex). rewrite Hp in Hr.
  injection Hr as <-. destruct (proj1 (Hex p) eq_refl) as (_ & v & d & _ & _ & Hty & Ha). apply validatePolicy_Ok in Ha; [|done].
  destruct (prepareGateway_exact sha256 urlParse urlString d p Hty Ha closes id env) as (r & log & Hrun & Hsome & Hg).
  exists r, log. split_and!; [exact Hrun|apply Hsome..|]. intros g f Hgg.
  destruct (Hg g Hgg) as (secrets & h & s & u & _ & _ & Hpw). exists h.
  destruct (start_prepared sha256 urlParse urlString p closes f id secrets g h s u log Hpw) as (server & w & Hs & Hserver).
  exists server, w. split_and!; [apply (rg_handler _ _ _ _ (pw_ready _ _ _ _ _ _ _ _ _ _ Hpw))|exact Hs|exact Hserver].
Qed.

Lemma accepted_policy_serves_witness :
  exists g log, prepareGateway example_sha256 example_urlParse example_urlString (fun _ => true) 0 (Some example_policy)
    (Some systemSecretSource) (mkBuildWorld example_environ []) =
    Done (Some g, mkBuildWorld (without example_environ (secret_names example_policy)) log).
Proof.
  destruct (accepted_policy_serves example_sha256 example_urlParse example_urlString example_text example_policy
    (fun _ => true) 0 example_environ example_parsed) as (r & log & Hrun & Hsome & _).
  destruct (proj2 Hsome) as [g ->]; [exists example_tokens; exact (conj example_held example_bearer)|].
  by exists g, log.
Defined.

(** ** The command *)

(** C38: the data of a policy file are accepted exactly when the path is absolute,
    clean, without a zero byte and at most 4096 bytes, every directory from the
    root to the file is owned by root or the user and writable by no one else
    (but root's sticky ones), and the file is the user's, regular, with mode
    0600, at most 1 MiB, and the same, of the same size, before it is opened,
    after, and after all of it was read; the descriptor is closed at most once. *)
Theorem policy_file_trusted env path :
  exists r n, readPolicyFile env path = Done (r, n) /\ (n <= 1)%nat /\
    forall data, r = Some data <-> trusted_file env path data.
Proof. apply readPolicyFile_exact. Qed.

(** C16: whatever the arguments, the files, the network, the secrets and the course
    of the server are, an invocation ends with one of three exit codes, and
    leaves nothing: every scheduler, upstream and listener it made is closed once
    or was handed to a server, every server served and was shut down once, the
    signals that it subscribed to are given back, and at most one message is
    written. *)
Theorem command_leaves_nothing {S} sha256 urlParse urlString env args (dependencies : commandDependencies S) env0 :
  leaves_nothing (runCommand sha256 urlParse urlString env args dependencies) (mkCommandWorld env0 []).
Proof. apply runCommand_log. Qed.

(** C7: an invocation of the program succeeds exactly when it asks for help, or names
    a mode and a file that is trusted and states a policy that is accepted, the
    environment holds the policy's tokens, and the scheduler stops in time
    ([validate]), or the listener opens as planned, a termination signal comes,
    and [Serve] and [Shutdown] return without an error ([serve]); after either,
    the environment holds no token. *)
Theorem main_succeeds_exactly (sha256 : list Z -> list Z) (urlParse : list Z -> option parsedURL)
    (urlString : parsedURL -> list Z) (env : commandEnv)
    (listenTCP : list Z -> list Z -> Z -> option tcpListener * bool) (api : signalAPI) (args : list (list Z)) (env0 : environ) :
  exists code w, Main sha256 urlParse urlString env listenTCP api args (mkCommandWorld env0 []) = Done (code, w) /\
    (code = exitSuccess <-> is_help args \/
     exists mode path d p, args = [mode_name mode; bs "--config"; path] /\ path <> [] /\
       configured sha256 urlParse urlString env env0 path d p /\
       match mode with
       | commandValidate => validates env p
       | commandServe => serves_cleanly env listenTCP api p
       end) /\
    forall mode path d p, args = [mode_name mode; bs "--config"; path] -> path <> [] ->
      configured sha256 urlParse urlString env env0 path d p -> cw_env w = without env0 (secret_names p).
Proof. apply Main_exact. Qed.

Lemma main_succeeds_exactly_example :
  exists w, Main example_sha256 example_urlParse example_urlString example_command example_listenTCP example_api
    [bs "serve"; bs "--config"; example_path] (mkCommandWorld example_environ []) = Done (exitSuccess, w).
Proof. eexists. vm_compute. reflexivity. Qed.
