(* ===== verification/GoSha256.v ===== *)
(** * SHA-256 and hexadecimal

    [crypto/sha256.Sum256] and [encoding/hex.EncodeToString] on byte strings, as
    FIPS 180-4 writes the digest: words of 32 bits as [Z], one block at a time. *)

From S2P Require Import Prelude GoJson.

(** ** Words of 32 bits *)

Definition w32 (x : Z) : Z := Z.land x 4294967295.
Definition rotr (n x : Z) : Z := Z.lor (Z.shiftr x n) (w32 (Z.shiftl x (32 - n))).

Definition choose (x y z : Z) : Z := Z.lxor (Z.land x y) (Z.land (Z.lxor x 4294967295) z).
Definition majority (x y z : Z) : Z := Z.lxor (Z.land x y) (Z.lxor (Z.land x z) (Z.land y z)).
Definition upperSigma0 (x : Z) : Z := Z.lxor (rotr 2 x) (Z.lxor (rotr 13 x) (rotr 22 x)).
Definition upperSigma1 (x : Z) : Z := Z.lxor (rotr 6 x) (Z.lxor (rotr 11 x) (rotr 25 x)).
Definition lowerSigma0 (x : Z) : Z := Z.lxor (rotr 7 x) (Z.lxor (rotr 18 x) (Z.shiftr x 3)).
Definition lowerSigma1 (x : Z) : Z := Z.lxor (rotr 17 x) (Z.lxor (rotr 19 x) (Z.shiftr x 10)).

(** The constants of the standard, as it derives them: the first 32 bits of the
    fractional parts of roots of the first primes. *)
Definition isPrime (n : nat) : bool := forallb (fun d => negb (n mod d =? 0)%nat) (seq 2 (n - 2)).
Definition primesBelow (bound : nat) : list Z := map Z.of_nat (filter (fun n => Is_true (isPrime n)) (seq 2 (bound - 2))).

(** The cube root of [n] rounded down, bit by bit. *)
Fixpoint cubeRoot (bits : nat) (root n : Z) : Z :=
  match bits with
  | O => root
  | S bits =>
      let next := root + 2 ^ Z.of_nat bits in
      cubeRoot bits (if next * next * next <=? n then next else root) n
  end.

Definition roundConstants : list Z :=
  Eval vm_compute in map (fun p => w32 (cubeRoot 36 0 (p * 2 ^ 96))) (primesBelow 312).
Definition initialWords : list Z := Eval vm_compute in map (fun p => w32 (Z.sqrt (p * 2 ^ 64))) (primesBelow 20).

(** ** One block *)

Record shaState := mkSha { sh_a : Z; sh_b : Z; sh_c : Z; sh_d : Z; sh_e : Z; sh_f : Z; sh_g : Z; sh_h : Z }.

Definition shaInitial : shaState :=
  match initialWords with
  | [a; b; c; d; e; f; g; h] => mkSha a b c d e f g h
  | _ => mkSha 0 0 0 0 0 0 0 0
  end.

Definition shaRound (k w : Z) (s : shaState) : shaState :=
  let t1 := sh_h s + upperSigma1 (sh_e s) + choose (sh_e s) (sh_f s) (sh_g s) + k + w in
  let t2 := upperSigma0 (sh_a s) + majority (sh_a s) (sh_b s) (sh_c s) in
  mkSha (w32 (t1 + t2)) (sh_a s) (sh_b s) (sh_c s) (w32 (sh_d s + t1)) (sh_e s) (sh_f s) (sh_g s).

(** The schedule is a window of sixteen words: the first is used, and the word that
    is sixteen after it is put at the end. *)
Definition nextWord (window : list Z) : Z :=
  let at' i := nth i window 0 in
  w32 (lowerSigma1 (at' 14%nat) + at' 9%nat + lowerSigma0 (at' 1%nat) + at' 0%nat).

Fixpoint shaRounds (constants window : list Z) (s : shaState) : shaState :=
  match constants, window with
  | k :: constants, w :: rest => shaRounds constants (rest ++ [nextWord window]) (shaRound k w s)
  | _, _ => s
  end.

Definition shaBlock (s : shaState) (words : list Z) : shaState :=
  let r := shaRounds roundConstants words s in
  mkSha (w32 (sh_a s + sh_a r)) (w32 (sh_b s + sh_b r)) (w32 (sh_c s + sh_c r)) (w32 (sh_d s + sh_d r))
        (w32 (sh_e s + sh_e r)) (w32 (sh_f s + sh_f r)) (w32 (sh_g s + sh_g r)) (w32 (sh_h s + sh_h r)).

(** ** A message *)

(** [n] in [width] bytes, the most significant first. *)
Fixpoint bigEndian (width : nat) (n : Z) : list Z :=
  match width with
  | O => []
  | S width => (Z.shiftr n (8 * Z.of_nat width)) mod 256 :: bigEndian width n
  end.

(** A one bit, zeros, and the length in bits: whole blocks of 64 bytes. *)
Definition padding (length : nat) : list Z :=
  128 :: replicate (Z.to_nat ((55 - Z.of_nat length) mod 64)) 0 ++ bigEndian 8 (8 * Z.of_nat length).

Fixpoint wordsOf (bytes : list Z) : list Z :=
  match bytes with
  | a :: b :: c :: d :: rest => (a * 16777216 + b * 65536 + c * 256 + d) :: wordsOf rest
  | _ => []
  end.

Fixpoint shaBlocks (blocks : nat) (s : shaState) (words : list Z) : shaState :=
  match blocks with
  | O => s
  | S blocks => shaBlocks blocks (shaBlock s (take 16 words)) (drop 16 words)
  end.

Definition sha256_Sum256 (message : list Z) : list Z :=
  let words := wordsOf (message ++ padding (length message)) in
  let s := shaBlocks (length words / 16) shaInitial words in
  mjoin (map (bigEndian 4) [sh_a s; sh_b s; sh_c s; sh_d s; sh_e s; sh_f s; sh_g s; sh_h s]).

(** ** Hexadecimal *)

Definition hexDigit (n : Z) : Z := if n <? 10 then 48 + n else 87 + n.
Definition hex_EncodeToString (bytes : list Z) : list Z := mjoin (map (fun b => [hexDigit (b / 16); hexDigit (b mod 16)]) bytes).

(** The examples of the standard. *)
Example sha256_abc :
  hex_EncodeToString (sha256_Sum256 (bs "abc")) = bs "ba7816bf8f01cfea414140de5dae2223b00361a396177a9cb410ff61f20015ad".
Proof. by vm_compute. Qed.

Example sha256_two_blocks :
  hex_EncodeToString (sha256_Sum256 (bs "abcdbcdecdefdefgefghfghighijhijkijkljklmklmnlmnomnopnopq"))
  = bs "248d6a61d20638b8e5c026930c3e6039a33ce45964ff2167f6ecedd419db06c1".
Proof. by vm_compute. Qed.

Lemma bigEndian_length width n : length (bigEndian width n) = width.
Proof. induction width as [|width IH]; [done|]. cbn. by rewrite IH. Qed.

Lemma bigEndian_bytes width n : Forall (fun b => 0 <= b < 256) (bigEndian width n).
Proof. induction width as [|width IH]; constructor; [|exact IH]. apply Z.mod_pos_bound. lia. Qed.

Lemma sha256_length message : length (sha256_Sum256 message) = 32%nat.
Proof. unfold sha256_Sum256. cbn [map mjoin list_join]. rewrite !length_app, !bigEndian_length. done. Qed.

Lemma hex_length bytes : length (hex_EncodeToString bytes) = (2 * length bytes)%nat.
Proof.
  unfold hex_EncodeToString. rewrite length_join, map_map. cbn [length].
  induction bytes as [|b bytes IH]; cbn in *; lia.
Qed.

Lemma hexDigit_hex n : 0 <= n < 16 -> is_hex (hexDigit n) = true /\ hex_value (hexDigit n) = n.
Proof.
  intros Hn. assert (n ∈ map Z.of_nat (seq 0 16)) as Hin.
  { apply list_elem_of_fmap. exists (Z.to_nat n). split; [lia|]. apply elem_of_seq. lia. }
  revert n Hin Hn. intros n Hin _. revert n Hin. apply (proj1 (Forall_forall _ _)). vm_compute. repeat constructor.
Qed.
