(* ===== verification/GoMarshal.v ===== *)
(** * [encoding/json.Marshal]

    Decimal numbers as [strconv.FormatUint] writes them, strings as the encoder
    quotes them, and the compact text of a tree.  [marshal_text]: the text of a tree
    is a JSON text of that tree. *)

From S2P Require Import Prelude GoJson JsonGrammar GoSha256.

(** ** Numbers *)

(** [strconv.FormatUint(n, 10)]: a 64-bit number has at most twenty digits. *)
Fixpoint formatDigits (fuel : nat) (n : Z) (acc : list Z) : list Z :=
  match fuel with
  | O => acc
  | S fuel =>
      let acc := 48 + n mod 10 :: acc in
      if n <? 10 then acc else formatDigits fuel (n / 10) acc
  end.
Definition formatUint (n : Z) : list Z := formatDigits 20 n [].

(** ** Strings *)

(** What the encoder writes for a byte below 128; [<], [>] and [&] are escaped too. *)
Definition escapeByte (b : Z) : list Z :=
  if (b =? c_quote) || (b =? c_backslash) then [c_backslash; b]
  else if b =? 8 then [c_backslash; 98]
  else if b =? 12 then [c_backslash; 102]
  else if b =? 10 then [c_backslash; 110]
  else if b =? 13 then [c_backslash; 114]
  else if b =? 9 then [c_backslash; 116]
  else if (b <? 32) || (b =? 60) || (b =? 62) || (b =? 38)
  then [c_backslash; c_u; 48; 48; hexDigit (b / 16); hexDigit (b mod 16)]
  else [b].

(** The separators U+2028 and U+2029, which JavaScript reads as ends of a line. *)
Definition escapeRune3 (a b c : Z) : list Z :=
  let r := rune3 a b c in
  if (r =? 8232) || (r =? 8233) then [c_backslash; c_u; 50; 48; 50; hexDigit (r mod 16)] else [a; b; c].

Definition escapedError : list Z := [c_backslash; c_u; 102; 102; 102; 100].

Fixpoint appendString (l : list Z) : list Z :=
  match l with
  | [] => []
  | a :: l1 =>
      if a <? 128 then escapeByte a ++ appendString l1 else
      match l1 with
      | [] => escapedError
      | b :: l2 =>
          if utf8_2 a b then [a; b] ++ appendString l2 else
          match l2 with
          | [] => escapedError ++ appendString l1
          | c :: l3 =>
              if utf8_3 a b c then escapeRune3 a b c ++ appendString l3 else
              match l3 with
              | [] => escapedError ++ appendString l1
              | d :: l4 =>
                  if utf8_4 a b c d then [a; b; c; d] ++ appendString l4
                  else escapedError ++ appendString l1
              end
          end
      end
  end.

Definition marshalString (s : list Z) : list Z := c_quote :: appendString s ++ [c_quote].

(** ** Trees *)

Definition marshalScalar (t : token) : list Z :=
  match t with
  | TDelim c => [c]
  | TString s => marshalString s
  | TNumber text => text
  | TBool b => if b then bs "true" else bs "false"
  | TNull => bs "null"
  end.

(** Elements of an array or an object: a comma before each but the first. *)
Fixpoint marshalItems (first : bool) (items : list (list Z)) : list Z :=
  match items with
  | [] => []
  | item :: items => (if first then [] else [c_comma]) ++ item ++ marshalItems false items
  end.

Fixpoint marshal (t : jtree) : list Z :=
  match t with
  | JScalar t => marshalScalar t
  | JArr l => c_lbracket :: marshalItems true (map marshal l) ++ [c_rbracket]
  | JObj l =>
      c_lbrace :: marshalItems true (map (fun kv => marshalString (fst kv) ++ c_colon :: marshal (snd kv)) l)
        ++ [c_rbrace]
  end.

(** Trees of Go values without floating-point numbers: strings of valid UTF-8, and
    unsigned numbers. *)
Definition validString (s : list Z) : bool := utf8_valid s && forallb (between 0 255) s.

Definition marshalable_scalar (t : token) : bool :=
  match t with
  | TDelim _ => false
  | TString s => validString s
  | TNumber text => match parseUint text with Some n => bool_decide (text = formatUint n) | None => false end
  | TBool _ | TNull => true
  end.

Fixpoint marshalable (t : jtree) : bool :=
  match t with
  | JScalar t => marshalable_scalar t
  | JArr l => forallb marshalable l
  | JObj l => forallb (fun kv => validString (fst kv) && marshalable (snd kv)) l
  end.

(** ** Numbers are read back *)

Definition decimal (acc : Z) (digits : list Z) : Z := fold_left (fun acc d => acc * 10 + (d - 48)) digits acc.

Lemma formatDigits_spec fuel n acc : 0 <= n < 10 ^ Z.of_nat fuel -> (0 < fuel)%nat ->
  exists digits, formatDigits fuel n acc = digits ++ acc /\ forallb is_digit digits = true /\ decimal 0 digits = n
    /\ (digits = [48] \/ exists d rest, digits = d :: rest /\ 49 <= d <= 57).
Proof.
  revert n acc. induction fuel as [|fuel IH]; intros n acc Hn Hf; [lia|]. cbn [formatDigits].
  pose proof (Z.mod_pos_bound n 10 eq_refl) as Hm. pose proof (Z.div_mod n 10 ltac:(lia)) as Hd.
  assert (Hdig : is_digit (48 + n mod 10) = true) by (unfold is_digit, between; lia).
  destruct (Z.ltb_spec n 10) as [Hlt|Hge].
  - exists [48 + n mod 10]. rewrite (Z.mod_small n 10) in * by lia. split; [done|]. cbn [forallb]. rewrite Hdig.
    split; [done|]. split; [cbn; lia|]. destruct (decide (n = 0)) as [->|]; [by left|right]. eexists _, []. split; [done|lia].
  - destruct fuel as [|fuel]; [change (10 ^ Z.of_nat 1) with 10 in Hn; lia|].
    rewrite Nat2Z.inj_succ, Z.pow_succ_r in Hn by lia.
    destruct (IH (n / 10) (48 + n mod 10 :: acc)) as (digits & -> & Hall & Hv & Hh); [split; [lia|apply Z.div_lt_upper_bound; lia]|lia|].
    exists (digits ++ [48 + n mod 10]). rewrite <- app_assoc. split; [done|]. rewrite forallb_app, Hall. cbn [forallb]. rewrite Hdig.
    split; [done|]. unfold decimal in *. rewrite fold_left_app, Hv. split; [cbn; lia|]. right.
    destruct Hh as [->|(d & rest & -> & Hb)]; [cbn in Hv; lia|]. by exists d, (rest ++ [48 + n mod 10]).
Qed.

Lemma formatUint_spec n : is_u64 n ->
  exists digits, formatUint n = digits /\ forallb is_digit digits = true /\ decimal 0 digits = n
    /\ (digits = [48] \/ exists d rest, digits = d :: rest /\ 49 <= d <= 57).
Proof.
  intros Hn. destruct (formatDigits_spec 20 n []) as (digits & Hf & H1); [|lia|].
  - unfold is_u64, two64 in Hn. change (10 ^ Z.of_nat 20) with 100000000000000000000. lia.
  - exists digits. unfold formatUint. by rewrite Hf, app_nil_r.
Qed.

Lemma decimal_ge acc digits : 0 <= acc -> forallb is_digit digits = true -> acc <= decimal acc digits.
Proof.
  revert acc. induction digits as [|d digits IH]; intros acc Ha; cbn; [lia|]. intros [Hd Hds]%andb_true_iff.
  unfold is_digit, between in Hd. etrans; [|apply IH; [lia|done]]. lia.
Qed.

Lemma parse_digits_decimal acc digits : 0 <= acc -> forallb is_digit digits = true -> decimal acc digits < two64 ->
  parse_digits acc digits = Some (decimal acc digits).
Proof.
  revert acc. induction digits as [|d digits IH]; intros acc Ha; cbn; [done|]. intros [Hd Hds]%andb_true_iff Hlt.
  unfold is_digit, between in Hd. pose proof (decimal_ge (acc * 10 + (d - 48)) digits ltac:(lia) Hds).
  unfold decimal in *. rewrite (proj2 (Z.ltb_lt _ _)) by lia. apply IH; [lia|done..].
Qed.

Lemma parse_digits_value text : forall acc n, acc < two64 -> forallb is_digit text = true ->
  parse_digits acc text = Some n -> decimal acc text = n /\ n < two64.
Proof.
  induction text as [|d text IH]; cbn [parse_digits forallb]; intros acc n Ha; [by intros _ [= <-]|].
  intros [_ Hds]%andb_true_iff. destruct (Z.ltb_spec (acc * 10 + (d - 48)) two64); [|done]. by apply IH.
Qed.

Lemma parseUint_format n : is_u64 n -> parseUint (formatUint n) = Some n.
Proof.
  intros Hn. destruct (formatUint_spec n Hn) as (digits & -> & Hall & Hv & Hh). unfold parseUint. rewrite Hall.
  assert (digits <> []) as Hne by (destruct Hh as [->|(? & ? & -> & _)]; done).
  destruct digits as [|d rest]; [done|]. rewrite parse_digits_decimal by (try done; unfold is_u64 in Hn; lia). by rewrite Hv.
Qed.

Lemma readValue_digits digits : forallb is_digit digits = true -> readValue state1 digits = Some (digits, []).
Proof.
  induction digits as [|d digits IH]; [done|]. cbn [forallb]. intros [Hd Hds]%andb_true_iff. cbn. by rewrite Hd, IH.
Qed.

Lemma number_text n : is_u64 n -> scalar_text (TNumber (formatUint n)) (formatUint n).
Proof.
  intros Hn. destruct (formatUint_spec n Hn) as (digits & -> & Hall & _ & [->|(d & rest & -> & Hd)]); [by vm_compute|].
  cbn [forallb] in Hall. apply andb_true_iff in Hall as [_ Hr]. unfold scalar_text.
  assert (step stateBeginValue d = scanContinue state1) as Hs.
  { unfold step, between. repeat (rewrite (proj2 (Z.eqb_neq _ _)) by lia). by rewrite (proj2 (andb_true_iff _ _)) by lia. }
  cbn [readValue]. rewrite Hs, readValue_digits by done. split; [done|]. unfold literal.
  repeat (rewrite (proj2 (Z.eqb_neq _ _)) by lia). done.
Qed.

(** ** Strings are read back *)

(** A piece of a string that the scanner passes over, and that unquotes to [s]. *)
Definition piece (text s : list Z) : Prop := forall rest,
  readValue stateInString (text ++ rest)
    = match readValue stateInString rest with Some (t, r) => Some (text ++ t, r) | None => None end
  /\ unquote (text ++ rest) = app s <$> unquote rest.

Lemma unquote_escape4 h1 h2 h3 h4 rest : is_hex h1 && is_hex h2 && is_hex h3 && is_hex h4 = true ->
  between 55296 57343 (hex4 h1 h2 h3 h4) = false ->
  unquote (c_backslash :: c_u :: h1 :: h2 :: h3 :: h4 :: rest) = app (encodeRune (hex4 h1 h2 h3 h4)) <$> unquote rest.
Proof.
  intros Hh Hr. cbn [unquote Z.eqb Pos.eqb]. rewrite Hh. unfold high_surrogate, low_surrogate, between in *.
  rewrite (proj2 (andb_false_iff _ _)), (proj2 (andb_false_iff _ _)) by lia. done.
Qed.

Lemma piece_escape4 h1 h2 h3 h4 : is_hex h1 && is_hex h2 && is_hex h3 && is_hex h4 = true ->
  between 55296 57343 (hex4 h1 h2 h3 h4) = false ->
  piece [c_backslash; c_u; h1; h2; h3; h4] (encodeRune (hex4 h1 h2 h3 h4)).
Proof.
  intros Hh Hr rest. split; [|by apply unquote_escape4].
  apply andb_true_iff in Hh as [[[H1 H2]%andb_true_iff H3]%andb_true_iff H4].
  cbn [app readValue step Z.eqb Pos.eqb orb Z.ltb]. change (step stateInString 92) with (scanContinue stateInStringEsc).
  cbn [readValue step]. change (step stateInStringEsc 117) with (scanContinue stateInStringEscU). cbn [readValue step].
  rewrite H1. cbn [readValue step]. rewrite H2. cbn [readValue step]. rewrite H3. cbn [readValue step]. rewrite H4.
  destruct (readValue stateInString rest) as [[t r]|]; done.
Qed.

Lemma piece_simple e b : step stateInStringEsc e = scanContinue stateInString -> e <> c_u -> simple_escape e = Some b ->
  piece [c_backslash; e] [b].
Proof.
  intros Hs Hu He rest. split.
  - cbn [app readValue]. change (step stateInString 92) with (scanContinue stateInStringEsc). cbn [readValue].
    rewrite Hs. by destruct (readValue stateInString rest) as [[t r]|].
  - cbn [app unquote Z.eqb Pos.eqb]. rewrite (proj2 (Z.eqb_neq _ _)) by done. by rewrite He.
Qed.

Lemma hex_byte n : 0 <= n < 128 -> is_hex (hexDigit (n / 16)) && is_hex (hexDigit (n mod 16)) = true
  /\ hex4 48 48 (hexDigit (n / 16)) (hexDigit (n mod 16)) = n.
Proof.
  intros Hn. pose proof (Z.mod_pos_bound n 16 eq_refl). pose proof (Z.div_mod n 16 ltac:(lia)).
  assert (0 <= n / 16 < 16) as Hd by (split; [apply Z.div_pos; lia|apply Z.div_lt_upper_bound; lia]).
  destruct (hexDigit_hex (n / 16) Hd) as [-> H1]. destruct (hexDigit_hex (n mod 16)) as [-> H2]; [done|].
  split; [done|]. unfold hex4. rewrite H1, H2. cbn. lia.
Qed.

Lemma piece_byte b : 0 <= b < 128 -> piece (escapeByte b) [b].
Proof.
  intros Hb. unfold escapeByte.
  destruct ((b =? c_quote) || (b =? c_backslash)) eqn:H1; [apply orb_true_iff in H1 as [E|E]; apply Z.eqb_eq in E as ->; by apply piece_simple|].
  destruct (Z.eqb_spec b 8) as [->|]; [by apply piece_simple|].
  destruct (Z.eqb_spec b 12) as [->|]; [by apply piece_simple|].
  destruct (Z.eqb_spec b 10) as [->|]; [by apply piece_simple|].
  destruct (Z.eqb_spec b 13) as [->|]; [by apply piece_simple|].
  destruct (Z.eqb_spec b 9) as [->|]; [by apply piece_simple|].
  destruct ((b <? 32) || (b =? 60) || (b =? 62) || (b =? 38)) eqn:H2.
  - destruct (hex_byte b Hb) as [Hh Hv]. apply andb_true_iff in Hh as [Hh1 Hh2].
    pose proof (piece_escape4 48 48 (hexDigit (b / 16)) (hexDigit (b mod 16))) as Hp. rewrite Hh1, Hh2, Hv in Hp.
    assert (encodeRune b = [b]) as <- by (unfold encodeRune, between; rewrite (proj2 (andb_true_iff _ _)) by lia; done).
    apply Hp; [done|]. unfold between. rewrite (proj2 (andb_false_iff _ _)) by lia. done.
  - apply orb_false_iff in H1 as [Hq Hs]. repeat apply orb_false_iff in H2 as [H2 ?].
    intros rest. cbn [app readValue unquote step]. rewrite Hq, Hs, H2, (proj2 (Z.ltb_lt b 128)) by lia. cbn [orb].
    split; [|done]. by destruct (readValue stateInString rest) as [[t r]|].
Qed.

Lemma scan_high l rest : Forall (fun b => 128 <= b) l ->
  readValue stateInString (l ++ rest) = match readValue stateInString rest with Some (t, r) => Some (l ++ t, r) | None => None end.
Proof.
  induction 1 as [|b l Hb Hl IH]; [cbn; by destruct (readValue stateInString rest) as [[t r]|]|].
  cbn [app readValue step]. repeat rewrite (proj2 (Z.eqb_neq _ _)) by lia. rewrite (proj2 (Z.ltb_ge _ _)) by lia.
  rewrite IH. by destruct (readValue stateInString rest) as [[t r]|].
Qed.

Lemma piece_2 a b : utf8_2 a b = true -> piece [a; b] [a; b].
Proof.
  intros Hu rest. pose proof Hu as Hu'. unfold utf8_2, cont, between in Hu'. split.
  - apply scan_high. repeat constructor; lia.
  - cbn [app unquote]. repeat rewrite (proj2 (Z.eqb_neq _ _)) by lia. repeat rewrite (proj2 (Z.ltb_ge _ _)) by lia.
    cbn [orb]. by rewrite Hu.
Qed.

Lemma utf8_3_high a b c : utf8_3 a b c = true -> 224 <= a <= 239 /\ 128 <= b <= 191 /\ 128 <= c <= 191.
Proof. unfold utf8_3, cont, between. repeat case_match; breflect; try done; lia. Qed.

Lemma utf8_4_high a b c d : utf8_4 a b c d = true -> 240 <= a <= 244 /\ 128 <= b <= 191 /\ 128 <= c <= 191 /\ 128 <= d <= 191.
Proof. unfold utf8_4, cont, between. repeat case_match; breflect; try done; lia. Qed.

Lemma piece_3 a b c : utf8_2 a b = false -> utf8_3 a b c = true -> piece (escapeRune3 a b c) [a; b; c].
Proof.
  intros H2 H3. pose proof (utf8_3_high a b c H3) as Hr. unfold escapeRune3.
  destruct ((rune3 a b c =? 8232) || (rune3 a b c =? 8233)) eqn:Hs.
  - unfold rune3 in Hs |- *. assert (a = 226 /\ b = 128 /\ (c = 168 \/ c = 169)) as (-> & -> & Hc) by (breflect; lia).
    assert (forall h, h = 56 \/ h = 57 -> piece [c_backslash; c_u; 50; 48; 50; h] (encodeRune (hex4 50 48 50 h))) as Hp.
    { intros h Hh. by apply piece_escape4; destruct Hh as [->| ->]. }
    destruct Hc as [->| ->]; [apply (Hp 56)|apply (Hp 57)]; lia.
  - intros rest. split; [apply scan_high; repeat constructor; lia|].
    cbn [app unquote]. repeat rewrite (proj2 (Z.eqb_neq _ _)) by lia. repeat rewrite (proj2 (Z.ltb_ge _ _)) by lia.
    cbn [orb]. by rewrite H2, H3.
Qed.

Lemma piece_4 a b c d : utf8_2 a b = false -> utf8_3 a b c = false -> utf8_4 a b c d = true -> piece [a; b; c; d] [a; b; c; d].
Proof.
  intros H2 H3 H4 rest. pose proof (utf8_4_high a b c d H4) as Hr. split; [apply scan_high; repeat constructor; lia|].
  cbn [app unquote]. repeat rewrite (proj2 (Z.eqb_neq _ _)) by lia. repeat rewrite (proj2 (Z.ltb_ge _ _)) by lia.
  cbn [orb]. by rewrite H2, H3, H4.
Qed.

Lemma piece_app t1 s1 t2 s2 : piece t1 s1 -> piece t2 s2 -> piece (t1 ++ t2) (s1 ++ s2).
Proof.
  intros H1 H2 rest. rewrite <- !app_assoc. destruct (H1 (t2 ++ rest)) as [-> ->], (H2 rest) as [-> ->]. split.
  - destruct (readValue stateInString rest) as [[t r]|]; [|done]. by rewrite <- app_assoc.
  - rewrite <- option_fmap_compose. apply option_fmap_ext. intros l. cbn. by rewrite <- app_assoc.
Qed.

Lemma piece_nil : piece [] [].
Proof. intros rest. cbn [app]. split; [by destruct (readValue stateInString rest) as [[t r]|]|by destruct (unquote rest)]. Qed.

Lemma appendString_piece s : validString s = true -> piece (appendString s) s.
Proof.
  unfold validString. intros [Hu Hb]%andb_true_iff. revert Hu Hb.
  remember (length s) as n eqn:Hn. assert (Hle : (length s <= n)%nat) by lia. clear Hn. revert s Hle.
  induction n as [|n IH]; intros [|a l1] Hle; try (intros; exact piece_nil); [cbn in Hle; lia|].
  cbn [utf8_valid appendString forallb length] in *.
  destruct (Z.ltb_spec a 128) as [Hlt|Hge].
  - intros Hu [Ha Hb]%andb_true_iff. unfold between in Ha.
    apply (piece_app (escapeByte a) [a]); [apply piece_byte; lia|apply IH; [lia|done..]].
  - destruct l1 as [|b l2]; [done|]. cbn [forallb length] in *. destruct (utf8_2 a b) eqn:H2.
    + intros Hu [_ [_ Hb]%andb_true_iff]%andb_true_iff. apply (piece_app [a; b] [a; b]); [by apply piece_2|apply IH; [lia|done..]].
    + destruct l2 as [|c l3]; [done|]. cbn [forallb length] in *. destruct (utf8_3 a b c) eqn:H3.
      * intros Hu [_ [_ [_ Hb]%andb_true_iff]%andb_true_iff]%andb_true_iff.
        apply (piece_app (escapeRune3 a b c) [a; b; c]); [by apply piece_3|apply IH; [lia|done..]].
      * destruct l3 as [|d l4]; [done|]. cbn [forallb length] in *. destruct (utf8_4 a b c d) eqn:H4; [|done].
        intros Hu [_ [_ [_ [_ Hb]%andb_true_iff]%andb_true_iff]%andb_true_iff]%andb_true_iff.
        apply (piece_app [a; b; c; d] [a; b; c; d]); [by apply piece_4|apply IH; [lia|done..]].
Qed.

Lemma string_text s : validString s = true -> scalar_text (TString s) (marshalString s).
Proof.
  intros Hs. unfold scalar_text, marshalString. cbn [readValue]. change (step stateBeginValue 34) with (scanContinue stateInString).
  destruct (appendString_piece s Hs [c_quote]) as [-> _]. split; [done|].
  cbn [literal Z.eqb Pos.eqb]. rewrite removelast_last.
  destruct (appendString_piece s Hs []) as [_ Hq]. rewrite app_nil_r in Hq. rewrite Hq. cbn. by rewrite app_nil_r.
Qed.

Lemma scalar_marshal_text t : marshalable_scalar t = true -> scalar_text t (marshalScalar t).
Proof.
  destruct t as [c|s|text|b|]; cbn [marshalable_scalar marshalScalar]; intros Ht; [done|by apply string_text| |by destruct b|done].
  destruct (parseUint text) as [n|] eqn:Hp; [|done]. apply bool_decide_eq_true in Ht as ->. apply number_text.
  by eapply parseUint_u64.
Qed.

(** ** Trees are read back *)

Lemma items_arr_text first l : Forall (fun t => marshalable t = true -> value_text t (marshal t)) l ->
  forallb marshalable l = true -> arr_text first l (marshalItems first (map marshal l) ++ [c_rbracket]).
Proof.
  intros Hl. revert first. induction Hl as [|t l Ht Hl IH]; intros first; cbn [forallb map marshalItems].
  - intros _. apply (ANil first []). constructor.
  - intros [Hm Hms]%andb_true_iff. rewrite <- !app_assoc. apply ACons; [|by apply Ht|by apply IH].
    destruct first; [constructor|apply around_sep, ws_nil].
Qed.

Lemma items_obj_text first l : Forall (fun kv => marshalable (snd kv) = true -> value_text (snd kv) (marshal (snd kv))) l ->
  forallb (fun kv => validString (fst kv) && marshalable (snd kv)) l = true ->
  obj_text first l (marshalItems first (map (fun kv => marshalString (fst kv) ++ c_colon :: marshal (snd kv)) l) ++ [c_rbrace]).
Proof.
  intros Hl. revert first. induction Hl as [|[k t] l Ht Hl IH]; intros first; cbn [forallb map marshalItems fst snd].
  - intros _. apply (ONil first []). constructor.
  - intros [[Hk Hm]%andb_true_iff Hms]%andb_true_iff. rewrite <- !app_assoc. cbn [app].
    apply (OCons first _ k _ [c_colon]); [|by apply string_text| |by apply Ht|by apply IH].
    + destruct first; [constructor|apply around_sep, ws_nil].
    + apply around_sep, ws_nil.
Qed.

Theorem marshal_text t : marshalable t = true -> value_text t (marshal t).
Proof.
  induction t as [t|l IH|l IH] using jtree_nested_ind; cbn [marshalable marshal]; intros Hm.
  - apply VScalar. by apply scalar_marshal_text.
  - apply VArr. by apply items_arr_text.
  - apply VObj. by apply items_obj_text.
Qed.

Lemma marshal_document t : marshalable t = true -> document_text t (marshal t ++ [10]).
Proof.
  intros Hm. exists [], (marshal t), [10]. split; [constructor|]. split; [by apply marshal_text|]. split; [|done].
  by repeat constructor.
Qed.
