(* ===== verification/GoText.v ===== *)
(** * Texts

    What the program uses of [fmt], [html], [strings], [encoding/json.MarshalIndent]
    and [regexp]: verbs [%d] and [%s], the five escapes of HTML, lines, indented
    JSON, and the search for a pattern whose repetitions are of classes of
    characters. *)

From S2P Require Import Prelude GoJson JsonGrammar GoMarshal.

(** A raw string of Go, with the grave accents that it cannot hold for its quotation
    marks. *)
Definition raw (s : string) : list Z := map (fun c => if c =? 96 then c_quote else c) (bs s).

(** ** [fmt] *)

Definition formatInt (n : Z) : list Z := if n <? 0 then 45 :: formatUint (- n) else formatUint n.

Inductive fmtArg := fmtInt (n : Z) | fmtString (s : list Z).

(** Each verb takes the next argument; where one does not fit its verb, which the
    formats of the program do not do, nothing is written. *)
Fixpoint Sprintf (format : list Z) (args : list fmtArg) : list Z :=
  match format with
  | 37 :: 100 :: format =>
      match args with
      | fmtInt n :: args => formatInt n ++ Sprintf format args
      | _ => Sprintf format args
      end
  | 37 :: 115 :: format =>
      match args with
      | fmtString s :: args => s ++ Sprintf format args
      | _ => Sprintf format args
      end
  | c :: format => c :: Sprintf format args
  | [] => []
  end.

(** ** [html] and [strings] *)

Definition escapeHTMLByte (c : Z) : list Z :=
  if c =? 38 then bs "&amp;" else if c =? 39 then bs "&#39;" else if c =? 60 then bs "&lt;"
  else if c =? 62 then bs "&gt;" else if c =? 34 then bs "&#34;" else [c].

Definition EscapeString (s : list Z) : list Z := mjoin (map escapeHTMLByte s).

Fixpoint Join (elems : list (list Z)) (sep : list Z) : list Z :=
  match elems with
  | [] => []
  | [elem] => elem
  | elem :: elems => elem ++ sep ++ Join elems sep
  end.

(** [strings.TrimSuffix] of one line feed. *)
Definition trimLine (s : list Z) : list Z :=
  if bool_decide (last s = Some 10) then removelast s else s.

(** ** [json.MarshalIndent] without a prefix, two spaces for each level *)

Definition indentLine (depth : nat) : list Z := 10 :: mjoin (replicate depth [32; 32]).

(** Elements on lines of their own. *)
Fixpoint indentItems (first : bool) (depth : nat) (items : list (list Z)) : list Z :=
  match items with
  | [] => []
  | item :: items => (if first then [] else [c_comma]) ++ indentLine depth ++ item ++ indentItems false depth items
  end.

Fixpoint marshalIndent (depth : nat) (t : jtree) : list Z :=
  match t with
  | JScalar t => marshalScalar t
  | JArr [] => [c_lbracket; c_rbracket]
  | JArr l =>
      c_lbracket :: indentItems true (S depth) (map (marshalIndent (S depth)) l) ++ indentLine depth ++ [c_rbracket]
  | JObj [] => [c_lbrace; c_rbrace]
  | JObj l =>
      c_lbrace :: indentItems true (S depth)
        (map (fun kv => marshalString (fst kv) ++ c_colon :: c_space :: marshalIndent (S depth) (snd kv)) l)
        ++ indentLine depth ++ [c_rbrace]
  end.

Lemma indentLine_ws depth : ws (indentLine depth).
Proof.
  unfold indentLine. constructor; [done|]. induction depth as [|depth IH]; [constructor|].
  cbn. by repeat (constructor; [done|]).
Qed.

Lemma indent_arr_text first depth l :
  Forall (fun t => forall depth, marshalable t = true -> value_text t (marshalIndent depth t)) l ->
  forallb marshalable l = true ->
  arr_text first l (indentItems first (S depth) (map (marshalIndent (S depth)) l) ++ indentLine depth ++ [c_rbracket]).
Proof.
  intros Hl. revert first. induction Hl as [|t l Ht Hl IH]; intros first; cbn [forallb map indentItems].
  - intros _. apply ANil. apply indentLine_ws.
  - intros [Hm Hms]%andb_true_iff. rewrite <- !app_assoc. rewrite (app_assoc _ (indentLine _)).
    apply ACons; [|by apply Ht|by apply IH].
    destruct first; [apply indentLine_ws|apply (around_sep c_comma), indentLine_ws].
Qed.

Lemma indent_obj_text first depth l :
  Forall (fun kv => forall depth, marshalable (snd kv) = true -> value_text (snd kv) (marshalIndent depth (snd kv))) l ->
  forallb (fun kv => validString (fst kv) && marshalable (snd kv)) l = true ->
  obj_text first l (indentItems first (S depth)
    (map (fun kv => marshalString (fst kv) ++ c_colon :: c_space :: marshalIndent (S depth) (snd kv)) l)
    ++ indentLine depth ++ [c_rbrace]).
Proof.
  intros Hl. revert first. induction Hl as [|[k t] l Ht Hl IH]; intros first; cbn [forallb map indentItems fst snd].
  - intros _. apply ONil. apply indentLine_ws.
  - intros [[Hk Hm]%andb_true_iff Hms]%andb_true_iff. rewrite <- !app_assoc. rewrite (app_assoc _ (indentLine _)). cbn [app].
    apply (OCons first _ k _ [c_colon; c_space]); [|by apply string_text| |by apply Ht|by apply IH].
    + destruct first; [apply indentLine_ws|apply (around_sep c_comma), indentLine_ws].
    + apply (around_sep c_colon [c_space]). by repeat constructor.
Qed.

(** Indented or not, the text denotes the tree. *)
Lemma marshalIndent_text t depth : marshalable t = true -> value_text t (marshalIndent depth t).
Proof.
  revert depth. induction t as [t|l IH|l IH] using jtree_nested_ind; cbn [marshalable]; intros depth Hm.
  - apply VScalar. by apply scalar_marshal_text.
  - destruct l as [|t l]; [apply VArr, (ANil true []); constructor|]. apply VArr. by apply indent_arr_text.
  - destruct l as [|kv l]; [apply VObj, (ONil true []); constructor|]. apply VObj. by apply indent_obj_text.
Qed.

(** ** [regexp]

    A position is the byte before it, if any, and the text after it. *)

Inductive pattern :=
| pEmpty
| pStart
| pBoundary
| pClass (f : Z -> bool)
| pMany (least : nat) (f : Z -> bool)
| pSeq (p q : pattern)
| pAlt (p q : pattern).

Definition isWord (c : Z) : bool := is_digit c || between 65 90 c || between 97 122 c || (c =? 95).
Definition wordAt (c : option Z) : bool := match c with Some c => isWord c | None => false end.
Definition boundary (before : option Z) (s : list Z) : bool := xorb (wordAt before) (wordAt (head s)).

(** Some repetition of a class of at least [least] characters after which [k] holds. *)
Fixpoint tryMany (f : Z -> bool) (least : nat) (before : option Z) (s : list Z) (k : option Z -> list Z -> bool) : bool :=
  if (if (least =? 0)%nat then k before s else false) then true
  else match s with c :: s => if f c then tryMany f (pred least) (Some c) s k else false | [] => false end.

Fixpoint tryAt (p : pattern) (before : option Z) (s : list Z) (k : option Z -> list Z -> bool) : bool :=
  match p with
  | pEmpty => k before s
  | pStart => match before with None => k before s | Some _ => false end
  | pBoundary => if boundary before s then k before s else false
  | pClass f => match s with c :: s => if f c then k (Some c) s else false | [] => false end
  | pMany least f => tryMany f least before s k
  | pSeq p q => tryAt p before s (fun before s => tryAt q before s k)
  | pAlt p q => if tryAt p before s k then true else tryAt q before s k
  end.

(** The search from a position on. *)
Fixpoint searchFrom (p : pattern) (before : option Z) (s : list Z) : bool :=
  if tryAt p before s (fun _ _ => true) then true
  else match s with c :: s => searchFrom p (Some c) s | [] => false end.

Definition MatchString (p : pattern) (s : list Z) : bool := searchFrom p None s.

(** The byte before the end of [text]. *)
Definition after (before : option Z) (text : list Z) : option Z := match last text with Some c => Some c | None => before end.

(** What the patterns mean: [text], between [before] and [rest], is in the language
    of the pattern. *)
Inductive in_pattern : pattern -> option Z -> list Z -> list Z -> Prop :=
| in_empty before rest : in_pattern pEmpty before [] rest
| in_start rest : in_pattern pStart None [] rest
| in_boundary before rest : wordAt before <> wordAt (head rest) -> in_pattern pBoundary before [] rest
| in_class f before c rest : f c = true -> in_pattern (pClass f) before [c] rest
| in_many least f before text rest : (least <= length text)%nat -> Forall (fun c => f c = true) text ->
    in_pattern (pMany least f) before text rest
| in_seq p q before text1 text2 rest : in_pattern p before text1 (text2 ++ rest) ->
    in_pattern q (after before text1) text2 rest -> in_pattern (pSeq p q) before (text1 ++ text2) rest
| in_left p q before text rest : in_pattern p before text rest -> in_pattern (pAlt p q) before text rest
| in_right p q before text rest : in_pattern q before text rest -> in_pattern (pAlt p q) before text rest.

Lemma if_or (b c : bool) : (if b then true else c) = b || c.
Proof. by destruct b. Qed.
Lemma if_and (b c : bool) : (if b then c else false) = b && c.
Proof. by destruct b. Qed.

Lemma after_cons before c text : after before (c :: text) = after (Some c) text.
Proof.
  unfold after. destruct text as [|d text]; [done|]. rewrite last_cons_cons.
  destruct (last (d :: text)) eqn:H; [done|]. by apply last_None in H.
Qed.

Lemma after_nil before : after before [] = before.
Proof. done. Qed.

Lemma tryMany_iff f least before s k : tryMany f least before s k = true <->
  exists text rest, s = text ++ rest /\ (least <= length text)%nat /\ Forall (fun c => f c = true) text
    /\ k (after before text) rest = true.
Proof.
  revert least before. induction s as [|c s IH]; intros least before; cbn [tryMany]; rewrite if_or, !if_and, orb_true_iff.
  - rewrite andb_true_iff, Nat.eqb_eq. split.
    + intros [[-> Hk]|?]; [|done]. exists [], []. by split_and!.
    + intros (text & rest & Hs & Hl & _ & Hk). symmetry in Hs. apply app_eq_nil in Hs as [-> ->]. left. cbn in Hl. split; [lia|done].
  - rewrite !andb_true_iff, Nat.eqb_eq, IH. split.
    + intros [[-> Hk]|(Hf & text & rest & -> & Hl & Hall & Hk)].
      * exists [], (c :: s). by split_and!.
      * exists (c :: text), rest. split; [done|]. split; [cbn; lia|]. split; [by constructor|]. by rewrite after_cons.
    + intros ([|d text] & rest & Hs & Hl & Hall & Hk).
      * left. cbn in *. subst rest. split; [lia|done].
      * right. injection Hs as -> ->. apply Forall_cons in Hall as [Hf Hall]. split; [done|].
        exists text, rest. split; [done|]. split; [cbn in Hl; lia|]. split; [done|]. by rewrite <- (after_cons before).
Qed.

Lemma after_app before text1 text2 : after before (text1 ++ text2) = after (after before text1) text2.
Proof.
  revert before. induction text1 as [|c text1 IH]; intros before; [done|]. cbn [app]. by rewrite !after_cons, IH.
Qed.

Lemma boundary_iff before s : boundary before s = true <-> wordAt before <> wordAt (head s).
Proof. unfold boundary. destruct (wordAt before), (wordAt (head s)); cbn; split; congruence. Qed.

(** The matcher finds what the pattern means. *)
Lemma tryAt_iff p before s k : tryAt p before s k = true <->
  exists text rest, s = text ++ rest /\ in_pattern p before text rest /\ k (after before text) rest = true.
Proof.
  revert before s k. induction p as [| | |f|least f|p IHp q IHq|p IHp q IHq]; intros before s k; cbn [tryAt].
  - split; [intros Hk; exists [], s; split_and!; try done; constructor|].
    intros (text & rest & -> & Hp & Hk). by inversion Hp; subst.
  - split.
    + destruct before; [done|]. intros Hk. exists [], s. split_and!; try done. constructor.
    + intros (text & rest & -> & Hp & Hk). by inversion Hp; subst.
  - rewrite if_and, andb_true_iff, boundary_iff. split.
    + intros [Hb Hk]. exists [], s. split_and!; try done. by constructor.
    + intros (text & rest & -> & Hp & Hk). by inversion Hp; subst.
  - split.
    + destruct s as [|c s]; [done|]. rewrite if_and. intros [Hf Hk]%andb_true_iff. exists [c], s. split_and!; try done. by constructor.
    + intros (text & rest & -> & Hp & Hk). inversion Hp as [| | |? ? ? ? Hf| | | |]; subst. cbn. by rewrite Hf.
  - rewrite tryMany_iff. split.
    + intros (text & rest & -> & Hl & Hall & Hk). exists text, rest. split_and!; try done. by constructor.
    + intros (text & rest & -> & Hp & Hk). inversion Hp; subst. by exists text, rest.
  - rewrite IHp. setoid_rewrite IHq. split.
    + intros (text1 & ? & -> & Hp & text2 & rest & -> & Hq & Hk). exists (text1 ++ text2), rest.
      split; [by rewrite <- app_assoc|]. split; [by constructor|]. by rewrite after_app.
    + intros (text & rest & -> & Hpq & Hk). inversion Hpq as [| | | | |? ? ? text1 text2 ? Hp Hq| |]; subst.
      exists text1, (text2 ++ rest). split; [by rewrite <- app_assoc|]. split; [done|].
      exists text2, rest. split_and!; try done. by rewrite <- after_app.
  - rewrite if_or, orb_true_iff, IHp, IHq. split.
    + intros [(text & rest & Hs & Hp & Hk)|(text & rest & Hs & Hp & Hk)]; exists text, rest; (split; [done|]); (split; [|done]);
        [by apply in_left|by apply in_right].
    + intros (text & rest & -> & Hp & Hk). inversion Hp; subst; [left|right]; by exists text, rest.
Qed.

Definition occurs_in (p : pattern) (s : list Z) : Prop :=
  exists lead text rest, s = lead ++ text ++ rest /\ in_pattern p (last lead) text rest.

Lemma searchFrom_iff p before s : searchFrom p before s = true <->
  exists lead text rest, s = lead ++ text ++ rest /\ in_pattern p (after before lead) text rest.
Proof.
  revert before. induction s as [|c s IH]; intros before; cbn [searchFrom]; rewrite if_or, orb_true_iff, tryAt_iff.
  - split.
    + intros [(text & rest & Hs & Hp & _)|?]; [|done]. exists [], text, rest. by split.
    + intros (lead & text & rest & Hs & Hp). left. symmetry in Hs. apply app_eq_nil in Hs as [-> Hs].
      exists text, rest. split; [by symmetry in Hs|]. done.
  - rewrite IH. split.
    + intros [(text & rest & Hs & Hp & _)|(lead & text & rest & -> & Hp)].
      * exists [], text, rest. by split.
      * exists (c :: lead), text, rest. split; [done|]. by rewrite after_cons.
    + intros ([|d lead] & text & rest & Hs & Hp).
      * left. by exists text, rest.
      * right. injection Hs as -> ->. exists lead, text, rest. split; [done|]. by rewrite <- (after_cons before).
Qed.

Lemma MatchString_iff p s : MatchString p s = true <-> occurs_in p s.
Proof.
  unfold MatchString, occurs_in. rewrite searchFrom_iff. split; intros (lead & text & rest & Hs & Hp); exists lead, text, rest;
    (split; [done|]); unfold after in *; by destruct (last lead).
Qed.
