(* ===== verification/SatWorkload.v ===== *)
(** * Saturation harness: the seeded workload

    Models [tools/run_saturation/workload.go]: the profile, the generator
    [splitMix64] and [shuffle], the jobs of a workload and how they are checked,
    and the oracle that predicts the order in which the scheduler serves them. At the
    end the gateway that is measured: its configurations, and the expectation of its
    queues that the harness keeps. *)

From S2P Require Import Prelude GoHeap GoJson GoMarshal GoIO AdmissionConfig AdmissionOwner AdmissionScheduler ContractRequest HttpConfig.
From S2P Require Import ServerConfig HttpUpstream.

(** ** Profile and tenants *)

Definition ciProfileName : gostring := bs "ci".
Definition controlTenantID : Z := 99.
Definition globalProbeTenantID : Z := 77.
Definition tenantAID : Z := 1.
Definition tenantBID : Z := 2.

Definition ciServiceRequestsPerTenant : nat := 10.
Definition ciInitialServicePerTenant : nat := 8.
Definition ciMaximumCompletionTokens : Z := 64.
Definition ciMaximumBodyBytes : Z := 256.
Definition ciMaximumRequestUnits : Z := ciMaximumBodyBytes + ciMaximumCompletionTokens.
Definition ciBaseQuantum : Z := 128.
Definition ciDeficitCap : Z := 768.
Definition ciQueueCapacityPerTenant : Z := 10.
Definition ciGlobalQueueCapacity : Z := 20.
Definition ciTotalRequestCount : nat := 28.

Definition syntheticModel : gostring := bs "saturation-fixture".

Inductive workloadError := errInvalidProfile | errInvalidWorkload.

Record saturationProfile := mkProfile {
  pf_name : gostring;
  pf_executionTimeout : Z;
  pf_gracefulCleanupTimeout : Z;
  pf_abortCleanupTimeout : Z;
  pf_upstreamAbortTimeout : Z;
  pf_runtimeAbortTimeout : Z;
  pf_queueDeadline : Z;
  pf_defaultQueueTimeout : Z;
  pf_bodyReadTimeout : Z;
  pf_upstreamTimeout : Z;
  pf_streamReadTimeout : Z;
  pf_streamEventTimeout : Z;
  pf_responseWriteTimeout : Z;
  pf_graceTimeout : Z;
  pf_forceTimeout : Z;
}.

Definition profileByName (name : gostring) : result workloadError saturationProfile :=
  _ ← guard_err (negb (bool_decide (name = ciProfileName))) errInvalidProfile;
  mret (mkProfile ciProfileName
    (30 * time_Second) (9 * time_Second) (10 * time_Second) (2 * time_Second) (8 * time_Second)
    time_Second (15 * time_Second) (2 * time_Second) (5 * time_Second) (3 * time_Second)
    (4 * time_Second) (2 * time_Second) (5 * time_Second) (2 * time_Second)).

Record tenantDefinition := mkTenantDefinition {
  td_id : Z;
  td_label : gostring;
  td_weight : Z;
  td_token : gostring;
}.

#[export] Instance tenantDefinition_eq_dec : EqDecision tenantDefinition.
Proof. solve_decision. Defined.

Definition controlTenant : tenantDefinition :=
  mkTenantDefinition controlTenantID (bs "control") 1 (bs "synthetic-control-credential").
Definition globalProbeTenant : tenantDefinition :=
  mkTenantDefinition globalProbeTenantID (bs "global-capacity-probe") 1
    (bs "synthetic-global-probe-credential").
Definition serviceTenants : list tenantDefinition :=
  [mkTenantDefinition tenantAID (bs "tenant-a") 1 (bs "synthetic-tenant-a-credential");
   mkTenantDefinition tenantBID (bs "tenant-b") 3 (bs "synthetic-tenant-b-credential")].

(** The position of the first tenant of that id ([range serviceTenants]). *)
Fixpoint tenantIndexFrom (index : nat) (identifier : Z) (tenants : list tenantDefinition) : option nat :=
  match tenants with
  | [] => None
  | tenant :: tenants =>
      if td_id tenant =? identifier then Some index else tenantIndexFrom (S index) identifier tenants
  end.
Definition serviceTenantIndex (identifier : Z) : option nat := tenantIndexFrom 0 identifier serviceTenants.

(** ** Jobs *)

(** [jobUnset] is the zero value. *)
Inductive jobKind :=
| jobUnset | jobControl | jobService | jobCancel | jobDeadline | jobReject | jobGlobalReject.

#[export] Instance jobKind_eq_dec : EqDecision jobKind.
Proof. solve_decision. Defined.

Record saturationJob := mkJob {
  job_id : Z;
  job_tenant : tenantDefinition;
  job_kind : jobKind;
  job_stream : bool;
  job_body : gostring;
  job_workUnits : Z;
  job_queueTimeoutMS : Z;
}.

Definition job_mode (j : saturationJob) : gostring := if job_stream j then bs "sse" else bs "buffered".

Definition makeSaturationJob (identifier : Z) (tenant : tenantDefinition) (kind : jobKind) (stream : bool)
    (profile : saturationProfile) : saturationJob :=
  let body := quoted "{'model':'saturation-fixture','messages':[{'role':'user','content':''}],'max_completion_tokens':"
              ++ formatUint identifier in
  let body := body ++ (if stream then quoted ",'stream':true}" else quoted "}") in
  let queueTimeoutMS :=
    if bool_decide (kind = jobDeadline) then u64 (pf_queueDeadline profile ÷ time_Millisecond) else 0 in
  mkJob identifier tenant kind stream body (Z.of_nat (length body) +u identifier) queueTimeoutMS.

(** ** The generator *)

Definition splitMix64_next (state : Z) : Z * Z :=
  let state := state +u 11400714819323198485 in
  let value := state in
  let value := Z.lxor value (Z.shiftr value 30) *u 13787848793156543929 in
  let value := Z.lxor value (Z.shiftr value 27) *u 10723151780598845931 in
  (Z.lxor value (Z.shiftr value 31), state).

(** [for index := len(values) - 1; index > 0; index--], from [index] down. *)
Fixpoint shuffleFrom {A} (index : nat) (generator : Z) (values : list A) : Z * list A :=
  match index with
  | O => (generator, values)
  | S below =>
      let '(value, generator) := splitMix64_next generator in
      let swap := Z.to_nat (value mod (Z.of_nat index +u 1)) in
      shuffleFrom below generator (list_swap index swap values)
  end.
Definition shuffle {A} (generator : Z) (values : list A) : Z * list A :=
  shuffleFrom (length values - 1) generator values.

(** ** Workloads *)

Record seededWorkload := mkWorkload {
  wl_seed : Z;
  wl_control : Z;
  wl_initialService : list Z;
  wl_cancellations : list Z;
  wl_deadlines : list Z;
  wl_lateService : list Z;
  wl_rejections : list Z;
  wl_globalRejection : Z;
  wl_serviceQueues : list (list Z);
  wl_jobs : gmap Z saturationJob;
}.

(** [workload.jobs[identifier]], with the zero value for a missing key. *)
Definition zeroJob : saturationJob := mkJob 0 (mkTenantDefinition 0 [] 0 []) jobUnset false [] 0 0.
Definition jobOf (jobs : gmap Z saturationJob) (identifier : Z) : saturationJob :=
  match jobs !! identifier with Some job => job | None => zeroJob end.

Record builder := mkBuilder { bd_identifiers : list Z; bd_jobs : gmap Z saturationJob }.

Definition nextIdentifier : M builder Z := fun b =>
  match bd_identifiers b with
  | [] => Panicked "index out of range [0] with length 0"
  | identifier :: rest => Done (identifier, mkBuilder rest (bd_jobs b))
  end.

Definition add (profile : saturationProfile) (tenant : tenantDefinition) (kind : jobKind) (stream : bool)
    : M builder Z :=
  identifier ← nextIdentifier;
  modify (fun b => mkBuilder (bd_identifiers b)
    (<[identifier := makeSaturationJob identifier tenant kind stream profile]> (bd_jobs b)));;
  mret identifier.

(** [for requestIndex := range ciServiceRequestsPerTenant], the last [n] of them. *)
Fixpoint addService (n : nat) (profile : saturationProfile) (tenant : tenantDefinition) : M builder (list Z) :=
  match n with
  | O => mret []
  | S n =>
      identifier ← add profile tenant jobService (n =? 0)%nat;
      rest ← addService n profile tenant;
      mret (identifier :: rest)
  end.

(** The jobs of one service tenant. *)
Record tenantJobs := mkTenantJobs { tj_service : list Z; tj_cancel : Z; tj_deadline : Z; tj_reject : Z }.

Definition addTenant (profile : saturationProfile) (tenant : tenantDefinition) : M builder tenantJobs :=
  service ← addService ciServiceRequestsPerTenant profile tenant;
  cancel ← add profile tenant jobCancel false;
  deadline ← add profile tenant jobDeadline false;
  reject ← add profile tenant jobReject false;
  mret (mkTenantJobs service cancel deadline reject).

Fixpoint addTenants (profile : saturationProfile) (tenants : list tenantDefinition) : M builder (list tenantJobs) :=
  match tenants with
  | [] => mret []
  | tenant :: tenants =>
      jobs ← addTenant profile tenant;
      rest ← addTenants profile tenants;
      mret (jobs :: rest)
  end.

Definition addAll (profile : saturationProfile) : M builder (Z * list tenantJobs * Z) :=
  control ← add profile controlTenant jobControl false;
  service ← addTenants profile serviceTenants;
  globalRejection ← add profile globalProbeTenant jobGlobalReject false;
  mret (control, service, globalRejection).

(** The service jobs in the order of their submission, by tenant. *)
Fixpoint queueByTenant (jobs : gmap Z saturationJob) (identifiers : list Z) (queues : list (list Z))
    : result workloadError (list (list Z)) :=
  match identifiers with
  | [] => mret queues
  | identifier :: identifiers =>
      match serviceTenantIndex (td_id (job_tenant (jobOf jobs identifier))) with
      | None => Err errInvalidWorkload
      | Some tenantIndex =>
          queueByTenant jobs identifiers (alter (fun queue => queue ++ [identifier]) tenantIndex queues)
      end
  end.

(** *** Checking a workload *)

Definition kindIndex (kind : jobKind) : nat :=
  match kind with
  | jobUnset => 0 | jobControl => 1 | jobService => 2 | jobCancel => 3
  | jobDeadline => 4 | jobReject => 5 | jobGlobalReject => 6
  end.

(** The identifiers seen so far, and how many jobs of each kind each tenant has. *)
Record phases := mkPhases { ph_seen : gset Z; ph_counts : list (list Z) }.

Definition countKind (tenantIndex : nat) (kind : jobKind) (counts : list (list Z)) : list (list Z) :=
  alter (alter (fun n => n +u 1) (kindIndex kind)) tenantIndex counts.

(** [None] stands for the answer [false]. *)
Fixpoint recordPhase (jobs : gmap Z saturationJob) (identifiers : list Z) (want : jobKind) (ph : phases)
    : option phases :=
  match identifiers with
  | [] => Some ph
  | identifier :: identifiers =>
      match jobs !! identifier with
      | None => None
      | Some job =>
          if negb (bool_decide (job_kind job = want)) then None
          else if bool_decide (identifier ∈ ph_seen ph) then None
          else
            match serviceTenantIndex (td_id (job_tenant job)) with
            | None => None
            | Some tenantIndex =>
                if negb (bool_decide (serviceTenants !! tenantIndex = Some (job_tenant job))) then None
                else recordPhase jobs identifiers want
                       (mkPhases ({[identifier]} ∪ ph_seen ph) (countKind tenantIndex want (ph_counts ph)))
            end
      end
  end.

(** A single job of its own phase. *)
Definition recordSingle (jobs : gmap Z saturationJob) (identifier : Z) (kind : jobKind)
    (tenant : tenantDefinition) (ph : phases) : option phases :=
  match jobs !! identifier with
  | None => None
  | Some job =>
      if negb (bool_decide (job_kind job = kind)) || negb (bool_decide (job_tenant job = tenant)) || job_stream job
      then None
      else if bool_decide (identifier ∈ ph_seen ph) then None
      else Some (mkPhases ({[identifier]} ∪ ph_seen ph) (ph_counts ph))
  end.

(** The body of the loop over all jobs: [None] when it returns, and otherwise the
    number of streams of each tenant. *)
Definition checkJob (workload : seededWorkload) (streams : list Z) (entry : Z * saturationJob) : option (list Z) :=
  let '(identifier, job) := entry in
  if (identifier =? 0) || (ciMaximumCompletionTokens <? identifier)
     || negb (job_id job =? identifier) || (length (job_body job) =? 0)%nat
     || (ciMaximumBodyBytes <? Z.of_nat (length (job_body job)))
     || negb (job_workUnits job =? Z.of_nat (length (job_body job)) +u identifier)
     || (ciMaximumRequestUnits <? job_workUnits job)
  then None
  else
    streams ←
      (if job_stream job then
         match serviceTenantIndex (td_id (job_tenant job)) with
         | Some tenantIndex =>
             if bool_decide (job_kind job = jobService) then Some (alter (fun n => n +u 1) tenantIndex streams)
             else None
         | None => None
         end
       else Some streams);
    if bool_decide (job_kind job = jobDeadline) && (job_queueTimeoutMS job =? 0) then None
    else if negb (bool_decide (job_kind job = jobDeadline)) && negb (job_queueTimeoutMS job =? 0) then None
    else
      match job_kind job with
      | jobControl =>
          if negb (identifier =? wl_control workload) || negb (bool_decide (job_tenant job = controlTenant))
          then None else Some streams
      | jobService | jobCancel | jobDeadline | jobReject =>
          match serviceTenantIndex (td_id (job_tenant job)) with
          | Some tenantIndex =>
              if bool_decide (serviceTenants !! tenantIndex = Some (job_tenant job)) then Some streams else None
          | None => None
          end
      | jobGlobalReject =>
          if negb (identifier =? wl_globalRejection workload)
             || negb (bool_decide (job_tenant job = globalProbeTenant))
          then None else Some streams
      | jobUnset => None
      end.

Fixpoint checkJobs (workload : seededWorkload) (streams : list Z) (entries : list (Z * saturationJob))
    : option (list Z) :=
  match entries with
  | [] => Some streams
  | entry :: entries => streams ← checkJob workload streams entry; checkJobs workload streams entries
  end.

Definition countAt (tenantIndex : nat) (kind : jobKind) (counts : list (list Z)) : Z :=
  match counts !! tenantIndex with Some row => default 0 (row !! kindIndex kind) | None => 0 end.

(** The numbers of jobs of one service tenant. *)
Definition countsFine (workload : seededWorkload) (streams : list Z) (counts : list (list Z)) (tenantIndex : nat)
    : bool :=
  (length (default [] (wl_serviceQueues workload !! tenantIndex)) =? ciServiceRequestsPerTenant)%nat
  && (default 0 (streams !! tenantIndex) =? 1)
  && (countAt tenantIndex jobService counts =? Z.of_nat ciServiceRequestsPerTenant)
  && (countAt tenantIndex jobCancel counts =? 1)
  && (countAt tenantIndex jobDeadline counts =? 1)
  && (countAt tenantIndex jobReject counts =? 1).

Fixpoint expectedQueues (jobs : gmap Z saturationJob) (identifiers : list Z) (queues : list (list Z))
    : list (list Z) :=
  match identifiers with
  | [] => queues
  | identifier :: identifiers =>
      let tenantIndex := default 0%nat (serviceTenantIndex (td_id (job_tenant (jobOf jobs identifier)))) in
      expectedQueues jobs identifiers (alter (fun queue => queue ++ [identifier]) tenantIndex queues)
  end.

(** [for position, identifier := range expected]: [actual[position] != identifier]. *)
Fixpoint sameQueue (expected actual : list Z) : comp bool :=
  match expected, actual with
  | [], _ => Done true
  | _ :: _, [] => Panicked "index out of range"
  | identifier :: expected, found :: actual =>
      if found =? identifier then sameQueue expected actual else Done false
  end.

Fixpoint sameQueues (expected actual : list (list Z)) : comp bool :=
  match expected, actual with
  | queue :: expected, found :: actual =>
      match sameQueue queue found with
      | Done true => sameQueues expected actual
      | r => r
      end
  | _, _ => Done true
  end.

Definition zeroCounts : list (list Z) := replicate (length serviceTenants) (replicate (S (kindIndex jobReject)) 0).

(** The checks before the queues are compared. *)
Definition checkWorkload (workload : seededWorkload) : option unit :=
  let jobs := wl_jobs workload in
  if negb (size jobs =? ciTotalRequestCount)%nat
     || negb (length (wl_initialService workload) =? ciInitialServicePerTenant * length serviceTenants)%nat
     || negb (length (wl_cancellations workload) =? length serviceTenants)%nat
     || negb (length (wl_deadlines workload) =? length serviceTenants)%nat
     || negb (length (wl_lateService workload)
              =? (ciServiceRequestsPerTenant - ciInitialServicePerTenant) * length serviceTenants)%nat
     || negb (length (wl_rejections workload) =? length serviceTenants)%nat
  then None
  else
    ph ← recordSingle jobs (wl_control workload) jobControl controlTenant (mkPhases ∅ zeroCounts);
    ph ← recordSingle jobs (wl_globalRejection workload) jobGlobalReject globalProbeTenant ph;
    ph ← recordPhase jobs (wl_initialService workload) jobService ph;
    ph ← recordPhase jobs (wl_cancellations workload) jobCancel ph;
    ph ← recordPhase jobs (wl_deadlines workload) jobDeadline ph;
    ph ← recordPhase jobs (wl_lateService workload) jobService ph;
    ph ← recordPhase jobs (wl_rejections workload) jobReject ph;
    if negb (size (ph_seen ph) =? size jobs)%nat then None
    else
      streams ← checkJobs workload (replicate (length serviceTenants) 0) (map_to_list jobs);
      if forallb (countsFine workload streams (ph_counts ph)) (seq 0 (length serviceTenants))
      then Some tt else None.

Definition validateSeededWorkload (workload : seededWorkload) : comp (result workloadError unit) :=
  match checkWorkload workload with
  | None => Done (Err errInvalidWorkload)
  | Some _ =>
      let expected := expectedQueues (wl_jobs workload)
        (wl_initialService workload ++ wl_lateService workload) (replicate (length serviceTenants) []) in
      match sameQueues expected (wl_serviceQueues workload) with
      | Done true => Done (Ok tt)
      | Done false => Done (Err errInvalidWorkload)
      | Panicked msg => Panicked msg
      | OutOfFuel => OutOfFuel
      end
  end.

(** *** Building one *)

Definition buildSeededWorkload (seed : Z) (profile : saturationProfile) : comp (result workloadError seededWorkload) :=
  if negb (bool_decide (pf_name profile = ciProfileName)) || (pf_queueDeadline profile <=? 0)
     || (pf_defaultQueueTimeout profile <=? pf_queueDeadline profile)
  then Done (Err errInvalidProfile)
  else
    let '(generator, identifiers) := shuffle seed (map Z.of_nat (seq 1 (Z.to_nat ciMaximumCompletionTokens))) in
    match addAll profile (mkBuilder identifiers ∅) with
    | Panicked msg => Panicked msg
    | OutOfFuel => OutOfFuel
    | Done (control, service, globalRejection, b) =>
        let '(generator, initialService) :=
          shuffle generator (mjoin (map (fun t => take ciInitialServicePerTenant (tj_service t)) service)) in
        let '(generator, cancellations) := shuffle generator (map tj_cancel service) in
        let '(generator, deadlines) := shuffle generator (map tj_deadline service) in
        let '(generator, lateService) :=
          shuffle generator (mjoin (map (fun t => drop ciInitialServicePerTenant (tj_service t)) service)) in
        let '(_, rejections) := shuffle generator (map tj_reject service) in
        match queueByTenant (bd_jobs b) (initialService ++ lateService) (replicate (length serviceTenants) []) with
        | Err e => Done (Err e)
        | Ok serviceQueues =>
            let workload := mkWorkload seed control initialService cancellations deadlines lateService
              rejections globalRejection serviceQueues (bd_jobs b) in
            match validateSeededWorkload workload with
            | Done (Ok _) => Done (Ok workload)
            | Done (Err e) => Done (Err e)
            | Panicked msg => Panicked msg
            | OutOfFuel => OutOfFuel
            end
        end
    end.

(** ** The oracle *)

Record dispatchRecord := mkRecord {
  rec_Position : Z;
  rec_Tenant : gostring;
  rec_Weight : Z;
  rec_WorkUnits : Z;
  rec_Mode : gostring;
}.

#[export] Instance dispatchRecord_eq_dec : EqDecision dispatchRecord.
Proof. solve_decision. Defined.

Record oracleTenant := mkOracleTenant {
  ot_definition : tenantDefinition;
  ot_queue : list Z;
  ot_deficit : Z;
  ot_visitOpen : bool;
}.

Record oracleDispatch := mkOracleDispatch { od_identifier : Z; od_record : dispatchRecord }.

Definition boundedOracleAdd (value addition maximum : Z) : Z :=
  if (maximum <=? value) || (maximum -u value <? addition) then maximum else value +u addition.

Record oracleState := mkOracle {
  or_tenants : list oracleTenant;
  or_cursor : nat;
  or_remaining : nat;
  or_trace : list oracleDispatch;
}.

Definition oracle_advance (o : oracleState) : oracleState :=
  mkOracle (or_tenants o) (S (or_cursor o) mod length (or_tenants o)) (or_remaining o) (or_trace o).

Definition oracle_set (o : oracleState) (t : oracleTenant) : oracleState :=
  mkOracle (<[or_cursor o := t]> (or_tenants o)) (or_cursor o) (or_remaining o) (or_trace o).

Definition oracle_fund (t : oracleTenant) : oracleTenant :=
  if ot_visitOpen t then t
  else mkOracleTenant (ot_definition t) (ot_queue t)
         (boundedOracleAdd (ot_deficit t) (ciBaseQuantum *u td_weight (ot_definition t)) ciDeficitCap) true.

Definition oracle_emptied (t : oracleTenant) : oracleTenant :=
  mkOracleTenant (ot_definition t) (ot_queue t) 0 false.

Definition oracle_record (o : oracleState) (t : oracleTenant) (job : saturationJob) : oracleDispatch :=
  mkOracleDispatch (job_id job)
    (mkRecord (u64 (Z.of_nat (length (or_trace o)) + 1)) (td_label (ot_definition t)) (td_weight (ot_definition t))
       (job_workUnits job) (job_mode job)).

(** One iteration of the loop, [None] when it returns an error. *)
Definition oracle_visit (jobs : gmap Z saturationJob) (o : oracleState) : comp (option oracleState) :=
  match or_tenants o !! or_cursor o with
  | None => Panicked "index out of range"
  | Some tenant =>
      match ot_queue tenant with
      | [] => Done (Some (oracle_advance (oracle_set o (oracle_emptied tenant))))
      | identifier :: queue =>
          let tenant := oracle_fund tenant in
          match jobs !! identifier with
          | None => Done None
          | Some job =>
              if negb (bool_decide (job_kind job = jobService))
                 || negb (td_id (job_tenant job) =? td_id (ot_definition tenant))
              then Done None
              else if ot_deficit tenant <? job_workUnits job then
                Done (Some (oracle_advance (oracle_set o
                  (mkOracleTenant (ot_definition tenant) (ot_queue tenant) (ot_deficit tenant) false))))
              else
                let served := mkOracleTenant (ot_definition tenant) queue
                  (ot_deficit tenant -u job_workUnits job) (ot_visitOpen tenant) in
                let next := mkOracle (or_tenants o) (or_cursor o) (pred (or_remaining o))
                  (or_trace o ++ [oracle_record o tenant job]) in
                match queue with
                | [] => Done (Some (oracle_advance (oracle_set next (oracle_emptied served))))
                | _ :: _ => Done (Some (oracle_set next served))
                end
          end
      end
  end.

(** [for visits := 0; remaining > 0 && visits < maximumVisits; visits++], with what
    is left of [maximumVisits]. *)
Fixpoint oracle_loop (visits : nat) (jobs : gmap Z saturationJob) (o : oracleState) : comp (option oracleState) :=
  match visits with
  | O => Done (Some o)
  | S visits =>
      if (or_remaining o =? 0)%nat then Done (Some o)
      else
        match oracle_visit jobs o with
        | Done (Some o') => oracle_loop visits jobs o'
        | r => r
        end
  end.

Definition oracle_start (workload : seededWorkload) : oracleState :=
  let tenants := zip_with (fun definition queue => mkOracleTenant definition queue 0 false)
    serviceTenants (wl_serviceQueues workload) in
  mkOracle tenants 0 (sum_list (map (fun t => length (ot_queue t)) tenants)) [].

Definition oracle_visits (o : oracleState) : nat :=
  or_remaining o * Z.to_nat (ciDeficitCap ÷ ciBaseQuantum + 2) * length (or_tenants o).

Definition expectedDispatchPlan (workload : seededWorkload) : comp (result workloadError (list oracleDispatch)) :=
  let start := oracle_start workload in
  match oracle_loop (oracle_visits start) (wl_jobs workload) start with
  | Done (Some o) =>
      if negb (or_remaining o =? 0)%nat || negb (length (or_trace o) =? or_remaining start)%nat
      then Done (Err errInvalidWorkload) else Done (Ok (or_trace o))
  | Done None => Done (Err errInvalidWorkload)
  | Panicked msg => Panicked msg
  | OutOfFuel => OutOfFuel
  end.

Definition expectedDispatchTrace (workload : seededWorkload) : comp (result workloadError (list dispatchRecord)) :=
  match expectedDispatchPlan workload with
  | Done (Ok plan) => Done (Ok (map od_record plan))
  | Done (Err e) => Done (Err e)
  | Panicked msg => Panicked msg
  | OutOfFuel => OutOfFuel
  end.

(** ** The gateway that is measured: the configurations in
    [tools/run_saturation/harness.go], which are the constants of the [ci] profile, and
    the expectation of the queues that the harness keeps beside the scheduler *)

(** ** Configurations *)

Definition saturationParser : result string Parser :=
  NewParser syntheticModel (mkLimits ciMaximumBodyBytes 1 1 ciMaximumCompletionTokens 1 ciMaximumRequestUnits).

Definition saturationHTTPConfig (profile : saturationProfile) : HttpConfig :=
  let tenants := [controlTenant] ++ serviceTenants ++ [globalProbeTenant] in
  let limits := [1; ciQueueCapacityPerTenant; ciQueueCapacityPerTenant; 1] in
  mkHttpConfig (pf_defaultQueueTimeout profile) (pf_bodyReadTimeout profile) (pf_upstreamTimeout profile)
    (pf_streamReadTimeout profile) (pf_streamEventTimeout profile) 512 256 4 ciGlobalQueueCapacity
    (zip_with (fun tenant limit => mkTenantLimit (td_id tenant) limit) tenants limits)
    (map (fun tenant => mkCredential (td_id tenant) (td_token tenant)) tenants).

Definition saturationTenant (capacity : Z) (tenant : tenantDefinition) : TenantConfig :=
  MkTenantConfig (td_id tenant) (td_weight tenant)
    (MkQueueLimits capacity (capacity * ciMaximumBodyBytes) (capacity * ciMaximumRequestUnits))
    (MkInflightLimits 1 ciMaximumRequestUnits).

Definition saturationAdmissionConfig : Config :=
  MkConfig ciMaximumBodyBytes ciMaximumRequestUnits ciBaseQuantum ciDeficitCap
    (MkQueueLimits ciGlobalQueueCapacity (ciGlobalQueueCapacity * ciMaximumBodyBytes)
       (ciGlobalQueueCapacity * ciMaximumRequestUnits))
    (MkInflightLimits 1 ciMaximumRequestUnits)
    ([saturationTenant 1 controlTenant] ++ map (saturationTenant ciQueueCapacityPerTenant) serviceTenants
     ++ [saturationTenant 1 globalProbeTenant]).

(** The configurations that [startGatewayRuntime] writes in place. *)
Definition saturationUpstreamConfig (profile : saturationProfile) (endpoint : gostring) : HTTPUpstreamConfig :=
  mkUpstreamConfig endpoint time_Second time_Second (pf_upstreamTimeout profile) time_Second 8192 1.

Definition saturationServerConfig (profile : saturationProfile) : ServerConfig :=
  mkServerConfig (2 * time_Second) (pf_responseWriteTimeout profile) (2 * time_Second) (pf_graceTimeout profile)
    (pf_forceTimeout profile) 8192 32.

Definition completionsPath : gostring := bs "/v1/chat/completions".
Definition upstreamCredential : gostring := bs "synthetic-upstream-credential".

(** ** The expected queues *)

Record queueExpectation := mkExpectation {
  qe_global : Counters;
  qe_tenants : gmap Z Counters;
}.

#[export] Instance Counters_eq_dec : EqDecision Counters.
Proof. solve_decision. Defined.

Definition newQueueExpectation (control : saturationJob) : queueExpectation :=
  let global := MkCounters 0 0 0 1 (job_workUnits control) in
  mkExpectation global
    (<[td_id globalProbeTenant := zeroCounters]> (<[tenantBID := zeroCounters]>
      (<[tenantAID := zeroCounters]> (<[td_id (job_tenant control) := global]> ∅)))).

(** [e.tenants[id]] of a missing tenant is the zero value. *)
Definition expectedOf (e : queueExpectation) (tenant : Z) : Counters := default zeroCounters (qe_tenants e !! tenant).

Definition counters_queue (c : Counters) (job : saturationJob) : Counters :=
  MkCounters (QueuedCount c +u 1) (QueuedBytes c +u Z.of_nat (length (job_body job)))
    (QueuedWork c +u job_workUnits job) (InflightCount c) (InflightWork c).
Definition counters_unqueue (c : Counters) (job : saturationJob) : Counters :=
  MkCounters (QueuedCount c -u 1) (QueuedBytes c -u Z.of_nat (length (job_body job)))
    (QueuedWork c -u job_workUnits job) (InflightCount c) (InflightWork c).

Definition expect_addQueued (e : queueExpectation) (job : saturationJob) : queueExpectation :=
  let tenant := td_id (job_tenant job) in
  mkExpectation (counters_queue (qe_global e) job)
    (<[tenant := counters_queue (expectedOf e tenant) job]> (qe_tenants e)).
Definition expect_removeQueued (e : queueExpectation) (job : saturationJob) : queueExpectation :=
  let tenant := td_id (job_tenant job) in
  mkExpectation (counters_unqueue (qe_global e) job)
    (<[tenant := counters_unqueue (expectedOf e tenant) job]> (qe_tenants e)).

(** The test of [waitForSnapshot] on one snapshot, and of [waitForEmptySnapshot]. *)
Definition snapshotMatches (s : Snapshot) (expected : queueExpectation) : bool :=
  sn_Accepting s && bool_decide (sn_Global s = qe_global expected)
  && (length (sn_Tenants s) =? size (qe_tenants expected))%nat
  && forallb (fun t => match qe_tenants expected !! tsn_ID t with
                       | Some want => bool_decide (tsn_Counters t = want) && (tsn_Deficit t =? 0)
                       | None => false
                       end) (sn_Tenants s).

Definition snapshotEmpty (s : Snapshot) : bool :=
  sn_Accepting s && bool_decide (sn_Global s = zeroCounters)
  && forallb (fun t => bool_decide (tsn_Counters t = zeroCounters) && (tsn_Deficit t =? 0)) (sn_Tenants s).
