(* ===== verification/SatSeeded.v ===== *)
(** * Saturation harness: every seed gives a workload

    [shuffle] permutes, the jobs of a workload are distinct and within the limits,
    and so [buildSeededWorkload] returns a workload that passes its own checks,
    whatever the seed. *)

From S2P Require Import Prelude GoHeap GoJson SatWorkload.

(** ** Lists *)

Lemma shuffleFrom_Permutation {A} index generator (values : list A) :
  snd (shuffleFrom index generator values) ≡ₚ values.
Proof.
  revert generator values. induction index as [|below IH]; intros generator values; [done|].
  cbn -[splitMix64_next list_swap]. destruct (splitMix64_next generator) as [value generator'].
  rewrite IH. apply list_swap_Permutation.
Qed.

Lemma shuffle_Permutation {A} generator (values : list A) : snd (shuffle generator values) ≡ₚ values.
Proof. apply shuffleFrom_Permutation. Qed.

Lemma foldl_Permutation {A B} (f : B -> A -> B) l k b :
  (forall b x y, f (f b x) y = f (f b y) x) -> l ≡ₚ k -> foldl f b l = foldl f b k.
Proof.
  intros Hf Hp. revert b. induction Hp as [|x l k _ IH|x y l|l1 l2 l3 _ IH1 _ IH2]; intros b; cbn; [done|done|by rewrite Hf|].
  by rewrite IH1.
Qed.

Lemma list_alter_comm {A} (f : A -> A) i j (l : list A) : alter f i (alter f j l) = alter f j (alter f i l).
Proof.
  destruct (decide (i = j)) as [->|Hij]; [done|]. by apply list_alter_alter_ne.
Qed.

Lemma countKind_comm i j kind counts : countKind i kind (countKind j kind counts) = countKind j kind (countKind i kind counts).
Proof. apply list_alter_comm. Qed.

(** ** Bodies of jobs *)

Definition body_fine (identifier : Z) (stream : bool) : bool :=
  let job := makeSaturationJob identifier controlTenant jobService stream (mkProfile [] 0 0 0 0 0 0 0 0 0 0 0 0 0 0) in
  (0 <? Z.of_nat (length (job_body job))) && (Z.of_nat (length (job_body job)) <=? ciMaximumBodyBytes)
  && (job_workUnits job =? Z.of_nat (length (job_body job)) + identifier)
  && (job_workUnits job <=? ciMaximumRequestUnits).

Definition identifiers_all : list Z := map Z.of_nat (seq 1 (Z.to_nat ciMaximumCompletionTokens)).

Lemma identifiers_range identifier : identifier ∈ identifiers_all -> 1 <= identifier <= ciMaximumCompletionTokens.
Proof.
  intros (n & -> & Hn)%list_elem_of_fmap. apply list_elem_of_In, in_seq in Hn. unfold ciMaximumCompletionTokens in *. lia.
Qed.

Lemma identifiers_NoDup : NoDup identifiers_all.
Proof. apply NoDup_fmap; [apply _|apply NoDup_ListNoDup, seq_NoDup]. Qed.

Lemma bodies_fine : forallb (fun identifier => body_fine identifier true && body_fine identifier false) identifiers_all = true.
Proof. vm_compute. reflexivity. Qed.

Lemma job_sizes identifier tenant kind stream profile : identifier ∈ identifiers_all ->
  let job := makeSaturationJob identifier tenant kind stream profile in
  0 < Z.of_nat (length (job_body job)) <= ciMaximumBodyBytes
  /\ job_workUnits job = Z.of_nat (length (job_body job)) + identifier
  /\ job_workUnits job <= ciMaximumRequestUnits.
Proof.
  intros Hid job. pose proof (proj1 (forallb_elem _ _) bodies_fine identifier Hid) as Hb.
  apply andb_true_iff in Hb as [Ht Hf].
  assert (body_fine identifier stream = true) as Hs by (by destruct stream). unfold body_fine in Hs.
  change (job_body (makeSaturationJob identifier controlTenant jobService stream _)) with (job_body job) in Hs.
  change (job_workUnits (makeSaturationJob identifier controlTenant jobService stream _)) with (job_workUnits job) in Hs.
  breflect. lia.
Qed.

(** ** Phases *)

Arguments serviceTenantIndex : simpl never.

Section phases.
Context (jobs : gmap Z saturationJob).

(** The position of a job's tenant. *)
Definition tenantOf (identifier : Z) : nat :=
  default 0%nat (serviceTenantIndex (td_id (job_tenant (jobOf jobs identifier)))).

(** A job of a service tenant, of that kind. *)
Definition service_job (kind : jobKind) (identifier : Z) : Prop :=
  exists job, jobs !! identifier = Some job /\ job_kind job = kind
    /\ serviceTenantIndex (td_id (job_tenant job)) = Some (tenantOf identifier)
    /\ serviceTenants !! tenantOf identifier = Some (job_tenant job).

Lemma recordPhase_spec want identifiers ph :
  NoDup identifiers -> (forall identifier, identifier ∈ identifiers -> identifier ∉ ph_seen ph) ->
  Forall (service_job want) identifiers ->
  recordPhase jobs identifiers want ph = Some (mkPhases (list_to_set identifiers ∪ ph_seen ph)
    (foldl (fun counts tenantIndex => countKind tenantIndex want counts) (ph_counts ph) (map tenantOf identifiers))).
Proof.
  intros Hnd. revert ph. induction Hnd as [|identifier identifiers Hid Hnd IH]; intros ph Hseen Hj; cbn [recordPhase map foldl list_to_set].
  { rewrite (left_id_L ∅ (∪)). by destruct ph. }
  apply Forall_cons in Hj as [(job & Hjob & Hkind & Hti & Htn) Hj]. rewrite Hjob.
  rewrite bool_decide_eq_true_2 by done. cbn [negb].
  rewrite bool_decide_eq_false_2 by (apply Hseen; left).
  rewrite Hti, Htn. rewrite bool_decide_eq_true_2 by done. cbn [negb].
  rewrite IH; [|cbn|done].
  - cbn. f_equal. f_equal. by rewrite (assoc_L (∪)), (comm_L (∪) (list_to_set _) {[identifier]}).
  - intros i Hi. rewrite not_elem_of_union, not_elem_of_singleton. split; [by intros ->|].
    apply Hseen. by right.
Qed.

Lemma expectedQueues_lookup identifiers queues tenantIndex :
  expectedQueues jobs identifiers queues !! tenantIndex
  = (fun queue => queue ++ filter (fun identifier => tenantOf identifier = tenantIndex) identifiers)
      <$> queues !! tenantIndex.
Proof.
  revert queues. induction identifiers as [|identifier identifiers IH]; intros queues; cbn [expectedQueues].
  { destruct (queues !! tenantIndex); cbn; [by rewrite app_nil_r|done]. }
  rewrite IH. fold (tenantOf identifier). rewrite filter_cons.
  destruct (decide (tenantOf identifier = tenantIndex)) as [Ht|Ht].
  - subst tenantIndex. rewrite list_lookup_alter_eq. destruct (queues !! _); cbn; [by rewrite <- app_assoc|done].
  - by rewrite list_lookup_alter_ne by congruence.
Qed.

Lemma expectedQueues_length identifiers queues : length (expectedQueues jobs identifiers queues) = length queues.
Proof.
  revert queues. induction identifiers as [|identifier identifiers IH]; intros queues; cbn; [done|].
  by rewrite IH, length_alter.
Qed.

Lemma queueByTenant_expected kind identifiers queues : Forall (service_job kind) identifiers ->
  queueByTenant jobs identifiers queues = Ok (expectedQueues jobs identifiers queues).
Proof.
  intros Hj. revert queues. induction Hj as [|identifier identifiers (job & Hjob & _ & Hti & _) _ IH]; intros queues; [done|].
  cbn [queueByTenant expectedQueues]. fold (tenantOf identifier).
  assert (jobOf jobs identifier = job) as -> by (unfold jobOf; by rewrite Hjob). by rewrite Hti, IH.
Qed.

Lemma sameQueue_self queue : sameQueue queue queue = Done true.
Proof. induction queue as [|identifier queue IH]; cbn; [done|]. by rewrite Z.eqb_refl. Qed.

Lemma sameQueues_self queues : sameQueues queues queues = Done true.
Proof. induction queues as [|queue queues IH]; cbn; [done|]. by rewrite sameQueue_self. Qed.
End phases.

(** *** One job *)

(** A job that [checkJob] accepts. *)
Definition job_fine (workload : seededWorkload) (identifier : Z) (job : saturationJob) : Prop :=
  1 <= identifier <= ciMaximumCompletionTokens /\ job_id job = identifier
  /\ 0 < Z.of_nat (length (job_body job)) <= ciMaximumBodyBytes
  /\ job_workUnits job = Z.of_nat (length (job_body job)) + identifier
  /\ job_workUnits job <= ciMaximumRequestUnits
  /\ (job_kind job = jobDeadline <-> job_queueTimeoutMS job <> 0)
  /\ (job_stream job = true -> job_kind job = jobService)
  /\ match job_kind job with
     | jobControl => identifier = wl_control workload /\ job_tenant job = controlTenant
     | jobService | jobCancel | jobDeadline | jobReject =>
         exists tenantIndex, serviceTenantIndex (td_id (job_tenant job)) = Some tenantIndex
           /\ serviceTenants !! tenantIndex = Some (job_tenant job)
     | jobGlobalReject => identifier = wl_globalRejection workload /\ job_tenant job = globalProbeTenant
     | jobUnset => False
     end.

(** The tenant whose stream it is. *)
Definition streamOf (job : saturationJob) : list nat :=
  if job_stream job then [default 0%nat (serviceTenantIndex (td_id (job_tenant job)))] else [].

Definition countStream (streams : list Z) (tenantIndex : nat) : list Z := alter (fun n => n +u 1) tenantIndex streams.

Lemma checkJob_spec workload streams identifier job : job_fine workload identifier job ->
  checkJob workload streams (identifier, job) = Some (foldl countStream streams (streamOf job)).
Proof.
  intros (Hid & Hji & Hlen & Hw & Hmax & Hdl & Hst & Hk). unfold checkJob, streamOf.
  assert (u64 (Z.of_nat (length (job_body job)) + identifier) = job_workUnits job) as ->.
  { rewrite Hw. apply u64_small. unfold is_u64, two64, ciMaximumBodyBytes, ciMaximumCompletionTokens in *. lia. }
  assert ((length (job_body job) =? 0)%nat = false) as -> by (apply Nat.eqb_neq; lia).
  replace (_ || _) with false.
  2:{ symmetry. rewrite !orb_false_iff, Hji, !Z.eqb_refl. repeat split; try done; (apply Z.eqb_neq || apply Z.ltb_ge); lia. }
  assert (Hd : bool_decide (job_kind job = jobDeadline) = negb (job_queueTimeoutMS job =? 0)).
  { destruct (Z.eqb_spec (job_queueTimeoutMS job) 0) as [H0|H0]; cbn.
    - apply bool_decide_eq_false_2. intros Hk'. by apply Hdl in Hk'.
    - by apply bool_decide_eq_true_2, Hdl. }
  rewrite Hd. destruct (job_stream job) eqn:Hs.
  - specialize (Hst eq_refl). rewrite Hst in *. destruct Hk as (ti & Hti & Htn). rewrite Hti. cbn.
    destruct (_ =? 0); cbn; rewrite bool_decide_eq_true_2 by done; done.
  - cbn. destruct (job_queueTimeoutMS job =? 0); cbn;
      (destruct (job_kind job); [done| |destruct Hk as (ti & -> & ->); by rewrite bool_decide_eq_true_2..|]);
      destruct Hk as [-> ->]; by rewrite Z.eqb_refl, bool_decide_eq_true_2.
Qed.

Lemma checkJobs_spec workload streams entries :
  Forall (fun entry => job_fine workload (fst entry) (snd entry)) entries ->
  checkJobs workload streams entries = Some (foldl countStream streams (mjoin (map (fun entry => streamOf (snd entry)) entries))).
Proof.
  intros Hf. revert streams. induction Hf as [|[identifier job] entries Hj _ IH]; intros streams; [done|].
  cbn [checkJobs]. rewrite checkJob_spec by done. cbn. rewrite IH. by rewrite foldl_app.
Qed.

(** ** The jobs that are added *)

Section entries.
Context (profile : saturationProfile).

Fixpoint serviceEntries (tenant : tenantDefinition) (identifiers : list Z) : list (Z * saturationJob) :=
  match identifiers with
  | [] => []
  | identifier :: rest =>
      (identifier, makeSaturationJob identifier tenant jobService (length rest =? 0)%nat profile)
        :: serviceEntries tenant rest
  end.

Definition tenantEntries (tenant : tenantDefinition) (t : tenantJobs) : list (Z * saturationJob) :=
  serviceEntries tenant (tj_service t)
  ++ [(tj_cancel t, makeSaturationJob (tj_cancel t) tenant jobCancel false profile);
      (tj_deadline t, makeSaturationJob (tj_deadline t) tenant jobDeadline false profile);
      (tj_reject t, makeSaturationJob (tj_reject t) tenant jobReject false profile)].

Definition tenantIdentifiers (t : tenantJobs) : list Z := tj_service t ++ [tj_cancel t; tj_deadline t; tj_reject t].

Lemma tenantEntries_fst tenant t : map fst (tenantEntries tenant t) = tenantIdentifiers t.
Proof.
  unfold tenantEntries, tenantIdentifiers. rewrite map_app. f_equal.
  induction (tj_service t) as [|identifier rest IH]; cbn; [done|]. by rewrite IH.
Qed.

(** The map of entries in the order in which they were added. *)
Definition jobsOf (entries : list (Z * saturationJob)) : gmap Z saturationJob := list_to_map (reverse entries).

Lemma jobsOf_snoc entries identifier job : jobsOf (entries ++ [(identifier, job)]) = <[identifier := job]> (jobsOf entries).
Proof. unfold jobsOf. by rewrite reverse_snoc. Qed.

Lemma add_runs tenant kind stream identifier rest entries :
  add profile tenant kind stream (mkBuilder (identifier :: rest) (jobsOf entries))
  = Done (identifier, mkBuilder rest (jobsOf (entries ++ [(identifier, makeSaturationJob identifier tenant kind stream profile)]))).
Proof. by rewrite jobsOf_snoc. Qed.

Lemma addService_runs tenant service rest entries :
  addService (length service) profile tenant (mkBuilder (service ++ rest) (jobsOf entries))
  = Done (service, mkBuilder rest (jobsOf (entries ++ serviceEntries tenant service))).
Proof.
  revert entries. induction service as [|identifier service IH]; intros entries; cbn [addService length app serviceEntries].
  { by rewrite app_nil_r. }
  unfold mbind, M_bind. rewrite add_runs. rewrite IH. by rewrite <- app_assoc.
Qed.

Lemma addTenant_runs tenant t rest entries : length (tj_service t) = ciServiceRequestsPerTenant ->
  addTenant profile tenant (mkBuilder (tenantIdentifiers t ++ rest) (jobsOf entries))
  = Done (t, mkBuilder rest (jobsOf (entries ++ tenantEntries tenant t))).
Proof.
  intros Hlen. unfold addTenant, tenantIdentifiers. rewrite <- Hlen, <- app_assoc. unfold mbind, M_bind.
  rewrite addService_runs. cbn [app]. rewrite !add_runs. unfold tenantEntries. rewrite <- !app_assoc. by destruct t.
Qed.

Definition allEntries (control : Z) (service : list tenantJobs) (globalRejection : Z) : list (Z * saturationJob) :=
  [(control, makeSaturationJob control controlTenant jobControl false profile)]
  ++ mjoin (zip_with tenantEntries serviceTenants service)
  ++ [(globalRejection, makeSaturationJob globalRejection globalProbeTenant jobGlobalReject false profile)].

Definition allIdentifiers (control : Z) (service : list tenantJobs) (globalRejection : Z) : list Z :=
  [control] ++ mjoin (map tenantIdentifiers service) ++ [globalRejection].

Lemma allEntries_fst control ta tb globalRejection :
  map fst (allEntries control [ta; tb] globalRejection) = allIdentifiers control [ta; tb] globalRejection.
Proof. unfold allEntries, allIdentifiers. cbn. rewrite !map_app, !tenantEntries_fst. by rewrite !app_nil_r. Qed.

Lemma addAll_runs control ta tb globalRejection rest :
  length (tj_service ta) = ciServiceRequestsPerTenant -> length (tj_service tb) = ciServiceRequestsPerTenant ->
  addAll profile (mkBuilder (allIdentifiers control [ta; tb] globalRejection ++ rest) ∅)
  = Done ((control, [ta; tb], globalRejection), mkBuilder rest (jobsOf (allEntries control [ta; tb] globalRejection))).
Proof.
  intros Ha Hb. unfold addAll, allIdentifiers. change (∅ : gmap Z saturationJob) with (jobsOf []).
  cbn [map mjoin list_join app]. rewrite !app_nil_r. unfold mbind, M_bind. rewrite add_runs.
  cbn [addTenants serviceTenants]. unfold mbind, M_bind. rewrite <- !app_assoc. rewrite addTenant_runs by done.
  rewrite addTenant_runs by done. cbn [app]. cbv beta iota delta [mret M_ret]. rewrite add_runs.
  unfold allEntries. cbn [zip_with serviceTenants mjoin list_join app]. rewrite !app_nil_r, <- !app_assoc. done.
Qed.
End entries.

(** ** The workload of those jobs *)

Lemma map_replicate {A B} (f : A -> B) y l : Forall (fun x => f x = y) l -> map f l = replicate (length l) y.
Proof. induction 1 as [|x l Hx _ IH]; cbn; [done|]. by rewrite Hx, IH. Qed.

Section built.
Context (profile : saturationProfile) (c g : Z) (ta tb : tenantJobs).

Let E := allEntries profile c [ta; tb] g.
Let jobs := jobsOf E.

(** Distinct identifiers, ten service jobs for each tenant, and a queue deadline
    that a header can hold. *)
Record drawn : Prop := {
  dr_NoDup : NoDup (allIdentifiers c [ta; tb] g);
  dr_range : forall identifier, identifier ∈ allIdentifiers c [ta; tb] g -> identifier ∈ identifiers_all;
  dr_lena : length (tj_service ta) = ciServiceRequestsPerTenant;
  dr_lenb : length (tj_service tb) = ciServiceRequestsPerTenant;
  dr_deadline : u64 (pf_queueDeadline profile ÷ time_Millisecond) <> 0;
}.

Context (Hdr : drawn).

Lemma entries_NoDup : NoDup (map fst (reverse E)).
Proof.
  change (NoDup ((reverse E).*1)). rewrite fmap_reverse, reverse_Permutation.
  change (NoDup (map fst E)). unfold E. rewrite allEntries_fst. apply Hdr.
Qed.

Lemma entry_lookup identifier job : (identifier, job) ∈ E -> jobs !! identifier = Some job.
Proof.
  intros Hin. apply elem_of_list_to_map_1; [apply entries_NoDup|]. by rewrite reverse_Permutation.
Qed.

Lemma jobs_list : map_to_list jobs ≡ₚ E.
Proof. unfold jobs, jobsOf. rewrite map_to_list_to_map by apply entries_NoDup. apply reverse_Permutation. Qed.

Lemma jobs_size : size jobs = ciTotalRequestCount.
Proof.
  rewrite <- length_map_to_list, jobs_list. rewrite <- (length_map fst). unfold E. rewrite allEntries_fst.
  unfold allIdentifiers, tenantIdentifiers. cbn. rewrite !app_nil_r, !length_app. cbn.
  rewrite (dr_lena Hdr), (dr_lenb Hdr). done.
Qed.

(** The tenants, by position. *)
Lemma service_tenant tenantIndex tenant : serviceTenants !! tenantIndex = Some tenant ->
  serviceTenantIndex (td_id tenant) = Some tenantIndex.
Proof. destruct tenantIndex as [|[|]]; cbn; intros [= <-]; done. Qed.

Lemma entry_service tenantIndex tenant identifier kind stream :
  serviceTenants !! tenantIndex = Some tenant ->
  (identifier, makeSaturationJob identifier tenant kind stream profile) ∈ E ->
  service_job jobs kind identifier /\ tenantOf jobs identifier = tenantIndex.
Proof.
  intros Htn Hin. apply entry_lookup in Hin as Hjob.
  assert (Ht : tenantOf jobs identifier = tenantIndex).
  { unfold tenantOf, jobOf. rewrite Hjob. cbn. by rewrite (service_tenant _ _ Htn). }
  split; [|done]. unfold service_job. rewrite Ht. eexists. split; [exact Hjob|].
  cbn. by rewrite (service_tenant _ _ Htn).
Qed.

Lemma serviceEntries_elem tenant service identifier : identifier ∈ service ->
  exists stream, (identifier, makeSaturationJob identifier tenant jobService stream profile) ∈ serviceEntries profile tenant service.
Proof.
  induction service as [|i service IH]; intros Hin; [by apply not_elem_of_nil in Hin|].
  apply elem_of_cons in Hin as [->|Hin]; [eexists; left|]. destruct (IH Hin) as [st Hst]. exists st. by right.
Qed.

Lemma tenantEntries_sub tenantIndex tenant t : serviceTenants !! tenantIndex = Some tenant -> [ta; tb] !! tenantIndex = Some t ->
  forall entry, entry ∈ tenantEntries profile tenant t -> entry ∈ E.
Proof.
  intros Htn Ht entry Hin. unfold E, allEntries. cbn. apply elem_of_cons. right. rewrite app_nil_r.
  apply elem_of_app. left. apply elem_of_app. destruct tenantIndex as [|[|]]; cbn in *; simplify_eq; auto.
Qed.

(** What the jobs of one tenant are. *)
Lemma tenant_jobs tenantIndex t : [ta; tb] !! tenantIndex = Some t ->
  Forall (fun identifier => service_job jobs jobService identifier /\ tenantOf jobs identifier = tenantIndex) (tj_service t)
  /\ (service_job jobs jobCancel (tj_cancel t) /\ tenantOf jobs (tj_cancel t) = tenantIndex)
  /\ (service_job jobs jobDeadline (tj_deadline t) /\ tenantOf jobs (tj_deadline t) = tenantIndex)
  /\ (service_job jobs jobReject (tj_reject t) /\ tenantOf jobs (tj_reject t) = tenantIndex).
Proof.
  intros Ht. destruct (lookup_lt_is_Some_2 serviceTenants tenantIndex) as [tenant Htn].
  { apply lookup_lt_Some in Ht. cbn in *. lia. }
  pose proof (tenantEntries_sub _ _ _ Htn Ht) as Hsub.
  assert (Htail : forall entry, entry ∈ [(tj_cancel t, makeSaturationJob (tj_cancel t) tenant jobCancel false profile);
    (tj_deadline t, makeSaturationJob (tj_deadline t) tenant jobDeadline false profile);
    (tj_reject t, makeSaturationJob (tj_reject t) tenant jobReject false profile)] -> entry ∈ E).
  { intros entry Hin. apply Hsub. unfold tenantEntries. apply elem_of_app. by right. }
  split; [|split_and!]; try (eapply entry_service; [done|apply Htail]; repeat constructor; fail).
  - apply Forall_forall. intros identifier Hin. destruct (serviceEntries_elem tenant _ _ Hin) as [st Hst].
    eapply entry_service; [done|]. apply Hsub. unfold tenantEntries. apply elem_of_app. left. exact Hst.
Qed.

(** A phase: jobs of one kind, of these tenants. *)
Definition phase_of (kind : jobKind) (tenants : list nat) (identifiers : list Z) : Prop :=
  Forall (service_job jobs kind) identifiers /\ map (tenantOf jobs) identifiers ≡ₚ tenants.

Lemma phase_Permutation kind tenants l k : l ≡ₚ k -> phase_of kind tenants k -> phase_of kind tenants l.
Proof. intros Hp [Hf Hm]. split; [by rewrite Hp|]. etrans; [|exact Hm]. by apply Permutation_map. Qed.

Lemma phase_service tenantIndex t l : [ta; tb] !! tenantIndex = Some t -> (forall identifier, identifier ∈ l -> identifier ∈ tj_service t) ->
  phase_of jobService (replicate (length l) tenantIndex) l.
Proof.
  intros Ht Hl. destruct (tenant_jobs _ _ Ht) as [Hs _].
  assert (Hall : Forall (fun identifier => service_job jobs jobService identifier /\ tenantOf jobs identifier = tenantIndex) l).
  { apply Forall_forall. intros identifier Hin. by apply (proj1 (Forall_forall _ _) Hs), Hl. }
  split; [by eapply Forall_impl; [exact Hall|intros ? []]|].
  rewrite (map_replicate _ tenantIndex); [done|]. by eapply Forall_impl; [exact Hall|intros ? []].
Qed.

Lemma phase_app kind ts us l k : phase_of kind ts l -> phase_of kind us k -> phase_of kind (ts ++ us) (l ++ k).
Proof. intros [H1 H2] [H3 H4]. split; [by apply Forall_app|]. rewrite map_app. by apply Permutation_app. Qed.

Lemma phase_pair kind i j : service_job jobs kind i /\ tenantOf jobs i = 0%nat -> service_job jobs kind j /\ tenantOf jobs j = 1%nat ->
  phase_of kind [0%nat; 1%nat] [i; j].
Proof. intros [Hi Hti] [Hj Htj]. split; [by repeat constructor|]. cbn [map]. by rewrite Hti, Htj. Qed.

Definition initial0 : list Z := take ciInitialServicePerTenant (tj_service ta) ++ take ciInitialServicePerTenant (tj_service tb).
Definition late0 : list Z := drop ciInitialServicePerTenant (tj_service ta) ++ drop ciInitialServicePerTenant (tj_service tb).

Lemma initial0_phase : phase_of jobService (replicate 8 0%nat ++ replicate 8 1%nat) initial0.
Proof.
  pose proof (dr_lena Hdr) as Ha. pose proof (dr_lenb Hdr) as Hb. unfold ciServiceRequestsPerTenant in *.
  apply phase_app.
  - replace 8%nat with (length (take ciInitialServicePerTenant (tj_service ta))) by (rewrite length_take, Ha; done).
    apply (phase_service 0 ta); [done|]. intros identifier Hin. eapply elem_of_sublist; [exact Hin|apply sublist_take].
  - replace 8%nat with (length (take ciInitialServicePerTenant (tj_service tb))) by (rewrite length_take, Hb; done).
    apply (phase_service 1 tb); [done|]. intros identifier Hin. eapply elem_of_sublist; [exact Hin|apply sublist_take].
Qed.

Lemma late0_phase : phase_of jobService (replicate 2 0%nat ++ replicate 2 1%nat) late0.
Proof.
  pose proof (dr_lena Hdr) as Ha. pose proof (dr_lenb Hdr) as Hb. unfold ciServiceRequestsPerTenant in *.
  apply phase_app.
  - replace 2%nat with (length (drop ciInitialServicePerTenant (tj_service ta))) by (rewrite length_drop, Ha; done).
    apply (phase_service 0 ta); [done|]. intros identifier Hin. eapply elem_of_sublist; [exact Hin|apply sublist_drop].
  - replace 2%nat with (length (drop ciInitialServicePerTenant (tj_service tb))) by (rewrite length_drop, Hb; done).
    apply (phase_service 1 tb); [done|]. intros identifier Hin. eapply elem_of_sublist; [exact Hin|apply sublist_drop].
Qed.

Lemma recordPhase_phase kind tenants l ph : phase_of kind tenants l -> NoDup l ->
  (forall identifier, identifier ∈ l -> identifier ∉ ph_seen ph) ->
  recordPhase jobs l kind ph = Some (mkPhases (list_to_set l ∪ ph_seen ph)
    (foldl (fun counts tenantIndex => countKind tenantIndex kind counts) (ph_counts ph) tenants)).
Proof.
  intros [Hf Hm] Hnd Hs. rewrite recordPhase_spec by done. f_equal. f_equal.
  apply foldl_Permutation; [|done]. intros counts i j. apply countKind_comm.
Qed.

(** The jobs as they are checked one by one. *)
Definition as_checked (w : seededWorkload) : Prop :=
  wl_jobs w = jobs /\ wl_control w = c /\ wl_globalRejection w = g
  /\ wl_initialService w ≡ₚ initial0 /\ wl_lateService w ≡ₚ late0
  /\ wl_cancellations w ≡ₚ [tj_cancel ta; tj_cancel tb]
  /\ wl_deadlines w ≡ₚ [tj_deadline ta; tj_deadline tb]
  /\ wl_rejections w ≡ₚ [tj_reject ta; tj_reject tb]
  /\ wl_serviceQueues w = expectedQueues jobs (wl_initialService w ++ wl_lateService w) (replicate (length serviceTenants) []).

Lemma made_fine w identifier tenant kind stream : identifier ∈ identifiers_all ->
  (stream = true -> kind = jobService) ->
  match kind with
  | jobControl => identifier = wl_control w /\ tenant = controlTenant
  | jobGlobalReject => identifier = wl_globalRejection w /\ tenant = globalProbeTenant
  | jobUnset => False
  | _ => exists tenantIndex, serviceTenants !! tenantIndex = Some tenant
  end ->
  job_fine w identifier (makeSaturationJob identifier tenant kind stream profile).
Proof.
  intros Hid Hst Hk. destruct (job_sizes identifier tenant kind stream profile Hid) as (Hlen & Hw & Hmax).
  split_and!; try done; try lia; try (apply identifiers_range in Hid; unfold ciMaximumCompletionTokens in *; lia).
  - unfold makeSaturationJob. cbn [job_kind job_queueTimeoutMS]. split; [intros ->; apply Hdr|].
    case_bool_decide; [done|]. done.
  - cbn [makeSaturationJob job_kind job_tenant]. destruct kind; try done;
      destruct Hk as [ti Hti]; exists ti; (split; [by apply service_tenant|done]).
Qed.

Lemma serviceEntries_made tenant service entry : entry ∈ serviceEntries profile tenant service ->
  exists identifier stream, identifier ∈ service /\ entry = (identifier, makeSaturationJob identifier tenant jobService stream profile).
Proof.
  induction service as [|i service IH]; intros Hin; [by apply not_elem_of_nil in Hin|].
  apply elem_of_cons in Hin as [->|Hin]; [eexists _, _; split; [left|done]|].
  destruct (IH Hin) as (id & st & Hid & ->). eexists _, _. split; [right; exact Hid|done].
Qed.

Lemma entries_range entry : entry ∈ E -> fst entry ∈ identifiers_all.
Proof.
  intros Hin. apply (dr_range Hdr). rewrite <- (allEntries_fst profile). apply list_elem_of_fmap. by exists entry.
Qed.

Lemma entries_fine w : as_checked w -> Forall (fun entry => job_fine w (fst entry) (snd entry)) E.
Proof.
  intros (_ & Hc & Hg & _). apply Forall_forall. intros entry Hin. pose proof (entries_range entry Hin) as Hr.
  unfold E, allEntries in Hin. cbn in Hin. rewrite app_nil_r in Hin.
  apply elem_of_cons in Hin as [->|Hin]; [by apply made_fine|].
  rewrite <- app_assoc in Hin. apply elem_of_app in Hin as [Hin|Hin]; [|apply elem_of_app in Hin as [Hin|Hin]];
    [| |apply list_elem_of_singleton in Hin as ->; by apply made_fine].
  all: apply elem_of_app in Hin as [Hin|Hin].
  1, 3: apply serviceEntries_made in Hin as (identifier & st & _ & ->); apply made_fine; [done|done|].
  1: by exists 0%nat.
  1: by exists 1%nat.
  all: repeat (apply elem_of_cons in Hin as [->|Hin]); try (by apply not_elem_of_nil in Hin).
  all: apply made_fine; try done; (by exists 0%nat) || (by exists 1%nat).
Qed.

Lemma serviceEntries_streams tenantIndex tenant service : serviceTenants !! tenantIndex = Some tenant -> service <> [] ->
  mjoin (map (fun entry => streamOf (snd entry)) (serviceEntries profile tenant service)) = [tenantIndex].
Proof.
  intros Htn. induction service as [|i [|j service] IH]; intros Hne; [done| |].
  - cbn. by rewrite (service_tenant _ _ Htn).
  - etransitivity; [|by apply IH]. done.
Qed.

Lemma entries_streams : mjoin (map (fun entry => streamOf (snd entry)) E) = [0%nat; 1%nat].
Proof.
  pose proof (dr_lena Hdr) as Ha. pose proof (dr_lenb Hdr) as Hb.
  assert (Hta : tj_service ta <> []) by (intros Hn; by rewrite Hn in Ha).
  assert (Htb : tj_service tb <> []) by (intros Hn; by rewrite Hn in Hb).
  unfold E, allEntries, tenantEntries. cbn [zip_with serviceTenants mjoin list_join]. rewrite !app_nil_r, !map_app, !join_app.
  rewrite (serviceEntries_streams 0), (serviceEntries_streams 1) by done. done.
Qed.

(** The phases are the jobs, each once. *)
Lemma phases_Permutation w : as_checked w ->
  wl_rejections w ++ wl_lateService w ++ wl_deadlines w ++ wl_cancellations w ++ wl_initialService w ++ [g; c]
  ≡ₚ allIdentifiers c [ta; tb] g.
Proof.
  intros (_ & _ & _ & H1 & H2 & H3 & H4 & H5 & _). rewrite H1, H2, H3, H4, H5. unfold initial0, late0, allIdentifiers, tenantIdentifiers. cbn.
  rewrite app_nil_r. pose proof (take_drop 8%nat (tj_service ta)) as Ha.
  pose proof (take_drop 8%nat (tj_service tb)) as Hb. revert Ha Hb.
  generalize (take 8%nat (tj_service ta)), (drop 8%nat (tj_service ta)),
    (take 8%nat (tj_service tb)), (drop 8%nat (tj_service tb)).
  intros a1 a2 b1 b2 <- <-. solve_Permutation.
Qed.

Lemma phase_length kind tenants l : phase_of kind tenants l -> length l = length tenants.
Proof. intros [_ Hm]. rewrite <- (length_map (tenantOf jobs)). by rewrite Hm. Qed.

(** A phase on top of what was recorded. *)
Lemma recordPhase_next kind tenants l k counts : phase_of kind tenants l -> NoDup (l ++ k) ->
  recordPhase jobs l kind (mkPhases (list_to_set k) counts) = Some (mkPhases (list_to_set (l ++ k))
    (foldl (fun counts tenantIndex => countKind tenantIndex kind counts) counts tenants)).
Proof.
  intros Hph Hnd. apply NoDup_app in Hnd as (Hl & Hlk & _). rewrite (recordPhase_phase kind tenants) by
    (try done; intros identifier Hin; cbn; rewrite elem_of_list_to_set; by apply Hlk).
  by rewrite list_to_set_app_L.
Qed.

Lemma recordSingle_next identifier kind tenant k counts :
  (identifier, makeSaturationJob identifier tenant kind false profile) ∈ E -> NoDup (identifier :: k) ->
  recordSingle jobs identifier kind tenant (mkPhases (list_to_set k) counts) = Some (mkPhases (list_to_set (identifier :: k)) counts).
Proof.
  intros Hin Hnd. apply NoDup_cons in Hnd as [Hk _]. unfold recordSingle. rewrite (entry_lookup _ _ Hin). cbn.
  rewrite !bool_decide_eq_true_2 by done. cbn. by rewrite bool_decide_eq_false_2 by (by rewrite elem_of_list_to_set).
Qed.

(** The counts that the phases come to. *)
Definition builtCounts : list (list Z) := [[0; 0; 10; 1; 1; 1]; [0; 0; 10; 1; 1; 1]].

Lemma queues_length w tenantIndex : as_checked w -> (tenantIndex < length serviceTenants)%nat ->
  length (default [] (wl_serviceQueues w !! tenantIndex)) = ciServiceRequestsPerTenant.
Proof.
  intros (_ & _ & _ & Hi & Hl & _ & _ & _ & ->) Hlt. rewrite expectedQueues_lookup, lookup_replicate_2 by done.
  cbn [fmap option_fmap option_map default app from_option id].
  assert (Hph : phase_of jobService ((replicate 8 0%nat ++ replicate 8 1%nat) ++ (replicate 2 0%nat ++ replicate 2 1%nat))
    (wl_initialService w ++ wl_lateService w)).
  { apply phase_app; [eapply phase_Permutation; [exact Hi|apply initial0_phase]|eapply phase_Permutation; [exact Hl|apply late0_phase]]. }
  destruct Hph as [_ Hm].
  assert (Hlen : length (filter (fun t => t = tenantIndex) (map (tenantOf jobs) (wl_initialService w ++ wl_lateService w)))
                 = ciServiceRequestsPerTenant).
  { rewrite Hm. destruct tenantIndex as [|[|]]; cbn in Hlt; [vm_compute; reflexivity..|lia]. }
  rewrite <- Hlen. generalize (wl_initialService w ++ wl_lateService w). intros l.
  induction l as [|identifier l IH]; [done|]. cbn [map]. rewrite !filter_cons.
  destruct (decide (tenantOf jobs identifier = tenantIndex)); cbn [length]; [f_equal|]; exact IH.
Qed.

Lemma checkJobs_built w : as_checked w ->
  checkJobs w (replicate (length serviceTenants) 0) (map_to_list jobs) = Some [1; 1].
Proof.
  intros Hw. rewrite checkJobs_spec by (rewrite jobs_list; by apply entries_fine).
  rewrite (foldl_Permutation countStream _ [0%nat; 1%nat]); [done|intros; apply list_alter_comm|].
  rewrite <- entries_streams. by rewrite jobs_list.
Qed.

Lemma countsFine_built w : as_checked w ->
  forallb (countsFine w [1; 1] builtCounts) (seq 0 (length serviceTenants)) = true.
Proof.
  intros Hw. apply forallb_elem. intros tenantIndex Hin. apply list_elem_of_In, in_seq in Hin.
  unfold countsFine. rewrite queues_length by (done || lia). cbn in Hin.
  destruct tenantIndex as [|[|]]; [vm_compute; reflexivity..|lia].
Qed.

Lemma checkWorkload_runs w : as_checked w -> checkWorkload w = Some tt.
Proof.
  intros Hw. pose proof Hw as (Hj & Hc & Hg & Hi & Hl & Hca & Hd & Hr & Hq).
  pose proof (phase_Permutation _ _ _ _ Hi initial0_phase) as Pi.
  pose proof (phase_Permutation _ _ _ _ Hl late0_phase) as Pl.
  destruct (tenant_jobs 0 ta eq_refl) as (_ & Ca & Da & Ra), (tenant_jobs 1 tb eq_refl) as (_ & Cb & Db & Rb).
  pose proof (phase_Permutation _ _ _ _ Hca (phase_pair _ _ _ Ca Cb)) as Pc.
  pose proof (phase_Permutation _ _ _ _ Hd (phase_pair _ _ _ Da Db)) as Pd.
  pose proof (phase_Permutation _ _ _ _ Hr (phase_pair _ _ _ Ra Rb)) as Pr.
  pose proof (phases_Permutation w Hw) as Hperm.
  assert (Hnd : NoDup (wl_rejections w ++ wl_lateService w ++ wl_deadlines w ++ wl_cancellations w ++ wl_initialService w ++ [g; c]))
    by (rewrite Hperm; apply Hdr).
  unfold checkWorkload. rewrite Hj, Hc, Hg, jobs_size.
  rewrite (phase_length _ _ _ Pi), (phase_length _ _ _ Pl), (phase_length _ _ _ Pc), (phase_length _ _ _ Pd), (phase_length _ _ _ Pr).
  replace (_ || _) with false by (vm_compute; reflexivity).
  pose proof Hnd as (_ & _ & Hn1)%NoDup_app. pose proof Hn1 as (_ & _ & Hn2)%NoDup_app.
  pose proof Hn2 as (_ & _ & Hn3)%NoDup_app. pose proof Hn3 as (_ & _ & Hn4)%NoDup_app. pose proof Hn4 as (_ & _ & Hn5)%NoDup_app.
  pose proof Hn5 as [_ Hn6]%NoDup_cons.
  change (∅ : gset Z) with (list_to_set (C := gset Z) (@nil Z)).
  rewrite (recordSingle_next c jobControl controlTenant []) by (done || left).
  cbn [mbind option_bind]. rewrite (recordSingle_next g jobGlobalReject globalProbeTenant [c]).
  2:{ unfold E, allEntries. apply elem_of_app. right. apply elem_of_app. right. left. }
  2:{ done. }
  cbn [mbind option_bind]. rewrite (recordPhase_next _ _ _ _ _ Pi Hn4). cbn [mbind option_bind].
  rewrite (recordPhase_next _ _ _ _ _ Pc Hn3). cbn [mbind option_bind].
  rewrite (recordPhase_next _ _ _ _ _ Pd Hn2). cbn [mbind option_bind].
  rewrite (recordPhase_next _ _ _ _ _ Pl Hn1). cbn [mbind option_bind].
  rewrite (recordPhase_next _ _ _ _ _ Pr Hnd). cbn [mbind option_bind ph_seen ph_counts].
  rewrite size_list_to_set, Hperm, <- (allEntries_fst profile), length_map by done. fold E.
  rewrite <- jobs_list, length_map_to_list, jobs_size, Nat.eqb_refl. cbn [negb].
  rewrite checkJobs_built by done. cbn [mbind option_bind].
  match goal with |- context [countsFine w _ ?counts] => change counts with builtCounts end.
  by rewrite countsFine_built by done.
Qed.
End built.

(** ** Building a workload *)

(** A list of identifiers that is long enough, by the jobs that take them. *)
Lemma identifiers_split (l : list Z) : (28 <= length l)%nat ->
  exists c ta tb g rest, l = allIdentifiers c [ta; tb] g ++ rest
    /\ length (tj_service ta) = ciServiceRequestsPerTenant /\ length (tj_service tb) = ciServiceRequestsPerTenant.
Proof.
  intros Hlen. do 28 (destruct l as [|? l]; [cbn in Hlen; lia|]).
  eexists _, (mkTenantJobs [_; _; _; _; _; _; _; _; _; _] _ _ _), (mkTenantJobs [_; _; _; _; _; _; _; _; _; _] _ _ _), _, l.
  split; [reflexivity|]. by split.
Qed.

(** A profile that the builder accepts, whose queue deadline fits its header. *)
Definition profile_fine (profile : saturationProfile) : Prop :=
  pf_name profile = ciProfileName /\ 0 < pf_queueDeadline profile < pf_defaultQueueTimeout profile
  /\ u64 (pf_queueDeadline profile ÷ time_Millisecond) <> 0.

Lemma buildSeededWorkload_built profile seed : profile_fine profile ->
  exists w c g ta tb, buildSeededWorkload seed profile = Done (Ok w)
    /\ drawn profile c g ta tb /\ as_checked profile c g ta tb w /\ wl_seed w = seed
    /\ validateSeededWorkload w = Done (Ok tt).
Proof.
  intros (Hn & Hd & Hms). unfold buildSeededWorkload. rewrite bool_decide_eq_true_2 by done.
  rewrite (proj2 (Z.leb_gt _ _)), (proj2 (Z.leb_gt _ _)) by lia. cbn [negb orb].
  pose proof (shuffle_Permutation seed identifiers_all) as Hp. fold identifiers_all.
  destruct (shuffle seed identifiers_all) as [generator l]. cbn [snd] in Hp.
  destruct (identifiers_split l) as (c & ta & tb & g & rest & -> & Ha & Hb); [rewrite Hp; vm_compute; lia|].
  rewrite addAll_runs by done. pose proof identifiers_NoDup as Hnd. rewrite <- Hp in Hnd.
  assert (Hdr : drawn profile c g ta tb).
  { split; try done; [by apply NoDup_app in Hnd as [? _]|]. intros identifier Hin. rewrite <- Hp. apply elem_of_app. by left. }
  cbn [map mjoin list_join bd_jobs]. rewrite !app_nil_r. fold (initial0 ta tb) (late0 ta tb).
  pose proof (shuffle_Permutation generator (initial0 ta tb)) as H1.
  destruct (shuffle generator (initial0 ta tb)) as [generator1 initial]. cbn [snd] in H1.
  pose proof (shuffle_Permutation generator1 [tj_cancel ta; tj_cancel tb]) as H2.
  destruct (shuffle generator1 [tj_cancel ta; tj_cancel tb]) as [generator2 cancellations]. cbn [snd] in H2.
  pose proof (shuffle_Permutation generator2 [tj_deadline ta; tj_deadline tb]) as H3.
  destruct (shuffle generator2 [tj_deadline ta; tj_deadline tb]) as [generator3 deadlines]. cbn [snd] in H3.
  pose proof (shuffle_Permutation generator3 (late0 ta tb)) as H4.
  destruct (shuffle generator3 (late0 ta tb)) as [generator4 late]. cbn [snd] in H4.
  pose proof (shuffle_Permutation generator4 [tj_reject ta; tj_reject tb]) as H5.
  destruct (shuffle generator4 [tj_reject ta; tj_reject tb]) as [generator5 rejections]. cbn [snd] in H5.
  assert (Hjobs : Forall (service_job (jobsOf (allEntries profile c [ta; tb] g)) jobService) (initial ++ late)).
  { apply Forall_app. rewrite H1, H4. split; [by apply initial0_phase|by apply late0_phase]. }
  rewrite (queueByTenant_expected _ jobService) by exact Hjobs.
  set (w := mkWorkload seed c initial cancellations deadlines late rejections g _ _).
  assert (Hw : as_checked profile c g ta tb w) by (by split_and!).
  assert (Hv : validateSeededWorkload w = Done (Ok tt)).
  { unfold validateSeededWorkload. rewrite (checkWorkload_runs profile c g ta tb Hdr w Hw). unfold w. cbn [wl_jobs wl_initialService wl_lateService wl_serviceQueues].
    by rewrite sameQueues_self. }
  rewrite Hv. exists w, c, g, ta, tb. done.
Qed.
