(* ===== verification/SatOracle.v ===== *)
(** * Saturation harness: the oracle's plan

    The bound on the number of visits is enough: the plan of any well-formed
    workload dispatches every service job, each tenant's in the order of its
    queue, and describes it as it is. *)

From S2P Require Import Prelude GoHeap GoJson AdmissionConfig AdmissionOwner AdmissionInv AdmissionPump SatWorkload SatSeeded.

(** ** Well-formed states *)

Definition served_job (jobs : gmap Z saturationJob) (tenant : tenantDefinition) (identifier : Z) : Prop :=
  exists job, jobs !! identifier = Some job /\ job_id job = identifier /\ job_kind job = jobService
    /\ job_tenant job = tenant /\ 0 < job_workUnits job <= ciMaximumRequestUnits.

Definition oracle_quantum (t : oracleTenant) : Z := ciBaseQuantum * td_weight (ot_definition t).

Definition oracle_tenant_fine (jobs : gmap Z saturationJob) (t : oracleTenant) : Prop :=
  Forall (served_job jobs (ot_definition t)) (ot_queue t) /\ 0 <= ot_deficit t <= ciDeficitCap.

(** What was dispatched of one tenant. *)
Definition dispatchedBy (tenant : tenantDefinition) (trace : list oracleDispatch) : list Z :=
  map od_identifier (filter (fun d => rec_Tenant (od_record d) = td_label tenant) trace).

Definition described (jobs : gmap Z saturationJob) (position : nat) (d : oracleDispatch) : Prop :=
  exists job, jobs !! od_identifier d = Some job /\ job_kind job = jobService
    /\ od_record d = mkRecord (Z.of_nat (S position)) (td_label (job_tenant job)) (td_weight (job_tenant job))
                       (job_workUnits job) (job_mode job).

Record oracle_inv (jobs : gmap Z saturationJob) (queues : list (list Z)) (o : oracleState) : Prop := {
  oi_definitions : map ot_definition (or_tenants o) = serviceTenants;
  oi_cursor : (or_cursor o < length (or_tenants o))%nat;
  oi_remaining : or_remaining o = sum_list (map (fun t => length (ot_queue t)) (or_tenants o));
  oi_tenants : Forall (oracle_tenant_fine jobs) (or_tenants o);
  oi_fifo : forall i t, or_tenants o !! i = Some t ->
    queues !! i = Some (dispatchedBy (ot_definition t) (or_trace o) ++ ot_queue t);
  oi_trace : forall k d, or_trace o !! k = Some d -> described jobs k d;
  oi_total : (length (or_trace o) + or_remaining o = sum_list (map length queues))%nat;
  oi_small : Z.of_nat (sum_list (map length queues)) < two64 - 1;
}.

(** ** The measure *)

(** The visits that end without the head of the queue being funded. *)
Definition oracle_need (jobs : gmap Z saturationJob) (t : oracleTenant) : Z :=
  match ot_queue t with
  | [] => 0
  | identifier :: rest =>
      (if ot_visitOpen t then 1 else 0)
      + ceil_div (Z.max 0 (job_workUnits (jobOf jobs identifier) - ot_deficit t)) (oracle_quantum t)
      + 4 * Z.of_nat (length rest)
  end.

Definition idle_turn (o : oracleState) : Z :=
  match or_tenants o !! or_cursor o with Some t => if decide (ot_queue t = []) then 1 else 0 | None => 0 end.

Definition oracle_mu (jobs : gmap Z saturationJob) (o : oracleState) : Z :=
  2 * sumZ (oracle_need jobs) (or_tenants o) + 2 * Z.of_nat (or_remaining o) + idle_turn o.

Lemma idle_turn_bounds o : 0 <= idle_turn o <= 1.
Proof. unfold idle_turn. repeat case_match; lia. Qed.

Section oracle.
Context (jobs : gmap Z saturationJob) (queues : list (list Z)).

Lemma two_tenants o : map ot_definition (or_tenants o) = serviceTenants -> length (or_tenants o) = 2%nat.
Proof. intros Hd. rewrite <- (length_map ot_definition), Hd. done. Qed.

Lemma quantum_range t : ot_definition t ∈ serviceTenants -> ciBaseQuantum <= oracle_quantum t <= 384.
Proof.
  unfold oracle_quantum, ciBaseQuantum. intros Hin.
  repeat (apply elem_of_cons in Hin as [->|Hin]; [cbn; lia|]). by apply not_elem_of_nil in Hin.
Qed.

Lemma boundedOracleAdd_spec value addition : 0 <= value <= ciDeficitCap -> 0 <= addition <= 384 ->
  boundedOracleAdd value addition ciDeficitCap = Z.min (value + addition) ciDeficitCap.
Proof.
  unfold boundedOracleAdd, ciDeficitCap. intros Hv Ha.
  rewrite !u64_small by (unfold is_u64, two64; lia).
  destruct (Z.leb_spec 768 value), (Z.ltb_spec (768 - value) addition); cbn; lia.
Qed.

Lemma oracle_fund_spec t : oracle_tenant_fine jobs t -> ot_definition t ∈ serviceTenants ->
  ot_visitOpen (oracle_fund t) = true /\ ot_queue (oracle_fund t) = ot_queue t
  /\ ot_definition (oracle_fund t) = ot_definition t
  /\ ot_deficit (oracle_fund t) = (if ot_visitOpen t then ot_deficit t else Z.min (ot_deficit t + oracle_quantum t) ciDeficitCap)
  /\ oracle_tenant_fine jobs (oracle_fund t).
Proof.
  intros [Hq Hd] Hin. pose proof (quantum_range t Hin) as Hr. unfold oracle_fund.
  assert (ciBaseQuantum *u td_weight (ot_definition t) = oracle_quantum t) as ->.
  { apply u64_small. unfold is_u64, two64, oracle_quantum, ciBaseQuantum in *. lia. }
  destruct (ot_visitOpen t) eqn:Ho; cbn [ot_visitOpen ot_queue ot_definition ot_deficit]; [by split_and!|].
  rewrite boundedOracleAdd_spec by (unfold ciBaseQuantum in *; lia). split_and!; try done.
  split; [done|]. cbn. unfold ciBaseQuantum, ciDeficitCap in *. lia.
Qed.

Lemma need_nonneg t : oracle_tenant_fine jobs t -> ot_definition t ∈ serviceTenants -> 0 <= oracle_need jobs t.
Proof.
  intros _ Hin. pose proof (quantum_range t Hin). unfold oracle_need. destruct (ot_queue t); [done|].
  pose proof (ceil_div_nonneg (Z.max 0 (job_workUnits (jobOf jobs z) - ot_deficit t)) (oracle_quantum t) ltac:(lia)).
  unfold ciBaseQuantum in *. destruct (ot_visitOpen t); lia.
Qed.

(** *** Changing one tenant, and moving on *)

Lemma tenant_definition o i t : oracle_inv jobs queues o -> or_tenants o !! i = Some t ->
  serviceTenants !! i = Some (ot_definition t) /\ ot_definition t ∈ serviceTenants.
Proof.
  intros HI Ht. assert (serviceTenants !! i = Some (ot_definition t)) as Hd.
  { rewrite <- (oi_definitions _ _ _ HI). change (map ot_definition (or_tenants o)) with (ot_definition <$> or_tenants o).
    rewrite list_lookup_fmap, Ht. done. }
  split; [done|]. by eapply list_elem_of_lookup_2.
Qed.

(** A tenant whose credit has changed. *)
Lemma inv_set o t t' : oracle_inv jobs queues o -> or_tenants o !! or_cursor o = Some t ->
  ot_definition t' = ot_definition t -> ot_queue t' = ot_queue t -> oracle_tenant_fine jobs t' ->
  oracle_inv jobs queues (oracle_set o t').
Proof.
  intros [] Ht Hd Hq Hf. split; cbn; try done.
  - rewrite list_fmap_insert. change (ot_definition <$> or_tenants o) with (map ot_definition (or_tenants o)).
    rewrite oi_definitions0, Hd. apply list_insert_id. rewrite <- oi_definitions0. by apply list_lookup_fmap_Some_2.
  - by rewrite length_insert.
  - rewrite oi_remaining0. f_equal. rewrite list_fmap_insert, Hq. symmetry. apply list_insert_id.
    change (map (fun t => length (ot_queue t)) (or_tenants o)) with ((fun t => length (ot_queue t)) <$> or_tenants o).
    by rewrite list_lookup_fmap, Ht.
  - by apply Forall_insert.
  - intros i u Hi. apply list_lookup_insert_Some in Hi as [(<- & <- & _)|[_ Hi]]; [|by apply oi_fifo0].
    rewrite Hd, Hq. by apply oi_fifo0.
Qed.

Lemma inv_advance o : oracle_inv jobs queues o -> oracle_inv jobs queues (oracle_advance o).
Proof. intros []. split; cbn; try done. apply Nat.mod_upper_bound. lia. Qed.

Lemma labels_distinct i j t u : serviceTenants !! i = Some t -> serviceTenants !! j = Some u ->
  td_label t = td_label u -> i = j.
Proof. destruct i as [|[|]], j as [|[|]]; cbn; intros [= <-] [= <-]; done. Qed.

Lemma dispatchedBy_snoc tenant trace d :
  dispatchedBy tenant (trace ++ [d]) = dispatchedBy tenant trace
    ++ (if decide (rec_Tenant (od_record d) = td_label tenant) then [od_identifier d] else []).
Proof. unfold dispatchedBy. rewrite filter_app, map_app, filter_cons, filter_nil. by case_decide. Qed.

Lemma sum_list_insert (f : oracleTenant -> nat) i t t' l : l !! i = Some t ->
  (sum_list (map f (<[i := t']> l)) + f t = sum_list (map f l) + f t')%nat.
Proof.
  revert i. induction l as [|u l IH]; intros [|i]; cbn; intros Hi; [done|done|by simplify_eq; lia|].
  specialize (IH i Hi). unfold insert in *. cbn in *. lia.
Qed.

(** A request of the tenant at the cursor is dispatched. *)
Definition oracle_served (o : oracleState) (t : oracleTenant) (job : saturationJob) (t' : oracleTenant) : oracleState :=
  oracle_set (mkOracle (or_tenants o) (or_cursor o) (pred (or_remaining o)) (or_trace o ++ [oracle_record o t job])) t'.

Lemma inv_serve o t identifier rest job t' : oracle_inv jobs queues o -> or_tenants o !! or_cursor o = Some t ->
  ot_queue t = identifier :: rest -> jobs !! identifier = Some job -> job_id job = identifier ->
  job_kind job = jobService -> job_tenant job = ot_definition t ->
  ot_definition t' = ot_definition t -> ot_queue t' = rest -> oracle_tenant_fine jobs t' ->
  oracle_inv jobs queues (oracle_served o t job t').
Proof.
  intros HI Ht Hq Hjob Hid Hk Htn Hd Hq' Hf. destruct (tenant_definition o _ t HI Ht) as [Hst _].
  pose proof HI as []. pose proof (sum_list_insert (fun t => length (ot_queue t)) _ t t' _ Ht) as Hsum.
  cbn beta in Hsum. rewrite Hq, Hq' in Hsum. cbn [length] in Hsum.
  assert (Hpos : u64 (Z.of_nat (length (or_trace o)) + 1) = Z.of_nat (S (length (or_trace o)))).
  { rewrite u64_small; [lia|]. unfold is_u64. lia. }
  unfold oracle_served, oracle_set. split; cbn [or_tenants or_cursor or_remaining or_trace]; try done.
  - rewrite list_fmap_insert. change (ot_definition <$> or_tenants o) with (map ot_definition (or_tenants o)).
    rewrite oi_definitions0, Hd. by apply list_insert_id.
  - by rewrite length_insert.
  - lia.
  - by apply Forall_insert.
  - intros i u Hi. rewrite dispatchedBy_snoc. cbn [oracle_record od_identifier od_record rec_Tenant].
    apply list_lookup_insert_Some in Hi as [(<- & <- & _)|[Hne Hi]].
    + rewrite Hd, decide_True by done. rewrite (oi_fifo0 _ _ Ht), Hq, Hq', Hid. by rewrite <- app_assoc.
    + rewrite decide_False; [by rewrite app_nil_r; apply oi_fifo0|]. intros Hl. apply Hne.
      destruct (tenant_definition o i u HI Hi) as [Hsu _]. by eapply labels_distinct.
  - intros k d Hkd. apply lookup_app_Some in Hkd as [Hkd|[Hlen Hkd]]; [by apply oi_trace0|].
    apply list_lookup_singleton_Some in Hkd as [Hk0 <-]. exists job. unfold oracle_record. cbn.
    rewrite Hid, Hpos, Htn. split_and!; try done. f_equal. lia.
  - rewrite length_app. cbn. lia.
Qed.

(** *** One visit *)

(** The three ways a visit goes. *)
Inductive oracle_visited (o : oracleState) (t : oracleTenant) : oracleState -> Prop :=
| visited_empty : ot_queue t = [] ->
    oracle_visited o t (oracle_advance (oracle_set o (oracle_emptied t)))
| visited_unfunded identifier rest job : ot_queue t = identifier :: rest -> jobs !! identifier = Some job ->
    ot_deficit (oracle_fund t) < job_workUnits job ->
    oracle_visited o t (oracle_advance (oracle_set o
      (mkOracleTenant (ot_definition t) (ot_queue t) (ot_deficit (oracle_fund t)) false)))
| visited_served identifier rest job : ot_queue t = identifier :: rest -> jobs !! identifier = Some job ->
    job_workUnits job <= ot_deficit (oracle_fund t) ->
    let served := mkOracleTenant (ot_definition t) rest (ot_deficit (oracle_fund t) - job_workUnits job) true in
    oracle_visited o t
      (if decide (rest = []) then oracle_advance (oracle_served o t job (oracle_emptied served))
       else oracle_served o t job served).

Lemma served_job_at o t identifier : oracle_inv jobs queues o -> or_tenants o !! or_cursor o = Some t ->
  identifier ∈ ot_queue t -> served_job jobs (ot_definition t) identifier.
Proof.
  intros HI Ht Hin. destruct (proj1 (Forall_lookup _ _) (oi_tenants _ _ _ HI) _ _ Ht) as [Hq _].
  by eapply (proj1 (Forall_forall _ _) Hq).
Qed.

Lemma oracle_visit_visited o t : oracle_inv jobs queues o -> or_tenants o !! or_cursor o = Some t ->
  exists o', oracle_visit jobs o = Done (Some o') /\ oracle_visited o t o'.
Proof.
  intros HI Ht. destruct (tenant_definition o _ t HI Ht) as [_ Hin].
  destruct (oracle_fund_spec t) as (Hop & Hfq & Hfd & _ & _ & Hdf); [|done|].
  { exact (proj1 (Forall_lookup _ _) (oi_tenants _ _ _ HI) _ _ Ht). }
  unfold oracle_visit. rewrite Ht. destruct (ot_queue t) as [|identifier rest] eqn:Hq.
  { eexists. split; [done|by constructor]. }
  destruct (served_job_at o t identifier HI Ht) as (job & Hjob & Hid & Hk & Htn & Hu); [rewrite Hq; left|].
  rewrite Hjob, Hk, Htn, Hfd, Z.eqb_refl, bool_decide_eq_true_2 by done. cbn [negb orb].
  destruct (Z.ltb_spec (ot_deficit (oracle_fund t)) (job_workUnits job)) as [Hlt|Hle].
  { eexists. split; [done|]. rewrite Hfq, <- Hq. by econstructor. }
  rewrite Hop. assert (ot_deficit (oracle_fund t) -u job_workUnits job = ot_deficit (oracle_fund t) - job_workUnits job) as ->.
  { apply u64_small. unfold is_u64, two64, ciDeficitCap in *. lia. }
  pose proof (visited_served o t identifier rest job Hq Hjob Hle) as Hv. cbn zeta in Hv.
  assert (oracle_record o (oracle_fund t) job = oracle_record o t job) as Hrec.
  { unfold oracle_record. by rewrite Hfd. }
  rewrite Hrec. destruct rest; cbn in Hv; eexists; (split; [reflexivity|exact Hv]).
Qed.

Lemma tenant_fine_at o t : oracle_inv jobs queues o -> or_tenants o !! or_cursor o = Some t -> oracle_tenant_fine jobs t.
Proof. intros HI Ht. exact (proj1 (Forall_lookup _ _) (oi_tenants _ _ _ HI) _ _ Ht). Qed.

Lemma oracle_visited_inv o t o' : oracle_inv jobs queues o -> or_tenants o !! or_cursor o = Some t ->
  oracle_visited o t o' -> oracle_inv jobs queues o'.
Proof.
  intros HI Ht Hv. destruct (tenant_definition o _ t HI Ht) as [_ Hin].
  pose proof (tenant_fine_at o t HI Ht) as [Hqf Hdf].
  destruct (oracle_fund_spec t) as (_ & _ & _ & _ & _ & Hfd); [done|done|].
  destruct Hv as [Hq|identifier rest job Hq Hjob Hlt|identifier rest job Hq Hjob Hle served].
  - apply inv_advance. eapply inv_set; [done|done|done|done|]. split; cbn; [done|unfold ciDeficitCap; lia].
  - apply inv_advance. eapply inv_set; [done|done|done|done|]. by split.
  - destruct (served_job_at o t identifier HI Ht) as (job' & Hjob' & Hid & Hk & Htn & Hu); [rewrite Hq; left|].
    replace job' with job in * by congruence. rewrite Hq in Hqf. apply Forall_cons in Hqf as [_ Hrest].
    case_decide as Hr; [apply inv_advance|]; eapply (inv_serve o t identifier rest); try done;
      (split; cbn; [done|unfold ciDeficitCap in *; lia]).
Qed.

(** *** Visits end *)

Lemma need_unfunded t identifier rest job : oracle_tenant_fine jobs t -> ot_definition t ∈ serviceTenants ->
  ot_queue t = identifier :: rest -> jobs !! identifier = Some job -> job_workUnits job <= ciMaximumRequestUnits ->
  ot_deficit (oracle_fund t) < job_workUnits job ->
  oracle_need jobs (mkOracleTenant (ot_definition t) (ot_queue t) (ot_deficit (oracle_fund t)) false) + 1 <= oracle_need jobs t.
Proof.
  intros Hf Hin Hq Hjob Hmax Hlt. destruct (oracle_fund_spec t Hf Hin) as (_ & _ & _ & Hd & _).
  pose proof (quantum_range t Hin) as Hr. unfold oracle_need. cbn [ot_queue ot_visitOpen ot_deficit]. rewrite Hq.
  assert (jobOf jobs identifier = job) as -> by (unfold jobOf; by rewrite Hjob).
  change (oracle_quantum (mkOracleTenant _ _ _ _)) with (oracle_quantum t).
  rewrite Hd in *. destruct (ot_visitOpen t); [lia|].
  rewrite Z.min_l in * by (unfold ciDeficitCap, ciMaximumRequestUnits, ciMaximumBodyBytes, ciMaximumCompletionTokens in *; lia).
  pose proof (ceil_div_pred (job_workUnits job - ot_deficit t) (oracle_quantum t)) as Hp. unfold ciBaseQuantum in *.
  replace (job_workUnits job - (ot_deficit t + oracle_quantum t)) with (job_workUnits job - ot_deficit t - oracle_quantum t) by lia.
  rewrite (Z.max_r 0 (job_workUnits job - ot_deficit t)) by lia. lia.
Qed.

(** What is left of a queue needs no more than four visits a request. *)
Lemma need_after_serve definition rest deficit : Forall (served_job jobs definition) rest -> definition ∈ serviceTenants ->
  0 <= deficit -> oracle_need jobs (mkOracleTenant definition rest deficit true) <= 4 * Z.of_nat (length rest).
Proof.
  intros Hf Hin Hd. unfold oracle_need. cbn [ot_queue ot_visitOpen ot_deficit]. destruct rest as [|identifier rest]; [done|].
  apply Forall_cons in Hf as [(job & Hjob & _ & _ & _ & Hu) _].
  assert (jobOf jobs identifier = job) as -> by (unfold jobOf; by rewrite Hjob).
  set (t := mkOracleTenant _ _ _ _). pose proof (quantum_range t Hin) as Hq. cbn [length].
  assert (ceil_div (Z.max 0 (job_workUnits job - deficit)) (oracle_quantum t) <= 3); [|lia].
  unfold ceil_div, ciBaseQuantum, ciMaximumRequestUnits, ciMaximumBodyBytes, ciMaximumCompletionTokens in *.
  apply Z.lt_succ_r, Z.div_lt_upper_bound; lia.
Qed.

(** When one tenant has nothing left, the other one is next and has. *)
Lemma idle_turn_passes o t : oracle_inv jobs queues o -> (0 < or_remaining o)%nat ->
  or_tenants o !! or_cursor o = Some t -> ot_queue t = [] ->
  idle_turn o = 1 /\ idle_turn (oracle_advance (oracle_set o (oracle_emptied t))) = 0.
Proof.
  intros HI Hrem Ht Hq. pose proof (two_tenants o (oi_definitions _ _ _ HI)) as H2.
  rewrite (oi_remaining _ _ _ HI) in Hrem. unfold idle_turn. rewrite Ht, Hq. cbn [oracle_advance oracle_set or_tenants or_cursor].
  rewrite length_insert, H2. split; [done|].
  destruct (or_tenants o) as [|a [|b [|]]] eqn:Hto; try done. destruct (or_cursor o) as [|[|]]; cbn in Ht; [| |done].
  - injection Ht as ->. cbn in Hrem |- *. rewrite Hq in Hrem. cbn in Hrem.
    destruct (ot_queue b); [cbn in Hrem; lia|done].
  - injection Ht as ->. cbn in Hrem |- *. rewrite Hq in Hrem. cbn in Hrem.
    destruct (ot_queue a); [cbn in Hrem; lia|done].
Qed.

Lemma oracle_visited_mu o t o' : oracle_inv jobs queues o -> (0 < or_remaining o)%nat ->
  or_tenants o !! or_cursor o = Some t -> oracle_visited o t o' -> oracle_mu jobs o' < oracle_mu jobs o.
Proof.
  intros HI Hrem Ht Hv. destruct (tenant_definition o _ t HI Ht) as [_ Hin].
  pose proof (tenant_fine_at o t HI Ht) as Hf. pose proof Hf as [Hqf Hdf].
  pose proof (idle_turn_bounds o') as Hi'. pose proof (idle_turn_bounds o) as Hi.
  destruct (oracle_fund_spec t Hf Hin) as (_ & _ & _ & _ & _ & Hfd).
  destruct Hv as [Hq|identifier rest job Hq Hjob Hlt|identifier rest job Hq Hjob Hle served].
  - destruct (idle_turn_passes o t HI Hrem Ht Hq) as [H1 H0]. unfold oracle_mu in *. rewrite H1, H0.
    cbn [oracle_advance oracle_set or_tenants or_remaining]. rewrite (sumZ_insert _ _ t) by done.
    assert (oracle_need jobs (oracle_emptied t) = 0 /\ oracle_need jobs t = 0) as [-> ->]; [|lia].
    unfold oracle_need. cbn [oracle_emptied ot_queue]. by rewrite Hq.
  - destruct (served_job_at o t identifier HI Ht) as (job' & Hjob' & _ & _ & _ & Hu); [rewrite Hq; left|].
    replace job' with job in * by congruence.
    pose proof (need_unfunded t identifier rest job Hf Hin Hq Hjob ltac:(lia) Hlt).
    unfold oracle_mu, oracle_advance, oracle_set in *. cbn [or_tenants or_remaining or_cursor] in *.
    rewrite (sumZ_insert _ _ t) by done. lia.
  - rewrite Hq in Hqf. apply Forall_cons in Hqf as [_ Hrest].
    pose proof (quantum_range t Hin) as Hqr.
    assert (Hneed : 4 * Z.of_nat (length rest) <= oracle_need jobs t).
    { unfold oracle_need. rewrite Hq. unfold ciBaseQuantum in *.
      pose proof (ceil_div_nonneg (Z.max 0 (job_workUnits (jobOf jobs identifier) - ot_deficit t)) (oracle_quantum t) ltac:(lia) ltac:(lia)).
      destruct (ot_visitOpen t); lia. }
    pose proof (need_after_serve (ot_definition t) rest (ot_deficit (oracle_fund t) - job_workUnits job) Hrest Hin ltac:(lia)) as Hafter.
    fold served in Hafter. revert Hi'. unfold oracle_mu, oracle_served, oracle_set.
    case_decide as Hr; cbn [oracle_advance or_tenants or_remaining]; rewrite (sumZ_insert _ _ t) by done; intros Hi'.
    + assert (oracle_need jobs (oracle_emptied served) = 0) as -> by (unfold oracle_need; cbn; by rewrite Hr). lia.
    + lia.
Qed.

Lemma need_le t : oracle_tenant_fine jobs t -> ot_definition t ∈ serviceTenants -> ot_visitOpen t = false ->
  oracle_need jobs t <= 4 * Z.of_nat (length (ot_queue t)).
Proof.
  intros [Hf Hd] Hin Ho. destruct t as [definition queue deficit open]. cbn in *. subst open. unfold oracle_need. cbn.
  destruct queue as [|identifier rest]; [done|]. apply Forall_cons in Hf as [(job & Hjob & _ & _ & _ & Hu) _].
  assert (jobOf jobs identifier = job) as -> by (unfold jobOf; by rewrite Hjob).
  pose proof (quantum_range (mkOracleTenant definition [] 0 false) Hin) as Hq. unfold oracle_quantum in *. cbn in *.
  assert (ceil_div (Z.max 0 (job_workUnits job - deficit)) (ciBaseQuantum * td_weight definition) <= 3); [|lia].
  unfold ceil_div, ciBaseQuantum, ciMaximumRequestUnits, ciMaximumBodyBytes, ciMaximumCompletionTokens in *.
  apply Z.lt_succ_r, Z.div_lt_upper_bound; lia.
Qed.

Lemma oracle_mu_remaining o : oracle_inv jobs queues o -> 2 * Z.of_nat (or_remaining o) <= oracle_mu jobs o.
Proof.
  intros HI. unfold oracle_mu. pose proof (idle_turn_bounds o).
  enough (0 <= sumZ (oracle_need jobs) (or_tenants o)) by lia. apply sumZ_nonneg, Forall_lookup. intros i t Ht.
  destruct (tenant_definition o i t HI Ht) as [_ Hin]. apply need_nonneg; [|done].
  exact (proj1 (Forall_lookup _ _) (oi_tenants _ _ _ HI) _ _ Ht).
Qed.

(** ** The loop *)

(** A visit while something is left to dispatch. *)
Definition oracle_step (o o' : oracleState) : Prop := (0 < or_remaining o)%nat /\ oracle_visit jobs o = Done (Some o').

Lemma oracle_step_exists o : oracle_inv jobs queues o -> (0 < or_remaining o)%nat ->
  exists o', oracle_step o o' /\ oracle_inv jobs queues o' /\ oracle_mu jobs o' < oracle_mu jobs o.
Proof.
  intros HI Hrem. destruct (lookup_lt_is_Some_2 (or_tenants o) (or_cursor o) (oi_cursor _ _ _ HI)) as [t Ht].
  destruct (oracle_visit_visited o t HI Ht) as (o' & Hrun & Hv). exists o'. split_and!.
  - by split.
  - by eapply oracle_visited_inv.
  - by eapply oracle_visited_mu.
Qed.

Lemma oracle_loop_runs visits o : oracle_inv jobs queues o -> oracle_mu jobs o <= Z.of_nat visits ->
  exists o', oracle_loop visits jobs o = Done (Some o') /\ oracle_inv jobs queues o' /\ or_remaining o' = 0%nat
    /\ rtc oracle_step o o'.
Proof.
  revert o. induction visits as [|visits IH]; intros o HI Hmu; cbn [oracle_loop].
  { pose proof (oracle_mu_remaining o HI). exists o. split_and!; [done|done|lia|apply rtc_refl]. }
  destruct (Nat.eqb_spec (or_remaining o) 0) as [H0|H0]; [by exists o|].
  destruct (oracle_step_exists o HI ltac:(lia)) as (o1 & Hst & HI1 & Hmu1). pose proof Hst as [_ ->].
  destruct (IH o1 HI1 ltac:(lia)) as (o' & Hrun & HI' & Hz & Hr). exists o'. split_and!; [done..|].
  by eapply rtc_l.
Qed.

Lemma oracle_step_det o o1 o2 : oracle_step o o1 -> oracle_step o o2 -> o1 = o2.
Proof. intros [_ H1] [_ H2]. congruence. Qed.
End oracle.

(** ** The plan *)

(** The queues of a workload hold service jobs of their tenants. *)
Definition queued_fine (w : seededWorkload) : Prop :=
  Forall2 (fun tenant queue => Forall (served_job (wl_jobs w) tenant) queue) serviceTenants (wl_serviceQueues w)
  /\ Z.of_nat (sum_list (map length (wl_serviceQueues w))) < two64 - 1.

Lemma nothing_left l i t : sum_list (map (fun t => length (ot_queue t)) l) = 0%nat -> l !! i = Some t -> ot_queue t = [].
Proof.
  revert i. induction l as [|u l IH]; intros [|i]; cbn; intros Hz Ht; [done|done| |].
  - simplify_eq. apply nil_length_inv. lia.
  - apply (IH i); [lia|done].
Qed.

Lemma oracle_start_inv w : queued_fine w -> oracle_inv (wl_jobs w) (wl_serviceQueues w) (oracle_start w)
  /\ Forall (fun t => ot_visitOpen t = false) (or_tenants (oracle_start w)).
Proof.
  intros [Hq Hs]. unfold oracle_start. pose proof (Forall2_length _ _ _ Hq) as Hlen.
  destruct (wl_serviceQueues w) as [|qa [|qb [|]]]; try done.
  apply Forall2_cons in Hq as [Ha [Hb _]%Forall2_cons].
  cbn [zip_with serviceTenants] in *. split; [|by repeat constructor]. split; cbn; try done; try lia.
  - repeat constructor; try done; cbn; unfold ciDeficitCap; lia.
  - intros [|[|i]] t Ht; cbn in Ht; [by injection Ht as <-..|done].
Qed.

Lemma oracle_start_mu w : queued_fine w -> (0 < or_remaining (oracle_start w))%nat ->
  oracle_mu (wl_jobs w) (oracle_start w) <= Z.of_nat (oracle_visits (oracle_start w)).
Proof.
  intros Hq Hrem. destruct (oracle_start_inv w Hq) as [HI Hclosed]. pose proof HI as [].
  pose proof (idle_turn_bounds (oracle_start w)) as Hi. unfold oracle_mu, oracle_visits.
  rewrite (two_tenants _ oi_definitions0).
  assert (sumZ (oracle_need (wl_jobs w)) (or_tenants (oracle_start w)) <= 4 * Z.of_nat (or_remaining (oracle_start w))) as Hn.
  { rewrite oi_remaining0. assert (Hall : Forall (fun t => oracle_need (wl_jobs w) t <= 4 * Z.of_nat (length (ot_queue t))) (or_tenants (oracle_start w))).
    { apply Forall_lookup. intros i t Ht. destruct (tenant_definition _ _ _ i t HI Ht) as [_ Hin].
      apply need_le; [|done|]; [exact (proj1 (Forall_lookup _ _) oi_tenants0 _ _ Ht)|exact (proj1 (Forall_lookup _ _) Hclosed _ _ Ht)]. }
    revert Hall. generalize (or_tenants (oracle_start w)). intros l Hall. induction Hall; cbn in *; lia. }
  change (Z.to_nat (ciDeficitCap ÷ ciBaseQuantum + 2)) with 8%nat. lia.
Qed.

Lemma expectedDispatchPlan_complete w : queued_fine w ->
  exists plan, expectedDispatchPlan w = Done (Ok plan)
    /\ (exists o, rtc (oracle_step (wl_jobs w)) (oracle_start w) o /\ or_remaining o = 0%nat /\ or_trace o = plan)
    /\ length plan = sum_list (map length (wl_serviceQueues w))
    /\ (forall i tenant, serviceTenants !! i = Some tenant -> wl_serviceQueues w !! i = Some (dispatchedBy tenant plan))
    /\ (forall k d, plan !! k = Some d -> described (wl_jobs w) k d).
Proof.
  intros Hq. destruct (oracle_start_inv w Hq) as [HI _].
  assert (exists o, oracle_loop (oracle_visits (oracle_start w)) (wl_jobs w) (oracle_start w) = Done (Some o)
    /\ oracle_inv (wl_jobs w) (wl_serviceQueues w) o /\ or_remaining o = 0%nat
    /\ rtc (oracle_step (wl_jobs w)) (oracle_start w) o) as (o & Hrun & HIo & Hz & Hr).
  { destruct (decide (or_remaining (oracle_start w) = 0%nat)) as [H0|H0].
    - exists (oracle_start w). unfold oracle_visits. rewrite H0. by split_and!.
    - apply oracle_loop_runs; [done|]. apply oracle_start_mu; [done|lia]. }
  unfold expectedDispatchPlan. rewrite Hrun, Hz. pose proof (oi_total _ _ _ HIo) as Ht. pose proof (oi_total _ _ _ HI) as Ht0.
  rewrite Hz, Nat.add_0_r in Ht. change (length (or_trace (oracle_start w))) with 0%nat in Ht0.
  rewrite Ht, <- Ht0, Nat.add_0_l, !Nat.eqb_refl. cbn [negb orb].
  exists (or_trace o). split_and!; [done|by exists o|lia| |apply HIo].
  intros i tenant Hi. pose proof (oi_definitions _ _ _ HIo) as Hd.
  destruct (lookup_lt_is_Some_2 (or_tenants o) i) as [t Hto].
  { rewrite (two_tenants o Hd). apply lookup_lt_Some in Hi. cbn in Hi. lia. }
  destruct (tenant_definition _ _ o i t HIo Hto) as [Hti _]. rewrite (oi_fifo _ _ _ HIo i t Hto).
  assert (ot_queue t = []) as ->.
  { rewrite (oi_remaining _ _ _ HIo) in Hz. by eapply nothing_left. }
  rewrite app_nil_r. by replace (ot_definition t) with tenant by congruence.
Qed.

(** ** Workloads of a seed *)

Lemma built_served profile c g ta tb w tenantIndex tenant identifier :
  drawn profile c g ta tb -> as_checked profile c g ta tb w -> serviceTenants !! tenantIndex = Some tenant ->
  identifier ∈ wl_initialService w ++ wl_lateService w -> tenantOf (wl_jobs w) identifier = tenantIndex ->
  served_job (wl_jobs w) tenant identifier.
Proof.
  intros Hdr Hw Htn Hin Ht. pose proof Hw as (Hj & _ & _ & Hi & Hl & _). rewrite Hj in *.
  assert (Hs : service_job (jobsOf (allEntries profile c [ta; tb] g)) jobService identifier).
  { apply elem_of_app in Hin as [Hin|Hin].
    - rewrite Hi in Hin. by apply (proj1 (Forall_forall _ _) (proj1 (initial0_phase profile c g ta tb Hdr))).
    - rewrite Hl in Hin. by apply (proj1 (Forall_forall _ _) (proj1 (late0_phase profile c g ta tb Hdr))). }
  destruct Hs as (job & Hjob & Hk & Hti & Hst). exists job.
  assert (Hfine : job_fine w identifier job).
  { assert ((identifier, job) ∈ allEntries profile c [ta; tb] g) as Hel.
    { rewrite <- (jobs_list profile c g ta tb Hdr). by apply elem_of_map_to_list. }
    exact (proj1 (Forall_forall _ _) (entries_fine profile c g ta tb Hdr w Hw) _ Hel). }
  destruct Hfine as (Hr & Hid & Hlen & Hu & Hmax & _). rewrite Ht in Hst. split_and!; try done; [congruence|lia].
Qed.

Lemma built_queued profile c g ta tb w : drawn profile c g ta tb -> as_checked profile c g ta tb w -> queued_fine w.
Proof.
  intros Hdr Hw. pose proof Hw as (Hj & _ & _ & _ & _ & _ & _ & _ & Hq).
  assert (Hlen : length (wl_serviceQueues w) = length serviceTenants).
  { rewrite Hq, expectedQueues_length. done. }
  split.
  - apply Forall2_same_length_lookup. split; [done|]. intros i tenant queue Hi Hqi.
    rewrite Hq, expectedQueues_lookup, lookup_replicate_2 in Hqi by (by eapply lookup_lt_Some).
    cbn [fmap option_fmap option_map app] in Hqi. injection Hqi as <-. apply Forall_forall.
    intros identifier [Ht Hin]%list_elem_of_filter. rewrite <- Hj in Ht. by eapply built_served.
  - pose proof (queues_length profile c g ta tb Hdr w 0 Hw ltac:(cbn; lia)) as H0.
    pose proof (queues_length profile c g ta tb Hdr w 1 Hw ltac:(cbn; lia)) as H1.
    destruct (wl_serviceQueues w) as [|qa [|qb [|]]]; try done. cbn in *. rewrite H0, H1. unfold two64. cbn. lia.
Qed.

Lemma built_total profile c g ta tb w : drawn profile c g ta tb -> as_checked profile c g ta tb w ->
  sum_list (map length (wl_serviceQueues w)) = 20%nat.
Proof.
  intros Hdr Hw. pose proof (queues_length profile c g ta tb Hdr w 0 Hw ltac:(cbn; lia)) as H0.
  pose proof (queues_length profile c g ta tb Hdr w 1 Hw ltac:(cbn; lia)) as H1.
  pose proof Hw as (_ & _ & _ & _ & _ & _ & _ & _ & Hq).
  assert (Hlen : length (wl_serviceQueues w) = length serviceTenants) by (rewrite Hq, expectedQueues_length; done).
  destruct (wl_serviceQueues w) as [|qa [|qb [|]]]; try done. cbn in *. by rewrite H0, H1.
Qed.
