(* ===== verification/SatSchedule.v ===== *)
(** * Saturation harness: the scheduler serves the oracle's plan

    The oracle of [workload.go] against the scheduler of [internal/admission]: as
    long as no queued request is canceled or expires, every dispatch of [pump] is
    the next one of the oracle. *)

From S2P Require Import Prelude AdmissionConfig GoHeap AdmissionOwner AdmissionInv AdmissionSteps.
From S2P Require Import AdmissionArrive AdmissionPump AdmissionHandle.
From S2P Require Import AdmissionFinish AdmissionRun AdmissionScheduler.
From S2P Require Import GoJson GoIO SatWorkload SatSeeded SatOracle.

(** ** The measured configuration *)

Definition satValidated : validatedConfig :=
  match validateConfig saturationAdmissionConfig with
  | Ok v => v
  | Err _ => MkValidatedConfig 0 0 0 (MkQueueLimits 0 0 0) (MkInflightLimits 0 0) [] ∅
  end.

Lemma satValidated_accepted : validateConfig saturationAdmissionConfig = Ok satValidated.
Proof. vm_compute. reflexivity. Qed.

Lemma u64_literal z : (0 <=? z) && (z <? two64) = true -> is_u64 z.
Proof. unfold is_u64. intros. breflect. lia. Qed.

Lemma u32_literal z : (0 <=? z) && (z <? two32) = true -> is_u32 z.
Proof. unfold is_u32. intros. breflect. lia. Qed.

Lemma saturation_typed : typed_config saturationAdmissionConfig.
Proof.
  assert (Ht : Forall typed_tenant (c_Tenants saturationAdmissionConfig)).
  { unfold typed_tenant, typed_queue, typed_inflight.
    repeat constructor; (apply u64_literal || apply u32_literal); vm_compute; reflexivity. }
  unfold typed_config, typed_queue, typed_inflight.
  repeat match goal with |- _ /\ _ => split end; [(apply u64_literal; vm_compute; reflexivity)..|done].
Qed.

(** One request in flight, and what one tenant may have there. *)
Lemma sat_limits : il_Count (vc_globalInflight satValidated) = 1
  /\ il_Work (vc_globalInflight satValidated) = ciMaximumRequestUnits
  /\ vc_maxRequestUnits satValidated = ciMaximumRequestUnits
  /\ vc_deficitCap satValidated = ciDeficitCap.
Proof. by vm_compute. Qed.

Lemma sat_tenant i vt : vc_tenants satValidated !! i = Some vt ->
  vt_inflight vt = MkInflightLimits 1 ciMaximumRequestUnits.
Proof. destruct i as [|[|[|[|i]]]]; vm_compute; by intros [= <-]. Qed.

Lemma sat_quantum i tenant vt : serviceTenants !! i = Some tenant -> vc_tenants satValidated !! S i = Some vt ->
  vt_quantum vt = ciBaseQuantum * td_weight tenant.
Proof. destruct i as [|[|i]]; [vm_compute; by intros [= <-] [= <-]..|done]. Qed.

Lemma sat_tenants : length (vc_tenants satValidated) = 4%nat.
Proof. by vm_compute. Qed.

#[global] Opaque satValidated.

(** ** Nothing in flight *)

Lemma tally_quiet P E : (forall id, ~ serving E id) -> InflightCount (tally P E) = 0 /\ InflightWork (tally P E) = 0.
Proof.
  induction E as [|id e E Hid IH] using map_ind; intros Hno; [by rewrite tally_empty|].
  rewrite tally_insert by done. cbn. destruct IH as [-> ->].
  - intros id' (e' & He' & Hp'). apply (Hno id'). exists e'. rewrite lookup_insert_ne by congruence. done.
  - unfold charge_if, charge. destruct (P e); [|done]. destruct (e_phase e) as [[]|] eqn:Hp; [done| |done].
    exfalso. apply (Hno id). exists e. by rewrite lookup_insert_eq.
Qed.

Section schedule.
Context `{World}.

Lemma quiet_counters s : core s -> os_inflight s = [] ->
  (InflightCount (os_global s) = 0 /\ InflightWork (os_global s) = 0)
  /\ forall i t, os_tenants s !! i = Some t -> InflightCount (ts_counters t) = 0 /\ InflightWork (ts_counters t) = 0.
Proof.
  intros Hs Hin. assert (Hno : forall id, ~ serving (os_entries s) id).
  { intros id Hid. apply (co_inflight _ Hs) in Hid. rewrite Hin in Hid. by apply not_elem_of_nil in Hid. }
  split; [rewrite (co_global _ Hs); by apply tally_quiet|].
  intros i t Ht. destruct (co_tenant _ Hs i t Ht) as (_ & _ & _ & -> & _). by apply tally_quiet.
Qed.

Lemma busy_full s id : core s -> os_config s = satValidated -> id ∈ os_inflight s ->
  inflightFull (os_global s) (vc_globalInflight (os_config s)) = true.
Proof.
  intros Hs Hc Hid. apply (co_inflight _ Hs) in Hid as (e & He & Hp).
  pose proof (tally_ge of_any _ id e (entries_fair s Hs) He eq_refl) as Hge.
  rewrite <- (co_global _ Hs) in Hge. unfold charge, counters_le in Hge. rewrite Hp in Hge. cbn in Hge.
  pose proof (co_ginflight _ Hs) as Hw. unfold within_inflight in Hw. rewrite Hc in *.
  destruct sat_limits as (Hl & _). rewrite Hl in *. unfold inflightFull. rewrite Hl.
  apply orb_true_iff. left. apply Z.eqb_eq. lia.
Qed.

(** Whatever is queued fits when nothing is in flight. *)
Lemma quiet_fits e c limits : InflightCount c = 0 -> InflightWork c = 0 ->
  limits = MkInflightLimits 1 ciMaximumRequestUnits -> admissible satValidated (e_admission e) ->
  inflightFits c (e_admission e) limits = true.
Proof.
  intros H0 H1 -> [_ Hw]. unfold inflightFits, fits. cbn [il_Count il_Work]. rewrite H0, H1.
  destruct sat_limits as (_ & _ & Hm & _). rewrite Hm in Hw.
  rewrite !u64_small by (vm_compute; split; congruence). unfold ciMaximumRequestUnits, ciMaximumBodyBytes, ciMaximumCompletionTokens in *.
  repeat (apply andb_true_iff; split); apply Z.leb_le; lia.
Qed.

(** ** The pump, with nothing in flight *)

Lemma quiet_not_full s : Inv s -> os_config s = satValidated -> os_inflight s = [] ->
  inflightFull (os_global s) (vc_globalInflight (os_config s)) = false.
Proof.
  intros HI Hc Hin. destruct (quiet_counters s (proj1 HI) Hin) as [[Hg0 Hg1] _].
  destruct sat_limits as (Hl & Hw & _). unfold inflightFull. by rewrite Hc, Hl, Hw, Hg0, Hg1.
Qed.

Definition has_head (s : ownerState) : Prop :=
  exists i t id rest, os_tenants s !! i = Some t /\ ts_queue t = id :: rest.

Lemma head_queued s : Inv s -> has_head s -> 0 < QueuedCount (os_global s).
Proof.
  intros HI (i & t & id & rest & Ht & Hq). destruct (head_facts s i t id rest HI Ht Hq) as (e & He & Hp & _).
  pose proof (tally_ge of_any _ id e (entries_fair s (proj1 HI)) He eq_refl) as Hge.
  rewrite <- (co_global _ (proj1 HI)) in Hge. unfold charge, counters_le in Hge. rewrite Hp in Hge. cbn in Hge. lia.
Qed.

(** [pump] does not stop there while something is queued. *)
Lemma quiet_not_settled s : Inv s -> os_config s = satValidated -> os_inflight s = [] -> has_head s -> ~ settled s.
Proof.
  intros HI Hc Hin Hh Hst. pose proof (head_queued s HI Hh) as Hpos. destruct Hh as (i & t & id & rest & Ht & Hq).
  destruct (quiet_counters s (proj1 HI) Hin) as [[Hg0 Hg1] Htc]. destruct sat_limits as (Hl & Hw & _).
  destruct (head_facts s i t id rest HI Ht Hq) as (e & He & _).
  assert (Hadm : forall id e, os_entries s !! id = Some e -> admissible satValidated (e_admission e)).
  { intros id' e' He'. destruct (co_entry _ (proj1 HI) id' e' He') as (_ & Ha & _). by rewrite <- Hc. }
  destruct Hst as [Hst|[Hst|[Hst|Hst]]].
  - lia.
  - unfold full in Hst. rewrite (quiet_not_full s HI Hc Hin) in Hst. done.
  - destruct Hst as (i' & t' & id' & rest' & e' & Ht' & _ & He' & _ & _ & Hno).
    rewrite (quiet_fits e') in Hno; [done|done|done| |by eapply Hadm]. rewrite Hc. revert Hl Hw.
    destruct (vc_globalInflight satValidated). cbn. by intros -> ->.
  - pose proof (Hst i t id rest e Ht Hq He) as Hno. destruct (Htc i t Ht) as [H0 H1].
    rewrite (quiet_fits e) in Hno; [done|done|done| |by eapply Hadm].
    destruct (co_tenant _ (proj1 HI) i t Ht) as (Hvt & _). rewrite Hc in Hvt. by eapply sat_tenant.
Qed.

Lemma bind_Done {A B} (m : Owner A) (f : A -> Owner B) Q s b s2 : wp m Q s -> (m ≫= f) s = Done (b, s2) ->
  exists a s1, Q a s1 /\ f a s1 = Done (b, s2).
Proof. intros (a & s1 & Hm & HQ). unfold mbind, M_bind. rewrite Hm. by exists a, s1. Qed.

Lemma gets_Done {A B} (g : ownerState -> A) (f : A -> Owner B) s r : (gets g ≫= f) s = r -> f (g s) s = r.
Proof. done. Qed.

(** What visits keep until one of them returns holds when [pump] does. *)
Section until.
Context (P R : ownerState -> Prop).
Context (HP : forall s, P s -> Inv s /\ os_config s = satValidated /\ os_inflight s = [] /\ has_head s).
Context (Hvisit : forall s d n, P s ->
  wp (visit d n) (fun r s' => match fst (fst r) with FlowNext => P s' | FlowReturn => R s' end) s).

Lemma pumpRound_until k s d n : P s ->
  wp (pumpRound k d n) (fun r s' => match fst (fst r) with FlowNext => P s' | FlowReturn => R s' end) s.
Proof.
  revert s d n. induction k as [|k IH]; intros s d n Hs; cbn [pumpRound]; [by wp_step|].
  wp_step. eapply wp_mono; [by apply Hvisit|]. intros [[flow d1] n1] s1 Hr. cbn [fst] in Hr. cbn beta iota.
  destruct flow; [by apply IH|by wp_step].
Qed.

Lemma pumpLoop_until fuel s s' : P s -> pumpLoop fuel s = Done (tt, s') -> P s' \/ R s'.
Proof.
  revert s. induction fuel as [|fuel IH]; intros s Hs; [done|]. cbn [pumpLoop]. intros Hrun.
  apply gets_Done in Hrun. destruct (0 <? QueuedCount (os_global s)); cbn [negb] in Hrun; [|injection Hrun as <-; by left].
  apply gets_Done in Hrun. destruct (bind_Done _ _ _ _ _ _ (pumpRound_until _ s false false Hs) Hrun) as ([[flow d] n] & s1 & Hp & Hrun1).
  cbn [fst] in Hp. destruct flow; [|injection Hrun1 as <-; by right]. apply gets_Done in Hrun1.
  destruct (Z.eqb_spec (QueuedCount (os_global s1)) 0) as [H0|H0].
  { destruct (HP s1 Hp) as (HI1 & _ & _ & Hh1). pose proof (head_queued s1 HI1 Hh1). lia. }
  destruct (negb d && negb n); [injection Hrun1 as <-; by left|]. by eapply IH.
Qed.

Lemma pump_until s : P s -> wp pump (fun _ s' => R s') s.
Proof.
  intros Hs. destruct (HP s Hs) as (HI & Hc & Hin & Hh).
  destruct (pump_spec s HI) as ([] & s' & Hrun & _ & _ & Hst). exists tt, s'. split; [done|].
  revert Hrun. unfold pump. intros Hrun. apply gets_Done in Hrun.
  destruct (os_tenants s) as [|t0 ts] eqn:Hts.
  { pose proof (co_cursor _ (proj1 HI)) as Hcu. rewrite Hts in Hcu. cbn in Hcu. lia. }
  do 2 apply gets_Done in Hrun. rewrite (quiet_not_full s HI Hc Hin) in Hrun. apply gets_Done in Hrun.
  destruct (pumpLoop_until _ s s' Hs Hrun) as [Hp|Hr]; [|done]. exfalso.
  destruct (HP s' Hp) as (HI' & Hc' & Hin' & Hh'). by apply (quiet_not_settled s').
Qed.
End until.

(** ** The relation *)

Context (label : Z -> Z) (jobs : gmap Z saturationJob) (queues : list (list Z)).

(** A request that is neither canceled nor late at any reading. *)
Definition alive (e : entry) : Prop := forall n, w_err n (e_clientCtx e) = false /\ w_now n < e_deadline e.

(** Request [id] stands for a job. *)
Definition stands_for (id : Z) (e : entry) : Prop :=
  alive e /\ exists job, jobs !! label id = Some job /\ a_WorkUnits (e_admission e) = job_workUnits job.

Definition like (t : tenantState) (ot : oracleTenant) : Prop :=
  map label (ts_queue t) = ot_queue ot /\ ts_deficit t = ot_deficit ot /\ ts_visitOpen t = ot_visitOpen ot.

(** The service tenants are the scheduler's tenants 1 and 2. *)
Definition oracle_index (i : nat) : option nat :=
  match i with 1%nat => Some 0%nat | 2%nat => Some 1%nat | _ => None end.

Definition oracle_cursor (cursor : nat) : nat := default 0%nat (oracle_index cursor).

Record follows (s : ownerState) (o : oracleState) : Prop := {
  fo_inv : Inv s;
  fo_config : os_config s = satValidated;
  fo_oracle : oracle_inv jobs queues o;
  fo_cursor : or_cursor o = oracle_cursor (os_cursor s);
  fo_tenant : forall i t, os_tenants s !! i = Some t ->
    match oracle_index i with
    | Some j => exists ot, or_tenants o !! j = Some ot /\ like t ot
    | None => ts_queue t = []
    end;
  fo_jobs : forall id e, os_entries s !! id = Some e -> e_phase e = Some accountingQueued -> stands_for id e;
}.

(** *** Readings do not matter *)

Lemma follows_ticked s o n : follows s o -> follows (with_ext s (ext_tick (os_ext s) n)) o.
Proof. intros []. split; [by apply Inv_ticked|done..]. Qed.

(** The entries that still wait are those of before. *)
Lemma jobs_evolves R s s' : evolves R s s' ->
  (forall id e, os_entries s !! id = Some e -> e_phase e = Some accountingQueued -> stands_for id e) ->
  forall id e, os_entries s' !! id = Some e -> e_phase e = Some accountingQueued -> stands_for id e.
Proof.
  intros Hev Hj id e' He' Hp'. destruct (ev_entry _ _ _ Hev id e' He') as (e & He & (_ & _ & Ha & Hc & Hd & _)).
  destruct (ev_phase _ _ _ Hev id e e' He He') as [Hp|Hp]; [|congruence].
  destruct (Hj id e He ltac:(congruence)) as [Hal Hjob]. unfold stands_for, alive. rewrite Ha, Hc, Hd. done.
Qed.

Lemma head_job s o i t id rest : follows s o -> os_tenants s !! i = Some t -> ts_queue t = id :: rest ->
  exists e job, os_entries s !! id = Some e /\ e_phase e = Some accountingQueued /\ e_tenant e = i
    /\ admissible satValidated (e_admission e) /\ alive e
    /\ jobs !! label id = Some job /\ a_WorkUnits (e_admission e) = job_workUnits job.
Proof.
  intros Hf Ht Hq. destruct (head_facts s i t id rest (fo_inv _ _ Hf) Ht Hq) as (e & He & Hp & Hti & _).
  destruct (fo_jobs _ _ Hf id e He Hp) as (Hal & job & Hjob & Hw).
  destruct (co_entry _ (proj1 (fo_inv _ _ Hf)) id e He) as (_ & Hadm & _).
  rewrite (fo_config _ _ Hf) in Hadm. by exists e, job.
Qed.

(** [dropDead] finds nothing to remove. *)
Lemma dropDead_alive s i t id rest e fuel : os_tenants s !! i = Some t -> ts_queue t = id :: rest ->
  os_entries s !! id = Some e -> alive e ->
  wp (dropDead (S fuel) i) (fun _ s' => exists n, (x_tick (os_ext s) <= n)%nat /\ s' = with_ext s (ext_tick (os_ext s) n)) s.
Proof.
  intros Ht Hq He Hal. cbn [dropDead]. o_steps. rewrite Hq. o_steps.
  destruct (Hal (x_tick (os_ext s))) as [Herr _]. rewrite Herr. o_steps. wp_case.
  - exfalso. match goal with H : _ <= w_now ?n |- _ => pose proof (proj2 (Hal n)); lia end.
  - wp_step. exists (S (S (x_tick (os_ext s)))). split; [lia|done].
Qed.

Lemma dropDead_empty s i t fuel : os_tenants s !! i = Some t -> ts_queue t = [] ->
  wp (dropDead (S fuel) i) (fun _ s' => s' = s) s.
Proof. intros Ht Hq. cbn [dropDead]. o_steps. rewrite Hq. by wp_step. Qed.

Lemma fundVisit_tenants s i t : os_tenants s !! i = Some t ->
  wp (fundVisit i) (fun _ s' => exists ts, s' = with_tenants s ts) s.
Proof.
  intros Ht. unfold fundVisit. o_steps. wp_case.
  - o_steps. by eexists.
  - wp_step. exists (os_tenants s). by destruct s.
Qed.

(** *** Changing one tenant, and moving on *)

Lemma oracle_index_S i j : oracle_index i = Some j -> i = S j /\ (j < 2)%nat.
Proof. destruct i as [|[|[|i]]]; cbn; intros [= <-]; lia. Qed.

Lemma follows_update s s' o o' i j t' ot' : follows s o -> oracle_index i = Some j ->
  Inv s' -> evolves suffix s s' -> (forall k, k <> i -> os_tenants s' !! k = os_tenants s !! k) ->
  os_tenants s' !! i = Some t' -> like t' ot' ->
  oracle_inv jobs queues o' -> or_tenants o' = <[j := ot']> (or_tenants o) ->
  or_cursor o' = oracle_cursor (os_cursor s') -> follows s' o'.
Proof.
  intros Hf Hi HI Hev Hoth Ht' Hl Ho Hto Hcu. pose proof (oracle_index_S i j Hi) as [-> Hj].
  pose proof (two_tenants o (oi_definitions _ _ _ (fo_oracle _ _ Hf))) as Hlen. split; [done| |done|done| |].
  - rewrite (ev_config _ _ _ Hev). apply Hf.
  - intros k t Ht. rewrite Hto. destruct (decide (k = S j)) as [->|Hk].
    + rewrite Hi. exists ot'. split; [|by replace t with t' by congruence].
      apply list_lookup_insert_eq. lia.
    + rewrite (Hoth k Hk) in Ht. pose proof (fo_tenant _ _ Hf k t Ht) as Hk'.
      destruct (oracle_index k) as [k'|] eqn:Hx; [|done]. destruct Hk' as (ot & Hot & Hlk).
      exists ot. split; [|done]. destruct (oracle_index_S k k' Hx) as [-> _].
      rewrite list_lookup_insert_ne; [done|]. congruence.
  - eapply jobs_evolves; [exact Hev|apply Hf].
Qed.

Lemma sat_next_cursor s : Inv s -> os_config s = satValidated ->
  (os_cursor s < 4)%nat /\ next_cursor s = (if S (os_cursor s) =? 4 then 0 else S (os_cursor s))%nat.
Proof.
  intros [Hs _] Hc. pose proof (co_len _ Hs) as Hl. pose proof (co_cursor _ Hs) as Hcu.
  rewrite Hc, sat_tenants in Hl. unfold next_cursor. rewrite Hl in *. done.
Qed.

Lemma follows_next s o : follows s o ->
  follows (with_cursor s (next_cursor s))
    (match oracle_index (os_cursor s) with Some _ => oracle_advance o | None => o end).
Proof.
  intros Hf. pose proof Hf as []. destruct (sat_next_cursor s fo_inv0 fo_config0) as [Hc Hn].
  pose proof (two_tenants o (oi_definitions _ _ _ fo_oracle0)) as Hlen.
  assert (Hgen : forall o', oracle_inv jobs queues o' -> or_tenants o' = or_tenants o ->
    or_cursor o' = oracle_cursor (next_cursor s) -> follows (with_cursor s (next_cursor s)) o').
  { intros o' Ho Ht Hcu. split; [|done|done|done|by rewrite Ht|done].
    apply Inv_cursor; [done|]. rewrite Hn.
    pose proof (co_len _ (proj1 fo_inv0)) as Hl. rewrite fo_config0, sat_tenants in Hl. rewrite Hl.
    case_match eqn:He; [lia|]. apply Nat.eqb_neq in He. lia. }
  rewrite Hn in *. destruct (oracle_index (os_cursor s)) as [j|] eqn:Hi.
  - apply Hgen; [by apply inv_advance|done|]. cbn [oracle_advance or_cursor]. rewrite Hlen, fo_cursor0.
    unfold oracle_cursor at 1. rewrite Hi. destruct (oracle_index_S _ _ Hi) as [-> Hj].
    destruct j as [|[|]]; [done|done|lia].
  - apply Hgen; [done|done|]. rewrite fo_cursor0. unfold oracle_cursor. rewrite Hi.
    destruct (os_cursor s) as [|[|[|[|]]]]; try done; lia.
Qed.

(** The tenant at the cursor, on both sides. *)
Lemma follows_here s o j t : follows s o -> oracle_index (os_cursor s) = Some j ->
  os_tenants s !! os_cursor s = Some t ->
  j = or_cursor o /\ exists ot, or_tenants o !! or_cursor o = Some ot /\ like t ot
    /\ serviceTenants !! j = Some (ot_definition ot) /\ ot_definition ot ∈ serviceTenants
    /\ vt_quantum (ts_config t) = oracle_quantum ot.
Proof.
  intros Hf Hi Ht. pose proof (fo_cursor _ _ Hf) as Hc. unfold oracle_cursor in Hc. rewrite Hi in Hc. cbn in Hc.
  split; [done|]. pose proof (fo_tenant _ _ Hf _ t Ht) as Hx. rewrite Hi, <- Hc in Hx.
  destruct Hx as (ot & Hot & Hl). exists ot. destruct (tenant_definition jobs queues o _ ot (fo_oracle _ _ Hf) Hot) as [Hd Hin].
  rewrite Hc in Hd. split_and!; try done. destruct (co_tenant _ (proj1 (fo_inv _ _ Hf)) _ t Ht) as (Hvt & _).
  rewrite (fo_config _ _ Hf) in Hvt. destruct (oracle_index_S _ _ Hi) as [Hs _]. rewrite Hs in Hvt.
  by eapply sat_quantum.
Qed.

(** *** A visit *)

(** What a visit of [pump] is for the oracle: some of its steps, the last of which
    dispatches when the visit does. *)
Definition pump_step (o : oracleState) (flow : pumpFlow) (s' : ownerState) : Prop :=
  match flow with
  | FlowNext => exists o', rtc (oracle_step jobs) o o' /\ or_trace o' = or_trace o
      /\ or_remaining o' = or_remaining o /\ follows s' o' /\ os_inflight s' = []
  | FlowReturn => exists o' id d, rtc (oracle_step jobs) o o' /\ or_trace o' = or_trace o ++ [d]
      /\ S (or_remaining o') = or_remaining o /\ follows s' o' /\ os_inflight s' = [id]
      /\ label id = od_identifier d
  end.

Lemma like_funded s o i j t ot : follows s o -> os_tenants s !! i = Some t -> like t ot ->
  or_tenants o !! j = Some ot -> ot_definition ot ∈ serviceTenants ->
  vt_quantum (ts_config t) = oracle_quantum ot -> like (funded t) (oracle_fund ot).
Proof.
  intros Hf Ht (Hq & Hd & Hv) Hot Hin Hqu.
  pose proof (proj1 (Forall_lookup _ _) (oi_tenants _ _ _ (fo_oracle _ _ Hf)) _ _ Hot) as Hfine.
  destruct (oracle_fund_spec jobs ot Hfine Hin) as (Hop & Hfq & _ & Hfd & _).
  destruct (co_tenant _ (proj1 (fo_inv _ _ Hf)) _ t Ht) as (_ & _ & _ & _ & _ & _ & Hcr).
  rewrite (fo_config _ _ Hf) in Hcr. destruct sat_limits as (_ & _ & Hm & _). rewrite Hm in Hcr.
  pose proof (quantum_range ot Hin) as Hr. destruct Hcr as (H0 & H1 & _).
  unfold like. rewrite Hop, Hfq, Hfd, <- Hv, <- Hd, <- Hqu. unfold funded.
  destruct (ts_visitOpen t) eqn:Hvo; [by rewrite Hvo|]. cbn. specialize (H1 eq_refl).
  split_and!; [done| |done]. unfold ciMaximumRequestUnits, ciMaximumBodyBytes, ciMaximumCompletionTokens, ciDeficitCap in *. lia.
Qed.

(** Nothing is queued for the tenant at the cursor. *)
Lemma idle_follows s o t : follows s o -> os_inflight s = [] -> (0 < or_remaining o)%nat ->
  os_tenants s !! os_cursor s = Some t -> ts_queue t = [] ->
  pump_step o FlowNext (with_cursor s (next_cursor s)).
Proof.
  intros Hf Hin Hrem Ht Hq. destruct (oracle_index (os_cursor s)) as [j|] eqn:Hi.
  - destruct (follows_here s o j t Hf Hi Ht) as (Hj & ot & Hot & Hl & _). destruct Hl as (Hlq & Hld & Hlv).
    destruct (oracle_visit_visited jobs queues o ot (fo_oracle _ _ Hf) Hot) as (o' & Hrun & Hv).
    rewrite Hq in Hlq. cbn in Hlq. destruct Hv as [Hoq|???? |????]; [|congruence..].
    exists (oracle_advance (oracle_set o (oracle_emptied ot))). split; [by apply rtc_once|].
    split; [done|]. split; [done|]. split; [|done].
    assert (Hset : follows s (oracle_set o (oracle_emptied ot))).
    { eapply (follows_update s s o _ (os_cursor s) j t (oracle_emptied ot) Hf Hi (fo_inv _ _ Hf)); [done|done|done|..].
      - destruct (co_tenant _ (proj1 (fo_inv _ _ Hf)) _ t Ht) as (_ & _ & _ & _ & _ & _ & _ & _ & Hem).
        destruct (Hem Hq) as [Hd0 Hv0]. unfold like. cbn. by rewrite Hq, <- Hlq, Hd0, Hv0.
      - pose proof (tenant_fine_at jobs queues o ot (fo_oracle _ _ Hf) Hot) as [Hqf _].
        eapply (inv_set jobs queues o ot); [apply Hf|done|done|done|]. split; [done|]. cbn. unfold ciDeficitCap. lia.
      - cbn. by rewrite Hj.
      - apply Hf. }
    pose proof (follows_next s _ Hset) as Hn. by rewrite Hi in Hn.
  - exists o. split; [apply rtc_refl|]. split; [done|]. split; [done|]. split; [|done].
    pose proof (follows_next s _ Hf) as Hn. by rewrite Hi in Hn.
Qed.

(** Request [id] of tenant [i] goes in flight, alone. *)
Definition serves_head (s : ownerState) (i : nat) (t : tenantState) (id : Z) (rest : list Z) (e : entry)
    (s' : ownerState) : Prop :=
  exists s3, Inv s3 /\ evolves suffix s s3 /\ os_inflight s3 = [id] /\ os_cursor s3 = os_cursor s
    /\ (forall k, k <> i -> os_tenants s3 !! k = os_tenants s !! k)
    /\ (exists t3, os_tenants s3 !! i = Some t3 /\ ts_queue t3 = rest
         /\ ts_deficit t3 = match rest with [] => 0 | _ :: _ => ts_deficit t - a_WorkUnits (e_admission e) end
         /\ ts_visitOpen t3 = match rest with [] => false | _ :: _ => ts_visitOpen t end)
    /\ s' = match rest with [] => with_cursor s3 (next_cursor s3) | _ :: _ => s3 end.

(** The dispatch loop at a funded head, in a state with nothing in flight. *)
Lemma dispatchLoop_quiet s i t id rest e fuel d n :
  Inv s -> os_config s = satValidated -> os_inflight s = [] ->
  os_tenants s !! i = Some t -> ts_queue t = id :: rest -> ts_visitOpen t = true ->
  os_entries s !! id = Some e -> e_phase e = Some accountingQueued -> e_tenant e = i -> alive e ->
  wp (dispatchLoop (S fuel) i d n) (fun r s' =>
    match fst (fst r) with
    | FlowNext => ts_deficit t < a_WorkUnits (e_admission e)
        /\ s' = with_tenants s (alter (set_visitOpen false) i (os_tenants s)) /\ visits i s s'
    | FlowReturn => a_WorkUnits (e_admission e) <= ts_deficit t /\ serves_head s i t id rest e s'
    end) s.
Proof.
  intros HI Hc Hin Ht Hq Hop He Hp Hti Hal.
  destruct (quiet_counters s (proj1 HI) Hin) as [[Hg0 Hg1] Htc]. destruct (Htc _ _ Ht) as [Ht0 Ht1].
  destruct (co_entry _ (proj1 HI) id e He) as (_ & Hadm & _). rewrite Hc in Hadm.
  assert (Hroom : inflightFits (ts_counters t) (e_admission e) (vt_inflight (ts_config t)) = true).
  { apply (quiet_fits e); [done|done| |done]. destruct (co_tenant _ (proj1 HI) _ _ Ht) as (Hvt & _).
    rewrite Hc in Hvt. by eapply sat_tenant. }
  cbn [dispatchLoop]. o_steps. rewrite Hq. o_steps. rewrite Hroom. cbn [negb]. cbn iota. wp_case.
  { o_steps. cbn [fst]. split; [assumption|]. split; [done|].
    apply (close_unfunded s i t id rest e HI Ht Hq Hop He). assumption. }
  o_steps. destruct (Hal (x_tick (os_ext s))) as [Herr _]. rewrite Herr. o_steps. wp_case.
  { exfalso. match goal with H : _ <= w_now ?n |- _ => pose proof (proj2 (Hal n)); lia end. }
  o_steps. match goal with |- wp _ _ ?st => set (s4 := st) end.
  assert (HI4 : Inv s4) by (by apply Inv_ticked, Inv_ticked).
  assert (Hgroom : inflightFits (os_global s4) (e_admission e) (vc_globalInflight (os_config s4)) = true).
  { apply (quiet_fits e); [done|done| |done]. change (os_config s4) with (os_config s). rewrite Hc.
    destruct sat_limits as (Hil & Hiw & _). revert Hil Hiw. destruct (vc_globalInflight satValidated). cbn. by intros -> ->. }
  rewrite Hgroom. cbn [negb]. cbn iota. apply wp_assoc. eapply wp_bind_mono.
  { apply (funded_dispatch s4 i t id rest e HI4 Ht Hq Hop He Hp Hti Hroom Hgroom); [lia|].
    exists (x_tick (os_ext s)). split; apply Hal. }
  intros [] s3 (Hv3 & _ & Hc3 & Hcf3 & Hin3 & t3 & Ht3 & Hq3 & _ & Et3).
  pose proof (vi_inv _ _ _ Hv3) as HI3. change (os_inflight s4) with (os_inflight s) in Hin3. rewrite Hin in Hin3. cbn [app] in Hin3.
  assert (Hcf : os_config s3 = satValidated) by (rewrite Hcf3; exact Hc).
  pose proof (busy_full s3 id (proj1 HI3) Hcf ltac:(rewrite Hin3; left)) as Hfull. rewrite Hcf3 in Hfull.
  assert (Hpost : forall s', s' = match rest with [] => with_cursor s3 (next_cursor s3) | _ :: _ => s3 end ->
    serves_head s i t id rest e s').
  { intros s' ->. exists s3. split; [exact HI3|]. split; [|split; [exact Hin3|]].
    - etrans; [|apply Hv3]. etrans; [apply (evolves_ticked suffix s (S (x_tick (os_ext s)))); lia|].
      apply (evolves_ticked suffix (with_ext s (ext_tick (os_ext s) (S (x_tick (os_ext s)))))). cbn. lia.
    - split; [exact Hc3|]. split; [apply Hv3|]. split; [|done]. exists t3. split; [exact Ht3|]. split; [exact Hq3|].
      subst t3. cbn [ts_queue tenant_serve tenant_dequeue set_deficit set_counters ts_deficit ts_visitOpen] in Hq3 |- *.
      by rewrite Hq3. }
  cbn beta. o_steps. rewrite Hfull. cbn iota. rewrite Hq3. destruct rest as [|id2 rest2].
  - wp_step. wp_step. eapply wp_mono; [by eapply closeVisit_spec|]. intros [] ? ->. cbn beta.
    eapply wp_mono; [by apply advance_spec|]. intros [] s5 [-> HI5]. wp_step. cbn [fst]. split; [lia|by apply Hpost].
  - wp_steps. cbn [fst]. split; [lia|by apply Hpost].
Qed.

(** The oracle's visit to the tenant at the cursor, which has request [id] at its head. *)
Lemma unfunded_follows s o s2 t ot identifier rest job : follows s o -> oracle_index (os_cursor s) = Some (or_cursor o) ->
  or_tenants o !! or_cursor o = Some ot -> ot_definition ot ∈ serviceTenants -> like (funded t) (oracle_fund ot) ->
  ot_queue ot = identifier :: rest -> map label (ts_queue t) = ot_queue ot ->
  Inv s2 -> evolves suffix s s2 -> os_cursor s2 = os_cursor s -> os_inflight s2 = [] ->
  (forall k, k <> os_cursor s -> os_tenants s2 !! k = os_tenants s !! k) ->
  os_tenants s2 !! os_cursor s = Some (set_visitOpen false (funded t)) ->
  oracle_step jobs o (oracle_advance (oracle_set o (mkOracleTenant (ot_definition ot) (ot_queue ot) (ot_deficit (oracle_fund ot)) false))) ->
  jobs !! identifier = Some job -> pump_step o FlowNext (with_cursor s2 (next_cursor s2)).
Proof.
  intros Hf Hi Hot Hind Hlf Hoq Hl HI2 Hev2 Hcu2 Hin2 Hoth Ht2 Hst Hjob.
  eexists. split; [apply rtc_once; exact Hst|]. split; [done|]. split; [done|]. split; [|done].
  assert (Hset : follows s2 (oracle_set o (mkOracleTenant (ot_definition ot) (ot_queue ot) (ot_deficit (oracle_fund ot)) false))).
  { apply (follows_update s s2 o _ (os_cursor s) (or_cursor o) (set_visitOpen false (funded t))
      (mkOracleTenant (ot_definition ot) (ot_queue ot) (ot_deficit (oracle_fund ot)) false) Hf Hi HI2 Hev2 Hoth Ht2).
    - destruct (funded_open t) as [_ Hq2]. unfold like. cbn. rewrite Hq2. split; [done|]. split; [apply Hlf|done].
    - destruct (oracle_fund_spec jobs ot) as (_ & _ & _ & _ & _ & Hdd); [by eapply tenant_fine_at; [apply Hf|]|done|].
      eapply (inv_set jobs queues o ot); [apply Hf|done|done|done|].
      pose proof (tenant_fine_at jobs queues o ot (fo_oracle _ _ Hf) Hot) as [Hqf _]. by split.
    - done.
    - rewrite Hcu2. apply Hf. }
  pose proof (follows_next s2 _ Hset) as Hn. rewrite Hcu2, Hi in Hn. exact Hn.
Qed.

Lemma served_follows s o s3 ot id rest job t3 :
  let served := mkOracleTenant (ot_definition ot) (map label rest) (ot_deficit (oracle_fund ot) - job_workUnits job) true in
  let o1 := oracle_served o ot job (if decide (map label rest = []) then oracle_emptied served else served) in
  follows s o -> oracle_index (os_cursor s) = Some (or_cursor o) ->
  or_tenants o !! or_cursor o = Some ot -> ot_definition ot ∈ serviceTenants -> ot_queue ot = label id :: map label rest ->
  jobs !! label id = Some job -> job_workUnits job <= ot_deficit (oracle_fund ot) ->
  Inv s3 -> evolves suffix s s3 -> os_cursor s3 = os_cursor s ->
  (forall k, k <> os_cursor s -> os_tenants s3 !! k = os_tenants s !! k) ->
  os_tenants s3 !! os_cursor s = Some t3 -> ts_queue t3 = rest ->
  ts_deficit t3 = match rest with [] => 0 | _ :: _ => ot_deficit (oracle_fund ot) - job_workUnits job end ->
  ts_visitOpen t3 = match rest with [] => false | _ :: _ => true end ->
  follows s3 o1 /\ od_identifier (oracle_record o ot job) = label id.
Proof.
  intros served o1 Hf Hi Hot Hind Hoq Hjob Hle HI3 Hev3 Hcu3 Hoth Ht3 Hq3 Hd3 Hv3. unfold o1.
  set (ot' := if decide _ then _ else _).
  destruct (served_job_at jobs queues o ot (label id) (fo_oracle _ _ Hf) Hot) as (job0 & Hjob0 & Hjid & Hjk & Hjt & Hju);
    [rewrite Hoq; left|]. assert (job0 = job) as -> by congruence. split; [|done].
  apply (follows_update s s3 o _ (os_cursor s) (or_cursor o) t3 ot' Hf Hi HI3 Hev3 Hoth Ht3).
  - unfold like, ot', served. rewrite Hq3, Hd3, Hv3. by destruct rest.
  - apply (inv_serve jobs queues o ot (label id) (map label rest) job ot' (fo_oracle _ _ Hf) Hot Hoq Hjob0 Hjid Hjk Hjt).
    + unfold ot', served. by case_decide.
    + unfold ot', served. by case_decide.
    + destruct (oracle_fund_spec jobs ot) as (_ & _ & _ & _ & _ & Hdd); [by eapply tenant_fine_at; [apply Hf|]|done|].
      pose proof (tenant_fine_at jobs queues o ot (fo_oracle _ _ Hf) Hot) as [Hqf _]. rewrite Hoq in Hqf.
      apply Forall_cons in Hqf as [_ Hqf].
      unfold ot', served. case_decide; (split; [done|cbn; unfold ciDeficitCap in *; lia]).
  - done.
  - rewrite Hcu3. apply Hf.
Qed.

(** The dispatch loop, on both sides. *)
Lemma dispatchLoop_follows s o s2 d n t id rest fuel : follows s o -> (0 < or_remaining o)%nat ->
  os_tenants s !! os_cursor s = Some t -> ts_queue t = id :: rest ->
  Inv s2 -> evolves suffix s s2 -> os_cursor s2 = os_cursor s -> os_inflight s2 = [] -> os_entries s2 = os_entries s ->
  (forall k, k <> os_cursor s -> os_tenants s2 !! k = os_tenants s !! k) -> os_tenants s2 !! os_cursor s = Some (funded t) ->
  wp (dispatchLoop (S fuel) (os_cursor s) d n) (fun r s' =>
    match fst (fst r) with
    | FlowNext => pump_step o FlowNext (with_cursor s' (next_cursor s')) /\ Inv s'
    | FlowReturn => pump_step o FlowReturn s'
    end) s2.
Proof.
  intros Hf Hrem Ht Hq HI2 Hev2 Hcu2 Hin2 He2 Hoth Ht2.
  destruct (head_job s o _ t id rest Hf Ht Hq) as (e & job & He & Hp & Hti & _ & Hal & Hjob & Hw).
  destruct (oracle_index (os_cursor s)) as [j|] eqn:Hi.
  2:{ pose proof (fo_tenant _ _ Hf _ t Ht) as Hx. rewrite Hi in Hx. congruence. }
  destruct (follows_here s o j t Hf Hi Ht) as (-> & ot & Hot & Hl & _ & Hind & Hqu).
  pose proof (like_funded s o _ _ t ot Hf Ht Hl Hot Hind Hqu) as Hlf. pose proof Hlf as (_ & Hdf & _).
  destruct (oracle_visit_visited jobs queues o ot (fo_oracle _ _ Hf) Hot) as (o' & Hrun & Hv).
  assert (Hst : oracle_step jobs o o') by done.
  assert (Hoq : ot_queue ot = label id :: map label rest) by (destruct Hl as (<- & _); by rewrite Hq).
  assert (Hc2 : os_config s2 = satValidated) by (rewrite (ev_config _ _ _ Hev2); apply Hf).
  destruct (funded_open t) as [Hop2 Hq2]. rewrite Hq in Hq2. rewrite <- He2 in He.
  eapply wp_mono; [by apply (dispatchLoop_quiet s2 (os_cursor s) (funded t) id rest e fuel d n)|].
  intros [[[] d'] n'] s'; cbn [fst].
  - intros (Hlt & -> & Hv2). set (s3 := with_tenants s2 _) in *. split; [|apply Hv2].
    destruct Hv as [?|identifier orest job' Hoq' Hjob' _|identifier orest job' Hoq' Hjob' Hle]; [congruence| |].
    2:{ exfalso. assert (identifier = label id) as -> by congruence. assert (job' = job) as -> by congruence. lia. }
    apply (unfunded_follows s o s3 t ot identifier orest job' Hf Hi Hot Hind Hlf Hoq' (proj1 Hl) (vi_inv _ _ _ Hv2)).
    + etrans; [exact Hev2|apply Hv2].
    + exact Hcu2.
    + exact Hin2.
    + intros k Hk. rewrite (vi_others _ _ _ Hv2 k Hk). by apply Hoth.
    + unfold s3. cbn. by rewrite list_lookup_alter_eq, Ht2.
    + exact Hst.
    + exact Hjob'.
  - intros (Hle & s3 & HI3 & Hev3 & Hin3 & Hcu3 & Hoth3 & (t3 & Ht3 & Hq3 & Hd3 & Hv3) & ->).
    destruct Hv as [?|identifier orest job' Hoq' Hjob' Hlt|identifier orest job' Hoq' Hjob' Hle' served]; [congruence| |].
    { exfalso. assert (identifier = label id) as -> by congruence. assert (job' = job) as -> by congruence. lia. }
    assert (identifier = label id) as -> by congruence. assert (orest = map label rest) as -> by congruence.
    assert (job' = job) as -> by congruence. rewrite Hop2 in Hv3. rewrite Hdf, Hw in Hd3.
    destruct (served_follows s o s3 ot id rest job t3 Hf Hi Hot Hind Hoq Hjob Hle' HI3) as [Hset Hid].
    + by etrans.
    + by rewrite Hcu3.
    + intros k Hk. rewrite Hoth3 by done. by apply Hoth.
    + exact Ht3.
    + exact Hq3.
    + exact Hd3.
    + exact Hv3.
    + fold served in Hset.
      assert (Hgen : forall o1 s', oracle_step jobs o o1 -> or_trace o1 = or_trace o ++ [oracle_record o ot job] ->
        S (or_remaining o1) = or_remaining o -> follows s' o1 -> os_inflight s' = [id] -> pump_step o FlowReturn s').
      { intros o1 s' Hst1 Htr1 Hrm1 Hf1 Hin1. exists o1, id, (oracle_record o ot job). split; [by apply rtc_once|]. done. }
      destruct rest as [|id2 rest2].
      * pose proof (follows_next s3 _ Hset) as Hn. rewrite Hcu3, Hcu2, Hi in Hn.
        eapply Hgen; [exact Hst|done|cbn; lia|exact Hn|exact Hin3].
      * eapply Hgen; [exact Hst|done|cbn; lia|exact Hset|exact Hin3].
Qed.

Lemma visit_follows s o d n : follows s o -> os_inflight s = [] -> (0 < or_remaining o)%nat ->
  wp (visit d n) (fun r s' => pump_step o (fst (fst r)) s') s.
Proof.
  intros Hf Hin Hrem. pose proof (fo_inv _ _ Hf) as HI.
  destruct (lookup_lt_is_Some_2 (os_tenants s) _ (co_cursor _ (proj1 HI))) as [t Ht].
  unfold visit. o_steps. destruct (ts_queue t) as [|id rest] eqn:Hq.
  { eapply wp_mono; [by eapply dropDead_empty|]. intros [] ? ->. cbn beta. o_steps. rewrite Hq.
    wp_step. eapply wp_mono; [by eapply closeVisit_spec|]. intros [] ? ->. cbn beta. wp_step.
    eapply wp_mono; [by apply advance_spec|]. intros [] s2 [-> HI2]. cbn beta. wp_step. cbn [fst].
    by apply (idle_follows s o t). }
  destruct (head_job s o _ t id rest Hf Ht Hq) as (e & _ & He & _ & _ & _ & Hal & _).
  eapply wp_mono; [by eapply dropDead_alive|]. intros [] ? (m & _ & ->). set (s1 := with_ext s _).
  assert (Hf1 : follows s1 o) by (by apply follows_ticked). pose proof (fo_inv _ _ Hf1) as HI1.
  cbn beta. o_steps. rewrite Hq. wp_step.
  eapply wp_mono; [apply wp_and; [by eapply (fundVisit_spec _ s1); [..|rewrite Hq]|by eapply (fundVisit_tenants s1)]|].
  intros [] s2 [(Hv2 & Hc2 & Ht2) [ts Es2]]. cbn beta. wp_step.
  eapply wp_mono; [eapply (dispatchLoop_follows s1 o s2 d n t id rest _ Hf1 Hrem Ht Hq)|].
  - apply Hv2.
  - apply Hv2.
  - by rewrite Hc2.
  - by rewrite Es2.
  - by rewrite Es2.
  - apply Hv2.
  - exact Ht2.
  - intros [[flow d'] n'] s3 Hpost. cbn [fst] in *. cbn beta iota. destruct flow; [|by wp_step].
    destruct Hpost as [Hpost HI3]. wp_step. eapply wp_mono; [by apply advance_spec|]. intros [] s4 [-> _]. cbn beta. by wp_step.
Qed.

(** *** The pump *)

Lemma some_head s o : follows s o -> (0 < or_remaining o)%nat ->
  exists i t id rest, os_tenants s !! i = Some t /\ ts_queue t = id :: rest.
Proof.
  intros Hf Hrem. rewrite (oi_remaining _ _ _ (fo_oracle _ _ Hf)) in Hrem.
  assert (exists j ot, or_tenants o !! j = Some ot /\ ot_queue ot <> []) as (j & ot & Hot & Hq).
  { revert Hrem. generalize (or_tenants o). intros l. induction l as [|ot l IH]; cbn; [lia|]. intros Hs.
    destruct (ot_queue ot) eqn:Hq; [|exists 0%nat, ot; split; [done|congruence]].
    destruct (IH ltac:(cbn in Hs; lia)) as (j & ot' & ? & ?). by exists (S j), ot'. }
  pose proof (two_tenants o (oi_definitions _ _ _ (fo_oracle _ _ Hf))) as Hlen.
  assert (Hj : oracle_index (S j) = Some j).
  { apply lookup_lt_Some in Hot. destruct j as [|[|]]; [done|done|lia]. }
  destruct (lookup_lt_is_Some_2 (os_tenants s) (S j)) as [t Ht].
  { rewrite (co_len _ (proj1 (fo_inv _ _ Hf))), (fo_config _ _ Hf), sat_tenants. apply lookup_lt_Some in Hot. lia. }
  pose proof (fo_tenant _ _ Hf _ t Ht) as Hx. rewrite Hj in Hx. destruct Hx as (ot' & Hot' & Hl & _).
  replace ot' with ot in * by congruence. destruct (ts_queue t) as [|id rest] eqn:Hqt; [by rewrite <- Hl in Hq|].
  by exists (S j), t, id, rest.
Qed.

(** With nothing in flight, [pump] dispatches what the oracle dispatches next. *)
Lemma pump_follows s o : follows s o -> os_inflight s = [] -> (0 < or_remaining o)%nat ->
  wp pump (fun _ s' => pump_step o FlowReturn s') s.
Proof.
  intros Hf Hin Hrem. apply (pump_until (pump_step o FlowNext)).
  - intros s1 (o1 & _ & _ & Hm1 & Hf1 & Hin1). split; [apply Hf1|]. split; [apply Hf1|]. split; [done|].
    apply (some_head s1 o1); [done|lia].
  - intros s1 d n (o1 & Hr1 & Ht1 & Hm1 & Hf1 & Hin1).
    eapply wp_mono; [apply (visit_follows s1 o1 d n Hf1 Hin1); lia|]. intros [[[] d'] n'] s2; cbn [fst].
    + intros (o2 & Hr2 & Ht2 & Hm2 & Hrest). exists o2. split; [by etrans|]. split; [congruence|]. split; [congruence|done].
    + intros (o2 & id & dd & Hr2 & Ht2 & Hm2 & Hrest). exists o2, id, dd. split; [by etrans|].
      split; [congruence|]. split; [congruence|done].
  - exists o. split; [apply rtc_refl|]. by split_and!.
Qed.

(** With nothing queued, [pump] dispatches nothing. *)
Lemma pump_empty s : Inv s -> QueuedCount (os_global s) = 0 -> wp pump (fun _ s' => s' = s) s.
Proof.
  intros HI H0. unfold pump. o_steps. destruct (os_tenants s) as [|t0 ts] eqn:Hts; [by wp_step|].
  o_steps. wp_case; [by wp_step|]. o_steps. unfold pumpFuel. cbn [pumpLoop]. o_steps. rewrite H0. cbn. by wp_step.
Qed.

(** *** A turn of the owner *)

Lemma follows_ext s o x : Inv (with_ext s x) -> follows s o -> follows (with_ext s x) o.
Proof. intros HI []. split; [exact HI|done..]. Qed.

Lemma expireReady_alive s o now : follows s o -> (forall id e, os_entries s !! id = Some e ->
    e_phase e = Some accountingQueued -> now < e_deadline e) ->
  wp (expireReady now) (fun _ s' => s' = s) s.
Proof.
  intros Hf Hnow. unfold expireReady. o_steps. cbn [expireReady_loop]. o_steps.
  destruct (os_expiry s) as [|id rest] eqn:Hex; [by wp_step|].
  destruct (expiry_entry s id (proj1 (fo_inv _ _ Hf))) as (e & He & Hp); [rewrite Hex; left|].
  o_steps. pose proof (Hnow id e He Hp). wp_case; [by wp_step|lia].
Qed.

Lemma finished_follows s o busy e x : follows s o -> Inv (finished s busy e x) -> follows (finished s busy e x) o.
Proof.
  intros [] HI. split; [exact HI|done|done|done| |].
  - intros i t. cbn [finished os_tenants]. rewrite list_lookup_alter. case_decide as Hi; [|by apply fo_tenant0].
    subst i. intros (t0 & Ht0 & ->)%fmap_Some. exact (fo_tenant0 _ t0 Ht0).
  - intros id e' He' Hp'. cbn in He'. apply lookup_delete_Some in He' as [_ He']. by apply fo_jobs0.
Qed.

Lemma run_head_ext s : Inv s -> wp run_head (fun _ s' => (Inv s' /\ forall id, known s' id -> known s id) /\ exists x, s' = with_ext s x) s.
Proof.
  intros HI. apply wp_and; [eapply wp_mono; [by apply run_head_spec|]; intros [] s' (HI' & Hg & _)|].
  { split; [done|]. intros id Hk. by destruct (gr_known _ _ _ _ Hg id Hk). }
  unfold run_head, resetExpiryTimer. o_steps. cbn [os_expiry with_ext]. destruct (os_expiry s) as [|id rest] eqn:Hex.
  - o_steps. by eexists.
  - destruct (expiry_entry s id (proj1 HI)) as (e & He & Hp); [rewrite Hex; left|].
    wp_step. apply wp_get_entry with e; [done|]. o_steps. by eexists.
Qed.

Lemma notifyDrained_accepting s : os_accepting s = true -> wp notifyDrained (fun _ s' => s' = s) s.
Proof. intros Ha. unfold notifyDrained. o_steps. rewrite Ha. cbn. by wp_step. Qed.

(** When the request in flight ends, the oracle's next one is dispatched. *)
Definition next_dispatch (o : oracleState) (s' : ownerState) : Prop :=
  if (or_remaining o =? 0)%nat then follows s' o /\ os_inflight s' = [] else pump_step o FlowReturn s'.

Lemma next_dispatch_ext o s x : Inv (with_ext s x) -> next_dispatch o s -> next_dispatch o (with_ext s x).
Proof.
  intros HI. unfold next_dispatch. case_match.
  - intros [Hf Hin]. split; [by apply follows_ext|done].
  - intros (o' & id & d & H1 & H2 & H3 & Hf & H4). exists o', id, d. do 3 (split; [done|]). split; [by apply follows_ext|done].
Qed.

Lemma nothing_queued s o : follows s o -> or_remaining o = 0%nat -> QueuedCount (os_global s) = 0.
Proof.
  intros Hf Hrem. pose proof (fo_inv _ _ Hf) as HI. rewrite (co_global _ (proj1 HI)).
  assert (Hno : forall id, ~ waiting (os_entries s) id).
  { intros id (e & He & Hp). destruct (co_entry _ (proj1 HI) id e He) as (_ & _ & Hid & _).
    destruct (entry_tenant s id e (proj1 HI) He) as [t Ht].
    destruct (co_tenant _ (proj1 HI) _ t Ht) as (_ & _ & Hin & _).
    assert (id ∈ ts_queue t) as Hq by (apply Hin; by exists e).
    pose proof (fo_tenant _ _ Hf _ t Ht) as Hx. destruct (oracle_index (e_tenant e)) as [j|].
    - destruct Hx as (ot & Hot & Hl & _). rewrite (oi_remaining _ _ _ (fo_oracle _ _ Hf)) in Hrem.
      rewrite (nothing_left _ _ _ Hrem Hot) in Hl. destruct (ts_queue t); [by apply not_elem_of_nil in Hq|done].
    - rewrite Hx in Hq. by apply not_elem_of_nil in Hq. }
  revert Hno. generalize (os_entries s). intros E. induction E as [|id e E Hid IH] using map_ind; intros Hno; [by rewrite tally_empty|].
  rewrite tally_insert by done. cbn. rewrite IH.
  - unfold charge_if, charge, of_any. destruct (e_phase e) as [[]|] eqn:Hp; [|done|done].
    exfalso. apply (Hno id). exists e. by rewrite lookup_insert_eq.
  - intros id' (e' & He' & Hp'). apply (Hno id'). exists e'. rewrite lookup_insert_ne by congruence. done.
Qed.

Lemma pump_next s o : follows s o -> os_inflight s = [] -> os_accepting s = true ->
  wp pump (fun _ s' => Inv s' /\ os_accepting s' = true /\ next_dispatch o s') s.
Proof.
  intros Hf Hin Ha. pose proof (fo_inv _ _ Hf) as HI. unfold next_dispatch.
  destruct (Nat.eqb_spec (or_remaining o) 0) as [H0|H0].
  - eapply wp_mono; [apply (pump_empty s HI); by eapply nothing_queued|]. by intros [] ? ->.
  - eapply wp_mono; [apply wp_and; [by apply pump_spec|apply (pump_follows s o Hf Hin); lia]|].
    intros [] s' [(HI' & Hev & _) Hp]. split; [done|]. split; [|done].
    destruct (ev_flags _ _ _ Hev) as (-> & _). done.
Qed.

Lemma finish_turn s o busy outcome : follows s o -> os_inflight s = [busy] -> os_accepting s = true ->
  wp (owner_turn (finishCommand busy outcome)) (fun on s' => on = true /\ os_accepting s' = true /\ next_dispatch o s') s.
Proof.
  intros Hf Hin Ha. pose proof (fo_inv _ _ Hf) as HI.
  assert (serving (os_entries s) busy) as (e & He & Hp) by (apply (co_inflight _ (proj1 HI)); rewrite Hin; left).
  unfold owner_turn, run_command. wp_step. o_steps. set (s0 := with_ext s _).
  assert (Hf0 : follows s0 o) by (by apply follows_ticked).
  eapply wp_mono; [apply (expireReady_alive s0 o _ Hf0)|].
  { intros id e0 He0 Hp0. destruct (fo_jobs _ _ Hf0 id e0 He0 Hp0) as [Hal _]. apply Hal. }
  intros [] ? ->. cbn beta. unfold handle. wp_step. wp_step.
  eapply wp_mono; [apply (finishEntry_spec s0 busy outcome (fo_inv _ _ Hf0))|].
  intros r s1 (HI1 & _ & Hpost). unfold finish_post in Hpost. change (os_entries s0) with (os_entries s) in Hpost.
  rewrite He, Hp in Hpost. destruct Hpost as (-> & m & _ & ->).
  assert (Hf1 : follows (finished s0 busy e (finish_ext (os_ext s0) busy m)) o) by (by apply finished_follows).
  assert (Hin1 : os_inflight (finished s0 busy e (finish_ext (os_ext s0) busy m)) = []).
  { cbn [finished os_inflight]. change (os_inflight s0) with (os_inflight s). rewrite Hin. unfold list_Remove.
    rewrite filter_cons_False by congruence. done. }
  set (s1 := finished _ _ _ _) in *. cbn beta. wp_step. cbn beta iota. wp_step.
  eapply wp_mono; [by apply (pump_next s1 o)|]. intros [] s2 (HI2 & Ha2 & Hnd). cbn beta. wp_step.
  eapply wp_mono; [by apply notifyDrained_accepting|]. intros [] ? ->. cbn beta. wp_step. cbn beta iota. wp_step.
  eapply wp_mono; [by apply run_head_ext|]. intros [] s3 [[HI3 _] [x ->]]. cbn beta. wp_step.
  split; [done|]. split; [done|]. by apply next_dispatch_ext.
Qed.

(** ** Serving everything *)

(** The requests dispatched one after the other, each when the one before ends. *)
Fixpoint serve (turns : nat) (s : ownerState) : option (list Z) :=
  match turns with
  | O => Some []
  | S turns =>
      match os_inflight s with
      | [busy] =>
          match owner_turn (finishCommand busy ServingCompleted) s with
          | Done (true, s') => ids ← serve turns s'; Some (os_inflight s' ++ ids)
          | _ => None
          end
      | _ => None
      end
  end.

Lemma serve_follows s o busy : follows s o -> os_inflight s = [busy] -> os_accepting s = true ->
  exists ids o', serve (S (or_remaining o)) s = Some ids /\ rtc (oracle_step jobs) o o' /\ or_remaining o' = 0%nat
    /\ map od_identifier (or_trace o') = map od_identifier (or_trace o) ++ map label ids.
Proof.
  remember (or_remaining o) as turns eqn:Hm. revert s o busy Hm.
  induction turns as [|turns IH]; intros s o busy Hm Hf Hin Ha;
    destruct (finish_turn s o busy ServingCompleted Hf Hin Ha) as (on & s' & Hrun & -> & Ha' & Hnd);
    unfold next_dispatch in Hnd; rewrite <- Hm in Hnd; cbn [Nat.eqb] in Hnd; cbn [serve]; rewrite Hin, Hrun.
  - destruct Hnd as [_ ->]. cbn. exists [], o. split_and!; [done|apply rtc_refl|done|]. by rewrite app_nil_r.
  - destruct Hnd as (o1 & id & d & Hr1 & Ht1 & Hm1 & Hf1 & Hin1 & Hl).
    destruct (IH s' o1 id ltac:(lia) Hf1 Hin1 Ha') as (ids & o' & Hser & Hr & Hz & Htr).
    cbn [serve] in Hser. rewrite Hin1 in Hser |- *. rewrite Hser. cbn [mbind option_bind app].
    exists (id :: ids), o'. split_and!; [done|by etrans|done|].
    rewrite Htr, Ht1, map_app, <- app_assoc. cbn. by rewrite Hl.
Qed.
End schedule.
