(* ===== verification/SatArrive.v ===== *)
(** * Saturation harness: loading the scheduler

    From the empty scheduler of the measured configuration: the control request is
    dispatched at once and holds the only place in flight; every service request
    that is submitted behind it is queued; and once the control request ends, the
    scheduler serves them in the order of the oracle's plan. *)

From S2P Require Import Prelude AdmissionConfig GoHeap AdmissionOwner AdmissionInv AdmissionSteps.
From S2P Require Import AdmissionArrive AdmissionPump AdmissionHandle.
From S2P Require Import AdmissionFinish AdmissionRun AdmissionScheduler AdmissionStarvation.
From S2P Require Import GoJson GoIO SatWorkload SatSeeded SatOracle SatSchedule.

(** ** What queued requests add up to *)

Lemma tally_queued_le P E l :
  (forall id e, E !! id = Some e -> P e = true -> e_phase e = Some accountingQueued -> id ∈ l) ->
  QueuedCount (tally P E) <= Z.of_nat (length l).
Proof.
  revert E. induction l as [|id l IH]; intros E Hl.
  - assert (Hno : forall id e, E !! id = Some e -> P e = true -> e_phase e <> Some accountingQueued).
    { intros id e He HP Hp. by apply (Hl id e) in Hp; [apply not_elem_of_nil in Hp|..]. }
    clear Hl. induction E as [|id e E Hid IH] using map_ind; [by rewrite tally_empty|].
    rewrite tally_insert by done. cbn.
    assert (QueuedCount (tally P E) <= 0).
    { apply IH. intros id' e' He'. apply (Hno id'). rewrite lookup_insert_ne; [done|]. congruence. }
    unfold charge_if, charge. destruct (P e) eqn:HP; [|cbn; lia].
    pose proof (Hno id e ltac:(by rewrite lookup_insert_eq) HP). destruct (e_phase e) as [[]|]; cbn; congruence || lia.
  - cbn [length]. destruct (E !! id) as [e|] eqn:He.
    + rewrite (tally_delete P E id e He). cbn.
      assert (QueuedCount (tally P (delete id E)) <= Z.of_nat (length l)).
      { apply IH. intros id' e' He' HP Hp. apply lookup_delete_Some in He' as [Hne He'].
        apply (Hl id' e') in He'; [|done..]. apply elem_of_cons in He' as [?|?]; [congruence|done]. }
      unfold charge_if, charge. destruct (P e), (e_phase e) as [[]|]; cbn; lia.
    + assert (QueuedCount (tally P E) <= Z.of_nat (length l)); [|lia].
      apply IH. intros id' e' He' HP Hp. pose proof (Hl id' e' He' HP Hp) as Hin.
      apply elem_of_cons in Hin as [?|?]; [congruence|done].
Qed.

Lemma tally_queued_bounded P E v : map_Forall (fun _ e => admissible v (e_admission e)) E ->
  QueuedBytes (tally P E) <= vc_maxBodyBytes v * QueuedCount (tally P E)
  /\ QueuedWork (tally P E) <= vc_maxRequestUnits v * QueuedCount (tally P E).
Proof.
  induction E as [|id e E Hid IH] using map_ind; intros Ha; [rewrite tally_empty; cbn; lia|].
  apply map_Forall_insert in Ha as [[Hb Hw] Ha]; [|done]. destruct (IH Ha).
  rewrite tally_insert by done. cbn. unfold charge_if, charge. destruct (P e), (e_phase e) as [[]|]; cbn; lia.
Qed.

Lemma sat_queues : vc_globalQueue satValidated = MkQueueLimits 20 5120 6400
  /\ vc_maxBodyBytes satValidated = 256 /\ vc_maxRequestUnits satValidated = 320.
Proof. by vm_compute. Qed.

Lemma sat_index tenant j : serviceTenants !! j = Some tenant ->
  vc_tenantByID satValidated !! td_id tenant = Some (S j)
  /\ exists vt, vc_tenants satValidated !! S j = Some vt /\ vt_queue vt = MkQueueLimits 10 2560 3200.
Proof. destruct j as [|[|j]]; [intros [= <-]; vm_compute; eauto..|done]. Qed.

Lemma sat_control : vc_tenantByID satValidated !! controlTenantID = Some 0%nat
  /\ exists vt, vc_tenants satValidated !! 0%nat = Some vt /\ vt_queue vt = MkQueueLimits 1 256 320.
Proof. vm_compute. eauto. Qed.

Lemma exceeded_none c a l n : QueuedCount c <= n -> QueuedBytes c <= 256 * QueuedCount c -> QueuedWork c <= 320 * QueuedCount c ->
  a_BodyBytes a <= 256 -> a_WorkUnits a <= 320 -> n + 1 <= ql_Count l -> 256 * (n + 1) <= ql_Bytes l ->
  320 * (n + 1) <= ql_Work l -> exceeded c a l = ResourceNone.
Proof.
  intros. unfold exceeded.
  destruct (Z.ltb_spec (ql_Count l) (QueuedCount c + 1)); [lia|].
  destruct (Z.ltb_spec (ql_Bytes l) (QueuedBytes c + a_BodyBytes a)); [lia|].
  destruct (Z.ltb_spec (ql_Work l) (QueuedWork c + a_WorkUnits a)); [lia|done].
Qed.

Section arrive.
Context `{World}.

(** ** Arrivals behind a request in flight *)

Lemma pump_full s : Inv s -> inflightFull (os_global s) (vc_globalInflight (os_config s)) = true -> wp pump (fun _ s' => s' = s) s.
Proof.
  intros HI Hf. unfold pump. o_steps. destruct (os_tenants s); [by wp_step|]. o_steps. rewrite Hf. by wp_step.
Qed.

Lemma expireReady_none s now : Inv s -> none_ready now s -> wp (expireReady now) (fun _ s' => s' = s) s.
Proof.
  intros HI Hnow. unfold expireReady. o_steps. cbn [expireReady_loop]. o_steps.
  destruct (os_expiry s) as [|id rest] eqn:Hex; [by wp_step|].
  destruct (expiry_entry s id (proj1 HI)) as (e & He & Hp); [rewrite Hex; left|].
  o_steps. pose proof (Hnow id e He Hp). wp_case; [by wp_step|lia].
Qed.

(** A turn that queues a request and cannot dispatch anything. *)
Lemma arrive_turn s item i : Inv s -> os_accepting s = true -> fresh_item s item ->
  (forall n, none_ready (w_now n) s) -> (forall n m, verdict (with_ext s (ext_tick (os_ext s) n)) item (w_now m) = None) ->
  vc_tenantByID (os_config s) !! a_Tenant (e_admission item) = Some i ->
  (forall s', queues s item i s' -> Inv s' -> wp pump (fun _ s2 => Inv s2 /\ os_accepting s2 = true) s') ->
  wp (owner_turn (admitCommand item)) (fun on s' => on = true /\ Inv s' /\ exists s1 s2 x, queues s item i s1 /\ Inv s1
    /\ pump s1 = Done (tt, s2) /\ s' = with_ext s2 x /\ forall id, known s' id -> known s2 id) s.
Proof.
  intros HI Ha Hfr Hnr Hv Hi Hpump. unfold owner_turn, run_command. wp_step. o_steps. set (s0 := with_ext s _).
  assert (HI0 : Inv s0) by (by apply Inv_ticked).
  assert (Hv0 : forall m, verdict s0 item (w_now m) = None) by (intros m; apply Hv).
  eapply wp_mono; [apply (expireReady_none s0); [done|apply Hnr]|]. intros [] ? ->. cbn beta. unfold handle. wp_step. wp_step.
  eapply wp_mono; [apply (admit_spec s0 item); [done|done]|]. intros [] s1 (HI1 & _ & Hpost).
  rewrite Hv0 in Hpost. destruct Hpost as (i' & Hi' & Hq).
  assert (i' = i) as -> by (change (os_config s0) with (os_config s) in Hi'; congruence).
  apply (queues_ticked s) in Hq; [|lia]. cbn beta. wp_step. cbn beta iota. wp_step.
  destruct (Hpump s1 Hq HI1) as ([] & s2 & Hrun & HI2 & Ha2). exists tt, s2. split; [done|]. cbn beta. wp_step.
  eapply wp_mono; [by apply notifyDrained_accepting|]. intros [] ? ->. cbn beta. wp_step. cbn beta iota. wp_step.
  eapply wp_mono; [by apply run_head_ext|]. intros [] s3 [[HI3 Hk] [x ->]]. cbn beta. wp_step.
  split; [done|]. split; [done|]. by exists s1, s2, x.
Qed.

(** ** The control request *)

(** Only request [id] of tenant 0 is queued, and nothing is in flight. *)
Definition alone (id : Z) (s : ownerState) : Prop :=
  Inv s /\ os_config s = satValidated /\ os_inflight s = []
  /\ (forall i t, os_tenants s !! i = Some t -> ts_queue t = if decide (i = 0%nat) then [id] else [])
  /\ (exists e, os_entries s !! id = Some e /\ e_phase e = Some accountingQueued /\ e_tenant e = 0%nat /\ alive e).

Definition held_by (id : Z) (s : ownerState) : Prop :=
  Inv s /\ os_inflight s = [id] /\ os_cursor s = 1%nat
  /\ (forall i t, os_tenants s !! i = Some t -> ts_queue t = []).

Lemma alone_same id s s' : alone id s -> Inv s' -> os_config s' = os_config s -> os_inflight s' = os_inflight s ->
  os_entries s' = os_entries s -> (forall i t', os_tenants s' !! i = Some t' -> exists t, os_tenants s !! i = Some t /\ ts_queue t' = ts_queue t) ->
  alone id s'.
Proof.
  intros (_ & Hc & Hin & Hq & He) HI Hc' Hin' He' Ht'. split; [done|]. split; [congruence|]. split; [congruence|].
  split; [|by rewrite He']. intros i t' Hi. destruct (Ht' i t' Hi) as (t & Ht & ->). by apply Hq.
Qed.

Lemma alone_head id s : alone id s -> has_head s.
Proof.
  intros (HI & Hc & _ & Hq & _). destruct (lookup_lt_is_Some_2 (os_tenants s) 0) as [t Ht].
  { rewrite (co_len _ (proj1 HI)), Hc, sat_tenants. lia. }
  exists 0%nat, t, id, []. split; [done|]. by apply Hq in Ht.
Qed.

Lemma alone_elsewhere id s t d n : alone id s -> os_tenants s !! os_cursor s = Some t -> os_cursor s <> 0%nat ->
  wp (visit d n) (fun r s' => fst (fst r) = FlowNext /\ s' = with_cursor s (next_cursor s) /\ Inv s') s.
Proof.
  intros Hs Ht Hc. pose proof Hs as (HI & _ & _ & Hq & _). pose proof (Hq _ t Ht) as Hqt. rewrite decide_False in Hqt by done.
  unfold visit. o_steps. rewrite Hqt. eapply wp_mono; [by eapply dropDead_empty|]. intros [] ? ->. cbn beta. o_steps. rewrite Hqt.
  wp_step. eapply wp_mono; [by eapply closeVisit_spec|]. intros [] ? ->. cbn beta. wp_step.
  eapply wp_mono; [by apply advance_spec|]. intros [] s2 [-> HI2]. cbn beta. by wp_step.
Qed.

Lemma alone_visit id s d n : alone id s ->
  wp (visit d n) (fun r s' => evolves suffix s s' /\ match fst (fst r) with FlowNext => alone id s' | FlowReturn => held_by id s' end) s.
Proof.
  intros Hs. pose proof Hs as (HI & Hc & Hin & Hq & (e & He & Hp & Hti & Hal)).
  destruct (lookup_lt_is_Some_2 (os_tenants s) _ (co_cursor _ (proj1 HI))) as [t Ht].
  destruct (decide (os_cursor s = 0%nat)) as [H0|H0].
  2:{ eapply wp_mono; [by eapply alone_elsewhere|]. intros [[f d'] n'] s'. cbn [fst]. intros (-> & -> & HI').
      split; [apply (evolves_cursor suffix)|]. eapply alone_same; [exact Hs|done..|]. intros i t' Hi. by exists t'. }
  pose proof (Hq _ t Ht) as Hqt. rewrite decide_True in Hqt by done.
  unfold visit. o_steps. rewrite Hqt. cbn [length]. eapply wp_mono; [by eapply dropDead_alive|]. intros [] ? (m & Hm & ->).
  set (s1 := with_ext s _). assert (HI1 : Inv s1) by (by apply Inv_ticked). cbn beta. o_steps. rewrite Hqt. wp_step.
  eapply wp_mono; [apply wp_and; [by eapply (fundVisit_spec _ s1); [..|rewrite Hqt]|by eapply (fundVisit_tenants s1)]|].
  intros [] s2 [(Hv2 & Hc2 & Ht2) [ts Es2]]. cbn beta. wp_step. destruct (funded_open t) as [Hop2 Hq2].
  assert (He2 : os_entries s2 !! id = Some e) by (by rewrite Es2).
  eapply wp_mono; [apply (dispatchLoop_quiet s2 (os_cursor s) (funded t) id [] e); try assumption|].
  - apply Hv2.
  - by rewrite Es2.
  - by rewrite Es2.
  - by rewrite Hq2.
  - by rewrite H0.
  - assert (Hev2 : evolves suffix s s2) by (etrans; [by apply (evolves_ticked suffix s m)|apply Hv2]).
    assert (Hoth2 : forall k, k <> 0%nat -> os_tenants s2 !! k = os_tenants s !! k).
    { intros k Hk. apply (vi_others _ _ _ Hv2). congruence. }
    rewrite H0 in *. intros [[[] d'] n'] s3; cbn [fst].
    + intros (_ & -> & Hv3). cbn beta iota. wp_step. eapply wp_mono; [apply advance_spec, Hv3|]. intros [] s4 [-> HI4].
      cbn beta. wp_step. cbn [fst]. split; [etrans; [exact Hev2|]; etrans; [apply Hv3|apply (evolves_cursor suffix)]|].
      eapply (alone_same id s); [exact Hs|exact HI4|by rewrite Es2..|]. intros i t' Hi. cbn in Hi.
      rewrite list_lookup_alter in Hi. case_decide as Hi0.
      * subst i. rewrite Ht2 in Hi. cbn in Hi. injection Hi as <-. by exists t.
      * rewrite Hoth2 in Hi by done. by exists t'.
    + intros (_ & s4 & HI4 & Hev4 & Hin4 & Hcu4 & Hoth4 & (t4 & Ht4 & Hq4 & _) & ->). cbn beta iota. wp_step. cbn [fst].
      assert (Hc4 : os_config s4 = satValidated) by (by rewrite (ev_config _ _ _ Hev4), (ev_config _ _ _ Hev2)).
      destruct (sat_next_cursor s4 HI4 Hc4) as [_ Hn]. rewrite Hcu4, Hc2 in Hn. change (os_cursor s1) with (os_cursor s) in Hn.
      rewrite H0 in Hn. cbn in Hn. split; [etrans; [exact Hev2|]; etrans; [exact Hev4|apply (evolves_cursor suffix)]|].
      split; [|split; [exact Hin4|split; [exact Hn|]]].
      * apply Inv_cursor; [done|]. rewrite Hn, (co_len _ (proj1 HI4)), Hc4, sat_tenants. lia.
      * intros i t' Hi. cbn in Hi. destruct (decide (i = 0%nat)) as [->|Hi0]; [congruence|].
        rewrite Hoth4, Hoth2 in Hi by done. rewrite (Hq i t' Hi). by rewrite decide_False.
Qed.

Lemma alone_pump id s : alone id s -> wp pump (fun _ s' => evolves suffix s s' /\ held_by id s') s.
Proof.
  intros Hs. apply (pump_until (fun s1 => evolves suffix s s1 /\ alone id s1)).
  - intros s1 [_ Hs1]. pose proof Hs1 as (? & ? & ? & _). split; [done|]. split; [done|]. split; [done|]. by eapply alone_head.
  - intros s1 d n [Hev1 Hs1]. eapply wp_mono; [by apply alone_visit|]. intros [[[] d'] n'] s2; cbn [fst]; intros [Hev2 Hs2];
      (split; [by etrans|done]).
  - by split.
Qed.

(** ** Submissions *)

Context (profile : saturationProfile).

(** No context ends, and no two readings of the clock are the queue timeout apart. *)
Definition calm : Prop :=
  (forall n c, w_err n c = false) /\ forall n m, w_now m < w_now n + pf_defaultQueueTimeout profile.

(** What the gateway passes to [Acquire] for a job without a timeout header. *)
Definition jobAdmission (job : saturationJob) : Admission :=
  MkAdmission (td_id (job_tenant job)) (Z.of_nat (length (job_body job))) (job_workUnits job)
    (pf_defaultQueueTimeout profile).
Definition submission (job : saturationJob) : action := Arrive (jobAdmission job) (job_id job).

Definition submitted (s : ownerState) (next : Z) (job : saturationJob) : entry :=
  newEntry (next + 1) (jobAdmission job) (job_id job)
    (w_now (x_tick (os_ext s)) + pf_defaultQueueTimeout profile) deadlineQueue.

(** What every submission finds. *)
Record ready (s : ownerState) (next : Z) (job : saturationJob) (i : nat) : Prop := {
  rd_inv : Inv s;
  rd_config : os_config s = satValidated;
  rd_accepting : os_accepting s = true;
  rd_next : 0 <= next < two32;
  rd_known : forall id, known s id -> 0 < id <= next;
  rd_bytes : 0 < Z.of_nat (length (job_body job)) <= 256;
  rd_units : 0 < job_workUnits job <= 320;
  rd_tenant : vc_tenantByID satValidated !! td_id (job_tenant job) = Some i;
  rd_id : td_id (job_tenant job) <> 0;
  rd_waiting : forall n, none_ready (w_now n) s;
  rd_room : forall t, os_tenants s !! i = Some t ->
    exceeded (ts_counters t) (jobAdmission job) (vt_queue (ts_config t)) = ResourceNone;
  rd_groom : exceeded (os_global s) (jobAdmission job) (vc_globalQueue satValidated) = ResourceNone;
}.

Lemma submitted_fresh s next job i : ready s next job i -> fresh_item s (submitted s next job).
Proof.
  intros []. destruct sat_queues as (_ & Hb & Hu). split; [|split; [|done]].
  - intros Hk. apply rd_known0 in Hk. cbn in Hk. lia.
  - rewrite rd_config0. unfold admissible. rewrite Hb, Hu. cbn. lia.
Qed.

Lemma submitted_verdict s next job i n m : calm -> ready s next job i ->
  verdict (with_ext s (ext_tick (os_ext s) n)) (submitted s next job) (w_now m) = None.
Proof.
  intros [Herr Hnow] []. unfold verdict, submitted, newEntry.
  cbn [os_accepting with_ext e_clientCtx os_config e_admission jobAdmission a_Tenant e_deadline os_tenants os_global].
  rewrite rd_accepting0, rd_config0, rd_tenant0, Herr. cbn [negb].
  destruct (Z.ltb_spec (w_now m) (w_now (x_tick (os_ext s)) + pf_defaultQueueTimeout profile)) as [_|Hge];
    [cbn [negb]|pose proof (Hnow (x_tick (os_ext s)) m); lia].
  destruct (os_tenants s !! i) as [t|] eqn:Ht; [|done]. rewrite (rd_room0 t eq_refl), rd_groom0. done.
Qed.

Lemma submission_play s next job i :
  0 < pf_defaultQueueTimeout profile <= MaximumQueueTimeout -> calm -> ready s next job i ->
  (forall s', queues s (submitted s next job) i s' -> Inv s' -> wp pump (fun _ s2 => Inv s2 /\ os_accepting s2 = true) s') ->
  exists s' s1 s2 x, play1 (submission job) (s, next) = Some (s', next + 1) /\ Inv s'
    /\ queues s (submitted s next job) i s1 /\ Inv s1 /\ pump s1 = Done (tt, s2) /\ s' = with_ext s2 x
    /\ forall id, known s' id -> known s2 id.
Proof.
  intros Hto Hcalm Hr Hpump. pose proof Hr as []. destruct sat_queues as (_ & Hb & Hu).
  assert (Hcheck : acquireCheck (os_config s) false (jobAdmission job) false (w_now (x_tick (os_ext s))) None
    = Ok (w_now (x_tick (os_ext s)) + pf_defaultQueueTimeout profile, deadlineQueue)).
  { unfold acquireCheck. cbn [guard_err mbind result_bind].
    assert (validateAdmission (os_config s) (jobAdmission job) = MkDecision DecisionNone ResourceNone) as ->.
    { rewrite rd_config0. unfold validateAdmission, jobAdmission. cbn [a_Tenant a_BodyBytes a_WorkUnits a_QueueTimeout].
      rewrite Hb, Hu, rd_tenant0, !(proj2 (Z.eqb_neq _ _)), !(proj2 (Z.ltb_ge _ _)), (proj2 (Z.leb_gt _ _)) by lia. done. }
    cbn [d_Kind]. rewrite bool_decide_eq_false_2 by (intros Hn; by apply Hn). cbn [guard_err a_QueueTimeout jobAdmission].
    cbn. destruct (Z.ltb_spec (w_now (x_tick (os_ext s))) (w_now (x_tick (os_ext s)) + pf_defaultQueueTimeout profile)); [done|lia]. }
  destruct (arrive_turn s (submitted s next job) i rd_inv0 rd_accepting0 (submitted_fresh _ _ _ _ Hr) rd_waiting0) as
    (on & s' & Hrun & -> & HI' & s1 & s2 & x & Hq & HI1 & Hp & Es' & Hk).
  - intros n m. by eapply submitted_verdict.
  - rewrite rd_config0. exact rd_tenant0.
  - exact Hpump.
  - exists s', s1, s2, x. split; [|by split_and!]. unfold play1, submission. rewrite Hcheck.
    cbn [a_BodyBytes a_WorkUnits jobAdmission].
    assert (next +u 1 = next + 1) as -> by (apply u64_small; unfold is_u64, two64, two32 in *; lia).
    match goal with |- (if ?b then _ else _) = _ => assert (b = true) as -> end.
    { unfold two64, two32 in *. repeat (apply andb_true_iff; split); (apply Z.leb_le || apply Z.ltb_lt); lia. }
    unfold turn_on. change (newEntry (next + 1) (jobAdmission job) (job_id job) _ deadlineQueue) with (submitted s next job).
    by rewrite Hrun.
Qed.

(** ** The loaded scheduler *)

Context (w : seededWorkload).

(** The service requests in the order of their submission; the control request has
    id 1, so request [id] of the scheduler is number [id - 2] of them. *)
Definition submissions : list Z := wl_initialService w ++ wl_lateService w.
Definition label (id : Z) : Z := default 0 (submissions !! Z.to_nat (id - 2)).

Definition submitted_job (x : Z) (j : nat) (job : saturationJob) : Prop :=
  wl_jobs w !! x = Some job /\ serviceTenants !! j = Some (job_tenant job) /\ tenantOf (wl_jobs w) x = j
  /\ 0 < Z.of_nat (length (job_body job)) <= 256 /\ 0 < job_workUnits job <= 320.

Record submittable : Prop := {
  sb_length : length submissions = 20%nat;
  sb_jobs : forall x, x ∈ submissions -> exists j job, submitted_job x j job;
  sb_queues : forall j queue, wl_serviceQueues w !! j = Some queue -> queue = filter (fun x => tenantOf (wl_jobs w) x = j) submissions;
  sb_each : forall j, (length (filter (fun x => tenantOf (wl_jobs w) x = j) submissions) <= 10)%nat;
}.

(** The first [k] service requests are queued behind the control request. *)
Record loaded (k : nat) (st : ownerState * Z) : Prop := {
  ld_inv : Inv (fst st);
  ld_config : os_config (fst st) = satValidated;
  ld_accepting : os_accepting (fst st) = true;
  ld_inflight : os_inflight (fst st) = [1];
  ld_cursor : os_cursor (fst st) = 1%nat;
  ld_next : snd st = Z.of_nat (S k);
  ld_known : forall id, known (fst st) id -> 0 < id <= snd st;
  ld_tenant : forall i t, os_tenants (fst st) !! i = Some t -> ts_deficit t = 0 /\ ts_visitOpen t = false
    /\ map label (ts_queue t) = match oracle_index i with
         | Some j => filter (fun x => tenantOf (wl_jobs w) x = j) (take k submissions) | None => [] end;
  ld_jobs : forall id e, os_entries (fst st) !! id = Some e -> e_phase e = Some accountingQueued ->
    stands_for label (wl_jobs w) id e;
}.

Lemma stands_alive id e n : stands_for label (wl_jobs w) id e -> w_now n < e_deadline e.
Proof. intros [Hal _]. apply Hal. Qed.

(** A request that waits has a number after the control request's. *)
Lemma loaded_waiting k st id : loaded k st -> waiting (os_entries (fst st)) id -> id ∈ map Z.of_nat (seq 2 k).
Proof.
  intros [] (e & He & Hp). destruct (ld_known0 id ltac:(left; eauto)) as [H0 H1]. rewrite ld_next0 in H1.
  assert (id <> 1).
  { intros ->. assert (serving (os_entries (fst st)) 1) as (e' & He' & Hp').
    { apply (co_inflight _ (proj1 ld_inv0)). rewrite ld_inflight0. left. }
    congruence. }
  apply list_elem_of_fmap. exists (Z.to_nat id). split; [lia|]. apply list_elem_of_In, in_seq. lia.
Qed.

Lemma loaded_counts k st : loaded k st ->
  QueuedCount (os_global (fst st)) <= Z.of_nat k
  /\ forall i t, os_tenants (fst st) !! i = Some t -> QueuedCount (ts_counters t) <= Z.of_nat (length (ts_queue t)).
Proof.
  intros Hl. pose proof (ld_inv _ _ Hl) as [Hs _]. split.
  - rewrite (co_global _ Hs). etrans; [apply (tally_queued_le _ _ (map Z.of_nat (seq 2 k)))|rewrite length_map, length_seq; lia].
    intros id e He _ Hp. apply (loaded_waiting k st id Hl). by exists e.
  - intros i t Ht. destruct (co_tenant _ Hs i t Ht) as (_ & _ & Hq & -> & _). apply tally_queued_le.
    intros id e He Hti Hp. apply Hq. exists e. unfold of_tenant in Hti. apply bool_decide_eq_true in Hti. done.
Qed.

Lemma loaded_bounded k st : loaded k st ->
  (QueuedBytes (os_global (fst st)) <= 256 * QueuedCount (os_global (fst st))
   /\ QueuedWork (os_global (fst st)) <= 320 * QueuedCount (os_global (fst st)))
  /\ forall i t, os_tenants (fst st) !! i = Some t ->
       QueuedBytes (ts_counters t) <= 256 * QueuedCount (ts_counters t) /\ QueuedWork (ts_counters t) <= 320 * QueuedCount (ts_counters t).
Proof.
  intros Hl. pose proof (ld_inv _ _ Hl) as [Hs _]. destruct sat_queues as (_ & Hb & Hu).
  assert (Ha : map_Forall (fun _ e => admissible satValidated (e_admission e)) (os_entries (fst st))).
  { intros id e He. destruct (co_entry _ Hs id e He) as (_ & Hadm & _). by rewrite <- (ld_config _ _ Hl). }
  rewrite <- Hb, <- Hu. split; [rewrite (co_global _ Hs); by apply tally_queued_bounded|].
  intros i t Ht. destruct (co_tenant _ Hs i t Ht) as (_ & _ & _ & -> & _). by apply tally_queued_bounded.
Qed.

(** There is room for the next service request. *)
Lemma loaded_ready k s next x j job : submittable -> loaded k (s, next) -> submissions !! k = Some x -> submitted_job x j job ->
  ready s next job (S j).
Proof.
  intros Hsb Hl Hx (Hjob & Htn & Hto & Hlen & Hun). pose proof Hl as []. cbn [fst snd] in *.
  destruct (loaded_counts _ _ Hl) as [Hgc Htc], (loaded_bounded _ _ Hl) as [[Hgb Hgw] Htb]. cbn [fst] in *.
  destruct (sat_index _ _ Htn) as (Hti & vt & Hvt & Hql). pose proof (sb_length Hsb) as Hl20.
  apply lookup_lt_Some in Hx as Hk. split; try assumption.
  - unfold two32. lia.
  - destruct j as [|[|]]; cbn in Htn; [by injection Htn as <-..|done].
  - intros n id e He Hp. eapply stands_alive. by apply ld_jobs0.
  - intros t Ht. destruct (ld_tenant0 _ t Ht) as (_ & _ & Hq). destruct (Htb _ t Ht) as [Hb1 Hb2].
    destruct (co_tenant _ (proj1 ld_inv0) _ t Ht) as (Hvt' & _). rewrite ld_config0 in Hvt'.
    assert (ts_config t = vt) as -> by congruence. rewrite Hql.
    apply (exceeded_none _ _ _ 9); cbn; try assumption; try lia.
    etrans; [by apply (Htc (S j))|]. rewrite <- (length_map label), Hq.
    assert (oracle_index (S j) = Some j) as -> by (destruct j as [|[|]]; done).
    pose proof (sb_each Hsb j) as He. rewrite <- (take_drop k submissions), filter_app, length_app in He.
    rewrite (drop_S _ _ _ Hx), filter_cons_True in He by done. cbn [length] in He. lia.
  - destruct sat_queues as (-> & _). apply (exceeded_none _ _ _ (Z.of_nat k)); cbn; try assumption; lia.
Qed.

(** *** One more *)

Lemma queues_tenant s item i s1 j t : queues s item i s1 -> os_tenants s1 !! j = Some t ->
  exists t0, os_tenants s !! j = Some t0
    /\ t = if decide (j = i) then tenant_enqueue (e_id item) (e_admission item) t0 else t0.
Proof.
  intros (e & ex & en & n & -> & _ & _ & _ & Hti & Hadm & _). cbn [os_tenants with_ext enqueued].
  rewrite Hti, Hadm, list_lookup_alter. case_decide as Hi.
  - subst j. intros (t0 & Ht0 & ->)%fmap_Some. exists t0. by rewrite decide_True.
  - intros Ht. exists t. by rewrite decide_False.
Qed.

Lemma queues_entry s item i s1 id e : Inv s -> fresh_item s item -> os_accepting s = true -> queues s item i s1 ->
  os_entries s1 !! id = Some e -> e_phase e = Some accountingQueued ->
  id = e_id item /\ e_admission e = e_admission item /\ e_clientCtx e = e_clientCtx item /\ e_deadline e = e_deadline item
  \/ exists e0, os_entries s !! id = Some e0 /\ same_request e0 e /\ e_phase e0 = Some accountingQueued.
Proof.
  intros HI Hfr Ha Hq He Hp. pose proof (queues_grows s item i s1 (proj1 Hfr) Ha Hq) as Hg.
  destruct (decide (id = e_id item)) as [->|Hne].
  - left. destruct Hq as (e1 & ex & en & n & -> & _ & He1 & _ & _ & ? & ? & ? & _). cbn in He. by simplify_eq.
  - right. destruct (gr_entry _ _ _ _ Hg id e He) as [?|(e0 & He0 & Hsame)]; [congruence|]. exists e0. split; [done|]. split; [done|].
    destruct (gr_rewait _ _ _ _ Hg id ltac:(by exists e)) as [(e0' & He0' & Hp0)|[? _]]; congruence.
Qed.

Lemma loaded_step k s next x j job : 0 < pf_defaultQueueTimeout profile <= MaximumQueueTimeout -> calm ->
  submittable -> loaded k (s, next) -> submissions !! k = Some x -> submitted_job x j job ->
  exists st', play1 (submission job) (s, next) = Some st' /\ loaded (S k) st'.
Proof.
  intros Hto Hcalm Hsb Hl Hx Hj. pose proof (loaded_ready k s next x j job Hsb Hl Hx Hj) as Hr.
  pose proof (submitted_fresh _ _ _ _ Hr) as Hfr. pose proof Hl as []. cbn [fst snd] in *.
  assert (Hfull : forall s1, queues s (submitted s next job) (S j) s1 -> Inv s1 -> wp pump (fun _ s2 => s2 = s1) s1).
  { intros s1 Hq HI1. apply pump_full; [done|]. destruct Hq as (e & ex & en & n & -> & _).
    apply (busy_full _ 1); [apply HI1|exact ld_config0|]. change (1 ∈ os_inflight s). rewrite ld_inflight0. left. }
  destruct (submission_play s next job (S j) Hto Hcalm Hr) as (s' & s1 & s2 & y & Hplay & HI' & Hq & HI1 & Hp & -> & Hk).
  { intros s1 Hq HI1. eapply wp_mono; [by apply Hfull|]. intros [] ? ->. split; [done|].
    destruct Hq as (e & ex & en & n & -> & _). exact ld_accepting0. }
  pose proof (wp_run _ _ _ _ _ (Hfull s1 Hq HI1) Hp) as ->. exists (with_ext s1 y, next + 1). split; [done|].
  pose proof (queues_grows s _ _ s1 (proj1 Hfr) ld_accepting0 Hq) as Hg.
  assert (Hlab : label (next + 1) = x).
  { unfold label. rewrite ld_next0. replace (Z.to_nat (Z.of_nat (S k) + 1 - 2)) with k by lia. by rewrite Hx. }
  assert (Hsame : os_inflight s1 = os_inflight s /\ os_cursor s1 = os_cursor s /\ os_accepting s1 = os_accepting s).
  { destruct Hq as (e & ex & en & n & -> & _). done. }
  destruct Hsame as (Hin1 & Hcu1 & Ha1). split; cbn [fst snd]; [exact HI'|..].
  - change (os_config s1 = satValidated). by rewrite (gr_config _ _ _ _ Hg).
  - exact (eq_trans Ha1 ld_accepting0).
  - exact (eq_trans Hin1 ld_inflight0).
  - exact (eq_trans Hcu1 ld_cursor0).
  - lia.
  - intros id Hid. apply Hk in Hid. destruct (gr_known _ _ _ _ Hg id Hid) as [Hid'|<-]; [apply ld_known0 in Hid'; lia|cbn; lia].
  - intros i t Ht. destruct (queues_tenant s _ _ s1 i t Hq Ht) as (t0 & Ht0 & ->). destruct (ld_tenant0 i t0 Ht0) as (Hd & Hv & Hqt).
    destruct Hj as (_ & Htn & Hto' & _). assert (Hoj : oracle_index (S j) = Some j) by (destruct j as [|[|]]; done).
    rewrite (take_S_r _ _ _ Hx). case_decide as Hi.
    + subst i. split; [done|]. split; [done|]. cbn [tenant_enqueue ts_queue set_counters set_queue]. rewrite map_app, Hqt, Hoj, filter_app.
      rewrite filter_cons_True, filter_nil by done. cbn. by rewrite Hlab.
    + split; [done|]. split; [done|]. rewrite Hqt. destruct (oracle_index i) as [j'|] eqn:Hi'; [|done].
      rewrite filter_app, filter_cons_False, filter_nil, app_nil_r; [done|]. intros Heq. apply Hi.
      apply oracle_index_S in Hi' as [-> _]. congruence.
  - intros id e He Hpe. destruct (queues_entry s _ _ s1 id e ld_inv0 Hfr ld_accepting0 Hq He Hpe) as [(-> & Ha & Hc & Hd)|(e0 & He0 & Hsm & Hp0)].
    + split; [|exists job; cbn [submitted newEntry e_id]; rewrite Hlab, Ha; split; [apply Hj|done]].
      intros n. rewrite Hc, Hd. destruct Hcalm as [Herr Hnow]. split; [apply Herr|apply Hnow].
    + destruct (ld_jobs0 id e0 He0 Hp0) as [Hal Hjob]. destruct Hsm as (_ & _ & Ha & Hc & Hd & _).
      unfold stands_for, alive. rewrite Ha, Hc, Hd. done.
Qed.

(** *** The control request goes first *)

Definition scheduler_start : option (ownerState * Z) :=
  sy ← newScheduler saturationAdmissionConfig; Some (sy_owner sy, sy_nextID sy).

Lemma scheduler_start_state : exists s x, scheduler_start = Some (s, 0) /\ s = with_ext (newOwnerState satValidated) x
  /\ Inv s /\ forall id, ~ known s id.
Proof.
  pose proof (newOwnerState_inv satValidated (validateConfig_wf _ _ saturation_typed satValidated_accepted)) as HI.
  destruct (run_head_ext _ HI) as ([] & s & Hrun & [HI' Hk] & x & Es). exists s, x. split; [|split; [done|split; [done|]]].
  - unfold scheduler_start, newScheduler. rewrite satValidated_accepted, Hrun. done.
  - intros id Hid. destruct (Hk id Hid) as [[? Hn]|[[? Hn]|[? Hn]]]; done.
Qed.

Definition control_job (job : saturationJob) : Prop :=
  job_tenant job = controlTenant /\ 0 < Z.of_nat (length (job_body job)) <= 256 /\ 0 < job_workUnits job <= 320.

Lemma control_ready s x job : s = with_ext (newOwnerState satValidated) x -> Inv s -> (forall id, ~ known s id) ->
  control_job job -> ready s 0 job 0.
Proof.
  intros Es HI Hno (Htn & Hlen & Hun). destruct sat_control as (Hti & vt & Hvt & Hql). split; try assumption.
  - by rewrite Es.
  - by rewrite Es.
  - unfold two32. lia.
  - intros id Hk. by apply Hno in Hk.
  - rewrite Htn. exact Hti.
  - by rewrite Htn.
  - intros n id e He _. exfalso. apply (Hno id). left. eauto.
  - intros t Ht. destruct (co_tenant _ (proj1 HI) _ t Ht) as (Hvt' & _). rewrite Es in Hvt', Ht. cbn [os_config with_ext newOwnerState] in Hvt'.
    assert (ts_config t = vt) as -> by congruence. rewrite Hql. cbn [os_tenants with_ext newOwnerState] in Ht.
    apply list_lookup_fmap_Some in Ht as (vt0 & -> & _). apply (exceeded_none _ _ _ 0); cbn; lia.
  - rewrite Es. destruct sat_queues as (-> & _). apply (exceeded_none _ _ _ 0); cbn; lia.
Qed.

Lemma control_alone s job s1 x : s = with_ext (newOwnerState satValidated) x -> calm -> Inv s -> ready s 0 job 0 ->
  queues s (submitted s 0 job) 0 s1 -> Inv s1 -> alone 1 s1 /\ os_accepting s1 = true /\ forall id, known s1 id -> id = 1.
Proof.
  intros Es [Herr Hnow] HI Hr Hq HI1. pose proof (submitted_fresh _ _ _ _ Hr) as Hfr.
  pose proof (queues_grows s _ _ s1 (proj1 Hfr) (rd_accepting _ _ _ _ Hr) Hq) as Hg.
  assert (Hk1 : forall id, known s1 id -> id = 1).
  { intros id Hid. destruct (gr_known _ _ _ _ Hg id Hid) as [Hid'|<-]; [|done]. apply (rd_known _ _ _ _ Hr) in Hid'. lia. }
  split; [|split; [|exact Hk1]].
  - split; [done|]. split; [by rewrite (gr_config _ _ _ _ Hg), Es|].
    assert (Hqs := Hq). destruct Hqs as (e & ex & en & n & Es1 & _ & He & Hp & Hti & Hadm & Hctx & Hdl & _).
    split; [by rewrite Es1, Es|]. split.
    + intros i t Ht. destruct (queues_tenant s _ _ s1 i t Hq Ht) as (t0 & Ht0 & ->). rewrite Es in Ht0.
      cbn [os_tenants with_ext newOwnerState] in Ht0. apply list_lookup_fmap_Some in Ht0 as (vt & -> & _).
      by case_decide.
    + exists e. split; [by rewrite Es1|]. split; [done|]. split; [done|]. intros m. rewrite Hctx, Hdl. split; [apply Herr|apply Hnow].
  - destruct Hq as (e & ex & en & n & -> & _). exact (rd_accepting _ _ _ _ Hr).
Qed.

Lemma held_loaded s1 s2 x : os_config s1 = satValidated -> os_accepting s1 = true -> (forall id, known s1 id -> id = 1) ->
  evolves suffix s1 s2 -> held_by 1 s2 -> Inv (with_ext s2 x) -> (forall id, known (with_ext s2 x) id -> known s2 id) ->
  loaded 0 (with_ext s2 x, 1).
Proof.
  intros Hc Ha Hk1 Hev (HI2 & Hin2 & Hcu2 & Hq2) HI Hk.
  assert (Hk2 : forall id, known s2 id -> id = 1).
  { intros id [[e He]|[Hr|Hr]]; apply Hk1.
    - destruct (ev_entry _ _ _ Hev id e He) as (e0 & He0 & _). left. eauto.
    - destruct (ev_known _ _ _ Hev id Hr) as [?|(e & He & _)]; [right; by left|left; eauto].
    - rewrite (ev_causes _ _ _ Hev) in Hr. by right; right. }
  split; cbn [fst snd]; [exact HI|..].
  - change (os_config s2 = satValidated). by rewrite (ev_config _ _ _ Hev).
  - change (os_accepting s2 = true). by destruct (ev_flags _ _ _ Hev) as (-> & _).
  - exact Hin2.
  - exact Hcu2.
  - done.
  - intros id Hid. apply Hk, Hk2 in Hid. lia.
  - intros i t Ht. pose proof (Hq2 i t Ht) as Hqt.
    destruct (co_tenant _ (proj1 HI2) _ t Ht) as (_ & _ & _ & _ & _ & _ & _ & _ & Hem). destruct (Hem Hqt) as [-> ->].
    split; [done|]. split; [done|]. rewrite Hqt, take_0. by destruct (oracle_index i).
  - intros id e He Hp. exfalso. destruct (entry_tenant s2 id e (proj1 HI2) He) as [t Ht].
    destruct (co_tenant _ (proj1 HI2) _ t Ht) as (_ & _ & Hin & _). assert (id ∈ ts_queue t) as Hq by (apply Hin; by exists e).
    rewrite (Hq2 _ t Ht) in Hq. by apply not_elem_of_nil in Hq.
Qed.

Lemma control_loaded job s : 0 < pf_defaultQueueTimeout profile <= MaximumQueueTimeout -> calm -> control_job job ->
  scheduler_start = Some (s, 0) -> exists st, play1 (submission job) (s, 0) = Some st /\ loaded 0 st.
Proof.
  intros Hto Hcalm Hjob Hst. destruct scheduler_start_state as (s0 & x & Hst' & Es & HI & Hno).
  assert (s0 = s) as -> by congruence. pose proof (control_ready s x job Es HI Hno Hjob) as Hr.
  assert (Hpump : forall s1, queues s (submitted s 0 job) 0 s1 -> Inv s1 ->
    wp pump (fun _ s2 => evolves suffix s1 s2 /\ held_by 1 s2) s1).
  { intros s1 Hq HI1. apply alone_pump. by eapply control_alone. }
  destruct (submission_play s 0 job 0 Hto Hcalm Hr) as (s' & s1 & s2 & y & Hplay & HI' & Hq & HI1 & Hp & -> & Hk).
  { intros s1 Hq HI1. eapply wp_mono; [by apply Hpump|]. intros [] s2 [Hev (HI2 & _)]. split; [done|].
    destruct (ev_flags _ _ _ Hev) as (-> & _). by eapply control_alone. }
  exists (with_ext s2 y, 1). split; [done|]. destruct (wp_run _ _ _ _ _ (Hpump s1 Hq HI1) Hp) as [Hev Hh].
  destruct (control_alone s job s1 x Es Hcalm HI Hr Hq HI1) as ((_ & Hc1 & _) & Ha1 & Hk1). by eapply held_loaded.
Qed.

(** *** All of them *)

Definition job_actions (xs : list Z) : list action := map (fun x => submission (jobOf (wl_jobs w) x)) xs.

Lemma loaded_all k st : 0 < pf_defaultQueueTimeout profile <= MaximumQueueTimeout -> calm -> submittable ->
  (k <= length submissions)%nat -> loaded k st -> exists st', play (job_actions (drop k submissions)) st = Some st' /\ loaded (length submissions) st'.
Proof.
  intros Hto Hcalm Hsb. remember (length submissions - k)%nat as m eqn:Hm. revert k st Hm.
  induction m as [|m IH]; intros k st Hm Hle Hl.
  - rewrite drop_ge by lia. exists st. split; [done|]. by replace (length submissions) with k by lia.
  - destruct (lookup_lt_is_Some_2 submissions k) as [x Hx]; [lia|].
    destruct (sb_jobs Hsb x) as (j & job & Hj); [by eapply list_elem_of_lookup_2|]. destruct st as [s next].
    destruct (loaded_step k s next x j job Hto Hcalm Hsb Hl Hx Hj) as (st1 & Hp1 & Hl1).
    destruct (IH (S k) st1 ltac:(lia) ltac:(lia) Hl1) as (st' & Hp & Hl'). exists st'. split; [|done].
    rewrite (drop_S _ _ _ Hx). cbn [job_actions map play].
    assert (jobOf (wl_jobs w) x = job) as -> by (unfold jobOf; destruct Hj as (-> & _); done). by rewrite Hp1.
Qed.

(** Then the scheduler is where the oracle starts. *)
Lemma loaded_follows st : submittable -> queued_fine w -> loaded (length submissions) st ->
  follows label (wl_jobs w) (wl_serviceQueues w) (fst st) (oracle_start w).
Proof.
  intros Hsb Hqf []. destruct (oracle_start_inv w Hqf) as [Ho _]. split; [done|done|done| | |done].
  - by rewrite ld_cursor0.
  - intros i t Ht. destruct (ld_tenant0 i t Ht) as (Hd & Hv & Hq). rewrite take_ge in Hq by done.
    destruct (oracle_index i) as [j|] eqn:Hi; [|by apply map_eq_nil in Hq].
    destruct (oracle_index_S _ _ Hi) as [_ Hj]. destruct Hqf as [Hf2 _]. pose proof (Forall2_length _ _ _ Hf2) as Hlen.
    destruct (lookup_lt_is_Some_2 (wl_serviceQueues w) j) as [queue Hqu]; [rewrite <- Hlen; cbn; lia|].
    destruct (lookup_lt_is_Some_2 serviceTenants j) as [tenant Htn]; [cbn; lia|].
    exists (mkOracleTenant tenant queue 0 false). split.
    + unfold oracle_start. cbn [or_tenants]. rewrite lookup_zip_with, Htn, Hqu. done.
    + unfold like. cbn. rewrite Hq, Hd, Hv. split; [|done]. symmetry. by apply (sb_queues Hsb).
Qed.
End arrive.

(** ** Workloads of a seed *)

Lemma built_job profile c g ta tb w x : drawn profile c g ta tb -> as_checked profile c g ta tb w ->
  (x, jobOf (wl_jobs w) x) ∈ allEntries profile c [ta; tb] g ->
  0 < Z.of_nat (length (job_body (jobOf (wl_jobs w) x))) <= 256 /\ 0 < job_workUnits (jobOf (wl_jobs w) x) <= 320.
Proof.
  intros Hdr Hw Hin. destruct (proj1 (Forall_forall _ _) (entries_fine profile c g ta tb Hdr w Hw) _ Hin) as (Hr & _ & Hlen & Hu & Hmax & _).
  cbn [fst snd] in *. unfold ciMaximumRequestUnits, ciMaximumBodyBytes, ciMaximumCompletionTokens in *. lia.
Qed.

Lemma built_entry profile c g ta tb w x job : drawn profile c g ta tb -> as_checked profile c g ta tb w ->
  wl_jobs w !! x = Some job -> jobOf (wl_jobs w) x = job /\ (x, job) ∈ allEntries profile c [ta; tb] g.
Proof.
  intros Hdr (Hj & _) Hx. split; [unfold jobOf; by rewrite Hx|]. rewrite Hj in Hx.
  rewrite <- (jobs_list profile c g ta tb Hdr). by apply elem_of_map_to_list.
Qed.

Lemma built_submittable profile c g ta tb w : drawn profile c g ta tb -> as_checked profile c g ta tb w -> submittable w.
Proof.
  intros Hdr Hw. pose proof Hw as (Hj & _ & _ & Hi & Hl & _ & _ & _ & Hq).
  assert (Hqueue : forall j queue, wl_serviceQueues w !! j = Some queue ->
    queue = filter (fun x => tenantOf (wl_jobs w) x = j) (submissions w)).
  { intros j queue Hjq. rewrite Hq, expectedQueues_lookup in Hjq. apply fmap_Some in Hjq as (q0 & Hq0 & ->).
    apply lookup_replicate in Hq0 as [-> _]. cbn [app]. by rewrite Hj. }
  split; [| |exact Hqueue|].
  - unfold submissions. rewrite length_app, Hi, Hl. unfold initial0, late0. rewrite !length_app, !length_take, !length_drop.
    rewrite (dr_lena _ _ _ _ _ Hdr), (dr_lenb _ _ _ _ _ Hdr). done.
  - intros x Hx. assert (Hs : service_job (wl_jobs w) jobService x).
    { rewrite Hj. apply elem_of_app in Hx as [Hx|Hx].
      - rewrite Hi in Hx. by apply (proj1 (Forall_forall _ _) (proj1 (initial0_phase profile c g ta tb Hdr))).
      - rewrite Hl in Hx. by apply (proj1 (Forall_forall _ _) (proj1 (late0_phase profile c g ta tb Hdr))). }
    destruct Hs as (job & Hjob & _ & _ & Htn). exists (tenantOf (wl_jobs w) x), job. split; [done|]. split; [done|]. split; [done|].
    destruct (built_entry _ _ _ _ _ w x job Hdr Hw Hjob) as [<- Hin]. by eapply built_job.
  - intros j. destruct (wl_serviceQueues w !! j) as [queue|] eqn:Hjq.
    + rewrite <- (Hqueue j queue Hjq). pose proof (lookup_lt_Some _ _ _ Hjq) as Hlt.
      rewrite Hq, expectedQueues_length in Hlt. pose proof (queues_length profile c g ta tb Hdr w j Hw Hlt) as Hlen.
      rewrite Hjq in Hlen. cbn in Hlen. rewrite Hlen. done.
    + assert (filter (fun x => tenantOf (wl_jobs w) x = j) (submissions w) = []) as ->; [|cbn; lia].
      apply lookup_ge_None in Hjq. rewrite Hq, expectedQueues_length in Hjq. cbn in Hjq. clear -Hjq.
      induction (submissions w) as [|x xs IH]; [done|]. rewrite filter_cons_False; [done|]. intros <-.
      revert Hjq. unfold tenantOf, serviceTenantIndex. cbn. repeat case_match; cbn; lia.
Qed.

Lemma built_control profile c g ta tb w : drawn profile c g ta tb -> as_checked profile c g ta tb w ->
  control_job (jobOf (wl_jobs w) (wl_control w)).
Proof.
  intros Hdr Hw. pose proof Hw as (Hj & Hc & _). set (job := makeSaturationJob c controlTenant jobControl false profile).
  assert ((c, job) ∈ allEntries profile c [ta; tb] g) as Hin by (unfold allEntries; left).
  pose proof (entry_lookup profile c g ta tb Hdr _ _ Hin) as Hjob. rewrite <- Hj, <- Hc in Hjob.
  destruct (built_entry _ _ _ _ _ w _ job Hdr Hw Hjob) as [Heq Hin'].
  pose proof (built_job _ _ _ _ _ w (wl_control w) Hdr Hw) as Hb. rewrite Heq in *. specialize (Hb Hin').
  split; [done|]. exact Hb.
Qed.

Lemma oracle_end_unique jobs o a b : rtc (oracle_step jobs) o a -> rtc (oracle_step jobs) o b ->
  or_remaining a = 0%nat -> or_remaining b = 0%nat -> a = b.
Proof.
  intros Ha. revert b. induction Ha as [o|o o1 a Hst Ha IH]; intros b Hb Hza Hzb.
  - inversion Hb as [|? ? ? [Hpos _] _]; [done|lia].
  - inversion Hb as [|? o2 ? Hst2 Hb2]; subst; [destruct Hst; lia|].
    apply IH; [|done|done]. by rewrite (oracle_step_det jobs o o1 o2).
Qed.
