(* ===== verification/SatReport.v ===== *)
(** * Saturation harness: the report

    Models the report of [tools/run_saturation/harness.go]: its types with their JSON
    names, [buildReport], [categoricalDigest], [validateReport] and [marshalReport].
    The arithmetic is that of [uint64]. *)

From S2P Require Import Prelude GoJson JsonGrammar GoIO GoSha256 GoMarshal SatWorkload.

(** ** Texts *)

Definition reportScope : gostring := bs "one bounded synthetic numeric-loopback request-count saturation run".
Definition reportTimingClaim : gostring := bs "diagnostic intervals without thresholds or service-level claims".
Definition reportStreamingClaim : gostring := bs "SSE wire-order observation only; no timeout or backpressure claim".
Definition reportEncoding : gostring := bs "compact JSON with stable struct field order".
Definition accountingBoundary : gostring :=
  bs "service_totals include two tenant-capacity probes; control and the global-capacity probe are separate".
Definition timeoutBoundary : gostring :=
  bs "the execution context and subsequent cleanup waits use separate bounded envelopes, not one wall-clock deadline".
Definition tenantProbeScope : gostring := bs "two saturated service tenants".
Definition globalProbeScope : gostring := bs "dedicated tenant with available tenant capacity".
Definition serviceOracle : gostring := bs "independent bounded weighted deficit round-robin state machine".
Definition timingClock : gostring := bs "process monotonic intervals".
Definition timingBoundary : gostring :=
  bs "submit-to-dispatch includes the deliberate control hold plus ingress, queue, and scheduler time".
Definition categoricalProjectionName : gostring := bs "seeded accounting and dispatch trace".
Definition productionGatewayDescription : gostring := bs "production parser, scheduler, HTTP relay, and server".
Definition loopbackTransportDescription : gostring := bs "HTTP/1 over numeric loopback".

(** ** Errors *)

(** The errors of the controlled upstream. *)
Inductive controlledError :=
| errControlledUpstreamStart | errControlledUpstreamLine | errControlledUpstreamHeaders | errControlledUpstreamBody
| errControlledUpstreamFixture | errControlledUpstreamDispatch | errControlledUpstreamClose.

(** What the harness returns: an error of its own, of the workload, or of the
    controlled upstream. *)
Inductive harnessError :=
| errHarnessContext | errHarnessConstruction | errHarnessState | errHarnessClient | errHarnessClientBuild
| errHarnessClientIO | errHarnessClientWire | errHarnessClientHeader | errHarnessControlWire | errHarnessServiceWire
| errHarnessDeadlineWire | errHarnessDeadlineCode | errHarnessDeadlineBody | errHarnessRejectedWire
| errHarnessGlobalRejectedWire | errHarnessShutdown | errHarnessReport
| errOfWorkload (e : workloadError)
| errOfUpstream (e : controlledError).

(** ** Types *)

Record outcomeCounts := mkOutcomes {
  oc_Submitted : Z;
  oc_Admitted : Z;
  oc_Rejected : Z;
  oc_Completed : Z;
  oc_Canceled : Z;
  oc_DeadlineExceeded : Z;
}.

Record tenantReport := mkTenantReport {
  tr_Tenant : gostring;
  tr_Weight : Z;
  tr_Submitted : Z;
  tr_Admitted : Z;
  tr_Rejected : Z;
  tr_Completed : Z;
  tr_Canceled : Z;
  tr_DeadlineExceeded : Z;
  tr_DispatchedRequests : Z;
  tr_DispatchedWorkUnits : Z;
}.

Record timingSample := mkSample {
  ts_Position : Z;
  ts_Tenant : gostring;
  ts_Mode : gostring;
  ts_SubmitToUpstreamDispatchNS : Z;
  ts_UpstreamReleaseToSSEEventNS : option Z;
}.

Record reportClaims := mkClaims {
  cl_Performance : bool;
  cl_ReportByteReproducible : bool;
  cl_Scope : gostring;
  cl_Timings : gostring;
  cl_Streaming : gostring;
  cl_Encoding : gostring;
}.

Record topologyReport := mkTopology {
  tp_Gateway : gostring;
  tp_Transport : gostring;
  tp_ControlledUpstream : bool;
  tp_SeededArrivalOrder : bool;
  tp_SchedulerSnapshotBarriers : bool;
  tp_GlobalInflightRequests : Z;
  tp_GlobalQueuedRequests : Z;
  tp_ServiceRequestsPerTenant : Z;
}.

Record controlReport := mkControl {
  ct_Submitted : Z;
  ct_Admitted : Z;
  ct_Completed : Z;
  ct_UpstreamRequests : Z;
}.

Record accountingReport := mkAccounting {
  ac_TotalJobs : Z;
  ac_ServiceSubmissions : Z;
  ac_ControlSubmissions : Z;
  ac_GlobalProbeSubmissions : Z;
  ac_TotalUpstreamRequests : Z;
  ac_Reconciled : bool;
  ac_Boundary : gostring;
}.

Record publicErrorProbeReport := mkProbe {
  pb_Scope : gostring;
  pb_Submitted : Z;
  pb_Rejected : Z;
  pb_StatusCode : Z;
  pb_ErrorCode : gostring;
  pb_UpstreamRequests : Z;
}.

Record capacityProbeReport := mkProbes {
  cp_Tenant : publicErrorProbeReport;
  cp_Global : publicErrorProbeReport;
}.

Record timeoutEnvelopeReport := mkTimeouts {
  to_ExecutionContextMS : Z;
  to_GracefulAttemptMS : Z;
  to_AbortReserveMS : Z;
  to_MaximumCleanupMS : Z;
  to_SeparateCleanupEnvelope : bool;
  to_Boundary : gostring;
}.

Record serviceReport := mkService {
  sv_Oracle : gostring;
  sv_OracleMatch : bool;
  sv_Expected : list dispatchRecord;
  sv_Observed : list dispatchRecord;
  sv_UpstreamRequests : Z;
}.

Record timingReport := mkTiming {
  tm_Clock : gostring;
  tm_Thresholds : bool;
  tm_OneRunDiagnostics : bool;
  tm_ByteReproducible : bool;
  tm_Boundary : gostring;
  tm_Samples : list timingSample;
}.

Record categoricalEvidence := mkCategorical {
  ce_Projection : gostring;
  ce_DigestAlgorithm : gostring;
  ce_Digest : gostring;
  ce_ExcludesTiming : bool;
  ce_ByteReproducible : bool;
}.

Record saturationReport := mkReport {
  rp_SchemaVersion : Z;
  rp_Profile : gostring;
  rp_Seed : Z;
  rp_GoVersion : gostring;
  rp_OperatingSystem : gostring;
  rp_Architecture : gostring;
  rp_Claims : reportClaims;
  rp_Topology : topologyReport;
  rp_ServiceTotals : outcomeCounts;
  rp_Control : controlReport;
  rp_CapacityProbes : capacityProbeReport;
  rp_Accounting : accountingReport;
  rp_Timeouts : timeoutEnvelopeReport;
  rp_Tenants : list tenantReport;
  rp_Service : serviceReport;
  rp_Timing : timingReport;
  rp_Categorical : categoricalEvidence;
}.

Record categoricalProjection := mkProjection {
  pj_SchemaVersion : Z;
  pj_Profile : gostring;
  pj_Seed : Z;
  pj_Topology : topologyReport;
  pj_ServiceTotals : outcomeCounts;
  pj_Control : controlReport;
  pj_CapacityProbes : capacityProbeReport;
  pj_Accounting : accountingReport;
  pj_Timeouts : timeoutEnvelopeReport;
  pj_Tenants : list tenantReport;
  pj_Service : serviceReport;
}.

Record tenantAccumulator := mkAccumulator {
  ta_definition : tenantDefinition;
  ta_counts : outcomeCounts;
  ta_dispatchedRequests : Z;
  ta_dispatchedWorkUnits : Z;
}.

#[export] Instance outcomeCounts_eq_dec : EqDecision outcomeCounts.
Proof. solve_decision. Defined.
#[export] Instance reportClaims_eq_dec : EqDecision reportClaims.
Proof. solve_decision. Defined.
#[export] Instance topologyReport_eq_dec : EqDecision topologyReport.
Proof. solve_decision. Defined.
#[export] Instance controlReport_eq_dec : EqDecision controlReport.
Proof. solve_decision. Defined.
#[export] Instance accountingReport_eq_dec : EqDecision accountingReport.
Proof. solve_decision. Defined.
#[export] Instance publicErrorProbeReport_eq_dec : EqDecision publicErrorProbeReport.
Proof. solve_decision. Defined.
#[export] Instance capacityProbeReport_eq_dec : EqDecision capacityProbeReport.
Proof. solve_decision. Defined.
#[export] Instance timeoutEnvelopeReport_eq_dec : EqDecision timeoutEnvelopeReport.
Proof. solve_decision. Defined.

(** What [runtime] says of the build: the version, the system, the architecture. *)
Record goBuild := mkBuild { go_Version : gostring; go_OS : gostring; go_Arch : gostring }.

(** ** JSON *)

#[local] Open Scope string_scope.

Definition jstring (s : gostring) : jtree := JScalar (TString s).
Definition junsigned (n : Z) : jtree := JScalar (TNumber (formatUint n)).
Definition jbool (b : bool) : jtree := JScalar (TBool b).
Definition jobject (fields : list (string * jtree)) : jtree := JObj (map (fun field => (bs (fst field), snd field)) fields).

Definition dispatchRecord_json (r : dispatchRecord) : jtree := jobject [
  ("position", junsigned (rec_Position r)); ("tenant", jstring (rec_Tenant r));
  ("weight", junsigned (rec_Weight r)); ("work_units", junsigned (rec_WorkUnits r));
  ("mode", jstring (rec_Mode r))].

Definition outcomeCounts_json (r : outcomeCounts) : jtree := jobject [
  ("submitted", junsigned (oc_Submitted r)); ("admitted", junsigned (oc_Admitted r));
  ("rejected", junsigned (oc_Rejected r)); ("completed", junsigned (oc_Completed r));
  ("canceled", junsigned (oc_Canceled r)); ("deadline_exceeded", junsigned (oc_DeadlineExceeded r))].

Definition tenantReport_json (r : tenantReport) : jtree := jobject [
  ("tenant", jstring (tr_Tenant r)); ("weight", junsigned (tr_Weight r));
  ("submitted", junsigned (tr_Submitted r)); ("admitted", junsigned (tr_Admitted r));
  ("rejected", junsigned (tr_Rejected r)); ("completed", junsigned (tr_Completed r));
  ("canceled", junsigned (tr_Canceled r)); ("deadline_exceeded", junsigned (tr_DeadlineExceeded r));
  ("dispatched_requests", junsigned (tr_DispatchedRequests r));
  ("dispatched_work_units", junsigned (tr_DispatchedWorkUnits r))].

Definition timingSample_json (r : timingSample) : jtree := jobject [
  ("position", junsigned (ts_Position r)); ("tenant", jstring (ts_Tenant r));
  ("mode", jstring (ts_Mode r));
  ("submit_to_upstream_dispatch_ns", junsigned (ts_SubmitToUpstreamDispatchNS r));
  ("upstream_release_to_first_sse_event_ns"%string,
    match ts_UpstreamReleaseToSSEEventNS r with Some ns => junsigned ns | None => JScalar TNull end)].

Definition reportClaims_json (r : reportClaims) : jtree := jobject [
  ("performance", jbool (cl_Performance r)); ("report_byte_reproducible", jbool (cl_ReportByteReproducible r));
  ("scope", jstring (cl_Scope r)); ("timings", jstring (cl_Timings r));
  ("streaming", jstring (cl_Streaming r)); ("encoding", jstring (cl_Encoding r))].

Definition topologyReport_json (r : topologyReport) : jtree := jobject [
  ("gateway", jstring (tp_Gateway r)); ("transport", jstring (tp_Transport r));
  ("controlled_upstream", jbool (tp_ControlledUpstream r));
  ("seeded_arrival_order", jbool (tp_SeededArrivalOrder r));
  ("scheduler_snapshot_barriers", jbool (tp_SchedulerSnapshotBarriers r));
  ("global_inflight_requests", junsigned (tp_GlobalInflightRequests r));
  ("global_queued_requests", junsigned (tp_GlobalQueuedRequests r));
  ("service_requests_per_tenant", junsigned (tp_ServiceRequestsPerTenant r))].

Definition controlReport_json (r : controlReport) : jtree := jobject [
  ("submitted", junsigned (ct_Submitted r)); ("admitted", junsigned (ct_Admitted r));
  ("completed", junsigned (ct_Completed r)); ("upstream_requests", junsigned (ct_UpstreamRequests r))].

Definition accountingReport_json (r : accountingReport) : jtree := jobject [
  ("total_jobs", junsigned (ac_TotalJobs r)); ("service_submissions", junsigned (ac_ServiceSubmissions r));
  ("control_submissions", junsigned (ac_ControlSubmissions r));
  ("global_probe_submissions", junsigned (ac_GlobalProbeSubmissions r));
  ("total_upstream_requests", junsigned (ac_TotalUpstreamRequests r));
  ("reconciled", jbool (ac_Reconciled r)); ("boundary", jstring (ac_Boundary r))].

Definition publicErrorProbeReport_json (r : publicErrorProbeReport) : jtree := jobject [
  ("scope", jstring (pb_Scope r)); ("submitted", junsigned (pb_Submitted r));
  ("rejected", junsigned (pb_Rejected r)); ("status_code", junsigned (pb_StatusCode r));
  ("error_code", jstring (pb_ErrorCode r)); ("upstream_requests", junsigned (pb_UpstreamRequests r))].

Definition capacityProbeReport_json (r : capacityProbeReport) : jtree := jobject [
  ("tenant_capacity", publicErrorProbeReport_json (cp_Tenant r));
  ("global_capacity", publicErrorProbeReport_json (cp_Global r))].

Definition timeoutEnvelopeReport_json (r : timeoutEnvelopeReport) : jtree := jobject [
  ("execution_context_ms", junsigned (to_ExecutionContextMS r));
  ("graceful_cleanup_attempt_ms", junsigned (to_GracefulAttemptMS r));
  ("abort_cleanup_reserve_ms", junsigned (to_AbortReserveMS r));
  ("maximum_cleanup_ms", junsigned (to_MaximumCleanupMS r));
  ("separate_cleanup_envelope", jbool (to_SeparateCleanupEnvelope r)); ("boundary", jstring (to_Boundary r))].

Definition serviceReport_json (r : serviceReport) : jtree := jobject [
  ("oracle", jstring (sv_Oracle r)); ("oracle_match", jbool (sv_OracleMatch r));
  ("expected_dispatch", JArr (map dispatchRecord_json (sv_Expected r)));
  ("observed_dispatch", JArr (map dispatchRecord_json (sv_Observed r)));
  ("upstream_requests", junsigned (sv_UpstreamRequests r))].

Definition timingReport_json (r : timingReport) : jtree := jobject [
  ("clock", jstring (tm_Clock r)); ("thresholds", jbool (tm_Thresholds r));
  ("one_run_diagnostics", jbool (tm_OneRunDiagnostics r)); ("byte_reproducible", jbool (tm_ByteReproducible r));
  ("boundary", jstring (tm_Boundary r)); ("samples", JArr (map timingSample_json (tm_Samples r)))].

Definition categoricalEvidence_json (r : categoricalEvidence) : jtree := jobject [
  ("projection", jstring (ce_Projection r)); ("digest_algorithm", jstring (ce_DigestAlgorithm r));
  ("digest", jstring (ce_Digest r)); ("excludes_timing", jbool (ce_ExcludesTiming r));
  ("byte_reproducible", jbool (ce_ByteReproducible r))].

Definition saturationReport_json (r : saturationReport) : jtree := jobject [
  ("schema_version", junsigned (rp_SchemaVersion r)); ("profile", jstring (rp_Profile r));
  ("seed", junsigned (rp_Seed r)); ("go_version", jstring (rp_GoVersion r));
  ("operating_system", jstring (rp_OperatingSystem r)); ("architecture", jstring (rp_Architecture r));
  ("claims", reportClaims_json (rp_Claims r)); ("topology", topologyReport_json (rp_Topology r));
  ("service_totals", outcomeCounts_json (rp_ServiceTotals r)); ("control", controlReport_json (rp_Control r));
  ("capacity_probes", capacityProbeReport_json (rp_CapacityProbes r));
  ("accounting", accountingReport_json (rp_Accounting r));
  ("timeout_envelopes", timeoutEnvelopeReport_json (rp_Timeouts r));
  ("tenants", JArr (map tenantReport_json (rp_Tenants r))); ("service", serviceReport_json (rp_Service r));
  ("timing_hooks", timingReport_json (rp_Timing r));
  ("categorical_evidence", categoricalEvidence_json (rp_Categorical r))].

Definition categoricalProjection_json (r : categoricalProjection) : jtree := jobject [
  ("schema_version", junsigned (pj_SchemaVersion r)); ("profile", jstring (pj_Profile r));
  ("seed", junsigned (pj_Seed r)); ("topology", topologyReport_json (pj_Topology r));
  ("service_totals", outcomeCounts_json (pj_ServiceTotals r)); ("control", controlReport_json (pj_Control r));
  ("capacity_probes", capacityProbeReport_json (pj_CapacityProbes r));
  ("accounting", accountingReport_json (pj_Accounting r));
  ("timeout_envelopes", timeoutEnvelopeReport_json (pj_Timeouts r));
  ("tenants", JArr (map tenantReport_json (pj_Tenants r))); ("service", serviceReport_json (pj_Service r))].

#[local] Close Scope string_scope.

(** ** The digest *)

Definition projectionOf (report : saturationReport) : categoricalProjection :=
  mkProjection (rp_SchemaVersion report) (rp_Profile report) (rp_Seed report) (rp_Topology report)
    (rp_ServiceTotals report) (rp_Control report) (rp_CapacityProbes report) (rp_Accounting report)
    (rp_Timeouts report) (rp_Tenants report) (rp_Service report).

(** The encoder has no error for these types. *)
Definition categoricalDigest (report : saturationReport) : result harnessError gostring :=
  let encoded := marshal (categoricalProjection_json (projectionOf report)) in
  Ok (hex_EncodeToString (sha256_Sum256 encoded)).

(** ** Building a report *)

Definition outcomes_add (a b : outcomeCounts) : outcomeCounts :=
  mkOutcomes (oc_Submitted a +u oc_Submitted b) (oc_Admitted a +u oc_Admitted b) (oc_Rejected a +u oc_Rejected b)
    (oc_Completed a +u oc_Completed b) (oc_Canceled a +u oc_Canceled b)
    (oc_DeadlineExceeded a +u oc_DeadlineExceeded b).

Definition zeroOutcomes : outcomeCounts := mkOutcomes 0 0 0 0 0 0.

Definition tenantReportOf (accumulator : tenantAccumulator) : tenantReport :=
  let counts := ta_counts accumulator in
  mkTenantReport (td_label (ta_definition accumulator)) (td_weight (ta_definition accumulator))
    (oc_Submitted counts) (oc_Admitted counts) (oc_Rejected counts) (oc_Completed counts) (oc_Canceled counts)
    (oc_DeadlineExceeded counts) (ta_dispatchedRequests accumulator) (ta_dispatchedWorkUnits accumulator).

Definition theClaims : reportClaims :=
  mkClaims false false reportScope reportTimingClaim reportStreamingClaim reportEncoding.

Definition theTopology : topologyReport :=
  mkTopology productionGatewayDescription loopbackTransportDescription true true true 1 ciGlobalQueueCapacity
    (Z.of_nat ciServiceRequestsPerTenant).

Definition theProbes : capacityProbeReport :=
  let tenants := Z.of_nat (length serviceTenants) in
  mkProbes (mkProbe tenantProbeScope tenants tenants 429 (bs "tenant_capacity_exhausted") 0)
           (mkProbe globalProbeScope 1 1 503 (bs "overloaded") 0).

Definition milliseconds (d : Z) : Z := u64 (d ÷ time_Millisecond).

Definition timeoutsOf (profile : saturationProfile) : timeoutEnvelopeReport :=
  mkTimeouts (milliseconds (pf_executionTimeout profile)) (milliseconds (pf_gracefulCleanupTimeout profile))
    (milliseconds (pf_abortCleanupTimeout profile))
    (milliseconds (int64 (pf_gracefulCleanupTimeout profile + pf_abortCleanupTimeout profile))) true timeoutBoundary.

(** [report.Categorical.Digest = digest]. *)
Definition withDigest (report : saturationReport) (digest : gostring) : saturationReport :=
  let c := rp_Categorical report in
  mkReport (rp_SchemaVersion report) (rp_Profile report) (rp_Seed report) (rp_GoVersion report)
    (rp_OperatingSystem report) (rp_Architecture report) (rp_Claims report) (rp_Topology report)
    (rp_ServiceTotals report) (rp_Control report) (rp_CapacityProbes report) (rp_Accounting report)
    (rp_Timeouts report) (rp_Tenants report) (rp_Service report) (rp_Timing report)
    (mkCategorical (ce_Projection c) (ce_DigestAlgorithm c) digest (ce_ExcludesTiming c) (ce_ByteReproducible c)).

(** The report but for its digest. *)
Definition undigested (build : goBuild) (profile : saturationProfile) (workload : seededWorkload)
    (accumulators : list tenantAccumulator) (expected observed : list dispatchRecord) (timings : list timingSample)
    (upstreamRuns : Z) : saturationReport :=
  let totals := foldl outcomes_add zeroOutcomes (map ta_counts accumulators) in
  let control := mkControl 1 1 1 1 in
  let jobs := Z.of_nat (size (wl_jobs workload)) in
  let reconciled :=
    (jobs =? oc_Submitted totals +u ct_Submitted control +u pb_Submitted (cp_Global theProbes))
    && (upstreamRuns =? oc_Completed totals +u ct_UpstreamRequests control) in
  mkReport 3%Z (pf_name profile) (wl_seed workload) (go_Version build) (go_OS build) (go_Arch build)
    theClaims theTopology totals control theProbes
    (mkAccounting jobs (oc_Submitted totals) (ct_Submitted control) (pb_Submitted (cp_Global theProbes)) upstreamRuns
       reconciled accountingBoundary)
    (timeoutsOf profile) (map tenantReportOf accumulators)
    (mkService serviceOracle (bool_decide (expected = observed)) expected observed (Z.of_nat (length observed)))
    (mkTiming timingClock false true false timingBoundary timings)
    (mkCategorical categoricalProjectionName (bs "SHA-256") [] true true).

Definition buildReport (build : goBuild) (profile : saturationProfile) (workload : seededWorkload)
    (accumulators : list tenantAccumulator) (expected observed : list dispatchRecord) (timings : list timingSample)
    (upstreamRuns : Z) : result harnessError saturationReport :=
  let report := undigested build profile workload accumulators expected observed timings upstreamRuns in
  digest ← categoricalDigest report;
  mret (withDigest report digest).

(** ** Checking a report *)

(** The dispatches of each tenant: their number, their work, and those that stream. *)
Record dispatchTally := mkTally { dt_counts : list Z; dt_work : list Z; dt_streams : list Z }.

Definition zeroTally : dispatchTally :=
  let zeros := replicate (length serviceTenants) 0 in mkTally zeros zeros zeros.

Fixpoint labelIndexFrom (index : nat) (label : gostring) (tenants : list tenantDefinition) : option nat :=
  match tenants with
  | [] => None
  | tenant :: tenants =>
      if bool_decide (label = td_label tenant) then Some index else labelIndexFrom (S index) label tenants
  end.

(** One iteration over the observed dispatches; [None] when the report is rejected. *)
Definition checkObserved (samples : list timingSample) (index : nat) (record : dispatchRecord) (tally : dispatchTally)
    : comp (option dispatchTally) :=
  match labelIndexFrom 0 (rec_Tenant record) serviceTenants with
  | None => Done None
  | Some tenantIndex =>
      match serviceTenants !! tenantIndex with
      | None => Panicked "index out of range"
      | Some tenant =>
          if negb (rec_Position record =? Z.of_nat (index + 1)) || negb (rec_Weight record =? td_weight tenant)
             || (rec_WorkUnits record =? 0) || (ciMaximumRequestUnits <? rec_WorkUnits record)
             || (negb (bool_decide (rec_Mode record = bs "buffered")) && negb (bool_decide (rec_Mode record = bs "sse")))
          then Done None
          else
            let streaming := bool_decide (rec_Mode record = bs "sse") in
            let tally := mkTally (alter (fun n => n +u 1) tenantIndex (dt_counts tally))
              (alter (fun n => n +u rec_WorkUnits record) tenantIndex (dt_work tally))
              (if streaming then alter (fun n => n +u 1) tenantIndex (dt_streams tally) else dt_streams tally) in
            match samples !! index with
            | None => Panicked "index out of range"
            | Some sample =>
                if negb (ts_Position sample =? rec_Position record)
                   || negb (bool_decide (ts_Tenant sample = rec_Tenant record))
                   || negb (bool_decide (ts_Mode sample = rec_Mode record))
                then Done None
                else if Bool.eqb streaming (bool_decide (ts_UpstreamReleaseToSSEEventNS sample = None))
                then Done None
                else Done (Some tally)
            end
      end
  end.

Fixpoint checkAllObserved (samples : list timingSample) (index : nat) (observed : list dispatchRecord)
    (tally : dispatchTally) : comp (option dispatchTally) :=
  match observed with
  | [] => Done (Some tally)
  | record :: observed =>
      match checkObserved samples index record tally with
      | Done (Some tally) => checkAllObserved samples (S index) observed tally
      | r => r
      end
  end.

(** One iteration over the tenants; [serviceTenants[index]] and the tallies are read
    only at their indices. *)
Definition checkTenant (tally : dispatchTally) (index : nat) (tenant : tenantReport) : comp bool :=
  match serviceTenants !! index, dt_counts tally !! index, dt_work tally !! index, dt_streams tally !! index with
  | Some definition, Some count, Some work, Some streams =>
      Done (bool_decide (tr_Tenant tenant = td_label definition) && (tr_Weight tenant =? td_weight definition)
        && (tr_Submitted tenant =? 13) && (tr_Admitted tenant =? 12) && (tr_Rejected tenant =? 1)
        && (tr_Completed tenant =? 10) && (tr_Canceled tenant =? 1) && (tr_DeadlineExceeded tenant =? 1)
        && (tr_DispatchedRequests tenant =? Z.of_nat ciServiceRequestsPerTenant)
        && (tr_DispatchedRequests tenant =? count) && (tr_DispatchedWorkUnits tenant =? work) && (streams =? 1)
        && (tr_Submitted tenant =? tr_Admitted tenant +u tr_Rejected tenant)
        && (tr_Admitted tenant =? tr_Completed tenant +u tr_Canceled tenant +u tr_DeadlineExceeded tenant))
  | _, _, _, _ => Panicked "index out of range"
  end.

Fixpoint checkTenants (tally : dispatchTally) (index : nat) (tenants : list tenantReport) : comp bool :=
  match tenants with
  | [] => Done true
  | tenant :: tenants =>
      match checkTenant tally index tenant with
      | Done true => checkTenants tally (S index) tenants
      | r => r
      end
  end.

(** The conditions before the loops. *)
Definition headed (report : saturationReport) : bool :=
  (rp_SchemaVersion report =? 3) && bool_decide (rp_Profile report = ciProfileName)
  && negb (bool_decide (rp_GoVersion report = [])) && negb (bool_decide (rp_OperatingSystem report = []))
  && negb (bool_decide (rp_Architecture report = []))
  && bool_decide (rp_Claims report = theClaims) && bool_decide (rp_Topology report = theTopology)
  && negb (tm_Thresholds (rp_Timing report)) && tm_OneRunDiagnostics (rp_Timing report)
  && negb (tm_ByteReproducible (rp_Timing report)) && bool_decide (tm_Clock (rp_Timing report) = timingClock)
  && bool_decide (tm_Boundary (rp_Timing report) = timingBoundary)
  && bool_decide (ce_Projection (rp_Categorical report) = categoricalProjectionName)
  && ce_ExcludesTiming (rp_Categorical report) && ce_ByteReproducible (rp_Categorical report)
  && bool_decide (ce_DigestAlgorithm (rp_Categorical report) = bs "SHA-256")
  && bool_decide (sv_Oracle (rp_Service report) = serviceOracle) && sv_OracleMatch (rp_Service report)
  && (length (rp_Tenants report) =? length serviceTenants)%nat
  && (length (sv_Expected (rp_Service report)) =? ciServiceRequestsPerTenant * length serviceTenants)%nat
  && bool_decide (sv_Expected (rp_Service report) = sv_Observed (rp_Service report))
  && (length (tm_Samples (rp_Timing report)) =? length (sv_Observed (rp_Service report)))%nat
  && (sv_UpstreamRequests (rp_Service report) =? Z.of_nat (length (sv_Observed (rp_Service report)))).

(** The conditions after the loops. *)
Definition totalled (report : saturationReport) : bool :=
  bool_decide (rp_ServiceTotals report = mkOutcomes 26 24 2 20 2 2)
  && bool_decide (rp_Control report = mkControl 1 1 1 1)
  && bool_decide (rp_CapacityProbes report = theProbes)
  && bool_decide (rp_Accounting report = mkAccounting (Z.of_nat ciTotalRequestCount)
       (oc_Submitted (rp_ServiceTotals report)) (ct_Submitted (rp_Control report))
       (pb_Submitted (cp_Global (rp_CapacityProbes report)))
       (sv_UpstreamRequests (rp_Service report) +u ct_UpstreamRequests (rp_Control report)) true accountingBoundary)
  && bool_decide (rp_Timeouts report = mkTimeouts (milliseconds (30 * time_Second)) (milliseconds (9 * time_Second))
       (milliseconds (10 * time_Second)) (milliseconds (19 * time_Second)) true timeoutBoundary).

Definition validateReport (report : saturationReport) : comp (result harnessError unit) :=
  if negb (headed report) then Done (Err errHarnessReport)
  else
    match checkAllObserved (tm_Samples (rp_Timing report)) 0 (sv_Observed (rp_Service report)) zeroTally with
    | Panicked msg => Panicked msg
    | OutOfFuel => OutOfFuel
    | Done None => Done (Err errHarnessReport)
    | Done (Some tally) =>
        match checkTenants tally 0 (rp_Tenants report) with
        | Panicked msg => Panicked msg
        | OutOfFuel => OutOfFuel
        | Done false => Done (Err errHarnessReport)
        | Done true =>
            if negb (totalled report) then Done (Err errHarnessReport)
            else
              match categoricalDigest report with
              | Ok digest => if bool_decide (digest = ce_Digest (rp_Categorical report)) then Done (Ok tt) else Done (Err errHarnessReport)
              | Err _ => Done (Err errHarnessReport)
              end
        end
    end.

Definition marshalReport (report : saturationReport) : comp (result harnessError gostring) :=
  match validateReport report with
  | Done (Ok _) => Done (Ok (marshal (saturationReport_json report) ++ [10]))
  | Done (Err e) => Done (Err e)
  | Panicked msg => Panicked msg
  | OutOfFuel => OutOfFuel
  end.
