(* ===== verification/SatAudit.v ===== *)
(** * Saturation harness: what a validated report says

    [validateReport] neither panics nor accepts anything but [consistent] reports:
    all that the digest covers is then a function of the seed and of the observed
    dispatches.  A consistent report has only values that the JSON encoder writes
    faithfully, so what [marshalReport] writes is a JSON document of the report. *)

From S2P Require Import Prelude GoHeap GoJson JsonGrammar GoIO GoSha256 GoMarshal SatWorkload SatReport.

(** ** Specification *)

Definition ofTenant (tenant : tenantDefinition) (records : list dispatchRecord) : list dispatchRecord :=
  filter (fun r => rec_Tenant r = td_label tenant) records.

Definition streamed (records : list dispatchRecord) : list dispatchRecord :=
  filter (fun r => rec_Mode r = bs "sse") records.

Definition workOf (records : list dispatchRecord) : Z := sumZ rec_WorkUnits records.

(** The record of the dispatch at [index]. *)
Definition record_fine (index : nat) (r : dispatchRecord) : Prop :=
  rec_Position r = Z.of_nat (index + 1)
  /\ (exists tenant, tenant ∈ serviceTenants /\ rec_Tenant r = td_label tenant /\ rec_Weight r = td_weight tenant)
  /\ rec_WorkUnits r <> 0 /\ rec_WorkUnits r <= ciMaximumRequestUnits
  /\ (rec_Mode r = bs "buffered" \/ rec_Mode r = bs "sse").

(** The sample of a dispatch; only a stream has a first event. *)
Definition sample_fine (s : timingSample) (r : dispatchRecord) : Prop :=
  ts_Position s = rec_Position r /\ ts_Tenant s = rec_Tenant r /\ ts_Mode s = rec_Mode r
  /\ (is_Some (ts_UpstreamReleaseToSSEEventNS s) <-> rec_Mode r = bs "sse").

(** All that the digest covers. *)
Definition tenantEvidence (observed : list dispatchRecord) (tenant : tenantDefinition) : tenantReport :=
  mkTenantReport (td_label tenant) (td_weight tenant) 13 12 1 10 1 1 10 (workOf (ofTenant tenant observed)).

Definition evidence (seed : Z) (observed : list dispatchRecord) : categoricalProjection :=
  mkProjection 3 ciProfileName seed theTopology (mkOutcomes 26 24 2 20 2 2) (mkControl 1 1 1 1) theProbes
    (mkAccounting 28 26 1 1 21 true accountingBoundary)
    (mkTimeouts 30000 9000 10000 19000 true timeoutBoundary)
    (map (tenantEvidence observed) serviceTenants)
    (mkService serviceOracle true observed observed 20).

Definition evidenceDigest (seed : Z) (observed : list dispatchRecord) : gostring :=
  hex_EncodeToString (sha256_Sum256 (marshal (categoricalProjection_json (evidence seed observed)))).

Record consistent (report : saturationReport) : Prop := {
  cn_evidence : projectionOf report = evidence (rp_Seed report) (sv_Observed (rp_Service report));
  cn_build : rp_GoVersion report <> [] /\ rp_OperatingSystem report <> [] /\ rp_Architecture report <> [];
  cn_claims : rp_Claims report = theClaims;
  cn_timing : rp_Timing report = mkTiming timingClock false true false timingBoundary (tm_Samples (rp_Timing report));
  cn_digest : rp_Categorical report = mkCategorical categoricalProjectionName (bs "SHA-256")
    (evidenceDigest (rp_Seed report) (sv_Observed (rp_Service report))) true true;
  cn_length : length (sv_Observed (rp_Service report)) = 20%nat;
  cn_records : forall index r, sv_Observed (rp_Service report) !! index = Some r -> record_fine index r;
  cn_samples : Forall2 sample_fine (tm_Samples (rp_Timing report)) (sv_Observed (rp_Service report));
  cn_tenants : forall tenant, tenant ∈ serviceTenants ->
    length (ofTenant tenant (sv_Observed (rp_Service report))) = 10%nat
    /\ length (streamed (ofTenant tenant (sv_Observed (rp_Service report)))) = 1%nat;
}.

(** ** The tallies *)

Definition tallyOf (records : list dispatchRecord) : dispatchTally :=
  mkTally (map (fun t => Z.of_nat (length (ofTenant t records))) serviceTenants)
    (map (fun t => workOf (ofTenant t records)) serviceTenants)
    (map (fun t => Z.of_nat (length (streamed (ofTenant t records)))) serviceTenants).

(** Few records, and of bounded work: no tally overflows. *)
Definition countable (records : list dispatchRecord) : Prop :=
  (length records <= 20)%nat /\ Forall (fun r => 0 <= rec_WorkUnits r <= ciMaximumRequestUnits) records.

Lemma sumZ_filter_bounds (P : dispatchRecord -> Prop) `{!forall r, Decision (P r)} records :
  Forall (fun r => 0 <= rec_WorkUnits r <= ciMaximumRequestUnits) records ->
  0 <= workOf (filter P records) <= ciMaximumRequestUnits * Z.of_nat (length records).
Proof.
  unfold workOf. induction 1 as [|r records Hr _ IH]; [cbn; lia|].
  destruct (decide (P r)); [rewrite filter_cons_True by done|rewrite filter_cons_False by done]; cbn; unfold ciMaximumRequestUnits, ciMaximumBodyBytes, ciMaximumCompletionTokens in *; lia.
Qed.

Lemma countable_app l r : countable (l ++ r) -> countable l.
Proof. intros [Hl Hf]. rewrite length_app in Hl. apply Forall_app in Hf as [Hf _]. by split; [lia|]. Qed.

Lemma countable_small l : countable l -> 0 <= workOf l <= 6400.
Proof.
  intros [Hl Hf]. pose proof (sumZ_filter_bounds (fun _ => True) l Hf) as Hb.
  assert (filter (fun _ : dispatchRecord => True) l = l) as Ht by (clear; induction l as [|r l IH]; [done|]; by rewrite filter_cons_True, IH).
  rewrite Ht in Hb. unfold ciMaximumRequestUnits, ciMaximumBodyBytes, ciMaximumCompletionTokens in Hb. lia.
Qed.

Lemma countable_filter (P : dispatchRecord -> Prop) `{!forall r, Decision (P r)} l : countable l -> countable (filter P l).
Proof.
  intros [Hl Hf]. split; [pose proof (length_filter P l); lia|]. apply Forall_forall. intros r [_ Hr]%list_elem_of_filter.
  by apply (proj1 (Forall_forall _ _) Hf).
Qed.

(** What one more record adds. *)
Definition bump (tenantIndex : nat) (r : dispatchRecord) (tally : dispatchTally) : dispatchTally :=
  mkTally (alter (fun n => n +u 1) tenantIndex (dt_counts tally))
    (alter (fun n => n +u rec_WorkUnits r) tenantIndex (dt_work tally))
    (if bool_decide (rec_Mode r = bs "sse") then alter (fun n => n +u 1) tenantIndex (dt_streams tally) else dt_streams tally).

Lemma label_index tenantIndex tenant : serviceTenants !! tenantIndex = Some tenant ->
  labelIndexFrom 0 (td_label tenant) serviceTenants = Some tenantIndex.
Proof. destruct tenantIndex as [|[|]]; intros [= <-]; by vm_compute. Qed.

Lemma labelIndex_Some label tenantIndex : labelIndexFrom 0 label serviceTenants = Some tenantIndex ->
  exists tenant, serviceTenants !! tenantIndex = Some tenant /\ label = td_label tenant.
Proof.
  unfold serviceTenants. cbn [labelIndexFrom td_label]. repeat case_bool_decide; intros [= <-]; eexists; (split; [reflexivity|done]).
Qed.

(** A record and its sample are accepted exactly when they are fine. *)
Lemma checkObserved_fine samples index r tally s : samples !! index = Some s ->
  (record_fine index r /\ sample_fine s r /\ exists tenantIndex tenant,
     serviceTenants !! tenantIndex = Some tenant /\ rec_Tenant r = td_label tenant
     /\ checkObserved samples index r tally = Done (Some (bump tenantIndex r tally)))
  \/ (~ (record_fine index r /\ sample_fine s r) /\ checkObserved samples index r tally = Done None).
Proof.
  intros Hs. unfold checkObserved. destruct (labelIndexFrom 0 (rec_Tenant r) serviceTenants) as [tenantIndex|] eqn:Hi.
  2: { right. split; [|done]. intros [(_ & (t & Ht & Hl & _) & _) _]. apply list_elem_of_lookup in Ht as [j Hj].
       by rewrite Hl, (label_index j t Hj) in Hi. }
  destruct (labelIndex_Some _ _ Hi) as (tenant & Htn & Hl). rewrite Htn, Hs.
  destruct (_ || _) eqn:Hc1.
  - right. split; [|done]. intros [(Hp & (t & Ht & Hlt & Hw) & Hz & Hm & Hmode) _].
    apply list_elem_of_lookup in Ht as [j Hj]. rewrite Hlt, (label_index j t Hj) in Hi. injection Hi as <-.
    rewrite Htn in Hj. injection Hj as <-. rewrite Hp, Hw, !Z.eqb_refl, (proj2 (Z.eqb_neq _ _) Hz), (proj2 (Z.ltb_ge _ _) Hm) in Hc1.
    cbn [negb orb] in Hc1. destruct Hmode as [Hmode|Hmode]; rewrite Hmode in Hc1; by vm_compute in Hc1.
  - repeat apply orb_false_iff in Hc1 as [Hc1 ?]. breflect.
    assert (record_fine index r) as Hr.
    { split; [done|]. split; [exists tenant; split_and!; [by eapply list_elem_of_lookup_2|done..]|]. split; [done|]. split; [done|].
      destruct (decide (rec_Mode r = bs "buffered")) as [|Hb]; [by left|]. right.
      destruct (decide (rec_Mode r = bs "sse")) as [|Hn]; [done|]. exfalso.
      rewrite !bool_decide_eq_false_2 in * by done. by destruct H. }
    destruct (_ || _) eqn:Hc2.
    { right. split; [|done]. intros [_ (Hp & Ht & Hm & _)]. rewrite Hp, Ht, Hm, Z.eqb_refl, !bool_decide_eq_true_2 in Hc2; done. }
    repeat apply orb_false_iff in Hc2 as [Hc2 ?]. breflect.
    destruct (Bool.eqb _ _) eqn:Hc3.
    + right. split; [|done]. intros [_ (_ & _ & _ & He)]. apply eqb_prop in Hc3.
      case_bool_decide as Hsse; case_bool_decide as Hnone; try done.
      * apply He in Hsse as [? Hsse]. congruence.
      * destruct (ts_UpstreamReleaseToSSEEventNS s); [|done]. apply Hsse, He. eauto.
    + left. split; [done|]. split; [|by exists tenantIndex, tenant]. split; [done|]. split; [done|]. split; [done|].
      apply eqb_false_iff in Hc3. case_bool_decide as Hsse; case_bool_decide as Hnone; try done.
      * split; [done|]. intros _. destruct (ts_UpstreamReleaseToSSEEventNS s); [eauto|done].
      * split; [by intros [? ?]; congruence|done].
Qed.

Lemma ofTenant_snoc tenant l r : ofTenant tenant (l ++ [r])
  = ofTenant tenant l ++ (if bool_decide (rec_Tenant r = td_label tenant) then [r] else []).
Proof. unfold ofTenant. rewrite filter_app. case_bool_decide; [by rewrite filter_cons_True|by rewrite filter_cons_False]. Qed.

Lemma streamedRecords_snoc l r : streamed (l ++ [r]) = streamed l ++ (if bool_decide (rec_Mode r = bs "sse") then [r] else []).
Proof. unfold streamed. rewrite filter_app. case_bool_decide; [by rewrite filter_cons_True|by rewrite filter_cons_False]. Qed.

Lemma alter_tenant tenantIndex tenant label : serviceTenants !! tenantIndex = Some tenant -> label = td_label tenant ->
  forall f g f' : tenantDefinition -> Z,
  (forall t, t ∈ serviceTenants -> f' t = if bool_decide (label = td_label t) then g t else f t) ->
  forall h, (forall t, h (f t) = g t) -> alter h tenantIndex (map f serviceTenants) = map f' serviceTenants.
Proof.
  intros Htn -> f g f' Hf h Hh. apply list_eq. intros j. destruct (decide (j = tenantIndex)) as [->|Hj].
  - rewrite list_lookup_alter, !list_lookup_fmap, Htn. cbn.
    rewrite Hf by (by eapply list_elem_of_lookup_2). rewrite bool_decide_eq_true_2 by done. rewrite Hh. by rewrite decide_True.
  - rewrite list_lookup_alter_ne, !list_lookup_fmap by done. destruct (serviceTenants !! j) as [t|] eqn:Ht; [|done]. cbn.
    rewrite Hf by (by eapply list_elem_of_lookup_2). rewrite bool_decide_eq_false_2; [done|].
    intros Hl. pose proof (label_index _ _ Ht) as H1. rewrite <- Hl, (label_index _ _ Htn) in H1. congruence.
Qed.

Lemma bump_tally tenantIndex tenant l r : serviceTenants !! tenantIndex = Some tenant -> rec_Tenant r = td_label tenant ->
  countable (l ++ [r]) -> bump tenantIndex r (tallyOf l) = tallyOf (l ++ [r]).
Proof.
  intros Htn Hl Hc. pose proof (countable_app _ _ Hc) as Hcl.
  assert (Hn : forall t, Z.of_nat (length (ofTenant t l)) +u 1 = Z.of_nat (length (ofTenant t l)) + 1).
  { intros t. apply u64_small. unfold is_u64, two64. destruct (countable_filter (fun r => rec_Tenant r = td_label t) l Hcl) as [? _].
    unfold ofTenant. lia. }
  assert (Hs : forall t, Z.of_nat (length (streamed (ofTenant t l))) +u 1 = Z.of_nat (length (streamed (ofTenant t l))) + 1).
  { intros t. apply u64_small. unfold is_u64, two64. destruct (countable_filter (fun r => rec_Tenant r = td_label t) l Hcl) as [? _].
    pose proof (length_filter (fun r => rec_Mode r = bs "sse") (ofTenant t l)). unfold streamed, ofTenant in *. lia. }
  assert (Hw : forall t, workOf (ofTenant t l) +u rec_WorkUnits r = workOf (ofTenant t l) + rec_WorkUnits r).
  { intros t. apply u64_small. pose proof (countable_small _ (countable_filter (fun r => rec_Tenant r = td_label t) l Hcl)).
    destruct Hc as [_ [_ [Hr _]%Forall_cons]%Forall_app]. unfold is_u64, two64, ofTenant, ciMaximumRequestUnits, ciMaximumBodyBytes, ciMaximumCompletionTokens in *. lia. }
  assert (forall t, workOf (ofTenant t l ++ [r]) = workOf (ofTenant t l) + rec_WorkUnits r) as Hwa.
  { intros t. unfold workOf. rewrite sumZ_app. cbn. lia. }
  unfold bump, tallyOf. cbn [dt_counts dt_work dt_streams].
  pose proof (alter_tenant tenantIndex tenant (rec_Tenant r) Htn Hl) as Heq.
  f_equal.
  - apply (Heq _ (fun t => Z.of_nat (length (ofTenant t l)) + 1)); [|done]. intros t _. rewrite ofTenant_snoc, length_app.
    case_bool_decide; cbn; lia.
  - apply (Heq _ (fun t => workOf (ofTenant t l) + rec_WorkUnits r)); [|done]. intros t _. rewrite ofTenant_snoc.
    case_bool_decide; [done|by rewrite app_nil_r].
  - case_bool_decide as Hm.
    + apply (Heq _ (fun t => Z.of_nat (length (streamed (ofTenant t l))) + 1)); [|done]. intros t _. rewrite ofTenant_snoc.
      case_bool_decide; [|by rewrite app_nil_r]. rewrite streamedRecords_snoc, bool_decide_eq_true_2, length_app by done. cbn. lia.
    + apply map_ext. intros t. rewrite ofTenant_snoc. case_bool_decide; [|by rewrite app_nil_r].
      by rewrite streamedRecords_snoc, bool_decide_eq_false_2, app_nil_r.
Qed.

(** ** The loops *)

Lemma observed_checked samples l rest : countable l -> Forall (fun r => 0 <= rec_WorkUnits r) rest ->
  (length (l ++ rest) <= 20)%nat -> length samples = length (l ++ rest) ->
  (checkAllObserved samples (length l) rest (tallyOf l) = Done (Some (tallyOf (l ++ rest)))
   /\ (forall k r, rest !! k = Some r -> record_fine (length l + k) r)
   /\ Forall2 sample_fine (drop (length l) samples) rest)
  \/ (checkAllObserved samples (length l) rest (tallyOf l) = Done None
      /\ ~ ((forall k r, rest !! k = Some r -> record_fine (length l + k) r)
            /\ Forall2 sample_fine (drop (length l) samples) rest)).
Proof.
  revert l. induction rest as [|r rest IH]; intros l Hc Hw Hle Hlen; cbn [checkAllObserved].
  - left. rewrite app_nil_r in *. split; [done|]. split; [done|]. rewrite drop_ge by lia. constructor.
  - rewrite length_app in Hlen. cbn in Hlen. destruct (lookup_lt_is_Some_2 samples (length l)) as [s Hs]; [lia|].
    rewrite (drop_S _ _ _ Hs).
    destruct (checkObserved_fine samples (length l) r (tallyOf l) s Hs) as [(Hr & Hsf & i & tenant & Hi & Hl & ->)|[Hno ->]].
    + apply Forall_cons in Hw as [Hw0 Hw]. rewrite length_app in Hle. cbn [length] in Hle.
      assert (Hcr : countable (l ++ [r])).
      { destruct Hc as [_ Hf]. split; [rewrite length_app; cbn; lia|]. apply Forall_app. split; [done|].
        constructor; [|constructor]. destruct Hr as (_ & _ & _ & Hm & _). lia. }
      rewrite (bump_tally i tenant l r Hi Hl Hcr). change (r :: rest) with ([r] ++ rest). rewrite (app_assoc l).
      specialize (IH (l ++ [r]) Hcr Hw). rewrite !length_app in IH. cbn [length] in IH. rewrite Nat.add_1_r in IH.
      destruct IH as [(-> & Hrs & Hss)|[-> Hnos]]; [lia|lia|left|right]; (split; [done|]).
      * split; [|by constructor]. intros [|k] r' Hk; [injection Hk as <-; by rewrite Nat.add_0_r|].
        rewrite <- Nat.add_succ_comm. by apply Hrs.
      * intros [Hrs Hss]. apply Hnos. split; [|by inversion Hss]. intros k r' Hk. rewrite Nat.add_succ_comm. by apply (Hrs (S k)).
    + right. split; [done|]. intros [Hrs Hss]. apply Hno. split; [|by inversion Hss].
      rewrite <- (Nat.add_0_r (length l)). by apply Hrs.
Qed.

Lemma tenants_checked observed tenants : length tenants = length serviceTenants ->
  (checkTenants (tallyOf observed) 0 tenants = Done true
   /\ tenants = map (tenantEvidence observed) serviceTenants
   /\ forall tenant, tenant ∈ serviceTenants -> length (ofTenant tenant observed) = 10%nat
        /\ length (streamed (ofTenant tenant observed)) = 1%nat)
  \/ (checkTenants (tallyOf observed) 0 tenants = Done false
      /\ ~ (tenants = map (tenantEvidence observed) serviceTenants
            /\ forall tenant, tenant ∈ serviceTenants -> length (ofTenant tenant observed) = 10%nat
                 /\ length (streamed (ofTenant tenant observed)) = 1%nat)).
Proof.
  assert (Hone : forall index definition t, serviceTenants !! index = Some definition ->
    (checkTenant (tallyOf observed) index t = Done true /\ t = tenantEvidence observed definition
     /\ length (ofTenant definition observed) = 10%nat /\ length (streamed (ofTenant definition observed)) = 1%nat)
    \/ (checkTenant (tallyOf observed) index t = Done false
        /\ ~ (t = tenantEvidence observed definition /\ length (ofTenant definition observed) = 10%nat
              /\ length (streamed (ofTenant definition observed)) = 1%nat))).
  { intros index definition t Hi. unfold checkTenant, tallyOf. cbn [dt_counts dt_work dt_streams].
    rewrite !list_lookup_fmap, Hi. cbn [fmap option_fmap option_map]. destruct (_ && _) eqn:Hc.
    - left. breflect. destruct t. cbn in *. subst. unfold ciServiceRequestsPerTenant in *. split; [done|].
      split; [unfold tenantEvidence; f_equal; lia|lia].
    - right. split; [done|]. intros (-> & Hn & Hs). cbn in Hc. rewrite Hn, Hs, !Z.eqb_refl, bool_decide_eq_true_2 in Hc by done. done. }
  destruct tenants as [|a [|b [|]]]; try done. intros _. cbn [checkTenants].
  destruct (Hone 0%nat _ a eq_refl) as [(-> & -> & Ha)|[-> Hno]].
  - destruct (Hone 1%nat _ b eq_refl) as [(-> & -> & Hb)|[-> Hno]].
    + left. split; [done|]. split; [done|]. intros tenant [->|[->|[]%elem_of_nil]%elem_of_cons]%elem_of_cons; done.
    + right. split; [done|]. intros [Heq Hall]. apply Hno. injection Heq as ->. split; [done|]. apply Hall. right. left.
  - right. split; [done|]. intros [Heq Hall]. apply Hno. injection Heq as -> _. split; [done|]. apply Hall. left.
Qed.

(** ** The whole check *)

(** The work of a dispatch is unsigned. *)
Definition unsigned_report (report : saturationReport) : Prop :=
  Forall (fun r => 0 <= rec_WorkUnits r) (sv_Observed (rp_Service report)).

Lemma headed_iff report : headed report = true <->
  rp_SchemaVersion report = 3 /\ rp_Profile report = ciProfileName
  /\ (rp_GoVersion report <> [] /\ rp_OperatingSystem report <> [] /\ rp_Architecture report <> [])
  /\ rp_Claims report = theClaims /\ rp_Topology report = theTopology
  /\ rp_Timing report = mkTiming timingClock false true false timingBoundary (tm_Samples (rp_Timing report))
  /\ (exists digest, rp_Categorical report = mkCategorical categoricalProjectionName (bs "SHA-256") digest true true)
  /\ length (rp_Tenants report) = length serviceTenants
  /\ length (sv_Observed (rp_Service report)) = 20%nat
  /\ length (tm_Samples (rp_Timing report)) = 20%nat
  /\ rp_Service report = mkService serviceOracle true (sv_Observed (rp_Service report)) (sv_Observed (rp_Service report)) 20.
Proof.
  destruct report as [sv pf sd gv os ar cl tp tot ct cp acc to tn sr ti ca], sr as [o om ex ob up], ti as [ck th od br bd sa],
    ca as [pj al dg et brp]. unfold headed.
  cbn [rp_SchemaVersion rp_Profile rp_GoVersion rp_OperatingSystem rp_Architecture rp_Claims rp_Topology rp_Timing rp_Categorical
    rp_Service rp_Tenants tm_Clock tm_Thresholds tm_OneRunDiagnostics tm_ByteReproducible tm_Boundary tm_Samples ce_Projection
    ce_DigestAlgorithm ce_ExcludesTiming ce_ByteReproducible sv_Oracle sv_OracleMatch sv_Expected sv_Observed sv_UpstreamRequests].
  change (ciServiceRequestsPerTenant * length serviceTenants)%nat with 20%nat. split.
  - intros H. breflect. subst. replace (length ob) with 20%nat in * by congruence.
    split_and!; try done. by exists dg.
  - intros (-> & -> & (? & ? & ?) & -> & -> & [= -> -> -> -> ->] & (? & [= -> -> -> -> ->]) & Hl & Hn & Hs & [= -> -> -> ->]).
    rewrite Hl, Hn, Hs, (bool_decide_eq_false_2 (gv = [])), (bool_decide_eq_false_2 (os = [])), (bool_decide_eq_false_2 (ar = [])) by done.
    by rewrite !bool_decide_eq_true_2 by reflexivity.
Qed.

Lemma totalled_iff report : totalled report = true <->
  rp_ServiceTotals report = mkOutcomes 26 24 2 20 2 2 /\ rp_Control report = mkControl 1 1 1 1
  /\ rp_CapacityProbes report = theProbes
  /\ rp_Accounting report = mkAccounting 28 26 1 1 (sv_UpstreamRequests (rp_Service report) +u 1) true accountingBoundary
  /\ rp_Timeouts report = mkTimeouts 30000 9000 10000 19000 true timeoutBoundary.
Proof.
  unfold totalled. rewrite !andb_true_iff, !bool_decide_eq_true. split.
  - intros ((((Ht & Hc) & Hp) & Ha) & Hto). rewrite Ht, Hc, Hp in Ha. done.
  - intros (Ht & Hc & Hp & Ha & Hto). rewrite Ht, Hc, Hp. done.
Qed.

Lemma consistent_parts report : consistent report -> headed report = true /\ totalled report = true
  /\ rp_Tenants report = map (tenantEvidence (sv_Observed (rp_Service report))) serviceTenants
  /\ categoricalDigest report = Ok (ce_Digest (rp_Categorical report)).
Proof.
  intros [He Hb Hc Ht Hd Hl Hr Hs Htn]. pose proof (Forall2_length _ _ _ Hs) as Hls.
  pose proof (f_equal pj_Tenants He) as Het. pose proof (f_equal pj_Service He) as Hes. split; [|split; [|split; [exact Het|]]].
  - apply headed_iff. split; [exact (f_equal pj_SchemaVersion He)|]. split; [exact (f_equal pj_Profile He)|].
    split; [exact Hb|]. split; [exact Hc|]. split; [exact (f_equal pj_Topology He)|]. split; [exact Ht|].
    split; [by eexists|]. cbn in Het. split; [by rewrite Het|]. split; [exact Hl|]. split; [congruence|exact Hes].
  - apply totalled_iff. split; [exact (f_equal pj_ServiceTotals He)|]. split; [exact (f_equal pj_Control He)|].
    split; [exact (f_equal pj_CapacityProbes He)|]. cbn in Hes. rewrite Hes. split; [exact (f_equal pj_Accounting He)|].
    exact (f_equal pj_Timeouts He).
  - unfold categoricalDigest. rewrite He, Hd. done.
Qed.

Lemma ok_inj {E A} (a b : A) : @Ok E A a = Ok b -> a = b.
Proof. by intros [= ->]. Qed.

(** The check neither panics nor runs out of anything, and accepts exactly the
    consistent reports. *)
Lemma validateReport_decides report : unsigned_report report ->
  (validateReport report = Done (Ok tt) /\ consistent report)
  \/ (validateReport report = Done (Err errHarnessReport) /\ ~ consistent report).
Proof.
  intros Hun. unfold validateReport. destruct (headed report) eqn:Hh; cbn [negb].
  2: { right. split; [done|]. intros Hcn. apply consistent_parts in Hcn as [? _]. congruence. }
  apply headed_iff in Hh as (Hsv & Hpf & Hb & Hc & Htp & Htm & (dg & Hca) & Hlt & Hlo & Hls & Hsr).
  change zeroTally with (tallyOf []). set (observed := sv_Observed (rp_Service report)) in *.
  destruct (observed_checked (tm_Samples (rp_Timing report)) [] observed) as [(Hrun & Hrs & Hss)|[Hrun Hno]];
    [split; [cbn; lia|constructor]|exact Hun|cbn [app]; lia|cbn [app]; congruence|..]; cbn [length app] in Hrun; rewrite Hrun.
  2: { right. split; [reflexivity|]. intros []. apply Hno. split; assumption. }
  destruct (tenants_checked observed (rp_Tenants report) Hlt) as [(Hck & Htn & Hall)|[Hck Hno]]; cbn [app]; rewrite Hck.
  2: { right. split; [done|]. intros Hcn. pose proof Hcn as []. apply consistent_parts in Hcn as (_ & _ & ? & _). apply Hno. split; assumption. }
  destruct (totalled report) eqn:Htot; cbn [negb].
  2: { right. split; [done|]. intros Hcn. apply consistent_parts in Hcn as (_ & ? & _). congruence. }
  apply totalled_iff in Htot as (Hto & Hct & Hcp & Hac & Htm').
  assert (He : projectionOf report = evidence (rp_Seed report) observed).
  { unfold projectionOf, evidence. rewrite Hsv, Hpf, Htp, Hto, Hct, Hcp, Hac, Htm', Htn, Hsr. reflexivity. }
  unfold categoricalDigest. rewrite He. fold (evidenceDigest (rp_Seed report) observed).
  case_bool_decide as Hdg; [left|right]; (split; [reflexivity|]).
  - split; try assumption. rewrite Hca in Hdg |- *. cbn [ce_Digest] in Hdg. rewrite <- Hdg. reflexivity.
  - intros Hcn. apply consistent_parts in Hcn as (_ & _ & _ & Hd). unfold categoricalDigest in Hd. rewrite He in Hd. exact (Hdg (ok_inj _ _ Hd)).
Qed.

(** * Saturation harness: the report as a document *)

(** Values of the types of the source: strings of the build in UTF-8, numbers of 64
    bits. *)
Record typed_report (report : saturationReport) : Prop := {
  tr_version : validString (rp_GoVersion report) = true;
  tr_os : validString (rp_OperatingSystem report) = true;
  tr_arch : validString (rp_Architecture report) = true;
  tr_seed : is_u64 (rp_Seed report);
  tr_work : Forall (fun r => is_u64 (rec_WorkUnits r)) (sv_Observed (rp_Service report));
  tr_samples : Forall (fun s => is_u64 (ts_SubmitToUpstreamDispatchNS s)
    /\ from_option is_u64 True (ts_UpstreamReleaseToSSEEventNS s)) (tm_Samples (rp_Timing report));
}.

Lemma typed_unsigned report : typed_report report -> unsigned_report report.
Proof. intros []. unfold unsigned_report. eapply Forall_impl; [exact tr_work0|]. intros r Hr. unfold is_u64 in Hr. cbn in *. lia. Qed.

(** ** Parts of a document *)

Lemma junsigned_fine n : is_u64 n -> marshalable (junsigned n) = true.
Proof.
  intros Hn. cbn [junsigned marshalable marshalable_scalar]. unfold junsigned. cbn [marshalable marshalable_scalar].
  rewrite (parseUint_format n Hn). by apply bool_decide_eq_true.
Qed.

Lemma jstring_fine s : validString s = true -> marshalable (jstring s) = true.
Proof. done. Qed.

Lemma jobject_fine fields : Forall (fun field => validString (bs (fst field)) = true /\ marshalable (snd field) = true) fields ->
  marshalable (jobject fields) = true.
Proof.
  intros Hf. cbn [jobject marshalable]. apply forallb_forall. intros [k v] Hin. apply in_map_iff in Hin as ([k' v'] & [= <- <-] & Hin).
  apply list_elem_of_In in Hin. destruct (proj1 (Forall_forall _ _) Hf _ Hin) as [Hk Hv]. cbn [fst snd] in *. by rewrite Hk, Hv.
Qed.

Lemma jarray_fine {A} (f : A -> jtree) l : Forall (fun x => marshalable (f x) = true) l -> marshalable (JArr (map f l)) = true.
Proof. intros Hl. cbn. apply forallb_forall. intros t (x & <- & Hx)%in_map_iff. by apply (proj1 (List.Forall_forall _ _) Hl). Qed.

Ltac fields := apply jobject_fine; repeat (apply Forall_cons; split; [split; [by vm_compute|]|]); [..|by apply Forall_nil]; cbn [snd].

Lemma dispatchRecord_fine r : is_u64 (rec_Position r) -> validString (rec_Tenant r) = true -> is_u64 (rec_Weight r) ->
  is_u64 (rec_WorkUnits r) -> validString (rec_Mode r) = true -> marshalable (dispatchRecord_json r) = true.
Proof. intros. unfold dispatchRecord_json. fields; first [by apply junsigned_fine | by apply jstring_fine]. Qed.

Lemma timingSample_fine s : is_u64 (ts_Position s) -> validString (ts_Tenant s) = true -> validString (ts_Mode s) = true ->
  is_u64 (ts_SubmitToUpstreamDispatchNS s) -> from_option is_u64 True (ts_UpstreamReleaseToSSEEventNS s) ->
  marshalable (timingSample_json s) = true.
Proof.
  intros. unfold timingSample_json. fields; try first [by apply junsigned_fine | by apply jstring_fine].
  destruct (ts_UpstreamReleaseToSSEEventNS s); [by apply junsigned_fine|done].
Qed.

Lemma hex_valid bytes : Forall (fun b => 0 <= b < 256) bytes -> validString (hex_EncodeToString bytes) = true.
Proof.
  unfold validString. induction 1 as [|b bytes Hb Hbs IH]; [done|].
  change (hex_EncodeToString (b :: bytes)) with (hexDigit (b / 16) :: hexDigit (b mod 16) :: hex_EncodeToString bytes).
  assert (Hr : forall n, 0 <= n < 16 -> 48 <= hexDigit n < 128).
  { intros n Hn. unfold hexDigit. destruct (Z.ltb_spec n 10); lia. }
  pose proof (Hr (b / 16) ltac:(split; [apply Z.div_pos; lia|apply Z.div_lt_upper_bound; lia])).
  pose proof (Hr (b mod 16) ltac:(apply Z.mod_pos_bound; lia)).
  cbn [utf8_valid forallb]. rewrite !(proj2 (Z.ltb_lt _ _)) by lia. apply andb_true_iff in IH as [-> IH].
  cbn [andb]. unfold between at 1 2. rewrite IH. rewrite !(proj2 (Z.leb_le _ _)) by lia. done.
Qed.

Lemma sha256_bytes message : Forall (fun b => 0 <= b < 256) (sha256_Sum256 message).
Proof. unfold sha256_Sum256. cbn [map mjoin list_join]. repeat (apply Forall_app; split); try apply bigEndian_bytes. by apply Forall_nil. Qed.

Lemma label_valid tenant : tenant ∈ serviceTenants -> validString (td_label tenant) = true /\ is_u64 (td_weight tenant).
Proof.
  intros Hin. assert (H : Forall (fun t => validString (td_label t) = true /\ is_u64 (td_weight t)) serviceTenants).
  { repeat apply Forall_cons_2; [..|by apply Forall_nil_2]; (split; [by vm_compute|]); unfold is_u64, two64; cbn; lia. }
  by apply (proj1 (Forall_forall _ _) H).
Qed.

Lemma record_typed index r : record_fine index r -> (index < 20)%nat -> is_u64 (rec_WorkUnits r) ->
  is_u64 (rec_Position r) /\ validString (rec_Tenant r) = true /\ is_u64 (rec_Weight r) /\ validString (rec_Mode r) = true.
Proof.
  intros (-> & (tenant & Hin & -> & ->) & _ & _ & Hm) Hi Hw. destruct (label_valid tenant Hin) as [Hl Hwt].
  split; [unfold is_u64, two64; lia|]. split; [done|]. split; [done|]. by destruct Hm as [-> | ->]; vm_compute.
Qed.

(** ** The whole document *)

Lemma records_fine report : consistent report -> typed_report report ->
  Forall (fun r => marshalable (dispatchRecord_json r) = true) (sv_Observed (rp_Service report)).
Proof.
  intros Hc Ht. apply Forall_lookup. intros index r Hr. pose proof (proj1 (Forall_lookup _ _) (tr_work _ Ht) _ _ Hr) as Hw. cbn in Hw.
  pose proof (lookup_lt_Some _ _ _ Hr) as Hlt. rewrite (cn_length _ Hc) in Hlt.
  destruct (record_typed index r (cn_records _ Hc index r Hr) Hlt Hw) as (? & ? & ? & ?). by apply dispatchRecord_fine.
Qed.

Lemma samples_fine report : consistent report -> typed_report report ->
  Forall (fun s => marshalable (timingSample_json s) = true) (tm_Samples (rp_Timing report)).
Proof.
  intros Hc Ht. apply Forall_lookup. intros index s Hs. destruct (proj1 (Forall_lookup _ _) (tr_samples _ Ht) _ _ Hs) as [Hn He].
  destruct (Forall2_lookup_l _ _ _ _ _ (cn_samples _ Hc) Hs) as (r & Hr & Hp & Htn & Hm & _).
  pose proof (proj1 (Forall_lookup _ _) (tr_work _ Ht) _ _ Hr) as Hw. cbn in Hw.
  pose proof (lookup_lt_Some _ _ _ Hr) as Hlt. rewrite (cn_length _ Hc) in Hlt.
  destruct (record_typed index r (cn_records _ Hc index r Hr) Hlt Hw) as (? & ? & ? & ?).
  apply timingSample_fine; [by rewrite Hp|by rewrite Htn|by rewrite Hm|done|done].
Qed.

Lemma tenants_fine report : consistent report -> typed_report report ->
  Forall (fun t => marshalable (tenantReport_json t) = true) (rp_Tenants report).
Proof.
  intros Hc Ht. pose proof (f_equal pj_Tenants (cn_evidence _ Hc)) as He. cbn [projectionOf pj_Tenants evidence] in He. rewrite He.
  apply Forall_map, Forall_forall. intros tenant Hin. destruct (label_valid tenant Hin) as [Hl Hw].
  assert (Hcount : countable (sv_Observed (rp_Service report))).
  { split; [rewrite (cn_length _ Hc); lia|]. apply Forall_lookup. intros index r Hr.
    destruct (cn_records _ Hc index r Hr) as (_ & _ & _ & Hm & _).
    pose proof (proj1 (Forall_lookup _ _) (tr_work _ Ht) _ _ Hr) as Hu. unfold is_u64 in Hu. cbn in Hu. lia. }
  pose proof (countable_small _ (countable_filter (fun r => rec_Tenant r = td_label tenant) _ Hcount)) as Hs.
  unfold tenantReport_json, tenantEvidence. cbn [tr_Tenant tr_Weight tr_Submitted tr_Admitted tr_Rejected tr_Completed tr_Canceled
    tr_DeadlineExceeded tr_DispatchedRequests tr_DispatchedWorkUnits].
  fields; first [by apply jstring_fine | apply junsigned_fine; first [exact Hw | unfold is_u64, two64, ofTenant in *; lia]].
Qed.

Lemma report_marshalable report : consistent report -> typed_report report -> marshalable (saturationReport_json report) = true.
Proof.
  intros Hc Ht. pose proof (records_fine report Hc Ht) as Hr. pose proof (samples_fine report Hc Ht) as Hs.
  pose proof (tenants_fine report Hc Ht) as Htn. pose proof (cn_evidence _ Hc) as He.
  pose proof (f_equal pj_SchemaVersion He) as E1. pose proof (f_equal pj_Profile He) as E2. pose proof (f_equal pj_Topology He) as E3.
  pose proof (f_equal pj_ServiceTotals He) as E4. pose proof (f_equal pj_Control He) as E5. pose proof (f_equal pj_CapacityProbes He) as E6.
  pose proof (f_equal pj_Accounting He) as E7. pose proof (f_equal pj_Timeouts He) as E8. pose proof (f_equal pj_Service He) as E9.
  cbn [projectionOf evidence pj_SchemaVersion pj_Profile pj_Topology pj_ServiceTotals pj_Control pj_CapacityProbes pj_Accounting
    pj_Timeouts pj_Service] in *.
  unfold saturationReport_json. rewrite E1, E2, E3, E4, E5, E6, E7, E8, (cn_claims _ Hc).
  fields; [by vm_compute|by vm_compute|apply junsigned_fine, Ht|apply jstring_fine, Ht|apply jstring_fine, Ht|apply jstring_fine, Ht
    |by vm_compute|by vm_compute|by vm_compute|by vm_compute|by vm_compute|by vm_compute|by vm_compute|by apply jarray_fine|..].
  - rewrite E9. unfold serviceReport_json. cbn [sv_Oracle sv_OracleMatch sv_Expected sv_Observed sv_UpstreamRequests].
    fields; [by vm_compute|done|by apply jarray_fine|by apply jarray_fine|by vm_compute].
  - rewrite (cn_timing _ Hc). unfold timingReport_json. cbn [tm_Clock tm_Thresholds tm_OneRunDiagnostics tm_ByteReproducible tm_Boundary tm_Samples].
    fields; [by vm_compute|done|done|done|by vm_compute|by apply jarray_fine].
  - rewrite (cn_digest _ Hc). unfold categoricalEvidence_json.
    cbn [ce_Projection ce_DigestAlgorithm ce_Digest ce_ExcludesTiming ce_ByteReproducible].
    fields; [by vm_compute|by vm_compute|apply jstring_fine, hex_valid, sha256_bytes|done|done].
Qed.

(** What is written for a report: a document of it, or an error and nothing. *)
Lemma marshalReport_writes report : typed_report report ->
  (consistent report /\ marshalReport report = Done (Ok (marshal (saturationReport_json report) ++ [10]))
   /\ document_text (saturationReport_json report) (marshal (saturationReport_json report) ++ [10]))
  \/ (~ consistent report /\ marshalReport report = Done (Err errHarnessReport)).
Proof.
  intros Ht. unfold marshalReport. destruct (validateReport_decides report (typed_unsigned _ Ht)) as [[-> Hc]|[-> Hc]]; [left|by right].
  split; [exact Hc|]. split; [reflexivity|]. apply marshal_document. by apply report_marshalable.
Qed.
