(* ===== verification/SatClient.v ===== *)
(** * Saturation harness: one client exchange

    Models [executeClientRequest] and what it calls in
    [tools/run_saturation/harness.go]: the request a job sends and what makes a
    response the expected one.  The transport is a parameter: it answers with a
    response whose body is a script of reads, or with an error. *)

From S2P Require Import Prelude GoJson GoIO GoBufio GoMarshal HttpHandler SatWorkload SatReport.

(** ** Bodies *)

Definition queueTimeoutHeader : gostring := bs "X-Ssemaphore-Queue-Timeout-Ms".
Definition queueDeadlineBody : gostring :=
  quoted "{'error':{'code':'queue_deadline_exceeded','message':'The request could not be admitted before its queue deadline.'}}" ++ [10].
Definition tenantRejectedBody : gostring :=
  quoted "{'error':{'code':'tenant_capacity_exhausted','message':'The tenant has no request capacity available.'}}" ++ [10].
Definition globalRejectedBody : gostring :=
  quoted "{'error':{'code':'overloaded','message':'The service has no global request capacity available.'}}" ++ [10].
Definition bufferedCompletionBody : gostring := quoted "{'object':'chat.completion','choices':[]}".
Definition streamChunkEvent : gostring := quoted "data: {'object':'chat.completion.chunk'}" ++ [10; 10].
Definition streamDoneEvent : gostring := bs "data: [DONE]" ++ [10; 10].

(** ** Headers *)

(** [http.Header]: the values of each canonical name. *)
Abbreviation httpHeader := (gmap (list Z) (list (list Z))) (only parsing).

Definition header_Values (header : httpHeader) (name : string) : list gostring := default [] (header !! bs name).
Definition header_Get (header : httpHeader) (name : string) : gostring :=
  match header_Values header name with [] => [] | value :: _ => value end.
Definition header_Set (header : httpHeader) (name : gostring) (value : gostring) : httpHeader := <[name := [value]]> header.

Definition validPublicRequestID (value : gostring) : bool :=
  (length value =? 32)%nat && forallb (fun c => (48 <=? c) && ((c <=? 57) || between 97 102 c)) value.

Definition validGatewayHeaders (header : httpHeader) : bool :=
  bool_decide (header_Get header "Cache-Control" = bs "no-store")
  && bool_decide (header_Get header "X-Content-Type-Options" = bs "nosniff")
  && validPublicRequestID (header_Get header "X-Request-Id")
  && bool_decide (header_Values header "Authorization" = []).

(** ** Results *)

Record clientResult := mkResult {
  res_completed : bool;
  res_canceled : bool;
  res_deadline : bool;
  res_rejected : bool;
  res_globalRejected : bool;
  res_failure : option harnessError;
}.

Definition failed (e : harnessError) : clientResult := mkResult false false false false false (Some e).
Definition completed : clientResult := mkResult true false false false false None.
Definition canceled_result : clientResult := mkResult false true false false false None.
Definition deadline_result : clientResult := mkResult false false true false false None.
Definition rejected_result : clientResult := mkResult false false false true false None.
Definition globalRejected_result : clientResult := mkResult false false false false true None.

Definition invalidClientWireError (kind : jobKind) : harnessError :=
  match kind with
  | jobControl => errHarnessControlWire
  | jobService => errHarnessServiceWire
  | jobDeadline => errHarnessDeadlineWire
  | jobReject => errHarnessRejectedWire
  | jobGlobalReject => errHarnessGlobalRejectedWire
  | jobCancel | jobUnset => errHarnessClientWire
  end.

(** ** One request *)

Record clientRequest := mkClientRequest {
  cq_Method : gostring;
  cq_URL : gostring;
  cq_Header : httpHeader;
  cq_Body : gostring;
}.

Record clientResponse := mkClientResponse {
  cs_ProtoMajor : Z;
  cs_StatusCode : Z;
  cs_Header : httpHeader;
  cs_Body : script;
  cs_CloseFails : bool;
}.

(** The request of a job. *)
Definition clientRequestOf (endpoint : gostring) (job : saturationJob) : clientRequest :=
  let header := header_Set (header_Set ∅ (bs "Authorization") (bs "Bearer " ++ td_token (job_tenant job)))
                  (bs "Content-Type") (bs "application/json") in
  mkClientRequest (bs "POST") endpoint
    (if negb (job_queueTimeoutMS job =? 0)
     then header_Set header queueTimeoutHeader (formatUint (job_queueTimeoutMS job)) else header)
    (job_body job).

Section client.
(** [mime.ParseMediaType], and how [append] grows a buffer. *)
Context (parseMediaType : list Z -> option (list Z * list (list Z * list Z))).
Context (room : nat -> nat).

(** The content type is exactly this media type, without parameters. *)
Definition plainMediaType (want value : gostring) : bool :=
  match parseMediaType value with
  | Some (mediaType, []) => bool_decide (mediaType = want)
  | _ => false
  end.

Definition validBufferedHeaders (header : httpHeader) (bodyBytes : nat) : bool :=
  plainMediaType (bs "application/json") (header_Get header "Content-Type")
  && bool_decide (header_Get header "Content-Length" = formatUint (Z.of_nat bodyBytes)).

Definition validStreamHeaders (header : httpHeader) : bool :=
  plainMediaType (bs "text/event-stream") (header_Get header "Content-Type")
  && bool_decide (header_Values header "Content-Length" = []).

(** [io.ReadAll(io.LimitReader(body, limit))] *)
Definition readAllLimited (limit : Z) (body : script) : comp readResult :=
  match ReadAll (S (script_size body)) room (limitRead scriptRead) [] (limit, body) with
  | Done (r, _) => Done r
  | Panicked msg => Panicked msg
  | OutOfFuel => OutOfFuel
  end.

(** Whether the stream is the two events, and whether the first one was reported. *)
Definition readClientStream (body : script) : comp (bool * bool) :=
  let reader := newReaderSize body (Z.of_nat (script_size body) + 1) 256 in
  let fuel := S (script_size body) in
  match ReadString fuel 10 [] reader with
  | Done (firstLine, err, reader) =>
      if negb (bool_decide (err = None)) || negb (bool_decide (firstLine = removelast streamChunkEvent))
      then Done (false, false)
      else if negb (bool_decide (firstLine = quoted "data: {'object':'chat.completion.chunk'}" ++ [10]))
      then Done (false, false)
      else
        match ReadString fuel 10 [] reader with
        | Done (delimiter, err, reader) =>
            if negb (bool_decide (err = None)) || negb (bool_decide (delimiter = [10])) then Done (false, false)
            else
              match ReadAll (S (S (script_size body))) room (limitRead bufio_Read) []
                      (Z.of_nat (length streamDoneEvent) + 1, reader) with
              | Done (remainder, err, _) => Done (bool_decide (err = None) && bool_decide (remainder = streamDoneEvent), true)
              | Panicked msg => Panicked msg
              | OutOfFuel => OutOfFuel
              end
        | Panicked msg => Panicked msg
        | OutOfFuel => OutOfFuel
        end
  | Panicked msg => Panicked msg
  | OutOfFuel => OutOfFuel
  end.

(** Whether a buffered response is the one the job expects, or the error that is
    reported before its body is closed. *)
Definition bufferedResponse (kind : jobKind) (status : Z) (body : gostring) : result harnessError bool :=
  match kind with
  | jobControl | jobService => Ok ((status =? 200) && bool_decide (body = bufferedCompletionBody))
  | jobDeadline =>
      _ ← guard_err (negb (status =? 503)) errHarnessDeadlineCode;
      _ ← guard_err (negb (bool_decide (body = queueDeadlineBody))) errHarnessDeadlineBody;
      Ok true
  | jobReject => Ok ((status =? 429) && bool_decide (body = tenantRejectedBody))
  | jobGlobalReject => Ok ((status =? 503) && bool_decide (body = globalRejectedBody))
  | jobCancel | jobUnset => Ok false
  end.

Definition resultOfKind (kind : jobKind) : clientResult :=
  match kind with
  | jobControl | jobService => completed
  | jobDeadline => deadline_result
  | jobReject => rejected_result
  | jobGlobalReject => globalRejected_result
  | jobCancel | jobUnset => failed errHarnessClientWire
  end.

(** What is made of a response, and whether the first event was reported. *)
Definition judgeResponse (job : saturationJob) (response : clientResponse) : comp (clientResult * bool) :=
  let kind := job_kind job in
  if negb (cs_ProtoMajor response =? 1) || negb (validGatewayHeaders (cs_Header response))
  then Done (failed errHarnessClientHeader, false)
  else if job_stream job && (cs_StatusCode response =? 200) then
    if negb (validStreamHeaders (cs_Header response)) then Done (failed (invalidClientWireError kind), false)
    else
      match readClientStream (cs_Body response) with
      | Done (valid, event) =>
          Done (if cs_CloseFails response || negb valid then failed (invalidClientWireError kind) else completed, event)
      | Panicked msg => Panicked msg
      | OutOfFuel => OutOfFuel
      end
  else
    match readAllLimited 1025 (cs_Body response) with
    | Done (body, Some _) => Done (failed errHarnessClientIO, false)
    | Done (body, None) =>
        if negb (validBufferedHeaders (cs_Header response) (length body)) then Done (failed errHarnessClientHeader, false)
        else
          match bufferedResponse kind (cs_StatusCode response) body with
          | Err e => Done (failed e, false)
          | Ok valid =>
              Done (if cs_CloseFails response || negb valid then failed (invalidClientWireError kind) else resultOfKind kind, false)
          end
    | Panicked msg => Panicked msg
    | OutOfFuel => OutOfFuel
    end.

(** [newRequest] says whether [http.NewRequestWithContext] takes the request,
    [do_] is the transport, and [ctxCanceled] whether the context of the call was
    canceled when it failed. *)
Definition executeClientRequest (newRequest : gostring -> bool) (do_ : clientRequest -> option clientResponse)
    (ctxCanceled : bool) (endpoint : gostring) (job : saturationJob) : comp (clientResult * bool) :=
  if negb (newRequest endpoint) then Done (failed errHarnessClientBuild, false)
  else
    match do_ (clientRequestOf endpoint job) with
    | None =>
        Done (if bool_decide (job_kind job = jobCancel) && ctxCanceled then canceled_result else failed errHarnessClientIO, false)
    | Some response => judgeResponse job response
    end.
End client.
