(* ===== verification/SatHarness.v ===== *)
(** * Saturation harness: the run

    Models [exerciseSaturation] and what it calls in
    [tools/run_saturation/harness.go], as a program over a laboratory.  The
    laboratory is everything that answers the harness: the gateway under test, its
    scheduler, the controlled upstream, the clients' goroutines and the clock.  Its
    answers may depend on all that the harness has done before, and the execution
    context ends the waiting at some point.

    Then what a run establishes: whatever the laboratory answers, a run comes to an
    end without a panic, and a run that reports has submitted every job once, in the
    seeded order, and reports exactly the plan. *)

From S2P Require Import Prelude AdmissionConfig GoHeap AdmissionOwner AdmissionScheduler GoJson GoIO SatWorkload SatSeeded.
From S2P Require Import SatOracle SatReport SatAudit SatClient.

(** ** The laboratory *)

(** What is opened and closed around a run; a shutdown of the gateway closes its
    scheduler and its listener with it. *)
Inductive resource := theUpstream | theScheduler | theUpstreamClient | theListener | theGateway | theRunContext.

(** Starting and stopping what a run needs: attempts and waits, and their effects. *)
Inductive benchAct :=
| tryListen
| tryGatewayShutdown
| awaitServe
| tryUpstreamShutdown
| awaitUpstreamServe
| awaitCalls
| stopUpstream
| idleClients
| nowOpen (r : resource)
| nowClosed (r : resource).

(** What the harness does and asks, in order. *)
Inductive act :=
| actBench (b : benchAct)
| actLaunch (job : saturationJob)
| actSnapshot
| actTick
| actDispatch
| actResult (identifier : Z)
| actEvent (identifier : Z)
| actCancel (identifier : Z)
| actReleaseFirst (identifier : Z)
| actReleaseDone (identifier : Z)
| actNow
| actDispatchedCount
| actIssues
| actWaitClients.

Record upstreamDispatch := mkDispatch { ud_job : saturationJob; ud_arrived : Z }.

(** [select] in [awaitUpstreamDispatch]. *)
Inductive dispatchAnswer :=
| gotDispatch (d : upstreamDispatch)
| gotIssue (e : controlledError)
| dispatchEnded.

(** The answers, after what was done so far (the latest first); [None] of an await
    is the end of the context. *)
Class Lab := {
  lab_now : list act -> Z;
  lab_snapshot : list act -> option Snapshot;
  lab_ended : list act -> bool;
  lab_dispatch : list act -> dispatchAnswer;
  lab_result : list act -> Z -> option clientResult;
  lab_event : list act -> Z -> option Z;
  lab_dispatchedCount : list act -> Z;
  lab_issues : list act -> bool;
  lab_clients : list act -> bool;
  (** The ticks of one millisecond before the context ends a wait. *)
  lab_patience : nat;
}.

(** A call; its channels are the laboratory's. *)
Record clientCall := mkCall {
  ca_job : saturationJob;
  ca_submitted : Z;
  ca_cancel : bool;
}.

(** ** The program *)

Record harness := mkHarness {
  hs_done : list act;
  hs_calls : gmap Z clientCall;
}.

Definition Har (A : Type) : Type := harness -> comp (result harnessError A * harness).

#[global] Instance Har_ret : MRet Har := fun A a h => Done (Ok a, h).
#[global] Instance Har_bind : MBind Har := fun A B f m h =>
  match m h with
  | Done (Ok a, h') => f a h'
  | Done (Err e, h') => Done (Err e, h')
  | Panicked msg => Panicked msg
  | OutOfFuel => OutOfFuel
  end.

Definition raise {A} (e : harnessError) : Har A := fun h => Done (Err e, h).
Definition require (b : bool) (e : harnessError) : Har unit := if b then mret tt else raise e.
Definition attempt {A} (a : option A) (e : harnessError) : Har A := match a with Some a => mret a | None => raise e end.
Definition calls : Har (gmap Z clientCall) := fun h => Done (Ok (hs_calls h), h).

(** Does [a], and takes the laboratory's answer to it. *)
Definition perform {A} (a : act) (answer : list act -> A) : Har A := fun h =>
  Done (Ok (answer (hs_done h)), mkHarness (a :: hs_done h) (hs_calls h)).
Definition act_only (a : act) : Har unit := perform a (fun _ => tt).

(** [a.Sub(b)], which is kept within a [Duration]. *)
Definition time_Sub (a b : Z) : Z := Z.max (- two63) (Z.min (two63 - 1) (a - b)).

Section harness.
Context `{Lab}.
Context (profile : saturationProfile) (workload : seededWorkload).

Definition jobAt (identifier : Z) : saturationJob := jobOf (wl_jobs workload) identifier.

(** ** What it waits for *)

Definition launch (job : saturationJob) : Har clientCall :=
  known ← calls;
  match known !! job_id job with
  | Some _ => raise errHarnessState
  | None =>
      submitted ← perform actNow lab_now;
      let call := mkCall job submitted (bool_decide (job_kind job = jobCancel)) in
      (fun h => Done (Ok tt, mkHarness (hs_done h) (<[job_id job := call]> (hs_calls h))));;
      act_only (actLaunch job);;
      mret call
  end.

(** [waitForSnapshot] and [waitForEmptySnapshot], with the ticks that remain. *)
Fixpoint waitFor (ticks : nat) (matches : Snapshot -> bool) : Har unit :=
  match ticks with
  | O => fun _ => OutOfFuel
  | S ticks =>
      snapshot ← perform actSnapshot lab_snapshot;
      match snapshot with
      | None => raise errHarnessState
      | Some snapshot =>
          if matches snapshot then mret tt
          else
            ended ← perform actTick lab_ended;
            if (ended : bool) then raise errHarnessState else waitFor ticks matches
      end
  end.

Definition waitForSnapshot (expected : queueExpectation) : Har unit :=
  waitFor (S lab_patience) (fun snapshot => snapshotMatches snapshot expected).
Definition waitForEmptySnapshot : Har unit := waitFor (S lab_patience) snapshotEmpty.

(** The call is given by the harness's map; a missing one is nil. *)
Definition awaitClientResult (call : option clientCall) : Har clientResult :=
  match call with
  | None => raise errHarnessState
  | Some call =>
      let identifier := job_id (ca_job call) in
      answer ← perform (actResult identifier) (fun done => lab_result done identifier);
      attempt answer errHarnessClient
  end.

Definition awaitFirstEvent (identifier : Z) : Har Z :=
  answer ← perform (actEvent identifier) (fun done => lab_event done identifier);
  attempt answer errHarnessClient.

Definition awaitUpstreamDispatch : Har upstreamDispatch :=
  answer ← perform actDispatch lab_dispatch;
  match answer with
  | gotDispatch d => mret d
  | gotIssue e => raise (errOfUpstream e)
  | dispatchEnded => raise errHarnessState
  end.

Definition waitClients : Har unit :=
  finished ← perform actWaitClients lab_clients;
  require finished errHarnessClient.

(** A result without failure in which [flag] is set. *)
Definition accept (flag : clientResult -> bool) (r : clientResult) : Har unit :=
  match res_failure r with
  | Some e => raise e
  | None => require (flag r) errHarnessClient
  end.

(** ** Accounting *)

(** The variables that the loops of [exerciseSaturation] update. *)
Record progress := mkProgress {
  pg_expectation : queueExpectation;
  pg_accumulators : list tenantAccumulator;
}.

Definition accumulatorFor (accumulators : list tenantAccumulator) (identifier : Z) : option nat :=
  serviceTenantIndex identifier.

Definition tally (f : tenantAccumulator -> tenantAccumulator) (index : nat) (p : progress) : progress :=
  mkProgress (pg_expectation p) (alter f index (pg_accumulators p)).
Definition count (f : outcomeCounts -> outcomeCounts) (a : tenantAccumulator) : tenantAccumulator :=
  mkAccumulator (ta_definition a) (f (ta_counts a)) (ta_dispatchedRequests a) (ta_dispatchedWorkUnits a).
Definition expecting (f : queueExpectation -> queueExpectation) (p : progress) : progress :=
  mkProgress (f (pg_expectation p)) (pg_accumulators p).

Definition submitted_one (c : outcomeCounts) : outcomeCounts :=
  mkOutcomes (oc_Submitted c +u 1) (oc_Admitted c) (oc_Rejected c) (oc_Completed c) (oc_Canceled c) (oc_DeadlineExceeded c).
Definition admitted_one (c : outcomeCounts) : outcomeCounts :=
  mkOutcomes (oc_Submitted c) (oc_Admitted c +u 1) (oc_Rejected c) (oc_Completed c) (oc_Canceled c) (oc_DeadlineExceeded c).
Definition rejected_one (c : outcomeCounts) : outcomeCounts :=
  mkOutcomes (oc_Submitted c) (oc_Admitted c) (oc_Rejected c +u 1) (oc_Completed c) (oc_Canceled c) (oc_DeadlineExceeded c).
Definition completed_one (c : outcomeCounts) : outcomeCounts :=
  mkOutcomes (oc_Submitted c) (oc_Admitted c) (oc_Rejected c) (oc_Completed c +u 1) (oc_Canceled c) (oc_DeadlineExceeded c).
Definition canceled_one (c : outcomeCounts) : outcomeCounts :=
  mkOutcomes (oc_Submitted c) (oc_Admitted c) (oc_Rejected c) (oc_Completed c) (oc_Canceled c +u 1) (oc_DeadlineExceeded c).
Definition deadline_one (c : outcomeCounts) : outcomeCounts :=
  mkOutcomes (oc_Submitted c) (oc_Admitted c) (oc_Rejected c) (oc_Completed c) (oc_Canceled c) (oc_DeadlineExceeded c +u 1).

(** ** The steps *)

Definition enqueueObserved (p : progress) (job : saturationJob) : Har progress :=
  match accumulatorFor (pg_accumulators p) (td_id (job_tenant job)) with
  | None => raise errHarnessState
  | Some index =>
      require (negb (bool_decide (job_kind job = jobReject)) && negb (bool_decide (job_kind job = jobControl))) errHarnessState;;
      let p := tally (count submitted_one) index p in
      launch job;;
      let p := expecting (fun e => expect_addQueued e job) p in
      waitForSnapshot (pg_expectation p);;
      mret (tally (count admitted_one) index p)
  end.

(** [for _, identifier := range identifiers] of a step. *)
Fixpoint forEach (step : progress -> Z -> Har progress) (p : progress) (identifiers : list Z) : Har progress :=
  match identifiers with
  | [] => mret p
  | identifier :: identifiers => p ← step p identifier; forEach step p identifiers
  end.

Definition enqueueAll : progress -> list Z -> Har progress := forEach (fun p identifier => enqueueObserved p (jobAt identifier)).

Definition awaitDeadline (p : progress) (identifier : Z) : Har progress :=
  known ← calls;
  result ← awaitClientResult (known !! identifier);
  accept res_deadline result;;
  let job := jobAt identifier in
  let p := expecting (fun e => expect_removeQueued e job) p in
  index ← attempt (accumulatorFor (pg_accumulators p) (td_id (job_tenant job))) errHarnessState;
  mret (tally (count deadline_one) index p).

Definition cancelOne (p : progress) (identifier : Z) : Har progress :=
  known ← calls;
  match known !! identifier with
  | Some call =>
      require (ca_cancel call) errHarnessState;;
      act_only (actCancel identifier);;
      result ← awaitClientResult (Some call);
      accept res_canceled result;;
      let job := jobAt identifier in
      let p := expecting (fun e => expect_removeQueued e job) p in
      waitForSnapshot (pg_expectation p);;
      index ← attempt (accumulatorFor (pg_accumulators p) (td_id (job_tenant job))) errHarnessState;
      mret (tally (count canceled_one) index p)
  | None => raise errHarnessState
  end.

Definition rejectOne (p : progress) (identifier : Z) : Har progress :=
  let job := jobAt identifier in
  index ← attempt (accumulatorFor (pg_accumulators p) (td_id (job_tenant job))) errHarnessState;
  let p := tally (count submitted_one) index p in
  call ← launch job;
  result ← awaitClientResult (Some call);
  accept res_rejected result;;
  let p := tally (count rejected_one) index p in
  waitForSnapshot (pg_expectation p);;
  mret p.

Definition rejectGlobally (p : progress) : Har unit :=
  let job := jobAt (wl_globalRejection workload) in
  require (bool_decide (job_kind job = jobGlobalReject) && bool_decide (job_tenant job = globalProbeTenant)) errHarnessState;;
  call ← launch job;
  result ← awaitClientResult (Some call);
  accept res_globalRejected result;;
  waitForSnapshot (pg_expectation p).

(** ** The dispatches *)

Record observation := mkObservation {
  ob_progress : progress;
  ob_expected : list dispatchRecord;
  ob_observed : list dispatchRecord;
  ob_timings : list timingSample;
}.

(** The first event of a stream, in nanoseconds after the release. *)
Definition awaitStream (identifier released : Z) : Har Z :=
  fun h =>
    match awaitFirstEvent identifier h with
    | Done (Ok firstEvent, h') =>
        if firstEvent <? released then raise errHarnessClient h'
        else (act_only (actReleaseDone identifier);; mret (u64 (time_Sub firstEvent released))) h'
    | Done (Err _, h') => raise errHarnessClient h'
    | Panicked msg => Panicked msg
    | OutOfFuel => OutOfFuel
    end.

Definition serveStep (o : observation) (index : nat) (step : oracleDispatch) : Har observation :=
  dispatch ← awaitUpstreamDispatch;
  let job := ud_job dispatch in
  require ((job_id job =? od_identifier step) && bool_decide (job_kind job = jobService)) errHarnessState;;
  known ← calls;
  match known !! job_id job with
  | None => raise errHarnessState
  | Some call =>
      require (negb (ud_arrived dispatch <? ca_submitted call)) errHarnessState;;
      let position := u64 (Z.of_nat (index + 1)) in
      let record := mkRecord position (td_label (job_tenant job)) (td_weight (job_tenant job)) (job_workUnits job) (job_mode job) in
      let submitNS := u64 (time_Sub (ud_arrived dispatch) (ca_submitted call)) in
      released ← perform actNow lab_now;
      act_only (actReleaseFirst (job_id job));;
      eventNS ← (if job_stream job then ns ← awaitStream (job_id job) released; mret (Some ns) else mret None);
      result ← awaitClientResult (Some call);
      accept res_completed result;;
      tenantIndex ← attempt (accumulatorFor (pg_accumulators (ob_progress o)) (td_id (job_tenant job))) errHarnessState;
      let served a := mkAccumulator (ta_definition a) (completed_one (ta_counts a)) (ta_dispatchedRequests a +u 1)
                        (ta_dispatchedWorkUnits a +u job_workUnits job) in
      mret (mkObservation (tally served tenantIndex (ob_progress o)) (ob_expected o ++ [od_record step])
        (ob_observed o ++ [record])
        (ob_timings o ++ [mkSample position (td_label (job_tenant job)) (job_mode job) submitNS eventNS]))
  end.

Fixpoint serveAll (o : observation) (index : nat) (plan : list oracleDispatch) : Har observation :=
  match plan with
  | [] => mret o
  | step :: plan => o ← serveStep o index step; serveAll o (S index) plan
  end.

(** ** The run *)

(** A value of a pure function that may fail. *)
Definition lifted {E A} (wrap : E -> harnessError) (c : comp (result E A)) : Har A := fun h =>
  match c with
  | Done (Ok a) => Done (Ok a, h)
  | Done (Err e) => Done (Err (wrap e), h)
  | Panicked msg => Panicked msg
  | OutOfFuel => OutOfFuel
  end.

Definition freshAccumulators : list tenantAccumulator :=
  map (fun tenant => mkAccumulator tenant zeroOutcomes 0 0) serviceTenants.

(** The control request holds the only place in flight. *)
Definition startControl : Har clientCall :=
  let controlJob := jobAt (wl_control workload) in
  controlCall ← launch controlJob;
  controlDispatch ← awaitUpstreamDispatch;
  require ((job_id (ud_job controlDispatch) =? job_id controlJob)
           && bool_decide (job_kind (ud_job controlDispatch) = jobControl)) errHarnessState;;
  waitForSnapshot (newQueueExpectation controlJob);;
  mret controlCall.

(** All that is submitted, canceled and rejected behind the control request. *)
Definition loadQueues : Har progress :=
  let p := mkProgress (newQueueExpectation (jobAt (wl_control workload))) freshAccumulators in
  p ← enqueueAll p (wl_initialService workload);
  p ← enqueueAll p (wl_cancellations workload);
  p ← enqueueAll p (wl_deadlines workload);
  p ← forEach awaitDeadline p (wl_deadlines workload);
  waitForSnapshot (pg_expectation p);;
  p ← forEach cancelOne p (wl_cancellations workload);
  p ← enqueueAll p (wl_lateService workload);
  p ← forEach rejectOne p (wl_rejections workload);
  rejectGlobally p;;
  mret p.

Definition finishControl (controlCall : clientCall) : Har unit :=
  act_only (actReleaseFirst (job_id (ca_job controlCall)));;
  result ← awaitClientResult (Some controlCall);
  accept res_completed result.

Definition exerciseSaturation (build : goBuild) : Har saturationReport :=
  controlCall ← startControl;
  p ← loadQueues;
  finishControl controlCall;;
  plan ← lifted errOfWorkload (expectedDispatchPlan workload);
  o ← serveAll (mkObservation p [] [] []) 0 plan;
  dispatched ← perform actDispatchedCount lab_dispatchedCount;
  require (bool_decide (ob_expected o = ob_observed o) && (dispatched =? Z.of_nat (length plan + 1))) errHarnessState;;
  issue ← perform actIssues lab_issues;
  require (negb issue) errHarnessState;;
  waitClients;;
  waitForEmptySnapshot;;
  runs ← perform actDispatchedCount lab_dispatchedCount;
  report ← lifted id (Done (buildReport build profile workload (pg_accumulators (ob_progress o)) (ob_expected o)
             (ob_observed o) (ob_timings o) (u64 runs)));
  lifted id (validateReport report);;
  mret report.
End harness.

(** * Saturation harness: what a run establishes *)

(** ** Runs that end *)

(** The execution context ends: after [lab_patience] ticks a wait is over. *)
Definition ticked (done : list act) : nat :=
  length (filter (fun a => match a with actTick => true | _ => false end = true) done).

Definition patient (L : Lab) : Prop := forall done, (lab_patience <= ticked done)%nat -> lab_ended done = true.

(** [m] ends, with a value that satisfies [Q] or with an error. *)
Definition ends {A} (m : Har A) (Q : A -> Prop) : Prop :=
  forall h, exists r h', m h = Done (r, h') /\ match r with Ok a => Q a | Err _ => True end.

Section ends.
Context `{Lab}.

Lemma ends_mono {A} (m : Har A) (Q R : A -> Prop) : (forall a, Q a -> R a) -> ends m Q -> ends m R.
Proof.
  intros HQ Hm h. destruct (Hm h) as (r & h' & Hr & Hq). exists r, h'. split; [done|]. destruct r; [by apply HQ|done].
Qed.

Lemma ends_ret {A} (a : A) (Q : A -> Prop) : Q a -> ends (mret a) Q.
Proof. intros HQ h. by eexists (Ok a), h. Qed.

Lemma ends_bind {A B} (m : Har A) (f : A -> Har B) (Q : A -> Prop) (R : B -> Prop) :
  ends m Q -> (forall a, Q a -> ends (f a) R) -> ends (m ≫= f) R.
Proof.
  intros Hm Hf h. destruct (Hm h) as (r & h1 & Hr & Hq). unfold mbind, Har_bind. rewrite Hr.
  destruct r as [a|e]; [by apply Hf|by eexists (Err e), h1].
Qed.

Lemma ends_then {A B} (m : Har A) (f : A -> Har B) (R : B -> Prop) :
  ends m (fun _ => True) -> (forall a, ends (f a) R) -> ends (m ≫= f) R.
Proof. intros Hm Hf. eapply ends_bind; [exact Hm|]. auto. Qed.

Lemma ends_raise {A} e (Q : A -> Prop) : ends (raise e) Q.
Proof. intros h. by eexists (Err e), h. Qed.

Lemma ends_require b e : ends (require b e) (fun _ => b = true).
Proof. destruct b; [by apply ends_ret|apply ends_raise]. Qed.

Lemma ends_attempt {A} (a : option A) e : ends (attempt a e) (fun x => a = Some x).
Proof. destruct a; [by apply ends_ret|apply ends_raise]. Qed.

Lemma ends_perform {A} a (answer : list act -> A) : ends (perform a answer) (fun _ => True).
Proof. intros h. by eexists (Ok _), _. Qed.

Lemma ends_calls : ends calls (fun _ => True).
Proof. intros h. by eexists (Ok _), _. Qed.
End ends.

Ltac ends_step :=
  lazymatch goal with
  | |- ends (mbind _ _) _ => eapply ends_then; [|intros ?]
  | |- ends (mret _) _ => apply ends_ret; trivial
  | |- ends (raise _) _ => apply ends_raise
  | |- ends (perform _ _) _ => apply ends_perform
  | |- ends (act_only _) _ => apply ends_perform
  | |- ends calls _ => apply ends_calls
  | |- ends (require _ _) _ => eapply ends_mono; [|apply ends_require]; trivial
  | |- ends (attempt _ _) _ => eapply ends_mono; [|apply ends_attempt]; trivial
  | |- ends (match ?x with _ => _ end) _ => destruct x
  | |- ends (let _ := _ in _) _ => cbv zeta
  end.

Section total.
Context (L : Lab) (Hpatient : patient L).
Context (workload : seededWorkload).

Lemma waitFor_ends ticks matches_ h : (0 < ticks)%nat -> (lab_patience < ticks + ticked (hs_done h))%nat ->
  exists r h', waitFor ticks matches_ h = Done (r, h').
Proof.
  revert h. induction ticks as [|ticks IH]; intros h Hpos Hk; [lia|].
  cbn [waitFor]. unfold mbind, Har_bind, perform. cbn [hs_done]. destruct (lab_snapshot (hs_done h)) as [s|]; [|by eexists _, _].
  destruct (matches_ s); [by eexists _, _|]. cbn [hs_done].
  destruct (lab_ended (actSnapshot :: hs_done h)) eqn:He; [by eexists _, _|].
  assert (ticked (actSnapshot :: hs_done h) < lab_patience)%nat as Hlt.
  { destruct (Nat.lt_ge_cases (ticked (actSnapshot :: hs_done h)) lab_patience) as [|Hge]; [done|].
    by rewrite (Hpatient _ Hge) in He. }
  unfold ticked in *. rewrite filter_cons_False in Hlt by done. apply IH; cbn [hs_done]; [lia|].
  rewrite filter_cons_True, filter_cons_False by done. cbn. lia.
Qed.

Lemma waitFor_total matches_ : ends (waitFor (S lab_patience) matches_) (fun _ => True).
Proof.
  intros h. destruct (waitFor_ends (S lab_patience) matches_ h) as (r & h' & Hr); [lia|lia|]. exists r, h'. split; [done|]. by destruct r.
Qed.

Lemma launch_total job : ends (launch job) (fun _ => True).
Proof.
  unfold launch. ends_step; [ends_step|]. ends_step; [ends_step|]. ends_step; [ends_step|].
  ends_step; [intros h; by eexists (Ok tt), _|]. repeat ends_step.
Qed.

Lemma await_total call : ends (awaitClientResult call) (fun _ => True).
Proof. unfold awaitClientResult. repeat ends_step. Qed.

Lemma dispatch_total : ends awaitUpstreamDispatch (fun _ => True).
Proof. unfold awaitUpstreamDispatch. repeat ends_step. Qed.

Lemma accept_total flag r : ends (accept flag r) (fun _ => True).
Proof. unfold accept. repeat ends_step. Qed.

Lemma forEach_total step p identifiers : (forall p identifier, ends (step p identifier) (fun _ => True)) ->
  ends (forEach step p identifiers) (fun _ => True).
Proof.
  intros Hs. revert p. induction identifiers as [|identifier identifiers IH]; intros p; cbn [forEach]; [by apply ends_ret|].
  eapply ends_then; [apply Hs|auto].
Qed.

Ltac ends_steps := repeat first
  [ ends_step | apply waitFor_total | apply launch_total | apply await_total | apply dispatch_total | apply accept_total
  | apply forEach_total; intros ].

Lemma enqueue_total p job : ends (enqueueObserved p job) (fun _ => True).
Proof. unfold enqueueObserved, waitForSnapshot. ends_steps. Qed.

Lemma deadline_total p identifier : ends (awaitDeadline workload p identifier) (fun _ => True).
Proof. unfold awaitDeadline. ends_steps. Qed.

Lemma cancel_total p identifier : ends (cancelOne workload p identifier) (fun _ => True).
Proof. unfold cancelOne, waitForSnapshot. ends_steps. Qed.

Lemma reject_total p identifier : ends (rejectOne workload p identifier) (fun _ => True).
Proof. unfold rejectOne, waitForSnapshot. ends_steps. Qed.

Lemma rejectGlobally_total p : ends (rejectGlobally workload p) (fun _ => True).
Proof. unfold rejectGlobally, waitForSnapshot. ends_steps. Qed.

Lemma load_total : ends (loadQueues workload) (fun _ => True).
Proof.
  unfold loadQueues, enqueueAll, waitForSnapshot.
  ends_steps; first [apply enqueue_total | apply deadline_total | apply cancel_total | apply reject_total | apply rejectGlobally_total].
Qed.

Lemma stream_total identifier released : ends (awaitStream identifier released) (fun _ => True).
Proof.
  intros h. unfold awaitStream.
  assert (He : ends (awaitFirstEvent identifier) (fun _ => True)) by (unfold awaitFirstEvent; ends_steps).
  destruct (He h) as ([t|e] & h' & -> & _); [|by eexists (Err _), _].
  destruct (t <? released); [by eexists (Err _), _|by eexists (Ok _), _].
Qed.

(** What the observed side of a step records is the expected side, or the run stops
    at the comparison. *)
Lemma serveStep_total o index step : ends (serveStep o index step)
  (fun o' => ob_expected o' = ob_expected o ++ [od_record step]).
Proof.
  unfold serveStep. ends_step; [apply dispatch_total|]. ends_step; [ends_steps|]. ends_step; [ends_steps|].
  destruct (_ !! _) as [call|]; [|apply ends_raise]. ends_step; [ends_steps|]. ends_step; [ends_steps|].
  ends_step; [ends_steps|]. ends_step; [destruct (job_stream _); [ends_step; [apply stream_total|ends_steps]|ends_steps]|].
  ends_step; [apply await_total|]. ends_step; [apply accept_total|]. ends_step; [ends_steps|]. by apply ends_ret.
Qed.

Lemma serveAll_total o index plan : ends (serveAll o index plan)
  (fun o' => ob_expected o' = ob_expected o ++ map od_record plan).
Proof.
  revert o index. induction plan as [|step plan IH]; intros o index; cbn [serveAll map]; [apply ends_ret; by rewrite app_nil_r|].
  eapply ends_bind; [apply serveStep_total|]. cbn beta. intros o1 Ho1. eapply ends_mono; [|apply IH].
  cbn beta. intros o2 ->. by rewrite Ho1, <- app_assoc.
Qed.

Lemma ends_lifted {E A} (wrap : E -> harnessError) (c : result E A) (Q : A -> Prop) :
  match c with Ok a => Q a | Err _ => True end -> ends (lifted wrap (Done c)) Q.
Proof. intros Hc h. destruct c as [a|e]; [by eexists (Ok a), h|by eexists (Err _), h]. Qed.

(** A run comes to an end, and what it reports is consistent and is the plan. *)
Lemma exercise_ends profile build plan : expectedDispatchPlan workload = Done (Ok plan) ->
  Forall (fun d => 0 <= rec_WorkUnits (od_record d)) plan ->
  ends (exerciseSaturation profile workload build)
    (fun report => consistent report /\ rp_Seed report = wl_seed workload
                   /\ sv_Observed (rp_Service report) = map od_record plan).
Proof.
  intros Hplan Hwork. unfold exerciseSaturation, startControl, finishControl, waitClients, waitForEmptySnapshot, waitForSnapshot.
  rewrite Hplan. eapply ends_then; [ends_steps|]. intros control. eapply ends_then; [apply load_total|]. intros p.
  eapply ends_then; [ends_steps|]. intros _. eapply (ends_bind _ _ (eq plan)); [by apply ends_lifted|]. intros _ <-.
  eapply ends_bind; [apply serveAll_total|]. intros o Ho. cbn [ob_expected app] in Ho.
  eapply ends_then; [ends_steps|]. intros dispatched. eapply ends_bind; [apply ends_require|]. intros [] Heq.
  apply andb_true_iff in Heq as [Heq%bool_decide_eq_true _]. rewrite Ho in Heq.
  eapply ends_then; [ends_steps|]. intros issue. eapply ends_then; [ends_steps|]. intros _.
  eapply ends_then; [ends_steps|]. intros _. eapply ends_then; [ends_steps|]. intros _. eapply ends_then; [ends_steps|]. intros runs.
  set (undone := undigested build profile workload (pg_accumulators (ob_progress o)) (ob_expected o) (ob_observed o) (ob_timings o) (u64 runs)).
  eapply (ends_bind _ _ (fun report => rp_Seed report = wl_seed workload /\ sv_Observed (rp_Service report) = ob_observed o)).
  { apply ends_lifted. unfold buildReport, categoricalDigest. fold undone. cbn [mbind result_bind mret result_ret]. done. }
  intros report [Hseed Hobs]. rewrite <- Heq in Hobs.
  assert (Hun : unsigned_report report) by (unfold unsigned_report; rewrite Hobs; by apply Forall_map).
  destruct (validateReport_decides report Hun) as [[-> Hc]|[-> _]].
  - eapply ends_then; [by apply ends_lifted|]. intros _. by apply ends_ret.
  - intros h. by eexists (Err _), h.
Qed.
End total.

(** ** What is submitted *)

(** The jobs of the clients that were started, the first one first. *)
Fixpoint launched (done : list act) : list saturationJob :=
  match done with
  | [] => []
  | actLaunch job :: done => launched done ++ [job]
  | _ :: done => launched done
  end.

(** [m], when it succeeds, has started exactly the clients of [jobs], and registered
    their calls. *)
Definition registered (h : harness) : list Z := map job_id (launched (hs_done h)).

Definition sends {A} (m : Har A) (jobs : list saturationJob) : Prop := forall h a h',
  m h = Done (Ok a, h') -> (forall id, id ∈ dom (hs_calls h) <-> id ∈ registered h) -> NoDup (registered h) ->
  launched (hs_done h') = launched (hs_done h) ++ jobs
  /\ (forall id, id ∈ dom (hs_calls h') <-> id ∈ registered h') /\ NoDup (registered h').

Lemma sends_bind {A B} (m : Har A) (f : A -> Har B) js ks : sends m js -> (forall a, sends (f a) ks) -> sends (m ≫= f) (js ++ ks).
Proof.
  intros Hm Hf h b h' Hr Hk Hnd. unfold mbind, Har_bind in Hr. destruct (m h) as [[[a|e] h1]| |] eqn:Hm1; try done.
  destruct (Hm h a h1 Hm1 Hk Hnd) as (Hl & Hk1 & Hnd1). destruct (Hf a h1 b h' Hr Hk1 Hnd1) as (Hl2 & Hk2 & Hnd2).
  split; [by rewrite Hl2, Hl, app_assoc|done].
Qed.

(** What does not touch the calls or start a client. *)
Definition inert {A} (m : Har A) : Prop := forall h r h',
  m h = Done (r, h') -> launched (hs_done h') = launched (hs_done h) /\ hs_calls h' = hs_calls h.

Lemma inert_sends {A} (m : Har A) : inert m -> sends m [].
Proof.
  intros Hm h a h' Hr Hk Hnd. destruct (Hm h _ h' Hr) as [Hl Hc]. unfold registered in *. rewrite Hl, Hc, app_nil_r. done.
Qed.

Lemma sends_then {A B} (m : Har A) (f : A -> Har B) js : inert m -> (forall a, sends (f a) js) -> sends (m ≫= f) js.
Proof. intros Hm Hf. apply (sends_bind m f [] js); [by apply inert_sends|done]. Qed.

Lemma sends_raise {A} e js : sends (@raise A e) js.
Proof. by intros h a h' [=]. Qed.

Lemma inert_bind {A B} (m : Har A) (f : A -> Har B) : inert m -> (forall a, inert (f a)) -> inert (m ≫= f).
Proof.
  intros Hm Hf h r h' Hr. unfold mbind, Har_bind in Hr. destruct (m h) as [[[a|e] h1]| |] eqn:Hm1; try done.
  - destruct (Hm h _ h1 Hm1) as [Hl Hc], (Hf a h1 r h' Hr) as [Hl2 Hc2]. split; congruence.
  - injection Hr as <- <-. by apply (Hm h (Err e)).
Qed.

Lemma inert_ret {A} (a : A) : inert (mret a).
Proof. by intros h r h' [= <- <-]. Qed.
Lemma inert_raise {A} e : inert (@raise A e).
Proof. by intros h r h' [= <- <-]. Qed.
Lemma inert_require b e : inert (require b e).
Proof. destruct b; [apply inert_ret|apply inert_raise]. Qed.
Lemma inert_attempt {A} (a : option A) e : inert (attempt a e).
Proof. destruct a; [apply inert_ret|apply inert_raise]. Qed.
Lemma inert_perform {A} a (answer : list act -> A) : (forall job, a <> actLaunch job) -> inert (perform a answer).
Proof. intros Ha h r h' [= <- <-]. destruct a; try done. by destruct (Ha job). Qed.
Lemma inert_calls : inert calls.
Proof. by intros h r h' [= <- <-]. Qed.
Lemma inert_lifted {E A} (wrap : E -> harnessError) (c : comp (result E A)) : inert (lifted wrap c).
Proof. intros h r h'. unfold lifted. destruct c as [[a|e]| |]; intros [= <- <-]; done. Qed.

Ltac inert_step :=
  lazymatch goal with
  | |- inert (mbind _ _) => apply inert_bind; [|intros ?]
  | |- inert (mret _) => apply inert_ret
  | |- inert (raise _) => apply inert_raise
  | |- inert (perform _ _) => by apply inert_perform
  | |- inert (act_only _) => by apply inert_perform
  | |- inert calls => apply inert_calls
  | |- inert (require _ _) => apply inert_require
  | |- inert (attempt _ _) => apply inert_attempt
  | |- inert (lifted _ _) => apply inert_lifted
  | |- inert (match ?x with _ => _ end) => destruct x
  | |- inert (let _ := _ in _) => cbv zeta
  end.

Section sends.
Context `{Lab} (workload : seededWorkload).

Lemma waitFor_inert ticks matches_ : inert (waitFor ticks matches_).
Proof. induction ticks as [|ticks IH]; cbn [waitFor]; [by intros h r h'|]. repeat first [exact IH | inert_step]. Qed.

Lemma awaitResult_inert call : inert (awaitClientResult call).
Proof. unfold awaitClientResult. repeat inert_step. Qed.

Lemma accept_inert flag r : inert (accept flag r).
Proof. unfold accept. repeat inert_step. Qed.

Lemma awaitDispatch_inert : inert awaitUpstreamDispatch.
Proof. unfold awaitUpstreamDispatch. repeat inert_step. Qed.

Ltac inert_steps := repeat first [inert_step | apply waitFor_inert | apply awaitResult_inert | apply accept_inert | apply awaitDispatch_inert].

Lemma awaitStream_inert identifier released : inert (awaitStream identifier released).
Proof.
  intros h r h'. unfold awaitStream.
  assert (Hi : inert (awaitFirstEvent identifier)) by (unfold awaitFirstEvent; inert_steps).
  destruct (awaitFirstEvent identifier h) as [[[t|e] h1]| |] eqn:He; try done; destruct (Hi h _ h1 He) as [Hl Hc].
  - destruct (t <? released); [intros [= <- <-]; done|].
    assert (Hj : inert (act_only (actReleaseDone identifier);; mret (u64 (time_Sub t released)))) by inert_steps.
    intros Hr. destruct (Hj h1 r h' Hr). split; congruence.
  - intros [= <- <-]. done.
Qed.

Lemma launch_sends job : sends (launch job) [job].
Proof.
  intros h call h' Hr Hk Hnd. unfold launch, calls, perform, act_only, mbind, Har_bind, mret, Har_ret in Hr. cbn in Hr.
  destruct (hs_calls h !! job_id job) as [c|] eqn:Hc; [done|]. injection Hr as <- <-. cbn [hs_done hs_calls launched].
  split; [done|]. unfold registered in *. cbn [hs_done launched]. rewrite map_app.
  assert (job_id job ∉ map job_id (launched (hs_done h))) as Hno.
  { intros Hin%Hk. by apply not_elem_of_dom in Hc. }
  split.
  - intros id. rewrite dom_insert, elem_of_union, elem_of_singleton, elem_of_app, Hk. cbn [map]. rewrite list_elem_of_singleton. tauto.
  - apply NoDup_app. split; [done|]. split; [|apply NoDup_singleton]. intros id Hin ->%list_elem_of_singleton. done.
Qed.

Lemma sends_last {A B} (m : Har A) (f : A -> Har B) js : sends m js -> (forall a, inert (f a)) -> sends (m ≫= f) js.
Proof. intros Hm Hf. rewrite <- (app_nil_r js). apply sends_bind; [done|]. intros a. by apply inert_sends. Qed.

Lemma enqueue_sends p job : sends (enqueueObserved p job) [job].
Proof.
  unfold enqueueObserved, waitForSnapshot. destruct (accumulatorFor _ _) as [index|]; [|apply sends_raise].
  apply sends_then; [inert_steps|]. intros _. cbv zeta. apply sends_last; [apply launch_sends|]. intros _. inert_steps.
Qed.

Lemma deadline_inert p identifier : inert (awaitDeadline workload p identifier).
Proof. unfold awaitDeadline. inert_steps. Qed.

Lemma cancel_inert p identifier : inert (cancelOne workload p identifier).
Proof. unfold cancelOne, waitForSnapshot. inert_steps. Qed.

Lemma reject_sends p identifier : sends (rejectOne workload p identifier) [jobAt workload identifier].
Proof.
  unfold rejectOne, waitForSnapshot. cbv zeta. apply sends_then; [inert_steps|]. intros index.
  apply sends_last; [apply launch_sends|]. intros call. inert_steps.
Qed.

Lemma rejectGlobally_sends p : sends (rejectGlobally workload p) [jobAt workload (wl_globalRejection workload)].
Proof.
  unfold rejectGlobally, waitForSnapshot. cbv zeta. apply sends_then; [inert_steps|]. intros [].
  apply sends_last; [apply launch_sends|]. intros call. inert_steps.
Qed.

Lemma forEach_sends step p identifiers : (forall p identifier, sends (step p identifier) [jobAt workload identifier]) ->
  sends (forEach step p identifiers) (map (jobAt workload) identifiers).
Proof.
  intros Hs. revert p. induction identifiers as [|identifier identifiers IH]; intros p; cbn [forEach map];
    [apply inert_sends, inert_ret|].
  apply (sends_bind _ _ [jobAt workload identifier]); [apply Hs|auto].
Qed.

Lemma forEach_inert step p identifiers : (forall p identifier, inert (step p identifier)) -> inert (forEach step p identifiers).
Proof.
  intros Hs. revert p. induction identifiers as [|identifier identifiers IH]; intros p; cbn [forEach]; [apply inert_ret|].
  apply inert_bind; [apply Hs|auto].
Qed.

(** The jobs behind the control request, in the seeded order. *)
Definition loadOrder : list Z :=
  wl_initialService workload ++ wl_cancellations workload ++ wl_deadlines workload ++ wl_lateService workload
  ++ wl_rejections workload ++ [wl_globalRejection workload].

Lemma load_sends : sends (loadQueues workload) (map (jobAt workload) loadOrder).
Proof.
  assert (Hen : forall p ids, sends (enqueueAll workload p ids) (map (jobAt workload) ids)).
  { intros p ids. unfold enqueueAll. apply forEach_sends. intros. apply enqueue_sends. }
  unfold loadQueues, loadOrder, waitForSnapshot. cbv zeta. rewrite !map_app.
  apply sends_bind; [apply Hen|]. intros p1. apply sends_bind; [apply Hen|]. intros p2.
  apply sends_bind; [apply Hen|]. intros p3. apply sends_then; [apply forEach_inert; apply deadline_inert|]. intros p4.
  apply sends_then; [apply waitFor_inert|]. intros _. apply sends_then; [apply forEach_inert; apply cancel_inert|]. intros p5.
  apply sends_bind; [apply Hen|]. intros p6. apply sends_bind; [apply forEach_sends; intros; apply reject_sends|]. intros p7.
  apply sends_last; [apply rejectGlobally_sends|]. intros _. apply inert_ret.
Qed.

Lemma serveStep_inert o index step : inert (serveStep o index step).
Proof. unfold serveStep. repeat first [apply awaitStream_inert | inert_step | apply awaitResult_inert | apply accept_inert | apply awaitDispatch_inert]. Qed.

Lemma serveAll_inert o index plan : inert (serveAll o index plan).
Proof.
  revert o index. induction plan as [|step plan IH]; intros o index; cbn [serveAll]; [apply inert_ret|].
  apply inert_bind; [apply serveStep_inert|auto].
Qed.

(** A run that succeeds has started the client of every job of the workload, each
    once, in the seeded order. *)
Lemma exercise_sends profile build : sends (exerciseSaturation profile workload build)
  (map (jobAt workload) (wl_control workload :: loadOrder)).
Proof.
  unfold exerciseSaturation, startControl, finishControl, waitClients, waitForEmptySnapshot, waitForSnapshot. cbn [map].
  apply (sends_bind _ _ [jobAt workload (wl_control workload)]).
  { apply sends_last; [apply launch_sends|]. intros call. inert_steps. }
  intros control. apply sends_last; [apply load_sends|]. intros p.
  apply inert_bind; [inert_steps|]. intros _. apply inert_bind; [apply inert_lifted|]. intros plan.
  apply inert_bind; [apply serveAll_inert|]. intros o. inert_steps.
Qed.
End sends.
