(* ===== verification/SatBench.v ===== *)
(** * Saturation harness: starting and stopping

    Models the rest of [tools/run_saturation/harness.go] and the two ends of the
    controlled upstream in [upstream.go]: [startControlledUpstream],
    [startGatewayRuntime], [shutdown] and [abort] of both, and
    [runSaturationHarness] around [exerciseSaturation].  Then what a run leaves
    behind: however it ends, the upstream, the gateway with its scheduler and
    listener, the upstream client and the context of the run have been closed. *)

From S2P Require Import Prelude AdmissionConfig GoHeap AdmissionOwner AdmissionScheduler GoJson GoIO ContractRequest HttpConfig.
From S2P Require Import ServerConfig ServerListener ServerShutdown ServerLifecycle HttpUpstream AppBuild GoSha256 GoMarshal.
From S2P Require Import SatWorkload SatSeeded SatOracle SatReport SatAudit SatClient SatHarness.

(** ** The bench *)

(** [IP.Equal] with an address of four bytes. *)
Definition IP_Equal4 (ip want : list Z) : bool :=
  bool_decide (ip = want) || bool_decide (ip = replicate 10 0 ++ [255; 255] ++ want).

(** What [http.Server.Serve] returned. *)
Inductive serveEnd := servedNil | servedClosed | servedError.

(** The answers around a run, after what was done so far: a listen gives the address
    of the listener, or [None] when it fails; [None] of a wait is the end of its
    context. *)
Class Bench := {
  #[global] bench_lab :: Lab;
  bench_listen : list act -> option netAddr;
  bench_gatewayShutdown : list act -> ShutdownResult * bool;
  bench_serve : list act -> option bool;
  bench_upstreamShutdown : list act -> bool;
  bench_upstreamServe : list act -> option serveEnd;
}.

Section bench.
Context `{Bench}.
Context (urlParse : list Z -> option parsedURL) (urlString : parsedURL -> list Z).
Context (build : goBuild) (profile : saturationProfile).

Definition bench (b : benchAct) : Har unit := act_only (actBench b).

(** [m], and its error as a value. *)
Definition catch {A} (m : Har A) : Har (result harnessError A) := fun h =>
  match m h with
  | Done (r, h') => Done (Ok r, h')
  | Panicked msg => Panicked msg
  | OutOfFuel => OutOfFuel
  end.

(** Closes [rs] and fails. *)
Definition closeAll (rs : list resource) {A} (e : harnessError) : Har A := fun h =>
  Done (Err e, mkHarness (rev (map (fun r => actBench (nowClosed r)) rs) ++ hs_done h) (hs_calls h)).

(** A listener on a port of 127.0.0.1; one at any other address is closed at once. *)
Definition listenLoopback (e : harnessError) (owned : list resource) : Har (netAddr * Z) :=
  answer ← perform (actBench tryListen) bench_listen;
  match answer with
  | None => closeAll owned e
  | Some address =>
      bench (nowOpen theListener);;
      match address with
      | TCPAddr (Some (ip, port, zone)) =>
          if negb (IP_Equal4 ip [127; 0; 0; 1]) || (port <=? 0) || (65535 <? port)
          then closeAll (theListener :: owned) e else mret (address, port)
      | _ => closeAll (theListener :: owned) e
      end
  end.

(** [net.JoinHostPort("127.0.0.1", strconv.Itoa(port))] *)
Definition loopbackHost (port : Z) : gostring := bs "127.0.0.1:" ++ formatUint port.

(** *** The controlled upstream *)

(** Its listener belongs to its server from then on; the answer is its host. *)
Definition startControlledUpstream : Har gostring :=
  '(_, port) ← listenLoopback (errOfUpstream errControlledUpstreamStart) [];
  bench (nowClosed theListener);;
  bench (nowOpen theUpstream);;
  mret (loopbackHost port).

Definition endpoint (host : gostring) : gostring := bs "http://" ++ host ++ completionsPath.

Definition upstream_shutdown : Har unit :=
  bench stopUpstream;;
  failed ← perform (actBench tryUpstreamShutdown) bench_upstreamShutdown;
  served ← perform (actBench awaitUpstreamServe) bench_upstreamServe;
  match served with
  | None => raise (errOfUpstream errControlledUpstreamClose)
  | Some e =>
      require (negb (failed || match e with servedError => true | _ => false end)) (errOfUpstream errControlledUpstreamClose);;
      bench (nowClosed theUpstream)
  end.

Definition upstream_abort : Har unit :=
  bench stopUpstream;;
  bench (nowClosed theUpstream);;
  perform (actBench awaitUpstreamServe) bench_upstreamServe;;
  mret tt.

(** *** The gateway *)

Definition constructed {E A} (r : result E A) (owned : list resource) : Har A :=
  match r with Ok a => mret a | Err _ => closeAll owned errHarnessConstruction end.

(** The answer is the endpoint of the gateway. *)
Definition startGatewayRuntime (host : gostring) : Har gostring :=
  parser ← constructed saturationParser [];
  scheduler ← constructed (admission_New 0 saturationAdmissionConfig) [];
  bench (nowOpen theScheduler);;
  client ← constructed (NewHTTPUpstream urlParse urlString (saturationUpstreamConfig profile (endpoint host)) upstreamCredential)
             [theScheduler];
  bench (nowOpen theUpstreamClient);;
  handler ← constructed (NewHandler sha256_Sum256 (saturationHTTPConfig profile) parser scheduler)
              [theUpstreamClient; theScheduler];
  '(address, port) ← listenLoopback errHarnessConstruction [theUpstreamClient; theScheduler];
  constructed (server_New (saturationServerConfig profile) (TCPListener (Some address)) (Some handler) (Some (sr_id scheduler)))
    [theListener; theUpstreamClient; theScheduler];;
  bench (nowOpen theGateway);;
  mret (endpoint (loopbackHost port)).

(** [r.gateway.Shutdown(ctx)]: whatever it returns, the gateway has been told to
    stop, its scheduler and listener with it. *)
Definition gateway_Shutdown : Har (ShutdownResult * bool) :=
  answer ← perform (actBench tryGatewayShutdown) bench_gatewayShutdown;
  bench (nowClosed theGateway);;
  bench (nowClosed theListener);;
  bench (nowClosed theScheduler);;
  mret answer.

Definition clean_result (r : ShutdownResult) : bool :=
  negb (sr_Forced r) && (dr_QueuedShutdownCanceled (sr_Drain r) =? 0) && (dr_InFlightActiveAtStart (sr_Drain r) =? 0)
  && (fc_NewlyShutdownSignaled (sr_Force r) =? 0).

Definition runtime_shutdown : Har unit :=
  waited ← catch waitClients;
  match waited with
  | Err _ => raise errHarnessShutdown
  | Ok _ =>
      '(result, failed) ← gateway_Shutdown;
      require (negb failed && clean_result result) errHarnessShutdown;;
      served ← perform (actBench awaitServe) bench_serve;
      match served with
      | Some false =>
          bench idleClients;;
          bench (nowClosed theUpstreamClient)
      | _ => raise errHarnessShutdown
      end
  end.

Definition runtime_abort : Har unit :=
  bench idleClients;;
  gateway_Shutdown;;
  perform (actBench awaitServe) bench_serve;;
  bench (nowClosed theUpstreamClient);;
  bench awaitCalls.

(** The runtime is there or nil. *)
Definition abortSaturationRuntime (withRuntime : bool) : Har unit :=
  upstream_abort;;
  if withRuntime then runtime_abort else mret tt.

(** *** The run *)

(** [live]: the parent context is there and has not ended. *)
Definition runSaturationHarness (live : bool) (seed : Z) : Har saturationReport :=
  require live errHarnessContext;;
  bench (nowOpen theRunContext);;
  workload ← catch (lifted errOfWorkload (buildSeededWorkload seed profile));
  match workload with
  | Err e => closeAll [theRunContext] e
  | Ok workload =>
      host ← catch startControlledUpstream;
      match host with
      | Err e => closeAll [theRunContext] e
      | Ok host =>
          started ← catch (startGatewayRuntime host);
          match started with
          | Err e =>
              bench (nowClosed theRunContext);;
              abortSaturationRuntime false;;
              raise e
          | Ok _ =>
              report ← catch (exerciseSaturation profile workload build);
              match report with
              | Err e =>
                  bench (nowClosed theRunContext);;
                  abortSaturationRuntime true;;
                  raise e
              | Ok report =>
                  runtimeErr ← catch runtime_shutdown;
                  upstreamErr ← (match runtimeErr with Ok _ => catch upstream_shutdown | Err _ => mret (Ok tt) end);
                  match runtimeErr, upstreamErr with
                  | Ok _, Ok _ =>
                      bench (nowClosed theRunContext);;
                      mret report
                  | Err e, _ =>
                      bench (nowClosed theRunContext);;
                      abortSaturationRuntime true;;
                      raise e
                  | Ok _, Err e =>
                      bench (nowClosed theRunContext);;
                      abortSaturationRuntime false;;
                      raise e
                  end
              end
          end
      end
  end.
End bench.

(** * Saturation harness: what a run leaves behind *)

#[export] Instance resource_eq_dec : EqDecision resource.
Proof. solve_decision. Defined.

(** The last word on a resource. *)
Fixpoint isOpen (r : resource) (done : list act) : bool :=
  match done with
  | [] => false
  | actBench (nowOpen r') :: done => if decide (r' = r) then true else isOpen r done
  | actBench (nowClosed r') :: done => if decide (r' = r) then false else isOpen r done
  | _ :: done => isOpen r done
  end.

(** ** Acts on no resource *)

Definition harmless (a : act) : Prop :=
  match a with actBench (nowOpen _) | actBench (nowClosed _) => False | _ => True end.

(** [m] does nothing but harmless acts. *)
Definition keeps {A} (m : Har A) : Prop := forall h r h', m h = Done (r, h') ->
  forall x, isOpen x (hs_done h') = isOpen x (hs_done h).

Lemma isOpen_harmless a x done : harmless a -> isOpen x (a :: done) = isOpen x done.
Proof. destruct a as [[]| | | | | | | | | | | | |]; done. Qed.

Lemma keeps_bind {A B} (m : Har A) (f : A -> Har B) : keeps m -> (forall a, keeps (f a)) -> keeps (m ≫= f).
Proof.
  intros Hm Hf h r h' Hr x. unfold mbind, Har_bind in Hr. destruct (m h) as [[[a|e] h1]| |] eqn:Hm1; try done.
  - by rewrite (Hf a h1 r h' Hr), (Hm h _ h1 Hm1).
  - injection Hr as <- <-. by apply (Hm h (Err e)).
Qed.

Lemma keeps_perform {A} a (answer : list act -> A) : harmless a -> keeps (perform a answer).
Proof. intros Ha h r h' [= <- <-] x. by apply isOpen_harmless. Qed.

Lemma keeps_same {A} (m : Har A) : (forall h r h', m h = Done (r, h') -> hs_done h' = hs_done h) -> keeps m.
Proof. intros Hm h r h' Hr x. by rewrite (Hm h r h' Hr). Qed.

Lemma keeps_ret {A} (a : A) : keeps (mret a).
Proof. apply keeps_same. by intros h r h' [= <- <-]. Qed.
Lemma keeps_raise {A} e : keeps (@raise A e).
Proof. apply keeps_same. by intros h r h' [= <- <-]. Qed.
Lemma keeps_require b e : keeps (require b e).
Proof. destruct b; [apply keeps_ret|apply keeps_raise]. Qed.
Lemma keeps_attempt {A} (a : option A) e : keeps (attempt a e).
Proof. destruct a; [apply keeps_ret|apply keeps_raise]. Qed.
Lemma keeps_calls : keeps calls.
Proof. apply keeps_same. by intros h r h' [= <- <-]. Qed.
Lemma keeps_lifted {E A} (wrap : E -> harnessError) (c : comp (result E A)) : keeps (lifted wrap c).
Proof. apply keeps_same. intros h r h'. unfold lifted. destruct c as [[a|e]| |]; intros [= <- <-]; done. Qed.
Lemma keeps_catch {A} (m : Har A) : keeps m -> keeps (catch m).
Proof. intros Hm h r h'. unfold catch. destruct (m h) as [[r' h1]| |] eqn:E; intros [= <- <-]. by eapply Hm. Qed.

Ltac keeps_step :=
  lazymatch goal with
  | |- keeps (mbind _ _) => apply keeps_bind; [|intros ?]
  | |- keeps (mret _) => apply keeps_ret
  | |- keeps (raise _) => apply keeps_raise
  | |- keeps (perform _ _) => by apply keeps_perform
  | |- keeps (act_only _) => by apply keeps_perform
  | |- keeps calls => apply keeps_calls
  | |- keeps (require _ _) => apply keeps_require
  | |- keeps (attempt _ _) => apply keeps_attempt
  | |- keeps (lifted _ _) => apply keeps_lifted
  | |- keeps (catch _) => apply keeps_catch
  | |- keeps (match ?x with _ => _ end) => destruct x
  | |- keeps (let _ := _ in _) => cbv zeta
  | |- keeps (fun h => Done (Ok tt, mkHarness (hs_done h) _)) => apply keeps_same; by intros h r h' [= <- <-]
  end.

Section exercise.
Context `{Lab} (workload : seededWorkload).

Lemma waitFor_keeps ticks matches_ : keeps (waitFor ticks matches_).
Proof. induction ticks as [|ticks IH]; cbn [waitFor]; [by intros h r h'|]. repeat first [exact IH | keeps_step]. Qed.

Lemma forEach_keeps step p identifiers : (forall p identifier, keeps (step p identifier)) -> keeps (forEach step p identifiers).
Proof.
  intros Hs. revert p. induction identifiers as [|identifier identifiers IH]; intros p; cbn [forEach]; [apply keeps_ret|].
  apply keeps_bind; [apply Hs|auto].
Qed.

Lemma awaitStream_keeps identifier released : keeps (awaitStream identifier released).
Proof.
  intros h r h'. unfold awaitStream.
  assert (Hi : keeps (awaitFirstEvent identifier)) by (unfold awaitFirstEvent; repeat keeps_step).
  destruct (awaitFirstEvent identifier h) as [[[t|e] h1]| |] eqn:He; try done.
  - destruct (t <? released); [intros [= <- <-]; by eapply Hi|].
    assert (Hj : keeps (act_only (actReleaseDone identifier);; mret (u64 (time_Sub t released)))) by repeat keeps_step.
    intros Hr x. by rewrite (Hj h1 r h' Hr), (Hi h _ h1 He).
  - intros [= <- <-]. by eapply Hi.
Qed.

Ltac keeps_steps := repeat first
  [ keeps_step | apply waitFor_keeps | apply awaitStream_keeps | apply forEach_keeps; intros
  | progress unfold enqueueObserved, awaitDeadline, cancelOne, rejectOne, rejectGlobally, waitForSnapshot, waitForEmptySnapshot,
      waitClients, launch, awaitClientResult, awaitUpstreamDispatch, accept, enqueueAll ].

Lemma serveAll_keeps o index plan : keeps (serveAll o index plan).
Proof.
  revert o index. induction plan as [|step plan IH]; intros o index; cbn [serveAll]; [apply keeps_ret|].
  apply keeps_bind; [|auto]. unfold serveStep. keeps_steps.
Qed.

Lemma exercise_keeps profile build : keeps (exerciseSaturation profile workload build).
Proof.
  unfold exerciseSaturation, startControl, loadQueues, finishControl.
  repeat first [apply serveAll_keeps | keeps_steps].
Qed.

Lemma waitClients_keeps : keeps waitClients.
Proof. keeps_steps. Qed.
End exercise.

(** ** What may be open *)

Definition within (rs : list resource) (done : list act) : Prop := forall x, isOpen x done = true -> x ∈ rs.

(** From where at most [rs] are open, [m] ends where at most [ok] are, or at most
    [err] when it fails. *)
Definition opens {A} (rs : list resource) (m : Har A) (ok err : list resource) : Prop := forall h r h',
  m h = Done (r, h') -> within rs (hs_done h) -> within (match r with Ok _ => ok | Err _ => err end) (hs_done h').

Lemma within_mono rs ss done : rs ⊆ ss -> within rs done -> within ss done.
Proof. intros Hs Hw x Hx. by apply Hs, Hw. Qed.

Lemma opens_weaken {A} rs rs' (m : Har A) ok ok' err err' : rs ⊆ rs' -> ok' ⊆ ok -> err' ⊆ err -> opens rs' m ok' err' -> opens rs m ok err.
Proof.
  intros H1 H2 H3 Hm h r h' Hr Hw. pose proof (Hm h r h' Hr (within_mono _ _ _ H1 Hw)) as Hw'.
  destruct r; by eapply within_mono.
Qed.

Lemma opens_bind {A B} (m : Har A) (f : A -> Har B) rs mid ok err :
  opens rs m mid err -> (forall a, opens mid (f a) ok err) -> opens rs (m ≫= f) ok err.
Proof.
  intros Hm Hf h r h' Hr Hw. unfold mbind, Har_bind in Hr. destruct (m h) as [[[a|e] h1]| |] eqn:Hm1; try done.
  - by apply (Hf a h1 r h' Hr), (Hm h (Ok a) h1 Hm1).
  - injection Hr as <- <-. by apply (Hm h (Err e) h1 Hm1).
Qed.

Lemma opens_catch {A B} (m : Har A) (f : result harnessError A -> Har B) rs ok1 err1 ok err :
  opens rs m ok1 err1 -> (forall a, opens ok1 (f (Ok a)) ok err) -> (forall e, opens err1 (f (Err e)) ok err) ->
  opens rs (catch m ≫= f) ok err.
Proof.
  intros Hm Hok Herr h r h' Hr Hw. unfold mbind, Har_bind, catch in Hr. destruct (m h) as [[r1 h1]| |] eqn:Hm1; try done.
  pose proof (Hm h r1 h1 Hm1 Hw) as Hw1. destruct r1 as [a|e]; [by apply (Hok a h1 r h')|by apply (Herr e h1 r h')].
Qed.

Lemma opens_keeps {A} (m : Har A) rs : keeps m -> opens rs m rs rs.
Proof.
  intros Hm h r h' Hr Hw. assert (within rs (hs_done h')) by (intros x; rewrite (Hm h r h' Hr); apply Hw). by destruct r.
Qed.

Lemma opens_perform {A} a (answer : list act -> A) rs err : harmless a -> opens rs (perform a answer) rs err.
Proof. intros Ha h r h' [= <- <-] Hw x. cbn [hs_done]. rewrite isOpen_harmless by done. apply Hw. Qed.

Lemma opens_open rs r err : opens rs (bench (nowOpen r)) (r :: rs) err.
Proof.
  intros h res h' [= <- <-] Hw x. cbn. destruct (decide (r = x)) as [->|]; [left|]. intros Hx. right. by apply Hw.
Qed.

Lemma opens_close rs r err : opens rs (bench (nowClosed r)) (filter (fun x => x <> r) rs) err.
Proof.
  intros h res h' [= <- <-] Hw x. cbn. destruct (decide (r = x)) as [->|Hne]; [done|]. intros Hx.
  apply list_elem_of_filter. split; [congruence|by apply Hw].
Qed.

Lemma opens_closeAll {A} rs owned e ok : opens rs (@closeAll owned A e) ok (filter (fun x => x ∉ owned) rs).
Proof.
  intros h r h' [= <- <-] Hw x. cbn [hs_done]. revert h Hw. induction owned as [|o owned IH] using rev_ind; intros h Hw; cbn.
  - intros Hx. apply list_elem_of_filter. split; [apply not_elem_of_nil|by apply Hw].
  - rewrite map_app, rev_app_distr. cbn. destruct (decide (o = x)) as [->|Hne]; [done|]. intros Hx%IH; [|done].
    apply list_elem_of_filter in Hx as [Hn Hx]. apply list_elem_of_filter. split; [|done].
    rewrite elem_of_app, list_elem_of_singleton. intros [|]; congruence.
Qed.

Lemma opens_raise {A} rs e ok : opens rs (@raise A e) ok rs.
Proof. by intros h r h' [= <- <-]. Qed.

Lemma opens_ret {A} (a : A) rs err : opens rs (mret a) rs err.
Proof. by intros h r h' [= <- <-]. Qed.

(** The lists of resources are concrete. *)
Ltac sublist := apply (bool_decide_unpack _); vm_compute; exact I.

Section tidy.
Context `{Bench}.
Context (urlParse : list Z -> option parsedURL) (urlString : parsedURL -> list Z).
Context (build : goBuild) (profile : saturationProfile).

Lemma listenLoopback_opens e owned rs : opens (owned ++ rs) (listenLoopback e owned) (theListener :: owned ++ rs) rs.
Proof.
  assert (Hc : forall owned' ss, ss ⊆ owned' ++ rs -> filter (fun x => x ∉ owned') ss ⊆ rs).
  { intros owned' ss Hs x [Hn Hx]%list_elem_of_filter. apply Hs, elem_of_app in Hx as [|]; done. }
  assert (Hall : forall A owned' ok, opens (owned' ++ rs) (@closeAll owned' A e) ok rs).
  { intros A owned' ok. eapply opens_weaken; [done|done| |apply opens_closeAll]. by apply Hc. }
  unfold listenLoopback. eapply opens_bind; [by apply opens_perform|]. intros [address|]; [|apply Hall].
  eapply opens_bind; [apply opens_open|]. intros _. pose proof (fun A => Hall A (theListener :: owned)) as Hl.
  destruct address as [[[[ip port] zone]|]| |]; try apply Hl. destruct (_ || _); [apply Hl|apply opens_ret].
Qed.

Lemma constructed_opens {E A} (r : result E A) owned rs : opens (owned ++ rs) (constructed r owned) (owned ++ rs) rs.
Proof.
  destruct r as [a|e]; [apply opens_ret|]. cbn. eapply opens_weaken; [done|done| |apply opens_closeAll].
  intros x [Hn Hx]%list_elem_of_filter. apply elem_of_app in Hx as [|]; done.
Qed.

Definition running : list resource := [theUpstream; theRunContext].
Definition serving : list resource := [theGateway; theListener; theUpstreamClient; theScheduler; theUpstream; theRunContext].

Lemma startUpstream_opens : opens [theRunContext] startControlledUpstream running [theRunContext].
Proof.
  unfold startControlledUpstream. eapply opens_bind; [apply (listenLoopback_opens _ [])|]. intros [address port].
  eapply opens_bind; [apply opens_close|]. intros _. eapply opens_bind; [apply opens_open|]. intros _.
  eapply opens_weaken; [|done|done|apply opens_ret]. sublist.
Qed.

Lemma startGateway_opens host : opens running (startGatewayRuntime urlParse urlString profile host) serving running.
Proof.
  unfold startGatewayRuntime. eapply opens_bind; [apply (constructed_opens _ [])|]. intros parser.
  eapply opens_bind; [apply (constructed_opens _ [])|]. intros scheduler.
  eapply opens_bind; [apply opens_open|]. intros _. eapply opens_bind; [apply (constructed_opens _ [theScheduler])|]. intros client.
  eapply opens_bind; [apply opens_open|]. intros _.
  eapply opens_bind; [apply (constructed_opens _ [theUpstreamClient; theScheduler])|]. intros handler.
  eapply opens_bind; [apply (listenLoopback_opens _ [theUpstreamClient; theScheduler])|]. intros [address port].
  eapply opens_bind; [apply (constructed_opens _ [theListener; theUpstreamClient; theScheduler])|]. intros server.
  eapply opens_bind; [apply opens_open|]. intros _. apply opens_ret.
Qed.

Lemma upstreamShutdown_opens : opens running upstream_shutdown [theRunContext] running.
Proof.
  unfold upstream_shutdown. eapply opens_bind; [by apply opens_perform|]. intros _.
  eapply opens_bind; [by apply opens_perform|]. intros failed. eapply opens_bind; [by apply opens_perform|]. intros [e|]; [|apply opens_raise].
  eapply opens_bind; [apply opens_keeps, keeps_require|]. intros _. eapply opens_weaken; [done| |done|apply opens_close]. sublist.
Qed.

Lemma upstreamAbort_opens rs err : opens rs upstream_abort (filter (fun x => x <> theUpstream) rs) err.
Proof.
  unfold upstream_abort. eapply opens_bind; [by apply opens_perform|]. intros _.
  eapply opens_bind; [apply opens_close|]. intros _. eapply opens_bind; [by apply opens_perform|]. intros _. apply opens_ret.
Qed.

Lemma gatewayShutdown_opens rs err :
  opens rs gateway_Shutdown (filter (fun x => x <> theScheduler) (filter (fun x => x <> theListener) (filter (fun x => x <> theGateway) rs))) err.
Proof.
  unfold gateway_Shutdown. eapply opens_bind; [by apply opens_perform|]. intros answer.
  do 3 (eapply opens_bind; [apply opens_close|]; intros _). apply opens_ret.
Qed.

Lemma runtimeShutdown_opens : opens serving runtime_shutdown running serving.
Proof.
  unfold runtime_shutdown. eapply opens_catch; [apply opens_keeps, waitClients_keeps| |intros e; apply opens_raise]. intros _.
  eapply opens_bind; [apply gatewayShutdown_opens|]. intros [result failed].
  eapply (opens_weaken _ [theUpstreamClient; theUpstream; theRunContext]); [sublist|done|done|].
  eapply opens_bind; [eapply opens_weaken; [done|done| |apply opens_keeps, keeps_require]; sublist|]. intros _.
  eapply opens_bind; [by apply opens_perform|].
  assert (Hbad : forall A e ok, opens [theUpstreamClient; theUpstream; theRunContext] (@raise A e) ok serving).
  { intros A e ok. eapply opens_weaken; [done|done| |apply opens_raise]. sublist. }
  intros [[|]|]; try apply Hbad. eapply opens_bind; [by apply opens_perform|]. intros _.
  eapply opens_weaken; [done| |done|apply opens_close]. sublist.
Qed.

Definition stopping (withRuntime : bool) : list resource :=
  filter (fun x => x <> theRunContext) (if withRuntime then serving else running).

Lemma abort_opens (withRuntime : bool) err : opens (stopping withRuntime) (abortSaturationRuntime withRuntime) [] err.
Proof.
  unfold abortSaturationRuntime. eapply opens_bind; [apply upstreamAbort_opens|]. intros _. destruct withRuntime.
  - unfold runtime_abort. eapply opens_bind; [by apply opens_perform|]. intros _.
    eapply opens_bind; [apply gatewayShutdown_opens|]. intros _. eapply opens_bind; [by apply opens_perform|]. intros _.
    eapply opens_bind; [apply opens_close|]. intros _. apply (opens_weaken _ [] _ _ [] _ err); [sublist|done|done|by apply opens_perform].
  - apply (opens_weaken _ [] _ _ [] _ err); [sublist|done|done|apply opens_ret].
Qed.

(** The ways out of a run that failed. *)
Lemma failing_opens {A} (withRuntime : bool) e ok :
  opens (if withRuntime then serving else running)
    (bench (nowClosed theRunContext);; abortSaturationRuntime withRuntime;; @raise A e) ok [].
Proof.
  eapply opens_bind; [apply opens_close|]. intros _. eapply opens_bind; [apply abort_opens|]. intros _. apply opens_raise.
Qed.

Lemma run_opens live seed : opens [] (runSaturationHarness urlParse urlString build profile live seed) [] [].
Proof.
  unfold runSaturationHarness. eapply opens_bind; [apply opens_keeps, keeps_require|]. intros _.
  eapply opens_bind; [apply opens_open|]. intros _.
  assert (Hgone : forall A e ok, opens [theRunContext] (@closeAll [theRunContext] A e) ok []).
  { intros A e ok. eapply opens_weaken; [done|done| |apply opens_closeAll]. sublist. }
  eapply opens_catch; [apply opens_keeps, keeps_lifted| |intros e; apply Hgone]. intros workload.
  eapply opens_catch; [apply startUpstream_opens| |intros e; apply Hgone]. intros host.
  eapply opens_catch; [apply startGateway_opens| |intros e; apply (failing_opens false)]. intros gateway.
  eapply opens_catch; [apply opens_keeps, exercise_keeps| |intros e; apply (failing_opens true)]. intros report.
  eapply opens_catch; [apply runtimeShutdown_opens| |intros e].
  - intros _. eapply opens_catch; [apply upstreamShutdown_opens| |intros e; apply (failing_opens false)]. intros _.
    eapply opens_bind; [apply opens_close|]. intros _. eapply opens_weaken; [|done|done|apply opens_ret]. sublist.
  - eapply (opens_bind _ _ _ serving); [apply opens_ret|]. intros upstreamErr. apply (failing_opens true).
Qed.
End tidy.

(** ** The whole run ends *)

Section total.
Context (B : Bench) (Hpatient : patient bench_lab).
Context (urlParse : list Z -> option parsedURL) (urlString : parsedURL -> list Z).
Context (build : goBuild) (profile : saturationProfile).

Lemma ends_catch {A C} (m : Har A) (f : result harnessError A -> Har C) (Q : A -> Prop) (R : C -> Prop) :
  ends m Q -> (forall r, match r with Ok a => Q a | Err _ => True end -> ends (f r) R) -> ends (catch m ≫= f) R.
Proof.
  intros Hm Hf h. destruct (Hm h) as (r & h1 & Hr & Hq). unfold mbind, Har_bind, catch. rewrite Hr. by apply Hf.
Qed.

Lemma ends_closeAll {A} owned e (Q : A -> Prop) : ends (closeAll owned e) Q.
Proof. intros h. by eexists (Err e), _. Qed.

Ltac bench_steps := repeat first
  [ apply ends_closeAll | ends_step
  | progress unfold bench, listenLoopback, constructed, upstream_abort, runtime_abort, gateway_Shutdown, abortSaturationRuntime
  | eapply ends_catch; [|intros [?|?] _] ].

Lemma startUpstream_ends : ends startControlledUpstream (fun _ => True).
Proof. unfold startControlledUpstream. bench_steps. Qed.

Lemma startGateway_ends host : ends (startGatewayRuntime urlParse urlString profile host) (fun _ => True).
Proof. unfold startGatewayRuntime. bench_steps. Qed.

Lemma abort_ends withRuntime : ends (abortSaturationRuntime withRuntime) (fun _ => True).
Proof. bench_steps. Qed.

Lemma runtimeShutdown_ends : ends runtime_shutdown (fun _ => True).
Proof.
  unfold runtime_shutdown. eapply (ends_catch _ _ (fun _ => True)); [unfold waitClients; bench_steps|].
  intros r _. destruct r; bench_steps.
Qed.

Lemma upstreamShutdown_ends : ends upstream_shutdown (fun _ => True).
Proof. unfold upstream_shutdown. bench_steps. Qed.

(** A run of a seed that has a plan: the report, if there is one, is consistent and
    is the plan. *)
Lemma run_ends live seed w plan : buildSeededWorkload seed profile = Done (Ok w) ->
  expectedDispatchPlan w = Done (Ok plan) -> Forall (fun d => 0 <= rec_WorkUnits (od_record d)) plan ->
  ends (runSaturationHarness urlParse urlString build profile live seed)
    (fun report => consistent report /\ rp_Seed report = wl_seed w /\ sv_Observed (rp_Service report) = map od_record plan).
Proof.
  intros Hb Hp Hw. unfold runSaturationHarness. rewrite Hb.
  assert (Hfail : forall wr e Q, ends (bench (nowClosed theRunContext);; abortSaturationRuntime wr;; @raise saturationReport e) Q).
  { intros wr e Q. eapply ends_then; [bench_steps|]. intros _. eapply ends_then; [apply abort_ends|]. intros _. apply ends_raise. }
  eapply ends_then; [bench_steps|]. intros _. eapply ends_then; [bench_steps|]. intros _.
  eapply (ends_catch _ _ (eq w)); [by apply ends_lifted|]. intros [w'|e] Hw'; [subst w'|apply ends_closeAll].
  eapply ends_catch; [apply startUpstream_ends|]. intros [host|e] _; [|apply ends_closeAll].
  eapply ends_catch; [apply startGateway_ends|]. intros [gateway|e] _; [|apply Hfail].
  eapply ends_catch; [by apply (exercise_ends _ Hpatient w profile build plan)|]. intros [report|e] Hreport; [|apply Hfail].
  eapply ends_catch; [apply runtimeShutdown_ends|]. intros [u|e] _.
  - eapply ends_catch; [apply upstreamShutdown_ends|]. intros [u'|e] _; [|apply Hfail].
    eapply ends_then; [bench_steps|]. intros _. by apply ends_ret.
  - eapply ends_then; [by apply ends_ret|]. intros upstreamErr. apply Hfail.
Qed.
End total.

(** ** What a reporting run has submitted *)

Section submits.
Context `{Bench}.
Context (urlParse : list Z -> option parsedURL) (urlString : parsedURL -> list Z).
Context (build : goBuild) (profile : saturationProfile).

(** [m] does not succeed. *)
Definition fails {A} (m : Har A) : Prop := forall h a h', m h <> Done (Ok a, h').

Lemma fails_raise {A} e : fails (@raise A e).
Proof. by intros h a h'. Qed.
Lemma fails_closeAll {A} owned e : fails (@closeAll owned A e).
Proof. by intros h a h'. Qed.
Lemma fails_bind {A B} (m : Har A) (f : A -> Har B) : (forall a, fails (f a)) -> fails (m ≫= f).
Proof.
  intros Hf h b h' Hr. unfold mbind, Har_bind in Hr. destruct (m h) as [[[a|e] h1]| |]; try done. by apply (Hf a h1 b h').
Qed.

Lemma sends_catch {A B} (m : Har A) (f : result harnessError A -> Har B) js ks :
  sends m js -> (forall a, sends (f (Ok a)) ks) -> (forall e, fails (f (Err e))) -> sends (catch m ≫= f) (js ++ ks).
Proof.
  intros Hm Hok Herr h b h' Hr Hk Hnd. unfold mbind, Har_bind, catch in Hr. destruct (m h) as [[[a|e] h1]| |] eqn:Hm1; try done.
  - destruct (Hm h a h1 Hm1 Hk Hnd) as (Hl & Hk1 & Hnd1). destruct (Hok a h1 b h' Hr Hk1 Hnd1) as (Hl2 & Hk2 & Hnd2).
    split; [by rewrite Hl2, Hl, app_assoc|done].
  - by destruct (Herr e h1 b h').
Qed.

Lemma sends_caught {A B} (m : Har A) (f : result harnessError A -> Har B) ks :
  inert m -> (forall a, sends (f (Ok a)) ks) -> (forall e, fails (f (Err e))) -> sends (catch m ≫= f) ks.
Proof. intros Hm. apply (sends_catch m f [] ks). by apply inert_sends. Qed.

Lemma sends_ext {A} (m m' : Har A) js : (forall h, m h = m' h) -> sends m' js -> sends m js.
Proof. intros He Hm h a h' Hr. rewrite He in Hr. exact (Hm h a h' Hr). Qed.

Lemma inert_catch {A} (m : Har A) : inert m -> inert (catch m).
Proof. intros Hm h r h'. unfold catch. destruct (m h) as [[r' h1]| |] eqn:E; intros [= <- <-]. by apply (Hm h r'). Qed.

Lemma inert_closeAll {A} owned e : inert (@closeAll owned A e).
Proof.
  intros h r h' [= <- <-]. cbn. split; [|done]. induction owned as [|o owned IH] using rev_ind; [done|].
  by rewrite map_app, rev_app_distr.
Qed.

Ltac inert_bench := repeat first
  [ inert_step | apply inert_closeAll | apply inert_catch
  | progress unfold bench, listenLoopback, constructed, gateway_Shutdown, waitClients, startControlledUpstream,
      startGatewayRuntime, runtime_shutdown, upstream_shutdown ].

Lemma run_sends live seed w : buildSeededWorkload seed profile = Done (Ok w) ->
  sends (runSaturationHarness urlParse urlString build profile live seed)
    (map (jobAt w) (wl_control w :: loadOrder w)).
Proof.
  intros Hb. unfold runSaturationHarness. rewrite Hb.
  assert (Hfail : forall A wr e, fails (bench (nowClosed theRunContext);; abortSaturationRuntime wr;; @raise A e)).
  { intros A wr e. apply fails_bind. intros _. apply fails_bind. intros _. apply fails_raise. }
  apply sends_then; [inert_bench|]. intros _. apply sends_then; [inert_bench|]. intros _.
  match goal with |- sends (catch (lifted _ _) ≫= ?f) _ => apply (sends_ext _ (f (Ok w)) _ (fun h => eq_refl)) end. cbn match.
  apply sends_caught; [inert_bench| |intros e; apply fails_closeAll]. intros host.
  apply sends_caught; [inert_bench| |intros e; apply Hfail]. intros gateway.
  rewrite <- (app_nil_r (map _ _)). apply sends_catch; [apply exercise_sends| |intros e; apply Hfail]. intros report.
  apply sends_caught; [inert_bench| |].
  - intros _. apply sends_caught; [inert_bench| |intros e; apply Hfail]. intros _. apply inert_sends. inert_bench.
  - intros e. apply fails_bind. intros upstreamErr. apply Hfail.
Qed.
End submits.
