(* ===== verification/SatMain.v ===== *)
(** * Saturation harness: the command

    Models [tools/run_saturation/main.go]: the arguments, the run, what is written to
    the two streams, and the exit code. *)

From S2P Require Import Prelude GoHeap GoJson JsonGrammar GoMarshal HttpUpstream SatWorkload SatReport SatAudit SatHarness SatBench.

Definition saturationUsage : gostring := bs "Usage:
  go run ./tools/run_saturation --profile=ci --seed=<unsigned-integer>
".
Definition saturationFailure : gostring := bs "saturation harness failed
".

(** ** Arguments *)

Record commandOptions := mkOptions { op_profile : gostring; op_seed : Z }.

Definition noOptions : commandOptions := mkOptions [] 0.

(** [strings.HasPrefix] and [strings.TrimPrefix] together. *)
Fixpoint trimPrefix (prefix s : gostring) : option gostring :=
  match prefix, s with
  | [], _ => Some s
  | p :: prefix, c :: s => if p =? c then trimPrefix prefix s else None
  | _ :: _, [] => None
  end.

Definition profileFlag : gostring := bs "--profile=".
Definition seedFlag : gostring := bs "--seed=".

Definition unsignedDecimal (value : gostring) : bool :=
  if bool_decide (value = []) || (20 <? Z.of_nat (length value)) then false
  else forallb (fun c => negb ((c <? 48) || (57 <? c))) value.

(** The loop over the arguments, from what was seen before. *)
Fixpoint parseOptions (options : commandOptions) (profileSeen seedSeen : bool) (args : list gostring)
    : commandOptions * bool * bool :=
  match args with
  | [] => (options, false, profileSeen && seedSeen)
  | argument :: args =>
      match trimPrefix profileFlag argument, trimPrefix seedFlag argument with
      | Some value, _ =>
          if profileSeen || negb (bool_decide (value = ciProfileName)) then (noOptions, false, false)
          else parseOptions (mkOptions value (op_seed options)) true seedSeen args
      | None, Some value =>
          if seedSeen || negb (unsignedDecimal value) then (noOptions, false, false)
          else
            match parseUint value with
            | None => (noOptions, false, false)
            | Some seed => parseOptions (mkOptions (op_profile options) seed) profileSeen true args
            end
      | None, None => (noOptions, false, false)
      end
  end.

(** The options, whether help is asked for, and whether the arguments are valid. *)
Definition parseArguments (args : list gostring) : commandOptions * bool * bool :=
  if bool_decide (args = [bs "--help"]) then (noOptions, true, true)
  else if negb (length args =? 2)%nat then (noOptions, false, false)
  else parseOptions noOptions false false args.

(** ** Streams *)

Inductive output := Stdout | Stderr.

#[export] Instance output_eq_dec : EqDecision output.
Proof. solve_decision. Defined.

(** What a call of [Write] does: it takes [n] bytes, perhaps with an error, or panics. *)
Inductive writeAnswer := wrote (n : Z) (failed : bool) | writePanics.

(** What the streams were offered, the latest first. *)
Abbreviation console := (list (output * gostring)) (only parsing).

Section command.
(** Whether a stream is there, and how it answers the latest offer. *)
Context (there : output -> bool) (answer : console -> writeAnswer).

Definition writeStatic (destination : output) (text : gostring) : M console unit := fun c =>
  Done (tt, if there destination then (destination, text) :: c else c).

Fixpoint writeAll (fuel : nat) (destination : output) (data : gostring) : M console bool := fun c =>
  match data, fuel with
  | [], _ => Done (true, c)
  | _, O => OutOfFuel
  | _, S fuel =>
      let c := (destination, data) :: c in
      match answer c with
      | writePanics => Panicked "Write"
      | wrote n failed =>
          if failed || (n <=? 0) || (Z.of_nat (length data) <? n) then Done (false, c)
          else writeAll fuel destination (drop (Z.to_nat n) data) c
      end
  end.

(** Every write that goes on takes a byte. *)
Definition writeExact (destination : output) (data : gostring) : M console bool :=
  if there destination then writeAll (length data) destination data else mret false.

(** The bytes that a stream took. *)
Fixpoint received (destination : output) (c : console) : gostring :=
  match c with
  | [] => []
  | (d, data) :: c' =>
      received destination c'
      ++ (if bool_decide (d = destination)
          then match answer c with wrote n _ => take (Z.to_nat n) data | writePanics => [] end else [])
  end.

(** ** The command *)

Context `{Bench} (urlParse : list Z -> option parsedURL) (urlString : parsedURL -> list Z) (build : goBuild).

Definition saturationFailed (code : Z) : M console Z :=
  writeStatic Stderr saturationFailure;; mret code.

(** [live]: the context with the timeout of the profile has not ended when the run
    begins. *)
Definition runCommand (live : bool) (args : list gostring) : M console Z :=
  let '(options, help, valid) := parseArguments args in
  if help : bool then writeStatic Stdout saturationUsage;; mret 0
  else if negb valid then writeStatic Stderr saturationUsage;; mret 2
  else
    match profileByName (op_profile options) with
    | Err _ => saturationFailed 2
    | Ok profile =>
        match runSaturationHarness urlParse urlString build profile live (op_seed options) (mkHarness [] ∅) with
        | Panicked msg => panic msg
        | OutOfFuel => no_fuel
        | Done (Err _, _) => saturationFailed 1
        | Done (Ok report, _) =>
            match marshalReport report with
            | Panicked msg => panic msg
            | OutOfFuel => no_fuel
            | Done (Err _) => saturationFailed 1
            | Done (Ok encoded) =>
                whole ← writeExact Stdout encoded;
                if whole : bool then mret 0 else saturationFailed 1
            end
        end
    end.
End command.

(** ** What the arguments mean *)

Lemma trimPrefix_Some prefix s value : trimPrefix prefix s = Some value <-> s = prefix ++ value.
Proof.
  revert s. induction prefix as [|p prefix IH]; intros s; cbn; [by split; [intros [= ->]|intros ->]|].
  destruct s as [|c s]; [done|]. destruct (Z.eqb_spec p c) as [->|Hne].
  - rewrite IH. split; [by intros ->|by intros [= ->]].
  - split; [done|]. by intros [= <- _].
Qed.

Lemma flags_apart value : trimPrefix profileFlag (seedFlag ++ value) = None.
Proof. reflexivity. Qed.

(** The value of the option is a decimal of at most twenty digits below 2^64. *)
Definition seed_text (value : gostring) (seed : Z) : Prop :=
  (1 <= length value <= 20)%nat /\ forallb is_digit value = true /\ decimal 0 value = seed /\ seed < two64.

(** The profile and the seed, in either order. *)
Definition asks (args : list gostring) (seed : Z) : Prop :=
  exists value, seed_text value seed
    /\ (args = [profileFlag ++ ciProfileName; seedFlag ++ value] \/ args = [seedFlag ++ value; profileFlag ++ ciProfileName]).

Lemma unsignedDecimal_digits value : unsignedDecimal value = true <->
  (1 <= length value <= 20)%nat /\ forallb is_digit value = true.
Proof.
  unfold unsignedDecimal. assert (Hd : forallb (fun c => negb ((c <? 48) || (57 <? c))) value = forallb is_digit value).
  { clear. induction value as [|c value IH]; [done|]. cbn. rewrite IH. f_equal. unfold is_digit, between. lia. }
  rewrite Hd. destruct value as [|c value]; [by split; [|intros [? _]; cbn in *; lia]|]. rewrite bool_decide_false by done. cbn [orb].
  destruct (Z.ltb_spec 20 (Z.of_nat (length (c :: value)))) as [Hl|Hl].
  - split; [done|]. intros [? _]. lia.
  - split; [|tauto]. intros H. split; [cbn [length] in *; lia|exact H].
Qed.

Lemma seedValue_exact value seed : unsignedDecimal value = true /\ parseUint value = Some seed <-> seed_text value seed.
Proof.
  rewrite unsignedDecimal_digits. unfold seed_text, parseUint. split.
  - intros [[Hl Hd] Hp]. destruct value as [|c value]; [by cbn in Hl; lia|]. rewrite Hd in Hp.
    apply parse_digits_value in Hp as [<- Hs]; [|unfold two64; lia|done]. split_and!; [lia..|done|done|done].
  - intros (Hl & Hd & <- & Hs). split; [done|]. destruct value as [|c value]; [by cbn in Hl; lia|]. rewrite Hd.
    by apply parse_digits_decimal.
Qed.

(** One argument is the profile, a seed, or rejected by every state of the loop. *)
Inductive argument_kind (argument : gostring) : Prop :=
| the_profile : argument = profileFlag ++ ciProfileName -> argument_kind argument
| a_seed value seed : argument = seedFlag ++ value -> seed_text value seed -> argument_kind argument
| rejected : argument <> profileFlag ++ ciProfileName -> (forall value seed, argument = seedFlag ++ value -> ~ seed_text value seed) ->
    (forall o p s rest, parseOptions o p s (argument :: rest) = (noOptions, false, false)) -> argument_kind argument.

Lemma argument_cases argument : argument_kind argument.
Proof.
  destruct (trimPrefix profileFlag argument) as [value|] eqn:Hp.
  - apply trimPrefix_Some in Hp as ->. destruct (decide (value = ciProfileName)) as [->|Hne]; [by apply the_profile|].
    apply rejected; [by intros ?%app_inv_head|by intros v seed [=]|]. intros o p s rest. cbn [parseOptions].
    rewrite (proj2 (trimPrefix_Some _ _ value) eq_refl), bool_decide_false by done. by rewrite orb_true_r.
  - assert (Hnp : argument <> profileFlag ++ ciProfileName).
    { intros ->. by rewrite (proj2 (trimPrefix_Some _ _ ciProfileName) eq_refl) in Hp. }
    destruct (trimPrefix seedFlag argument) as [value|] eqn:Hs.
    + apply trimPrefix_Some in Hs as ->.
      destruct (unsignedDecimal value) eqn:Hu; [destruct (parseUint value) as [seed|] eqn:Hv|].
      * eapply a_seed; [done|]. by apply seedValue_exact.
      * apply rejected; [done| |].
        -- intros v seed ->%app_inv_head [_ Hn]%seedValue_exact. congruence.
        -- intros o p s rest. cbn [parseOptions]. rewrite flags_apart, (proj2 (trimPrefix_Some _ _ value) eq_refl), Hu, Hv.
           by destruct s.
      * apply rejected; [done| |].
        -- intros v seed ->%app_inv_head [Hn _]%seedValue_exact. congruence.
        -- intros o p s rest. cbn [parseOptions]. rewrite flags_apart, (proj2 (trimPrefix_Some _ _ value) eq_refl), Hu.
           by rewrite orb_true_r.
    + apply rejected; [done| |].
      * intros v seed ->. by rewrite (proj2 (trimPrefix_Some _ _ v) eq_refl) in Hs.
      * intros o p s rest. cbn [parseOptions]. by rewrite Hp, Hs.
Qed.

Lemma parse_profile o s rest : parseOptions o false s ((profileFlag ++ ciProfileName) :: rest)
  = parseOptions (mkOptions ciProfileName (op_seed o)) true s rest.
Proof. reflexivity. Qed.

Lemma parse_seed o p value seed rest : seed_text value seed -> parseOptions o p false ((seedFlag ++ value) :: rest)
  = parseOptions (mkOptions (op_profile o) seed) p true rest.
Proof.
  intros [Hu Hv]%seedValue_exact. cbn [parseOptions].
  rewrite flags_apart, (proj2 (trimPrefix_Some _ _ value) eq_refl), Hu, Hv. done.
Qed.

(** The arguments ask for help, for a run with a seed, or for neither. *)
Inductive arguments_ask (args : list gostring) : commandOptions * bool * bool -> Prop :=
| ask_help : args = [bs "--help"] -> arguments_ask args (noOptions, true, true)
| ask_run seed : asks args seed -> arguments_ask args (mkOptions ciProfileName seed, false, true)
| ask_neither : args <> [bs "--help"] -> (forall seed, ~ asks args seed) -> arguments_ask args (noOptions, false, false).

Lemma asks_seed args seed : asks args seed -> seed < two64.
Proof. by intros (value & (_ & _ & _ & ?) & _). Qed.

Lemma parseArguments_exact args : arguments_ask args (parseArguments args).
Proof.
  unfold parseArguments. case_bool_decide as Hh; [by apply ask_help|].
  destruct args as [|a [|b [|c args]]]; cbn [length Nat.eqb negb];
    try (apply ask_neither; [exact Hh|]; by intros seed (value & _ & [[=]|[=]])).
  assert (Hno : (forall seed, ~ asks [a; b] seed) -> arguments_ask [a; b] (noOptions, false, false)) by (by apply ask_neither).
  destruct (argument_cases a) as [->|value seed -> Hv|Hp Hs Hr].
  - rewrite parse_profile. destruct (argument_cases b) as [->|value seed -> Hv|Hp Hs Hr].
    + apply Hno. by intros seed (value & _ & [[=]|[=]]).
    + rewrite (parse_seed _ _ value seed) by done. apply ask_run. exists value. split; [done|]. by left.
    + rewrite Hr. apply Hno. intros seed (value & Ht & [[= Hb]|[= Hb]]). by apply (Hs value seed).
  - rewrite (parse_seed _ _ value seed) by done. destruct (argument_cases b) as [->|value' seed' -> Hv'|Hp' Hs' Hr'].
    + rewrite parse_profile. apply ask_run. exists value. split; [done|]. by right.
    + apply Hno. by intros seed'' (value'' & _ & [[=]|[=]]).
    + rewrite Hr'. apply Hno. by intros seed'' (value'' & Ht & [[=]|[= _ Hb]]).
  - rewrite Hr. apply Hno. intros seed (value & Ht & [[= Ha _]|[= Ha _]]); [by apply Hp|by apply (Hs value seed)].
Qed.

(** ** What is written *)

Section writes.
Context (there : output -> bool) (answer : console -> writeAnswer).
Hypothesis Hcalm : forall c, answer c <> writePanics.

Lemma writeAll_writes fuel destination data c : (length data <= fuel)%nat ->
  exists whole c' taken, writeAll answer fuel destination data c = Done (whole, c')
    /\ taken `prefix_of` data /\ (whole = true -> taken = data)
    /\ received answer destination c' = received answer destination c ++ taken
    /\ forall other, other <> destination -> received answer other c' = received answer other c.
Proof.
  revert data c. induction fuel as [|fuel IH]; intros data c Hl.
  - destruct data; [|cbn in Hl; lia]. exists true, c, []. rewrite app_nil_r. by split_and!.
  - destruct data as [|x data]; [exists true, c, []; rewrite app_nil_r; by split_and!|]. set (all := x :: data) in *.
    cbn [writeAll]. unfold all at 1. fold all. specialize (Hcalm ((destination, all) :: c)) as Hc.
    destruct (answer ((destination, all) :: c)) as [n failed|] eqn:Ha; [|done].
    assert (Hother : forall other, other <> destination -> received answer other ((destination, all) :: c) = received answer other c).
    { intros other Hne. cbn [received]. by rewrite bool_decide_false, app_nil_r by congruence. }
    assert (Hhere : received answer destination ((destination, all) :: c) = received answer destination c ++ take (Z.to_nat n) all).
    { cbn [received]. by rewrite bool_decide_true, Ha by done. }
    destruct (failed || (n <=? 0) || (Z.of_nat (length all) <? n)) eqn:Hbad.
    + exists false, ((destination, all) :: c), (take (Z.to_nat n) all). split; [done|]. split; [|done].
      exists (drop (Z.to_nat n) all). by rewrite take_drop.
    + breflect. destruct (IH (drop (Z.to_nat n) all) ((destination, all) :: c)) as (whole & c' & taken & Hw & Ht & Hok & Hr & Ho).
      { rewrite length_drop. cbn [length] in *. lia. }
      exists whole, c', (take (Z.to_nat n) all ++ taken). split; [done|].
      split; [rewrite <- (take_drop (Z.to_nat n) all) at 2; by apply prefix_app|].
      split; [intros Hwh; rewrite (Hok Hwh); apply take_drop|].
      split; [by rewrite Hr, Hhere, app_assoc|]. intros other Hne. by rewrite Ho, Hother.
Qed.

Lemma writeExact_writes destination data c : exists whole c' taken,
  writeExact there answer destination data c = Done (whole, c')
    /\ taken `prefix_of` data /\ (whole = true -> taken = data)
    /\ received answer destination c' = received answer destination c ++ taken
    /\ forall other, other <> destination -> received answer other c' = received answer other c.
Proof.
  unfold writeExact. destruct (there destination); [by apply writeAll_writes|].
  exists false, c, []. rewrite app_nil_r. split_and!; try done. apply prefix_nil.
Qed.

End writes.

(** ** What a call of the command ends with *)

Section ended.
Context (there : output -> bool) (answer : console -> writeAnswer).

(** A static text was the last offer, unless the stream is not there. *)
Definition told (destination : output) (text : gostring) (c : console) : Prop :=
  there destination = true -> head c = Some (destination, text).

(** How a call of the command ends: the exit code, and what the streams got. *)
Inductive command_ended (args : list gostring) : Z -> console -> Prop :=
| ended_help c : args = [bs "--help"] -> told Stdout saturationUsage c -> received answer Stderr c = [] ->
    command_ended args 0 c
| ended_report seed report c : asks args seed -> consistent report -> rp_Seed report = seed ->
    marshalReport report = Done (Ok (received answer Stdout c)) -> received answer Stderr c = [] -> command_ended args 0 c
| ended_failure seed c : asks args seed -> told Stderr saturationFailure c -> command_ended args 1 c
| ended_usage c : args <> [bs "--help"] -> (forall seed, ~ asks args seed) -> told Stderr saturationUsage c ->
    received answer Stdout c = [] -> command_ended args 2 c.

Lemma told_static destination text c : told destination text (if there destination then (destination, text) :: c else c).
Proof. intros H. by rewrite H. Qed.

Lemma unheard destination other text : other <> destination ->
  received answer destination (if there other then [(other, text)] else []) = [].
Proof. intros Hne. destruct (there other); [|done]. cbn. by rewrite bool_decide_false. Qed.

Context (B : Bench) (urlParse : list Z -> option parsedURL) (urlString : parsedURL -> list Z) (build : goBuild).
Hypothesis Hcalm : forall c, answer c <> writePanics.

(** The call for a run, when the run is over. *)
Lemma run_told (profile : saturationProfile) (live : bool) (args : list gostring) (seed : Z)
    (r : result harnessError saturationReport) (h' : harness) :
  profileByName ciProfileName = Ok profile -> asks args seed -> parseArguments args = (mkOptions ciProfileName seed, false, true) ->
  runSaturationHarness urlParse urlString build profile live seed (mkHarness [] ∅) = Done (r, h') ->
  match r with Ok report => consistent report /\ unsigned_report report /\ rp_Seed report = seed | Err _ => True end ->
  exists code c, runCommand there answer urlParse urlString build live args [] = Done (code, c) /\ command_ended args code c.
Proof.
  intros Hci Hasks Ha Hrun Hr. unfold runCommand. rewrite Ha. cbn [op_profile op_seed negb]. rewrite Hci, Hrun.
  destruct r as [report|e].
  2: { eexists 1, _. split; [reflexivity|]. eapply ended_failure; [exact Hasks|]. apply told_static. }
  destruct Hr as (Hc & Hu & Hs). unfold marshalReport at 1.
  destruct (validateReport_decides report Hu) as [[Hv _]|[_ Hn]]; [|done]. rewrite Hv.
  set (text := marshal _ ++ [10]).
  destruct (writeExact_writes there answer Hcalm Stdout text []) as (whole & c & taken & Hw & _ & Hok & Hrec & Ho).
  unfold mbind, M_bind. rewrite Hw. destruct whole.
  - exists 0, c. split; [reflexivity|]. eapply ended_report; [exact Hasks|exact Hc|exact Hs| |by rewrite Ho].
    unfold marshalReport. by rewrite Hv, Hrec, (Hok eq_refl).
  - eexists 1, _. split; [reflexivity|]. eapply ended_failure; [exact Hasks|]. apply told_static.
Qed.
End ended.
