(* ===== verification/SatUpstream.v ===== *)
(** * Saturation harness: the controlled upstream

    Models the exchange in [tools/run_saturation/upstream.go]: what a request must be
    to be taken for a job of the workload ([validateRequest],
    [exactUpstreamHeaders]), and how it is answered once the harness releases it
    ([ServeHTTP]).  Contexts, the release and the writer are the environment's. *)

From S2P Require Import Prelude GoHeap GoJson JsonGrammar GoIO GoMarshal AppJson.
From S2P Require Import SatWorkload SatReport SatClient SatHarness.

(** ** Requests *)

(** The parts of [*http.Request] that are looked at; the URL is its path, raw path and
    raw query. *)
Record inboundRequest := mkInbound {
  ib_Method : gostring;
  ib_ProtoMajor : Z;
  ib_URL : option (gostring * gostring * gostring);
  ib_Host : gostring;
  ib_ContentLength : Z;
  ib_TransferEncoding : list gostring;
  ib_Header : httpHeader;
  ib_Body : script;
  ib_CloseFails : bool;
}.

(** [controlledRequest] and [controlledMessage], as types to decode into. *)
Definition controlledMessage : gotype := GStruct [tagged "Role" "role" GString; tagged "Content" "content" GString].
Definition controlledRequest : gotype := GStruct [
  tagged "Model" "model" GString; tagged "Messages" "messages" (GSlice controlledMessage);
  tagged "MaxCompletionTokens" "max_completion_tokens" GUint64; tagged "Stream" "stream" GBool].

(** The five headers and no other; [Accept] is checked later. *)
Definition exactUpstreamHeaders (header : httpHeader) (contentLength : Z) : bool :=
  if negb (size header =? 5)%nat || (contentLength <=? 0) then false
  else
    forallb (fun item : string * option gostring =>
      match header_Values header (fst item) with
      | [value] => match snd item with Some want => bool_decide (value = want) | None => true end
      | _ => false
      end)
      [("Accept"%string, None); ("Authorization"%string, Some (bs "Bearer " ++ upstreamCredential));
       ("Content-Length"%string, Some (formatUint contentLength)); ("Content-Type"%string, Some (bs "application/json"));
       ("User-Agent"%string, Some (bs "ssemaphore"))]
    && bool_decide (header_Values header "Accept-Encoding" = []).

Section upstream.
Context (room : nat -> nat) (host : gostring) (jobs : gmap Z saturationJob).

(** The request that a body decodes to, if it is one JSON value of the type with
    nothing after it. *)
Definition decodeControlled (body : gostring) : option cell :=
  match decodeFresh controlledRequest body with
  | Some (decoded, d) => match Token d with (Err jsonEOF, _) => Some decoded | _ => None end
  | None => None
  end.

(** The synthetic model, and one message, of the user and empty. *)
Definition fixture (decoded : cell) : bool :=
  bool_decide (cellString (cellField 0 decoded) = syntheticModel)
  && match cellSlice (cellField 1 decoded) with
     | [message] => bool_decide (cellString (cellField 0 message) = bs "user") && bool_decide (cellString (cellField 1 message) = [])
     | _ => false
     end.

Definition validateRequest (request : option inboundRequest) : comp (result controlledError saturationJob) :=
  match request with
  | None => Done (Err errControlledUpstreamLine)
  | Some r =>
      if negb (bool_decide (ib_Method r = bs "POST")) || negb (ib_ProtoMajor r =? 1)
         || negb (match ib_URL r with
                  | Some (path, rawPath, rawQuery) =>
                      bool_decide (path = completionsPath) && bool_decide (rawPath = []) && bool_decide (rawQuery = [])
                  | None => false
                  end)
         || negb (bool_decide (ib_Host r = host)) || (ib_ContentLength r <=? 0)
         || negb (bool_decide (ib_TransferEncoding r = []))
      then Done (Err errControlledUpstreamLine)
      else if negb (exactUpstreamHeaders (ib_Header r) (ib_ContentLength r)) then Done (Err errControlledUpstreamHeaders)
      else
        match readAllLimited room (ciMaximumBodyBytes + 1) (ib_Body r) with
        | Panicked msg => Panicked msg
        | OutOfFuel => OutOfFuel
        | Done (body, readErr) =>
            if negb (bool_decide (readErr = None)) || ib_CloseFails r || bool_decide (body = [])
               || (ciMaximumBodyBytes <? Z.of_nat (length body)) || negb (ib_ContentLength r =? Z.of_nat (length body))
            then Done (Err errControlledUpstreamBody)
            else
              match decodeControlled body with
              | None => Done (Err errControlledUpstreamBody)
              | Some decoded =>
                  if negb (fixture decoded) then Done (Err errControlledUpstreamFixture)
                  else
                    let tokens := cellUint (cellField 2 decoded) in
                    let stream := cellBool (cellField 3 decoded) in
                    match jobs !! tokens with
                    | None => Done (Err errControlledUpstreamFixture)
                    | Some job =>
                        if negb (job_id job =? tokens) || negb (Bool.eqb (job_stream job) stream)
                           || negb (bool_decide (body = job_body job))
                           || (negb (bool_decide (job_kind job = jobControl)) && negb (bool_decide (job_kind job = jobService)))
                        then Done (Err errControlledUpstreamFixture)
                        else
                          let wantAccept := if job_stream job then bs "text/event-stream" else bs "application/json" in
                          if negb (bool_decide (header_Get (ib_Header r) "Accept" = wantAccept))
                          then Done (Err errControlledUpstreamHeaders) else Done (Ok job)
                    end
              end
        end
  end.

(** ** Exchanges *)

(** The jobs that were dispatched, the dispatches that were handed over (the latest
    first), and the one issue that is kept. *)
Record controlledUpstream := mkControlled {
  cu_dispatched : gset Z;
  cu_dispatches : list upstreamDispatch;
  cu_issue : option controlledError;
}.

Definition markDispatched (identifier : Z) (u : controlledUpstream) : bool * controlledUpstream :=
  if bool_decide (identifier ∈ cu_dispatched u) then (false, u)
  else (true, mkControlled ({[identifier]} ∪ cu_dispatched u) (cu_dispatches u) (cu_issue u)).

Definition dispatchedCount (u : controlledUpstream) : Z := Z.of_nat (size (cu_dispatched u)).

Definition recordIssue (e : controlledError) (u : controlledUpstream) : controlledUpstream :=
  match cu_issue u with
  | Some _ => u
  | None => mkControlled (cu_dispatched u) (cu_dispatches u) (Some e)
  end.

(** What is written to the client. *)
Inductive written :=
| wroteHeader (name value : gostring)
| wroteStatus (code : Z)
| wroteBody (body : gostring)
| flushed.

(** What one exchange meets: when the request arrived, whether the harness takes the
    dispatch, releases the first event and the end before the request's context or the
    upstream ends, whether the writer flushes, and which of its writes fail. *)
Record exchange := mkExchange {
  xc_arrived : Z;
  xc_taken : bool;
  xc_released : bool;
  xc_flushes : bool;
  xc_firstFails : bool;
  xc_finished : bool;
  xc_lastFails : bool;
}.

(** The response to a job that was released. *)
Definition respond (x : exchange) (job : saturationJob) (u : controlledUpstream) : list written * controlledUpstream :=
  if negb (job_stream job) then
    ([wroteHeader (bs "Content-Type") (bs "application/json");
      wroteHeader (bs "Content-Length") (formatUint (Z.of_nat (length bufferedCompletionBody)));
      wroteStatus 200; wroteBody bufferedCompletionBody],
     if xc_firstFails x then recordIssue errControlledUpstreamDispatch u else u)
  else if negb (xc_flushes x) then ([wroteStatus 502], recordIssue errControlledUpstreamDispatch u)
  else
    let opening := [wroteHeader (bs "Content-Type") (bs "text/event-stream"); wroteStatus 200; wroteBody streamChunkEvent] in
    if xc_firstFails x then (opening, recordIssue errControlledUpstreamDispatch u)
    else if negb (xc_finished x) then (opening ++ [flushed], u)
    else (opening ++ [flushed; wroteBody streamDoneEvent],
          if xc_lastFails x then recordIssue errControlledUpstreamDispatch u else u).

Definition ServeHTTP (x : exchange) (request : option inboundRequest) (u : controlledUpstream)
    : comp (list written * controlledUpstream) :=
  match validateRequest request with
  | Panicked msg => Panicked msg
  | OutOfFuel => OutOfFuel
  | Done (Err e) => Done ([wroteStatus 502], recordIssue e u)
  | Done (Ok job) =>
      let '(fresh, u) := markDispatched (job_id job) u in
      if negb fresh then Done ([wroteStatus 502], recordIssue errControlledUpstreamDispatch u)
      else if negb (xc_taken x) then Done ([], u)
      else
        let u := mkControlled (cu_dispatched u) (mkDispatch job (xc_arrived x) :: cu_dispatches u) (cu_issue u) in
        if negb (xc_released x) then Done ([], u)
        else Done (respond x job u)
  end.
End upstream.
