(* ===== verification/SatTheorems.v ===== *)
(** * Saturation harness: the theorems

    What the evidence of the harness stands on: every seed gives a valid workload and
    a complete plan of dispatches, the scheduler that is measured serves the workload
    in the order of that plan, and a run ends, leaves nothing behind, and reports
    only the plan.  Before them, a laboratory that answers as the gateway should,
    which the witnesses are run in. *)

From S2P Require Import Prelude AdmissionConfig GoHeap AdmissionOwner AdmissionInv AdmissionSteps AdmissionRun AdmissionScheduler.
From S2P Require Import AdmissionStarvation GoJson JsonGrammar GoIO ServerListener ServerShutdown HttpUpstream GoSha256.
From S2P Require Import GoMarshal SatWorkload SatSeeded SatOracle SatSchedule SatArrive SatReport SatAudit SatClient.
From S2P Require Import SatHarness SatBench SatMain.

Section ideal.
Context (workload : seededWorkload) (plan : list oracleDispatch).

(** What the scheduler holds after what was done. *)
Fixpoint ideal_queues (done : list act) : queueExpectation :=
  match done with
  | [] => newQueueExpectation (jobAt workload (wl_control workload))
  | actLaunch job :: done =>
      match job_kind job with
      | jobService | jobCancel | jobDeadline => expect_addQueued (ideal_queues done) job
      | _ => ideal_queues done
      end
  | actCancel identifier :: done => expect_removeQueued (ideal_queues done) (jobAt workload identifier)
  | actResult identifier :: done =>
      if bool_decide (job_kind (jobAt workload identifier) = jobDeadline)
      then expect_removeQueued (ideal_queues done) (jobAt workload identifier) else ideal_queues done
  | _ :: done => ideal_queues done
  end.

Definition shown (e : queueExpectation) : Snapshot :=
  MkSnapshot true (qe_global e) (map (fun t => MkTenantSnapshot (fst t) 0 (snd t)) (map_to_list (qe_tenants e))).

(** How many awaits of a dispatch there were. *)
Fixpoint dispatches (done : list act) : nat :=
  match done with
  | [] => 0
  | actDispatch :: done => S (dispatches done)
  | _ :: done => dispatches done
  end.

Definition ideal_result (identifier : Z) : clientResult :=
  let job := jobAt workload identifier in
  if bool_decide (job_kind job = jobCancel) then canceled_result else resultOfKind (job_kind job).

(** The clock stands still, and the first tick is the last. *)
#[local] Instance ideal_lab : Lab := {|
  lab_now := fun _ => 0;
  lab_snapshot := fun done =>
    Some (if (dispatches done =? S (length plan))%nat then MkSnapshot true zeroCounters [] else shown (ideal_queues done));
  lab_ended := fun _ => true;
  lab_dispatch := fun done =>
    match dispatches done with
    | O => gotDispatch (mkDispatch (jobAt workload (wl_control workload)) 0)
    | S k => match plan !! k with
             | Some d => gotDispatch (mkDispatch (jobAt workload (od_identifier d)) 0)
             | None => dispatchEnded
             end
    end;
  lab_result := fun _ identifier => Some (ideal_result identifier);
  lab_event := fun _ _ => Some 0;
  lab_dispatchedCount := fun _ => Z.of_nat (S (length plan));
  lab_issues := fun _ => false;
  lab_clients := fun _ => true;
  lab_patience := 0;
|}.

Lemma ideal_patient : patient ideal_lab.
Proof. done. Qed.

(** Sockets on port 8080 of the loopback address, and clean ends. *)
#[local] Instance ideal_bench : Bench := {|
  bench_lab := ideal_lab;
  bench_listen := fun _ => Some (TCPAddr (Some ([127; 0; 0; 1], 8080, [])));
  bench_gatewayShutdown := fun _ => (zeroResult, false);
  bench_serve := fun _ => Some false;
  bench_upstreamShutdown := fun _ => false;
  bench_upstreamServe := fun _ => Some servedClosed;
|}.
End ideal.

(** ** The published run *)

(** What [url.Parse] gives for the endpoint of the upstream. *)
Definition loopback_url : parsedURL :=
  mkParsedURL (bs "http") [] false (bs "127.0.0.1:8080") completionsPath [] false [] [] [].

Definition some_build : goBuild := mkBuild (bs "go1.26.5") (bs "linux") (bs "amd64").

Definition run_of (profile : saturationProfile) (seed : Z) : option (result harnessError saturationReport * harness) :=
  match buildSeededWorkload seed profile with
  | Done (Ok w) =>
      match expectedDispatchPlan w with
      | Done (Ok plan) =>
          match runSaturationHarness (H := ideal_bench w plan) (fun _ => Some loopback_url) (fun _ => []) some_build profile
                  true seed (mkHarness [] ∅) with
          | Done r => Some r
          | _ => None
          end
      | _ => None
      end
  | _ => None
  end.

(** The run of [run_of], and the bench it was on. *)
Lemma run_of_runs profile seed r h' : run_of profile seed = Some (r, h') ->
  exists w plan, buildSeededWorkload seed profile = Done (Ok w) /\ expectedDispatchPlan w = Done (Ok plan)
    /\ runSaturationHarness (H := ideal_bench w plan) (fun _ => Some loopback_url) (fun _ => []) some_build profile
         true seed (mkHarness [] ∅) = Done (r, h').
Proof.
  unfold run_of. destruct (buildSeededWorkload seed profile) as [[w|]| |]; try done.
  destruct (expectedDispatchPlan w) as [[plan|]| |] eqn:Hp; try done.
  destruct (runSaturationHarness _ _ _ _ _ _ _) as [r'| |] eqn:Hr; try done. intros [= ->]. by exists w, plan.
Qed.

Definition is_u64b (n : Z) : bool := (0 <=? n) && (n <? two64).

(** [typed_report] as a test. *)
Definition typed_reportb (report : saturationReport) : bool :=
  validString (rp_GoVersion report) && validString (rp_OperatingSystem report) && validString (rp_Architecture report)
  && is_u64b (rp_Seed report) && forallb (fun r => is_u64b (rec_WorkUnits r)) (sv_Observed (rp_Service report))
  && forallb (fun s => is_u64b (ts_SubmitToUpstreamDispatchNS s)
                       && match ts_UpstreamReleaseToSSEEventNS s with Some ns => is_u64b ns | None => true end)
       (tm_Samples (rp_Timing report)).

Lemma is_u64b_true n : is_u64b n = true -> is_u64 n.
Proof. unfold is_u64b, is_u64. intros H. breflect. lia. Qed.

Lemma typed_reportb_true report : typed_reportb report = true -> typed_report report.
Proof.
  unfold typed_reportb. intros H. do 5 apply andb_true_iff in H as [H ?]. split; try done.
  - by apply is_u64b_true.
  - apply Forall_forall. intros r Hr. apply is_u64b_true. by apply (proj1 (forallb_forall _ _) H1), list_elem_of_In.
  - apply Forall_forall. intros s Hs. apply list_elem_of_In in Hs. apply (proj1 (forallb_forall _ _) H0) in Hs.
    apply andb_true_iff in Hs as [Hs He]. split; [by apply is_u64b_true|].
    destruct (ts_UpstreamReleaseToSSEEventNS s); [by apply is_u64b_true|done].
Qed.

Definition reports (r : option (result harnessError saturationReport * harness)) : bool :=
  match r with Some (Ok report, _) => typed_reportb report | _ => false end.

(** On a laboratory that behaves, the run of the published seed reports. *)
Lemma published_run_reports profile : profileByName ciProfileName = Ok profile ->
  exists report h', run_of profile 20260725 = Some (Ok report, h') /\ typed_report report.
Proof.
  intros Hci. assert (H : match profileByName ciProfileName with Ok profile => reports (run_of profile 20260725) | Err _ => false end = true)
    by (vm_compute; reflexivity).
  rewrite Hci in H. destruct (run_of profile 20260725) as [[[report|e] h']|]; try done.
  exists report, h'. split; [done|]. by apply typed_reportb_true.
Qed.

(** It names the build. *)
Lemma published_run_build profile report h' : profileByName ciProfileName = Ok profile ->
  run_of profile 20260725 = Some (Ok report, h') ->
  rp_GoVersion report = bs "go1.26.5" /\ rp_OperatingSystem report = bs "linux" /\ rp_Architecture report = bs "amd64".
Proof.
  intros Hci Hrun.
  assert (H : match profileByName ciProfileName with
              | Ok profile => match run_of profile 20260725 with
                              | Some (Ok report, _) => bool_decide (rp_GoVersion report = bs "go1.26.5")
                                  && bool_decide (rp_OperatingSystem report = bs "linux")
                                  && bool_decide (rp_Architecture report = bs "amd64")
                              | _ => false end
              | Err _ => false end = true) by (vm_compute; reflexivity).
  rewrite Hci, Hrun in H. rewrite !andb_true_iff, !bool_decide_eq_true in H. destruct H as [[Hv Ho] Ha]. done.
Qed.

(** * Saturation harness: the theorems *)

(** The profile [ci] of the command. *)
Definition ciProfile : option saturationProfile :=
  match profileByName ciProfileName with Ok profile => Some profile | Err _ => None end.

Lemma ciProfile_fine profile : profileByName ciProfileName = Ok profile ->
  profile_fine profile /\ pf_defaultQueueTimeout profile <= MaximumQueueTimeout.
Proof. intros [= <-]. vm_compute. by split_and!. Qed.

Lemma ci_profile : exists profile, profileByName ciProfileName = Ok profile.
Proof. by eexists. Qed.

Lemma oracle_steps_inv jobs queues o o' : rtc (oracle_step jobs) o o' -> oracle_inv jobs queues o -> oracle_inv jobs queues o'.
Proof.
  induction 1 as [o|o o1 o' [Hpos Hv] _ IH]; intros HI; [done|]. apply IH.
  destruct (oracle_step_exists jobs queues o HI Hpos) as (o2 & [_ Hv2] & HI2 & _). congruence.
Qed.

(** C26: for every seed the builder gives a workload that its own validation accepts,
    and the oracle, without an index out of range and within its bound on visits,
    gives a complete plan: twenty dispatches, the dispatches of each tenant in the
    order of its queue, and every dispatch described as its job is (position from 1,
    label and weight of the tenant, work, response mode). *)
Theorem sat_workload_planned (profile : saturationProfile) (seed : Z) : profileByName ciProfileName = Ok profile ->
  exists w plan, buildSeededWorkload seed profile = Done (Ok w) /\ wl_seed w = seed
    /\ validateSeededWorkload w = Done (Ok tt)
    /\ expectedDispatchPlan w = Done (Ok plan) /\ length plan = 20%nat
    /\ (forall i tenant, serviceTenants !! i = Some tenant -> wl_serviceQueues w !! i = Some (dispatchedBy tenant plan))
    /\ (forall k d, plan !! k = Some d -> described (wl_jobs w) k d).
Proof.
  intros [Hf _]%ciProfile_fine. destruct (buildSeededWorkload_built profile seed Hf) as (w & c & g & ta & tb & Hb & Hdr & Hw & Hs & Hv).
  destruct (expectedDispatchPlan_complete w (built_queued _ _ _ _ _ w Hdr Hw)) as (plan & Hp & _ & Hl & Hq & Hd).
  exists w, plan. rewrite (built_total _ _ _ _ _ w Hdr Hw) in Hl. done.
Qed.

Lemma sat_workload_planned_witness : exists w plan,
  match ciProfile with Some profile => buildSeededWorkload 20260725 profile = Done (Ok w) | None => False end
  /\ wl_seed w = 20260725 /\ validateSeededWorkload w = Done (Ok tt)
  /\ expectedDispatchPlan w = Done (Ok plan) /\ length plan = 20%nat
  /\ (forall i tenant, serviceTenants !! i = Some tenant -> wl_serviceQueues w !! i = Some (dispatchedBy tenant plan))
  /\ (forall k d, plan !! k = Some d -> described (wl_jobs w) k d).
Proof. exact (sat_workload_planned _ 20260725 eq_refl). Defined.

(** C8: the oracle of the harness predicts the scheduler. When no context ends and
    the clock does not reach a queue timeout, the admission scheduler of the measured
    configuration, given the control request and then the service requests in the
    order of their submission, dispatches them, one at a time as each ends, in
    exactly the order of the plan that the oracle computes from the seed. (The jobs
    that the harness submits in between, to be canceled or to run out of time, are
    outside of it.) *)
Theorem sat_plan_realized `{World} (profile : saturationProfile) (seed : Z) :
  profileByName ciProfileName = Ok profile -> calm profile ->
  exists w plan s st ids, buildSeededWorkload seed profile = Done (Ok w)
    /\ expectedDispatchPlan w = Done (Ok plan)
    /\ scheduler_start = Some (s, 0)
    /\ play (submission profile (jobOf (wl_jobs w) (wl_control w)) :: job_actions profile w (submissions w)) (s, 0) = Some st
    /\ serve 21 (fst st) = Some ids /\ map (label w) ids = map od_identifier plan.
Proof.
  intros [Hf Hmax]%ciProfile_fine Hcalm.
  assert (Hto : 0 < pf_defaultQueueTimeout profile <= MaximumQueueTimeout) by (destruct Hf as (_ & ? & _); lia).
  destruct (buildSeededWorkload_built profile seed Hf) as (w & c & g & ta & tb & Hb & Hdr & Hw & _).
  pose proof (built_queued _ _ _ _ _ w Hdr Hw) as Hqf. pose proof (built_submittable _ _ _ _ _ w Hdr Hw) as Hsb.
  destruct (expectedDispatchPlan_complete w Hqf) as (plan & Hp & (o & Hro & Hzo & Hto') & Hlen & _).
  rewrite (built_total _ _ _ _ _ w Hdr Hw) in Hlen.
  destruct scheduler_start_state as (s & x & Hstart & _).
  destruct (control_loaded profile w _ s Hto Hcalm (built_control _ _ _ _ _ w Hdr Hw) Hstart) as (st0 & Hp0 & Hl0).
  destruct (loaded_all profile w 0 st0 Hto Hcalm Hsb ltac:(lia) Hl0) as (st & Hps & Hl). rewrite drop_0 in Hps.
  pose proof (loaded_follows w st Hsb Hqf Hl) as Hfol.
  destruct (serve_follows _ _ _ _ _ 1 Hfol (ld_inflight _ _ _ Hl) (ld_accepting _ _ _ Hl)) as (ids & o' & Hser & Hr & Hz & Htr).
  assert (o' = o) by (by eapply oracle_end_unique). subst o'.
  assert (or_remaining (oracle_start w) = 20%nat) as Hrem.
  { pose proof (oi_total _ _ _ (fo_oracle _ _ _ _ _ Hfol)) as H0. destruct (oracle_start_inv w Hqf) as [HI _].
    assert (oracle_inv (wl_jobs w) (wl_serviceQueues w) o) as HIo.
    { by eapply oracle_steps_inv. }
    pose proof (oi_total _ _ _ HIo) as H1. rewrite Hzo, Hto', Hlen in H1. change (length (or_trace (oracle_start w))) with 0%nat in H0. lia. }
  rewrite Hrem in Hser. exists w, plan, s, st, ids. split; [exact Hb|]. split; [exact Hp|]. split; [exact Hstart|]. split; [|split; [exact Hser|]].
  - cbn [play]. by rewrite Hp0.
  - change (map od_identifier (or_trace (oracle_start w))) with (@nil Z) in Htr. rewrite <- Hto'. by rewrite Htr.
Qed.

(** A clock that stands still and contexts that do not end. *)
#[local] Instance quiet_world : World := {|
  w_now := fun _ => 0;
  w_err := fun _ _ => false;
|}.

Lemma sat_plan_realized_witness : exists profile w plan s st ids, buildSeededWorkload 20260725 profile = Done (Ok w)
  /\ expectedDispatchPlan w = Done (Ok plan)
  /\ scheduler_start = Some (s, 0)
  /\ play (submission profile (jobOf (wl_jobs w) (wl_control w)) :: job_actions profile w (submissions w)) (s, 0) = Some st
  /\ serve 21 (fst st) = Some ids /\ map (label w) ids = map od_identifier plan.
Proof.
  eexists. refine (sat_plan_realized _ 20260725 eq_refl _). split; [done|]. intros n m. by vm_compute.
Defined.

(** ** Runs of the harness *)

Lemma plan_unsigned profile seed w plan : profile_fine profile -> buildSeededWorkload seed profile = Done (Ok w) ->
  expectedDispatchPlan w = Done (Ok plan) -> Forall (fun d => 0 <= rec_WorkUnits (od_record d)) plan.
Proof.
  intros Hf Hb Hp. destruct (buildSeededWorkload_built profile seed Hf) as (w' & c & g & ta & tb & Hb' & Hdr & Hw & _).
  assert (w' = w) as -> by congruence. pose proof (built_queued _ _ _ _ _ w Hdr Hw) as Hq.
  destruct (expectedDispatchPlan_complete w Hq) as (plan' & Hp' & _ & _ & Hqs & Hd).
  assert (plan' = plan) as -> by congruence. apply Forall_lookup. intros k d Hk.
  destruct (Hd k d Hk) as (job & Hj & _ & Hr). rewrite Hr. cbn.
  destruct (built_entry _ _ _ _ _ w _ job Hdr Hw Hj) as [<- Hin]. pose proof (built_job _ _ _ _ _ w _ Hdr Hw Hin). lia.
Qed.

(** The seed of the published evidence. *)
Lemma published_digest w plan :
  match ciProfile with Some profile => buildSeededWorkload 20260725 profile = Done (Ok w) | None => False end ->
  expectedDispatchPlan w = Done (Ok plan) ->
  evidenceDigest 20260725 (map od_record plan) = bs "7b6b4a3076eb811cd3c463e5fa6cee313769d4a1941242093d384f11ebce127f".
Proof.
  assert (H : match ciProfile with
              | Some profile =>
                  match buildSeededWorkload 20260725 profile with
                  | Done (Ok w) => match expectedDispatchPlan w with
                                   | Done (Ok plan) => evidenceDigest 20260725 (map od_record plan)
                                   | _ => [] end
                  | _ => [] end
              | None => [] end = bs "7b6b4a3076eb811cd3c463e5fa6cee313769d4a1941242093d384f11ebce127f") by (vm_compute; reflexivity).
  revert H. destruct ciProfile as [profile|]; [|done]. intros H Hb Hp. by rewrite Hb, Hp in H.
Qed.

(** The plan of a seed. *)
Definition planned (profile : saturationProfile) (seed : Z) (w : seededWorkload) (plan : list oracleDispatch) : Prop :=
  buildSeededWorkload seed profile = Done (Ok w) /\ expectedDispatchPlan w = Done (Ok plan).

Lemma ci_planned profile seed : profileByName ciProfileName = Ok profile ->
  exists w plan, planned profile seed w plan /\ wl_seed w = seed /\ Forall (fun d => 0 <= rec_WorkUnits (od_record d)) plan.
Proof.
  intros [Hf _]%ciProfile_fine. destruct (buildSeededWorkload_built profile seed Hf) as (w & c & g & ta & tb & Hb & Hdr & Hw & Hs & _).
  destruct (expectedDispatchPlan_complete w (built_queued _ _ _ _ _ w Hdr Hw)) as (plan & Hp & _).
  exists w, plan. split; [done|]. split; [done|]. by eapply plan_unsigned.
Qed.

(** C13: the harness comes to an end without a panic, whatever the gateway, the
    upstream, the sockets and the clock do, provided only that its execution context
    ends; and if it reports, then the report is consistent, names the seed, and its
    observed dispatches are exactly the plan that the oracle computes from the seed. *)
Theorem sat_run_reports (B : Bench) (urlParse : list Z -> option parsedURL) (urlString : parsedURL -> list Z)
    (build : goBuild) (profile : saturationProfile) (live : bool) (seed : Z) :
  profileByName ciProfileName = Ok profile -> patient bench_lab ->
  exists w plan r h', planned profile seed w plan
    /\ runSaturationHarness urlParse urlString build profile live seed (mkHarness [] ∅) = Done (r, h')
    /\ match r with
       | Ok report => consistent report /\ rp_Seed report = seed
                      /\ sv_Observed (rp_Service report) = map od_record plan
       | Err _ => True
       end.
Proof.
  intros Hci Hpatient. destruct (ci_planned profile seed Hci) as (w & plan & Hpl & Hs & Hu). pose proof Hpl as [Hb Hp].
  destruct (run_ends B Hpatient urlParse urlString build profile live seed w plan Hb Hp Hu (mkHarness [] ∅)) as (r & h' & Hrun & Hr).
  exists w, plan, r, h'. split; [exact Hpl|]. split; [exact Hrun|]. destruct r as [report|e]; [|exact I].
  destruct Hr as (Hc & Hseed & Hobs). split; [exact Hc|]. split; [congruence|exact Hobs].
Qed.

(** A run of the published seed that reports. *)
Lemma sat_run_reports_witness : exists (B : Bench) profile w plan report h', planned profile 20260725 w plan
  /\ runSaturationHarness (fun _ => Some loopback_url) (fun _ => []) some_build profile true 20260725 (mkHarness [] ∅)
     = Done (Ok report, h')
  /\ consistent report /\ rp_Seed report = 20260725 /\ sv_Observed (rp_Service report) = map od_record plan.
Proof.
  destruct (published_run_reports _ eq_refl) as (report & h' & Hrun & Htyped).
  destruct (run_of_runs _ _ _ _ Hrun) as (w0 & plan0 & _ & _ & Hr).
  destruct (sat_run_reports (ideal_bench w0 plan0) (fun _ => Some loopback_url) (fun _ => []) some_build _ true 20260725 eq_refl
              (ideal_patient w0 plan0)) as (w & plan & r & h & Hpl & Hrun' & Hres).
  rewrite Hr in Hrun'. injection Hrun' as <- <-.
  exists (ideal_bench w0 plan0). eexists. exists w, plan, report, h'. split; [exact Hpl|]. split; [exact Hr|]. exact Hres.
Defined.

(** C17: nothing is left behind. However the harness ends, with a report or an error at
    any point, the controlled upstream, the gateway with its scheduler and listener,
    the upstream client and the context of the run have been closed. *)
Theorem sat_leaves_nothing (B : Bench) (urlParse : list Z -> option parsedURL) (urlString : parsedURL -> list Z)
    (build : goBuild) (profile : saturationProfile) (live : bool) (seed : Z) (r : result harnessError saturationReport)
    (h' : harness) :
  runSaturationHarness urlParse urlString build profile live seed (mkHarness [] ∅) = Done (r, h') ->
  forall x, isOpen x (hs_done h') = false.
Proof.
  intros Hrun x. destruct (isOpen x (hs_done h')) eqn:Hx; [|done]. exfalso.
  assert (Hw : within [] (hs_done h')).
  { pose proof (run_opens urlParse urlString build profile live seed (mkHarness [] ∅) r h' Hrun) as Hw.
    destruct r; apply Hw; by intros y. }
  by apply Hw, elem_of_nil in Hx.
Qed.

Lemma sat_leaves_nothing_witness : exists (B : Bench) profile r h',
  runSaturationHarness (fun _ => Some loopback_url) (fun _ => []) some_build profile true 20260725 (mkHarness [] ∅) = Done (r, h')
  /\ forall x, isOpen x (hs_done h') = false.
Proof.
  destruct (published_run_reports _ eq_refl) as (report & h' & Hrun & Htyped).
  destruct (run_of_runs _ _ _ _ Hrun) as (w0 & plan0 & _ & _ & Hr).
  exists (ideal_bench w0 plan0). eexists. exists (Ok report), h'. split; [exact Hr|].
  exact (sat_leaves_nothing (ideal_bench w0 plan0) _ _ _ _ _ _ _ _ Hr).
Defined.

(** C25: the evidence in the repository is reproduced. Every run of the published seed
    that reports, on whatever gateway, build and machine, has the digest that is
    published in [docs/visuals/generated/saturation-evidence.json]: SHA-256 of the
    JSON of the evidence, which depends on the seed alone. *)
Theorem sat_published_digest (B : Bench) (urlParse : list Z -> option parsedURL) (urlString : parsedURL -> list Z)
    (build : goBuild) (profile : saturationProfile) (live : bool) (report : saturationReport) (h' : harness) :
  profileByName ciProfileName = Ok profile -> patient bench_lab ->
  runSaturationHarness urlParse urlString build profile live 20260725 (mkHarness [] ∅) = Done (Ok report, h') ->
  ce_Digest (rp_Categorical report) = bs "7b6b4a3076eb811cd3c463e5fa6cee313769d4a1941242093d384f11ebce127f".
Proof.
  intros Hci Hpatient Hrun. destruct (ci_planned profile 20260725 Hci) as (w & plan & [Hb Hp] & Hs & Hu).
  destruct (run_ends B Hpatient urlParse urlString build profile live 20260725 w plan Hb Hp Hu (mkHarness [] ∅))
    as (r & h & Hrun' & Hr). rewrite Hrun in Hrun'. injection Hrun' as <- <-. destruct Hr as (Hc & Hseed & Hobs).
  rewrite (cn_digest _ Hc), Hseed, Hobs, Hs. cbn [ce_Digest]. clear -Hci Hb Hp.
  apply published_digest with (w := w); [|done]. by injection Hci as <-.
Qed.

Lemma sat_published_digest_witness : exists (B : Bench) profile report h',
  runSaturationHarness (fun _ => Some loopback_url) (fun _ => []) some_build profile true 20260725 (mkHarness [] ∅)
  = Done (Ok report, h')
  /\ ce_Digest (rp_Categorical report) = bs "7b6b4a3076eb811cd3c463e5fa6cee313769d4a1941242093d384f11ebce127f".
Proof.
  destruct (published_run_reports _ eq_refl) as (report & h' & Hrun & Htyped).
  destruct (run_of_runs _ _ _ _ Hrun) as (w0 & plan0 & _ & _ & Hr).
  exists (ideal_bench w0 plan0). eexists. exists report, h'. split; [exact Hr|].
  exact (sat_published_digest (ideal_bench w0 plan0) _ _ _ _ _ _ _ eq_refl (ideal_patient w0 plan0) Hr).
Defined.

(** C34: a run that reports has submitted every job of the workload, each once, and in
    the seeded order: the control request, the first service requests, those to be
    canceled, those to run out of time, the late service requests, and the ones to be
    rejected, the one for the global capacity last. *)
Theorem sat_submits_in_order (B : Bench) (urlParse : list Z -> option parsedURL) (urlString : parsedURL -> list Z)
    (build : goBuild) (profile : saturationProfile) (live : bool) (seed : Z) (w : seededWorkload)
    (report : saturationReport) (h' : harness) :
  buildSeededWorkload seed profile = Done (Ok w) ->
  runSaturationHarness urlParse urlString build profile live seed (mkHarness [] ∅) = Done (Ok report, h') ->
  launched (hs_done h') = map (jobAt w) (wl_control w :: loadOrder w)
  /\ NoDup (map job_id (launched (hs_done h')))
  /\ forall identifier, identifier ∈ dom (hs_calls h') <-> identifier ∈ map job_id (launched (hs_done h')).
Proof.
  intros Hb Hrun. destruct (run_sends urlParse urlString build profile live seed w Hb (mkHarness [] ∅) report h' Hrun)
    as (Hl & Hk & Hnd); [|by constructor|done].
  intros identifier. cbn. rewrite dom_empty. split; [by intros ?%elem_of_empty|by intros ?%elem_of_nil].
Qed.

Lemma sat_submits_in_order_witness : exists (B : Bench) profile w report h',
  buildSeededWorkload 20260725 profile = Done (Ok w)
  /\ runSaturationHarness (fun _ => Some loopback_url) (fun _ => []) some_build profile true 20260725 (mkHarness [] ∅)
     = Done (Ok report, h')
  /\ launched (hs_done h') = map (jobAt w) (wl_control w :: loadOrder w)
  /\ NoDup (map job_id (launched (hs_done h')))
  /\ forall identifier, identifier ∈ dom (hs_calls h') <-> identifier ∈ map job_id (launched (hs_done h')).
Proof.
  destruct (published_run_reports _ eq_refl) as (report & h' & Hrun & Htyped).
  destruct (run_of_runs _ _ _ _ Hrun) as (w0 & plan0 & Hb & _ & Hr).
  exists (ideal_bench w0 plan0). eexists. exists w0, report, h'. split; [exact Hb|]. split; [exact Hr|].
  exact (sat_submits_in_order (ideal_bench w0 plan0) _ _ _ _ _ _ _ _ _ Hb Hr).
Defined.

(** ** Reports *)

(** The check of a report decides consistency, and does not panic: it accepts a
    report exactly when the totals, the tenants, the dispatches, the samples and the
    digest agree with each other and with the constants of the profile, and rejects
    every other report with the one error. *)
Theorem sat_report_checked (report : saturationReport) : unsigned_report report ->
  (validateReport report = Done (Ok tt) <-> consistent report)
  /\ (validateReport report = Done (Err errHarnessReport) <-> ~ consistent report).
Proof.
  intros Hu. destruct (validateReport_decides report Hu) as [[-> Hc]|[-> Hc]]; split; split; intros H; try done.
Qed.

(** The report of the published run. *)
Lemma published_report : exists report, consistent report /\ typed_report report.
Proof.
  destruct (published_run_reports _ eq_refl) as (report & h' & Hrun & Htyped).
  destruct (run_of_runs _ _ _ _ Hrun) as (w0 & plan0 & _ & _ & Hr).
  destruct (ci_planned _ 20260725 eq_refl) as (w & plan & [Hb Hp] & _ & Hu).
  destruct (run_ends (ideal_bench w0 plan0) (ideal_patient w0 plan0) (fun _ => Some loopback_url) (fun _ => []) some_build _ true
              20260725 w plan Hb Hp Hu (mkHarness [] ∅)) as (r & h & Hrun' & Hc).
  rewrite Hr in Hrun'. injection Hrun' as <- <-. destruct Hc as [Hc _]. exists report. split; [exact Hc|exact Htyped].
Qed.

Lemma sat_report_checked_witness : exists report, validateReport report = Done (Ok tt) /\ consistent report.
Proof.
  destruct published_report as (report & Hc & Ht). exists report. split; [|exact Hc].
  exact (proj2 (proj1 (sat_report_checked report (typed_unsigned _ Ht))) Hc).
Defined.

(** What the command writes is the report. For a report with values of the types
    of the source, [marshalReport] writes a JSON document that denotes the report and
    ends with a line feed, exactly when the report is consistent; otherwise it writes
    nothing. *)
Theorem sat_report_roundtrip (report : saturationReport) : typed_report report ->
  (consistent report /\ exists text, marshalReport report = Done (Ok text)
     /\ document_text (saturationReport_json report) text /\ last text = Some 10)
  \/ (~ consistent report /\ marshalReport report = Done (Err errHarnessReport)).
Proof.
  intros Ht. destruct (marshalReport_writes report Ht) as [(Hc & Hm & Hd)|H]; [left|right; exact H].
  split; [exact Hc|]. eexists. split; [exact Hm|]. split; [exact Hd|]. apply last_snoc.
Qed.

Lemma sat_report_roundtrip_witness : exists report text, marshalReport report = Done (Ok text)
  /\ document_text (saturationReport_json report) text.
Proof.
  destruct published_report as (report & Hc & Ht).
  destruct (sat_report_roundtrip report Ht) as [(_ & text & Hm & Hd & _)|[Hno _]]; [by exists report, text|done].
Defined.

(** ** The command *)

(** C33: the command, whatever its arguments are and whatever answers it. It ends
    without a panic, in one of four ways: for the call for help the code is 0 and
    nothing goes to the second stream; for the profile and a decimal seed below 2^64,
    in either order, either the code is 0 and the first stream took exactly the
    checked report of that seed, with nothing on the second, or the code is 1 and the
    failure is told; and for all other arguments the code is 2, with the usage on the
    second stream and nothing on the first. *)
Theorem sat_command (B : Bench) (urlParse : list Z -> option parsedURL) (urlString : parsedURL -> list Z)
    (build : goBuild) (there : output -> bool) (answer : list (output * gostring) -> writeAnswer) (live : bool)
    (args : list gostring) : patient bench_lab -> (forall c, answer c <> writePanics) ->
  exists code c, runCommand there answer urlParse urlString build live args [] = Done (code, c)
    /\ command_ended there answer args code c.
Proof.
  intros Hpatient Hcalm. pose proof (parseArguments_exact args) as Hargs.
  remember (parseArguments args) as parsed eqn:Hparsed. symmetry in Hparsed. destruct Hargs as [Hh|seed Ha|Hh Hno].
  - exists 0. eexists. unfold runCommand. rewrite Hparsed. split; [reflexivity|].
    apply ended_help; [exact Hh|apply told_static|by apply unheard].
  - destruct ci_profile as (profile & Hci). destruct (ci_planned profile seed Hci) as (w & plan & [Hb Hp] & Hs & Hu).
    destruct (run_ends B Hpatient urlParse urlString build profile live seed w plan Hb Hp Hu (mkHarness [] ∅)) as (r & h' & Hrun & Hr).
    apply (run_told _ _ B urlParse urlString build Hcalm profile live args seed r h' Hci Ha Hparsed Hrun).
    destruct r as [report|e]; [|exact I]. destruct Hr as (Hc & Hrs & Hobs). split; [exact Hc|]. split; [|congruence].
    unfold unsigned_report. rewrite Hobs. by apply Forall_map.
  - exists 2. eexists. unfold runCommand. rewrite Hparsed. split; [reflexivity|].
    apply ended_usage; [exact Hh|exact Hno|apply told_static|by apply unheard].
Qed.

(** The arguments that the repository documents, on streams that take everything. *)
Lemma sat_command_witness : exists (B : Bench) answer code c,
  runCommand (fun _ => true) answer (fun _ => Some loopback_url) (fun _ => []) some_build true
    [bs "--seed=20260725"; bs "--profile=ci"] [] = Done (code, c)
  /\ asks [bs "--seed=20260725"; bs "--profile=ci"] 20260725 /\ command_ended (fun _ => true) answer
       [bs "--seed=20260725"; bs "--profile=ci"] code c.
Proof.
  destruct (published_run_reports _ eq_refl) as (report & h' & Hrun & _).
  destruct (run_of_runs _ _ _ _ Hrun) as (w0 & plan0 & _ & _ & Hr).
  destruct (sat_command (ideal_bench w0 plan0) (fun _ => Some loopback_url) (fun _ => []) some_build (fun _ => true)
    (fun c => match c with (_, data) :: _ => wrote (Z.of_nat (length data)) false | [] => wrote 0 true end) true
    [bs "--seed=20260725"; bs "--profile=ci"] (ideal_patient w0 plan0)) as (code & c & Hc & Hend); [by intros [|[]]|].
  exists (ideal_bench w0 plan0). eexists. exists code, c. split; [exact Hc|]. split; [|exact Hend].
  exists (bs "20260725"). split; [vm_compute; split_and!; (reflexivity || lia)|]. by right.
Defined.
