(* ===== verification/VisEvidence.v ===== *)
(** * README visuals: the saturation evidence

    Models [tools/render_readme_visuals/saturation.go]: the run of the saturation harness
    as a process of its own, with bounded output; the strict decoding of the report that
    it writes; the validation of that report; and the evidence that is kept of it. The
    structs of the source that repeat, with the same JSON names, those of the harness are
    the records of [SatReport]. *)

From S2P Require Import Prelude GoJson JsonGrammar GoIO ContractScan GoSha256 GoMarshal AppJson AppDecode AppTyped.
From S2P Require Import SatWorkload SatReport SatAudit.

#[local] Open Scope string_scope.

(** ** Constants *)

Definition visualExpectedGo : gostring := bs "go1.26.5".
Definition visualExpectedOS : gostring := bs "linux".
Definition visualSaturationSeed : Z := 20260725.
Definition visualSaturationProfile : gostring := bs "ci".
Definition visualSaturationSchema : gostring := bs "ssemaphore.saturation-evidence.v1".
Definition visualSaturationScope : gostring := bs "one bounded synthetic numeric-loopback request-count saturation run".
Definition visualSaturationDigest : gostring := bs "7b6b4a3076eb811cd3c463e5fa6cee313769d4a1941242093d384f11ebce127f".
Definition visualSaturationProcessTimeout : Z := 60 * time_Second.
Definition visualSaturationBuildTimeout : Z := 25 * time_Second.
Definition visualSaturationMaxStdout : Z := 131072.
Definition visualSaturationMaxStderr : Z := 8192.
Definition visualSaturationMaximumJobs : Z := 28.

Inductive saturationVisualError := errSaturationVisual.

(** ** Types to decode into *)

Definition visualClaimsType : gotype := GStruct [
  tagged "Performance" "performance" GBool; tagged "ReportByteReproducible" "report_byte_reproducible" GBool;
  tagged "Scope" "scope" GString; tagged "Timings" "timings" GString; tagged "Streaming" "streaming" GString;
  tagged "Encoding" "encoding" GString].
Definition visualTopologyType : gotype := GStruct [
  tagged "Gateway" "gateway" GString; tagged "Transport" "transport" GString;
  tagged "ControlledUpstream" "controlled_upstream" GBool; tagged "SeededArrivalOrder" "seeded_arrival_order" GBool;
  tagged "SchedulerSnapshotBarriers" "scheduler_snapshot_barriers" GBool;
  tagged "GlobalInflightRequests" "global_inflight_requests" GUint64;
  tagged "GlobalQueuedRequests" "global_queued_requests" GUint64;
  tagged "ServiceRequestsPerTenant" "service_requests_per_tenant" GUint64].
Definition visualOutcomesType : gotype := GStruct [
  tagged "Submitted" "submitted" GUint64; tagged "Admitted" "admitted" GUint64; tagged "Rejected" "rejected" GUint64;
  tagged "Completed" "completed" GUint64; tagged "Canceled" "canceled" GUint64;
  tagged "DeadlineExceeded" "deadline_exceeded" GUint64].
Definition visualControlType : gotype := GStruct [
  tagged "Submitted" "submitted" GUint64; tagged "Admitted" "admitted" GUint64; tagged "Completed" "completed" GUint64;
  tagged "UpstreamRequests" "upstream_requests" GUint64].
Definition visualProbeType : gotype := GStruct [
  tagged "Scope" "scope" GString; tagged "Submitted" "submitted" GUint64; tagged "Rejected" "rejected" GUint64;
  tagged "StatusCode" "status_code" GUint64; tagged "ErrorCode" "error_code" GString;
  tagged "UpstreamRequests" "upstream_requests" GUint64].
Definition visualProbesType : gotype := GStruct [
  tagged "Tenant" "tenant_capacity" visualProbeType; tagged "Global" "global_capacity" visualProbeType].
Definition visualAccountingType : gotype := GStruct [
  tagged "TotalJobs" "total_jobs" GUint64; tagged "ServiceSubmissions" "service_submissions" GUint64;
  tagged "ControlSubmissions" "control_submissions" GUint64;
  tagged "GlobalProbeSubmissions" "global_probe_submissions" GUint64;
  tagged "TotalUpstreamRequests" "total_upstream_requests" GUint64;
  tagged "Reconciled" "reconciled" GBool; tagged "Boundary" "boundary" GString].
Definition visualTimeoutsType : gotype := GStruct [
  tagged "ExecutionContextMS" "execution_context_ms" GUint64;
  tagged "GracefulAttemptMS" "graceful_cleanup_attempt_ms" GUint64;
  tagged "AbortReserveMS" "abort_cleanup_reserve_ms" GUint64; tagged "MaximumCleanupMS" "maximum_cleanup_ms" GUint64;
  tagged "SeparateCleanupEnvelope" "separate_cleanup_envelope" GBool; tagged "Boundary" "boundary" GString].
Definition visualTenantType : gotype := GStruct [
  tagged "Tenant" "tenant" GString; tagged "Weight" "weight" GUint64; tagged "Submitted" "submitted" GUint64;
  tagged "Admitted" "admitted" GUint64; tagged "Rejected" "rejected" GUint64; tagged "Completed" "completed" GUint64;
  tagged "Canceled" "canceled" GUint64; tagged "DeadlineExceeded" "deadline_exceeded" GUint64;
  tagged "DispatchedRequests" "dispatched_requests" GUint64;
  tagged "DispatchedWorkUnits" "dispatched_work_units" GUint64].
Definition visualDispatchType : gotype := GStruct [
  tagged "Position" "position" GUint64; tagged "Tenant" "tenant" GString; tagged "Weight" "weight" GUint64;
  tagged "WorkUnits" "work_units" GUint64; tagged "Mode" "mode" GString].
Definition visualServiceType : gotype := GStruct [
  tagged "Oracle" "oracle" GString; tagged "OracleMatch" "oracle_match" GBool;
  tagged "Expected" "expected_dispatch" (GSlice visualDispatchType);
  tagged "Observed" "observed_dispatch" (GSlice visualDispatchType);
  tagged "UpstreamRequests" "upstream_requests" GUint64].
Definition visualTimingSampleType : gotype := GStruct [
  tagged "Position" "position" GUint64; tagged "Tenant" "tenant" GString; tagged "Mode" "mode" GString;
  tagged "SubmitToUpstreamDispatchNS" "submit_to_upstream_dispatch_ns" GUint64;
  tagged "UpstreamReleaseToSSEEventNS" "upstream_release_to_first_sse_event_ns" (GPointer GUint64)].
Definition visualTimingType : gotype := GStruct [
  tagged "Clock" "clock" GString; tagged "Thresholds" "thresholds" GBool;
  tagged "OneRunDiagnostics" "one_run_diagnostics" GBool; tagged "ByteReproducible" "byte_reproducible" GBool;
  tagged "Boundary" "boundary" GString; tagged "Samples" "samples" (GSlice visualTimingSampleType)].
Definition visualDigestType : gotype := GStruct [
  tagged "Projection" "projection" GString; tagged "DigestAlgorithm" "digest_algorithm" GString;
  tagged "Digest" "digest" GString; tagged "ExcludesTiming" "excludes_timing" GBool;
  tagged "ByteReproducible" "byte_reproducible" GBool].
Definition visualReportType : gotype := GStruct [
  tagged "SchemaVersion" "schema_version" GUint64; tagged "Profile" "profile" GString; tagged "Seed" "seed" GUint64;
  tagged "GoVersion" "go_version" GString; tagged "OperatingSystem" "operating_system" GString;
  tagged "Architecture" "architecture" GString; tagged "Claims" "claims" visualClaimsType;
  tagged "Topology" "topology" visualTopologyType; tagged "ServiceTotals" "service_totals" visualOutcomesType;
  tagged "Control" "control" visualControlType; tagged "CapacityProbes" "capacity_probes" visualProbesType;
  tagged "Accounting" "accounting" visualAccountingType; tagged "Timeouts" "timeout_envelopes" visualTimeoutsType;
  tagged "Tenants" "tenants" (GSlice visualTenantType); tagged "Service" "service" visualServiceType;
  tagged "Timing" "timing_hooks" visualTimingType; tagged "Categorical" "categorical_evidence" visualDigestType].

#[local] Close Scope string_scope.

(** ** What was decoded *)

Definition claimsOf (c : cell) : reportClaims :=
  mkClaims (cellBool (cellField 0 c)) (cellBool (cellField 1 c)) (cellString (cellField 2 c)) (cellString (cellField 3 c))
    (cellString (cellField 4 c)) (cellString (cellField 5 c)).
Definition topologyOf (c : cell) : topologyReport :=
  mkTopology (cellString (cellField 0 c)) (cellString (cellField 1 c)) (cellBool (cellField 2 c)) (cellBool (cellField 3 c))
    (cellBool (cellField 4 c)) (cellUint (cellField 5 c)) (cellUint (cellField 6 c)) (cellUint (cellField 7 c)).
Definition outcomesOf (c : cell) : outcomeCounts :=
  mkOutcomes (cellUint (cellField 0 c)) (cellUint (cellField 1 c)) (cellUint (cellField 2 c)) (cellUint (cellField 3 c))
    (cellUint (cellField 4 c)) (cellUint (cellField 5 c)).
Definition controlOf (c : cell) : controlReport :=
  mkControl (cellUint (cellField 0 c)) (cellUint (cellField 1 c)) (cellUint (cellField 2 c)) (cellUint (cellField 3 c)).
Definition probeOf (c : cell) : publicErrorProbeReport :=
  mkProbe (cellString (cellField 0 c)) (cellUint (cellField 1 c)) (cellUint (cellField 2 c)) (cellUint (cellField 3 c))
    (cellString (cellField 4 c)) (cellUint (cellField 5 c)).
Definition probesOf (c : cell) : capacityProbeReport := mkProbes (probeOf (cellField 0 c)) (probeOf (cellField 1 c)).
Definition accountingOf (c : cell) : accountingReport :=
  mkAccounting (cellUint (cellField 0 c)) (cellUint (cellField 1 c)) (cellUint (cellField 2 c)) (cellUint (cellField 3 c))
    (cellUint (cellField 4 c)) (cellBool (cellField 5 c)) (cellString (cellField 6 c)).
Definition timeoutsRead (c : cell) : timeoutEnvelopeReport :=
  mkTimeouts (cellUint (cellField 0 c)) (cellUint (cellField 1 c)) (cellUint (cellField 2 c)) (cellUint (cellField 3 c))
    (cellBool (cellField 4 c)) (cellString (cellField 5 c)).
Definition tenantOf (c : cell) : tenantReport :=
  mkTenantReport (cellString (cellField 0 c)) (cellUint (cellField 1 c)) (cellUint (cellField 2 c))
    (cellUint (cellField 3 c)) (cellUint (cellField 4 c)) (cellUint (cellField 5 c)) (cellUint (cellField 6 c))
    (cellUint (cellField 7 c)) (cellUint (cellField 8 c)) (cellUint (cellField 9 c)).
Definition dispatchOf (c : cell) : dispatchRecord :=
  mkRecord (cellUint (cellField 0 c)) (cellString (cellField 1 c)) (cellUint (cellField 2 c)) (cellUint (cellField 3 c))
    (cellString (cellField 4 c)).
Definition serviceOf (c : cell) : serviceReport :=
  mkService (cellString (cellField 0 c)) (cellBool (cellField 1 c)) (map dispatchOf (cellSlice (cellField 2 c)))
    (map dispatchOf (cellSlice (cellField 3 c))) (cellUint (cellField 4 c)).
Definition sampleOf (c : cell) : timingSample :=
  mkSample (cellUint (cellField 0 c)) (cellString (cellField 1 c)) (cellString (cellField 2 c)) (cellUint (cellField 3 c))
    (cellUint <$> cellTarget (cellField 4 c)).
Definition timingOf (c : cell) : timingReport :=
  mkTiming (cellString (cellField 0 c)) (cellBool (cellField 1 c)) (cellBool (cellField 2 c)) (cellBool (cellField 3 c))
    (cellString (cellField 4 c)) (map sampleOf (cellSlice (cellField 5 c))).
Definition digestOf (c : cell) : categoricalEvidence :=
  mkCategorical (cellString (cellField 0 c)) (cellString (cellField 1 c)) (cellString (cellField 2 c))
    (cellBool (cellField 3 c)) (cellBool (cellField 4 c)).
Definition reportOf (c : cell) : saturationReport :=
  mkReport (cellUint (cellField 0 c)) (cellString (cellField 1 c)) (cellUint (cellField 2 c)) (cellString (cellField 3 c))
    (cellString (cellField 4 c)) (cellString (cellField 5 c)) (claimsOf (cellField 6 c)) (topologyOf (cellField 7 c))
    (outcomesOf (cellField 8 c)) (controlOf (cellField 9 c)) (probesOf (cellField 10 c)) (accountingOf (cellField 11 c))
    (timeoutsRead (cellField 12 c)) (map tenantOf (cellSlice (cellField 13 c))) (serviceOf (cellField 14 c))
    (timingOf (cellField 15 c)) (digestOf (cellField 16 c)).

(** ** Keys *)

Fixpoint consumeSaturationVisualJSONValue (fuel : nat) (first : token) : M Decoder bool :=
  match fuel with
  | O => no_fuel
  | S fuel =>
      match first with
      | TDelim delimiter =>
          if delimiter =? c_lbrace then consumeMembers fuel ∅
          else if delimiter =? c_lbracket then consumeElements fuel
          else mret false
      | _ => mret true
      end
  end
with consumeMembers (fuel : nat) (keys : gset (list Z)) : M Decoder bool :=
  match fuel with
  | O => no_fuel
  | S fuel =>
      more ← gets More;
      if (more : bool) then
        keyToken ← dec_Token;
        match keyToken with
        | Ok (TString key) =>
            if bool_decide (key ∈ keys) then mret false else
            value ← dec_Token;
            match value with
            | Err _ => mret false
            | Ok value =>
                ok ← consumeSaturationVisualJSONValue fuel value;
                if negb ok then mret false else consumeMembers fuel ({[key]} ∪ keys)
            end
        | _ => mret false
        end
      else policyClosing c_rbrace
  end
with consumeElements (fuel : nat) : M Decoder bool :=
  match fuel with
  | O => no_fuel
  | S fuel =>
      more ← gets More;
      if (more : bool) then
        value ← dec_Token;
        match value with
        | Err _ => mret false
        | Ok value =>
            ok ← consumeSaturationVisualJSONValue fuel value;
            if negb ok then mret false else consumeElements fuel
        end
      else policyClosing c_rbracket
  end.

(** Every call and every turn of a loop consume a byte. *)
Definition visualFuel (payload : list Z) : nat := (2 * length payload + 3)%nat.

(** [true] when nothing is rejected. *)
Definition rejectSaturationVisualDuplicateKeys (payload : list Z) : comp bool :=
  match Token (newDecoder payload) with
  | (Err _, _) => Done false
  | (Ok first, d) =>
      match consumeSaturationVisualJSONValue (visualFuel payload) first d with
      | Done (true, d) => Done match Token d with (Err jsonEOF, _) => true | _ => false end
      | Done (false, _) => Done false
      | Panicked msg => Panicked msg
      | OutOfFuel => OutOfFuel
      end
  end.

(** ** Validation *)

Definition visualProjectionFromReport (report : saturationReport) : categoricalProjection :=
  mkProjection (rp_SchemaVersion report) (rp_Profile report) (rp_Seed report) (rp_Topology report)
    (rp_ServiceTotals report) (rp_Control report) (rp_CapacityProbes report) (rp_Accounting report)
    (rp_Timeouts report) (rp_Tenants report)
    (mkService (sv_Oracle (rp_Service report)) (sv_OracleMatch (rp_Service report)) (sv_Expected (rp_Service report))
       (sv_Observed (rp_Service report)) (sv_UpstreamRequests (rp_Service report))).

(** The encoder has no error for these types. *)
Definition visualProjectionDigest (projection : categoricalProjection) : gostring :=
  hex_EncodeToString (sha256_Sum256 (marshal (categoricalProjection_json projection))).

Definition visualClaimsExpected : reportClaims :=
  mkClaims false false visualSaturationScope (bs "diagnostic intervals without thresholds or service-level claims")
    (bs "SSE wire-order observation only; no timeout or backpressure claim")
    (bs "compact JSON with stable struct field order").
Definition visualTopologyExpected : topologyReport :=
  mkTopology (bs "production parser, scheduler, HTTP relay, and server") (bs "HTTP/1 over numeric loopback")
    true true true 1 20 10.
Definition visualTimeoutsExpected : timeoutEnvelopeReport :=
  mkTimeouts 30000 9000 10000 19000 true
    (bs "the execution context and subsequent cleanup waits use separate bounded envelopes, " ++ bs "not one wall-clock deadline").
Definition visualDigestExpected : categoricalEvidence :=
  mkCategorical (bs "seeded accounting and dispatch trace") (bs "SHA-256") visualSaturationDigest true true.

#[export] Instance categoricalEvidence_eq_dec : EqDecision categoricalEvidence.
Proof. solve_decision. Defined.

(** The two probes, but for their scopes. *)
Definition probesExpected (probes : capacityProbeReport) : bool :=
  let tenant := cp_Tenant probes in
  let global := cp_Global probes in
  (pb_Submitted tenant =? 2) && (pb_Rejected tenant =? 2) && (pb_StatusCode tenant =? 429)
  && bool_decide (pb_ErrorCode tenant = bs "tenant_capacity_exhausted") && (pb_UpstreamRequests tenant =? 0)
  && (pb_Submitted global =? 1) && (pb_Rejected global =? 1) && (pb_StatusCode global =? 503)
  && bool_decide (pb_ErrorCode global = bs "overloaded") && (pb_UpstreamRequests global =? 0).

Definition accountingExpected (accounting : accountingReport) : bool :=
  (ac_TotalJobs accounting =? visualSaturationMaximumJobs) && (ac_ServiceSubmissions accounting =? 26)
  && (ac_ControlSubmissions accounting =? 1) && (ac_GlobalProbeSubmissions accounting =? 1)
  && (ac_TotalUpstreamRequests accounting =? 21) && ac_Reconciled accounting
  && bool_decide (ac_Boundary accounting =
       bs "service_totals include two tenant-capacity probes; control and the global-capacity probe are separate").

(** The two tenants, in order. *)
Definition tenantsExpected (tenants : list tenantReport) : bool :=
  match tenants with
  | [a; b] =>
      bool_decide (tr_Tenant a = bs "tenant-a") && (tr_Weight a =? 1)
      && bool_decide (tr_Tenant b = bs "tenant-b") && (tr_Weight b =? 3)
  | _ => false
  end.

Definition tenantExpected (tenant : tenantReport) : bool :=
  (tr_Submitted tenant =? 13) && (tr_Admitted tenant =? 12) && (tr_Rejected tenant =? 1) && (tr_Completed tenant =? 10)
  && (tr_Canceled tenant =? 1) && (tr_DeadlineExceeded tenant =? 1) && (tr_DispatchedRequests tenant =? 10)
  && negb (tr_DispatchedWorkUnits tenant =? 0)
  && (tr_Submitted tenant =? tr_Admitted tenant +u tr_Rejected tenant)
  && (tr_Admitted tenant =? tr_Completed tenant +u tr_Canceled tenant +u tr_DeadlineExceeded tenant).

Definition serviceExpected (report : saturationReport) : bool :=
  let service := rp_Service report in
  let timing := rp_Timing report in
  bool_decide (sv_Oracle service = bs "independent bounded weighted deficit round-robin state machine")
  && sv_OracleMatch service && (length (sv_Expected service) =? 20)%nat
  && bool_decide (sv_Expected service = sv_Observed service) && (sv_UpstreamRequests service =? 20)
  && (length (tm_Samples timing) =? 20)%nat && bool_decide (tm_Clock timing = bs "process monotonic intervals")
  && negb (tm_Thresholds timing) && tm_OneRunDiagnostics timing && negb (tm_ByteReproducible timing)
  && bool_decide (tm_Boundary timing =
       bs "submit-to-dispatch includes the deliberate control hold plus ingress, queue, and scheduler time").

(** One iteration over the observed dispatches. *)
Definition dispatchExpected (samples : list timingSample) (index : nat) (dispatch : dispatchRecord) : comp bool :=
  if negb (rec_Position dispatch =? Z.of_nat (index + 1)) || (rec_WorkUnits dispatch =? 0) || (320 <? rec_WorkUnits dispatch)
     || (negb (bool_decide (rec_Tenant dispatch = bs "tenant-a")) && negb (bool_decide (rec_Tenant dispatch = bs "tenant-b")))
     || (negb (rec_Weight dispatch =? 1) && negb (rec_Weight dispatch =? 3))
     || (negb (bool_decide (rec_Mode dispatch = bs "buffered")) && negb (bool_decide (rec_Mode dispatch = bs "sse")))
  then Done false
  else
    match samples !! index with
    | None => Panicked "index out of range"
    | Some sample =>
        let streams := bool_decide (rec_Mode dispatch = bs "sse") in
        let timed := negb (bool_decide (ts_UpstreamReleaseToSSEEventNS sample = None)) in
        Done ((ts_Position sample =? rec_Position dispatch) && bool_decide (ts_Tenant sample = rec_Tenant dispatch)
          && bool_decide (ts_Mode sample = rec_Mode dispatch) && negb (streams && negb timed) && negb (negb streams && timed))
    end.

Fixpoint dispatchesExpected (samples : list timingSample) (index : nat) (dispatches : list dispatchRecord) : comp bool :=
  match dispatches with
  | [] => Done true
  | dispatch :: dispatches =>
      match dispatchExpected samples index dispatch with
      | Done true => dispatchesExpected samples (S index) dispatches
      | r => r
      end
  end.

(** The conditions before the loop over the dispatches. *)
Definition visualHeaded (report : saturationReport) : bool :=
  (rp_SchemaVersion report =? 3) && bool_decide (rp_Profile report = visualSaturationProfile)
  && (rp_Seed report =? visualSaturationSeed) && bool_decide (rp_GoVersion report = visualExpectedGo)
  && bool_decide (rp_OperatingSystem report = visualExpectedOS) && bool_decide (rp_Architecture report = bs "amd64")
  && bool_decide (rp_Claims report = visualClaimsExpected) && bool_decide (rp_Topology report = visualTopologyExpected)
  && bool_decide (rp_ServiceTotals report = mkOutcomes 26 24 2 20 2 2) && bool_decide (rp_Control report = mkControl 1 1 1 1)
  && probesExpected (rp_CapacityProbes report) && accountingExpected (rp_Accounting report)
  && bool_decide (rp_Timeouts report = visualTimeoutsExpected) && tenantsExpected (rp_Tenants report)
  && forallb tenantExpected (rp_Tenants report) && serviceExpected report.

Definition validateSaturationVisualReport (report : saturationReport) : comp (result saturationVisualError unit) :=
  if negb (visualHeaded report) then Done (Err errSaturationVisual)
  else
    match dispatchesExpected (tm_Samples (rp_Timing report)) 0 (sv_Observed (rp_Service report)) with
    | Panicked msg => Panicked msg
    | OutOfFuel => OutOfFuel
    | Done false => Done (Err errSaturationVisual)
    | Done true =>
        let digest := visualProjectionDigest (visualProjectionFromReport report) in
        if negb (bool_decide (rp_Categorical report = visualDigestExpected))
           || negb (bool_decide (digest = ce_Digest (rp_Categorical report)))
        then Done (Err errSaturationVisual) else Done (Ok tt)
    end.

(** ** Decoding *)

Definition decodeSaturationVisualReport (payload : list Z) : comp (result saturationVisualError saturationReport) :=
  if bool_decide (payload = []) || (visualSaturationMaxStdout <? Z.of_nat (length payload))
     || negb (bool_decide (last payload = Some c_lf)) || negb (length (filter (fun c => c = c_lf) payload) =? 1)%nat
  then Done (Err errSaturationVisual)
  else
    match rejectSaturationVisualDuplicateKeys payload with
    | Panicked msg => Panicked msg
    | OutOfFuel => OutOfFuel
    | Done false => Done (Err errSaturationVisual)
    | Done true =>
        match decodeFresh visualReportType payload with
        | None => Done (Err errSaturationVisual)
        | Some (decoded, d) =>
            match Token d with
            | (Err jsonEOF, _) =>
                let report := reportOf decoded in
                match validateSaturationVisualReport report with
                | Done (Ok _) => Done (Ok report)
                | Done (Err e) => Done (Err e)
                | Panicked msg => Panicked msg
                | OutOfFuel => OutOfFuel
                end
            | _ => Done (Err errSaturationVisual)
            end
        end
    end.

(** ** Evidence *)

Record saturationVisualEvidence := mkVisualEvidence {
  ve_Schema : gostring;
  ve_Scope : gostring;
  ve_Toolchain : gostring;
  ve_Platform : gostring;
  ve_Architecture : gostring;
  ve_PerformanceClaim : bool;
  ve_DiagnosticTimingsIncluded : bool;
  ve_Projection : categoricalProjection;
  ve_Categorical : categoricalEvidence;
}.

#[local] Open Scope string_scope.

Definition saturationVisualEvidence_json (e : saturationVisualEvidence) : jtree := jobject [
  ("schema", jstring (ve_Schema e)); ("scope", jstring (ve_Scope e)); ("toolchain", jstring (ve_Toolchain e));
  ("platform", jstring (ve_Platform e)); ("architecture", jstring (ve_Architecture e));
  ("performance_claim", jbool (ve_PerformanceClaim e));
  ("diagnostic_timings_included", jbool (ve_DiagnosticTimingsIncluded e));
  ("categorical_projection", categoricalProjection_json (ve_Projection e));
  ("categorical_evidence", categoricalEvidence_json (ve_Categorical e))].

#[local] Close Scope string_scope.

Definition validateSaturationVisualEvidence (e : saturationVisualEvidence) : result saturationVisualError unit :=
  let projection := ve_Projection e in
  if negb (bool_decide (ve_Schema e = visualSaturationSchema)) || negb (bool_decide (ve_Scope e = visualSaturationScope))
     || negb (bool_decide (ve_Toolchain e = visualExpectedGo)) || negb (bool_decide (ve_Platform e = visualExpectedOS))
     || negb (bool_decide (ve_Architecture e = bs "amd64")) || ve_PerformanceClaim e || ve_DiagnosticTimingsIncluded e
     || negb (pj_SchemaVersion projection =? 3) || negb (bool_decide (pj_Profile projection = visualSaturationProfile))
     || negb (pj_Seed projection =? visualSaturationSeed) || negb (ac_Reconciled (pj_Accounting projection))
     || negb (sv_OracleMatch (pj_Service projection))
     || negb (bool_decide (sv_Expected (pj_Service projection) = sv_Observed (pj_Service projection)))
     || negb (bool_decide (ve_Categorical e = visualDigestExpected))
  then Err errSaturationVisual
  else if negb (bool_decide (visualProjectionDigest projection = ce_Digest (ve_Categorical e)))
  then Err errSaturationVisual else Ok tt.

Definition saturationVisualEvidenceFromReport (report : saturationReport)
    : comp (result saturationVisualError saturationVisualEvidence) :=
  match validateSaturationVisualReport report with
  | Panicked msg => Panicked msg
  | OutOfFuel => OutOfFuel
  | Done (Err e) => Done (Err e)
  | Done (Ok _) =>
      let evidence := mkVisualEvidence visualSaturationSchema (cl_Scope (rp_Claims report)) (rp_GoVersion report)
        (rp_OperatingSystem report) (rp_Architecture report) false false (visualProjectionFromReport report)
        (rp_Categorical report) in
      match validateSaturationVisualEvidence evidence with
      | Err e => Done (Err e)
      | Ok _ => Done (Ok evidence)
      end
  end.

(** ** Output that is kept *)

Record visualBoundedBuffer := mkBounded {
  vb_buffer : list Z;
  vb_limit : Z;
  vb_exceeded : bool;
}.

(** [Write]; [None] is the nil buffer. What is returned is the number of bytes that
    were taken, which is all of them, and the error. *)
Definition bounded_Write (payload : list Z) (buffer : option visualBoundedBuffer)
    : result saturationVisualError Z * option visualBoundedBuffer :=
  match buffer with
  | None => (Err errSaturationVisual, None)
  | Some b =>
      if vb_limit b <? 0 then (Err errSaturationVisual, buffer)
      else
        let remaining := vb_limit b - Z.of_nat (length (vb_buffer b)) in
        if remaining <? Z.of_nat (length payload)
        then (Ok (Z.of_nat (length payload)),
              Some (mkBounded (if 0 <? remaining then vb_buffer b ++ take (Z.to_nat remaining) payload else vb_buffer b)
                      (vb_limit b) true))
        else (Ok (Z.of_nat (length payload)), Some (mkBounded (vb_buffer b ++ payload) (vb_limit b) (vb_exceeded b)))
  end.

Definition bounded_Bytes (buffer : option visualBoundedBuffer) : list Z :=
  match buffer with None => [] | Some b => vb_buffer b end.

(** What a buffer of this limit holds after some writes. *)
Definition collect (limit : Z) (writes : list (list Z)) : visualBoundedBuffer :=
  foldl (fun b payload => match snd (bounded_Write payload (Some b)) with Some b => b | None => b end)
    (mkBounded [] limit false) writes.

(** ** The run *)

(** A process that is started: what it is, where it runs, with which environment, and
    after how long it is killed. *)
Record visualCommand := mkCommand {
  vc_path : gostring;
  vc_args : list gostring;
  vc_dir : gostring;
  vc_env : list gostring;
  vc_timeout : Z;
}.

(** How it went: what it wrote on its two streams, in pieces; whether [Run] returned an
    error; the exit code, if there is a state of the process. *)
Record visualOutcome := mkOutcome {
  vo_stdout : list (list Z);
  vo_stderr : list (list Z);
  vo_failed : bool;
  vo_exit : option Z;
}.

(** The machine: the root directory of Go; [filepath.Abs], [os.MkdirTemp], [os.Chmod] and
    [os.RemoveAll], with [None] and [false] for an error; what [os.Stat] says of a path,
    which is whether it is a regular file and its permissions; and how a command goes,
    after what was done before. *)
Inductive visualAct :=
| madeDirectory (path : gostring)
| madePrivate (path : gostring)
| ranCommand (command : visualCommand)
| removedDirectory (path : gostring).

Record visualMachine := mkMachine {
  vm_goroot : gostring;
  vm_Abs : gostring -> option gostring;
  vm_MkdirTemp : gostring -> option gostring;
  vm_Chmod : gostring -> bool;
  vm_Stat : gostring -> option (bool * Z);
  vm_Run : list visualAct -> visualCommand -> visualOutcome;
  vm_RemoveAll : gostring -> bool;
}.

(** [filepath.Join] of a clean directory and a plain name. *)
Definition joinPath (directory name : gostring) : gostring :=
  if bool_decide (directory = bs "/") then directory ++ name else directory ++ bs "/" ++ name.

Definition buildCommand (goroot root private : gostring) : visualCommand :=
  mkCommand (joinPath (joinPath goroot (bs "bin")) (bs "go"))
    [bs "build"; bs "-trimpath"; bs "-o"; joinPath private (bs "run-saturation"); bs "./tools/run_saturation"] root
    [bs "CGO_ENABLED=0"; bs "GOCACHE=" ++ joinPath private (bs "go-cache"); bs "GOENV=off"; bs "GOFLAGS=";
     bs "GOMODCACHE=" ++ joinPath private (bs "module-cache"); bs "GOPATH=" ++ joinPath private (bs "gopath");
     bs "GOTOOLCHAIN=local"; bs "GOWORK=off"; bs "HOME=" ++ private; bs "LANG=C"; bs "LC_ALL=C"]
    visualSaturationBuildTimeout.

Definition harnessCommand (root private : gostring) : visualCommand :=
  mkCommand (joinPath private (bs "run-saturation"))
    [bs "--profile=" ++ visualSaturationProfile; bs "--seed=20260725"] root
    [bs "HOME=/nonexistent"; bs "LANG=C"; bs "LC_ALL=C"] visualSaturationProcessTimeout.

(** Whether the command ended well: no error, nothing cut off, nothing on the second
    stream, code 0. *)
Definition endedWell (o : visualOutcome) (limit : Z) : bool :=
  negb (vo_failed o) && negb (vb_exceeded (collect limit (vo_stdout o)))
  && negb (vb_exceeded (collect visualSaturationMaxStderr (vo_stderr o)))
  && bool_decide (vb_buffer (collect visualSaturationMaxStderr (vo_stderr o)) = [])
  && match vo_exit o with Some code => code =? 0 | None => false end.

Section run.
Context (V : visualMachine).

(** The body of [runSaturationVisual] once the directory is there. *)
Definition runInPrivate (root private : gostring)
    : M (list visualAct) (result saturationVisualError saturationVisualEvidence) := fun acts =>
  if negb (vm_Chmod V private) then Done (Err errSaturationVisual, acts)
  else
    let acts := acts ++ [madePrivate private] in
    let build := buildCommand (vm_goroot V) root private in
    let built := vm_Run V acts build in
    let acts := acts ++ [ranCommand build] in
    if negb (endedWell built visualSaturationMaxStderr)
       || negb (bool_decide (vb_buffer (collect visualSaturationMaxStderr (vo_stdout built)) = []))
    then Done (Err errSaturationVisual, acts)
    else
      match vm_Stat V (vc_path (harnessCommand root private)) with
      | None => Done (Err errSaturationVisual, acts)
      | Some (regular, permissions) =>
          if negb regular || (Z.land permissions 64 =? 0) then Done (Err errSaturationVisual, acts)
          else
            let command := harnessCommand root private in
            let ran := vm_Run V acts command in
            let acts := acts ++ [ranCommand command] in
            if negb (endedWell ran visualSaturationMaxStdout) then Done (Err errSaturationVisual, acts)
            else
              match decodeSaturationVisualReport (vb_buffer (collect visualSaturationMaxStdout (vo_stdout ran))) with
              | Panicked msg => Panicked msg
              | OutOfFuel => OutOfFuel
              | Done (Err _) => Done (Err errSaturationVisual, acts)
              | Done (Ok report) =>
                  match saturationVisualEvidenceFromReport report with
                  | Panicked msg => Panicked msg
                  | OutOfFuel => OutOfFuel
                  | Done (Err _) => Done (Err errSaturationVisual, acts)
                  | Done (Ok evidence) => Done (Ok evidence, acts)
                  end
              end
      end.

(** [live] says that the parent context is there and has not ended. The directory is
    removed on every return; when it cannot be, the result is an error. *)
Definition runSaturationVisual (live : bool) (root : gostring)
    : M (list visualAct) (result saturationVisualError saturationVisualEvidence) := fun acts =>
  if negb live then Done (Err errSaturationVisual, acts)
  else
    match vm_Abs V root with
    | None => Done (Err errSaturationVisual, acts)
    | Some root =>
        match vm_MkdirTemp V root with
        | None => Done (Err errSaturationVisual, acts)
        | Some private =>
            match runInPrivate root private (acts ++ [madeDirectory private]) with
            | Panicked msg => Panicked msg
            | OutOfFuel => OutOfFuel
            | Done (r, acts) =>
                if vm_RemoveAll V private then Done (r, acts ++ [removedDirectory private])
                else Done (Err errSaturationVisual, acts)
            end
        end
    end.
End run.

(** ** Keys: correctness

    The check of the keys is the scan of package [contract] at a depth that no text
    reaches, so it comes to an answer: whether the text is a document that repeats no
    key in any object. *)

(** [m] does to the decoder what [n] does, if [n] comes to an answer. *)
Definition scans_upto (m : M Decoder bool) (n : M contextDecoder (option Reason)) (d : Decoder) : Prop :=
  match n (bgd d) with
  | Done (r, s) => s = bgd (cd_dec s) /\ m d = Done (is_none r, cd_dec s)
  | OutOfFuel => True
  | Panicked _ => False
  end.

Lemma upto_as m n d : scans_as m n d -> scans_upto m n d.
Proof. unfold scans_as, scans_upto. by destruct (n (bgd d)) as [[r s]| |]. Qed.

Lemma upto_bind m n (f : bool -> M Decoder bool) (g : option Reason -> M contextDecoder (option Reason)) d :
  scans_upto m n d -> (forall r d, scans_upto (f (is_none r)) (g r) d) -> scans_upto (m ≫= f) (n ≫= g) d.
Proof.
  unfold scans_upto at 1 3. unfold mbind, M_bind. destruct (n (bgd d)) as [[r s]| |]; [|done|done].
  intros [Hs ->] Hf. specialize (Hf r (cd_dec s)). unfold scans_upto in Hf. by rewrite <- Hs in Hf.
Qed.

Lemma upto_Token f g d :
  (forall t d', Token d = (Ok t, d') -> scans_upto (f (Ok t)) (g (Ok t)) d') ->
  (forall e d', Token d = (Err e, d') -> scans_upto (f (Err e)) (g (Err (tokenJson e))) d') ->
  scans_upto (dec_Token ≫= f) (cd_Token ≫= g) d.
Proof.
  intros Hok Herr. unfold scans_upto, mbind, M_bind. rewrite cd_Token_run. unfold dec_Token.
  destruct (Token d) as [[t|e] d']; [by apply Hok|by apply Herr].
Qed.

Lemma upto_More f g d : scans_upto (f (More d)) (g (More d)) d -> scans_upto (gets More ≫= f) (cd_More ≫= g) d.
Proof. intros H. unfold scans_upto, mbind, M_bind. by rewrite cd_More_bg. Qed.

(** A value that is read and consumed. *)
Definition consumeNext (fuel : nat) : M Decoder bool :=
  value ← dec_Token;
  match value with
  | Err _ => mret false
  | Ok value => consumeSaturationVisualJSONValue fuel value
  end.

Lemma upto_next fuel (k : M Decoder bool) n (g : option Reason -> M contextDecoder (option Reason)) d :
  scans_upto (consumeNext fuel) n d ->
  (forall d, scans_upto k (g None) d) -> (forall r d, scans_upto (mret false) (g (Some r)) d) ->
  scans_upto (value ← dec_Token;
    match value with
    | Err _ => mret false
    | Ok value => ok ← consumeSaturationVisualJSONValue fuel value; if negb ok then mret false else k
    end) (n ≫= g) d.
Proof.
  intros Hn Hk Hr.
  assert (H : scans_upto (ok ← consumeNext fuel; if negb ok then mret false else k) (n ≫= g) d).
  { apply upto_bind; [exact Hn|]. intros [r|] d'; [apply Hr|apply Hk]. }
  unfold scans_upto in H |- *. unfold mbind, M_bind in H |- *. unfold consumeNext, mbind, M_bind, dec_Token in H.
  unfold dec_Token. destruct (Token d) as [[t|e] d']; exact H.
Qed.

Lemma consume_agrees maximum fuel : forall depth, depth + Z.of_nat fuel <= maximum ->
  (forall d, scans_upto (consumeNext fuel) (scanJSONValue fuel depth maximum) d)
  /\ (forall keys d, scans_upto (consumeMembers fuel keys) (scanObject fuel depth maximum keys) d)
  /\ (forall d, scans_upto (consumeElements fuel) (scanArray fuel depth maximum) d).
Proof.
  induction fuel as [|fuel IH]; intros depth Hd; [done|].
  split; [|split]; intros; cbn [consumeMembers consumeElements scanJSONValue scanObject scanArray].
  - replace (maximum <? depth) with false by lia. apply upto_Token; intros; [|by apply upto_as, scans_ret].
    cbn [consumeSaturationVisualJSONValue]. destruct t; try by apply upto_as, scans_ret.
    destruct (IH depth ltac:(lia)) as (_ & Ho & Ha).
    destruct (c =? c_lbrace); [apply Ho|]. destruct (c =? c_lbracket); [apply Ha|by apply upto_as, scans_ret].
  - apply upto_More. destruct (More d); [|apply upto_as, scans_closing].
    apply upto_Token; intros; [|by apply upto_as, scans_ret]. destruct t; try by apply upto_as, scans_ret.
    case_bool_decide; [by apply upto_as, scans_ret|]. destruct (IH (depth + 1) ltac:(lia)) as (Hv & _).
    destruct (IH depth ltac:(lia)) as (_ & Ho & _). apply upto_next; [apply Hv|apply Ho|intros; by apply upto_as, scans_ret].
  - apply upto_More. destruct (More d); [|apply upto_as, scans_closing]. destruct (IH (depth + 1) ltac:(lia)) as (Hv & _).
    destruct (IH depth ltac:(lia)) as (_ & _ & Ha). apply upto_next; [apply Hv|apply Ha|intros; by apply upto_as, scans_ret].
Qed.

(** No object of the tree repeats a key. *)
Fixpoint unique_keys (t : jtree) : bool :=
  match t with
  | JScalar _ => true
  | JArr l => forallb unique_keys l
  | JObj l => bool_decide (NoDup (map fst l)) && forallb (fun kv => unique_keys (snd kv)) l
  end.

Lemma tree_ok_unique maximum t : forall depth, tree_ok maximum depth t = true -> unique_keys t = true.
Proof.
  induction t as [t|l IH|l IH] using jtree_nested_ind; intros depth; cbn [tree_ok unique_keys]; [done|..];
    rewrite !andb_true_iff; intros [_ H].
  - apply forallb_forall. intros t Ht. rewrite forallb_forall in H. rewrite Forall_forall in IH.
    by eapply IH; [apply list_elem_of_In|apply H].
  - destruct H as [Hn H]. split; [done|]. apply forallb_forall. intros kv Ht. rewrite forallb_forall in H.
    rewrite Forall_forall in IH. by eapply IH; [apply list_elem_of_In|apply H].
Qed.

(** No tree is deeper than its text is long. *)
Lemma text_depth maximum :
  (forall t text, value_text t text -> forall depth, unique_keys t = true ->
    depth + Z.of_nat (length text) <= maximum -> tree_ok maximum depth t = true)
  /\ (forall first l text, arr_text first l text -> forall depth, forallb unique_keys l = true ->
    depth + Z.of_nat (length text) <= maximum -> forallb (tree_ok maximum depth) l = true)
  /\ (forall first l text, obj_text first l text -> forall depth, forallb (fun kv => unique_keys (snd kv)) l = true ->
    depth + Z.of_nat (length text) <= maximum -> forallb (fun kv => tree_ok maximum depth (snd kv)) l = true).
Proof.
  apply json_text_ind; try done.
  - intros t text _ depth _ Hd. cbn. apply andb_true_iff. split; [lia|done].
  - intros l text _ IH depth Hu Hd. cbn [unique_keys tree_ok length] in *. apply andb_true_iff. split; [lia|]. apply IH; [done|lia].
  - intros l text _ IH depth Hu Hd. cbn [unique_keys tree_ok length] in *. apply andb_true_iff in Hu as [Hn Hu].
    rewrite Hn. apply andb_true_iff. split; [lia|]. cbn [andb]. apply IH; [done|lia].
  - intros first pre t text l rest _ _ IHt _ IHl depth Hu Hd. rewrite !length_app in Hd. cbn [forallb] in *.
    apply andb_true_iff in Hu as [Hu1 Hu2]. apply andb_true_iff. split; [apply IHt; [done|lia]|apply IHl; [done|lia]].
  - intros first pre key ktext colon t text l rest _ _ _ _ IHt _ IHl depth Hu Hd. rewrite !length_app in Hd.
    cbn [forallb fst snd] in *. apply andb_true_iff in Hu as [Hu1 Hu2]. apply andb_true_iff.
    split; [apply IHt; [done|lia]|apply IHl; [done|lia]].
Qed.

Definition deepest (payload : list Z) : Z := Z.of_nat (visualFuel payload) + 1.

Lemma reject_agrees payload :
  match validateJSONDocument payload (deepest payload) background with
  | Done (r, _) => rejectSaturationVisualDuplicateKeys payload = Done (is_none r)
  | _ => False
  end.
Proof.
  destruct (validateJSONDocument_total payload (deepest payload) background) as (r & ctx & Hrun). rewrite Hrun.
  unfold validateJSONDocument, withDecoder, validateDecoder, newContextDecoder in Hrun. fold (bgd (newDecoder payload)) in Hrun.
  change (scanFuel payload) with (visualFuel payload) in Hrun.
  pose proof (proj1 (consume_agrees (deepest payload) (visualFuel payload) 1 ltac:(unfold deepest; lia)) (newDecoder payload)) as H.
  unfold scans_upto in H. unfold mbind at 1, M_bind at 1 in Hrun.
  destruct (scanJSONValue _ _ _ _) as [[reason s]| |]; [|done|done]. destruct H as [Hs H].
  unfold rejectSaturationVisualDuplicateKeys. unfold consumeNext, mbind, M_bind, dec_Token in H.
  destruct (Token (newDecoder payload)) as [[first|e] d]; [|].
  - rewrite H. destruct reason as [reason|]; cbn [is_none].
    + cbn in Hrun. by injection Hrun as <- _.
    + rewrite Hs in Hrun. unfold mbind, M_bind in Hrun. rewrite cd_Token_run in Hrun.
      destruct (Token (cd_dec s)) as [[t|[]] d']; cbn in Hrun; by injection Hrun as <- _.
  - injection H as Hr _. destruct reason as [reason|]; [|done]. cbn in Hrun. by injection Hrun as <- _.
Qed.

(** The check comes to an answer: whether this is a document that repeats no key. *)
Lemma reject_exact payload : exists b, rejectSaturationVisualDuplicateKeys payload = Done b /\
  (b = true <-> exists t, document_text t payload /\ unique_keys t = true).
Proof.
  pose proof (reject_agrees payload) as H.
  destruct (validateJSONDocument payload (deepest payload) background) as [[r ctx]| |] eqn:Hrun; [|done|done].
  exists (is_none r). split; [exact H|]. split.
  - destruct r as [r|]; [done|]. intros _. destruct (validateJSONDocument_sound _ _ _ Hrun) as (t & Hd & Hok).
    exists t. split; [exact Hd|]. exact (tree_ok_unique _ _ _ Hok).
  - intros (t & Hd & Hu). assert (Hok : tree_ok (deepest payload) 1 t = true).
    { destruct Hd as (w1 & text & w2 & _ & Ht & _ & ->). eapply (proj1 (text_depth _)); [exact Ht|exact Hu|].
      unfold deepest, visualFuel. rewrite !length_app. lia. }
    rewrite (validateJSONDocument_complete _ _ _ Hd Hok) in Hrun. by injection Hrun as <- _.
Qed.

(** ** Decoding what was written *)

(** The value decodes to [c] in a fresh variable of the type. *)
Definition fresh (t : gotype) (value : jtree) (c : cell) : Prop := decodeOver value t (zeroCell t) = Some c.

Lemma fresh_string s : fresh GString (jstring s) (CString s).
Proof. done. Qed.
Lemma fresh_bool b : fresh GBool (jbool b) (CBool b).
Proof. done. Qed.
Lemma fresh_uint n : is_u64 n -> fresh GUint64 (junsigned n) (CUint n).
Proof. intros Hn. unfold fresh, junsigned. cbn [decodeOver through]. by rewrite (parseUint_format n Hn). Qed.
Lemma fresh_pointer n : from_option is_u64 True n ->
  fresh (GPointer GUint64) (match n with Some n => junsigned n | None => JScalar TNull end) (CPointer (CUint <$> n)).
Proof.
  destruct n as [n|]; [|done]. intros Hn. unfold fresh, junsigned. cbn [decodeOver through zeroCell].
  by rewrite (parseUint_format n Hn).
Qed.

(** An object with a member for each field, in order. *)
Inductive filled : list gofield -> list (list Z * jtree) -> list cell -> Prop :=
| filled_nil : filled [] [] []
| filled_cons field fields key value object c cells :
    jsonName field = Some key -> fresh (snd field) value c -> filled fields object cells ->
    filled (field :: fields) ((key, value) :: object) (c :: cells).

Lemma members_filled all fields object cells : filled fields object cells -> forall before done_,
  all = before ++ fields -> length done_ = length before -> NoDup (map jsonName all) ->
  membersOver decodeOver all object (done_ ++ map (fun field => zeroCell (snd field)) fields) = Some (CStruct (done_ ++ cells)).
Proof.
  induction 1 as [|field fields key value object c cells Hk Hc _ IH]; intros before done_ Hall Hl Hnd.
  { cbn. by rewrite app_nil_r. }
  cbn [membersOver fst snd map].
  destruct (fieldIndex_named all field key Hnd) as (i & Hi & Hat); [rewrite Hall; apply elem_of_app; right; left|exact Hk|].
  assert (i = length before) as ->.
  { apply (NoDup_lookup (map jsonName all) i (length before) (Some key) Hnd).
    - by rewrite list_lookup_fmap, Hat, <- Hk.
    - rewrite list_lookup_fmap, Hall, (list_lookup_middle _ _ field) by done. by rewrite <- Hk. }
  rewrite Hi. cbn [mbind option_bind]. rewrite <- Hl at 1. rewrite list_lookup_middle by done. cbn [default].
  unfold fresh in Hc. cbn [from_option id]. rewrite Hc. cbn [mbind option_bind].
  rewrite <- Hl, insert_app_r_alt by lia. rewrite Nat.sub_diag. cbn [insert list_insert].
  specialize (IH (before ++ [field]) (done_ ++ [c])). rewrite <- !app_assoc in IH. cbn [app] in IH.
  apply IH; [done|rewrite !length_app; cbn; lia|done].
Qed.

Lemma fresh_object fields object cells : bool_decide (NoDup (map jsonName fields)) = true ->
  filled fields (map (fun field => (bs (fst field), snd field)) object) cells ->
  fresh (GStruct fields) (jobject object) (CStruct cells).
Proof. intros Hnd%bool_decide_eq_true Hf. exact (members_filled fields fields _ cells Hf [] [] eq_refl eq_refl Hnd). Qed.

Lemma elements_fresh {A} elem (json : A -> jtree) (kept : A -> cell) l : Forall (fun x => fresh elem (json x) (kept x)) l ->
  forall cells, elementsOver decodeOver elem (map json l) (length cells) cells
  = Some (CSlice (length cells + length l) (cells ++ map kept l)).
Proof.
  induction 1 as [|x l Hx _ IH]; intros cells; cbn [map elementsOver length].
  - rewrite app_nil_r, Nat.add_0_r. by destruct cells.
  - rewrite (lookup_ge_None_2 cells) by lia. cbn [default from_option]. unfold fresh in Hx. rewrite Hx. cbn [mbind option_bind].
    rewrite Nat.ltb_irrefl. specialize (IH (cells ++ [kept x])). rewrite length_app in IH. cbn [length] in IH.
    rewrite Nat.add_1_r in IH. rewrite IH. rewrite <- app_assoc. do 2 f_equal. lia.
Qed.

Lemma fresh_slice {A} elem (json : A -> jtree) (kept : A -> cell) l : Forall (fun x => fresh elem (json x) (kept x)) l ->
  fresh (GSlice elem) (JArr (map json l)) (CSlice (length l) (map kept l)).
Proof. intros Hl. exact (elements_fresh elem json kept l Hl []). Qed.

Ltac fill := apply fresh_object; [by vm_compute|]; cbn [map fst snd];
  repeat (apply filled_cons; [by vm_compute|cbn [snd tagged]|]); [..|exact filled_nil].
Ltac leaf :=
  match goal with
  | H : fresh ?t ?v _ |- fresh ?t ?v _ => exact H
  | |- fresh GString _ _ => exact (fresh_string _)
  | |- fresh GBool _ _ => exact (fresh_bool _)
  | |- fresh GUint64 _ _ => apply fresh_uint; assumption
  | |- fresh (GPointer GUint64) _ _ => apply fresh_pointer; assumption
  end.

(** A value that decodes to a cell that is read as [x]. *)
Definition reads {A} (t : gotype) (read : cell -> A) (value : jtree) (x : A) : Prop :=
  exists c, fresh t value c /\ read c = x.

Lemma reads_slice {A} elem (read : cell -> A) (json : A -> jtree) l : Forall (fun x => reads elem read (json x) x) l ->
  reads (GSlice elem) (fun c => map read (cellSlice c)) (JArr (map json l)) l.
Proof.
  intros Hl. assert (exists kept, length kept = length l /\ Forall2 (fun x c => fresh elem (json x) c /\ read c = x) l kept)
    as (kept & Hlen & Hk).
  { induction Hl as [|x l (c & Hc) _ (kept & Hlen & Hk)]; [by exists []|]. exists (c :: kept). split; [cbn; lia|by constructor]. }
  exists (CSlice (length l) kept). split.
  - assert (H : forall l kept, Forall2 (fun x c => fresh elem (json x) c /\ read c = x) l kept -> forall cells,
      elementsOver decodeOver elem (map json l) (length cells) cells = Some (CSlice (length cells + length l) (cells ++ kept))).
    { clear. induction 1 as [|x c l kept [Hx _] _ IH]; intros cells; cbn [map elementsOver length].
      - rewrite app_nil_r, Nat.add_0_r. by destruct cells.
      - rewrite (lookup_ge_None_2 cells) by lia. cbn [default from_option]. unfold fresh in Hx. rewrite Hx. cbn [mbind option_bind].
        rewrite Nat.ltb_irrefl. specialize (IH (cells ++ [c])). rewrite length_app in IH. cbn [length] in IH.
        rewrite Nat.add_1_r in IH. rewrite IH. rewrite <- app_assoc. do 2 f_equal. lia. }
    exact (H l kept Hk []).
  - cbn [cellSlice]. rewrite <- Hlen, take_ge by lia. clear -Hk. induction Hk as [|x c l kept [_ Hx] _ IH]; [done|]. cbn. by rewrite Hx, IH.
Qed.

Lemma reads_dispatch r : is_u64 (rec_Position r) -> is_u64 (rec_Weight r) -> is_u64 (rec_WorkUnits r) ->
  reads visualDispatchType dispatchOf (dispatchRecord_json r) r.
Proof. intros. eexists. split; [fill; leaf|by destruct r]. Qed.

Lemma reads_sample s : is_u64 (ts_Position s) -> is_u64 (ts_SubmitToUpstreamDispatchNS s) ->
  from_option is_u64 True (ts_UpstreamReleaseToSSEEventNS s) ->
  reads visualTimingSampleType sampleOf (timingSample_json s) s.
Proof. intros. eexists. split; [fill; leaf|by destruct s as [? ? ? ? []]]. Qed.

Lemma reads_tenant t : is_u64 (tr_Weight t) -> is_u64 (tr_Submitted t) -> is_u64 (tr_Admitted t) -> is_u64 (tr_Rejected t) ->
  is_u64 (tr_Completed t) -> is_u64 (tr_Canceled t) -> is_u64 (tr_DeadlineExceeded t) -> is_u64 (tr_DispatchedRequests t) ->
  is_u64 (tr_DispatchedWorkUnits t) -> reads visualTenantType tenantOf (tenantReport_json t) t.
Proof. intros. eexists. split; [fill; leaf|by destruct t]. Qed.

Lemma reads_digest d : reads visualDigestType digestOf (categoricalEvidence_json d) d.
Proof. eexists. split; [fill; leaf|by destruct d]. Qed.

Lemma reads_service s : is_u64 (sv_UpstreamRequests s) ->
  Forall (fun r => reads visualDispatchType dispatchOf (dispatchRecord_json r) r) (sv_Expected s) ->
  Forall (fun r => reads visualDispatchType dispatchOf (dispatchRecord_json r) r) (sv_Observed s) ->
  reads visualServiceType serviceOf (serviceReport_json s) s.
Proof.
  intros Hu (e & He & Hre)%(reads_slice _ _ _ _) (o & Ho & Hro)%(reads_slice _ _ _ _).
  eexists. split; [fill; leaf|]. unfold serviceOf. cbn -[cellSlice]. rewrite Hre, Hro. by destruct s.
Qed.

Lemma reads_timing t : Forall (fun s => reads visualTimingSampleType sampleOf (timingSample_json s) s) (tm_Samples t) ->
  reads visualTimingType timingOf (timingReport_json t) t.
Proof.
  intros (c & Hc & Hr)%(reads_slice _ _ _ _). eexists. split; [fill; leaf|]. unfold timingOf. cbn -[cellSlice]. rewrite Hr. by destruct t.
Qed.

(** A value that has no variable part is read by evaluation. *)
Lemma reads_evaluated {A} t (read : cell -> A) value x c :
  decodeOver value t (zeroCell t) = Some c -> read c = x -> reads t read value x.
Proof. intros. by exists c. Qed.

Ltac evaluated := eapply reads_evaluated; [vm_compute; reflexivity|vm_compute; reflexivity].

Lemma is_u64_small n : 0 <= n < 1000000 -> is_u64 n.
Proof. unfold is_u64, two64. lia. Qed.

Lemma tenants_countable report : consistent report -> typed_report report -> countable (sv_Observed (rp_Service report)).
Proof.
  intros Hc Ht. split; [rewrite (cn_length _ Hc); lia|]. apply Forall_lookup. intros index r Hr.
  destruct (cn_records _ Hc index r Hr) as (_ & _ & _ & Hm & _).
  pose proof (proj1 (Forall_lookup _ _) (tr_work _ Ht) _ _ Hr) as Hu. unfold is_u64 in Hu. cbn in Hu. lia.
Qed.

(** What the report says of its dispatches, with types. *)
Lemma observed_typed report index r : consistent report -> typed_report report ->
  sv_Observed (rp_Service report) !! index = Some r ->
  is_u64 (rec_Position r) /\ is_u64 (rec_Weight r) /\ is_u64 (rec_WorkUnits r).
Proof.
  intros Hc Ht Hr. pose proof (proj1 (Forall_lookup _ _) (tr_work _ Ht) _ _ Hr) as Hw. cbn in Hw.
  pose proof (lookup_lt_Some _ _ _ Hr) as Hlt. rewrite (cn_length _ Hc) in Hlt.
  destruct (record_typed index r (cn_records _ Hc index r Hr) Hlt Hw) as (? & _ & ? & _). done.
Qed.

Lemma reads_observed report : consistent report -> typed_report report ->
  Forall (fun r => reads visualDispatchType dispatchOf (dispatchRecord_json r) r) (sv_Observed (rp_Service report)).
Proof.
  intros Hc Ht. apply Forall_lookup. intros index r Hr. destruct (observed_typed report index r Hc Ht Hr) as (? & ? & ?).
  by apply reads_dispatch.
Qed.

Lemma reads_samples report : consistent report -> typed_report report ->
  Forall (fun s => reads visualTimingSampleType sampleOf (timingSample_json s) s) (tm_Samples (rp_Timing report)).
Proof.
  intros Hc Ht. apply Forall_lookup. intros index s Hs. destruct (proj1 (Forall_lookup _ _) (tr_samples _ Ht) _ _ Hs) as [Hn He].
  destruct (Forall2_lookup_l _ _ _ _ _ (cn_samples _ Hc) Hs) as (r & Hr & Hp & _).
  destruct (observed_typed report index r Hc Ht Hr) as (? & _). apply reads_sample; [by rewrite Hp|done|done].
Qed.

Lemma reads_tenants report : consistent report -> typed_report report ->
  Forall (fun t => reads visualTenantType tenantOf (tenantReport_json t) t) (rp_Tenants report).
Proof.
  intros Hc Ht. pose proof (f_equal pj_Tenants (cn_evidence _ Hc)) as He. cbn [projectionOf pj_Tenants evidence] in He. rewrite He.
  apply Forall_map, Forall_forall. intros tenant Hin. destruct (label_valid tenant Hin) as [_ Hw].
  pose proof (countable_small _ (countable_filter (fun r => rec_Tenant r = td_label tenant) _ (tenants_countable report Hc Ht))) as Hs.
  apply reads_tenant; [exact Hw|..]; apply is_u64_small; unfold tenantEvidence, ofTenant; cbn [tr_Submitted tr_Admitted tr_Rejected
    tr_Completed tr_Canceled tr_DeadlineExceeded tr_DispatchedRequests tr_DispatchedWorkUnits]; lia.
Qed.

Lemma report_eta report : report = mkReport (rp_SchemaVersion report) (rp_Profile report) (rp_Seed report)
  (rp_GoVersion report) (rp_OperatingSystem report) (rp_Architecture report) (rp_Claims report) (rp_Topology report)
  (rp_ServiceTotals report) (rp_Control report) (rp_CapacityProbes report) (rp_Accounting report) (rp_Timeouts report)
  (rp_Tenants report) (rp_Service report) (rp_Timing report) (rp_Categorical report).
Proof. destruct report. reflexivity. Qed.

Lemma reads_report report : consistent report -> typed_report report ->
  reads visualReportType reportOf (saturationReport_json report) report.
Proof.
  intros Hc Ht. pose proof (cn_evidence _ Hc) as He. pose proof (tr_seed _ Ht) as Hseed.
  destruct (reads_slice _ _ _ _ (reads_tenants report Hc Ht)) as (tenants & Htn & Htr).
  assert (reads visualServiceType serviceOf (serviceReport_json (rp_Service report)) (rp_Service report)) as (service & Hsv & Hsr).
  { pose proof (reads_observed report Hc Ht) as Hobs. pose proof (f_equal pj_Service He) as Es. cbn [projectionOf evidence pj_Service] in Es.
    apply reads_service; rewrite Es; [by apply is_u64_small|exact Hobs|exact Hobs]. }
  destruct (reads_timing (rp_Timing report) (reads_samples report Hc Ht)) as (timing & Htm & Htmr).
  destruct (reads_digest (rp_Categorical report)) as (digest & Hdg & Hdgr).
  assert (reads visualClaimsType claimsOf (reportClaims_json theClaims) theClaims) as (claims & Hcl & Hclr) by evaluated.
  assert (reads visualTopologyType topologyOf (topologyReport_json theTopology) theTopology) as (topology & Htp & Htpr) by evaluated.
  assert (reads visualOutcomesType outcomesOf (outcomeCounts_json (mkOutcomes 26 24 2 20 2 2)) (mkOutcomes 26 24 2 20 2 2))
    as (totals & Hto & Htor) by evaluated.
  assert (reads visualControlType controlOf (controlReport_json (mkControl 1 1 1 1)) (mkControl 1 1 1 1)) as (control & Hct & Hctr) by evaluated.
  assert (reads visualProbesType probesOf (capacityProbeReport_json theProbes) theProbes) as (probes & Hpb & Hpbr) by evaluated.
  set (accounting := mkAccounting 28 26 1 1 21 true accountingBoundary).
  assert (reads visualAccountingType accountingOf (accountingReport_json accounting) accounting) as (account & Hac & Hacr) by evaluated.
  set (timeouts := mkTimeouts 30000 9000 10000 19000 true timeoutBoundary).
  assert (reads visualTimeoutsType timeoutsRead (timeoutEnvelopeReport_json timeouts) timeouts) as (envelopes & Hte & Hter) by evaluated.
  eexists. split.
  - unfold saturationReport_json. rewrite (cn_claims _ Hc), (f_equal pj_SchemaVersion He : rp_SchemaVersion report = 3),
      (f_equal pj_Topology He : rp_Topology report = theTopology), (f_equal pj_ServiceTotals He : rp_ServiceTotals report = _),
      (f_equal pj_Control He : rp_Control report = _), (f_equal pj_CapacityProbes He : rp_CapacityProbes report = _),
      (f_equal pj_Accounting He : rp_Accounting report = accounting), (f_equal pj_Timeouts He : rp_Timeouts report = timeouts).
    fill; try leaf. apply fresh_uint. by apply is_u64_small.
  - unfold reportOf. cbn [cellField lookup list_lookup default from_option id cellUint cellString].
    rewrite Htr, Hsr, Htmr, Hdgr, Hclr, Htpr, Htor, Hctr, Hpbr, Hacr, Hter.
    symmetry. rewrite (report_eta report) at 1. f_equal; try reflexivity.
    + exact (f_equal pj_SchemaVersion He).
    + exact (cn_claims _ Hc).
    + exact (f_equal pj_Topology He).
    + exact (f_equal pj_ServiceTotals He).
    + exact (f_equal pj_Control He).
    + exact (f_equal pj_CapacityProbes He).
    + exact (f_equal pj_Accounting He).
    + exact (f_equal pj_Timeouts He).
Qed.

(** ** The text of a report *)

(** No scanner state goes on at a control character. *)
Lemma step_printable s c s' : step s c = scanContinue s' -> 32 <= c.
Proof.
  intros H. assert (c < 32 -> False); [|lia]. intros Hc.
  assert (Hd : is_digit c = false) by (unfold is_digit, between; lia).
  assert (Hh : is_hex c = false) by (unfold is_hex, between; lia).
  destruct s; cbn in H; unfold expect, stepESign, step0, between in H; rewrite ?Hd, ?Hh in H; repeat case_match; breflect; try lia; try done.
Qed.

Lemma readValue_printable buf : forall s text rest, readValue s buf = Some (text, rest) -> Forall (fun c => 32 <= c) text.
Proof.
  induction buf as [|c buf IH]; intros s text rest; cbn.
  - destruct (step s c_space); intros [= <- <-]; constructor.
  - destruct (step s c) as [s'| |] eqn:Hs; [|intros [= <- <-]; constructor|done].
    destruct (readValue s' buf) as [[t r]|] eqn:Hr; [|done]. intros [= <- <-].
    constructor; [by eapply step_printable|by eapply IH].
Qed.

Lemma marshalScalar_printable t : marshalable_scalar t = true -> Forall (fun c => 32 <= c) (marshalScalar t).
Proof. intros Ht. destruct (scalar_marshal_text t Ht) as [Hr _]. by eapply readValue_printable. Qed.

Lemma items_printable first items : Forall (Forall (fun c => 32 <= c)) items -> Forall (fun c => 32 <= c) (marshalItems first items).
Proof.
  intros H. revert first. induction H as [|item items Hi _ IH]; intros first; cbn; [constructor|].
  rewrite !Forall_app. split; [destruct first; repeat constructor; lia|]. by split.
Qed.

Lemma marshal_printable t : marshalable t = true -> Forall (fun c => 32 <= c) (marshal t).
Proof.
  induction t as [t|l IH|l IH] using jtree_nested_ind; cbn [marshalable marshal]; intros Hm.
  - by apply marshalScalar_printable.
  - apply Forall_cons_2; [lia|]. apply Forall_app_2; [|repeat constructor; lia]. apply items_printable, Forall_map.
    rewrite forallb_forall in Hm. rewrite Forall_forall in IH |- *. intros t Ht. apply IH; [done|]. by apply Hm, list_elem_of_In.
  - apply Forall_cons_2; [lia|]. apply Forall_app_2; [|repeat constructor; lia]. apply items_printable, Forall_map.
    rewrite forallb_forall in Hm. rewrite Forall_forall in IH |- *. intros kv Hkv.
    pose proof (Hm kv (proj1 (list_elem_of_In _ _) Hkv)) as [Hk Hv]%andb_true_iff.
    apply Forall_app_2; [by apply (marshalScalar_printable (TString (fst kv)))|]. apply Forall_cons_2; [lia|]. by apply IH.
Qed.

Lemma one_line t : marshalable t = true -> filter (fun c => c = c_lf) (marshal t ++ [c_lf]) = [c_lf].
Proof.
  intros Hm%marshal_printable. rewrite filter_app. cbn [filter list_filter]. rewrite decide_True by done.
  replace (filter (fun c => c = c_lf) (marshal t)) with (@nil Z); [done|]. symmetry.
  induction Hm as [|c l Hc _ IH]; [done|]. rewrite filter_cons_False by lia. exact IH.
Qed.

(** A bound for the length of the text, whatever the numbers are. *)
Definition keySize (key : list Z) : Z := Z.of_nat (length (marshalString key)) + 2.

Fixpoint textBound (t : jtree) : Z :=
  match t with
  | JScalar (TNumber _) => 20
  | JScalar t => Z.of_nat (length (marshalScalar t))
  | JArr l => 2 + sumZ (fun t => 1 + textBound t) l
  | JObj l => 2 + sumZ (fun kv => keySize (fst kv) + textBound (snd kv)) l
  end.

Lemma formatDigits_length fuel : forall n acc, (length (formatDigits fuel n acc) <= fuel + length acc)%nat.
Proof.
  induction fuel as [|fuel IH]; intros n acc; cbn; [done|]. destruct (n <? 10); [cbn; lia|].
  etrans; [apply IH|cbn; lia].
Qed.

Lemma items_length first items :
  Z.of_nat (length (marshalItems first items)) <= sumZ (fun item => 1 + Z.of_nat (length item)) items.
Proof.
  revert first. induction items as [|item items IH]; intros first; cbn; [done|]. rewrite !length_app. specialize (IH false).
  destruct first; cbn in *; lia.
Qed.

Lemma marshal_length t : marshalable t = true -> Z.of_nat (length (marshal t)) <= textBound t.
Proof.
  induction t as [t|l IH|l IH] using jtree_nested_ind; cbn [marshalable marshal textBound]; intros Hm.
  - destruct t; try (cbn [marshalScalar]; lia). cbn [marshalable_scalar marshalScalar] in Hm |- *.
    destruct (parseUint text) as [n|]; [|done]. apply bool_decide_eq_true in Hm. rewrite Hm. unfold formatUint.
    pose proof (formatDigits_length 20 n []) as H. change (length (@nil Z)) with 0%nat in H. lia.
  - cbn [length]. rewrite length_app. cbn [length]. pose proof (items_length true (map marshal l)) as Hi.
    enough (sumZ (fun item : list Z => 1 + Z.of_nat (length item)) (map marshal l) <= sumZ (fun t => 1 + textBound t) l) by lia.
    clear Hi. induction IH as [|t l Ht _ IHl]; [done|]. cbn in Hm |- *. apply andb_true_iff in Hm as [Hm1 Hm2].
    specialize (Ht Hm1). specialize (IHl Hm2). lia.
  - cbn [length]. rewrite length_app. cbn [length].
    pose proof (items_length true (map (fun kv => marshalString (fst kv) ++ c_colon :: marshal (snd kv)) l)) as Hi.
    enough (sumZ (fun item : list Z => 1 + Z.of_nat (length item)) (map (fun kv => marshalString (fst kv) ++ c_colon :: marshal (snd kv)) l)
      <= sumZ (fun kv => keySize (fst kv) + textBound (snd kv)) l) by lia.
    clear Hi. induction IH as [|kv l Ht _ IHl]; [done|]. cbn [forallb map sumZ] in Hm, IHl |- *.
    apply andb_true_iff in Hm as [[_ Hm1]%andb_true_iff Hm2]. specialize (Ht Hm1). specialize (IHl Hm2).
    rewrite length_app. cbn [length]. unfold keySize in *. lia.
Qed.

(** Keys are sized by evaluation. *)
Ltac sized :=
  unfold jobject; cbn [map fst snd textBound sumZ];
  repeat match goal with |- context [keySize ?k] => let v := eval vm_compute in (keySize k) in change (keySize k) with v end.

Lemma jstring_bound s : textBound (jstring s) = Z.of_nat (length (marshalString s)).
Proof. done. Qed.

Lemma junsigned_bound n : textBound (junsigned n) = 20.
Proof. done. Qed.

Lemma jbool_bound b : textBound (jbool b) <= 5.
Proof. by destruct b; vm_compute. Qed.

Lemma label_bound tenant : tenant ∈ serviceTenants -> Z.of_nat (length (marshalString (td_label tenant))) <= 10.
Proof.
  intros Hin. assert (H : Forall (fun t => Z.of_nat (length (marshalString (td_label t))) <= 10) serviceTenants)
    by (repeat apply Forall_cons_2; [..|by apply Forall_nil_2]; by vm_compute).
  exact (proj1 (Forall_forall _ _) H tenant Hin).
Qed.

Lemma dispatch_bound index r : record_fine index r -> textBound (dispatchRecord_json r) <= 150.
Proof.
  intros (_ & (tenant & Hin & Ht & _) & _ & _ & Hm). unfold dispatchRecord_json. sized.
  rewrite !jstring_bound, !junsigned_bound, Ht. pose proof (label_bound tenant Hin).
  assert (Z.of_nat (length (marshalString (rec_Mode r))) <= 10) by (destruct Hm as [-> | ->]; by vm_compute). lia.
Qed.

Lemma sample_bound index s r : record_fine index r -> sample_fine s r -> textBound (timingSample_json s) <= 250.
Proof.
  intros (_ & (tenant & Hin & Ht & _) & _ & _ & Hm) (_ & Hst & Hsm & _). unfold timingSample_json. sized.
  rewrite !jstring_bound, !junsigned_bound, Hst, Hsm, Ht. pose proof (label_bound tenant Hin).
  assert (Z.of_nat (length (marshalString (rec_Mode r))) <= 10) by (destruct Hm as [-> | ->]; by vm_compute).
  assert (textBound match ts_UpstreamReleaseToSSEEventNS s with Some ns => junsigned ns | None => JScalar TNull end <= 20)
    by (destruct (ts_UpstreamReleaseToSSEEventNS s); by vm_compute). lia.
Qed.

Lemma array_bound {A} (json : A -> jtree) n l : Forall (fun x => textBound (json x) <= n) l ->
  textBound (JArr (map json l)) <= 2 + (1 + n) * Z.of_nat (length l).
Proof. cbn [textBound]. induction 1 as [|x l Hx _ IH]; [cbn; lia|]. cbn [map sumZ length] in *. lia. Qed.

Lemma records_bound report : consistent report ->
  textBound (JArr (map dispatchRecord_json (sv_Observed (rp_Service report)))) <= 4000.
Proof.
  intros Hc. etrans; [apply (array_bound _ 150)|by rewrite (cn_length _ Hc)].
  apply Forall_lookup. intros index r Hr. exact (dispatch_bound index r (cn_records _ Hc index r Hr)).
Qed.

Lemma samples_bound report : consistent report ->
  textBound (JArr (map timingSample_json (tm_Samples (rp_Timing report)))) <= 6000.
Proof.
  intros Hc. etrans; [apply (array_bound _ 250)|by rewrite (Forall2_length _ _ _ (cn_samples _ Hc)), (cn_length _ Hc)].
  apply Forall_lookup. intros index s Hs. destruct (Forall2_lookup_l _ _ _ _ _ (cn_samples _ Hc) Hs) as (r & Hr & Hsr).
  exact (sample_bound index s r (cn_records _ Hc index r Hr) Hsr).
Qed.

Lemma tenants_bound report : consistent report -> textBound (JArr (map tenantReport_json (rp_Tenants report))) <= 2000.
Proof.
  intros Hc. pose proof (f_equal pj_Tenants (cn_evidence _ Hc)) as He. cbn [projectionOf pj_Tenants evidence] in He. rewrite He.
  etrans; [apply (array_bound _ 900)|by vm_compute]. apply Forall_map, Forall_forall. intros tenant Hin.
  unfold tenantReport_json. sized. cbn [tenantEvidence tr_Tenant]. rewrite !jstring_bound, !junsigned_bound.
  pose proof (label_bound tenant Hin). lia.
Qed.

(** The build that the visuals are made with. *)
Definition expectedBuild (report : saturationReport) : Prop :=
  rp_GoVersion report = visualExpectedGo /\ rp_OperatingSystem report = visualExpectedOS /\ rp_Architecture report = bs "amd64".

Lemma service_bound report : consistent report -> textBound (serviceReport_json (rp_Service report)) <= 9000.
Proof.
  intros Hc. pose proof (records_bound report Hc) as Hr. pose proof (f_equal pj_Service (cn_evidence _ Hc)) as Es.
  cbn [projectionOf evidence pj_Service] in Es. rewrite Es. unfold serviceReport_json. sized.
  cbn [sv_Oracle sv_OracleMatch sv_Expected sv_Observed sv_UpstreamRequests].
  rewrite jstring_bound, junsigned_bound. cbn [textBound] in Hr. pose proof (jbool_bound true).
  assert (Z.of_nat (length (marshalString serviceOracle)) <= 100) by by vm_compute. lia.
Qed.

Lemma timing_bound report : consistent report -> textBound (timingReport_json (rp_Timing report)) <= 7000.
Proof.
  intros Hc. pose proof (samples_bound report Hc) as Hs. rewrite (cn_timing _ Hc). unfold timingReport_json. sized.
  cbn [tm_Clock tm_Thresholds tm_OneRunDiagnostics tm_ByteReproducible tm_Boundary tm_Samples].
  rewrite !jstring_bound. cbn [textBound] in Hs. pose proof (jbool_bound false). pose proof (jbool_bound true).
  assert (Z.of_nat (length (marshalString timingClock)) <= 100) by by vm_compute.
  assert (Z.of_nat (length (marshalString timingBoundary)) <= 200) by by vm_compute. lia.
Qed.

(** The report is much shorter than what is read of it. *)
Lemma report_bound report : consistent report -> expectedBuild report ->
  rp_Categorical report = visualDigestExpected -> textBound (saturationReport_json report) <= 30000.
Proof.
  intros Hc (Hv & Ho & Ha) Hd. pose proof (cn_evidence _ Hc) as He.
  pose proof (service_bound report Hc). pose proof (timing_bound report Hc). pose proof (tenants_bound report Hc) as Htn.
  unfold saturationReport_json. rewrite Hv, Ho, Ha, Hd, (cn_claims _ Hc), (f_equal pj_Profile He : rp_Profile report = ciProfileName),
    (f_equal pj_Topology He : rp_Topology report = theTopology),
    (f_equal pj_ServiceTotals He : rp_ServiceTotals report = mkOutcomes 26 24 2 20 2 2),
    (f_equal pj_Control He : rp_Control report = mkControl 1 1 1 1),
    (f_equal pj_CapacityProbes He : rp_CapacityProbes report = theProbes),
    (f_equal pj_Accounting He : rp_Accounting report = mkAccounting 28 26 1 1 21 true accountingBoundary),
    (f_equal pj_Timeouts He : rp_Timeouts report = mkTimeouts 30000 9000 10000 19000 true timeoutBoundary).
  sized. rewrite !jstring_bound, !junsigned_bound. cbn [textBound] in Htn.
  repeat match goal with
  | |- context [length (marshalString ?s)] => let v := eval vm_compute in (length (marshalString s)) in change (length (marshalString s)) with v
  end.
  assert (textBound (reportClaims_json theClaims) <= 1000) by by vm_compute.
  assert (textBound (topologyReport_json theTopology) <= 1000) by by vm_compute.
  assert (textBound (outcomeCounts_json (mkOutcomes 26 24 2 20 2 2)) <= 1000) by by vm_compute.
  assert (textBound (controlReport_json (mkControl 1 1 1 1)) <= 1000) by by vm_compute.
  assert (textBound (capacityProbeReport_json theProbes) <= 1000) by by vm_compute.
  assert (textBound (accountingReport_json (mkAccounting 28 26 1 1 21 true accountingBoundary)) <= 1000) by by vm_compute.
  assert (textBound (timeoutEnvelopeReport_json (mkTimeouts 30000 9000 10000 19000 true timeoutBoundary)) <= 1000) by by vm_compute.
  assert (textBound (categoricalEvidence_json visualDigestExpected) <= 1000) by by vm_compute.
  lia.
Qed.

(** ** Validation: correctness *)

Lemma dispatches_total samples dispatches : forall index, (index + length dispatches <= length samples)%nat ->
  exists b, dispatchesExpected samples index dispatches = Done b.
Proof.
  induction dispatches as [|dispatch dispatches IH]; intros index Hl; cbn [dispatchesExpected length] in *; [by exists true|].
  unfold dispatchExpected. destruct (lookup_lt_is_Some_2 samples index ltac:(lia)) as [sample ->].
  match goal with |- context [if ?b then _ else _] => destruct b end; [by exists false|].
  cbv zeta. match goal with |- context [if ?b then _ else _] => destruct b end; [|by exists false]. apply IH. lia.
Qed.

(** The validation comes to an answer. *)
Lemma visual_validation_total report : exists r, validateSaturationVisualReport report = Done r.
Proof.
  unfold validateSaturationVisualReport. destruct (visualHeaded report) eqn:Hh; cbn [negb]; [|by eexists].
  destruct (dispatches_total (tm_Samples (rp_Timing report)) (sv_Observed (rp_Service report)) 0) as [b ->].
  { unfold visualHeaded, serviceExpected in Hh. rewrite !andb_true_iff in Hh. destruct Hh as [_ Hh].
    destruct Hh as ((((((((((_ & _) & He) & Ho) & _) & Hs) & _) & _) & _) & _) & _).
    apply Nat.eqb_eq in He, Hs. apply bool_decide_eq_true in Ho. rewrite <- Ho, He, Hs. done. }
  destruct b; [|by eexists]. match goal with |- context [if ?b then _ else _] => destruct b end; by eexists.
Qed.

Lemma fine_expected index r s samples : record_fine index r -> sample_fine s r -> rec_WorkUnits r >= 0 ->
  samples !! index = Some s -> dispatchExpected samples index r = Done true.
Proof.
  intros (Hp & (tenant & Hin & Ht & Hw) & Hz & Hm & Hmode) (Hsp & Hst & Hsm & Hns) Hu Hs. unfold dispatchExpected.
  rewrite Hs, Hp, Z.eqb_refl, Hsp, Hst, Hsm. replace (rec_WorkUnits r =? 0) with false by lia.
  replace (320 <? rec_WorkUnits r) with false
    by (unfold ciMaximumRequestUnits, ciMaximumBodyBytes, ciMaximumCompletionTokens in Hm; lia).
  assert (Hone : negb (bool_decide (rec_Tenant r = bs "tenant-a")) && negb (bool_decide (rec_Tenant r = bs "tenant-b")) = false
    /\ negb (rec_Weight r =? 1) && negb (rec_Weight r =? 3) = false).
  { rewrite Ht, Hw. clear -Hin. unfold serviceTenants in Hin. apply elem_of_cons in Hin as [->|Hin]; [by vm_compute|].
    apply elem_of_cons in Hin as [->|Hin]; [by vm_compute|]. by apply elem_of_nil in Hin. }
  destruct Hone as [-> ->]. rewrite Hp, Z.eqb_refl, (bool_decide_eq_true_2 (rec_Tenant r = rec_Tenant r)), (bool_decide_eq_true_2 (rec_Mode r = rec_Mode r)) by reflexivity.
  cbn [negb orb andb].
  destruct Hmode as [Hmode|Hmode]; rewrite Hmode in Hns |- *.
  - replace (bool_decide (bs "buffered" = bs "buffered")) with true by by vm_compute.
    replace (bool_decide (bs "buffered" = bs "sse")) with false by by vm_compute. cbn [negb orb andb].
    rewrite bool_decide_eq_true_2; [done|]. destruct (ts_UpstreamReleaseToSSEEventNS s); [|done].
    by discriminate (proj1 Hns ltac:(by eexists)).
  - replace (bool_decide (bs "sse" = bs "buffered")) with false by by vm_compute.
    replace (bool_decide (bs "sse" = bs "sse")) with true by by vm_compute. cbn [negb orb andb].
    destruct (proj2 Hns eq_refl) as [ns Hsome]. rewrite Hsome. done.
Qed.

Lemma all_expected report : consistent report -> typed_report report ->
  dispatchesExpected (tm_Samples (rp_Timing report)) 0 (sv_Observed (rp_Service report)) = Done true.
Proof.
  intros Hc Ht. assert (H : forall before after, sv_Observed (rp_Service report) = before ++ after ->
    dispatchesExpected (tm_Samples (rp_Timing report)) (length before) after = Done true); [|exact (H [] _ eq_refl)].
  intros before after. revert before. induction after as [|r after IH]; intros before Heq; [done|]. cbn [dispatchesExpected].
  assert (Hr : sv_Observed (rp_Service report) !! length before = Some r) by (rewrite Heq; by apply list_lookup_middle).
  destruct (Forall2_lookup_r _ _ _ _ _ (cn_samples _ Hc) Hr) as (s & Hs & Hfine).
  pose proof (proj1 (Forall_lookup _ _) (tr_work _ Ht) _ _ Hr) as Hw. cbn in Hw.
  rewrite (fine_expected (length before) r s _ (cn_records _ Hc _ r Hr) Hfine) by (done || (unfold is_u64 in Hw; lia)).
  specialize (IH (before ++ [r])). rewrite length_app in IH. cbn [length] in IH. rewrite Nat.add_1_r in IH. apply IH.
  rewrite <- app_assoc. exact Heq.
Qed.

(** The tenants have dispatched something. *)
Lemma tenants_worked report : consistent report -> typed_report report -> forallb tenantExpected (rp_Tenants report) = true.
Proof.
  intros Hc Ht. pose proof (f_equal pj_Tenants (cn_evidence _ Hc)) as He. cbn [projectionOf pj_Tenants evidence] in He. rewrite He.
  apply forallb_forall. intros t (tenant & <- & Hin)%in_map_iff. apply list_elem_of_In in Hin.
  unfold tenantExpected, tenantEvidence. cbn [tr_Submitted tr_Admitted tr_Rejected tr_Completed tr_Canceled tr_DeadlineExceeded
    tr_DispatchedRequests tr_DispatchedWorkUnits].
  assert (workOf (ofTenant tenant (sv_Observed (rp_Service report))) <> 0) as Hwork.
  { destruct (cn_tenants _ Hc tenant Hin) as [Hl _].
    assert (Hpos : Forall (fun r => 0 < rec_WorkUnits r) (ofTenant tenant (sv_Observed (rp_Service report)))).
    { apply Forall_forall. intros r [_ Hr]%list_elem_of_filter. apply list_elem_of_lookup in Hr as [index Hr].
      destruct (cn_records _ Hc index r Hr) as (_ & _ & Hz & _). pose proof (proj1 (Forall_lookup _ _) (tr_work _ Ht) _ _ Hr) as Hw.
      unfold is_u64 in Hw. cbn in Hw. lia. }
    unfold workOf. clear -Hl Hpos. destruct Hpos as [|r l Hr Hl']; [done|]. cbn [sumZ].
    enough (0 <= sumZ rec_WorkUnits l) by lia. clear -Hl'. induction Hl' as [|r l Hr _ IH]; cbn [sumZ]; lia. }
  apply Z.eqb_neq in Hwork. rewrite Hwork. by vm_compute.
Qed.

(** Which of the harness's reports are accepted: those of the published seed and of the
    expected build. *)
Lemma visual_headed report : consistent report -> typed_report report ->
  visualHeaded report = true <-> rp_Seed report = visualSaturationSeed /\ expectedBuild report.
Proof.
  intros Hc Ht. pose proof (cn_evidence _ Hc) as He. pose proof (f_equal pj_Service He) as Es.
  pose proof (f_equal pj_Tenants He) as Et. cbn [projectionOf evidence pj_Service pj_Tenants] in Es, Et.
  unfold visualHeaded. rewrite (tenants_worked report Hc Ht), (f_equal pj_SchemaVersion He : rp_SchemaVersion report = 3),
    (f_equal pj_Profile He : rp_Profile report = ciProfileName), (cn_claims _ Hc),
    (f_equal pj_Topology He : rp_Topology report = theTopology),
    (f_equal pj_ServiceTotals He : rp_ServiceTotals report = mkOutcomes 26 24 2 20 2 2),
    (f_equal pj_Control He : rp_Control report = mkControl 1 1 1 1),
    (f_equal pj_CapacityProbes He : rp_CapacityProbes report = theProbes),
    (f_equal pj_Accounting He : rp_Accounting report = mkAccounting 28 26 1 1 21 true accountingBoundary),
    (f_equal pj_Timeouts He : rp_Timeouts report = mkTimeouts 30000 9000 10000 19000 true timeoutBoundary).
  assert (serviceExpected report = true) as ->.
  { unfold serviceExpected. rewrite Es. cbn [sv_Oracle sv_OracleMatch sv_Expected sv_Observed sv_UpstreamRequests].
    rewrite (Forall2_length _ _ _ (cn_samples _ Hc)), (cn_length _ Hc), (cn_timing _ Hc).
    cbn [tm_Clock tm_Thresholds tm_OneRunDiagnostics tm_ByteReproducible tm_Boundary].
    rewrite (bool_decide_eq_true_2 (sv_Observed (rp_Service report) = _)) by done. by vm_compute. }
  assert (tenantsExpected (rp_Tenants report) = true) as -> by (rewrite Et; by vm_compute).
  match goal with |- context [probesExpected theProbes] => idtac end.
  replace (probesExpected theProbes) with true by by vm_compute.
  replace (accountingExpected _) with true by by vm_compute.
  rewrite !(bool_decide_eq_true_2 (_ = visualClaimsExpected)), !(bool_decide_eq_true_2 (_ = visualTopologyExpected)),
    !(bool_decide_eq_true_2 (_ = visualTimeoutsExpected)), (bool_decide_eq_true_2 (ciProfileName = _)),
    (bool_decide_eq_true_2 (mkOutcomes _ _ _ _ _ _ = _)), (bool_decide_eq_true_2 (mkControl _ _ _ _ = _)) by reflexivity.
  rewrite !andb_true_r. cbn [Z.eqb Pos.eqb andb]. rewrite !andb_true_iff, !bool_decide_eq_true, Z.eqb_eq. unfold expectedBuild.
  split; [by intros (((? & ?) & ?) & ?)|by intros (? & ? & ? & ?)].
Qed.

(** ** Decoding: correctness *)

Lemma unique_array {A} (json : A -> jtree) l : (forall x, unique_keys (json x) = true) -> unique_keys (JArr (map json l)) = true.
Proof. intros Hj. cbn [unique_keys]. apply forallb_forall. intros t (x & <- & _)%in_map_iff. apply Hj. Qed.

Lemma unique_object fields : bool_decide (NoDup (map (fun field => bs (fst field)) fields)) = true ->
  Forall (fun field => unique_keys (snd field) = true) fields -> unique_keys (jobject fields) = true.
Proof.
  intros Hn Hf. unfold jobject. cbn [unique_keys]. apply andb_true_iff. split.
  - rewrite map_map. exact Hn.
  - apply forallb_forall. intros kv (field & <- & Hin)%in_map_iff. cbn [snd].
    exact (proj1 (Forall_forall _ _) Hf field (proj2 (list_elem_of_In _ _) Hin)).
Qed.

Ltac unique :=
  apply unique_object; [cbn [map fst]; by vm_compute|]; repeat apply Forall_cons_2; [..|by apply Forall_nil_2]; cbn [snd].

Lemma unique_dispatch r : unique_keys (dispatchRecord_json r) = true.
Proof. unfold dispatchRecord_json. unique; reflexivity. Qed.
Lemma unique_sample s : unique_keys (timingSample_json s) = true.
Proof. unfold timingSample_json. unique; try reflexivity. by destruct (ts_UpstreamReleaseToSSEEventNS s). Qed.
Lemma unique_tenant t : unique_keys (tenantReport_json t) = true.
Proof. unfold tenantReport_json. unique; reflexivity. Qed.
Lemma unique_report report : unique_keys (saturationReport_json report) = true.
Proof.
  unfold saturationReport_json. unique; first [reflexivity|apply unique_array, unique_tenant|idtac].
  - unfold serviceReport_json. unique; first [reflexivity|apply unique_array, unique_dispatch].
  - unfold timingReport_json. unique; first [reflexivity|apply unique_array, unique_sample].
Qed.

(** Decoding comes to an answer, and what it accepts is valid. *)
Lemma decodeVisual_total payload : exists r, decodeSaturationVisualReport payload = Done r
  /\ match r with
     | Ok report => validateSaturationVisualReport report = Done (Ok tt)
         /\ exists t, document_text t payload /\ unique_keys t = true /\ reads visualReportType reportOf t report
     | Err _ => True
     end.
Proof.
  unfold decodeSaturationVisualReport. match goal with |- context [if ?b then _ else _] => destruct b end; [by eexists|].
  destruct (reject_exact payload) as (b & -> & Hb). destruct b; [|by eexists]. destruct (proj1 Hb eq_refl) as (t & Hdoc & Hu).
  destruct (decodeAny_complete t payload Hdoc) as (d & Hany & d' & Heof).
  unfold decodeFresh. rewrite Hany. cbn [mbind option_bind].
  destruct (decodeOver t visualReportType (zeroCell visualReportType)) as [c|] eqn:Hc; cbn [mbind option_bind]; [|by eexists].
  rewrite Heof. destruct (visual_validation_total (reportOf c)) as [[[]|e] Hv]; rewrite Hv; [|by eexists].
  eexists. split; [reflexivity|]. split; [exact Hv|].
  exists t. split; [exact Hdoc|]. split; [exact Hu|]. exists c. split; [exact Hc|reflexivity].
Qed.

Lemma projection_same report : visualProjectionFromReport report = projectionOf report.
Proof. unfold visualProjectionFromReport, projectionOf. by destruct (rp_Service report). Qed.

(** What a report must say to be accepted, beyond what the harness has checked. *)
Definition visual_accepted (report : saturationReport) : Prop :=
  rp_Seed report = visualSaturationSeed /\ expectedBuild report /\ ce_Digest (rp_Categorical report) = visualSaturationDigest.

Lemma visual_validated report : consistent report -> typed_report report ->
  validateSaturationVisualReport report = Done (Ok tt) <-> visual_accepted report.
Proof.
  intros Hc Ht. unfold validateSaturationVisualReport, visual_accepted. pose proof (visual_headed report Hc Ht) as Hh.
  pose proof (cn_evidence _ Hc) as He. pose proof (cn_digest _ Hc) as Hd.
  assert (visualProjectionDigest (visualProjectionFromReport report) = ce_Digest (rp_Categorical report)) as Hdigest.
  { rewrite Hd. cbn [ce_Digest]. unfold visualProjectionDigest, evidenceDigest. by rewrite projection_same, He. }
  rewrite Hdigest, (all_expected report Hc Ht).
  assert (rp_Categorical report = visualDigestExpected <-> ce_Digest (rp_Categorical report) = visualSaturationDigest) as Hcat.
  { split; [by intros ->|]. intros Hce. rewrite Hd in Hce |- *. cbn [ce_Digest] in Hce. rewrite Hce. reflexivity. }
  rewrite (bool_decide_eq_true_2 (ce_Digest (rp_Categorical report) = ce_Digest (rp_Categorical report))) by reflexivity.
  rewrite orb_false_r. destruct (visualHeaded report); cbn [negb].
  - destruct (proj1 Hh eq_refl) as [Hs Hb]. case_bool_decide as Hx; cbn [negb]; (split; [intros H|intros (_ & _ & H)]).
    + split; [exact Hs|]. split; [exact Hb|]. by apply Hcat.
    + reflexivity.
    + discriminate H.
    + by apply Hcat in H.
  - split; [intros H; discriminate H|]. intros (Hs & Hb & _). by discriminate (proj2 Hh (conj Hs Hb)).
Qed.

(** The text of a report of the harness is accepted, and gives the report back, exactly
    when it is one of the published seed and of the expected build. *)
Lemma visual_decodes report : consistent report -> typed_report report ->
  let text := marshal (saturationReport_json report) ++ [10] in
  (visual_accepted report /\ decodeSaturationVisualReport text = Done (Ok report))
  \/ (~ visual_accepted report /\ decodeSaturationVisualReport text = Done (Err errSaturationVisual)).
Proof.
  intros Hc Ht text. pose proof (report_marshalable report Hc Ht) as Hm.
  assert (Hdoc : document_text (saturationReport_json report) text) by by apply marshal_document.
  destruct (reads_report report Hc Ht) as (c & Hfresh & Hread). unfold fresh in Hfresh.
  destruct (decodeAny_complete _ text Hdoc) as (d & Hany & d' & Heof).
  destruct (reject_exact text) as (b & Hrej & Hb). assert (b = true) as ->.
  { apply Hb. exists (saturationReport_json report). split; [exact Hdoc|exact (unique_report report)]. }
  assert (Hrun : forall small, bool_decide (text = []) || (visualSaturationMaxStdout <? Z.of_nat (length text))
     || negb (bool_decide (last text = Some c_lf)) || negb (length (filter (fun c => c = c_lf) text) =? 1)%nat = small ->
    decodeSaturationVisualReport text = if small then Done (Err errSaturationVisual) else
      match validateSaturationVisualReport report with
      | Done (Ok _) => Done (Ok report) | Done (Err e) => Done (Err e) | Panicked msg => Panicked msg | OutOfFuel => OutOfFuel
      end).
  { intros small Hs. unfold decodeSaturationVisualReport. rewrite Hs, Hrej. destruct small; [done|].
    unfold decodeFresh. rewrite Hany. cbn [mbind option_bind]. rewrite Hfresh. cbn [mbind option_bind]. rewrite Heof, Hread. reflexivity. }
  pose proof (visual_validated report Hc Ht) as Hv. destruct (visual_validation_total report) as [r Hr].
  destruct r as [[]|[]]; [left|right].
  - pose proof (proj1 Hv Hr) as Hacc. split; [exact Hacc|]. rewrite (Hrun false), Hr; [reflexivity|].
    destruct Hacc as (_ & Hb' & Hce). assert (rp_Categorical report = visualDigestExpected) as Hcat.
    { pose proof (cn_digest _ Hc) as Hd. rewrite Hd in Hce |- *. cbn [ce_Digest] in Hce. rewrite Hce. reflexivity. }
    pose proof (report_bound report Hc Hb' Hcat) as Hbound. pose proof (marshal_length _ Hm) as Hl.
    unfold text. rewrite (one_line _ Hm), last_snoc, length_app. cbn [length].
    rewrite (proj2 (Z.ltb_ge visualSaturationMaxStdout _)) by (clear -Hbound Hl; unfold visualSaturationMaxStdout; lia).
    rewrite bool_decide_eq_false_2 by (by destruct (marshal (saturationReport_json report))).
    rewrite bool_decide_eq_true_2 by done. reflexivity.
  - split; [intros Hacc%Hv; rewrite Hr in Hacc; discriminate Hacc|]. rewrite (Hrun _ eq_refl), Hr.
    match goal with |- context [if ?b then _ else _] => destruct b end; reflexivity.
Qed.

(** Of an accepted report there is evidence, and it is all that the report says of its
    seed and dispatches. *)
Lemma visual_evidence report : consistent report -> typed_report report -> visual_accepted report ->
  saturationVisualEvidenceFromReport report = Done (Ok (mkVisualEvidence visualSaturationSchema visualSaturationScope
    visualExpectedGo visualExpectedOS (bs "amd64") false false (evidence visualSaturationSeed (sv_Observed (rp_Service report)))
    visualDigestExpected)).
Proof.
  intros Hc Ht Hacc. unfold saturationVisualEvidenceFromReport. rewrite (proj2 (visual_validated report Hc Ht) Hacc).
  destruct Hacc as (Hs & (Hv & Ho & Ha) & Hce). pose proof (cn_evidence _ Hc) as He. pose proof (cn_digest _ Hc) as Hd.
  assert (visualProjectionFromReport report = evidence visualSaturationSeed (sv_Observed (rp_Service report))) as Hp.
  { by rewrite projection_same, He, Hs. }
  rewrite Hp, Hv, Ho, Ha, (cn_claims _ Hc). rewrite Hd in Hce |- *. cbn [ce_Digest] in Hce. rewrite Hce.
  rewrite Hs in Hce. unfold validateSaturationVisualEvidence. cbn [ve_Schema ve_Scope ve_Toolchain ve_Platform ve_Architecture ve_PerformanceClaim
    ve_DiagnosticTimingsIncluded ve_Projection ve_Categorical evidence pj_SchemaVersion pj_Profile pj_Seed pj_Accounting pj_Service
    ac_Reconciled sv_OracleMatch sv_Expected sv_Observed].
  rewrite (bool_decide_eq_true_2 (sv_Observed (rp_Service report) = _)) by reflexivity.
  match goal with |- context [visualProjectionDigest ?p] => change (visualProjectionDigest p) with
    (evidenceDigest visualSaturationSeed (sv_Observed (rp_Service report))) end.
  rewrite Hce. cbn [ce_Digest visualDigestExpected].
  rewrite (bool_decide_eq_true_2 (visualSaturationDigest = visualSaturationDigest)) by reflexivity.
  cbn [negb]. match goal with |- context [if ?b then Err _ else Ok tt] => replace b with false by by vm_compute end.
  reflexivity.
Qed.

(** ** The run: correctness *)

(** A bounded buffer holds the start of what was written, and knows whether that is all. *)
Lemma collect_bounded limit writes : 0 <= limit ->
  vb_buffer (collect limit writes) = take (Z.to_nat limit) (mjoin writes)
  /\ vb_exceeded (collect limit writes) = (limit <? Z.of_nat (length (mjoin writes))).
Proof.
  intros Hl. assert (H : forall writes before exceeded, exceeded = (limit <? Z.of_nat (length before)) ->
    foldl (fun b payload => match snd (bounded_Write payload (Some b)) with Some b => b | None => b end)
      (mkBounded (take (Z.to_nat limit) before) limit exceeded) writes
    = mkBounded (take (Z.to_nat limit) (before ++ mjoin writes)) limit (limit <? Z.of_nat (length (before ++ mjoin writes)))).
  { clear writes. induction writes as [|payload writes IH]; intros before exceeded He; cbn [foldl mjoin list_join].
    { by rewrite app_nil_r, He. }
    rewrite app_assoc. rewrite <- IH with (exceeded := limit <? Z.of_nat (length (before ++ payload))) by done. f_equal.
    unfold bounded_Write. cbn [vb_limit vb_buffer vb_exceeded]. replace (limit <? 0) with false by lia.
    rewrite length_take. destruct (Z.ltb_spec (limit - Z.of_nat (Z.to_nat limit `min` length before)) (Z.of_nat (length payload))) as [Hr|Hr]; cbn [snd].
    - rewrite length_app. rewrite (proj2 (Z.ltb_lt limit _)) by (clear He IH; lia). f_equal.
      rewrite take_app. destruct (Z.ltb_spec 0 (limit - Z.of_nat (Z.to_nat limit `min` length before))) as [Hp|Hp].
      + f_equal. f_equal. clear He IH. lia.
      + replace (Z.to_nat limit - length before)%nat with 0%nat by (clear He IH; lia). by rewrite take_0, app_nil_r.
    - f_equal.
      + rewrite take_app. rewrite (take_ge payload) by (clear He IH; lia). reflexivity.
      + rewrite length_app, He. apply eq_true_iff_eq. rewrite !Z.ltb_lt. clear He IH. lia. }
  specialize (H writes [] false ltac:(symmetry; apply Z.ltb_ge; exact Hl)). rewrite take_nil in H. cbn [app] in H. unfold collect. by rewrite H.
Qed.

(** What evidence is accepted of: a report that was decoded. *)
Definition evidenceOf (payload : list Z) (e : saturationVisualEvidence) : Prop :=
  exists report, decodeSaturationVisualReport payload = Done (Ok report)
    /\ saturationVisualEvidenceFromReport report = Done (Ok e).

(** Evidence can be drawn: both tenants are there, and so is each expected dispatch. *)
Definition drawable (e : saturationVisualEvidence) : Prop :=
  length (pj_Tenants (ve_Projection e)) = 2%nat
  /\ sv_Expected (pj_Service (ve_Projection e)) = sv_Observed (pj_Service (ve_Projection e)).

Lemma evidence_total report : exists r, saturationVisualEvidenceFromReport report = Done r
  /\ match r with Ok e => drawable e /\ validateSaturationVisualEvidence e = Ok tt | Err _ => True end.
Proof.
  unfold saturationVisualEvidenceFromReport. destruct (visual_validation_total report) as [r Hr]. rewrite Hr. destruct r as [[]|e]; [|by eexists].
  match goal with |- context [validateSaturationVisualEvidence ?e] => destruct (validateSaturationVisualEvidence e) as [[]|?] eqn:Hv end; [|by eexists].
  eexists. split; [reflexivity|]. split; [|exact Hv]. unfold drawable. cbn [ve_Projection].
  unfold validateSaturationVisualReport in Hr. destruct (visualHeaded report) eqn:Hh; [|discriminate Hr]. clear Hr Hv.
  unfold visualHeaded in Hh. rewrite !andb_true_iff in Hh. destruct Hh as [[[_ Ht] _] Hs]. split.
  - cbn [visualProjectionFromReport pj_Tenants]. destruct (rp_Tenants report) as [|a [|b [|c l]]]; try discriminate Ht. reflexivity.
  - unfold serviceExpected in Hs. rewrite !andb_true_iff in Hs. destruct Hs as ((((((((((_ & _) & _) & Ho) & _) & _) & _) & _) & _) & _) & _).
    apply bool_decide_eq_true in Ho. exact Ho.
Qed.

Section contained.
Context (V : visualMachine).

(** What was done: every directory that was made was removed, or could not be. *)
Definition contained (acts : list visualAct) : Prop :=
  forall private, madeDirectory private ∈ acts -> removedDirectory private ∈ acts \/ vm_RemoveAll V private = false.

(** The commands that were run, each on what was done before. *)
Definition ranIn (root private : gostring) (acts : list visualAct) : list visualAct :=
  acts ++ [madeDirectory private; madePrivate private; ranCommand (buildCommand (vm_goroot V) root private)].

(** The run comes to an answer whatever the machine does; it leaves no directory of its
    own that can be removed, and where it succeeds it has removed it, and the evidence
    is of what the harness wrote on its output, of which nothing was cut off. *)
Lemma visual_run live root acts : exists r l, runSaturationVisual V live root acts = Done (r, acts ++ l)
  /\ contained l
  /\ match r with
     | Ok e => drawable e /\ validateSaturationVisualEvidence e = Ok tt
         /\ exists root' private, vm_Abs V root = Some root' /\ vm_MkdirTemp V root' = Some private
            /\ l = [madeDirectory private; madePrivate private; ranCommand (buildCommand (vm_goroot V) root' private);
                    ranCommand (harnessCommand root' private); removedDirectory private]
            /\ evidenceOf (mjoin (vo_stdout (vm_Run V (ranIn root' private acts) (harnessCommand root' private)))) e
     | Err _ => True
     end.
Proof.
  assert (Hnone : forall r, @mret _ (M_ret (list visualAct)) _ (r : result saturationVisualError saturationVisualEvidence) acts = Done (r, acts ++ [])) by (intros; by rewrite app_nil_r).
  assert (Hempty : contained []) by (intros p Hp; by apply elem_of_nil in Hp).
  unfold runSaturationVisual. destruct live; cbn [negb]; [|by eexists _, []; split; [apply Hnone|]].
  destruct (vm_Abs V root) as [root'|] eqn:Habs; [|by eexists _, []; split; [apply Hnone|]].
  destruct (vm_MkdirTemp V root') as [private|] eqn:Hmk; [|by eexists _, []; split; [apply Hnone|]].
  assert (Hin : exists r l, runInPrivate V root' private (acts ++ [madeDirectory private]) = Done (r, acts ++ madeDirectory private :: l)
    /\ (forall p, madeDirectory p ∉ l)
    /\ match r with
       | Ok e => drawable e /\ validateSaturationVisualEvidence e = Ok tt
           /\ l = [madePrivate private; ranCommand (buildCommand (vm_goroot V) root' private); ranCommand (harnessCommand root' private)]
           /\ evidenceOf (mjoin (vo_stdout (vm_Run V (ranIn root' private acts) (harnessCommand root' private)))) e
       | Err _ => True
       end).
  { unfold runInPrivate. rewrite <- !app_assoc. cbn [app].
    assert (Hno : forall p l, Forall (fun a => match a with madeDirectory _ => False | _ => True end) l -> madeDirectory p ∉ l)
      by (intros p l Hl Hp; exact (proj1 (Forall_forall _ _) Hl _ Hp)).
    destruct (vm_Chmod V private); cbn [negb]; [|exists (Err errSaturationVisual), []; split; [reflexivity|]; split; [intros p; apply Hno; by repeat constructor|done]].
    match goal with |- context [if ?b then _ else _] => destruct b end;
      [eexists (Err _), [_; _]; split; [reflexivity|]; split; [intros p; apply Hno; by repeat constructor|done]|].
    destruct (vm_Stat V (vc_path (harnessCommand root' private))) as [[regular permissions]|];
      [|eexists (Err _), [_; _]; split; [reflexivity|]; split; [intros p; apply Hno; by repeat constructor|done]].
    destruct (negb regular || (Z.land permissions 64 =? 0));
      [eexists (Err _), [_; _]; split; [reflexivity|]; split; [intros p; apply Hno; by repeat constructor|done]|].
    set (ran := vm_Run V _ (harnessCommand root' private)).
    destruct (endedWell ran visualSaturationMaxStdout) eqn:Hended; cbn [negb];
      [|eexists (Err _), [_; _; _]; split; [reflexivity|]; split; [intros p; apply Hno; by repeat constructor|done]].
    destruct (collect_bounded visualSaturationMaxStdout (vo_stdout ran) ltac:(by vm_compute)) as [Hbuf Hex].
    assert (Hall : vb_buffer (collect visualSaturationMaxStdout (vo_stdout ran)) = mjoin (vo_stdout ran)).
    { rewrite Hbuf. apply take_ge. unfold endedWell in Hended. rewrite Hex in Hended. rewrite !andb_true_iff in Hended.
      destruct Hended as ((((_ & Hx) & _) & _) & _). apply negb_true_iff, Z.ltb_ge in Hx. lia. }
    rewrite Hall. destruct (decodeVisual_total (mjoin (vo_stdout ran))) as (r & Hr & _). rewrite Hr.
    destruct r as [report|e]; [|eexists (Err _), [_; _; _]; split; [reflexivity|]; split; [intros p; apply Hno; by repeat constructor|done]].
    destruct (evidence_total report) as (r' & Hr' & Hok). rewrite Hr'.
    destruct r' as [e|e]; [|eexists (Err _), [_; _; _]; split; [reflexivity|]; split; [intros p; apply Hno; by repeat constructor|done]].
    eexists (Ok e), [_; _; _]. split; [reflexivity|]. split; [intros p; apply Hno; by repeat constructor|].
    destruct Hok as [Hd Hv]. split; [exact Hd|]. split; [exact Hv|]. split; [reflexivity|]. exists report. split; [exact Hr|exact Hr']. }
  destruct Hin as (r & l & Hrun & Hno & Hr). rewrite Hrun. destruct (vm_RemoveAll V private) eqn:Hrm.
  - exists r, ((madeDirectory private :: l) ++ [removedDirectory private]). split; [by rewrite <- app_assoc|]. split.
    + intros p [Hp|Hp]%elem_of_app; [|by apply list_elem_of_singleton in Hp]. apply elem_of_cons in Hp as [[= ->]|Hp]; [|by destruct (Hno p)].
      left. apply elem_of_app. right. by apply list_elem_of_singleton.
    + destruct r as [e|e]; [|done]. destruct Hr as (Hd & Hv & -> & He). split; [exact Hd|]. split; [exact Hv|].
      exists root', private. split; [done|]. split; [done|]. split; [reflexivity|exact He].
  - exists (Err errSaturationVisual), (madeDirectory private :: l). split; [reflexivity|]. split; [|done].
    intros p Hp. apply elem_of_cons in Hp as [[= ->]|Hp]; [by right|by destruct (Hno p)].
Qed.
End contained.
