(* ===== verification/VisRender.v ===== *)
(** * README visuals: the pictures

    Models the pure part of [tools/render_readme_visuals]: [render.go] but for its source
    digests, [saturation_render.go], [architecture.go] and [setup.go].  It turns the two
    kinds of evidence into JSON documents, summaries and SVG pictures, each of which must
    be publishable: printable ASCII without an email address, a path of a host or a
    credential.  Raw strings of the source are written with [raw]. *)

From S2P Require Import Prelude GoJson JsonGrammar GoSha256 GoMarshal GoText SatWorkload SatReport VisEvidence.

(** ** Names *)

Definition visualEvidenceJSONName : gostring := bs "loopback-evidence.json".
Definition visualSummaryName : gostring := bs "loopback-evidence.txt".
Definition visualTerminalName : gostring := bs "loopback-terminal.svg".
Definition visualSequenceName : gostring := bs "stream-sequence.svg".
Definition visualArchitectureName : gostring := bs "architecture.svg".
Definition visualSetupName : gostring := bs "setup-workflow.svg".
Definition visualSaturationEvidenceName : gostring := bs "saturation-evidence.json".
Definition visualSaturationSummaryName : gostring := bs "saturation-evidence.txt".
Definition visualSaturationTerminalName : gostring := bs "saturation-terminal.svg".
Definition visualSaturationOutcomesName : gostring := bs "saturation-outcomes.svg".
Definition visualSaturationDispatchName : gostring := bs "saturation-dispatch.svg".

(** ** What may be published *)

Definition isUpper (c : Z) : bool := between 65 90 c.
Definition isLower (c : Z) : bool := between 97 122 c.
Definition isAlpha (c : Z) : bool := isUpper c || isLower c.
Definition isAlnum (c : Z) : bool := isAlpha c || is_digit c.
(** [\s] *)
Definition isBlank (c : Z) : bool := (c =? 9) || (c =? 10) || (c =? 12) || (c =? 13) || (c =? 32).
Definition oneOf (chars : string) : Z -> bool := let chars := bs chars in fun c => existsb (Z.eqb c) chars.
Definition either (f g : Z -> bool) (c : Z) : bool := f c || g c.
Definition toLower (c : Z) : Z := if isUpper c then c + 32 else c.
(** A class without regard to case, as [(?i)] makes it; the texts are ASCII. *)
Definition anyCase (f : Z -> bool) (c : Z) : bool := f c || f (toLower c) || (isLower c && f (c - 32)).

Definition pAll (l : list pattern) : pattern := foldr pSeq pEmpty l.
Definition pAny (l : list pattern) : pattern :=
  match l with [] => pClass (fun _ => false) | p :: l => foldl pAlt p l end.
Definition pExact (c : Z) : pattern := pClass (Z.eqb c).
Definition pText (s : string) : pattern := pAll (map pExact (bs s)).
Definition pWord (s : string) : pattern := pAll (map (fun c => pClass (anyCase (Z.eqb c))) (bs s)).
Definition pMaybe (p : pattern) : pattern := pAlt p pEmpty.

Definition visualEmailPattern : pattern := pAll [
  pMany 1 (either isAlnum (oneOf "._%+-")); pExact 64;
  pMany 1 (either isAlnum (oneOf ".-")); pExact 46; pMany 2 isAlpha].

Definition visualHostPathPattern : pattern := pAll [
  pAlt pStart (pClass (either (either isBlank (Z.eqb c_quote)) (oneOf "'=:,(")));
  pAlt
    (pAll [pExact 47; pAny [pText "home"; pText "Users"; pText "srv"; pText "workspace"; pText "workspaces"]; pExact 47;
           pMany 1 (either isAlnum (oneOf "._~-/"))])
    (pAll [pClass isAlpha; pExact 58; pClass (oneOf "\/")])].

Definition visualSecretPattern : pattern := pAny [
  pAll [pWord "-----BEGIN "; pMany 0 (anyCase (fun c => isUpper c || (c =? 32))); pWord "PRIVATE KEY-----"];
  pAll ([pBoundary; pAlt (pWord "AKIA") (pWord "ASIA")] ++ replicate 16 (pClass (anyCase isAlnum)) ++ [pBoundary]);
  pAll [pBoundary; pWord "gh"; pClass (anyCase (oneOf "pousr")); pWord "_"; pMany 20 isAlnum; pBoundary];
  pAll [pBoundary; pWord "github_pat_"; pMany 20 (fun c => isAlnum c || (c =? 95)); pBoundary];
  pAll [pBoundary; pWord "sk-"; pMaybe (pWord "proj-"); pMany 20 (either isAlnum (oneOf "_-")); pBoundary];
  pAll [pBoundary; pWord "xox"; pClass (anyCase (oneOf "baprs")); pWord "-"; pMany 10 (fun c => isAlnum c || (c =? 45)); pBoundary];
  pAll [pBoundary;
        pAny [pAll [pWord "api"; pMaybe (pClass (oneOf "_-")); pWord "key"]; pWord "authorization"; pWord "bearer";
              pWord "password"; pWord "passwd"; pWord "secret"; pWord "token"];
        pMany 0 isBlank; pClass (oneOf ":="); pMany 0 isBlank; pMany 1 (fun c => negb (isBlank c))]].

(** The errors of the tool are told apart by their texts, as in the source. *)
Definition visualError := string.

(** The first rune that the loop rejects. *)
Fixpoint rejectedRune (text : list Z) : option visualError :=
  match text with
  | [] => None
  | character :: text =>
      if 127 <? character then Some "visual evidence must be ASCII"%string
      else if (character <? 32) && negb (character =? 10) && negb (character =? 9)
      then Some "visual evidence contains a control character"%string
      else rejectedRune text
  end.

Definition ensureVisualPublishable (text : gostring) : option visualError :=
  if negb (utf8_valid text) then Some "visual evidence is not valid UTF-8"%string
  else
    match rejectedRune (runes text) with
    | Some e => Some e
    | None =>
        if MatchString visualEmailPattern text then Some "visual evidence contains an email address"%string
        else if MatchString visualHostPathPattern text then Some "visual evidence contains a host path"%string
        else if MatchString visualSecretPattern text then Some "visual evidence contains a possible credential"%string
        else None
    end.

(** ** Documents *)

Definition visualSVGDocument (width height : Z) (title description body : gostring) : gostring :=
  Sprintf (raw "<svg xmlns=`http://www.w3.org/2000/svg` width=`%d` height=`%d` viewBox=`0 0 %d %d` role=`img` aria-labelledby=`title desc`>
  <title id=`title`>%s</title>
  <desc id=`desc`>%s</desc>
%s</svg>
") [fmtInt width; fmtInt height; fmtInt width; fmtInt height; fmtString (EscapeString title); fmtString (EscapeString description); fmtString body].

(** ** The saturation evidence *)

Definition renderSaturationSummary (evidence : saturationVisualEvidence) : gostring :=
  let projection := ve_Projection evidence in
  let accounting := pj_Accounting projection in
  let totals := pj_ServiceTotals projection in
  let tenant := cp_Tenant (pj_CapacityProbes projection) in
  let global := cp_Global (pj_CapacityProbes projection) in
  Join [
    bs "reproduce: GOTOOLCHAIN=go1.26.5 go run ./tools/run_saturation --profile=ci --seed=20260725";
    bs "scope: " ++ ve_Scope evidence;
    Sprintf (bs "accounting: %d jobs = %d service + %d control + %d global probe; reconciled")
      [fmtInt (ac_TotalJobs accounting); fmtInt (ac_ServiceSubmissions accounting); fmtInt (ac_ControlSubmissions accounting);
       fmtInt (ac_GlobalProbeSubmissions accounting)];
    Sprintf (bs "service: %d admitted -> %d completed + %d canceled + %d queue deadline; %d rejected")
      [fmtInt (oc_Admitted totals); fmtInt (oc_Completed totals); fmtInt (oc_Canceled totals);
       fmtInt (oc_DeadlineExceeded totals); fmtInt (oc_Rejected totals)];
    Sprintf (bs "tenant capacity: %d x HTTP %d; upstream requests %d")
      [fmtInt (pb_Rejected tenant); fmtInt (pb_StatusCode tenant); fmtInt (pb_UpstreamRequests tenant)];
    Sprintf (bs "global capacity: %d x HTTP %d; upstream requests %d")
      [fmtInt (pb_Rejected global); fmtInt (pb_StatusCode global); fmtInt (pb_UpstreamRequests global)];
    Sprintf (bs "dispatch: %d observed == %d independent WDRR oracle")
      [fmtInt (Z.of_nat (length (sv_Observed (pj_Service projection)))); fmtInt (Z.of_nat (length (sv_Expected (pj_Service projection))))];
    Sprintf (bs "configured bounds: %d ms execution; <= %d ms later cleanup; separate contexts")
      [fmtInt (to_ExecutionContextMS (pj_Timeouts projection)); fmtInt (to_MaximumCleanupMS (pj_Timeouts projection))];
    bs "categorical sha256: " ++ ce_Digest (ve_Categorical evidence);
    bs "performance: false; measured diagnostic intervals excluded; no fairness, service-share, latency, or RSS claim";
    []] [c_lf].

(** The dots and the title of a terminal window, of this width and height. *)
Definition terminalFrame (rectangle title rule : gostring) : gostring :=
  rectangle ++ [c_lf]
  ++ raw "  <circle cx=`31` cy=`29` r=`7` fill=`#ff5f56`/>" ++ [c_lf]
  ++ raw "  <circle cx=`55` cy=`29` r=`7` fill=`#ffbd2e`/>" ++ [c_lf]
  ++ raw "  <circle cx=`79` cy=`29` r=`7` fill=`#27c93f`/>" ++ [c_lf]
  ++ title ++ [c_lf] ++ rule ++ [c_lf].

(** The lines of a terminal from [index] on. *)
Fixpoint terminalLines (format : gostring) (top step : Z) (colour : Z -> gostring) (index : Z) (lines : list gostring) : gostring :=
  match lines with
  | [] => []
  | line :: lines =>
      Sprintf format [fmtInt (int64 (top + int64 (index * step))); fmtString (colour index); fmtString (EscapeString line)]
      ++ terminalLines format top step colour (index + 1) lines
  end.

Definition renderSaturationTerminalSVG (summary : gostring) : gostring :=
  let lines := splitOn c_lf (trimLine summary) in
  let colour index :=
    if index =? Z.of_nat (length lines) - 1 then bs "#d2a8ff"
    else if index =? 0 then bs "#7ee787" else bs "#e6edf3" in
  let body :=
    terminalFrame (raw "  <rect width=`1400` height=`470` rx=`18` fill=`#0d1117`/>")
      (raw "  <text x=`700` y=`36` fill=`#8b949e` text-anchor=`middle` "
       ++ raw "font-family=`DejaVu Sans Mono, ui-monospace, SFMono-Regular, Consolas, monospace` "
       ++ raw "font-size=`15`>verified saturation projection without measured diagnostic intervals</text>")
      (raw "  <line x1=`0` y1=`54` x2=`1400` y2=`54` stroke=`#30363d`/>")
    ++ terminalLines (raw "  <text x=`48` y=`%d` fill=`%s` font-family=`DejaVu Sans Mono, ui-monospace, SFMono-Regular, Consolas, monospace` font-size=`14`>%s</text>" ++ [c_lf])
         86 36 colour 0 lines in
  visualSVGDocument 1400 470 (bs "SSEmaphore bounded saturation evidence")
    (bs "A terminal summary derived from one real fixed-seed production-path saturation run. It reports categorical accounting, capacity probes, oracle agreement, and explicit non-performance boundaries.")
    body.

Definition outcomesBody : gostring := raw "  <rect width=`1200` height=`650` rx=`18` fill=`#f6f8fa`/>
  <text x=`54` y=`55` fill=`#24292f` font-family=`DejaVu Sans, Arial, sans-serif` font-size=`28` font-weight=`700`>Exact request-count outcomes from one bounded run</text>
  <text x=`54` y=`84` fill=`#57606a` font-family=`DejaVu Sans, Arial, sans-serif` font-size=`16`>26 service submissions plus one control and one dedicated global-capacity probe; fixed seed 20260725.</text>

  <text x=`80` y=`137` fill=`#24292f` font-family=`DejaVu Sans, Arial, sans-serif` font-size=`17` font-weight=`700`>service submissions = %d</text>
  <rect x=`80` y=`158` width=`%d` height=`58` rx=`9` fill=`#2da44e`/>
  <rect x=`%d` y=`158` width=`%d` height=`58` fill=`#bf8700`/>
  <rect x=`%d` y=`158` width=`%d` height=`58` fill=`#8250df`/>
  <rect x=`%d` y=`158` width=`%d` height=`58` rx=`9` fill=`#cf222e`/>
  <text x=`%d` y=`194` text-anchor=`middle` fill=`#0d1117` font-family=`DejaVu Sans, Arial, sans-serif` font-size=`15` font-weight=`700`>%d completed</text>
  <text x=`%d` y=`194` text-anchor=`middle` fill=`#0d1117` font-family=`DejaVu Sans, Arial, sans-serif` font-size=`14` font-weight=`700`>%d cancel</text>
  <text x=`%d` y=`194` text-anchor=`middle` fill=`#ffffff` font-family=`DejaVu Sans, Arial, sans-serif` font-size=`14` font-weight=`700`>%d deadline</text>
  <text x=`%d` y=`194` text-anchor=`middle` fill=`#ffffff` font-family=`DejaVu Sans, Arial, sans-serif` font-size=`14` font-weight=`700`>%d reject</text>

  <rect x=`54` y=`270` width=`336` height=`244` rx=`16` fill=`#ffffff` stroke=`#0969da` stroke-width=`2`/>
  <text x=`82` y=`310` fill=`#0550ae` font-family=`DejaVu Sans, Arial, sans-serif` font-size=`20` font-weight=`700`>%s - weight %d</text>
  <text x=`82` y=`348` fill=`#24292f` font-family=`DejaVu Sans Mono, monospace` font-size=`16`>submitted             %d</text>
  <text x=`82` y=`378` fill=`#24292f` font-family=`DejaVu Sans Mono, monospace` font-size=`16`>admitted              %d</text>
  <text x=`82` y=`408` fill=`#24292f` font-family=`DejaVu Sans Mono, monospace` font-size=`16`>complete/cancel/dead  %d / %d / %d</text>
  <text x=`82` y=`438` fill=`#24292f` font-family=`DejaVu Sans Mono, monospace` font-size=`16`>rejected              %d</text>
  <text x=`82` y=`468` fill=`#24292f` font-family=`DejaVu Sans Mono, monospace` font-size=`16`>dispatches/work units %d / %d</text>

  <rect x=`432` y=`270` width=`336` height=`244` rx=`16` fill=`#ffffff` stroke=`#8250df` stroke-width=`2`/>
  <text x=`460` y=`310` fill=`#6639ba` font-family=`DejaVu Sans, Arial, sans-serif` font-size=`20` font-weight=`700`>%s - weight %d</text>
  <text x=`460` y=`348` fill=`#24292f` font-family=`DejaVu Sans Mono, monospace` font-size=`16`>submitted             %d</text>
  <text x=`460` y=`378` fill=`#24292f` font-family=`DejaVu Sans Mono, monospace` font-size=`16`>admitted              %d</text>
  <text x=`460` y=`408` fill=`#24292f` font-family=`DejaVu Sans Mono, monospace` font-size=`16`>complete/cancel/dead  %d / %d / %d</text>
  <text x=`460` y=`438` fill=`#24292f` font-family=`DejaVu Sans Mono, monospace` font-size=`16`>rejected              %d</text>
  <text x=`460` y=`468` fill=`#24292f` font-family=`DejaVu Sans Mono, monospace` font-size=`16`>dispatches/work units %d / %d</text>

  <rect x=`810` y=`270` width=`336` height=`244` rx=`16` fill=`#ffffff` stroke=`#57606a` stroke-width=`2`/>
" ++ raw "  <text x=`838` y=`310` fill=`#24292f` font-family=`DejaVu Sans, Arial, sans-serif` font-size=`20` font-weight=`700`>Boundary probes and control</text>
  <text x=`838` y=`350` fill=`#24292f` font-family=`DejaVu Sans Mono, monospace` font-size=`16`>tenant capacity  %d x %d</text>
  <text x=`838` y=`380` fill=`#57606a` font-family=`DejaVu Sans Mono, monospace` font-size=`15`>upstream requests      %d</text>
  <text x=`838` y=`420` fill=`#24292f` font-family=`DejaVu Sans Mono, monospace` font-size=`16`>global capacity  %d x %d</text>
  <text x=`838` y=`450` fill=`#57606a` font-family=`DejaVu Sans Mono, monospace` font-size=`15`>upstream requests      %d</text>
  <text x=`838` y=`490` fill=`#24292f` font-family=`DejaVu Sans Mono, monospace` font-size=`16`>control complete/upstream %d / %d</text>

  <rect x=`54` y=`550` width=`1092` height=`58` rx=`12` fill=`#fff8c5` stroke=`#d4a72c`/>
  <text x=`600` y=`585` text-anchor=`middle` fill=`#633c01` font-family=`DejaVu Sans, Arial, sans-serif` font-size=`16`>Request-count accounting only - not throughput, latency, RSS, fairness score, or service-share evidence.</text>
".

(** What is written of a tenant. *)
Definition tenantArgs (tenant : tenantReport) : list fmtArg :=
  [fmtString (EscapeString (tr_Tenant tenant)); fmtInt (tr_Weight tenant); fmtInt (tr_Submitted tenant);
   fmtInt (tr_Admitted tenant); fmtInt (tr_Completed tenant); fmtInt (tr_Canceled tenant);
   fmtInt (tr_DeadlineExceeded tenant); fmtInt (tr_Rejected tenant); fmtInt (tr_DispatchedRequests tenant);
   fmtInt (tr_DispatchedWorkUnits tenant)].

Definition renderSaturationOutcomesSVG (evidence : saturationVisualEvidence) : comp gostring :=
  let projection := ve_Projection evidence in
  let outcomes := pj_ServiceTotals projection in
  let width count := int64 (int64 count * 40) in
  let completed := width (oc_Completed outcomes) in
  let canceled := width (oc_Canceled outcomes) in
  let deadline := width (oc_DeadlineExceeded outcomes) in
  let rejected := width (oc_Rejected outcomes) in
  let tenant := cp_Tenant (pj_CapacityProbes projection) in
  let global := cp_Global (pj_CapacityProbes projection) in
  let control := pj_Control projection in
  match pj_Tenants projection !! 0%nat, pj_Tenants projection !! 1%nat with
  | Some tenantA, Some tenantB =>
      let body := Sprintf outcomesBody
        ([fmtInt (oc_Submitted outcomes); fmtInt completed; fmtInt (int64 (80 + completed)); fmtInt canceled;
          fmtInt (int64 (80 + completed + canceled)); fmtInt deadline;
          fmtInt (int64 (80 + completed + canceled + deadline)); fmtInt rejected;
          fmtInt (int64 (80 + completed ÷ 2)); fmtInt (oc_Completed outcomes);
          fmtInt (int64 (80 + completed + canceled ÷ 2)); fmtInt (oc_Canceled outcomes);
          fmtInt (int64 (80 + completed + canceled + deadline ÷ 2)); fmtInt (oc_DeadlineExceeded outcomes);
          fmtInt (int64 (80 + completed + canceled + deadline + rejected ÷ 2)); fmtInt (oc_Rejected outcomes)]
         ++ tenantArgs tenantA ++ tenantArgs tenantB
         ++ [fmtInt (pb_Rejected tenant); fmtInt (pb_StatusCode tenant); fmtInt (pb_UpstreamRequests tenant);
             fmtInt (pb_Rejected global); fmtInt (pb_StatusCode global); fmtInt (pb_UpstreamRequests global);
             fmtInt (ct_Completed control); fmtInt (ct_UpstreamRequests control)]) in
      Done (visualSVGDocument 1200 650 (bs "SSEmaphore exact saturation outcomes")
        (bs "A stacked request-count outcome chart with exact per-tenant accounting and zero-upstream tenant and global capacity probes from one fixed-seed run.")
        body)
  | _, _ => Panicked "index out of range"
  end.

(** The bar of a dispatch, its point of the oracle, its work and its position. *)
Definition dispatchBar (index : Z) (dispatch expected : dispatchRecord) : gostring :=
  let x := int64 (100 + int64 (index * 62)) in
  let height := int64 (int64 (rec_WorkUnits dispatch) * 2) in
  let y := int64 (535 - height) in
  let oracleX := int64 (100 + int64 ((int64 (rec_Position expected) - 1) * 62) + 18) in
  let oracleY := int64 (535 - int64 (int64 (rec_WorkUnits expected) * 2)) in
  let fill := if bool_decide (rec_Tenant dispatch = bs "tenant-b") then bs "#8250df" else bs "#0969da" in
  let stroke := if bool_decide (rec_Mode dispatch = bs "sse") then bs "#bf8700" else bs "#ffffff" in
  let strokeWidth := if bool_decide (rec_Mode dispatch = bs "sse") then 4 else 1 in
  Sprintf (raw "  <rect x=`%d` y=`%d` width=`36` height=`%d` rx=`5` fill=`%s` stroke=`%s` stroke-width=`%d`/>" ++ [c_lf])
    [fmtInt x; fmtInt y; fmtInt height; fmtString fill; fmtString stroke; fmtInt strokeWidth]
  ++ Sprintf (raw "  <circle cx=`%d` cy=`%d` r=`4` fill=`#ffffff` stroke=`#24292f`/>" ++ [c_lf]) [fmtInt oracleX; fmtInt oracleY]
  ++ Sprintf (raw "  <text x=`%d` y=`%d` text-anchor=`middle` fill=`#24292f` font-family=`DejaVu Sans Mono, monospace` font-size=`12`>%d</text>" ++ [c_lf])
       [fmtInt (int64 (x + 18)); fmtInt (int64 (y - 10)); fmtInt (rec_WorkUnits dispatch)]
  ++ Sprintf (raw "  <text x=`%d` y=`561` text-anchor=`middle` fill=`#57606a` font-family=`DejaVu Sans Mono, monospace` font-size=`12`>%d</text>" ++ [c_lf])
       [fmtInt (int64 (x + 18)); fmtInt (rec_Position dispatch)].

(** The loop over the dispatches; [expectedDispatches[index]] may be out of range. *)
Fixpoint dispatchBars (expected : list dispatchRecord) (index : nat) (dispatches : list dispatchRecord) : comp gostring :=
  match dispatches with
  | [] => Done []
  | dispatch :: dispatches =>
      match expected !! index with
      | None => Panicked "index out of range"
      | Some wanted =>
          match dispatchBars expected (S index) dispatches with
          | Done bars => Done (dispatchBar (Z.of_nat index) dispatch wanted ++ bars)
          | r => r
          end
      end
  end.

Definition dispatchBody : gostring := raw "  <rect width=`1400` height=`720` rx=`18` fill=`#f6f8fa`/>
  <text x=`54` y=`55` fill=`#24292f` font-family=`DejaVu Sans, Arial, sans-serif` font-size=`28` font-weight=`700`>Seeded WDRR dispatch trace - expected equals observed</text>
  <text x=`54` y=`84` fill=`#57606a` font-family=`DejaVu Sans, Arial, sans-serif` font-size=`16`>20 production-path service dispatches; bar height is the bounded scheduling estimate in work units.</text>

  <rect x=`54` y=`105` width=`18` height=`18` rx=`4` fill=`#0969da`/>
  <text x=`82` y=`120` fill=`#24292f` font-family=`DejaVu Sans, Arial, sans-serif` font-size=`14`>tenant-a - weight 1</text>
  <rect x=`250` y=`105` width=`18` height=`18` rx=`4` fill=`#8250df`/>
  <text x=`278` y=`120` fill=`#24292f` font-family=`DejaVu Sans, Arial, sans-serif` font-size=`14`>tenant-b - weight 3</text>
  <rect x=`446` y=`103` width=`22` height=`22` rx=`4` fill=`none` stroke=`#bf8700` stroke-width=`4`/>
  <text x=`480` y=`120` fill=`#24292f` font-family=`DejaVu Sans, Arial, sans-serif` font-size=`14`>SSE request</text>
  <circle cx=`628` cy=`114` r=`4` fill=`#ffffff` stroke=`#24292f`/>
  <text x=`642` y=`120` fill=`#24292f` font-family=`DejaVu Sans, Arial, sans-serif` font-size=`14`>independent oracle point - coincident on all 20</text>
  <rect x=`1070` y=`96` width=`276` height=`38` rx=`12` fill=`#dafbe1` stroke=`#2da44e`/>
  <text x=`1208` y=`120` text-anchor=`middle` fill=`#116329` font-family=`DejaVu Sans, Arial, sans-serif` font-size=`15` font-weight=`700`>ORACLE MATCH 20 / 20</text>

  <line x1=`88` y1=`535` x2=`1332` y2=`535` stroke=`#57606a` stroke-width=`2`/>
  <line x1=`88` y1=`375` x2=`1332` y2=`375` stroke=`#d0d7de` stroke-dasharray=`5 6`/>
  <line x1=`88` y1=`215` x2=`1332` y2=`215` stroke=`#d0d7de` stroke-dasharray=`5 6`/>
  <text x=`76` y=`540` text-anchor=`end` fill=`#57606a` font-family=`DejaVu Sans Mono, monospace` font-size=`13`>0</text>
  <text x=`76` y=`380` text-anchor=`end` fill=`#57606a` font-family=`DejaVu Sans Mono, monospace` font-size=`13`>80</text>
  <text x=`76` y=`220` text-anchor=`end` fill=`#57606a` font-family=`DejaVu Sans Mono, monospace` font-size=`13`>160</text>
  <text x=`29` y=`360` transform=`rotate(-90 29 360)` fill=`#57606a` font-family=`DejaVu Sans, Arial, sans-serif` font-size=`14`>estimated work units</text>
%s
  <text x=`710` y=`589` text-anchor=`middle` fill=`#57606a` font-family=`DejaVu Sans, Arial, sans-serif` font-size=`14`>observed dispatch position</text>
  <rect x=`54` y=`620` width=`1292` height=`58` rx=`12` fill=`#fff8c5` stroke=`#d4a72c`/>
  <text x=`700` y=`655` text-anchor=`middle` fill=`#633c01` font-family=`DejaVu Sans, Arial, sans-serif` font-size=`15`>Weights are inputs. This finite trace is not a 3:1 allocation, fairness score, throughput, or latency result.</text>
".

Definition renderSaturationDispatchSVG (evidence : saturationVisualEvidence) : comp gostring :=
  let service := pj_Service (ve_Projection evidence) in
  match dispatchBars (sv_Expected service) 0 (sv_Observed service) with
  | Done bars =>
      Done (visualSVGDocument 1400 720 (bs "SSEmaphore fixed-seed dispatch trace")
        (bs "Twenty observed weighted deficit round-robin dispatches plotted by estimated work units and tenant, with independent oracle points coincident at every position. Two SSE requests are outlined.")
        (Sprintf dispatchBody [fmtString bars]))
  | r => r
  end.

(** Files by name. A loop over them runs in an order that is not specified, so which of
    several errors is returned is not either; here it is that of the first name. *)
Abbreviation artifacts := (gmap gostring gostring).

Fixpoint firstUnpublishable (files : list (gostring * gostring)) : option visualError :=
  match files with
  | [] => None
  | (_, payload) :: files =>
      match ensureVisualPublishable payload with Some e => Some e | None => firstUnpublishable files end
  end.

Definition visualSaturationFailed : visualError := "saturation visual evidence failed".

Definition buildSaturationVisualArtifacts (evidence : saturationVisualEvidence) : comp (result visualError artifacts) :=
  match validateSaturationVisualEvidence evidence with
  | Err _ => Done (Err visualSaturationFailed)
  | Ok _ =>
      let evidenceJSON := marshalIndent 0 (saturationVisualEvidence_json evidence) ++ [c_lf] in
      let summary := renderSaturationSummary evidence in
      match renderSaturationOutcomesSVG evidence, renderSaturationDispatchSVG evidence with
      | Done outcomes, Done dispatches =>
          let built : artifacts := list_to_map [
            (visualSaturationEvidenceName, evidenceJSON); (visualSaturationSummaryName, summary);
            (visualSaturationTerminalName, renderSaturationTerminalSVG summary);
            (visualSaturationOutcomesName, outcomes); (visualSaturationDispatchName, dispatches)] in
          match firstUnpublishable (map_to_list built) with
          | Some e => Done (Err e)
          | None => Done (Ok built)
          end
      | Done _, Panicked msg => Panicked msg
      | Panicked msg, _ => Panicked msg
      | _, _ => OutOfFuel
      end
  end.

(** ** The loopback evidence *)

Record demoEvidence := mkDemo {
  de_GoVersion : gostring;
  de_OperatingSystem : gostring;
  de_ValidateStdout : gostring;
  de_ValidatePortStayedReserved : bool;
  de_ValidateUpstreamCalls : Z;
  de_ValidateUpstreamConnections : Z;
  de_BufferedStatus : Z;
  de_BufferedProtocolMajor : Z;
  de_BufferedBodyExact : bool;
  de_BufferedSafeHeaders : bool;
  de_StreamStatus : Z;
  de_StreamProtocolMajor : Z;
  de_StreamEvents : list gostring;
  de_FirstChunkBeforeRelease : bool;
  de_StreamSafeHeaders : bool;
  de_TenantCredentialAbsentUpstream : bool;
  de_UpstreamCredentialAbsentDownstream : bool;
  de_UpstreamHeadersStripped : bool;
  de_ClientHeadersAbsentUpstream : bool;
  de_UpstreamHeaderAllowlistExact : bool;
  de_SeparateUpstreamCredential : bool;
  de_InflightStreamCompleted : bool;
  de_ServeOutputEmpty : bool;
  de_ShutdownExitCode : Z;
  de_ListenerReleased : bool;
  de_UpstreamCalls : Z;
}.

Fixpoint equalStrings (these those : list gostring) : bool :=
  match these, those with
  | [], [] => true
  | a :: these, b :: those => bool_decide (a = b) && equalStrings these those
  | _, _ => false
  end.

Definition validateDemoEvidence (e : demoEvidence) : option visualError :=
  let expectedEvents := [bs "chunk-1"; bs "chunk-2"; bs "[DONE]"; bs "clean-eof"] in
  if negb (bool_decide (de_GoVersion e = visualExpectedGo)) then Some "unexpected Go toolchain"%string
  else if negb (bool_decide (de_OperatingSystem e = visualExpectedOS)) then Some "unexpected operating system"%string
  else if negb (bool_decide (de_ValidateStdout e = bs "gateway policy is valid" ++ [c_lf])) then Some "unexpected validate stdout"%string
  else if negb (de_ValidatePortStayedReserved e) || negb (de_ValidateUpstreamConnections e =? 0) || negb (de_ValidateUpstreamCalls e =? 0)
  then Some "validate crossed a runtime boundary"%string
  else if negb (de_BufferedStatus e =? 200) || negb (de_BufferedProtocolMajor e =? 1) then Some "unexpected buffered response"%string
  else if negb (de_BufferedBodyExact e) || negb (de_BufferedSafeHeaders e) then Some "buffered response evidence failed"%string
  else if negb (de_StreamStatus e =? 200) || negb (de_StreamProtocolMajor e =? 1) then Some "unexpected streaming response"%string
  else if negb (equalStrings (de_StreamEvents e) expectedEvents) then Some "unexpected streaming event order"%string
  else if negb (de_FirstChunkBeforeRelease e) || negb (de_StreamSafeHeaders e) then Some "streaming boundary evidence failed"%string
  else if negb (de_TenantCredentialAbsentUpstream e) then Some "tenant credential isolation failed"%string
  else if negb (de_UpstreamCredentialAbsentDownstream e) then Some "upstream credential isolation failed"%string
  else if negb (de_UpstreamHeadersStripped e) || negb (de_ClientHeadersAbsentUpstream e) then Some "header isolation failed"%string
  else if negb (de_UpstreamHeaderAllowlistExact e) || negb (de_SeparateUpstreamCredential e)
  then Some "upstream construction evidence failed"%string
  else if negb (de_InflightStreamCompleted e) then Some "in-flight stream did not complete"%string
  else if negb (de_ServeOutputEmpty e) || negb (de_ShutdownExitCode e =? 0) then Some "serve process did not terminate cleanly"%string
  else if negb (de_ListenerReleased e) || negb (de_UpstreamCalls e =? 2) then Some "terminal resource evidence failed"%string
  else None.

Definition documentScope : gostring := bs "one Linux gateway instance, one tenant, two synthetic numeric-loopback requests".

(** [int] values are written with their signs. *)
Definition jint (n : Z) : jtree := JScalar (TNumber (formatInt n)).

(** The order of the events, without the clean end if that is the last; [None] is the
    nil slice, which is what a copy of no events is. *)
Definition eventOrderOf (e : demoEvidence) : option (list gostring) * bool :=
  let cleanEOF := bool_decide (last (de_StreamEvents e) = Some (bs "clean-eof")) in
  (match de_StreamEvents e with
   | [] => None
   | events => Some (if cleanEOF then removelast events else events)
   end, cleanEOF).

#[local] Open Scope string_scope.

(** [evidenceDocument], with the JSON names of its struct types. *)
Definition evidenceDocument (e : demoEvidence) : jtree :=
  let '(eventOrder, cleanEOF) := eventOrderOf e in
  jobject [
    ("schema", jstring (bs "ssemaphore.loopback-evidence.v1")); ("scope", jstring documentScope);
    ("toolchain", jstring (de_GoVersion e)); ("platform", jstring (de_OperatingSystem e));
    ("validate", jobject [
      ("accepted", jbool true); ("listener_remained_reserved", jbool (de_ValidatePortStayedReserved e));
      ("upstream_connections", jint (de_ValidateUpstreamConnections e));
      ("upstream_http_requests", jint (de_ValidateUpstreamCalls e))]);
    ("buffered", jobject [
      ("status", jint (de_BufferedStatus e)); ("protocol_major", jint (de_BufferedProtocolMajor e));
      ("upstream_attempts", jint 1); ("body_exact", jbool (de_BufferedBodyExact e));
      ("safe_response_headers", jbool (de_BufferedSafeHeaders e))]);
    ("streaming", jobject [
      ("status", jint (de_StreamStatus e)); ("protocol_major", jint (de_StreamProtocolMajor e));
      ("upstream_attempts", jint 1); ("first_event_before_upstream_release", jbool (de_FirstChunkBeforeRelease e));
      ("event_order", match eventOrder with None => JScalar TNull | Some events => JArr (map jstring events) end);
      ("clean_eof", jbool cleanEOF); ("safe_response_headers", jbool (de_StreamSafeHeaders e))]);
    ("isolation", jobject [
      ("upstream_header_allowlist_exact", jbool (de_UpstreamHeaderAllowlistExact e));
      ("separate_upstream_credential", jbool (de_SeparateUpstreamCredential e));
      ("tenant_credential_forwarded", jbool (negb (de_TenantCredentialAbsentUpstream e)));
      ("client_headers_forwarded", jbool (negb (de_ClientHeadersAbsentUpstream e)));
      ("upstream_headers_relayed", jbool (negb (de_UpstreamHeadersStripped e)));
      ("upstream_credential_relayed", jbool (negb (de_UpstreamCredentialAbsentDownstream e)))]);
    ("shutdown", jobject [
      ("signal", jstring (bs "SIGTERM")); ("inflight_stream_completed", jbool (de_InflightStreamCompleted e));
      ("exit_code", jint (de_ShutdownExitCode e)); ("process_output_empty", jbool (de_ServeOutputEmpty e));
      ("listener_released", jbool (de_ListenerReleased e))])].

#[local] Close Scope string_scope.

Definition arrow : gostring := bs " -> ".

Definition renderEvidenceSummary (e : demoEvidence) : gostring :=
  Join [
    bs "verified run: GOTOOLCHAIN=go1.26.5 go run ./tools/render_readme_visuals";
    bs "validate: " ++ trimLine (de_ValidateStdout e);
    Sprintf (bs "validate boundary: port reserved; upstream connections %d; HTTP requests %d")
      [fmtInt (de_ValidateUpstreamConnections e); fmtInt (de_ValidateUpstreamCalls e)];
    Sprintf (bs "buffered relay: HTTP/%d %d; exact validated body; safe headers")
      [fmtInt (de_BufferedProtocolMajor e); fmtInt (de_BufferedStatus e)];
    bs "stream relay: " ++ Join (de_StreamEvents e) arrow;
    bs "stream ordering: first chunk arrived before upstream release";
    bs "credential boundary: tenant absent upstream; upstream absent downstream";
    bs "header boundary: client and upstream private headers stripped";
    Sprintf (bs "shutdown: SIGTERM -> exit %d; in-flight stream completed; listener released") [fmtInt (de_ShutdownExitCode e)];
    []] [c_lf].

Definition renderTerminalSVG (summary : gostring) : gostring :=
  let lines := splitOn c_lf (trimLine summary) in
  let colour index := if index =? 0 then bs "#7ee787" else bs "#e6edf3" in
  let body :=
    terminalFrame (raw "  <rect width=`1200` height=`390` rx=`17` fill=`#0d1117`/>")
      (raw "  <text x=`600` y=`36` fill=`#8b949e` text-anchor=`middle` "
       ++ raw "font-family=`DejaVu Sans Mono, ui-monospace, SFMono-Regular, Consolas, monospace` "
       ++ raw "font-size=`15`>verified numeric-loopback summary</text>")
      (raw "  <line x1=`0` y1=`54` x2=`1200` y2=`54` stroke=`#30363d`/>")
    ++ terminalLines (raw "  <text x=`54` y=`%d` fill=`%s` font-family=`DejaVu Sans Mono, ui-monospace, SFMono-Regular, Consolas, monospace` font-size=`16`>%s</text>" ++ [c_lf])
         90 33 colour 0 lines in
  visualSVGDocument 1200 390 (bs "SSEmaphore verified loopback summary")
    (bs "Content-free evidence summary derived from real validate, buffered relay, streaming relay, credential isolation, and SIGTERM shutdown checks.")
    body.

Definition sequenceBody : gostring := raw "  <defs>
    <marker id=`arrow-blue` viewBox=`0 0 10 10` refX=`9` refY=`5` markerWidth=`7` markerHeight=`7` orient=`auto-start-reverse`>
      <path d=`M 0 0 L 10 5 L 0 10 z` fill=`#0969da`/>
    </marker>
    <marker id=`arrow-purple` viewBox=`0 0 10 10` refX=`9` refY=`5` markerWidth=`7` markerHeight=`7` orient=`auto-start-reverse`>
      <path d=`M 0 0 L 10 5 L 0 10 z` fill=`#8250df`/>
    </marker>
  </defs>
  <rect width=`1200` height=`650` rx=`18` fill=`#f6f8fa`/>
  <text x=`42` y=`50` fill=`#24292f` font-family=`DejaVu Sans, Arial, sans-serif` font-size=`27` font-weight=`700`>Channel-driven proof of early SSE delivery</text>
  <text x=`42` y=`79` fill=`#57606a` font-family=`DejaVu Sans, Arial, sans-serif` font-size=`16`>A real gateway process relays the first validated event before the controlled upstream is allowed to continue.</text>

  <rect x=`55` y=`108` width=`260` height=`54` rx=`11` fill=`#ffffff` stroke=`#54aeff` stroke-width=`2`/>
  <text x=`185` y=`141` fill=`#0550ae` text-anchor=`middle` font-family=`DejaVu Sans, Arial, sans-serif` font-size=`16` font-weight=`700`>demo client / coordinator</text>
  <rect x=`470` y=`108` width=`260` height=`54` rx=`11` fill=`#ffffff` stroke=`#8250df` stroke-width=`2`/>
  <text x=`600` y=`141` fill=`#6639ba` text-anchor=`middle` font-family=`DejaVu Sans, Arial, sans-serif` font-size=`16` font-weight=`700`>real SSEmaphore process</text>
  <rect x=`885` y=`108` width=`260` height=`54` rx=`11` fill=`#ffffff` stroke=`#54aeff` stroke-width=`2`/>
  <text x=`1015` y=`141` fill=`#0550ae` text-anchor=`middle` font-family=`DejaVu Sans, Arial, sans-serif` font-size=`16` font-weight=`700`>controlled HTTP/1 upstream</text>

  <line x1=`185` y1=`162` x2=`185` y2=`516` stroke=`#8c959f` stroke-dasharray=`6 7`/>
  <line x1=`600` y1=`162` x2=`600` y2=`516` stroke=`#8c959f` stroke-dasharray=`6 7`/>
  <line x1=`1015` y1=`162` x2=`1015` y2=`516` stroke=`#8c959f` stroke-dasharray=`6 7`/>

  <path d=`M 185 196 L 590 196` fill=`none` stroke=`#0969da` stroke-width=`3` marker-end=`url(#arrow-blue)`/>
  <text x=`388` y=`186` fill=`#24292f` text-anchor=`middle` font-family=`DejaVu Sans, Arial, sans-serif` font-size=`14`>POST stream=true with tenant bearer</text>
  <path d=`M 610 234 L 1005 234` fill=`none` stroke=`#8250df` stroke-width=`3` marker-end=`url(#arrow-purple)`/>
  <text x=`808` y=`224` fill=`#24292f` text-anchor=`middle` font-family=`DejaVu Sans, Arial, sans-serif` font-size=`14`>fixed HTTP/1 POST with separate bearer</text>
  <path d=`M 1005 272 L 610 272` fill=`none` stroke=`#0969da` stroke-width=`3` marker-end=`url(#arrow-blue)`/>
  <text x=`808` y=`262` fill=`#24292f` text-anchor=`middle` font-family=`DejaVu Sans, Arial, sans-serif` font-size=`14`>chunk-1 + upstream flush, then wait</text>
  <rect x=`488` y=`287` width=`224` height=`48` rx=`8` fill=`#fbefff` stroke=`#bf8fef`/>
  <text x=`600` y=`307` fill=`#6639ba` text-anchor=`middle` font-family=`DejaVu Sans, Arial, sans-serif` font-size=`13` font-weight=`700`>validate complete event</text>
  <text x=`600` y=`326` fill=`#6639ba` text-anchor=`middle` font-family=`DejaVu Sans, Arial, sans-serif` font-size=`12`>write exact bytes + flush</text>
  <path d=`M 590 354 L 195 354` fill=`none` stroke=`#8250df` stroke-width=`3` marker-end=`url(#arrow-purple)`/>
  <text x=`388` y=`344` fill=`#24292f` text-anchor=`middle` font-family=`DejaVu Sans, Arial, sans-serif` font-size=`14`>client reads complete chunk-1</text>
" ++ raw "  <rect x=`55` y=`372` width=`260` height=`58` rx=`9` fill=`#dafbe1` stroke=`#1a7f37` stroke-width=`2`/>
  <text x=`185` y=`396` fill=`#1a7f37` text-anchor=`middle` font-family=`DejaVu Sans, Arial, sans-serif` font-size=`13` font-weight=`700`>proof gate satisfied</text>
  <text x=`185` y=`417` fill=`#57606a` text-anchor=`middle` font-family=`DejaVu Sans, Arial, sans-serif` font-size=`12`>chunk observed before release</text>
  <path d=`M 195 448 L 590 448` fill=`none` stroke=`#0969da` stroke-width=`3` marker-end=`url(#arrow-blue)`/>
  <text x=`388` y=`441` fill=`#24292f` text-anchor=`middle` font-family=`DejaVu Sans, Arial, sans-serif` font-size=`13`>SIGTERM, then release upstream</text>
  <path d=`M 1005 478 L 610 478` fill=`none` stroke=`#0969da` stroke-width=`3` marker-end=`url(#arrow-blue)`/>
  <text x=`808` y=`468` fill=`#24292f` text-anchor=`middle` font-family=`DejaVu Sans, Arial, sans-serif` font-size=`13`>chunk-2 + [DONE] + clean EOF</text>
  <path d=`M 590 508 L 195 508` fill=`none` stroke=`#8250df` stroke-width=`3` marker-end=`url(#arrow-purple)`/>
  <text x=`388` y=`498` fill=`#24292f` text-anchor=`middle` font-family=`DejaVu Sans, Arial, sans-serif` font-size=`13`>exact remainder; handled drain exits 0</text>

  <rect x=`40` y=`540` width=`1120` height=`82` rx=`12` fill=`#ffffff` stroke=`#d0d7de`/>
  <text x=`61` y=`567` fill=`#24292f` font-family=`DejaVu Sans, Arial, sans-serif` font-size=`14` font-weight=`700`>Observed order: %s</text>
  <text x=`61` y=`592` fill=`#57606a` font-family=`DejaVu Sans, Arial, sans-serif` font-size=`13`>The channel handshake proves logical delivery before release; it does not claim TCP packet boundaries or zero physical read-ahead.</text>
  <text x=`61` y=`612` fill=`#57606a` font-family=`DejaVu Sans, Arial, sans-serif` font-size=`13`>Scope: one synthetic loopback run; no fairness, overload, public-edge TLS, GPU, telemetry, or real-model claim.</text>
".

Definition renderSequenceSVG (e : demoEvidence) : gostring :=
  visualSVGDocument 1200 650 (bs "SSEmaphore streaming order proof")
    (bs "Sequence showing a real gateway deliver chunk one before the demo releases the controlled upstream, then complete during handled SIGTERM drain.")
    (Sprintf sequenceBody [fmtString (EscapeString (Join (de_StreamEvents e) arrow))]).

(** ** The two pictures that depend on nothing *)

Definition renderArchitectureSVG : gostring :=
  visualSVGDocument 1600 1120 (bs "SSEmaphore implemented architecture")
    (bs "Implemented startup, bounded HTTP/1 admission, weighted deficit scheduling, fixed upstream transport, response validation, permit lifecycle, and signal drain boundaries. Future evidence systems are explicitly separated.")
    (raw "  <defs>
    <marker id=`architecture-arrow-blue` viewBox=`0 0 10 10` refX=`9` refY=`5` markerWidth=`7` markerHeight=`7` orient=`auto`>
      <path d=`M 0 0 L 10 5 L 0 10 z` fill=`#0969da`/>
    </marker>
    <marker id=`architecture-arrow-purple` viewBox=`0 0 10 10` refX=`9` refY=`5` markerWidth=`7` markerHeight=`7` orient=`auto`>
      <path d=`M 0 0 L 10 5 L 0 10 z` fill=`#8250df`/>
    </marker>
  </defs>
  <rect width=`1600` height=`1120` rx=`20` fill=`#f6f8fa`/>
  <text x=`42` y=`51` fill=`#24292f` font-family=`DejaVu Sans, Arial, sans-serif` font-size=`29` font-weight=`700`>SSEmaphore: implemented control and data boundaries</text>
  <text x=`42` y=`82` fill=`#57606a` font-family=`DejaVu Sans, Arial, sans-serif` font-size=`16`>Every solid box maps to runnable code; dashed scope at the bottom is deliberately outside the current implementation.</text>

  <rect x=`35` y=`104` width=`1530` height=`207` rx=`15` fill=`#ffffff` stroke=`#d0d7de` stroke-width=`2`/>
  <text x=`55` y=`137` fill=`#0550ae` font-family=`DejaVu Sans, Arial, sans-serif` font-size=`16` font-weight=`700`>1. STARTUP IS COMPLETE BEFORE LISTENER OWNERSHIP</text>

  <rect x=`55` y=`157` width=`275` height=`120` rx=`11` fill=`#ddf4ff` stroke=`#54aeff` stroke-width=`2`/>
  <text x=`192` y=`183` fill=`#0550ae` text-anchor=`middle` font-family=`DejaVu Sans, Arial, sans-serif` font-size=`15` font-weight=`700`>PRIVATE POLICY INPUT</text>
  <text x=`75` y=`207` fill=`#24292f` font-family=`DejaVu Sans, Arial, sans-serif` font-size=`13`>0600 schema-v2 policy</text>
  <text x=`75` y=`229` fill=`#24292f` font-family=`DejaVu Sans, Arial, sans-serif` font-size=`13`>exact credential env names</text>
  <text x=`75` y=`251` fill=`#57606a` font-family=`DejaVu Sans, Arial, sans-serif` font-size=`12`>strict, size-bounded JSON decode</text>

  <path d=`M 330 217 L 363 217` fill=`none` stroke=`#0969da` stroke-width=`3` marker-end=`url(#architecture-arrow-blue)`/>

  <rect x=`365` y=`157` width=`280` height=`120` rx=`11` fill=`#fbefff` stroke=`#bf8fef` stroke-width=`2`/>
  <text x=`505` y=`183` fill=`#6639ba` text-anchor=`middle` font-family=`DejaVu Sans, Arial, sans-serif` font-size=`15` font-weight=`700`>CONSUME SECRETS</text>
  <text x=`385` y=`207` fill=`#24292f` font-family=`DejaVu Sans, Arial, sans-serif` font-size=`13`>hash tenant credentials</text>
  <text x=`385` y=`229` fill=`#24292f` font-family=`DejaVu Sans, Arial, sans-serif` font-size=`12`>separate upstream bearer in transport</text>
  <text x=`385` y=`251` fill=`#57606a` font-family=`DejaVu Sans, Arial, sans-serif` font-size=`12`>consume and unset env before bind</text>

  <path d=`M 645 217 L 678 217` fill=`none` stroke=`#0969da` stroke-width=`3` marker-end=`url(#architecture-arrow-blue)`/>

  <rect x=`680` y=`157` width=`365` height=`120` rx=`11` fill=`#ffffff` stroke=`#8250df` stroke-width=`2`/>
  <text x=`862` y=`183` fill=`#6639ba` text-anchor=`middle` font-family=`DejaVu Sans, Arial, sans-serif` font-size=`15` font-weight=`700`>FULL PRE-BIND PREFLIGHT</text>
  <text x=`700` y=`207` fill=`#24292f` font-family=`DejaVu Sans, Arial, sans-serif` font-size=`13`>parser + scheduler + handler</text>
  <text x=`700` y=`229` fill=`#24292f` font-family=`DejaVu Sans, Arial, sans-serif` font-size=`13`>HTTP/1 upstream transport + server config</text>
  <text x=`700` y=`251` fill=`#57606a` font-family=`DejaVu Sans, Arial, sans-serif` font-size=`12`>construct, cross-check, and retain owned resources</text>

" ++ raw "  <path d=`M 1045 217 C 1070 217 1067 190 1095 190` fill=`none` stroke=`#0969da` stroke-width=`3` marker-end=`url(#architecture-arrow-blue)`/>
  <path d=`M 1045 217 C 1080 217 1285 244 1320 244` fill=`none` stroke=`#8250df` stroke-width=`3` marker-end=`url(#architecture-arrow-purple)`/>

  <rect x=`1097` y=`153` width=`200` height=`76` rx=`10` fill=`#dafbe1` stroke=`#1a7f37` stroke-width=`2`/>
  <text x=`1197` y=`179` fill=`#1a7f37` text-anchor=`middle` font-family=`DejaVu Sans, Arial, sans-serif` font-size=`15` font-weight=`700`>validate</text>
  <text x=`1197` y=`200` fill=`#24292f` text-anchor=`middle` font-family=`DejaVu Sans, Arial, sans-serif` font-size=`12`>close prepared graph</text>
  <text x=`1197` y=`218` fill=`#57606a` text-anchor=`middle` font-family=`DejaVu Sans, Arial, sans-serif` font-size=`11`>no bind, signals, or upstream call</text>

  <rect x=`1322` y=`207` width=`220` height=`76` rx=`10` fill=`#fbefff` stroke=`#8250df` stroke-width=`2`/>
  <text x=`1432` y=`233` fill=`#6639ba` text-anchor=`middle` font-family=`DejaVu Sans, Arial, sans-serif` font-size=`15` font-weight=`700`>serve</text>
  <text x=`1432` y=`254` fill=`#24292f` text-anchor=`middle` font-family=`DejaVu Sans, Arial, sans-serif` font-size=`12`>subscribe, then bind</text>
  <text x=`1432` y=`272` fill=`#57606a` text-anchor=`middle` font-family=`DejaVu Sans, Arial, sans-serif` font-size=`11`>exact numeric loopback TCP</text>

  <rect x=`35` y=`329` width=`1530` height=`354` rx=`15` fill=`#ffffff` stroke=`#d0d7de` stroke-width=`2`/>
  <text x=`55` y=`363` fill=`#0550ae` font-family=`DejaVu Sans, Arial, sans-serif` font-size=`16` font-weight=`700`>2. REQUEST ADMISSION AND DISPATCH</text>

  <rect x=`55` y=`389` width=`280` height=`238` rx=`12` fill=`#ddf4ff` stroke=`#54aeff` stroke-width=`2`/>
  <text x=`195` y=`416` fill=`#0550ae` text-anchor=`middle` font-family=`DejaVu Sans, Arial, sans-serif` font-size=`14` font-weight=`700`>BOUNDED HTTP/1</text>
  <text x=`195` y=`437` fill=`#0550ae` text-anchor=`middle` font-family=`DejaVu Sans, Arial, sans-serif` font-size=`14` font-weight=`700`>LISTENER + HEADER GATE</text>
  <text x=`75` y=`466` fill=`#24292f` font-family=`DejaVu Sans, Arial, sans-serif` font-size=`12`>numeric-loopback listener</text>
  <text x=`75` y=`488` fill=`#24292f` font-family=`DejaVu Sans, Arial, sans-serif` font-size=`12`>connection + header bounds; deadlines</text>
  <text x=`75` y=`510` fill=`#24292f` font-family=`DejaVu Sans, Arial, sans-serif` font-size=`12`>exact path + POST method</text>
  <text x=`75` y=`532` fill=`#24292f` font-family=`DejaVu Sans, Arial, sans-serif` font-size=`12`>bearer auth -&gt; immutable tenant</text>
  <text x=`75` y=`554` fill=`#24292f` font-family=`DejaVu Sans, Arial, sans-serif` font-size=`12`>media type + queue-timeout header</text>
  <text x=`75` y=`576` fill=`#24292f` font-family=`DejaVu Sans, Arial, sans-serif` font-size=`12`>Content-Length precheck</text>
  <text x=`75` y=`602` fill=`#57606a` font-family=`DejaVu Sans, Arial, sans-serif` font-size=`11`>HTTP/2 rejected; no body read yet</text>

  <path d=`M 335 508 L 353 508` fill=`none` stroke=`#0969da` stroke-width=`3` marker-end=`url(#architecture-arrow-blue)`/>

  <rect x=`355` y=`389` width=`230` height=`238` rx=`12` fill=`#fff8c5` stroke=`#bf8700` stroke-width=`2`/>
  <text x=`470` y=`416` fill=`#7d4e00` text-anchor=`middle` font-family=`DejaVu Sans, Arial, sans-serif` font-size=`14` font-weight=`700`>PREDISPATCH</text>
" ++ raw "  <text x=`470` y=`437` fill=`#7d4e00` text-anchor=`middle` font-family=`DejaVu Sans, Arial, sans-serif` font-size=`14` font-weight=`700`>COUNT SLOTS</text>
  <text x=`375` y=`474` fill=`#7d4e00` font-family=`DejaVu Sans, Arial, sans-serif` font-size=`12` font-weight=`700`>nonblocking, count only</text>
  <text x=`375` y=`499` fill=`#24292f` font-family=`DejaVu Sans, Arial, sans-serif` font-size=`12`>tenant first, then global</text>
  <text x=`375` y=`524` fill=`#24292f` font-family=`DejaVu Sans, Arial, sans-serif` font-size=`12`>acquire before body read</text>
  <text x=`375` y=`549` fill=`#24292f` font-family=`DejaVu Sans, Arial, sans-serif` font-size=`11`>hold through Scheduler.Acquire</text>
  <text x=`375` y=`574` fill=`#24292f` font-family=`DejaVu Sans, Arial, sans-serif` font-size=`11`>release when Acquire returns</text>
  <text x=`375` y=`601` fill=`#57606a` font-family=`DejaVu Sans, Arial, sans-serif` font-size=`11`>no byte or work accounting</text>

  <path d=`M 585 508 L 603 508` fill=`none` stroke=`#0969da` stroke-width=`3` marker-end=`url(#architecture-arrow-blue)`/>

  <rect x=`605` y=`389` width=`285` height=`238` rx=`12` fill=`#ffffff` stroke=`#54aeff` stroke-width=`2`/>
  <text x=`747` y=`419` fill=`#0550ae` text-anchor=`middle` font-family=`DejaVu Sans, Arial, sans-serif` font-size=`14` font-weight=`700`>BOUNDED BODY + RESERVATION</text>
  <text x=`625` y=`458` fill=`#24292f` font-family=`DejaVu Sans, Arial, sans-serif` font-size=`12`>bounded body read + timeout</text>
  <text x=`625` y=`483` fill=`#24292f` font-family=`DejaVu Sans, Arial, sans-serif` font-size=`12`>strict Chat Completions JSON</text>
  <text x=`625` y=`508` fill=`#24292f` font-family=`DejaVu Sans, Arial, sans-serif` font-size=`12`>retain exact raw body bytes</text>
  <text x=`625` y=`533` fill=`#24292f` font-family=`DejaVu Sans, Arial, sans-serif` font-size=`12`>body + message/text limits</text>
  <text x=`625` y=`558` fill=`#24292f` font-family=`DejaVu Sans, Arial, sans-serif` font-size=`12`>checked reservation work units</text>
  <text x=`625` y=`590` fill=`#57606a` font-family=`DejaVu Sans, Arial, sans-serif` font-size=`11`>mode + downstream Flush check</text>

  <path d=`M 890 508 L 908 508` fill=`none` stroke=`#8250df` stroke-width=`3` marker-end=`url(#architecture-arrow-purple)`/>

  <rect x=`910` y=`389` width=`395` height=`238` rx=`12` fill=`#fbefff` stroke=`#8250df` stroke-width=`2`/>
  <text x=`1107` y=`419` fill=`#6639ba` text-anchor=`middle` font-family=`DejaVu Sans, Arial, sans-serif` font-size=`14` font-weight=`700`>Scheduler.Acquire + CONFIG-ORDER WDRR</text>
  <text x=`930` y=`448` fill=`#6639ba` font-family=`DejaVu Sans, Arial, sans-serif` font-size=`12` font-weight=`700`>absolute queue deadline fixed before mailbox</text>
  <text x=`930` y=`470` fill=`#24292f` font-family=`DejaVu Sans, Arial, sans-serif` font-size=`12`>tenant, then global queue checks</text>
  <text x=`930` y=`492` fill=`#24292f` font-family=`DejaVu Sans, Arial, sans-serif` font-size=`12`>count + exact body bytes + estimated work</text>
  <text x=`930` y=`514` fill=`#24292f` font-family=`DejaVu Sans, Arial, sans-serif` font-size=`12`>per-tenant FIFO; config-order weighted visits</text>
  <text x=`930` y=`536` fill=`#24292f` font-family=`DejaVu Sans, Arial, sans-serif` font-size=`12`>carried bounded deficit; empty queue resets it</text>
" ++ raw "  <text x=`930` y=`558` fill=`#24292f` font-family=`DejaVu Sans, Arial, sans-serif` font-size=`12`>funded-head barrier when global work fragments</text>
  <text x=`930` y=`582` fill=`#6639ba` font-family=`DejaVu Sans, Arial, sans-serif` font-size=`12` font-weight=`700`>dispatch: tenant + global inflight count + work</text>
  <text x=`930` y=`604` fill=`#cf222e` font-family=`DejaVu Sans, Arial, sans-serif` font-size=`12` font-weight=`700`>NO INFLIGHT-BYTE COUNTER</text>

  <path d=`M 1305 508 L 1323 508` fill=`none` stroke=`#8250df` stroke-width=`3` marker-end=`url(#architecture-arrow-purple)`/>

  <rect x=`1325` y=`389` width=`220` height=`238` rx=`12` fill=`#dafbe1` stroke=`#1a7f37` stroke-width=`2`/>
  <text x=`1435` y=`419` fill=`#1a7f37` text-anchor=`middle` font-family=`DejaVu Sans, Arial, sans-serif` font-size=`15` font-weight=`700`>PERMIT</text>
  <text x=`1345` y=`456` fill=`#24292f` font-family=`DejaVu Sans, Arial, sans-serif` font-size=`13`>created after dispatch</text>
  <text x=`1345` y=`479` fill=`#24292f` font-family=`DejaVu Sans, Arial, sans-serif` font-size=`13`>owns cancel context</text>
  <text x=`1345` y=`502` fill=`#24292f` font-family=`DejaVu Sans, Arial, sans-serif` font-size=`13`>one upstream attempt</text>
  <text x=`1345` y=`533` fill=`#57606a` font-family=`DejaVu Sans, Arial, sans-serif` font-size=`12`>capacity remains charged</text>
  <text x=`1345` y=`554` fill=`#57606a` font-family=`DejaVu Sans, Arial, sans-serif` font-size=`12`>until terminal Finish</text>
  <text x=`1345` y=`585` fill=`#1a7f37` font-family=`DejaVu Sans, Arial, sans-serif` font-size=`12` font-weight=`700`>worker becomes sole owner</text>

  <rect x=`35` y=`701` width=`1530` height=`257` rx=`15` fill=`#ffffff` stroke=`#d0d7de` stroke-width=`2`/>
  <text x=`55` y=`735` fill=`#0550ae` font-family=`DejaVu Sans, Arial, sans-serif` font-size=`16` font-weight=`700`>3. UPSTREAM RESPONSE AND EXACT-ONCE TERMINAL ACCOUNTING</text>

  <path d=`M 1435 627 L 1435 758` fill=`none` stroke=`#8250df` stroke-width=`3` marker-end=`url(#architecture-arrow-purple)`/>

  <rect x=`1200` y=`757` width=`345` height=`173` rx=`12` fill=`#ddf4ff` stroke=`#54aeff` stroke-width=`2`/>
  <text x=`1372` y=`784` fill=`#0550ae` text-anchor=`middle` font-family=`DejaVu Sans, Arial, sans-serif` font-size=`15` font-weight=`700`>FIXED HTTP/1 UPSTREAM POST</text>
  <text x=`1220` y=`809` fill=`#24292f` font-family=`DejaVu Sans, Arial, sans-serif` font-size=`12`>no redirect, replay, proxy, or compression</text>
  <text x=`1220` y=`832` fill=`#24292f` font-family=`DejaVu Sans, Arial, sans-serif` font-size=`12`>exact application header allowlist:</text>
  <text x=`1220` y=`854` fill=`#0550ae` font-family=`DejaVu Sans Mono, ui-monospace, monospace` font-size=`11` font-weight=`700`>Accept | Authorization</text>
  <text x=`1220` y=`873` fill=`#0550ae` font-family=`DejaVu Sans Mono, ui-monospace, monospace` font-size=`11` font-weight=`700`>Content-Type | User-Agent</text>
  <text x=`1220` y=`902` fill=`#57606a` font-family=`DejaVu Sans, Arial, sans-serif` font-size=`11`>Content-Length is separate transport framing.</text>

  <path d=`M 1200 794 L 1137 794` fill=`none` stroke=`#0969da` stroke-width=`3` marker-end=`url(#architecture-arrow-blue)`/>
  <path d=`M 1200 873 L 1137 873` fill=`none` stroke=`#8250df` stroke-width=`3` marker-end=`url(#architecture-arrow-purple)`/>

  <rect x=`660` y=`754` width=`475` height=`82` rx=`10` fill=`#dafbe1` stroke=`#1a7f37` stroke-width=`2`/>
" ++ raw "  <text x=`680` y=`779` fill=`#1a7f37` font-family=`DejaVu Sans, Arial, sans-serif` font-size=`14` font-weight=`700`>BUFFERED RESPONSE</text>
  <text x=`680` y=`802` fill=`#24292f` font-family=`DejaVu Sans, Arial, sans-serif` font-size=`12`>bound + parse one chat.completion; close + recheck</text>
  <text x=`680` y=`821` fill=`#24292f` font-family=`DejaVu Sans, Arial, sans-serif` font-size=`12`>then commit 200; relay no upstream headers</text>

  <rect x=`660` y=`846` width=`475` height=`84` rx=`10` fill=`#fbefff` stroke=`#8250df` stroke-width=`2`/>
  <text x=`680` y=`871` fill=`#6639ba` font-family=`DejaVu Sans, Arial, sans-serif` font-size=`14` font-weight=`700`>SSE RESPONSE</text>
  <text x=`680` y=`894` fill=`#24292f` font-family=`DejaVu Sans, Arial, sans-serif` font-size=`12`>validate complete event -&gt; write + flush -&gt; decode next</text>
  <text x=`680` y=`915` fill=`#57606a` font-family=`DejaVu Sans, Arial, sans-serif` font-size=`11`>hold [DONE] until clean EOF and successful body close</text>

  <path d=`M 660 794 L 598 794` fill=`none` stroke=`#0969da` stroke-width=`3` marker-end=`url(#architecture-arrow-blue)`/>
  <path d=`M 660 873 L 598 873` fill=`none` stroke=`#8250df` stroke-width=`3` marker-end=`url(#architecture-arrow-purple)`/>

  <rect x=`55` y=`757` width=`540` height=`173` rx=`12` fill=`#ffffff` stroke=`#1a7f37` stroke-width=`2`/>
  <text x=`325` y=`784` fill=`#1a7f37` text-anchor=`middle` font-family=`DejaVu Sans, Arial, sans-serif` font-size=`15` font-weight=`700`>Permit.Finish: EXACTLY ONCE</text>
  <text x=`75` y=`813` fill=`#24292f` font-family=`DejaVu Sans, Arial, sans-serif` font-size=`12`>serialized terminal enum owns the final outcome</text>
  <text x=`75` y=`835` fill=`#24292f` font-family=`DejaVu Sans, Arial, sans-serif` font-size=`12`>a later goroutine cannot replace it</text>
  <text x=`75` y=`860` fill=`#24292f` font-family=`DejaVu Sans, Arial, sans-serif` font-size=`12`>debit tenant + global inflight count and work; release capacity once</text>
  <text x=`75` y=`885` fill=`#24292f` font-family=`DejaVu Sans, Arial, sans-serif` font-size=`11`>completion, cancellation, upstream/downstream failure, internal failure, or shutdown</text>
  <text x=`75` y=`910` fill=`#57606a` font-family=`DejaVu Sans, Arial, sans-serif` font-size=`11`>permit stays charged through drain until its worker records terminal state</text>

  <text x=`55` y=`944` fill=`#57606a` font-family=`DejaVu Sans, Arial, sans-serif` font-size=`11`>Physical read-ahead is bounded by min(4 KiB, event+1, total+1), plus transport and kernel buffering; this is not a zero-read-ahead claim.</text>

  <rect x=`35` y=`979` width=`850` height=`111` rx=`13` fill=`#fff8c5` stroke=`#bf8700` stroke-width=`2` stroke-dasharray=`9 7`/>
  <text x=`55` y=`1008` fill=`#7d4e00` font-family=`DejaVu Sans, Arial, sans-serif` font-size=`15` font-weight=`700`>FUTURE - NOT IMPLEMENTED</text>
  <text x=`55` y=`1036` fill=`#24292f` font-family=`DejaVu Sans, Arial, sans-serif` font-size=`13`>telemetry, lifecycle journal, and restart reconciliation</text>
  <text x=`55` y=`1061` fill=`#24292f` font-family=`DejaVu Sans, Arial, sans-serif` font-size=`13`>published load, RSS, and service-ratio evidence</text>
  <text x=`470` y=`1036` fill=`#57606a` font-family=`DejaVu Sans, Arial, sans-serif` font-size=`12`>No box above implies these systems or claims.</text>

  <rect x=`915` y=`979` width=`650` height=`111` rx=`13` fill=`#ffffff` stroke=`#8250df` stroke-width=`2`/>
" ++ raw "  <text x=`935` y=`1007` fill=`#6639ba` font-family=`DejaVu Sans, Arial, sans-serif` font-size=`15` font-weight=`700`>SIGNAL DRAIN RAIL</text>
  <line x1=`965` y1=`1047` x2=`1515` y2=`1047` stroke=`#8250df` stroke-width=`3` marker-end=`url(#architecture-arrow-purple)`/>
  <circle cx=`985` cy=`1047` r=`7` fill=`#8250df`/>
  <circle cx=`1125` cy=`1047` r=`7` fill=`#8250df`/>
  <circle cx=`1315` cy=`1047` r=`7` fill=`#8250df`/>
  <text x=`985` y=`1035` fill=`#24292f` text-anchor=`middle` font-family=`DejaVu Sans, Arial, sans-serif` font-size=`11`>SIGINT / SIGTERM</text>
  <text x=`1125` y=`1035` fill=`#24292f` text-anchor=`middle` font-family=`DejaVu Sans, Arial, sans-serif` font-size=`11`>BeginDrain</text>
  <text x=`1315` y=`1035` fill=`#24292f` text-anchor=`middle` font-family=`DejaVu Sans, Arial, sans-serif` font-size=`10`>HTTP Shutdown closes listener</text>
  <text x=`1480` y=`1027` fill=`#24292f` text-anchor=`middle` font-family=`DejaVu Sans, Arial, sans-serif` font-size=`9`>handlers + WaitDrained</text>
  <text x=`1480` y=`1038` fill=`#24292f` text-anchor=`middle` font-family=`DejaVu Sans, Arial, sans-serif` font-size=`9`>then scheduler Close</text>
  <text x=`935` y=`1078` fill=`#57606a` font-family=`DejaVu Sans, Arial, sans-serif` font-size=`10`>Grace failure: ForceCancelInflight -&gt; base cancel + HTTP Close -&gt; handlers + WaitDrained -&gt; scheduler Close</text>
").

Definition renderSetupWorkflowSVG : gostring :=
  visualSVGDocument 1400 650 (bs "SSEmaphore secure setup workflow")
    (bs "Six numbered cards show the Linux build, private policy installation, schema review, runtime-only credential names, side-effect-free validation, and buffered or streaming service flow through handled signal drain.")
    (raw "  <style>
    .title { font-family: `DejaVu Sans`, sans-serif; fill: #f0f6fc; }
    .header-muted { font-family: `DejaVu Sans`, sans-serif; fill: #8c959f; }
    .text { font-family: `DejaVu Sans`, sans-serif; fill: #24292f; }
    .muted { font-family: `DejaVu Sans`, sans-serif; fill: #57606a; }
    .code { font-family: `DejaVu Sans Mono`, ui-monospace, monospace; fill: #0d1117; }
    .card { fill: #ffffff; stroke: #d0d7de; stroke-width: 2; }
    .step { fill: #0969da; }
    .flow { fill: none; stroke: #0969da; stroke-width: 2.5; }
  </style>
  <rect width=`1400` height=`650` rx=`20` fill=`#0d1117`/>
  <rect x=`0` y=`84` width=`1400` height=`566` fill=`#f6f8fa`/>
  <text x=`40` y=`42` class=`title` font-size=`28` font-weight=`700`>SSEmaphore: secure local setup to handled drain</text>
  <text x=`40` y=`69` class=`header-muted` font-size=`15`>Six repository-backed steps; credentials remain runtime-only and the listener remains numeric-loopback-only.</text>

  <rect x=`40` y=`105` width=`426` height=`205` rx=`14` class=`card`/>
  <circle cx=`73` cy=`139` r=`20` class=`step`/>
  <text x=`73` y=`146` class=`title` text-anchor=`middle` font-size=`19` font-weight=`700`>1</text>
  <text x=`105` y=`146` class=`text` font-size=`20` font-weight=`700`>Build on Linux</text>
  <text x=`61` y=`178` class=`muted` font-size=`15`>Linux toolchain: Go 1.26.5</text>
  <rect x=`61` y=`193` width=`384` height=`88` rx=`9` fill=`#f6f8fa` stroke=`#afb8c1`/>
  <text x=`78` y=`214` class=`code` font-size=`13`>$ export GOTOOLCHAIN=go1.26.5</text>
  <text x=`78` y=`239` class=`code` font-size=`13`>$ mkdir -p bin</text>
  <text x=`78` y=`264` class=`code` font-size=`13`>$ go build -o bin/ssemaphore ./cmd/ssemaphore</text>
  <text x=`61` y=`298` class=`muted` font-size=`13`>Produces the repository's single gateway binary.</text>

  <rect x=`487` y=`105` width=`426` height=`205` rx=`14` class=`card`/>
  <circle cx=`520` cy=`139` r=`20` class=`step`/>
  <text x=`520` y=`146` class=`title` text-anchor=`middle` font-size=`19` font-weight=`700`>2</text>
  <text x=`552` y=`146` class=`text` font-size=`20` font-weight=`700`>Install a private policy</text>
  <text x=`508` y=`180` class=`text` font-size=`15` font-weight=`700`>Private directory</text>
  <text x=`875` y=`180` class=`text` text-anchor=`end` font-size=`15`>mode 0700</text>
  <line x1=`508` y1=`191` x2=`892` y2=`191` stroke=`#d8dee4`/>
  <text x=`508` y=`217` class=`text` font-size=`15` font-weight=`700`>Policy file</text>
  <text x=`875` y=`217` class=`text` text-anchor=`end` font-size=`15`>exact mode 0600</text>
  <line x1=`508` y1=`228` x2=`892` y2=`228` stroke=`#d8dee4`/>
  <text x=`508` y=`254` class=`text` font-size=`14`>Absolute, clean, regular path</text>
  <text x=`508` y=`278` class=`text` font-size=`14`>Owned by the process user; no symlink components</text>
  <text x=`508` y=`299` class=`muted` font-size=`13`>Start from configs/policy.example.json.</text>

  <rect x=`934` y=`105` width=`426` height=`205` rx=`14` class=`card`/>
  <circle cx=`967` cy=`139` r=`20` class=`step`/>
  <text x=`967` y=`146` class=`title` text-anchor=`middle` font-size=`19` font-weight=`700`>3</text>
  <text x=`999` y=`146` class=`text` font-size=`20` font-weight=`700`>Review schema 2</text>
  <text x=`955` y=`178` class=`text` font-size=`14`>numeric loopback listener + fixed port</text>
  <text x=`955` y=`201` class=`text` font-size=`14`>contract and HTTP/SSE limits</text>
" ++ raw "  <text x=`955` y=`224` class=`text` font-size=`14`>global + tenant queue/inflight limits</text>
  <text x=`955` y=`247` class=`text` font-size=`14`>tenant weights and pre-dispatch bounds</text>
  <text x=`955` y=`270` class=`text` font-size=`14`>upstream endpoint + transport bounds</text>
  <text x=`955` y=`293` class=`text` font-size=`14`>server timeouts + connection limit</text>

  <rect x=`40` y=`330` width=`426` height=`205` rx=`14` class=`card`/>
  <circle cx=`73` cy=`364` r=`20` class=`step`/>
  <text x=`73` y=`371` class=`title` text-anchor=`middle` font-size=`19` font-weight=`700`>4</text>
  <text x=`105` y=`371` class=`text` font-size=`19` font-weight=`700`>Supply runtime-only credentials</text>
  <text x=`61` y=`401` class=`muted` font-size=`13`>Use only the names committed in the example policy:</text>
  <rect x=`61` y=`413` width=`384` height=`82` rx=`9` fill=`#f6f8fa` stroke=`#afb8c1`/>
  <text x=`76` y=`437` class=`code` font-size=`13`>SSEMAPHORE_TENANT_1_TOKEN</text>
  <text x=`76` y=`459` class=`code` font-size=`13`>SSEMAPHORE_TENANT_2_TOKEN</text>
  <text x=`76` y=`481` class=`code` font-size=`13`>SSEMAPHORE_UPSTREAM_BEARER_TOKEN</text>
  <text x=`61` y=`519` class=`muted` font-size=`13`>Values are never stored in policy; all three must be distinct.</text>

  <rect x=`487` y=`330` width=`426` height=`205` rx=`14` class=`card`/>
  <circle cx=`520` cy=`364` r=`20` class=`step`/>
  <text x=`520` y=`371` class=`title` text-anchor=`middle` font-size=`19` font-weight=`700`>5</text>
  <text x=`552` y=`371` class=`text` font-size=`20` font-weight=`700`>Validate without binding</text>
  <rect x=`508` y=`391` width=`384` height=`75` rx=`9` fill=`#f6f8fa` stroke=`#afb8c1`/>
  <text x=`522` y=`417` class=`code` font-size=`12`>$ ./bin/ssemaphore validate --config `$POLICY_PATH`</text>
  <text x=`522` y=`448` font-family=`DejaVu Sans, sans-serif` fill=`#1a7f37` font-size=`14` font-weight=`700`>gateway policy is valid</text>
  <rect x=`508` y=`480` width=`181` height=`34` rx=`17` fill=`#dafbe1`/>
  <text x=`598` y=`502` class=`text` text-anchor=`middle` font-size=`13`>no listener bind</text>
  <rect x=`701` y=`480` width=`191` height=`34` rx=`17` fill=`#dafbe1`/>
  <text x=`796` y=`502` class=`text` text-anchor=`middle` font-size=`13`>no DNS or outbound dial</text>

  <rect x=`934` y=`330` width=`426` height=`205` rx=`14` class=`card`/>
  <circle cx=`967` cy=`364` r=`20` class=`step`/>
  <text x=`967` y=`371` class=`title` text-anchor=`middle` font-size=`19` font-weight=`700`>6</text>
  <text x=`999` y=`371` class=`text` font-size=`20` font-weight=`700`>Serve, call, then drain</text>
  <text x=`955` y=`403` class=`code` font-size=`12`>$ ./bin/ssemaphore serve --config `$POLICY_PATH`</text>
  <rect x=`955` y=`424` width=`72` height=`58` rx=`8` fill=`#ddf4ff` stroke=`#54aeff`/>
  <text x=`991` y=`458` class=`text` text-anchor=`middle` font-size=`13` font-weight=`700`>serve</text>
  <path d=`M 1027 453 L 1062 453` class=`flow`/>
  <path d=`M 1055 447 L 1062 453 L 1055 459` class=`flow`/>
  <rect x=`1063` y=`414` width=`112` height=`35` rx=`7` fill=`#ffffff` stroke=`#54aeff`/>
  <text x=`1119` y=`437` class=`text` text-anchor=`middle` font-size=`12`>buffered call</text>
  <rect x=`1063` y=`458` width=`112` height=`35` rx=`7` fill=`#ffffff` stroke=`#54aeff`/>
  <text x=`1119` y=`481` class=`text` text-anchor=`middle` font-size=`12`>streaming call</text>
  <path d=`M 1175 432 L 1190 432 L 1190 453 L 1204 453` class=`flow`/>
" ++ raw "  <path d=`M 1175 476 L 1190 476 L 1190 453` class=`flow`/>
  <path d=`M 1197 447 L 1204 453 L 1197 459` class=`flow`/>
  <rect x=`1205` y=`424` width=`134` height=`58` rx=`8` fill=`#fbefff` stroke=`#bf8fef`/>
  <text x=`1272` y=`448` class=`text` text-anchor=`middle` font-size=`12` font-weight=`700`>SIGINT / SIGTERM</text>
  <text x=`1272` y=`468` class=`text` text-anchor=`middle` font-size=`12`>handled drain</text>
  <text x=`955` y=`516` class=`muted` font-size=`13`>Completed handled shutdown exits 0.</text>

  <rect x=`40` y=`555` width=`1320` height=`70` rx=`12` fill=`#ffffff` stroke=`#d0d7de`/>
  <text x=`61` y=`582` class=`text` font-size=`14` font-weight=`700`>Sources: .go-version + go.mod + configs/policy.example.json + docs/running.md</text>
  <text x=`61` y=`606` class=`muted` font-size=`14`>Replace the example upstream endpoint before serving. Remote upstreams require HTTPS; the local listener stays numeric-loopback-only.</text>
").

Definition visualSHA256 (payload : gostring) : gostring := hex_EncodeToString (sha256_Sum256 payload).
