(* ===== verification/VisFs.v ===== *)
(** * README visuals: files

    Models [tools/render_readme_visuals/visualfs.go] and the source digests of [render.go]:
    directories that are opened component by component and pinned, files that must be the
    same regular file before, while and after they are read, artifacts that are written to
    a temporary file and renamed, and the digest of a source tree.

    The operating system answers each call as it pleases, after all the calls before; the
    calls and their answers are kept in a log.  What the code establishes is then a
    property of the log, whatever the answers are. *)

From S2P Require Import Prelude GoJson GoSha256 AppPolicyFile VisEvidence VisRender.

Definition visualMaxArtifactBytes : Z := 2097152.
Definition visualMaxArtifactCount : Z := 64.
Definition visualMaxArtifactNameBytes : Z := 96.
Definition visualMaxOutputEntries : Z := 128.
Definition visualMaxSourceFileBytes : Z := 4194304.
Definition visualMaxSourceTotalBytes : Z := 67108864.
Definition visualMaxSourceEntries : Z := 8192.
Definition visualMaxSourceDirectoryEntries : Z := 512.
Definition visualMaxSourceDepth : Z := 64.
Definition visualTemporaryAttempts : nat := 32.

Definition visualManifestName : gostring := bs "manifest.sha256.json".

(** ** The operating system *)

(** What [errors.Is] tells apart. *)
Inductive fsErr := fsNotExist | fsExist | fsEOF | fsOther.

#[export] Instance fsErr_eq_dec : EqDecision fsErr.
Proof. solve_decision. Defined.

(** [fs.FileInfo]: the mode, the size, the time of the last change, and the file that it is
    of, which is what [os.SameFile] compares. *)
Record fileStat := mkStat { st_Mode : Z; st_Size : Z; st_ModTime : Z; st_File : Z }.

Definition st_IsDir (info : fileStat) : bool := IsDir (st_Mode info).
Definition st_IsRegular (info : fileStat) : bool := IsRegular (st_Mode info).
Definition st_IsSymlink (info : fileStat) : bool := negb (Z.land (st_Mode info) ModeSymlink =? 0).
Definition sameFile (a b : fileStat) : bool := st_File a =? st_File b.

Abbreviation fsHandle := Z (only parsing).

(** The calls, by what they answer: directories and files are handles; of a read the bytes
    to the end and whether reading as far as asked fails; of a write how many bytes were taken, which are
    at most those that were given, and the error. *)
Inductive fsCall : Type -> Type :=
| fsAbs (name : gostring) : fsCall (result fsErr gostring)
| fsOpenSystemRoot (name : gostring) : fsCall (result fsErr fsHandle)
| fsOpenRoot (dir : fsHandle) (name : gostring) : fsCall (result fsErr fsHandle)
| fsStat (dir : fsHandle) : fsCall (result fsErr fileStat)
| fsLstat (dir : fsHandle) (name : gostring) : fsCall (result fsErr fileStat)
| fsMkdir (dir : fsHandle) (name : gostring) (mode : Z) : fsCall (option fsErr)
| fsOpenSelf (dir : fsHandle) : fsCall (result fsErr fsHandle)
| fsOpenRead (dir : fsHandle) (name : gostring) : fsCall (result fsErr fsHandle)
| fsCreate (dir : fsHandle) (name : gostring) (mode : Z) : fsCall (result fsErr fsHandle)
| fsFileStat (file : fsHandle) : fsCall (result fsErr fileStat)
| fsRead (file : fsHandle) : fsCall (list Z * bool)
| fsWrite (file : fsHandle) (payload : list Z) : fsCall (nat * option fsErr)
| fsChmod (file : fsHandle) (mode : Z) : fsCall (option fsErr)
| fsSync (file : fsHandle) : fsCall (option fsErr)
| fsClose (h : fsHandle) : fsCall (option fsErr)
| fsReaddirnames (file : fsHandle) (n : Z) : fsCall (list gostring * option fsErr)
| fsRemove (dir : fsHandle) (name : gostring) : fsCall (option fsErr)
| fsRename (dir : fsHandle) (old new : gostring) : fsCall (option fsErr)
| fsRandom (n : nat) : fsCall (option (list Z)).

(** A call and its answer. *)
Record fsEvent := mkEvent { ev_type : Type; ev_call : fsCall ev_type; ev_answer : ev_type }.

Class OS := os_answer : forall A, list fsEvent -> fsCall A -> A.

(** An error: its text, and what it wraps. *)
Record fault := mkFault { ft_text : string; ft_wraps : option fsErr }.

(** [errors.Is] *)
Definition faultIs (e : fault) (target : fsErr) : bool := bool_decide (ft_wraps e = Some target).

Abbreviation F A := (M (list fsEvent) (result fault A)) (only parsing).

Section files.
Context `{OS}.

Definition call {A} (c : fsCall A) : M (list fsEvent) A := fun log =>
  let answer := os_answer A log c in Done (answer, log ++ [mkEvent A c answer]).

Definition fail {A} (text : string) : F A := mret (Err (mkFault text None)).
Definition failWrapping {A} (text : string) (e : fsErr) : F A := mret (Err (mkFault text (Some e))).
Definition succeed {A} (a : A) : F A := mret (Ok a).

(** The next step of a function that returns on an error. *)
Definition andThen {A B} (m : F A) (f : A -> F B) : F B :=
  m ≫= fun r => match r with Ok a => f a | Err e => mret (Err e) end.

(** A call whose error has this text, and is wrapped or not. *)
Definition asked {A} (c : fsCall (result fsErr A)) (text : string) : F A :=
  call c ≫= fun r => match r with Ok a => succeed a | Err _ => fail text end.
Definition askedWrapping {A} (c : fsCall (result fsErr A)) (text : string) : F A :=
  call c ≫= fun r => match r with Ok a => succeed a | Err e => failWrapping text e end.
Definition told (c : fsCall (option fsErr)) (text : string) : F unit :=
  call c ≫= fun r => match r with None => succeed tt | Some _ => fail text end.

(** [_ = h.Close()], and then the error. *)
Definition closeAnd {A} (h : fsHandle) (m : F A) : F A := call (fsClose h) ≫= fun _ => m.

(** ** Paths *)

Definition HasPrefix (s prefix : gostring) : bool := bool_decide (take (length prefix) s = prefix).
Definition HasSuffix (s suffix : gostring) : bool := bool_decide (drop (length s - length suffix) s = suffix) && (length suffix <=? length s)%nat.
Definition c_backslash_in (s : gostring) : bool := existsb (Z.eqb 92) s.
Definition separator_in (s : gostring) : bool := existsb (fun c => (c =? 47) || (c =? 92)) s.

(** [fs.ValidPath] *)
Definition ValidPath (name : gostring) : bool :=
  utf8_valid name
  && (bool_decide (name = bs ".")
      || forallb (fun elem => negb (bool_decide (elem = [])) && negb (bool_decide (elem = bs "."))
                              && negb (bool_decide (elem = bs ".."))) (splitOn c_slash name)).

(** [path.Base] of a path that does not end in a slash. *)
Definition Base (name : gostring) : gostring := default (bs ".") (last (splitOn c_slash name)).
(** [path.Join] *)
Definition pathJoin (prefix name : gostring) : gostring :=
  match prefix, name with
  | [], [] => []
  | [], name => Clean name
  | prefix, [] => Clean prefix
  | prefix, name => Clean (prefix ++ c_slash :: name)
  end.
(** [path.Ext]: from the last dot of the last element. *)
Definition Ext (name : gostring) : gostring :=
  match reverse (splitOn 46 (default [] (last (splitOn c_slash name)))) with
  | extension :: _ :: _ => 46 :: extension
  | _ => []
  end.

Definition canonicalVisualRelativePath (name : gostring) (allowDot : bool) : result fault gostring :=
  if bool_decide (name = []) || c_backslash_in name || negb (ValidPath name)
  then Err (mkFault "invalid relative path" None)
  else if negb (bool_decide (Clean name = name)) || (negb allowDot && bool_decide (name = bs "."))
  then Err (mkFault "non-canonical relative path" None)
  else Ok name.

(** ** Sorting: [sort.Strings] *)

Fixpoint stringLe (a b : gostring) : bool :=
  match a, b with
  | [], _ => true
  | _ :: _, [] => false
  | c :: a, d :: b => (c <? d) || ((c =? d) && stringLe a b)
  end.
Fixpoint insertSorted (name : gostring) (names : list gostring) : list gostring :=
  match names with
  | [] => [name]
  | other :: rest => if stringLe name other then name :: names else other :: insertSorted name rest
  end.
Definition sortStrings (names : list gostring) : list gostring := foldr insertSorted [] names.

(** ** Directories *)

Definition sameVisualFileSnapshot (a b : fileStat) : bool :=
  sameFile a b && (st_Mode a =? st_Mode b) && (st_Size a =? st_Size b) && (st_ModTime a =? st_ModTime b).

Definition realDirectory (info : fileStat) : bool := negb (st_IsSymlink info) && st_IsDir info.
Definition realFile (info : fileStat) : bool := negb (st_IsSymlink info) && st_IsRegular info.

(** A second answer that has to be there and to be as it should. *)
Definition holds {A} (r : result fsErr A) (p : A -> bool) : bool := match r with Ok a => p a | Err _ => false end.

Definition syncVisualDirectory (root : fsHandle) : F unit :=
  andThen (asked (fsStat root) "inspect artifact directory") (fun before =>
  if negb (st_IsDir before) then fail "inspect artifact directory" else
  andThen (asked (fsOpenSelf root) "open artifact directory") (fun directory =>
  call (fsFileStat directory) ≫= fun opened =>
  if negb (holds opened (fun opened => st_IsDir opened && sameVisualFileSnapshot before opened))
  then closeAnd directory (fail "artifact directory changed")
  else
    call (fsSync directory) ≫= fun syncErr =>
    call (fsClose directory) ≫= fun closeErr =>
    if negb (bool_decide (syncErr = None)) then fail "sync artifact directory"
    else if negb (bool_decide (closeErr = None)) then fail "close artifact directory" else succeed tt)).

(** The entry before it is opened: it may have to be created first. *)
Definition inspectChild (parent : fsHandle) (name : gostring) (create : bool) : F (fileStat * bool) :=
  call (fsLstat parent name) ≫= fun before =>
  match before with
  | Ok before => succeed (before, false)
  | Err e =>
      if bool_decide (e = fsNotExist) && create then
        call (fsMkdir parent name 493) ≫= fun made =>
        match made with
        | Some fsExist | None =>
            andThen (askedWrapping (fsLstat parent name) "inspect directory") (fun before => succeed (before, true))
        | Some e => failWrapping "create directory" e
        end
      else failWrapping "inspect directory" e
  end.

Definition openVisualChildDirectory (parent : fsHandle) (name : gostring) (create : bool) : F fsHandle :=
  andThen (inspectChild parent name create) (fun '(before, created) =>
  if negb (realDirectory before) then fail "directory component is not a real directory" else
  andThen (askedWrapping (fsOpenRoot parent name) "open child directory") (fun next =>
  call (fsLstat parent name) ≫= fun after =>
  call (fsStat next) ≫= fun opened =>
  if negb (holds after (fun after => realDirectory after && sameVisualFileSnapshot before after)
           && holds opened (fun opened => st_IsDir opened && sameVisualFileSnapshot before opened))
  then closeAnd next (fail "directory component changed")
  else if (created : bool) then
    syncVisualDirectory parent ≫= fun synced =>
    match synced with
    | Ok _ => succeed next
    | Err _ => closeAnd next (fail "sync created directory parent")
    end
  else succeed next)).

(** From a directory down along some components; the handle of each parent is closed. *)
Fixpoint descend (strict : bool) (current : fsHandle) (components : list gostring) (create : bool) : F fsHandle :=
  match components with
  | [] => succeed current
  | component :: components =>
      if strict && bool_decide (component = []) then descend strict current components create
      else if strict && (bool_decide (component = bs ".") || bool_decide (component = bs "..") || separator_in component)
      then closeAnd current (fail "invalid directory component")
      else
        openVisualChildDirectory current component create ≫= fun next =>
        match next with
        | Err e => closeAnd current (mret (Err e))
        | Ok next =>
            call (fsClose current) ≫= fun closed =>
            match closed with
            | Some _ => closeAnd next (fail "close parent directory")
            | None => descend strict next components create
            end
        end
  end.

Definition openPinnedVisualDirectory (name : gostring) (create : bool) : F fsHandle :=
  andThen (askedWrapping (fsAbs name) "resolve directory") (fun absolute =>
  let absolute := Clean absolute in
  if negb (IsAbs absolute) then fail "directory is not absolute" else
  andThen (askedWrapping (fsOpenSystemRoot [c_slash]) "open filesystem root") (fun current =>
  descend true current (splitOn c_slash (drop 1 absolute)) create)).

Definition openVisualRelativeDirectory (root : fsHandle) (name : gostring) (create : bool) : F fsHandle :=
  andThen (mret (canonicalVisualRelativePath name true)) (fun canonical =>
  andThen (askedWrapping (fsOpenRoot root (bs ".")) "clone root directory") (fun current =>
  call (fsStat root) ≫= fun rootInfo =>
  call (fsStat current) ≫= fun currentInfo =>
  if negb (holds rootInfo (fun rootInfo => holds currentInfo (fun currentInfo =>
             st_IsDir rootInfo && st_IsDir currentInfo && sameVisualFileSnapshot rootInfo currentInfo)))
  then closeAnd current (fail "root directory changed")
  else if bool_decide (canonical = bs ".") then succeed current
  else descend false current (splitOn c_slash canonical) create)).

(** ** Reading files *)

(** The hook of the tests; it answers whether it fails. *)
Definition readBoundedVisualLeafWithHook (root : fsHandle) (name : gostring) (maxBytes : Z) (hook : option bool)
    : F (list Z * fileStat) :=
  match canonicalVisualRelativePath name false with
  | Err _ => fail "invalid file name"
  | Ok _ =>
      if negb (bool_decide (Base name = name)) then fail "invalid file name" else
      andThen (askedWrapping (fsLstat root name) "inspect regular file") (fun before =>
      if negb (realFile before) then fail "input is not a real regular file"
      else if (st_Size before <? 0) || (maxBytes <? st_Size before) then fail "regular file exceeds size bound"
      else if bool_decide (hook = Some true) then fail "run regular file read hook"
      else
        andThen (askedWrapping (fsOpenRead root name) "open regular file") (fun file =>
        call (fsFileStat file) ≫= fun openedBefore =>
        if negb (holds openedBefore (fun opened => st_IsRegular opened && sameVisualFileSnapshot before opened))
        then closeAnd file (fail "regular file changed before open")
        else
          call (fsRead file) ≫= fun '(content, readFails) =>
          let payload := take (Z.to_nat (maxBytes + 1)) content in
          call (fsFileStat file) ≫= fun openedAfter =>
          call (fsClose file) ≫= fun closeErr =>
          if (readFails : bool) then fail "read regular file"
          else
            match openedAfter, closeErr with
            | Ok openedAfter, None =>
                if maxBytes <? Z.of_nat (length payload) then fail "regular file exceeds size bound"
                else
                  call (fsLstat root name) ≫= fun after =>
                  match after with
                  | Ok after =>
                      if negb (realFile after && sameVisualFileSnapshot before after && sameVisualFileSnapshot before openedAfter)
                      then fail "regular file changed during read" else succeed (payload, after)
                  | Err _ => fail "regular file changed during read"
                  end
            | _, _ => fail "finish regular file read"
            end))
  end.

Definition readBoundedVisualLeaf (root : fsHandle) (name : gostring) (maxBytes : Z) : F (list Z * fileStat) :=
  readBoundedVisualLeafWithHook root name maxBytes None.

Definition readBoundedVisualFile (root : fsHandle) (name : gostring) (maxBytes : Z) : F (list Z * fileStat) :=
  andThen (mret (canonicalVisualRelativePath name false)) (fun canonical =>
  if maxBytes <? 0 then fail "invalid file size bound" else
  andThen (openVisualRelativeDirectory root (Dir canonical) false) (fun parent =>
  readBoundedVisualLeaf parent (Base canonical) maxBytes ≫= fun read =>
  call (fsClose parent) ≫= fun closeErr =>
  match read with
  | Err e => mret (Err e)
  | Ok read => match closeErr with Some _ => fail "close source directory" | None => succeed read end
  end)).

(** The names in a directory, sorted. *)
Definition readBoundedVisualEntries (root : fsHandle) (limit : Z) : F (list gostring) :=
  if limit <? 0 then fail "invalid directory entry bound" else
  andThen (asked (fsStat root) "inspect pinned directory") (fun before =>
  if negb (st_IsDir before) then fail "inspect pinned directory" else
  andThen (askedWrapping (fsOpenSelf root) "open pinned directory") (fun directory =>
  call (fsFileStat directory) ≫= fun opened =>
  if negb (holds opened (fun opened => st_IsDir opened && sameVisualFileSnapshot before opened))
  then closeAnd directory (fail "pinned directory changed before scan")
  else
    call (fsReaddirnames directory (limit + 1)) ≫= fun '(names, readErr) =>
    call (fsClose directory) ≫= fun closeErr =>
    if negb (bool_decide (readErr = None)) && negb (bool_decide (readErr = Some fsEOF)) then fail "read directory entries"
    else if negb (bool_decide (closeErr = None)) then fail "close directory scan"
    else if (limit <? Z.of_nat (length names))
            || ((Z.of_nat (length names) =? limit + 1) && bool_decide (readErr = None))
    then fail "directory exceeds entry bound"
    else
      call (fsStat root) ≫= fun after =>
      if negb (holds after (fun after => st_IsDir after && sameVisualFileSnapshot before after))
      then fail "pinned directory changed during scan"
      else if existsb (fun name => bool_decide (name = []) || bool_decide (name = bs ".") || bool_decide (name = bs "..")
                                   || separator_in name) names
      then fail "directory contains an invalid entry name"
      else succeed (sortStrings names))).

(** ** Artifacts *)

(** Whether a name may be that of an artifact. *)
Definition artifactName (name : gostring) : bool :=
  match canonicalVisualRelativePath name false with Ok _ => true | Err _ => false end
  && bool_decide (Base name = name) && negb (HasPrefix name (bs "."))
  && (Z.of_nat (length name) <=? visualMaxArtifactNameBytes).

Fixpoint validArtifacts (files : list (gostring * gostring)) : option fault :=
  match files with
  | [] => None
  | (name, payload) :: files =>
      if negb (artifactName name) then Some (mkFault "artifact set contains an invalid name" None)
      else if visualMaxArtifactBytes <? Z.of_nat (length payload) then Some (mkFault "artifact payload exceeds size bound" None)
      else validArtifacts files
  end.

Definition validateVisualArtifactSet (files : artifacts) : option fault :=
  if (size files =? 0)%nat || (visualMaxArtifactCount <? Z.of_nat (size files)) then Some (mkFault "invalid artifact count" None)
  else if bool_decide (files !! visualManifestName = None) then Some (mkFault "artifact set has no manifest" None)
  else validArtifacts (map_to_list files).

(** The names in order, and the order of writing: the manifest comes last. *)
Definition sortedArtifactNames (files : artifacts) : list gostring := sortStrings (map fst (map_to_list files)).
Definition visualWriteOrder (files : artifacts) : list gostring :=
  sortStrings (filter (fun name => name <> visualManifestName) (map fst (map_to_list files)))
  ++ match files !! visualManifestName with Some _ => [visualManifestName] | None => [] end.

Definition unexpected (name : gostring) : gostring := bs "unexpected:" ++ name.

(** The entries of the directory: what is stale, and the managed files that are there. *)
Fixpoint inspectEntries (output : fsHandle) (files : artifacts) (entries stale : list gostring) (present : gset gostring)
    : F (list gostring * gset gostring) :=
  match entries with
  | [] => succeed (stale, present)
  | name :: entries =>
      andThen (asked (fsLstat output name) "inspect artifact directory entry") (fun info =>
      if st_IsSymlink info then fail "artifact directory contains a symlink" else
      let managed := bool_decide (is_Some (files !! name)) in
      if st_IsDir info then
        if managed then fail "managed artifact is a directory"
        else inspectEntries output files entries (stale ++ [unexpected name]) present
      else if negb (st_IsRegular info) then fail "artifact directory contains a special file"
      else if negb managed then inspectEntries output files entries (stale ++ [unexpected name]) present
      else inspectEntries output files entries stale ({[name]} ∪ present))
  end.

(** The managed files: those that are missing, or not as they should be, are stale. *)
Fixpoint compareArtifacts (output : fsHandle) (files : artifacts) (present : gset gostring) (names stale : list gostring)
    : F (list gostring) :=
  match names with
  | [] => succeed stale
  | name :: names =>
      if negb (bool_decide (name ∈ present)) then compareArtifacts output files present names (stale ++ [name])
      else
        readBoundedVisualLeaf output name visualMaxArtifactBytes ≫= fun read =>
        match read with
        | Err _ => fail "read managed artifact"
        | Ok (current, info) =>
            if negb (st_Mode info =? 420) || negb (bool_decide (Some current = files !! name))
            then compareArtifacts output files present names (stale ++ [name])
            else compareArtifacts output files present names stale
        end
  end.

Definition checkVisualArtifactsInRoot (output : fsHandle) (files : artifacts) : F (list gostring) :=
  andThen (readBoundedVisualEntries output visualMaxOutputEntries) (fun entries =>
  andThen (inspectEntries output files entries [] ∅) (fun '(stale, present) =>
  andThen (compareArtifacts output files present (sortedArtifactNames files) stale) (fun stale =>
  succeed (sortStrings stale)))).

Fixpoint inventory (output : fsHandle) (files : artifacts) (entries : list gostring) : F unit :=
  match entries with
  | [] => succeed tt
  | name :: entries =>
      andThen (asked (fsLstat output name) "inspect artifact directory entry") (fun info =>
      if st_IsSymlink info then fail "artifact directory contains a symlink"
      else if bool_decide (files !! name = None) then fail "artifact directory contains an unexpected entry"
      else if negb (st_IsRegular info) then fail "managed artifact is not a regular file"
      else if (st_Size info <? 0) || (visualMaxArtifactBytes <? st_Size info) then fail "managed artifact exceeds size bound"
      else inventory output files entries)
  end.

Definition validateVisualOutputInventory (output : fsHandle) (files : artifacts) : F unit :=
  andThen (readBoundedVisualEntries output visualMaxOutputEntries) (inventory output files).

(** ** Writing *)

Definition validateVisualReplaceTarget (output : fsHandle) (name : gostring) : F unit :=
  call (fsLstat output name) ≫= fun info =>
  match info with
  | Err fsNotExist => succeed tt
  | Err _ => fail "inspect artifact target"
  | Ok info => if negb (realFile info) then fail "artifact target is not a real regular file" else succeed tt
  end.

Definition temporaryName (name nonce : gostring) : gostring := bs "." ++ name ++ bs "." ++ hex_EncodeToString nonce ++ bs ".tmp".

Fixpoint createTemporary (attempts : nat) (output : fsHandle) (name : gostring) : F (gostring * fsHandle) :=
  match attempts with
  | O => fail "temporary artifact name attempts exhausted"
  | S attempts =>
      call (fsRandom 12) ≫= fun nonce =>
      match nonce with
      | None => fail "generate temporary artifact name"
      | Some nonce =>
          let temporary := temporaryName name nonce in
          call (fsCreate output temporary 384) ≫= fun file =>
          match file with
          | Ok file => succeed (temporary, file)
          | Err fsExist => createTemporary attempts output name
          | Err _ => fail "create temporary artifact"
          end
      end
  end.
Definition createVisualTemporary (output : fsHandle) (name : gostring) : F (gostring * fsHandle) :=
  createTemporary visualTemporaryAttempts output name.

(** A write that takes nothing is an error, so every turn takes a byte. *)
Fixpoint writeLoop (fuel : nat) (file : fsHandle) (payload : list Z) : F unit :=
  match payload with
  | [] => succeed tt
  | _ =>
      match fuel with
      | O => no_fuel
      | S fuel =>
          call (fsWrite file payload) ≫= fun '(written, err) =>
          match err with
          | Some e => failWrapping "write" e
          | None => if (written =? 0)%nat then fail "short write" else writeLoop fuel file (drop written payload)
          end
      end
  end.
Definition writeAllVisual (file : fsHandle) (payload : list Z) : F unit := writeLoop (length payload) file payload.

(** The hook of the tests: at which stages it fails. *)
Definition runVisualAtomicWriteHook (hook : option (string -> bool)) (stage : string) : F unit :=
  match hook with
  | Some hook => if hook stage then fail "injected artifact write failure" else succeed tt
  | None => succeed tt
  end.

Definition artifactMode (info : fileStat) : bool := st_IsRegular info && (st_Mode info =? 420).

(** From the new temporary file to the one that is verified and not yet closed. *)
Definition fillTemporary (file : fsHandle) (payload : list Z) (hook : option (string -> bool)) : F fileStat :=
  andThen (runVisualAtomicWriteHook hook "after-create") (fun _ =>
  andThen (asked (fsFileStat file) "inspect temporary artifact") (fun created =>
  if negb (st_IsRegular created) then fail "inspect temporary artifact" else
  andThen (told (fsChmod file 420) "set artifact mode") (fun _ =>
  writeAllVisual file payload ≫= fun wrote =>
  match wrote with
  | Err _ => fail "write artifact"
  | Ok _ =>
      andThen (runVisualAtomicWriteHook hook "after-write") (fun _ =>
      andThen (told (fsSync file) "sync artifact") (fun _ =>
      andThen (runVisualAtomicWriteHook hook "after-sync") (fun _ =>
      andThen (asked (fsFileStat file) "verify temporary artifact") (fun written =>
      if negb (artifactMode written && (st_Size written =? Z.of_nat (length payload)) && sameFile created written)
      then fail "verify temporary artifact" else succeed written))))
  end))).

(** From the closed temporary file to just before the rename. *)
Definition beforeRename (output : fsHandle) (temporary name : gostring) (written : fileStat) (hook : option (string -> bool)) : F unit :=
  andThen (asked (fsLstat output temporary) "temporary artifact changed") (fun info =>
  if negb (realFile info && artifactMode info && sameFile written info) then fail "temporary artifact changed" else
  andThen (validateVisualReplaceTarget output name) (fun _ => runVisualAtomicWriteHook hook "before-rename")).

Definition afterRename (output : fsHandle) (name : gostring) (payload : list Z) (written : fileStat) : F unit :=
  andThen (asked (fsLstat output name) "verify replaced artifact") (fun replaced =>
  if negb (realFile replaced && artifactMode replaced && (st_Size replaced =? Z.of_nat (length payload)) && sameFile written replaced)
  then fail "verify replaced artifact" else syncVisualDirectory output).

(** What is deferred: a file that is not closed is closed, one that was not renamed is
    removed; then the error is returned. *)
Definition giveUp {A} (output : fsHandle) (temporary : gostring) (file : option fsHandle) (e : fault) : F A :=
  let removed := call (fsRemove output temporary) ≫= fun _ => mret (Err e) in
  match file with Some file => closeAnd file removed | None => removed end.

Definition atomicWriteVisualWithHook (output : fsHandle) (name : gostring) (payload : list Z) (hook : option (string -> bool))
    : F unit :=
  match canonicalVisualRelativePath name false with
  | Err _ => fail "invalid artifact name"
  | Ok _ =>
      if negb (bool_decide (Base name = name)) then fail "invalid artifact name"
      else if visualMaxArtifactBytes <? Z.of_nat (length payload) then fail "artifact payload exceeds size bound"
      else
        andThen (validateVisualReplaceTarget output name) (fun _ =>
        andThen (createVisualTemporary output name) (fun '(temporary, file) =>
        fillTemporary file payload hook ≫= fun filled =>
        match filled with
        | Err e => giveUp output temporary (Some file) e
        | Ok written =>
            call (fsClose file) ≫= fun closed =>
            match closed with
            | Some _ => giveUp output temporary None (mkFault "close artifact" None)
            | None =>
                beforeRename output temporary name written hook ≫= fun ready =>
                match ready with
                | Err e => giveUp output temporary None e
                | Ok _ =>
                    call (fsRename output temporary name) ≫= fun renamed =>
                    match renamed with
                    | Some _ => giveUp output temporary None (mkFault "replace artifact" None)
                    | None => afterRename output name payload written
                    end
                end
            end
        end))
  end.

Definition atomicWriteVisual (output : fsHandle) (name : gostring) (payload : list Z) : F unit :=
  atomicWriteVisualWithHook output name payload None.

Fixpoint writeInOrder (output : fsHandle) (files : artifacts) (writer : fsHandle -> gostring -> gostring -> F unit)
    (names : list gostring) : F unit :=
  match names with
  | [] => succeed tt
  | name :: names =>
      andThen (writer output name (default [] (files !! name))) (fun _ => writeInOrder output files writer names)
  end.

Definition writeVisualArtifactBundle (output : fsHandle) (files : artifacts)
    (writer : option (fsHandle -> gostring -> gostring -> F unit)) : F unit :=
  match validateVisualArtifactSet files with
  | Some e => mret (Err e)
  | None =>
      match writer with
      | None => fail "artifact writer is nil"
      | Some writer => writeInOrder output files writer (visualWriteOrder files)
      end
  end.

(** ** Sources *)

Record visualSourceSelection := mkSelection { ss_files : gset gostring; ss_entries : Z }.

Definition goSource (name : gostring) (includeTests : bool) : bool :=
  bool_decide (Ext name = bs ".go") && (includeTests || negb (HasSuffix name (bs "_test.go"))).

(** The entries of one directory; [below] is the function itself, on a subdirectory. *)
Fixpoint collectEntries (below : gostring -> visualSourceSelection -> F visualSourceSelection) (directory : fsHandle)
    (prefix : gostring) (includeTests : bool) (entries : list gostring) (selection : visualSourceSelection)
    : F visualSourceSelection :=
  match entries with
  | [] => succeed selection
  | name :: entries =>
      andThen (asked (fsLstat directory name) "inspect source tree entry") (fun info =>
      if st_IsSymlink info then fail "source tree contains a symlink" else
      let relative := pathJoin prefix name in
      if st_IsDir info then
        andThen (below relative selection) (fun selection =>
        collectEntries below directory prefix includeTests entries selection)
      else if negb (st_IsRegular info) then fail "source tree contains a special file"
      else if goSource name includeTests
      then collectEntries below directory prefix includeTests entries
             (mkSelection ({[relative]} ∪ ss_files selection) (ss_entries selection))
      else collectEntries below directory prefix includeTests entries selection)
  end.

Fixpoint collectVisualSourceDirectory (fuel : nat) (root : fsHandle) (prefix : gostring) (includeTests : bool) (depth : Z)
    (selection : visualSourceSelection) : F visualSourceSelection :=
  match fuel with
  | O => no_fuel
  | S fuel =>
      if visualMaxSourceDepth <? depth then fail "source tree exceeds depth bound" else
      andThen (openVisualRelativeDirectory root prefix false) (fun directory =>
      andThen (readBoundedVisualEntries directory visualMaxSourceDirectoryEntries) (fun entries =>
        if visualMaxSourceEntries - Z.of_nat (length entries) <? ss_entries selection
        then fail "source tree exceeds entry bound"
        else
          collectEntries (fun relative => collectVisualSourceDirectory fuel root relative includeTests (depth + 1))
            directory prefix includeTests entries
            (mkSelection (ss_files selection) (ss_entries selection + Z.of_nat (length entries)))) ≫= fun collected =>
      call (fsClose directory) ≫= fun closeErr =>
      match collected with
      | Err e => mret (Err e)
      | Ok selection => match closeErr with Some _ => fail "close source directory" | None => succeed selection end
      end)
  end.

(** The depth is bounded, and with it the recursion. *)
Definition sourceFuel : nat := 66.

Fixpoint selectFiles (files : list gostring) (selection : visualSourceSelection) : result fault visualSourceSelection :=
  match files with
  | [] => Ok selection
  | name :: files =>
      match canonicalVisualRelativePath name false with
      | Err _ => Err (mkFault "invalid source file path" None)
      | Ok canonical =>
          if negb (bool_decide (canonical ∈ ss_files selection))
             && (Z.of_nat (size (ss_files selection)) =? visualMaxSourceEntries)
          then Err (mkFault "source set exceeds entry bound" None)
          else selectFiles files (mkSelection ({[canonical]} ∪ ss_files selection) (ss_entries selection))
      end
  end.

Fixpoint selectDirectories (root : fsHandle) (includeTests : bool) (directories : list gostring)
    (selection : visualSourceSelection) : F visualSourceSelection :=
  match directories with
  | [] => succeed selection
  | directory :: directories =>
      match canonicalVisualRelativePath directory true with
      | Err _ => fail "invalid source directory path"
      | Ok canonical =>
          andThen (collectVisualSourceDirectory sourceFuel root canonical includeTests 0 selection)
            (selectDirectories root includeTests directories)
      end
  end.

(** What is hashed: of each file its name, a zero byte, its content and a zero byte. *)
Fixpoint hashedSources (root : fsHandle) (names : list gostring) (totalBytes : Z) (hashed : list Z) : F (list Z) :=
  match names with
  | [] => succeed hashed
  | name :: names =>
      readBoundedVisualFile root name visualMaxSourceFileBytes ≫= fun read =>
      match read with
      | Err _ => fail "read source input"
      | Ok (payload, _) =>
          if visualMaxSourceTotalBytes - totalBytes <? Z.of_nat (length payload) then fail "source set exceeds byte bound"
          else hashedSources root names (totalBytes + Z.of_nat (length payload)) (hashed ++ name ++ [0] ++ payload ++ [0])
      end
  end.

Record visualSourceDigest := mkSourceDigest { sd_Files : list gostring; sd_SHA256 : gostring }.

Definition digestVisualSourcesInRoot (root : fsHandle) (files directories : list gostring) (includeTests : bool)
    : F visualSourceDigest :=
  if (visualMaxSourceEntries <? Z.of_nat (length files)) || (visualMaxSourceEntries <? Z.of_nat (length directories))
     || (visualMaxSourceEntries - Z.of_nat (length directories) <? Z.of_nat (length files))
  then fail "source request exceeds entry bound"
  else
    andThen (mret (selectFiles files (mkSelection ∅ 0))) (fun selection =>
    andThen (selectDirectories root includeTests directories selection) (fun selection =>
    if visualMaxSourceEntries <? Z.of_nat (size (ss_files selection)) then fail "source set exceeds entry bound"
    else
      let names := sortStrings (elements (ss_files selection)) in
      andThen (hashedSources root names 0 []) (fun hashed =>
      succeed (mkSourceDigest names (visualSHA256 hashed))))).

Definition digestVisualSources (root : gostring) (files directories : list gostring) (includeTests : bool)
    : F visualSourceDigest :=
  openPinnedVisualDirectory root false ≫= fun repository =>
  match repository with
  | Err _ => fail "open source root"
  | Ok repository =>
      digestVisualSourcesInRoot repository files directories includeTests ≫= fun digest =>
      call (fsClose repository) ≫= fun closeErr =>
      match digest with
      | Err e => mret (Err e)
      | Ok digest => match closeErr with Some _ => fail "close source root" | None => succeed digest end
      end
  end.
End files.

(** ** What a piece of code does, as a property of its calls *)

Section traces.
Context `{OS}.

(** [m] comes to a value, whatever the answers are, and the value and the events that it
    added to the log (here the calls that it made) satisfy [Q]. *)
Definition runs {E A} (m : M (list E) A) (Q : A -> list E -> Prop) : Prop :=
  forall log, exists a l, m log = Done (a, log ++ l) /\ Q a l.

Lemma runs_ret {E A} (a : A) (Q : A -> list E -> Prop) : Q a [] -> runs (mret a) Q.
Proof. intros HQ log. exists a, []. by rewrite app_nil_r. Qed.

Lemma runs_bind {E A B} (m : M (list E) A) (k : A -> M (list E) B) P Q :
  runs m P -> (forall a l, P a l -> runs (k a) (fun b l' => Q b (l ++ l'))) -> runs (m ≫= k) Q.
Proof.
  intros Hm Hk log. destruct (Hm log) as (a & l & Hr & HP). destruct (Hk a l HP (log ++ l)) as (b & l' & Hr' & HQ).
  exists b, (l ++ l'). split; [|exact HQ]. unfold mbind, M_bind. rewrite Hr, Hr'. by rewrite app_assoc.
Qed.

Lemma runs_call {A B} (c : fsCall A) (k : A -> M (list fsEvent) B) Q :
  (forall a, runs (k a) (fun b l => Q b (mkEvent A c a :: l))) -> runs (call c ≫= k) Q.
Proof.
  intros Hk. apply (runs_bind _ _ (fun a l => l = [mkEvent A c a])).
  - intros log. eexists _, _. split; [reflexivity|done].
  - intros a l ->. exact (Hk a).
Qed.

Lemma runs_mono {E A} (m : M (list E) A) (P Q : A -> list E -> Prop) :
  runs m P -> (forall a l, P a l -> Q a l) -> runs m Q.
Proof. intros Hm HPQ log. destruct (Hm log) as (a & l & Hr & HP). exists a, l. auto. Qed.

Lemma runs_andThen {A B} (m : F A) (f : A -> F B) P Q :
  runs m P -> (forall a l, P (Ok a) l -> runs (f a) (fun b l' => Q b (l ++ l'))) ->
  (forall e l, P (Err e) l -> Q (Err e) (l ++ [])) -> runs (andThen m f) Q.
Proof. intros Hm Hok Herr. apply (runs_bind _ _ _ _ Hm). intros [a|e] l HP; [by apply Hok|]. apply runs_ret. by apply Herr. Qed.

Lemma asked_call {A B} (c : fsCall (result fsErr A)) text (f : A -> F B) Q :
  (forall a, runs (f a) (fun b l => Q b (mkEvent _ c (Ok a) :: l))) ->
  (forall e, Q (Err (mkFault text None)) [mkEvent _ c (Err e)]) -> runs (andThen (asked c text) f) Q.
Proof.
  intros Hok Herr. apply (runs_andThen _ _ (fun r l => match r with
    | Ok a => l = [mkEvent _ c (Ok a)]
    | Err e => e = mkFault text None /\ exists e', l = [mkEvent _ c (Err e')]
    end)).
  - apply runs_call. intros [a|e]; apply runs_ret; [done|]. eauto.
  - intros a l ->. exact (Hok a).
  - intros e l [-> [e' ->]]. exact (Herr e').
Qed.

Lemma askedWrapping_call {A B} (c : fsCall (result fsErr A)) text (f : A -> F B) Q :
  (forall a, runs (f a) (fun b l => Q b (mkEvent _ c (Ok a) :: l))) ->
  (forall e, Q (Err (mkFault text (Some e))) [mkEvent _ c (Err e)]) -> runs (andThen (askedWrapping c text) f) Q.
Proof.
  intros Hok Herr. apply (runs_andThen _ _ (fun r l => match r with
    | Ok a => l = [mkEvent _ c (Ok a)]
    | Err e => exists e', e = mkFault text (Some e') /\ l = [mkEvent _ c (Err e')]
    end)).
  - apply runs_call. intros [a|e]; apply runs_ret; [done|]. eauto.
  - intros a l ->. exact (Hok a).
  - intros e l (e' & -> & ->). exact (Herr e').
Qed.

Lemma told_call {B} (c : fsCall (option fsErr)) text (f : unit -> F B) Q :
  runs (f tt) (fun b l => Q b (mkEvent _ c None :: l)) ->
  (forall e, Q (Err (mkFault text None)) [mkEvent _ c (Some e)]) -> runs (andThen (told c text) f) Q.
Proof.
  intros Hok Herr. apply (runs_andThen _ _ (fun r l => match r with
    | Ok _ => l = [mkEvent _ c None]
    | Err e => e = mkFault text None /\ exists e', l = [mkEvent _ c (Some e')]
    end)).
  - apply runs_call. intros [e|]; apply runs_ret; [|done]. eauto.
  - intros [] l ->. exact Hok.
  - intros e l [-> [e' ->]]. exact (Herr e').
Qed.
End traces.

(** One step of the code, with its calls gathered in the postcondition. *)
Ltac fs_step :=
  lazymatch goal with
  | |- runs (andThen (asked _ _) _) _ => apply asked_call; [intros ?|intros ?]
  | |- runs (andThen (askedWrapping _ _) _) _ => apply askedWrapping_call; [intros ?|intros ?]
  | |- runs (andThen (told _ _) _) _ => apply told_call; [|intros ?]
  | |- runs (call _ ≫= _) _ => apply runs_call; intros ?
  | |- runs (closeAnd _ _) _ => unfold closeAnd; apply runs_call; intros ?
  | |- runs (fail _) _ => apply runs_ret
  | |- runs (failWrapping _ _) _ => apply runs_ret
  | |- runs (succeed _) _ => apply runs_ret
  | |- runs (mret _) _ => apply runs_ret
  | |- runs (if ?b then _ else _) _ => destruct b eqn:?
  | |- runs (match ?x with _ => _ end) _ => destruct x
  | |- runs (match ?x with _ => _ end _) _ => destruct x
  end.
Ltac fs_steps := repeat (fs_step; cbn beta iota in * ).

(** ** Handles *)

Definition one (h x : Z) : Z := if x =? h then 1 else 0.

(** What a call does to the number of times that a handle is open. *)
Definition opened (h : result fsErr Z) (x : Z) : Z := match h with Ok h => one h x | Err _ => 0 end.
Definition handleDelta {A} (c : fsCall A) : A -> Z -> Z :=
  match c in fsCall A return A -> Z -> Z with
  | fsOpenSystemRoot _ | fsOpenRoot _ _ | fsOpenSelf _ | fsOpenRead _ _ | fsCreate _ _ _ => opened
  | fsClose h => fun _ x => - one h x
  | _ => fun _ _ => 0
  end.
Definition balance (x : Z) (l : list fsEvent) : Z := sumZ (fun ev => handleDelta (ev_call ev) (ev_answer ev) x) l.

(** What a call changes on disk. *)
Definition changes {A} (c : fsCall A) : bool :=
  match c with
  | fsMkdir _ _ _ | fsCreate _ _ _ | fsWrite _ _ | fsChmod _ _ | fsSync _ | fsRemove _ _ | fsRename _ _ _ => true
  | _ => false
  end.
Definition calm (ev : fsEvent) : Prop := changes (ev_call ev) = false.

Lemma balance_app x l l' : balance x (l ++ l') = balance x l + balance x l'.
Proof. unfold balance. induction l as [|ev l IH]; cbn [app sumZ]; lia. Qed.

(** The handle that is returned is left open, and no other; where nothing may be changed
    nothing is. *)
Definition handed (r : result fault Z) (x : Z) : Z := match r with Ok h => one h x | Err _ => 0 end.
Definition tidy (quiet : bool) (kept : Z -> Z) (l : list fsEvent) : Prop :=
  (forall x, balance x l = kept x) /\ (quiet = true -> Forall calm l).
Definition nothing (_ : Z) : Z := 0.

Lemma tidy_nil quiet kept : (forall x, kept x = 0) -> tidy quiet kept [].
Proof. intros Hk. split; [intros x; by rewrite Hk|constructor]. Qed.

Lemma tidy_cons quiet kept ev l : (quiet = true -> calm ev) ->
  tidy quiet (fun x => kept x - handleDelta (ev_call ev) (ev_answer ev) x) l -> tidy quiet kept (ev :: l).
Proof.
  intros Hev [Hb Hc]. split; [|intros Hq; constructor; auto]. intros x. unfold balance in *. cbn [sumZ]. rewrite Hb. lia.
Qed.

Lemma tidy_app quiet quiet' kept kept' l l' : tidy quiet' kept' l -> (quiet = true -> quiet' = true) ->
  tidy quiet (fun x => kept x - kept' x) l' -> tidy quiet kept (l ++ l').
Proof.
  intros [Hb Hc] Hq [Hb' Hc']. split; [|intros ?; apply Forall_app; auto]. intros x. rewrite balance_app, Hb, Hb'. lia.
Qed.

Lemma tidy_last quiet quiet' kept kept' l : tidy quiet' kept' l -> (quiet = true -> quiet' = true) ->
  (forall x, kept' x = kept x) -> tidy quiet kept l.
Proof. intros [Hb Hc] Hq Hk. split; [|auto]. intros x. by rewrite Hb. Qed.

(** The end of a proof about handles: the calls are counted one by one. *)
Ltac tidied :=
  cbv beta in *;
  repeat first
    [ apply tidy_cons; [intros ?; first [reflexivity|congruence]|]
    | eapply tidy_app; [eassumption|first [done|congruence]|] ];
  first [ apply tidy_nil; intros ? | eapply tidy_last; [eassumption|first [done|congruence]|]; intros ? ];
  cbn [handleDelta ev_call ev_answer opened handed nothing];
  unfold nothing, handed; cbn [handleDelta ev_call ev_answer opened handed]; lia.

Section tidiness.
Context `{OS}.

Lemma sync_tidy root : runs (syncVisualDirectory root) (fun _ l => tidy false nothing l).
Proof. unfold syncVisualDirectory. fs_steps; tidied. Qed.

Lemma inspect_tidy parent name create : runs (inspectChild parent name create)
  (fun r l => tidy (negb create) nothing l /\ (create = false -> match r with Ok (_, created) => created = false | Err _ => True end)).
Proof.
  unfold inspectChild. destruct create.
  - apply (runs_mono _ (fun _ l => tidy false nothing l)); [|intros ? ? ?; done]. fs_steps; tidied.
  - fs_steps; try match goal with E : _ && false = true |- _ => rewrite andb_false_r in E; discriminate E end;
      (split; [tidied|done]).
Qed.

Lemma child_tidy parent name create : runs (openVisualChildDirectory parent name create) (fun r l => tidy (negb create) (handed r) l).
Proof.
  unfold openVisualChildDirectory. eapply runs_andThen; [apply inspect_tidy| |].
  - intros [before created] l [Hl Hc]. destruct create; cbn [negb] in *.
    + fs_steps; try (tidied; fail). eapply runs_bind; [apply sync_tidy|]. intros r l' Hl'. fs_steps; tidied.
    + rewrite (Hc eq_refl). fs_steps; tidied.
  - intros e l [Hl _]. tidied.
Qed.

Lemma descend_tidy strict components create : forall current, runs (descend strict current components create)
  (fun r l => tidy (negb create) (fun x => handed r x - one current x) l).
Proof.
  induction components as [|component components IH]; intros current; cbn [descend].
  { apply runs_ret. tidied. }
  destruct (strict && bool_decide (component = [])); [apply IH|].
  match goal with |- context [if ?b then _ else _] => destruct b end; [fs_steps; tidied|].
  eapply runs_bind; [apply child_tidy|]. intros [next|e] l Hl; [|fs_steps; tidied].
  apply runs_call. intros [e|]; [fs_steps; tidied|]. eapply runs_mono; [apply IH|]. intros r l' Hl'. cbn beta in *. tidied.
Qed.

Lemma pinned_tidy name create : runs (openPinnedVisualDirectory name create) (fun r l => tidy (negb create) (handed r) l).
Proof.
  unfold openPinnedVisualDirectory. fs_steps; try (tidied; fail).
  eapply runs_mono; [apply descend_tidy|]. intros r l Hl. tidied.
Qed.

Lemma relative_tidy root name create : runs (openVisualRelativeDirectory root name create) (fun r l => tidy (negb create) (handed r) l).
Proof.
  unfold openVisualRelativeDirectory. eapply runs_andThen; [apply (runs_ret _ (fun _ l => l = [])); reflexivity| |intros e l ->; cbn [app]; tidied].
  intros canonical l ->. cbn [app]. fs_steps; try (tidied; fail).
  eapply runs_mono; [apply descend_tidy|]. intros r l Hl. tidied.
Qed.

Lemma leaf_tidy root name maxBytes hook : runs (readBoundedVisualLeafWithHook root name maxBytes hook) (fun _ l => tidy true nothing l).
Proof. unfold readBoundedVisualLeafWithHook. fs_steps; tidied. Qed.

Lemma file_tidy root name maxBytes : runs (readBoundedVisualFile root name maxBytes) (fun _ l => tidy true nothing l).
Proof.
  unfold readBoundedVisualFile. eapply runs_andThen; [apply (runs_ret _ (fun _ l => l = [])); reflexivity| |intros e l ->; cbn [app]; tidied].
  intros canonical l ->. cbn [app]. destruct (maxBytes <? 0); [fs_steps; tidied|].
  eapply runs_andThen; [apply relative_tidy| |intros e l Hl; tidied]. intros parent l Hl.
  eapply runs_bind; [apply leaf_tidy|]. intros read l' Hl'. fs_steps; tidied.
Qed.

Lemma entries_tidy root limit : runs (readBoundedVisualEntries root limit) (fun _ l => tidy true nothing l).
Proof. unfold readBoundedVisualEntries. fs_steps; tidied. Qed.

Lemma inspectEntries_tidy output files entries : forall stale present,
  runs (inspectEntries output files entries stale present) (fun _ l => tidy true nothing l).
Proof.
  induction entries as [|name entries IH]; intros stale present; cbn [inspectEntries]; [fs_steps; tidied|].
  apply asked_call; [intros info|intros e; tidied].
  repeat match goal with |- runs (if ?b then _ else _) _ => destruct b end; try (fs_steps; tidied; fail);
    (eapply runs_mono; [apply IH|]; intros r l Hl; tidied).
Qed.

Lemma compare_tidy output files present names : forall stale,
  runs (compareArtifacts output files present names stale) (fun _ l => tidy true nothing l).
Proof.
  induction names as [|name names IH]; intros stale; cbn [compareArtifacts]; [fs_steps; tidied|].
  destruct (negb (bool_decide (name ∈ present))); [apply IH|]. eapply runs_bind; [apply leaf_tidy|].
  intros [[current info]|e] l Hl; [|fs_steps; tidied].
  match goal with |- runs (if ?b then _ else _) _ => destruct b end; (eapply runs_mono; [apply IH|]; intros r l' Hl'; tidied).
Qed.

Lemma checkInRoot_tidy output files : runs (checkVisualArtifactsInRoot output files) (fun _ l => tidy true nothing l).
Proof.
  unfold checkVisualArtifactsInRoot. eapply runs_andThen; [apply entries_tidy| |intros e l Hl; tidied]. intros entries l Hl.
  eapply runs_andThen; [apply inspectEntries_tidy| |intros e l' Hl'; tidied]. intros [stale present] l' Hl'.
  eapply runs_andThen; [apply compare_tidy| |intros e l'' Hl''; tidied]. intros stale' l'' Hl''. fs_steps; tidied.
Qed.

Lemma inventory_tidy output files entries : runs (inventory output files entries) (fun _ l => tidy true nothing l).
Proof.
  induction entries as [|name entries IH]; cbn [inventory]; [fs_steps; tidied|].
  apply asked_call; [intros info|intros e; tidied].
  repeat match goal with |- runs (if ?b then _ else _) _ => destruct b end; try (fs_steps; tidied; fail).
  eapply runs_mono; [apply IH|]. intros r l Hl. tidied.
Qed.

Lemma outputInventory_tidy output files : runs (validateVisualOutputInventory output files) (fun _ l => tidy true nothing l).
Proof.
  unfold validateVisualOutputInventory. eapply runs_andThen; [apply entries_tidy| |intros e l Hl; tidied]. intros entries l Hl.
  eapply runs_mono; [apply inventory_tidy|]. intros r l' Hl'. tidied.
Qed.

Lemma replaceTarget_tidy output name : runs (validateVisualReplaceTarget output name) (fun _ l => tidy true nothing l).
Proof. unfold validateVisualReplaceTarget. fs_steps; tidied. Qed.

Lemma temporary_tidy attempts output name : runs (createTemporary attempts output name)
  (fun r l => tidy false (fun x => match r with Ok (_, file) => one file x | Err _ => 0 end) l).
Proof.
  induction attempts as [|attempts IH]; cbn [createTemporary]; [fs_steps; tidied|].
  apply runs_call. intros [nonce|]; [|fs_steps; tidied]. apply runs_call. intros [file|[]]; try (fs_steps; tidied; fail).
  eapply runs_mono; [apply IH|]. intros r l Hl. tidied.
Qed.

Lemma writeLoop_tidy fuel file : forall payload, (length payload <= fuel)%nat ->
  runs (writeLoop fuel file payload) (fun _ l => tidy false nothing l).
Proof.
  induction fuel as [|fuel IH]; intros [|c payload] Hl; cbn [writeLoop]; try (fs_steps; tidied; fail); [cbn in Hl; lia|].
  apply runs_call. intros [written [e|]]; [fs_steps; tidied|]. destruct (written =? 0)%nat eqn:Hw; [fs_steps; tidied|].
  apply Nat.eqb_neq in Hw. eapply runs_mono; [apply IH|intros r l Hl'; tidied].
  rewrite length_drop. cbn [length] in *. lia.
Qed.

Lemma hook_tidy hook stage : runs (runVisualAtomicWriteHook hook stage) (fun _ l => l = []).
Proof. unfold runVisualAtomicWriteHook. fs_steps; done. Qed.

Lemma fill_tidy file payload hook : runs (fillTemporary file payload hook) (fun _ l => tidy false nothing l).
Proof.
  unfold fillTemporary. eapply runs_andThen; [apply hook_tidy| |intros e l ->; tidied]. intros _ l ->. cbn [app].
  fs_steps; try (tidied; fail). eapply runs_bind; [by apply writeLoop_tidy|]. intros [[]|e] l Hl; [|fs_steps; tidied].
  eapply runs_andThen; [apply hook_tidy| |intros e l' ->; tidied]. intros _ l' ->. cbn [app].
  apply told_call; [|intros e; tidied]. eapply runs_andThen; [apply hook_tidy| |intros e l' ->; tidied]. intros _ l' ->. cbn [app].
  fs_steps; tidied.
Qed.

Lemma beforeRename_tidy output temporary name written hook :
  runs (beforeRename output temporary name written hook) (fun _ l => tidy true nothing l).
Proof.
  unfold beforeRename. fs_steps; try (tidied; fail). eapply runs_andThen; [apply replaceTarget_tidy| |intros e l Hl; tidied].
  intros u l Hl. eapply runs_mono; [apply hook_tidy|]. intros r l' ->. tidied.
Qed.

Lemma afterRename_tidy output name payload written : runs (afterRename output name payload written) (fun _ l => tidy false nothing l).
Proof.
  unfold afterRename. fs_steps; try (tidied; fail). eapply runs_mono; [apply sync_tidy|]. intros r l Hl. tidied.
Qed.

Lemma giveUp_tidy {A} output temporary file e : runs (giveUp (A := A) output temporary file e)
  (fun _ l => tidy false (fun x => match file with Some file => - one file x | None => 0 end) l).
Proof. unfold giveUp. destruct file as [file|]; fs_steps; tidied. Qed.

Lemma atomic_tidy output name payload hook : runs (atomicWriteVisualWithHook output name payload hook) (fun _ l => tidy false nothing l).
Proof.
  unfold atomicWriteVisualWithHook. fs_steps; try (tidied; fail).
  eapply runs_andThen; [apply replaceTarget_tidy| |intros e l Hl; tidied]. intros u l Hl.
  eapply runs_andThen; [apply temporary_tidy| |intros e l' Hl'; tidied]. intros [temporary file] l' Hl'. cbv beta iota in Hl'.
  eapply runs_bind; [apply fill_tidy|]. intros [written|e] l2 Hl2.
  2: { eapply runs_mono; [apply giveUp_tidy|]. intros r l3 Hl3. tidied. }
  apply runs_call. intros [closed|]; [eapply runs_mono; [apply giveUp_tidy|]; intros r l3 Hl3; tidied|].
  eapply runs_bind; [apply beforeRename_tidy|]. intros [[]|e] l3 Hl3; [|eapply runs_mono; [apply giveUp_tidy|]; intros r l4 Hl4; tidied].
  apply runs_call. intros [renamed|]; [eapply runs_mono; [apply giveUp_tidy|]; intros r l4 Hl4; tidied|].
  eapply runs_mono; [apply afterRename_tidy|]. intros r l4 Hl4. tidied.
Qed.

Lemma writeInOrder_tidy output files names : runs (writeInOrder output files atomicWriteVisual names) (fun _ l => tidy false nothing l).
Proof.
  induction names as [|name names IH]; cbn [writeInOrder]; [fs_steps; tidied|].
  eapply runs_andThen; [apply atomic_tidy| |intros e l Hl; tidied]. intros u l Hl.
  eapply runs_mono; [apply IH|]. intros r l' Hl'. tidied.
Qed.

Lemma bundle_tidy output files : runs (writeVisualArtifactBundle output files (Some atomicWriteVisual)) (fun _ l => tidy false nothing l).
Proof. unfold writeVisualArtifactBundle. destruct (validateVisualArtifactSet files); [fs_steps; tidied|apply writeInOrder_tidy]. Qed.

Lemma collectEntries_tidy below directory prefix includeTests entries :
  (forall relative selection, runs (below relative selection) (fun _ l => tidy true nothing l)) -> forall selection,
  runs (collectEntries below directory prefix includeTests entries selection) (fun _ l => tidy true nothing l).
Proof.
  intros Hbelow. induction entries as [|name entries IH]; intros selection; cbn [collectEntries]; [fs_steps; tidied|].
  apply asked_call; [intros info|intros e; tidied].
  destruct (st_IsSymlink info); [fs_steps; tidied|]. destruct (st_IsDir info).
  - eapply runs_andThen; [apply Hbelow| |intros e l Hl; tidied]. intros selection' l Hl.
    eapply runs_mono; [apply IH|]. intros r l' Hl'. tidied.
  - destruct (negb (st_IsRegular info)); [fs_steps; tidied|].
    destruct (goSource name includeTests); (eapply runs_mono; [apply IH|]; intros r l Hl; tidied).
Qed.

(** The recursion is bounded by the bound of the depth. *)
Lemma collect_tidy root includeTests fuel : forall prefix depth selection, visualMaxSourceDepth + 2 - depth <= Z.of_nat fuel -> 0 <= depth <= visualMaxSourceDepth + 1 ->
  runs (collectVisualSourceDirectory fuel root prefix includeTests depth selection) (fun _ l => tidy true nothing l).
Proof.
  induction fuel as [|fuel IH]; intros prefix depth selection Hf Hd; [lia|]. cbn [collectVisualSourceDirectory].
  destruct (visualMaxSourceDepth <? depth) eqn:Hdeep; [fs_steps; tidied|]. apply Z.ltb_ge in Hdeep.
  eapply runs_andThen; [apply relative_tidy| |intros e l Hl; tidied]. intros directory l Hl.
  eapply (runs_bind _ _ (fun _ l => tidy true nothing l)).
  - eapply runs_andThen; [apply entries_tidy| |intros e l' Hl'; tidied]. intros entries l' Hl'.
    match goal with |- runs (if ?b then _ else _) _ => destruct b end; [fs_steps; tidied|].
    eapply runs_mono; [apply collectEntries_tidy|intros r l2 Hl2; tidied].
    intros relative selection'. apply IH; lia.
  - intros collected l' Hl'. fs_steps; tidied.
Qed.

Lemma selectDirectories_tidy root includeTests directories : forall selection,
  runs (selectDirectories root includeTests directories selection) (fun _ l => tidy true nothing l).
Proof.
  induction directories as [|directory directories IH]; intros selection; cbn [selectDirectories]; [fs_steps; tidied|].
  destruct (canonicalVisualRelativePath directory true) as [canonical|]; [|fs_steps; tidied].
  eapply runs_andThen; [apply collect_tidy; by vm_compute| |intros e l Hl; tidied].
  intros selection' l Hl. eapply runs_mono; [apply IH|]. intros r l' Hl'. tidied.
Qed.

Lemma hashed_tidy root names : forall totalBytes hashed, runs (hashedSources root names totalBytes hashed) (fun _ l => tidy true nothing l).
Proof.
  induction names as [|name names IH]; intros totalBytes hashed; cbn [hashedSources]; [fs_steps; tidied|].
  eapply runs_bind; [apply file_tidy|]. intros [[payload info]|e] l Hl; [|fs_steps; tidied].
  match goal with |- runs (if ?b then _ else _) _ => destruct b end; [fs_steps; tidied|].
  eapply runs_mono; [apply IH|]. intros r l' Hl'. tidied.
Qed.

Lemma digestInRoot_tidy root files directories includeTests :
  runs (digestVisualSourcesInRoot root files directories includeTests) (fun _ l => tidy true nothing l).
Proof.
  unfold digestVisualSourcesInRoot. match goal with |- runs (if ?b then _ else _) _ => destruct b end; [fs_steps; tidied|].
  eapply runs_andThen; [apply (runs_ret _ (fun _ l => l = [])); reflexivity| |intros e l ->; cbn [app]; tidied].
  intros selection l ->. cbn [app].
  eapply runs_andThen; [apply selectDirectories_tidy| |intros e l Hl; tidied]. intros selection' l Hl.
  match goal with |- runs (if ?b then _ else _) _ => destruct b end; [fs_steps; tidied|].
  eapply runs_andThen; [apply hashed_tidy| |intros e l' Hl'; tidied]. intros hashed l' Hl'. fs_steps; tidied.
Qed.

Lemma digest_tidy root files directories includeTests :
  runs (digestVisualSources root files directories includeTests) (fun _ l => tidy true nothing l).
Proof.
  unfold digestVisualSources. eapply runs_bind; [apply pinned_tidy|]. intros [repository|e] l Hl; [|fs_steps; tidied].
  eapply runs_bind; [apply digestInRoot_tidy|]. intros digest l' Hl'. fs_steps; tidied.
Qed.
End tidiness.

(** ** Writing: correctness *)

(** What matters of a call for the writing of an artifact. *)
Inductive fsView :=
| vCreate (dir : Z) (name : gostring) (file : option Z)
| vWrite (file : Z) (bytes : list Z)
| vSync (file : Z) (ok : bool)
| vClose (file : Z) (ok : bool)
| vRename (dir : Z) (old new : gostring) (ok : bool)
| vRemove (dir : Z) (name : gostring)
| vOther.

Definition succeeded (e : option fsErr) : bool := match e with None => true | Some _ => false end.

Definition viewCall {A} (c : fsCall A) : A -> fsView :=
  match c in fsCall A return A -> fsView with
  | fsCreate dir name _ => fun r => vCreate dir name (match r with Ok file => Some file | Err _ => None end)
  | fsWrite file payload => fun r => vWrite file (take (fst r) payload)
  | fsSync file => fun r => vSync file (succeeded r)
  | fsClose file => fun r => vClose file (succeeded r)
  | fsRename dir old new => fun r => vRename dir old new (succeeded r)
  | fsRemove dir name => fun _ => vRemove dir name
  | _ => fun _ => vOther
  end.
Definition view (ev : fsEvent) : fsView := viewCall (ev_call ev) (ev_answer ev).

(** The bytes that a file has taken. *)
Fixpoint takenBy (file : Z) (views : list fsView) : list Z :=
  match views with
  | [] => []
  | vWrite f bytes :: views => if f =? file then bytes ++ takenBy file views else takenBy file views
  | _ :: views => takenBy file views
  end.

Definition unrenaming (v : fsView) : Prop := match v with vRename _ _ _ _ => False | _ => True end.
(** Neither renames, nor creates, nor writes. *)
Definition idle (v : fsView) : Prop :=
  match v with vRename _ _ _ _ | vCreate _ _ (Some _) | vWrite _ _ => False | _ => True end.

(** Before its rename the temporary file was created and took the whole payload; then it
    was synced, then it was closed, and nothing was written any more. *)
Record complete (output : Z) (payload : list Z) (temporary : gostring) (file : Z) (before : list fsView) : Prop := {
  cm_created : vCreate output temporary (Some file) ∈ before;
  cm_flushed : exists filling closing, before = filling ++ vSync file true :: closing
    /\ takenBy file filling = payload /\ Forall idle closing /\ vClose file true ∈ closing;
}.

Definition swapped (output : Z) (name : gostring) (payload : list Z) (ok : bool) (views : list fsView) : Prop :=
  exists before temporary file after, views = before ++ vRename output temporary name ok :: after
    /\ Forall unrenaming before /\ Forall unrenaming after /\ complete output payload temporary file before.

(** Every temporary file was renamed or removed. *)
Definition cleared (output : Z) (name : gostring) (views : list fsView) : Prop :=
  forall temporary file, vCreate output temporary (Some file) ∈ views ->
    vRename output temporary name true ∈ views \/ vRemove output temporary ∈ views.

Lemma takenBy_app file l l' : takenBy file (l ++ l') = takenBy file l ++ takenBy file l'.
Proof.
  induction l as [|v l IH]; [done|]. destruct v; cbn [app takenBy]; try exact IH. destruct (file0 =? file); [|exact IH].
  by rewrite IH, app_assoc.
Qed.

Lemma takenBy_idle file l : Forall idle l -> takenBy file l = [].
Proof. induction 1 as [|v l Hv _ IH]; [done|]. by destruct v. Qed.

Lemma idle_unrenaming l : Forall idle l -> Forall unrenaming l.
Proof. intros Hl. eapply Forall_impl; [exact Hl|]. intros []; by cbn. Qed.

Lemma idle_uncreated l output temporary file : Forall idle l -> vCreate output temporary (Some file) ∉ l.
Proof. intros Hl Hin. exact (proj1 (Forall_forall _ _) Hl _ Hin). Qed.

Section writing.
Context `{OS}.

Definition idles (l : list fsEvent) : Prop := Forall idle (map view l).

(** The calls are looked at one by one. *)
Ltac idled :=
  cbv beta in *; unfold idles in *; cbn [map]; rewrite ?map_app;
  repeat first [apply Forall_nil_2|apply Forall_cons_2; [exact I|]|apply Forall_app_2|eassumption].

Lemma replaceTarget_idle output name : runs (validateVisualReplaceTarget output name) (fun _ l => idles l).
Proof. unfold validateVisualReplaceTarget. fs_steps; idled. Qed.

Lemma sync_idle root : runs (syncVisualDirectory root) (fun _ l => idles l).
Proof. unfold syncVisualDirectory. fs_steps; idled. Qed.

Lemma beforeRename_idle output temporary name written hook : runs (beforeRename output temporary name written hook) (fun _ l => idles l).
Proof.
  unfold beforeRename. fs_steps; try (idled; fail). eapply runs_andThen; [apply replaceTarget_idle| |intros e l Hl; idled].
  intros u l Hl. eapply runs_mono; [apply hook_tidy|]. intros r l' ->. idled.
Qed.

Lemma afterRename_idle output name payload written : runs (afterRename output name payload written) (fun _ l => idles l).
Proof. unfold afterRename. fs_steps; try (idled; fail). eapply runs_mono; [apply sync_idle|]. intros r l Hl. idled. Qed.

Lemma giveUp_idle {A} output temporary file e : runs (giveUp (A := A) output temporary file e)
  (fun r l => r = Err e /\ idles l /\ vRemove output temporary ∈ map view l).
Proof.
  unfold giveUp. destruct file as [file|]; fs_steps; (split; [reflexivity|]; split; [idled|]); cbn [map]; [right; left|left].
Qed.

Lemma createTemporary_views attempts output name : runs (createTemporary attempts output name) (fun r l =>
  match r with
  | Ok (temporary, file) => exists l', map view l = l' ++ [vCreate output temporary (Some file)] /\ Forall idle l'
      /\ exists nonce, temporary = temporaryName name nonce
  | Err _ => idles l
  end).
Proof.
  induction attempts as [|attempts IH]; cbn [createTemporary]; [fs_steps; idled|].
  apply runs_call. intros [nonce|]; [|fs_steps; idled]. apply runs_call. intros [file|[]]; try (fs_steps; idled; fail).
  - fs_steps. exists [vOther]. split; [reflexivity|]. split; [idled|]. by exists nonce.
  - eapply runs_mono; [apply IH|]. intros [[temporary file]|e] l; cbn beta iota; [|intros Hl; idled].
    intros (l' & Hl & Hi & Hn). exists (vOther :: vCreate output (temporaryName name nonce) None :: l'). split; [cbn [map]; by rewrite Hl|].
    split; [idled|exact Hn].
Qed.

Lemma writeLoop_views fuel file : forall payload, (length payload <= fuel)%nat -> runs (writeLoop fuel file payload) (fun r l =>
  Forall (fun v => exists bytes, v = vWrite file bytes) (map view l)
  /\ match r with Ok _ => takenBy file (map view l) = payload | Err _ => True end).
Proof.
  induction fuel as [|fuel IH]; intros [|c payload] Hl; cbn [writeLoop]; try (apply runs_ret; split; [constructor|done]); [cbn in Hl; lia|].
  apply runs_call. intros [written [e|]].
  { apply runs_ret. split; [|done]. cbn [map]. apply Forall_cons_2; [by eexists|constructor]. }
  destruct (written =? 0)%nat eqn:Hw.
  { apply runs_ret. split; [|done]. cbn [map]. apply Forall_cons_2; [by eexists|constructor]. }
  apply Nat.eqb_neq in Hw. eapply runs_mono; [apply IH|].
  - rewrite length_drop. cbn [length] in *. lia.
  - intros r l [Hf Hr]. split; [cbn [map]; apply Forall_cons_2; [by eexists|exact Hf]|]. destruct r as [u|e]; [|done].
    cbn [map takenBy view viewCall ev_call ev_answer fst]. rewrite Z.eqb_refl, Hr. apply take_drop.
Qed.

Ltac filled_in :=
  cbn [map]; rewrite ?map_app; cbn [map app];
  repeat first [apply Forall_nil_2|apply Forall_cons_2; [left; exact I|]|apply Forall_app_2|eassumption].

Lemma fill_views file payload hook : runs (fillTemporary file payload hook) (fun r l =>
  Forall (fun v => idle v \/ exists bytes, v = vWrite file bytes) (map view l)
  /\ match r with
     | Ok _ => exists filling rest, map view l = filling ++ vSync file true :: rest /\ takenBy file filling = payload /\ Forall idle rest
     | Err _ => True
     end).
Proof.
  unfold fillTemporary. eapply runs_andThen; [apply hook_tidy| |intros e l ->; split; [constructor|done]]. intros u l ->. cbn [app].
  apply asked_call; [intros created|intros e; split; [filled_in|done]].
  destruct (negb (st_IsRegular created)); [apply runs_ret; split; [filled_in|done]|].
  apply told_call; [|intros e; split; [filled_in|done]].
  eapply runs_bind; [by apply writeLoop_views|]. intros wrote l [Hf Hr].
  assert (Hf' : Forall (fun v => idle v \/ exists bytes, v = vWrite file bytes) (map view l))
    by (eapply Forall_impl; [exact Hf|]; intros v Hv; by right).
  destruct wrote as [[]|e]; [|apply runs_ret; split; [filled_in|done]].
  eapply runs_andThen; [apply hook_tidy| |intros e l' ->; split; [filled_in|done]]. intros u' l' ->. cbn [app].
  apply told_call; [|intros e; split; [filled_in|done]].
  eapply runs_andThen; [apply hook_tidy| |intros e l' ->; split; [filled_in|done]]. intros u2 l' ->. cbn [app].
  apply asked_call; [intros written|intros e; split; [filled_in|done]].
  match goal with |- runs (if ?b then _ else _) _ => destruct b end; apply runs_ret; (split; [filled_in|]); [done|].
  exists (vOther :: vOther :: map view l), [vOther]. split; [cbn [map]; rewrite map_app; reflexivity|]. split; [exact Hr|].
  repeat constructor.
Qed.
End writing.

(** Creates no file. *)
Definition uncreating (v : fsView) : Prop := match v with vCreate _ _ (Some _) => False | _ => True end.

Lemma idle_uncreating l : Forall idle l -> Forall uncreating l.
Proof. intros Hl. eapply Forall_impl; [exact Hl|]. intros [? ? []| | | | | |]; by cbn. Qed.

Lemma fill_uncreating file l : Forall (fun v => idle v \/ exists bytes, v = vWrite file bytes) l -> Forall uncreating l.
Proof. intros Hl. eapply Forall_impl; [exact Hl|]. intros v [Hv|[bytes ->]]; [|exact I]. by destruct v as [? ? []| | | | | |]. Qed.

Lemma fill_unrenaming file l : Forall (fun v => idle v \/ exists bytes, v = vWrite file bytes) l -> Forall unrenaming l.
Proof. intros Hl. eapply Forall_impl; [exact Hl|]. intros v [Hv|[bytes ->]]; [|exact I]. by destruct v. Qed.

Lemma cleared_none output name views : Forall uncreating views -> cleared output name views.
Proof. intros Hv temporary file Hin. destruct (proj1 (Forall_forall _ _) Hv _ Hin). Qed.

Lemma cleared_one output name temporary file l after : Forall uncreating l -> Forall uncreating after ->
  vRename output temporary name true ∈ after \/ vRemove output temporary ∈ after ->
  cleared output name (l ++ vCreate output temporary (Some file) :: after).
Proof.
  intros Hl Ha Hgone temporary' file' Hin. apply elem_of_app in Hin as [Hin|Hin].
  { destruct (proj1 (Forall_forall _ _) Hl _ Hin). }
  apply elem_of_cons in Hin as [[= -> ->]|Hin]; [|destruct (proj1 (Forall_forall _ _) Ha _ Hin)].
  destruct Hgone as [Hg|Hg]; [left|right]; apply elem_of_app; right; by right.
Qed.

Section replacing.
Context `{OS}.

(** What the writing of one artifact comes to. *)
Definition written_or_kept (output : Z) (name : gostring) (payload : list Z) (r : result fault unit) (l : list fsEvent) : Prop :=
  cleared output name (map view l)
  /\ (Forall unrenaming (map view l) /\ r <> Ok tt
      \/ exists ok, swapped output name payload ok (map view l) /\ (r = Ok tt -> ok = true)).

Lemma kept_idle output name payload e l : idles l -> written_or_kept output name payload (Err e) l.
Proof.
  intros Hl. split; [by apply cleared_none, idle_uncreating|]. left. split; [by apply idle_unrenaming|done].
Qed.

(** A temporary file was created after [l1 ++ l2], of which [before] is what was seen. *)
Section started.
Context (output : Z) (name payload temporary : gostring) (file : Z) (l1 l2 : list fsEvent) (before : list fsView).
Hypothesis Hstart : map view (l1 ++ l2) = before ++ [vCreate output temporary (Some file)].
Hypothesis Hbefore : Forall idle before.

Lemma started_views l : map view (l1 ++ l2 ++ l) = before ++ vCreate output temporary (Some file) :: map view l.
Proof. rewrite app_assoc, map_app, Hstart, <- app_assoc. reflexivity. Qed.

(** A failure after which the temporary file was removed. *)
Lemma given_up (k : option Z) e l : Forall uncreating (map view l) -> Forall unrenaming (map view l) ->
  runs (giveUp (A := unit) output temporary k e) (fun r l' => written_or_kept output name payload r (l1 ++ l2 ++ l ++ l')).
Proof.
  intros Hc Hr. eapply runs_mono; [apply giveUp_idle|]. intros r l' (-> & Hi & Hin). unfold written_or_kept.
  rewrite started_views, map_app. split.
  - apply cleared_one; [by apply idle_uncreating| |right; apply elem_of_app; by right].
    apply Forall_app. split; [done|by apply idle_uncreating].
  - left. split; [|done]. apply Forall_app. split; [by apply idle_unrenaming|]. apply Forall_cons_2; [exact I|].
    apply Forall_app. split; [done|by apply idle_unrenaming].
Qed.

(** The file was filled and closed, and then renamed or not. *)
Context (l3 l4 : list fsEvent).
Hypothesis Hfill : Forall (fun v => idle v \/ exists bytes, v = vWrite file bytes) (map view l3).
Context (filling rest : list fsView).
Hypothesis Hviews : map view l3 = filling ++ vSync file true :: rest.
Hypothesis Htaken : takenBy file filling = payload.
Hypothesis Hrest : Forall idle rest.
Hypothesis Hidle : Forall idle (map view l4).

Definition closed : list fsEvent := l3 ++ mkEvent _ (fsClose file) None :: l4.

Lemma closed_uncreating : Forall uncreating (map view closed).
Proof.
  unfold closed. rewrite map_app. apply Forall_app. split; [by eapply fill_uncreating|]. apply Forall_cons_2; [exact I|by apply idle_uncreating].
Qed.

Lemma closed_unrenaming : Forall unrenaming (map view closed).
Proof.
  unfold closed. rewrite map_app. apply Forall_app. split; [by eapply fill_unrenaming|]. apply Forall_cons_2; [exact I|by apply idle_unrenaming].
Qed.

Lemma closed_complete : complete output payload temporary file (before ++ vCreate output temporary (Some file) :: map view closed).
Proof.
  unfold closed. rewrite map_app. split.
  - apply elem_of_app. right. left.
  - exists (before ++ vCreate output temporary (Some file) :: filling), (rest ++ vClose file true :: map view l4).
    split; [rewrite Hviews, <- !app_assoc; reflexivity|]. split.
    + rewrite takenBy_app, (takenBy_idle file _ Hbefore). exact Htaken.
    + split; [|apply elem_of_app; right; left]. apply Forall_app. split; [exact Hrest|]. apply Forall_cons_2; [exact I|exact Hidle].
Qed.

Lemma renamed_or_not answer l r : Forall idle (map view l) ->
  succeeded answer = true \/ vRemove output temporary ∈ map view l -> (r = Ok tt -> succeeded answer = true) ->
  written_or_kept output name payload r (l1 ++ l2 ++ closed ++ mkEvent _ (fsRename output temporary name) answer :: l).
Proof.
  intros Hi Hgone Hr. unfold written_or_kept. rewrite started_views, map_app. split.
  - apply cleared_one; [by apply idle_uncreating| |].
    + apply Forall_app. split; [exact closed_uncreating|]. apply Forall_cons_2; [exact I|by apply idle_uncreating].
    + destruct Hgone as [Hs|Hrm]; [left|right]; apply elem_of_app; right; [|by right].
      cbn [map view viewCall ev_call ev_answer]. rewrite Hs. left.
  - right. exists (succeeded answer). split; [|exact Hr]. eexists _, temporary, file, (map view l).
    split; [|split; [|split; [|exact closed_complete]]].
    + rewrite <- !app_assoc. reflexivity.
    + apply Forall_app. split; [by apply idle_unrenaming|]. apply Forall_cons_2; [exact I|exact closed_unrenaming].
    + by apply idle_unrenaming.
Qed.
End started.

Lemma atomic_writes output name payload hook :
  runs (atomicWriteVisualWithHook output name payload hook) (written_or_kept output name payload).
Proof.
  unfold atomicWriteVisualWithHook. destruct (canonicalVisualRelativePath name false); [|fs_steps; apply kept_idle; constructor].
  destruct (negb (bool_decide (Base name = name))); [fs_steps; apply kept_idle; constructor|].
  destruct (visualMaxArtifactBytes <? Z.of_nat (length payload)); [fs_steps; apply kept_idle; constructor|].
  eapply runs_andThen; [apply replaceTarget_idle| |intros e l Hl; rewrite app_nil_r; by apply kept_idle]. intros u l1 Hl1.
  eapply runs_andThen; [apply createTemporary_views| |].
  2: { intros e l Hl. rewrite app_nil_r. apply kept_idle. unfold idles in *. rewrite map_app. by apply Forall_app. }
  intros [temporary file] l2 (l2' & Hl2 & Hi2 & _).
  assert (Hstart : map view (l1 ++ l2) = (map view l1 ++ l2') ++ [vCreate output temporary (Some file)])
    by (rewrite map_app, Hl2; apply app_assoc).
  assert (Hbefore : Forall idle (map view l1 ++ l2')) by (by apply Forall_app).
  pose proof (@given_up output name payload temporary file l1 l2 _ Hstart Hbefore) as Hgive.
  eapply runs_bind; [apply fill_views|]. intros filled l3 [Hf3 Hr3].
  destruct filled as [written|e]; [|apply Hgive; [by eapply fill_uncreating|by eapply fill_unrenaming]].
  destruct Hr3 as (filling & rest & Hviews & Htaken & Hrest). apply runs_call. intros [e|].
  { eapply runs_mono; [apply (Hgive _ _ (l3 ++ [mkEvent _ (fsClose file) (Some e)])); rewrite map_app; apply Forall_app|].
    - split; [by eapply fill_uncreating|by repeat constructor].
    - split; [by eapply fill_unrenaming|by repeat constructor].
    - intros r l'. cbv beta. rewrite <- ?app_assoc. exact id. }
  eapply runs_bind; [apply beforeRename_idle|]. intros ready l4 Hl4. unfold idles in Hl4.
  destruct ready as [u'|e].
  2: { eapply runs_mono; [apply (Hgive _ _ (closed file l3 l4)); [by apply closed_uncreating|by apply closed_unrenaming]|].
       intros r l'. cbv beta. unfold closed. rewrite <- ?app_assoc. exact id. }
  pose proof (renamed_or_not output name payload temporary file l1 l2 _ Hstart Hbefore l3 l4 Hf3
    filling rest Hviews Htaken Hrest Hl4) as Hren.
  apply runs_call. intros [e|].
  - eapply runs_mono; [apply giveUp_idle|]. intros r l' (-> & Hi & Hin).
    specialize (Hren (Some e) l' (Err (mkFault "replace artifact" None)) Hi (or_intror Hin) ltac:(done)).
    unfold closed in Hren. rewrite <- ?app_assoc in Hren. rewrite <- ?app_assoc. exact Hren.
  - eapply runs_mono; [apply afterRename_idle|]. intros r l' Hi. specialize (Hren None l' r Hi (or_introl eq_refl) ltac:(done)).
    unfold closed in Hren. rewrite <- ?app_assoc in Hren. rewrite <- ?app_assoc. exact Hren.
Qed.
End replacing.

(** ** Checking: correctness *)

Lemma insertSorted_perm name names : insertSorted name names ≡ₚ name :: names.
Proof.
  induction names as [|other names IH]; cbn [insertSorted]; [done|]. destruct (stringLe name other); [done|].
  rewrite IH. apply Permutation_swap.
Qed.

Lemma sortStrings_perm names : sortStrings names ≡ₚ names.
Proof.
  unfold sortStrings. induction names as [|name names IH]; cbn [foldr]; [done|]. by rewrite insertSorted_perm, IH.
Qed.

Lemma sortStrings_nil names : sortStrings names = [] <-> names = [].
Proof.
  split; [|by intros ->]. intros Hs. pose proof (sortStrings_perm names) as Hp. rewrite Hs in Hp. by apply Permutation_nil_l in Hp.
Qed.

Lemma names_of {A} (m : gmap gostring A) name : name ∈ map fst (map_to_list m) <-> is_Some (m !! name).
Proof.
  rewrite list_elem_of_In, in_map_iff. split.
  - intros ([n a] & <- & Hin). apply list_elem_of_In, elem_of_map_to_list in Hin. by eexists.
  - intros [a Ha]. exists (name, a). split; [reflexivity|]. by apply list_elem_of_In, elem_of_map_to_list.
Qed.

(** A directory, its files with their content. *)
Abbreviation onDisk := (gmap gostring (fileStat * list Z)).

Definition entryName (name : gostring) : bool :=
  negb (bool_decide (name = []) || bool_decide (name = bs ".") || bool_decide (name = bs "..") || separator_in name).

(** The directory that a handle is of stands still: every answer is as it says. *)
Record still `{OS} (output : Z) (D : onDisk) : Prop := {
  sl_info : exists info, st_IsDir info = true /\ (forall log, os_answer _ log (fsStat output) = Ok info)
    /\ exists self names, (forall log, os_answer _ log (fsOpenSelf output) = Ok self)
      /\ (forall log, os_answer _ log (fsFileStat self) = Ok info)
      /\ (forall log, os_answer _ log (fsClose self) = None)
      /\ (forall log n, os_answer _ log (fsReaddirnames self n) = (take (Z.to_nat n) names, if decide (names = []) then Some fsEOF else None))
      /\ names ≡ₚ map fst (map_to_list D) /\ Forall (fun name => entryName name = true) names;
  sl_lstat : forall log name info content, D !! name = Some (info, content) -> os_answer _ log (fsLstat output name) = Ok info;
  sl_file : forall name info content, D !! name = Some (info, content) -> st_IsRegular info = true ->
    st_Size info = Z.of_nat (length content) /\ exists file, (forall log, os_answer _ log (fsOpenRead output name) = Ok file)
      /\ (forall log, os_answer _ log (fsFileStat file) = Ok info) /\ (forall log, os_answer _ log (fsRead file) = (content, false))
      /\ (forall log, os_answer _ log (fsClose file) = None);
}.

(** The directory holds these files and no others, each a regular file that its owner
    may write and all may read. *)
Definition asOnDisk (D : onDisk) (files : artifacts) : Prop :=
  dom D = dom files
  /\ forall name payload, files !! name = Some payload -> exists info, D !! name = Some (info, payload) /\ st_Mode info = 420.

Section checking.
Context `{OS} (output : Z) (D : onDisk) (files : artifacts).
Hypothesis Hstill : still output D.

Lemma runs_known {A B} (c : fsCall A) a (k : A -> M (list fsEvent) B) (Q : B -> Prop) :
  (forall log, os_answer _ log c = a) -> runs (k a) (fun b _ => Q b) -> runs (call c ≫= k) (fun b _ => Q b).
Proof.
  intros Hc Hk log. destruct (Hk (log ++ [mkEvent A c a])) as (b & l & Hr & HQ). exists b, (mkEvent A c a :: l).
  split; [|exact HQ]. unfold mbind, M_bind, call. rewrite Hc, Hr. by rewrite <- app_assoc.
Qed.

Lemma asked_known {A B} (c : fsCall (result fsErr A)) a text (f : A -> F B) (Q : result fault B -> Prop) :
  (forall log, os_answer _ log c = Ok a) -> runs (f a) (fun b _ => Q b) -> runs (andThen (asked c text) f) (fun b _ => Q b).
Proof.
  intros Hc Hk log. destruct (Hk (log ++ [mkEvent _ c (Ok a)])) as (b & l & Hr & HQ). exists b, (mkEvent _ c (Ok a) :: l).
  split; [|exact HQ]. unfold andThen, asked, mbind, M_bind, call, succeed, mret, M_ret. rewrite Hc, Hr. by rewrite <- app_assoc.
Qed.

Lemma askedWrapping_known {A B} (c : fsCall (result fsErr A)) a text (f : A -> F B) (Q : result fault B -> Prop) :
  (forall log, os_answer _ log c = Ok a) -> runs (f a) (fun b _ => Q b) -> runs (andThen (askedWrapping c text) f) (fun b _ => Q b).
Proof.
  intros Hc Hk log. destruct (Hk (log ++ [mkEvent _ c (Ok a)])) as (b & l & Hr & HQ). exists b, (mkEvent _ c (Ok a) :: l).
  split; [|exact HQ]. unfold andThen, askedWrapping, mbind, M_bind, call, succeed, mret, M_ret. rewrite Hc, Hr. by rewrite <- app_assoc.
Qed.

Lemma same_snapshot info : sameVisualFileSnapshot info info = true.
Proof. unfold sameVisualFileSnapshot, sameFile. by rewrite !Z.eqb_refl. Qed.

(** Reading a file of the directory: what it holds, if it is a regular file that is not
    too long. *)
Lemma leaf_still name info content maxBytes : D !! name = Some (info, content) -> artifactName name = true -> 0 <= maxBytes ->
  runs (readBoundedVisualLeaf output name maxBytes) (fun r _ =>
    if realFile info && (Z.of_nat (length content) <=? maxBytes) then r = Ok (content, info) else exists e, r = Err e).
Proof.
  intros Hn Ha Hm. unfold readBoundedVisualLeaf, readBoundedVisualLeafWithHook. unfold artifactName in Ha. rewrite !andb_true_iff in Ha.
  destruct Ha as [[[Hc Hb] _] _]. destruct (canonicalVisualRelativePath name false); [|discriminate Hc]. rewrite Hb. cbn [negb].
  pose proof (sl_lstat _ _ Hstill) as Hl. apply (askedWrapping_known _ info); [intros log; exact (Hl log _ _ _ Hn)|].
  destruct (realFile info) eqn:Hreal; cbn [negb andb]; [|apply runs_ret; by eexists].
  unfold realFile in Hreal. apply andb_true_iff in Hreal as [Hsym Hreg].
  destruct (sl_file _ _ Hstill name info content Hn Hreg) as (Hsize & file & Hopen & Hstat & Hread & Hclose).
  rewrite Hsize. rewrite (proj2 (Z.ltb_ge (Z.of_nat (length content)) 0)) by lia. cbn [orb].
  destruct (maxBytes <? Z.of_nat (length content)) eqn:Hlong.
  { rewrite (proj2 (Z.leb_gt _ _)) by lia. apply runs_ret. by eexists. }
  rewrite (proj2 (Z.leb_le _ _)) by lia. rewrite bool_decide_eq_false_2 by done.
  apply (askedWrapping_known _ file); [exact Hopen|]. apply (runs_known _ (Ok info)); [exact Hstat|]. cbn [holds].
  rewrite Hreg, same_snapshot. cbn [negb andb]. apply (runs_known _ (content, false)); [exact Hread|].
  apply (runs_known _ (Ok info)); [exact Hstat|]. apply (runs_known _ None); [exact Hclose|]. cbv iota beta.
  rewrite take_ge by lia. rewrite Hlong. apply (runs_known _ (Ok info)); [intros log; exact (Hl log _ _ _ Hn)|].
  unfold realFile. rewrite Hsym, Hreg, same_snapshot. by apply runs_ret.
Qed.

(** The entries of the directory, and of each that it is one of the files. *)
Definition fits (name : gostring) : Prop :=
  is_Some (files !! name) /\ exists info content, D !! name = Some (info, content) /\ st_IsSymlink info = false /\ st_IsDir info = false /\ st_IsRegular info = true.

Lemma inspect_still entries : Forall (fun name => is_Some (D !! name)) entries -> forall stale present,
  runs (inspectEntries output files entries stale present) (fun r _ =>
    Forall fits entries /\ r = Ok (stale, list_to_set entries ∪ present)
    \/ ~ Forall fits entries /\ forall stale' present', r = Ok (stale', present') -> stale' <> []).
Proof.
  induction 1 as [|name entries [[info content] Hn] _ IH]; intros stale present; cbn [inspectEntries].
  { apply runs_ret. left. split; [constructor|]. cbn [list_to_set]. by rewrite union_empty_l_L. }
  apply (asked_known _ info); [intros log; exact (sl_lstat _ _ Hstill log _ _ _ Hn)|].
  assert (Hunfit : (~ fits name) -> ~ Forall fits (name :: entries)) by (intros Hno Hf; apply Forall_cons_1 in Hf as [Hf _]; by apply Hno).
  assert (Hfit : fits name -> is_Some (files !! name) /\ st_IsSymlink info = false /\ st_IsDir info = false /\ st_IsRegular info = true).
  { intros (Hs & info' & content' & Hn' & H1 & H2 & H3). rewrite Hn in Hn'. injection Hn' as <- <-. done. }
  assert (Hlist : forall stale', ~ fits name -> stale' <> [] -> runs (inspectEntries output files entries stale' present) (fun r _ =>
    Forall fits (name :: entries) /\ r = Ok (stale, list_to_set (name :: entries) ∪ present)
    \/ ~ Forall fits (name :: entries) /\ forall stale' present', r = Ok (stale', present') -> stale' <> [])).
  { intros stale' Hno Hne. eapply runs_mono; [apply IH|]. intros r l [[_ ->]|[_ Hr]]; right; (split; [by apply Hunfit|]); [|exact Hr].
    intros s p Hok. injection Hok as <- _. exact Hne. }
  destruct (st_IsSymlink info) eqn:Hsym; [apply runs_ret; right; split; [apply Hunfit; intros Hf%Hfit; destruct Hf as (_ & H1 & _); discriminate H1|done]|].
  destruct (st_IsDir info) eqn:Hdir.
  { assert (Hno : ~ fits name) by (intros Hf%Hfit; destruct Hf as (_ & _ & H1 & _); discriminate H1).
    case_bool_decide; [apply runs_ret; right; split; [by apply Hunfit|done]|]. apply Hlist; [exact Hno|by destruct stale]. }
  destruct (st_IsRegular info) eqn:Hreg; cbn [negb];
    [|apply runs_ret; right; split; [apply Hunfit; intros Hf%Hfit; destruct Hf as (_ & _ & _ & H1); discriminate H1|done]].
  case_bool_decide as Hman; cbn [negb]; [|apply Hlist; [intros Hf%Hfit; by destruct Hf|by destruct stale]].
  assert (Hf : fits name) by (split; [exact Hman|by exists info, content]).
  eapply runs_mono; [apply IH|]. intros r l [[Hall ->]|[Hno Hr]]; [left|right].
  - split; [by constructor|]. f_equal. f_equal. cbn [list_to_set]. by rewrite (assoc_L (∪)), (comm_L (∪) {[name]}).
  - split; [|exact Hr]. intros Hall. by apply Forall_cons_1 in Hall as [_ Hall].
Qed.

(** What is stale stays. *)
Lemma stale_stays present names : forall stale, stale <> [] ->
  runs (compareArtifacts output files present names stale) (fun r _ => forall stale', r = Ok stale' -> stale' <> []).
Proof.
  induction names as [|name names IH]; intros stale Hs; cbn [compareArtifacts]; [apply runs_ret; intros s Hok; by injection Hok as <-|].
  assert (Hs' : stale ++ [name] <> []) by by destruct stale. case_bool_decide; cbn [negb]; [|by apply IH].
  eapply runs_bind; [apply leaf_tidy|]. intros [[content info]|e] l _; [|by apply runs_ret].
  match goal with |- runs (if ?b then _ else _) _ => destruct b end; by apply IH.
Qed.

(** The files, and of each that it is in the directory as it should be. *)
Definition matches (present : gset gostring) (name : gostring) : Prop :=
  name ∈ present /\ exists info content, D !! name = Some (info, content) /\ st_Mode info = 420 /\ files !! name = Some content.

Hypothesis Hnames : forall name payload, files !! name = Some payload ->
  artifactName name = true /\ Z.of_nat (length payload) <= visualMaxArtifactBytes.

Lemma compare_still present : (forall name, name ∈ present -> is_Some (D !! name)) -> forall names, Forall (fun name => is_Some (files !! name)) names ->
  forall stale, runs (compareArtifacts output files present names stale) (fun r _ =>
    Forall (matches present) names /\ r = Ok stale \/ ~ Forall (matches present) names /\ forall stale', r = Ok stale' -> stale' <> []).
Proof.
  intros Hpresent. induction 1 as [|name names [payload Hp] _ IH]; intros stale; cbn [compareArtifacts]; [apply runs_ret; by left|].
  assert (Hlist : ~ matches present name -> runs (compareArtifacts output files present names (stale ++ [name])) (fun r _ =>
    Forall (matches present) (name :: names) /\ r = Ok stale
    \/ ~ Forall (matches present) (name :: names) /\ forall stale', r = Ok stale' -> stale' <> [])).
  { intros Hno. eapply runs_mono; [apply IH|]. intros r l Hr. right. split; [intros Hf; by apply Forall_cons_1 in Hf as [Hf _]|].
    destruct Hr as [[_ ->]|[_ Hr]]; [|exact Hr]. intros s Hok. injection Hok as <-. by destruct stale. }
  case_bool_decide as Hin; cbn [negb]; [|apply Hlist; by intros [Hin' _]].
  destruct (Hpresent name Hin) as [[info content] Hn]. destruct (Hnames name payload Hp) as [Hname Hsize].
  assert (Hone : matches present name -> st_Mode info = 420 /\ content = payload).
  { intros (_ & info' & content' & Hn' & Hm & Hc). rewrite Hn in Hn'. injection Hn' as <- <-. split; congruence. }
  eapply runs_bind; [exact (leaf_still name info content visualMaxArtifactBytes Hn Hname ltac:(done))|]. cbv beta. intros r l Hr.
  destruct (realFile info && (Z.of_nat (length content) <=? visualMaxArtifactBytes)) eqn:Hfine.
  - subst r. destruct (negb (st_Mode info =? 420) || negb (bool_decide (Some content = files !! name))) eqn:Hbad.
    + apply Hlist. intros Hm. pose proof (Hone Hm) as [H1 H2]. rewrite H1, H2, Hp, bool_decide_eq_true_2 in Hbad by done. discriminate Hbad.
    + apply orb_false_iff in Hbad as [Hmode%negb_false_iff%Z.eqb_eq Hcontent%negb_false_iff%bool_decide_eq_true].
      assert (Hm : matches present name) by (split; [exact Hin|exists info, content; split; [exact Hn|split; [exact Hmode|by symmetry]]]).
      eapply runs_mono; [apply IH|]. intros r l' [[Hall ->]|[Hno Hr]]; [left; by split; [constructor|]|right].
      split; [|exact Hr]. intros Hall. by apply Forall_cons_1 in Hall as [_ Hall].
  - destruct Hr as [e ->]. apply runs_ret. right. split; [|done]. intros Hall. apply Forall_cons_1 in Hall as [Hm _].
    pose proof (Hone Hm) as [Hmode Hcontent]. rewrite Hcontent, (proj2 (Z.leb_le _ _) Hsize), andb_true_r in Hfine.
    unfold realFile, st_IsSymlink, st_IsRegular in Hfine. rewrite Hmode in Hfine. by vm_compute in Hfine.
Qed.

Lemma entries_still limit : 0 <= limit ->
  runs (readBoundedVisualEntries output limit) (fun r _ =>
    if Z.of_nat (size D) <=? limit then exists names, r = Ok names /\ names ≡ₚ map fst (map_to_list D) else exists e, r = Err e).
Proof.
  intros Hlimit. destruct (sl_info _ _ Hstill) as (info & Hdir & Hinfo & self & names & Hself & Hstat & Hclose & Hnm & Hperm & Hentry).
  assert (Hsize : length names = size D) by (rewrite Hperm, length_map; apply length_map_to_list).
  unfold readBoundedVisualEntries. rewrite (proj2 (Z.ltb_ge _ _) Hlimit). apply (asked_known _ info); [exact Hinfo|]. rewrite Hdir.
  cbn [negb]. apply (askedWrapping_known _ self); [exact Hself|]. apply (runs_known _ (Ok info)); [exact Hstat|]. cbn [holds].
  rewrite Hdir, same_snapshot. cbn [andb negb]. eapply runs_known; [intros log; apply Hnm|].
  apply (runs_known _ None); [exact Hclose|]. cbv iota beta.
  assert (Herr : negb (bool_decide ((if decide (names = []) then Some fsEOF else None) = None))
      && negb (bool_decide ((if decide (names = []) then Some fsEOF else None) = Some fsEOF)) = false) by by destruct (decide (names = [])).
  rewrite Herr. cbn [bool_decide decide]. rewrite bool_decide_eq_true_2 by done. cbn [negb].
  destruct (Z.of_nat (size D) <=? limit) eqn:Hfits.
  - rewrite take_ge by lia. rewrite (proj2 (Z.ltb_ge _ _)) by lia. rewrite (proj2 (Z.eqb_neq _ (limit + 1))) by lia. cbn [orb andb].
    apply (runs_known _ (Ok info)); [exact Hinfo|]. cbn [holds]. rewrite Hdir, same_snapshot. cbn [andb negb].
    match goal with |- context [existsb ?f names] => replace (existsb f names) with false end.
    + apply runs_ret. eexists. split; [reflexivity|]. by rewrite sortStrings_perm.
    + symmetry. apply not_true_iff_false. intros (name & Hin & Hbad)%existsb_exists.
      pose proof (proj1 (Forall_forall _ _) Hentry name (proj2 (list_elem_of_In _ _) Hin)) as He. unfold entryName in He.
      apply negb_true_iff in He. congruence.
  - rewrite length_take. rewrite (proj2 (Z.ltb_lt limit _)) by lia. cbn [orb]. apply runs_ret. by eexists.
Qed.

Hypothesis Hcount : Z.of_nat (size files) <= visualMaxArtifactCount.

(** All entries are files that are wanted, and all files are there as they should be. *)
Lemma asOnDisk_iff names : names ≡ₚ map fst (map_to_list D) ->
  (Forall fits names /\ Forall (matches (list_to_set names ∪ ∅)) (sortedArtifactNames files)) <-> asOnDisk D files.
Proof.
  intros Hperm. assert (Hin : forall name, name ∈ names <-> is_Some (D !! name)) by (intros name; rewrite Hperm; apply names_of).
  assert (Hfiles : forall name, name ∈ sortedArtifactNames files <-> is_Some (files !! name))
    by (intros name; unfold sortedArtifactNames; rewrite sortStrings_perm; apply names_of).
  rewrite !Forall_forall. split.
  - intros [Hfit Hmatch]. split.
    + apply set_eq. intros name. rewrite !elem_of_dom. split.
      * intros Hn%Hin%Hfit. exact (proj1 Hn).
      * intros Hn%Hfiles%Hmatch. destruct Hn as (_ & info & content & Hn & _). by eexists.
    + intros name payload Hp. destruct (Hmatch name) as (_ & info & content & Hn & Hm & Hc); [by apply Hfiles; eexists|].
      exists info. rewrite Hp in Hc. injection Hc as <-. by split.
  - intros [Hdom Hall]. assert (Hboth : forall name, is_Some (D !! name) <-> is_Some (files !! name)) by (intros name; by rewrite <- !elem_of_dom, Hdom).
    split; intros name Hn.
    + apply Hin, Hboth in Hn as Hf. split; [exact Hf|]. destruct Hf as [payload Hp]. destruct (Hall name payload Hp) as (info & HD & Hm).
      exists info, payload. split; [exact HD|]. unfold st_IsSymlink, st_IsDir, st_IsRegular. rewrite Hm. by vm_compute.
    + apply Hfiles in Hn as [payload Hp]. destruct (Hall name payload Hp) as (info & HD & Hm). split.
      * rewrite union_empty_r_L. apply elem_of_list_to_set, Hin. by eexists.
      * by exists info, payload.
Qed.

(** The check of a directory that stands still finds nothing exactly when the directory
    is as it should be. *)
Lemma check_still : runs (checkVisualArtifactsInRoot output files) (fun r _ => r = Ok [] <-> asOnDisk D files).
Proof.
  unfold checkVisualArtifactsInRoot.
  assert (Hfew : asOnDisk D files -> Z.of_nat (size D) <= visualMaxOutputEntries).
  { intros [Hdom _]. rewrite <- size_dom, Hdom, size_dom. unfold visualMaxOutputEntries, visualMaxArtifactCount in *. lia. }
  eapply runs_andThen; [by apply (entries_still visualMaxOutputEntries)| |].
  2: { cbv beta. intros e l Hr. split; [done|]. intros Hd%Hfew. rewrite (proj2 (Z.leb_le _ _) Hd) in Hr. by destruct Hr as (? & ? & _). }
  cbv beta. intros names l Hr. destruct (Z.of_nat (size D) <=? visualMaxOutputEntries); [|by destruct Hr].
  destruct Hr as (names' & [= <-] & Hperm). pose proof (asOnDisk_iff names Hperm) as Hiff.
  assert (HinD : Forall (fun name => is_Some (D !! name)) names) by (apply Forall_forall; intros name; rewrite Hperm; apply names_of).
  eapply runs_andThen; [exact (inspect_still names HinD [] ∅)| |].
  2: { cbv beta. intros e l' [[_ Hr]|[Hno _]]; [discriminate Hr|]. split; [done|]. intros Hd%Hiff. by destruct Hd. }
  cbv beta. intros [stale present] l' [[Hfit [= -> ->]]|[Hno Hne]].
  - eapply runs_andThen; [apply compare_still| |].
    + intros name. rewrite union_empty_r_L, elem_of_list_to_set, Hperm. apply names_of.
    + apply Forall_forall. intros name. unfold sortedArtifactNames. rewrite sortStrings_perm. apply names_of.
    + cbv beta. intros stale l2 Hr. apply runs_ret. split.
      * intros Hok. injection Hok as Hok. apply (proj1 (sortStrings_nil _)) in Hok. subst stale. apply Hiff. split; [exact Hfit|]. destruct Hr as [[Hm _]|[_ Hr]]; [exact Hm|by destruct (Hr [])].
      * intros Hd%Hiff. destruct Hr as [[_ [= ->]]|[Hno _]]; [reflexivity|]. by destruct Hd.
    + cbv beta. intros e l2 [[_ Hr]|[Hno _]]; [discriminate Hr|]. split; [done|]. intros Hd%Hiff. by destruct Hd.
  - assert (Hs : stale <> []) by (by eapply Hne).
    eapply runs_andThen; [exact (stale_stays present (sortedArtifactNames files) stale Hs)| |].
    + cbv beta. intros stale' l2 Hr. apply runs_ret. split; [|intros Hd%Hiff; by destruct Hd].
      intros Hok. injection Hok as Hok. apply (proj1 (sortStrings_nil _)) in Hok. by destruct (Hr stale' eq_refl).
    + cbv beta. intros e l2 _. split; [done|]. intros Hd%Hiff. by destruct Hd.
Qed.
End checking.
