(* ===== verification/VisMain.v ===== *)
(** * README visuals: the command

    Models [tools/render_readme_visuals/main.go] and [buildVisualArtifacts] of
    [render.go]: from the evidence of the two runs to the set of artifacts with its
    manifest, and the command that checks the artifacts on disk against them or writes
    them. What the command asks of the system, what the run of the harness does on the machine
    and that the demonstration runs are in one log, in order. The loopback demonstration
    itself ([demo.go], with the directory it makes outside the repository) is what a
    parameter says it came to. *)

From S2P Require Import Prelude GoJson JsonGrammar GoSha256 GoMarshal GoText AppPolicyFile SatReport VisEvidence VisRender VisFs.

Definition visualOutputDirectory : gostring := bs "docs/visuals/generated".

(** Where the command writes, and what. *)
Inductive visualStream := visualStdout | visualStderr.
Abbreviation visualWrites := (list (visualStream * gostring)) (only parsing).

Definition parseVisualArgs (args : list gostring) : bool * bool :=
  match args with
  | [] => (false, true)
  | [arg] => if bool_decide (arg = bs "--check") then (true, true) else (false, false)
  | _ => (false, false)
  end.

Definition visualStaleSummary (stale : list gostring) : gostring :=
  let isUnexpected name := HasPrefix name (bs "unexpected:") in
  let safe := filter (fun name => isUnexpected name = false) stale in
  Join (if existsb isUnexpected stale then safe ++ [bs "unexpected entry"] else safe) (bs ", ").

(** ** The manifest *)

#[local] Open Scope string_scope.

Definition sourceDigest_json (d : visualSourceDigest) : jtree := jobject [
  ("files", JArr (map jstring (sd_Files d))); ("sha256", jstring (sd_SHA256 d))].

Definition artifactMetadata_json (payload : gostring) : jtree := jobject [
  ("bytes", jint (Z.of_nat (length payload))); ("sha256", jstring (visualSHA256 payload))].

(** A map is written with its keys in order. *)
Definition manifest_json (evidence : demoEvidence) (saturation : saturationVisualEvidence)
    (engine generator saturationHarness : visualSourceDigest) (policyPath policy : gostring) (files : artifacts) : jtree :=
  jobject [
    ("schema", jstring (bs "ssemaphore.readme-visuals.v2"));
    ("runs", jobject [
      ("loopback", jobject [
        ("command", jstring (bs "GOTOOLCHAIN=go1.26.5 go run ./tools/render_readme_visuals"));
        ("scope", jstring documentScope); ("toolchain", jstring (de_GoVersion evidence));
        ("platform", jstring (de_OperatingSystem evidence))]);
      ("saturation", jobject [
        ("command", jstring (bs "GOTOOLCHAIN=go1.26.5 go run ./tools/render_readme_visuals"));
        ("reproduce_command", jstring (bs "GOTOOLCHAIN=go1.26.5 go run ./tools/run_saturation --profile=ci --seed=20260725"));
        ("scope", jstring (ve_Scope saturation)); ("toolchain", jstring (ve_Toolchain saturation));
        ("platform", jstring (ve_Platform saturation)); ("architecture", jstring (ve_Architecture saturation));
        ("seed", junsigned (pj_Seed (ve_Projection saturation)));
        ("diagnostic_timings_included", jbool (ve_DiagnosticTimingsIncluded saturation));
        ("performance_claim", jbool (ve_PerformanceClaim saturation))])]);
    ("provenance", jobject [
      ("engine", sourceDigest_json engine); ("generator", sourceDigest_json generator);
      ("saturation_harness", sourceDigest_json saturationHarness);
      ("policy_example", jobject [("path", jstring policyPath); ("sha256", jstring (visualSHA256 policy))]);
      ("scope", jstring (bs "source and artifact digests support deterministic review; they are not signatures or attestations"))]);
    ("artifacts", JObj (map (fun name => (name, artifactMetadata_json (default [] (files !! name)))) (sortedArtifactNames files)))].

#[local] Close Scope string_scope.

(** ** The artifacts *)

(** The six artifacts of the loopback evidence. *)
Definition loopbackArtifacts (evidence : demoEvidence) : artifacts :=
  let summary := renderEvidenceSummary evidence in
  list_to_map [
    (visualEvidenceJSONName, marshalIndent 0 (evidenceDocument evidence) ++ [c_lf]); (visualSummaryName, summary);
    (visualTerminalName, renderTerminalSVG summary); (visualSequenceName, renderSequenceSVG evidence);
    (visualArchitectureName, renderArchitectureSVG); (visualSetupName, renderSetupWorkflowSVG)].

(** What is rendered of both kinds of evidence: all of it publishable, no name twice. *)
Definition renderedArtifacts (evidence : demoEvidence) (saturation : saturationVisualEvidence) : comp (result fault artifacts) :=
  match buildSaturationVisualArtifacts saturation with
  | Panicked msg => Panicked msg
  | OutOfFuel => OutOfFuel
  | Done (Err text) => Done (Err (mkFault text None))
  | Done (Ok saturationArtifacts) =>
      let files := loopbackArtifacts evidence in
      if existsb (fun name => bool_decide (is_Some (files !! name))) (map fst (map_to_list saturationArtifacts))
      then Done (Err (mkFault "duplicate visual artifact name" None))
      else
        let files := saturationArtifacts ∪ files in
        match firstUnpublishable (map_to_list files) with
        | Some text => Done (Err (mkFault text None))
        | None => Done (Ok files)
        end
  end.

Section command.
Context `{OS}.

(** A step that does not touch the system. *)
Definition computed {A} (c : comp A) : M (list fsEvent) A := fun log =>
  match c with Done a => Done (a, log) | Panicked msg => Panicked msg | OutOfFuel => OutOfFuel end.

Definition policyPath : gostring := bs "configs/policy.example.json".

(** A file of the repository, which is opened and closed for it; [opening] and [reading]
    are the errors of the two. *)
Definition readRepositoryFile (root name : gostring) (opening reading : string) : F gostring :=
  openPinnedVisualDirectory root false ≫= fun repository =>
  match repository with
  | Err _ => fail opening
  | Ok repository =>
      readBoundedVisualFile repository name visualMaxSourceFileBytes ≫= fun read =>
      call (fsClose repository) ≫= fun closeErr =>
      match read, closeErr with
      | Ok (payload, _), None => succeed payload
      | _, _ => fail reading
      end
  end.

Definition buildVisualArtifacts (root : gostring) (evidence : demoEvidence) (saturation : saturationVisualEvidence) : F artifacts :=
  andThen (computed (renderedArtifacts evidence saturation)) (fun files =>
  andThen (digestVisualSources root [bs ".go-version"; bs "go.mod"; policyPath; bs "docs/running.md"] [bs "cmd"; bs "internal"] false)
    (fun engine =>
  andThen (digestVisualSources root [] [bs "tools/run_saturation"] false) (fun saturationHarness =>
  andThen (digestVisualSources root [] [bs "tools/render_readme_visuals"] false) (fun generator =>
  andThen (readRepositoryFile root policyPath "open repository for policy digest" "read policy example") (fun policy =>
  let manifest :=
    marshalIndent 0 (manifest_json evidence saturation engine generator saturationHarness policyPath policy files) ++ [c_lf] in
  match ensureVisualPublishable manifest with
  | Some text => fail text
  | None => succeed (<[visualManifestName := manifest]> files)
  end))))).

(** ** The repository and its artifacts *)

Definition modulePrefix : gostring := bs "module github.com/omar07ibrahim/ssemaphore" ++ [c_lf].

(** [callerFile] is the file that [runtime.Caller] names. *)
Definition visualRepositoryRoot (callerFile : option gostring) : F gostring :=
  match callerFile with
  | None => fail "caller unavailable"
  | Some callerFile =>
      andThen (asked (fsAbs (pathJoin (pathJoin (Dir callerFile) (bs "..")) (bs ".."))) "resolve repository root") (fun root =>
      andThen (readRepositoryFile root (bs "go.mod") "open repository root" "unexpected repository root") (fun module =>
      if HasPrefix module modulePrefix then succeed root else fail "unexpected repository root"))
  end.

Definition checkVisualArtifacts (output : gostring) (files : artifacts) : F (list gostring) :=
  match validateVisualArtifactSet files with
  | Some e => mret (Err e)
  | None =>
      openPinnedVisualDirectory output false ≫= fun directory =>
      match directory with
      | Err e => if faultIs e fsNotExist then succeed (sortedArtifactNames files) else fail "open artifact directory"
      | Ok directory =>
          checkVisualArtifactsInRoot directory files ≫= fun stale =>
          call (fsClose directory) ≫= fun closeErr =>
          match stale with
          | Err e => mret (Err e)
          | Ok stale => match closeErr with Some _ => fail "close artifact directory" | None => succeed stale end
          end
      end
  end.

Definition writeVisualArtifacts (output : gostring) (files : artifacts) : F unit :=
  match validateVisualArtifactSet files with
  | Some e => mret (Err e)
  | None =>
      openPinnedVisualDirectory output true ≫= fun directory =>
      match directory with
      | Err _ => fail "create artifact directory"
      | Ok directory =>
          validateVisualOutputInventory directory files ≫= fun listed =>
          match listed with
          | Err e => closeAnd directory (mret (Err e))
          | Ok _ =>
              writeVisualArtifactBundle directory files (Some atomicWriteVisual) ≫= fun wrote =>
              call (fsClose directory) ≫= fun closeErr =>
              match wrote with
              | Err e => mret (Err e)
              | Ok _ => match closeErr with Some _ => fail "close artifact directory" | None => succeed tt end
              end
          end
      end
  end.

(** ** The command *)

(** The end of a run: the code, and the one line that is written. *)
Definition ends {E} (code : Z) (stream : visualStream) (line : gostring) : M (list E) (Z * visualWrites) :=
  mret (code, [(stream, line ++ [c_lf])]).

(** Once the artifacts are built. *)
Definition checkOrWrite (check : bool) (root : gostring) (files : artifacts) : M (list fsEvent) (Z * visualWrites) :=
  let output := pathJoin root visualOutputDirectory in
  checkVisualArtifacts output files ≫= fun current =>
  if check then
    match current with
    | Err _ => ends 1 visualStderr (bs "render_readme_visuals: artifact check failed")
    | Ok [] => ends 0 visualStdout (bs "README visuals are current: " ++ visualOutputDirectory)
    | Ok stale => ends 1 visualStderr (bs "stale README visuals: " ++ visualStaleSummary stale)
    end
  else
    match current with
    | Err _ => ends 1 visualStderr (bs "render_readme_visuals: artifact preflight failed")
    | Ok current =>
        if existsb (fun name => HasPrefix name (bs "unexpected:")) current
        then ends 1 visualStderr (bs "unexpected README visual entry detected")
        else
          writeVisualArtifacts output files ≫= fun wrote =>
          match wrote with
          | Err _ => ends 1 visualStderr (bs "render_readme_visuals: artifact write failed")
          | Ok _ =>
              checkVisualArtifacts output files ≫= fun stale =>
              match stale with
              | Ok [] =>
                  ends 0 visualStdout (Sprintf (bs "wrote %d README artifacts to %s")
                    [fmtInt (Z.of_nat (size files)); fmtString visualOutputDirectory])
              | _ => ends 1 visualStderr (bs "render_readme_visuals: written artifact check failed")
              end
          end
    end.

(** What the command does, in one log: it asks the system for files and directories, it has
    the machine do what a run of the saturation harness takes, which makes a directory in
    the repository and removes it, and it runs the loopback demonstration in the
    repository, which has files, processes and connections of its own. *)
Inductive cliEvent :=
| calledSystem (ev : fsEvent)
| actedOnMachine (act : visualAct)
| demonstrated (root : gostring).

Definition systemCalls (log : list cliEvent) : list fsEvent :=
  omap (fun ev => match ev with calledSystem ev => Some ev | _ => None end) log.
Definition machineActs (log : list cliEvent) : list visualAct :=
  omap (fun ev => match ev with actedOnMachine act => Some act | _ => None end) log.

(** A part of the command that keeps a log of one kind. The answers of the system are any
    function of the calls before, and the acts of the harness and the demonstration come
    at fixed places among these, so the answers may well be changed by them. *)
Definition logging {E A} (project : list cliEvent -> list E) (inject : E -> cliEvent) (m : M (list E) A)
    : M (list cliEvent) A := fun log =>
  match m (project log) with
  | Done (a, l) => Done (a, log ++ map inject (drop (length (project log)) l))
  | Panicked msg => Panicked msg
  | OutOfFuel => OutOfFuel
  end.
Definition onSystem {A} : M (list fsEvent) A -> M (list cliEvent) A := logging systemCalls calledSystem.
Definition onMachine {A} : M (list visualAct) A -> M (list cliEvent) A := logging machineActs actedOnMachine.

(** [loopback] is what the demonstration comes to in a repository. *)
Definition runDemonstration (loopback : gostring -> option demoEvidence) (root : gostring) : M (list cliEvent) (option demoEvidence) :=
  fun log => Done (loopback root, log ++ [demonstrated root]).

(** [V] is the machine that the saturation harness runs on. *)
Definition runVisualCLI (callerFile : option gostring) (loopback : gostring -> option demoEvidence) (V : visualMachine)
    (args : list gostring) : M (list cliEvent) (Z * visualWrites) :=
  let '(check, ok) := parseVisualArgs args in
  if negb ok then ends 2 visualStderr (bs "usage: go run ./tools/render_readme_visuals [--check]")
  else
    onSystem (visualRepositoryRoot callerFile) ≫= fun root =>
    match root with
    | Err _ => ends 1 visualStderr (bs "render_readme_visuals: repository check failed")
    | Ok root =>
        runDemonstration loopback root ≫= fun evidence =>
        match evidence with
        | None => ends 1 visualStderr (bs "render_readme_visuals: loopback verification failed")
        | Some evidence =>
            if negb (bool_decide (validateDemoEvidence evidence = None))
            then ends 1 visualStderr (bs "render_readme_visuals: evidence contract failed")
            else
              onMachine (runSaturationVisual V true root) ≫= fun saturation =>
              match saturation with
              | Err _ => ends 1 visualStderr (bs "render_readme_visuals: saturation verification failed")
              | Ok saturation =>
                  match validateSaturationVisualEvidence saturation with
                  | Err _ => ends 1 visualStderr (bs "render_readme_visuals: saturation contract failed")
                  | Ok _ =>
                      onSystem (buildVisualArtifacts root evidence saturation) ≫= fun files =>
                      match files with
                      | Err _ => ends 1 visualStderr (bs "render_readme_visuals: artifact build failed")
                      | Ok files => onSystem (checkOrWrite check root files)
                      end
                  end
              end
        end
    end.
End command.

(** ** Correctness of the command *)

Lemma dispatchBars_total expected dispatches : forall index, (index + length dispatches <= length expected)%nat ->
  exists bars, dispatchBars expected index dispatches = Done bars.
Proof.
  induction dispatches as [|dispatch dispatches IH]; intros index Hl; cbn [dispatchBars]; [by eexists|]. cbn [length] in Hl.
  destruct (lookup_lt_is_Some_2 expected index ltac:(lia)) as [wanted ->]. destruct (IH (S index) ltac:(lia)) as [bars ->]. by eexists.
Qed.

(** Evidence that can be drawn is drawn: the indexes of the two charts are in range. *)
Lemma rendered_total evidence saturation : drawable saturation -> exists r, renderedArtifacts evidence saturation = Done r.
Proof.
  intros [Ht Hs]. unfold renderedArtifacts, buildSaturationVisualArtifacts.
  destruct (validateSaturationVisualEvidence saturation); [|by eexists].
  assert (Ho : exists o, renderSaturationOutcomesSVG saturation = Done o).
  { unfold renderSaturationOutcomesSVG. destruct (pj_Tenants (ve_Projection saturation)) as [|tenantA [|tenantB rest]] eqn:Hten; try discriminate Ht. cbn [lookup list_lookup]. by eexists. }
  assert (Hd : exists d, renderSaturationDispatchSVG saturation = Done d).
  { unfold renderSaturationDispatchSVG. rewrite Hs.
    destruct (dispatchBars_total (sv_Observed (pj_Service (ve_Projection saturation))) (sv_Observed (pj_Service (ve_Projection saturation))) 0 ltac:(lia)) as [bars ->].
    by eexists. }
  destruct Ho as [o ->], Hd as [d ->]. cbv zeta.
  match goal with |- context [firstUnpublishable ?l] => destruct (firstUnpublishable l) end; [by eexists|].
  match goal with |- context [if ?b then _ else _] => destruct b end; [by eexists|].
  match goal with |- context [firstUnpublishable ?l] => destruct (firstUnpublishable l) end; by eexists.
Qed.

(** A log of one kind within the log of the command. *)
Lemma runs_logging {E A} (project : list cliEvent -> list E) (inject : E -> cliEvent) (m : M (list E) A) (Q : A -> list E -> Prop) :
  runs m Q -> runs (logging project inject m) (fun a l => exists l', l = map inject l' /\ Q a l').
Proof.
  intros Hm log. destruct (Hm (project log)) as (a & l & Hr & HQ). exists a, (map inject l). split; [|by exists l].
  unfold logging. by rewrite Hr, drop_app_length.
Qed.

Lemma runs_onMachine {A} (m : M (list visualAct) A) (Q : A -> list visualAct -> Prop) :
  runs m Q -> runs (onMachine m) (fun a l => exists acts, l = map actedOnMachine acts /\ Q a acts).
Proof. apply runs_logging. Qed.

Lemma runs_onSystem {A} (m : M (list fsEvent) A) (Q : A -> list fsEvent -> Prop) :
  runs m Q -> runs (onSystem m) (fun a l => exists calls, l = map calledSystem calls /\ Q a calls).
Proof. apply runs_logging. Qed.

Lemma runs_demonstration loopback root : runs (runDemonstration loopback root) (fun _ l => l = [demonstrated root]).
Proof. intros log. eexists _, _. split; [reflexivity|done]. Qed.

(** The run of the harness, whatever was done before it. *)
Lemma saturation_runs V root : runs (runSaturationVisual V true root) (fun r acts => contained V acts /\
  match r with
  | Ok e => drawable e /\ exists root' private, vm_Abs V root = Some root' /\ vm_MkdirTemp V root' = Some private
      /\ acts = [madeDirectory private; madePrivate private; ranCommand (buildCommand (vm_goroot V) root' private);
                 ranCommand (harnessCommand root' private); removedDirectory private]
  | Err _ => True
  end).
Proof.
  intros acts. destruct (visual_run V true root acts) as (r & l & Hrun & Hc & Hr). exists r, l. split; [exact Hrun|]. split; [exact Hc|].
  destruct r as [e|e]; [|done]. destruct Hr as (Hd & _ & root' & private & Ha & Hm & Hl & _). split; [exact Hd|]. by exists root', private.
Qed.

Section command_tidy.
Context `{OS}.

Lemma runs_computed {A} (c : comp A) (a : A) (Q : A -> list fsEvent -> Prop) : c = Done a -> Q a [] -> runs (computed c) Q.
Proof. intros Hc HQ log. exists a, []. unfold computed. by rewrite Hc, app_nil_r. Qed.

Lemma readRepository_tidy root name opening reading : runs (readRepositoryFile root name opening reading) (fun _ l => tidy true nothing l).
Proof.
  unfold readRepositoryFile. eapply runs_bind; [apply pinned_tidy|]. intros [repository|e] l Hl; [|fs_steps; tidied].
  eapply runs_bind; [apply file_tidy|]. intros read l' Hl'. apply runs_call. intros closeErr.
  destruct read as [[payload info]|e]; [destruct closeErr|]; fs_steps; tidied.
Qed.

Lemma build_tidy root evidence saturation : drawable saturation ->
  runs (buildVisualArtifacts root evidence saturation) (fun _ l => tidy true nothing l).
Proof.
  intros Hd. unfold buildVisualArtifacts. destruct (rendered_total evidence saturation Hd) as [r Hr].
  eapply runs_andThen; [by apply (runs_computed _ r (fun _ l => l = []))| |intros e l ->; tidied]. intros files l ->. cbn [app].
  eapply runs_andThen; [apply digest_tidy| |intros e l Hl; tidied]. intros engine l Hl.
  eapply runs_andThen; [apply digest_tidy| |intros e l2 Hl2; tidied]. intros harness l2 Hl2.
  eapply runs_andThen; [apply digest_tidy| |intros e l3 Hl3; tidied]. intros generator l3 Hl3.
  eapply runs_andThen; [apply readRepository_tidy| |intros e l4 Hl4; tidied]. intros policy l4 Hl4. cbv zeta.
  match goal with |- context [ensureVisualPublishable ?m] => destruct (ensureVisualPublishable m) end; apply runs_ret; tidied.
Qed.

Lemma repositoryRoot_tidy callerFile : runs (visualRepositoryRoot callerFile) (fun _ l => tidy true nothing l).
Proof.
  unfold visualRepositoryRoot. destruct callerFile as [callerFile|]; [|fs_steps; tidied].
  apply asked_call; [intros root|intros e; tidied]. eapply runs_andThen; [apply readRepository_tidy| |intros e l Hl; tidied].
  intros module l Hl. fs_steps; tidied.
Qed.

Lemma checkArtifacts_tidy output files : runs (checkVisualArtifacts output files) (fun _ l => tidy true nothing l).
Proof.
  unfold checkVisualArtifacts. destruct (validateVisualArtifactSet files); [fs_steps; tidied|].
  eapply runs_bind; [apply pinned_tidy|]. intros [directory|e] l Hl; [|fs_steps; tidied].
  eapply runs_bind; [apply checkInRoot_tidy|]. intros stale l' Hl'. apply runs_call. intros closeErr.
  destruct stale as [stale|e]; [destruct closeErr|]; fs_steps; tidied.
Qed.

Lemma writeArtifacts_tidy output files : runs (writeVisualArtifacts output files) (fun _ l => tidy false nothing l).
Proof.
  unfold writeVisualArtifacts. destruct (validateVisualArtifactSet files); [fs_steps; tidied|].
  eapply runs_bind; [apply pinned_tidy|]. intros [directory|e] l Hl; [|fs_steps; tidied].
  eapply runs_bind; [apply outputInventory_tidy|]. intros [listed|e] l' Hl'; [|fs_steps; tidied].
  eapply runs_bind; [apply bundle_tidy|]. intros wrote l2 Hl2. apply runs_call. intros closeErr.
  destruct wrote as [wrote|e]; [destruct closeErr|]; fs_steps; tidied.
Qed.

(** The end of a run: a code and one line; every handle that was opened is closed, and where
    no call is to change anything none does. *)
Definition finished (quiet : bool) (r : Z * visualWrites) (l : list fsEvent) : Prop :=
  tidy quiet nothing l /\ exists stream line, snd r = [(stream, line ++ [c_lf])]
    /\ (fst r = 0 /\ stream = visualStdout \/ fst r = 1 /\ stream = visualStderr).

Lemma ends_finished quiet code stream line : code = 0 /\ stream = visualStdout \/ code = 1 /\ stream = visualStderr ->
  runs (ends code stream line) (finished quiet).
Proof.
  intros Hc. apply runs_ret. split; [apply tidy_nil; reflexivity|]. exists stream, line. split; [reflexivity|exact Hc].
Qed.

(** What is done before is added. *)
Lemma finished_after {A} quiet quiet' (m : M (list fsEvent) A) (k : A -> M (list fsEvent) (Z * visualWrites)) :
  runs m (fun _ l => tidy quiet' nothing l) -> (quiet = true -> quiet' = true) ->
  (forall a, runs (k a) (finished quiet)) -> runs (m ≫= k) (finished quiet).
Proof.
  intros Hm Hq Hk. eapply runs_bind; [exact Hm|]. intros a l Hl. cbv beta in Hl. eapply runs_mono; [apply Hk|].
  intros r l' [Ht Hr]. split; [|exact Hr]. eapply tidy_app; [exact Hl|exact Hq|].
  eapply tidy_last; [exact Ht|exact id|]. reflexivity.
Qed.

(** The end of a run. *)
Ltac ended := apply ends_finished; first [left; split; reflexivity|right; split; reflexivity].

Lemma checkOrWrite_finished check root files : runs (checkOrWrite check root files) (finished check).
Proof.
  unfold checkOrWrite. eapply finished_after; [apply checkArtifacts_tidy|reflexivity|]. intros current.
  destruct check; [destruct current as [[|name stale]|e]; ended|].
  destruct current as [current|e]; [|ended]. match goal with |- runs (if ?b then _ else _) _ => destruct b end; [ended|].
  eapply finished_after; [apply writeArtifacts_tidy|discriminate|]. intros [wrote|e]; [|ended].
  eapply finished_after; [apply checkArtifacts_tidy|reflexivity|]. intros [[|name stale]|e]; ended.
Qed.

(** After the harness: the artifacts are built, and checked or written. *)
Lemma buildThen_finished root evidence saturation check : drawable saturation ->
  runs (onSystem (buildVisualArtifacts root evidence saturation) ≫= fun files =>
        match files with
        | Err _ => ends 1 visualStderr (bs "render_readme_visuals: artifact build failed")
        | Ok files => onSystem (checkOrWrite check root files)
        end)
    (fun r l => exists calls, l = map calledSystem calls /\ finished check r calls).
Proof.
  intros Hd. eapply runs_bind; [exact (runs_onSystem _ _ (build_tidy root evidence saturation Hd))|].
  intros files l (built & -> & Hb).
  assert (Hafter : forall (r : Z * visualWrites) calls, finished check r calls -> finished check r (built ++ calls)).
  { intros r calls [Ht Hr]. split; [|exact Hr]. eapply tidy_app; [exact Hb|reflexivity|].
    eapply tidy_last; [exact Ht|exact id|reflexivity]. }
  destruct files as [files|e].
  - eapply runs_mono; [exact (runs_onSystem _ _ (checkOrWrite_finished check root files))|].
    intros r l (calls & -> & Hf). exists (built ++ calls). split; [symmetry; apply map_app|by apply Hafter].
  - apply runs_ret. exists (built ++ []). rewrite !app_nil_r. split; [reflexivity|].
    split; [eapply tidy_last; [exact Hb|reflexivity|reflexivity]|]. eexists _, _. split; [reflexivity|]. right. by split.
Qed.

(** A run of the command, in order: the repository is found, the demonstration runs, the
    harness runs on the machine, and the artifacts are built, and checked or written. *)
Definition performed (V : visualMachine) (quiet : bool) (r : Z * visualWrites) (l : list cliEvent) : Prop :=
  exists found shown acts rest,
    l = map calledSystem found ++ map demonstrated shown ++ map actedOnMachine acts ++ map calledSystem rest
    /\ tidy true nothing found /\ (length shown <= 1)%nat /\ contained V acts /\ finished quiet r rest
    /\ (fst r = 0 -> exists root root' private, shown = [root] /\ vm_Abs V root = Some root' /\ vm_MkdirTemp V root' = Some private
          /\ acts = [madeDirectory private; madePrivate private; ranCommand (buildCommand (vm_goroot V) root' private);
                     ranCommand (harnessCommand root' private); removedDirectory private]).

(** A run that stops early. *)
Lemma stopped V quiet found shown acts line l :
  tidy true nothing found -> (length shown <= 1)%nat -> contained V acts ->
  l = map calledSystem found ++ map demonstrated shown ++ map actedOnMachine acts ->
  runs (ends 1 visualStderr line) (fun r l' => performed V quiet r (l ++ l')).
Proof.
  intros Hf Hs Ha ->. apply runs_ret. rewrite app_nil_r. exists found, shown, acts, []. cbn [map]. rewrite app_nil_r. split_and!; try done.
  split; [apply tidy_nil; reflexivity|]. eexists _, _. split; [reflexivity|]. right. by split.
Qed.

Lemma runVisual_performed callerFile loopback V args check : parseVisualArgs args = (check, true) ->
  runs (runVisualCLI callerFile loopback V args) (performed V check).
Proof.
  intros Ha. unfold runVisualCLI. rewrite Ha. cbn [negb].
  assert (Hnone : contained V []) by (intros private Hp; by apply elem_of_nil in Hp).
  eapply runs_bind; [exact (runs_onSystem _ _ (repositoryRoot_tidy callerFile))|]. intros root l (found & -> & Hf).
  destruct root as [root|e]; [|apply (stopped V check found [] []); [exact Hf|cbn; lia|exact Hnone|cbn [map]; by rewrite !app_nil_r]].
  eapply runs_bind; [apply runs_demonstration|]. intros evidence l ->.
  assert (Hstop : forall line acts, contained V acts ->
    runs (ends 1 visualStderr line) (fun r l' => performed V check r (map calledSystem found ++ [demonstrated root] ++ map actedOnMachine acts ++ l'))).
  { intros line acts Hc. eapply runs_mono; [exact (stopped V check found [root] acts line _ Hf (le_n 1) Hc eq_refl)|].
    intros r l Hp. cbv beta in Hp. by rewrite <- !app_assoc in Hp. }
  destruct evidence as [evidence|]; [|exact (Hstop _ [] Hnone)].
  match goal with |- runs (if ?b then _ else _) _ => destruct b end; [exact (Hstop _ [] Hnone)|].
  eapply runs_bind; [exact (runs_onMachine _ _ (saturation_runs V root))|]. intros saturation l (acts & -> & Hc & Hr).
  destruct saturation as [saturation|e]; [|exact (Hstop _ acts Hc)].
  destruct (validateSaturationVisualEvidence saturation); [|exact (Hstop _ acts Hc)]. destruct Hr as (Hd & root' & private & Hr).
  eapply runs_mono; [exact (buildThen_finished root evidence saturation check Hd)|]. intros r l (rest & -> & Hfin).
  exists found, [root], acts, rest. split_and!; [reflexivity|exact Hf|exact (le_n 1)|exact Hc|exact Hfin|].
  intros _. by exists root, root', private.
Qed.
End command_tidy.
