(* ===== verification/VisPublished.v ===== *)
(** * README visuals: the published files

    The eleven artifacts of [docs/visuals/generated] (all but their manifest), as they are in
    the repository (with grave accents for quotation marks): what the renderers are
    compared with. *)

From S2P Require Import Prelude GoText.

(** [docs/visuals/generated/saturation-evidence.json] *)
Definition publishedSaturationEvidence : list Z := raw "{
  `schema`: `ssemaphore.saturation-evidence.v1`,
  `scope`: `one bounded synthetic numeric-loopback request-count saturation run`,
  `toolchain`: `go1.26.5`,
  `platform`: `linux`,
  `architecture`: `amd64`,
  `performance_claim`: false,
  `diagnostic_timings_included`: false,
  `categorical_projection`: {
    `schema_version`: 3,
    `profile`: `ci`,
    `seed`: 20260725,
    `topology`: {
      `gateway`: `production parser, scheduler, HTTP relay, and server`,
      `transport`: `HTTP/1 over numeric loopback`,
      `controlled_upstream`: true,
      `seeded_arrival_order`: true,
      `scheduler_snapshot_barriers`: true,
      `global_inflight_requests`: 1,
      `global_queued_requests`: 20,
      `service_requests_per_tenant`: 10
    },
    `service_totals`: {
      `submitted`: 26,
      `admitted`: 24,
      `rejected`: 2,
      `completed`: 20,
      `canceled`: 2,
      `deadline_exceeded`: 2
    },
    `control`: {
      `submitted`: 1,
      `admitted`: 1,
      `completed`: 1,
      `upstream_requests`: 1
    },
    `capacity_probes`: {
      `tenant_capacity`: {
        `scope`: `two saturated service tenants`,
        `submitted`: 2,
        `rejected`: 2,
        `status_code`: 429,
        `error_code`: `tenant_capacity_exhausted`,
        `upstream_requests`: 0
      },
      `global_capacity`: {
        `scope`: `dedicated tenant with available tenant capacity`,
        `submitted`: 1,
        `rejected`: 1,
        `status_code`: 503,
        `error_code`: `overloaded`,
        `upstream_requests`: 0
      }
    },
    `accounting`: {
      `total_jobs`: 28,
      `service_submissions`: 26,
      `control_submissions`: 1,
      `global_probe_submissions`: 1,
      `total_upstream_requests`: 21,
      `reconciled`: true,
      `boundary`: `service_totals include two tenant-capacity probes; control and the global-capacity probe are separate`
    },
    `timeout_envelopes`: {
      `execution_context_ms`: 30000,
      `graceful_cleanup_attempt_ms`: 9000,
      `abort_cleanup_reserve_ms`: 10000,
      `maximum_cleanup_ms`: 19000,
      `separate_cleanup_envelope`: true,
      `boundary`: `the execution context and subsequent cleanup waits use separate bounded envelopes, not one wall-clock deadline`
    },
    `tenants`: [
      {
        `tenant`: `tenant-a`,
        `weight`: 1,
        `submitted`: 13,
        `admitted`: 12,
        `rejected`: 1,
        `completed`: 10,
        `canceled`: 1,
        `deadline_exceeded`: 1,
        `dispatched_requests`: 10,
        `dispatched_work_units`: 1388
      },
      {
        `tenant`: `tenant-b`,
        `weight`: 3,
        `submitted`: 13,
        `admitted`: 12,
        `rejected`: 1,
        `completed`: 10,
        `canceled`: 1,
        `deadline_exceeded`: 1,
        `dispatched_requests`: 10,
        `dispatched_work_units`: 1331
      }
    ],
    `service`: {
      `oracle`: `independent bounded weighted deficit round-robin state machine`,
      `oracle_match`: true,
      `expected_dispatch`: [
        {
          `position`: 1,
          `tenant`: `tenant-a`,
          `weight`: 1,
          `work_units`: 110,
          `mode`: `buffered`
        },
        {
          `position`: 2,
          `tenant`: `tenant-b`,
          `weight`: 3,
          `work_units`: 106,
          `mode`: `buffered`
        },
        {
          `position`: 3,
          `tenant`: `tenant-b`,
          `weight`: 3,
          `work_units`: 161,
          `mode`: `buffered`
        },
        {
          `position`: 4,
          `tenant`: `tenant-b`,
          `weight`: 3,
          `work_units`: 137,
          `mode`: `buffered`
        },
        {
          `position`: 5,
          `tenant`: `tenant-b`,
          `weight`: 3,
          `work_units`: 134,
          `mode`: `buffered`
        },
        {
          `position`: 6,
          `tenant`: `tenant-b`,
          `weight`: 3,
          `work_units`: 117,
          `mode`: `buffered`
        },
        {
          `position`: 7,
          `tenant`: `tenant-a`,
          `weight`: 1,
          `work_units`: 152,
          `mode`: `buffered`
        },
        {
          `position`: 8,
          `tenant`: `tenant-a`,
          `weight`: 1,
          `work_units`: 121,
          `mode`: `buffered`
        },
        {
          `position`: 9,
          `tenant`: `tenant-b`,
          `weight`: 3,
          `work_units`: 158,
          `mode`: `buffered`
        },
        {
          `position`: 10,
          `tenant`: `tenant-b`,
          `weight`: 3,
          `work_units`: 133,
          `mode`: `buffered`
        },
        {
          `position`: 11,
          `tenant`: `tenant-b`,
          `weight`: 3,
          `work_units`: 125,
          `mode`: `buffered`
        },
        {
          `position`: 12,
          `tenant`: `tenant-b`,
          `weight`: 3,
          `work_units`: 119,
          `mode`: `buffered`
        },
        {
          `position`: 13,
          `tenant`: `tenant-b`,
          `weight`: 3,
          `work_units`: 141,
          `mode`: `sse`
        },
        {
          `position`: 14,
          `tenant`: `tenant-a`,
          `weight`: 1,
          `work_units`: 160,
          `mode`: `buffered`
        },
        {
          `position`: 15,
          `tenant`: `tenant-a`,
          `weight`: 1,
          `work_units`: 148,
          `mode`: `buffered`
        },
        {
          `position`: 16,
          `tenant`: `tenant-a`,
          `weight`: 1,
          `work_units`: 138,
          `mode`: `buffered`
        },
        {
          `position`: 17,
          `tenant`: `tenant-a`,
          `weight`: 1,
          `work_units`: 159,
          `mode`: `buffered`
        },
        {
          `position`: 18,
          `tenant`: `tenant-a`,
          `weight`: 1,
          `work_units`: 150,
          `mode`: `buffered`
        },
        {
          `position`: 19,
          `tenant`: `tenant-a`,
          `weight`: 1,
          `work_units`: 114,
          `mode`: `buffered`
        },
        {
          `position`: 20,
          `tenant`: `tenant-a`,
          `weight`: 1,
          `work_units`: 136,
          `mode`: `sse`
        }
      ],
      `observed_dispatch`: [
        {
          `position`: 1,
          `tenant`: `tenant-a`,
          `weight`: 1,
          `work_units`: 110,
          `mode`: `buffered`
        },
        {
          `position`: 2,
          `tenant`: `tenant-b`,
          `weight`: 3,
          `work_units`: 106,
          `mode`: `buffered`
        },
        {
          `position`: 3,
          `tenant`: `tenant-b`,
          `weight`: 3,
          `work_units`: 161,
          `mode`: `buffered`
        },
        {
          `position`: 4,
          `tenant`: `tenant-b`,
          `weight`: 3,
          `work_units`: 137,
          `mode`: `buffered`
        },
        {
          `position`: 5,
          `tenant`: `tenant-b`,
          `weight`: 3,
          `work_units`: 134,
          `mode`: `buffered`
        },
        {
          `position`: 6,
          `tenant`: `tenant-b`,
          `weight`: 3,
          `work_units`: 117,
          `mode`: `buffered`
        },
        {
          `position`: 7,
          `tenant`: `tenant-a`,
          `weight`: 1,
          `work_units`: 152,
          `mode`: `buffered`
        },
        {
          `position`: 8,
          `tenant`: `tenant-a`,
          `weight`: 1,
          `work_units`: 121,
          `mode`: `buffered`
        },
        {
          `position`: 9,
          `tenant`: `tenant-b`,
          `weight`: 3,
          `work_units`: 158,
          `mode`: `buffered`
        },
        {
          `position`: 10,
          `tenant`: `tenant-b`,
          `weight`: 3,
          `work_units`: 133,
          `mode`: `buffered`
        },
        {
          `position`: 11,
          `tenant`: `tenant-b`,
          `weight`: 3,
          `work_units`: 125,
          `mode`: `buffered`
        },
        {
          `position`: 12,
          `tenant`: `tenant-b`,
          `weight`: 3,
          `work_units`: 119,
          `mode`: `buffered`
        },
        {
          `position`: 13,
          `tenant`: `tenant-b`,
          `weight`: 3,
          `work_units`: 141,
          `mode`: `sse`
        },
        {
          `position`: 14,
          `tenant`: `tenant-a`,
          `weight`: 1,
          `work_units`: 160,
          `mode`: `buffered`
        },
        {
          `position`: 15,
          `tenant`: `tenant-a`,
          `weight`: 1,
          `work_units`: 148,
          `mode`: `buffered`
        },
        {
          `position`: 16,
          `tenant`: `tenant-a`,
          `weight`: 1,
          `work_units`: 138,
          `mode`: `buffered`
        },
        {
          `position`: 17,
          `tenant`: `tenant-a`,
          `weight`: 1,
          `work_units`: 159,
          `mode`: `buffered`
        },
        {
          `position`: 18,
          `tenant`: `tenant-a`,
          `weight`: 1,
          `work_units`: 150,
          `mode`: `buffered`
        },
        {
          `position`: 19,
          `tenant`: `tenant-a`,
          `weight`: 1,
          `work_units`: 114,
          `mode`: `buffered`
        },
        {
          `position`: 20,
          `tenant`: `tenant-a`,
          `weight`: 1,
          `work_units`: 136,
          `mode`: `sse`
        }
      ],
      `upstream_requests`: 20
    }
  },
  `categorical_evidence`: {
    `projection`: `seeded accounting and dispatch trace`,
    `digest_algorithm`: `SHA-256`,
    `digest`: `7b6b4a3076eb811cd3c463e5fa6cee313769d4a1941242093d384f11ebce127f`,
    `excludes_timing`: true,
    `byte_reproducible`: true
  }
}
".

(** [docs/visuals/generated/saturation-evidence.txt] *)
Definition publishedSaturationSummary : list Z := raw "reproduce: GOTOOLCHAIN=go1.26.5 go run ./tools/run_saturation --profile=ci --seed=20260725
scope: one bounded synthetic numeric-loopback request-count saturation run
accounting: 28 jobs = 26 service + 1 control + 1 global probe; reconciled
service: 24 admitted -> 20 completed + 2 canceled + 2 queue deadline; 2 rejected
tenant capacity: 2 x HTTP 429; upstream requests 0
global capacity: 1 x HTTP 503; upstream requests 0
dispatch: 20 observed == 20 independent WDRR oracle
configured bounds: 30000 ms execution; <= 19000 ms later cleanup; separate contexts
categorical sha256: 7b6b4a3076eb811cd3c463e5fa6cee313769d4a1941242093d384f11ebce127f
performance: false; measured diagnostic intervals excluded; no fairness, service-share, latency, or RSS claim
".

(** [docs/visuals/generated/saturation-terminal.svg] *)
Definition publishedSaturationTerminal : list Z := raw "<svg xmlns=`http://www.w3.org/2000/svg` width=`1400` height=`470` viewBox=`0 0 1400 470` role=`img` aria-labelledby=`title desc`>
  <title id=`title`>SSEmaphore bounded saturation evidence</title>
  <desc id=`desc`>A terminal summary derived from one real fixed-seed production-path saturation run. It reports categorical accounting, capacity probes, oracle agreement, and explicit non-performance boundaries.</desc>
  <rect width=`1400` height=`470` rx=`18` fill=`#0d1117`/>
  <circle cx=`31` cy=`29` r=`7` fill=`#ff5f56`/>
  <circle cx=`55` cy=`29` r=`7` fill=`#ffbd2e`/>
  <circle cx=`79` cy=`29` r=`7` fill=`#27c93f`/>
  <text x=`700` y=`36` fill=`#8b949e` text-anchor=`middle` font-family=`DejaVu Sans Mono, ui-monospace, SFMono-Regular, Consolas, monospace` font-size=`15`>verified saturation projection without measured diagnostic intervals</text>
  <line x1=`0` y1=`54` x2=`1400` y2=`54` stroke=`#30363d`/>
  <text x=`48` y=`86` fill=`#7ee787` font-family=`DejaVu Sans Mono, ui-monospace, SFMono-Regular, Consolas, monospace` font-size=`14`>reproduce: GOTOOLCHAIN=go1.26.5 go run ./tools/run_saturation --profile=ci --seed=20260725</text>
  <text x=`48` y=`122` fill=`#e6edf3` font-family=`DejaVu Sans Mono, ui-monospace, SFMono-Regular, Consolas, monospace` font-size=`14`>scope: one bounded synthetic numeric-loopback request-count saturation run</text>
  <text x=`48` y=`158` fill=`#e6edf3` font-family=`DejaVu Sans Mono, ui-monospace, SFMono-Regular, Consolas, monospace` font-size=`14`>accounting: 28 jobs = 26 service + 1 control + 1 global probe; reconciled</text>
  <text x=`48` y=`194` fill=`#e6edf3` font-family=`DejaVu Sans Mono, ui-monospace, SFMono-Regular, Consolas, monospace` font-size=`14`>service: 24 admitted -&gt; 20 completed + 2 canceled + 2 queue deadline; 2 rejected</text>
  <text x=`48` y=`230` fill=`#e6edf3` font-family=`DejaVu Sans Mono, ui-monospace, SFMono-Regular, Consolas, monospace` font-size=`14`>tenant capacity: 2 x HTTP 429; upstream requests 0</text>
  <text x=`48` y=`266` fill=`#e6edf3` font-family=`DejaVu Sans Mono, ui-monospace, SFMono-Regular, Consolas, monospace` font-size=`14`>global capacity: 1 x HTTP 503; upstream requests 0</text>
  <text x=`48` y=`302` fill=`#e6edf3` font-family=`DejaVu Sans Mono, ui-monospace, SFMono-Regular, Consolas, monospace` font-size=`14`>dispatch: 20 observed == 20 independent WDRR oracle</text>
  <text x=`48` y=`338` fill=`#e6edf3` font-family=`DejaVu Sans Mono, ui-monospace, SFMono-Regular, Consolas, monospace` font-size=`14`>configured bounds: 30000 ms execution; &lt;= 19000 ms later cleanup; separate contexts</text>
  <text x=`48` y=`374` fill=`#e6edf3` font-family=`DejaVu Sans Mono, ui-monospace, SFMono-Regular, Consolas, monospace` font-size=`14`>categorical sha256: 7b6b4a3076eb811cd3c463e5fa6cee313769d4a1941242093d384f11ebce127f</text>
  <text x=`48` y=`410` fill=`#d2a8ff` font-family=`DejaVu Sans Mono, ui-monospace, SFMono-Regular, Consolas, monospace` font-size=`14`>performance: false; measured diagnostic intervals excluded; no fairness, service-share, latency, or RSS claim</text>
</svg>
".

(** [docs/visuals/generated/saturation-outcomes.svg] *)
Definition publishedSaturationOutcomes : list Z := raw "<svg xmlns=`http://www.w3.org/2000/svg` width=`1200` height=`650` viewBox=`0 0 1200 650` role=`img` aria-labelledby=`title desc`>
  <title id=`title`>SSEmaphore exact saturation outcomes</title>
  <desc id=`desc`>A stacked request-count outcome chart with exact per-tenant accounting and zero-upstream tenant and global capacity probes from one fixed-seed run.</desc>
  <rect width=`1200` height=`650` rx=`18` fill=`#f6f8fa`/>
  <text x=`54` y=`55` fill=`#24292f` font-family=`DejaVu Sans, Arial, sans-serif` font-size=`28` font-weight=`700`>Exact request-count outcomes from one bounded run</text>
  <text x=`54` y=`84` fill=`#57606a` font-family=`DejaVu Sans, Arial, sans-serif` font-size=`16`>26 service submissions plus one control and one dedicated global-capacity probe; fixed seed 20260725.</text>

  <text x=`80` y=`137` fill=`#24292f` font-family=`DejaVu Sans, Arial, sans-serif` font-size=`17` font-weight=`700`>service submissions = 26</text>
  <rect x=`80` y=`158` width=`800` height=`58` rx=`9` fill=`#2da44e`/>
  <rect x=`880` y=`158` width=`80` height=`58` fill=`#bf8700`/>
  <rect x=`960` y=`158` width=`80` height=`58` fill=`#8250df`/>
  <rect x=`1040` y=`158` width=`80` height=`58` rx=`9` fill=`#cf222e`/>
  <text x=`480` y=`194` text-anchor=`middle` fill=`#0d1117` font-family=`DejaVu Sans, Arial, sans-serif` font-size=`15` font-weight=`700`>20 completed</text>
  <text x=`920` y=`194` text-anchor=`middle` fill=`#0d1117` font-family=`DejaVu Sans, Arial, sans-serif` font-size=`14` font-weight=`700`>2 cancel</text>
  <text x=`1000` y=`194` text-anchor=`middle` fill=`#ffffff` font-family=`DejaVu Sans, Arial, sans-serif` font-size=`14` font-weight=`700`>2 deadline</text>
  <text x=`1080` y=`194` text-anchor=`middle` fill=`#ffffff` font-family=`DejaVu Sans, Arial, sans-serif` font-size=`14` font-weight=`700`>2 reject</text>

  <rect x=`54` y=`270` width=`336` height=`244` rx=`16` fill=`#ffffff` stroke=`#0969da` stroke-width=`2`/>
  <text x=`82` y=`310` fill=`#0550ae` font-family=`DejaVu Sans, Arial, sans-serif` font-size=`20` font-weight=`700`>tenant-a - weight 1</text>
  <text x=`82` y=`348` fill=`#24292f` font-family=`DejaVu Sans Mono, monospace` font-size=`16`>submitted             13</text>
  <text x=`82` y=`378` fill=`#24292f` font-family=`DejaVu Sans Mono, monospace` font-size=`16`>admitted              12</text>
  <text x=`82` y=`408` fill=`#24292f` font-family=`DejaVu Sans Mono, monospace` font-size=`16`>complete/cancel/dead  10 / 1 / 1</text>
  <text x=`82` y=`438` fill=`#24292f` font-family=`DejaVu Sans Mono, monospace` font-size=`16`>rejected              1</text>
  <text x=`82` y=`468` fill=`#24292f` font-family=`DejaVu Sans Mono, monospace` font-size=`16`>dispatches/work units 10 / 1388</text>

  <rect x=`432` y=`270` width=`336` height=`244` rx=`16` fill=`#ffffff` stroke=`#8250df` stroke-width=`2`/>
  <text x=`460` y=`310` fill=`#6639ba` font-family=`DejaVu Sans, Arial, sans-serif` font-size=`20` font-weight=`700`>tenant-b - weight 3</text>
  <text x=`460` y=`348` fill=`#24292f` font-family=`DejaVu Sans Mono, monospace` font-size=`16`>submitted             13</text>
  <text x=`460` y=`378` fill=`#24292f` font-family=`DejaVu Sans Mono, monospace` font-size=`16`>admitted              12</text>
  <text x=`460` y=`408` fill=`#24292f` font-family=`DejaVu Sans Mono, monospace` font-size=`16`>complete/cancel/dead  10 / 1 / 1</text>
  <text x=`460` y=`438` fill=`#24292f` font-family=`DejaVu Sans Mono, monospace` font-size=`16`>rejected              1</text>
  <text x=`460` y=`468` fill=`#24292f` font-family=`DejaVu Sans Mono, monospace` font-size=`16`>dispatches/work units 10 / 1331</text>

  <rect x=`810` y=`270` width=`336` height=`244` rx=`16` fill=`#ffffff` stroke=`#57606a` stroke-width=`2`/>
  <text x=`838` y=`310` fill=`#24292f` font-family=`DejaVu Sans, Arial, sans-serif` font-size=`20` font-weight=`700`>Boundary probes and control</text>
  <text x=`838` y=`350` fill=`#24292f` font-family=`DejaVu Sans Mono, monospace` font-size=`16`>tenant capacity  2 x 429</text>
  <text x=`838` y=`380` fill=`#57606a` font-family=`DejaVu Sans Mono, monospace` font-size=`15`>upstream requests      0</text>
  <text x=`838` y=`420` fill=`#24292f` font-family=`DejaVu Sans Mono, monospace` font-size=`16`>global capacity  1 x 503</text>
  <text x=`838` y=`450` fill=`#57606a` font-family=`DejaVu Sans Mono, monospace` font-size=`15`>upstream requests      0</text>
  <text x=`838` y=`490` fill=`#24292f` font-family=`DejaVu Sans Mono, monospace` font-size=`16`>control complete/upstream 1 / 1</text>

  <rect x=`54` y=`550` width=`1092` height=`58` rx=`12` fill=`#fff8c5` stroke=`#d4a72c`/>
  <text x=`600` y=`585` text-anchor=`middle` fill=`#633c01` font-family=`DejaVu Sans, Arial, sans-serif` font-size=`16`>Request-count accounting only - not throughput, latency, RSS, fairness score, or service-share evidence.</text>
</svg>
".

(** [docs/visuals/generated/saturation-dispatch.svg] *)
Definition publishedSaturationDispatch : list Z := raw "<svg xmlns=`http://www.w3.org/2000/svg` width=`1400` height=`720` viewBox=`0 0 1400 720` role=`img` aria-labelledby=`title desc`>
  <title id=`title`>SSEmaphore fixed-seed dispatch trace</title>
  <desc id=`desc`>Twenty observed weighted deficit round-robin dispatches plotted by estimated work units and tenant, with independent oracle points coincident at every position. Two SSE requests are outlined.</desc>
  <rect width=`1400` height=`720` rx=`18` fill=`#f6f8fa`/>
  <text x=`54` y=`55` fill=`#24292f` font-family=`DejaVu Sans, Arial, sans-serif` font-size=`28` font-weight=`700`>Seeded WDRR dispatch trace - expected equals observed</text>
  <text x=`54` y=`84` fill=`#57606a` font-family=`DejaVu Sans, Arial, sans-serif` font-size=`16`>20 production-path service dispatches; bar height is the bounded scheduling estimate in work units.</text>

  <rect x=`54` y=`105` width=`18` height=`18` rx=`4` fill=`#0969da`/>
  <text x=`82` y=`120` fill=`#24292f` font-family=`DejaVu Sans, Arial, sans-serif` font-size=`14`>tenant-a - weight 1</text>
  <rect x=`250` y=`105` width=`18` height=`18` rx=`4` fill=`#8250df`/>
  <text x=`278` y=`120` fill=`#24292f` font-family=`DejaVu Sans, Arial, sans-serif` font-size=`14`>tenant-b - weight 3</text>
  <rect x=`446` y=`103` width=`22` height=`22` rx=`4` fill=`none` stroke=`#bf8700` stroke-width=`4`/>
  <text x=`480` y=`120` fill=`#24292f` font-family=`DejaVu Sans, Arial, sans-serif` font-size=`14`>SSE request</text>
  <circle cx=`628` cy=`114` r=`4` fill=`#ffffff` stroke=`#24292f`/>
  <text x=`642` y=`120` fill=`#24292f` font-family=`DejaVu Sans, Arial, sans-serif` font-size=`14`>independent oracle point - coincident on all 20</text>
  <rect x=`1070` y=`96` width=`276` height=`38` rx=`12` fill=`#dafbe1` stroke=`#2da44e`/>
  <text x=`1208` y=`120` text-anchor=`middle` fill=`#116329` font-family=`DejaVu Sans, Arial, sans-serif` font-size=`15` font-weight=`700`>ORACLE MATCH 20 / 20</text>

  <line x1=`88` y1=`535` x2=`1332` y2=`535` stroke=`#57606a` stroke-width=`2`/>
  <line x1=`88` y1=`375` x2=`1332` y2=`375` stroke=`#d0d7de` stroke-dasharray=`5 6`/>
  <line x1=`88` y1=`215` x2=`1332` y2=`215` stroke=`#d0d7de` stroke-dasharray=`5 6`/>
  <text x=`76` y=`540` text-anchor=`end` fill=`#57606a` font-family=`DejaVu Sans Mono, monospace` font-size=`13`>0</text>
  <text x=`76` y=`380` text-anchor=`end` fill=`#57606a` font-family=`DejaVu Sans Mono, monospace` font-size=`13`>80</text>
  <text x=`76` y=`220` text-anchor=`end` fill=`#57606a` font-family=`DejaVu Sans Mono, monospace` font-size=`13`>160</text>
  <text x=`29` y=`360` transform=`rotate(-90 29 360)` fill=`#57606a` font-family=`DejaVu Sans, Arial, sans-serif` font-size=`14`>estimated work units</text>
  <rect x=`100` y=`315` width=`36` height=`220` rx=`5` fill=`#0969da` stroke=`#ffffff` stroke-width=`1`/>
  <circle cx=`118` cy=`315` r=`4` fill=`#ffffff` stroke=`#24292f`/>
  <text x=`118` y=`305` text-anchor=`middle` fill=`#24292f` font-family=`DejaVu Sans Mono, monospace` font-size=`12`>110</text>
  <text x=`118` y=`561` text-anchor=`middle` fill=`#57606a` font-family=`DejaVu Sans Mono, monospace` font-size=`12`>1</text>
  <rect x=`162` y=`323` width=`36` height=`212` rx=`5` fill=`#8250df` stroke=`#ffffff` stroke-width=`1`/>
  <circle cx=`180` cy=`323` r=`4` fill=`#ffffff` stroke=`#24292f`/>
  <text x=`180` y=`313` text-anchor=`middle` fill=`#24292f` font-family=`DejaVu Sans Mono, monospace` font-size=`12`>106</text>
  <text x=`180` y=`561` text-anchor=`middle` fill=`#57606a` font-family=`DejaVu Sans Mono, monospace` font-size=`12`>2</text>
  <rect x=`224` y=`213` width=`36` height=`322` rx=`5` fill=`#8250df` stroke=`#ffffff` stroke-width=`1`/>
  <circle cx=`242` cy=`213` r=`4` fill=`#ffffff` stroke=`#24292f`/>
  <text x=`242` y=`203` text-anchor=`middle` fill=`#24292f` font-family=`DejaVu Sans Mono, monospace` font-size=`12`>161</text>
  <text x=`242` y=`561` text-anchor=`middle` fill=`#57606a` font-family=`DejaVu Sans Mono, monospace` font-size=`12`>3</text>
  <rect x=`286` y=`261` width=`36` height=`274` rx=`5` fill=`#8250df` stroke=`#ffffff` stroke-width=`1`/>
  <circle cx=`304` cy=`261` r=`4` fill=`#ffffff` stroke=`#24292f`/>
  <text x=`304` y=`251` text-anchor=`middle` fill=`#24292f` font-family=`DejaVu Sans Mono, monospace` font-size=`12`>137</text>
  <text x=`304` y=`561` text-anchor=`middle` fill=`#57606a` font-family=`DejaVu Sans Mono, monospace` font-size=`12`>4</text>
  <rect x=`348` y=`267` width=`36` height=`268` rx=`5` fill=`#8250df` stroke=`#ffffff` stroke-width=`1`/>
  <circle cx=`366` cy=`267` r=`4` fill=`#ffffff` stroke=`#24292f`/>
  <text x=`366` y=`257` text-anchor=`middle` fill=`#24292f` font-family=`DejaVu Sans Mono, monospace` font-size=`12`>134</text>
  <text x=`366` y=`561` text-anchor=`middle` fill=`#57606a` font-family=`DejaVu Sans Mono, monospace` font-size=`12`>5</text>
  <rect x=`410` y=`301` width=`36` height=`234` rx=`5` fill=`#8250df` stroke=`#ffffff` stroke-width=`1`/>
  <circle cx=`428` cy=`301` r=`4` fill=`#ffffff` stroke=`#24292f`/>
  <text x=`428` y=`291` text-anchor=`middle` fill=`#24292f` font-family=`DejaVu Sans Mono, monospace` font-size=`12`>117</text>
  <text x=`428` y=`561` text-anchor=`middle` fill=`#57606a` font-family=`DejaVu Sans Mono, monospace` font-size=`12`>6</text>
  <rect x=`472` y=`231` width=`36` height=`304` rx=`5` fill=`#0969da` stroke=`#ffffff` stroke-width=`1`/>
  <circle cx=`490` cy=`231` r=`4` fill=`#ffffff` stroke=`#24292f`/>
  <text x=`490` y=`221` text-anchor=`middle` fill=`#24292f` font-family=`DejaVu Sans Mono, monospace` font-size=`12`>152</text>
  <text x=`490` y=`561` text-anchor=`middle` fill=`#57606a` font-family=`DejaVu Sans Mono, monospace` font-size=`12`>7</text>
  <rect x=`534` y=`293` width=`36` height=`242` rx=`5` fill=`#0969da` stroke=`#ffffff` stroke-width=`1`/>
  <circle cx=`552` cy=`293` r=`4` fill=`#ffffff` stroke=`#24292f`/>
  <text x=`552` y=`283` text-anchor=`middle` fill=`#24292f` font-family=`DejaVu Sans Mono, monospace` font-size=`12`>121</text>
  <text x=`552` y=`561` text-anchor=`middle` fill=`#57606a` font-family=`DejaVu Sans Mono, monospace` font-size=`12`>8</text>
  <rect x=`596` y=`219` width=`36` height=`316` rx=`5` fill=`#8250df` stroke=`#ffffff` stroke-width=`1`/>
  <circle cx=`614` cy=`219` r=`4` fill=`#ffffff` stroke=`#24292f`/>
  <text x=`614` y=`209` text-anchor=`middle` fill=`#24292f` font-family=`DejaVu Sans Mono, monospace` font-size=`12`>158</text>
  <text x=`614` y=`561` text-anchor=`middle` fill=`#57606a` font-family=`DejaVu Sans Mono, monospace` font-size=`12`>9</text>
  <rect x=`658` y=`269` width=`36` height=`266` rx=`5` fill=`#8250df` stroke=`#ffffff` stroke-width=`1`/>
  <circle cx=`676` cy=`269` r=`4` fill=`#ffffff` stroke=`#24292f`/>
  <text x=`676` y=`259` text-anchor=`middle` fill=`#24292f` font-family=`DejaVu Sans Mono, monospace` font-size=`12`>133</text>
  <text x=`676` y=`561` text-anchor=`middle` fill=`#57606a` font-family=`DejaVu Sans Mono, monospace` font-size=`12`>10</text>
  <rect x=`720` y=`285` width=`36` height=`250` rx=`5` fill=`#8250df` stroke=`#ffffff` stroke-width=`1`/>
  <circle cx=`738` cy=`285` r=`4` fill=`#ffffff` stroke=`#24292f`/>
  <text x=`738` y=`275` text-anchor=`middle` fill=`#24292f` font-family=`DejaVu Sans Mono, monospace` font-size=`12`>125</text>
  <text x=`738` y=`561` text-anchor=`middle` fill=`#57606a` font-family=`DejaVu Sans Mono, monospace` font-size=`12`>11</text>
  <rect x=`782` y=`297` width=`36` height=`238` rx=`5` fill=`#8250df` stroke=`#ffffff` stroke-width=`1`/>
  <circle cx=`800` cy=`297` r=`4` fill=`#ffffff` stroke=`#24292f`/>
  <text x=`800` y=`287` text-anchor=`middle` fill=`#24292f` font-family=`DejaVu Sans Mono, monospace` font-size=`12`>119</text>
  <text x=`800` y=`561` text-anchor=`middle` fill=`#57606a` font-family=`DejaVu Sans Mono, monospace` font-size=`12`>12</text>
  <rect x=`844` y=`253` width=`36` height=`282` rx=`5` fill=`#8250df` stroke=`#bf8700` stroke-width=`4`/>
  <circle cx=`862` cy=`253` r=`4` fill=`#ffffff` stroke=`#24292f`/>
  <text x=`862` y=`243` text-anchor=`middle` fill=`#24292f` font-family=`DejaVu Sans Mono, monospace` font-size=`12`>141</text>
  <text x=`862` y=`561` text-anchor=`middle` fill=`#57606a` font-family=`DejaVu Sans Mono, monospace` font-size=`12`>13</text>
  <rect x=`906` y=`215` width=`36` height=`320` rx=`5` fill=`#0969da` stroke=`#ffffff` stroke-width=`1`/>
  <circle cx=`924` cy=`215` r=`4` fill=`#ffffff` stroke=`#24292f`/>
  <text x=`924` y=`205` text-anchor=`middle` fill=`#24292f` font-family=`DejaVu Sans Mono, monospace` font-size=`12`>160</text>
  <text x=`924` y=`561` text-anchor=`middle` fill=`#57606a` font-family=`DejaVu Sans Mono, monospace` font-size=`12`>14</text>
  <rect x=`968` y=`239` width=`36` height=`296` rx=`5` fill=`#0969da` stroke=`#ffffff` stroke-width=`1`/>
  <circle cx=`986` cy=`239` r=`4` fill=`#ffffff` stroke=`#24292f`/>
  <text x=`986` y=`229` text-anchor=`middle` fill=`#24292f` font-family=`DejaVu Sans Mono, monospace` font-size=`12`>148</text>
  <text x=`986` y=`561` text-anchor=`middle` fill=`#57606a` font-family=`DejaVu Sans Mono, monospace` font-size=`12`>15</text>
  <rect x=`1030` y=`259` width=`36` height=`276` rx=`5` fill=`#0969da` stroke=`#ffffff` stroke-width=`1`/>
  <circle cx=`1048` cy=`259` r=`4` fill=`#ffffff` stroke=`#24292f`/>
  <text x=`1048` y=`249` text-anchor=`middle` fill=`#24292f` font-family=`DejaVu Sans Mono, monospace` font-size=`12`>138</text>
  <text x=`1048` y=`561` text-anchor=`middle` fill=`#57606a` font-family=`DejaVu Sans Mono, monospace` font-size=`12`>16</text>
  <rect x=`1092` y=`217` width=`36` height=`318` rx=`5` fill=`#0969da` stroke=`#ffffff` stroke-width=`1`/>
  <circle cx=`1110` cy=`217` r=`4` fill=`#ffffff` stroke=`#24292f`/>
  <text x=`1110` y=`207` text-anchor=`middle` fill=`#24292f` font-family=`DejaVu Sans Mono, monospace` font-size=`12`>159</text>
  <text x=`1110` y=`561` text-anchor=`middle` fill=`#57606a` font-family=`DejaVu Sans Mono, monospace` font-size=`12`>17</text>
  <rect x=`1154` y=`235` width=`36` height=`300` rx=`5` fill=`#0969da` stroke=`#ffffff` stroke-width=`1`/>
  <circle cx=`1172` cy=`235` r=`4` fill=`#ffffff` stroke=`#24292f`/>
  <text x=`1172` y=`225` text-anchor=`middle` fill=`#24292f` font-family=`DejaVu Sans Mono, monospace` font-size=`12`>150</text>
  <text x=`1172` y=`561` text-anchor=`middle` fill=`#57606a` font-family=`DejaVu Sans Mono, monospace` font-size=`12`>18</text>
  <rect x=`1216` y=`307` width=`36` height=`228` rx=`5` fill=`#0969da` stroke=`#ffffff` stroke-width=`1`/>
  <circle cx=`1234` cy=`307` r=`4` fill=`#ffffff` stroke=`#24292f`/>
  <text x=`1234` y=`297` text-anchor=`middle` fill=`#24292f` font-family=`DejaVu Sans Mono, monospace` font-size=`12`>114</text>
  <text x=`1234` y=`561` text-anchor=`middle` fill=`#57606a` font-family=`DejaVu Sans Mono, monospace` font-size=`12`>19</text>
  <rect x=`1278` y=`263` width=`36` height=`272` rx=`5` fill=`#0969da` stroke=`#bf8700` stroke-width=`4`/>
  <circle cx=`1296` cy=`263` r=`4` fill=`#ffffff` stroke=`#24292f`/>
  <text x=`1296` y=`253` text-anchor=`middle` fill=`#24292f` font-family=`DejaVu Sans Mono, monospace` font-size=`12`>136</text>
  <text x=`1296` y=`561` text-anchor=`middle` fill=`#57606a` font-family=`DejaVu Sans Mono, monospace` font-size=`12`>20</text>

  <text x=`710` y=`589` text-anchor=`middle` fill=`#57606a` font-family=`DejaVu Sans, Arial, sans-serif` font-size=`14`>observed dispatch position</text>
  <rect x=`54` y=`620` width=`1292` height=`58` rx=`12` fill=`#fff8c5` stroke=`#d4a72c`/>
  <text x=`700` y=`655` text-anchor=`middle` fill=`#633c01` font-family=`DejaVu Sans, Arial, sans-serif` font-size=`15`>Weights are inputs. This finite trace is not a 3:1 allocation, fairness score, throughput, or latency result.</text>
</svg>
".

(** [docs/visuals/generated/loopback-evidence.json] *)
Definition publishedEvidence : list Z := raw "{
  `schema`: `ssemaphore.loopback-evidence.v1`,
  `scope`: `one Linux gateway instance, one tenant, two synthetic numeric-loopback requests`,
  `toolchain`: `go1.26.5`,
  `platform`: `linux`,
  `validate`: {
    `accepted`: true,
    `listener_remained_reserved`: true,
    `upstream_connections`: 0,
    `upstream_http_requests`: 0
  },
  `buffered`: {
    `status`: 200,
    `protocol_major`: 1,
    `upstream_attempts`: 1,
    `body_exact`: true,
    `safe_response_headers`: true
  },
  `streaming`: {
    `status`: 200,
    `protocol_major`: 1,
    `upstream_attempts`: 1,
    `first_event_before_upstream_release`: true,
    `event_order`: [
      `chunk-1`,
      `chunk-2`,
      `[DONE]`
    ],
    `clean_eof`: true,
    `safe_response_headers`: true
  },
  `isolation`: {
    `upstream_header_allowlist_exact`: true,
    `separate_upstream_credential`: true,
    `tenant_credential_forwarded`: false,
    `client_headers_forwarded`: false,
    `upstream_headers_relayed`: false,
    `upstream_credential_relayed`: false
  },
  `shutdown`: {
    `signal`: `SIGTERM`,
    `inflight_stream_completed`: true,
    `exit_code`: 0,
    `process_output_empty`: true,
    `listener_released`: true
  }
}
".

(** [docs/visuals/generated/loopback-evidence.txt] *)
Definition publishedSummary : list Z := raw "verified run: GOTOOLCHAIN=go1.26.5 go run ./tools/render_readme_visuals
validate: gateway policy is valid
validate boundary: port reserved; upstream connections 0; HTTP requests 0
buffered relay: HTTP/1 200; exact validated body; safe headers
stream relay: chunk-1 -> chunk-2 -> [DONE] -> clean-eof
stream ordering: first chunk arrived before upstream release
credential boundary: tenant absent upstream; upstream absent downstream
header boundary: client and upstream private headers stripped
shutdown: SIGTERM -> exit 0; in-flight stream completed; listener released
".

(** [docs/visuals/generated/loopback-terminal.svg] *)
Definition publishedTerminal : list Z := raw "<svg xmlns=`http://www.w3.org/2000/svg` width=`1200` height=`390` viewBox=`0 0 1200 390` role=`img` aria-labelledby=`title desc`>
  <title id=`title`>SSEmaphore verified loopback summary</title>
  <desc id=`desc`>Content-free evidence summary derived from real validate, buffered relay, streaming relay, credential isolation, and SIGTERM shutdown checks.</desc>
  <rect width=`1200` height=`390` rx=`17` fill=`#0d1117`/>
  <circle cx=`31` cy=`29` r=`7` fill=`#ff5f56`/>
  <circle cx=`55` cy=`29` r=`7` fill=`#ffbd2e`/>
  <circle cx=`79` cy=`29` r=`7` fill=`#27c93f`/>
  <text x=`600` y=`36` fill=`#8b949e` text-anchor=`middle` font-family=`DejaVu Sans Mono, ui-monospace, SFMono-Regular, Consolas, monospace` font-size=`15`>verified numeric-loopback summary</text>
  <line x1=`0` y1=`54` x2=`1200` y2=`54` stroke=`#30363d`/>
  <text x=`54` y=`90` fill=`#7ee787` font-family=`DejaVu Sans Mono, ui-monospace, SFMono-Regular, Consolas, monospace` font-size=`16`>verified run: GOTOOLCHAIN=go1.26.5 go run ./tools/render_readme_visuals</text>
  <text x=`54` y=`123` fill=`#e6edf3` font-family=`DejaVu Sans Mono, ui-monospace, SFMono-Regular, Consolas, monospace` font-size=`16`>validate: gateway policy is valid</text>
  <text x=`54` y=`156` fill=`#e6edf3` font-family=`DejaVu Sans Mono, ui-monospace, SFMono-Regular, Consolas, monospace` font-size=`16`>validate boundary: port reserved; upstream connections 0; HTTP requests 0</text>
  <text x=`54` y=`189` fill=`#e6edf3` font-family=`DejaVu Sans Mono, ui-monospace, SFMono-Regular, Consolas, monospace` font-size=`16`>buffered relay: HTTP/1 200; exact validated body; safe headers</text>
  <text x=`54` y=`222` fill=`#e6edf3` font-family=`DejaVu Sans Mono, ui-monospace, SFMono-Regular, Consolas, monospace` font-size=`16`>stream relay: chunk-1 -&gt; chunk-2 -&gt; [DONE] -&gt; clean-eof</text>
  <text x=`54` y=`255` fill=`#e6edf3` font-family=`DejaVu Sans Mono, ui-monospace, SFMono-Regular, Consolas, monospace` font-size=`16`>stream ordering: first chunk arrived before upstream release</text>
  <text x=`54` y=`288` fill=`#e6edf3` font-family=`DejaVu Sans Mono, ui-monospace, SFMono-Regular, Consolas, monospace` font-size=`16`>credential boundary: tenant absent upstream; upstream absent downstream</text>
  <text x=`54` y=`321` fill=`#e6edf3` font-family=`DejaVu Sans Mono, ui-monospace, SFMono-Regular, Consolas, monospace` font-size=`16`>header boundary: client and upstream private headers stripped</text>
  <text x=`54` y=`354` fill=`#e6edf3` font-family=`DejaVu Sans Mono, ui-monospace, SFMono-Regular, Consolas, monospace` font-size=`16`>shutdown: SIGTERM -&gt; exit 0; in-flight stream completed; listener released</text>
</svg>
".

(** [docs/visuals/generated/stream-sequence.svg] *)
Definition publishedSequence : list Z := raw "<svg xmlns=`http://www.w3.org/2000/svg` width=`1200` height=`650` viewBox=`0 0 1200 650` role=`img` aria-labelledby=`title desc`>
  <title id=`title`>SSEmaphore streaming order proof</title>
  <desc id=`desc`>Sequence showing a real gateway deliver chunk one before the demo releases the controlled upstream, then complete during handled SIGTERM drain.</desc>
  <defs>
    <marker id=`arrow-blue` viewBox=`0 0 10 10` refX=`9` refY=`5` markerWidth=`7` markerHeight=`7` orient=`auto-start-reverse`>
      <path d=`M 0 0 L 10 5 L 0 10 z` fill=`#0969da`/>
    </marker>
    <marker id=`arrow-purple` viewBox=`0 0 10 10` refX=`9` refY=`5` markerWidth=`7` markerHeight=`7` orient=`auto-start-reverse`>
      <path d=`M 0 0 L 10 5 L 0 10 z` fill=`#8250df`/>
    </marker>
  </defs>
  <rect width=`1200` height=`650` rx=`18` fill=`#f6f8fa`/>
  <text x=`42` y=`50` fill=`#24292f` font-family=`DejaVu Sans, Arial, sans-serif` font-size=`27` font-weight=`700`>Channel-driven proof of early SSE delivery</text>
  <text x=`42` y=`79` fill=`#57606a` font-family=`DejaVu Sans, Arial, sans-serif` font-size=`16`>A real gateway process relays the first validated event before the controlled upstream is allowed to continue.</text>

  <rect x=`55` y=`108` width=`260` height=`54` rx=`11` fill=`#ffffff` stroke=`#54aeff` stroke-width=`2`/>
  <text x=`185` y=`141` fill=`#0550ae` text-anchor=`middle` font-family=`DejaVu Sans, Arial, sans-serif` font-size=`16` font-weight=`700`>demo client / coordinator</text>
  <rect x=`470` y=`108` width=`260` height=`54` rx=`11` fill=`#ffffff` stroke=`#8250df` stroke-width=`2`/>
  <text x=`600` y=`141` fill=`#6639ba` text-anchor=`middle` font-family=`DejaVu Sans, Arial, sans-serif` font-size=`16` font-weight=`700`>real SSEmaphore process</text>
  <rect x=`885` y=`108` width=`260` height=`54` rx=`11` fill=`#ffffff` stroke=`#54aeff` stroke-width=`2`/>
  <text x=`1015` y=`141` fill=`#0550ae` text-anchor=`middle` font-family=`DejaVu Sans, Arial, sans-serif` font-size=`16` font-weight=`700`>controlled HTTP/1 upstream</text>

  <line x1=`185` y1=`162` x2=`185` y2=`516` stroke=`#8c959f` stroke-dasharray=`6 7`/>
  <line x1=`600` y1=`162` x2=`600` y2=`516` stroke=`#8c959f` stroke-dasharray=`6 7`/>
  <line x1=`1015` y1=`162` x2=`1015` y2=`516` stroke=`#8c959f` stroke-dasharray=`6 7`/>

  <path d=`M 185 196 L 590 196` fill=`none` stroke=`#0969da` stroke-width=`3` marker-end=`url(#arrow-blue)`/>
  <text x=`388` y=`186` fill=`#24292f` text-anchor=`middle` font-family=`DejaVu Sans, Arial, sans-serif` font-size=`14`>POST stream=true with tenant bearer</text>
  <path d=`M 610 234 L 1005 234` fill=`none` stroke=`#8250df` stroke-width=`3` marker-end=`url(#arrow-purple)`/>
  <text x=`808` y=`224` fill=`#24292f` text-anchor=`middle` font-family=`DejaVu Sans, Arial, sans-serif` font-size=`14`>fixed HTTP/1 POST with separate bearer</text>
  <path d=`M 1005 272 L 610 272` fill=`none` stroke=`#0969da` stroke-width=`3` marker-end=`url(#arrow-blue)`/>
  <text x=`808` y=`262` fill=`#24292f` text-anchor=`middle` font-family=`DejaVu Sans, Arial, sans-serif` font-size=`14`>chunk-1 + upstream flush, then wait</text>
  <rect x=`488` y=`287` width=`224` height=`48` rx=`8` fill=`#fbefff` stroke=`#bf8fef`/>
  <text x=`600` y=`307` fill=`#6639ba` text-anchor=`middle` font-family=`DejaVu Sans, Arial, sans-serif` font-size=`13` font-weight=`700`>validate complete event</text>
  <text x=`600` y=`326` fill=`#6639ba` text-anchor=`middle` font-family=`DejaVu Sans, Arial, sans-serif` font-size=`12`>write exact bytes + flush</text>
  <path d=`M 590 354 L 195 354` fill=`none` stroke=`#8250df` stroke-width=`3` marker-end=`url(#arrow-purple)`/>
  <text x=`388` y=`344` fill=`#24292f` text-anchor=`middle` font-family=`DejaVu Sans, Arial, sans-serif` font-size=`14`>client reads complete chunk-1</text>
  <rect x=`55` y=`372` width=`260` height=`58` rx=`9` fill=`#dafbe1` stroke=`#1a7f37` stroke-width=`2`/>
  <text x=`185` y=`396` fill=`#1a7f37` text-anchor=`middle` font-family=`DejaVu Sans, Arial, sans-serif` font-size=`13` font-weight=`700`>proof gate satisfied</text>
  <text x=`185` y=`417` fill=`#57606a` text-anchor=`middle` font-family=`DejaVu Sans, Arial, sans-serif` font-size=`12`>chunk observed before release</text>
  <path d=`M 195 448 L 590 448` fill=`none` stroke=`#0969da` stroke-width=`3` marker-end=`url(#arrow-blue)`/>
  <text x=`388` y=`441` fill=`#24292f` text-anchor=`middle` font-family=`DejaVu Sans, Arial, sans-serif` font-size=`13`>SIGTERM, then release upstream</text>
  <path d=`M 1005 478 L 610 478` fill=`none` stroke=`#0969da` stroke-width=`3` marker-end=`url(#arrow-blue)`/>
  <text x=`808` y=`468` fill=`#24292f` text-anchor=`middle` font-family=`DejaVu Sans, Arial, sans-serif` font-size=`13`>chunk-2 + [DONE] + clean EOF</text>
  <path d=`M 590 508 L 195 508` fill=`none` stroke=`#8250df` stroke-width=`3` marker-end=`url(#arrow-purple)`/>
  <text x=`388` y=`498` fill=`#24292f` text-anchor=`middle` font-family=`DejaVu Sans, Arial, sans-serif` font-size=`13`>exact remainder; handled drain exits 0</text>

  <rect x=`40` y=`540` width=`1120` height=`82` rx=`12` fill=`#ffffff` stroke=`#d0d7de`/>
  <text x=`61` y=`567` fill=`#24292f` font-family=`DejaVu Sans, Arial, sans-serif` font-size=`14` font-weight=`700`>Observed order: chunk-1 -&gt; chunk-2 -&gt; [DONE] -&gt; clean-eof</text>
  <text x=`61` y=`592` fill=`#57606a` font-family=`DejaVu Sans, Arial, sans-serif` font-size=`13`>The channel handshake proves logical delivery before release; it does not claim TCP packet boundaries or zero physical read-ahead.</text>
  <text x=`61` y=`612` fill=`#57606a` font-family=`DejaVu Sans, Arial, sans-serif` font-size=`13`>Scope: one synthetic loopback run; no fairness, overload, public-edge TLS, GPU, telemetry, or real-model claim.</text>
</svg>
".

(** [docs/visuals/generated/architecture.svg], in parts *)
Definition publishedArchitecture : list Z :=
raw "<svg xmlns=`http://www.w3.org/2000/svg` width=`1600` height=`1120` viewBox=`0 0 1600 1120` role=`img` aria-labelledby=`title desc`>
  <title id=`title`>SSEmaphore implemented architecture</title>
  <desc id=`desc`>Implemented startup, bounded HTTP/1 admission, weighted deficit scheduling, fixed upstream transport, response validation, permit lifecycle, and signal drain boundaries. Future evidence systems are explicitly separated.</desc>
  <defs>
    <marker id=`architecture-arrow-blue` viewBox=`0 0 10 10` refX=`9` refY=`5` markerWidth=`7` markerHeight=`7` orient=`auto`>
      <path d=`M 0 0 L 10 5 L 0 10 z` fill=`#0969da`/>
    </marker>
    <marker id=`architecture-arrow-purple` viewBox=`0 0 10 10` refX=`9` refY=`5` markerWidth=`7` markerHeight=`7` orient=`auto`>
      <path d=`M 0 0 L 10 5 L 0 10 z` fill=`#8250df`/>
    </marker>
  </defs>
  <rect width=`1600` height=`1120` rx=`20` fill=`#f6f8fa`/>
  <text x=`42` y=`51` fill=`#24292f` font-family=`DejaVu Sans, Arial, sans-serif` font-size=`29` font-weight=`700`>SSEmaphore: implemented control and data boundaries</text>
  <text x=`42` y=`82` fill=`#57606a` font-family=`DejaVu Sans, Arial, sans-serif` font-size=`16`>Every solid box maps to runnable code; dashed scope at the bottom is deliberately outside the current implementation.</text>

  <rect x=`35` y=`104` width=`1530` height=`207` rx=`15` fill=`#ffffff` stroke=`#d0d7de` stroke-width=`2`/>
  <text x=`55` y=`137` fill=`#0550ae` font-family=`DejaVu Sans, Arial, sans-serif` font-size=`16` font-weight=`700`>1. STARTUP IS COMPLETE BEFORE LISTENER OWNERSHIP</text>

  <rect x=`55` y=`157` width=`275` height=`120` rx=`11` fill=`#ddf4ff` stroke=`#54aeff` stroke-width=`2`/>
  <text x=`192` y=`183` fill=`#0550ae` text-anchor=`middle` font-family=`DejaVu Sans, Arial, sans-serif` font-size=`15` font-weight=`700`>PRIVATE POLICY INPUT</text>
  <text x=`75` y=`207` fill=`#24292f` font-family=`DejaVu Sans, Arial, sans-serif` font-size=`13`>0600 schema-v2 policy</text>
  <text x=`75` y=`229` fill=`#24292f` font-family=`DejaVu Sans, Arial, sans-serif` font-size=`13`>exact credential env names</text>
  <text x=`75` y=`251` fill=`#57606a` font-family=`DejaVu Sans, Arial, sans-serif` font-size=`12`>strict, size-bounded JSON decode</text>

  <path d=`M 330 217 L 363 217` fill=`none` stroke=`#0969da` stroke-width=`3` marker-end=`url(#architecture-arrow-blue)`/>

  <rect x=`365` y=`157` width=`280` height=`120` rx=`11` fill=`#fbefff` stroke=`#bf8fef` stroke-width=`2`/>
  <text x=`505` y=`183` fill=`#6639ba` text-anchor=`middle` font-family=`DejaVu Sans, Arial, sans-serif` font-size=`15` font-weight=`700`>CONSUME SECRETS</text>
  <text x=`385` y=`207` fill=`#24292f` font-family=`DejaVu Sans, Arial, sans-serif` font-size=`13`>hash tenant credentials</text>
  <text x=`385` y=`229` fill=`#24292f` font-family=`DejaVu Sans, Arial, sans-serif` font-size=`12`>separate upstream bearer in transport</text>
  <text x=`385` y=`251` fill=`#57606a` font-family=`DejaVu Sans, Arial, sans-serif` font-size=`12`>consume and unset env before bind</text>

  <path d=`M 645 217 L 678 217` fill=`none` stroke=`#0969da` stroke-width=`3` marker-end=`url(#architecture-arrow-blue)`/>

  <rect x=`680` y=`157` width=`365` height=`120` rx=`11` fill=`#ffffff` stroke=`#8250df` stroke-width=`2`/>
  <text x=`862` y=`183` fill=`#6639ba` text-anchor=`middle` font-family=`DejaVu Sans, Arial, sans-serif` font-size=`15` font-weight=`700`>FULL PRE-BIND PREFLIGHT</text>
  <text x=`700` y=`207` fill=`#24292f` font-family=`DejaVu Sans, Arial, sans-serif` font-size=`13`>parser + scheduler + handler</text>
  <text x=`700` y=`229` fill=`#24292f` font-family=`DejaVu Sans, Arial, sans-serif` font-size=`13`>HTTP/1 upstream transport + server config</text>
  <text x=`700` y=`251` fill=`#57606a` font-family=`DejaVu Sans, Arial, sans-serif` font-size=`12`>construct, cross-check, and retain owned resources</text>

  <path d=`M 1045 217 C 1070 217 1067 190 1095 190` fill=`none` stroke=`#0969da` stroke-width=`3` marker-end=`url(#architecture-arrow-blue)`/>
  <path d=`M 1045 217 C 1080 217 1285 244 1320 244` fill=`none` stroke=`#8250df` stroke-width=`3` marker-end=`url(#architecture-arrow-purple)`/>

  <rect x=`1097` y=`153` width=`200` height=`76` rx=`10` fill=`#dafbe1` stroke=`#1a7f37` stroke-width=`2`/>
  <text x=`1197` y=`179` fill=`#1a7f37` text-anchor=`middle` font-family=`DejaVu Sans, Arial, sans-serif` font-size=`15` font-weight=`700`>validate</text>
  <text x=`1197` y=`200` fill=`#24292f` text-anchor=`middle` font-family=`DejaVu Sans, Arial, sans-serif` font-size=`12`>close prepared graph</text>
  <text x=`1197` y=`218` fill=`#57606a` text-anchor=`middle` font-family=`DejaVu Sans, Arial, sans-serif` font-size=`11`>no bind, signals, or upstream call</text>

  <rect x=`1322` y=`207` width=`220` height=`76` rx=`10` fill=`#fbefff` stroke=`#8250df` stroke-width=`2`/>
  <text x=`1432` y=`233` fill=`#6639ba` text-anchor=`middle` font-family=`DejaVu Sans, Arial, sans-serif` font-size=`15` font-weight=`700`>serve</text>
  <text x=`1432` y=`254` fill=`#24292f` text-anchor=`middle` font-family=`DejaVu Sans, Arial, sans-serif` font-size=`12`>subscribe, then bind</text>
  <text x=`1432` y=`272` fill=`#57606a` text-anchor=`middle` font-family=`DejaVu Sans, Arial, sans-serif` font-size=`11`>exact numeric loopback TCP</text>

  <rect x=`35` y=`329` width=`1530` height=`354` rx=`15` fill=`#ffffff` stroke=`#d0d7de` stroke-width=`2`/>
  <text x=`55` y=`363` fill=`#0550ae` font-family=`DejaVu Sans, Arial, sans-serif` font-size=`16` font-weight=`700`>2. REQUEST ADMISSION AND DISPATCH</text>

  <rect x=`55` y=`389` width=`280` height=`238` rx=`12` fill=`#ddf4ff` stroke=`#54aeff` stroke-width=`2`/>
  <text x=`195` y=`416` fill=`#0550ae` text-anchor=`middle` font-family=`DejaVu Sans, Arial, sans-serif` font-size=`14` font-weight=`700`>BOUNDED HTTP/1</text>
  <text x=`195` y=`437` fill=`#0550ae` text-anchor=`middle` font-family=`DejaVu Sans, Arial, sans-serif` font-size=`14` font-weight=`700`>LISTENER + HEADER GATE</text>
  <text x=`75` y=`466` fill=`#24292f` font-family=`DejaVu Sans, Arial, sans-serif` font-size=`12`>numeric-loopback listener</text>
  <text x=`75` y=`488` fill=`#24292f` font-family=`DejaVu Sans, Arial, sans-serif` font-size=`12`>connection + header bounds; deadlines</text>
  <text x=`75` y=`510` fill=`#24292f` font-family=`DejaVu Sans, Arial, sans-serif` font-size=`12`>exact path + POST method</text>
" ++
raw "  <text x=`75` y=`532` fill=`#24292f` font-family=`DejaVu Sans, Arial, sans-serif` font-size=`12`>bearer auth -&gt; immutable tenant</text>
  <text x=`75` y=`554` fill=`#24292f` font-family=`DejaVu Sans, Arial, sans-serif` font-size=`12`>media type + queue-timeout header</text>
  <text x=`75` y=`576` fill=`#24292f` font-family=`DejaVu Sans, Arial, sans-serif` font-size=`12`>Content-Length precheck</text>
  <text x=`75` y=`602` fill=`#57606a` font-family=`DejaVu Sans, Arial, sans-serif` font-size=`11`>HTTP/2 rejected; no body read yet</text>

  <path d=`M 335 508 L 353 508` fill=`none` stroke=`#0969da` stroke-width=`3` marker-end=`url(#architecture-arrow-blue)`/>

  <rect x=`355` y=`389` width=`230` height=`238` rx=`12` fill=`#fff8c5` stroke=`#bf8700` stroke-width=`2`/>
  <text x=`470` y=`416` fill=`#7d4e00` text-anchor=`middle` font-family=`DejaVu Sans, Arial, sans-serif` font-size=`14` font-weight=`700`>PREDISPATCH</text>
  <text x=`470` y=`437` fill=`#7d4e00` text-anchor=`middle` font-family=`DejaVu Sans, Arial, sans-serif` font-size=`14` font-weight=`700`>COUNT SLOTS</text>
  <text x=`375` y=`474` fill=`#7d4e00` font-family=`DejaVu Sans, Arial, sans-serif` font-size=`12` font-weight=`700`>nonblocking, count only</text>
  <text x=`375` y=`499` fill=`#24292f` font-family=`DejaVu Sans, Arial, sans-serif` font-size=`12`>tenant first, then global</text>
  <text x=`375` y=`524` fill=`#24292f` font-family=`DejaVu Sans, Arial, sans-serif` font-size=`12`>acquire before body read</text>
  <text x=`375` y=`549` fill=`#24292f` font-family=`DejaVu Sans, Arial, sans-serif` font-size=`11`>hold through Scheduler.Acquire</text>
  <text x=`375` y=`574` fill=`#24292f` font-family=`DejaVu Sans, Arial, sans-serif` font-size=`11`>release when Acquire returns</text>
  <text x=`375` y=`601` fill=`#57606a` font-family=`DejaVu Sans, Arial, sans-serif` font-size=`11`>no byte or work accounting</text>

  <path d=`M 585 508 L 603 508` fill=`none` stroke=`#0969da` stroke-width=`3` marker-end=`url(#architecture-arrow-blue)`/>

  <rect x=`605` y=`389` width=`285` height=`238` rx=`12` fill=`#ffffff` stroke=`#54aeff` stroke-width=`2`/>
  <text x=`747` y=`419` fill=`#0550ae` text-anchor=`middle` font-family=`DejaVu Sans, Arial, sans-serif` font-size=`14` font-weight=`700`>BOUNDED BODY + RESERVATION</text>
  <text x=`625` y=`458` fill=`#24292f` font-family=`DejaVu Sans, Arial, sans-serif` font-size=`12`>bounded body read + timeout</text>
  <text x=`625` y=`483` fill=`#24292f` font-family=`DejaVu Sans, Arial, sans-serif` font-size=`12`>strict Chat Completions JSON</text>
  <text x=`625` y=`508` fill=`#24292f` font-family=`DejaVu Sans, Arial, sans-serif` font-size=`12`>retain exact raw body bytes</text>
  <text x=`625` y=`533` fill=`#24292f` font-family=`DejaVu Sans, Arial, sans-serif` font-size=`12`>body + message/text limits</text>
  <text x=`625` y=`558` fill=`#24292f` font-family=`DejaVu Sans, Arial, sans-serif` font-size=`12`>checked reservation work units</text>
  <text x=`625` y=`590` fill=`#57606a` font-family=`DejaVu Sans, Arial, sans-serif` font-size=`11`>mode + downstream Flush check</text>

  <path d=`M 890 508 L 908 508` fill=`none` stroke=`#8250df` stroke-width=`3` marker-end=`url(#architecture-arrow-purple)`/>

  <rect x=`910` y=`389` width=`395` height=`238` rx=`12` fill=`#fbefff` stroke=`#8250df` stroke-width=`2`/>
  <text x=`1107` y=`419` fill=`#6639ba` text-anchor=`middle` font-family=`DejaVu Sans, Arial, sans-serif` font-size=`14` font-weight=`700`>Scheduler.Acquire + CONFIG-ORDER WDRR</text>
  <text x=`930` y=`448` fill=`#6639ba` font-family=`DejaVu Sans, Arial, sans-serif` font-size=`12` font-weight=`700`>absolute queue deadline fixed before mailbox</text>
  <text x=`930` y=`470` fill=`#24292f` font-family=`DejaVu Sans, Arial, sans-serif` font-size=`12`>tenant, then global queue checks</text>
  <text x=`930` y=`492` fill=`#24292f` font-family=`DejaVu Sans, Arial, sans-serif` font-size=`12`>count + exact body bytes + estimated work</text>
  <text x=`930` y=`514` fill=`#24292f` font-family=`DejaVu Sans, Arial, sans-serif` font-size=`12`>per-tenant FIFO; config-order weighted visits</text>
  <text x=`930` y=`536` fill=`#24292f` font-family=`DejaVu Sans, Arial, sans-serif` font-size=`12`>carried bounded deficit; empty queue resets it</text>
  <text x=`930` y=`558` fill=`#24292f` font-family=`DejaVu Sans, Arial, sans-serif` font-size=`12`>funded-head barrier when global work fragments</text>
  <text x=`930` y=`582` fill=`#6639ba` font-family=`DejaVu Sans, Arial, sans-serif` font-size=`12` font-weight=`700`>dispatch: tenant + global inflight count + work</text>
  <text x=`930` y=`604` fill=`#cf222e` font-family=`DejaVu Sans, Arial, sans-serif` font-size=`12` font-weight=`700`>NO INFLIGHT-BYTE COUNTER</text>

  <path d=`M 1305 508 L 1323 508` fill=`none` stroke=`#8250df` stroke-width=`3` marker-end=`url(#architecture-arrow-purple)`/>

  <rect x=`1325` y=`389` width=`220` height=`238` rx=`12` fill=`#dafbe1` stroke=`#1a7f37` stroke-width=`2`/>
  <text x=`1435` y=`419` fill=`#1a7f37` text-anchor=`middle` font-family=`DejaVu Sans, Arial, sans-serif` font-size=`15` font-weight=`700`>PERMIT</text>
  <text x=`1345` y=`456` fill=`#24292f` font-family=`DejaVu Sans, Arial, sans-serif` font-size=`13`>created after dispatch</text>
  <text x=`1345` y=`479` fill=`#24292f` font-family=`DejaVu Sans, Arial, sans-serif` font-size=`13`>owns cancel context</text>
  <text x=`1345` y=`502` fill=`#24292f` font-family=`DejaVu Sans, Arial, sans-serif` font-size=`13`>one upstream attempt</text>
  <text x=`1345` y=`533` fill=`#57606a` font-family=`DejaVu Sans, Arial, sans-serif` font-size=`12`>capacity remains charged</text>
  <text x=`1345` y=`554` fill=`#57606a` font-family=`DejaVu Sans, Arial, sans-serif` font-size=`12`>until terminal Finish</text>
  <text x=`1345` y=`585` fill=`#1a7f37` font-family=`DejaVu Sans, Arial, sans-serif` font-size=`12` font-weight=`700`>worker becomes sole owner</text>

  <rect x=`35` y=`701` width=`1530` height=`257` rx=`15` fill=`#ffffff` stroke=`#d0d7de` stroke-width=`2`/>
  <text x=`55` y=`735` fill=`#0550ae` font-family=`DejaVu Sans, Arial, sans-serif` font-size=`16` font-weight=`700`>3. UPSTREAM RESPONSE AND EXACT-ONCE TERMINAL ACCOUNTING</text>

  <path d=`M 1435 627 L 1435 758` fill=`none` stroke=`#8250df` stroke-width=`3` marker-end=`url(#architecture-arrow-purple)`/>

  <rect x=`1200` y=`757` width=`345` height=`173` rx=`12` fill=`#ddf4ff` stroke=`#54aeff` stroke-width=`2`/>
" ++
raw "  <text x=`1372` y=`784` fill=`#0550ae` text-anchor=`middle` font-family=`DejaVu Sans, Arial, sans-serif` font-size=`15` font-weight=`700`>FIXED HTTP/1 UPSTREAM POST</text>
  <text x=`1220` y=`809` fill=`#24292f` font-family=`DejaVu Sans, Arial, sans-serif` font-size=`12`>no redirect, replay, proxy, or compression</text>
  <text x=`1220` y=`832` fill=`#24292f` font-family=`DejaVu Sans, Arial, sans-serif` font-size=`12`>exact application header allowlist:</text>
  <text x=`1220` y=`854` fill=`#0550ae` font-family=`DejaVu Sans Mono, ui-monospace, monospace` font-size=`11` font-weight=`700`>Accept | Authorization</text>
  <text x=`1220` y=`873` fill=`#0550ae` font-family=`DejaVu Sans Mono, ui-monospace, monospace` font-size=`11` font-weight=`700`>Content-Type | User-Agent</text>
  <text x=`1220` y=`902` fill=`#57606a` font-family=`DejaVu Sans, Arial, sans-serif` font-size=`11`>Content-Length is separate transport framing.</text>

  <path d=`M 1200 794 L 1137 794` fill=`none` stroke=`#0969da` stroke-width=`3` marker-end=`url(#architecture-arrow-blue)`/>
  <path d=`M 1200 873 L 1137 873` fill=`none` stroke=`#8250df` stroke-width=`3` marker-end=`url(#architecture-arrow-purple)`/>

  <rect x=`660` y=`754` width=`475` height=`82` rx=`10` fill=`#dafbe1` stroke=`#1a7f37` stroke-width=`2`/>
  <text x=`680` y=`779` fill=`#1a7f37` font-family=`DejaVu Sans, Arial, sans-serif` font-size=`14` font-weight=`700`>BUFFERED RESPONSE</text>
  <text x=`680` y=`802` fill=`#24292f` font-family=`DejaVu Sans, Arial, sans-serif` font-size=`12`>bound + parse one chat.completion; close + recheck</text>
  <text x=`680` y=`821` fill=`#24292f` font-family=`DejaVu Sans, Arial, sans-serif` font-size=`12`>then commit 200; relay no upstream headers</text>

  <rect x=`660` y=`846` width=`475` height=`84` rx=`10` fill=`#fbefff` stroke=`#8250df` stroke-width=`2`/>
  <text x=`680` y=`871` fill=`#6639ba` font-family=`DejaVu Sans, Arial, sans-serif` font-size=`14` font-weight=`700`>SSE RESPONSE</text>
  <text x=`680` y=`894` fill=`#24292f` font-family=`DejaVu Sans, Arial, sans-serif` font-size=`12`>validate complete event -&gt; write + flush -&gt; decode next</text>
  <text x=`680` y=`915` fill=`#57606a` font-family=`DejaVu Sans, Arial, sans-serif` font-size=`11`>hold [DONE] until clean EOF and successful body close</text>

  <path d=`M 660 794 L 598 794` fill=`none` stroke=`#0969da` stroke-width=`3` marker-end=`url(#architecture-arrow-blue)`/>
  <path d=`M 660 873 L 598 873` fill=`none` stroke=`#8250df` stroke-width=`3` marker-end=`url(#architecture-arrow-purple)`/>

  <rect x=`55` y=`757` width=`540` height=`173` rx=`12` fill=`#ffffff` stroke=`#1a7f37` stroke-width=`2`/>
  <text x=`325` y=`784` fill=`#1a7f37` text-anchor=`middle` font-family=`DejaVu Sans, Arial, sans-serif` font-size=`15` font-weight=`700`>Permit.Finish: EXACTLY ONCE</text>
  <text x=`75` y=`813` fill=`#24292f` font-family=`DejaVu Sans, Arial, sans-serif` font-size=`12`>serialized terminal enum owns the final outcome</text>
  <text x=`75` y=`835` fill=`#24292f` font-family=`DejaVu Sans, Arial, sans-serif` font-size=`12`>a later goroutine cannot replace it</text>
  <text x=`75` y=`860` fill=`#24292f` font-family=`DejaVu Sans, Arial, sans-serif` font-size=`12`>debit tenant + global inflight count and work; release capacity once</text>
  <text x=`75` y=`885` fill=`#24292f` font-family=`DejaVu Sans, Arial, sans-serif` font-size=`11`>completion, cancellation, upstream/downstream failure, internal failure, or shutdown</text>
  <text x=`75` y=`910` fill=`#57606a` font-family=`DejaVu Sans, Arial, sans-serif` font-size=`11`>permit stays charged through drain until its worker records terminal state</text>

  <text x=`55` y=`944` fill=`#57606a` font-family=`DejaVu Sans, Arial, sans-serif` font-size=`11`>Physical read-ahead is bounded by min(4 KiB, event+1, total+1), plus transport and kernel buffering; this is not a zero-read-ahead claim.</text>

  <rect x=`35` y=`979` width=`850` height=`111` rx=`13` fill=`#fff8c5` stroke=`#bf8700` stroke-width=`2` stroke-dasharray=`9 7`/>
  <text x=`55` y=`1008` fill=`#7d4e00` font-family=`DejaVu Sans, Arial, sans-serif` font-size=`15` font-weight=`700`>FUTURE - NOT IMPLEMENTED</text>
  <text x=`55` y=`1036` fill=`#24292f` font-family=`DejaVu Sans, Arial, sans-serif` font-size=`13`>telemetry, lifecycle journal, and restart reconciliation</text>
  <text x=`55` y=`1061` fill=`#24292f` font-family=`DejaVu Sans, Arial, sans-serif` font-size=`13`>published load, RSS, and service-ratio evidence</text>
  <text x=`470` y=`1036` fill=`#57606a` font-family=`DejaVu Sans, Arial, sans-serif` font-size=`12`>No box above implies these systems or claims.</text>

  <rect x=`915` y=`979` width=`650` height=`111` rx=`13` fill=`#ffffff` stroke=`#8250df` stroke-width=`2`/>
  <text x=`935` y=`1007` fill=`#6639ba` font-family=`DejaVu Sans, Arial, sans-serif` font-size=`15` font-weight=`700`>SIGNAL DRAIN RAIL</text>
  <line x1=`965` y1=`1047` x2=`1515` y2=`1047` stroke=`#8250df` stroke-width=`3` marker-end=`url(#architecture-arrow-purple)`/>
  <circle cx=`985` cy=`1047` r=`7` fill=`#8250df`/>
  <circle cx=`1125` cy=`1047` r=`7` fill=`#8250df`/>
  <circle cx=`1315` cy=`1047` r=`7` fill=`#8250df`/>
  <text x=`985` y=`1035` fill=`#24292f` text-anchor=`middle` font-family=`DejaVu Sans, Arial, sans-serif` font-size=`11`>SIGINT / SIGTERM</text>
  <text x=`1125` y=`1035` fill=`#24292f` text-anchor=`middle` font-family=`DejaVu Sans, Arial, sans-serif` font-size=`11`>BeginDrain</text>
  <text x=`1315` y=`1035` fill=`#24292f` text-anchor=`middle` font-family=`DejaVu Sans, Arial, sans-serif` font-size=`10`>HTTP Shutdown closes listener</text>
  <text x=`1480` y=`1027` fill=`#24292f` text-anchor=`middle` font-family=`DejaVu Sans, Arial, sans-serif` font-size=`9`>handlers + WaitDrained</text>
  <text x=`1480` y=`1038` fill=`#24292f` text-anchor=`middle` font-family=`DejaVu Sans, Arial, sans-serif` font-size=`9`>then scheduler Close</text>
  <text x=`935` y=`1078` fill=`#57606a` font-family=`DejaVu Sans, Arial, sans-serif` font-size=`10`>Grace failure: ForceCancelInflight -&gt; base cancel + HTTP Close -&gt; handlers + WaitDrained -&gt; scheduler Close</text>
</svg>
".

(** [docs/visuals/generated/setup-workflow.svg] *)
Definition publishedSetup : list Z := raw "<svg xmlns=`http://www.w3.org/2000/svg` width=`1400` height=`650` viewBox=`0 0 1400 650` role=`img` aria-labelledby=`title desc`>
  <title id=`title`>SSEmaphore secure setup workflow</title>
  <desc id=`desc`>Six numbered cards show the Linux build, private policy installation, schema review, runtime-only credential names, side-effect-free validation, and buffered or streaming service flow through handled signal drain.</desc>
  <style>
    .title { font-family: `DejaVu Sans`, sans-serif; fill: #f0f6fc; }
    .header-muted { font-family: `DejaVu Sans`, sans-serif; fill: #8c959f; }
    .text { font-family: `DejaVu Sans`, sans-serif; fill: #24292f; }
    .muted { font-family: `DejaVu Sans`, sans-serif; fill: #57606a; }
    .code { font-family: `DejaVu Sans Mono`, ui-monospace, monospace; fill: #0d1117; }
    .card { fill: #ffffff; stroke: #d0d7de; stroke-width: 2; }
    .step { fill: #0969da; }
    .flow { fill: none; stroke: #0969da; stroke-width: 2.5; }
  </style>
  <rect width=`1400` height=`650` rx=`20` fill=`#0d1117`/>
  <rect x=`0` y=`84` width=`1400` height=`566` fill=`#f6f8fa`/>
  <text x=`40` y=`42` class=`title` font-size=`28` font-weight=`700`>SSEmaphore: secure local setup to handled drain</text>
  <text x=`40` y=`69` class=`header-muted` font-size=`15`>Six repository-backed steps; credentials remain runtime-only and the listener remains numeric-loopback-only.</text>

  <rect x=`40` y=`105` width=`426` height=`205` rx=`14` class=`card`/>
  <circle cx=`73` cy=`139` r=`20` class=`step`/>
  <text x=`73` y=`146` class=`title` text-anchor=`middle` font-size=`19` font-weight=`700`>1</text>
  <text x=`105` y=`146` class=`text` font-size=`20` font-weight=`700`>Build on Linux</text>
  <text x=`61` y=`178` class=`muted` font-size=`15`>Linux toolchain: Go 1.26.5</text>
  <rect x=`61` y=`193` width=`384` height=`88` rx=`9` fill=`#f6f8fa` stroke=`#afb8c1`/>
  <text x=`78` y=`214` class=`code` font-size=`13`>$ export GOTOOLCHAIN=go1.26.5</text>
  <text x=`78` y=`239` class=`code` font-size=`13`>$ mkdir -p bin</text>
  <text x=`78` y=`264` class=`code` font-size=`13`>$ go build -o bin/ssemaphore ./cmd/ssemaphore</text>
  <text x=`61` y=`298` class=`muted` font-size=`13`>Produces the repository's single gateway binary.</text>

  <rect x=`487` y=`105` width=`426` height=`205` rx=`14` class=`card`/>
  <circle cx=`520` cy=`139` r=`20` class=`step`/>
  <text x=`520` y=`146` class=`title` text-anchor=`middle` font-size=`19` font-weight=`700`>2</text>
  <text x=`552` y=`146` class=`text` font-size=`20` font-weight=`700`>Install a private policy</text>
  <text x=`508` y=`180` class=`text` font-size=`15` font-weight=`700`>Private directory</text>
  <text x=`875` y=`180` class=`text` text-anchor=`end` font-size=`15`>mode 0700</text>
  <line x1=`508` y1=`191` x2=`892` y2=`191` stroke=`#d8dee4`/>
  <text x=`508` y=`217` class=`text` font-size=`15` font-weight=`700`>Policy file</text>
  <text x=`875` y=`217` class=`text` text-anchor=`end` font-size=`15`>exact mode 0600</text>
  <line x1=`508` y1=`228` x2=`892` y2=`228` stroke=`#d8dee4`/>
  <text x=`508` y=`254` class=`text` font-size=`14`>Absolute, clean, regular path</text>
  <text x=`508` y=`278` class=`text` font-size=`14`>Owned by the process user; no symlink components</text>
  <text x=`508` y=`299` class=`muted` font-size=`13`>Start from configs/policy.example.json.</text>

  <rect x=`934` y=`105` width=`426` height=`205` rx=`14` class=`card`/>
  <circle cx=`967` cy=`139` r=`20` class=`step`/>
  <text x=`967` y=`146` class=`title` text-anchor=`middle` font-size=`19` font-weight=`700`>3</text>
  <text x=`999` y=`146` class=`text` font-size=`20` font-weight=`700`>Review schema 2</text>
  <text x=`955` y=`178` class=`text` font-size=`14`>numeric loopback listener + fixed port</text>
  <text x=`955` y=`201` class=`text` font-size=`14`>contract and HTTP/SSE limits</text>
  <text x=`955` y=`224` class=`text` font-size=`14`>global + tenant queue/inflight limits</text>
  <text x=`955` y=`247` class=`text` font-size=`14`>tenant weights and pre-dispatch bounds</text>
  <text x=`955` y=`270` class=`text` font-size=`14`>upstream endpoint + transport bounds</text>
  <text x=`955` y=`293` class=`text` font-size=`14`>server timeouts + connection limit</text>

  <rect x=`40` y=`330` width=`426` height=`205` rx=`14` class=`card`/>
  <circle cx=`73` cy=`364` r=`20` class=`step`/>
  <text x=`73` y=`371` class=`title` text-anchor=`middle` font-size=`19` font-weight=`700`>4</text>
  <text x=`105` y=`371` class=`text` font-size=`19` font-weight=`700`>Supply runtime-only credentials</text>
  <text x=`61` y=`401` class=`muted` font-size=`13`>Use only the names committed in the example policy:</text>
  <rect x=`61` y=`413` width=`384` height=`82` rx=`9` fill=`#f6f8fa` stroke=`#afb8c1`/>
  <text x=`76` y=`437` class=`code` font-size=`13`>SSEMAPHORE_TENANT_1_TOKEN</text>
  <text x=`76` y=`459` class=`code` font-size=`13`>SSEMAPHORE_TENANT_2_TOKEN</text>
  <text x=`76` y=`481` class=`code` font-size=`13`>SSEMAPHORE_UPSTREAM_BEARER_TOKEN</text>
  <text x=`61` y=`519` class=`muted` font-size=`13`>Values are never stored in policy; all three must be distinct.</text>

  <rect x=`487` y=`330` width=`426` height=`205` rx=`14` class=`card`/>
  <circle cx=`520` cy=`364` r=`20` class=`step`/>
  <text x=`520` y=`371` class=`title` text-anchor=`middle` font-size=`19` font-weight=`700`>5</text>
  <text x=`552` y=`371` class=`text` font-size=`20` font-weight=`700`>Validate without binding</text>
  <rect x=`508` y=`391` width=`384` height=`75` rx=`9` fill=`#f6f8fa` stroke=`#afb8c1`/>
  <text x=`522` y=`417` class=`code` font-size=`12`>$ ./bin/ssemaphore validate --config `$POLICY_PATH`</text>
  <text x=`522` y=`448` font-family=`DejaVu Sans, sans-serif` fill=`#1a7f37` font-size=`14` font-weight=`700`>gateway policy is valid</text>
  <rect x=`508` y=`480` width=`181` height=`34` rx=`17` fill=`#dafbe1`/>
  <text x=`598` y=`502` class=`text` text-anchor=`middle` font-size=`13`>no listener bind</text>
  <rect x=`701` y=`480` width=`191` height=`34` rx=`17` fill=`#dafbe1`/>
  <text x=`796` y=`502` class=`text` text-anchor=`middle` font-size=`13`>no DNS or outbound dial</text>

  <rect x=`934` y=`330` width=`426` height=`205` rx=`14` class=`card`/>
  <circle cx=`967` cy=`364` r=`20` class=`step`/>
  <text x=`967` y=`371` class=`title` text-anchor=`middle` font-size=`19` font-weight=`700`>6</text>
  <text x=`999` y=`371` class=`text` font-size=`20` font-weight=`700`>Serve, call, then drain</text>
  <text x=`955` y=`403` class=`code` font-size=`12`>$ ./bin/ssemaphore serve --config `$POLICY_PATH`</text>
  <rect x=`955` y=`424` width=`72` height=`58` rx=`8` fill=`#ddf4ff` stroke=`#54aeff`/>
  <text x=`991` y=`458` class=`text` text-anchor=`middle` font-size=`13` font-weight=`700`>serve</text>
  <path d=`M 1027 453 L 1062 453` class=`flow`/>
  <path d=`M 1055 447 L 1062 453 L 1055 459` class=`flow`/>
  <rect x=`1063` y=`414` width=`112` height=`35` rx=`7` fill=`#ffffff` stroke=`#54aeff`/>
  <text x=`1119` y=`437` class=`text` text-anchor=`middle` font-size=`12`>buffered call</text>
  <rect x=`1063` y=`458` width=`112` height=`35` rx=`7` fill=`#ffffff` stroke=`#54aeff`/>
  <text x=`1119` y=`481` class=`text` text-anchor=`middle` font-size=`12`>streaming call</text>
  <path d=`M 1175 432 L 1190 432 L 1190 453 L 1204 453` class=`flow`/>
  <path d=`M 1175 476 L 1190 476 L 1190 453` class=`flow`/>
  <path d=`M 1197 447 L 1204 453 L 1197 459` class=`flow`/>
  <rect x=`1205` y=`424` width=`134` height=`58` rx=`8` fill=`#fbefff` stroke=`#bf8fef`/>
  <text x=`1272` y=`448` class=`text` text-anchor=`middle` font-size=`12` font-weight=`700`>SIGINT / SIGTERM</text>
  <text x=`1272` y=`468` class=`text` text-anchor=`middle` font-size=`12`>handled drain</text>
  <text x=`955` y=`516` class=`muted` font-size=`13`>Completed handled shutdown exits 0.</text>

  <rect x=`40` y=`555` width=`1320` height=`70` rx=`12` fill=`#ffffff` stroke=`#d0d7de`/>
  <text x=`61` y=`582` class=`text` font-size=`14` font-weight=`700`>Sources: .go-version + go.mod + configs/policy.example.json + docs/running.md</text>
  <text x=`61` y=`606` class=`muted` font-size=`14`>Replace the example upstream endpoint before serving. Remote upstreams require HTTPS; the local listener stays numeric-loopback-only.</text>
</svg>
".
