(* ===== verification/VisTheorems.v ===== *)
(** * README visuals: the theorems

    What the published evidence and pictures stand on: a report of the harness is accepted
    exactly when it is the published one, the artifacts that are drawn of it are byte for
    byte the published ones, nothing is published that the guard forbids,
    and the tool neither leaves handles open nor leaves an artifact half written. *)

From S2P Require Import Prelude GoJson JsonGrammar GoSha256 GoMarshal GoText HttpUpstream SatWorkload SatSeeded SatOracle SatSchedule.
From S2P Require Import SatReport SatAudit SatClient SatHarness SatBench SatMain SatTheorems AppPolicyFile VisEvidence VisRender VisFs VisMain VisPublished.

(** The eleven artifacts, as they are in the repository. *)
Definition saturationFiles (evidence summary terminal outcomes dispatches : gostring) : artifacts := list_to_map [
  (visualSaturationEvidenceName, evidence); (visualSaturationSummaryName, summary);
  (visualSaturationTerminalName, terminal); (visualSaturationOutcomesName, outcomes);
  (visualSaturationDispatchName, dispatches)].
Definition loopbackFiles (evidence summary terminal sequence architecture setup : gostring) : artifacts := list_to_map [
  (visualEvidenceJSONName, evidence); (visualSummaryName, summary); (visualTerminalName, terminal);
  (visualSequenceName, sequence); (visualArchitectureName, architecture); (visualSetupName, setup)].

Definition publishedArtifacts : artifacts :=
  saturationFiles publishedSaturationEvidence publishedSaturationSummary publishedSaturationTerminal
    publishedSaturationOutcomes publishedSaturationDispatch
  ∪ loopbackFiles publishedEvidence publishedSummary publishedTerminal publishedSequence
      publishedArchitecture publishedSetup.

(** The loopback evidence that is valid: there is one. *)
Definition publishedDemo : demoEvidence :=
  mkDemo (bs "go1.26.5") (bs "linux") (bs "gateway policy is valid" ++ [c_lf]) true 0 0 200 1 true true 200 1
    [bs "chunk-1"; bs "chunk-2"; bs "[DONE]"; bs "clean-eof"] true true true true true true true true true true 0 true 2.

Lemma equalStrings_true these : forall those, equalStrings these those = true -> these = those.
Proof.
  induction these as [|a these IH]; intros [|b those]; cbn [equalStrings]; try done. intros H. breflect. subst. f_equal. by apply IH.
Qed.

Lemma demo_unique evidence : validateDemoEvidence evidence = None -> evidence = publishedDemo.
Proof.
  unfold validateDemoEvidence.
  repeat match goal with |- (if ?b then Some _ else _) = None -> _ => destruct b eqn:?; [discriminate|] end. intros _.
  repeat match goal with
  | H : (_ || _) = false |- _ => apply orb_false_iff in H; destruct H
  | H : negb _ = false |- _ => apply negb_false_iff in H
  | H : bool_decide _ = true |- _ => apply bool_decide_eq_true in H
  | H : (_ =? _) = true |- _ => apply Z.eqb_eq in H
  | H : equalStrings _ _ = true |- _ => apply equalStrings_true in H
  end.
  destruct evidence; cbn in *; subst; reflexivity.
Qed.

(** The evidence of the published run, for a plan of dispatches. *)
Definition planEvidence (observed : list dispatchRecord) : saturationVisualEvidence :=
  mkVisualEvidence visualSaturationSchema visualSaturationScope visualExpectedGo visualExpectedOS (bs "amd64") false false
    (evidence visualSaturationSeed observed) visualDigestExpected.

(** What is drawn of it, compared with the files. *)
Definition drawnAsPublished (e : saturationVisualEvidence) : bool :=
  bool_decide (marshalIndent 0 (saturationVisualEvidence_json e) ++ [c_lf] = publishedSaturationEvidence)
  && bool_decide (renderSaturationSummary e = publishedSaturationSummary)
  && bool_decide (renderSaturationTerminalSVG publishedSaturationSummary = publishedSaturationTerminal)
  && match renderSaturationOutcomesSVG e with Done svg => bool_decide (svg = publishedSaturationOutcomes) | _ => false end
  && match renderSaturationDispatchSVG e with Done svg => bool_decide (svg = publishedSaturationDispatch) | _ => false end.

Lemma plan_drawn w plan :
  match ciProfile with Some profile => buildSeededWorkload 20260725 profile = Done (Ok w) | None => False end ->
  expectedDispatchPlan w = Done (Ok plan) -> drawnAsPublished (planEvidence (map od_record plan)) = true.
Proof.
  assert (H : match ciProfile with
              | Some profile =>
                  match buildSeededWorkload 20260725 profile with
                  | Done (Ok w) =>
                      match expectedDispatchPlan w with
                      | Done (Ok plan) => drawnAsPublished (planEvidence (map od_record plan))
                      | _ => false end
                  | _ => false end
              | None => false end = true) by (vm_cast_no_check (eq_refl true)).
  revert H. destruct ciProfile as [profile|]; [|done]. intros H Hb Hp. by rewrite Hb, Hp in H.
Qed.

Lemma demo_drawn :
  bool_decide (marshalIndent 0 (evidenceDocument publishedDemo) ++ [c_lf] = publishedEvidence)
  && bool_decide (renderEvidenceSummary publishedDemo = publishedSummary)
  && bool_decide (renderTerminalSVG publishedSummary = publishedTerminal)
  && bool_decide (renderSequenceSVG publishedDemo = publishedSequence)
  && bool_decide (renderArchitectureSVG = publishedArchitecture)
  && bool_decide (renderSetupWorkflowSVG = publishedSetup) = true.
Proof. vm_cast_no_check (eq_refl true). Qed.

(** None of the files is held back. *)
Definition saturationTexts : list gostring := [publishedSaturationEvidence; publishedSaturationSummary;
  publishedSaturationTerminal; publishedSaturationOutcomes; publishedSaturationDispatch].
Definition loopbackTexts : list gostring := [publishedEvidence; publishedSummary; publishedTerminal; publishedSequence;
  publishedArchitecture; publishedSetup].
Definition publishedTexts : list gostring := saturationTexts ++ loopbackTexts.

Lemma texts_publishable : forallb (fun text => match ensureVisualPublishable text with None => true | Some _ => false end) publishedTexts = true.
Proof. vm_cast_no_check (eq_refl true). Qed.

Lemma firstUnpublishable_none files : (forall name payload, (name, payload) ∈ files -> ensureVisualPublishable payload = None) ->
  firstUnpublishable files = None.
Proof.
  induction files as [|[name payload] files IH]; intros Hf; cbn [firstUnpublishable]; [done|]. rewrite (Hf name payload) by left.
  apply IH. intros n p Hin. apply (Hf n p). by right.
Qed.

Lemma publishable_in (files : artifacts) : (forall name payload, files !! name = Some payload -> payload ∈ publishedTexts) ->
  firstUnpublishable (map_to_list files) = None.
Proof.
  intros Hf. apply firstUnpublishable_none. intros name payload Hin%elem_of_map_to_list%Hf.
  pose proof (proj1 (forallb_forall _ _) texts_publishable payload (proj1 (list_elem_of_In _ _) Hin)) as H.
  cbv beta in H. destruct (ensureVisualPublishable payload); [discriminate H|reflexivity].
Qed.

(** What a map made of a list holds is in the list. *)
Lemma list_to_map_in (files : list (gostring * gostring)) name payload :
  (list_to_map files : artifacts) !! name = Some payload -> payload ∈ map snd files.
Proof. intros Hp%elem_of_list_to_map_2. apply list_elem_of_In. exact (in_map snd _ (name, payload) (proj1 (list_elem_of_In _ _) Hp)). Qed.

Lemma saturation_in a b c d e name payload : saturationFiles a b c d e !! name = Some payload -> payload ∈ [a; b; c; d; e].
Proof. exact (list_to_map_in _ name payload). Qed.

Lemma loopback_in f g h i j k name payload : loopbackFiles f g h i j k !! name = Some payload -> payload ∈ [f; g; h; i; j; k].
Proof. exact (list_to_map_in _ name payload). Qed.

(** The names are all different. *)
Lemma names_apart a b c d e f g h i j k :
  existsb (fun name => bool_decide (is_Some (loopbackFiles f g h i j k !! name))) (map fst (map_to_list (saturationFiles a b c d e))) = false.
Proof. by vm_compute. Qed.

Lemma loopback_drawn : loopbackArtifacts publishedDemo = loopbackFiles publishedEvidence publishedSummary publishedTerminal publishedSequence
  publishedArchitecture publishedSetup.
Proof.
  destruct (proj1 (andb_true_iff _ _) demo_drawn) as [H Hw]. apply andb_true_iff in H as [H Ha]. apply andb_true_iff in H as [H Hq].
  apply andb_true_iff in H as [H Ht]. apply andb_true_iff in H as [He Hs]. apply bool_decide_eq_true in He, Hs, Ht, Hq, Ha, Hw.
  unfold loopbackArtifacts, loopbackFiles. cbv zeta. rewrite He, Hs, Ht, Hq, Ha, Hw. reflexivity.
Qed.

(** The artifacts of the published evidence. *)
Lemma plan_artifacts e : validateSaturationVisualEvidence e = Ok tt -> drawnAsPublished e = true ->
  renderedArtifacts publishedDemo e = Done (Ok publishedArtifacts).
Proof.
  intros Hv Hd. unfold drawnAsPublished in Hd. do 4 apply andb_true_iff in Hd as [Hd ?].
  rename Hd into He, H into Hp, H0 into Ho, H1 into Ht, H2 into Hs. apply bool_decide_eq_true in He, Hs, Ht.
  assert (Hb : buildSaturationVisualArtifacts e = Done (Ok (saturationFiles publishedSaturationEvidence publishedSaturationSummary
    publishedSaturationTerminal publishedSaturationOutcomes publishedSaturationDispatch))).
  { unfold buildSaturationVisualArtifacts. rewrite Hv, He, Hs, Ht.
    destruct (renderSaturationOutcomesSVG e) as [outcomes| |]; try discriminate Ho. apply bool_decide_eq_true in Ho as ->.
    destruct (renderSaturationDispatchSVG e) as [dispatches| |]; try discriminate Hp. apply bool_decide_eq_true in Hp as ->.
    cbv zeta. fold (saturationFiles publishedSaturationEvidence publishedSaturationSummary publishedSaturationTerminal
      publishedSaturationOutcomes publishedSaturationDispatch). rewrite publishable_in; [reflexivity|].
    intros name payload Hl. apply elem_of_app. left. exact (saturation_in _ _ _ _ _ name payload Hl). }
  unfold renderedArtifacts. rewrite Hb, loopback_drawn. cbv zeta. rewrite names_apart.
  change (saturationFiles _ _ _ _ _ ∪ loopbackFiles _ _ _ _ _ _) with publishedArtifacts.
  rewrite publishable_in; [reflexivity|]. intros name payload Hl. unfold publishedArtifacts in Hl.
  apply lookup_union_Some_raw in Hl as [Hl|[_ Hl]]; apply elem_of_app;
    [left; exact (saturation_in _ _ _ _ _ name payload Hl)|right; exact (loopback_in _ _ _ _ _ _ name payload Hl)].
Qed.

(** ** The published run *)

(** A run of the published seed that reports, from the expected build. *)
Lemma run_accepted (B : Bench) (urlParse : list Z -> option parsedURL) (urlString : parsedURL -> list Z)
    (build : goBuild) (profile : saturationProfile) (live : bool) (report : saturationReport) (h' : harness) :
  profileByName ciProfileName = Ok profile -> patient bench_lab ->
  runSaturationHarness urlParse urlString build profile live 20260725 (mkHarness [] ∅) = Done (Ok report, h') ->
  expectedBuild report ->
  consistent report /\ visual_accepted report /\ exists w plan,
    match ciProfile with Some profile => buildSeededWorkload 20260725 profile = Done (Ok w) | None => False end
    /\ expectedDispatchPlan w = Done (Ok plan) /\ sv_Observed (rp_Service report) = map od_record plan.
Proof.
  intros Hci Hpatient Hrun Hbuild. destruct (ci_planned profile 20260725 Hci) as (w & plan & [Hb Hp] & Hs & Hu).
  destruct (run_ends B Hpatient urlParse urlString build profile live 20260725 w plan Hb Hp Hu (mkHarness [] ∅))
    as (r & h & Hrun' & Hr). rewrite Hrun in Hrun'. injection Hrun' as <- <-. destruct Hr as (Hc & Hseed & Hobs).
  assert (Hciw : match ciProfile with Some profile => buildSeededWorkload 20260725 profile = Done (Ok w) | None => False end)
    by (injection Hci as <-; exact Hb).
  rewrite Hs in Hseed. split; [exact Hc|]. split.
  - split; [exact Hseed|]. split; [exact Hbuild|]. rewrite (cn_digest _ Hc), Hseed, Hobs. cbn [ce_Digest].
    exact (published_digest w plan Hciw Hp).
  - exists w, plan. split; [exact Hciw|]. split; [exact Hp|exact Hobs].
Qed.

(** C14: the files in the repository follow from the program. Every run of the harness with
    the published seed that reports, on whatever machine and gateway but from the expected
    build, writes a text that the tool decodes to that same report; the evidence of the
    report, drawn together with any loopback evidence that is valid, gives the eleven
    artifacts of [docs/visuals/generated] (all its files but the manifest of their
    digests), byte for byte. *)
Theorem vis_artifacts_published (B : Bench) (urlParse : list Z -> option parsedURL) (urlString : parsedURL -> list Z)
    (build : goBuild) (profile : saturationProfile) (live : bool) (report : saturationReport) (h' : harness) (demo : demoEvidence) :
  profileByName ciProfileName = Ok profile -> patient bench_lab ->
  runSaturationHarness urlParse urlString build profile live 20260725 (mkHarness [] ∅) = Done (Ok report, h') ->
  typed_report report -> expectedBuild report -> validateDemoEvidence demo = None ->
  exists text e, marshalReport report = Done (Ok text) /\ decodeSaturationVisualReport text = Done (Ok report)
    /\ saturationVisualEvidenceFromReport report = Done (Ok e)
    /\ renderedArtifacts demo e = Done (Ok publishedArtifacts).
Proof.
  intros Hci Hpatient Hrun Ht Hbuild ->%demo_unique.
  destruct (run_accepted B urlParse urlString build profile live report h' Hci Hpatient Hrun Hbuild) as (Hc & Hacc & w & plan & Hw & Hp & Hobs).
  exists (marshal (saturationReport_json report) ++ [10]), (planEvidence (map od_record plan)).
  assert (He : saturationVisualEvidenceFromReport report = Done (Ok (planEvidence (map od_record plan))))
    by (rewrite <- Hobs; exact (visual_evidence report Hc Ht Hacc)).
  split; [destruct (marshalReport_writes report Ht) as [(_ & Hm & _)|[Hno _]]; [exact Hm|destruct (Hno Hc)]|].
  split; [destruct (visual_decodes report Hc Ht) as [[_ Hd]|[Hno _]]; [exact Hd|destruct (Hno Hacc)]|]. split; [exact He|].
  apply plan_artifacts; [|exact (plan_drawn w plan Hw Hp)].
  destruct (evidence_total report) as (r & Hr & Hok). rewrite He in Hr. injection Hr as <-. exact (proj2 Hok).
Qed.

Lemma vis_artifacts_published_witness : exists (B : Bench) profile report h' text e,
  runSaturationHarness (fun _ => Some loopback_url) (fun _ => []) some_build profile true 20260725 (mkHarness [] ∅)
  = Done (Ok report, h')
  /\ marshalReport report = Done (Ok text) /\ decodeSaturationVisualReport text = Done (Ok report)
  /\ saturationVisualEvidenceFromReport report = Done (Ok e)
  /\ renderedArtifacts publishedDemo e = Done (Ok publishedArtifacts).
Proof.
  destruct (published_run_reports _ eq_refl) as (report & h' & Hrun & Ht).
  pose proof (published_run_build _ report h' eq_refl Hrun) as Hbuild.
  destruct (run_of_runs _ _ _ _ Hrun) as (w0 & plan0 & _ & _ & Hr).
  exists (ideal_bench w0 plan0). eexists. exists report, h'.
  destruct (vis_artifacts_published (ideal_bench w0 plan0) _ _ _ _ _ report h' publishedDemo eq_refl (ideal_patient w0 plan0) Hr Ht Hbuild eq_refl)
    as (text & e & H). exists text, e. split; [exact Hr|exact H].
Defined.

(** C30: which reports of the harness are accepted. The text of a report that the harness
    has checked is decoded to that very report if its seed, its build and its digest are
    the published ones, and is rejected with the one error if not; decoding never panics. *)
Theorem vis_report_accepted (report : saturationReport) : typed_report report -> consistent report ->
  exists text, marshalReport report = Done (Ok text)
  /\ (decodeSaturationVisualReport text = Done (Ok report) <->
      rp_Seed report = visualSaturationSeed /\ expectedBuild report /\ ce_Digest (rp_Categorical report) = visualSaturationDigest)
  /\ (decodeSaturationVisualReport text <> Done (Ok report) -> decodeSaturationVisualReport text = Done (Err errSaturationVisual)).
Proof.
  intros Ht Hc. destruct (marshalReport_writes report Ht) as [(_ & Hm & _)|[Hno _]]; [|destruct (Hno Hc)].
  exists (marshal (saturationReport_json report) ++ [10]). split; [exact Hm|].
  destruct (visual_decodes report Hc Ht) as [[Ha Hd]|[Ha Hd]].
  - split; [split; [intros _; exact Ha|intros _; exact Hd]|]. intros Hno. destruct (Hno Hd).
  - split; [|intros _; exact Hd]. split; [intros Hok; rewrite Hok in Hd; discriminate Hd|]. intros H. destruct (Ha H).
Qed.

Lemma vis_report_accepted_witness : exists report text, marshalReport report = Done (Ok text)
  /\ decodeSaturationVisualReport text = Done (Ok report).
Proof.
  destruct (published_run_reports _ eq_refl) as (report & h' & Hrun & Ht).
  pose proof (published_run_build _ report h' eq_refl Hrun) as Hbuild.
  destruct (run_of_runs _ _ _ _ Hrun) as (w0 & plan0 & _ & _ & Hr).
  destruct (run_accepted (ideal_bench w0 plan0) _ _ _ _ _ report h' eq_refl (ideal_patient w0 plan0) Hr Hbuild) as (Hc & Hacc & _).
  destruct (vis_report_accepted report Ht Hc) as (text & Hm & Hd & _). exists report, text. split; [exact Hm|].
  exact (proj2 Hd Hacc).
Defined.

(** ** The guard of what is published *)

(** A byte that is not ASCII begins a rune that is not. *)
Lemma runes_high a l : 128 <= a -> exists r rest, runes (a :: l) = r :: rest /\ 128 <= r.
Proof.
  intros Ha. assert (He : 128 <= RuneError) by done. cbn [runes]. rewrite (proj2 (Z.ltb_ge a 128) Ha).
  destruct l as [|b l]; [by eexists _, _|]. destruct (utf8_2 a b) eqn:H2.
  { eexists _, _. split; [reflexivity|]. unfold utf8_2, cont in H2. unfold between in H2. unfold rune2. lia. }
  destruct l as [|c l]; [by eexists _, _|]. destruct (utf8_3 a b c) eqn:H3.
  { eexists _, _. split; [reflexivity|]. unfold utf8_3, cont in H3. unfold between in H3. unfold rune3. lia. }
  destruct l as [|d l]; [by eexists _, _|]. destruct (utf8_4 a b c d) eqn:H4; [|by eexists _, _].
  eexists _, _. split; [reflexivity|]. unfold utf8_4, cont in H4. unfold between in H4. unfold rune4. lia.
Qed.

Definition publicByte (c : Z) : Prop := 32 <= c <= 127 \/ c = 10 \/ c = 9.

Lemma rejected_none text : Forall (fun c => 0 <= c) text -> rejectedRune (runes text) = None <-> Forall publicByte text.
Proof.
  induction 1 as [|c text Hc _ IH]; [split; [constructor|done]|]. rewrite Forall_cons. destruct (Z.lt_ge_cases c 128) as [Hl|Hl].
  - cbn [runes]. rewrite (proj2 (Z.ltb_lt c 128) Hl). cbn [rejectedRune]. rewrite (proj2 (Z.ltb_ge 127 c)) by lia. rewrite <- IH.
    unfold publicByte. destruct ((c <? 32) && negb (c =? 10) && negb (c =? 9)) eqn:Hb; (split; [intros Hn|intros [Hp Hn]]); try done; [lia|].
    split; [lia|exact Hn].
  - destruct (runes_high c text Hl) as (r & rest & -> & Hr). cbn [rejectedRune]. rewrite (proj2 (Z.ltb_lt 127 r)) by lia.
    unfold publicByte. split; [done|]. intros [Hp _]. lia.
Qed.

Lemma public_valid text : Forall publicByte text -> utf8_valid text = true.
Proof.
  induction 1 as [|c text Hc _ IH]; [done|]. cbn [utf8_valid]. unfold publicByte in Hc. by rewrite (proj2 (Z.ltb_lt c 128)) by lia.
Qed.

(** C36: what may be published. A text passes the guard exactly when all of its bytes are
    ASCII and no control characters but tabs and line feeds (and 127), and no email
    address, no path of a host and no credential occurs in it, in the sense of the three
    expressions of the source. *)
Theorem vis_publishable_exact (text : gostring) : Forall (fun c => 0 <= c) text ->
  ensureVisualPublishable text = None <->
  Forall publicByte text
  /\ ~ occurs_in visualEmailPattern text /\ ~ occurs_in visualHostPathPattern text /\ ~ occurs_in visualSecretPattern text.
Proof.
  intros Hb. rewrite <- !MatchString_iff, !not_true_iff_false. unfold ensureVisualPublishable.
  pose proof (rejected_none text Hb) as Hr. destruct (rejectedRune (runes text)) as [e|].
  { split; [|intros [Hp _]; by discriminate (proj2 Hr Hp)]. by destruct (negb (utf8_valid text)). }
  pose proof (proj1 Hr eq_refl) as Hp. rewrite (public_valid text Hp). cbn [negb].
  destruct (MatchString visualEmailPattern text); [split; [done|intros (_ & H & _); discriminate H]|].
  destruct (MatchString visualHostPathPattern text); [split; [done|intros (_ & _ & H & _); discriminate H]|].
  destruct (MatchString visualSecretPattern text); [split; [done|intros (_ & _ & _ & H); discriminate H]|]. done.
Qed.

(** The line of the tool itself is fine; with an address in it, it is not. *)
Lemma vis_publishable_exact_witness :
  ensureVisualPublishable (bs "validate: gateway policy is valid") = None
  /\ ~ occurs_in visualEmailPattern (bs "validate: gateway policy is valid")
  /\ ensureVisualPublishable (bs "by someone@example.org") <> None.
Proof.
  assert (H : forall s, forallb (fun c => 0 <=? c) s = true -> Forall (fun c => 0 <= c) s).
  { intros s Hs. apply Forall_forall. intros c Hc. apply Z.leb_le. exact (proj1 (forallb_forall _ _) Hs c (proj1 (list_elem_of_In _ _) Hc)). }
  split; [by vm_compute|]. split; [|by vm_compute].
  apply (proj1 (vis_publishable_exact (bs "validate: gateway policy is valid") ltac:(apply H; by vm_compute)) ltac:(by vm_compute)).
Defined.

(** ** Running the harness *)

(** C35: the harness is built in a directory of its own within the repository, and run from
    there with the repository as its working directory. Whatever the machine answers, the
    run comes to an end; every directory that was made has been removed, unless the
    machine refused to; and where there is evidence, what was done is exactly this: the
    directory was made and made private, the harness was built, then run, and the directory
    was removed, and the evidence is that of a valid report that is all of what the harness
    wrote. *)
Theorem vis_run_contained (V : visualMachine) (live : bool) (root : gostring) :
  exists r acts, runSaturationVisual V live root [] = Done (r, acts)
  /\ (forall private, madeDirectory private ∈ acts -> removedDirectory private ∈ acts \/ vm_RemoveAll V private = false)
  /\ match r with
     | Ok e => validateSaturationVisualEvidence e = Ok tt
         /\ exists root' private, vm_Abs V root = Some root' /\ vm_MkdirTemp V root' = Some private
            /\ acts = [madeDirectory private; madePrivate private; ranCommand (buildCommand (vm_goroot V) root' private);
                       ranCommand (harnessCommand root' private); removedDirectory private]
            /\ exists report, decodeSaturationVisualReport
                 (mjoin (vo_stdout (vm_Run V (take 3 acts) (harnessCommand root' private)))) = Done (Ok report)
               /\ saturationVisualEvidenceFromReport report = Done (Ok e)
     | Err _ => True
     end.
Proof.
  destruct (visual_run V live root []) as (r & l & Hrun & Hc & Hr). exists r, l. split; [exact Hrun|]. split; [exact Hc|].
  destruct r as [e|e]; [|exact I]. destruct Hr as (_ & Hv & root' & private & Ha & Hm & -> & He). split; [exact Hv|].
  exists root', private. split; [exact Ha|]. split; [exact Hm|]. split; [reflexivity|exact He].
Qed.

(** ** Files *)

(** C23: an artifact is replaced at once or not at all, whatever the system answers and at
    whatever stage writing fails. A write comes to an end; there is at most one rename, of a
    temporary file to the artifact in the same directory, and that file by then was created,
    took the whole payload, was synced after that and closed after that; a write that
    succeeds has renamed it; and every temporary file that was created was renamed or a
    call was made that removes it. *)
Theorem vis_atomic_write (H : OS) (output : Z) (name payload : gostring) (hook : option (string -> bool)) (log : list fsEvent) :
  exists r l, atomicWriteVisualWithHook output name payload hook log = Done (r, log ++ l)
  /\ cleared output name (map view l)
  /\ (Forall unrenaming (map view l) /\ r <> Ok tt
      \/ exists ok, swapped output name payload ok (map view l) /\ (r = Ok tt -> ok = true)).
Proof. exact (atomic_writes output name payload hook log). Qed.

(** C22: the command, whatever its arguments are and whatever the system, the loopback
    demonstration and the machine of the harness answer. It ends, with one line on one
    stream and the code 0 on success, 1 after a failure or 2 for arguments it does not
    know; then it has done nothing at all. What it does otherwise is, in this order: it
    finds the repository, runs the demonstration, runs the harness, and builds the
    artifacts and checks or writes them, as far as it gets. It closes every directory and
    file exactly as often as it opened it. With [--check], no call of its own changes
    anything on disk; the run of the harness still makes a directory in the repository, and
    removes it unless the machine refuses to; and a success takes exactly the acts of one
    demonstration and of one run of the harness. (What the demonstration and the processes
    that are run do on disk themselves is not modelled.) *)
Theorem vis_command_closes (H : OS) (callerFile : option gostring) (loopback : gostring -> option demoEvidence) (V : visualMachine)
    (args : list gostring) (log : list cliEvent) :
  exists code stream line l, runVisualCLI callerFile loopback V args log = Done ((code, [(stream, line ++ [c_lf])]), log ++ l)
  /\ (code = 0 /\ stream = visualStdout \/ (code = 1 \/ code = 2) /\ stream = visualStderr)
  /\ (code = 2 <-> args <> [] /\ args <> [bs "--check"]) /\ (code = 2 -> l = [])
  /\ exists found shown acts rest,
     l = map calledSystem found ++ map demonstrated shown ++ map actedOnMachine acts ++ map calledSystem rest
     /\ (forall h, balance h found = 0 /\ balance h rest = 0)
     /\ Forall calm found /\ (Forall calm rest \/ args = [])
     /\ (length shown <= 1)%nat /\ contained V acts
     /\ (code = 0 -> exists root root' private, shown = [root] /\ vm_Abs V root = Some root' /\ vm_MkdirTemp V root' = Some private
          /\ acts = [madeDirectory private; madePrivate private; ranCommand (buildCommand (vm_goroot V) root' private);
                     ranCommand (harnessCommand root' private); removedDirectory private]).
Proof.
  destruct (parseVisualArgs args) as [check ok] eqn:Ha. destruct ok.
  - assert (Hargs : check = true /\ args = [bs "--check"] \/ check = false /\ args = []).
    { destruct args as [|arg [|arg' args]]; cbn [parseVisualArgs] in Ha; [by injection Ha as <-; right| |discriminate Ha].
      case_bool_decide as Harg; [|discriminate Ha]. subst arg. injection Ha as <-. by left. }
    destruct (runVisual_performed callerFile loopback V args check Ha log)
      as ([code writes] & l & Hrun & found & shown & acts & rest & Hl & [Hbf Hcf] & Hshown & Hc & [[Hbr Hcr] (stream & line & Hw & Hcode)] & Hdone).
    cbn [fst snd] in *. subst writes. exists code, stream, line, l. split; [exact Hrun|].
    split; [destruct Hcode as [?|[? ?]]; [by left|right; split; [by left|done]]|].
    split; [split; [intros ->; destruct Hcode as [[? _]|[? _]]; discriminate|intros [Hne Hnc]; by destruct Hargs as [[_ ?]|[_ ?]]]|].
    split; [intros ->; destruct Hcode as [[? _]|[? _]]; discriminate|].
    exists found, shown, acts, rest. split; [exact Hl|]. split; [intros h; split; [apply Hbf|apply Hbr]|].
    split; [by apply Hcf|]. split; [destruct Hargs as [[-> _]|[_ ->]]; [left; by apply Hcr|by right]|]. by split_and!.
  - exists 2, visualStderr, (bs "usage: go run ./tools/render_readme_visuals [--check]"), []. split.
    { unfold runVisualCLI. rewrite Ha. cbn [negb]. unfold ends. by rewrite app_nil_r. }
    split; [right; split; [by right|reflexivity]|]. split; [|split; [reflexivity|]].
    + split; [|reflexivity]. intros _. split; intros ->; [discriminate Ha|]. cbn [parseVisualArgs] in Ha.
      rewrite bool_decide_eq_true_2 in Ha by reflexivity. discriminate Ha.
    + exists [], [], [], []. split_and!; [reflexivity|by split|constructor|left; constructor|cbn; lia| |discriminate].
      intros private Hp. by apply elem_of_nil in Hp.
Qed.

Lemma validArtifacts_fine files : validArtifacts files = None ->
  Forall (fun file => artifactName (fst file) = true /\ Z.of_nat (length (snd file)) <= visualMaxArtifactBytes) files.
Proof.
  induction files as [|[name payload] files IH]; cbn [validArtifacts]; [constructor|].
  destruct (artifactName name) eqn:Hn; cbn [negb]; [|discriminate]. destruct (visualMaxArtifactBytes <? Z.of_nat (length payload)) eqn:Hl; [discriminate|].
  intros Hf. constructor; [|by apply IH]. split; [exact Hn|]. cbn [snd]. lia.
Qed.

Lemma artifactSet_fine files : validateVisualArtifactSet files = None ->
  Z.of_nat (size files) <= visualMaxArtifactCount
  /\ forall name payload, files !! name = Some payload -> artifactName name = true /\ Z.of_nat (length payload) <= visualMaxArtifactBytes.
Proof.
  unfold validateVisualArtifactSet. destruct ((size files =? 0)%nat || _) eqn:Hc; [discriminate|]. apply orb_false_iff in Hc as [_ Hc].
  case_bool_decide; [discriminate|]. intros Hf%validArtifacts_fine. split; [lia|]. intros name payload Hp%elem_of_map_to_list.
  exact (proj1 (Forall_forall _ _) Hf (name, payload) Hp).
Qed.

(** C29: the check of the artifacts is exact. In a directory that stands still, it comes to
    an answer, and finds nothing stale exactly when the directory holds the artifacts and
    nothing else, each of them byte for byte and as a regular file of mode 0644; entries of
    other kinds, missing and additional ones are all found or reported as errors. *)
Theorem vis_check_exact (H : OS) (output : Z) (D : onDisk) (files : artifacts) (log : list fsEvent) :
  still output D -> validateVisualArtifactSet files = None ->
  exists r l, checkVisualArtifactsInRoot output files log = Done (r, log ++ l) /\ (r = Ok [] <-> asOnDisk D files).
Proof.
  intros Hstill [Hcount Hnames]%artifactSet_fine. exact (check_still output D files Hstill Hnames Hcount log).
Qed.

(** A directory with the one file that has to be there. *)
Definition still_file : fileStat * list Z := (mkStat 420 3 0 7, [123; 125; 10]).
Definition still_disk : onDisk := {[visualManifestName := still_file]}.

#[local] Instance still_os : OS := fun A _ c =>
  let directory := mkStat (2147483648 + 493) 4096 0 2 in
  match c in fsCall A return A with
  | fsAbs name => Ok name
  | fsOpenSystemRoot _ | fsOpenRoot _ _ | fsCreate _ _ _ => Err fsOther
  | fsStat _ => Ok directory
  | fsLstat _ name => if decide (name = visualManifestName) then Ok (fst still_file) else Err fsNotExist
  | fsMkdir _ _ _ | fsChmod _ _ | fsSync _ | fsRemove _ _ | fsRename _ _ _ => Some fsOther
  | fsOpenSelf _ => Ok 4
  | fsOpenRead _ _ => Ok 5
  | fsFileStat file => Ok (if file =? 4 then directory else fst still_file)
  | fsRead _ => (snd still_file, false)
  | fsWrite _ _ => (0%nat, Some fsOther)
  | fsClose _ => None
  | fsReaddirnames _ n => (take (Z.to_nat n) [visualManifestName], None)
  | fsRandom _ => None
  end.

Lemma still_os_still : still 3 still_disk.
Proof.
  assert (Hone : forall name info content, still_disk !! name = Some (info, content) -> name = visualManifestName /\ (info, content) = still_file).
  { intros name info content Hn. unfold still_disk in Hn. apply lookup_singleton_Some in Hn as [<- Hs]. by split. }
  split.
  - exists (mkStat (2147483648 + 493) 4096 0 2). split; [by vm_compute|]. split; [reflexivity|].
    exists 4, [visualManifestName]. split_and!; try reflexivity. by repeat constructor.
  - intros log name info content [-> Hf]%Hone. injection Hf as -> _. reflexivity.
  - intros name info content [-> Hf]%Hone _. injection Hf as -> ->. split; [reflexivity|]. exists 5. by split_and!.
Qed.

(** The file as it is, and one that it should be and is not. *)
Lemma vis_check_exact_witness : exists (H : OS) (good bad : artifacts) l l',
  checkVisualArtifactsInRoot 3 good [] = Done (Ok [], l) /\ checkVisualArtifactsInRoot 3 bad [] = Done (Ok [visualManifestName], l').
Proof.
  exists still_os, {[visualManifestName := [123; 125; 10]]}, {[visualManifestName := [123; 10]]}.
  destruct (vis_check_exact still_os 3 still_disk {[visualManifestName := [123; 125; 10]]} [] still_os_still ltac:(by vm_compute))
    as (r & l & Hrun & Hr).
  assert (r = Ok []) as ->.
  { apply Hr. split; [unfold still_disk; rewrite !dom_singleton_L; reflexivity|]. intros name payload Hp. apply lookup_singleton_Some in Hp as [<- <-]. exists (fst still_file). by split. }
  exists l. eexists. split; [exact Hrun|]. vm_compute. reflexivity.
Defined.
